(* ===== verification/_CoqProject ===== *)
-Q . S2P
Prelude.v
Bitmap.v
Dlist.v
DlistSort.v
Thread.v
Input.v
Synch.v
SynchInv.v
SynchLock.v
Palloc.v
Malloc.v
Pagedir.v
AddrSpace.v
Segments.v
Boot.v
Filesys.v
FsData.v
FsDir.v
FsMap.v
FsOpen.v
Process.v
Loader.v
Exec.v
Exception.v
System.v
Strings.v
Arith.v
Sort.v
Random.v
Hash.v
HashInv.v
HashTable.v
Stdio.v
Ustar.v
Shell.v
Partition.v
Ide.v
Clock.v
Vga.v
Serial.v
Kbd.v
Console.v
Command.v
Fsutil.v
