(* ===== verification/Prelude.v ===== *)
(** * Pintos and the shell exercise: a verification of the kernel and its libraries

    The program is the Pintos kernel of lab_2/pintos/src (paths below are
    relative to it): a small 80x86 operating system with a preemptive
    scheduler, synchronization, a page allocator, page tables, a file system
    and a loader for user programs, on top of a freestanding C library; and
    the command line parser of the shell exercise, lab_1/code.

    ** Parts of the program and how they interact

    [main] reads the command line that the loader left in memory, sets up the
    page pools, maps the RAM, fills the descriptor and interrupt tables, finds
    the disks, chooses the block devices by role, runs the actions of the
    command line and shuts the machine down.  The scheduler keeps its threads
    in the lists of lib/kernel/list.c; the timer interrupt calls
    [thread_tick], which asks for a yield when the time slice ends; semaphores
    block and unblock threads, and locks and condition variables are built on
    semaphores.  The page allocator keeps the used pages in bitmaps
    (lib/kernel/bitmap.c) and gives pages to the heap ([malloc]), to the page
    directories and to the processes.  Block devices are disks or partitions
    of other devices.  The file system keeps inodes on a block device, a
    bitmap of free sectors that is itself stored in a file, and directories
    that are files of entries.  A process is a thread with a page directory:
    the loader reads an executable through the file system into user pages,
    and exceptions and system calls come back through the interrupt table and
    end the process.  The actions copy files between the file system and an
    archive on the scratch device.  The disk driver is one implementation of
    the operations of a block device; it talks to the hardware through ports
    and waits for interrupts on a semaphore.  The console prints on the serial
    port, which sends from an interrupt queue, and on the screen.  Hash tables
    are arrays of lists.  Formatted output and archive headers use the string
    library.

    ** Files and what they model

    - Prelude: outcomes of C code ([Ret], and [Err] for a failed assertion, a
      panic, an access outside of any object, or exhausted fuel), 32- and
      64-bit integers, the loop combinators with their proof rules, the state
      monad [ST], tactics and shared lemmas.
    - Bitmap: lib/kernel/bitmap.c, lib/round.h.
    - Dlist, DlistSort: lib/kernel/list.c at the level of pointers.
    - Thread: threads/thread.c, the interrupt level and dispatch of
      threads/interrupt.c, the tick of devices/timer.c.
    - Input: the ring buffer of devices/intq.c on that scheduler, with its
      lock and the threads that sleep in it; a call runs up to where its
      thread sleeps, and what the thread does when it runs again is a
      definition of its own ([getc_again], [putc_again]).
    - Synch, SynchInv, SynchLock: threads/synch.c as a machine of threads
      whose steps are the sections of the code that run with interrupts off.
    - Palloc: threads/vaddr.h and threads/palloc.c; Malloc:
      threads/malloc.c on top of it; Pagedir: threads/pte.h and
      userprog/pagedir.c with CR3 and the TLB; AddrSpace: lemmas on the pages
      that make up an address space and on what user code sees in it.
    - Segments: userprog/gdt.c and tss.c, the gates, tables and registration
      of threads/interrupt.c, and the registrations of userprog/exception.c
      and syscall.c.
    - Boot: [paging_init] of threads/init.c; System: the part of [main] that
      initializes the memory.
    - Filesys: the sectors of one device of devices/block.c,
      filesys/free-map.c, inode.c, file.c, directory.c and filesys.c; FsData,
      FsDir, FsMap and FsOpen hold its theorems.
    - Process: userprog/process.c on the joint state of memory, file system
      and scheduler; Loader and Exec hold its lemmas and theorems.
    - Exception: the handlers of userprog/exception.c and syscall.c and the
      dispatch through the table of handlers of threads/interrupt.c.
    - Partition: devices/block.c and partition.c; the class [RawDriver] with
      its laws [DriverLaws] is the interface to the driver of a disk.
    - Strings: lib/string.c on a memory of bytes; Arith: lib/arithmetic.c;
      Sort: lib/stdlib.c; Random: lib/random.c; Hash, HashInv, HashTable:
      lib/kernel/hash.c.
    - Stdio: lib/stdio.c; Ustar: lib/ustar.c.
    - Shell: lab_1/code/parse.c and lsh.c.
    - Ide: devices/ide.c on a machine that is a parameter; the class [Ports]
      has its instructions and [AtaLaws] what the ATA standard promises.
    - Clock: devices/rtc.c, pit.c and speaker.c, the calibration and delays of
      devices/timer.c.
    - Vga: devices/vga.c; Serial: devices/serial.c and devices/input.c, which
      call each other; Kbd: devices/kbd.c; Console: lib/kernel/console.c, with
      the characters that Stdio produces.
    - Command: the command line, the options, the actions and the choice of
      block devices of threads/init.c; devices/shutdown.c.
    - Fsutil: filesys/fsutil.c on Filesys, Partition, Ustar and Strings.

    C structures are [Record]s or cells of a heap, enumerations are
    [Inductive] types or their integer values, and a function of the source is
    a [Definition] or [Fixpoint] of the same name; the body of a loop that is
    not structural has a name of its own ([scan_loop], [merge_loop], ...).

    ** What the theorems show

    - Start-up: the kernel mapping is the whole RAM, for the kernel only
      ([paging_init_correct]), descriptors and gates have the fields the CPU
      expects ([make_seg_desc_correct], [user_gates_correct]), and [main]
      establishes what the loader assumes ([boot_ready]).  The options and
      words of the command line are read as they are written
      ([command_line_correct]) and the actions run in order, up to the first
      one that is unknown or lacks arguments ([run_actions_correct]); what
      shutting down does ([shutdown_correct]); which device gets a role
      ([locate_block_device_correct]).
    - Processes: [load] builds exactly the address space that the executable
      describes and leaks nothing, also when pages are exhausted or
      allocations of [malloc] fail ([load_correct], [load_exit_no_leak]);
      starting, making and ending processes ([start_process_correct],
      [process_execute_correct]); a process cannot take the kernel down by
      exceptions or system calls ([trap_contained]).
    - Allocation: on top of the page allocator, [malloc], [free] and
      [realloc] keep the blocks in use apart and their contents intact, fail
      only when they must and give back the pages that no block needs
      ([malloc_correct], [free_correct], [realloc_correct];
      [heap_size_overflow] shows the sizes that overflow); the page allocator
      and the free map hand out only free pages and sectors and take back
      exactly what was given out, also when memory or the disk fails.
    - Virtual memory: mapping and unmapping change exactly the translations
      they should, and flush the TLB.
    - Scheduling: the invariant of the scheduler, round robin, preemption at
      the end of a time slice.  Synchronization, for all reachable states of
      all interleavings: wait lists are exact, wakeups are not lost, locks
      exclude.
    - Devices: the disk driver stores and returns sectors and identifies
      disks, for every schedule of the interrupts ([ide_read_correct],
      [ide_write_correct], [identify_ata_device_correct]); every block device
      reads and writes its own range like a driver ([block_device_laws]); the
      partitions that a scan registers, and for which tables of extended
      partitions it never ends ([partition_scan_correct],
      [partition_scan_terminates]); the interrupt queue is a FIFO whose
      waiters are woken in time, but a second waiter may trip an assertion
      ([interrupt_queue_correct]), and the keyboard handler tracks the shift
      keys ([keyboard_correct]).  The serial port loses and reorders no byte
      in either direction, also those of threads that had to sleep
      ([serial_correct]),
      the screen is the end of an endless roll of paper ([vga_putc_refines]),
      and what is printed on the console goes whole to both, with interrupts
      off or with room in the transmit queue ([console_output]).
      [timer_calibrate] finds the highest bit of the speed of the CPU, and is
      off by a third at most ([timer_calibrate_correct]).
    - Files: reading and writing inodes at any range, directories as maps,
      shared inodes and deferred removal, opening and closing, with
      allocations of buffers that may fail; a file is appended to an archive
      as the format asks ([fsutil_append_correct]).
    - Lists, arrays and tables: the pointer operations refine operations on
      sequences; [list_sort] is a stable sort, [sort] a heap sort in place;
      [binary_search] terminates and is right; hash tables are collections,
      through rehashing and failures of malloc.
    - Text and numbers: archive headers and decimal numbers round trip;
      [snprintf] and [format_integer] stay inside of their buffers;
      [strtok_r] and [memmove] meet their specifications; 64-bit division.
    - The shell parser agrees with a grammar on every line that fits into its
      arrays ([parse_correct], [parse_print]), which it does not check
      ([parse_unchecked]); [parse_correct] also says which stale bytes it takes
      for a file name that is missing.

    ** Fuel and bounds

    [loop] makes at most 2^32 iterations, which no loop over a 32-bit address
    space or a 32-bit count exceeds; its rules ([loop_rule], [loop_ind],
    [loop_trace]) ask for a measure below 2^32 and give a result, so that a
    theorem of the form [f x = Ret y] includes termination.  The loops of
    Dlist take fuel as an argument: the length of the list plus one is enough,
    and every theorem says so.  The loops of Filesys take the number of bytes
    left or the number of directory entries, which decreases at every
    iteration.  The recursion of [read_partition_table] takes fuel, and the
    theorem on its termination says for which tables some fuel is enough.
    The parser of the shell takes fuel from the length of the line, and from
    the sizes of the arrays where it follows pointers into them.  The loops of
    [timer_calibrate] shift a bit through a 32-bit word: fuel 32.

    The waits of the disk driver end because the machine is assumed to
    complete a command within the 29.99 s that the driver waits; a sleep takes
    at least its time, and that it ends on a timer tick is not modelled.  A
    thread that sleeps for an interrupt resumes with the interrupt that it
    waits for.  The loop that ends [shutdown_reboot] is its first iteration.


    ** Not modelled

    Assembly (start.S, switch.S, intr-stubs.S, loader.S) and the inline
    assembly of the CPU, which is stated as its documented effect where it is
    used; the code of [main] that only calls the parts above one after the
    other, the statistics, [kernel_thread] and [thread_start];
    lib/kernel/debug.c and lib/debug.c but for the assertions; user programs,
    tests and host utilities.  PROJECT.json lists every part with its
    reason. *)
From stdpp Require Import prelude list gmap.
From Stdlib Require Import ZArith Lia.

(** ** Outcomes of C code

    A C computation either returns a value or stops.  The ways of
    stopping are kept apart: a failed [ASSERT], a [PANIC] (or
    [NOT_REACHED]), an access outside of any object (undefined
    behaviour of the C program), and, for loops that are not structurally
    terminating, the exhaustion of the fuel given to the model. *)
Inductive fault : Type :=
| AssertFailed
| Panicked
| BadAccess
| NoFuel.

Inductive outcome (A : Type) : Type :=
| Ret (a : A)
| Err (e : fault).
Arguments Ret {A} a.
Arguments Err {A} e.

#[export] Instance fault_eq_dec : EqDecision fault.
Proof. solve_decision. Defined.

Definition obind {A B} (m : outcome A) (f : A -> outcome B) : outcome B :=
  match m with Ret a => f a | Err e => Err e end.

Declare Scope pintos_scope.
Delimit Scope pintos_scope with pintos.
#[global] Open Scope pintos_scope.

Notation "'let!' x ':=' m 'in' k" := (obind m (fun x => k))
  (at level 10, x pattern, m at level 100, k at level 200,
   format "'[v' 'let!'  x  ':='  m  'in' '/' k ']'") : pintos_scope.

(** [ASSERT (cond)] of lib/debug.h. *)
Definition ASSERT (cond : bool) : outcome unit :=
  if cond then Ret tt else Err AssertFailed.

(** Reading a location that may not exist. *)
Definition access {A} (o : option A) : outcome A :=
  match o with Some a => Ret a | None => Err BadAccess end.

(** ** State-passing computations *)
Definition ST (S A : Type) : Type := S -> outcome (A * S).

Definition sret {S A} (a : A) : ST S A := fun s => Ret (a, s).
Definition sbind {S A B} (m : ST S A) (f : A -> ST S B) : ST S B := fun s =>
  match m s with Ret (a, s') => f a s' | Err e => Err e end.

Notation "'do!' x ':=' m 'in' k" := (sbind m (fun x => k))
  (at level 10, x pattern, m at level 100, k at level 200,
   format "'[v' 'do!'  x  ':='  m  'in' '/' k ']'") : pintos_scope.

Definition get {S} : ST S S := fun s => Ret (s, s).
Definition put {S} (s : S) : ST S unit := fun _ => Ret (tt, s).
Definition lift {S A} (m : outcome A) : ST S A := fun s =>
  match m with Ret a => Ret (a, s) | Err e => Err e end.
Definition assert_ {S} (cond : bool) : ST S unit := lift (ASSERT cond).
Definition stop {S A} (e : fault) : ST S A := fun _ => Err e.

(** ** Machine integers of the i386 target *)
#[local] Open Scope Z_scope.

(** The null pointer; an address is an integer. *)
Definition NULL : Z := 0.

Definition two32 : Z := 4294967296.

(** Conversion of a mathematical integer to [uint32_t] / [size_t] /
    [unsigned long]. *)
Definition u32 (z : Z) : Z := z mod two32.

(** Conversion to [int32_t] / [int] / [off_t] (two's complement). *)
Definition s32 (z : Z) : Z := (z + 2147483648) mod two32 - 2147483648.

Definition two64 : Z := 18446744073709551616.
Definition u64 (z : Z) : Z := z mod two64.
Definition s64 (z : Z) : Z :=
  (z + 9223372036854775808) mod two64 - 9223372036854775808.

Definition is_u32 (z : Z) : Prop := 0 <= z < two32.
Definition is_s32 (z : Z) : Prop := -2147483648 <= z < 2147483648.
Definition is_u64 (z : Z) : Prop := 0 <= z < two64.

(** [lib/round.h], on [size_t] operands. *)
Definition DIV_ROUND_UP (x step : Z) : Z := u32 (x + step - 1) / step.
Definition ROUND_UP (x step : Z) : Z := u32 (u32 (x + step - 1) / step * step).
Definition ROUND_DOWN (x step : Z) : Z := u32 (x / step * step).

(** ** Loops

    [for_loop n i f a] runs [f i], [f (i+1)], ..., [f (i+n-1)] in order,
    threading the state and stopping at the first fault: a C loop
    [for (i = 0; i < cnt; i++)] without early exit. *)
Fixpoint for_loop {A} (n : nat) (i : Z) (f : Z -> A -> outcome A) (a : A) : outcome A :=
  match n with
  | O => Ret a
  | S n' => let! a' := f i a in for_loop n' (i + 1) f a'
  end.

(** [loop body s] runs [body] until it yields a result: [inl s'] goes on with
    the state [s'], [inr r] leaves the loop.  It makes at most [2^32]
    iterations; the count is binary, so that the loop can be executed. *)
Fixpoint while_pos {S R} (p : positive) (body : S -> outcome (S + R)) (s : S) : outcome (S + R) :=
  let twice q s := match while_pos q body s with
                   | Ret (inl s') => while_pos q body s'
                   | r => r
                   end in
  match p with
  | xH => body s
  | xO q => twice q s
  | xI q => match body s with Ret (inl s') => twice q s' | r => r end
  end.

Definition loop {S R} (body : S -> outcome (S + R)) (s : S) : outcome R :=
  match while_pos 4294967296 body s with
  | Ret (inr r) => Ret r
  | Ret (inl _) => Err NoFuel
  | Err e => Err e
  end.

(** The same for state-passing code. *)
Definition sloop {S A R} (body : A -> ST S (A + R)) (a : A) : ST S R := fun s =>
  loop (fun '(a, s) =>
    match body a s with
    | Ret (inl a', s') => Ret (inl (a', s'))
    | Ret (inr r, s') => Ret (inr (r, s'))
    | Err e => Err e
    end) (a, s).

(** ** Automation *)

(** Splits boolean tests of the code into propositions. *)
Ltac bool_cases :=
  repeat match goal with
  | H : context [Z.ltb ?a ?b] |- _ => destruct (Z.ltb_spec a b)
  | H : context [Z.leb ?a ?b] |- _ => destruct (Z.leb_spec a b)
  | H : context [Z.eqb ?a ?b] |- _ => destruct (Z.eqb_spec a b)
  | |- context [Z.ltb ?a ?b] => destruct (Z.ltb_spec a b)
  | |- context [Z.leb ?a ?b] => destruct (Z.leb_spec a b)
  | |- context [Z.eqb ?a ?b] => destruct (Z.eqb_spec a b)
  end.

(** Takes one step of a computation known to return. *)
Ltac inv_ret :=
  repeat match goal with
  | H : Ret _ = Ret _ |- _ => injection H; clear H; intros; subst
  | H : Err _ = Ret _ |- _ => discriminate H
  | H : Ret _ = Err _ |- _ => discriminate H
  | H : (_, _) = (_, _) |- _ => injection H; clear H; intros; subst
  end.

(** Equality of structured values whose leaves are integers. *)
Ltac feq := repeat first [reflexivity | lia | progress f_equal].

(** ** Generic lemmas *)

Lemma u32_small z : is_u32 z -> u32 z = z.
Proof. unfold is_u32, u32. intros. apply Z.mod_small. lia. Qed.

Lemma u32_range z : is_u32 (u32 z).
Proof. unfold is_u32, u32. apply Z.mod_pos_bound. unfold two32. lia. Qed.

Lemma s32_small z : is_s32 z -> s32 z = z.
Proof. unfold is_s32, s32. intros. rewrite Z.mod_small by (unfold two32; lia). lia. Qed.

Lemma s32_range z : is_s32 (s32 z).
Proof.
  unfold is_s32, s32. pose proof (Z.mod_pos_bound (z + 2147483648) two32).
  unfold two32 in *. lia.
Qed.

Lemma u64_small z : is_u64 z -> u64 z = z.
Proof. unfold is_u64, u64. intros. apply Z.mod_small. lia. Qed.

(** A loop invariant rule: if the body preserves [I] at every index of the
    range, the loop returns and the invariant holds at the end. *)
Lemma for_loop_ind {A} (I : Z -> A -> Prop) f n i a :
  I i a ->
  (forall k x, i <= k < i + Z.of_nat n -> I k x -> exists y, f k x = Ret y /\ I (k + 1) y) ->
  exists b, for_loop n i f a = Ret b /\ I (i + Z.of_nat n) b.
Proof.
  revert i a. induction n as [|n IH]; intros i a H0 Hstep; simpl for_loop.
  - exists a. split; [done|]. by replace (i + Z.of_nat 0) with i by lia.
  - destruct (Hstep i a) as (y & Hf & Hy); [lia|done|]. rewrite Hf. simpl.
    destruct (IH (i + 1) y Hy) as (b & Hb & Hi).
    { intros k x Hk. apply Hstep. lia. }
    exists b. split; [done|]. by replace (i + Z.of_nat (S n)) with (i + 1 + Z.of_nat n) by lia.
Qed.

(** Total correctness of [loop]: an invariant and a variant below [2^32]. *)
Fixpoint while_nat {S R} (n : nat) (body : S -> outcome (S + R)) (s : S) : outcome (S + R) :=
  match n with
  | O => Ret (inl s)
  | Datatypes.S n' => match body s with Ret (inl s') => while_nat n' body s' | r => r end
  end.

Lemma while_nat_add {S R} n m (body : S -> outcome (S + R)) s :
  while_nat (n + m) body s =
    match while_nat n body s with Ret (inl s') => while_nat m body s' | r => r end.
Proof.
  revert s. induction n as [|n IH]; intros s; [done|]. simpl. destruct (body s) as [[s'|r]|e]; [apply IH|done|done].
Qed.

Lemma while_pos_nat {S R} p (body : S -> outcome (S + R)) s :
  while_pos p body s = while_nat (Pos.to_nat p) body s.
Proof.
  revert s. induction p as [p IH|p IH|]; intros s; cbn [while_pos].
  - rewrite Pos2Nat.inj_xI. simpl. destruct (body s) as [[s'|r]|e]; [|done|done].
    rewrite IH, Nat.add_0_r, while_nat_add. destruct (while_nat _ body s') as [[s''|r]|e]; [apply IH|done|done].
  - rewrite Pos2Nat.inj_xO. simpl. rewrite IH, Nat.add_0_r, while_nat_add.
    destruct (while_nat _ body s) as [[s''|r]|e]; [apply IH|done|done].
  - simpl. by destruct (body s) as [[s'|r]|e].
Qed.

Lemma while_nat_rule {S R} (I : S -> Prop) (Q : R -> Prop) (v : S -> Z) body n s :
  (forall s, I s -> 0 <= v s) ->
  (forall s, I s -> (exists r, body s = Ret (inr r) /\ Q r) \/
                    (exists s', body s = Ret (inl s') /\ I s' /\ v s' < v s)) ->
  I s -> v s < Z.of_nat n -> exists r, while_nat n body s = Ret (inr r) /\ Q r.
Proof.
  intros Hv Hb. revert s. induction n as [|n IH]; intros s Hi Hn; [specialize (Hv s Hi); lia|]. simpl.
  destruct (Hb s Hi) as [(r & -> & Hq)|(s' & -> & Hi' & Hlt)]; [eauto|]. apply IH; [done|lia].
Qed.

Lemma loop_rule {S R} (I : S -> Prop) (Q : R -> Prop) (v : S -> Z) body s :
  (forall s, I s -> 0 <= v s) ->
  (forall s, I s -> (exists r, body s = Ret (inr r) /\ Q r) \/
                    (exists s', body s = Ret (inl s') /\ I s' /\ v s' < v s)) ->
  I s -> v s < two32 -> exists r, loop body s = Ret r /\ Q r.
Proof.
  intros Hv Hb Hi Hlt. unfold loop. rewrite while_pos_nat.
  destruct (while_nat_rule I Q v body (Pos.to_nat 4294967296) s Hv Hb Hi) as (r & -> & Hq); [|eauto].
  rewrite positive_nat_Z. exact Hlt.
Qed.

(** The rule with the variant as an index of the invariant. *)
Lemma loop_ind {S R} (n : nat) (I : nat -> S -> Prop) (Q : R -> Prop) body s :
  (forall n s, I n s -> (exists r, body s = Ret (inr r) /\ Q r) \/
                        (exists n' s', body s = Ret (inl s') /\ I n' s' /\ (n' < n)%nat)) ->
  I n s -> Z.of_nat n < two32 -> exists r, loop body s = Ret r /\ Q r.
Proof.
  intros Hb Hi Hn. unfold loop. rewrite while_pos_nat.
  assert (forall k n s, (n < k)%nat -> I n s -> exists r, while_nat k body s = Ret (inr r) /\ Q r) as H.
  { induction k as [|k IH]; intros n1 s1 Hk H1; [lia|]. simpl.
    destruct (Hb n1 s1 H1) as [(r & -> & Hq)|(n' & s' & -> & H' & Hlt)]; [eauto|]. apply (IH n'); [lia|done]. }
  destruct (H (Pos.to_nat 4294967296) n s) as (r & -> & Hq); [unfold two32 in Hn; lia|done|eauto].
Qed.

Lemma sloop_ind {S A R} (n : nat) (I : nat -> A -> S -> Prop) (Q : R -> S -> Prop) body a s :
  (forall n a s, I n a s ->
     (exists r s', body a s = Ret (inr r, s') /\ Q r s') \/
     (exists n' a' s', body a s = Ret (inl a', s') /\ I n' a' s' /\ (n' < n)%nat)) ->
  I n a s -> Z.of_nat n < two32 -> exists r s', sloop body a s = Ret (r, s') /\ Q r s'.
Proof.
  intros Hb Hi Hn. unfold sloop.
  match goal with |- context [loop ?body ?init] =>
    destruct (loop_ind n (fun n '(a, s) => I n a s) (fun '(r, s) => Q r s) body init) as ([r s'] & H & Hq); [|done|done|] end.
  - intros n1 [a1 s1] H1. destruct (Hb n1 a1 s1 H1) as [(r & s' & -> & Hq)|(n' & a' & s' & -> & Hi' & Hlt)].
    + left. by exists (r, s').
    + right. by exists n', (a', s').
  - eauto.
Qed.

(** A loop whose successive states are known. *)
Lemma loop_trace {S R} (st : nat -> S) (n : nat) body (r : R) :
  (forall i, (i < n)%nat -> body (st i) = Ret (inl (st (Datatypes.S i)))) ->
  body (st n) = Ret (inr r) -> Z.of_nat n < two32 -> loop body (st O) = Ret r.
Proof.
  intros Hs Hr Hn.
  assert (forall k i, (n - i < k)%nat -> (i <= n)%nat -> while_nat k body (st i) = Ret (inr r)) as H.
  { induction k as [|k IH]; intros i Hk Hi; [lia|]. simpl. destruct (decide (i = n)) as [->|].
    - by rewrite Hr.
    - rewrite Hs by lia. apply IH; lia. }
  unfold loop. rewrite while_pos_nat, H; [done|unfold two32 in Hn; lia|lia].
Qed.

Lemma testbit_high w n j : 0 <= w < 2 ^ n -> 0 <= n <= j -> Z.testbit w j = false.
Proof.
  intros Hw Hj. destruct (Z.eq_dec w 0) as [->|]; [apply Z.bits_0|].
  apply Z.bits_above_log2; [lia|]. apply Z.log2_lt_pow2; [lia|].
  pose proof (Z.pow_le_mono_r 2 n j). lia.
Qed.

Lemma testbit_pow2 k j : 0 <= k -> 0 <= j -> Z.testbit (Z.shiftl 1 k) j = (j =? k).
Proof.
  intros Hk Hj. rewrite Z.shiftl_spec by done. destruct (Z.eqb_spec j k) as [->|Hne].
  - by rewrite Z.sub_diag.
  - destruct (Z_lt_le_dec (j - k) 0) as [Hl|Hl]; [by apply Z.testbit_neg_r|].
    change 1 with (2 ^ 0). apply Z.pow2_bits_false. lia.
Qed.

Lemma lt_pow2_of_bits n w :
  0 <= n -> 0 <= w -> (forall j, n <= j -> Z.testbit w j = false) -> w < 2 ^ n.
Proof.
  intros Hn Hw Hb.
  assert (w = w mod 2 ^ n) as ->.
  { apply Z.bits_inj'. intros j Hj. destruct (Z_lt_le_dec j n).
    - by rewrite Z.mod_pow2_bits_low.
    - rewrite Z.mod_pow2_bits_high by lia. by apply Hb. }
  apply Z.mod_pos_bound. by apply Z.pow_pos_nonneg.
Qed.

Lemma lor_bound n a b : 0 <= n -> 0 <= a < 2 ^ n -> 0 <= b < 2 ^ n -> 0 <= Z.lor a b < 2 ^ n.
Proof.
  intros Hn Ha Hb. split; [apply Z.lor_nonneg; lia|].
  apply lt_pow2_of_bits; [done|apply Z.lor_nonneg; lia|].
  intros j Hj. rewrite Z.lor_spec, (testbit_high a n), (testbit_high b n) by lia. done.
Qed.

Lemma lxor_bound n a b : 0 <= n -> 0 <= a < 2 ^ n -> 0 <= b < 2 ^ n -> 0 <= Z.lxor a b < 2 ^ n.
Proof.
  intros Hn Ha Hb. assert (0 <= Z.lxor a b) by (apply Z.lxor_nonneg; lia).
  split; [done|]. apply lt_pow2_of_bits; [done|done|].
  intros j Hj. rewrite Z.lxor_spec, (testbit_high a n), (testbit_high b n) by lia. done.
Qed.

Lemma land_bound n a b : 0 <= n -> 0 <= a < 2 ^ n -> 0 <= b -> 0 <= Z.land a b < 2 ^ n.
Proof.
  intros Hn Ha Hb. assert (0 <= Z.land a b) by (apply Z.land_nonneg; lia).
  split; [done|]. apply lt_pow2_of_bits; [done|done|].
  intros j Hj. rewrite Z.land_spec, (testbit_high a n) by lia. done.
Qed.

(** Joining a multiple of [2^n] and an integer below [2^n]. *)
Lemma lor_add n p f : 0 <= n -> p mod 2 ^ n = 0 -> 0 <= f < 2 ^ n -> Z.lor p f = p + f.
Proof.
  intros Hn Hp Hf. rewrite <- Z.add_lor_land.
  assert (Z.land p f = 0) as ->; [|lia]. apply Z.bits_inj'. intros j Hj. rewrite Z.land_spec, Z.bits_0.
  destruct (Z_lt_le_dec j n) as [Hl|Hl].
  - rewrite <- (Z.mod_pow2_bits_low p n) by lia. by rewrite Hp, Z.bits_0.
  - rewrite (testbit_high f n j) by lia. apply andb_false_r.
Qed.

Create HintDb pintos.
#[export] Hint Resolve u32_range s32_range : pintos.

(** ** Running state-passing code *)

Lemma sbind_run {S A B} (m : ST S A) (f : A -> ST S B) s a s' :
  m s = Ret (a, s') -> sbind m f s = f a s'.
Proof. intros H. unfold sbind. by rewrite H. Qed.

Lemma sbind_assert {S B} (b : bool) (f : unit -> ST S B) s :
  b = true -> sbind (assert_ b) f s = f tt s.
Proof. by intros ->. Qed.

Lemma sbind_inv {S A B} (m : ST S A) (f : A -> ST S B) s r :
  sbind m f s = Ret r -> exists a s', m s = Ret (a, s') /\ f a s' = Ret r.
Proof. unfold sbind. destruct (m s) as [[a s']|]; [|done]. eauto. Qed.

Lemma assert_inv {S B} (b : bool) (f : unit -> ST S B) s r :
  sbind (assert_ b) f s = Ret r -> b = true /\ f tt s = Ret r.
Proof. by destruct b. Qed.

(** [sinv H] splits a run known to return at its first command; [sinv H with E]
    does so when the result of the first command is known. *)
Ltac sinv_step H :=
  lazymatch type of H with
  | sbind (assert_ _) _ _ = Ret _ =>
      apply assert_inv in H; let Hb := fresh "Hb" in destruct H as [Hb H]
  | sbind _ _ _ = Ret _ =>
      apply sbind_inv in H;
      let a := fresh "a" in let s := fresh "st" in let E := fresh "Hr" in
      destruct H as (a & s & E & H);
      lazymatch type of a with unit => destruct a | _ => idtac end
  end.
Tactic Notation "sinv" hyp(H) := sinv_step H.
Tactic Notation "sinv" hyp(H) "with" uconstr(E) :=
  rewrite (sbind_run _ _ _ _ _ E) in H; cbv beta in H.

(** [sstep H] executes the first command of the goal with the equation [H]. *)
Ltac sstep H := erewrite (sbind_run _ _ _ _ _ H); cbv beta.
Tactic Notation "sassert" "by" tactic3(t) := rewrite sbind_assert by t; cbv beta.

Lemma NoDup_app_inv {A} (l1 l2 : list A) x :
  NoDup (l1 ++ l2) -> x ∈ l1 -> x ∈ l2 -> False.
Proof. intros (_ & H & _)%NoDup_app H1 H2. by apply (H x). Qed.

Lemma elem_of_removelast {A} (x : A) l : x ∈ removelast l -> x ∈ l.
Proof. induction l as [|a [|b l] IH]; simpl in *; set_solver. Qed.

(** The least index below [k] with a decidable property. *)
Lemma first_index (P : nat -> Prop) `{forall i, Decision (P i)} k :
  (exists i, (i < k)%nat /\ P i /\ forall j, (j < i)%nat -> ~ P j) \/ (forall i, (i < k)%nat -> ~ P i).
Proof.
  induction k as [|k [IH|IH]]; [right; lia|left; destruct IH as (i & Hi & Hp); exists i; split; [lia|done]|].
  destruct (decide (P k)) as [Hp|Hp].
  - left. exists k. split; [lia|done].
  - right. intros i Hi. destruct (decide (i = k)) as [->|]; [done|]. apply IH. lia.
Qed.

(** *** Inequalities of nodes from disjointness *)

Lemma disjoint_ne {A} (P Q : list A) a b :
  (forall x, x ∈ P -> x ∉ Q) -> a ∈ P -> b ∈ Q -> a <> b.
Proof. intros H Ha Hb ->. by apply (H b). Qed.

Lemma notin_ne {A} (P : list A) a b : a ∈ P -> b ∉ P -> a <> b.
Proof. intros Ha Hb ->. done. Qed.

Ltac apart :=
  match goal with
  | |- ?a <> ?b => assumption
  | |- ?a <> ?b => apply not_eq_sym; assumption
  | H : forall x, x ∈ ?P -> x ∉ ?Q |- ?a <> ?b => apply (disjoint_ne P Q a b H); assumption
  | H : forall x, x ∈ ?P -> x ∉ ?Q |- ?a <> ?b =>
      apply not_eq_sym, (disjoint_ne P Q b a H); assumption
  | H : ?b ∉ ?P |- ?a <> ?b => apply (notin_ne P a b); assumption
  | H : ?a ∉ ?P |- ?a <> ?b => apply not_eq_sym, (notin_ne P b a); assumption
  end.
