(* ===== verification/Bitmap.v ===== *)
(** * Bitmaps ([lib/kernel/bitmap.c])

    A bitmap is a bit count and an array of 32-bit elements.  The model
    keeps the array of elements ([bits : list Z]) and the masks of the C
    code; [bit] is the abstract view, the value of the bit numbered [i].
    Memory returned by [malloc] has arbitrary contents, so the elements
    beyond the last bit are unconstrained, as in the code. *)
From stdpp Require Import prelude list.
From Stdlib Require Import ZArith Lia.
From S2P Require Import Prelude.
#[local] Open Scope Z_scope.

(** ** Data *)

Definition ELEM_BITS : Z := 32.
Definition BITMAP_ERROR : Z := 4294967295.

Record bitmap : Type := mkBitmap {
  bit_cnt : Z;
  bits : list Z
}.

(** ** Operations *)

Definition elem_idx (bit_idx : Z) : Z := bit_idx / ELEM_BITS.

Definition bit_mask (bit_idx : Z) : Z := Z.shiftl 1 (bit_idx mod ELEM_BITS).

Definition elem_cnt (n : Z) : Z := DIV_ROUND_UP n ELEM_BITS.

Definition byte_cnt (n : Z) : Z := u32 (4 * elem_cnt n).

Definition last_mask (b : bitmap) : Z :=
  let last_bits := bit_cnt b mod ELEM_BITS in
  if last_bits =? 0 then u32 (-1) else Z.shiftl 1 last_bits - 1.

Definition bitmap_size (b : bitmap) : Z := bit_cnt b.

(** The read-modify-write instructions [orl], [andl] and [xorl] on
    [b->bits[idx]]; an index outside of the array is an invalid access. *)
Definition update_elem (b : bitmap) (idx : Z) (f : Z -> Z) : outcome bitmap :=
  let! w := access (bits b !! Z.to_nat idx) in
  Ret (mkBitmap (bit_cnt b) (<[Z.to_nat idx := f w]> (bits b))).

Definition bitmap_mark (b : bitmap) (bit_idx : Z) : outcome bitmap :=
  let idx := elem_idx bit_idx in
  let mask := bit_mask bit_idx in
  update_elem b idx (fun w => Z.lor w mask).

Definition bitmap_reset (b : bitmap) (bit_idx : Z) : outcome bitmap :=
  let idx := elem_idx bit_idx in
  let mask := bit_mask bit_idx in
  update_elem b idx (fun w => Z.land w (u32 (Z.lnot mask))).

Definition bitmap_flip (b : bitmap) (bit_idx : Z) : outcome bitmap :=
  let idx := elem_idx bit_idx in
  let mask := bit_mask bit_idx in
  update_elem b idx (fun w => Z.lxor w mask).

Definition bitmap_set (b : bitmap) (idx : Z) (value : bool) : outcome bitmap :=
  let! _ := ASSERT (idx <? bit_cnt b) in
  if value then bitmap_mark b idx else bitmap_reset b idx.

Definition bitmap_test (b : bitmap) (idx : Z) : outcome bool :=
  let! _ := ASSERT (idx <? bit_cnt b) in
  let! w := access (bits b !! Z.to_nat (elem_idx idx)) in
  Ret (negb (Z.land w (bit_mask idx) =? 0)).

Definition bitmap_set_multiple (b : bitmap) (start cnt : Z) (value : bool) : outcome bitmap :=
  let! _ := ASSERT (start <=? bit_cnt b) in
  let! _ := ASSERT (u32 (start + cnt) <=? bit_cnt b) in
  for_loop (Z.to_nat cnt) 0 (fun i b => bitmap_set b (u32 (start + i)) value) b.

Definition bitmap_set_all (b : bitmap) (value : bool) : outcome bitmap :=
  bitmap_set_multiple b 0 (bitmap_size b) value.

Definition bitmap_count (b : bitmap) (start cnt : Z) (value : bool) : outcome Z :=
  let! _ := ASSERT (start <=? bit_cnt b) in
  let! _ := ASSERT (u32 (start + cnt) <=? bit_cnt b) in
  for_loop (Z.to_nat cnt) 0
    (fun i value_cnt =>
       let! t := bitmap_test b (u32 (start + i)) in
       Ret (if Bool.eqb t value then u32 (value_cnt + 1) else value_cnt)) 0.

(** The loop of [bitmap_contains], which returns at the first hit. *)
Fixpoint contains_loop (b : bitmap) (start : Z) (n : nat) (i : Z) (value : bool) : outcome bool :=
  match n with
  | O => Ret false
  | S n' =>
      let! t := bitmap_test b (u32 (start + i)) in
      if Bool.eqb t value then Ret true else contains_loop b start n' (i + 1) value
  end.

Definition bitmap_contains (b : bitmap) (start cnt : Z) (value : bool) : outcome bool :=
  let! _ := ASSERT (start <=? bit_cnt b) in
  let! _ := ASSERT (u32 (start + cnt) <=? bit_cnt b) in
  contains_loop b start (Z.to_nat cnt) 0 value.

Definition bitmap_any (b : bitmap) (start cnt : Z) : outcome bool :=
  bitmap_contains b start cnt true.

Definition bitmap_none (b : bitmap) (start cnt : Z) : outcome bool :=
  let! r := bitmap_contains b start cnt true in Ret (negb r).

Definition bitmap_all (b : bitmap) (start cnt : Z) : outcome bool :=
  let! r := bitmap_contains b start cnt false in Ret (negb r).

(** The loop [for (i = start; i <= last; i++)] of [bitmap_scan]; it makes
    at most [last - start + 1] iterations. *)
Fixpoint scan_loop (b : bitmap) (n : nat) (i cnt : Z) (value : bool) : outcome Z :=
  match n with
  | O => Ret BITMAP_ERROR
  | S n' =>
      let! c := bitmap_contains b i cnt (negb value) in
      if c then scan_loop b n' (i + 1) cnt value else Ret i
  end.

Definition bitmap_scan (b : bitmap) (start cnt : Z) (value : bool) : outcome Z :=
  let! _ := ASSERT (start <=? bit_cnt b) in
  if cnt <=? bit_cnt b then
    let last := bit_cnt b - cnt in
    scan_loop b (Z.to_nat (last - start + 1)) start cnt value
  else Ret BITMAP_ERROR.

Definition bitmap_scan_and_flip (b : bitmap) (start cnt : Z) (value : bool)
  : outcome (Z * bitmap) :=
  let! idx := bitmap_scan b start cnt value in
  if negb (idx =? BITMAP_ERROR) then
    let! b' := bitmap_set_multiple b idx cnt (negb value) in
    Ret (idx, b')
  else Ret (idx, b).

(** Creation.  [struct_ok] says whether [malloc (sizeof *b)] succeeds,
    [storage] is the block returned by [malloc (byte_cnt (bit_cnt))] with
    its contents ([None] for a null pointer). *)
Definition bitmap_create (n : Z) (struct_ok : bool) (storage : option (list Z))
  : outcome (option bitmap) :=
  if struct_ok then
    match storage with
    | Some ws => let! b := bitmap_set_all (mkBitmap n ws) false in Ret (Some b)
    | None =>
        if n =? 0 then let! b := bitmap_set_all (mkBitmap n []) false in Ret (Some b)
        else Ret None
    end
  else Ret None.

Definition bitmap_buf_size (n : Z) : Z := u32 (8 + byte_cnt n).

(** [bitmap_create_in_buf]: [storage] is the array of elements that starts
    right after the [struct bitmap] placed at the block. *)
Definition bitmap_create_in_buf (n : Z) (storage : list Z) (block_size : Z) : outcome bitmap :=
  let! _ := ASSERT (bitmap_buf_size n <=? block_size) in
  bitmap_set_all (mkBitmap n storage) false.

(** File I/O.  The elements are stored in the file as they are in memory;
    [read] is what [file_read_at (file, b->bits, size, 0)] does to the
    buffer, with the number of bytes it returns. *)
Definition bitmap_file_size (b : bitmap) : Z := byte_cnt (bit_cnt b).

Definition bitmap_read (b : bitmap) (read : list Z -> Z -> Z * list Z) : outcome (bool * bitmap) :=
  if 0 <? bit_cnt b then
    let size := s32 (byte_cnt (bit_cnt b)) in
    let '(n, ws) := read (bits b) size in
    let! b' := update_elem (mkBitmap (bit_cnt b) ws) (elem_cnt (bit_cnt b) - 1)
                     (fun w => Z.land w (last_mask b)) in
    Ret (n =? size, b')
  else Ret (true, b).

Definition bitmap_write (b : bitmap) (write : list Z -> Z -> Z) : bool :=
  let size := s32 (byte_cnt (bit_cnt b)) in
  write (bits b) size =? size.

(** ** Abstract view and well-formedness *)

Definition bit (b : bitmap) (i : Z) : bool :=
  match bits b !! Z.to_nat (i / 32) with
  | Some w => Z.testbit w (i mod 32)
  | None => false
  end.

(** Sizes that the allocators can provide: at most 2^32 - 32 bits, so that
    [DIV_ROUND_UP] does not wrap, and one element per started 32 bits. *)
Definition bitmap_wf (b : bitmap) : Prop :=
  0 <= bit_cnt b <= two32 - 32 /\
  bit_cnt b <= 32 * Z.of_nat (length (bits b)) /\
  Forall (fun w => 0 <= w < 2 ^ 32) (bits b).

(** [b'] is [b] with the bits of [start .. start + cnt - 1] set to [value]. *)
Definition filled (b b' : bitmap) (start cnt : Z) (value : bool) : Prop :=
  bitmap_wf b' /\ bit_cnt b' = bit_cnt b /\ length (bits b') = length (bits b) /\
  forall j, 0 <= j -> bit b' j = if (start <=? j) && (j <? start + cnt) then value else bit b j.

(** All bits of the group are equal to [value]. *)
Definition group (b : bitmap) (start cnt : Z) (value : bool) : Prop :=
  forall j, start <= j < start + cnt -> bit b j = value.

(** ** Single bits *)

Lemma elem_idx_range b i :
  bitmap_wf b -> 0 <= i < bit_cnt b -> (Z.to_nat (elem_idx i) < length (bits b))%nat.
Proof.
  intros (Hc & Hl & _) Hi. unfold elem_idx, ELEM_BITS.
  pose proof (Z.div_mod i 32). pose proof (Z.mod_pos_bound i 32). lia.
Qed.

Lemma lookup_elem b i :
  bitmap_wf b -> 0 <= i < bit_cnt b ->
  exists w, bits b !! Z.to_nat (elem_idx i) = Some w /\ 0 <= w < 2 ^ 32 /\
            bit b i = Z.testbit w (i mod 32).
Proof.
  intros Hwf Hi. destruct (lookup_lt_is_Some_2 (bits b) (Z.to_nat (elem_idx i))) as [w Hw].
  { by apply elem_idx_range. }
  exists w. split; [done|]. split.
  - destruct Hwf as (_ & _ & HF). eapply Forall_lookup in HF; eauto.
  - unfold bit. unfold elem_idx, ELEM_BITS in Hw. by rewrite Hw.
Qed.

Lemma bitmap_test_bit b i :
  bitmap_wf b -> 0 <= i < bit_cnt b -> bitmap_test b i = Ret (bit b i).
Proof.
  intros Hwf Hi. destruct (lookup_elem b i Hwf Hi) as (w & Hw & Hr & Hb).
  unfold bitmap_test. destruct (Z.ltb_spec i (bit_cnt b)); [|lia]. simpl.
  rewrite Hw. simpl. f_equal. rewrite Hb. clear Hb.
  unfold bit_mask, ELEM_BITS. pose proof (Z.mod_pos_bound i 32 ltac:(lia)).
  destruct (Z.eqb_spec (Z.land w (Z.shiftl 1 (i mod 32))) 0) as [He|Hne]; simpl.
  - apply (f_equal (fun z => Z.testbit z (i mod 32))) in He.
    rewrite Z.land_spec, testbit_pow2, Z.bits_0, Z.eqb_refl, andb_true_r in He by lia. done.
  - symmetry. destruct (Z.testbit w (i mod 32)) eqn:Ht; [done|]. exfalso. apply Hne.
    apply Z.bits_inj'. intros j Hj. rewrite Z.land_spec, testbit_pow2, Z.bits_0 by lia.
    destruct (Z.eqb_spec j (i mod 32)) as [->|]; [by rewrite Ht|apply andb_false_r].
Qed.

(** The update of one element, seen through [bit]: if [f] changes only bit
    [i mod 32] of the element, the update changes only bit [i]. *)
Lemma update_elem_spec b i f v :
  bitmap_wf b -> 0 <= i < bit_cnt b ->
  (forall w, 0 <= w < 2 ^ 32 -> 0 <= f w < 2 ^ 32 /\
     forall j, 0 <= j < 32 -> Z.testbit (f w) j =
       if j =? i mod 32 then v (Z.testbit w j) else Z.testbit w j) ->
  exists b', update_elem b (elem_idx i) f = Ret b' /\ bitmap_wf b' /\
    bit_cnt b' = bit_cnt b /\ length (bits b') = length (bits b) /\
    forall j, 0 <= j -> bit b' j = if j =? i then v (bit b i) else bit b j.
Proof.
  intros Hwf Hi Hf. destruct (lookup_elem b i Hwf Hi) as (w & Hw & Hr & Hb).
  destruct (Hf w Hr) as [Hfr Hft]. unfold update_elem. rewrite Hw. simpl.
  eexists. split; [done|]. split; [|split; [done|split; [apply length_insert|]]].
  - destruct Hwf as (? & ? & HF). repeat split; simpl; [lia|lia|rewrite length_insert; lia|].
    by apply Forall_insert.
  - intros j Hj. unfold bit. simpl. pose proof (elem_idx_range b i Hwf Hi) as Hlt.
    pose proof (Z.div_mod i 32 ltac:(lia)). pose proof (Z.div_mod j 32 ltac:(lia)).
    pose proof (Z.mod_pos_bound i 32 ltac:(lia)). pose proof (Z.mod_pos_bound j 32 ltac:(lia)).
    unfold elem_idx, ELEM_BITS in *.
    destruct (Z.eq_dec (j / 32) (i / 32)) as [He|Hne].
    + rewrite He, list_lookup_insert_eq, Hw, Hft by lia.
      destruct (Z.eqb_spec (j mod 32) (i mod 32)) as [Hm|Hm], (Z.eqb_spec j i); try lia; try done.
      by rewrite Hm.
    + rewrite list_lookup_insert_ne.
      * destruct (Z.eqb_spec j i); [subst; lia|done].
      * pose proof (Z.div_pos i 32). pose proof (Z.div_pos j 32). lia.
Qed.

Lemma bit_mask_range i : 0 <= bit_mask i < 2 ^ 32.
Proof.
  unfold bit_mask, ELEM_BITS. pose proof (Z.mod_pos_bound i 32 ltac:(lia)).
  rewrite Z.shiftl_1_l. split; [lia|]. apply Z.pow_lt_mono_r; lia.
Qed.

Lemma bit_mask_bit i j : 0 <= j -> Z.testbit (bit_mask i) j = (j =? i mod 32).
Proof.
  intros. unfold bit_mask, ELEM_BITS. apply testbit_pow2; [|done].
  pose proof (Z.mod_pos_bound i 32). lia.
Qed.

Lemma inv_mask_bit i j :
  0 <= j < 32 -> Z.testbit (u32 (Z.lnot (bit_mask i))) j = negb (j =? i mod 32).
Proof.
  intros Hj. unfold u32. change two32 with (2 ^ 32).
  rewrite Z.mod_pow2_bits_low, Z.lnot_spec, bit_mask_bit by lia. done.
Qed.

Lemma bitmap_mark_spec b i :
  bitmap_wf b -> 0 <= i < bit_cnt b ->
  exists b', bitmap_mark b i = Ret b' /\ filled b b' i 1 true.
Proof.
  intros Hwf Hi. unfold bitmap_mark.
  destruct (update_elem_spec b i (fun w => Z.lor w (bit_mask i)) (fun _ => true))
    as (b' & Hu & Hw' & Hc & Hl & Hb); [done|done| |].
  - intros w Hw. pose proof (bit_mask_range i). split; [apply lor_bound; lia|].
    intros j Hj. rewrite Z.lor_spec, bit_mask_bit by lia.
    bool_cases; by rewrite ?orb_true_r, ?orb_false_r.
  - exists b'. split; [done|]. split_and!; [done..|]. intros j Hj. rewrite Hb by done.
    bool_cases; simpl; try done; lia.
Qed.

Lemma bitmap_reset_spec b i :
  bitmap_wf b -> 0 <= i < bit_cnt b ->
  exists b', bitmap_reset b i = Ret b' /\ filled b b' i 1 false.
Proof.
  intros Hwf Hi. unfold bitmap_reset.
  destruct (update_elem_spec b i (fun w => Z.land w (u32 (Z.lnot (bit_mask i)))) (fun _ => false))
    as (b' & Hu & Hw' & Hc & Hl & Hb); [done|done| |].
  - intros w Hw. pose proof (u32_range (Z.lnot (bit_mask i))) as [? ?].
    split; [apply land_bound; lia|].
    intros j Hj. rewrite Z.land_spec, inv_mask_bit by lia.
    bool_cases; by rewrite ?andb_true_r, ?andb_false_r.
  - exists b'. split; [done|]. split_and!; [done..|]. intros j Hj. rewrite Hb by done.
    bool_cases; simpl; try done; lia.
Qed.

(** Toggling flips one bit and leaves every other bit alone; toggling twice
    is the identity on the abstract bits. *)
Lemma bitmap_flip_spec b i :
  bitmap_wf b -> 0 <= i < bit_cnt b ->
  exists b', bitmap_flip b i = Ret b' /\ bitmap_wf b' /\ bit_cnt b' = bit_cnt b /\
    forall j, 0 <= j -> bit b' j = if j =? i then negb (bit b i) else bit b j.
Proof.
  intros Hwf Hi. unfold bitmap_flip.
  destruct (update_elem_spec b i (fun w => Z.lxor w (bit_mask i)) negb)
    as (b' & Hu & Hw' & Hc & Hl & Hb); [done|done| |eauto 10].
  intros w Hw. pose proof (bit_mask_range i). split; [apply lxor_bound; lia|].
  intros j Hj. rewrite Z.lxor_spec, bit_mask_bit by lia.
  bool_cases; by rewrite ?xorb_true_r, ?xorb_false_r.
Qed.

Lemma bitmap_set_spec b i v :
  bitmap_wf b -> 0 <= i < bit_cnt b ->
  exists b', bitmap_set b i v = Ret b' /\ filled b b' i 1 v.
Proof.
  intros Hwf Hi. unfold bitmap_set. destruct (Z.ltb_spec i (bit_cnt b)); [|lia]. simpl.
  destruct v; [by apply bitmap_mark_spec|by apply bitmap_reset_spec].
Qed.

(** ** Groups of bits *)

Lemma filled_refl b start v : bitmap_wf b -> filled b b start 0 v.
Proof. intros Hwf. split_and!; [done..|]. intros j Hj. bool_cases; simpl; try done; lia. Qed.

Lemma bitmap_set_multiple_spec b start cnt v :
  bitmap_wf b -> 0 <= start -> 0 <= cnt -> start + cnt <= bit_cnt b ->
  exists b', bitmap_set_multiple b start cnt v = Ret b' /\ filled b b' start cnt v.
Proof.
  intros Hwf Hs Hc Hsc. pose proof Hwf as (Hb & _).
  unfold bitmap_set_multiple. rewrite u32_small by (unfold is_u32; lia).
  destruct (Z.leb_spec start (bit_cnt b)); [|lia].
  destruct (Z.leb_spec (start + cnt) (bit_cnt b)); [|lia]. simpl obind.
  destruct (for_loop_ind (fun k x => filled b x start k v)
    (fun i x => bitmap_set x (u32 (start + i)) v) (Z.to_nat cnt) 0 b) as (b' & Hl & Hf).
  - by apply filled_refl.
  - intros k x Hk (Hx & Hxc & Hxl & Hxb). rewrite u32_small by (unfold is_u32; lia).
    destruct (bitmap_set_spec x (start + k) v) as (y & Hy & Hyw & Hyc & Hyl & Hyb); [done|lia|].
    exists y. split; [done|]. split_and!; [done|congruence|congruence|].
    intros j Hj. rewrite Hyb, Hxb by done. bool_cases; simpl; try done; lia.
  - exists b'. split; [done|]. by replace (0 + Z.of_nat (Z.to_nat cnt)) with cnt in Hf by lia.
Qed.

Lemma contains_loop_spec b start n i v :
  bitmap_wf b -> 0 <= start -> 0 <= i -> start + i + Z.of_nat n <= bit_cnt b ->
  exists r, contains_loop b start n i v = Ret r /\
    (r = true <-> exists j, start + i <= j < start + i + Z.of_nat n /\ bit b j = v).
Proof.
  intros Hwf Hs. pose proof Hwf as (Hb & _). revert i.
  induction n as [|n IH]; intros i Hi Hn; simpl contains_loop.
  - exists false. split; [done|]. split; [done|]. intros (j & Hj & _). lia.
  - rewrite u32_small, bitmap_test_bit by (unfold is_u32; (done || lia)). simpl.
    destruct (Bool.eqb_spec (bit b (start + i)) v) as [He|Hne].
    + exists true. split; [done|]. split; [|done]. intros _. exists (start + i). split; [lia|done].
    + destruct (IH (i + 1)) as (r & Hr & Hrj); [lia|lia|]. exists r. split; [done|]. rewrite Hrj.
      split; intros (j & Hj & Hbj); exists j; (split; [|done]); [lia|].
      destruct (Z.eq_dec j (start + i)); [congruence|lia].
Qed.

Lemma bitmap_contains_spec b start cnt v :
  bitmap_wf b -> 0 <= start -> 0 <= cnt -> start + cnt <= bit_cnt b ->
  exists r, bitmap_contains b start cnt v = Ret r /\
    (r = true <-> exists j, start <= j < start + cnt /\ bit b j = v).
Proof.
  intros Hwf Hs Hc Hsc. pose proof Hwf as (Hb & _).
  unfold bitmap_contains. rewrite u32_small by (unfold is_u32; lia).
  destruct (Z.leb_spec start (bit_cnt b)); [|lia].
  destruct (Z.leb_spec (start + cnt) (bit_cnt b)); [|lia]. simpl obind.
  destruct (contains_loop_spec b start (Z.to_nat cnt) 0 v) as (r & Hr & Hj); [done|lia..|].
  exists r. split; [done|]. rewrite Hj. by replace (start + 0 + Z.of_nat (Z.to_nat cnt))
    with (start + cnt) by lia; rewrite Z.add_0_r.
Qed.

Lemma bitmap_contains_negb b start cnt v :
  bitmap_wf b -> 0 <= start -> 0 <= cnt -> start + cnt <= bit_cnt b ->
  exists r, bitmap_contains b start cnt (negb v) = Ret r /\
    (r = false <-> group b start cnt v).
Proof.
  intros Hwf Hs Hc Hsc.
  destruct (bitmap_contains_spec b start cnt (negb v)) as (r & Hr & Hj); [done..|].
  exists r. split; [done|]. destruct r; split; try done.
  - intros Hg. destruct (proj1 Hj eq_refl) as (j & Hjr & Hb). rewrite (Hg j Hjr) in Hb. by destruct v.
  - intros _ j Hjr. destruct (Bool.bool_dec (bit b j) v) as [He|Hne]; [done|].
    discriminate (proj2 Hj). exists j. split; [done|]. by destruct (bit b j), v.
Qed.

Lemma bitmap_all_spec b start cnt :
  bitmap_wf b -> 0 <= start -> 0 <= cnt -> start + cnt <= bit_cnt b ->
  exists r, bitmap_all b start cnt = Ret r /\ (r = true <-> group b start cnt true).
Proof.
  intros Hwf Hs Hc Hsc.
  destruct (bitmap_contains_negb b start cnt true) as (r & Hr & Hj); [done..|].
  unfold bitmap_all. simpl in Hr. rewrite Hr. exists (negb r). split; [done|].
  rewrite <- Hj. by destruct r.
Qed.

(** ** Counting *)

Definition count_bits (b : bitmap) (start : Z) (n : nat) (v : bool) : Z :=
  Z.of_nat (length (filter (fun j => bit b j = v) (seqZ start (Z.of_nat n)))).

Lemma seqZ_snoc start n : seqZ start (Z.of_nat (S n)) = seqZ start (Z.of_nat n) ++ [start + Z.of_nat n].
Proof. rewrite Nat2Z.inj_succ, <- Z.add_1_r, seqZ_app by lia. done. Qed.

Lemma count_bits_S b start n v :
  count_bits b start (S n) v = count_bits b start n v +
    (if Bool.eqb (bit b (start + Z.of_nat n)) v then 1 else 0).
Proof.
  unfold count_bits. rewrite seqZ_snoc, filter_app, length_app. simpl.
  rewrite filter_cons, filter_nil.
  destruct (Bool.eqb_spec (bit b (start + Z.of_nat n)) v); case_decide; simpl; try done; lia.
Qed.

Lemma count_bits_bound b start n v : 0 <= count_bits b start n v <= Z.of_nat n.
Proof.
  induction n as [|n IH]; [done|]. rewrite count_bits_S. destruct (Bool.eqb _ _); lia.
Qed.

Lemma bitmap_count_spec b start cnt v :
  bitmap_wf b -> 0 <= start -> 0 <= cnt -> start + cnt <= bit_cnt b ->
  bitmap_count b start cnt v = Ret (count_bits b start (Z.to_nat cnt) v).
Proof.
  intros Hwf Hs Hc Hsc. pose proof Hwf as (Hb & _).
  unfold bitmap_count. rewrite u32_small by (unfold is_u32; lia).
  destruct (Z.leb_spec start (bit_cnt b)); [|lia].
  destruct (Z.leb_spec (start + cnt) (bit_cnt b)); [|lia]. simpl obind.
  destruct (for_loop_ind (fun k x => x = count_bits b start (Z.to_nat k) v)
    (fun i value_cnt => let! t := bitmap_test b (u32 (start + i)) in
       Ret (if Bool.eqb t v then u32 (value_cnt + 1) else value_cnt)) (Z.to_nat cnt) 0 0)
    as (r & Hl & Hf).
  - done.
  - intros k x Hk ->. pose proof (count_bits_bound b start (Z.to_nat k) v).
    rewrite u32_small, bitmap_test_bit by (unfold is_u32; (done || lia)). simpl.
    eexists. split; [done|]. replace (Z.to_nat (k + 1)) with (S (Z.to_nat k)) by lia.
    rewrite count_bits_S, Z2Nat.id by lia. destruct (Bool.eqb _ _); [|lia].
    apply u32_small. unfold is_u32. lia.
  - rewrite Hl, Hf. by replace (0 + Z.of_nat (Z.to_nat cnt)) with cnt by lia.
Qed.

(** ** Scanning *)

(** [i] is the first start of a group of [cnt] bits equal to [v] at or
    after [start]. *)
Definition first_group (b : bitmap) (start cnt i : Z) (v : bool) : Prop :=
  start <= i /\ i + cnt <= bit_cnt b /\ group b i cnt v /\
  forall k, start <= k < i -> ~ group b k cnt v.

Lemma scan_loop_spec b n i cnt v :
  bitmap_wf b -> 0 <= i -> 0 <= cnt -> ((0 < n)%nat -> i + Z.of_nat n - 1 + cnt <= bit_cnt b) ->
  exists r, scan_loop b n i cnt v = Ret r /\
    ((r = BITMAP_ERROR /\ forall k, i <= k < i + Z.of_nat n -> ~ group b k cnt v) \/
     (r < i + Z.of_nat n /\ first_group b i cnt r v)).
Proof.
  intros Hwf. revert i. induction n as [|n IH]; intros i Hi Hc Hn; simpl scan_loop.
  - exists BITMAP_ERROR. split; [done|]. left. split; [done|]. intros k Hk. lia.
  - destruct (bitmap_contains_negb b i cnt v) as (c & Hr & Hg); [done|lia..|]. rewrite Hr. simpl.
    destruct c.
    + destruct (IH (i + 1)) as (r & Hl & Hspec); [lia|done|lia|]. exists r. split; [done|].
      assert (Hni : ~ group b i cnt v) by (intros Hx; by apply Hg in Hx).
      destruct Hspec as [[He Hk]|[Hlt (H1 & H2 & H3 & H4)]]; [left|right].
      * split; [done|]. intros k Hk'. destruct (Z.eq_dec k i) as [->|]; [done|]. apply Hk. lia.
      * split; [lia|]. split_and!; [lia|done|done|]. intros k Hk'.
        destruct (Z.eq_dec k i) as [->|]; [done|]. apply H4. lia.
    + exists i. split; [done|]. right. split; [lia|]. split_and!; [lia|lia|by apply Hg|lia].
Qed.

Lemma bitmap_scan_cases b start cnt v :
  bitmap_wf b -> 0 <= start <= bit_cnt b -> 0 <= cnt ->
  exists r, bitmap_scan b start cnt v = Ret r /\
    ((r = BITMAP_ERROR /\
      forall k, start <= k -> k + cnt <= bit_cnt b -> ~ group b k cnt v) \/
     (r <> BITMAP_ERROR /\ first_group b start cnt r v)).
Proof.
  intros Hwf Hs Hc. pose proof Hwf as (Hb & _). unfold bitmap_scan.
  destruct (Z.leb_spec start (bit_cnt b)); [|lia]. simpl.
  destruct (Z.leb_spec cnt (bit_cnt b)) as [Hcb|Hcb].
  - destruct (scan_loop_spec b (Z.to_nat (bit_cnt b - cnt - start + 1)) start cnt v)
      as (r & Hr & Hspec); [done|lia..|].
    exists r. split; [done|]. destruct Hspec as [[He Hk]|[Hlt Hg]]; [left|right].
    + split; [done|]. intros k Hk1 Hk2. apply Hk. lia.
    + split; [|done]. destruct Hg as (? & ? & _). unfold BITMAP_ERROR, two32 in *. lia.
  - exists BITMAP_ERROR. split; [done|]. left. split; [done|]. lia.
Qed.

(** ** Scanning and flipping: what the page allocator and the free map use *)

Lemma bitmap_scan_and_flip_cases b start cnt v :
  bitmap_wf b -> 0 <= start <= bit_cnt b -> 0 <= cnt ->
  (bitmap_scan_and_flip b start cnt v = Ret (BITMAP_ERROR, b) /\
     forall k, start <= k -> k + cnt <= bit_cnt b -> ~ group b k cnt v) \/
  (exists i b', bitmap_scan_and_flip b start cnt v = Ret (i, b') /\ i <> BITMAP_ERROR /\
     first_group b start cnt i v /\ filled b b' i cnt (negb v)).
Proof.
  intros Hwf Hs Hc. unfold bitmap_scan_and_flip.
  destruct (bitmap_scan_cases b start cnt v) as (r & Hr & [[-> Hk]|[Hne Hg]]); [done..| |];
    rewrite Hr; simpl.
  - left. done.
  - right. destruct (Z.eqb_spec r BITMAP_ERROR); [done|]. simpl.
    destruct Hg as (H1 & H2 & H3 & H4).
    destruct (bitmap_set_multiple_spec b r cnt (negb v)) as (b' & Hb' & Hf); [done|lia..|].
    exists r, b'. rewrite Hb'. done.
Qed.

Lemma bitmap_set_all_spec b v :
  bitmap_wf b ->
  exists b', bitmap_set_all b v = Ret b' /\ bitmap_wf b' /\ bit_cnt b' = bit_cnt b /\
    length (bits b') = length (bits b) /\ group b' 0 (bit_cnt b) v.
Proof.
  intros Hwf. pose proof Hwf as (Hb & _). unfold bitmap_set_all, bitmap_size.
  destruct (bitmap_set_multiple_spec b 0 (bit_cnt b) v) as (b' & Hb' & Hw & Hc & Hl & Hj); [done|lia..|].
  exists b'. split_and!; try done. intros j Hr. rewrite Hj by lia. bool_cases; simpl; try done; lia.
Qed.

Lemma elem_cnt_enough n : 0 <= n <= two32 - 32 -> n <= 32 * elem_cnt n < n + 32.
Proof.
  intros Hn. unfold elem_cnt, DIV_ROUND_UP, ELEM_BITS. rewrite u32_small by (unfold is_u32; lia).
  pose proof (Z.div_mod (n + 32 - 1) 32). pose proof (Z.mod_pos_bound (n + 32 - 1) 32). lia.
Qed.

Lemma bitmap_create_in_buf_spec n storage block_size :
  0 <= n <= two32 - 32 -> bitmap_buf_size n <= block_size ->
  Z.of_nat (length storage) = elem_cnt n -> Forall (fun w => 0 <= w < 2 ^ 32) storage ->
  exists b, bitmap_create_in_buf n storage block_size = Ret b /\ bitmap_wf b /\
    bit_cnt b = n /\ group b 0 n false.
Proof.
  intros Hn Hbuf Hlen HF. unfold bitmap_create_in_buf.
  destruct (Z.leb_spec (bitmap_buf_size n) block_size); [|lia]. simpl.
  pose proof (elem_cnt_enough n Hn).
  destruct (bitmap_set_all_spec (mkBitmap n storage) false) as (b & Hb & Hw & Hc & _ & Hg).
  { split_and!; simpl; [lia|lia|lia|done]. }
  exists b. done.
Qed.

(** ** Storing in a file *)

Lemma last_mask_bit b j :
  0 <= bit_cnt b -> 0 <= j < 32 ->
  Z.testbit (last_mask b) j = (bit_cnt b mod 32 =? 0) || (j <? bit_cnt b mod 32).
Proof.
  intros Hb Hj. unfold last_mask, ELEM_BITS.
  pose proof (Z.mod_pos_bound (bit_cnt b) 32 ltac:(lia)).
  destruct (Z.eqb_spec (bit_cnt b mod 32) 0) as [->|Hne]; simpl.
  - change (u32 (-1)) with (Z.ones 32). apply Z.ones_spec_low. lia.
  - rewrite Z.shiftl_1_l, Z.sub_1_r, <- Z.ones_equiv. bool_cases.
    + apply Z.ones_spec_low. lia.
    + apply Z.ones_spec_high. lia.
Qed.

Lemma last_mask_range b : 0 <= bit_cnt b -> 0 <= last_mask b.
Proof.
  intros Hb. unfold last_mask, ELEM_BITS. pose proof (Z.mod_pos_bound (bit_cnt b) 32 ltac:(lia)).
  destruct (Z.eqb_spec (bit_cnt b mod 32) 0); [done|]. rewrite Z.shiftl_1_l.
  pose proof (Z.pow_pos_nonneg 2 (bit_cnt b mod 32)). lia.
Qed.

(** Reading back the elements that were written restores every bit of the
    map and clears the unused bits of the last element. *)
Lemma bitmap_read_spec b ws read :
  0 < bit_cnt b <= two32 - 32 -> Z.of_nat (length ws) = elem_cnt (bit_cnt b) ->
  Forall (fun w => 0 <= w < 2 ^ 32) ws ->
  read (bits b) (s32 (byte_cnt (bit_cnt b))) = (s32 (byte_cnt (bit_cnt b)), ws) ->
  exists b', bitmap_read b read = Ret (true, b') /\ bitmap_wf b' /\ bit_cnt b' = bit_cnt b /\
    forall j, 0 <= j < 32 * elem_cnt (bit_cnt b) ->
      bit b' j = bit (mkBitmap (bit_cnt b) ws) j && (j <? bit_cnt b).
Proof.
  intros Hc Hlen HF Hread. unfold bitmap_read. destruct (Z.ltb_spec 0 (bit_cnt b)); [|lia].
  rewrite Hread, Z.eqb_refl. unfold update_elem. cbn [bits bit_cnt].
  pose proof (elem_cnt_enough (bit_cnt b) ltac:(lia)) as Hec.
  set (k := elem_cnt (bit_cnt b)) in *.
  destruct (lookup_lt_is_Some_2 ws (Z.to_nat (k - 1))) as [w Hw]; [lia|]. rewrite Hw. simpl.
  pose proof (last_mask_range b ltac:(lia)) as Hm. pose proof HF as Hwr.
  eapply Forall_lookup in Hwr; [|exact Hw]. simpl in Hwr.
  eexists. split; [done|]. split; [|split; [done|]].
  - split_and!; simpl; rewrite ?length_insert; try lia.
    apply Forall_insert; [done|]. apply (land_bound 32); lia.
  - intros j Hj. unfold bit. simpl.
    pose proof (Z.div_mod j 32 ltac:(lia)). pose proof (Z.mod_pos_bound j 32 ltac:(lia)).
    destruct (Z.eq_dec (j / 32) (k - 1)) as [He|Hne].
    + rewrite He, list_lookup_insert_eq, Hw, Z.land_spec, last_mask_bit by lia. f_equal.
      pose proof (Z.div_mod (bit_cnt b) 32 ltac:(lia)).
      pose proof (Z.mod_pos_bound (bit_cnt b) 32 ltac:(lia)). bool_cases; simpl; try done; lia.
    + rewrite list_lookup_insert_ne by lia.
      destruct (Z.ltb_spec j (bit_cnt b)); [by rewrite andb_true_r|lia].
Qed.

(** ** Theorems *)

(** first-fit scan.  On a well-formed bitmap [bitmap_scan] always
    returns; it returns the lowest index at or after [start] that begins
    [cnt] consecutive bits equal to [value], and [BITMAP_ERROR] exactly when
    there is no such group inside the map. *)
Theorem bitmap_scan_first_fit b start cnt value :
  bitmap_wf b -> 0 <= start <= bit_cnt b -> 0 <= cnt ->
  exists r, bitmap_scan b start cnt value = Ret r /\
    (r <> BITMAP_ERROR -> first_group b start cnt r value) /\
    (r = BITMAP_ERROR <->
       ~ exists k, start <= k /\ k + cnt <= bit_cnt b /\ group b k cnt value).
Proof.
  intros Hwf Hs Hc.
  destruct (bitmap_scan_cases b start cnt value) as (r & Hr & [[-> Hk]|[Hne Hg]]); [done..| |];
    eexists; (split; [exact Hr|]); (split; [done|]); split; try done.
  - intros _ (k & ? & ? & ?). by eapply Hk.
  - intros Hno. destruct Hno. destruct Hg as (? & ? & ? & _). eauto.
Qed.

Lemma bitmap_scan_first_fit_witness :
  exists r, bitmap_scan (mkBitmap 40 [4294967295; 6]) 0 2 false = Ret r /\ r = 35.
Proof.
  destruct (bitmap_scan_first_fit (mkBitmap 40 [4294967295; 6]) 0 2 false) as (r & Hr & _ & _).
  - split_and!; simpl; [lia|unfold two32; lia|lia|]. repeat constructor; lia.
  - simpl. lia.
  - lia.
  - exists r. split; [exact Hr|]. vm_compute in Hr. congruence.
Defined.

(** Allocation from a bitmap.  [bitmap_scan_and_flip] either changes
    nothing and returns [BITMAP_ERROR], or returns the first fitting group,
    whose bits were all [value] and are now all [!value], and leaves every
    other bit of the map unchanged.  It never faults and preserves
    well-formedness. *)
Theorem bitmap_scan_and_flip_allocates b start cnt value :
  bitmap_wf b -> 0 <= start <= bit_cnt b -> 0 <= cnt ->
  exists i b', bitmap_scan_and_flip b start cnt value = Ret (i, b') /\
    bitmap_wf b' /\ bit_cnt b' = bit_cnt b /\
    (i = BITMAP_ERROR -> b' = b /\
       ~ exists k, start <= k /\ k + cnt <= bit_cnt b /\ group b k cnt value) /\
    (i <> BITMAP_ERROR -> first_group b start cnt i value /\ group b' i cnt (negb value) /\
       forall j, 0 <= j -> ~ (i <= j < i + cnt) -> bit b' j = bit b j).
Proof.
  intros Hwf Hs Hc.
  destruct (bitmap_scan_and_flip_cases b start cnt value)
    as [[Hr Hk]|(i & b' & Hr & Hne & Hg & Hw & Hcn & _ & Hb)]; [done..| |].
  - exists BITMAP_ERROR, b. split_and!; try done. intros _. split; [done|].
    intros (k & ? & ? & ?). by eapply Hk.
  - exists i, b'. split_and!; try done. intros _. split; [done|]. split.
    + intros j Hj. rewrite Hb by (destruct Hg; lia). bool_cases; simpl; try done; lia.
    + intros j Hj Hout. rewrite Hb by done. bool_cases; simpl; try done; lia.
Qed.

Lemma bitmap_scan_and_flip_allocates_witness :
  exists i b', bitmap_scan_and_flip (mkBitmap 40 [4294967295; 6]) 0 2 false = Ret (i, b') /\
    i = 35 /\ bits b' = [4294967295; 30].
Proof.
  destruct (bitmap_scan_and_flip_allocates (mkBitmap 40 [4294967295; 6]) 0 2 false)
    as (i & b' & Hr & _).
  - split_and!; simpl; [lia|unfold two32; lia|lia|]. repeat constructor; lia.
  - simpl. lia.
  - lia.
  - exists i, b'. split; [exact Hr|]. vm_compute in Hr. injection Hr as <- <-. split; reflexivity.
Defined.

(** file round trip.  Reading a bitmap of the same size from the
    elements that [bitmap_write] stores ([file_read_at] returning all of
    them) succeeds, restores every bit, and leaves the unused bits of the
    last element clear. *)
Theorem bitmap_file_roundtrip b b0 read :
  bitmap_wf b -> 0 < bit_cnt b -> bit_cnt b0 = bit_cnt b ->
  Z.of_nat (length (bits b)) = elem_cnt (bit_cnt b) ->
  (forall buf, read buf (s32 (bitmap_file_size b)) = (s32 (bitmap_file_size b), bits b)) ->
  exists b', bitmap_read b0 read = Ret (true, b') /\ bitmap_wf b' /\ bit_cnt b' = bit_cnt b /\
    (forall j, 0 <= j < bit_cnt b -> bit b' j = bit b j) /\
    (forall j, bit_cnt b <= j < 32 * elem_cnt (bit_cnt b) -> bit b' j = false).
Proof.
  intros Hwf Hpos Hc Hlen Hread. pose proof Hwf as (Hb & _ & HF).
  destruct (bitmap_read_spec b0 (bits b) read) as (b' & Hr & Hw & Hcn & Hbits);
    [lia|congruence|done|rewrite Hc; apply Hread|].
  pose proof (elem_cnt_enough (bit_cnt b) ltac:(lia)). rewrite Hc in Hcn, Hbits.
  exists b'. split_and!; try done.
  - intros j Hj. rewrite Hbits by lia. destruct (Z.ltb_spec j (bit_cnt b)); [|lia].
    rewrite andb_true_r. done.
  - intros j Hj. rewrite Hbits by lia. destruct (Z.ltb_spec j (bit_cnt b)); [lia|].
    apply andb_false_r.
Qed.

Lemma bitmap_file_roundtrip_witness :
  exists b', bitmap_read (mkBitmap 40 [0; 0]) (fun _ n => (n, [7; 1023])) = Ret (true, b') /\
    bits b' = [7; 255].
Proof.
  destruct (bitmap_file_roundtrip (mkBitmap 40 [7; 1023]) (mkBitmap 40 [0; 0])
              (fun _ n => (n, [7; 1023]))) as (b' & Hr & _).
  - split_and!; simpl; [lia|unfold two32; lia|lia|]. repeat constructor; lia.
  - simpl. lia.
  - reflexivity.
  - reflexivity.
  - reflexivity.
  - exists b'. split; [exact Hr|]. vm_compute in Hr. injection Hr as <-. reflexivity.
Defined.

(** With [cnt = 0] a scan succeeds at once and returns [start] itself (the
    comment of [bitmap_scan_and_flip] says it returns 0). *)
Lemma bitmap_scan_and_flip_zero :
  bitmap_scan_and_flip (mkBitmap 40 [4294967295; 6]) 7 0 false =
    Ret (7, mkBitmap 40 [4294967295; 6]).
Proof. reflexivity. Qed.
