(* ===== verification/Dlist.v ===== *)
(** * Doubly linked lists ([lib/kernel/list.c], [lib/kernel/list.h])

    The model works on the memory cells of the C code: a heap maps the
    address of a [struct list_elem] to its two pointers.  A [struct list]
    at address [l] is its head element at [l] and its tail element at
    [l + 8].  Pointers are addresses, [NULL] is 0, and every dereference of
    an address that holds no list element is an invalid access.  Loops that
    follow pointers take fuel; the theorems give the fuel that suffices. *)
From stdpp Require Import prelude list gmap sorting.
From Stdlib Require Import ZArith Lia.
From S2P Require Import Prelude.
#[local] Open Scope Z_scope.

(** ** Data *)


Record list_elem : Type := mkElem { prev : Z; next : Z }.

Abbreviation heap := (gmap Z list_elem).

(** [&list->head] and [&list->tail]. *)
Definition head_of (l : Z) : Z := l.
Definition tail_of (l : Z) : Z := l + 8.

(** ** Memory accesses *)

Definition load (p : Z) : ST heap list_elem := fun h =>
  match h !! p with Some e => Ret (e, h) | None => Err BadAccess end.

Definition store (p : Z) (e : list_elem) : ST heap unit := fun h =>
  match h !! p with Some _ => Ret (tt, <[p := e]> h) | None => Err BadAccess end.

Definition get_prev (p : Z) : ST heap Z := do! e := load p in sret (prev e).
Definition get_next (p : Z) : ST heap Z := do! e := load p in sret (next e).
Definition set_prev (p v : Z) : ST heap unit :=
  do! e := load p in store p (mkElem v (next e)).
Definition set_next (p v : Z) : ST heap unit :=
  do! e := load p in store p (mkElem (prev e) v).

(** ** Operations *)

Definition is_head (elem : Z) : ST heap bool :=
  if elem =? NULL then sret false else
  do! e := load elem in
  sret ((prev e =? NULL) && negb (next e =? NULL)).

Definition is_interior (elem : Z) : ST heap bool :=
  if elem =? NULL then sret false else
  do! e := load elem in
  sret (negb (prev e =? NULL) && negb (next e =? NULL)).

Definition is_tail (elem : Z) : ST heap bool :=
  if elem =? NULL then sret false else
  do! e := load elem in
  sret (negb (prev e =? NULL) && (next e =? NULL)).

Definition list_init (l : Z) : ST heap unit :=
  do! _ := assert_ (negb (l =? NULL)) in
  do! _ := set_prev (head_of l) NULL in
  do! _ := set_next (head_of l) (tail_of l) in
  do! _ := set_prev (tail_of l) (head_of l) in
  set_next (tail_of l) NULL.

Definition list_begin (l : Z) : ST heap Z :=
  do! _ := assert_ (negb (l =? NULL)) in get_next (head_of l).

(** The assertion [is_head (elem) || is_interior (elem)], evaluated with
    the short circuit of [||]. *)
Definition list_next (elem : Z) : ST heap Z :=
  do! a := is_head elem in
  do! b := (if a then sret true else is_interior elem) in
  do! _ := assert_ b in
  get_next elem.

Definition list_end (l : Z) : ST heap Z :=
  do! _ := assert_ (negb (l =? NULL)) in sret (tail_of l).

Definition list_rbegin (l : Z) : ST heap Z :=
  do! _ := assert_ (negb (l =? NULL)) in get_prev (tail_of l).

Definition list_prev (elem : Z) : ST heap Z :=
  do! a := is_interior elem in
  do! b := (if a then sret true else is_tail elem) in
  do! _ := assert_ b in
  get_prev elem.

Definition list_rend (l : Z) : ST heap Z :=
  do! _ := assert_ (negb (l =? NULL)) in sret (head_of l).

Definition list_head (l : Z) : ST heap Z :=
  do! _ := assert_ (negb (l =? NULL)) in sret (head_of l).

Definition list_tail (l : Z) : ST heap Z :=
  do! _ := assert_ (negb (l =? NULL)) in sret (tail_of l).

(** [ASSERT (is_interior (before) || is_tail (before))]. *)
Definition assert_before (before : Z) : ST heap unit :=
  do! a := is_interior before in
  do! b := (if a then sret true else is_tail before) in
  assert_ b.

Definition list_insert (before elem : Z) : ST heap unit :=
  do! _ := assert_before before in
  do! _ := assert_ (negb (elem =? NULL)) in
  do! p := get_prev before in
  do! _ := set_prev elem p in
  do! _ := set_next elem before in
  do! p' := get_prev before in
  do! _ := set_next p' elem in
  set_prev before elem.

Definition list_splice (before first last : Z) : ST heap unit :=
  do! _ := assert_before before in
  if first =? last then sret tt else
  do! last := list_prev last in
  do! a := is_interior first in
  do! _ := assert_ a in
  do! b := is_interior last in
  do! _ := assert_ b in
  do! fp := get_prev first in
  do! ln := get_next last in
  do! _ := set_next fp ln in
  do! ln' := get_next last in
  do! fp' := get_prev first in
  do! _ := set_prev ln' fp' in
  do! bp := get_prev before in
  do! _ := set_prev first bp in
  do! _ := set_next last before in
  do! bp' := get_prev before in
  do! _ := set_next bp' first in
  set_prev before last.

Definition list_push_front (l elem : Z) : ST heap unit :=
  do! b := list_begin l in list_insert b elem.

Definition list_push_back (l elem : Z) : ST heap unit :=
  do! e := list_end l in list_insert e elem.

Definition list_remove (elem : Z) : ST heap Z :=
  do! a := is_interior elem in
  do! _ := assert_ a in
  do! p := get_prev elem in
  do! n := get_next elem in
  do! _ := set_next p n in
  do! n' := get_next elem in
  do! p' := get_prev elem in
  do! _ := set_prev n' p' in
  get_next elem.

Definition list_empty (l : Z) : ST heap bool :=
  do! b := list_begin l in
  do! e := list_end l in
  sret (b =? e).

Definition list_front (l : Z) : ST heap Z :=
  do! b := list_empty l in
  do! _ := assert_ (negb b) in
  get_next (head_of l).

Definition list_back (l : Z) : ST heap Z :=
  do! b := list_empty l in
  do! _ := assert_ (negb b) in
  get_prev (tail_of l).

Definition list_pop_front (l : Z) : ST heap Z :=
  do! front := list_front l in
  do! _ := list_remove front in
  sret front.

Definition list_pop_back (l : Z) : ST heap Z :=
  do! back := list_back l in
  do! _ := list_remove back in
  sret back.

Fixpoint size_loop (fuel : nat) (l e cnt : Z) : ST heap Z :=
  match fuel with
  | O => stop NoFuel
  | S fuel' =>
      do! en := list_end l in
      if e =? en then sret cnt else
      do! n := list_next e in
      size_loop fuel' l n (u32 (cnt + 1))
  end.

Definition list_size (fuel : nat) (l : Z) : ST heap Z :=
  do! b := list_begin l in size_loop fuel l b 0.

(** [swap (&e->prev, &e->next)]. *)
Definition swap_links (e : Z) : ST heap unit :=
  do! c := load e in store e (mkElem (next c) (prev c)).

Fixpoint reverse_loop (fuel : nat) (l e : Z) : ST heap unit :=
  match fuel with
  | O => stop NoFuel
  | S fuel' =>
      do! en := list_end l in
      if e =? en then sret tt else
      do! _ := swap_links e in
      do! p := get_prev e in
      reverse_loop fuel' l p
  end.

Definition list_reverse (fuel : nat) (l : Z) : ST heap unit :=
  do! em := list_empty l in
  if em then sret tt else
  do! b := list_begin l in
  do! _ := reverse_loop fuel l b in
  (* swap (&list->head.next, &list->tail.prev) *)
  do! hn := get_next (head_of l) in
  do! tp := get_prev (tail_of l) in
  do! _ := set_next (head_of l) tp in
  do! _ := set_prev (tail_of l) hn in
  (* swap (&list->head.next->prev, &list->tail.prev->next) *)
  do! hn := get_next (head_of l) in
  do! tp := get_prev (tail_of l) in
  do! x := get_prev hn in
  do! y := get_next tp in
  do! _ := set_prev hn y in
  set_next tp x.

Section Ordered.
(** The comparison function supplied by the caller, with its auxiliary
    data: it looks at the structures that contain the elements, not at
    their links. *)
Variable less : Z -> Z -> bool.

Fixpoint sorted_loop (fuel : nat) (a b : Z) : ST heap bool :=
  match fuel with
  | O => stop NoFuel
  | S fuel' =>
      do! a' := list_next a in
      if a' =? b then sret true else
      do! p := list_prev a' in
      if less a' p then sret false else sorted_loop fuel' a' b
  end.

Definition is_sorted (fuel : nat) (a b : Z) : ST heap bool :=
  if negb (a =? b) then sorted_loop fuel a b else sret true.

Fixpoint run_loop (fuel : nat) (a b : Z) : ST heap Z :=
  match fuel with
  | O => stop NoFuel
  | S fuel' =>
      do! a' := list_next a in
      if a' =? b then sret a' else
      do! p := list_prev a' in
      if negb (less a' p) then run_loop fuel' a' b else sret a'
  end.

Definition find_end_of_run (fuel : nat) (a b : Z) : ST heap Z :=
  do! _ := assert_ (negb (a =? NULL)) in
  do! _ := assert_ (negb (b =? NULL)) in
  do! _ := assert_ (negb (a =? b)) in
  run_loop fuel a b.

Fixpoint merge_loop (fuel : nat) (a0 a1b0 b1 : Z) : ST heap unit :=
  match fuel with
  | O => stop NoFuel
  | S fuel' =>
      if negb (a0 =? a1b0) && negb (a1b0 =? b1) then
        if negb (less a1b0 a0) then
          do! n := list_next a0 in merge_loop fuel' n a1b0 b1
        else
          do! n := list_next a1b0 in
          do! p := list_prev n in
          do! _ := list_splice a0 p n in
          merge_loop fuel' a0 n b1
      else sret tt
  end.

Definition inplace_merge (fuel : nat) (a0 a1b0 b1 : Z) : ST heap unit :=
  do! _ := assert_ (negb (a0 =? NULL)) in
  do! _ := assert_ (negb (a1b0 =? NULL)) in
  do! _ := assert_ (negb (b1 =? NULL)) in
  do! s1 := is_sorted fuel a0 a1b0 in
  do! _ := assert_ s1 in
  do! s2 := is_sorted fuel a1b0 b1 in
  do! _ := assert_ s2 in
  merge_loop fuel a0 a1b0 b1.

(** One pass over the list (the [for] loop of [list_sort]); the result is
    [output_run_cnt]. *)
Fixpoint pass_loop (fuel0 fuel : nat) (l a0 output_run_cnt : Z) : ST heap Z :=
  match fuel with
  | O => stop NoFuel
  | S fuel' =>
      do! en := list_end l in
      if a0 =? en then sret output_run_cnt else
      let output_run_cnt := u32 (output_run_cnt + 1) in
      do! en := list_end l in
      do! a1b0 := find_end_of_run fuel0 a0 en in
      do! en := list_end l in
      if a1b0 =? en then sret output_run_cnt else
      do! en := list_end l in
      do! b1 := find_end_of_run fuel0 a1b0 en in
      do! _ := inplace_merge fuel0 a0 a1b0 b1 in
      pass_loop fuel0 fuel' l b1 output_run_cnt
  end.

(** The [do ... while (output_run_cnt > 1)] loop. *)
Fixpoint sort_loop (fuel0 fuel : nat) (l : Z) : ST heap unit :=
  match fuel with
  | O => stop NoFuel
  | S fuel' =>
      do! b := list_begin l in
      do! output_run_cnt := pass_loop fuel0 fuel0 l b 0 in
      if 1 <? output_run_cnt then sort_loop fuel0 fuel' l else sret tt
  end.

Definition list_sort (fuel : nat) (l : Z) : ST heap unit :=
  do! _ := assert_ (negb (l =? NULL)) in
  do! _ := sort_loop fuel fuel l in
  do! b := list_begin l in
  do! e := list_end l in
  do! s := is_sorted fuel b e in
  assert_ s.

Fixpoint ordered_loop (fuel : nat) (l elem e : Z) : ST heap Z :=
  match fuel with
  | O => stop NoFuel
  | S fuel' =>
      do! en := list_end l in
      if e =? en then sret e else
      if less elem e then sret e else
      do! n := list_next e in
      ordered_loop fuel' l elem n
  end.

Definition list_insert_ordered (fuel : nat) (l elem : Z) : ST heap unit :=
  do! _ := assert_ (negb (l =? NULL)) in
  do! _ := assert_ (negb (elem =? NULL)) in
  do! b := list_begin l in
  do! e := ordered_loop fuel l elem b in
  list_insert e elem.

Fixpoint unique_loop (fuel : nat) (l duplicates elem : Z) : ST heap unit :=
  match fuel with
  | O => stop NoFuel
  | S fuel' =>
      do! n := list_next elem in
      do! en := list_end l in
      if n =? en then sret tt else
      if negb (less elem n) && negb (less n elem) then
        do! _ := list_remove n in
        do! _ := (if negb (duplicates =? NULL) then list_push_back duplicates n else sret tt) in
        unique_loop fuel' l duplicates elem
      else unique_loop fuel' l duplicates n
  end.

Definition list_unique (fuel : nat) (l duplicates : Z) : ST heap unit :=
  do! _ := assert_ (negb (l =? NULL)) in
  do! em := list_empty l in
  if em then sret tt else
  do! b := list_begin l in
  unique_loop fuel l duplicates b.

Fixpoint max_loop (fuel : nat) (l e max : Z) : ST heap Z :=
  match fuel with
  | O => stop NoFuel
  | S fuel' =>
      do! en := list_end l in
      if e =? en then sret max else
      let max := if less max e then e else max in
      do! n := list_next e in
      max_loop fuel' l n max
  end.

Definition list_max (fuel : nat) (l : Z) : ST heap Z :=
  do! max := list_begin l in
  do! en := list_end l in
  if negb (max =? en) then
    do! e := list_next max in max_loop fuel l e max
  else sret max.

Fixpoint min_loop (fuel : nat) (l e min : Z) : ST heap Z :=
  match fuel with
  | O => stop NoFuel
  | S fuel' =>
      do! en := list_end l in
      if e =? en then sret min else
      let min := if less e min then e else min in
      do! n := list_next e in
      min_loop fuel' l n min
  end.

Definition list_min (fuel : nat) (l : Z) : ST heap Z :=
  do! min := list_begin l in
  do! en := list_end l in
  if negb (min =? en) then
    do! e := list_next min in min_loop fuel l e min
  else sret min.
End Ordered.

(** ** Abstract view: the sequence of elements between head and tail *)

Definition next_of (h : heap) (p : Z) : option Z := next <$> h !! p.
Definition prev_of (h : heap) (p : Z) : option Z := prev <$> h !! p.

Definition link (h : heap) (a b : Z) : Prop :=
  next_of h a = Some b /\ prev_of h b = Some a.

Fixpoint linked (h : heap) (ns : list Z) : Prop :=
  match ns with
  | a :: ((b :: _) as t) => link h a b /\ linked h t
  | _ => True
  end.

Definition nodes (l : Z) (xs : list Z) : list Z := head_of l :: xs ++ [tail_of l].

(** [dl h l xs]: in heap [h], the list at [l] holds exactly the elements
    [xs], in this order. *)
Record dl (h : heap) (l : Z) (xs : list Z) : Prop := mkDl {
  dl_nodup : NoDup (nodes l xs);
  dl_nonnull : NULL ∉ nodes l xs;
  dl_linked : linked h (nodes l xs);
  dl_head : prev_of h (head_of l) = Some NULL;
  dl_tail : next_of h (tail_of l) = Some NULL
}.

(** A position in the list: the first node of the rest [post], the last node
    of the part [pre] before it. *)
Definition cur (l : Z) (post : list Z) : Z := default (tail_of l) (head post).
Definition rcur (l : Z) (pre : list Z) : Z := default (head_of l) (last pre).

Definition upd_next (p v : Z) (h : heap) : heap := alter (fun e => mkElem (prev e) v) p h.
Definition upd_prev (p v : Z) (h : heap) : heap := alter (fun e => mkElem v (next e)) p h.

(** *** Memory lemmas *)

Lemma next_of_upd_next p v h q :
  next_of (upd_next p v h) q = if decide (p = q) then const v <$> h !! p else next_of h q.
Proof.
  unfold next_of, upd_next. rewrite lookup_alter. case_decide as Hd; [|done].
  subst. by destruct (h !! q).
Qed.

Lemma next_of_upd_prev p v h q : next_of (upd_prev p v h) q = next_of h q.
Proof.
  unfold next_of, upd_prev. rewrite lookup_alter. case_decide as Hd; [|done].
  subst. by destruct (h !! q).
Qed.

Lemma prev_of_upd_prev p v h q :
  prev_of (upd_prev p v h) q = if decide (p = q) then const v <$> h !! p else prev_of h q.
Proof.
  unfold prev_of, upd_prev. rewrite lookup_alter. case_decide as Hd; [|done].
  subst. by destruct (h !! q).
Qed.

Lemma prev_of_upd_next p v h q : prev_of (upd_next p v h) q = prev_of h q.
Proof.
  unfold prev_of, upd_next. rewrite lookup_alter. case_decide as Hd; [|done].
  subst. by destruct (h !! q).
Qed.

Lemma upd_next_cell p v h q : is_Some (upd_next p v h !! q) <-> is_Some (h !! q).
Proof.
  unfold upd_next. rewrite lookup_alter. case_decide as Hd; [|done]. subst.
  by rewrite fmap_is_Some.
Qed.

Lemma upd_prev_cell p v h q : is_Some (upd_prev p v h !! q) <-> is_Some (h !! q).
Proof.
  unfold upd_prev. rewrite lookup_alter. case_decide as Hd; [|done]. subst.
  by rewrite fmap_is_Some.
Qed.

Lemma upd_next_frame p v h q : p <> q -> upd_next p v h !! q = h !! q.
Proof. intros. unfold upd_next. by rewrite lookup_alter_ne. Qed.

Lemma upd_prev_frame p v h q : p <> q -> upd_prev p v h !! q = h !! q.
Proof. intros. unfold upd_prev. by rewrite lookup_alter_ne. Qed.

Lemma next_of_cell h p v : next_of h p = Some v -> is_Some (h !! p).
Proof. unfold next_of. destruct (h !! p); [eauto|done]. Qed.

Lemma prev_of_cell h p v : prev_of h p = Some v -> is_Some (h !! p).
Proof. unfold prev_of. destruct (h !! p); [eauto|done]. Qed.

Lemma const_cell {A} (v : A) (o : option list_elem) : is_Some o -> const v <$> o = Some v.
Proof. by intros [e ->]. Qed.

Lemma run_get_next h p n : next_of h p = Some n -> get_next p h = Ret (n, h).
Proof. unfold next_of, get_next, sbind, load, sret. destruct (h !! p); simpl; congruence. Qed.

Lemma run_get_prev h p n : prev_of h p = Some n -> get_prev p h = Ret (n, h).
Proof. unfold prev_of, get_prev, sbind, load, sret. destruct (h !! p); simpl; congruence. Qed.

Lemma run_set_next h p v : is_Some (h !! p) -> set_next p v h = Ret (tt, upd_next p v h).
Proof.
  intros [e He]. unfold set_next, sbind, load, store. rewrite He, He. do 2 f_equal.
  apply map_eq. intros i. unfold upd_next. rewrite lookup_alter, lookup_insert.
  case_decide; [|done]. subst. by rewrite He.
Qed.

Lemma run_set_prev h p v : is_Some (h !! p) -> set_prev p v h = Ret (tt, upd_prev p v h).
Proof.
  intros [e He]. unfold set_prev, sbind, load, store. rewrite He, He. do 2 f_equal.
  apply map_eq. intros i. unfold upd_prev. rewrite lookup_alter, lookup_insert.
  case_decide; [|done]. subst. by rewrite He.
Qed.

Lemma run_is_interior h p a b :
  p <> NULL -> prev_of h p = Some a -> next_of h p = Some b ->
  is_interior p h = Ret (negb (a =? NULL) && negb (b =? NULL), h).
Proof.
  unfold prev_of, next_of, is_interior, sbind, load, sret. intros Hp Ha Hb.
  destruct (Z.eqb_spec p NULL); [done|]. destruct (h !! p); simpl in *; congruence.
Qed.

Lemma run_is_tail h p a b :
  p <> NULL -> prev_of h p = Some a -> next_of h p = Some b ->
  is_tail p h = Ret (negb (a =? NULL) && (b =? NULL), h).
Proof.
  unfold prev_of, next_of, is_tail, sbind, load, sret. intros Hp Ha Hb.
  destruct (Z.eqb_spec p NULL); [done|]. destruct (h !! p); simpl in *; congruence.
Qed.

Lemma run_is_head h p a b :
  p <> NULL -> prev_of h p = Some a -> next_of h p = Some b ->
  is_head p h = Ret ((a =? NULL) && negb (b =? NULL), h).
Proof.
  unfold prev_of, next_of, is_head, sbind, load, sret. intros Hp Ha Hb.
  destruct (Z.eqb_spec p NULL); [done|]. destruct (h !! p); simpl in *; congruence.
Qed.

Create Rewrite HintDb links.
#[export] Hint Rewrite next_of_upd_next next_of_upd_prev prev_of_upd_prev prev_of_upd_next : links.
#[export] Hint Resolve next_of_cell prev_of_cell : pintos.

(** Solves a question about a link after some updates. *)
Ltac links :=
  autorewrite with links;
  repeat (case_decide; try congruence);
  try (apply const_cell; repeat first [rewrite upd_next_cell | rewrite upd_prev_cell]; eauto with pintos);
  try done.

(** *** Structure of [linked] *)

Lemma linked_app h u a b v :
  linked h (u ++ a :: b :: v) <-> linked h (u ++ [a]) /\ link h a b /\ linked h (b :: v).
Proof.
  induction u as [|x u IH]; simpl.
  - tauto.
  - destruct u as [|y u]; simpl in *; tauto.
Qed.

Lemma linked_frame h h' ns :
  (forall x, x ∈ removelast ns -> next_of h' x = next_of h x) ->
  (forall x, x ∈ tail ns -> prev_of h' x = prev_of h x) ->
  linked h ns -> linked h' ns.
Proof.
  induction ns as [|a [|b t] IH]; intros Hn Hp; [done|done|].
  intros [[H1 H2] H3]. split.
  - split; [rewrite Hn|rewrite Hp]; try done; set_solver.
  - apply IH; [intros x Hx; apply Hn; set_solver|intros x Hx; apply Hp; set_solver|done].
Qed.

Lemma linked_frame_snoc h h' u a :
  (forall x, x ∈ u -> next_of h' x = next_of h x) ->
  (forall x, x ∈ tail (u ++ [a]) -> prev_of h' x = prev_of h x) ->
  linked h (u ++ [a]) -> linked h' (u ++ [a]).
Proof. intros Hn. apply linked_frame. by rewrite removelast_last. Qed.

Lemma linked_cells h ns p :
  linked h ns -> (2 <= length ns)%nat -> p ∈ ns -> is_Some (h !! p).
Proof.
  induction ns as [|a [|b t] IH]; simpl; [lia..|].
  intros [[H1 H2] H3] _ [->|Hp]%elem_of_cons; [eauto with pintos|].
  destruct t as [|c t]; [|apply IH; simpl; try done; lia].
  apply list_elem_of_singleton in Hp as ->. eauto with pintos.
Qed.

Lemma pre_snoc l pre : exists u, head_of l :: pre = u ++ [rcur l pre].
Proof.
  destruct pre as [|x pre] using rev_ind.
  - by exists [].
  - exists (head_of l :: pre). unfold rcur. by rewrite last_snoc.
Qed.

Lemma post_cons l post : exists v, post ++ [tail_of l] = cur l post :: v.
Proof. destruct post as [|x post]; simpl; unfold cur; simpl; eauto. Qed.

Lemma nodes_split l pre post :
  exists u v, head_of l :: pre = u ++ [rcur l pre] /\ post ++ [tail_of l] = cur l post :: v /\
    nodes l (pre ++ post) = u ++ rcur l pre :: cur l post :: v.
Proof.
  destruct (pre_snoc l pre) as [u Hu], (post_cons l post) as [v Hv]. exists u, v.
  split_and!; [done..|]. unfold nodes. rewrite <- app_assoc, app_comm_cons, Hu, Hv.
  by rewrite <- app_assoc.
Qed.

(** *** Reading a well-formed list *)

Lemma dl_cell h l xs p : dl h l xs -> p ∈ nodes l xs -> is_Some (h !! p).
Proof.
  intros H Hp. eapply linked_cells; [apply (dl_linked _ _ _ H)| |done].
  unfold nodes. simpl. rewrite length_app. simpl. lia.
Qed.

Lemma dl_nodes_nonnull h l xs p : dl h l xs -> p ∈ nodes l xs -> p <> NULL.
Proof. intros H Hp ->. by apply (dl_nonnull _ _ _ H). Qed.

Lemma dl_link h l pre post : dl h l (pre ++ post) -> link h (rcur l pre) (cur l post).
Proof.
  intros H. destruct (nodes_split l pre post) as (u & v & _ & _ & Hn).
  pose proof (dl_linked _ _ _ H) as Hl. rewrite Hn in Hl. by apply linked_app in Hl as (_ & ? & _).
Qed.

Lemma rcur_in l pre post : rcur l pre ∈ nodes l (pre ++ post).
Proof. destruct (nodes_split l pre post) as (u & v & _ & _ & ->). set_solver. Qed.

Lemma cur_in l pre post : cur l post ∈ nodes l (pre ++ post).
Proof. destruct (nodes_split l pre post) as (u & v & _ & _ & ->). set_solver. Qed.

Lemma dl_l_nonnull h l xs : dl h l xs -> l <> NULL.
Proof. intros H. eapply dl_nodes_nonnull; [done|]. unfold nodes, head_of. set_solver. Qed.

Lemma dl_frame h h' l xs :
  dl h l xs -> (forall x, x ∈ nodes l xs -> h' !! x = h !! x) -> dl h' l xs.
Proof.
  intros H Hf.
  assert (Hn : forall x, x ∈ nodes l xs -> next_of h' x = next_of h x).
  { intros x Hx. unfold next_of. by rewrite Hf. }
  assert (Hp : forall x, x ∈ nodes l xs -> prev_of h' x = prev_of h x).
  { intros x Hx. unfold prev_of. by rewrite Hf. }
  destruct H as [H1 H2 H3 H4 H5]. split; try done.
  - revert H3. apply linked_frame; intros x Hx; [apply Hn|apply Hp].
    + unfold nodes in *. rewrite app_comm_cons, removelast_last in Hx. set_solver.
    + unfold nodes in *. set_solver.
  - rewrite Hp; [done|unfold nodes; set_solver].
  - rewrite Hn; [done|unfold nodes; set_solver].
Qed.

(** An element [e] of the list has both neighbours and is interior. *)
Lemma dl_interior h l pre e post :
  dl h l (pre ++ e :: post) ->
  prev_of h e = Some (rcur l pre) /\ next_of h e = Some (cur l post) /\ e <> NULL /\
  rcur l pre <> NULL /\ cur l post <> NULL.
Proof.
  intros H. destruct (dl_link h l pre (e :: post) H) as [_ H1].
  pose proof H as H'. rewrite cons_middle, app_assoc in H'.
  destruct (dl_link h l (pre ++ [e]) post H') as [H2 _].
  unfold rcur at 1 in H2. rewrite last_snoc in H2. split_and!; try done.
  - eapply dl_nodes_nonnull; [exact H|]. unfold nodes. set_solver.
  - eapply dl_nodes_nonnull; [exact H|apply rcur_in].
  - eapply dl_nodes_nonnull; [exact H'|apply cur_in].
Qed.

Lemma run_is_interior_elem h l pre e post :
  dl h l (pre ++ e :: post) -> is_interior e h = Ret (true, h).
Proof.
  intros H. destruct (dl_interior _ _ _ _ _ H) as (H1 & H2 & He & Hr & Hc).
  erewrite run_is_interior by eauto.
  by destruct (Z.eqb_spec (rcur l pre) NULL), (Z.eqb_spec (cur l post) NULL).
Qed.

Lemma run_list_next h l pre e post :
  dl h l (pre ++ e :: post) -> list_next e h = Ret (cur l post, h).
Proof.
  intros H. destruct (dl_interior _ _ _ _ _ H) as (H1 & H2 & He & Hr & Hc).
  unfold list_next. sstep (run_is_head h e _ _ He H1 H2).
  destruct (Z.eqb_spec (rcur l pre) NULL); [done|]. cbn [andb].
  sstep (run_is_interior_elem _ _ _ _ _ H). sassert by done. by apply run_get_next.
Qed.

(** [is_interior (before) || is_tail (before)] holds at every position. *)
Lemma run_before h l pre post :
  dl h l (pre ++ post) ->
  exists a, is_interior (cur l post) h = Ret (a, h) /\
    (if a then sret true else is_tail (cur l post)) h = Ret (true, h).
Proof.
  intros H. destruct post as [|e post].
  - destruct (dl_link h l pre [] H) as [_ Hp]. unfold cur in *. simpl in *.
    pose proof (dl_tail _ _ _ H) as Ht.
    assert (rcur l pre <> NULL) by (eapply dl_nodes_nonnull; [exact H|apply rcur_in]).
    assert (tail_of l <> NULL) by (eapply dl_nodes_nonnull; [exact H|unfold nodes; set_solver]).
    exists false. erewrite run_is_interior by eauto. erewrite run_is_tail by eauto.
    destruct (Z.eqb_spec (rcur l pre) NULL); [done|]. done.
  - exists true. unfold cur. simpl. split; [by eapply run_is_interior_elem|done].
Qed.

Lemma run_list_prev h l pre post :
  dl h l (pre ++ post) -> list_prev (cur l post) h = Ret (rcur l pre, h).
Proof.
  intros H. destruct (run_before h l pre post H) as (a & H1 & H2).
  unfold list_prev. sstep H1. sstep H2. sassert by done.
  apply run_get_prev. by destruct (dl_link h l pre post H).
Qed.

Lemma run_assert_before h l pre post :
  dl h l (pre ++ post) -> assert_before (cur l post) h = Ret (tt, h).
Proof.
  intros H. destruct (run_before h l pre post H) as (a & H1 & H2).
  unfold assert_before. sstep H1. by sstep H2.
Qed.

Lemma run_list_begin h l xs : dl h l xs -> list_begin l h = Ret (cur l xs, h).
Proof.
  intros H. pose proof (dl_l_nonnull _ _ _ H). unfold list_begin.
  sassert by (by destruct (Z.eqb_spec l NULL)).
  apply run_get_next. by destruct (dl_link h l [] xs H).
Qed.

Lemma run_list_end h l xs : dl h l xs -> list_end l h = Ret (tail_of l, h).
Proof.
  intros H. pose proof (dl_l_nonnull _ _ _ H). unfold list_end.
  sassert by (by destruct (Z.eqb_spec l NULL)). done.
Qed.

(** A position is the end exactly when nothing follows. *)
Lemma cur_end h l pre post :
  dl h l (pre ++ post) -> (cur l post =? tail_of l) = match post with [] => true | _ => false end.
Proof.
  intros H. destruct post as [|e post]; unfold cur; simpl; [apply Z.eqb_refl|].
  destruct (Z.eqb_spec e (tail_of l)); [|done]. subst. exfalso.
  pose proof (dl_nodup _ _ _ H) as Hn. unfold nodes in Hn. apply NoDup_cons in Hn as [_ Hn].
  apply (NoDup_app_inv _ _ (tail_of l) Hn); set_solver.
Qed.

(** *** Segments *)

Lemma linked_concat h u v a b :
  last u = Some a -> head v = Some b ->
  linked h (u ++ v) <-> linked h u /\ link h a b /\ linked h v.
Proof.
  intros (u' & ->)%last_Some Hv. destruct v as [|b' v]; [done|]. simpl in Hv. inversion Hv; subst.
  rewrite <- app_assoc. apply linked_app.
Qed.

(** A segment survives updates of the [prev] link of its first node, of the
    [next] link of its last node, and of nodes outside. *)
Lemma linked_segment h h' ns a z :
  head ns = Some a -> last ns = Some z -> NoDup ns ->
  (forall x, x ∈ ns -> x <> z -> next_of h' x = next_of h x) ->
  (forall x, x ∈ ns -> x <> a -> prev_of h' x = prev_of h x) ->
  linked h ns -> linked h' ns.
Proof.
  intros Ha (ns' & ->)%last_Some Hd Hn Hp. apply linked_frame; intros x Hx.
  - rewrite removelast_last in Hx. apply Hn; [set_solver|]. intros ->.
    apply (NoDup_app_inv _ _ z Hd); set_solver.
  - destruct (ns' ++ [z]) as [|a' t] eqn:E; [done|]. simpl in *. inversion Ha; subst.
    apply NoDup_cons in Hd as [Hd _]. apply Hp; [set_solver|congruence].
Qed.

Lemma last_pre l pre : last (head_of l :: pre) = Some (rcur l pre).
Proof. destruct (pre_snoc l pre) as [u ->]. apply last_snoc. Qed.

Lemma head_post l post : head (post ++ [tail_of l]) = Some (cur l post).
Proof. by destruct (post_cons l post) as [v ->]. Qed.

Lemma nodes_app l pre post : nodes l (pre ++ post) = (head_of l :: pre) ++ (post ++ [tail_of l]).
Proof. unfold nodes. by rewrite <- app_assoc. Qed.

Lemma dl_segments h l pre post :
  dl h l (pre ++ post) <->
  NoDup ((head_of l :: pre) ++ (post ++ [tail_of l])) /\ (NULL ∉ nodes l (pre ++ post)) /\
  linked h (head_of l :: pre) /\ link h (rcur l pre) (cur l post) /\
  linked h (post ++ [tail_of l]) /\
  prev_of h (head_of l) = Some NULL /\ next_of h (tail_of l) = Some NULL.
Proof.
  split.
  - intros [H1 H2 H3 H4 H5]. rewrite nodes_app in H1, H3.
    rewrite (linked_concat _ _ _ _ _ (last_pre l pre) (head_post l post)) in H3. tauto.
  - intros (H1 & H2 & H3 & H4 & H5 & H6 & H7). split; try done; rewrite nodes_app; try done.
    apply (linked_concat _ _ _ _ _ (last_pre l pre) (head_post l post)). tauto.
Qed.

Lemma last_in {A} (l : list A) z : last l = Some z -> z ∈ l.
Proof. intros (l' & ->)%last_Some. set_solver. Qed.

Lemma head_in {A} (l : list A) z : head l = Some z -> z ∈ l.
Proof. destruct l; simpl; [done|]. intros [= ->]. set_solver. Qed.

(** The part of the list before a position keeps its links when the changed
    [next] links are those of the last node before the position or of nodes
    outside, and likewise for the part after it. *)
Lemma linked_pre h h' l pre :
  NoDup (head_of l :: pre) ->
  (forall x, x ∈ head_of l :: pre -> x <> rcur l pre -> next_of h' x = next_of h x) ->
  (forall x, x ∈ head_of l :: pre -> prev_of h' x = prev_of h x) ->
  linked h (head_of l :: pre) -> linked h' (head_of l :: pre).
Proof.
  intros Hd Hn Hp. eapply linked_segment; [done|apply last_pre|done|done|]. intros. by apply Hp.
Qed.

Lemma linked_post h h' l post :
  NoDup (post ++ [tail_of l]) ->
  (forall x, x ∈ post ++ [tail_of l] -> next_of h' x = next_of h x) ->
  (forall x, x ∈ post ++ [tail_of l] -> x <> cur l post -> prev_of h' x = prev_of h x) ->
  linked h (post ++ [tail_of l]) -> linked h' (post ++ [tail_of l]).
Proof.
  intros Hd Hn Hp. eapply linked_segment; [apply head_post|apply last_snoc|done| |done].
  intros. by apply Hn.
Qed.

Lemma nodes_perm_insert l pre e post : nodes l (pre ++ e :: post) ≡ₚ e :: nodes l (pre ++ post).
Proof. unfold nodes. rewrite <- !app_assoc. simpl. solve_Permutation. Qed.

Ltac in_nodes :=
  match goal with
  | |- rcur _ _ ∈ nodes _ _ => apply rcur_in
  | |- cur _ _ ∈ nodes _ _ => apply cur_in
  | _ => unfold nodes; set_solver
  end.

(** *** Insertion and removal *)

Lemma run_list_insert h l pre e post :
  dl h l (pre ++ post) -> e ∉ nodes l (pre ++ post) -> e <> NULL -> is_Some (h !! e) ->
  exists h', list_insert (cur l post) e h = Ret (tt, h') /\ dl h' l (pre ++ e :: post) /\
    (forall x, x ∉ nodes l (pre ++ e :: post) -> h' !! x = h !! x).
Proof.
  intros H He Hnn Hcell. destruct (dl_link _ _ _ _ H) as [Hn Hp].
  pose proof (rcur_in l pre post) as Hri. pose proof (cur_in l pre post) as Hci.
  assert (Her : e <> rcur l pre) by (intros ->; done).
  assert (Hec : e <> cur l post) by (intros ->; done).
  pose proof (dl_cell _ _ _ _ H Hri) as Hrc. pose proof (dl_cell _ _ _ _ H Hci) as Hcc.
  set (h1 := upd_prev e (rcur l pre) h). set (h2 := upd_next e (cur l post) h1).
  set (h3 := upd_next (rcur l pre) e h2). set (h4 := upd_prev (cur l post) e h3).
  exists h4. split; [|split].
  - unfold list_insert. sstep (run_assert_before _ _ _ _ H).
    sassert by (by destruct (Z.eqb_spec e NULL)).
    sstep (run_get_prev _ _ _ Hp). sstep (run_set_prev h e (rcur l pre) Hcell).
    sstep (run_set_next h1 e (cur l post) ltac:(by apply upd_prev_cell)).
    assert (Hp2 : prev_of h2 (cur l post) = Some (rcur l pre)) by (unfold h2, h1; links).
    sstep (run_get_prev _ _ _ Hp2).
    sstep (run_set_next h2 (rcur l pre) e ltac:(by apply upd_next_cell, upd_prev_cell)).
    apply run_set_prev. by apply upd_next_cell, upd_next_cell, upd_prev_cell.
  - apply dl_segments in H as (Hd & Hnull & Hl1 & _ & Hl2 & Hh & Ht).
    rewrite <- nodes_app in Hd. pose proof Hd as Hd'. rewrite nodes_app in Hd', He, Hri, Hci.
    apply NoDup_app in Hd' as (Hd1 & Hdd & Hd2).
    pose proof He as [He1 He2]%not_elem_of_app.
    pose proof (last_in _ _ (last_pre l pre)). pose proof (head_in _ _ (head_post l post)).
    assert (head_of l ∈ head_of l :: pre) by set_solver.
    assert (tail_of l ∈ post ++ [tail_of l]) by set_solver.
    apply dl_segments. split_and!.
    + rewrite <- nodes_app, nodes_perm_insert. apply NoDup_cons. by rewrite nodes_app in *.
    + rewrite nodes_perm_insert. intros [?|?]%elem_of_cons; [congruence|done].
    + revert Hl1. apply linked_pre; [done|..]; intros x Hx; [intros Hxr|];
        assert (x <> e) by apart; assert (x <> cur l post) by apart;
        unfold h4, h3, h2, h1; links.
    + split; unfold h4, h3, h2, h1, cur; simpl; links.
    + change ((e :: post) ++ [tail_of l]) with ([e] ++ (post ++ [tail_of l])).
      apply (linked_concat _ [e] _ e _ eq_refl (head_post l post)). split_and!; [done| |].
      * split; unfold h4, h3, h2, h1; links.
      * revert Hl2. apply linked_post; [done|..]; intros x Hx; [|intros Hxr];
          assert (x <> e) by apart; assert (x <> rcur l pre) by apart;
          unfold h4, h3, h2, h1; links.
    + assert (head_of l <> cur l post) by apart. assert (head_of l <> e) by apart.
      unfold h4, h3, h2, h1. links.
    + assert (tail_of l <> rcur l pre) by apart. assert (tail_of l <> e) by apart.
      unfold h4, h3, h2, h1. links.
  - intros x Hx. rewrite nodes_perm_insert in Hx. apply not_elem_of_cons in Hx as [? Hx].
    assert (x <> rcur l pre) by congruence. assert (x <> cur l post) by congruence.
    unfold h4, h3, h2, h1.
    by rewrite upd_prev_frame, upd_next_frame, upd_next_frame, upd_prev_frame by congruence.
Qed.

Lemma run_list_remove h l pre e post :
  dl h l (pre ++ e :: post) ->
  exists h', list_remove e h = Ret (cur l post, h') /\ dl h' l (pre ++ post) /\
    (forall x, x ∉ nodes l (pre ++ post) -> h' !! x = h !! x).
Proof.
  intros H. destruct (dl_interior _ _ _ _ _ H) as (Hp & Hn & He & Hr & Hc).
  pose proof (dl_nodup _ _ _ H) as Hd. rewrite nodes_perm_insert in Hd.
  apply NoDup_cons in Hd as [Hen Hd].
  pose proof (rcur_in l pre post) as Hri. pose proof (cur_in l pre post) as Hci.
  assert (Hrc : is_Some (h !! rcur l pre)) by (eapply dl_cell; [exact H|apply rcur_in]).
  assert (Hcc : is_Some (h !! cur l post)).
  { eapply dl_cell; [exact H|]. rewrite nodes_perm_insert. by right. }
  assert (Hne1 : e <> rcur l pre) by congruence. assert (Hne2 : e <> cur l post) by congruence.
  set (h1 := upd_next (rcur l pre) (cur l post) h).
  set (h2 := upd_prev (cur l post) (rcur l pre) h1).
  exists h2. split; [|split].
  - unfold list_remove. sstep (run_is_interior_elem _ _ _ _ _ H). sassert by done.
    sstep (run_get_prev _ _ _ Hp). sstep (run_get_next _ _ _ Hn).
    sstep (run_set_next h (rcur l pre) (cur l post) Hrc).
    assert (Hn1 : next_of h1 e = Some (cur l post)) by (unfold h1; links).
    assert (Hp1 : prev_of h1 e = Some (rcur l pre)) by (unfold h1; links).
    sstep (run_get_next _ _ _ Hn1). sstep (run_get_prev _ _ _ Hp1).
    sstep (run_set_prev h1 (cur l post) (rcur l pre) ltac:(by apply upd_next_cell)).
    apply run_get_next. unfold h2, h1. links.
  - apply dl_segments in H as (_ & Hnull & Hl1 & _ & Hl2 & Hh & Ht).
    change ((e :: post) ++ [tail_of l]) with ([e] ++ (post ++ [tail_of l])) in Hl2.
    apply (linked_concat _ [e] _ e _ eq_refl (head_post l post)) in Hl2 as (_ & _ & Hl2).
    rewrite nodes_perm_insert in Hnull. rewrite nodes_app in Hd.
    pose proof Hd as (Hd1 & Hdd & Hd2)%NoDup_app.
    pose proof (last_in _ _ (last_pre l pre)). pose proof (head_in _ _ (head_post l post)).
    assert (head_of l ∈ head_of l :: pre) by set_solver.
    assert (tail_of l ∈ post ++ [tail_of l]) by set_solver.
    apply dl_segments. split_and!; [done|by intros ?; apply Hnull; right|..].
    + revert Hl1. apply linked_pre; [done|..]; intros x Hx; [intros Hxr|];
        assert (x <> cur l post) by apart; unfold h2, h1; links.
    + split; unfold h2, h1; links.
    + revert Hl2. apply linked_post; [done|..]; intros x Hx; [|intros Hxr];
        assert (x <> rcur l pre) by apart; unfold h2, h1; links.
    + assert (head_of l <> cur l post) by apart. unfold h2, h1. links.
    + assert (tail_of l <> rcur l pre) by apart. unfold h2, h1. links.
  - intros x Hx. assert (x <> rcur l pre) by congruence. assert (x <> cur l post) by congruence.
    unfold h2, h1. by rewrite upd_prev_frame, upd_next_frame by congruence.
Qed.

(** *** Splicing: a block [M] moves in front of the block [A] before it *)

Lemma nodes_blocks l pre A M post :
  nodes l (pre ++ A ++ M ++ post) = (head_of l :: pre) ++ A ++ M ++ (post ++ [tail_of l]).
Proof. unfold nodes. by rewrite <- !app_assoc. Qed.

Lemma rcur_app l pre A z : last A = Some z -> rcur l (pre ++ A) = z.
Proof. intros (A' & ->)%last_Some. unfold rcur. by rewrite app_assoc, last_snoc. Qed.

Lemma cur_app l M post z : head M = Some z -> cur l (M ++ post) = z.
Proof. destruct M; simpl; [done|]. by intros [= ->]. Qed.

(** The blocks of a list and the links between them. *)
Lemma dl_blocks h l pre A M post a z m w :
  head A = Some a -> last A = Some z -> head M = Some m -> last M = Some w ->
  dl h l (pre ++ A ++ M ++ post) <->
  NoDup ((head_of l :: pre) ++ A ++ M ++ (post ++ [tail_of l])) /\
  (NULL ∉ nodes l (pre ++ A ++ M ++ post)) /\
  linked h (head_of l :: pre) /\ linked h A /\ linked h M /\ linked h (post ++ [tail_of l]) /\
  link h (rcur l pre) a /\ link h z m /\ link h w (cur l post) /\
  prev_of h (head_of l) = Some NULL /\ next_of h (tail_of l) = Some NULL.
Proof.
  intros Ha Hz Hm Hw.
  assert (HMp : head (M ++ post ++ [tail_of l]) = Some m) by (by destruct M).
  assert (HA : head (A ++ M ++ post ++ [tail_of l]) = Some a) by (by destruct A).
  assert (Hl : linked h (nodes l (pre ++ A ++ M ++ post)) <->
    linked h (head_of l :: pre) /\ link h (rcur l pre) a /\ linked h A /\ link h z m /\
    linked h M /\ link h w (cur l post) /\ linked h (post ++ [tail_of l])).
  { rewrite nodes_blocks, (linked_concat _ _ _ _ _ (last_pre l pre) HA).
    rewrite (linked_concat _ _ _ _ _ Hz HMp), (linked_concat _ _ _ _ _ Hw (head_post l post)). tauto. }
  split.
  - intros [H1 H2 H3 H4 H5]. rewrite nodes_blocks in H1. apply Hl in H3. tauto.
  - intros (H1 & H2 & H3). split; first [tauto | by rewrite nodes_blocks | apply Hl; tauto].
Qed.

Lemma NoDup_4 {T} (P Q R S : list T) :
  NoDup (P ++ Q ++ R ++ S) <->
  NoDup P /\ NoDup Q /\ NoDup R /\ NoDup S /\
  (forall x, x ∈ P -> x ∉ Q) /\ (forall x, x ∈ P -> x ∉ R) /\ (forall x, x ∈ P -> x ∉ S) /\
  (forall x, x ∈ Q -> x ∉ R) /\ (forall x, x ∈ Q -> x ∉ S) /\ (forall x, x ∈ R -> x ∉ S).
Proof. rewrite !NoDup_app. setoid_rewrite not_elem_of_app. setoid_rewrite not_elem_of_app. naive_solver. Qed.

Lemma NoDup_4_swap {T} (P Q R S : list T) : NoDup (P ++ Q ++ R ++ S) -> NoDup (P ++ R ++ Q ++ S).
Proof.
  intros H. assert (P ++ R ++ Q ++ S ≡ₚ P ++ Q ++ R ++ S) as -> by solve_Permutation. done.
Qed.

Lemma run_list_splice h l pre A M post a m :
  head A = Some a -> head M = Some m -> dl h l (pre ++ A ++ M ++ post) ->
  exists h', list_splice a m (cur l post) h = Ret (tt, h') /\ dl h' l (pre ++ M ++ A ++ post) /\
    (forall x, x ∉ nodes l (pre ++ A ++ M ++ post) -> h' !! x = h !! x).
Proof.
  intros Ha Hm H.
  destruct (last A) as [z|] eqn:Hz; [|by apply last_None in Hz; subst].
  destruct (last M) as [w|] eqn:Hw; [|by apply last_None in Hw; subst].
  pose proof H as HB. apply (dl_blocks _ _ _ _ _ _ a z m w Ha Hz Hm Hw) in HB
    as (Hd & Hnull & L1 & L2 & L3 & L4 & [N1 P1] & [N2 P2] & [N3 P3] & Hh & Ht).
  pose proof Hd as (D1 & D2 & D3 & D4 & E1 & E2 & E3 & E4 & E5 & E6)%NoDup_4.
  pose proof (last_in _ _ (last_pre l pre)) as I1. pose proof (head_in _ _ (head_post l post)) as I2.
  pose proof (head_in _ _ Ha) as I3. pose proof (last_in _ _ Hz) as I4.
  pose proof (head_in _ _ Hm) as I5. pose proof (last_in _ _ Hw) as I6.
  set (r := rcur l pre) in *. set (c := cur l post) in *.
  assert (cells : is_Some (h !! r) /\ is_Some (h !! a) /\ is_Some (h !! z) /\ is_Some (h !! m) /\
            is_Some (h !! w) /\ is_Some (h !! c)) by (split_and!; eauto with pintos).
  destruct cells as (Cr & Ca & Cz & Cm & Cw & Cc).
  assert (r <> z /\ r <> w /\ r <> a /\ r <> m /\ c <> a /\ c <> m /\ a <> m /\ z <> w) as Hne
    by (split_and!; apart).
  destruct Hne as (? & ? & ? & ? & ? & ? & ? & ?).
  set (h1 := upd_next z c h). set (h2 := upd_prev c z h1). set (h3 := upd_prev m r h2).
  set (h4 := upd_next w a h3). set (h5 := upd_next r m h4). set (h6 := upd_prev a w h5).
  assert (Hmint : is_interior m h = Ret (true, h)).
  { destruct M as [|m' M']; [done|]. inversion Hm; subst.
    eapply (run_is_interior_elem h l (pre ++ A) m (M' ++ post)). by rewrite <- app_assoc. }
  assert (Hwint : is_interior w h = Ret (true, h)).
  { apply last_Some in Hw as [M' ->].
    eapply (run_is_interior_elem h l (pre ++ A ++ M') w post). by rewrite <- !app_assoc in *. }
  exists h6. split; [|split].
  - unfold list_splice.
    pose proof (run_assert_before h l pre (A ++ M ++ post) H) as Hb.
    rewrite (cur_app _ _ _ _ Ha) in Hb. sstep Hb.
    assert (m <> c) by apart. destruct (Z.eqb_spec m c); [done|].
    assert (Hlp : list_prev c h = Ret (w, h)).
    { rewrite <- (rcur_app l (pre ++ A) M w Hw). apply run_list_prev. by rewrite <- !app_assoc. }
    sstep Hlp. sstep Hmint. sassert by done. sstep Hwint. sassert by done.
    sstep (run_get_prev h m z P2). sstep (run_get_next h w c N3).
    sstep (run_set_next h z c Cz).
    assert (Q1 : next_of h1 w = Some c) by (unfold h1; links). sstep (run_get_next _ _ _ Q1).
    assert (Q2 : prev_of h1 m = Some z) by (unfold h1; links). sstep (run_get_prev _ _ _ Q2).
    sstep (run_set_prev h1 c z ltac:(by apply upd_next_cell)).
    assert (Q3 : prev_of h2 a = Some r) by (unfold h2, h1; links). sstep (run_get_prev _ _ _ Q3).
    sstep (run_set_prev h2 m r ltac:(by apply upd_prev_cell, upd_next_cell)).
    sstep (run_set_next h3 w a ltac:(by apply upd_prev_cell, upd_prev_cell, upd_next_cell)).
    assert (Q4 : prev_of h4 a = Some r) by (unfold h4, h3, h2, h1; links).
    sstep (run_get_prev _ _ _ Q4).
    sstep (run_set_next h4 r m ltac:(by apply upd_next_cell, upd_prev_cell, upd_prev_cell, upd_next_cell)).
    apply run_set_prev.
    by apply upd_next_cell, upd_next_cell, upd_prev_cell, upd_prev_cell, upd_next_cell.
  - assert (FN : forall x, x <> z -> x <> w -> x <> r -> next_of h6 x = next_of h x)
      by (intros; unfold h6, h5, h4, h3, h2, h1; links).
    assert (FP : forall x, x <> c -> x <> m -> x <> a -> prev_of h6 x = prev_of h x)
      by (intros; unfold h6, h5, h4, h3, h2, h1; links).
    assert (head_of l ∈ head_of l :: pre) by set_solver.
    assert (tail_of l ∈ post ++ [tail_of l]) by set_solver.
    apply (dl_blocks _ _ _ _ _ _ m w a z Hm Hw Ha Hz). split_and!.
    + by apply NoDup_4_swap.
    + rewrite nodes_blocks in Hnull |- *. rewrite !not_elem_of_app in *. tauto.
    + revert L1. apply linked_pre; [done|..]; intros x Hx; [intros Hxr; apply FN|apply FP]; apart.
    + revert L3. apply (linked_segment _ _ _ _ _ Hm Hw D3); intros x Hx Hxe; [apply FN|apply FP]; apart.
    + revert L2. apply (linked_segment _ _ _ _ _ Ha Hz D2); intros x Hx Hxe; [apply FN|apply FP]; apart.
    + revert L4. apply linked_post; [done|..]; intros x Hx; [apply FN|intros Hxr; apply FP]; apart.
    + split; unfold h6, h5, h4, h3, h2, h1; links.
    + split; unfold h6, h5, h4, h3, h2, h1; links.
    + split; unfold h6, h5, h4, h3, h2, h1; links.
    + rewrite FP; [done|apart..].
    + rewrite FN; [done|apart..].
  - intros x Hx. rewrite nodes_blocks in Hx.
    apply not_elem_of_app in Hx as [? Hx]. apply not_elem_of_app in Hx as [? Hx].
    apply not_elem_of_app in Hx as [? ?].
    unfold h6, h5, h4, h3, h2, h1.
    by rewrite upd_prev_frame, upd_next_frame, upd_next_frame, upd_prev_frame, upd_prev_frame,
      upd_next_frame by apart.
Qed.

(** *** The front and the back *)

Lemma run_push_front h l e xs :
  dl h l xs -> e ∉ nodes l xs -> e <> NULL -> is_Some (h !! e) ->
  exists h', list_push_front l e h = Ret (tt, h') /\ dl h' l (e :: xs) /\
    (forall x, x ∉ nodes l (e :: xs) -> h' !! x = h !! x).
Proof.
  intros H He Hn Hc. unfold list_push_front. sstep (run_list_begin _ _ _ H).
  by apply (run_list_insert h l [] e xs).
Qed.

Lemma run_push_back h l e xs :
  dl h l xs -> e ∉ nodes l xs -> e <> NULL -> is_Some (h !! e) ->
  exists h', list_push_back l e h = Ret (tt, h') /\ dl h' l (xs ++ [e]) /\
    (forall x, x ∉ nodes l (xs ++ [e]) -> h' !! x = h !! x).
Proof.
  intros H He Hn Hc. unfold list_push_back. sstep (run_list_end _ _ _ H).
  apply (run_list_insert h l xs e []); by rewrite ?app_nil_r.
Qed.

Lemma run_list_empty h l xs :
  dl h l xs -> list_empty l h = Ret (match xs with [] => true | _ => false end, h).
Proof.
  intros H. unfold list_empty. sstep (run_list_begin _ _ _ H). sstep (run_list_end _ _ _ H).
  unfold sret. by rewrite (cur_end h l [] xs).
Qed.

Lemma run_pop_front h l x xs :
  dl h l (x :: xs) ->
  exists h', list_pop_front l h = Ret (x, h') /\ dl h' l xs /\
    (forall y, y ∉ nodes l xs -> h' !! y = h !! y).
Proof.
  intros H. destruct (run_list_remove h l [] x xs H) as (h' & Hr & Hd & Hf).
  exists h'. split; [|done]. unfold list_pop_front.
  assert (Hfr : list_front l h = Ret (x, h)).
  { unfold list_front. sstep (run_list_empty _ _ _ H). sassert by done.
    apply run_get_next. by destruct (dl_link h l [] (x :: xs) H). }
  sstep Hfr. by sstep Hr.
Qed.

Lemma run_pop_back h l x xs :
  dl h l (xs ++ [x]) ->
  exists h', list_pop_back l h = Ret (x, h') /\ dl h' l xs /\
    (forall y, y ∉ nodes l xs -> h' !! y = h !! y).
Proof.
  intros H. destruct (run_list_remove h l xs x [] H) as (h' & Hr & Hd & Hf).
  rewrite app_nil_r in Hd, Hf. exists h'. split; [|done]. unfold list_pop_back.
  assert (Hb : list_back l h = Ret (x, h)).
  { unfold list_back. sstep (run_list_empty _ _ _ H).
    sassert by (by destruct xs). apply run_get_prev.
    replace x with (rcur l (xs ++ [x])) by (unfold rcur; by rewrite last_snoc).
    destruct (dl_link h l (xs ++ [x]) []) as [_ Hp]; [by rewrite app_nil_r|]. done. }
  sstep Hb. by sstep Hr.
Qed.

Lemma run_pop_empty h l : dl h l [] ->
  list_pop_front l h = Err AssertFailed /\ list_pop_back l h = Err AssertFailed.
Proof.
  intros H. unfold list_pop_front, list_pop_back, list_front, list_back, sbind.
  rewrite (run_list_empty _ _ _ H). done.
Qed.

Lemma run_list_init h l :
  l <> NULL -> tail_of l <> NULL -> is_Some (h !! head_of l) -> is_Some (h !! tail_of l) ->
  exists h', list_init l h = Ret (tt, h') /\ dl h' l [] /\
    (forall x, x <> head_of l -> x <> tail_of l -> h' !! x = h !! x).
Proof.
  intros Hl Ht Ch Ct. assert (Hne : head_of l <> tail_of l) by (unfold head_of, tail_of; lia).
  unfold list_init. sassert by (by destruct (Z.eqb_spec l NULL)).
  sstep (run_set_prev h (head_of l) NULL Ch).
  erewrite sbind_run; [|apply run_set_next; by apply upd_prev_cell].
  erewrite sbind_run; [|apply run_set_prev; by apply upd_next_cell, upd_prev_cell].
  eexists. split; [apply run_set_next; by apply upd_prev_cell, upd_next_cell, upd_prev_cell|]. split.
  - split; simpl; unfold nodes.
    + repeat constructor; set_solver.
    + unfold head_of in *. set_solver.
    + split; [split; links|done].
    + links.
    + links.
  - intros x Hx1 Hx2. by rewrite upd_next_frame, upd_prev_frame, upd_next_frame, upd_prev_frame by done.
Qed.

(** *** Read-only traversals *)

Lemma size_loop_spec h l pre post fuel cnt :
  dl h l (pre ++ post) -> (length post < fuel)%nat -> 0 <= cnt ->
  cnt + Z.of_nat (length post) < two32 ->
  size_loop fuel l (cur l post) cnt h = Ret (cnt + Z.of_nat (length post), h).
Proof.
  revert pre post cnt. induction fuel as [|fuel IH]; intros pre post cnt H Hf Hc Hb; [lia|].
  cbn [size_loop]. sstep (run_list_end _ _ _ H). rewrite (cur_end _ _ _ _ H).
  destruct post as [|e post]; simpl length in *.
  - unfold sret. do 2 f_equal. lia.
  - assert (Hn : list_next (cur l (e :: post)) h = Ret (cur l post, h)) by (by eapply run_list_next).
    sstep Hn. rewrite u32_small by (unfold is_u32; lia).
    rewrite (IH (pre ++ [e])); [do 2 f_equal; lia|by rewrite <- app_assoc|lia..].
Qed.

Lemma run_list_size h l xs fuel :
  dl h l xs -> (length xs < fuel)%nat -> Z.of_nat (length xs) < two32 ->
  list_size fuel l h = Ret (Z.of_nat (length xs), h).
Proof.
  intros H Hf Hb. unfold list_size. sstep (run_list_begin _ _ _ H).
  rewrite (size_loop_spec h l [] xs) by (done || lia). done.
Qed.
