(* ===== verification/DlistSort.v ===== *)
(** * Ordered lists ([lib/kernel/list.c]: sorting, searching, reversal)

    Each loop of the ordered-list functions is shown to compute, on the
    sequence of elements, a structurally recursive function on Rocq lists;
    the sorting properties are then proved of these functions.  The
    comparison function is a strict weak order ([StrictWeak]). *)
From stdpp Require Import prelude list gmap sorting.
From Stdlib Require Import ZArith Lia.
From S2P Require Import Prelude Dlist.
#[local] Open Scope Z_scope.

(** What the callers of the ordered-list functions promise of [less]. *)
Class StrictWeak (less : Z -> Z -> bool) : Prop := {
  less_asym a b : less a b = true -> less b a = false;
  less_neg_trans a b c : less b a = false -> less c b = false -> less c a = false
}.

Section Pure.
Variable less : Z -> Z -> bool.

(** The elements are in nondecreasing order, comparing neighbours. *)
Fixpoint adj (x : Z) (xs : list Z) : bool :=
  match xs with
  | [] => true
  | y :: t => negb (less y x) && adj y t
  end.

Definition adjacent (xs : list Z) : bool :=
  match xs with [] => true | x :: t => adj x t end.

(** The run of nondecreasing elements that continues after [x], and the rest. *)
Fixpoint run_from (x : Z) (xs : list Z) : list Z * list Z :=
  match xs with
  | [] => ([], [])
  | y :: t =>
      if less y x then ([], xs)
      else let '(r, s) := run_from y t in (y :: r, s)
  end.

(** The merge of two runs, taking from the first on ties. *)
Fixpoint merge_runs (xs : list Z) : list Z -> list Z :=
  match xs with
  | [] => fun ys => ys
  | a :: xs' =>
      fix go ys :=
        match ys with
        | [] => xs
        | b :: ys' => if less b a then b :: go ys' else a :: merge_runs xs' ys
        end
  end.

(** One pass of [list_sort]: the new list and the number of output runs. *)
Fixpoint pass (n : nat) (xs : list Z) : list Z * nat :=
  match n, xs with
  | S n', x :: t =>
      let '(r, s) := run_from x t in
      match s with
      | [] => (x :: r, 1%nat)
      | y :: s' =>
          let '(r2, s2) := run_from y s' in
          let '(res, c) := pass n' s2 in
          (merge_runs (x :: r) (y :: r2) ++ res, S c)
      end
  | _, _ => ([], 0%nat)
  end.

Fixpoint sort_passes (n : nat) (xs : list Z) : list Z :=
  match n with
  | O => xs
  | S n' =>
      let '(ys, c) := pass (length xs) xs in
      if (1 <? c)%nat then sort_passes n' ys else ys
  end.

(** Insertion before the first greater element. *)
Fixpoint insert_before (e : Z) (xs : list Z) : list Z :=
  match xs with
  | [] => [e]
  | y :: t => if less e y then e :: xs else y :: insert_before e t
  end.

Definition max_of (m : Z) (xs : list Z) : Z :=
  fold_left (fun m e => if less m e then e else m) xs m.

Definition min_of (m : Z) (xs : list Z) : Z :=
  fold_left (fun m e => if less e m then e else m) xs m.

(** The number of maximal nondecreasing runs. *)
Fixpoint descents (x : Z) (xs : list Z) : nat :=
  match xs with
  | [] => 0
  | y :: t => (if less y x then 1 else 0) + descents y t
  end.

Definition runs (xs : list Z) : nat :=
  match xs with [] => 0 | x :: t => S (descents x t) end.

(** *** Runs *)

Lemma run_from_app x xs : let '(r, s) := run_from x xs in xs = r ++ s.
Proof.
  revert x. induction xs as [|y t IH]; intros x; simpl; [done|].
  destruct (less y x); [done|]. specialize (IH y). destruct (run_from y t). simpl. congruence.
Qed.

Lemma run_from_adj x xs : adj x (run_from x xs).1 = true.
Proof.
  revert x. induction xs as [|y t IH]; intros x; simpl; [done|].
  destruct (less y x) eqn:E; [done|]. specialize (IH y). destruct (run_from y t). simpl in *. by rewrite E.
Qed.

Lemma run_from_runs x xs : runs (x :: xs) = S (runs (run_from x xs).2).
Proof.
  revert x. induction xs as [|y t IH]; intros x; simpl; [done|].
  destruct (less y x) eqn:E; simpl; [done|]. specialize (IH y). destruct (run_from y t). simpl in *. congruence.
Qed.

Lemma run_from_length x xs : (length (run_from x xs).2 <= length xs)%nat.
Proof.
  pose proof (run_from_app x xs) as H. destruct (run_from x xs) as [r s]. simpl. subst xs.
  rewrite length_app. lia.
Qed.

Lemma runs_app u v : (runs (u ++ v) <= runs u + runs v)%nat.
Proof.
  destruct u as [|x u]; [done|]. simpl. apply le_n_S. revert x.
  induction u as [|y u IH]; intros x; simpl.
  - destruct v as [|y v]; simpl; [lia|]. destruct (less y x); lia.
  - specialize (IH y). destruct (less y x); lia.
Qed.

Lemma descents_adj x xs : descents x xs = 0%nat <-> adj x xs = true.
Proof.
  revert x. induction xs as [|y t IH]; intros x; simpl; [done|].
  destruct (less y x); simpl; [split; [lia|done]|]. apply IH.
Qed.

Lemma runs_adjacent xs : (runs xs <= 1)%nat <-> adjacent xs = true.
Proof. destruct xs as [|x xs]; simpl; [split; [done|lia]|]. rewrite <- descents_adj. lia. Qed.

Lemma runs_length xs : (runs xs <= length xs)%nat.
Proof.
  destruct xs as [|x xs]; simpl; [done|]. apply le_n_S. revert x.
  induction xs as [|y t IH]; intros x; simpl; [done|]. specialize (IH y). destruct (less y x); lia.
Qed.

(** *** Merging *)

Lemma merge_nil_r xs : merge_runs xs [] = xs.
Proof. by destruct xs. Qed.

Lemma merge_cons a xs b ys :
  merge_runs (a :: xs) (b :: ys) =
    if less b a then b :: merge_runs (a :: xs) ys else a :: merge_runs xs (b :: ys).
Proof. done. Qed.

Lemma merge_perm xs ys : merge_runs xs ys ≡ₚ xs ++ ys.
Proof.
  revert ys. induction xs as [|a xs IH]; intros ys; [done|].
  induction ys as [|b ys IHy]; [by rewrite merge_nil_r, app_nil_r|].
  rewrite merge_cons. destruct (less b a).
  - rewrite IHy. simpl. solve_Permutation.
  - rewrite IH. done.
Qed.

Lemma merge_adj `{!StrictWeak less} x xs ys :
  adj x xs = true -> adj x ys = true -> adj x (merge_runs xs ys) = true.
Proof.
  revert x ys. induction xs as [|a xs IH]; intros x ys Hx Hy; [done|].
  revert x Hx Hy. induction ys as [|b ys IHy]; intros x Hx Hy; [done|].
  simpl in Hx, Hy. apply andb_prop in Hx as [Ha Hxs]. apply andb_prop in Hy as [Hb Hys].
  rewrite merge_cons. destruct (less b a) eqn:E; cbn [adj].
  - rewrite Hb. simpl. apply IHy; [|done]. simpl. by rewrite (less_asym _ _ E).
  - rewrite Ha. simpl. apply IH; [done|]. simpl. by rewrite E.
Qed.

Lemma merge_adjacent `{!StrictWeak less} xs ys :
  adjacent xs = true -> adjacent ys = true -> adjacent (merge_runs xs ys) = true.
Proof.
  destruct xs as [|a xs]; [done|]. destruct ys as [|b ys]; [done|]. intros Hx Hy.
  rewrite merge_cons. destruct (less b a) eqn:E; simpl in *.
  - apply (merge_adj b (a :: xs) ys); [|done]. simpl. by rewrite (less_asym _ _ E).
  - apply merge_adj; [done|]. simpl. by rewrite E.
Qed.

(** *** Passes *)

Lemma pass_perm n xs : (length xs <= n)%nat -> (pass n xs).1 ≡ₚ xs.
Proof.
  revert xs. induction n as [|n IH]; intros [|x t] Hn; cbn [pass]; try done; try (simpl in Hn; lia).
  pose proof (run_from_app x t) as Ht. destruct (run_from x t) as [r s]. subst t.
  destruct s as [|y s']; cbn [fst]; [by rewrite app_nil_r|].
  pose proof (run_from_app y s') as Hs. destruct (run_from y s') as [r2 s2]. subst s'.
  specialize (IH s2). simpl in Hn. rewrite !length_app in Hn. simpl in Hn. rewrite length_app in Hn.
  destruct (pass n s2) as [res c]. cbn [fst] in *. rewrite IH, merge_perm by lia.
  by rewrite <- app_assoc.
Qed.

Lemma pass_count n xs :
  (length xs <= n)%nat -> ((pass n xs).2 = (runs xs + 1) / 2)%nat.
Proof.
  revert xs. induction n as [|n IH]; intros [|x t] Hn; cbn [pass]; try done; try (simpl in Hn; lia).
  pose proof (run_from_runs x t) as Hr. pose proof (run_from_length x t) as Hl.
  destruct (run_from x t) as [r s]. cbn [snd] in *. rewrite Hr. destruct s as [|y s']; [done|].
  pose proof (run_from_runs y s') as Hr2. pose proof (run_from_length y s') as Hl2.
  destruct (run_from y s') as [r2 s2]. cbn [snd] in *. rewrite Hr2. specialize (IH s2).
  destruct (pass n s2) as [res c]. cbn [snd] in *. simpl in Hn, Hl. rewrite IH by lia.
  replace (S (S (runs s2)) + 1)%nat with (1 * 2 + (runs s2 + 1))%nat by lia.
  by rewrite Nat.div_add_l.
Qed.

Lemma pass_runs `{!StrictWeak less} n xs :
  (length xs <= n)%nat -> (runs (pass n xs).1 <= (pass n xs).2)%nat.
Proof.
  revert xs. induction n as [|n IH]; intros [|x t] Hn; cbn [pass]; try done; try (simpl in Hn; lia).
  pose proof (run_from_adj x t) as Ha. pose proof (run_from_length x t) as Hl.
  destruct (run_from x t) as [r s]. cbn [fst snd] in *. destruct s as [|y s'].
  { cbn [fst snd]. by apply runs_adjacent. }
  pose proof (run_from_adj y s') as Ha2. pose proof (run_from_length y s') as Hl2.
  destruct (run_from y s') as [r2 s2]. cbn [fst snd] in *. specialize (IH s2).
  destruct (pass n s2) as [res c]. cbn [fst snd] in *. simpl in Hn, Hl.
  etransitivity; [apply runs_app|]. specialize (IH ltac:(lia)).
  assert (runs (merge_runs (x :: r) (y :: r2)) <= 1)%nat; [|lia].
  by apply runs_adjacent, merge_adjacent.
Qed.

(** *** Sorting *)

Lemma sort_passes_perm n xs : sort_passes n xs ≡ₚ xs.
Proof.
  revert xs. induction n as [|n IH]; intros xs; simpl; [done|].
  pose proof (pass_perm (length xs) xs) as H. destruct (pass (length xs) xs) as [ys c].
  simpl in H. destruct (1 <? c)%nat; [rewrite IH|]; by apply H.
Qed.

Lemma sort_passes_adjacent `{!StrictWeak less} n xs :
  (runs xs < n)%nat -> adjacent (sort_passes n xs) = true.
Proof.
  revert xs. induction n as [|n IH]; intros xs Hn; [lia|]. cbn [sort_passes].
  pose proof (pass_runs (length xs) xs) as Hr. pose proof (pass_count (length xs) xs) as Hc.
  destruct (pass (length xs) xs) as [ys c]. cbn [fst snd] in *.
  specialize (Hr ltac:(done)). specialize (Hc ltac:(done)).
  destruct (Nat.ltb_spec 1 c).
  - apply IH. pose proof (Nat.div_mod (runs xs + 1) 2). pose proof (Nat.mod_upper_bound (runs xs + 1) 2). lia.
  - apply runs_adjacent. lia.
Qed.

(** Under a strict weak order neighbours in order means all pairs in order. *)
Definition le_of (a b : Z) : Prop := less b a = false.

Lemma adj_strong `{!StrictWeak less} x xs :
  adj x xs = true -> StronglySorted le_of (x :: xs).
Proof.
  revert x. induction xs as [|y t IH]; intros x; simpl; [repeat constructor|].
  intros [Hy Ht]%andb_prop. apply negb_true_iff in Hy. specialize (IH y Ht). constructor; [done|].
  apply StronglySorted_inv in IH as [_ IH]. constructor; [done|].
  eapply Forall_impl; [exact IH|]. intros z Hz. by apply (less_neg_trans x y z).
Qed.

Lemma adjacent_strong `{!StrictWeak less} xs :
  adjacent xs = true -> StronglySorted le_of xs.
Proof. destruct xs; [constructor|apply adj_strong]. Qed.

(** *** Stability *)

(** The elements of [xs] that are equivalent to [k], in order. *)
Definition same (k : Z) (xs : list Z) : list Z :=
  List.filter (fun y => negb (less k y) && negb (less y k)) xs.

Lemma same_app k u v : same k (u ++ v) = same k u ++ same k v.
Proof. apply List.filter_app. Qed.

Lemma same_none k xs : Forall (fun y => less k y = true) xs -> same k xs = [].
Proof. induction 1 as [|y xs H _ IH]; simpl; [done|]. by rewrite H. Qed.

Lemma same_above `{!StrictWeak less} k b a xs :
  negb (less k b) && negb (less b k) = true -> less b a = true ->
  StronglySorted le_of (a :: xs) -> same k (a :: xs) = [].
Proof.
  intros Hk Hba Hs. apply same_none. apply andb_prop in Hk as [H1 H2].
  apply negb_true_iff in H1, H2. apply StronglySorted_inv in Hs as [_ Hs].
  constructor.
  - destruct (less k a) eqn:E; [done|]. rewrite <- Hba. symmetry. by apply (less_neg_trans a k b).
  - eapply Forall_impl; [exact Hs|]. intros z Hz. unfold le_of in Hz.
    destruct (less k z) eqn:E; [done|]. rewrite <- Hba. symmetry.
    apply (less_neg_trans a z b Hz). by apply (less_neg_trans z k b).
Qed.

Lemma merge_stable `{!StrictWeak less} k xs ys :
  StronglySorted le_of xs -> same k (merge_runs xs ys) = same k xs ++ same k ys.
Proof.
  revert ys. induction xs as [|a xs IH]; intros ys Hs; [done|].
  induction ys as [|b ys IHy]; [by rewrite merge_nil_r, app_nil_r|].
  rewrite merge_cons. destruct (less b a) eqn:E.
  - unfold same at 1. cbn [List.filter]. fold (same k (merge_runs (a :: xs) ys)). rewrite IHy.
    destruct (negb (less k b) && negb (less b k)) eqn:Ek.
    + rewrite (same_above k b a xs) by done. simpl. by rewrite Ek.
    + change (same k (b :: ys)) with
        (if negb (less k b) && negb (less b k) then b :: same k ys else same k ys). by rewrite Ek.
  - apply StronglySorted_inv in Hs as [Hs _]. specialize (IH (b :: ys) Hs).
    change (a :: merge_runs xs (b :: ys)) with ([a] ++ merge_runs xs (b :: ys)). rewrite same_app.
    rewrite IH. change (a :: xs) with ([a] ++ xs). by rewrite same_app, <- app_assoc.
Qed.

Lemma pass_stable `{!StrictWeak less} k n xs :
  (length xs <= n)%nat -> same k (pass n xs).1 = same k xs.
Proof.
  revert xs. induction n as [|n IH]; intros [|x t] Hn; cbn [pass]; try done; try (simpl in Hn; lia).
  pose proof (run_from_app x t) as Ht. pose proof (run_from_adj x t) as Ha.
  destruct (run_from x t) as [r s]. subst t. cbn [fst] in *.
  destruct s as [|y s']; cbn [fst]; [by rewrite app_nil_r|].
  pose proof (run_from_app y s') as Hs. destruct (run_from y s') as [r2 s2]. subst s'.
  specialize (IH s2). simpl in Hn. rewrite !length_app in Hn. simpl in Hn. rewrite length_app in Hn.
  destruct (pass n s2) as [res c]. cbn [fst] in *.
  rewrite same_app, IH, merge_stable by (lia || by apply adj_strong).
  by rewrite app_comm_cons, same_app, (app_comm_cons r2 s2 y), same_app, app_assoc.
Qed.

Lemma sort_passes_stable `{!StrictWeak less} k n xs : same k (sort_passes n xs) = same k xs.
Proof.
  revert xs. induction n as [|n IH]; intros xs; simpl; [done|].
  pose proof (pass_stable k (length xs) xs) as H. destruct (pass (length xs) xs) as [ys c].
  simpl in H. destruct (1 <? c)%nat; [rewrite IH|]; by apply H.
Qed.
End Pure.

(** ** The pointer code computes these functions *)

Section Simulation.
Variable less : Z -> Z -> bool.

Lemma rcur_snoc l pre x : rcur l (pre ++ [x]) = x.
Proof. unfold rcur. by rewrite last_snoc. Qed.

Lemma cur_cons l x post : cur l (x :: post) = x.
Proof. done. Qed.

(** Two positions are equal exactly when nothing is between them. *)
Lemma cur_between h l pre A post :
  dl h l (pre ++ A ++ post) ->
  (cur l (A ++ post) =? cur l post) = match A with [] => true | _ => false end.
Proof.
  intros H. destruct A as [|a A]; [apply Z.eqb_refl|]. rewrite <- app_comm_cons, cur_cons.
  destruct (Z.eqb_spec a (cur l post)) as [E|]; [|done]. exfalso.
  pose proof (dl_nodup _ _ _ H) as Hd. rewrite app_assoc, nodes_app in Hd.
  apply (NoDup_app_inv _ _ a Hd); [set_solver|]. rewrite E. apply head_in, head_post.
Qed.

Lemma prev_of_cur h l pre x post :
  dl h l (pre ++ x :: post) -> list_prev (cur l post) h = Ret (x, h).
Proof.
  intros H. replace x with (rcur l (pre ++ [x])) by apply rcur_snoc. apply run_list_prev. by rewrite <- app_assoc.
Qed.

Lemma sorted_loop_spec h l pre x A post fuel :
  dl h l (pre ++ x :: A ++ post) -> (length A < fuel)%nat ->
  sorted_loop less fuel x (cur l post) h = Ret (adj less x A, h).
Proof.
  revert pre x A. induction fuel as [|fuel IH]; intros pre x A H Hf; [lia|]. cbn [sorted_loop].
  sstep (run_list_next _ _ _ _ _ H). pose proof H as H'. rewrite cons_middle, app_assoc in H'.
  rewrite (cur_between _ _ _ _ _ H'). destruct A as [|y A]; [done|].
  sstep (prev_of_cur _ _ _ _ _ H). rewrite <- app_comm_cons, cur_cons. cbn [adj].
  destruct (less y x); [done|]. simpl. apply (IH (pre ++ [x])); [done|simpl in Hf; lia].
Qed.

Lemma run_is_sorted h l pre A post fuel :
  dl h l (pre ++ A ++ post) -> (length A <= fuel)%nat -> (0 < fuel)%nat ->
  is_sorted less fuel (cur l (A ++ post)) (cur l post) h = Ret (adjacent less A, h).
Proof.
  intros H Hf H0. unfold is_sorted. rewrite (cur_between _ _ _ _ _ H).
  destruct A as [|x A]; [done|]. rewrite <- app_comm_cons, cur_cons.
  apply (sorted_loop_spec h l pre); [done|simpl in Hf; lia].
Qed.

Lemma run_loop_spec h l pre x post fuel :
  dl h l (pre ++ x :: post) -> (length post < fuel)%nat ->
  run_loop less fuel x (tail_of l) h = Ret (cur l (run_from less x post).2, h).
Proof.
  revert pre x post. induction fuel as [|fuel IH]; intros pre x post H Hf; [lia|]. cbn [run_loop].
  sstep (run_list_next _ _ _ _ _ H). pose proof H as H'. rewrite cons_middle, app_assoc in H'.
  rewrite (cur_end _ _ _ _ H'). destruct post as [|y post]; [done|].
  sstep (prev_of_cur _ _ _ _ _ H). rewrite cur_cons. cbn [run_from].
  destruct (less y x); simpl; [done|]. rewrite (IH (pre ++ [x]) y post H') by (simpl in Hf; lia).
  by destruct (run_from less y post).
Qed.

Lemma run_find_end h l pre x post fuel :
  dl h l (pre ++ x :: post) -> (length post < fuel)%nat ->
  find_end_of_run less fuel x (tail_of l) h = Ret (cur l (run_from less x post).2, h).
Proof.
  intros H Hf. pose proof (cur_end _ _ _ _ H) as He. rewrite cur_cons in He.
  assert (x <> NULL) by (eapply dl_nodes_nonnull; [exact H|]; unfold nodes; set_solver).
  assert (tail_of l <> NULL) by (eapply dl_nodes_nonnull; [exact H|]; unfold nodes; set_solver).
  unfold find_end_of_run. sassert by (by destruct (Z.eqb_spec x NULL)).
  sassert by (by destruct (Z.eqb_spec (tail_of l) NULL)). sassert by (by rewrite He).
  by eapply run_loop_spec.
Qed.

(** [h'] differs from [h] only on the nodes of the list [l] of elements [xs]. *)
Definition only (h h' : heap) (l : Z) (xs : list Z) : Prop :=
  forall x, x ∉ nodes l xs -> h' !! x = h !! x.

Lemma nodes_perm l xs ys : xs ≡ₚ ys -> nodes l xs ≡ₚ nodes l ys.
Proof. intros H. unfold nodes. by rewrite H. Qed.

Lemma only_trans h1 h2 h3 l xs ys :
  xs ≡ₚ ys -> only h1 h2 l xs -> only h2 h3 l ys -> only h1 h3 l xs.
Proof.
  intros Hp H1 H2 x Hx. rewrite H2, H1; [done..|]. by rewrite <- (nodes_perm l xs ys Hp).
Qed.

Lemma merge_loop_spec h l pre A B post fuel :
  dl h l (pre ++ A ++ B ++ post) -> (length A + length B < fuel)%nat ->
  exists h', merge_loop less fuel (cur l (A ++ B ++ post)) (cur l (B ++ post)) (cur l post) h
      = Ret (tt, h') /\
    dl h' l (pre ++ merge_runs less A B ++ post) /\ only h h' l (pre ++ A ++ B ++ post).
Proof.
  revert h pre A B. induction fuel as [|fuel IH]; intros h pre A B H Hf; [lia|]. cbn [merge_loop].
  rewrite (cur_between _ _ _ _ _ H). pose proof H as H'. rewrite app_assoc in H'.
  rewrite (cur_between _ _ _ _ _ H').
  destruct A as [|a A]; [exists h; done|].
  destruct B as [|b B]; [exists h; rewrite merge_nil_r; done|]. cbn [negb andb].
  rewrite <- !app_comm_cons, !cur_cons, merge_cons. simpl in Hf.
  destruct (less b a) eqn:E; cbn [negb].
  - pose proof (H' : dl h l ((pre ++ a :: A) ++ b :: B ++ post)) as Hb.
    sstep (run_list_next _ _ _ _ _ Hb). sstep (prev_of_cur _ _ _ _ _ Hb).
    destruct (run_list_splice h l pre (a :: A) [b] (B ++ post) a b) as (h1 & Hs & Hd & Ho);
      [done..|]. sstep Hs.
    destruct (IH h1 (pre ++ [b]) (a :: A) B) as (h2 & Hm & Hd2 & Ho2);
      [by rewrite <- app_assoc|simpl; lia|].
    exists h2. split; [done|]. rewrite <- app_assoc in Hd2, Ho2. split; [done|].
    eapply (only_trans _ h1); [|exact Ho|exact Ho2]. solve_Permutation.
  - sstep (run_list_next h l pre a (A ++ b :: B ++ post) H).
    destruct (IH h (pre ++ [a]) A (b :: B)) as (h2 & Hm & Hd2 & Ho2);
      [by rewrite <- app_assoc|simpl; lia|].
    exists h2. rewrite <- app_assoc in Hd2, Ho2. done.
Qed.

Lemma run_inplace_merge h l pre A B post fuel :
  dl h l (pre ++ A ++ B ++ post) -> (length A + length B < fuel)%nat ->
  adjacent less A = true -> adjacent less B = true ->
  exists h', inplace_merge less fuel (cur l (A ++ B ++ post)) (cur l (B ++ post)) (cur l post) h
      = Ret (tt, h') /\
    dl h' l (pre ++ merge_runs less A B ++ post) /\ only h h' l (pre ++ A ++ B ++ post).
Proof.
  intros H Hf HA HB. pose proof H as H'. rewrite app_assoc in H'.
  pose proof H' as H''. rewrite app_assoc in H''.
  assert (Hnn : forall pre post, dl h l (pre ++ post) -> negb (cur l post =? NULL) = true).
  { intros p q Hq. destruct (Z.eqb_spec (cur l q) NULL); [|done].
    exfalso. eapply (dl_nodes_nonnull h l (p ++ q)); [done|apply (cur_in l p q)|done]. }
  unfold inplace_merge. sassert by eauto. sassert by eauto. sassert by eauto.
  sstep (run_is_sorted h l pre A (B ++ post) fuel H ltac:(lia) ltac:(lia)). sassert by done.
  sstep (run_is_sorted h l (pre ++ A) B post fuel H' ltac:(lia) ltac:(lia)). sassert by done.
  by apply merge_loop_spec.
Qed.

Lemma only_refl h l xs : only h h l xs.
Proof. done. Qed.

Lemma pass_loop_spec h l pre xs fuel0 fuel n cnt :
  dl h l (pre ++ xs) -> (length xs < fuel0)%nat -> (length xs < fuel)%nat -> (length xs <= n)%nat ->
  0 <= cnt -> cnt + Z.of_nat (length xs) < two32 ->
  exists h', pass_loop less fuel0 fuel l (cur l xs) cnt h
      = Ret (cnt + Z.of_nat (pass less n xs).2, h') /\
    dl h' l (pre ++ (pass less n xs).1) /\ only h h' l (pre ++ xs).
Proof.
  revert h pre xs n cnt. induction fuel as [|fuel IH]; intros h pre xs n cnt H Hf0 Hf Hn Hc Hb; [lia|].
  cbn [pass_loop]. sstep (run_list_end _ _ _ H). rewrite (cur_end _ _ _ _ H).
  destruct xs as [|x t].
  { exists h. destruct n; simpl; rewrite Z.add_0_r; done. }
  destruct n as [|n]; [simpl in Hn; lia|]. cbn [pass]. simpl length in *.
  rewrite u32_small by (unfold is_u32; lia). rewrite cur_cons.
  sstep (run_list_end _ _ _ H). sstep (run_find_end h l pre x t fuel0 H ltac:(lia)).
  sstep (run_list_end _ _ _ H). pose proof (run_from_app less x t) as Ht.
  pose proof (run_from_adj less x t) as Ha.
  destruct (run_from less x t) as [r s]. cbn [fst snd] in *. subst t.
  assert (H2 : dl h l ((pre ++ x :: r) ++ s)) by (by rewrite <- app_assoc).
  rewrite (cur_end _ _ _ _ H2). destruct s as [|y s].
  { exists h. cbn [fst snd]. rewrite !app_nil_r in *. done. }
  sstep (run_list_end _ _ _ H). rewrite cur_cons. rewrite length_app in *. simpl length in *.
  sstep (run_find_end h l (pre ++ x :: r) y s fuel0 H2 ltac:(lia)).
  pose proof (run_from_app less y s) as Hs. pose proof (run_from_adj less y s) as Ha2.
  destruct (run_from less y s) as [r2 s2]. cbn [fst snd] in *. subst s. rewrite length_app in *.
  assert (H3 : dl h l (pre ++ (x :: r) ++ (y :: r2) ++ s2)) by done.
  destruct (run_inplace_merge h l pre (x :: r) (y :: r2) s2 fuel0) as (h1 & Hm & Hd & Ho);
    [done|simpl; lia|done|done|].
  change (cur l ((x :: r) ++ (y :: r2) ++ s2)) with x in Hm.
  change (cur l ((y :: r2) ++ s2)) with y in Hm. sstep Hm.
  destruct (IH h1 (pre ++ merge_runs less (x :: r) (y :: r2)) s2 n (cnt + 1))
    as (h2 & Hp & Hd2 & Ho2); [by rewrite <- app_assoc|lia..|].
  exists h2. rewrite Hp. destruct (pass less n s2) as [res c]. cbn [fst snd] in *.
  rewrite <- app_assoc in Hd2, Ho2. split_and!; [do 2 f_equal; lia|done|].
  eapply (only_trans _ h1); [|exact Ho|exact Ho2]. by rewrite merge_perm, <- !app_assoc.
Qed.

Lemma pass_length n xs : (length xs <= n)%nat -> length (pass less n xs).1 = length xs.
Proof. intros H. by rewrite (pass_perm less n xs H). Qed.

Lemma sort_loop_spec `{!StrictWeak less} h l xs fuel0 fuel :
  dl h l xs -> (length xs < fuel0)%nat -> (runs less xs < fuel)%nat ->
  Z.of_nat (length xs) < two32 ->
  exists h', sort_loop less fuel0 fuel l h = Ret (tt, h') /\
    dl h' l (sort_passes less fuel xs) /\ only h h' l xs.
Proof.
  revert h xs. induction fuel as [|fuel IH]; intros h xs H Hf0 Hf Hb; [lia|].
  cbn [sort_loop sort_passes]. sstep (run_list_begin _ _ _ H).
  destruct (pass_loop_spec h l [] xs fuel0 fuel0 (length xs) 0) as (h1 & Hp & Hd & Ho); [done|lia..|].
  sstep Hp. pose proof (pass_runs less (length xs) xs ltac:(done)) as Hr.
  pose proof (pass_count less (length xs) xs ltac:(done)) as Hc.
  pose proof (pass_perm less (length xs) xs ltac:(done)) as Hpm.
  destruct (pass less (length xs) xs) as [ys c]. cbn [fst snd] in *. simpl in Hd, Ho.
  destruct (Z.ltb_spec 1 (0 + Z.of_nat c)), (Nat.ltb_spec 1 c); try lia.
  - destruct (IH h1 ys) as (h2 & Hs & Hd2 & Ho2); [done|by rewrite Hpm| |by rewrite Hpm|].
    { pose proof (Nat.div_mod (runs less xs + 1) 2). pose proof (Nat.mod_upper_bound (runs less xs + 1) 2).
      lia. }
    exists h2. split_and!; [done..|]. eapply (only_trans _ h1); [|exact Ho|exact Ho2]. done.
  - exists h1. done.
Qed.

Lemma run_list_sort `{!StrictWeak less} h l xs fuel :
  dl h l xs -> (S (length xs) < fuel)%nat -> Z.of_nat (length xs) < two32 ->
  exists h', list_sort less fuel l h = Ret (tt, h') /\
    dl h' l (sort_passes less fuel xs) /\ only h h' l xs.
Proof.
  intros H Hf Hb. pose proof (runs_length less xs).
  destruct (sort_loop_spec h l xs fuel fuel) as (h' & Hs & Hd & Ho); [done|lia|lia|done|].
  exists h'. split; [|done]. unfold list_sort. pose proof (dl_l_nonnull _ _ _ H).
  sassert by (by destruct (Z.eqb_spec l NULL)). sstep Hs.
  sstep (run_list_begin _ _ _ Hd). sstep (run_list_end _ _ _ Hd).
  pose proof (run_is_sorted h' l [] (sort_passes less fuel xs) [] fuel) as Hi.
  rewrite app_nil_r in Hi. cbn [app] in Hi.
  sstep (Hi Hd ltac:(rewrite sort_passes_perm; lia) ltac:(lia)).
  rewrite (sort_passes_adjacent less fuel xs) by lia. done.
Qed.

(** *** Ordered insertion *)

Lemma ordered_loop_spec h l pre post e fuel :
  dl h l (pre ++ post) -> (length post < fuel)%nat ->
  exists u v, post = u ++ v /\ insert_before less e post = u ++ e :: v /\
    ordered_loop less fuel l e (cur l post) h = Ret (cur l v, h).
Proof.
  revert pre post. induction fuel as [|fuel IH]; intros pre post H Hf; [lia|]. cbn [ordered_loop].
  sstep (run_list_end _ _ _ H). rewrite (cur_end _ _ _ _ H).
  destruct post as [|y post]; [by exists [], []|]. rewrite cur_cons. simpl.
  destruct (less e y) eqn:E; [by exists [], (y :: post)|].
  sstep (run_list_next _ _ _ _ _ H). simpl in Hf.
  destruct (IH (pre ++ [y]) post) as (u & v & -> & Hi & Hr); [by rewrite <- app_assoc|lia|].
  exists (y :: u), v. rewrite Hi. done.
Qed.

Lemma run_insert_ordered h l xs e fuel :
  dl h l xs -> e ∉ nodes l xs -> e <> NULL -> is_Some (h !! e) -> (length xs < fuel)%nat ->
  exists h', list_insert_ordered less fuel l e h = Ret (tt, h') /\
    dl h' l (insert_before less e xs) /\ only h h' l (insert_before less e xs).
Proof.
  intros H He Hn Hc Hf. unfold list_insert_ordered. pose proof (dl_l_nonnull _ _ _ H).
  sassert by (by destruct (Z.eqb_spec l NULL)). sassert by (by destruct (Z.eqb_spec e NULL)).
  sstep (run_list_begin _ _ _ H).
  destruct (ordered_loop_spec h l [] xs e fuel H Hf) as (u & v & -> & -> & Hr). sstep Hr.
  by apply run_list_insert.
Qed.

Lemma insert_before_perm e xs : insert_before less e xs ≡ₚ e :: xs.
Proof.
  induction xs as [|y t IH]; simpl; [done|]. destruct (less e y); [done|]. rewrite IH. solve_Permutation.
Qed.

Lemma insert_before_sorted `{!StrictWeak less} e xs :
  StronglySorted (le_of less) xs -> StronglySorted (le_of less) (insert_before less e xs).
Proof.
  induction 1 as [|y t Ht IH Hy]; simpl; [repeat constructor|].
  destruct (less e y) eqn:E.
  - constructor; [by constructor|]. pose proof (less_asym _ _ E) as Hye. constructor; [done|].
    eapply Forall_impl; [exact Hy|]. intros z Hz. by apply (less_neg_trans e y z).
  - constructor; [done|]. rewrite insert_before_perm. by constructor.
Qed.

(** *** Extrema *)

Lemma max_loop_spec h l pre post m fuel :
  dl h l (pre ++ post) -> (length post < fuel)%nat ->
  max_loop less fuel l (cur l post) m h = Ret (max_of less m post, h).
Proof.
  revert pre post m. induction fuel as [|fuel IH]; intros pre post m H Hf; [lia|]. cbn [max_loop].
  sstep (run_list_end _ _ _ H). rewrite (cur_end _ _ _ _ H). destruct post as [|y post]; [done|].
  rewrite cur_cons. sstep (run_list_next _ _ _ _ _ H).
  rewrite (IH (pre ++ [y]) post); [done|by rewrite <- app_assoc|simpl in Hf; lia].
Qed.

Lemma min_loop_spec h l pre post m fuel :
  dl h l (pre ++ post) -> (length post < fuel)%nat ->
  min_loop less fuel l (cur l post) m h = Ret (min_of less m post, h).
Proof.
  revert pre post m. induction fuel as [|fuel IH]; intros pre post m H Hf; [lia|]. cbn [min_loop].
  sstep (run_list_end _ _ _ H). rewrite (cur_end _ _ _ _ H). destruct post as [|y post]; [done|].
  rewrite cur_cons. sstep (run_list_next _ _ _ _ _ H).
  rewrite (IH (pre ++ [y]) post); [done|by rewrite <- app_assoc|simpl in Hf; lia].
Qed.

Lemma run_list_max h l xs fuel :
  dl h l xs -> (length xs < fuel)%nat ->
  list_max less fuel l h =
    Ret (match xs with [] => tail_of l | x :: t => max_of less x t end, h).
Proof.
  intros H Hf. unfold list_max. sstep (run_list_begin _ _ _ H). sstep (run_list_end _ _ _ H).
  rewrite (cur_end h l [] xs) by done. destruct xs as [|x xs]; [done|]. rewrite cur_cons.
  cbn [negb]. sstep (run_list_next h l [] x xs H). apply (max_loop_spec h l [x]); [done|simpl in Hf; lia].
Qed.

Lemma run_list_min h l xs fuel :
  dl h l xs -> (length xs < fuel)%nat ->
  list_min less fuel l h =
    Ret (match xs with [] => tail_of l | x :: t => min_of less x t end, h).
Proof.
  intros H Hf. unfold list_min. sstep (run_list_begin _ _ _ H). sstep (run_list_end _ _ _ H).
  rewrite (cur_end h l [] xs) by done. destruct xs as [|x xs]; [done|]. rewrite cur_cons.
  cbn [negb]. sstep (run_list_next h l [] x xs H). apply (min_loop_spec h l [x]); [done|simpl in Hf; lia].
Qed.

(** [max_of] is the first maximum: nothing is greater, and everything before
    it is strictly smaller. *)
Lemma max_of_spec `{!StrictWeak less} m xs :
  exists u v, m :: xs = u ++ max_of less m xs :: v /\
    Forall (fun y => less y (max_of less m xs) = true) u /\
    Forall (fun y => less (max_of less m xs) y = false) (m :: xs).
Proof.
  assert (Hirr : forall a, less a a = false).
  { intros a. destruct (less a a) eqn:E; [|done]. by rewrite (less_asym _ _ E) in E. }
  assert (Htr : forall a b c, less a b = true -> less b c = true -> less a c = true).
  { intros a b c Hab Hbc. destruct (less a c) eqn:E; [done|]. rewrite <- Hab. symmetry.
    apply (less_neg_trans b c a); [|done]. by apply less_asym. }
  revert m. induction xs as [|y xs IH]; intros m; simpl.
  - exists [], []. split_and!; [done|done|]. by constructor.
  - destruct (less m y) eqn:E.
    + destruct (IH y) as (u & v & Heq & Hu & Hall). set (M := max_of less y xs) in *.
      assert (HmM : less m M = true).
      { destruct u as [|y' u]; simpl in Heq; injection Heq as Hy Hx; [congruence|].
        apply Forall_cons in Hu as [Hu _]. rewrite <- Hy in Hu. by eapply Htr. }
      exists (m :: u), v. rewrite Heq. split_and!; [done|by constructor|].
      rewrite <- Heq. constructor; [by apply less_asym|done].
    + destruct (IH m) as (u & v & Heq & Hu & Hall). set (M := max_of less m xs) in *.
      apply Forall_cons in Hall as [HMm Hxs].
      assert (HMy : less M y = false) by (by apply (less_neg_trans y m M)).
      destruct u as [|m' u]; simpl in Heq; injection Heq as Hm Hx.
      * exists [], (y :: v). split_and!; [simpl; congruence|done|]. by repeat constructor.
      * rewrite <- Hm in Hu. apply Forall_cons in Hu as [HmM Hu].
        exists (m :: y :: u), v. split_and!; [simpl; congruence| |by repeat constructor].
        constructor; [done|]. constructor; [|done].
        destruct (less y M) eqn:E2; [done|]. by rewrite (less_neg_trans M y m E2 E) in HmM.
Qed.
End Simulation.

(** The reverse of a strict weak order is one; [list_min] is [list_max] for
    the reverse order. *)
#[export] Instance flip_strict_weak less `{!StrictWeak less} : StrictWeak (fun a b => less b a).
Proof.
  split.
  - intros a b H. by apply less_asym.
  - intros a b c H1 H2. by apply (less_neg_trans c b a).
Qed.

Lemma min_of_spec less `{!StrictWeak less} m xs :
  exists u v, m :: xs = u ++ min_of less m xs :: v /\
    Forall (fun y => less (min_of less m xs) y = true) u /\
    Forall (fun y => less y (min_of less m xs) = false) (m :: xs).
Proof. exact (max_of_spec (fun a b => less b a) m xs). Qed.

(** ** Reversal *)

Definition swapped (c : list_elem) : list_elem := mkElem (next c) (prev c).

Fixpoint swap_all (xs : list Z) (h : heap) : heap :=
  match xs with
  | [] => h
  | x :: t => swap_all t (alter swapped x h)
  end.

Lemma swap_all_lookup xs h x :
  NoDup xs -> swap_all xs h !! x = if decide (x ∈ xs) then swapped <$> h !! x else h !! x.
Proof.
  revert h. induction xs as [|y t IH]; intros h Hd; [done|].
  apply NoDup_cons in Hd as [Hy Ht]. simpl. rewrite IH by done. rewrite lookup_alter.
  repeat case_decide; set_solver.
Qed.

Lemma reverse_loop_spec h0 h l pre post fuel :
  dl h0 l (pre ++ post) -> (forall x, x ∈ post -> h !! x = h0 !! x) -> (length post < fuel)%nat ->
  reverse_loop fuel l (cur l post) h = Ret (tt, swap_all post h).
Proof.
  revert h pre post. induction fuel as [|fuel IH]; intros h pre post H Hh Hf; [lia|].
  cbn [reverse_loop]. assert (He : list_end l h = Ret (tail_of l, h)).
  { unfold list_end. pose proof (dl_l_nonnull _ _ _ H).
    sassert by (by destruct (Z.eqb_spec l NULL)). done. }
  sstep He. rewrite (cur_end _ _ _ _ H). destruct post as [|e post]; [done|]. rewrite cur_cons.
  destruct (dl_interior _ _ _ _ _ H) as (Hp & Hn & _). unfold next_of in Hn. rewrite <- Hh in Hn by set_solver.
  destruct (h !! e) as [c|] eqn:Ec; [|done]. simpl in Hn. injection Hn as Hn.
  assert (Hs : swap_links e h = Ret (tt, alter swapped e h)).
  { unfold swap_links, sbind, load, store. rewrite Ec, Ec. do 2 f_equal. apply map_eq. intros i.
    rewrite lookup_insert, lookup_alter. case_decide; [|done]. subst. by rewrite Ec. }
  sstep Hs. assert (Hg : get_prev e (alter swapped e h) = Ret (cur l post, alter swapped e h)).
  { apply run_get_prev. unfold prev_of. rewrite lookup_alter, decide_True, Ec by done. simpl. by rewrite Hn. }
  sstep Hg. cbn [swap_all]. pose proof H as H'. rewrite cons_middle, app_assoc in H'.
  apply (IH _ (pre ++ [e])); [done| |simpl in Hf; lia].
  pose proof (dl_nodup _ _ _ H) as Hd. rewrite nodes_perm_insert in Hd. apply NoDup_cons in Hd as [Hd _].
  intros x Hx. rewrite lookup_alter_ne; [apply Hh; set_solver|].
  intros <-. apply Hd. unfold nodes. set_solver.
Qed.

(** Swapping the two links of every node of a segment links it backwards. *)
Lemma linked_rev h h' xs a z :
  head xs = Some a -> last xs = Some z -> NoDup xs ->
  (forall x, x ∈ xs -> x <> z -> prev_of h' x = next_of h x) ->
  (forall x, x ∈ xs -> x <> a -> next_of h' x = prev_of h x) ->
  linked h xs -> linked h' (rev xs).
Proof.
  revert a. induction xs as [|x [|y t] IH]; intros a Ha Hz Hd Hn Hp Hl; [done..|].
  destruct Hl as [[L1 L2] Hl]. apply NoDup_cons in Hd as [Hxd Hd]. simpl in Ha. injection Ha as <-.
  change (rev (x :: y :: t)) with (rev (y :: t) ++ [x]).
  apply (linked_concat _ _ _ y x); [simpl; apply last_snoc|done|].
  split_and!; [|split|done].
  - apply (IH y); try done; [intros w Hw Hwz; apply Hn; set_solver|].
    intros w Hw Hwy. apply Hp; [set_solver|]. intros ->. set_solver.
  - rewrite Hp; [done|set_solver|set_solver].
  - rewrite Hn; [done|set_solver|]. apply last_in in Hz as Hz'.
    assert (z ∈ y :: t) by (by apply last_in). intros ->. set_solver.
Qed.

Lemma last_rev {A} (xs : list A) : last (rev xs) = head xs.
Proof. destruct xs as [|x xs]; [done|]. simpl. by rewrite last_snoc. Qed.

Lemma head_rev {A} (xs : list A) : head (rev xs) = last xs.
Proof. rewrite <- (rev_involutive xs) at 2. by rewrite last_rev. Qed.

(** The four assignments after the loop of [list_reverse]. *)
Definition reverse_ends (l first final : Z) (h : heap) : heap :=
  upd_next first (tail_of l) (upd_prev final (head_of l)
    (upd_prev (tail_of l) first (upd_next (head_of l) final h))).

Lemma swap_all_dl h l xs :
  dl h l xs ->
  (forall x, is_Some (h !! x) -> is_Some (swap_all xs h !! x)) /\
  (forall x, x ∈ xs -> next_of (swap_all xs h) x = prev_of h x) /\
  (forall x, x ∈ xs -> prev_of (swap_all xs h) x = next_of h x) /\
  (forall x, x ∉ xs -> swap_all xs h !! x = h !! x).
Proof.
  intros H. pose proof (dl_nodup _ _ _ H) as Hd. unfold nodes in Hd.
  apply NoDup_cons in Hd as [_ Hd]. apply NoDup_app in Hd as (Hd & _).
  unfold next_of, prev_of. split_and!; intros x Hx; rewrite swap_all_lookup by done.
  - case_decide; [by rewrite fmap_is_Some|done].
  - rewrite decide_True by done. by destruct (h !! x).
  - rewrite decide_True by done. by destruct (h !! x).
  - by rewrite decide_False.
Qed.

(** The two ends of a non-empty list. *)
Lemma dl_ends h l xs a z :
  dl h l xs -> head xs = Some a -> last xs = Some z ->
  NoDup xs /\ a ∈ xs /\ z ∈ xs /\ (head_of l ∉ xs) /\ (tail_of l ∉ xs) /\ head_of l <> tail_of l /\
  linked h xs /\ link h (head_of l) a /\ link h z (tail_of l).
Proof.
  intros H Ha Hz. pose proof (head_in _ _ Ha). pose proof (last_in _ _ Hz).
  pose proof (dl_nodup _ _ _ H) as Hd. unfold nodes in Hd.
  apply NoDup_cons in Hd as [Hh Hd]. apply NoDup_app in Hd as (Hdx & Hdt & _).
  pose proof (dl_linked _ _ _ H) as Hl. unfold nodes in Hl.
  change (head_of l :: xs ++ [tail_of l]) with ([head_of l] ++ (xs ++ [tail_of l])) in Hl.
  apply (linked_concat _ _ _ (head_of l) a) in Hl as (_ & L1 & Hl); [|done|by destruct xs].
  apply (linked_concat _ _ _ z (tail_of l)) in Hl as (Hl & L2 & _); [|done|done].
  split_and!; try done; set_solver.
Qed.

Lemma reverse_ends_dl h l xs a z :
  dl h l xs -> head xs = Some a -> last xs = Some z ->
  dl (reverse_ends l a z (swap_all xs h)) l (rev xs) /\
  only h (reverse_ends l a z (swap_all xs h)) l xs.
Proof.
  intros H Ha Hz. destruct (swap_all_dl h l xs H) as (SC & SN & SP & S).
  destruct (dl_ends h l xs a z H Ha Hz) as (Hd & Ia & Iz & Hh & Ht & Hht & Hl & [L1 L2] & [L3 L4]).
  assert (head_of l <> a) by apart. assert (head_of l <> z) by apart.
  assert (tail_of l <> a) by apart. assert (tail_of l <> z) by apart.
  pose proof (SC _ (next_of_cell _ _ _ L1)). pose proof (SC _ (prev_of_cell _ _ _ L2)).
  pose proof (SC _ (next_of_cell _ _ _ L3)). pose proof (SC _ (prev_of_cell _ _ _ L4)).
  split; [split|].
  - unfold nodes. rewrite <- Permutation_rev. apply (dl_nodup _ _ _ H).
  - unfold nodes. rewrite <- Permutation_rev. apply (dl_nonnull _ _ _ H).
  - unfold nodes. change (head_of l :: rev xs ++ [tail_of l]) with ([head_of l] ++ (rev xs ++ [tail_of l])).
    apply (linked_concat _ _ _ (head_of l) z); [done| |split; [done|split]].
    + assert (Hr : head (rev xs) = Some z) by (by rewrite head_rev). by destruct (rev xs).
    + split; unfold reverse_ends; links.
    + apply (linked_concat _ _ _ a (tail_of l)); [by rewrite last_rev|done|split; [|split; [|done]]].
      * eapply (linked_rev h); [exact Ha|exact Hz|done| | |done]; intros x Hx Hne;
          (assert (x <> head_of l) by apart); (assert (x <> tail_of l) by apart);
          unfold reverse_ends; links; [by apply SP|by apply SN].
      * split; unfold reverse_ends; links.
  - unfold reverse_ends. links. unfold prev_of. rewrite S by done. apply (dl_head _ _ _ H).
  - unfold reverse_ends. links. unfold next_of. rewrite S by done. apply (dl_tail _ _ _ H).
  - intros x Hx. unfold nodes in Hx.
    assert (x <> head_of l /\ x <> tail_of l /\ (x ∉ xs)) as (? & ? & ?) by set_solver.
    unfold reverse_ends. rewrite upd_next_frame, upd_prev_frame, upd_prev_frame, upd_next_frame by apart.
    by apply S.
Qed.

Lemma run_list_reverse h l xs fuel :
  dl h l xs -> (length xs < fuel)%nat ->
  exists h', list_reverse fuel l h = Ret (tt, h') /\ dl h' l (rev xs) /\ only h h' l xs.
Proof.
  intros H Hf. unfold list_reverse. sstep (run_list_empty _ _ _ H).
  destruct (head xs) as [a|] eqn:Ha; [|destruct xs; [|done]; by exists h].
  destruct (last xs) as [z|] eqn:Hz; [|by apply last_None in Hz; subst].
  exists (reverse_ends l a z (swap_all xs h)). split; [|by apply reverse_ends_dl].
  replace (match xs with [] => true | _ => false end) with false by (by destruct xs).
  sstep (run_list_begin _ _ _ H). sstep (reverse_loop_spec h h l [] xs fuel H ltac:(done) Hf).
  destruct (swap_all_dl h l xs H) as (SC & SN & SP & S).
  destruct (dl_ends h l xs a z H Ha Hz) as (Hd & Ia & Iz & Hh & Ht & Hht & Hl & [L1 L2] & [L3 L4]).
  assert (head_of l <> a) by apart. assert (head_of l <> z) by apart.
  assert (tail_of l <> a) by apart. assert (tail_of l <> z) by apart.
  pose proof (SC _ (next_of_cell _ _ _ L1)) as Ch. pose proof (SC _ (prev_of_cell _ _ _ L2)) as Ca.
  pose proof (SC _ (next_of_cell _ _ _ L3)) as Cz. pose proof (SC _ (prev_of_cell _ _ _ L4)) as Ct.
  rewrite <- SP in L3 by done. rewrite <- SN in L2 by done.
  set (hs := swap_all xs h) in *.
  assert (R1 : next_of hs (head_of l) = Some a) by (unfold next_of; by rewrite S).
  assert (R2 : prev_of hs (tail_of l) = Some z) by (unfold prev_of; by rewrite S).
  set (h1 := upd_next (head_of l) z hs). set (h2 := upd_prev (tail_of l) a h1).
  sstep (run_get_next _ _ _ R1). sstep (run_get_prev _ _ _ R2).
  sstep (run_set_next hs (head_of l) z Ch).
  sstep (run_set_prev h1 (tail_of l) a ltac:(by apply upd_next_cell)).
  assert (R3 : next_of h2 (head_of l) = Some z) by (unfold h2, h1; links).
  assert (R4 : prev_of h2 (tail_of l) = Some a) by (unfold h2, h1; links).
  assert (R5 : prev_of h2 z = Some (tail_of l)) by (unfold h2, h1; links).
  assert (R6 : next_of h2 a = Some (head_of l)) by (unfold h2, h1; links).
  sstep (run_get_next _ _ _ R3). sstep (run_get_prev _ _ _ R4).
  sstep (run_get_prev _ _ _ R5). sstep (run_get_next _ _ _ R6).
  sstep (run_set_prev h2 z (head_of l) ltac:(by apply upd_prev_cell, upd_next_cell)).
  apply run_set_next. by apply upd_prev_cell, upd_prev_cell, upd_next_cell.
Qed.

(** ** Removing duplicates *)

Section Unique.
Variable less : Z -> Z -> bool.

(** The elements kept after [x] and the removed duplicates, both in order. *)
Fixpoint uniq (x : Z) (xs : list Z) : list Z * list Z :=
  match xs with
  | [] => ([], [])
  | y :: t =>
      if negb (less x y) && negb (less y x)
      then let '(k, d) := uniq x t in (k, y :: d)
      else let '(k, d) := uniq y t in (y :: k, d)
  end.

(** The list of duplicates, when there is one, is another list. *)
Definition dup_ok (h : heap) (l dup : Z) (xs ds : list Z) : Prop :=
  dup <> NULL -> dl h dup ds /\ forall x, x ∈ nodes dup ds -> x ∉ nodes l xs.

Lemma unique_step h l dup pre x n post ds :
  dl h l (pre ++ x :: n :: post) -> dup_ok h l dup (pre ++ x :: n :: post) ds ->
  exists h1 h2, list_remove n h = Ret (cur l post, h1) /\
    (if negb (dup =? NULL) then list_push_back dup n else sret tt) h1 = Ret (tt, h2) /\
    dl h2 l (pre ++ x :: post) /\ dup_ok h2 l dup (pre ++ x :: post) (ds ++ [n]).
Proof.
  intros H Hd. assert (H' : dl h l ((pre ++ [x]) ++ n :: post)) by (by rewrite <- app_assoc).
  destruct (run_list_remove _ _ _ _ _ H') as (h1 & Hr & Hd1 & Ho1).
  pose proof (dl_interior _ _ _ _ _ H') as (Hp & _ & Hn & _).
  pose proof (dl_nodup _ _ _ H') as Hnd. rewrite nodes_perm_insert in Hnd.
  apply NoDup_cons in Hnd as [Hnn _]. rewrite <- app_assoc in Hd1, Ho1, Hnn.
  assert (Hperm : nodes l (pre ++ x :: n :: post) ≡ₚ n :: nodes l (pre ++ x :: post)).
  { unfold nodes. rewrite <- !app_assoc. simpl. solve_Permutation. }
  exists h1. destruct (Z.eqb_spec dup NULL) as [->|Hdup]; cbn [negb].
  { exists h1. done. }
  destruct (Hd Hdup) as [Hdd Hdis].
  assert (Hdis' : forall y, y ∈ nodes dup ds -> y ∉ nodes l (pre ++ x :: post)).
  { intros y Hy Hy2. apply (Hdis y Hy). rewrite Hperm. by right. }
  assert (Hnd : n ∉ nodes dup ds) by (intros Hx; apply (Hdis n Hx); rewrite Hperm; by left).
  assert (Hdd1 : dl h1 dup ds) by (eapply dl_frame; [exact Hdd|]; intros y Hy; apply Ho1; auto).
  destruct (run_push_back h1 dup n ds) as (h2 & Hpb & Hdd2 & Ho2); try done.
  { rewrite Ho1 by done. eauto with pintos. }
  assert (Hdis2 : forall y, y ∈ nodes dup (ds ++ [n]) -> y ∉ nodes l (pre ++ x :: post)).
  { intros y. rewrite (nodes_perm_insert dup ds n []), app_nil_r.
    intros [->|Hy]%elem_of_cons; [done|auto]. }
  exists h2. split_and!; try done.
  eapply dl_frame; [exact Hd1|]. intros y Hy. apply Ho2. intros Hy2. by apply (Hdis2 y).
Qed.

Lemma unique_loop_spec h l dup pre x post ds fuel :
  dl h l (pre ++ x :: post) -> dup_ok h l dup (pre ++ x :: post) ds -> (length post < fuel)%nat ->
  exists h', unique_loop less fuel l dup x h = Ret (tt, h') /\
    dl h' l (pre ++ x :: (uniq x post).1) /\
    dup_ok h' l dup (pre ++ x :: (uniq x post).1) (ds ++ (uniq x post).2).
Proof.
  revert h pre x post ds. induction fuel as [|fuel IH]; intros h pre x post ds H Hd Hf; [lia|].
  cbn [unique_loop]. sstep (run_list_next _ _ _ _ _ H). sstep (run_list_end _ _ _ H).
  assert (H' : dl h l ((pre ++ [x]) ++ post)) by (by rewrite <- app_assoc).
  rewrite (cur_end _ _ _ _ H'). destruct post as [|n post].
  { exists h. simpl. by rewrite app_nil_r. }
  rewrite cur_cons. cbn [uniq]. simpl in Hf. destruct (negb (less x n) && negb (less n x)).
  - destruct (unique_step _ _ _ _ _ _ _ _ H Hd) as (h1 & h2 & Hr & Hp & H2 & Hd2).
    sstep Hr. sstep Hp. destruct (IH h2 pre x post (ds ++ [n])) as (h3 & Hu & H3 & Hd3); [done|done|lia|].
    exists h3. destruct (uniq x post) as [k d]. rewrite <- app_assoc in Hd3. done.
  - destruct (IH h (pre ++ [x]) n post ds) as (h3 & Hu & H3 & Hd3);
      [by rewrite <- app_assoc|by rewrite <- app_assoc|lia|].
    exists h3. destruct (uniq n post) as [k d]. rewrite <- app_assoc in H3, Hd3. done.
Qed.

Lemma run_list_unique h l dup xs ds fuel :
  dl h l xs -> dup_ok h l dup xs ds -> (length xs < fuel)%nat ->
  exists h', list_unique less fuel l dup h = Ret (tt, h') /\
    match xs with
    | [] => dl h' l [] /\ dup_ok h' l dup [] ds
    | x :: t => dl h' l (x :: (uniq x t).1) /\ dup_ok h' l dup (x :: (uniq x t).1) (ds ++ (uniq x t).2)
    end.
Proof.
  intros H Hd Hf. unfold list_unique. pose proof (dl_l_nonnull _ _ _ H).
  sassert by (by destruct (Z.eqb_spec l NULL)). sstep (run_list_empty _ _ _ H).
  destruct xs as [|x t]; [by exists h|]. sstep (run_list_begin _ _ _ H). rewrite cur_cons.
  apply (unique_loop_spec h l dup [] x t ds); [done|done|simpl in Hf; lia].
Qed.

Lemma uniq_perm x xs : (uniq x xs).1 ++ (uniq x xs).2 ≡ₚ xs.
Proof.
  revert x. induction xs as [|y t IH]; intros x; simpl; [done|].
  destruct (negb (less x y) && negb (less y x)).
  - specialize (IH x). destruct (uniq x t) as [k d]. simpl in *. rewrite <- IH. solve_Permutation.
  - specialize (IH y). destruct (uniq y t) as [k d]. simpl in *. by rewrite IH.
Qed.

(** No two neighbours of the result are equivalent. *)
Fixpoint distinct (x : Z) (xs : list Z) : bool :=
  match xs with
  | [] => true
  | y :: t => (less x y || less y x) && distinct y t
  end.

Lemma uniq_distinct x xs : distinct x (uniq x xs).1 = true.
Proof.
  revert x. induction xs as [|y t IH]; intros x; simpl; [done|].
  destruct (less x y) eqn:E1, (less y x) eqn:E2; simpl; pose proof (IH x) as Hx; pose proof (IH y) as Hy;
    destruct (uniq x t), (uniq y t); simpl in *; rewrite ?E1, ?E2; done.
Qed.
End Unique.

(** ** Theorems *)

(** The witnesses below use the list at address 100 with the elements at
    addresses 8, 16 and 24, ordered by address modulo 16 (so that 8 and 24
    are equivalent and 16 is smaller). *)
Definition demo_less (a b : Z) : bool := a mod 16 <? b mod 16.

#[export] Instance demo_strict_weak : StrictWeak demo_less.
Proof. split; unfold demo_less; intros; bool_cases; try done; lia. Qed.

Definition demo_heap : heap :=
  {[ 100 := mkElem 0 8; 8 := mkElem 100 24; 24 := mkElem 8 16; 16 := mkElem 24 108;
     108 := mkElem 16 0; 32 := mkElem 0 0 ]}.

Lemma demo_dl : dl demo_heap 100 [8; 24; 16].
Proof. split; try reflexivity; [repeat constructor; set_solver|set_solver|by vm_compute]. Qed.

(** The deque operations refine sequence operations.  On a list that
    represents [xs], [list_push_front] and [list_push_back] of a fresh
    element give [e :: xs] and [xs ++ [e]]; [list_pop_front] and
    [list_pop_back] return and remove the first and the last element; the
    result is again a well-formed doubly linked list and no memory outside
    of the list and the element changes. *)
Theorem list_deque_refines h l e x xs :
  dl h l xs -> e ∉ nodes l xs -> e <> NULL -> is_Some (h !! e) ->
  (exists h', list_push_front l e h = Ret (tt, h') /\ dl h' l (e :: xs) /\ only h h' l (e :: xs)) /\
  (exists h', list_push_back l e h = Ret (tt, h') /\ dl h' l (xs ++ [e]) /\ only h h' l (xs ++ [e])) /\
  (forall ys, xs = x :: ys ->
     exists h', list_pop_front l h = Ret (x, h') /\ dl h' l ys /\ only h h' l ys) /\
  (forall ys, xs = ys ++ [x] ->
     exists h', list_pop_back l h = Ret (x, h') /\ dl h' l ys /\ only h h' l ys) /\
  (xs = [] -> list_pop_front l h = Err AssertFailed /\ list_pop_back l h = Err AssertFailed).
Proof.
  intros H He Hn Hc. split; [by apply run_push_front|]. split; [by apply run_push_back|].
  split; [intros ys ->; by apply run_pop_front|]. split; [intros ys ->; by apply run_pop_back|].
  intros ->. by apply run_pop_empty.
Qed.

Lemma list_deque_refines_witness :
  exists h', list_push_back 100 32 demo_heap = Ret (tt, h') /\ dl h' 100 [8; 24; 16; 32].
Proof.
  destruct (list_deque_refines demo_heap 100 32 8 [8; 24; 16]) as (_ & (h' & H1 & H2 & _) & _).
  - exact demo_dl.
  - unfold nodes, head_of, tail_of. set_solver.
  - done.
  - eexists. vm_compute. reflexivity.
  - exists h'. split; [exact H1|exact H2].
Defined.

(** Insertion and removal at any position.  Removing the element [e] of
    [pre ++ e :: post] returns the element that follows it and leaves
    [pre ++ post]; inserting it again before that element restores the
    sequence [pre ++ e :: post]. *)
Theorem list_remove_insert h l pre e post :
  dl h l (pre ++ e :: post) ->
  exists h1 h2, list_remove e h = Ret (cur l post, h1) /\ dl h1 l (pre ++ post) /\
    list_insert (cur l post) e h1 = Ret (tt, h2) /\ dl h2 l (pre ++ e :: post) /\
    only h h2 l (pre ++ e :: post).
Proof.
  intros H. destruct (run_list_remove _ _ _ _ _ H) as (h1 & Hr & Hd & Ho).
  pose proof (dl_interior _ _ _ _ _ H) as (Hp & _ & Hn & _).
  pose proof (dl_nodup _ _ _ H) as Hnd. rewrite nodes_perm_insert in Hnd.
  apply NoDup_cons in Hnd as [Hne _].
  destruct (run_list_insert h1 l pre e post) as (h2 & Hi & Hd2 & Ho2); try done.
  { rewrite Ho by done. eauto with pintos. }
  exists h1, h2. split_and!; try done. intros x Hx. rewrite Ho2 by done. apply Ho.
  intros Hx2. apply Hx. rewrite nodes_perm_insert. by right.
Qed.

Lemma list_remove_insert_witness :
  exists h1 h2, list_remove 24 demo_heap = Ret (16, h1) /\ dl h1 100 [8; 16] /\
    list_insert 16 24 h1 = Ret (tt, h2) /\ dl h2 100 [8; 24; 16].
Proof.
  destruct (list_remove_insert demo_heap 100 [8] 24 [16] demo_dl) as (h1 & h2 & H1 & H2 & H3 & H4 & _).
  exists h1, h2. split_and!; assumption.
Defined.

(** C8: [list_sort] sorts.  With fuel above the length of the list plus one,
    the natural merge sort terminates without tripping any of its
    assertions; the list then holds a permutation of its elements, sorted,
    in which equivalent elements keep their order (the sort is stable), and
    no memory outside of the list changes. *)
Theorem list_sort_correct less `{!StrictWeak less} h l xs fuel :
  dl h l xs -> (S (length xs) < fuel)%nat -> Z.of_nat (length xs) < two32 ->
  exists h' ys, list_sort less fuel l h = Ret (tt, h') /\ dl h' l ys /\ only h h' l xs /\
    ys ≡ₚ xs /\ StronglySorted (le_of less) ys /\ (forall k, same less k ys = same less k xs).
Proof.
  intros H Hf Hb. destruct (run_list_sort less h l xs fuel H Hf Hb) as (h' & Hs & Hd & Ho).
  pose proof (runs_length less xs). exists h', (sort_passes less fuel xs).
  split_and!; [done..|apply sort_passes_perm| |intros; by apply sort_passes_stable].
  apply (adjacent_strong less), (sort_passes_adjacent less). lia.
Qed.

Lemma list_sort_correct_witness :
  exists h', list_sort demo_less 5 100 demo_heap = Ret (tt, h') /\ dl h' 100 [16; 8; 24].
Proof.
  destruct (list_sort_correct demo_less demo_heap 100 [8; 24; 16] 5) as (h' & ys & H1 & H2 & _).
  - exact demo_dl.
  - simpl. lia.
  - done.
  - exists h'. split; [exact H1|]. vm_compute in H1. injection H1 as <-.
    split; try reflexivity; [repeat constructor; set_solver|set_solver|by vm_compute].
Defined.

(** [list_insert_ordered] keeps a sorted list sorted, inserting the new
    element after every element that is not greater than it. *)
Theorem list_insert_ordered_sorted less `{!StrictWeak less} h l xs e fuel :
  dl h l xs -> e ∉ nodes l xs -> e <> NULL -> is_Some (h !! e) -> (length xs < fuel)%nat ->
  StronglySorted (le_of less) xs ->
  exists h' u v, xs = u ++ v /\ list_insert_ordered less fuel l e h = Ret (tt, h') /\
    dl h' l (u ++ e :: v) /\ only h h' l (u ++ e :: v) /\
    StronglySorted (le_of less) (u ++ e :: v) /\ Forall (fun y => less e y = false) u /\
    match v with [] => True | y :: _ => less e y = true end.
Proof.
  intros H He Hn Hc Hf Hs.
  destruct (run_insert_ordered less h l xs e fuel) as (h' & Hr & Hd & Ho); [done..|].
  pose proof (insert_before_sorted less e xs Hs) as Hs'.
  assert (exists u v, xs = u ++ v /\ insert_before less e xs = u ++ e :: v /\
    Forall (fun y => less e y = false) u /\ match v with [] => True | y :: _ => less e y = true end)
    as (u & v & -> & Heq & Hu & Hv).
  { clear. induction xs as [|y t IH]; simpl; [by exists [], []|].
    destruct (less e y) eqn:E; [by exists [], (y :: t)|].
    destruct IH as (u & v & -> & -> & Hu & Hv). exists (y :: u), v. split_and!; try done. by constructor. }
  rewrite Heq in *. by exists h', u, v.
Qed.

Definition demo_heap2 : heap :=
  {[ 100 := mkElem 0 16; 16 := mkElem 100 8; 8 := mkElem 16 108; 108 := mkElem 8 0;
     32 := mkElem 0 0 ]}.

Lemma demo_dl2 : dl demo_heap2 100 [16; 8].
Proof. split; try reflexivity; [repeat constructor; set_solver|set_solver|by vm_compute]. Qed.

Lemma list_insert_ordered_sorted_witness :
  exists h', list_insert_ordered demo_less 3 100 32 demo_heap2 = Ret (tt, h') /\
    dl h' 100 [16; 32; 8].
Proof.
  destruct (list_insert_ordered_sorted demo_less demo_heap2 100 [16; 8] 32 3)
    as (h' & u & v & _ & H1 & _).
  - exact demo_dl2.
  - unfold nodes, head_of, tail_of. set_solver.
  - done.
  - eexists. vm_compute. reflexivity.
  - simpl. lia.
  - repeat constructor.
  - exists h'. split; [exact H1|]. vm_compute in H1. injection H1 as <-.
    split; try reflexivity; [repeat constructor; set_solver|set_solver|by vm_compute].
Defined.

(** [list_reverse] reverses the sequence in place and touches nothing
    outside of the list. *)
Theorem list_reverse_correct h l xs fuel :
  dl h l xs -> (length xs < fuel)%nat ->
  exists h', list_reverse fuel l h = Ret (tt, h') /\ dl h' l (rev xs) /\ only h h' l xs.
Proof. apply run_list_reverse. Qed.

Lemma list_reverse_correct_witness :
  exists h', list_reverse 4 100 demo_heap = Ret (tt, h') /\ dl h' 100 [16; 24; 8].
Proof.
  destruct (list_reverse_correct demo_heap 100 [8; 24; 16] 4 demo_dl) as (h' & H1 & H2 & _).
  - simpl. lia.
  - exists h'. split; assumption.
Defined.

(** [list_unique] keeps the first of each group of equivalent
    neighbours: the kept elements and the removed ones together are the
    original elements, no two neighbours that remain are equivalent, and the
    removed elements are appended in order to the list of duplicates. *)
Theorem list_unique_correct less h l dup x t ds fuel :
  dl h l (x :: t) -> dl h dup ds -> (forall y, y ∈ nodes dup ds -> y ∉ nodes l (x :: t)) ->
  (S (length t) < fuel)%nat ->
  exists h' kept dups, list_unique less fuel l dup h = Ret (tt, h') /\
    dl h' l (x :: kept) /\ dl h' dup (ds ++ dups) /\
    kept ++ dups ≡ₚ t /\ distinct less x kept = true.
Proof.
  intros H Hdup Hdis Hf. pose proof (dl_l_nonnull _ _ _ Hdup) as Hnn.
  destruct (run_list_unique less h l dup (x :: t) ds fuel) as (h' & Hr & Hd & Ho);
    [done|done|simpl; lia|].
  destruct (Ho Hnn) as [Hdd _]. exists h', (uniq less x t).1, (uniq less x t).2.
  split_and!; try done; [apply uniq_perm|apply uniq_distinct].
Qed.

Definition demo_heap3 : heap := <[ 200 := mkElem 0 208 ]> (<[ 208 := mkElem 200 0 ]> demo_heap).

Lemma demo_dl3 : dl demo_heap3 100 [8; 24; 16] /\ dl demo_heap3 200 [].
Proof.
  split; split; try reflexivity; try (by vm_compute);
    first [by (repeat constructor; set_solver) | unfold nodes, head_of, tail_of; set_solver].
Qed.

Lemma list_unique_correct_witness :
  exists h', list_unique demo_less 4 100 200 demo_heap3 = Ret (tt, h') /\
    dl h' 100 [8; 16] /\ dl h' 200 [24].
Proof.
  destruct (list_unique_correct demo_less demo_heap3 100 200 8 [24; 16] [] 4)
    as (h' & kept & dups & H1 & _).
  - exact (proj1 demo_dl3).
  - exact (proj2 demo_dl3).
  - unfold nodes, head_of, tail_of. set_solver.
  - simpl. lia.
  - exists h'. split; [exact H1|]. vm_compute in H1. injection H1 as <-.
    split; split; try reflexivity; try (by vm_compute);
      first [by (repeat constructor; set_solver) | unfold nodes, head_of, tail_of; set_solver].
Defined.

(** [list_max] and [list_min].  On a non-empty list they return an
    element to which no element is greater (smaller), and the first such
    element: everything before it is strictly smaller (greater).  On an empty
    list they return the tail. *)
Theorem list_max_min_first less `{!StrictWeak less} h l xs fuel :
  dl h l xs -> (length xs < fuel)%nat ->
  exists mx mn, list_max less fuel l h = Ret (mx, h) /\ list_min less fuel l h = Ret (mn, h) /\
    (xs = [] -> mx = tail_of l /\ mn = tail_of l) /\
    (xs <> [] -> exists u v u' v',
       xs = u ++ mx :: v /\ Forall (fun y => less y mx = true) u /\ Forall (fun y => less mx y = false) xs /\
       xs = u' ++ mn :: v' /\ Forall (fun y => less mn y = true) u' /\ Forall (fun y => less y mn = false) xs).
Proof.
  intros H Hf. rewrite (run_list_max less h l xs fuel H Hf), (run_list_min less h l xs fuel H Hf).
  destruct xs as [|x t]; do 2 eexists; (split; [done|]); (split; [done|]); (split; [done|]); [done|].
  intros _. destruct (max_of_spec less x t) as (u & v & E1 & F1 & G1).
  destruct (min_of_spec less x t) as (u' & v' & E2 & F2 & G2).
  exists u, v, u', v'. done.
Qed.

Lemma list_max_min_first_witness :
  list_max demo_less 4 100 demo_heap = Ret (8, demo_heap) /\
  list_min demo_less 4 100 demo_heap = Ret (16, demo_heap).
Proof.
  destruct (list_max_min_first demo_less demo_heap 100 [8; 24; 16] 4 demo_dl)
    as (mx & mn & H1 & H2 & _).
  - simpl. lia.
  - split; [rewrite H1|rewrite H2]; [vm_compute in H1|vm_compute in H2]; congruence.
Defined.
