(* ===== verification/Thread.v ===== *)
(** * Threads and the scheduler ([threads/thread.c], [threads/interrupt.c])

    The state is that of the C files: the [struct thread] pages, the run
    queue and the list of all threads (as the sequences that [Dlist] shows
    the C lists to represent), the idle and initial threads, the interrupt
    state of the CPU and the statistics.  A thread is named by the address of
    its page.

    A context switch is seen from the CPU: [schedule] leaves the stack of the
    running thread and continues, on the stack of the next one, with
    [thread_schedule_tail].  What a thread still has to do when it is
    resumed (the code after its call of [schedule]) is kept by [Synch] as a
    stack of frames. *)
From stdpp Require Import prelude list gmap.
From Stdlib Require Import ZArith Lia.
From S2P Require Import Prelude Dlist.
#[local] Open Scope Z_scope.

(** ** Data *)

Inductive thread_status : Type :=
| THREAD_RUNNING
| THREAD_READY
| THREAD_BLOCKED
| THREAD_DYING.

#[export] Instance thread_status_eq_dec : EqDecision thread_status.
Proof. solve_decision. Defined.

Definition status_eqb (a b : thread_status) : bool := bool_decide (a = b).

Definition PRI_MIN : Z := 0.
Definition PRI_DEFAULT : Z := 31.
Definition PRI_MAX : Z := 63.
Definition TID_ERROR : Z := -1.
Definition PGSIZE : Z := 4096.
Definition THREAD_MAGIC : Z := 3446325067.
Definition TIME_SLICE : Z := 4.

Record thread : Type := mkThread {
  tid : Z;
  status : thread_status;
  name : list Z;
  stack : Z;
  priority : Z;
  magic : Z
}.

Definition set_status (t : thread) (s : thread_status) : thread :=
  mkThread (tid t) s (name t) (stack t) (priority t) (magic t).
Definition set_tid (t : thread) (i : Z) : thread :=
  mkThread i (status t) (name t) (stack t) (priority t) (magic t).
Definition set_stack (t : thread) (p : Z) : thread :=
  mkThread (tid t) (status t) (name t) p (priority t) (magic t).
Definition set_prio (t : thread) (p : Z) : thread :=
  mkThread (tid t) (status t) (name t) (stack t) p (magic t).

Record kernel : Type := mkKernel {
  threads : gmap Z thread;
  ready_list : list Z;
  all_list : list Z;
  idle_thread : Z;
  initial_thread : Z;
  running : Z;
  intr_on : bool;
  in_external_intr : bool;
  yield_on_return : bool;
  thread_ticks : Z;
  idle_ticks : Z;
  kernel_ticks : Z;
  ticks : Z;
  next_tid : Z
}.

Definition with_threads (k : kernel) (x : gmap Z thread) : kernel :=
  mkKernel x (ready_list k) (all_list k) (idle_thread k) (initial_thread k) (running k)
    (intr_on k) (in_external_intr k) (yield_on_return k) (thread_ticks k) (idle_ticks k)
    (kernel_ticks k) (ticks k) (next_tid k).
Definition with_ready (k : kernel) (x : list Z) : kernel :=
  mkKernel (threads k) x (all_list k) (idle_thread k) (initial_thread k) (running k)
    (intr_on k) (in_external_intr k) (yield_on_return k) (thread_ticks k) (idle_ticks k)
    (kernel_ticks k) (ticks k) (next_tid k).
Definition with_all (k : kernel) (x : list Z) : kernel :=
  mkKernel (threads k) (ready_list k) x (idle_thread k) (initial_thread k) (running k)
    (intr_on k) (in_external_intr k) (yield_on_return k) (thread_ticks k) (idle_ticks k)
    (kernel_ticks k) (ticks k) (next_tid k).
Definition with_idle (k : kernel) (x : Z) : kernel :=
  mkKernel (threads k) (ready_list k) (all_list k) x (initial_thread k) (running k)
    (intr_on k) (in_external_intr k) (yield_on_return k) (thread_ticks k) (idle_ticks k)
    (kernel_ticks k) (ticks k) (next_tid k).
Definition with_running (k : kernel) (x : Z) : kernel :=
  mkKernel (threads k) (ready_list k) (all_list k) (idle_thread k) (initial_thread k) x
    (intr_on k) (in_external_intr k) (yield_on_return k) (thread_ticks k) (idle_ticks k)
    (kernel_ticks k) (ticks k) (next_tid k).
Definition with_intr (k : kernel) (x : bool) : kernel :=
  mkKernel (threads k) (ready_list k) (all_list k) (idle_thread k) (initial_thread k) (running k)
    x (in_external_intr k) (yield_on_return k) (thread_ticks k) (idle_ticks k)
    (kernel_ticks k) (ticks k) (next_tid k).
Definition with_context (k : kernel) (ext yld : bool) : kernel :=
  mkKernel (threads k) (ready_list k) (all_list k) (idle_thread k) (initial_thread k) (running k)
    (intr_on k) ext yld (thread_ticks k) (idle_ticks k) (kernel_ticks k) (ticks k) (next_tid k).
Definition with_ticks (k : kernel) (tt it kt tk : Z) : kernel :=
  mkKernel (threads k) (ready_list k) (all_list k) (idle_thread k) (initial_thread k) (running k)
    (intr_on k) (in_external_intr k) (yield_on_return k) tt it kt tk (next_tid k).
Definition with_next_tid (k : kernel) (x : Z) : kernel :=
  mkKernel (threads k) (ready_list k) (all_list k) (idle_thread k) (initial_thread k) (running k)
    (intr_on k) (in_external_intr k) (yield_on_return k) (thread_ticks k) (idle_ticks k)
    (kernel_ticks k) (ticks k) x.

(** ** Interrupt state of the CPU *)

Definition intr_get_level : ST kernel bool := fun k => Ret (intr_on k, k).

Definition intr_context : ST kernel bool := fun k => Ret (in_external_intr k, k).

Definition intr_enable : ST kernel bool :=
  do! old_level := intr_get_level in
  do! c := intr_context in
  do! _ := assert_ (negb c) in
  do! k := get in
  do! _ := put (with_intr k true) in
  sret old_level.

Definition intr_disable : ST kernel bool :=
  do! old_level := intr_get_level in
  do! k := get in
  do! _ := put (with_intr k false) in
  sret old_level.

Definition intr_set_level (level : bool) : ST kernel bool :=
  if level then intr_enable else intr_disable.

Definition intr_yield_on_return : ST kernel unit :=
  do! c := intr_context in
  do! _ := assert_ c in
  do! k := get in
  put (with_context k (in_external_intr k) true).

(** ** Threads *)

(** [t->status = s]. *)
Definition write_status (t : Z) (s : thread_status) : ST kernel unit := fun k =>
  match threads k !! t with
  | Some th => Ret (tt, with_threads k (<[t := set_status th s]> (threads k)))
  | None => Err BadAccess
  end.

Definition read_thread (t : Z) : ST kernel thread := fun k =>
  match threads k !! t with Some th => Ret (th, k) | None => Err BadAccess end.

(** [t != NULL && t->magic == THREAD_MAGIC]; a page that is not a thread
    does not have the magic number. *)
Definition is_thread (t : Z) : ST kernel bool := fun k =>
  Ret (match threads k !! t with
       | Some th => negb (t =? NULL) && (magic th =? THREAD_MAGIC)
       | None => false
       end, k).

Definition running_thread : ST kernel Z := fun k => Ret (running k, k).

Definition thread_current : ST kernel Z :=
  do! t := running_thread in
  do! b := is_thread t in
  do! _ := assert_ b in
  do! th := read_thread t in
  do! _ := assert_ (status_eqb (status th) THREAD_RUNNING) in
  sret t.

Definition thread_tid : ST kernel Z :=
  do! t := thread_current in do! th := read_thread t in sret (tid th).

Definition thread_name : ST kernel (list Z) :=
  do! t := thread_current in do! th := read_thread t in sret (name th).

Definition thread_get_priority : ST kernel Z :=
  do! t := thread_current in do! th := read_thread t in sret (priority th).

Definition thread_set_priority (new_priority : Z) : ST kernel unit :=
  do! t := thread_current in
  do! th := read_thread t in
  do! k := get in
  put (with_threads k (<[t := set_prio th new_priority]> (threads k))).

Definition next_thread_to_run : ST kernel Z := fun k =>
  match ready_list k with
  | [] => Ret (idle_thread k, k)
  | t :: rest => Ret (t, with_ready k rest)
  end.

Definition thread_schedule_tail (prev : Z) : ST kernel unit :=
  do! cur := running_thread in
  do! l := intr_get_level in
  do! _ := assert_ (negb l) in
  do! _ := write_status cur THREAD_RUNNING in
  do! k := get in
  do! _ := put (with_ticks k 0 (idle_ticks k) (kernel_ticks k) (ticks k)) in
  if negb (prev =? NULL) then
    do! p := read_thread prev in
    do! k := get in
    if status_eqb (status p) THREAD_DYING && negb (prev =? initial_thread k) then
      do! _ := assert_ (negb (prev =? cur)) in
      (* palloc_free_page (prev) *)
      put (with_threads k (delete prev (threads k)))
    else sret tt
  else sret tt.

Definition schedule : ST kernel unit :=
  do! cur := running_thread in
  do! nxt := next_thread_to_run in
  do! l := intr_get_level in
  do! _ := assert_ (negb l) in
  do! c := read_thread cur in
  do! _ := assert_ (negb (status_eqb (status c) THREAD_RUNNING)) in
  do! b := is_thread nxt in
  do! _ := assert_ b in
  if negb (cur =? nxt) then
    (* prev = switch_threads (cur, next) *)
    do! k := get in
    do! _ := put (with_running k nxt) in
    thread_schedule_tail cur
  else thread_schedule_tail NULL.

Definition thread_block : ST kernel unit :=
  do! c := intr_context in
  do! _ := assert_ (negb c) in
  do! l := intr_get_level in
  do! _ := assert_ (negb l) in
  do! t := thread_current in
  do! _ := write_status t THREAD_BLOCKED in
  schedule.

Definition thread_unblock (t : Z) : ST kernel unit :=
  do! b := is_thread t in
  do! _ := assert_ b in
  do! old_level := intr_disable in
  do! th := read_thread t in
  do! _ := assert_ (status_eqb (status th) THREAD_BLOCKED) in
  do! k := get in
  do! _ := put (with_ready k (ready_list k ++ [t])) in
  do! _ := write_status t THREAD_READY in
  do! _ := intr_set_level old_level in
  sret tt.

(** [thread_yield] up to its call of [schedule]; the result is the
    interrupt level that it restores once it is resumed. *)
Definition thread_yield : ST kernel bool :=
  do! cur := thread_current in
  do! c := intr_context in
  do! _ := assert_ (negb c) in
  do! old_level := intr_disable in
  do! k := get in
  do! _ := (if negb (cur =? idle_thread k) then put (with_ready k (ready_list k ++ [cur])) else sret tt) in
  do! _ := write_status cur THREAD_READY in
  do! _ := schedule in
  sret old_level.

(** [list_remove (&thread_current ()->allelem)]. *)
Definition remove_all (t : Z) : ST kernel unit := fun k =>
  if bool_decide (t ∈ all_list k) then Ret (tt, with_all k (List.remove Z.eq_dec t (all_list k)))
  else Err AssertFailed.

Definition thread_exit : ST kernel unit :=
  do! c := intr_context in
  do! _ := assert_ (negb c) in
  do! _ := intr_disable in
  do! t := thread_current in
  do! _ := remove_all t in
  do! t := thread_current in
  do! _ := write_status t THREAD_DYING in
  schedule.

(** [thread_foreach] calls [func] on every thread of [all_list], in order. *)
Definition thread_foreach (func : Z -> ST kernel unit) : ST kernel unit :=
  do! l := intr_get_level in
  do! _ := assert_ (negb l) in
  do! k := get in
  fold_right (fun t m => do! _ := func t in m) (sret tt) (all_list k).

(** ** Creation *)

(** [strlcpy] into the 16-byte [name] member keeps at most 15 characters. *)
Definition init_thread (t : Z) (nm : list Z) (prio : Z) : ST kernel unit :=
  do! _ := assert_ (negb (t =? NULL)) in
  do! _ := assert_ ((PRI_MIN <=? prio) && (prio <=? PRI_MAX)) in
  do! k := get in
  do! _ := put (with_threads k
      (<[t := mkThread 0 THREAD_BLOCKED (take 15 nm) (t + PGSIZE) prio THREAD_MAGIC]> (threads k))) in
  do! k := get in
  put (with_all k (all_list k ++ [t])).

(** The counter protected by [tid_lock]. *)
Definition allocate_tid : ST kernel Z :=
  do! k := get in
  do! _ := put (with_next_tid k (s32 (next_tid k + 1))) in
  sret (next_tid k).

Definition alloc_frame (t size : Z) : ST kernel Z :=
  do! b := is_thread t in
  do! _ := assert_ b in
  do! _ := assert_ (size mod 4 =? 0) in
  do! th := read_thread t in
  do! k := get in
  do! _ := put (with_threads k (<[t := set_stack th (stack th - size)]> (threads k))) in
  sret (stack th - size).

(** [page] is what [palloc_get_page (PAL_ZERO)] returns ([None] for a null
    pointer).  The three frames pushed on the new stack are those of
    [kernel_thread] (12 bytes), [switch_entry] (4 bytes) and
    [switch_threads] (28 bytes). *)
Definition thread_create (nm : list Z) (prio : Z) (page : option Z) : ST kernel Z :=
  match page with
  | None => sret TID_ERROR
  | Some t =>
      do! _ := init_thread t nm prio in
      do! i := allocate_tid in
      do! th := read_thread t in
      do! k := get in
      do! _ := put (with_threads k (<[t := set_tid th i]> (threads k))) in
      do! old_level := intr_disable in
      do! _ := alloc_frame t 12 in
      do! _ := alloc_frame t 4 in
      do! _ := alloc_frame t 28 in
      do! _ := intr_set_level old_level in
      do! _ := thread_unblock t in
      sret i
  end.

(** The state before [thread_init]: the running code is on the page [t]. *)
Definition boot (t : Z) : kernel :=
  mkKernel ∅ [] [] NULL NULL t false false false 0 0 0 0 1.

Definition thread_init : ST kernel unit :=
  do! l := intr_get_level in
  do! _ := assert_ (negb l) in
  do! k := get in
  do! _ := put (with_all (with_ready k []) []) in
  do! t := running_thread in
  do! k := get in
  do! _ := put (mkKernel (threads k) (ready_list k) (all_list k) (idle_thread k) t (running k)
    (intr_on k) (in_external_intr k) (yield_on_return k) (thread_ticks k) (idle_ticks k)
    (kernel_ticks k) (ticks k) (next_tid k)) in
  do! _ := init_thread t [109; 97; 105; 110] PRI_DEFAULT in
  do! _ := write_status t THREAD_RUNNING in
  do! i := allocate_tid in
  do! th := read_thread t in
  do! k := get in
  put (with_threads k (<[t := set_tid th i]> (threads k))).

(** ** Timer interrupt *)

Definition thread_tick : ST kernel unit :=
  do! t := thread_current in
  do! k := get in
  do! _ := put (if t =? idle_thread k
    then with_ticks k (thread_ticks k) (s64 (idle_ticks k + 1)) (kernel_ticks k) (ticks k)
    else with_ticks k (thread_ticks k) (idle_ticks k) (s64 (kernel_ticks k + 1)) (ticks k)) in
  do! k := get in
  let n := u32 (thread_ticks k + 1) in
  do! _ := put (with_ticks k n (idle_ticks k) (kernel_ticks k) (ticks k)) in
  if TIME_SLICE <=? n then intr_yield_on_return else sret tt.

(** [timer_interrupt] of devices/timer.c. *)
Definition timer_interrupt : ST kernel unit :=
  do! k := get in
  do! _ := put (with_ticks k (thread_ticks k) (idle_ticks k) (kernel_ticks k) (s64 (ticks k + 1))) in
  thread_tick.

(** [intr_handler] for the external interrupt [vec_no], entered through an
    interrupt gate (which clears the interrupt flag).  [handler] is the
    registered function, if any.  The result tells whether it yielded: then
    the CPU is now running another thread and the interrupted thread
    resumes, later, after its [thread_yield]. *)
Definition intr_handler (vec_no : Z) (handler : option (ST kernel unit)) : ST kernel bool :=
  let external := (32 <=? vec_no) && (vec_no <? 48) in
  do! _ := (if external then
      do! l := intr_get_level in
      do! _ := assert_ (negb l) in
      do! c := intr_context in
      do! _ := assert_ (negb c) in
      do! k := get in
      put (with_context k true false)
    else sret tt) in
  do! _ := (match handler with Some f => f | None => sret tt end) in
  if external then
    do! l := intr_get_level in
    do! _ := assert_ (negb l) in
    do! c := intr_context in
    do! _ := assert_ c in
    do! k := get in
    do! _ := put (with_context k false (yield_on_return k)) in
    if yield_on_return k then do! _ := thread_yield in sret true else sret false
  else sret false.

(** ** The scheduler invariant

    [kinv r k]: [r] is the thread that is marked as running (there is none
    in the middle of a switch).  The run queue holds exactly the ready
    threads, except that the idle thread, once it has identified itself,
    never enters it; [all_list] holds exactly the threads that are not
    dying. *)
Record kinv (r : option Z) (k : kernel) : Prop := mkKinv {
  ki_run t th : threads k !! t = Some th -> status th = THREAD_RUNNING <-> r = Some t;
  ki_cur t : r = Some t -> t = running k;
  ki_alive : is_Some (threads k !! running k);
  ki_magic t th : threads k !! t = Some th -> magic th = THREAD_MAGIC /\ t <> NULL;
  ki_ready_nodup : NoDup (ready_list k);
  ki_ready t : t ∈ ready_list k -> exists th, threads k !! t = Some th /\ status th = THREAD_READY;
  ki_ready_all t th : threads k !! t = Some th -> status th = THREAD_READY ->
    t ∈ ready_list k \/ t = idle_thread k;
  ki_all_nodup : NoDup (all_list k);
  ki_all t : t ∈ all_list k <-> exists th, threads k !! t = Some th /\ status th <> THREAD_DYING;
  ki_idle : idle_thread k <> NULL -> idle_thread k ∈ all_list k /\ (idle_thread k ∉ ready_list k)
}.

(** A thread is running and the scheduler can always find another one: the
    idle thread exists. *)
Definition kernel_ok (k : kernel) : Prop := kinv (Some (running k)) k /\ idle_thread k <> NULL.

Definition next_thread (k : kernel) : Z :=
  match ready_list k with [] => idle_thread k | t :: _ => t end.

(** The effect of [schedule]. *)
Definition switch_to (k : kernel) : kernel :=
  let n := next_thread k in
  let ths := alter (fun th => set_status th THREAD_RUNNING) n (threads k) in
  let dead := match threads k !! running k with
              | Some p => status_eqb (status p) THREAD_DYING && negb (running k =? initial_thread k)
              | None => false
              end in
  mkKernel (if dead then delete (running k) ths else ths)
    (tail (ready_list k)) (all_list k) (idle_thread k) (initial_thread k) n
    (intr_on k) (in_external_intr k) (yield_on_return k) 0 (idle_ticks k)
    (kernel_ticks k) (ticks k) (next_tid k).

Ltac ksimp :=
  cbn [threads ready_list all_list idle_thread initial_thread running intr_on in_external_intr
       yield_on_return thread_ticks idle_ticks kernel_ticks ticks next_tid with_threads with_ready
       with_all with_idle with_running with_intr with_context with_ticks with_next_tid].

Lemma kernel_ext a b :
  threads a = threads b -> ready_list a = ready_list b -> all_list a = all_list b ->
  idle_thread a = idle_thread b -> initial_thread a = initial_thread b -> running a = running b ->
  intr_on a = intr_on b -> in_external_intr a = in_external_intr b ->
  yield_on_return a = yield_on_return b -> thread_ticks a = thread_ticks b ->
  idle_ticks a = idle_ticks b -> kernel_ticks a = kernel_ticks b -> ticks a = ticks b ->
  next_tid a = next_tid b -> a = b.
Proof. destruct a, b. simpl. intros. by subst. Qed.

Lemma insert_alter {A} (f : A -> A) i (m : gmap Z A) x :
  m !! i = Some x -> <[i := f x]> m = alter f i m.
Proof.
  intros H. apply map_eq. intros j. rewrite lookup_insert, lookup_alter.
  case_decide; [subst; by rewrite H|done].
Qed.

Lemma status_eqb_true a b : status_eqb a b = true <-> a = b.
Proof. unfold status_eqb. by rewrite bool_decide_eq_true. Qed.

Lemma status_eqb_false a b : status_eqb a b = false <-> a <> b.
Proof. unfold status_eqb. by rewrite bool_decide_eq_false. Qed.

Lemma run_is_thread r k t : kinv r k -> is_Some (threads k !! t) -> is_thread t k = Ret (true, k).
Proof.
  intros H [th Hth]. unfold is_thread. rewrite Hth. destruct (ki_magic _ _ H _ _ Hth) as [-> Hn].
  by destruct (Z.eqb_spec t NULL).
Qed.

Lemma run_thread_current k : kinv (Some (running k)) k -> thread_current k = Ret (running k, k).
Proof.
  intros H. destruct (ki_alive _ _ H) as [th Hth]. unfold thread_current.
  sstep (eq_refl : running_thread k = Ret (running k, k)).
  sstep (run_is_thread _ _ _ H (ki_alive _ _ H)). sassert by done.
  assert (Hr : read_thread (running k) k = Ret (th, k)) by (unfold read_thread; by rewrite Hth).
  sstep Hr. sassert by (by apply status_eqb_true, (ki_run _ _ H _ _ Hth)). done.
Qed.

Lemma run_write_status k t th s :
  threads k !! t = Some th ->
  write_status t s k = Ret (tt, with_threads k (<[t := set_status th s]> (threads k))).
Proof. intros H. unfold write_status. by rewrite H. Qed.

Lemma run_read_thread k t th : threads k !! t = Some th -> read_thread t k = Ret (th, k).
Proof. intros H. unfold read_thread. by rewrite H. Qed.

(** The next thread is alive, is a thread, and is not dying. *)
Lemma next_alive r k :
  kinv r k -> idle_thread k <> NULL \/ ready_list k <> [] ->
  exists th, threads k !! next_thread k = Some th /\ status th <> THREAD_DYING.
Proof.
  intros H Hn. unfold next_thread. destruct (ready_list k) as [|t rest] eqn:E.
  - destruct Hn as [Hn|]; [|done]. apply (ki_all _ _ H). by apply (ki_idle _ _ H).
  - destruct (ki_ready _ _ H t) as (th & Ht & Hs); [rewrite E; set_solver|].
    exists th. split; [done|]. by rewrite Hs.
Qed.

Lemma run_schedule k :
  kinv None k -> intr_on k = false -> idle_thread k <> NULL \/ ready_list k <> [] ->
  schedule k = Ret (tt, switch_to k).
Proof.
  intros H Hoff Hn. destruct (next_alive _ _ H Hn) as (nt & Hnt & Hnd).
  destruct (ki_alive _ _ H) as [c Hc].
  assert (Hcs : status c <> THREAD_RUNNING) by (intros Hs; by apply (ki_run _ _ H _ _ Hc) in Hs).
  set (k1 := with_ready k (tail (ready_list k))).
  assert (Hnx : next_thread_to_run k = Ret (next_thread k, k1)).
  { unfold next_thread_to_run, next_thread, k1. destruct (ready_list k) eqn:E; [|done].
    simpl. unfold with_ready. rewrite <- E. by destruct k. }
  unfold schedule. sstep (eq_refl : running_thread k = Ret (running k, k)). sstep Hnx.
  sstep (eq_refl : intr_get_level k1 = Ret (intr_on k, k1)). sassert by (by rewrite Hoff).
  sstep (run_read_thread k1 (running k) c Hc). sassert by (by apply negb_true_iff, status_eqb_false).
  assert (Hit : is_thread (next_thread k) k1 = Ret (true, k1)).
  { unfold is_thread. simpl. rewrite Hnt. destruct (ki_magic _ _ H _ _ Hnt) as [-> Hx].
    by destruct (Z.eqb_spec (next_thread k) NULL). }
  sstep Hit. sassert by done. unfold switch_to. rewrite Hc.
  destruct (Z.eqb_spec (running k) (next_thread k)) as [He|Hne]; cbn [negb].
  - assert (c = nt) as -> by (rewrite <- He in Hnt; congruence).
    destruct (status_eqb (status nt) THREAD_DYING) eqn:Ed; [by apply status_eqb_true in Ed|]. simpl.
    unfold thread_schedule_tail. sstep (eq_refl : running_thread k1 = Ret (running k, k1)).
    sstep (eq_refl : intr_get_level k1 = Ret (intr_on k, k1)). sassert by (by rewrite Hoff).
    sstep (run_write_status k1 (running k) nt THREAD_RUNNING Hc).
    unfold sbind, get, put, sret. simpl. do 2 f_equal.
    rewrite He, (insert_alter (fun th => set_status th THREAD_RUNNING) _ _ _ Hnt), <- He. done.
  - set (k2 := with_running k1 (next_thread k)).
    sstep (eq_refl : get k1 = Ret (k1, k1)). sstep (eq_refl : put k2 k1 = Ret (tt, k2)).
    unfold thread_schedule_tail. sstep (eq_refl : running_thread k2 = Ret (next_thread k, k2)).
    sstep (eq_refl : intr_get_level k2 = Ret (intr_on k, k2)). sassert by (by rewrite Hoff).
    sstep (run_write_status k2 (next_thread k) nt THREAD_RUNNING Hnt).
    unfold sbind, get, put, sret, read_thread. simpl.
    destruct (ki_magic _ _ H _ _ Hc) as [_ Hcn]. destruct (Z.eqb_spec (running k) NULL); [done|]. cbn [negb].
    unfold k2, k1. ksimp. rewrite lookup_insert_ne, Hc by congruence.
    rewrite (insert_alter (fun th => set_status th THREAD_RUNNING) _ _ _ Hnt).
    ksimp. destruct (status_eqb (status c) THREAD_DYING && negb (running k =? initial_thread k)); [|done].
    cbv beta iota. unfold assert_, lift, ASSERT. destruct (Z.eqb_spec (running k) (next_thread k)); done.
Qed.

(** A thread of the switched state is an old thread, not the freed one, with
    its status changed to running if it is the next thread. *)
Lemma switch_lookup r k t th' :
  kinv r k -> idle_thread k <> NULL \/ ready_list k <> [] ->
  threads (switch_to k) !! t = Some th' ->
  exists th, threads k !! t = Some th /\ (t = next_thread k -> th' = set_status th THREAD_RUNNING) /\
    (t <> next_thread k -> th' = th).
Proof.
  intros H Hn. unfold switch_to. cbn [threads]. intros Ht.
  assert (alter (fun th => set_status th THREAD_RUNNING) (next_thread k) (threads k) !! t = Some th') as Ha.
  { destruct (match threads k !! running k with Some p => _ | None => _ end); [|done].
    rewrite lookup_delete in Ht. by case_decide. }
  rewrite lookup_alter in Ha. case_decide as Hd.
  - subst t. destruct (threads k !! next_thread k) as [th|]; [|done]. injection Ha as <-. exists th. done.
  - exists th'. split_and!; [done| |done]. congruence.
Qed.

Lemma switch_keep k t th :
  kinv None k -> idle_thread k <> NULL \/ ready_list k <> [] ->
  threads k !! t = Some th -> status th <> THREAD_DYING ->
  threads (switch_to k) !! t =
    Some (if bool_decide (t = next_thread k) then set_status th THREAD_RUNNING else th).
Proof.
  intros H Hn Ht Hs. unfold switch_to. cbn [threads].
  assert (Ha : alter (fun th => set_status th THREAD_RUNNING) (next_thread k) (threads k) !! t =
    Some (if bool_decide (t = next_thread k) then set_status th THREAD_RUNNING else th)).
  { rewrite lookup_alter. case_decide as Hd.
    - subst. by rewrite Ht, bool_decide_true.
    - by rewrite Ht, bool_decide_false by congruence. }
  destruct (threads k !! running k) as [p|] eqn:Hp; [|done].
  destruct (status_eqb (status p) THREAD_DYING && negb (running k =? initial_thread k)) eqn:E; [|done].
  rewrite lookup_delete_ne; [done|]. intros <-. apply andb_prop in E as [E _].
  apply status_eqb_true in E. congruence.
Qed.

Lemma kinv_switch k :
  kinv None k -> idle_thread k <> NULL \/ ready_list k <> [] ->
  kinv (Some (next_thread k)) (switch_to k).
Proof.
  intros H Hn. destruct (next_alive _ _ H Hn) as (nt & Hnt & Hnd).
  assert (Hnr : forall t, t ∈ tail (ready_list k) -> t ∈ ready_list k /\ t <> next_thread k).
  { intros t Ht. pose proof (ki_ready_nodup _ _ H) as Hd. unfold next_thread.
    destruct (ready_list k) as [|x l]; [set_solver|]. apply NoDup_cons in Hd. set_solver. }
  split.
  - intros t th' Ht. destruct (switch_lookup _ _ _ _ H Hn Ht) as (th & Hth & H1 & H2).
    destruct (decide (t = next_thread k)) as [->|Hne].
    + rewrite (H1 eq_refl). done.
    + rewrite (H2 Hne). rewrite (ki_run _ _ H _ _ Hth). split; [done|congruence].
  - by intros t [= <-].
  - eexists. by apply switch_keep.
  - intros t th' Ht. destruct (switch_lookup _ _ _ _ H Hn Ht) as (th & Hth & H1 & H2).
    destruct (ki_magic _ _ H _ _ Hth) as [Hm Hz]. split; [|done].
    destruct (decide (t = next_thread k)) as [E|E]; [rewrite (H1 E)|rewrite (H2 E)]; done.
  - pose proof (ki_ready_nodup _ _ H) as Hd. unfold switch_to. cbn [ready_list].
    destruct (ready_list k); [done|]. by apply NoDup_cons in Hd as [_ ?].
  - intros t Ht. destruct (Hnr t Ht) as [Hr Hne]. destruct (ki_ready _ _ H t Hr) as (th & Hth & Hs).
    exists th. split; [|done]. rewrite (switch_keep _ _ _ H Hn Hth) by congruence.
    by rewrite bool_decide_false.
  - intros t th' Ht Hs. destruct (switch_lookup _ _ _ _ H Hn Ht) as (th & Hth & H1 & H2).
    destruct (decide (t = next_thread k)) as [E|E]; [rewrite (H1 E) in Hs; done|].
    rewrite (H2 E) in Hs. destruct (ki_ready_all _ _ H _ _ Hth Hs) as [Hr|]; [left|by right].
    unfold switch_to, next_thread in *. cbn [ready_list]. destruct (ready_list k); set_solver.
  - apply (ki_all_nodup _ _ H).
  - intros t. cbn [switch_to all_list]. rewrite (ki_all _ _ H). split.
    + intros (th & Hth & Hs). eexists. split; [by apply switch_keep|]. by case_bool_decide.
    + intros (th' & Ht & Hs). destruct (switch_lookup _ _ _ _ H Hn Ht) as (th & Hth & H1 & H2).
      exists th. split; [done|]. destruct (decide (t = next_thread k)) as [->|E]; [congruence|].
      by rewrite (H2 E) in Hs.
  - cbn [switch_to idle_thread all_list ready_list]. intros Hi. destruct (ki_idle _ _ H Hi). split; [done|].
    intros Hx. by apply Hnr in Hx as [? _].
Qed.

(** *** Leaving the CPU *)

Definition set_current (k : kernel) (s : thread_status) : gmap Z thread :=
  alter (fun th => set_status th s) (running k) (threads k).

Lemma set_current_lookup k s t :
  set_current k s !! t =
    if decide (running k = t) then (fun th => set_status th s) <$> threads k !! t else threads k !! t.
Proof. unfold set_current. rewrite lookup_alter. by case_decide; [subst|]. Qed.

Ltac cur_cases t :=
  rewrite set_current_lookup; destruct (decide (running _ = t)) as [<-|Hne].

(** The state in which the running thread has the new status [s] and the
    queues are [rl] and [al]. *)
Definition leave (k : kernel) (s : thread_status) (rl al : list Z) : kernel :=
  with_all (with_ready (with_threads k (set_current k s)) rl) al.

Lemma kinv_leave k s rl al :
  kinv (Some (running k)) k -> s <> THREAD_RUNNING ->
  NoDup rl -> NoDup al ->
  (forall t, t ∈ rl <-> t ∈ ready_list k \/ (t = running k /\ s = THREAD_READY /\ t <> idle_thread k)) ->
  (forall t, t ∈ al <-> t ∈ all_list k /\ ~ (t = running k /\ s = THREAD_DYING)) ->
  (s = THREAD_DYING -> running k <> idle_thread k) ->
  kinv None (leave k s rl al).
Proof.
  intros H Hs Hd1 Hd2 Hrl Hal Hdy. destruct (ki_alive _ _ H) as [c Hc].
  assert (Hcr : status c = THREAD_RUNNING) by (by apply (ki_run _ _ H _ _ Hc)).
  assert (Hnr : running k ∉ ready_list k).
  { intros Hx. destruct (ki_ready _ _ H _ Hx) as (th & Hth & Hst). congruence. }
  split; unfold leave; ksimp; try done.
  - intros t th. cur_cases t.
    + rewrite Hc. intros [= <-]. simpl. split; [done|congruence].
    + intros Ht. rewrite (ki_run _ _ H _ _ Ht). split; [congruence|done].
  - by rewrite set_current_lookup, decide_True, Hc by done.
  - intros t th. cur_cases t.
    + rewrite Hc. intros [= <-]. simpl. apply (ki_magic _ _ H _ _ Hc).
    + apply (ki_magic _ _ H).
  - intros t [Ht|(-> & -> & _)]%Hrl.
    + rewrite set_current_lookup, decide_False by congruence. by apply (ki_ready _ _ H).
    + rewrite set_current_lookup, decide_True, Hc by done. simpl. eauto.
  - intros t th. cur_cases t.
    + rewrite Hc. intros [= <-]. simpl. intros ->. rewrite Hrl.
      destruct (decide (running k = idle_thread k)); [by right|left; right; done].
    + intros Ht Hst. destruct (ki_ready_all _ _ H _ _ Ht Hst); [|by right]. left. rewrite Hrl. by left.
  - intros t. rewrite Hal, (ki_all _ _ H). cur_cases t.
    + rewrite Hc. split.
      * intros [_ Hn]. eexists. split; [done|]. simpl. tauto.
      * intros (th & [= <-] & Hx). simpl in Hx. split; [|tauto]. exists c. split; [done|congruence].
    + split; [intros [? _]; done|]. intros Hx. split; [done|]. intros [-> _]. done.
  - intros Hi. destruct (ki_idle _ _ H Hi) as [Hi1 Hi2]. split.
    + rewrite Hal. split; [done|]. intros [He Hsd]. symmetry in He. by apply Hdy.
    + rewrite Hrl. intros [|(_ & _ & ?)]; done.
Qed.

Lemma running_not_ready k : kinv (Some (running k)) k -> running k ∉ ready_list k.
Proof.
  intros H Hx. destruct (ki_alive _ _ H) as [c Hc]. destruct (ki_ready _ _ H _ Hx) as (th & Hth & Hst).
  assert (status c = THREAD_RUNNING) by (by apply (ki_run _ _ H _ _ Hc)). congruence.
Qed.

Lemma write_current k th s :
  threads k !! running k = Some th ->
  write_status (running k) s k = Ret (tt, with_threads k (set_current k s)).
Proof.
  intros H. rewrite (run_write_status _ _ _ _ H). do 2 f_equal. unfold set_current.
  by rewrite (insert_alter (fun th => set_status th s) _ _ _ H).
Qed.

Lemma kernel_ok_switch k' : kinv None k' -> idle_thread k' <> NULL -> kernel_ok (switch_to k').
Proof.
  intros H Hi. split; [|done]. change (running (switch_to k')) with (next_thread k').
  apply kinv_switch; [done|by left].
Qed.

Lemma kernel_ok_leave_block k : kernel_ok k ->
  kinv None (leave k THREAD_BLOCKED (ready_list k) (all_list k)).
Proof.
  intros [H Hi]. apply kinv_leave; try done; [apply (ki_ready_nodup _ _ H)|apply (ki_all_nodup _ _ H)| |].
  - intros t. split; [by left|]. intros [|(_ & ? & _)]; done.
  - intros t. split; [intros ?; split; [done|]; intros [_ ?]; done|by intros [? _]].
Qed.

Lemma run_thread_block k :
  kernel_ok k -> intr_on k = false -> in_external_intr k = false ->
  thread_block k = Ret (tt, switch_to (leave k THREAD_BLOCKED (ready_list k) (all_list k))) /\
  kernel_ok (switch_to (leave k THREAD_BLOCKED (ready_list k) (all_list k))).
Proof.
  intros Hok Hoff Hctx. pose proof Hok as [H Hi]. destruct (ki_alive _ _ H) as [c Hc].
  pose proof (kernel_ok_leave_block k Hok) as Hl. split; [|by apply kernel_ok_switch].
  unfold thread_block. sstep (eq_refl : intr_context k = Ret (in_external_intr k, k)).
  sassert by (by rewrite Hctx). sstep (eq_refl : intr_get_level k = Ret (intr_on k, k)).
  sassert by (by rewrite Hoff). sstep (run_thread_current k H). sstep (write_current k c THREAD_BLOCKED Hc).
  change (with_threads k (set_current k THREAD_BLOCKED)) with
    (leave k THREAD_BLOCKED (ready_list k) (all_list k)).
  apply run_schedule; [done|done|by left].
Qed.

(** The run queue after a yield: the running thread goes to the back, unless
    it is the idle thread. *)
Definition yield_queue (k : kernel) : list Z :=
  if running k =? idle_thread k then ready_list k else ready_list k ++ [running k].

Lemma kernel_ok_leave_yield k lv : kernel_ok k ->
  kinv None (leave (with_intr k lv) THREAD_READY (yield_queue k) (all_list k)).
Proof.
  intros [H Hi]. pose proof (running_not_ready k H) as Hnr.
  assert (H' : kinv (Some (running (with_intr k lv))) (with_intr k lv)) by (by destruct H).
  apply kinv_leave; try done; ksimp; unfold yield_queue.
  - pose proof (ki_ready_nodup _ _ H). destruct (running k =? idle_thread k); [done|].
    apply NoDup_app. split_and!; [done| |repeat constructor; set_solver]. set_solver.
  - apply (ki_all_nodup _ _ H).
  - intros t. destruct (Z.eqb_spec (running k) (idle_thread k)) as [E|E].
    + split; [by left|]. intros [|(-> & _ & ?)]; [done|]. congruence.
    + rewrite elem_of_app, list_elem_of_singleton. split; [intros [?| ->]; [by left|right; done]|].
      intros [|(-> & _)]; [by left|by right].
  - intros t. split; [intros ?; split; [done|]; intros [_ ?]; done|by intros [? _]].
Qed.

Lemma run_thread_yield k :
  kernel_ok k -> in_external_intr k = false ->
  thread_yield k = Ret (intr_on k,
    switch_to (leave (with_intr k false) THREAD_READY (yield_queue k) (all_list k))) /\
  kernel_ok (switch_to (leave (with_intr k false) THREAD_READY (yield_queue k) (all_list k))).
Proof.
  intros Hok Hctx. pose proof Hok as [H Hi]. destruct (ki_alive _ _ H) as [c Hc].
  pose proof (kernel_ok_leave_yield k false Hok) as Hl.
  split; [|by apply kernel_ok_switch].
  unfold thread_yield. sstep (run_thread_current k H).
  sstep (eq_refl : intr_context k = Ret (in_external_intr k, k)). sassert by (by rewrite Hctx).
  set (k1 := with_intr k false).
  sstep (eq_refl : intr_disable k = Ret (intr_on k, k1)). sstep (eq_refl : get k1 = Ret (k1, k1)).
  set (k2 := with_ready k1 (yield_queue k)).
  assert (Hq : (if negb (running k =? idle_thread k1)
                then put (with_ready k1 (ready_list k1 ++ [running k])) else sret tt) k1 = Ret (tt, k2)).
  { unfold k2, yield_queue. change (idle_thread k1) with (idle_thread k).
    destruct (running k =? idle_thread k); done. }
  sstep Hq. sstep (write_current k2 c THREAD_READY Hc).
  assert (Hs := run_schedule (leave k1 THREAD_READY (yield_queue k) (all_list k)) Hl eq_refl (or_introl Hi)).
  by sstep Hs.
Qed.

Lemma elem_of_remove (x y : Z) l : x ∈ List.remove Z.eq_dec y l <-> x ∈ l /\ x <> y.
Proof.
  induction l as [|a l IH]; simpl; [set_solver|]. destruct (Z.eq_dec y a); set_solver.
Qed.

Lemma NoDup_remove_all (y : Z) l : NoDup l -> NoDup (List.remove Z.eq_dec y l).
Proof.
  induction 1 as [|a l Ha Hl IH]; simpl; [constructor|]. destruct (Z.eq_dec y a); [done|].
  constructor; [|done]. rewrite elem_of_remove. tauto.
Qed.

Definition exit_all (k : kernel) : list Z := List.remove Z.eq_dec (running k) (all_list k).

Lemma run_thread_exit k :
  kernel_ok k -> in_external_intr k = false -> running k <> idle_thread k ->
  thread_exit k = Ret (tt, switch_to (leave (with_intr k false) THREAD_DYING (ready_list k) (exit_all k))) /\
  kernel_ok (switch_to (leave (with_intr k false) THREAD_DYING (ready_list k) (exit_all k))).
Proof.
  intros Hok Hctx Hne. pose proof Hok as [H Hi]. destruct (ki_alive _ _ H) as [c Hc].
  assert (Hcr : status c = THREAD_RUNNING) by (by apply (ki_run _ _ H _ _ Hc)).
  set (k1 := with_intr k false).
  assert (H1 : kinv (Some (running k1)) k1) by (by destruct H).
  assert (Hl : kinv None (leave k1 THREAD_DYING (ready_list k) (exit_all k))).
  { apply kinv_leave; try done; [apply (ki_ready_nodup _ _ H)|apply NoDup_remove_all, (ki_all_nodup _ _ H)| |].
    - intros t. split; [by left|]. intros [|(_ & ? & _)]; done.
    - intros t. unfold exit_all. rewrite elem_of_remove. unfold k1. ksimp. tauto. }
  split; [|by apply kernel_ok_switch].
  unfold thread_exit. sstep (eq_refl : intr_context k = Ret (in_external_intr k, k)).
  sassert by (by rewrite Hctx). sstep (eq_refl : intr_disable k = Ret (intr_on k, k1)).
  sstep (run_thread_current k1 H1). set (k2 := with_all k1 (exit_all k)).
  assert (Hr : remove_all (running k1) k1 = Ret (tt, k2)).
  { unfold remove_all. rewrite bool_decide_true; [done|]. apply (ki_all _ _ H). exists c.
    split; [done|congruence]. }
  sstep Hr.
  assert (Hc2 : thread_current k2 = Ret (running k, k2)).
  { unfold thread_current. sstep (eq_refl : running_thread k2 = Ret (running k, k2)).
    assert (Hit : is_thread (running k) k2 = Ret (true, k2)).
    { pose proof (run_is_thread _ _ _ H (ki_alive _ _ H)) as Hx. unfold is_thread in *.
      change (threads k2) with (threads k). congruence. }
    sstep Hit. sassert by done. sstep (run_read_thread k2 (running k) c Hc).
    sassert by (by apply status_eqb_true). done. }
  sstep Hc2. sstep (write_current k2 c THREAD_DYING Hc).
  apply run_schedule; [done|done|by left].
Qed.

(** *** Waking a thread, creating a thread *)

(** The level can be restored whenever it is off or no external interrupt is
    being handled. *)
Lemma run_set_level k lv :
  (lv = true -> in_external_intr k = false) -> exists o, intr_set_level lv k = Ret (o, with_intr k lv).
Proof.
  intros H. destruct lv; [|eexists; done]. eexists. unfold intr_set_level, intr_enable, sbind, get, put.
  simpl. rewrite H by done. done.
Qed.

Definition unblocked (k : kernel) (t : Z) : kernel :=
  with_ready (with_threads k (alter (fun th => set_status th THREAD_READY) t (threads k)))
    (ready_list k ++ [t]).

Lemma run_thread_unblock r k t th :
  kinv r k -> threads k !! t = Some th -> status th = THREAD_BLOCKED ->
  (intr_on k = true -> in_external_intr k = false) ->
  thread_unblock t k = Ret (tt, unblocked k t).
Proof.
  intros H Ht Hs Hl. unfold thread_unblock.
  sstep (run_is_thread _ _ _ H (mk_is_Some _ _ Ht)). sassert by done.
  set (k1 := with_intr k false). sstep (eq_refl : intr_disable k = Ret (intr_on k, k1)).
  sstep (run_read_thread k1 t th Ht). sassert by (by apply status_eqb_true).
  sstep (eq_refl : get k1 = Ret (k1, k1)). set (k2 := with_ready k1 (ready_list k1 ++ [t])).
  sstep (eq_refl : put k2 k1 = Ret (tt, k2)).
  sstep (run_write_status k2 t th THREAD_READY Ht).
  set (k3 := with_threads k2 (<[t := set_status th THREAD_READY]> (threads k2))).
  destruct (run_set_level k3 (intr_on k) Hl) as [o Ho]. sstep Ho. unfold sret. do 2 f_equal.
  unfold k3, k2, k1, unblocked, with_intr, with_threads, with_ready. simpl. f_equal.
  by rewrite (insert_alter (fun th => set_status th THREAD_READY) _ _ _ Ht).
Qed.

Lemma kinv_unblocked r k t th :
  kinv r k -> threads k !! t = Some th -> status th = THREAD_BLOCKED -> t <> idle_thread k ->
  kinv r (unblocked k t).
Proof.
  intros H Ht Hs Hi.
  assert (Hnr : t ∉ ready_list k).
  { intros Hx. destruct (ki_ready _ _ H _ Hx) as (th' & Hth & Hst). congruence. }
  assert (Hlk : forall x, threads (unblocked k t) !! x =
    if decide (t = x) then (fun th => set_status th THREAD_READY) <$> threads k !! x else threads k !! x).
  { intros x. unfold unblocked. ksimp. rewrite lookup_alter. by case_decide; [subst|]. }
  assert (Hrt : r <> Some t) by (rewrite <- (ki_run _ _ H _ _ Ht); congruence).
  split; try (intros x th'; rewrite Hlk; destruct (decide (t = x)) as [<-|Hne];
      [rewrite Ht; intros [= <-]; simpl|]).
  - split; [done|congruence].
  - apply (ki_run _ _ H).
  - apply (ki_cur _ _ H).
  - rewrite Hlk. pose proof (ki_alive _ _ H). case_decide; [by apply fmap_is_Some|done].
  - apply (ki_magic _ _ H _ _ Ht).
  - apply (ki_magic _ _ H).
  - unfold unblocked. ksimp. apply NoDup_app. split_and!; [apply (ki_ready_nodup _ _ H)| |repeat constructor; set_solver].
    set_solver.
  - intros x. change (ready_list (unblocked k t)) with (ready_list k ++ [t]). rewrite Hlk.
    rewrite elem_of_app, list_elem_of_singleton. intros [Hx| ->].
    + rewrite decide_False by congruence. by apply (ki_ready _ _ H).
    + rewrite decide_True, Ht by done. simpl. eauto.
  - intros _. left. change (ready_list (unblocked k t)) with (ready_list k ++ [t]). set_solver.
  - intros Hx Hst. destruct (ki_ready_all _ _ H _ _ Hx Hst); [left|by right].
    change (ready_list (unblocked k t)) with (ready_list k ++ [t]). set_solver.
  - apply (ki_all_nodup _ _ H).
  - intros x. change (all_list (unblocked k t)) with (all_list k). rewrite (ki_all _ _ H), Hlk.
    case_decide; [subst x|done]. rewrite Ht. simpl. split; intros (th' & [= <-] & Hx); eexists; (split; [done|]); simpl; congruence.
  - intros Hn. destruct (ki_idle _ _ H Hn). split; [done|].
    change (ready_list (unblocked k t)) with (ready_list k ++ [t]). set_solver.
Qed.

(** A new thread page [t], blocked, with its identifier and its initial
    stack of three frames. *)
Definition new_thread (nm : list Z) (prio t i : Z) : thread :=
  mkThread i THREAD_BLOCKED (take 15 nm) (t + PGSIZE - 12 - 4 - 28) prio THREAD_MAGIC.

Definition with_new (k : kernel) (t : Z) (th : thread) : kernel :=
  with_next_tid (with_all (with_threads k (<[t := th]> (threads k))) (all_list k ++ [t]))
    (s32 (next_tid k + 1)).

Lemma kinv_new r k t th :
  kinv r k -> threads k !! t = None -> t <> NULL -> magic th = THREAD_MAGIC ->
  status th = THREAD_BLOCKED -> kinv r (with_new k t th).
Proof.
  intros H Ht Hn Hm Hs.
  assert (Hne : forall x th', threads k !! x = Some th' -> t <> x) by (intros; congruence).
  assert (Hlk : forall x, threads (with_new k t th) !! x = if decide (t = x) then Some th else threads k !! x)
    by (intros; unfold with_new; ksimp; apply lookup_insert).
  assert (Hrt : r <> Some t).
  { intros ->. pose proof (ki_cur _ _ H _ eq_refl) as Hx. destruct (ki_alive _ _ H). congruence. }
  split; try (intros x th'; rewrite Hlk; destruct (decide (t = x)) as [<-|Hd]; [intros [= <-]|]).
  - rewrite Hs. split; [done|congruence].
  - apply (ki_run _ _ H).
  - apply (ki_cur _ _ H).
  - rewrite Hlk. pose proof (ki_alive _ _ H). by case_decide.
  - done.
  - apply (ki_magic _ _ H).
  - apply (ki_ready_nodup _ _ H).
  - intros x Hx. rewrite Hlk. destruct (ki_ready _ _ H x Hx) as (th' & Hth & Hst).
    rewrite decide_False by eauto. eauto.
  - congruence.
  - apply (ki_ready_all _ _ H).
  - unfold with_new. ksimp. apply NoDup_app. split_and!; [apply (ki_all_nodup _ _ H)| |repeat constructor; set_solver].
    intros x Hx. apply (ki_all _ _ H) in Hx as (th' & Hth & _). apply Hne in Hth. set_solver.
  - intros x. unfold with_new at 1. ksimp. rewrite Hlk, elem_of_app, list_elem_of_singleton, (ki_all _ _ H).
    case_decide as Hd; [subst x|].
    + split; [intros _; exists th; split; [done|congruence]|by right].
    + split; [intros [|]; [done|congruence]|by left].
  - intros Hi. destruct (ki_idle _ _ H Hi). unfold with_new. ksimp. split; [set_solver|done].
Qed.

Lemma run_alloc_frame k t th size :
  threads k !! t = Some th -> magic th = THREAD_MAGIC -> t <> NULL -> (size mod 4 =? 0) = true ->
  alloc_frame t size k = Ret (stack th - size,
    with_threads k (<[t := set_stack th (stack th - size)]> (threads k))).
Proof.
  intros Ht Hm Hn Hs. unfold alloc_frame.
  assert (Hit : is_thread t k = Ret (true, k)).
  { unfold is_thread. rewrite Ht, Hm. by destruct (Z.eqb_spec t NULL). }
  sstep Hit. sassert by done. sassert by done. sstep (run_read_thread k t th Ht). done.
Qed.

Lemma run_thread_create r k nm prio t :
  kinv r k -> threads k !! t = None -> t <> NULL -> t <> idle_thread k -> PRI_MIN <= prio <= PRI_MAX ->
  (intr_on k = true -> in_external_intr k = false) ->
  thread_create nm prio (Some t) k =
    Ret (next_tid k, unblocked (with_new k t (new_thread nm prio t (next_tid k))) t) /\
  kinv r (unblocked (with_new k t (new_thread nm prio t (next_tid k))) t).
Proof.
  intros H Ht Hn Hi Hp Hl. set (th := new_thread nm prio t (next_tid k)).
  assert (Hnew : kinv r (with_new k t th)) by (by apply kinv_new).
  assert (Hlk : threads (with_new k t th) !! t = Some th) by apply lookup_insert_eq.
  assert (Hun := run_thread_unblock r (with_new k t th) t th Hnew Hlk eq_refl Hl).
  split; [|by eapply kinv_unblocked].
  set (th0 := mkThread 0 THREAD_BLOCKED (take 15 nm) (t + PGSIZE) prio THREAD_MAGIC).
  set (k1 := with_all (with_threads k (<[t := th0]> (threads k))) (all_list k ++ [t])).
  assert (H1 : init_thread t nm prio k = Ret (tt, k1)).
  { unfold init_thread. sassert by (by destruct (Z.eqb_spec t NULL)).
    sassert by (unfold PRI_MIN, PRI_MAX in *; bool_cases; (done || lia)). done. }
  set (k2 := with_next_tid k1 (s32 (next_tid k + 1))).
  assert (H2 : allocate_tid k1 = Ret (next_tid k, k2)) by done.
  unfold thread_create. sstep H1. sstep H2.
  sstep (run_read_thread k2 t th0 (lookup_insert_eq _ _ _)). sstep (eq_refl : get k2 = Ret (k2, k2)).
  set (k3 := with_threads k2 (<[t := set_tid th0 (next_tid k)]> (threads k2))).
  sstep (eq_refl : put k3 k2 = Ret (tt, k3)). set (k4 := with_intr k3 false).
  sstep (eq_refl : intr_disable k3 = Ret (intr_on k, k4)).
  set (th1 := set_tid th0 (next_tid k)). set (th2 := set_stack th1 (stack th1 - 12)).
  set (th3 := set_stack th2 (stack th2 - 4)). set (th4 := set_stack th3 (stack th3 - 28)).
  set (k5 := with_threads k4 (<[t := th2]> (threads k4))).
  set (k6 := with_threads k5 (<[t := th3]> (threads k5))).
  set (k7 := with_threads k6 (<[t := th4]> (threads k6))).
  assert (E4 : threads k4 !! t = Some th1) by (unfold k4, k3; ksimp; apply lookup_insert_eq).
  assert (E5 : threads k5 !! t = Some th2) by (unfold k5; ksimp; apply lookup_insert_eq).
  assert (E6 : threads k6 !! t = Some th3) by (unfold k6; ksimp; apply lookup_insert_eq).
  sstep (run_alloc_frame k4 t th1 12 E4 eq_refl Hn eq_refl).
  sstep (run_alloc_frame k5 t th2 4 E5 eq_refl Hn eq_refl).
  sstep (run_alloc_frame k6 t th3 28 E6 eq_refl Hn eq_refl).
  destruct (run_set_level k7 (intr_on k) Hl) as [o Ho]. sstep Ho.
  assert (with_intr k7 (intr_on k) = with_new k t th) as ->; [|by sstep Hun].
  apply kernel_ext; try reflexivity. change (threads (with_intr k7 (intr_on k))) with
    (<[t := th4]> (<[t := th3]> (<[t := th2]> (<[t := th1]> (<[t := th0]> (threads k)))))).
  by rewrite !insert_insert_eq.
Qed.

Lemma run_thread_create_fail nm prio k : thread_create nm prio None k = Ret (TID_ERROR, k).
Proof. done. Qed.

(** *** The timer interrupt *)

Lemma kernel_ok_ext k k' :
  kernel_ok k -> threads k' = threads k -> ready_list k' = ready_list k -> all_list k' = all_list k ->
  idle_thread k' = idle_thread k -> running k' = running k -> kernel_ok k'.
Proof.
  intros [[] Hi] E1 E2 E3 E4 E5. split; [split|]; rewrite ?E1, ?E2, ?E3, ?E4, ?E5; try done.
Qed.

(** The state after [timer_interrupt] has counted the tick. *)
Definition ticked (k : kernel) : kernel :=
  let idle := running k =? idle_thread k in
  with_ticks k (u32 (thread_ticks k + 1))
    (if idle then s64 (idle_ticks k + 1) else idle_ticks k)
    (if idle then kernel_ticks k else s64 (kernel_ticks k + 1)) (s64 (ticks k + 1)).

Lemma run_timer_interrupt k :
  kernel_ok k -> in_external_intr k = true ->
  timer_interrupt k = Ret (tt,
    if TIME_SLICE <=? u32 (thread_ticks k + 1) then with_context (ticked k) true true else ticked k).
Proof.
  intros [H Hi] Hctx. unfold timer_interrupt.
  set (k1 := with_ticks k (thread_ticks k) (idle_ticks k) (kernel_ticks k) (s64 (ticks k + 1))).
  sstep (eq_refl : get k = Ret (k, k)). sstep (eq_refl : put k1 k = Ret (tt, k1)).
  assert (H1 : kinv (Some (running k1)) k1) by (by destruct H). unfold thread_tick.
  sstep (run_thread_current k1 H1). sstep (eq_refl : get k1 = Ret (k1, k1)).
  unfold sbind, put, get. change (idle_thread k1) with (idle_thread k). change (running k1) with (running k).
  unfold ticked. destruct (running k =? idle_thread k); unfold k1; ksimp;
    (destruct (TIME_SLICE <=? u32 (thread_ticks k + 1)); [|done]);
    unfold intr_yield_on_return, sbind, intr_context, assert_, lift, get, put; ksimp; rewrite Hctx; cbn [ASSERT];
    do 2 f_equal; apply kernel_ext; try done; ksimp; by rewrite Hctx.
Qed.

Lemma run_intr_handler_timer k :
  kernel_ok k -> intr_on k = false -> in_external_intr k = false ->
  let k1 := with_context (ticked k) false (TIME_SLICE <=? u32 (thread_ticks k + 1)) in
  intr_handler 32 (Some timer_interrupt) k =
    (if TIME_SLICE <=? u32 (thread_ticks k + 1)
     then Ret (true, switch_to (leave k1 THREAD_READY (yield_queue k1) (all_list k1)))
     else Ret (false, k1)).
Proof.
  intros Hok Hoff Hctx k1. unfold intr_handler. change ((32 <=? 32) && (32 <? 48)) with true. cbv iota.
  set (k2 := with_context k true false).
  assert (Hpro : (do! l := intr_get_level in do! _ := assert_ (negb l) in do! c := intr_context in
      do! _ := assert_ (negb c) in do! k0 := get in put (with_context k0 true false)) k = Ret (tt, k2)).
  { unfold sbind, intr_get_level, assert_, lift. rewrite Hoff. simpl. by rewrite Hctx. }
  sstep Hpro. assert (Hok2 : kernel_ok k2) by (by apply (kernel_ok_ext k)).
  sstep (run_timer_interrupt k2 Hok2 eq_refl). change (thread_ticks k2) with (thread_ticks k).
  destruct (TIME_SLICE <=? u32 (thread_ticks k + 1)) eqn:E.
  - set (k3 := with_context (ticked k2) true true).
    sstep (eq_refl : intr_get_level k3 = Ret (intr_on k, k3)). sassert by (by rewrite Hoff).
    sstep (eq_refl : intr_context k3 = Ret (true, k3)). sassert by done.
    sstep (eq_refl : get k3 = Ret (k3, k3)).
    assert (Hk : with_context k3 false (yield_on_return k3) = k1) by done. rewrite Hk.
    sstep (eq_refl : put k1 k3 = Ret (tt, k1)). change (yield_on_return k3) with true. cbv iota.
    assert (Hok1 : kernel_ok k1) by (by apply (kernel_ok_ext k)).
    destruct (run_thread_yield k1 Hok1 eq_refl) as [Hy _]. sstep Hy.
    assert (with_intr k1 false = k1) as ->; [|done]. apply kernel_ext; try done.
  - set (k3 := ticked k2). sstep (eq_refl : intr_get_level k3 = Ret (intr_on k, k3)).
    sassert by (by rewrite Hoff). sstep (eq_refl : intr_context k3 = Ret (true, k3)). sassert by done.
    sstep (eq_refl : get k3 = Ret (k3, k3)).
    assert (Hk : with_context k3 false (yield_on_return k3) = k1) by done. by rewrite Hk.
Qed.

(** *** Round robin *)

(** [n] consecutive yields, each by the thread that the previous one
    switched to. *)
Fixpoint yields (n : nat) (k : kernel) : outcome kernel :=
  match n with
  | O => Ret k
  | S n' => match thread_yield k with Ret (_, k') => yields n' k' | Err e => Err e end
  end.

Lemma yield_next k q : ready_list k = q :: tail (ready_list k) -> next_thread k = q.
Proof. unfold next_thread. intros ->. done. Qed.

Lemma yields_reach n k t :
  kernel_ok k -> in_external_intr k = false -> running k <> idle_thread k ->
  ready_list k !! n = Some t -> exists k', yields (S n) k = Ret k' /\ kernel_ok k' /\ running k' = t.
Proof.
  revert k. induction n as [|n IH]; intros k Hok Hctx Hne Ht.
  - destruct (run_thread_yield k Hok Hctx) as [Hy Hok']. simpl. rewrite Hy. eexists.
    split; [done|]. split; [done|]. unfold switch_to. cbn [running]. unfold next_thread, leave. ksimp.
    unfold yield_queue. destruct (Z.eqb_spec (running k) (idle_thread k)); [done|].
    destruct (ready_list k); [done|]. simpl in *. congruence.
  - destruct (run_thread_yield k Hok Hctx) as [Hy Hok']. cbn [yields]. rewrite Hy.
    set (k1 := switch_to (leave (with_intr k false) THREAD_READY (yield_queue k) (all_list k))) in *.
    assert (Hr1 : ready_list k1 = tail (ready_list k ++ [running k])).
    { unfold k1, switch_to, leave. ksimp. unfold yield_queue.
      by destruct (Z.eqb_spec (running k) (idle_thread k)). }
    destruct (ready_list k) as [|a rest] eqn:E; [done|]. cbn [tail app] in Hr1. simpl in Ht.
    apply (IH k1); [done|done| |].
    + assert (running k1 = a) as ->.
      { unfold k1, switch_to. cbn [running]. unfold next_thread, leave. ksimp. unfold yield_queue.
        rewrite E. by destruct (Z.eqb_spec (running k) (idle_thread k)). }
      intros Hx. destruct Hok as [Hk Hi]. destruct (ki_idle _ _ Hk Hi) as [_ Hin]. apply Hin.
      rewrite E. change (idle_thread k1) with (idle_thread k) in Hx. rewrite <- Hx. by left.
    + rewrite Hr1. apply lookup_app_l_Some. done.
Qed.

(** ** Theorems *)

(** C13: the scheduler invariant.  In a kernel that satisfies it (one running
    thread, the run queue holding exactly the ready threads, the idle thread
    never queued, [all_list] holding exactly the threads that are not
    dying), [thread_block], [thread_yield], [thread_exit], [thread_unblock]
    of a blocked thread and [thread_create] run without tripping any
    assertion and preserve it. *)
Theorem scheduler_invariant k :
  kernel_ok k -> in_external_intr k = false ->
  (intr_on k = false -> exists k', thread_block k = Ret (tt, k') /\ kernel_ok k') /\
  (exists k', thread_yield k = Ret (intr_on k, k') /\ kernel_ok k') /\
  (running k <> idle_thread k -> exists k', thread_exit k = Ret (tt, k') /\ kernel_ok k' /\
     running k' <> running k) /\
  (forall t th, threads k !! t = Some th -> status th = THREAD_BLOCKED -> t <> idle_thread k ->
     exists k', thread_unblock t k = Ret (tt, k') /\ kernel_ok k') /\
  (forall nm prio t, threads k !! t = None -> t <> NULL -> t <> idle_thread k ->
     PRI_MIN <= prio <= PRI_MAX ->
     exists k', thread_create nm prio (Some t) k = Ret (next_tid k, k') /\ kernel_ok k').
Proof.
  intros Hok Hctx. pose proof Hok as [H Hi]. split_and!.
  - intros Hoff. destruct (run_thread_block k Hok Hoff Hctx). eauto.
  - destruct (run_thread_yield k Hok Hctx). eauto.
  - intros Hne. destruct (run_thread_exit k Hok Hctx Hne) as [He Hk]. eexists. split_and!; [done|done|].
    unfold switch_to. cbn [running]. unfold next_thread, leave. ksimp.
    destruct (ready_list k) as [|a l] eqn:E; [congruence|]. intros Hx.
    apply (running_not_ready k H). rewrite E, <- Hx. by left.
  - intros t th Ht Hs Hne. eexists. split; [by eapply run_thread_unblock|].
    split; [|done]. by eapply (kinv_unblocked (Some (running k))).
  - intros nm prio t Ht Hn Hne Hp. destruct (run_thread_create (Some (running k)) k nm prio t) as [Hc Hk];
      [done..|]. eexists. split; [done|]. by split.
Qed.

(** A kernel with the thread at 4096 running, the thread at 8192 ready, the
    thread at 12288 blocked and the idle thread at 16384. *)
Definition demo_kernel : kernel :=
  let th i s := mkThread i s [] 0 31 THREAD_MAGIC in
  mkKernel {[ 4096 := th 1 THREAD_RUNNING; 8192 := th 2 THREAD_READY;
              12288 := th 3 THREAD_BLOCKED; 16384 := th 4 THREAD_BLOCKED ]}
    [8192] [4096; 8192; 12288; 16384] 16384 4096 4096 false false false 0 0 0 0 5.

Lemma demo_lookup t th :
  threads demo_kernel !! t = Some th ->
  (t = 4096 /\ status th = THREAD_RUNNING \/ t = 8192 /\ status th = THREAD_READY \/
   (t = 12288 \/ t = 16384) /\ status th = THREAD_BLOCKED) /\ magic th = THREAD_MAGIC.
Proof.
  simpl. rewrite !lookup_insert, lookup_singleton.
  repeat case_decide; intros [= <-]; subst; simpl; split; try done; auto 10.
Qed.

Lemma demo_kernel_ok : kernel_ok demo_kernel.
Proof.
  split; [split|done].
  - intros t th Ht. destruct (demo_lookup t th Ht) as [[[-> ->]|[[-> ->]|[Hx ->]]] _]; split; try done.
    intros [= <-]. lia.
  - by intros t [= <-].
  - eexists. vm_compute. reflexivity.
  - intros t th Ht. destruct (demo_lookup t th Ht) as [Hx Hm]. split; [done|]. unfold NULL. lia.
  - repeat constructor; set_solver.
  - intros t ->%list_elem_of_singleton. eexists. split; [vm_compute; reflexivity|done].
  - intros t th Ht Hs. destruct (demo_lookup t th Ht) as [[[-> Hx]|[[-> Hx]|[_ Hx]]] _]; try congruence.
    left. by apply list_elem_of_singleton.
  - simpl. repeat constructor; set_solver.
  - intros t. split.
    + simpl. rewrite !elem_of_cons. intros [->|[->|[->|[->|[]%elem_of_nil]]]];
        (eexists; split; [vm_compute; reflexivity|done]).
    + intros (th & Ht & _). destruct (demo_lookup t th Ht) as [Hx _]. simpl. set_solver by lia.
  - intros _. split; simpl; set_solver.
Qed.

Lemma scheduler_invariant_witness :
  kernel_ok demo_kernel /\ exists k', thread_block demo_kernel = Ret (tt, k') /\ running k' = 8192.
Proof.
  split; [exact demo_kernel_ok|].
  destruct (scheduler_invariant demo_kernel demo_kernel_ok eq_refl) as (Hb & _).
  destruct (Hb eq_refl) as (k' & Hk & _). exists k'. split; [exact Hk|].
  vm_compute in Hk. injection Hk as <-. reflexivity.
Defined.

(** C15: round robin.  When the threads keep yielding, the thread at position
    [n] of the run queue runs after [n + 1] yields: no ready thread waits for
    more turns than there are threads before it. *)
Theorem round_robin_bounded_wait k n t :
  kernel_ok k -> in_external_intr k = false -> running k <> idle_thread k ->
  ready_list k !! n = Some t ->
  exists k', yields (S n) k = Ret k' /\ kernel_ok k' /\ running k' = t.
Proof. apply yields_reach. Qed.

Lemma round_robin_bounded_wait_witness :
  exists k', yields 1 demo_kernel = Ret k' /\ running k' = 8192.
Proof.
  destruct (round_robin_bounded_wait demo_kernel 0 8192 demo_kernel_ok eq_refl) as (k' & H1 & _ & H2).
  - done.
  - reflexivity.
  - exists k'. split; assumption.
Defined.

(** Time slices.  A timer interrupt counts one tick and returns to the
    interrupted thread while it has run for fewer than [TIME_SLICE] ticks;
    at the [TIME_SLICE]-th tick the handler yields: the thread goes to the
    back of the run queue (unless it is the idle thread), the thread at the
    front runs, and a new slice starts.  The invariant is preserved and the
    interrupt context is left in both cases. *)
Theorem timer_preemption k :
  kernel_ok k -> intr_on k = false -> in_external_intr k = false -> 0 <= thread_ticks k < TIME_SLICE ->
  exists y k', intr_handler 32 (Some timer_interrupt) k = Ret (y, k') /\ kernel_ok k' /\
    in_external_intr k' = false /\ ticks k' = s64 (ticks k + 1) /\
    (thread_ticks k + 1 < TIME_SLICE -> y = false /\ running k' = running k /\
       ready_list k' = ready_list k /\ thread_ticks k' = thread_ticks k + 1) /\
    (thread_ticks k + 1 = TIME_SLICE -> y = true /\ thread_ticks k' = 0 /\
       (running k' :: ready_list k' = yield_queue k \/
        yield_queue k = [] /\ running k' = idle_thread k)).
Proof.
  intros Hok Hoff Hctx Htk. rewrite (run_intr_handler_timer k Hok Hoff Hctx). unfold TIME_SLICE in *.
  rewrite u32_small by (unfold is_u32, two32; lia).
  set (k1 := with_context (ticked k) false (4 <=? thread_ticks k + 1)).
  assert (Hok1 : kernel_ok k1) by (by apply (kernel_ok_ext k)).
  destruct (Z.leb_spec 4 (thread_ticks k + 1)) as [Hle|Hlt].
  - pose proof (kernel_ok_leave_yield k1 false Hok1) as Hl.
    assert (E : with_intr k1 false = k1) by (apply kernel_ext; try done; simpl; congruence). rewrite E in Hl.
    exists true. eexists. split_and!; [done|by apply kernel_ok_switch; [|apply Hok]|done|done|lia|].
    intros _. unfold switch_to. cbn [running ready_list thread_ticks]. unfold next_thread, leave. ksimp.
    change (yield_queue k1) with (yield_queue k). split_and!; [done..|].
    destruct (yield_queue k); [by right|by left].
  - exists false, k1. split_and!; try done; [|lia]. intros _. split_and!; try done.
    unfold k1, ticked. ksimp. apply u32_small. unfold is_u32, two32. lia.
Qed.

Lemma timer_preemption_witness :
  exists y k', intr_handler 32 (Some timer_interrupt)
    (with_ticks demo_kernel 3 0 0 0) = Ret (y, k') /\ y = true /\ running k' = 8192 /\ ready_list k' = [4096].
Proof.
  destruct (timer_preemption (with_ticks demo_kernel 3 0 0 0)) as (y & k' & H1 & _).
  - by apply (kernel_ok_ext demo_kernel); [apply demo_kernel_ok|..].
  - reflexivity.
  - reflexivity.
  - split; [done|reflexivity].
  - exists y, k'. split; [exact H1|]. vm_compute in H1. injection H1 as <- <-. done.
Defined.
