(* ===== verification/Input.v ===== *)
(** * Interrupt queues ([devices/intq.c])

    An interrupt queue is a ring buffer shared between an interrupt handler
    and the threads that read from it or write to it.  Its functions work on
    the scheduler of [Thread]: a thread that finds the queue empty (or full)
    takes the lock of the queue, stores itself as the waiter and blocks, and
    the next byte (or the next free place) unblocks it.  A second thread that
    finds the queue empty (or full) blocks in [lock_acquire].  A function runs
    up to the point where it returns or sleeps, and a thread that sleeps has a
    definition of its own for what it does when it runs again.

    Interrupts are off from the beginning to the end of these functions, so
    that the lock is taken and released without an interruption; the semaphore
    and the holder of the lock are therefore kept next to the queue, and the
    code of [threads/synch.c] is written out for it. *)
From stdpp Require Import prelude list gmap.
From Stdlib Require Import ZArith Lia.
From S2P Require Import Prelude Thread.
#[local] Open Scope Z_scope.

(** ** Data *)

Definition INTQ_BUFSIZE : Z := 64.

(** [struct lock], with the value and the waiters of its semaphore. *)
Record lock : Type := mkLock { holder : Z; value : Z; waiters : list Z }.

Record intq : Type := mkIntq { qlock : lock; not_full : Z; not_empty : Z; buf : list Z; head : Z; tail : Z }.

(** The members [not_full] and [not_empty], of which functions take the
    address. *)
Inductive waiter : Type := NotFull | NotEmpty.

(** The state of the keyboard driver, see [Kbd]. *)
Record keyboard : Type := mkKeyboard {
  left_shift : bool; right_shift : bool; left_alt : bool; right_alt : bool; left_ctrl : bool; right_ctrl : bool;
  caps_lock : bool; key_cnt : Z
}.

Record machine : Type := mkMachine { kern : kernel; buffer : intq; kbd : keyboard }.

(** An operation of the kernel. *)
Definition on_kernel {A} (m : ST kernel A) : ST machine A := fun s =>
  match m (kern s) with Ret (a, k) => Ret (a, mkMachine k (buffer s) (kbd s)) | Err e => Err e end.

Definition get_queue : ST machine intq := fun s => Ret (buffer s, s).
Definition set_queue (q : intq) : ST machine unit := fun s => Ret (tt, mkMachine (kern s) q (kbd s)).
Definition set_keyboard (x : keyboard) : ST machine unit := fun s => Ret (tt, mkMachine (kern s) (buffer s) x).

Definition assert_intr_off : ST machine unit :=
  do! l := on_kernel intr_get_level in
  assert_ (negb l).

Definition with_lock (q : intq) (l : lock) : intq := mkIntq l (not_full q) (not_empty q) (buf q) (head q) (tail q).

(** ** The lock of a queue *)

Definition lock_init : lock := mkLock NULL 1 [].

(** The loop of [sema_down] and the end of [lock_acquire].  [false]: the
    thread sleeps inside of [sema_down]; when it runs again it goes on with
    the loop.  The level of interrupts was off when [sema_down] was called. *)
Definition lock_loop : ST machine bool :=
  do! q := get_queue in
  let l := qlock q in
  if value l =? 0 then
    do! t := on_kernel thread_current in
    do! _ := set_queue (with_lock q (mkLock (holder l) (value l) (waiters l ++ [t]))) in
    do! _ := on_kernel thread_block in
    sret false
  else
    do! _ := set_queue (with_lock q (mkLock (holder l) (u32 (value l - 1)) (waiters l))) in
    do! _ := on_kernel (intr_set_level false) in
    do! t := on_kernel thread_current in
    do! q := get_queue in
    do! _ := set_queue (with_lock q (mkLock t (value (qlock q)) (waiters (qlock q)))) in
    sret true.

Definition lock_acquire : ST machine bool :=
  do! c := on_kernel intr_context in
  do! _ := assert_ (negb c) in
  do! t := on_kernel thread_current in
  do! q := get_queue in
  do! _ := assert_ (negb (holder (qlock q) =? t)) in
  do! _ := on_kernel intr_disable in
  lock_loop.

Definition lock_release : ST machine unit :=
  do! t := on_kernel thread_current in
  do! q := get_queue in
  do! _ := assert_ (holder (qlock q) =? t) in
  do! _ := set_queue (with_lock q (mkLock NULL (value (qlock q)) (waiters (qlock q)))) in
  do! old_level := on_kernel intr_disable in
  do! q := get_queue in
  do! _ := (match waiters (qlock q) with
    | [] => sret tt
    | t :: rest =>
        do! _ := set_queue (with_lock q (mkLock (holder (qlock q)) (value (qlock q)) rest)) in
        on_kernel (thread_unblock t)
    end) in
  do! q := get_queue in
  do! _ := set_queue (with_lock q (mkLock (holder (qlock q)) (u32 (value (qlock q) + 1)) (waiters (qlock q)))) in
  do! _ := on_kernel (intr_set_level old_level) in
  sret tt.

(** ** The queue *)

(** [buf] is the contents of the array before, which [intq_init] does not
    touch. *)
Definition intq_init (old : list Z) : intq := mkIntq lock_init NULL NULL old 0 0.

Definition next (pos : Z) : Z := (pos + 1) mod INTQ_BUFSIZE.

Definition intq_empty : ST machine bool :=
  do! _ := assert_intr_off in
  do! q := get_queue in
  sret (head q =? tail q).

Definition intq_full : ST machine bool :=
  do! _ := assert_intr_off in
  do! q := get_queue in
  sret (next (head q) =? tail q).

Definition waiting (q : intq) (w : waiter) : Z := match w with NotFull => not_full q | NotEmpty => not_empty q end.
Definition set_waiting (q : intq) (w : waiter) (t : Z) : intq :=
  match w with
  | NotFull => mkIntq (qlock q) t (not_empty q) (buf q) (head q) (tail q)
  | NotEmpty => mkIntq (qlock q) (not_full q) t (buf q) (head q) (tail q)
  end.

(** The condition that the waiter [w] waits for the end of. *)
Definition must_wait (w : waiter) : ST machine bool := match w with NotFull => intq_full | NotEmpty => intq_empty end.

Definition wait (w : waiter) : ST machine unit :=
  do! c := on_kernel intr_context in
  do! _ := assert_ (negb c) in
  do! _ := assert_intr_off in
  do! b := must_wait w in
  do! _ := assert_ b in
  do! t := on_kernel thread_current in
  do! q := get_queue in
  do! _ := set_queue (set_waiting q w t) in
  on_kernel thread_block.

Definition signal (w : waiter) : ST machine unit :=
  do! _ := assert_intr_off in
  do! b := must_wait w in
  do! _ := assert_ (negb b) in
  do! q := get_queue in
  if negb (waiting q w =? NULL) then
    do! _ := on_kernel (thread_unblock (waiting q w)) in
    do! q := get_queue in
    set_queue (set_waiting q w NULL)
  else sret tt.

(** Where a thread sleeps: inside of [lock_acquire], or inside of [wait] and
    with the lock. *)
Inductive place : Type := InAcquire | InWait.

(** A call that has returned, or in which the thread sleeps. *)
Inductive progress (A : Type) : Type := Done (a : A) | Sleeps (p : place).
Arguments Done {A} a.
Arguments Sleeps {A} p.

(** [wait], once [lock_acquire] has returned. *)
Definition locked_wait (w : waiter) (locked : bool) : ST machine place :=
  if locked then do! _ := wait w in sret InWait else sret InAcquire.

(** The body of the loops of [intq_getc] and [intq_putc], up to where the
    thread sleeps. *)
Definition sleep_on (w : waiter) : ST machine place :=
  do! c := on_kernel intr_context in
  do! _ := assert_ (negb c) in
  do! locked := lock_acquire in
  locked_wait w locked.

(** What is left of the body of the loop when the thread runs again; it
    sleeps again, or the body ends. *)
Definition wake_up (w : waiter) (p : place) : ST machine (option place) :=
  match p with
  | InAcquire => do! locked := lock_loop in do! p := locked_wait w locked in sret (Some p)
  | InWait => do! _ := lock_release in sret None
  end.

(** [intq_getc] from the condition of its loop on. *)
Definition getc_loop : ST machine (progress Z) :=
  do! e := intq_empty in
  if e : bool then do! p := sleep_on NotEmpty in sret (Sleeps p)
  else
    do! q := get_queue in
    do! byte := lift (access (buf q !! Z.to_nat (tail q))) in
    do! _ := set_queue (mkIntq (qlock q) (not_full q) (not_empty q) (buf q) (head q) (next (tail q))) in
    do! _ := signal NotFull in
    sret (Done byte).

Definition intq_getc : ST machine (progress Z) :=
  do! _ := assert_intr_off in
  getc_loop.

Definition getc_again (p : place) : ST machine (progress Z) :=
  do! r := wake_up NotEmpty p in
  match r with Some p => sret (Sleeps p) | None => getc_loop end.

(** [intq_putc] from the condition of its loop on. *)
Definition putc_loop (byte : Z) : ST machine (progress unit) :=
  do! f := intq_full in
  if f : bool then do! p := sleep_on NotFull in sret (Sleeps p)
  else
    do! q := get_queue in
    do! _ := lift (access (buf q !! Z.to_nat (head q))) in
    do! _ := set_queue (mkIntq (qlock q) (not_full q) (not_empty q) (<[Z.to_nat (head q) := byte]> (buf q)) (next (head q)) (tail q)) in
    do! _ := signal NotEmpty in
    sret (Done tt).

Definition intq_putc (byte : Z) : ST machine (progress unit) :=
  do! _ := assert_intr_off in
  putc_loop byte.

Definition putc_again (byte : Z) (p : place) : ST machine (progress unit) :=
  do! r := wake_up NotFull p in
  match r with Some p => sret (Sleeps p) | None => putc_loop byte end.

(** ** Rings as queues *)

Definition count (q : intq) : Z := (head q - tail q) mod INTQ_BUFSIZE.

(** The bytes of a ring, the oldest first. *)
Definition contents (q : intq) : list Z :=
  (fun i => default 0 (buf q !! Z.to_nat ((tail q + i) mod INTQ_BUFSIZE))) <$> seqZ 0 (count q).

Definition ring_ok (q : intq) : Prop :=
  length (buf q) = Z.to_nat INTQ_BUFSIZE /\ 0 <= head q < INTQ_BUFSIZE /\ 0 <= tail q < INTQ_BUFSIZE.

Lemma count_range q : 0 <= count q < 64.
Proof. unfold count. apply Z.mod_pos_bound. done. Qed.

Lemma length_contents q : Z.of_nat (length (contents q)) = count q.
Proof. unfold contents. rewrite length_fmap, length_seqZ. pose proof (count_range q). lia. Qed.

Lemma count_split q : ring_ok q -> head q = tail q + count q \/ head q = tail q + count q - 64.
Proof.
  intros (_ & Hh & Ht). unfold count, INTQ_BUFSIZE in *. destruct (Z_le_gt_dec (tail q) (head q)).
  - left. rewrite Z.mod_small by lia. lia.
  - right. replace (head q - tail q) with (head q - tail q + 64 + (-1) * 64) by lia. rewrite Z.mod_add, Z.mod_small by lia. lia.
Qed.

Lemma ring_index t i : 0 <= t < 64 -> 0 <= i <= 64 -> (t + i) mod INTQ_BUFSIZE = if t + i <? 64 then t + i else t + i - 64.
Proof.
  intros Ht Hi. unfold INTQ_BUFSIZE. destruct (Z.ltb_spec (t + i) 64); [apply Z.mod_small; lia|].
  replace (t + i) with (t + i - 64 + 1 * 64) by lia. rewrite Z.mod_add, Z.mod_small by lia. lia.
Qed.

Lemma ring_empty q : ring_ok q -> (head q =? tail q) = bool_decide (contents q = []).
Proof.
  intros Hok. pose proof (length_contents q) as Hl. pose proof (count_range q). destruct (count_split q Hok) as [Hs|Hs];
    (destruct (Z.eqb_spec (head q) (tail q)); symmetry; [apply bool_decide_eq_true|apply bool_decide_eq_false]).
  - apply nil_length_inv. lia.
  - intros Hn. rewrite Hn in Hl. simpl in Hl. lia.
  - destruct Hok as (_ & ? & ?). unfold INTQ_BUFSIZE in *. lia.
  - intros Hn. rewrite Hn in Hl. simpl in Hl. destruct Hok as (_ & ? & ?). unfold INTQ_BUFSIZE in *. lia.
Qed.

Lemma ring_full q : ring_ok q -> (next (head q) =? tail q) = (count q =? 63).
Proof.
  intros Hok. pose proof Hok as (_ & Hh & Ht). unfold next, INTQ_BUFSIZE in *. pose proof (count_range q).
  change 64 with INTQ_BUFSIZE. rewrite (ring_index (head q) 1) by lia. destruct (count_split q Hok) as [Hs|Hs];
    destruct (Z.ltb_spec (head q + 1) 64), (Z.eqb_spec (count q) 63); bool_cases; (done || lia).
Qed.

Lemma ring_put q b :
  ring_ok q -> count q < 63 ->
  let q' := mkIntq (qlock q) (not_full q) (not_empty q) (<[Z.to_nat (head q) := b]> (buf q)) (next (head q)) (tail q) in
  ring_ok q' /\ contents q' = contents q ++ [b].
Proof.
  intros Hok Hc q'. pose proof Hok as (Hb & Hh & Ht). pose proof (count_range q) as Hcr. unfold INTQ_BUFSIZE in *.
  assert (0 <= next (head q) < 64) as Hn by (apply Z.mod_pos_bound; done).
  assert (count q' = count q + 1) as Hcnt.
  { unfold count, q', next, INTQ_BUFSIZE in *. cbn [head tail]. rewrite Zminus_mod_idemp_l. replace (head q + 1 - tail q) with (head q - tail q + 1) by lia.
    rewrite Z.add_mod by lia. rewrite (Z.mod_small ((head q - tail q) mod 64 + 1 mod 64)); [done|]. change (1 mod 64) with 1. lia. }
  split; [split; [cbn [q' buf]; by rewrite length_insert|done]|].
  unfold contents. rewrite Hcnt, (seqZ_app 0 (count q) 1) by lia. rewrite fmap_app. cbn [q' tail buf]. f_equal.
  - apply list_fmap_ext. intros i x Hi. apply list_elem_of_lookup_2, elem_of_seqZ in Hi. f_equal.
    rewrite list_lookup_insert_ne; [done|]. rewrite ring_index by lia.
    destruct (count_split q Hok), (Z.ltb_spec (tail q + x) 64); lia.
  - simpl. f_equal. change (Z.of_nat 0) with 0. rewrite !Z.add_0_l. replace (Z.to_nat ((tail q + count q) mod INTQ_BUFSIZE)) with (Z.to_nat (head q)).
    + by rewrite list_lookup_insert_eq by lia.
    + rewrite ring_index by lia. destruct (count_split q Hok), (Z.ltb_spec (tail q + count q) 64); lia.
Qed.

Lemma ring_get q :
  ring_ok q -> contents q <> [] ->
  let q' := mkIntq (qlock q) (not_full q) (not_empty q) (buf q) (head q) (next (tail q)) in
  ring_ok q' /\ exists b, buf q !! Z.to_nat (tail q) = Some b /\ contents q = b :: contents q'.
Proof.
  intros Hok Hne q'. pose proof Hok as (Hb & Hh & Ht). pose proof (count_range q) as Hcr. pose proof (length_contents q) as Hl.
  assert (1 <= count q) as Hc1 by (destruct (contents q); [done|simpl in Hl; lia]). unfold INTQ_BUFSIZE in *.
  assert (0 <= next (tail q) < 64) as Hn by (apply Z.mod_pos_bound; done).
  assert (count q' = count q - 1) as Hcnt.
  { unfold count, q', next, INTQ_BUFSIZE in *. cbn [head tail]. rewrite Zminus_mod_idemp_r. replace (head q - (tail q + 1)) with (head q - tail q - 1) by lia.
    rewrite Zminus_mod. change (1 mod 64) with 1. rewrite Z.mod_small by lia. done. }
  split; [done|]. destruct (lookup_lt_is_Some_2 (buf q) (Z.to_nat (tail q))) as [b Hlb]; [lia|]. exists b. split; [done|].
  unfold contents. rewrite Hcnt. replace (count q) with (1 + (count q - 1)) at 1 by lia. rewrite seqZ_app by lia. rewrite fmap_app. simpl.
  rewrite Z.add_0_r, Z.mod_small by (unfold INTQ_BUFSIZE; lia). rewrite Hlb. f_equal.
  apply list_eq. intros i. rewrite !list_lookup_fmap.
  destruct (Z_lt_le_dec (Z.of_nat i) (count q - 1)); [rewrite !lookup_seqZ_lt by done|by rewrite !lookup_seqZ_ge by done].
  cbn [fmap option_fmap option_map]. do 4 f_equal. unfold next, INTQ_BUFSIZE. rewrite Zplus_mod_idemp_l. f_equal. lia.
Qed.

(** ** The queue and the scheduler *)

Definition sleeping (k : kernel) (t : Z) : Prop :=
  t <> idle_thread k /\ exists th, threads k !! t = Some th /\ status th = THREAD_BLOCKED.

Definition if_any (t : Z) : list Z := if t =? NULL then [] else [t].

(** The threads that sleep in a function of the queue. *)
Definition sleepers (q : intq) : list Z := if_any (not_full q) ++ if_any (not_empty q) ++ waiters (qlock q).

(** The lock has a holder exactly while the value of its semaphore is zero,
    and a thread that waits for the queue is the holder. *)
Definition lock_ok (q : intq) : Prop :=
  (value (qlock q) = 0 /\ holder (qlock q) <> NULL \/ value (qlock q) = 1 /\ holder (qlock q) = NULL) /\
  forall w, waiting q w <> NULL -> holder (qlock q) = waiting q w.

(** Threads wait for bytes only while the queue is empty, and for a place
    only while it is full. *)
Definition queue_ok (s : machine) : Prop :=
  ring_ok (buffer s) /\ lock_ok (buffer s) /\ NoDup (sleepers (buffer s)) /\ Forall (sleeping (kern s)) (sleepers (buffer s)) /\
  (not_empty (buffer s) <> NULL -> contents (buffer s) = []) /\ (not_full (buffer s) <> NULL -> count (buffer s) = 63).

(** Between interrupts-off sections. *)
Definition machine_ok (s : machine) : Prop := kernel_ok (kern s) /\ intr_on (kern s) = false /\ queue_ok s.

Definition queued (s : machine) : list Z := contents (buffer s).

Lemma sleepers_waiting q w : sleepers q ≡ₚ if_any (waiting q w) ++ sleepers (set_waiting q w NULL).
Proof. unfold sleepers. destruct w; cbn; [done|]. rewrite !app_assoc. f_equiv. apply Permutation_app_comm. Qed.

Lemma not_sleeping_running k : kernel_ok k -> ~ sleeping k (running k).
Proof. intros [Hinv _] (_ & th & Hth & Hst). pose proof (proj2 (ki_run _ _ Hinv _ _ Hth) eq_refl). congruence. Qed.

Lemma current_not_null k : kernel_ok k -> running k <> NULL.
Proof. intros [Hinv _]. destruct (ki_alive _ _ Hinv) as [th Hth]. by apply (ki_magic _ _ Hinv _ _ Hth). Qed.

Lemma run_intr_off s : intr_on (kern s) = false -> assert_intr_off s = Ret (tt, s).
Proof. intros H. unfold assert_intr_off, on_kernel, sbind, intr_get_level. cbn. rewrite H. by destruct s. Qed.

Lemma run_empty s : intr_on (kern s) = false -> ring_ok (buffer s) -> intq_empty s = Ret (bool_decide (queued s = []), s).
Proof. intros H Hr. unfold intq_empty. rewrite (sbind_run _ _ _ _ _ (run_intr_off s H)). unfold sbind, get_queue, sret. by rewrite ring_empty. Qed.

Lemma run_full s : intr_on (kern s) = false -> ring_ok (buffer s) -> intq_full s = Ret (count (buffer s) =? 63, s).
Proof. intros H Hr. unfold intq_full. rewrite (sbind_run _ _ _ _ _ (run_intr_off s H)). unfold sbind, get_queue, sret. by rewrite ring_full. Qed.

(** Whether the waiter [w] has to wait. *)
Definition blocked_on (s : machine) (w : waiter) : bool :=
  match w with NotFull => count (buffer s) =? 63 | NotEmpty => bool_decide (queued s = []) end.

Lemma run_must_wait s w : intr_on (kern s) = false -> ring_ok (buffer s) -> must_wait w s = Ret (blocked_on s w, s).
Proof. intros H Hr. destruct w; [by apply run_full|by apply run_empty]. Qed.

Lemma run_context s : on_kernel intr_context s = Ret (in_external_intr (kern s), s).
Proof. by destruct s. Qed.

Lemma run_this_thread s : kernel_ok (kern s) -> on_kernel thread_current s = Ret (running (kern s), s).
Proof. intros [H _]. unfold on_kernel. rewrite (run_thread_current _ H). by destruct s. Qed.

Lemma with_intr_off k : intr_on k = false -> with_intr k false = k.
Proof. intros H. destruct k. cbn in *. by subst. Qed.

Lemma run_level_off s : intr_on (kern s) = false -> on_kernel intr_disable s = Ret (false, s).
Proof. intros H. unfold on_kernel, intr_disable, sbind, intr_get_level, get, put, sret. cbn. rewrite with_intr_off, H by done. by destruct s. Qed.

Lemma run_get_queue s : get_queue s = Ret (buffer s, s).
Proof. done. Qed.

(** A thread of the queue becomes ready. *)
Lemma run_unblock s t :
  kernel_ok (kern s) -> intr_on (kern s) = false -> sleeping (kern s) t ->
  exists k', on_kernel (thread_unblock t) s = Ret (tt, mkMachine k' (buffer s) (kbd s)) /\ kernel_ok k' /\ intr_on k' = false /\
    in_external_intr k' = in_external_intr (kern s) /\ running k' = running (kern s) /\ ready_list k' = ready_list (kern s) ++ [t] /\
    idle_thread k' = idle_thread (kern s) /\ (forall t', sleeping (kern s) t' -> t' <> t -> sleeping k' t').
Proof.
  intros [Hinv Hidle] Hoff (Hni & th & Hth & Hst).
  assert (Hu : thread_unblock t (kern s) = Ret (tt, unblocked (kern s) t)) by (apply (run_thread_unblock _ _ _ th Hinv Hth Hst); congruence).
  exists (unblocked (kern s) t). split; [unfold on_kernel; by rewrite Hu|]. split; [split; [by apply (kinv_unblocked _ _ _ th)|done]|].
  do 5 (split; [done|]). intros t' (Hi & th' & Hth' & Hst') Hne. split; [done|]. exists th'. split; [|done]. cbn. by rewrite lookup_alter_ne.
Qed.

(** The running thread blocks. *)
Lemma run_block s :
  kernel_ok (kern s) -> intr_on (kern s) = false -> in_external_intr (kern s) = false -> running (kern s) <> idle_thread (kern s) ->
  exists k', on_kernel thread_block s = Ret (tt, mkMachine k' (buffer s) (kbd s)) /\ kernel_ok k' /\ intr_on k' = false /\
    running k' = next_thread (kern s) /\ sleeping k' (running (kern s)) /\ (forall t, sleeping (kern s) t -> sleeping k' t).
Proof.
  intros Hk Hoff Hctx Hni. destruct (run_thread_block (kern s) Hk Hoff Hctx) as [Hblk Hk'].
  set (k1 := leave (kern s) THREAD_BLOCKED (ready_list (kern s)) (all_list (kern s))) in *.
  exists (switch_to k1). split; [unfold on_kernel; by rewrite Hblk|]. do 3 (split; [done|]).
  pose proof (kernel_ok_leave_block _ Hk) as Hl. fold k1 in Hl. pose proof (not_sleeping_running _ Hk) as Hnr. destruct Hk as [Hinv Hidle].
  assert (Hkeep : forall t th, threads k1 !! t = Some th -> status th = THREAD_BLOCKED -> t <> idle_thread (kern s) -> sleeping (switch_to k1) t).
  { intros t th Ht Hst Hti. split; [done|]. rewrite (switch_keep k1 t th Hl (or_introl Hidle) Ht) by congruence.
    rewrite bool_decide_false; [eauto|]. unfold next_thread. destruct (ready_list k1) as [|r0 rl] eqn:Erl; [done|].
    intros ->. destruct (ki_ready _ _ Hl r0) as (th' & Hth' & Hrdy); [rewrite Erl; set_solver|]. congruence. }
  split.
  - destruct (ki_alive _ _ Hinv) as [c Hc]. apply (Hkeep _ (set_status c THREAD_BLOCKED)); [|done|done]. cbn. by rewrite set_current_lookup, decide_True, Hc by done.
  - intros t (Hti & th & Hth & Hst). apply (Hkeep t th); [|done|done]. cbn. rewrite set_current_lookup, decide_False; [done|].
    intros E. apply Hnr. rewrite E. split; [done|]. by exists th.
Qed.

Lemma Forall_keep (P Q : Z -> Prop) (l woken : list Z) :
  NoDup (woken ++ l) -> (forall t, P t -> t ∉ woken -> Q t) -> Forall P (woken ++ l) -> Forall Q l.
Proof.
  intros Hnd HPQ HP. apply Forall_app in HP as [_ HP]. apply NoDup_app in Hnd as (_ & Hd & _). rewrite Forall_forall in HP |- *.
  intros t Ht. apply HPQ; [auto|]. intros Hx. by apply (Hd t).
Qed.

(** [signal]: the waiter, if there is one, becomes ready. *)
Lemma run_signal s w :
  kernel_ok (kern s) -> intr_on (kern s) = false -> ring_ok (buffer s) -> blocked_on s w = false -> Forall (sleeping (kern s)) (if_any (waiting (buffer s) w)) ->
  exists k', signal w s = Ret (tt, mkMachine k' (set_waiting (buffer s) w NULL) (kbd s)) /\ kernel_ok k' /\ intr_on k' = false /\
    in_external_intr k' = in_external_intr (kern s) /\ running k' = running (kern s) /\ ready_list k' = ready_list (kern s) ++ if_any (waiting (buffer s) w) /\
    idle_thread k' = idle_thread (kern s) /\ (forall t, sleeping (kern s) t -> t ∉ if_any (waiting (buffer s) w) -> sleeping k' t).
Proof.
  intros Hok Hoff Hr Hb Hw. unfold signal. sstep (run_intr_off s Hoff). sstep (run_must_wait s w Hoff Hr). rewrite Hb. sassert by done. sstep (run_get_queue s).
  unfold if_any in *. destruct (Z.eqb_spec (waiting (buffer s) w) NULL) as [Hn|Hn]; cbn [negb].
  - exists (kern s). rewrite app_nil_r. split; [|done]. unfold sret. do 2 f_equal. destruct s as [k q x]. cbn in *. f_equal. destruct w, q; cbn in *; by subst.
  - inversion Hw as [|? ? Hw1 _]. destruct (run_unblock s _ Hok Hoff Hw1) as (k' & E & H1 & H2 & H3 & H4 & H5 & H6 & H7). sstep E.
    exists k'. do 7 (split; [done|]). intros t Ht Hne. apply H7; [done|set_solver].
Qed.

(** The invariant after a ring operation and [signal]. *)
Lemma queue_after_signal s w k' q1 :
  machine_ok s -> ring_ok q1 -> qlock q1 = qlock (buffer s) -> not_full q1 = not_full (buffer s) -> not_empty q1 = not_empty (buffer s) ->
  (forall t, sleeping (kern s) t -> t ∉ if_any (waiting (buffer s) w) -> sleeping k' t) ->
  (waiting (buffer s) (match w with NotFull => NotEmpty | NotEmpty => NotFull end) = NULL) -> kernel_ok k' -> intr_on k' = false ->
  machine_ok (mkMachine k' (set_waiting q1 w NULL) (kbd s)).
Proof.
  intros (_ & _ & Hr & (Hl1 & Hl2) & Hnd & Hsl & _ & _) Hr1 E1 E2 E3 Hkeep Hoth Hk' Hoff'. do 2 (split; [done|]). unfold queue_ok. cbn [buffer kern].
  assert (Es : sleepers (set_waiting q1 w NULL) = sleepers (set_waiting (buffer s) w NULL)) by (unfold sleepers; destruct w; cbn; by rewrite E1, ?E2, ?E3).
  pose proof (sleepers_waiting (buffer s) w) as Hp. rewrite Hp in Hnd, Hsl. split; [by destruct w|]. rewrite Es. split; [|split; [|split]].
  - split; [destruct w; cbn; by rewrite E1|]. intros w' Hw'. destruct w, w'; cbn in *; (done || congruence).
  - by apply NoDup_app in Hnd as (_ & _ & ?).
  - by apply (Forall_keep (sleeping (kern s)) _ _ (if_any (waiting (buffer s) w))).
  - destruct w; cbn in *; rewrite ?E2, ?E3, Hoth; done.
Qed.

(** ** Runs of the functions *)

(** What a call that does not sleep leaves as it is; [woken] is the thread
    that it makes ready, if any. *)
Definition goes_on (s s' : machine) (woken : list Z) : Prop :=
  kbd s' = kbd s /\ running (kern s') = running (kern s) /\ in_external_intr (kern s') = in_external_intr (kern s) /\
  idle_thread (kern s') = idle_thread (kern s) /\ ready_list (kern s') = ready_list (kern s) ++ woken /\
  sleepers (buffer s) ≡ₚ woken ++ sleepers (buffer s') /\ (forall t, sleeping (kern s) t -> t ∉ woken -> sleeping (kern s') t).

Lemma run_putc_loop s b :
  machine_ok s -> count (buffer s) < 63 ->
  exists s', putc_loop b s = Ret (Done tt, s') /\ machine_ok s' /\ queued s' = queued s ++ [b] /\ goes_on s s' (if_any (not_empty (buffer s))) /\
    qlock (buffer s') = qlock (buffer s).
Proof.
  intros Hok Hc. pose proof Hok as (Hk & Hoff & Hr & Hl & Hnd & Hsl & He & Hf). destruct (ring_put (buffer s) b Hr Hc) as [Hr' Hcont].
  unfold putc_loop. sstep (run_full s Hoff Hr). rewrite (proj2 (Z.eqb_neq _ 63)) by lia. sstep (run_get_queue s).
  destruct Hr as (Hb & Hh & Ht). unfold INTQ_BUFSIZE in Hb, Hh. destruct (lookup_lt_is_Some_2 (buf (buffer s)) (Z.to_nat (head (buffer s)))) as [x Hx]; [lia|].
  rewrite (sbind_run _ _ s x s) by (unfold lift; by rewrite Hx). cbv beta.
  match type of Hr' with ring_ok ?Q => set (q' := Q) in * end. set (s1 := mkMachine (kern s) q' (kbd s)). rewrite (sbind_run _ _ s tt s1) by done. cbv beta.
  assert (queued s1 <> []) as Hne by (unfold queued; cbn; rewrite Hcont; destruct (contents (buffer s)); done).
  pose proof Hsl as Hsl1. rewrite (sleepers_waiting _ NotEmpty), Forall_app in Hsl1.
  destruct (run_signal s1 NotEmpty Hk Hoff Hr') as (k' & Hsig & Hk' & Hoff' & Hx' & Hrun & Hrl & Hi & Hkeep); [by apply bool_decide_eq_false|apply Hsl1|].
  sstep Hsig. eexists. split; [done|]. split; [|split; [unfold queued; cbn; by rewrite <- Hcont|split; [split_and!; try done; exact (sleepers_waiting (buffer s) NotEmpty)|done]]].
  apply (queue_after_signal s NotEmpty k' q'); try done. destruct (Z.eq_dec (not_full (buffer s)) NULL) as [|Hn]; [done|]. specialize (Hf Hn). lia.
Qed.

Lemma run_getc_loop s :
  machine_ok s -> queued s <> [] ->
  exists b s', getc_loop s = Ret (Done b, s') /\ machine_ok s' /\ queued s = b :: queued s' /\ goes_on s s' (if_any (not_full (buffer s))) /\
    qlock (buffer s') = qlock (buffer s).
Proof.
  intros Hok Hne. pose proof Hok as (Hk & Hoff & Hr & Hl & Hnd & Hsl & He & Hf). destruct (ring_get (buffer s) Hr Hne) as [Hr' (b & Hb & Hcont)].
  unfold getc_loop. sstep (run_empty s Hoff Hr). rewrite bool_decide_false by done. sstep (run_get_queue s).
  rewrite (sbind_run _ _ s b s) by (unfold lift; by rewrite Hb). cbv beta.
  match type of Hr' with ring_ok ?Q => set (q' := Q) in * end. set (s1 := mkMachine (kern s) q' (kbd s)). rewrite (sbind_run _ _ s tt s1) by done. cbv beta. exists b.
  assert (count q' < 63) as Hc.
  { pose proof (length_contents q'). pose proof (length_contents (buffer s)) as Hln. rewrite Hcont in Hln. pose proof (count_range (buffer s)). simpl in Hln. lia. }
  pose proof Hsl as Hsl1. rewrite (sleepers_waiting _ NotFull), Forall_app in Hsl1.
  destruct (run_signal s1 NotFull Hk Hoff Hr') as (k' & Hsig & Hk' & Hoff' & Hx' & Hrun & Hrl & Hi & Hkeep); [apply Z.eqb_neq; cbn; lia|apply Hsl1|].
  sstep Hsig. eexists. split; [done|]. split; [|split; [exact Hcont|split; [split_and!; try done; exact (sleepers_waiting (buffer s) NotFull)|done]]].
  apply (queue_after_signal s NotFull k' q'); try done. destruct (Z.eq_dec (not_empty (buffer s)) NULL) as [|Hn]; [done|]. by specialize (He Hn).
Qed.

Lemma run_putc s b :
  machine_ok s -> count (buffer s) < 63 ->
  exists s', intq_putc b s = Ret (Done tt, s') /\ machine_ok s' /\ queued s' = queued s ++ [b] /\ goes_on s s' (if_any (not_empty (buffer s))) /\
    qlock (buffer s') = qlock (buffer s).
Proof. intros Hok Hc. destruct (run_putc_loop s b Hok Hc) as (s' & H). exists s'. unfold intq_putc. by sstep (run_intr_off s (proj1 (proj2 Hok))). Qed.

Lemma run_getc s :
  machine_ok s -> queued s <> [] ->
  exists b s', intq_getc s = Ret (Done b, s') /\ machine_ok s' /\ queued s = b :: queued s' /\ goes_on s s' (if_any (not_full (buffer s))) /\
    qlock (buffer s') = qlock (buffer s).
Proof. intros Hok Hc. destruct (run_getc_loop s Hok Hc) as (b & s' & H). exists b, s'. unfold intq_getc. by sstep (run_intr_off s (proj1 (proj2 Hok))). Qed.

(** A thread goes to sleep: another one runs, and it is one of the sleepers
    of the queue. *)
Definition falls_asleep (s s' : machine) : Prop :=
  machine_ok s' /\ running (kern s') = next_thread (kern s) /\ queued s' = queued s /\ kbd s' = kbd s /\
  sleepers (buffer s') ≡ₚ running (kern s) :: sleepers (buffer s) /\ (forall t, sleeping (kern s) t -> sleeping (kern s') t).

Lemma queue_asleep s k' q' :
  machine_ok s -> ring_ok q' -> lock_ok q' -> contents q' = contents (buffer s) -> sleepers q' ≡ₚ running (kern s) :: sleepers (buffer s) ->
  (not_empty q' <> NULL -> contents q' = []) -> (not_full q' <> NULL -> count q' = 63) -> kernel_ok k' -> intr_on k' = false ->
  running k' = next_thread (kern s) -> sleeping k' (running (kern s)) -> (forall t, sleeping (kern s) t -> sleeping k' t) ->
  falls_asleep s (mkMachine k' q' (kbd s)).
Proof.
  intros (Hk & _ & _ & _ & Hnd & Hsl & _) Hr' Hl' Hc Hp He Hf Hk' Hoff' Hrun Hnew Hkeep. split; [|split_and!; done].
  do 2 (split; [done|]). unfold queue_ok. cbn [buffer kern]. do 2 (split; [done|]). rewrite Hp. split; [|split; [|done]].
  - constructor; [|done]. intros Hin. rewrite Forall_forall in Hsl. by apply (not_sleeping_running _ Hk), Hsl.
  - constructor; [done|]. eapply Forall_impl; [exact Hsl|]. done.
Qed.

(** The loop of [sema_down]: the lock is taken, or the thread sleeps. *)
Lemma run_lock_loop s :
  machine_ok s -> in_external_intr (kern s) = false -> running (kern s) <> idle_thread (kern s) ->
  (holder (qlock (buffer s)) = NULL /\ lock_loop s = Ret (true, mkMachine (kern s) (with_lock (buffer s) (mkLock (running (kern s)) 0 (waiters (qlock (buffer s))))) (kbd s))) \/
  (holder (qlock (buffer s)) <> NULL /\ exists s', lock_loop s = Ret (false, s') /\ falls_asleep s s' /\
     buffer s' = with_lock (buffer s) (mkLock (holder (qlock (buffer s))) 0 (waiters (qlock (buffer s)) ++ [running (kern s)]))).
Proof.
  intros Hok Hctx Hni. pose proof Hok as (Hk & Hoff & Hr & Hl & Hnd & Hsl & He & Hf). unfold lock_loop. sstep (run_get_queue s).
  destruct Hl as [[[Hv Hh]|[Hv Hh]] Hw]; [right|left]; split; try done; rewrite Hv; cbn [Z.eqb].
  - sstep (run_this_thread s Hk). set (q' := with_lock _ _). set (s1 := mkMachine (kern s) q' (kbd s)). rewrite (sbind_run _ _ s tt s1) by done. cbv beta.
    destruct (run_block s1 Hk Hoff Hctx Hni) as (k' & E & Hk' & Hoff' & Hrun & Hnew & Hkeep). sstep E. eexists. split; [done|]. split; [|done].
    apply (queue_asleep s k' q'); try done.
    + split; [by left|]. intros []; [apply (Hw NotFull)|apply (Hw NotEmpty)].
    + unfold sleepers. cbn. rewrite !app_assoc. symmetry. apply Permutation_cons_append.
  - rewrite (sbind_run _ _ s tt (mkMachine (kern s) (with_lock (buffer s) (mkLock (holder (qlock (buffer s))) (u32 (1 - 1)) (waiters (qlock (buffer s))))) (kbd s))) by done. cbv beta.
    set (s1 := mkMachine _ _ _). sstep (run_level_off s1 Hoff). sstep (run_this_thread s1 Hk). sstep (run_get_queue s1). done.
Qed.

(** [wait] with the lock just taken. *)
Lemma run_locked_wait s w :
  let s1 := mkMachine (kern s) (with_lock (buffer s) (mkLock (running (kern s)) 0 (waiters (qlock (buffer s))))) (kbd s) in
  machine_ok s -> in_external_intr (kern s) = false -> running (kern s) <> idle_thread (kern s) -> holder (qlock (buffer s)) = NULL ->
  if blocked_on s w then
    exists s', locked_wait w true s1 = Ret (InWait, s') /\ falls_asleep s s' /\ buffer s' = set_waiting (buffer s1) w (running (kern s))
  else locked_wait w true s1 = Err AssertFailed.
Proof.
  intros s1 Hok Hctx Hni Hh. pose proof Hok as (Hk & Hoff & Hr & [_ Hw] & Hnd & Hsl & He & Hf). unfold locked_wait.
  assert (Hn : forall w, waiting (buffer s) w = NULL).
  { intros w'. destruct (Z.eq_dec (waiting (buffer s) w') NULL) as [|Hx]; [done|]. pose proof (Hw w' Hx). congruence. }
  assert (Eb : blocked_on s1 w = blocked_on s w) by done.
  assert (Ew : wait w s1 = (do! _ := assert_ (blocked_on s w) in do! t := on_kernel thread_current in do! q := get_queue in
    do! _ := set_queue (set_waiting q w t) in on_kernel thread_block) s1).
  { unfold wait. sstep (run_context s1). change (kern s1) with (kern s). rewrite Hctx. sassert by done. sstep (run_intr_off s1 Hoff). by sstep (run_must_wait s1 w Hoff Hr). }
  destruct (blocked_on s w) eqn:Hb; [|unfold sbind at 1; by rewrite Ew]. unfold sbind at 1. rewrite Ew. sassert by done. sstep (run_this_thread s1 Hk). sstep (run_get_queue s1).
  set (q' := set_waiting (buffer s1) w (running (kern s1))). set (s2 := mkMachine (kern s) q' (kbd s)).
  rewrite (sbind_run _ _ s1 tt s2) by done. cbv beta. destruct (run_block s2 Hk Hoff Hctx Hni) as (k' & E & Hk' & Hoff' & Hrun & Hnew & Hkeep). rewrite E.
  eexists. split; [done|]. split; [|done]. pose proof (current_not_null _ Hk) as Hrn.
  assert (Hif : if_any (running (kern s)) = [running (kern s)]) by (unfold if_any; by rewrite (proj2 (Z.eqb_neq _ _) Hrn)).
  apply (queue_asleep s k' q'); try done.
  - by destruct w.
  - split; [left; by destruct w|]. intros w' Hw'. pose proof (Hn NotFull). pose proof (Hn NotEmpty). destruct w, w'; cbn in *; (done || congruence).
  - by destruct w.
  - pose proof (Hn NotFull) as H1. pose proof (Hn NotEmpty) as H2. unfold sleepers. cbn in H1, H2. rewrite H1, H2. destruct w; cbn [q' set_waiting not_full not_empty buffer s1 with_lock qlock waiters kern]; rewrite ?H1, ?H2, Hif; done.
  - intros Hx. destruct w; [by apply He|]. by apply bool_decide_eq_true in Hb.
  - intros Hx. destruct w; [by apply Z.eqb_eq in Hb|]. by apply Hf.
Qed.

(** The body of the loop: the thread waits with the lock, or for the lock. *)
Definition sleeps_at (s s' : machine) (w : waiter) (p : place) : Prop :=
  match p with
  | InWait => holder (qlock (buffer s)) = NULL /\ holder (qlock (buffer s')) = running (kern s) /\ waiting (buffer s') w = running (kern s) /\
      waiters (qlock (buffer s')) = waiters (qlock (buffer s))
  | InAcquire => holder (qlock (buffer s)) <> NULL /\ holder (qlock (buffer s')) = holder (qlock (buffer s)) /\
      (forall w, waiting (buffer s') w = waiting (buffer s) w) /\ waiters (qlock (buffer s')) = waiters (qlock (buffer s)) ++ [running (kern s)]
  end.

Lemma run_sleep_on s w :
  machine_ok s -> in_external_intr (kern s) = false -> running (kern s) <> idle_thread (kern s) -> holder (qlock (buffer s)) <> running (kern s) ->
  blocked_on s w = true -> exists p s', sleep_on w s = Ret (p, s') /\ falls_asleep s s' /\ sleeps_at s s' w p.
Proof.
  intros Hok Hctx Hni Hhr Hb. pose proof Hok as (Hk & Hoff & Hr & _). unfold sleep_on, lock_acquire. sstep (run_context s). rewrite Hctx. sassert by done.
  assert (Ea : (do! c := on_kernel intr_context in do! _ := assert_ (negb c) in do! t := on_kernel thread_current in do! q := get_queue in
    do! _ := assert_ (negb (holder (qlock q) =? t)) in do! _ := on_kernel intr_disable in lock_loop) s = lock_loop s).
  { sstep (run_context s). rewrite Hctx. sassert by done. sstep (run_this_thread s Hk). sstep (run_get_queue s). sassert by (by rewrite (proj2 (Z.eqb_neq _ _) Hhr)).
    by sstep (run_level_off s Hoff). }
  unfold sbind at 1. rewrite Ea. destruct (run_lock_loop s Hok Hctx Hni) as [[Hh E]|(Hh & s' & E & Hs & Hq)]; rewrite E.
  - pose proof (run_locked_wait s w Hok Hctx Hni Hh) as Hlw. cbv zeta in Hlw. rewrite Hb in Hlw. destruct Hlw as (s' & E' & Hs & Hq). exists InWait, s'.
    split; [exact E'|]. split; [done|]. unfold sleeps_at. rewrite Hq. by destruct w.
  - exists InAcquire, s'. split; [done|]. split; [done|]. unfold sleeps_at. rewrite Hq. by split_and!.
Qed.

(** The end of [wait]: the lock is released and the first thread that waits
    for it becomes ready. *)
Lemma run_lock_release s :
  machine_ok s -> holder (qlock (buffer s)) = running (kern s) ->
  exists k', let s' := mkMachine k' (with_lock (buffer s) (mkLock NULL 1 (drop 1 (waiters (qlock (buffer s)))))) (kbd s) in
    lock_release s = Ret (tt, s') /\ machine_ok s' /\ goes_on s s' (take 1 (waiters (qlock (buffer s)))) /\ forall w, waiting (buffer s') w = NULL.
Proof.
  intros Hok Hhr. pose proof Hok as (Hk & Hoff & Hr & [Hv Hw] & Hnd & Hsl & He & Hf). pose proof (current_not_null _ Hk) as Hrn. destruct Hv as [[Hv _]|[_ Hx]]; [|congruence].
  assert (Hn : forall w, waiting (buffer s) w = NULL).
  { intros w. destruct (Z.eq_dec (waiting (buffer s) w) NULL) as [|Hx]; [done|exfalso]. pose proof (Hw w Hx) as E. rewrite (sleepers_waiting _ w) in Hsl.
    unfold if_any in Hsl. rewrite (proj2 (Z.eqb_neq _ _) Hx) in Hsl. inversion Hsl as [|? ? H1 _]. apply (not_sleeping_running _ Hk). congruence. }
  pose proof (Hn NotFull) as N1. pose proof (Hn NotEmpty) as N2. cbn in N1, N2.
  assert (Es : sleepers (buffer s) = waiters (qlock (buffer s))) by (unfold sleepers; by rewrite N1, N2). rewrite Es in Hnd, Hsl.
  assert (Hafter : forall k', kernel_ok k' -> intr_on k' = false -> (forall t, sleeping (kern s) t -> t ∉ take 1 (waiters (qlock (buffer s))) -> sleeping k' t) ->
    machine_ok (mkMachine k' (with_lock (buffer s) (mkLock NULL 1 (drop 1 (waiters (qlock (buffer s)))))) (kbd s))).
  { intros k' Hk' Hoff' Hkeep. do 2 (split; [done|]). unfold queue_ok. cbn [buffer kern]. split; [done|]. split; [split; [by right|]; intros []; cbn; by rewrite ?N1, ?N2|].
    assert (E' : sleepers (with_lock (buffer s) (mkLock NULL 1 (drop 1 (waiters (qlock (buffer s)))))) = drop 1 (waiters (qlock (buffer s)))) by (unfold sleepers; cbn; by rewrite N1, N2).
    rewrite E'. rewrite <- (take_drop 1 (waiters (qlock (buffer s)))) in Hnd, Hsl. split; [by apply NoDup_app in Hnd as (_ & _ & ?)|]. split; [|done].
    by apply (Forall_keep (sleeping (kern s)) _ _ _ Hnd Hkeep). }
  unfold lock_release. sstep (run_this_thread s Hk). sstep (run_get_queue s). sassert by (by apply Z.eqb_eq).
  set (s1 := mkMachine (kern s) (with_lock (buffer s) (mkLock NULL (value (qlock (buffer s))) (waiters (qlock (buffer s))))) (kbd s)).
  rewrite (sbind_run _ _ s tt s1) by done. cbv beta. sstep (run_level_off s1 Hoff). sstep (run_get_queue s1). cbn [qlock buffer s1 with_lock waiters].
  destruct (waiters (qlock (buffer s))) as [|t rest] eqn:Ews.
  - exists (kern s). rewrite (sbind_run _ _ s1 tt s1) by done. cbv beta. sstep (run_get_queue s1). cbn [qlock buffer s1 with_lock waiters value]. rewrite Hv.
    set (s2 := mkMachine (kern s) (with_lock (buffer s) (mkLock NULL 1 [])) (kbd s)). rewrite (sbind_run _ _ s1 tt s2) by done. cbv beta. sstep (run_level_off s2 Hoff).
    split; [done|]. split; [by apply Hafter|]. split; [|by intros []]. split_and!; try done; [by rewrite app_nil_r|]. rewrite Es. unfold sleepers. cbn. by rewrite N1, N2.
  - set (s2 := mkMachine (kern s) (with_lock (buffer s) (mkLock NULL (value (qlock (buffer s))) rest)) (kbd s)).
    inversion Hsl as [|? ? Hst _]. destruct (run_unblock s2 t Hk Hoff Hst) as (k' & E & Hk' & Hoff' & Hc & Hrun & Hrl & Hid & Hkeep).
    assert (Hkeep' : forall t', sleeping (kern s) t' -> t' ∉ take 1 (t :: rest) -> sleeping k' t') by (intros t' Ht' Hne; apply Hkeep; [done|cbn in Hne; set_solver]).
    exists k'. rewrite (sbind_run _ _ s1 tt (mkMachine k' (buffer s2) (kbd s))) by (rewrite (sbind_run _ _ s1 tt s2) by done; exact E). cbv beta.
    sstep (run_get_queue (mkMachine k' (buffer s2) (kbd s))). cbn [qlock buffer s2 with_lock waiters value holder]. rewrite Hv.
    set (s3 := mkMachine k' (with_lock (buffer s) (mkLock NULL 1 rest)) (kbd s)).
    match goal with |- context [set_queue _] => rewrite (sbind_run _ _ _ tt s3) by done end. cbv beta. sstep (run_level_off s3 Hoff').
    split; [done|]. split; [by apply Hafter|]. split; [|by intros []]. split_and!; try done. rewrite Es. unfold sleepers. cbn. by rewrite N1, N2.
Qed.

Lemma goes_on_trans s1 s2 s3 a b : goes_on s1 s2 a -> goes_on s2 s3 b -> goes_on s1 s3 (a ++ b).
Proof.
  intros (A1 & A2 & A3 & A4 & A5 & A6 & A7) (B1 & B2 & B3 & B4 & B5 & B6 & B7). split_and!; try congruence.
  - by rewrite B5, A5, app_assoc.
  - by rewrite A6, B6, app_assoc.
  - intros t Ht Hn. apply B7; [apply A7; [done|]|]; set_solver.
Qed.

(** A thread that waited with the lock runs again: it puts its byte, or it
    waits again if there is no place any more. *)
Lemma run_putc_again s b :
  machine_ok s -> holder (qlock (buffer s)) = running (kern s) ->
  (count (buffer s) < 63 ->
   exists s', putc_again b InWait s = Ret (Done tt, s') /\ machine_ok s' /\ queued s' = queued s ++ [b] /\
     goes_on s s' (take 1 (waiters (qlock (buffer s)))) /\ holder (qlock (buffer s')) = NULL) /\
  (count (buffer s) = 63 -> in_external_intr (kern s) = false -> running (kern s) <> idle_thread (kern s) ->
   exists s', putc_again b InWait s = Ret (Sleeps InWait, s') /\ machine_ok s' /\ queued s' = queued s /\ not_full (buffer s') = running (kern s)).
Proof.
  intros Hok Hh. destruct (run_lock_release s Hok Hh) as (k' & E & Hok1 & Hg & Hn). set (s1 := mkMachine k' _ _) in *.
  assert (Er : putc_again b InWait s = putc_loop b s1) by (unfold putc_again, wake_up; unfold sbind; by rewrite E). rewrite Er. split.
  - intros Hc. destruct (run_putc_loop s1 b Hok1 Hc) as (s' & E' & Hok' & Hq & Hg' & Hl). exists s'. split; [done|]. split; [done|]. split; [done|].
    split; [|by rewrite Hl]. pose proof (Hn NotEmpty) as Hne. cbn [waiting] in Hne. rewrite Hne in Hg'. pose proof (goes_on_trans _ _ _ _ _ Hg Hg') as Ht. by rewrite app_nil_r in Ht.
  - intros Hc Hx Hni. pose proof Hg as (_ & G2 & G3 & G4 & _). pose proof Hok1 as (Hk1 & Hoff1 & Hr1 & _). pose proof (current_not_null _ Hk1) as Hrn.
    destruct (run_sleep_on s1 NotFull Hok1) as (p & s' & E' & (Hok' & _ & Hq & _) & Hp); [by rewrite G3|by rewrite G2, G4|exact (not_eq_sym Hrn)|by apply Z.eqb_eq|].
    destruct p; [destruct Hp as [Hp _]; done|]. exists s'. split; [|split; [done|split; [done|rewrite <- G2; apply Hp]]].
    unfold putc_loop. sstep (run_full s1 Hoff1 Hr1). rewrite (proj2 (Z.eqb_eq _ 63)) by done. by sstep E'.
Qed.

Lemma run_getc_again s :
  machine_ok s -> holder (qlock (buffer s)) = running (kern s) -> queued s <> [] ->
  exists b s', getc_again InWait s = Ret (Done b, s') /\ machine_ok s' /\ queued s = b :: queued s' /\
    goes_on s s' (take 1 (waiters (qlock (buffer s)))) /\ holder (qlock (buffer s')) = NULL.
Proof.
  intros Hok Hh Hc. destruct (run_lock_release s Hok Hh) as (k' & E & Hok1 & Hg & Hn). set (s1 := mkMachine k' _ _) in *.
  destruct (run_getc_loop s1 Hok1 Hc) as (b & s' & E' & Hok' & Hq & Hg' & Hl). exists b, s'. split; [unfold getc_again, wake_up, sbind; by rewrite E|].
  split; [done|]. split; [done|]. split; [|by rewrite Hl]. pose proof (Hn NotFull) as Hne. cbn [waiting] in Hne. rewrite Hne in Hg'.
  pose proof (goes_on_trans _ _ _ _ _ Hg Hg') as Ht. by rewrite app_nil_r in Ht.
Qed.

Lemma run_putc_wait s b :
  machine_ok s -> in_external_intr (kern s) = false -> running (kern s) <> idle_thread (kern s) -> holder (qlock (buffer s)) <> running (kern s) -> count (buffer s) = 63 ->
  exists p s', intq_putc b s = Ret (Sleeps p, s') /\ falls_asleep s s' /\ sleeps_at s s' NotFull p.
Proof.
  intros Hok Hctx Hni Hh Hf. pose proof Hok as (Hk & Hoff & Hr & _). destruct (run_sleep_on s NotFull Hok Hctx Hni Hh) as (p & s' & E & H); [by apply Z.eqb_eq|].
  exists p, s'. split; [|done]. unfold intq_putc, putc_loop. sstep (run_intr_off s Hoff). sstep (run_full s Hoff Hr). rewrite (proj2 (Z.eqb_eq _ 63)) by done. by sstep E.
Qed.

Lemma run_getc_wait s :
  machine_ok s -> in_external_intr (kern s) = false -> running (kern s) <> idle_thread (kern s) -> holder (qlock (buffer s)) <> running (kern s) -> queued s = [] ->
  exists p s', intq_getc s = Ret (Sleeps p, s') /\ falls_asleep s s' /\ sleeps_at s s' NotEmpty p.
Proof.
  intros Hok Hctx Hni Hh Hf. pose proof Hok as (Hk & Hoff & Hr & _). destruct (run_sleep_on s NotEmpty Hok Hctx Hni Hh) as (p & s' & E & H); [by apply bool_decide_eq_true|].
  exists p, s'. split; [|done]. unfold intq_getc, getc_loop. sstep (run_intr_off s Hoff). sstep (run_empty s Hoff Hr). rewrite bool_decide_true by done. by sstep E.
Qed.

(** A thread that waited for the lock gets it: it becomes the waiter if the
    queue is still empty or full, and otherwise an assertion of [wait] fails. *)
Lemma run_wake_acquire s w :
  machine_ok s -> in_external_intr (kern s) = false -> running (kern s) <> idle_thread (kern s) ->
  (holder (qlock (buffer s)) = NULL -> blocked_on s w = false -> wake_up w InAcquire s = Err AssertFailed) /\
  (holder (qlock (buffer s)) <> NULL \/ blocked_on s w = true ->
   exists p s', wake_up w InAcquire s = Ret (Some p, s') /\ falls_asleep s s' /\ sleeps_at s s' w p).
Proof.
  intros Hok Hctx Hni. unfold wake_up. destruct (run_lock_loop s Hok Hctx Hni) as [[Hh E]|(Hh & s' & E & Hs & Hq)].
  - pose proof (run_locked_wait s w Hok Hctx Hni Hh) as Hlw. cbv zeta in Hlw. sstep E. destruct (blocked_on s w) eqn:Hb; (split; [intros _ Hx|intros Hx]); try done.
    + destruct Hlw as (s' & E' & Hs & Hq). exists InWait, s'. split; [by sstep E'|]. split; [done|]. unfold sleeps_at. rewrite Hq. by destruct w.
    + unfold sbind. by rewrite Hlw.
    + by destruct Hx.
  - split; [done|]. intros _. exists InAcquire, s'. split; [by sstep E|]. split; [done|]. unfold sleeps_at. rewrite Hq. by split_and!.
Qed.


(** *** Concrete machines *)

Definition demo_keys : keyboard := mkKeyboard false true false false false false false 0.

(** Two bytes queued, nobody waits. *)
Definition demo_machine : machine := mkMachine demo_kernel (mkIntq lock_init NULL NULL (replicate 63 7 ++ [104]) 1 63) demo_keys.

(** An empty queue on which the thread 12288 waits. *)
Definition demo_reader : machine := mkMachine demo_kernel (mkIntq (mkLock 12288 0 []) NULL 12288 (replicate 64 0) 5 5) demo_keys.

Lemma demo_machine_ok : machine_ok demo_machine.
Proof.
  split; [apply demo_kernel_ok|]. split; [done|]. split; [split; [done|by vm_compute]|].
  split; [split; [by right|by intros []]|]. split; [constructor|]. by split; [constructor|].
Qed.

Lemma demo_reader_ok : machine_ok demo_reader.
Proof.
  split; [apply demo_kernel_ok|]. split; [done|]. split; [split; [done|by vm_compute]|].
  split; [split; [by left|by intros []]|]. split; [cbn; apply NoDup_singleton|]. split; [|done].
  cbn. apply Forall_singleton. split; [done|]. eexists. by split; [vm_compute|].
Qed.


(** A second reader, and two bytes that arrive before the first reader runs
    again: the first reader takes its byte, and the second one finds the queue
    not empty after it has got the lock and trips the assertion of [wait]. *)
Example second_reader_panics :
  exists s r, (do! first := intq_getc in        (* the thread 4096 sleeps for the lock *)
   do! _ := intq_putc 65 in                     (* two interrupts while 8192 runs *)
   do! _ := intq_putc 66 in
   do! _ := on_kernel thread_block in
   do! second := getc_again InWait in           (* 12288 gets the first byte *)
   do! _ := on_kernel thread_block in
   sret (first, second)) demo_reader = Ret (r, s) /\
  r = (Sleeps InAcquire, Done 65) /\ running (kern s) = 4096 /\ queued s = [66] /\ getc_again InAcquire s = Err AssertFailed.
Proof. eexists _, _. split; [vm_compute; reflexivity|]. by vm_compute. Qed.
