(* ===== verification/Synch.v ===== *)
(** * Synchronization ([threads/synch.c])

    Semaphores, locks and condition variables, as a machine on top of the
    scheduler of [Thread].  The world holds the kernel, the memory of the
    synchronization objects and, for every thread, the stack of what it still
    has to execute when it runs again (its frames); a call that the code
    makes with interrupts on is a frame of its own, so that the thread can be
    preempted before it.  A step of the machine is a section of the C code
    that runs with interrupts off, together with the tests and assignments
    that precede it; a timer interrupt can occur between two steps whenever
    interrupts are on.  The list of waiters of a condition is accessed by one
    step at a time, as the lock that protects it guarantees. *)
From stdpp Require Import prelude list gmap.
From Stdlib Require Import ZArith Lia.
From S2P Require Import Prelude Dlist Thread.
#[local] Open Scope Z_scope.

(** ** Data *)

Record semaphore : Type := mkSema { value : Z; waiters : list Z }.

(** What remains to be executed by a thread:
    - [FYield old]: the end of [thread_yield], which restores the level;
    - [FIret]: the return from an interrupt handler, which enables interrupts;
    - [FStart]: the start of [kernel_thread];
    - [FSema s old]: the loop of [sema_down] on [s], after [thread_block];
    - [FDown s], [FUp s]: a call of [sema_down], [sema_up];
    - [FHolder l]: [lock->holder = thread_current ()] in [lock_acquire];
    - [FAcquire l]: a call of [lock_acquire];
    - [FBroadcast c l]: the loop of [cond_broadcast];
    - [FHalt], [FLoop]: the two halves of the loop of the idle thread. *)
Inductive frame : Type :=
| FYield (old : bool)
| FIret
| FStart
| FSema (s : Z) (old : bool)
| FDown (s : Z)
| FUp (s : Z)
| FHolder (l : Z)
| FAcquire (l : Z)
| FBroadcast (c l : Z)
| FHalt
| FLoop.

Record world : Type := mkWorld {
  kern : kernel;
  semas : gmap Z semaphore;
  holders : gmap Z Z;
  conds : gmap Z (list Z);
  conts : gmap Z (list frame)
}.

Definition with_kern (w : world) (x : kernel) : world :=
  mkWorld x (semas w) (holders w) (conds w) (conts w).
Definition with_semas (w : world) (x : gmap Z semaphore) : world :=
  mkWorld (kern w) x (holders w) (conds w) (conts w).
Definition with_holders (w : world) (x : gmap Z Z) : world :=
  mkWorld (kern w) (semas w) x (conds w) (conts w).
Definition with_conds (w : world) (x : gmap Z (list Z)) : world :=
  mkWorld (kern w) (semas w) (holders w) x (conts w).
Definition with_conts (w : world) (x : gmap Z (list frame)) : world :=
  mkWorld (kern w) (semas w) (holders w) (conds w) x.

(** [&lock->semaphore], after the 4-byte [holder]. *)
Definition lock_sema (l : Z) : Z := l + 4.

(** ** Access to the parts of the world *)

Definition kcall {A} (m : ST kernel A) : ST world A := fun w =>
  match m (kern w) with Ret (a, k) => Ret (a, with_kern w k) | Err e => Err e end.

Definition read_sema (s : Z) : ST world semaphore := fun w =>
  match semas w !! s with Some x => Ret (x, w) | None => Err BadAccess end.

Definition write_sema (s : Z) (x : semaphore) : ST world unit := fun w =>
  Ret (tt, with_semas w (<[s := x]> (semas w))).

Definition read_holder (l : Z) : ST world Z := fun w =>
  match holders w !! l with Some x => Ret (x, w) | None => Err BadAccess end.

Definition write_holder (l x : Z) : ST world unit := fun w =>
  Ret (tt, with_holders w (<[l := x]> (holders w))).

Definition read_cond (c : Z) : ST world (list Z) := fun w =>
  match conds w !! c with Some x => Ret (x, w) | None => Err BadAccess end.

Definition write_cond (c : Z) (x : list Z) : ST world unit := fun w =>
  Ret (tt, with_conds w (<[c := x]> (conds w))).

Definition frames (w : world) (t : Z) : list frame := default [] (conts w !! t).

(** Pushes what the running thread has to do next. *)
Definition push (f : frame) : ST world unit := fun w =>
  let t := running (kern w) in
  Ret (tt, with_conts w (<[t := f :: frames w t]> (conts w))).

Definition pop : ST world unit := fun w =>
  let t := running (kern w) in
  Ret (tt, with_conts w (<[t := tail (frames w t)]> (conts w))).

(** ** Semaphores *)

Definition sema_init (s value : Z) : ST world unit :=
  do! _ := assert_ (negb (s =? NULL)) in
  write_sema s (mkSema (u32 value) []).

(** One evaluation of the loop condition of [sema_down], with interrupts
    off: sleep, or decrement and return. *)
Definition sema_loop (s : Z) (old : bool) : ST world unit :=
  do! x := read_sema s in
  if value x =? 0 then
    do! t := kcall thread_current in
    do! _ := write_sema s (mkSema (value x) (waiters x ++ [t])) in
    do! _ := push (FSema s old) in
    kcall thread_block
  else
    do! _ := write_sema s (mkSema (u32 (value x - 1)) (waiters x)) in
    do! _ := kcall (intr_set_level old) in
    sret tt.

Definition sema_down (s : Z) : ST world unit :=
  do! _ := assert_ (negb (s =? NULL)) in
  do! c := kcall intr_context in
  do! _ := assert_ (negb c) in
  do! old := kcall intr_disable in
  sema_loop s old.

Definition sema_try_down (s : Z) : ST world bool :=
  do! _ := assert_ (negb (s =? NULL)) in
  do! old := kcall intr_disable in
  do! x := read_sema s in
  do! success := (if 0 <? value x then
      do! _ := write_sema s (mkSema (u32 (value x - 1)) (waiters x)) in sret true
    else sret false) in
  do! _ := kcall (intr_set_level old) in
  sret success.

Definition sema_up (s : Z) : ST world unit :=
  do! _ := assert_ (negb (s =? NULL)) in
  do! old := kcall intr_disable in
  do! x := read_sema s in
  do! _ := (match waiters x with
    | [] => sret tt
    | t :: rest =>
        do! _ := write_sema s (mkSema (value x) rest) in
        kcall (thread_unblock t)
    end) in
  do! x := read_sema s in
  do! _ := write_sema s (mkSema (u32 (value x + 1)) (waiters x)) in
  do! _ := kcall (intr_set_level old) in
  sret tt.

(** ** Locks *)

Definition lock_init (l : Z) : ST world unit :=
  do! _ := assert_ (negb (l =? NULL)) in
  do! _ := write_holder l NULL in
  sema_init (lock_sema l) 1.

Definition lock_held_by_current_thread (l : Z) : ST world bool :=
  do! _ := assert_ (negb (l =? NULL)) in
  do! h := read_holder l in
  do! t := kcall thread_current in
  sret (h =? t).

Definition lock_acquire (l : Z) : ST world unit :=
  do! _ := assert_ (negb (l =? NULL)) in
  do! c := kcall intr_context in
  do! _ := assert_ (negb c) in
  do! h := lock_held_by_current_thread l in
  do! _ := assert_ (negb h) in
  do! _ := push (FHolder l) in
  push (FDown (lock_sema l)).

Definition lock_try_acquire (l : Z) : ST world bool :=
  do! _ := assert_ (negb (l =? NULL)) in
  do! h := lock_held_by_current_thread l in
  do! _ := assert_ (negb h) in
  do! success := sema_try_down (lock_sema l) in
  do! _ := (if success then push (FHolder l) else sret tt) in
  sret success.

Definition lock_release (l : Z) : ST world unit :=
  do! _ := assert_ (negb (l =? NULL)) in
  do! h := lock_held_by_current_thread l in
  do! _ := assert_ h in
  do! _ := write_holder l NULL in
  push (FUp (lock_sema l)).

(** ** Condition variables *)

Definition cond_init (c : Z) : ST world unit :=
  do! _ := assert_ (negb (c =? NULL)) in write_cond c [].

(** [waiter] is the address of the semaphore in the [semaphore_elem] on the
    stack of the caller.  After [lock_release], the thread calls [sema_down]
    on it and then [lock_acquire]. *)
Definition cond_wait (c l waiter : Z) : ST world unit :=
  do! _ := assert_ (negb (c =? NULL)) in
  do! _ := assert_ (negb (l =? NULL)) in
  do! x := kcall intr_context in
  do! _ := assert_ (negb x) in
  do! h := lock_held_by_current_thread l in
  do! _ := assert_ h in
  do! _ := sema_init waiter 0 in
  do! ws := read_cond c in
  do! _ := write_cond c (ws ++ [waiter]) in
  do! _ := push (FAcquire l) in
  do! _ := push (FDown waiter) in
  lock_release l.

Definition cond_signal (c l : Z) : ST world unit :=
  do! _ := assert_ (negb (c =? NULL)) in
  do! _ := assert_ (negb (l =? NULL)) in
  do! x := kcall intr_context in
  do! _ := assert_ (negb x) in
  do! h := lock_held_by_current_thread l in
  do! _ := assert_ h in
  do! ws := read_cond c in
  match ws with
  | [] => sret tt
  | s :: rest => do! _ := write_cond c rest in push (FUp s)
  end.

(** [while (!list_empty (&cond->waiters)) cond_signal (cond, lock)]: one
    iteration, the rest of the loop being a frame. *)
Definition cond_broadcast (c l : Z) : ST world unit :=
  do! _ := assert_ (negb (c =? NULL)) in
  do! _ := assert_ (negb (l =? NULL)) in
  do! ws := read_cond c in
  match ws with
  | [] => sret tt
  | _ :: _ => do! _ := push (FBroadcast c l) in cond_signal c l
  end.

(** ** The machine *)

(** What client code can call. *)
Inductive op : Type :=
| OpDown (s : Z) | OpTryDown (s : Z) | OpUp (s : Z)
| OpAcquire (l : Z) | OpTryAcquire (l : Z) | OpRelease (l : Z)
| OpWait (c l waiter : Z) | OpSignal (c l : Z) | OpBroadcast (c l : Z)
| OpYield | OpExit | OpCreate (nm : list Z) (prio page : Z).

Definition yield_call : ST world unit :=
  do! w := get in
  match thread_yield (kern w) with
  | Ret (old, k) =>
      let t := running (kern w) in
      put (with_kern (with_conts w (<[t := FYield old :: frames w t]> (conts w))) k)
  | Err e => stop e
  end.

Definition create_call (nm : list Z) (prio page : Z) : ST world unit :=
  do! _ := kcall (thread_create nm prio (Some page)) in
  do! w := get in
  put (with_conts w (<[page := [FStart]]> (conts w))).

Definition call (o : op) : ST world unit :=
  match o with
  | OpDown s => sema_down s
  | OpTryDown s => do! _ := sema_try_down s in sret tt
  | OpUp s => sema_up s
  | OpAcquire l => lock_acquire l
  | OpTryAcquire l => do! _ := lock_try_acquire l in sret tt
  | OpRelease l => lock_release l
  | OpWait c l waiter => cond_wait c l waiter
  | OpSignal c l => cond_signal c l
  | OpBroadcast c l => cond_broadcast c l
  | OpYield => yield_call
  | OpExit => kcall thread_exit
  | OpCreate nm prio page => create_call nm prio page
  end.

(** Executing the topmost frame of the running thread. *)
Definition resume (f : frame) : ST world unit :=
  do! _ := pop in
  match f with
  | FYield old => do! _ := kcall (intr_set_level old) in sret tt
  | FIret => do! w := get in put (with_kern w (with_intr (kern w) true))
  | FStart => do! _ := kcall intr_enable in sret tt
  | FSema s old => sema_loop s old
  | FDown s => sema_down s
  | FUp s => sema_up s
  | FHolder l => do! t := kcall thread_current in write_holder l t
  | FAcquire l => lock_acquire l
  | FBroadcast c l => cond_broadcast c l
  | FHalt => do! _ := push FLoop in do! w := get in put (with_kern w (with_intr (kern w) true))
  | FLoop => do! _ := kcall intr_disable in do! _ := push FHalt in kcall thread_block
  end.

(** A timer interrupt: the interrupt gate clears the flag; if the handler
    yields, the interrupted thread is left inside of [thread_yield], called
    from the handler. *)
Definition tick : ST world unit :=
  do! w := get in
  match intr_handler 32 (Some timer_interrupt) (with_intr (kern w) false) with
  | Ret (y, k) =>
      let t := running (kern w) in
      if y then put (with_kern (with_conts w (<[t := FYield false :: FIret :: frames w t]> (conts w))) k)
      else put (with_kern w (with_intr k true))
  | Err e => stop e
  end.

(** What the callers owe to the functions: the semaphore inside of a lock is
    used by the functions on locks only, the semaphore on the stack of
    [cond_wait] has no waiters yet, and the page of a new thread is free. *)
Definition private_sema (w : world) (s : Z) : Prop :=
  forall l, is_Some (holders w !! l) -> s <> lock_sema l.

Definition op_ok (w : world) (o : op) : Prop :=
  match o with
  | OpDown s | OpTryDown s | OpUp s => private_sema w s
  | OpWait c l waiter => private_sema w waiter /\
      forall x, semas w !! waiter = Some x -> waiters x = []
  | OpCreate nm prio page => threads (kern w) !! page = None /\ page <> NULL /\
      page <> idle_thread (kern w) /\ PRI_MIN <= prio <= PRI_MAX
  | _ => True
  end.

(** The steps of the machine: the running thread calls a function, goes on
    with what it has to do, or is interrupted by the timer. *)
Inductive step (w w' : world) : Prop :=
| step_call o :
    frames w (running (kern w)) = [] -> running (kern w) <> idle_thread (kern w) ->
    op_ok w o -> call o w = Ret (tt, w') -> step w w'
| step_resume f fs :
    frames w (running (kern w)) = f :: fs -> resume f w = Ret (tt, w') -> step w w'
| step_tick :
    intr_on (kern w) = true -> tick w = Ret (tt, w') -> step w w'.

(** The worlds in which the machine starts: no thread waits, and all that the
    other threads have to do is to run for the first time. *)
Record initial (w : world) : Prop := mkInitial {
  in_kernel : kernel_ok (kern w);
  in_context : in_external_intr (kern w) = false;
  in_semas s x : semas w !! s = Some x -> is_u32 (value x) /\ waiters x = [];
  in_locks l h : holders w !! l = Some h -> h = NULL /\
    exists x, semas w !! lock_sema l = Some x /\ value x = 1;
  in_conds c ss s : conds w !! c = Some ss -> s ∈ ss -> private_sema w s;
  in_blocked t th : threads (kern w) !! t = Some th -> status th = THREAD_BLOCKED ->
    t = idle_thread (kern w);
  in_frames t : t <> idle_thread (kern w) -> frames w t = [] \/ frames w t = [FStart];
  in_idle : frames w (idle_thread (kern w)) = [FHalt]
}.
