(* ===== verification/SynchInv.v ===== *)
(** * Invariant of the synchronization machine

    The invariant [winv] ties the wait lists of the semaphores to the
    scheduler: a thread is in a wait list exactly when it is blocked inside
    of [sema_down], no thread is in two lists, and wakeups are not lost: as
    long as a semaphore has waiters, its value does not exceed the number of
    threads that were woken from it and have not run since.  Every step of
    the machine preserves it. *)
From stdpp Require Import prelude list gmap.
From Stdlib Require Import ZArith Lia.
From S2P Require Import Prelude Dlist Thread Synch.
#[local] Open Scope Z_scope.

(** ** Vocabulary *)

Definition thread_st (k : kernel) (t : Z) : option thread_status := status <$> threads k !! t.

(** The thread is inside of [sema_down] on [s], about to test its value. *)
Definition in_down (s : Z) (fs : list frame) : bool :=
  match fs with FSema s' _ :: _ => s' =? s | _ => false end.

Definition countb (P : Z -> bool) (l : list Z) : Z := Z.of_nat (length (filter (fun t => P t = true) l)).

(** The number of threads woken from [s] that have not run since. *)
Definition woken (w : world) (s : Z) : Z :=
  countb (fun t => in_down s (frames w t)) (running (kern w) :: ready_list (kern w)).

Definition is_sema_frame (f : frame) : bool := match f with FSema _ _ => true | _ => false end.

Definition no_sema (fs : list frame) : Prop := Forall (fun f => is_sema_frame f = false) fs.

Definition idle_frame (f : frame) : bool := match f with FHalt | FLoop => true | _ => false end.
Definition intr_frame (f : frame) : bool := match f with FYield _ | FIret => true | _ => false end.

(** The idle thread runs its loop only, and the others never run it. *)
Definition frame_for (idle : bool) (f : frame) : bool :=
  if idle then idle_frame f || intr_frame f else negb (idle_frame f).

Definition credit (d : option Z) (s : Z) : Z := if decide (d = Some s) then 1 else 0.

(** [winv d w]: the invariant, where the running thread may be in debt: with
    [d = Some s] it was woken from [s] and has left the list of those that
    count. *)
Record winv (d : option Z) (w : world) : Prop := mkWinv {
  wi_kernel : kernel_ok (kern w);
  wi_context : in_external_intr (kern w) = false;
  wi_value s x : semas w !! s = Some x -> is_u32 (value x) /\ NoDup (waiters x);
  wi_waiters s x t : semas w !! s = Some x -> t ∈ waiters x ->
    thread_st (kern w) t = Some THREAD_BLOCKED /\ in_down s (frames w t) = true;
  wi_blocked t : thread_st (kern w) t = Some THREAD_BLOCKED -> t <> idle_thread (kern w) ->
    exists s x, semas w !! s = Some x /\ t ∈ waiters x;
  wi_wake s x : semas w !! s = Some x -> waiters x <> [] -> value x <= woken w s + credit d s;
  wi_frames t : no_sema (tail (frames w t)) /\
    Forall (fun f => frame_for (bool_decide (t = idle_thread (kern w))) f = true) (frames w t);
  wi_off s : in_down s (frames w (running (kern w))) = true -> intr_on (kern w) = false
}.

(** The running thread is executing code that it was not blocked in. *)
Definition mid (d : option Z) (w : world) : Prop := winv d w /\ no_sema (frames w (running (kern w))).

Ltac wsimp :=
  cbn [kern semas holders conds conts with_kern with_semas with_holders with_conds with_conts
       value waiters].

(** ** Counting *)

Lemma countb_cons P t l : countb P (t :: l) = (if P t then 1 else 0) + countb P l.
Proof.
  unfold countb. rewrite filter_cons. destruct (P t) eqn:E.
  - rewrite decide_True by done. simpl. lia.
  - rewrite decide_False by congruence. lia.
Qed.

Lemma countb_app P l1 l2 : countb P (l1 ++ l2) = countb P l1 + countb P l2.
Proof. induction l1 as [|a l IH]; simpl; [|rewrite !countb_cons, IH]; unfold countb; simpl; lia. Qed.

Lemma countb_nonneg P l : 0 <= countb P l.
Proof. unfold countb. lia. Qed.

Lemma countb_mono P Q l : (forall t, t ∈ l -> P t = true -> Q t = true) -> countb P l <= countb Q l.
Proof.
  induction l as [|a l IH]; intros H; [done|]. rewrite !countb_cons.
  assert (countb P l <= countb Q l) by (apply IH; set_solver).
  destruct (P a) eqn:E; [rewrite (H a); [lia|set_solver|done]|]. destruct (Q a); lia.
Qed.

(** ** Frames *)

Lemma frames_insert w t fs t' :
  frames (with_conts w (<[t := fs]> (conts w))) t' = if decide (t = t') then fs else frames w t'.
Proof. unfold frames. wsimp. rewrite lookup_insert. by case_decide. Qed.

Lemma in_down_no_sema s fs : no_sema fs -> in_down s fs = false.
Proof. destruct fs as [|[] fs]; try done. by inversion 1. Qed.

Lemma in_down_inv s fs : in_down s fs = true -> exists old fs', fs = FSema s old :: fs'.
Proof. destruct fs as [|[] fs]; try done. simpl. intros ->%Z.eqb_eq. eauto. Qed.

Lemma in_down_unique s s' fs : in_down s fs = true -> in_down s' fs = true -> s = s'.
Proof. intros (? & ? & ->)%in_down_inv (? & ? & [=])%in_down_inv. done. Qed.

(** ** The scheduler, seen from the wait lists *)

(** Leaving the CPU keeps every thread that counts, except the one leaving. *)
Lemma countb_switch P k s rl al :
  rl = ready_list k \/ rl = ready_list k ++ [running k] ->
  countb P (running k :: ready_list k) <=
  countb P (running (switch_to (leave k s rl al)) :: ready_list (switch_to (leave k s rl al))) +
  (if P (running k) then 1 else 0).
Proof.
  intros Hrl. unfold switch_to. cbn [running ready_list]. unfold next_thread, leave. ksimp.
  assert (Hc : countb P (ready_list k) <= countb P rl).
  { destruct Hrl as [->| ->]; [lia|]. rewrite countb_app. pose proof (countb_nonneg P [running k]). lia. }
  rewrite countb_cons. destruct rl as [|a rl]; simpl; [|lia]. rewrite countb_cons.
  destruct (P (idle_thread k)); lia.
Qed.

Lemma switch_blocked_inv k s rl al t :
  kinv None (leave k s rl al) -> idle_thread k <> NULL ->
  thread_st (switch_to (leave k s rl al)) t = Some THREAD_BLOCKED ->
  t = running k /\ s = THREAD_BLOCKED \/ t <> running k /\ thread_st k t = Some THREAD_BLOCKED.
Proof.
  intros H Hi. unfold thread_st. destruct (threads (switch_to _) !! t) as [th'|] eqn:E; [|done].
  simpl. intros [= Hs]. destruct (switch_lookup _ _ _ _ H (or_introl Hi) E) as (th & Ht & H1 & H2).
  destruct (decide (t = next_thread (leave k s rl al))) as [Hn|Hn]; [by rewrite (H1 Hn) in Hs|].
  rewrite (H2 Hn) in Hs. unfold leave in Ht. ksimp. unfold with_all, with_ready, with_threads in Ht.
  cbn [threads] in Ht. rewrite set_current_lookup in Ht. case_decide as Hd.
  - left. destruct (threads k !! t); [|done]. injection Ht as <-. done.
  - right. split; [done|]. rewrite Ht. simpl. by rewrite Hs.
Qed.

Lemma switch_blocked k s rl al t :
  kinv None (leave k s rl al) -> idle_thread k <> NULL -> t <> idle_thread k ->
  t <> running k /\ thread_st k t = Some THREAD_BLOCKED \/
    t = running k /\ s = THREAD_BLOCKED /\ is_Some (threads k !! t) ->
  thread_st (switch_to (leave k s rl al)) t = Some THREAD_BLOCKED.
Proof.
  intros H Hi Hne Hb.
  assert (Ht : exists th, threads (leave k s rl al) !! t = Some th /\ status th = THREAD_BLOCKED).
  { unfold leave, with_all, with_ready, with_threads. cbn [threads]. rewrite set_current_lookup.
    destruct Hb as [[Hr Hb]|(-> & -> & [th Hth])].
    - rewrite decide_False by done. unfold thread_st in Hb. destruct (threads k !! t); [|done].
      injection Hb as Hb. eauto.
    - rewrite decide_True, Hth by done. simpl. eauto. }
  destruct Ht as (th & Ht & Hs). unfold thread_st.
  rewrite (switch_keep _ _ _ H (or_introl Hi) Ht) by congruence. rewrite bool_decide_false; [simpl; congruence|].
  intros ->. unfold next_thread in Ht, Hne. unfold leave at 1 in Hne. ksimp.
  destruct (ready_list (leave k s rl al)) as [|a l] eqn:E.
  - change (ready_list (leave k s rl al)) with rl in E. subst rl. done.
  - destruct (ki_ready _ _ H a) as (th' & Ht' & Hs'); [rewrite E; by left|]. congruence.
Qed.

(** ** Preservation, atomic section by atomic section *)

Lemma winv_mid w : mid None w -> winv None w.
Proof. by intros [? _]. Qed.

Lemma wi_waiter_facts d w s x t :
  winv d w -> semas w !! s = Some x -> t ∈ waiters x ->
  t <> idle_thread (kern w) /\ t <> running (kern w) /\ exists th, threads (kern w) !! t = Some th /\
    status th = THREAD_BLOCKED.
Proof.
  intros H Hs Ht. destruct (wi_waiters _ _ H _ _ _ Hs Ht) as [Hb Hd]. unfold thread_st in Hb.
  destruct (threads (kern w) !! t) as [th|] eqn:E; [|done]. injection Hb as Hb. split_and!.
  - intros ->. apply in_down_inv in Hd as (old & fs & Hd).
    destruct (wi_frames _ _ H (idle_thread (kern w))) as [_ Hf]. rewrite Hd, bool_decide_true in Hf by done.
    by inversion Hf.
  - intros ->. destruct (wi_kernel _ _ H) as [Hk _]. assert (status th = THREAD_RUNNING) by (by apply (ki_run _ _ Hk _ _ E)).
    congruence.
  - eauto.
Qed.

(** A change of the frames of the running thread, which is not inside of
    [sema_down] before or after. *)
Lemma mid_frames d w fs :
  mid d w -> no_sema fs ->
  Forall (fun f => frame_for (bool_decide (running (kern w) = idle_thread (kern w))) f = true) fs ->
  mid d (with_conts w (<[running (kern w) := fs]> (conts w))).
Proof.
  intros [H Hn] Hfs Hid. set (w' := with_conts _ _).
  assert (Hf : forall t, frames w' t = if decide (running (kern w) = t) then fs else frames w t)
    by apply frames_insert.
  assert (Hd : forall s t, in_down s (frames w' t) = in_down s (frames w t)).
  { intros s t. rewrite Hf. destruct (decide (running (kern w) = t)) as [<-|_]; [|done].
    by rewrite !in_down_no_sema. }
  split; [|wsimp; by rewrite Hf, decide_True by done].
  split; unfold w'; wsimp; try apply H.
  - intros s x t Hs Ht. fold w'. rewrite Hd. by apply (wi_waiters _ _ H _ x).
  - intros s x Hs Hx. fold w'. assert (woken w' s = woken w s) as ->; [|by apply (wi_wake _ _ H)].
    unfold woken. unfold w' at 2 3. wsimp. apply Z.le_antisymm; apply countb_mono; intros t _; by rewrite Hd.
  - intros t. fold w'. rewrite Hf. destruct (decide (running (kern w) = t)) as [<-|_]; [|apply (wi_frames _ _ H)].
    split; [|done]. destruct fs; [done|]. by inversion Hfs.
  - intros s. fold w'. rewrite Hd. apply (wi_off _ _ H).
Qed.

(** A change of the interrupt level or of the counters of ticks. *)
Lemma mid_kernel d w k :
  mid d w -> threads k = threads (kern w) -> ready_list k = ready_list (kern w) ->
  all_list k = all_list (kern w) -> idle_thread k = idle_thread (kern w) ->
  running k = running (kern w) -> in_external_intr k = false -> mid d (with_kern w k).
Proof.
  intros [H Hn] E1 E2 E3 E4 E5 E6.
  split; [|wsimp; by rewrite E5].
  split; wsimp; unfold woken, thread_st; wsimp; rewrite ?E1, ?E2, ?E4, ?E5; try apply H; try done.
  - by apply (kernel_ok_ext (kern w)); [apply H|..].
  - intros s. change (frames (with_kern w k)) with (frames w). by rewrite in_down_no_sema.
Qed.

Lemma mid_intr d w lv : mid d w -> mid d (with_kern w (with_intr (kern w) lv)).
Proof. intros H. apply mid_kernel; try done. apply (wi_context _ _ (proj1 H)). Qed.

Lemma mid_holders d w x : mid d w -> mid d (with_holders w x).
Proof. intros [[] ?]. by split; [split|]. Qed.

Lemma mid_conds d w x : mid d w -> mid d (with_conds w x).
Proof. intros [[] ?]. by split; [split|]. Qed.

(** A change of the value of a semaphore. *)
Lemma mid_value d d' w s x v :
  mid d w -> semas w !! s = Some x -> is_u32 v ->
  (waiters x <> [] -> v <= woken w s + credit d' s) ->
  (forall s', s' <> s -> credit d s' = credit d' s') ->
  mid d' (with_semas w (<[s := mkSema v (waiters x)]> (semas w))).
Proof.
  intros [H Hn] Hs Hv Hw Hd. split; [|done].
  split; wsimp; try apply H.
  - intros s' x'. rewrite lookup_insert. case_decide; [|apply (wi_value _ _ H)]. intros [= <-]. wsimp.
    split; [done|]. apply (wi_value _ _ H _ _ Hs).
  - intros s' x' t. rewrite lookup_insert. case_decide; [|apply (wi_waiters _ _ H)]. intros [= <-] Ht. subst s'.
    by apply (wi_waiters _ _ H s x).
  - intros t Ht Hi. destruct (wi_blocked _ _ H t Ht Hi) as (s' & x' & Hx & Hin).
    destruct (decide (s' = s)) as [->|Hne].
    + exists s. eexists. rewrite lookup_insert_eq. split; [done|]. wsimp. congruence.
    + exists s', x'. by rewrite lookup_insert_ne.
  - intros s' x'. rewrite lookup_insert. case_decide as Hc.
    + intros [= <-]. subst s'. apply Hw.
    + intros Hx Hne. rewrite <- Hd by done. by apply (wi_wake _ _ H).
Qed.

(** A semaphore without waiters is initialized. *)
Lemma mid_init d w s v :
  mid d w -> is_u32 v -> (forall x, semas w !! s = Some x -> waiters x = []) ->
  mid d (with_semas w (<[s := mkSema v []]> (semas w))).
Proof.
  intros [H Hn] Hv Hs. split; [|done]. split; wsimp; try apply H.
  - intros s' x'. rewrite lookup_insert. case_decide; [|apply (wi_value _ _ H)]. intros [= <-].
    split; [done|constructor].
  - intros s' x' t. rewrite lookup_insert. case_decide; [|apply (wi_waiters _ _ H)].
    intros [= <-] []%elem_of_nil.
  - intros t Ht Hi. destruct (wi_blocked _ _ H t Ht Hi) as (s' & x' & Hx & Hin). exists s', x'.
    rewrite lookup_insert_ne; [done|]. intros <-. rewrite (Hs _ Hx) in Hin. by apply elem_of_nil in Hin.
  - intros s' x'. rewrite lookup_insert. case_decide; [|apply (wi_wake _ _ H)]. by intros [= <-].
Qed.

(** *** Leaving the CPU *)

(** The running thread, with [fs] left to do, gets the status [s]; it blocks
    only if it is the idle thread. *)
Lemma winv_leave w fs s rl al :
  let k := with_intr (kern w) false in
  mid None w -> no_sema fs ->
  Forall (fun f => frame_for (bool_decide (running (kern w) = idle_thread (kern w))) f = true) fs ->
  kinv None (leave k s rl al) ->
  rl = ready_list k \/ rl = ready_list k ++ [running k] ->
  (s = THREAD_BLOCKED -> running k = idle_thread k) ->
  winv None (with_kern (with_conts w (<[running k := fs]> (conts w))) (switch_to (leave k s rl al))).
Proof.
  intros k Hm0 Hfs Hid Hk Hrl Hs. destruct (mid_frames _ _ fs Hm0 Hfs Hid) as [H Hn].
  set (w1 := with_conts w _) in *. fold w1. change (kern w) with (kern w1) in k. subst k.
  set (k := with_intr (kern w1) false) in *. destruct (wi_kernel _ _ H) as [Hki Hi].
  split; wsimp; try apply H.
  - by apply kernel_ok_switch.
  - intros s' x t Hx Ht. destruct (wi_waiter_facts _ _ _ _ _ H Hx Ht) as (H1 & H2 & th & H3 & H4).
    destruct (wi_waiters _ _ H _ _ _ Hx Ht). split; [|done]. apply switch_blocked; try done. by left.
  - intros t Ht Hne. apply switch_blocked_inv in Ht as [[-> Hb]|[_ Ht]]; try done.
    + destruct Hne. by rewrite (Hs Hb).
    + by apply (wi_blocked _ _ H).
  - intros s' x Hx Hne. pose proof (wi_wake _ _ H _ _ Hx Hne) as Hw. etransitivity; [apply Hw|].
    unfold woken. wsimp.
    pose proof (countb_switch (fun t => in_down s' (frames w1 t)) k s rl al Hrl) as Hc.
    cbv beta in Hc. change (running k) with (running (kern w1)) in Hc.
    rewrite in_down_no_sema in Hc by done. change (ready_list k) with (ready_list (kern w1)) in Hc.
    change (frames (with_kern w1 _)) with (frames w1). lia.
  - intros s' _. reflexivity.
Qed.

(** [sema_down] finds the value zero: the thread joins the wait list. *)
Definition slept (w : world) (s : Z) (x : semaphore) (old : bool) : world :=
  let k := kern w in
  with_kern (with_conts (with_semas w (<[s := mkSema (value x) (waiters x ++ [running k])]> (semas w)))
    (<[running k := FSema s old :: frames w (running k)]> (conts w)))
    (switch_to (leave k THREAD_BLOCKED (ready_list k) (all_list k))).

Lemma slept_frames w s x old t :
  frames (slept w s x old) t =
    if decide (running (kern w) = t) then FSema s old :: frames w t else frames w t.
Proof. unfold slept, frames. wsimp. rewrite lookup_insert. case_decide; [by subst|done]. Qed.

Lemma winv_slept d w s x old :
  mid d w -> semas w !! s = Some x -> value x = 0 -> intr_on (kern w) = false ->
  running (kern w) <> idle_thread (kern w) -> (forall s', s' <> s -> credit d s' = 0) ->
  winv None (slept w s x old).
Proof.
  intros [H Hn] Hs Hv Hoff Hne Hd. set (k := kern w) in *. destruct (wi_kernel _ _ H) as [Hki Hi].
  assert (Hk : kinv None (leave k THREAD_BLOCKED (ready_list k) (all_list k)))
    by (apply kernel_ok_leave_block, H).
  assert (Hcur : in_down s (FSema s old :: frames w (running k)) = true) by apply Z.eqb_refl.
  assert (Hwt : forall s' x' t, semas (slept w s x old) !! s' = Some x' -> t ∈ waiters x' ->
    (s' = s /\ t = running k) \/ exists x0, semas w !! s' = Some x0 /\ t ∈ waiters x0).
  { intros s' x' t. unfold slept. wsimp. rewrite lookup_insert. case_decide; [|eauto].
    intros [= <-]. wsimp. subst s'. rewrite elem_of_app, list_elem_of_singleton. intros [?| ->]; eauto. }
  split; try (unfold slept; wsimp; apply H).
  - by apply kernel_ok_switch.
  - intros s' x'. unfold slept. wsimp. rewrite lookup_insert. case_decide; [|apply (wi_value _ _ H)].
    intros [= <-]. wsimp. destruct (wi_value _ _ H _ _ Hs) as [? Hnd]. split; [done|].
    apply NoDup_app. split_and!; [done| |repeat constructor; set_solver].
    intros t Ht ->%list_elem_of_singleton. by destruct (wi_waiter_facts _ _ _ _ _ H Hs Ht) as (_ & ? & _).
  - intros s' x' t Hx Ht. rewrite slept_frames. destruct (Hwt _ _ _ Hx Ht) as [[-> ->]|(x0 & Hx0 & Ht0)].
    + rewrite decide_True by done. split; [|done]. apply switch_blocked; try done. right.
      split_and!; try done. apply (ki_alive _ _ Hki).
    + destruct (wi_waiter_facts _ _ _ _ _ H Hx0 Ht0) as (H1 & H2 & _).
      destruct (wi_waiters _ _ H _ _ _ Hx0 Ht0). rewrite decide_False by done.
      split; [|done]. apply switch_blocked; try done. by left.
  - intros t Ht Hti. unfold slept. wsimp. apply switch_blocked_inv in Ht as [[-> _]|[_ Ht]]; try done.
    + exists s. eexists. rewrite lookup_insert_eq. split; [done|]. wsimp. set_solver.
    + destruct (wi_blocked _ _ H t Ht Hti) as (s' & x' & Hx & Hin). destruct (decide (s = s')) as [<-|Hne'].
      * exists s. eexists. rewrite lookup_insert_eq. split; [done|]. wsimp. set_solver.
      * exists s', x'. by rewrite lookup_insert_ne.
  - intros s' x' Hx Hx'. destruct (decide (s = s')) as [<-|Hne'].
    + revert Hx. unfold slept at 1. wsimp. rewrite lookup_insert_eq. intros [= <-]. wsimp. rewrite Hv.
      pose proof (countb_nonneg (fun t => in_down s (frames (slept w s x old) t))
        (running (kern (slept w s x old)) :: ready_list (kern (slept w s x old)))).
      unfold woken, credit. case_decide; lia.
    + revert Hx. unfold slept at 1. wsimp. rewrite lookup_insert_ne by done. intros Hx.
      pose proof (wi_wake _ _ H _ _ Hx Hx') as Hw. rewrite Hd in Hw by done. unfold credit.
      rewrite decide_False by done. etransitivity; [exact Hw|].
      pose proof (countb_switch (fun t => in_down s' (frames w t)) k THREAD_BLOCKED _ (all_list k)
        (or_introl eq_refl)) as Hc. cbv beta in Hc. rewrite in_down_no_sema in Hc by done.
      unfold woken. unfold slept at 2 3. wsimp. rewrite !Z.add_0_r in *. etransitivity; [exact Hc|].
      apply countb_mono. intros t _. rewrite slept_frames. case_decide as Hdt; [|done]. subst t.
      by rewrite in_down_no_sema.
  - intros t. rewrite slept_frames. change (idle_thread (kern (slept w s x old))) with (idle_thread k).
    destruct (wi_frames _ _ H t) as [Hf1 Hf2]. fold k. destruct (decide (running k = t)) as [<-|_];
      [|by split]. split; [done|]. constructor; [|done]. by rewrite bool_decide_false.
  - intros s' _. exact Hoff.
Qed.

(** *** Waking a thread *)

(** [sema_up] with interrupts off. *)
Definition upped (w : world) (s : Z) (x : semaphore) : world :=
  match waiters x with
  | [] => with_semas w (<[s := mkSema (u32 (value x + 1)) []]> (semas w))
  | t :: rest => with_kern (with_semas w (<[s := mkSema (u32 (value x + 1)) rest]> (semas w)))
                   (unblocked (kern w) t)
  end.

Lemma unblocked_st k t t' :
  thread_st (unblocked k t) t' =
    if decide (t = t') then (fun _ => THREAD_READY) <$> threads k !! t else thread_st k t'.
Proof.
  unfold thread_st, unblocked, with_ready, with_threads. cbn [threads]. rewrite lookup_alter.
  case_decide; [|done]. subst. by destruct (threads k !! t').
Qed.

Lemma mid_upped w s x : mid None w -> semas w !! s = Some x -> mid None (upped w s x).
Proof.
  intros [H Hn] Hs. unfold upped. destruct (waiters x) as [|t rest] eqn:E.
  { apply mid_init; [done|apply u32_range|]. congruence. }
  assert (Ht : t ∈ waiters x) by (rewrite E; by left).
  destruct (wi_waiter_facts _ _ _ _ _ H Hs Ht) as (Hti & Htr & th & Hth & Hst).
  destruct (wi_waiters _ _ H _ _ _ Hs Ht) as [_ Htd].
  destruct (wi_value _ _ H _ _ Hs) as [Hv Hnd]. rewrite E in Hnd. apply NoDup_cons in Hnd as [Htn Hnd].
  destruct (wi_kernel _ _ H) as [Hk Hi]. split; [|done].
  split; wsimp; try apply H.
  - split; [by eapply kinv_unblocked|done].
  - intros s' x'. rewrite lookup_insert. case_decide; [|apply (wi_value _ _ H)]. intros [= <-].
    split; [apply u32_range|done].
  - intros s' x' t' Hx Ht'. assert (Hold : exists x0, semas w !! s' = Some x0 /\ t' ∈ waiters x0 /\ t' <> t).
    { revert Hx. rewrite lookup_insert. case_decide as Hd; [intros [= <-]; subst s'|].
      - exists x. rewrite E. set_solver.
      - intros Hx. exists x'. split_and!; [done|done|]. intros ->.
        destruct (wi_waiters _ _ H _ _ _ Hx Ht') as [_ Hx']. by apply Hd, (in_down_unique _ _ _ Htd Hx'). }
    destruct Hold as (x0 & Hx0 & Hin & Hne). rewrite unblocked_st, decide_False by done.
    by apply (wi_waiters _ _ H _ x0).
  - intros t'. rewrite unblocked_st. case_decide as Hd; [rewrite Hth; done|]. intros Hb Hne.
    destruct (wi_blocked _ _ H t' Hb Hne) as (s' & x' & Hx & Hin).
    destruct (decide (s = s')) as [<-|Hss].
    + exists s. eexists. rewrite lookup_insert_eq. split; [done|]. wsimp.
      assert (x' = x) as -> by congruence. rewrite E in Hin. set_solver.
    + exists s', x'. by rewrite lookup_insert_ne.
  - intros s' x' Hx Hne. unfold woken. wsimp. unfold unblocked, with_ready, with_threads.
    cbn [running ready_list]. rewrite app_comm_cons, countb_app, !countb_cons.
    change (frames (with_kern _ _)) with (frames w). change (countb _ []) with 0. cbv beta.
    revert Hx. rewrite lookup_insert. case_decide as Hd; [intros [= <-]; subst s'|].
    + wsimp. rewrite Htd. pose proof (wi_wake _ _ H _ _ Hs) as Hw. rewrite E in Hw. specialize (Hw ltac:(done)).
      assert (u32 (value x + 1) <= value x + 1) by (apply Z.mod_le; unfold is_u32, two32 in *; lia).
      unfold woken in Hw. rewrite countb_cons in Hw. lia.
    + intros Hx. pose proof (wi_wake _ _ H _ _ Hx Hne) as Hw. unfold woken in Hw.
      rewrite countb_cons in Hw. destruct (in_down s' (frames w t)); lia.
Qed.

(** *** Creating a thread *)

Lemma created_st k nm prio t t' :
  thread_st (unblocked (with_new k t (new_thread nm prio t (next_tid k))) t) t' =
    if decide (t = t') then Some THREAD_READY else thread_st k t'.
Proof.
  rewrite unblocked_st. unfold thread_st, with_new, with_next_tid, with_all, with_threads. cbn [threads].
  case_decide; [by rewrite lookup_insert_eq|]. by rewrite lookup_insert_ne.
Qed.

Lemma mid_created w nm prio t :
  mid None w -> threads (kern w) !! t = None -> t <> NULL -> t <> idle_thread (kern w) ->
  PRI_MIN <= prio <= PRI_MAX ->
  mid None (with_conts (with_kern w (unblocked (with_new (kern w) t (new_thread nm prio t (next_tid (kern w)))) t))
    (<[t := [FStart]]> (conts w))).
Proof.
  intros [H Hn] Ht Hnull Hti Hp. destruct (wi_kernel _ _ H) as [Hk Hi].
  set (k' := unblocked _ _). set (w' := with_conts _ _).
  assert (Hok : kinv (Some (running (kern w))) k').
  { eapply (run_thread_create _ _ nm prio t); try done. intros _. apply H. }
  assert (Hrt : running (kern w) <> t) by (intros <-; destruct (ki_alive _ _ Hk); congruence).
  assert (Hf : forall t', t' <> t -> frames w' t' = frames w t').
  { intros t' Hne. unfold frames, w'. wsimp. by rewrite lookup_insert_ne. }
  assert (Hft : frames w' t = [FStart]) by (unfold frames, w'; wsimp; by rewrite lookup_insert_eq).
  split; [|unfold w' at 2; wsimp; by rewrite Hf].
  split; unfold w'; wsimp; fold w'; try apply H.
  - split; done.
  - intros s x t' Hx Hin. destruct (wi_waiter_facts _ _ _ _ _ H Hx Hin) as (_ & _ & th & Hth & _).
    rewrite Hf by congruence. unfold k'. rewrite created_st, decide_False by congruence.
    by apply (wi_waiters _ _ H _ x).
  - intros t' Hb. unfold k' in Hb. rewrite created_st in Hb. case_decide; [done|]. by apply (wi_blocked _ _ H).
  - intros s x Hx Hne. etransitivity; [by apply (wi_wake _ _ H)|]. unfold woken. unfold w' at 2 3. wsimp.
    change (running k') with (running (kern w)). change (ready_list k') with (ready_list (kern w) ++ [t]).
    rewrite app_comm_cons, countb_app. pose proof (countb_nonneg (fun t0 => in_down s (frames w' t0)) [t]).
    assert (countb (fun t0 => in_down s (frames w t0)) (running (kern w) :: ready_list (kern w)) <=
            countb (fun t0 => in_down s (frames w' t0)) (running (kern w) :: ready_list (kern w))); [|lia].
    apply countb_mono. intros t' Hin. rewrite Hf; [done|]. intros ->.
    apply elem_of_cons in Hin as [|Hin]; [congruence|]. destruct (ki_ready _ _ Hk _ Hin) as (? & ? & _). congruence.
  - intros t'. destruct (decide (t' = t)) as [->|Hne].
    + rewrite Hft. split; [constructor|]. repeat constructor. by rewrite bool_decide_false.
    + rewrite Hf by done. apply (wi_frames _ _ H).
  - intros s. change (running k') with (running (kern w)). rewrite Hf by done. apply (wi_off _ _ H).
Qed.

(** ** Execution of the functions on semaphores *)

Definition off (w : world) : world := with_kern w (with_intr (kern w) false).

Definition taken (w : world) (s : Z) (x : semaphore) (lv : bool) : world :=
  with_kern (with_semas w (<[s := mkSema (u32 (value x - 1)) (waiters x)]> (semas w)))
    (with_intr (kern w) lv).

Definition down_result (w : world) (s : Z) (x : semaphore) (old : bool) : world :=
  if value x =? 0 then slept w s x old else taken w s x old.

Lemma kcall_current d w : winv d w -> kcall thread_current w = Ret (running (kern w), w).
Proof.
  intros H. unfold kcall. destruct (wi_kernel _ _ H) as [Hk _]. rewrite (run_thread_current _ Hk). by destruct w.
Qed.

Lemma kcall_context d w : winv d w -> kcall intr_context w = Ret (false, w).
Proof. intros H. unfold kcall, intr_context. rewrite (wi_context _ _ H). by destruct w. Qed.

Lemma kcall_disable w : kcall intr_disable w = Ret (intr_on (kern w), off w).
Proof. done. Qed.

Lemma kcall_level w lv :
  in_external_intr (kern w) = false ->
  exists o, kcall (intr_set_level lv) w = Ret (o, with_kern w (with_intr (kern w) lv)).
Proof.
  intros Hc. destruct (run_set_level (kern w) lv (fun _ => Hc)) as [o Ho]. exists o. unfold kcall. by rewrite Ho.
Qed.

Lemma read_sema_some w s x : semas w !! s = Some x -> read_sema s w = Ret (x, w).
Proof. unfold read_sema. by intros ->. Qed.

Lemma mid_off d w : mid d w -> mid d (off w).
Proof. apply mid_intr. Qed.

Lemma run_sema_loop d w s x old :
  mid d w -> semas w !! s = Some x -> intr_on (kern w) = false ->
  sema_loop s old w = Ret (tt, down_result w s x old).
Proof.
  intros [H Hn] Hs Hoff. unfold sema_loop, down_result. sstep (read_sema_some _ _ _ Hs).
  destruct (value x =? 0).
  - sstep (kcall_current _ _ H).
    set (w1 := with_semas w (<[s := mkSema (value x) (waiters x ++ [running (kern w)])]> (semas w))).
    assert (H1 : write_sema s (mkSema (value x) (waiters x ++ [running (kern w)])) w = Ret (tt, w1)) by done.
    sstep H1. set (w2 := with_conts w1 (<[running (kern w) := FSema s old :: frames w (running (kern w))]> (conts w))).
    assert (H2 : push (FSema s old) w1 = Ret (tt, w2)) by done. sstep H2.
    destruct (run_thread_block (kern w) (wi_kernel _ _ H) Hoff (wi_context _ _ H)) as [Hb _].
    unfold kcall. change (kern w2) with (kern w). rewrite Hb. done.
  - set (w1 := with_semas w (<[s := mkSema (u32 (value x - 1)) (waiters x)]> (semas w))).
    assert (H1 : write_sema s (mkSema (u32 (value x - 1)) (waiters x)) w = Ret (tt, w1)) by done. sstep H1.
    destruct (kcall_level w1 old (wi_context _ _ H)) as [o Ho]. sstep Ho. done.
Qed.

Lemma mid_taken d w s x lv :
  mid d w -> semas w !! s = Some x -> value x <> 0 -> (forall s', s' <> s -> credit d s' = 0) ->
  mid None (taken w s x lv).
Proof.
  intros H Hs Hv Hd. destruct (wi_value _ _ (proj1 H) _ _ Hs) as [Hr _].
  apply (mid_intr None (with_semas w _) lv). apply (mid_value d); [done|done|apply u32_range|..].
  - intros Hne. rewrite u32_small by (unfold is_u32, two32 in *; lia).
    pose proof (wi_wake _ _ (proj1 H) _ _ Hs Hne) as Hw. unfold credit in *. rewrite (decide_False (P := None = Some s)) by done.
    case_decide; lia.
  - intros s' Hne. rewrite Hd by done. unfold credit. by rewrite decide_False.
Qed.

(** [sema_down] and its loop after a wakeup: the thread takes the semaphore
    or goes (back) to the wait list. *)
Lemma winv_down d w s x old :
  mid d w -> semas w !! s = Some x -> intr_on (kern w) = false ->
  running (kern w) <> idle_thread (kern w) -> (forall s', s' <> s -> credit d s' = 0) ->
  winv None (down_result w s x old).
Proof.
  intros H Hs Hoff Hne Hd. unfold down_result. destruct (Z.eqb_spec (value x) 0).
  - by eapply winv_slept.
  - by eapply mid_taken.
Qed.

Lemma run_sema_down w s x :
  mid None w -> s <> NULL -> semas w !! s = Some x ->
  sema_down s w = Ret (tt, down_result (off w) s x (intr_on (kern w))).
Proof.
  intros H Hs Hx. unfold sema_down. sassert by (by destruct (Z.eqb_spec s NULL)).
  sstep (kcall_context _ _ (proj1 H)). sassert by done. sstep (kcall_disable w).
  by apply (run_sema_loop None); [apply mid_off|..].
Qed.

Lemma run_sema_try_down w s x :
  mid None w -> s <> NULL -> semas w !! s = Some x ->
  sema_try_down s w = Ret (negb (value x =? 0),
    if value x =? 0 then w else taken w s x (intr_on (kern w))).
Proof.
  intros H Hs Hx. unfold sema_try_down. sassert by (by destruct (Z.eqb_spec s NULL)).
  sstep (kcall_disable w). assert (Hx' : semas (off w) !! s = Some x) by done.
  sstep (read_sema_some _ _ _ Hx'). destruct (wi_value _ _ (proj1 H) _ _ Hx) as [[Hv _] _].
  destruct (Z.ltb_spec 0 (value x)), (Z.eqb_spec (value x) 0); try lia.
  - set (w1 := with_semas (off w) (<[s := mkSema (u32 (value x - 1)) (waiters x)]> (semas w))).
    assert (H1 : (do! _ := write_sema s (mkSema (u32 (value x - 1)) (waiters x)) in sret true) (off w) =
      Ret (true, w1)) by done. sstep H1.
    destruct (kcall_level w1 (intr_on (kern w)) (wi_context _ _ (proj1 H))) as [o Ho]. sstep Ho. done.
  - sstep (eq_refl : sret false (off w) = Ret (false, off w)).
    destruct (kcall_level (off w) (intr_on (kern w)) (wi_context _ _ (proj1 H))) as [o Ho]. sstep Ho.
    unfold sret. do 2 f_equal. destruct w as [k ????]. unfold with_kern, off. wsimp. f_equal.
    by destruct k.
Qed.

Lemma run_sema_up w s x :
  mid None w -> s <> NULL -> semas w !! s = Some x ->
  sema_up s w = Ret (tt, with_kern (upped (off w) s x) (with_intr (kern (upped (off w) s x)) (intr_on (kern w)))).
Proof.
  intros H Hs Hx. pose proof (mid_off _ _ H) as Hm. unfold sema_up. sassert by (by destruct (Z.eqb_spec s NULL)).
  sstep (kcall_disable w). assert (Hx' : semas (off w) !! s = Some x) by done.
  sstep (read_sema_some _ _ _ Hx').
  assert (Hctx : in_external_intr (kern (upped (off w) s x)) = false) by (apply (mid_upped _ _ _ Hm Hx')).
  destruct (kcall_level _ (intr_on (kern w)) Hctx) as [o Ho]. revert Ho. unfold upped.
  destruct (waiters x) as [|t rest] eqn:E; intros Ho.
  - sstep (eq_refl : sret tt (off w) = Ret (tt, off w)). sstep (read_sema_some _ _ _ Hx').
    rewrite E. set (w1 := with_semas (off w) _) in *.
    assert (H1 : write_sema s (mkSema (u32 (value x + 1)) []) (off w) = Ret (tt, w1)) by done.
    sstep H1. by sstep Ho.
  - set (w2 := with_kern (with_semas (off w) (<[s := mkSema (value x) rest]> (semas w))) (unblocked (kern (off w)) t)).
    assert (Ht : t ∈ waiters x) by (rewrite E; by left).
    destruct (wi_waiter_facts _ _ _ _ _ (proj1 Hm) Hx' Ht) as (_ & _ & th & Hth & Hst).
    destruct (wi_kernel _ _ (proj1 Hm)) as [Hk _].
    assert (H2 : (do! _ := write_sema s (mkSema (value x) rest) in kcall (thread_unblock t)) (off w) = Ret (tt, w2)).
    { unfold sbind, write_sema, kcall. change (kern (with_semas _ _)) with (kern (off w)).
      rewrite (run_thread_unblock _ (kern (off w)) t th Hk Hth Hst) by done. done. }
    sstep H2. assert (Hx2 : semas w2 !! s = Some (mkSema (value x) rest)) by (unfold w2; wsimp; apply lookup_insert_eq).
    sstep (read_sema_some _ _ _ Hx2). wsimp.
    assert (H3 : write_sema s (mkSema (u32 (value x + 1)) rest) w2 = Ret (tt,
      with_kern (with_semas (off w) (<[s := mkSema (u32 (value x + 1)) rest]> (semas w))) (unblocked (kern (off w)) t))).
    { unfold write_sema, w2, with_semas, with_kern. wsimp. by rewrite insert_insert_eq. }
    sstep H3. by sstep Ho.
Qed.

Lemma mid_up w s x :
  mid None w -> semas w !! s = Some x ->
  mid None (with_kern (upped (off w) s x) (with_intr (kern (upped (off w) s x)) (intr_on (kern w)))).
Proof. intros H Hs. apply mid_intr, mid_upped; [by apply mid_off|done]. Qed.
