(* ===== verification/SynchLock.v ===== *)
(** * Locks and the machine: mutual exclusion, no lost wakeups

    A lock is accounted for by a sum that every step keeps equal to one: the
    value of its semaphore, one if it has a holder, and the weights of the
    frames of all threads.  A pending [FHolder] (the thread has the semaphore
    but is not the holder yet) and a pending [FUp] (the thread is no longer
    the holder but has not given the semaphore back) weigh one; a pending
    [sema_down] of the lock, which has an [FHolder] below it, weighs minus
    one. *)
From stdpp Require Import prelude list gmap.
From Stdlib Require Import ZArith Lia.
From S2P Require Import Prelude Dlist Thread Synch SynchInv.
#[local] Open Scope Z_scope.

(** ** The sum *)

Definition weight (l : Z) (f : frame) : Z :=
  match f with
  | FHolder l' => if l' =? l then 1 else 0
  | FUp s => if s =? lock_sema l then 1 else 0
  | FDown s | FSema s _ => if s =? lock_sema l then -1 else 0
  | _ => 0
  end.

Fixpoint wsum (l : Z) (fs : list frame) : Z :=
  match fs with [] => 0 | f :: fs' => weight l f + wsum l fs' end.

(** No part of a stack of frames weighs less than nothing. *)
Fixpoint frames_ok (l : Z) (fs : list frame) : Prop :=
  match fs with [] => True | f :: fs' => 0 <= wsum l fs /\ frames_ok l fs' end.

Fixpoint total (l : Z) (w : world) (ts : list Z) : Z :=
  match ts with [] => 0 | t :: ts' => wsum l (frames w t) + total l w ts' end.

Definition held (l : Z) (w : world) : Z :=
  match holders w !! l with Some h => if h =? NULL then 0 else 1 | None => 0 end.

(** [lmid e l w]: the sum for the lock [l] exceeds one by [e]; it does so
    only inside of a step. *)
Record lmid (e l : Z) (w : world) : Prop := mkLmid {
  lm_lock : is_Some (holders w !! l);
  lm_sum : exists x, semas w !! lock_sema l = Some x /\ 0 <= value x /\
    value x + total l w (all_list (kern w)) + held l w = 1 + e;
  lm_frames t : frames_ok l (frames w t);
  lm_conds c ss : conds w !! c = Some ss -> lock_sema l ∉ ss
}.

Lemma frames_ok_nonneg l fs : frames_ok l fs -> 0 <= wsum l fs.
Proof. destruct fs; simpl; [lia|tauto]. Qed.

Lemma total_nonneg e l w ts : lmid e l w -> 0 <= total l w ts.
Proof.
  intros H. induction ts as [|t ts IH]; simpl; [lia|].
  pose proof (frames_ok_nonneg l _ (lm_frames _ _ _ H t)). lia.
Qed.

Lemma held_bound l w : 0 <= held l w <= 1.
Proof. unfold held. destruct (holders w !! l) as [h|]; [|lia]. destruct (h =? NULL); lia. Qed.

Lemma total_ext l w w' ts :
  (forall t, t ∈ ts -> frames w' t = frames w t) -> total l w' ts = total l w ts.
Proof. induction ts as [|t ts IH]; intros H; simpl; [done|]. rewrite H, IH by set_solver. done. Qed.

Lemma total_conts l w w' ts : conts w' = conts w -> total l w' ts = total l w ts.
Proof. intros H. apply total_ext. intros t _. unfold frames. by rewrite H. Qed.

Lemma total_app l w ts ts' : total l w (ts ++ ts') = total l w ts + total l w ts'.
Proof. induction ts; simpl; lia. Qed.

Lemma total_update l w w' r ts :
  NoDup ts -> r ∈ ts -> (forall t, t <> r -> frames w' t = frames w t) ->
  total l w' ts = total l w ts + wsum l (frames w' r) - wsum l (frames w r).
Proof.
  intros Hd. induction Hd as [|a ts Ha Hd IH]; [set_solver|]. intros Hr Hf. simpl.
  destruct (decide (a = r)) as [->|Hne].
  - rewrite (total_ext l w w' ts); [lia|]. intros t Ht. apply Hf. set_solver.
  - rewrite Hf, IH by set_solver. lia.
Qed.

Lemma total_remove l w r ts :
  wsum l (frames w r) = 0 -> total l w (List.remove Z.eq_dec r ts) = total l w ts.
Proof. intros Hz. induction ts as [|a ts IH]; simpl; [done|]. destruct (Z.eq_dec r a); simpl; subst; lia. Qed.

Lemma running_in_all d w : winv d w -> running (kern w) ∈ all_list (kern w) /\ NoDup (all_list (kern w)).
Proof.
  intros H. destruct (wi_kernel _ _ H) as [Hk _]. split; [|apply (ki_all_nodup _ _ Hk)].
  destruct (ki_alive _ _ Hk) as [th Hth]. apply (ki_all _ _ Hk). exists th. split; [done|].
  assert (status th = THREAD_RUNNING) by (by apply (ki_run _ _ Hk _ _ Hth)). congruence.
Qed.

(** ** Elementary changes *)

Lemma lmid_frames d e e' l w fs :
  winv d w -> lmid e l w -> frames_ok l fs ->
  e' = e + wsum l fs - wsum l (frames w (running (kern w))) ->
  lmid e' l (with_conts w (<[running (kern w) := fs]> (conts w))).
Proof.
  intros Hw H Hfs ->. destruct (running_in_all _ _ Hw) as [Hr Hd]. set (w' := with_conts _ _).
  assert (Hf : forall t, frames w' t = if decide (running (kern w) = t) then fs else frames w t)
    by apply frames_insert.
  split; try apply H.
  - destruct (lm_sum _ _ _ H) as (x & Hx & Hv & Hs). exists x. split_and!; [done|done|].
    change (all_list (kern w')) with (all_list (kern w)). change (held l w') with (held l w).
    rewrite (total_update l w w' (running (kern w))); [|done|done|].
    + rewrite Hf, decide_True by done. lia.
    + intros t Ht. by rewrite Hf, decide_False.
  - intros t. rewrite Hf. destruct (decide (running (kern w) = t)); [done|apply (lm_frames _ _ _ H)].
Qed.

Lemma lmid_kernel e l w k :
  lmid e l w -> total l w (all_list k) = total l w (all_list (kern w)) -> lmid e l (with_kern w k).
Proof.
  intros H Hk. split; try apply H. destruct (lm_sum _ _ _ H) as (x & Hx & Hv & Hs). exists x.
  split_and!; [done|done|]. wsimp. rewrite (total_conts l w (with_kern w k)), Hk by done. done.
Qed.

Lemma lmid_sema e l w s x y :
  lmid e l w -> semas w !! s = Some x -> 0 <= value y ->
  lmid (if s =? lock_sema l then e + value y - value x else e) l (with_semas w (<[s := y]> (semas w))).
Proof.
  intros H Hs Hy. split; try apply H. destruct (lm_sum _ _ _ H) as (x' & Hx' & Hv & Hsum). wsimp.
  rewrite (total_conts l w (with_semas w _)) by done. change (held l (with_semas _ _)) with (held l w).
  destruct (Z.eqb_spec s (lock_sema l)) as [->|Hne].
  - exists y. rewrite lookup_insert_eq. split_and!; [done|done|]. assert (x' = x) as -> by congruence. lia.
  - exists x'. by rewrite lookup_insert_ne.
Qed.

Lemma lmid_sema_other e l w s y :
  lmid e l w -> s <> lock_sema l -> lmid e l (with_semas w (<[s := y]> (semas w))).
Proof.
  intros H Hs. split; try apply H. destruct (lm_sum _ _ _ H) as (x & Hx & Hr). exists x. wsimp.
  rewrite lookup_insert_ne, (total_conts l w (with_semas w _)) by done. done.
Qed.

Lemma lmid_holder e l w l' h h' :
  lmid e l w -> holders w !! l' = Some h' ->
  lmid (if l' =? l then e + (if h =? NULL then 0 else 1) - (if h' =? NULL then 0 else 1) else e) l
    (with_holders w (<[l' := h]> (holders w))).
Proof.
  intros H Hh. split; try apply H.
  - wsimp. rewrite lookup_insert. case_decide; [done|]. apply (lm_lock _ _ _ H).
  - destruct (lm_sum _ _ _ H) as (x & Hx & Hv & Hs). exists x. split_and!; [done|done|].
    wsimp. rewrite (total_conts l w (with_holders w _)) by done. unfold held in *. wsimp.
    rewrite lookup_insert. destruct (Z.eqb_spec l' l) as [->|Hne].
    + rewrite decide_True by done. rewrite Hh in Hs. lia.
    + rewrite decide_False by done. done.
Qed.

Lemma lmid_conds e l w c ss :
  lmid e l w -> (lock_sema l ∉ ss) -> lmid e l (with_conds w (<[c := ss]> (conds w))).
Proof.
  intros H Hs. split; [apply H| |apply H|].
  { destruct (lm_sum _ _ _ H) as (x & Hx & Hr). exists x. wsimp.
    by rewrite (total_conts l w (with_conds w _)) by done. }
  intros c' ss'. wsimp. rewrite lookup_insert. case_decide; [|apply (lm_conds _ _ _ H)].
  by intros [= <-].
Qed.

(** ** The functions on semaphores *)

Definition at_sema (l s : Z) : Z := if s =? lock_sema l then 1 else 0.

Lemma lmid_down d e l w s x old :
  winv d w -> lmid e l w -> semas w !! s = Some x -> is_u32 (value x) ->
  (s = lock_sema l -> 1 <= wsum l (frames w (running (kern w)))) ->
  lmid (e - at_sema l s) l (down_result w s x old).
Proof.
  intros Hw H Hs Hr Hfs. unfold at_sema. destruct Hr as [Hr1 Hr2]. unfold down_result.
  destruct (Z.eqb_spec (value x) 0) as [Hz|Hz].
  - set (y := mkSema (value x) (waiters x ++ [running (kern w)])).
    pose proof (lmid_sema e l w s x y H Hs Hr1) as H1. set (w1 := with_semas w (<[s := y]> (semas w))) in H1.
    assert (Hw1 : running (kern w1) = running (kern w)) by done.
    assert (He : (if s =? lock_sema l then e + value y - value x else e) = e) by (destruct (s =? lock_sema l); simpl; lia).
    rewrite He in H1. pose proof (frames_ok_nonneg _ _ (lm_frames _ _ _ H (running (kern w)))) as Hnn.
    assert (H2 : lmid (e - (if s =? lock_sema l then 1 else 0)) l
      (with_conts w1 (<[running (kern w) := FSema s old :: frames w (running (kern w))]> (conts w)))).
    { destruct (running_in_all _ _ Hw) as [Hra Hd]. set (w2 := with_conts _ _).
      assert (Hf : forall t, frames w2 t = if decide (running (kern w) = t)
        then FSema s old :: frames w (running (kern w)) else frames w t) by (intros t; apply (frames_insert w1)).
      split; try apply H1.
      - destruct (lm_sum _ _ _ H1) as (x' & Hx' & Hv & Hsum). exists x'. split_and!; [done|done|].
        change (all_list (kern w2)) with (all_list (kern w1)). change (held l w2) with (held l w1).
        rewrite (total_update l w1 w2 (running (kern w))); [|done|done|].
        + rewrite Hf, decide_True by done. change (frames w1 (running (kern w))) with (frames w (running (kern w))).
          cbn [wsum weight]. destruct (s =? lock_sema l); lia.
        + intros t Ht. by rewrite Hf, decide_False.
      - intros t. rewrite Hf. destruct (decide (running (kern w) = t)) as [_|_]; [|apply (lm_frames _ _ _ H)].
        split; [|apply (lm_frames _ _ _ H)]. simpl.
        destruct (Z.eqb_spec s (lock_sema l)) as [E|_]; [specialize (Hfs E)|]; lia. }
    apply (lmid_kernel _ _ (with_conts w1 _) _ H2). done.
  - pose proof (u32_range (value x - 1)) as [Hu _].
    pose proof (lmid_sema e l w s x (mkSema (u32 (value x - 1)) (waiters x)) H Hs Hu) as H1.
    apply (lmid_kernel _ _ (with_semas w _)); [|done].
    rewrite u32_small in H1 |- * by (unfold is_u32, two32 in *; lia). wsimp. cbn [value] in H1.
    destruct (s =? lock_sema l); [replace (e - 1) with (e + (value x - 1) - value x) by lia; done|].
    by rewrite Z.sub_0_r.
Qed.

Lemma lmid_upped e l w s x :
  lmid e l w -> e <= 0 -> semas w !! s = Some x -> is_u32 (value x) ->
  lmid (e + at_sema l s) l (upped w s x).
Proof.
  intros H He Hs Hr. unfold at_sema.
  assert (Hsm : forall ws, lmid (e + (if s =? lock_sema l then 1 else 0)) l
    (with_semas w (<[s := mkSema (u32 (value x + 1)) ws]> (semas w)))).
  { intros ws. pose proof (u32_range (value x + 1)) as [Hu _].
    pose proof (lmid_sema e l w s x (mkSema (u32 (value x + 1)) ws) H Hs Hu) as H1. cbn [value] in H1.
    destruct (Z.eqb_spec s (lock_sema l)) as [->|_]; [|by rewrite Z.add_0_r].
    destruct (lm_sum _ _ _ H) as (x' & Hx' & Hv & Hsum). assert (x' = x) as -> by congruence.
    pose proof (total_nonneg _ _ _ (all_list (kern w)) H). pose proof (held_bound l w).
    rewrite u32_small in H1 |- * by (unfold is_u32, two32 in *; lia).
    by replace (e + 1) with (e + (value x + 1) - value x) by lia. }
  unfold upped. destruct (waiters x) as [|t rest]; [apply Hsm|].
  apply (lmid_kernel _ _ (with_semas w _)); [apply Hsm|done].
Qed.

Section code.
(** What the code does to the invariants when it returns: [l] is any lock
    and [e] the excess of its sum before. *)
Context (w w' : world).

Lemma sema_loop_keeps d s old :
  mid d w -> intr_on (kern w) = false -> running (kern w) <> idle_thread (kern w) ->
  (forall s', s' <> s -> credit d s' = 0) -> sema_loop s old w = Ret (tt, w') ->
  winv None w' /\ forall l e, lmid e l w ->
    (s = lock_sema l -> 1 <= wsum l (frames w (running (kern w)))) -> lmid (e - at_sema l s) l w'.
Proof.
  intros H Hoff Hne Hd Hr. destruct (semas w !! s) as [x|] eqn:Hs.
  - rewrite (run_sema_loop d w s x old H Hs Hoff) in Hr. inv_ret. split; [by apply (winv_down d)|].
    intros l e Hl Hf. apply (lmid_down d); try done; [apply H|]. apply (wi_value _ _ (proj1 H) _ _ Hs).
  - unfold sema_loop, sbind, read_sema in Hr. by rewrite Hs in Hr.
Qed.

Lemma sema_down_keeps s :
  mid None w -> running (kern w) <> idle_thread (kern w) -> sema_down s w = Ret (tt, w') ->
  winv None w' /\ forall l e, lmid e l w ->
    (s = lock_sema l -> 1 <= wsum l (frames w (running (kern w)))) -> lmid (e - at_sema l s) l w'.
Proof.
  intros H Hne Hr. unfold sema_down in Hr. sinv Hr. sinv Hr with (kcall_context _ _ (proj1 H)). sinv Hr.
  sinv Hr with (kcall_disable w). pose proof (mid_off _ _ H) as Hm. revert Hr.
  destruct (semas (off w) !! s) as [x|] eqn:Hs; [|unfold sema_loop, sbind, read_sema; by rewrite Hs].
  rewrite (run_sema_loop None _ s x _ Hm Hs eq_refl). intros Hr. inv_ret. split.
  - by apply (winv_down None).
  - intros l e Hl Hf. apply (lmid_down None); try done; [apply Hm|by apply lmid_kernel|].
    apply (wi_value _ _ (proj1 Hm) _ _ Hs).
Qed.

Lemma sema_up_keeps s :
  mid None w -> sema_up s w = Ret (tt, w') ->
  mid None w' /\ forall l e, lmid e l w -> e <= 0 -> lmid (e + at_sema l s) l w'.
Proof.
  intros H Hr. assert (Hs : s <> NULL /\ exists x, semas w !! s = Some x).
  { unfold sema_up in Hr. sinv Hr. sinv Hr with (kcall_disable w). sinv Hr. unfold read_sema in Hr0.
    split; [by destruct (Z.eqb_spec s NULL)|]. change (semas (off w)) with (semas w) in Hr0.
    destruct (semas w !! s); [eauto|done]. }
  destruct Hs as (Hn & x & Hs). rewrite (run_sema_up w s x H Hn Hs) in Hr. inv_ret.
  split; [by apply mid_up|]. intros l e Hl He. apply lmid_kernel; [|done].
  apply lmid_upped; [by apply lmid_kernel|done|done|]. apply (wi_value _ _ (proj1 H) _ _ Hs).
Qed.

Lemma sema_try_down_keeps s b :
  mid None w -> sema_try_down s w = Ret (b, w') ->
  mid None w' /\ kern w' = kern w /\ conts w' = conts w /\ holders w' = holders w /\
  forall l e, lmid e l w -> lmid (e - if b then at_sema l s else 0) l w'.
Proof.
  intros H Hr. assert (Hs : s <> NULL /\ exists x, semas w !! s = Some x).
  { unfold sema_try_down in Hr. sinv Hr. sinv Hr with (kcall_disable w). sinv Hr. unfold read_sema in Hr0.
    split; [by destruct (Z.eqb_spec s NULL)|]. change (semas (off w)) with (semas w) in Hr0.
    destruct (semas w !! s); [eauto|done]. }
  destruct Hs as (Hn & x & Hs). rewrite (run_sema_try_down w s x H Hn Hs) in Hr. inv_ret.
  destruct (Z.eqb_spec (value x) 0) as [Hz|Hz]; cbn [negb].
  - split_and!; try done. intros l e. by rewrite Z.sub_0_r.
  - assert (Hi : with_intr (kern w) (intr_on (kern w)) = kern w) by (by destruct (kern w)).
    split_and!; try done.
    + by apply (mid_taken None).
    + intros l e Hl. destruct (wi_value _ _ (proj1 H) _ _ Hs) as [Hu _].
      pose proof (lmid_sema e l w s x (mkSema (u32 (value x - 1)) (waiters x)) Hl Hs (proj1 (u32_range _))) as H1.
      apply (lmid_kernel _ _ (with_semas w _)); [|by rewrite Hi].
      rewrite u32_small in H1 |- * by (unfold is_u32, two32 in *; lia). cbn [value] in H1. unfold at_sema.
      destruct (s =? lock_sema l); [by replace (e - 1) with (e + (value x - 1) - value x) by lia|].
      by rewrite Z.sub_0_r.
Qed.
End code.

(** ** Frames *)

Definition sema_of (f : frame) : option Z := match f with FSema s _ => Some s | _ => None end.

Definition popped (w : world) : world :=
  with_conts w (<[running (kern w) := tail (frames w (running (kern w)))]> (conts w)).

Lemma mid_pop w f fs :
  winv None w -> frames w (running (kern w)) = f :: fs -> mid (sema_of f) (popped w).
Proof.
  intros H Hf. destruct (wi_frames _ _ H (running (kern w))) as [Hns Hid]. rewrite Hf in Hns, Hid. simpl in Hns.
  destruct (is_sema_frame f) eqn:Es.
  - destruct f as [| | |s old| | | | | | |]; try done. cbn [sema_of]. set (w' := popped w).
    assert (Hfr : forall t, frames w' t = if decide (running (kern w) = t) then fs else frames w t).
    { intros t. unfold w', popped. rewrite frames_insert. by rewrite Hf. }
    split; [|change (kern w') with (kern w); by rewrite Hfr, decide_True by done].
    assert (Hd : forall s' t, t <> running (kern w) -> in_down s' (frames w' t) = in_down s' (frames w t)).
    { intros s' t Hne. by rewrite Hfr, decide_False. }
    split; try apply H.
    + intros s' x t Hx Ht. destruct (wi_waiter_facts _ _ _ _ _ H Hx Ht) as (_ & Hne & _). rewrite Hd by done.
      by apply (wi_waiters _ _ H _ x).
    + intros s' x Hx Hne. pose proof (wi_wake _ _ H _ _ Hx Hne) as Hw. unfold woken in *.
      change (kern w') with (kern w). rewrite countb_cons in *. rewrite Hf in Hw. cbn [in_down] in Hw.
      assert (Hc : countb (fun t => in_down s' (frames w t)) (ready_list (kern w)) <=
                   countb (fun t => in_down s' (frames w' t)) (ready_list (kern w))).
      { apply countb_mono. intros t Ht. rewrite Hd; [done|]. intros ->.
        by apply (running_not_ready _ (proj1 (wi_kernel _ _ H))). }
      unfold credit in *. rewrite decide_False in Hw by done.
      destruct (in_down s' (frames w' (running (kern w)))), (Z.eqb_spec s s') as [->|Hss];
        [rewrite decide_True by done|rewrite decide_False by congruence|
         rewrite decide_True by done|rewrite decide_False by congruence]; lia.
    + intros t. rewrite Hfr. destruct (decide (running (kern w) = t)) as [<-|_]; [|apply (wi_frames _ _ H)].
      inversion Hid; subst. split; [|done]. destruct fs; [done|]. by inversion Hns.
    + intros s' Hx. change (kern w') with (kern w) in *. rewrite Hfr, decide_True in Hx by done.
      by rewrite (in_down_no_sema s' fs Hns) in Hx.
  - assert (Hm : mid None w) by (split; [done|]; rewrite Hf; by constructor).
    assert (sema_of f = None) as -> by (by destruct f). unfold popped. rewrite Hf.
    inversion Hid; subst. by apply mid_frames.
Qed.

Lemma lmid_pop l w f fs :
  winv None w -> lmid 0 l w -> frames w (running (kern w)) = f :: fs -> lmid (- weight l f) l (popped w).
Proof.
  intros Hw H Hf. pose proof (lm_frames _ _ _ H (running (kern w))) as Hok. rewrite Hf in Hok.
  unfold popped. rewrite Hf. eapply (lmid_frames None); [done|done|apply Hok|]. rewrite Hf. simpl. lia.
Qed.

Lemma popped_frames w : frames (popped w) (running (kern w)) = tail (frames w (running (kern w))).
Proof. unfold popped. by rewrite frames_insert, decide_True by done. Qed.

(** Pushing a frame that is not inside of [sema_down]. *)
Lemma push_keeps w w' d f :
  mid d w -> is_sema_frame f = false ->
  frame_for (bool_decide (running (kern w) = idle_thread (kern w))) f = true ->
  push f w = Ret (tt, w') ->
  mid d w' /\ kern w' = kern w /\ semas w' = semas w /\ holders w' = holders w /\ conds w' = conds w /\
  frames w' (running (kern w)) = f :: frames w (running (kern w)) /\
  forall l e, lmid e l w -> 0 <= weight l f + wsum l (frames w (running (kern w))) -> lmid (e + weight l f) l w'.
Proof.
  intros H Hs Hid [= <-]. destruct (wi_frames _ _ (proj1 H) (running (kern w))) as [_ Hfr].
  split_and!; try done.
  - apply mid_frames; [done|constructor; [done|apply H]|by constructor].
  - by rewrite frames_insert, decide_True by done.
  - intros l e Hl Hw. eapply (lmid_frames d); [apply H|done| |].
    + split; [done|apply (lm_frames _ _ _ Hl)].
    + simpl. lia.
Qed.

(** ** Locks and conditions *)

Lemma held_by_current_inv w w' d l b :
  winv d w -> lock_held_by_current_thread l w = Ret (b, w') ->
  w' = w /\ l <> NULL /\ exists h, holders w !! l = Some h /\ b = (h =? running (kern w)).
Proof.
  intros H Hr. unfold lock_held_by_current_thread in Hr. sinv Hr. sinv Hr. unfold read_holder in Hr0.
  destruct (holders w !! l) as [h|] eqn:E; [|done]. injection Hr0 as <- <-.
  sinv Hr with (kcall_current _ _ H). injection Hr as <- <-. split_and!; [done|by destruct (Z.eqb_spec l NULL)|eauto].
Qed.

Lemma running_not_null d w : winv d w -> running (kern w) <> NULL.
Proof.
  intros H. destruct (wi_kernel _ _ H) as [Hk _]. destruct (ki_alive _ _ Hk) as [th Hth].
  apply (ki_magic _ _ Hk _ _ Hth).
Qed.

Lemma not_idle_frame w f :
  running (kern w) <> idle_thread (kern w) -> idle_frame f = false ->
  frame_for (bool_decide (running (kern w) = idle_thread (kern w))) f = true.
Proof. intros Hne Hf. rewrite bool_decide_false by done. simpl. by rewrite Hf. Qed.

Lemma lock_acquire_keeps w w' l :
  mid None w -> running (kern w) <> idle_thread (kern w) -> lock_acquire l w = Ret (tt, w') ->
  winv None w' /\ forall l', lmid 0 l' w -> lmid 0 l' w'.
Proof.
  intros H Hne Hr. unfold lock_acquire in Hr. sinv Hr. sinv Hr with (kcall_context _ _ (proj1 H)). sinv Hr.
  sinv Hr. apply (held_by_current_inv _ _ None) in Hr0 as (-> & _ & _); [|apply H]. sinv Hr. sinv Hr.
  apply (push_keeps _ _ None) in Hr0 as (Hm & Hk & _ & _ & _ & Hf & Hl); [|done|done|by apply not_idle_frame].
  apply (push_keeps _ _ None) in Hr as (Hm' & _ & _ & _ & _ & _ & Hl'); [|done|done|rewrite Hk; by apply not_idle_frame].
  split; [apply Hm'|]. intros l' H0. pose proof (frames_ok_nonneg _ _ (lm_frames _ _ _ H0 (running (kern w)))) as Hn.
  cbn [weight] in Hl, Hl'. unfold lock_sema in *. specialize (Hl l' 0 H0). rewrite Hk, Hf in Hl'.
  assert (Hc : (l + 4 =? l' + 4) = (l =? l')) by (bool_cases; (done || lia)).
  destruct (l =? l') eqn:E.
  - specialize (Hl' l' (0 + 1) (Hl ltac:(lia))). rewrite Hc in Hl'. cbn [wsum weight] in Hl'. rewrite E in Hl'.
    apply Hl'. lia.
  - specialize (Hl' l' (0 + 0) (Hl ltac:(lia))). rewrite Hc in Hl'. cbn [wsum weight] in Hl'. rewrite E in Hl'.
    apply Hl'. lia.
Qed.

Lemma lock_release_keeps w w' l :
  mid None w -> running (kern w) <> idle_thread (kern w) -> lock_release l w = Ret (tt, w') ->
  mid None w' /\ forall l', lmid 0 l' w -> lmid 0 l' w'.
Proof.
  intros H Hne Hr. unfold lock_release in Hr. sinv Hr. sinv Hr.
  apply (held_by_current_inv _ _ None) in Hr0 as (-> & _ & h & Hh & ->); [|apply H]. sinv Hr.
  apply Z.eqb_eq in Hb0. subst h. set (w1 := with_holders w (<[l := NULL]> (holders w))).
  sinv Hr with (eq_refl : write_holder l NULL w = Ret (tt, w1)).
  assert (H1 : mid None w1) by (by apply mid_holders).
  apply (push_keeps _ _ None) in Hr as (Hm & _ & _ & _ & _ & _ & Hl); [|done|done|by apply not_idle_frame].
  split; [done|]. intros l' H0. pose proof (lmid_holder _ _ _ l NULL _ H0 Hh) as H2. fold w1 in H2.
  specialize (Hl _ _ H2). pose proof (frames_ok_nonneg _ _ (lm_frames _ _ _ H0 (running (kern w)))) as Hn.
  pose proof (running_not_null _ _ (proj1 H)) as Hnn. change (NULL =? NULL) with true in Hl.
  destruct (Z.eqb_spec (running (kern w)) NULL); [done|]. cbn [weight] in Hl. unfold lock_sema in Hl.
  change (frames w1 (running (kern w1))) with (frames w (running (kern w))) in Hl.
  assert (Hc : (l + 4 =? l' + 4) = (l =? l')) by (bool_cases; (done || lia)). rewrite Hc in Hl.
  destruct (l =? l'); apply Hl; lia.
Qed.

Lemma lock_try_acquire_keeps w w' l b :
  mid None w -> running (kern w) <> idle_thread (kern w) -> lock_try_acquire l w = Ret (b, w') ->
  winv None w' /\ forall l', lmid 0 l' w -> lmid 0 l' w'.
Proof.
  intros H Hne Hr. unfold lock_try_acquire in Hr. sinv Hr. sinv Hr.
  apply (held_by_current_inv _ _ None) in Hr0 as (-> & _ & _); [|apply H]. sinv Hr. sinv Hr.
  apply sema_try_down_keeps in Hr0 as (Hm & Hk & Hct & _ & Hl); [|done].
  sinv Hr. injection Hr as <- <-. destruct a0.
  - apply (push_keeps _ _ None) in Hr0 as (Hm' & _ & _ & _ & _ & _ & Hl'); [|done|done|rewrite Hk; by apply not_idle_frame].
    split; [apply Hm'|]. intros l' H0. specialize (Hl' _ _ (Hl _ _ H0)).
    assert (Hfr : frames st (running (kern st)) = frames w (running (kern w))) by (unfold frames; by rewrite Hct, Hk).
    pose proof (frames_ok_nonneg _ _ (lm_frames _ _ _ H0 (running (kern w)))) as Hn. rewrite Hfr in Hl'.
    cbn [weight] in Hl'. unfold at_sema, lock_sema in Hl'.
    assert (Hc : (l + 4 =? l' + 4) = (l =? l')) by (bool_cases; (done || lia)). rewrite Hc in Hl'.
    destruct (l =? l'); apply Hl'; lia.
  - injection Hr0 as <-. split; [apply Hm|]. intros l' H0. apply (Hl _ _ H0).
Qed.

Lemma cond_wait_keeps w w' c l waiter :
  mid None w -> running (kern w) <> idle_thread (kern w) -> op_ok w (OpWait c l waiter) ->
  cond_wait c l waiter w = Ret (tt, w') ->
  winv None w' /\ forall l', lmid 0 l' w -> lmid 0 l' w'.
Proof.
  intros H Hne [Hp Hfree] Hr. unfold cond_wait in Hr. sinv Hr. sinv Hr.
  sinv Hr with (kcall_context _ _ (proj1 H)). sinv Hr. sinv Hr.
  apply (held_by_current_inv _ _ None) in Hr0 as (-> & _ & _); [|apply H]. sinv Hr. sinv Hr.
  unfold sema_init in Hr0. sinv Hr0. injection Hr0 as <-. change (u32 0) with 0 in Hr.
  set (w1 := with_semas w (<[waiter := mkSema 0 []]> (semas w))) in *.
  assert (H1 : mid None w1) by (apply mid_init; [done|unfold is_u32, two32; lia|done]).
  sinv Hr. unfold read_cond in Hr0. destruct (conds w1 !! c) as [ss|] eqn:Ec; [|done]. injection Hr0 as <- <-.
  set (w2 := with_conds w1 (<[c := ss ++ [waiter]]> (conds w1))).
  sinv Hr with (eq_refl : write_cond c (ss ++ [waiter]) w1 = Ret (tt, w2)).
  assert (H2 : mid None w2) by (by apply mid_conds).
  sinv Hr. apply (push_keeps _ _ None) in Hr0 as (H3 & Hk3 & _ & _ & _ & Hf3 & Hl3);
    [|done|done|by apply not_idle_frame].
  assert (Hne3 : running (kern st) <> idle_thread (kern st)) by (by rewrite Hk3).
  sinv Hr. apply (push_keeps _ _ None) in Hr0 as (H4 & Hk4 & _ & _ & _ & Hf4 & Hl4);
    [|done|done|by apply not_idle_frame].
  assert (Hne4 : running (kern st0) <> idle_thread (kern st0)) by (by rewrite Hk4).
  apply lock_release_keeps in Hr as [H5 Hl5]; [|done|done]. split; [apply H5|]. intros l' H0. apply Hl5.
  pose proof (Hp l' (lm_lock _ _ _ H0)) as Hpl.
  assert (L1 : lmid 0 l' w1) by (by apply lmid_sema_other).
  assert (L2 : lmid 0 l' w2).
  { apply lmid_conds; [done|]. rewrite elem_of_app, list_elem_of_singleton.
    intros [Hin|Hin]; [by apply (lm_conds _ _ _ L1 c ss)|congruence]. }
  pose proof (frames_ok_nonneg _ _ (lm_frames _ _ _ H0 (running (kern w)))) as Hn.
  assert (L3 : lmid 0 l' st) by (apply (Hl3 l' 0 L2); exact Hn).
  specialize (Hl4 l' 0 L3). cbn [weight] in Hl4. rewrite Hk3, Hf3 in Hl4.
  destruct (Z.eqb_spec waiter (lock_sema l')) as [|_]; [done|]. apply Hl4. exact Hn.
Qed.

Lemma cond_signal_keeps w w' c l :
  mid None w -> running (kern w) <> idle_thread (kern w) -> cond_signal c l w = Ret (tt, w') ->
  winv None w' /\ forall l', lmid 0 l' w -> lmid 0 l' w'.
Proof.
  intros H Hne Hr. unfold cond_signal in Hr. sinv Hr. sinv Hr.
  sinv Hr with (kcall_context _ _ (proj1 H)). sinv Hr. sinv Hr.
  apply (held_by_current_inv _ _ None) in Hr0 as (-> & _ & _); [|apply H]. sinv Hr. sinv Hr.
  unfold read_cond in Hr0. destruct (conds w !! c) as [ss|] eqn:Ec; [|done]. injection Hr0 as <- <-.
  destruct ss as [|s rest]; [injection Hr as <-; by split; [apply H|]|].
  set (w1 := with_conds w (<[c := rest]> (conds w))).
  sinv Hr with (eq_refl : write_cond c rest w = Ret (tt, w1)).
  assert (H1 : mid None w1) by (by apply mid_conds).
  apply (push_keeps _ _ None) in Hr as (H3 & _ & _ & _ & _ & _ & Hl3); [|done|done|by apply not_idle_frame].
  split; [apply H3|]. intros l' H0. pose proof (lm_conds _ _ _ H0 _ _ Ec) as Hc.
  pose proof (frames_ok_nonneg _ _ (lm_frames _ _ _ H0 (running (kern w)))) as Hn.
  assert (L1 : lmid 0 l' w1) by (apply lmid_conds; [done|set_solver]).
  specialize (Hl3 l' 0 L1). cbn [weight] in Hl3.
  destruct (Z.eqb_spec s (lock_sema l')) as [->|_]; [set_solver|]. apply Hl3. exact Hn.
Qed.

Lemma cond_broadcast_keeps w w' c l :
  mid None w -> running (kern w) <> idle_thread (kern w) -> cond_broadcast c l w = Ret (tt, w') ->
  winv None w' /\ forall l', lmid 0 l' w -> lmid 0 l' w'.
Proof.
  intros H Hne Hr. unfold cond_broadcast in Hr. sinv Hr. sinv Hr. sinv Hr.
  unfold read_cond in Hr0. destruct (conds w !! c) as [ss|] eqn:Ec; [|done]. injection Hr0 as <- <-.
  destruct ss as [|s rest]; [injection Hr as <-; by split; [apply H|]|].
  sinv Hr. apply (push_keeps _ _ None) in Hr0 as (H3 & Hk3 & _ & _ & _ & _ & Hl3);
    [|done|done|by apply not_idle_frame].
  apply cond_signal_keeps in Hr as [H4 Hl4]; [|done|by rewrite Hk3]. split; [done|]. intros l' H0.
  apply Hl4, (Hl3 l' 0 H0). apply (frames_ok_nonneg _ _ (lm_frames _ _ _ H0 (running (kern w)))).
Qed.

(** ** Threads *)

Lemma intr_frames_ok l pre fs :
  Forall (fun f => intr_frame f = true) pre -> frames_ok l fs ->
  frames_ok l (pre ++ fs) /\ wsum l (pre ++ fs) = wsum l fs.
Proof.
  induction 1 as [|f pre Hf Hpre IH]; intros H; [done|]. destruct (IH H) as [H1 H2].
  pose proof (frames_ok_nonneg _ _ H). simpl. destruct f; try done; simpl; rewrite H2; (split; [split; [lia|done]|lia]).
Qed.

(** The running thread yields, [pre] being what it does when it is resumed. *)
Lemma yield_keeps w pre :
  mid None w -> Forall (fun f => intr_frame f = true) pre ->
  let k := with_intr (kern w) false in
  let w' := with_kern (with_conts w (<[running (kern w) := pre ++ frames w (running (kern w))]> (conts w)))
              (switch_to (leave k THREAD_READY (yield_queue (kern w)) (all_list (kern w)))) in
  winv None w' /\ forall l', lmid 0 l' w -> lmid 0 l' w'.
Proof.
  intros H Hpre k w'. split.
  - apply winv_leave; try done.
    + apply Forall_app. split; [|apply H]. eapply Forall_impl; [exact Hpre|]. by intros [].
    + apply Forall_app. split; [|apply (wi_frames _ _ (proj1 H))]. eapply Forall_impl; [exact Hpre|].
      intros f Hf. case_bool_decide; by destruct f.
    + apply kernel_ok_leave_yield. apply H.
    + unfold yield_queue, k. ksimp. destruct (running (kern w) =? idle_thread (kern w)); auto.
  - intros l' H0. apply lmid_kernel; [|done].
    destruct (intr_frames_ok l' pre _ Hpre (lm_frames _ _ _ H0 (running (kern w)))) as [H1 H2].
    apply (lmid_frames None _ _ _ _ _ (proj1 H) H0); [done|]. rewrite H2. lia.
Qed.

Lemma exit_keeps w w' :
  mid None w -> running (kern w) <> idle_thread (kern w) -> frames w (running (kern w)) = [] ->
  kcall thread_exit w = Ret (tt, w') ->
  winv None w' /\ forall l', lmid 0 l' w -> lmid 0 l' w'.
Proof.
  intros H Hne Hf Hr. unfold kcall in Hr.
  destruct (run_thread_exit (kern w) (wi_kernel _ _ (proj1 H)) (wi_context _ _ (proj1 H)) Hne) as [He Hk].
  rewrite He in Hr. injection Hr as <-. set (k := with_intr (kern w) false) in *.
  set (w1 := with_conts w (<[running k := frames w (running (kern w))]> (conts w))).
  assert (Hfr : forall t, frames w1 t = frames w t).
  { intros t. unfold w1. rewrite frames_insert. destruct (decide (running k = t)) as [<-|_]; done. }
  split.
  - assert (Hl : kinv None (leave k THREAD_DYING (ready_list k) (exit_all (kern w)))).
    { destruct (wi_kernel _ _ (proj1 H)) as [Hki _]. apply kinv_leave; try done.
      - by destruct Hki.
      - apply (ki_ready_nodup _ _ Hki).
      - apply NoDup_remove_all, (ki_all_nodup _ _ Hki).
      - intros t. split; [by left|]. intros [|(_ & ? & _)]; done.
      - intros t. unfold exit_all. rewrite elem_of_remove. unfold k. ksimp. tauto. }
    pose proof (winv_leave w (frames w (running (kern w))) THREAD_DYING _ _ H (proj2 H)
      (proj2 (wi_frames _ _ (proj1 H) _)) Hl (or_introl eq_refl) ltac:(done)) as Hw. fold k w1 in Hw.
    set (k' := switch_to _) in *. clearbody k'.
    destruct Hw as [Hw1 Hw2 Hw3 Hw4 Hw5 Hw6 Hw7 Hw8]. unfold woken in *. wsimp. 
    assert (Hfr' : forall t, frames (with_kern w1 k') t = frames (with_kern w k') t) by apply Hfr.
    split; try done.
    + intros s x t Hx Ht. rewrite <- Hfr'. by apply (Hw4 _ x).
    + intros s x Hx Hn. etransitivity; [by apply (Hw6 s x)|]. unfold woken. apply Z.add_le_mono_r.
      apply countb_mono. intros t _. by rewrite Hfr'.
    + intros t. rewrite <- Hfr'. apply Hw7.
    + intros s. rewrite <- Hfr'. apply Hw8.
  - intros l' H0. apply lmid_kernel; [done|]. apply total_remove. by rewrite Hf.
Qed.

Lemma create_keeps w w' nm prio page :
  mid None w -> op_ok w (OpCreate nm prio page) -> create_call nm prio page w = Ret (tt, w') ->
  winv None w' /\ forall l', lmid 0 l' w -> lmid 0 l' w'.
Proof.
  intros H (Hp1 & Hp2 & Hp3 & Hp4) Hr. unfold create_call in Hr. destruct (wi_kernel _ _ (proj1 H)) as [Hk Hi].
  destruct (run_thread_create _ (kern w) nm prio page Hk Hp1 Hp2 Hp3 Hp4
    (fun _ => wi_context _ _ (proj1 H))) as [Hc _].
  pose proof (mid_created w nm prio page H Hp1 Hp2 Hp3 Hp4) as Hm.
  set (k' := unblocked _ _) in *.
  assert (Hkc : kcall (thread_create nm prio (Some page)) w = Ret (next_tid (kern w), with_kern w k'))
    by (unfold kcall; by rewrite Hc). sinv Hr with Hkc. injection Hr as <-. split; [apply Hm|].
  intros l' H0. set (w1 := with_conts _ _).
  assert (Hf : forall t, t <> page -> frames w1 t = frames w t).
  { intros t Ht. unfold frames, w1. wsimp. by rewrite lookup_insert_ne. }
  assert (Hfp : frames w1 page = [FStart]) by (unfold frames, w1; wsimp; by rewrite lookup_insert_eq).
  split; try apply H0.
  - destruct (lm_sum _ _ _ H0) as (x & Hx & Hv & Hs). exists x. split_and!; [done|done|].
    change (all_list (kern w1)) with (all_list (kern w) ++ [page]). rewrite total_app. simpl total.
    rewrite Hfp. rewrite (total_ext l' w w1); [change (held l' w1) with (held l' w); simpl; lia|].
    intros t Ht. apply Hf. intros ->. apply (ki_all _ _ Hk) in Ht as (? & ? & _). congruence.
  - intros t. destruct (decide (t = page)) as [->|Hne]; [rewrite Hfp; simpl; split; [lia|done]|].
    rewrite Hf by done. apply (lm_frames _ _ _ H0).
Qed.

Lemma call_keeps w w' o :
  winv None w -> frames w (running (kern w)) = [] -> running (kern w) <> idle_thread (kern w) ->
  op_ok w o -> call o w = Ret (tt, w') ->
  winv None w' /\ forall l', lmid 0 l' w -> lmid 0 l' w'.
Proof.
  intros Hw Hf Hne Hok Hr. assert (H : mid None w) by (split; [done|]; rewrite Hf; constructor).
  assert (Hpriv : forall s l', private_sema w s -> lmid 0 l' w -> at_sema l' s = 0).
  { intros s l' Hp Hl. unfold at_sema. destruct (Z.eqb_spec s (lock_sema l')) as [E|]; [|done].
    by destruct (Hp l' (lm_lock _ _ _ Hl)). }
  destruct o as [s|s|s|l|l|l|c l wt|c l|c l| | |nm prio page]; simpl in Hr.
  - apply sema_down_keeps in Hr as [H1 H2]; [|done|done]. split; [done|]. intros l' Hl.
    specialize (H2 l' 0 Hl). rewrite (Hpriv s l' Hok Hl) in H2. apply H2. intros ->.
    by destruct (Hok l' (lm_lock _ _ _ Hl)).
  - sinv Hr. injection Hr as ->. apply sema_try_down_keeps in Hr0 as (H1 & _ & _ & _ & H2); [|done].
    split; [apply H1|]. intros l' Hl. specialize (H2 l' 0 Hl). rewrite (Hpriv s l' Hok Hl) in H2. by destruct a.
  - apply sema_up_keeps in Hr as [H1 H2]; [|done]. split; [apply H1|]. intros l' Hl.
    specialize (H2 l' 0 Hl ltac:(lia)). by rewrite (Hpriv s l' Hok Hl) in H2.
  - by apply lock_acquire_keeps in Hr.
  - sinv Hr. injection Hr as ->. by apply lock_try_acquire_keeps in Hr0.
  - apply lock_release_keeps in Hr as [[H1 _] H2]; done.
  - by apply cond_wait_keeps in Hr.
  - by apply cond_signal_keeps in Hr.
  - by apply cond_broadcast_keeps in Hr.
  - unfold yield_call in Hr. sinv Hr with (eq_refl : get w = Ret (w, w)).
    destruct (run_thread_yield (kern w) (wi_kernel _ _ Hw) (wi_context _ _ Hw)) as [Hy _].
    rewrite Hy in Hr. injection Hr as <-.
    apply (yield_keeps w [FYield (intr_on (kern w))] H). by repeat constructor.
  - by apply exit_keeps in Hr.
  - by apply create_keeps in Hr.
Qed.

(** The frames that no lock counts. *)
Definition weight_free (f : frame) : bool :=
  match f with FHolder _ | FUp _ | FDown _ | FSema _ _ => false | _ => true end.

(** The thread that got the semaphore of the lock becomes the holder: there
    was none. *)
Lemma lmid_take_holder d l l' w :
  winv d w -> lmid (- weight l' (FHolder l)) l' w ->
  lmid 0 l' (with_holders w (<[l := running (kern w)]> (holders w))).
Proof.
  intros Hw Hl. cbn [weight] in Hl. destruct (Z.eqb_spec l l') as [->|Hne].
  - destruct (lm_lock _ _ _ Hl) as [h Hh]. destruct (lm_sum _ _ _ Hl) as (x & _ & Hv & Hs).
    pose proof (total_nonneg _ _ _ (all_list (kern w)) Hl) as Ht. pose proof (held_bound l' w) as Hb.
    pose proof (lmid_holder _ _ _ l' (running (kern w)) _ Hl Hh) as H1. rewrite Z.eqb_refl in H1.
    unfold held in Hs, Hb. rewrite Hh in Hs, Hb. destruct (Z.eqb_spec h NULL); [|lia].
    pose proof (running_not_null _ _ Hw). by destruct (Z.eqb_spec (running (kern w)) NULL).
  - destruct (holders w !! l) as [h|] eqn:Hh.
    + pose proof (lmid_holder _ _ _ l (running (kern w)) _ Hl Hh) as H1.
      by destruct (Z.eqb_spec l l').
    + split; try apply Hl.
      * wsimp. rewrite lookup_insert_ne by done. apply (lm_lock _ _ _ Hl).
      * destruct (lm_sum _ _ _ Hl) as (x & Hx & Hv & Hs). exists x. split_and!; [done|done|].
        rewrite (total_conts l' w (with_holders w _)) by done. unfold held in *. wsimp.
        by rewrite lookup_insert_ne.
Qed.

(** The idle thread blocks again. *)
Lemma idle_block_keeps w w' :
  mid None w -> running (kern w) = idle_thread (kern w) ->
  (do! _ := kcall intr_disable in do! _ := push FHalt in kcall thread_block) w = Ret (tt, w') ->
  winv None w' /\ forall l', lmid 0 l' w -> lmid 0 l' w'.
Proof.
  intros H Hid Hr. sinv Hr with (kcall_disable w). pose proof (mid_off _ _ H) as Hm.
  destruct (wi_frames _ _ (proj1 H) (running (kern w))) as [_ Hfr].
  set (fs := FHalt :: frames w (running (kern w))) in *.
  set (w1 := with_conts (off w) (<[running (kern w) := fs]> (conts w))).
  sinv Hr with (eq_refl : push FHalt (off w) = Ret (tt, w1)).
  destruct (run_thread_block (kern (off w)) (wi_kernel _ _ (proj1 Hm)) eq_refl (wi_context _ _ (proj1 Hm))) as [Hb _].
  unfold kcall in Hr. change (kern w1) with (kern (off w)) in Hr. rewrite Hb in Hr. injection Hr as <-.
  assert (Hfs : Forall (fun f => frame_for (bool_decide (running (kern w) = idle_thread (kern w))) f = true) fs).
  { constructor; [by rewrite bool_decide_true|done]. }
  split.
  - apply (winv_leave w fs THREAD_BLOCKED (ready_list (kern w)) (all_list (kern w)) H).
    + constructor; [done|apply H].
    + done.
    + apply (kernel_ok_leave_block (kern (off w))). apply Hm.
    + by left.
    + done.
  - intros l' H0. apply lmid_kernel; [|done].
    pose proof (lm_frames _ _ _ H0 (running (kern w))) as Hok. pose proof (frames_ok_nonneg _ _ Hok).
    apply (lmid_kernel _ _ _ (with_intr (kern w) false)) in H0; [|done].
    apply (lmid_frames None 0 0 l' (off w) fs (proj1 Hm) H0).
    + by split.
    + change (frames (off w) (running (kern (off w)))) with (frames w (running (kern w))). simpl. lia.
Qed.

Lemma resume_keeps w w' f fs :
  winv None w -> frames w (running (kern w)) = f :: fs -> resume f w = Ret (tt, w') ->
  winv None w' /\ forall l', lmid 0 l' w -> lmid 0 l' w'.
Proof.
  intros Hw Hf Hr. pose proof (mid_pop w f fs Hw Hf) as H.
  assert (Hl0 : forall l, lmid 0 l w -> lmid (- weight l f) l (popped w)) by (intros l Hl; by eapply lmid_pop).
  destruct (wi_frames _ _ Hw (running (kern w))) as [_ Hid]. rewrite Hf in Hid. inversion Hid as [|? ? Hid1 Hid2]. subst.
  assert (Hne : frame_for true f = false -> running (kern w) <> idle_thread (kern w)).
  { intros Hx E. rewrite bool_decide_true in Hid1 by done. congruence. }
  assert (Hfp : frames (popped w) (running (kern w)) = fs) by (rewrite popped_frames; by rewrite Hf).
  unfold resume in Hr. sinv Hr with (eq_refl : pop w = Ret (tt, popped w)).
  assert (Hlev : forall lv, sema_of f = None -> weight_free f = true ->
    w' = with_kern (popped w) (with_intr (kern w) lv) -> winv None w' /\ forall l', lmid 0 l' w -> lmid 0 l' w').
  { intros lv Es Ew ->. rewrite Es in H. split; [apply (mid_intr _ _ lv H)|]. intros l' Hl.
    apply lmid_kernel; [|done]. specialize (Hl0 l' Hl). by destruct f. }
  destruct f as [old| | |s old|s|s|l|l|c l| |]; cbn [sema_of] in H.
  - sinv Hr. injection Hr as ->. destruct (kcall_level (popped w) old (wi_context _ _ (proj1 H))) as [o Ho].
    rewrite Ho in Hr0. injection Hr0 as _ <-. by apply (Hlev old).
  - sinv Hr with (eq_refl : get (popped w) = Ret (popped w, popped w)). injection Hr as <-. by apply (Hlev true).
  - sinv Hr. injection Hr as ->. destruct (kcall_level (popped w) true (wi_context _ _ (proj1 H))) as [o Ho].
    cbn [intr_set_level] in Ho. rewrite Ho in Hr0. injection Hr0 as _ <-. by apply (Hlev true).
  - assert (Hoff : intr_on (kern w) = false) by (apply (wi_off _ _ Hw s); rewrite Hf; apply Z.eqb_refl).
    apply (sema_loop_keeps _ _ (Some s)) in Hr as [H1 H2]; [|done|done|by apply Hne|].
    + split; [done|]. intros l' Hl. pose proof (lm_frames _ _ _ Hl (running (kern w))) as Hok. rewrite Hf in Hok.
      specialize (H2 l' _ (Hl0 l' Hl)). change (running (kern (popped w))) with (running (kern w)) in H2.
      rewrite Hfp in H2. destruct Hok as [Hok _]. cbn [wsum weight] in Hok, H2. unfold at_sema in H2.
      destruct (Z.eqb_spec s (lock_sema l')); apply H2; [lia|done].
    + intros s' Hs'. unfold credit. rewrite decide_False by congruence. done.
  - apply sema_down_keeps in Hr as [H1 H2]; [|done|by apply Hne]. split; [done|]. intros l' Hl.
    pose proof (lm_frames _ _ _ Hl (running (kern w))) as Hok. rewrite Hf in Hok.
    specialize (H2 l' _ (Hl0 l' Hl)). change (running (kern (popped w))) with (running (kern w)) in H2.
    rewrite Hfp in H2. destruct Hok as [Hok _]. cbn [wsum weight] in Hok, H2. unfold at_sema in H2.
    destruct (Z.eqb_spec s (lock_sema l')); apply H2; [lia|done].
  - apply sema_up_keeps in Hr as [[H1 _] H2]; [|done]. split; [done|]. intros l' Hl.
    specialize (H2 l' _ (Hl0 l' Hl)). cbn [weight] in H2. unfold at_sema in H2.
    destruct (s =? lock_sema l'); apply H2; lia.
  - sinv Hr with (kcall_current _ _ (proj1 H)). change (kern (popped w)) with (kern w) in Hr. injection Hr as <-.
    split; [apply (mid_holders _ _ _ H)|]. intros l' Hl. 
    exact (lmid_take_holder None l l' (popped w) (proj1 H) (Hl0 l' Hl)).
  - apply lock_acquire_keeps in Hr as [H1 H2]; [|done|by apply Hne]. split; [done|]. intros l' Hl.
    apply H2. exact (Hl0 l' Hl).
  - apply cond_broadcast_keeps in Hr as [H1 H2]; [|done|by apply Hne]. split; [done|]. intros l' Hl.
    apply H2. exact (Hl0 l' Hl).
  - assert (Hi : running (kern w) = idle_thread (kern w)) by (by case_bool_decide).
    sinv Hr. apply (push_keeps _ _ None) in Hr0 as (Hm & Hk & _ & _ & _ & _ & Hl); [|done|done|by rewrite bool_decide_true].
    sinv Hr with (eq_refl : get st = Ret (st, st)). injection Hr as <-. split; [apply (mid_intr _ _ true Hm)|].
    intros l' Hl'. apply lmid_kernel; [|done]. apply (Hl l' _ (Hl0 l' Hl')). simpl.
    apply (frames_ok_nonneg _ _ (lm_frames _ _ _ (Hl0 l' Hl') _)).
  - apply idle_block_keeps in Hr as [H1 H2]; [|done|by case_bool_decide]. split; [done|]. intros l' Hl.
    apply H2. exact (Hl0 l' Hl).
Qed.

Lemma tick_keeps w w' :
  winv None w -> intr_on (kern w) = true -> tick w = Ret (tt, w') ->
  winv None w' /\ forall l', lmid 0 l' w -> lmid 0 l' w'.
Proof.
  intros Hw Hon Hr.
  assert (H : mid None w).
  { split; [done|]. destruct (wi_frames _ _ Hw (running (kern w))) as [Ht _].
    destruct (frames w (running (kern w))) as [|f fs] eqn:E; [constructor|]. constructor; [|done].
    destruct f as [| | |s old| | | | | | |]; try done. pose proof (wi_off _ _ Hw s) as Ho. rewrite E in Ho.
    simpl in Ho. rewrite Z.eqb_refl, Hon in Ho. by specialize (Ho eq_refl). }
  set (k0 := with_intr (kern w) false).
  assert (Hok : kernel_ok k0) by (by apply (kernel_ok_ext (kern w)); [apply Hw|..]).
  set (y := TIME_SLICE <=? u32 (thread_ticks k0 + 1)).
  set (k1 := with_context (ticked k0) false y).
  pose proof (run_intr_handler_timer k0 Hok eq_refl (wi_context _ _ Hw)) as Hh. cbv zeta in Hh. fold y k1 in Hh.
  assert (H1 : mid None (with_kern w k1)) by (by apply mid_kernel).
  assert (Hl1 : forall l', lmid 0 l' w -> lmid 0 l' (with_kern w k1)) by (intros l' Hl; by apply lmid_kernel).
  unfold tick in Hr. sinv Hr with (eq_refl : get w = Ret (w, w)). fold k0 in Hr. rewrite Hh in Hr.
  destruct y eqn:Ey.
  - injection Hr as <-. destruct (yield_keeps _ [FYield false; FIret] H1 ltac:(by repeat constructor)) as [H2 H3].
    assert (E : with_intr k1 false = k1) by (apply kernel_ext; done). cbv zeta in H2, H3. wsimp.
    change (kern (with_kern w k1)) with k1 in H2, H3. rewrite E in H2, H3. split; [exact H2|].
    intros l' Hl. apply H3, Hl1, Hl.
  - injection Hr as <-. split; [apply (mid_intr _ _ true H1)|]. intros l' Hl. apply lmid_kernel; done.
Qed.

(** Every step preserves the invariants. *)
Lemma step_keeps w w' :
  step w w' -> winv None w -> winv None w' /\ forall l', lmid 0 l' w -> lmid 0 l' w'.
Proof.
  intros [o Hf Hne Hok Hr|f fs Hf Hr|Hon Hr] Hw.
  - by eapply call_keeps.
  - by eapply resume_keeps.
  - by eapply tick_keeps.
Qed.

(** ** Reachable worlds *)

(** The worlds that the machine can reach. *)
Definition reachable (w0 w : world) : Prop := initial w0 /\ rtc step w0 w.

Lemma initial_winv w : initial w -> winv None w.
Proof.
  intros H. assert (Hf : forall s t, in_down s (frames w t) = false).
  { intros s t. destruct (decide (t = idle_thread (kern w))) as [->|Hne]; [by rewrite (in_idle _ H)|].
    by destruct (in_frames _ H t Hne) as [->| ->]. }
  split; try apply H.
  - intros s x Hx. destruct (in_semas _ H _ _ Hx) as [? ->]. split; [done|constructor].
  - intros s x t Hx. destruct (in_semas _ H _ _ Hx) as [_ ->]. intros []%elem_of_nil.
  - intros t Ht Hne. unfold thread_st in Ht. destruct (threads (kern w) !! t) as [th|] eqn:E; [|done].
    injection Ht as Ht. by destruct Hne, (in_blocked _ H t th E Ht).
  - intros s x Hx Hne. by destruct (in_semas _ H _ _ Hx) as [_ ?].
  - intros t. case_bool_decide as Hd; [subst; rewrite (in_idle _ H); split; [constructor|by repeat constructor]|].
    destruct (in_frames _ H t Hd) as [->| ->]; (split; [constructor|by repeat constructor]).
  - intros s. by rewrite Hf.
Qed.

Lemma initial_lmid w l : initial w -> is_Some (holders w !! l) -> lmid 0 l w.
Proof.
  intros H [h Hh]. destruct (in_locks _ H _ _ Hh) as (-> & x & Hx & Hv).
  assert (Hf : forall t, frames_ok l (frames w t) /\ wsum l (frames w t) = 0).
  { intros t. destruct (decide (t = idle_thread (kern w))) as [->|Hne];
      [rewrite (in_idle _ H)|destruct (in_frames _ H t Hne) as [->| ->]]; simpl;
      repeat split; lia. }
  split; [by rewrite Hh| |apply Hf|].
  - exists x. split_and!; [done|lia|]. unfold held. rewrite Hh.
    assert (forall ts, total l w ts = 0) as -> by (induction ts as [|t ts IH]; simpl; [done|]; rewrite IH; destruct (Hf t); lia).
    simpl. lia.
  - intros c ss Hc Hin. by apply (in_conds _ H c ss _ Hc Hin l).
Qed.

Lemma reachable_winv w0 w : reachable w0 w -> winv None w.
Proof.
  intros [Hi Hs]. revert w Hs. apply (rtc_ind_r (fun w => winv None w)); [by apply initial_winv|].
  intros w1 w2 _ Hst IH. by eapply step_keeps.
Qed.

Lemma reachable_lmid w0 w l : reachable w0 w -> is_Some (holders w0 !! l) -> lmid 0 l w.
Proof.
  intros [Hi Hs] Hl. revert w Hs. apply (rtc_ind_r (fun w => lmid 0 l w)); [by apply initial_lmid|].
  intros w1 w2 Hs Hst IH. apply (step_keeps _ _ Hst); [|done]. apply (reachable_winv w0). by split.
Qed.

(** ** A concrete world: the threads at 4096 (running) and 8192 (ready), the
    idle thread at 16384, a semaphore at 100, a lock at 200, a condition at
    300. *)
Definition demo_threads : kernel :=
  let th i s := mkThread i s [] 0 31 THREAD_MAGIC in
  mkKernel {[ 4096 := th 1 THREAD_RUNNING; 8192 := th 2 THREAD_READY; 16384 := th 3 THREAD_BLOCKED ]}
    [8192] [4096; 8192; 16384] 16384 4096 4096 true false false 0 0 0 0 4.

Definition demo_world : world :=
  mkWorld demo_threads {[ 100 := mkSema 0 []; 204 := mkSema 1 [] ]} {[ 200 := NULL ]} {[ 300 := [] ]}
    {[ 8192 := [FStart]; 16384 := [FHalt] ]}.

Lemma demo_threads_lookup t th :
  threads demo_threads !! t = Some th ->
  (t = 4096 /\ status th = THREAD_RUNNING \/ t = 8192 /\ status th = THREAD_READY \/
   t = 16384 /\ status th = THREAD_BLOCKED) /\ magic th = THREAD_MAGIC.
Proof.
  simpl. rewrite !lookup_insert, lookup_singleton.
  repeat case_decide; intros [= <-]; subst; simpl; split; try done; auto 10.
Qed.

Lemma demo_threads_ok : kernel_ok demo_threads.
Proof.
  split; [split|done].
  - intros t th Ht. destruct (demo_threads_lookup t th Ht) as [[[-> ->]|[[-> ->]|[-> ->]]] _]; split; done.
  - by intros t [= <-].
  - eexists. vm_compute. reflexivity.
  - intros t th Ht. destruct (demo_threads_lookup t th Ht) as [Hx Hm]. split; [done|]. unfold NULL. lia.
  - repeat constructor; set_solver.
  - intros t ->%list_elem_of_singleton. eexists. split; [vm_compute; reflexivity|done].
  - intros t th Ht Hs. destruct (demo_threads_lookup t th Ht) as [[[-> Hx]|[[-> Hx]|[_ Hx]]] _]; try congruence.
    left. by apply list_elem_of_singleton.
  - simpl. repeat constructor; set_solver.
  - intros t. split.
    + simpl. rewrite !elem_of_cons. intros [->|[->|[->|[]%elem_of_nil]]];
        (eexists; split; [vm_compute; reflexivity|done]).
    + intros (th & Ht & _). destruct (demo_threads_lookup t th Ht) as [Hx _]. simpl. set_solver by lia.
  - intros _. split; simpl; set_solver.
Qed.

Lemma demo_initial : initial demo_world.
Proof.
  split; try done.
  - apply demo_threads_ok.
  - intros s x. simpl. rewrite lookup_insert, lookup_singleton.
    repeat case_decide; intros [= <-]; (split; [unfold is_u32, two32; simpl; lia|done]).
  - intros l h. simpl. rewrite lookup_singleton. case_decide; [|done]. intros [= <-]. subst l. split; [done|].
    eexists. split; [vm_compute; reflexivity|done].
  - intros c ss s. simpl. rewrite lookup_singleton. case_decide; [|done]. intros [= <-] []%elem_of_nil.
  - intros t th Ht Hs. destruct (demo_threads_lookup t th Ht) as [[[-> Hx]|[[-> Hx]|[-> Hx]]] _]; (congruence || done).
  - intros t Hne. change (idle_thread (kern demo_world)) with 16384 in Hne. unfold frames. simpl.
    rewrite lookup_insert, lookup_singleton. repeat case_decide; auto. by subst.
Qed.

(** The world after a call. *)
Definition after (o : op) (w : world) : world := match call o w with Ret (_, w') => w' | Err _ => w end.

(** The world after the running thread has gone on with what it has to do. *)
Definition resumed (w : world) : world :=
  match frames w (running (kern w)) with
  | f :: _ => match resume f w with Ret (_, w') => w' | Err _ => w end
  | [] => w
  end.

(** The running thread sleeps on the semaphore at 100. *)
Definition demo_asleep : world := after (OpDown 100) demo_world.

Lemma demo_private w : holders w = {[ 200 := NULL ]} -> private_sema w 100.
Proof. intros Hw l. rewrite Hw, lookup_singleton. case_decide; [subst; done|by intros [? ?]]. Qed.

Lemma demo_asleep_reachable : reachable demo_world demo_asleep.
Proof.
  split; [apply demo_initial|]. apply rtc_once. apply (step_call _ _ (OpDown 100)).
  - done.
  - done.
  - by apply demo_private.
  - unfold demo_asleep, after. vm_compute. reflexivity.
Qed.

(** ** Theorems *)

(** C14: the wait lists.  In every reachable world the threads that are
    blocked, other than the idle thread, are exactly those in the wait list
    of a semaphore, each is in only one, and none of them is in the run
    queue: the list element that [struct thread] shares between the run
    queue and the wait lists is never in two lists. *)
Theorem wait_lists_exact w0 w :
  reachable w0 w ->
  (forall t, t <> idle_thread (kern w) ->
     thread_st (kern w) t = Some THREAD_BLOCKED <-> exists s x, semas w !! s = Some x /\ t ∈ waiters x) /\
  (forall t s x, semas w !! s = Some x -> t ∈ waiters x ->
     (t ∉ ready_list (kern w)) /\ t <> running (kern w) /\ NoDup (waiters x) /\
     forall s' x', semas w !! s' = Some x' -> t ∈ waiters x' -> s' = s).
Proof.
  intros H%reachable_winv. split.
  - intros t Ht. split; [intros Hb; by apply (wi_blocked _ _ H)|].
    intros (s & x & Hx & Hin). apply (wi_waiters _ _ H _ _ _ Hx Hin).
  - intros t s x Hx Hin. destruct (wi_waiter_facts _ _ _ _ _ H Hx Hin) as (_ & Hr & th & Hth & Hs).
    destruct (wi_waiters _ _ H _ _ _ Hx Hin) as [_ Hd]. split_and!; [|done|apply (wi_value _ _ H _ _ Hx)|].
    + intros Hin'. destruct (ki_ready _ _ (proj1 (wi_kernel _ _ H)) _ Hin') as (th' & Hth' & Hs'). congruence.
    + intros s' x' Hx' Hin'. destruct (wi_waiters _ _ H _ _ _ Hx' Hin') as [_ Hd'].
      by apply (in_down_unique _ _ _ Hd' Hd).
Qed.

Lemma wait_lists_exact_witness :
  thread_st (kern demo_asleep) 4096 = Some THREAD_BLOCKED /\
  exists s x, semas demo_asleep !! s = Some x /\ 4096 ∈ waiters x.
Proof.
  split; [vm_compute; reflexivity|].
  apply (proj1 (wait_lists_exact demo_world demo_asleep demo_asleep_reachable)); [done|].
  vm_compute. reflexivity.
Defined.

(** [sema_up] called by the running thread: the value, and the thread that
    has waited longest. *)
Lemma sema_up_wakes w s x :
  winv None w -> frames w (running (kern w)) = [] -> s <> NULL -> semas w !! s = Some x ->
  exists w', sema_up s w = Ret (tt, w') /\ semas w' !! s = Some (mkSema (u32 (value x + 1)) (tail (waiters x))) /\
    forall t, head (waiters x) = Some t ->
      thread_st (kern w') t = Some THREAD_READY /\ t ∈ ready_list (kern w') /\ in_down s (frames w' t) = true.
Proof.
  intros H Hf Hn Hx. assert (Hm : mid None w) by (split; [done|]; rewrite Hf; constructor).
  rewrite (run_sema_up w s x Hm Hn Hx). eexists. split; [done|]. unfold upped.
  destruct (waiters x) as [|t rest] eqn:E; wsimp; rewrite lookup_insert_eq; (split; [done|]); [done|]. intros t' [= <-].
  assert (Ht : t ∈ waiters x) by (rewrite E; by left).
  destruct (wi_waiter_facts _ _ _ _ _ H Hx Ht) as (_ & _ & th & Hth & _). destruct (wi_waiters _ _ H _ _ _ Hx Ht) as [_ Hd].
  split; [|split; [|done]].
  - change (thread_st (unblocked (kern (off w)) t) t = Some THREAD_READY). rewrite unblocked_st, decide_True by done.
    change (threads (kern (off w))) with (threads (kern w)). by rewrite Hth.
  - unfold unblocked, with_ready. cbn. set_solver.
Qed.

(** A woken thread that runs while the value is positive. *)
Lemma sema_woken_takes w s x old fs :
  winv None w -> frames w (running (kern w)) = FSema s old :: fs -> semas w !! s = Some x -> 0 < value x ->
  exists w', resume (FSema s old) w = Ret (tt, w') /\ semas w' !! s = Some (mkSema (value x - 1) (waiters x)) /\
    running (kern w') = running (kern w) /\ frames w' (running (kern w)) = fs /\ intr_on (kern w') = old.
Proof.
  intros H Hf Hx Hv. pose proof (mid_pop w _ fs H Hf) as Hm. destruct (wi_value _ _ H _ _ Hx) as [Hr _].
  assert (Hoff : intr_on (kern w) = false) by (apply (wi_off _ _ H s); rewrite Hf; apply Z.eqb_refl).
  unfold resume. sstep (eq_refl : pop w = Ret (tt, popped w)). rewrite (run_sema_loop _ (popped w) s x old Hm Hx Hoff).
  eexists. split; [done|]. unfold down_result. rewrite (proj2 (Z.eqb_neq _ _)) by lia. unfold taken. wsimp.
  rewrite lookup_insert_eq, u32_small by (unfold is_u32 in *; lia). split; [done|]. split; [done|]. split; [|done].
  change (frames (popped w) (running (kern w)) = fs). by rewrite popped_frames, Hf.
Qed.

(** C4: no wakeup is lost.  In every reachable world: [sema_up] increments
    the value and makes the thread that has waited longest ready to test it
    again.  A thread that was woken and runs while the value is positive
    decrements it and returns from [sema_down].  If threads wait while the
    value is positive, then at least as many threads as the value have been
    woken and are ready or running, about to test it; so it never happens
    that all those who could take the semaphore sleep. *)
Theorem no_lost_wakeup w0 w s x :
  reachable w0 w -> semas w !! s = Some x ->
  (s <> NULL -> frames w (running (kern w)) = [] ->
   exists w', sema_up s w = Ret (tt, w') /\ semas w' !! s = Some (mkSema (u32 (value x + 1)) (tail (waiters x))) /\
     forall t, head (waiters x) = Some t ->
       thread_st (kern w') t = Some THREAD_READY /\ t ∈ ready_list (kern w') /\ in_down s (frames w' t) = true) /\
  (forall old fs, frames w (running (kern w)) = FSema s old :: fs -> 0 < value x ->
   exists w', resume (FSema s old) w = Ret (tt, w') /\ semas w' !! s = Some (mkSema (value x - 1) (waiters x)) /\
     running (kern w') = running (kern w) /\ frames w' (running (kern w)) = fs /\ intr_on (kern w') = old) /\
  (waiters x <> [] -> value x <= woken w s /\
   (0 < value x -> exists t, t ∈ running (kern w) :: ready_list (kern w) /\ in_down s (frames w t) = true)).
Proof.
  intros H%reachable_winv Hx. split; [intros Hn Hf; by apply sema_up_wakes|]. split; [intros old fs Hf Hv; by apply sema_woken_takes|].
  intros Hne. pose proof (wi_wake _ _ H _ _ Hx Hne) as Hw.
  unfold credit in Hw. rewrite decide_False, Z.add_0_r in Hw by done. split; [done|]. intros Hv.
  unfold woken, countb in Hw.
  destruct (filter _ _) as [|t ts] eqn:E; [simpl in Hw; lia|]. exists t.
  assert (Hin : t ∈ t :: ts) by (by left). rewrite <- E in Hin. apply list_elem_of_filter in Hin as [? ?]. done.
Qed.

(** The running thread creates a third one, and two threads sleep on the
    semaphore at 100; the third thread raises it. *)
Definition demo_waiting : world :=
  resumed (after (OpDown 100) (resumed (after (OpDown 100) (after (OpCreate [116] 31 20480) demo_world)))).

Definition demo_raised : world := after (OpUp 100) demo_waiting.

(** A call in a concrete world. *)
Ltac demo_call o := apply (step_call _ _ o); [vm_compute; reflexivity|vm_compute; discriminate| |vm_compute; reflexivity].

Lemma demo_waiting_reachable : reachable demo_world demo_waiting.
Proof.
  split; [apply demo_initial|]. unfold demo_waiting. set (w1 := after (OpCreate _ _ _) demo_world).
  eapply rtc_l with w1; [demo_call (OpCreate [116] 31 20480); split; vm_compute; [reflexivity|split_and!; congruence]|].
  eapply rtc_l with (after (OpDown 100) w1); [demo_call (OpDown 100); apply demo_private; vm_compute; reflexivity|].
  set (w2 := after (OpDown 100) w1). eapply rtc_l with (resumed w2); [eapply (step_resume _ _ FStart); vm_compute; reflexivity|].
  set (w3 := resumed w2). eapply rtc_l with (after (OpDown 100) w3); [demo_call (OpDown 100); apply demo_private; vm_compute; reflexivity|].
  apply rtc_once. eapply (step_resume _ _ FStart); vm_compute; reflexivity.
Qed.

Lemma demo_raised_reachable : reachable demo_world demo_raised.
Proof.
  destruct demo_waiting_reachable as [H1 H2]. split; [exact H1|]. eapply rtc_r; [exact H2|].
  demo_call (OpUp 100). apply demo_private. vm_compute. reflexivity.
Qed.

(** The value is 1, one thread still waits, and another one has been woken. *)
Lemma no_lost_wakeup_witness :
  (exists w', sema_up 100 demo_waiting = Ret (tt, w') /\ semas w' !! 100 = Some (mkSema 1 [8192]) /\ 4096 ∈ ready_list (kern w')) /\
  semas demo_raised !! 100 = Some (mkSema 1 [8192]) /\ 1 <= woken demo_raised 100 /\
  exists t, t ∈ running (kern demo_raised) :: ready_list (kern demo_raised) /\ in_down 100 (frames demo_raised t) = true.
Proof.
  assert (H0 : semas demo_waiting !! 100 = Some (mkSema 0 [4096; 8192])) by (vm_compute; reflexivity).
  assert (H1 : semas demo_raised !! 100 = Some (mkSema 1 [8192])) by (vm_compute; reflexivity). split; [|split; [exact H1|]].
  - destruct (proj1 (no_lost_wakeup demo_world demo_waiting 100 _ demo_waiting_reachable H0)) as (w' & Hr & Hx & Ht); [done|vm_compute; reflexivity|].
    exists w'. split; [exact Hr|]. split; [exact Hx|]. apply (Ht 4096). reflexivity.
  - destruct (proj2 (proj2 (no_lost_wakeup demo_world demo_raised 100 _ demo_raised_reachable H1))) as [Hv Hw]; [done|].
    split; [exact Hv|]. apply Hw. done.
Defined.

(** A thread has the lock: it is the holder, or it is between taking or
    giving back the semaphore and the assignment of [holder]. *)
Definition owns (w : world) (l t : Z) : Prop :=
  (holders w !! l = Some t /\ t <> NULL) \/ (t ∈ all_list (kern w) /\ 0 < wsum l (frames w t)).

Lemma total_two e l w ts t : lmid e l w -> t ∈ ts -> wsum l (frames w t) <= total l w ts.
Proof.
  intros H. induction ts as [|a ts IH]; [by intros []%elem_of_nil|]. simpl.
  pose proof (total_nonneg _ _ _ ts H). pose proof (frames_ok_nonneg _ _ (lm_frames _ _ _ H a)).
  intros [->|Hin]%elem_of_cons; [lia|]. specialize (IH Hin). lia.
Qed.

Lemma total_pair e l w ts t t' :
  lmid e l w -> NoDup ts -> t ∈ ts -> t' ∈ ts -> t <> t' ->
  wsum l (frames w t) + wsum l (frames w t') <= total l w ts.
Proof.
  intros H Hd. induction Hd as [|a ts Ha Hd IH]; [by intros []%elem_of_nil|]. simpl.
  pose proof (frames_ok_nonneg _ _ (lm_frames _ _ _ H a)).
  intros [->|H1]%elem_of_cons [->|H2]%elem_of_cons Hne; [done| | |].
  - pose proof (total_two _ _ _ ts t' H H2). lia.
  - pose proof (total_two _ _ _ ts t H H1). lia.
  - specialize (IH H1 H2 Hne). lia.
Qed.

(** C3: mutual exclusion.  In every reachable world at most one thread has
    a lock, counting also the threads that are between the operation on its
    semaphore and the assignment of its holder; while a thread has it, the
    value of its semaphore is zero. *)
Theorem lock_mutual_exclusion w0 w l :
  reachable w0 w -> is_Some (holders w0 !! l) ->
  (forall t t', owns w l t -> owns w l t' -> t = t') /\
  (forall t, owns w l t -> exists x, semas w !! lock_sema l = Some x /\ value x = 0).
Proof.
  intros Hr Hl0. pose proof (reachable_lmid w0 w l Hr Hl0) as H. apply reachable_winv in Hr.
  destruct (running_in_all _ _ Hr) as [_ Hd]. destruct (lm_sum _ _ _ H) as (x & Hx & Hv & Hs).
  pose proof (total_nonneg _ _ _ (all_list (kern w)) H) as Ht0. pose proof (held_bound l w) as Hb.
  assert (Hh : forall t, holders w !! l = Some t -> t <> NULL -> held l w = 1).
  { intros t E Hn. unfold held. rewrite E. by destruct (Z.eqb_spec t NULL). }
  split.
  - intros t t' [[H1 N1]|[H1 W1]] [[H2 N2]|[H2 W2]].
    + congruence.
    + pose proof (total_two _ _ _ _ _ H H2). rewrite (Hh t) in Hs by done. lia.
    + pose proof (total_two _ _ _ _ _ H H1). rewrite (Hh t') in Hs by done. lia.
    + destruct (decide (t = t')) as [|Hne]; [done|]. pose proof (total_pair _ _ _ _ _ _ H Hd H1 H2 Hne). lia.
  - intros t Ho. exists x. split; [done|]. destruct Ho as [[H1 N1]|[H1 W1]].
    + rewrite (Hh t) in Hs by done. lia.
    + pose proof (total_two _ _ _ _ _ H H1). lia.
Qed.

(** The running thread takes the lock at 200: two calls' worth of steps. *)
Definition demo_locked : world := resumed (resumed (after (OpAcquire 200) demo_world)).

Lemma demo_locked_reachable : reachable demo_world demo_locked.
Proof.
  split; [apply demo_initial|].
  apply (rtc_l _ _ (after (OpAcquire 200) demo_world)).
  { apply (step_call _ _ (OpAcquire 200)); [done..|]. vm_compute. reflexivity. }
  apply (rtc_l _ _ (resumed (after (OpAcquire 200) demo_world))).
  { eapply (step_resume _ _ (FDown 204)); vm_compute; reflexivity. }
  apply (rtc_l _ _ demo_locked); [|apply rtc_refl].
  eapply (step_resume _ _ (FHolder 200)); vm_compute; reflexivity.
Qed.

Lemma lock_mutual_exclusion_witness :
  owns demo_locked 200 4096 /\ exists x, semas demo_locked !! 204 = Some x /\ value x = 0.
Proof.
  assert (Ho : owns demo_locked 200 4096) by (left; split; [vm_compute; reflexivity|done]).
  split; [exact Ho|].
  destruct (lock_mutual_exclusion demo_world demo_locked 200 demo_locked_reachable) as [_ H].
  - vm_compute. eexists. reflexivity.
  - exact (H 4096 Ho).
Defined.

(** the operations on semaphores.  Called by the running thread in a
    reachable world on an existing semaphore, each returns without tripping
    an assertion.  [sema_down] decrements a positive value and restores the
    interrupt level; on the value zero it leaves the value, puts the thread
    at the end of the wait list, blocked, and another thread runs.
    [sema_try_down] succeeds exactly when the value is positive.  [sema_up]
    increments the value (modulo [2^32]) and moves the thread that has
    waited longest to the end of the run queue. *)
Theorem sema_operations w0 w s x :
  reachable w0 w -> frames w (running (kern w)) = [] -> running (kern w) <> idle_thread (kern w) ->
  s <> NULL -> semas w !! s = Some x ->
  (exists w', sema_down s w = Ret (tt, w') /\
     (value x <> 0 -> semas w' !! s = Some (mkSema (value x - 1) (waiters x)) /\
        running (kern w') = running (kern w) /\ intr_on (kern w') = intr_on (kern w)) /\
     (value x = 0 -> semas w' !! s = Some (mkSema 0 (waiters x ++ [running (kern w)])) /\
        thread_st (kern w') (running (kern w)) = Some THREAD_BLOCKED /\
        running (kern w') = next_thread (kern w))) /\
  (exists w', sema_try_down s w = Ret (bool_decide (0 < value x), w') /\
     semas w' !! s = Some (mkSema (if bool_decide (0 < value x) then value x - 1 else 0) (waiters x)) /\
     running (kern w') = running (kern w)) /\
  (exists w', sema_up s w = Ret (tt, w') /\
     semas w' !! s = Some (mkSema (u32 (value x + 1)) (tail (waiters x))) /\
     running (kern w') = running (kern w) /\ intr_on (kern w') = intr_on (kern w) /\
     ready_list (kern w') = ready_list (kern w) ++ take 1 (waiters x)).
Proof.
  intros Hw%reachable_winv Hf Hid Hn Hx.
  assert (H : mid None w) by (split; [done|]; rewrite Hf; constructor).
  destruct (wi_value _ _ Hw _ _ Hx) as [[Hr1 Hr2] _]. destruct (wi_kernel _ _ Hw) as [Hk Hi].
  assert (Hu : value x <> 0 -> u32 (value x - 1) = value x - 1)
    by (intros; apply u32_small; unfold is_u32; lia).
  split_and!.
  - rewrite (run_sema_down w s x H Hn Hx). eexists. split; [done|]. unfold down_result.
    destruct (Z.eqb_spec (value x) 0) as [Hz|Hz]; (split; [intros Hv|intros Hv]); try done.
    + unfold slept, off. wsimp. rewrite lookup_insert_eq, Hz. split_and!; [done| |done].
      apply (switch_blocked (with_intr (kern w) false)); try done.
      * apply (kernel_ok_leave_block (with_intr (kern w) false)). apply (mid_off _ _ H).
      * right. split_and!; [done|done|apply (ki_alive _ _ Hk)].
    + unfold taken, off. wsimp. rewrite lookup_insert_eq, (Hu Hz). done.
  - rewrite (run_sema_try_down w s x H Hn Hx). destruct (Z.eqb_spec (value x) 0) as [Hz|Hz]; cbn [negb].
    + rewrite bool_decide_false by lia. eexists. split_and!; [done| |done]. rewrite Hx. destruct x. simpl in *. congruence.
    + rewrite bool_decide_true by lia. eexists. split_and!; [done| |done]. unfold taken. wsimp.
      by rewrite lookup_insert_eq, (Hu Hz).
  - rewrite (run_sema_up w s x H Hn Hx). eexists. split; [done|]. unfold upped.
    destruct (waiters x) as [|t rest]; wsimp; rewrite lookup_insert_eq; split_and!; try done.
    by rewrite app_nil_r.
Qed.

Lemma sema_operations_witness :
  exists w', sema_up 100 (resumed demo_asleep) = Ret (tt, w') /\ ready_list (kern w') = [4096].
Proof.
  assert (Hr : reachable demo_world (resumed demo_asleep)).
  { destruct demo_asleep_reachable as [H1 H2]. split; [exact H1|]. eapply rtc_r; [exact H2|].
    eapply (step_resume _ _ FStart); vm_compute; reflexivity. }
  destruct (sema_operations demo_world (resumed demo_asleep) 100 (mkSema 0 [4096]) Hr)
    as (_ & _ & w' & Hu & _ & _ & _ & Hq); [vm_compute; reflexivity|vm_compute; discriminate|done|vm_compute; reflexivity|].
  exists w'. split; [exact Hu|]. rewrite Hq. vm_compute. reflexivity.
Defined.
