(* ===== verification/Palloc.v ===== *)
(** * Virtual addresses and the page allocator ([threads/vaddr.h],
    [threads/palloc.c])

    The allocator keeps two pools, each a bitmap of used pages and a base
    address.  The memory that the pages are made of is a function from
    addresses to bytes.  The pool lock makes each allocation atomic ([SynchLock]);
    the functions below are the sequential behaviour under the lock. *)
From stdpp Require Import prelude list.
From Stdlib Require Import ZArith Lia.
From S2P Require Import Prelude Bitmap.
#[local] Open Scope Z_scope.

(** ** [threads/vaddr.h] *)

Definition PGSHIFT : Z := 0.
Definition PGBITS : Z := 12.
Definition PGSIZE : Z := Z.shiftl 1 PGBITS.
Definition BITMASK (sh cnt : Z) : Z := u32 (Z.shiftl (Z.shiftl 1 cnt - 1) sh).
Definition PGMASK : Z := BITMASK PGSHIFT PGBITS.
(** [LOADER_PHYS_BASE], 3 GB. *)
Definition PHYS_BASE : Z := 3221225472.

Definition pg_ofs (va : Z) : Z := Z.land va PGMASK.
Definition pg_no (va : Z) : Z := Z.shiftr va PGBITS.
Definition pg_round_up (va : Z) : Z := Z.land (u32 (va + PGSIZE - 1)) (u32 (Z.lnot PGMASK)).
Definition pg_round_down (va : Z) : Z := Z.land va (u32 (Z.lnot PGMASK)).
Definition is_user_vaddr (va : Z) : bool := va <? PHYS_BASE.
Definition is_kernel_vaddr (va : Z) : bool := PHYS_BASE <=? va.

Definition ptov (paddr : Z) : outcome Z :=
  let! _ := ASSERT (paddr <? PHYS_BASE) in Ret (u32 (paddr + PHYS_BASE)).

Definition vtop (vaddr : Z) : outcome Z :=
  let! _ := ASSERT (is_kernel_vaddr vaddr) in Ret (u32 (vaddr - PHYS_BASE)).

(** ** Data *)

Definition PAL_ASSERT : Z := 1.
Definition PAL_ZERO : Z := 2.
Definition PAL_USER : Z := 4.

Record pool : Type := mkPool { used_map : bitmap; base : Z }.

Record palloc_state : Type := mkPalloc {
  kernel_pool : pool;
  user_pool : pool;
  memory : Z -> Z
}.

(** [memset (dst, v, size)]. *)
Definition fill (m : Z -> Z) (dst v size : Z) : Z -> Z :=
  fun a => if (dst <=? a) && (a <? dst + size) then v else m a.

(** ** Operations *)

(** [storage] is the array of bitmap elements at the start of the pool. *)
Definition init_pool (start page_cnt : Z) (storage : list Z) : outcome pool :=
  let bm_pages := DIV_ROUND_UP (bitmap_buf_size page_cnt) PGSIZE in
  if page_cnt <? bm_pages then Err Panicked else
  let page_cnt := page_cnt - bm_pages in
  let! map := bitmap_create_in_buf page_cnt storage (u32 (bm_pages * PGSIZE)) in
  Ret (mkPool map (u32 (start + bm_pages * PGSIZE))).

(** [kst] and [ust] are what the memory at the start of the two pools holds. *)
Definition palloc_init (init_ram_pages user_page_limit : Z) (kst ust : list Z) (m : Z -> Z)
  : outcome palloc_state :=
  let! free_start := ptov (1024 * 1024) in
  let! free_end := ptov (u32 (init_ram_pages * PGSIZE)) in
  let free_pages := u32 (free_end - free_start) / PGSIZE in
  let user_pages := free_pages / 2 in
  let user_pages := if user_page_limit <? user_pages then user_page_limit else user_pages in
  let kernel_pages := free_pages - user_pages in
  let! kp := init_pool free_start kernel_pages kst in
  let! up := init_pool (u32 (free_start + kernel_pages * PGSIZE)) user_pages ust in
  Ret (mkPalloc kp up m).

Definition palloc_get_multiple (flags page_cnt : Z) : ST palloc_state Z := fun s =>
  let user := negb (Z.land flags PAL_USER =? 0) in
  let p := if user then user_pool s else kernel_pool s in
  if page_cnt =? 0 then Ret (NULL, s) else
  let! (page_idx, map) := bitmap_scan_and_flip (used_map p) 0 page_cnt false in
  let p' := mkPool map (base p) in
  let s := if user then mkPalloc (kernel_pool s) p' (memory s) else mkPalloc p' (user_pool s) (memory s) in
  let pages := if negb (page_idx =? BITMAP_ERROR) then u32 (base p + PGSIZE * page_idx) else NULL in
  if negb (pages =? NULL) then
    Ret (pages, if negb (Z.land flags PAL_ZERO =? 0)
                then mkPalloc (kernel_pool s) (user_pool s) (fill (memory s) pages 0 (PGSIZE * page_cnt))
                else s)
  else if negb (Z.land flags PAL_ASSERT =? 0) then Err Panicked
  else Ret (pages, s).

Definition palloc_get_page (flags : Z) : ST palloc_state Z := palloc_get_multiple flags 1.

Definition page_from_pool (p : pool) (page : Z) : bool :=
  let page_no := pg_no page in
  let start_page := pg_no (base p) in
  let end_page := u32 (start_page + bitmap_size (used_map p)) in
  (start_page <=? page_no) && (page_no <? end_page).

Definition palloc_free_multiple (pages page_cnt : Z) : ST palloc_state unit := fun s =>
  let! _ := ASSERT (pg_ofs pages =? 0) in
  if (pages =? NULL) || (page_cnt =? 0) then Ret (tt, s) else
  let! user := (if page_from_pool (kernel_pool s) pages then Ret false
                else if page_from_pool (user_pool s) pages then Ret true
                else Err Panicked) in
  let p := if (user : bool) then user_pool s else kernel_pool s in
  let page_idx := pg_no pages - pg_no (base p) in
  let m := fill (memory s) pages 204 (PGSIZE * page_cnt) in
  let! all := bitmap_all (used_map p) page_idx page_cnt in
  let! _ := ASSERT all in
  let! map := bitmap_set_multiple (used_map p) page_idx page_cnt false in
  let p' := mkPool map (base p) in
  Ret (tt, if user then mkPalloc (kernel_pool s) p' m else mkPalloc p' (user_pool s) m).

Definition palloc_free_page (page : Z) : ST palloc_state unit := palloc_free_multiple page 1.

(** ** Which pages are allocated *)

Definition pool_end (p : pool) : Z := base p + PGSIZE * bit_cnt (used_map p).

Definition pool_ok (p : pool) : Prop :=
  bitmap_wf (used_map p) /\ 0 < base p /\ base p mod PGSIZE = 0 /\ pool_end p < two32.

Definition palloc_ok (s : palloc_state) : Prop :=
  pool_ok (kernel_pool s) /\ pool_ok (user_pool s) /\ pool_end (kernel_pool s) <= base (user_pool s).

(** The byte at [a] belongs to a page of the pool that is in use. *)
Definition pool_used (p : pool) (a : Z) : bool :=
  (base p <=? a) && (a <? pool_end p) && bit (used_map p) ((a - base p) / PGSIZE).

Definition allocated (s : palloc_state) (a : Z) : bool :=
  pool_used (kernel_pool s) a || pool_used (user_pool s) a.

Definition the_pool (s : palloc_state) (user : bool) : pool :=
  if user then user_pool s else kernel_pool s.

Definition set_pool (s : palloc_state) (user : bool) (p : pool) (m : Z -> Z) : palloc_state :=
  if user then mkPalloc (kernel_pool s) p m else mkPalloc p (user_pool s) m.

(** A byte of the [cnt] pages at [a]. *)
Definition in_pages (a cnt x : Z) : bool := (a <=? x) && (x <? a + PGSIZE * cnt).

(** [cnt] contiguous free pages of the pool, from page [i]. *)
Definition free_run (p : pool) (i cnt : Z) : Prop :=
  0 <= i /\ i + cnt <= bit_cnt (used_map p) /\ group (used_map p) i cnt false.

Definition has_flag (flags f : Z) : bool := negb (Z.land flags f =? 0).

(** ** Lemmas *)

Lemma PGSIZE_eq : PGSIZE = 4096.
Proof. done. Qed.

Lemma pg_no_div a : pg_no a = a / PGSIZE.
Proof. unfold pg_no. by rewrite Z.shiftr_div_pow2. Qed.

Lemma pg_ofs_mod a : pg_ofs a = a mod PGSIZE.
Proof.
  unfold pg_ofs. change PGMASK with (Z.ones 12). by rewrite Z.land_ones.
Qed.

(** The page number inside of a pool, from addresses. *)
Lemma page_index b x : b mod PGSIZE = 0 -> x / PGSIZE - b / PGSIZE = (x - b) / PGSIZE.
Proof.
  rewrite PGSIZE_eq. intros Hb. pose proof (Z.div_mod b 4096 ltac:(lia)). rewrite Hb in *.
  replace (x - b) with (x + (- (b / 4096)) * 4096) by lia. rewrite Z.div_add by lia. lia.
Qed.

Lemma page_range b i cnt x :
  (b + PGSIZE * i <=? x) && (x <? b + PGSIZE * i + PGSIZE * cnt) =
  ((i <=? (x - b) / PGSIZE) && ((x - b) / PGSIZE <? i + cnt)).
Proof.
  rewrite PGSIZE_eq. pose proof (Z.div_mod (x - b) 4096 ltac:(lia)).
  pose proof (Z.mod_pos_bound (x - b) 4096 ltac:(lia)). bool_cases; simpl; try done; lia.
Qed.

Lemma pool_used_filled p map i cnt v x :
  pool_ok p -> 0 <= i -> 0 <= cnt -> i + cnt <= bit_cnt (used_map p) -> filled (used_map p) map i cnt v ->
  pool_used (mkPool map (base p)) x =
    if in_pages (base p + PGSIZE * i) cnt x then v else pool_used p x.
Proof.
  intros (Hwf & Hb & Hm & He) Hi Hc Hic (Hw & Hcnt & _ & Hj). unfold pool_used, in_pages, pool_end in *.
  cbn [used_map base]. rewrite Hcnt, page_range.
  destruct ((base p <=? x) && (x <? base p + PGSIZE * bit_cnt (used_map p))) eqn:E.
  - apply andb_prop in E as [E1 E2]. apply Z.leb_le in E1. simpl. rewrite Hj.
    + by destruct ((i <=? (x - base p) / PGSIZE) && ((x - base p) / PGSIZE <? i + cnt)).
    + apply Z.div_pos; [lia|]. rewrite PGSIZE_eq. lia.
  - simpl. pose proof (page_range (base p) 0 (bit_cnt (used_map p)) x) as Hpr. rewrite Z.mul_0_r, Z.add_0_r in Hpr.
    rewrite E in Hpr. bool_cases; simpl in *; try done; lia.
Qed.

Lemma pool_ok_filled p map i cnt v :
  pool_ok p -> filled (used_map p) map i cnt v -> pool_ok (mkPool map (base p)).
Proof.
  intros (Hwf & Hb & Hm & He) (Hw & Hcnt & _). unfold pool_ok, pool_end in *. cbn [used_map base].
  by rewrite Hcnt.
Qed.

Lemma palloc_ok_set s user map i cnt v m :
  palloc_ok s -> filled (used_map (the_pool s user)) map i cnt v ->
  palloc_ok (set_pool s user (mkPool map (base (the_pool s user))) m).
Proof.
  intros (H1 & H2 & H3) Hf. pose proof (proj1 (proj2 Hf)) as Hc.
  destruct user; simpl in *; (split_and!; simpl; [try done|try done|]);
    try (by eapply pool_ok_filled); unfold pool_end in *; simpl; by rewrite ?Hc.
Qed.

Lemma pool_used_range p x : pool_used p x = true -> base p <= x < pool_end p.
Proof. unfold pool_used. intros [[H1 H2]%andb_prop _]%andb_prop. bool_cases; (lia || done). Qed.

(** The pages of a group that is changed in one pool are not of the other. *)
Lemma allocated_set s user map i cnt v m x :
  palloc_ok s -> 0 <= i -> 0 <= cnt -> i + cnt <= bit_cnt (used_map (the_pool s user)) ->
  filled (used_map (the_pool s user)) map i cnt v ->
  let p := the_pool s user in
  allocated (set_pool s user (mkPool map (base p)) m) x =
    if in_pages (base p + PGSIZE * i) cnt x then v else allocated s x.
Proof.
  intros (H1 & H2 & H3) Hi Hc Hic Hf p. unfold allocated.
  assert (Hp : pool_ok p) by (by destruct user).
  pose proof (pool_used_filled p map i cnt v x Hp Hi Hc Hic Hf) as Hu.
  assert (Hin : in_pages (base p + PGSIZE * i) cnt x = true -> base p <= x < pool_end p).
  { fold p in Hic. unfold in_pages, pool_end. rewrite PGSIZE_eq. intros [? ?]%andb_prop. bool_cases; (lia || done). }
  destruct user; simpl in *; rewrite Hu; destruct (in_pages _ cnt x); try done.
  - destruct (pool_used (kernel_pool s) x) eqn:E; [|done]. apply pool_used_range in E. specialize (Hin eq_refl).
    unfold p in Hin. lia.
  - destruct (pool_used (user_pool s) x) eqn:E; [|by rewrite orb_false_r]. apply pool_used_range in E.
    specialize (Hin eq_refl). unfold p in Hin. lia.
Qed.

Lemma page_addr_small p i :
  pool_ok p -> 0 <= i < bit_cnt (used_map p) ->
  u32 (base p + PGSIZE * i) = base p + PGSIZE * i /\ base p + PGSIZE * i <> NULL.
Proof.
  intros (_ & Hb & _ & He) Hi. unfold pool_end in He. rewrite PGSIZE_eq in *. split; [|unfold NULL; lia].
  apply u32_small. unfold is_u32. lia.
Qed.

Lemma palloc_get_cases s flags cnt :
  palloc_ok s -> 0 < cnt ->
  let user := has_flag flags PAL_USER in
  let p := the_pool s user in
  ((forall i, ~ free_run p i cnt) /\
   palloc_get_multiple flags cnt s = (if has_flag flags PAL_ASSERT then Err Panicked else Ret (NULL, s))) \/
  (exists i map, free_run p i cnt /\ filled (used_map p) map i cnt true /\
   let a := base p + PGSIZE * i in
   palloc_get_multiple flags cnt s = Ret (a, set_pool s user (mkPool map (base p))
     (if has_flag flags PAL_ZERO then fill (memory s) a 0 (PGSIZE * cnt) else memory s))).
Proof.
  intros Hok Hc user p. assert (Hp : pool_ok p) by (destruct Hok as (? & ? & _); by destruct user).
  pose proof Hp as (Hwf & _). unfold palloc_get_multiple. fold (has_flag flags PAL_USER). fold user.
  change (if user then user_pool s else kernel_pool s) with p.
  destruct (Z.eqb_spec cnt 0); [lia|]. pose proof Hwf as (Hcnt & _).
  destruct (bitmap_scan_and_flip_cases (used_map p) 0 cnt false Hwf ltac:(lia) ltac:(lia))
    as [[-> Hno]|(i & map & -> & Hne & (Hi1 & Hi2 & Hi3 & _) & Hfl)]; cbn [obind].
  - left. split; [intros i (Hi & Hic & Hg); by apply (Hno i)|]. rewrite Z.eqb_refl. cbn [negb].
    fold (has_flag flags PAL_ASSERT). change (NULL =? NULL) with true. cbn [negb].
    destruct (has_flag flags PAL_ASSERT); [done|]. do 2 f_equal. unfold p.
    destruct user, s as [kp up m]; simpl; [by destruct up|by destruct kp].
  - right. exists i, map. split; [done|]. split; [done|].
    destruct (page_addr_small p i Hp ltac:(lia)) as [Hu Hnn].
    destruct (Z.eqb_spec i BITMAP_ERROR); [done|]. cbn [negb]. rewrite Hu.
    destruct (Z.eqb_spec (base p + PGSIZE * i) NULL); [done|]. cbn [negb].
    fold (has_flag flags PAL_ZERO). do 2 f_equal. unfold set_pool. destruct (has_flag flags PAL_ZERO), user; done.
Qed.

Lemma page_from_pool_range p a :
  pool_ok p -> 0 <= a -> page_from_pool p a = (base p <=? a) && (a <? pool_end p).
Proof.
  intros (Hwf & Hb & Hm & He) Ha. unfold page_from_pool, pool_end, bitmap_size in *. rewrite !pg_no_div.
  pose proof (proj1 Hwf) as Hc. rewrite PGSIZE_eq in *.
  pose proof (Z.div_mod a 4096 ltac:(lia)). pose proof (Z.mod_pos_bound a 4096 ltac:(lia)).
  pose proof (Z.div_mod (base p) 4096 ltac:(lia)).
  rewrite u32_small by (unfold is_u32; lia). bool_cases; simpl; (done || lia).
Qed.

(** Freeing pages of a pool, whatever their state. *)
Lemma palloc_free_cases s user i cnt :
  palloc_ok s -> 0 <= i -> 0 < cnt -> i + cnt <= bit_cnt (used_map (the_pool s user)) ->
  let p := the_pool s user in
  let a := base p + PGSIZE * i in
  (group (used_map p) i cnt true /\
   exists map, filled (used_map p) map i cnt false /\
     palloc_free_multiple a cnt s = Ret (tt, set_pool s user (mkPool map (base p))
       (fill (memory s) a 204 (PGSIZE * cnt)))) \/
  (~ group (used_map p) i cnt true /\ palloc_free_multiple a cnt s = Err AssertFailed).
Proof.
  intros Hok Hi Hc Hic p a. fold p in Hic. pose proof Hok as (Hk & Hu & Hku).
  assert (Hp : pool_ok p) by (by destruct user). pose proof Hp as (Hwf & Hb & Hm & He).
  assert (Ha : base p <= a < pool_end p) by (unfold a, pool_end; rewrite PGSIZE_eq; lia).
  destruct (page_addr_small p i Hp ltac:(lia)) as [_ Hnn]. fold a in Hnn.
  unfold palloc_free_multiple. rewrite pg_ofs_mod.
  assert (Hal : a mod PGSIZE = 0).
  { unfold a. rewrite Z.mul_comm, Z.add_comm, Z.add_mod, Z.mod_mul, Hm by (rewrite PGSIZE_eq; lia). done. }
  rewrite Hal. cbn [Z.eqb ASSERT obind]. destruct (Z.eqb_spec a NULL); [done|].
  destruct (Z.eqb_spec cnt 0); [lia|]. cbn [orb].
  assert (Hsel : (if page_from_pool (kernel_pool s) a then Ret false
                  else if page_from_pool (user_pool s) a then Ret true else Err Panicked) = Ret user).
  { rewrite (page_from_pool_range (kernel_pool s)), (page_from_pool_range (user_pool s)) by (done || lia).
    unfold p in Ha. destruct user; simpl in *; bool_cases; simpl; (done || lia). }
  rewrite Hsel. cbn [obind]. change (if user then user_pool s else kernel_pool s) with p.
  assert (Hidx : pg_no a - pg_no (base p) = i).
  { rewrite !pg_no_div, (page_index _ _ Hm). unfold a.
    replace (base p + PGSIZE * i - base p) with (i * PGSIZE) by lia. apply Z.div_mul. rewrite PGSIZE_eq. lia. }
  rewrite Hidx. destruct (bitmap_all_spec (used_map p) i cnt Hwf Hi ltac:(lia) Hic) as (r & Hr & Hg).
  rewrite Hr. cbn [obind]. destruct r.
  - left. split; [by apply Hg|].
    destruct (bitmap_set_multiple_spec (used_map p) i cnt false Hwf Hi ltac:(lia) Hic) as (map & Hmap & Hfl).
    exists map. split; [done|]. cbn [ASSERT obind]. rewrite Hmap. cbn [obind]. by destruct user.
  - right. split; [|done]. intros Hx. by apply Hg in Hx.
Qed.

Lemma group_used p i cnt x v :
  pool_ok p -> 0 <= i -> i + cnt <= bit_cnt (used_map p) -> group (used_map p) i cnt v ->
  in_pages (base p + PGSIZE * i) cnt x = true -> pool_used p x = v.
Proof.
  intros Hp Hi Hic Hg Hin. unfold in_pages in Hin. pose proof Hin as Hr. rewrite page_range in Hr.
  apply andb_prop in Hr as [H1 H2]. apply Z.leb_le in H1. apply Z.ltb_lt in H2.
  unfold pool_used, pool_end. rewrite (Hg _ (conj H1 H2)).
  apply andb_prop in Hin as [H3 H4]. apply Z.leb_le in H3. apply Z.ltb_lt in H4. rewrite PGSIZE_eq in *.
  destruct (Z.leb_spec (base p) x); [|lia]. destruct (Z.ltb_spec x (base p + 4096 * bit_cnt (used_map p))); [done|lia].
Qed.

Lemma palloc_get_spec s flags cnt :
  palloc_ok s -> 0 < cnt ->
  let p := the_pool s (has_flag flags PAL_USER) in
  ((forall i, ~ free_run p i cnt) /\
   palloc_get_multiple flags cnt s = (if has_flag flags PAL_ASSERT then Err Panicked else Ret (NULL, s))) \/
  (exists a s', palloc_get_multiple flags cnt s = Ret (a, s') /\ palloc_ok s' /\
     a <> NULL /\ a mod PGSIZE = 0 /\ base p <= a /\ a + PGSIZE * cnt <= pool_end p /\
     (forall x, in_pages a cnt x = true -> allocated s x = false) /\
     (forall x, allocated s' x = in_pages a cnt x || allocated s x) /\
     (forall x, memory s' x = if has_flag flags PAL_ZERO && in_pages a cnt x then 0 else memory s x)).
Proof.
  intros Hok Hc p. pose proof Hok as (Hk & Hu & Hku).
  destruct (palloc_get_cases s flags cnt Hok Hc) as [?|(i & map & (Hi & Hic & Hg) & Hfl & Hr)]; [by left|right].
  fold p in Hi, Hic, Hg, Hfl, Hr. assert (Hp : pool_ok p) by (unfold p; by destruct (has_flag flags PAL_USER)).
  pose proof Hp as (Hwf & Hb & Hm & He). cbv zeta in Hr. exists (base p + PGSIZE * i). eexists. split; [exact Hr|].
  destruct (page_addr_small p i Hp ltac:(lia)) as [_ Hnn].
  assert (Hal : forall x, allocated (set_pool s (has_flag flags PAL_USER) (mkPool map (base p))
      (if has_flag flags PAL_ZERO then fill (memory s) (base p + PGSIZE * i) 0 (PGSIZE * cnt) else memory s)) x =
      if in_pages (base p + PGSIZE * i) cnt x then true else allocated s x).
  { intros x. apply allocated_set; try done. lia. }
  split_and!.
  - by apply (palloc_ok_set s _ map i cnt true).
  - done.
  - rewrite Z.mul_comm, Z.add_comm, Z.add_mod, Z.mod_mul, Hm by (rewrite PGSIZE_eq; lia). done.
  - rewrite PGSIZE_eq. lia.
  - unfold pool_end. rewrite PGSIZE_eq. lia.
  - intros x Hx. unfold allocated.
    pose proof (group_used p i cnt x false Hp Hi Hic Hg Hx) as Hpu.
    assert (Hrg : base p <= x < pool_end p).
    { unfold in_pages in Hx. unfold pool_end. rewrite PGSIZE_eq in *. apply andb_prop in Hx as [??]. bool_cases; (lia || done). }
    unfold p in *. destruct (has_flag flags PAL_USER); simpl in *; rewrite Hpu; simpl.
    + destruct (pool_used (kernel_pool s) x) eqn:E; [|done]. apply pool_used_range in E. lia.
    + destruct (pool_used (user_pool s) x) eqn:E; [|done]. apply pool_used_range in E. lia.
  - intros x. rewrite Hal. by destruct (in_pages _ cnt x).
  - intros x. unfold in_pages, fill. destruct (has_flag flags PAL_ZERO), (has_flag flags PAL_USER); done.
Qed.

(** ** Theorems *)

(** C20: allocation.  With [cnt > 0] pages requested from a well-formed
    allocator, either no run of [cnt] contiguous free pages exists in the
    pool that the flags select, and the result is a null pointer with nothing
    changed (or a panic under [PAL_ASSERT]); or the result is the
    page-aligned, non-null address of [cnt] pages of that pool, none of them
    allocated before, which are allocated now while every other byte of
    memory keeps its state; under [PAL_ZERO] these pages, and nothing else,
    are zeroed. *)
Theorem palloc_get_multiple_correct s flags cnt :
  palloc_ok s -> 0 < cnt ->
  let p := the_pool s (has_flag flags PAL_USER) in
  ((forall i, ~ free_run p i cnt) /\
   palloc_get_multiple flags cnt s = (if has_flag flags PAL_ASSERT then Err Panicked else Ret (NULL, s))) \/
  (exists a s', palloc_get_multiple flags cnt s = Ret (a, s') /\ palloc_ok s' /\
     a <> NULL /\ a mod PGSIZE = 0 /\ base p <= a /\ a + PGSIZE * cnt <= pool_end p /\
     (forall x, in_pages a cnt x = true -> allocated s x = false) /\
     (forall x, allocated s' x = in_pages a cnt x || allocated s x) /\
     (forall x, memory s' x = if has_flag flags PAL_ZERO && in_pages a cnt x then 0 else memory s x)).
Proof. apply palloc_get_spec. Qed.

(** C21: freeing.  Freeing [cnt > 0] pages of a pool, all allocated, frees
    them and nothing else and fills them with 0xcc; if one of them is not
    allocated (a double free), if the address is not page-aligned, or if it
    lies in neither pool, the kernel stops. *)
Theorem palloc_free_multiple_correct s user i cnt :
  palloc_ok s -> 0 <= i -> 0 < cnt -> i + cnt <= bit_cnt (used_map (the_pool s user)) ->
  let a := base (the_pool s user) + PGSIZE * i in
  ((forall j, i <= j < i + cnt -> allocated s (base (the_pool s user) + PGSIZE * j) = true) ->
   exists s', palloc_free_multiple a cnt s = Ret (tt, s') /\ palloc_ok s' /\
     (forall x, allocated s' x = negb (in_pages a cnt x) && allocated s x) /\
     (forall x, memory s' x = if in_pages a cnt x then 204 else memory s x)) /\
  ((exists j, i <= j < i + cnt /\ allocated s (base (the_pool s user) + PGSIZE * j) = false) ->
   palloc_free_multiple a cnt s = Err AssertFailed) /\
  (forall b, b mod PGSIZE <> 0 -> palloc_free_multiple b cnt s = Err AssertFailed) /\
  (forall b, 0 < b < two32 -> b mod PGSIZE = 0 -> ~ (base (kernel_pool s) <= b < pool_end (kernel_pool s)) ->
     ~ (base (user_pool s) <= b < pool_end (user_pool s)) -> palloc_free_multiple b cnt s = Err Panicked).
Proof.
  intros Hok Hi Hc Hic a. pose proof Hok as (Hk & Hu & Hku).
  assert (Hp : pool_ok (the_pool s user)) by (by destruct user).
  assert (Hbit : forall j, i <= j < i + cnt ->
    allocated s (base (the_pool s user) + PGSIZE * j) = bit (used_map (the_pool s user)) j).
  { intros j Hj. unfold allocated.
    assert (Hpu : pool_used (the_pool s user) (base (the_pool s user) + PGSIZE * j) = bit (used_map (the_pool s user)) j).
    { apply (group_used _ j 1); [done|lia|lia| |].
      - intros j' Hj'. by replace j' with j by lia.
      - unfold in_pages. rewrite PGSIZE_eq. bool_cases; simpl; (done || lia). }
    assert (Hr : base (the_pool s user) <= base (the_pool s user) + PGSIZE * j < pool_end (the_pool s user))
      by (unfold pool_end; rewrite PGSIZE_eq; lia).
    destruct user; simpl in *; rewrite Hpu.
    - destruct (pool_used (kernel_pool s) _) eqn:E; [|done]. apply pool_used_range in E. lia.
    - destruct (pool_used (user_pool s) _) eqn:E; [|by rewrite orb_false_r]. apply pool_used_range in E. lia. }
  destruct (palloc_free_cases s user i cnt Hok Hi Hc Hic) as [(Hg & map & Hfl & Hr)|(Hg & Hr)]; fold a in Hr;
    (split; [intros Hall|split; [intros (j & Hj & Hf)|split]]).
  - eexists. split; [exact Hr|]. split; [by apply (palloc_ok_set s user map i cnt false)|]. split.
    + intros x. rewrite (allocated_set s user map i cnt false) by (done || lia). fold a. by destruct (in_pages a cnt x).
    + intros x. unfold in_pages, fill. by destruct user.
  - rewrite (Hbit j Hj), (Hg j Hj) in Hf. done.
  - intros b Hb. unfold palloc_free_multiple. rewrite pg_ofs_mod. by destruct (Z.eqb_spec (b mod PGSIZE) 0).
  - intros b Hb Hbm H1 H2. unfold palloc_free_multiple. rewrite pg_ofs_mod, Hbm. cbn [Z.eqb ASSERT obind].
    rewrite !page_from_pool_range by (done || lia). unfold NULL. bool_cases; simpl; (done || lia).
  - destruct Hg. intros j Hj. rewrite <- Hbit by done. by apply Hall.
  - done.
  - intros b Hb. unfold palloc_free_multiple. rewrite pg_ofs_mod. by destruct (Z.eqb_spec (b mod PGSIZE) 0).
  - intros b Hb Hbm H1 H2. unfold palloc_free_multiple. rewrite pg_ofs_mod, Hbm. cbn [Z.eqb ASSERT obind].
    rewrite !page_from_pool_range by (done || lia). unfold NULL. bool_cases; simpl; (done || lia).
Qed.

(** *** Initialization *)

(** The pages that the bitmap of a pool of [n] pages takes. *)
Definition map_pages (n : Z) : Z := DIV_ROUND_UP (bitmap_buf_size n) PGSIZE.

Lemma map_pages_bound n : 0 <= n < 262144 -> 1 <= map_pages n <= 9 /\ (1 <= n -> map_pages n <= n) /\
  bitmap_buf_size n <= PGSIZE * map_pages n.
Proof.
  intros Hn. pose proof (elem_cnt_enough n ltac:(unfold two32; lia)) as He.
  assert (Hb : bitmap_buf_size n = 8 + 4 * elem_cnt n).
  { unfold bitmap_buf_size, byte_cnt. rewrite (u32_small (4 * _)) by (unfold is_u32, two32; lia).
    apply u32_small. unfold is_u32, two32. lia. }
  unfold map_pages, DIV_ROUND_UP. rewrite Hb, PGSIZE_eq. rewrite u32_small by (unfold is_u32, two32; lia).
  pose proof (Z.div_mod (8 + 4 * elem_cnt n + 4096 - 1) 4096 ltac:(lia)).
  pose proof (Z.mod_pos_bound (8 + 4 * elem_cnt n + 4096 - 1) 4096 ltac:(lia)). lia.
Qed.

(** The memory at the start of a pool of [n] pages is large enough to hold
    the elements of its bitmap, and holds any words. *)
Definition storage_for (n : Z) (ws : list Z) : Prop :=
  Z.of_nat (length ws) = elem_cnt (n - map_pages n) /\ Forall (fun w => 0 <= w < 2 ^ 32) ws.

Lemma init_pool_spec start n ws :
  0 < start -> start mod PGSIZE = 0 -> 1 <= n < 262144 -> start + PGSIZE * n < two32 -> storage_for n ws ->
  exists p, init_pool start n ws = Ret p /\ pool_ok p /\ base p = start + PGSIZE * map_pages n /\
    pool_end p = start + PGSIZE * n /\ forall x, pool_used p x = false.
Proof.
  intros Hs Hm Hn He [Hl HF]. destruct (map_pages_bound n ltac:(lia)) as ([Hb1 Hb2] & Hb3 & _).
  specialize (Hb3 ltac:(lia)). unfold init_pool. fold (map_pages n).
  destruct (Z.ltb_spec n (map_pages n)); [lia|].
  assert (Hbs : bitmap_buf_size (n - map_pages n) <= u32 (map_pages n * PGSIZE)).
  { destruct (map_pages_bound n ltac:(lia)) as (_ & _ & Hb). rewrite PGSIZE_eq in *.
    rewrite (u32_small (map_pages n * 4096)) by (unfold is_u32, two32; lia).
    etransitivity; [|rewrite Z.mul_comm; exact Hb]. unfold bitmap_buf_size, byte_cnt.
    pose proof (elem_cnt_enough n ltac:(unfold two32; lia)).
    pose proof (elem_cnt_enough (n - map_pages n) ltac:(unfold two32; lia)).
    rewrite !u32_small by (unfold is_u32, two32; lia || rewrite !u32_small; unfold is_u32, two32; lia). lia. }
  destruct (bitmap_create_in_buf_spec (n - map_pages n) ws _ ltac:(unfold two32; lia) Hbs Hl HF)
    as (b & Hb & Hwf & Hcnt & Hg). rewrite Hb. cbn [obind]. eexists. split; [done|].
  rewrite PGSIZE_eq in *. rewrite u32_small by (unfold is_u32; lia).
  unfold pool_ok, pool_end, pool_used. cbn [used_map base]. rewrite Hcnt, PGSIZE_eq. split_and!; try done; try lia.
  - rewrite Z.add_mod, Z.mod_mul, Hm by lia. done.
  - intros x. unfold pool_end. cbn [used_map base]. rewrite Hcnt, PGSIZE_eq.
    destruct (Z.leb_spec (start + map_pages n * 4096) x); [|done]. simpl.
    destruct (Z.ltb_spec x (start + map_pages n * 4096 + 4096 * (n - map_pages n))); [|done]. simpl.
    apply Hg. split; [apply Z.div_pos; lia|]. apply Z.div_lt_upper_bound; lia.
Qed.

Definition user_pages (ram limit : Z) : Z := Z.min limit ((ram - 256) / 2).

Lemma palloc_init_split ram limit kst ust m :
  258 <= ram < 262144 -> 0 <= limit ->
  let n := user_pages ram limit in
  let k := ram - 256 - n in
  palloc_init ram limit kst ust m =
    (let! kp := init_pool (PHYS_BASE + 1048576) k kst in
     let! up := init_pool (PHYS_BASE + 1048576 + PGSIZE * k) n ust in
     Ret (mkPalloc kp up m)).
Proof.
  intros Hr Hl n k. unfold palloc_init, ptov. change (1024 * 1024 <? PHYS_BASE) with true. cbn [ASSERT obind].
  unfold PHYS_BASE in *. rewrite PGSIZE_eq. rewrite (u32_small (ram * 4096)) by (unfold is_u32, two32; lia).
  destruct (Z.ltb_spec (ram * 4096) 3221225472); [|lia]. cbn [ASSERT obind].
  rewrite (u32_small (1024 * 1024 + _)) by (unfold is_u32, two32; lia).
  rewrite (u32_small (ram * 4096 + _)) by (unfold is_u32, two32; lia).
  replace (ram * 4096 + 3221225472 - (1024 * 1024 + 3221225472)) with ((ram - 256) * 4096) by lia.
  rewrite (u32_small ((ram - 256) * 4096)) by (unfold is_u32, two32; lia). rewrite Z.div_mul by lia.
  assert (Hn : (if limit <? (ram - 256) / 2 then limit else (ram - 256) / 2) = n)
    by (unfold n, user_pages; bool_cases; lia). rewrite Hn.
  assert (0 <= n <= (ram - 256) / 2) by (unfold n, user_pages; pose proof (Z.div_pos (ram - 256) 2); lia).
  pose proof (Z.div_mod (ram - 256) 2 ltac:(lia)). pose proof (Z.mod_pos_bound (ram - 256) 2 ltac:(lia)).
  fold k. rewrite (u32_small (1024 * 1024 + 3221225472 + k * 4096)) by (unfold is_u32, two32, k; lia).
  replace (1024 * 1024 + 3221225472) with (3221225472 + 1048576) by lia.
  by replace (k * 4096) with (4096 * k) by lia.
Qed.

Lemma palloc_init_spec ram limit kst ust m :
  258 <= ram < 262144 ->
  let n := user_pages ram limit in
  let k := ram - 256 - n in
  storage_for k kst ->
  (0 < limit -> storage_for n ust ->
   exists s, palloc_init ram limit kst ust m = Ret s /\ palloc_ok s /\ memory s = m /\
     (forall x, allocated s x = false) /\
     base (kernel_pool s) = PHYS_BASE + 1048576 + PGSIZE * map_pages k /\
     pool_end (kernel_pool s) = PHYS_BASE + 1048576 + PGSIZE * k /\
     base (user_pool s) = pool_end (kernel_pool s) + PGSIZE * map_pages n /\
     pool_end (user_pool s) = PHYS_BASE + PGSIZE * ram) /\
  (limit = 0 -> palloc_init ram limit kst ust m = Err Panicked).
Proof.
  intros Hr n k Hk.
  assert (Hd : 1 <= (ram - 256) / 2 /\ 2 * ((ram - 256) / 2) <= ram - 256).
  { pose proof (Z.div_mod (ram - 256) 2 ltac:(lia)). pose proof (Z.mod_pos_bound (ram - 256) 2 ltac:(lia)). lia. }
  assert (Hkp : 0 <= limit -> exists p, init_pool (PHYS_BASE + 1048576) k kst = Ret p /\ pool_ok p /\
    base p = PHYS_BASE + 1048576 + PGSIZE * map_pages k /\ pool_end p = PHYS_BASE + 1048576 + PGSIZE * k /\
    forall x, pool_used p x = false).
  { intros Hl. apply init_pool_spec; try done; unfold k, n, user_pages, PHYS_BASE, two32; rewrite ?PGSIZE_eq; lia. }
  split.
  - intros Hl Hu. rewrite palloc_init_split by lia. fold n k. destruct (Hkp ltac:(lia)) as (kp & -> & Hk1 & Hk2 & Hk3 & Hk4).
    cbn [obind]. destruct (init_pool_spec (PHYS_BASE + 1048576 + PGSIZE * k) n ust) as (up & -> & Hu1 & Hu2 & Hu3 & Hu4);
      [unfold PHYS_BASE; rewrite PGSIZE_eq; unfold k, n, user_pages; lia| |unfold n, user_pages; lia| |done|].
    + rewrite Z.mul_comm, Z.add_mod, Z.mod_mul by (rewrite PGSIZE_eq; lia). done.
    + unfold PHYS_BASE, two32. rewrite PGSIZE_eq. unfold k. lia.
    + cbn [obind]. eexists. split; [done|]. destruct (map_pages_bound n ltac:(unfold n, user_pages; lia)) as (Hb & _).
      split; [|split; [done|split; [|split; [done|split; [done|split]]]]]; cbn [kernel_pool user_pool memory].
      * split_and!; [done|done|]. cbn [kernel_pool user_pool]. rewrite Hk3, Hu2, PGSIZE_eq. lia.
      * intros x. unfold allocated. cbn [kernel_pool user_pool]. by rewrite Hk4, Hu4.
      * rewrite Hk3. exact Hu2.
      * rewrite Hu3, PGSIZE_eq. unfold k. lia.
  - intros ->. rewrite palloc_init_split by lia. fold n k. destruct (Hkp ltac:(lia)) as (kp & -> & _). cbn [obind].
    assert (n = 0) as -> by (unfold n, user_pages; lia). done.
Qed.

(** Initialization.  With between 258 and [2^18 - 1] pages of RAM and a
    positive limit for the user pool, [palloc_init] yields a well-formed
    allocator with no page allocated, both pools and their bitmaps lying
    between 1 MB and the end of RAM, without overlap.  With a limit of zero
    it panics: the bitmap of the empty user pool still needs a page. *)
Theorem palloc_init_correct ram limit kst ust m :
  258 <= ram < 262144 ->
  let n := user_pages ram limit in
  let k := ram - 256 - n in
  storage_for k kst ->
  (0 < limit -> storage_for n ust ->
   exists s, palloc_init ram limit kst ust m = Ret s /\ palloc_ok s /\ memory s = m /\
     (forall x, allocated s x = false) /\
     base (kernel_pool s) = PHYS_BASE + 1048576 + PGSIZE * map_pages k /\
     pool_end (kernel_pool s) = PHYS_BASE + 1048576 + PGSIZE * k /\
     base (user_pool s) = pool_end (kernel_pool s) + PGSIZE * map_pages n /\
     pool_end (user_pool s) = PHYS_BASE + PGSIZE * ram) /\
  (limit = 0 -> palloc_init ram limit kst ust m = Err Panicked).
Proof. apply palloc_init_spec. Qed.

(** *** A concrete allocator: 1024 pages of RAM, a user pool of 3 pages *)

Definition demo_kst : list Z := replicate 24 4294967295.
Definition demo_ust : list Z := [4294967295].

Lemma demo_storage : storage_for (1024 - 256 - user_pages 1024 3) demo_kst /\ storage_for (user_pages 1024 3) demo_ust.
Proof. split; (split; [vm_compute; reflexivity|]); apply Forall_forall; intros w Hw; vm_compute in Hw; set_solver by lia. Qed.

Lemma palloc_init_correct_witness :
  exists s, palloc_init 1024 3 demo_kst demo_ust (fun _ => 7) = Ret s /\ palloc_ok s /\
    pool_end (user_pool s) = PHYS_BASE + PGSIZE * 1024.
Proof.
  destruct (palloc_init_correct 1024 3 demo_kst demo_ust (fun _ => 7)) as [H _]; [lia|apply demo_storage|].
  destruct H as (s & H1 & H2 & _ & _ & _ & _ & _ & H3); [lia|apply demo_storage|]. exists s. auto.
Defined.

(** Pools of four and three free pages. *)
Definition demo_pools : palloc_state :=
  mkPalloc (mkPool (mkBitmap 4 [0]) 3222282240) (mkPool (mkBitmap 3 [0]) 3222302720) (fun _ => 7).

Lemma demo_pools_ok : palloc_ok demo_pools.
Proof.
  unfold palloc_ok, pool_ok, bitmap_wf, pool_end, two32. rewrite PGSIZE_eq. simpl.
  split_and!; try done; try lia; repeat constructor; lia.
Qed.

Definition address (r : outcome (Z * palloc_state)) : option Z :=
  match r with Ret (a, _) => Some a | Err _ => None end.

Lemma palloc_get_multiple_correct_witness :
  exists a s', palloc_get_multiple (PAL_USER + PAL_ZERO) 2 demo_pools = Ret (a, s') /\
    a = base (user_pool demo_pools) /\ memory s' a = 0.
Proof.
  destruct (palloc_get_multiple_correct demo_pools (PAL_USER + PAL_ZERO) 2 demo_pools_ok ltac:(lia))
    as [[_ H]|(a & s' & H & _ & _ & _ & _ & _ & _ & _ & Hm)].
  - apply (f_equal address) in H. vm_compute in H. discriminate H.
  - exists a, s'. split; [exact H|]. assert (Ha : a = base (user_pool demo_pools)).
    { apply (f_equal address) in H. vm_compute in H. injection H as <-. reflexivity. }
    split; [exact Ha|]. rewrite Hm, Ha. reflexivity.
Defined.

Lemma palloc_free_multiple_correct_witness :
  palloc_free_multiple (base (user_pool demo_pools) + PGSIZE * 0) 2 demo_pools = Err AssertFailed.
Proof.
  destruct (palloc_free_multiple_correct demo_pools true 0 2 demo_pools_ok ltac:(lia) ltac:(lia)) as (_ & H & _).
  - vm_compute. discriminate.
  - apply H. exists 0. split; [lia|]. vm_compute. reflexivity.
Defined.
