(* ===== verification/Malloc.v ===== *)
(** * The kernel heap ([threads/malloc.c])

    Blocks of up to 1 kB come from arenas, pages of the page allocator
    ([Palloc]) that are divided into blocks of one size; larger blocks are
    runs of pages.  The state holds the page allocator with the bytes of
    memory, the descriptors with their lists of free blocks (as the sequences
    that [Dlist] shows the C lists to represent) and the headers of the
    arenas, by the address of their page; a header is not part of the bytes
    of memory, and what is in a block that is free is left open.  The locks
    make each operation atomic ([SynchLock]); the functions are the
    sequential behaviour under the locks. *)
From stdpp Require Import prelude list gmap.
From Stdlib Require Import ZArith Lia.
From S2P Require Import Prelude Bitmap Palloc.
#[local] Open Scope Z_scope.

(** ** Data *)

Record desc : Type := mkDesc { desc_block_size : Z; blocks_per_arena : Z; free_list : list Z }.

Definition ARENA_MAGIC : Z := 2589232877.

(** A descriptor is named by its index in [descs]; [None] is a null pointer. *)
Record arena : Type := mkArena { magic : Z; arena_desc : option nat; free_cnt : Z }.

(** [sizeof (struct arena)] *)
Definition ARENA_SIZE : Z := 12.

(** [desc_cnt] is the length of [descs]. *)
Record heap : Type := mkHeap { pages : palloc_state; descs : list desc; arenas : gmap Z arena }.

Definition with_pages (h : heap) (s : palloc_state) : heap := mkHeap s (descs h) (arenas h).
Definition with_arenas (h : heap) (f : gmap Z arena -> gmap Z arena) : heap := mkHeap (pages h) (descs h) (f (arenas h)).
Definition with_free_list (h : heap) (i : nat) (f : list Z -> list Z) : heap :=
  mkHeap (pages h) (alter (fun d => mkDesc (desc_block_size d) (blocks_per_arena d) (f (free_list d))) i (descs h)) (arenas h).
Definition with_memory (h : heap) (m : Z -> Z) : heap :=
  with_pages h (mkPalloc (kernel_pool (pages h)) (user_pool (pages h)) m).

(** ** Operations *)

Definition malloc_init (s : palloc_state) : outcome heap :=
  let! ds := loop (fun '(block_size, ds) =>
    if block_size <? PGSIZE / 2 then
      let d := mkDesc block_size ((PGSIZE - ARENA_SIZE) / block_size) [] in
      let! _ := ASSERT (Z.of_nat (length ds) + 1 <=? 10) in
      Ret (inl (u32 (block_size * 2), ds ++ [d]))
    else Ret (inr ds)) (16, []) in
  Ret (mkHeap s ds ∅).

(** The descriptor that a header points to. *)
Definition desc_of (h : heap) (ar : arena) : outcome (option desc) :=
  match arena_desc ar with
  | None => Ret None
  | Some i => let! d := access (descs h !! i) in Ret (Some d)
  end.

Definition block_to_arena (h : heap) (b : Z) : outcome Z :=
  let a := pg_round_down b in
  let! _ := ASSERT (negb (a =? NULL)) in
  let! ar := access (arenas h !! a) in
  let! _ := ASSERT (magic ar =? ARENA_MAGIC) in
  let! d := desc_of h ar in
  let! _ := ASSERT (match d with None => true | Some d => u32 (pg_ofs b - ARENA_SIZE) mod desc_block_size d =? 0 end) in
  let! _ := ASSERT (match d with None => pg_ofs b =? ARENA_SIZE | Some _ => true end) in
  Ret a.

Definition arena_to_block (h : heap) (a idx : Z) : outcome Z :=
  let! _ := ASSERT (negb (a =? NULL)) in
  let! ar := access (arenas h !! a) in
  let! _ := ASSERT (magic ar =? ARENA_MAGIC) in
  let! d := desc_of h ar in
  let! d := access d in
  let! _ := ASSERT (idx <? blocks_per_arena d) in
  Ret (u32 (a + ARENA_SIZE + idx * desc_block_size d)).

(** The loop over the descriptors. *)
Fixpoint find_desc (ds : list desc) (i : nat) (size : Z) : option nat :=
  match ds with
  | [] => None
  | d :: ds => if size <=? desc_block_size d then Some i else find_desc ds (S i) size
  end.

(** The loop that adds the blocks of the arena [a] to the free list of [i]. *)
Definition add_blocks (h : heap) (i : nat) (a n : Z) : outcome heap :=
  for_loop (Z.to_nat n) 0 (fun k h =>
    let! b := arena_to_block h a k in
    Ret (with_free_list h i (fun l => l ++ [b]))) h.

(** A new arena for descriptor [i], when its free list is empty; [false] if
    there is no page. *)
Definition new_arena (h : heap) (i : nat) (d : desc) : outcome (bool * heap) :=
  match free_list d with
  | _ :: _ => Ret (true, h)
  | [] =>
      let! (a, s) := palloc_get_page 0 (pages h) in
      let h := with_pages h s in
      if a =? NULL then Ret (false, h)
      else
        let h := with_arenas h (insert a (mkArena ARENA_MAGIC (Some i) (blocks_per_arena d))) in
        let! h := add_blocks h i a (blocks_per_arena d) in
        Ret (true, h)
  end.

(** [list_pop_front (&d->free_list)] *)
Definition pop_block (h : heap) (i : nat) : outcome (Z * heap) :=
  let! d := access (descs h !! i) in
  match free_list d with
  | [] => Err AssertFailed
  | b :: l => Ret (b, with_free_list h i (fun _ => l))
  end.

(** [a->free_cnt += k] *)
Definition add_free_cnt (h : heap) (a k : Z) : outcome heap :=
  let! ar := access (arenas h !! a) in
  Ret (with_arenas h (insert a (mkArena (magic ar) (arena_desc ar) (u32 (free_cnt ar + k))))).

Definition malloc (size : Z) (h : heap) : outcome (Z * heap) :=
  if size =? 0 then Ret (NULL, h)
  else
    match find_desc (descs h) 0 size with
    | None =>
        let page_cnt := DIV_ROUND_UP (u32 (size + ARENA_SIZE)) PGSIZE in
        let! (a, s) := palloc_get_multiple 0 page_cnt (pages h) in
        let h := with_pages h s in
        if a =? NULL then Ret (NULL, h)
        else Ret (a + ARENA_SIZE, with_arenas h (insert a (mkArena ARENA_MAGIC None page_cnt)))
    | Some i =>
        let! d := access (descs h !! i) in
        let! (ok, h) := new_arena h i d in
        if negb ok then Ret (NULL, h)
        else
          let! (b, h) := pop_block h i in
          let! a := block_to_arena h b in
          let! h := add_free_cnt h a (-1) in
          Ret (b, h)
    end.

Definition calloc (a b : Z) (h : heap) : outcome (Z * heap) :=
  let size := u32 (a * b) in
  if (size <? a) || (size <? b) then Ret (NULL, h)
  else
    let! (p, h) := malloc size h in
    if negb (p =? NULL) then Ret (p, with_memory h (fill (memory (pages h)) p 0 size))
    else Ret (p, h).

Definition block_size (h : heap) (block : Z) : outcome Z :=
  let! a := block_to_arena h block in
  let! ar := access (arenas h !! a) in
  let! d := desc_of h ar in
  Ret (match d with
       | Some d => desc_block_size d
       | None => u32 (PGSIZE * free_cnt ar - pg_ofs block)
       end).

(** [list_remove (&b->free_elem)] *)
Definition remove_block (h : heap) (i : nat) (b : Z) : outcome heap :=
  let! d := access (descs h !! i) in
  if bool_decide (b ∈ free_list d) then Ret (with_free_list h i (filter (fun x => x <> b)))
  else Err BadAccess.

(** The loop that removes the blocks of the arena [a] from the free list. *)
Definition remove_blocks (h : heap) (i : nat) (a n : Z) : outcome heap :=
  for_loop (Z.to_nat n) 0 (fun k h =>
    let! b := arena_to_block h a k in
    remove_block h i b) h.

(** Pages that are given back hold no header any more. *)
Definition free_pages (h : heap) (a n : Z) : outcome heap :=
  let! (_, s) := palloc_free_multiple a n (pages h) in
  Ret (with_arenas (with_pages h s) (delete a)).

Definition free (p : Z) (h : heap) : outcome heap :=
  if p =? NULL then Ret h
  else
    let! a := block_to_arena h p in
    let! ar := access (arenas h !! a) in
    match arena_desc ar with
    | Some i =>
        let! d := access (descs h !! i) in
        let h := with_memory h (fill (memory (pages h)) p 204 (desc_block_size d)) in
        let h := with_free_list h i (cons p) in
        let! h := add_free_cnt h a 1 in
        let! ar := access (arenas h !! a) in
        if blocks_per_arena d <=? free_cnt ar then
          let! _ := ASSERT (free_cnt ar =? blocks_per_arena d) in
          let! h := remove_blocks h i a (blocks_per_arena d) in
          free_pages h a 1
        else Ret h
    | None => free_pages h a (free_cnt ar)
    end.

(** [memcpy (dst, src, n)], of blocks that do not overlap. *)
Definition copy (m : Z -> Z) (dst src n : Z) : Z -> Z :=
  fun x => if (dst <=? x) && (x <? dst + n) then m (src + (x - dst)) else m x.

Definition realloc (old_block new_size : Z) (h : heap) : outcome (Z * heap) :=
  if new_size =? 0 then
    let! h := free old_block h in
    Ret (NULL, h)
  else
    let! (new_block, h) := malloc new_size h in
    if negb (old_block =? NULL) && negb (new_block =? NULL) then
      let! old_size := block_size h old_block in
      let min_size := if new_size <? old_size then new_size else old_size in
      let h := with_memory h (copy (memory (pages h)) new_block old_block min_size) in
      let! h := free old_block h in
      Ret (new_block, h)
    else Ret (new_block, h).

(** ** The descriptors *)

Definition sizes : list (Z * Z) := [(16, 255); (32, 127); (64, 63); (128, 31); (256, 15); (512, 7); (1024, 3)].

Definition shape (d : desc) : Z * Z := (desc_block_size d, blocks_per_arena d).

Lemma malloc_init_spec s :
  exists h, malloc_init s = Ret h /\ pages h = s /\ (shape <$> descs h) = sizes /\ arenas h = ∅ /\
    forall d, d ∈ descs h -> free_list d = [].
Proof.
  eexists. split; [unfold malloc_init; vm_compute loop; reflexivity|]. cbn [pages descs arenas]. repeat split.
  apply Forall_forall. repeat constructor.
Qed.

(** The blocks of the arena [a]. *)
Definition block_at (d : desc) (a k : Z) : Z := a + ARENA_SIZE + k * desc_block_size d.
Definition blocks (d : desc) (a : Z) : list Z := block_at d a <$> seqZ 0 (blocks_per_arena d).

Lemma shape_facts d : shape d ∈ sizes ->
  16 <= desc_block_size d <= 1024 /\ 3 <= blocks_per_arena d <= 255 /\ ARENA_SIZE + blocks_per_arena d * desc_block_size d <= PGSIZE.
Proof.
  destruct d as [b n l]. unfold shape. cbn [desc_block_size blocks_per_arena].
  assert (Forall (fun '(b, n) => 16 <= b <= 1024 /\ 3 <= n <= 255 /\ ARENA_SIZE + n * b <= PGSIZE) sizes) as H
    by (repeat constructor; vm_compute; congruence).
  intros Hin. apply (proj1 (Forall_forall _ _) H (b, n) Hin).
Qed.

Lemma elem_blocks d a b : b ∈ blocks d a <-> exists k, 0 <= k < blocks_per_arena d /\ b = block_at d a k.
Proof.
  unfold blocks. rewrite list_elem_of_fmap. split.
  - intros (k & -> & Hk). apply elem_of_seqZ in Hk. exists k. split; [lia|done].
  - intros (k & Hk & ->). exists k. split; [done|]. apply elem_of_seqZ. lia.
Qed.

Lemma blocks_NoDup d a : shape d ∈ sizes -> NoDup (blocks d a).
Proof.
  intros Hs. destruct (shape_facts d Hs) as (Hb & _). apply NoDup_fmap_2; [|apply NoDup_seqZ].
  intros x y Hxy. unfold block_at in Hxy. nia.
Qed.

Lemma length_blocks d a : length (blocks d a) = Z.to_nat (blocks_per_arena d).
Proof. unfold blocks. by rewrite length_fmap, length_seqZ. Qed.

Lemma pg_round_down_eq b : 0 <= b < two32 -> pg_round_down b = b - b mod PGSIZE.
Proof.
  intros Hb. unfold pg_round_down. change (u32 (Z.lnot PGMASK)) with (Z.shiftl (Z.ones 20) 12).
  assert (Z.land b (Z.shiftl (Z.ones 20) 12) = Z.shiftl (Z.land (Z.shiftr b 12) (Z.ones 20)) 12) as ->.
  { rewrite Z.shiftl_land. apply Z.bits_inj'. intros n Hn. rewrite !Z.land_spec, !Z.shiftl_spec by done.
    destruct (Z_lt_le_dec n 12).
    - rewrite !(Z.testbit_neg_r _ (n - 12)) by lia. by rewrite andb_false_r.
    - rewrite Z.shiftr_spec by lia. by replace (n - 12 + 12) with n by lia. }
  rewrite Z.land_ones, Z.shiftl_mul_pow2, Z.shiftr_div_pow2 by lia. change (2 ^ 12) with PGSIZE. change (2 ^ 20) with 1048576.
  rewrite PGSIZE_eq in *. unfold two32 in Hb. rewrite Z.mod_small by (split; [apply Z.div_pos; lia|apply Z.div_lt_upper_bound; lia]).
  pose proof (Z.div_mod b 4096). lia.
Qed.

(** A block lies inside of the page of its arena, behind the header. *)
Lemma block_page d a b :
  shape d ∈ sizes -> 0 <= a -> a + PGSIZE <= two32 -> a mod PGSIZE = 0 -> b ∈ blocks d a ->
  pg_round_down b = a /\ a + ARENA_SIZE <= b /\ b + desc_block_size d <= a + PGSIZE /\ (pg_ofs b - ARENA_SIZE) mod desc_block_size d = 0 /\ pg_ofs b = b - a.
Proof.
  intros Hs Ha1 Ha2 Ham Hb. destruct (shape_facts d Hs) as (Hbs & Hn & Hfit). apply elem_blocks in Hb as (k & Hk & ->).
  unfold block_at in *. rewrite PGSIZE_eq in *. unfold ARENA_SIZE in *.
  assert (0 <= k * desc_block_size d /\ 12 + k * desc_block_size d + desc_block_size d <= 4096) as [H0 H1] by nia.
  assert ((a + 12 + k * desc_block_size d) mod 4096 = 12 + k * desc_block_size d) as Hm.
  { rewrite <- Z.add_assoc, Z.add_mod, Ham by lia. rewrite Z.add_0_l, Z.mod_mod by lia. apply Z.mod_small. lia. }
  rewrite pg_round_down_eq, pg_ofs_mod by lia. rewrite PGSIZE_eq, Hm. repeat split; try lia.
  replace (12 + k * desc_block_size d - 12) with (k * desc_block_size d) by lia. apply Z.mod_mul. lia.
Qed.

(** ** Pages of the kernel pool *)

Definition pool_start (s : palloc_state) : Z := Palloc.base (kernel_pool s).
Definition pool_limit (s : palloc_state) : Z := pool_end (kernel_pool s).

(** The [n] pages at [a] are pages of the kernel pool that are in use. *)
Definition owned (s : palloc_state) (a n : Z) : Prop :=
  0 < n /\ a mod PGSIZE = 0 /\ pool_start s <= a /\ a + PGSIZE * n <= pool_limit s /\
  forall x, in_pages a n x = true -> allocated s x = true.

Lemma in_pages_iff a n x : in_pages a n x = true <-> a <= x < a + PGSIZE * n.
Proof. unfold in_pages. rewrite andb_true_iff. lia. Qed.

Lemma pool_bounds s : palloc_ok s -> 0 < pool_start s /\ pool_limit s < two32.
Proof. intros ((_ & H1 & _ & H2) & _). done. Qed.

Lemma get_pages_spec s n :
  palloc_ok s -> 0 < n ->
  (palloc_get_multiple 0 n s = Ret (NULL, s) /\ forall i, ~ free_run (kernel_pool s) i n) \/
  (exists a s', palloc_get_multiple 0 n s = Ret (a, s') /\ (exists i, free_run (kernel_pool s) i n) /\ a <> NULL /\ palloc_ok s' /\ owned s' a n /\
     pool_start s' = pool_start s /\ pool_limit s' = pool_limit s /\
     (forall x, in_pages a n x = true -> allocated s x = false) /\
     (forall x, allocated s' x = in_pages a n x || allocated s x) /\ memory s' = memory s).
Proof.
  intros Hok Hn. destruct (palloc_get_cases s 0 n Hok Hn) as [[Hno Hr]|(i & map & Hrun & (Hfl & Hcnt & _) & Hr)]; [by left|right].
  destruct (palloc_get_spec s 0 n Hok Hn) as [[Hno _]|(a & s' & Hr' & Hok' & Hnn & Hm & Hb & He & Hf & Ha & _)]; [by destruct (Hno i)|].
  exists a, s'. cbv zeta in Hr. rewrite Hr in Hr'. injection Hr' as Haeq Hs. change (has_flag 0 PAL_USER) with false in *. cbn [the_pool set_pool] in *.
  assert (pool_start s' = pool_start s /\ pool_limit s' = pool_limit s /\ memory s' = memory s) as (H1 & H2 & H3).
  { rewrite <- Hs. unfold pool_start, pool_limit, pool_end. cbn. by rewrite Hcnt. }
  split; [by rewrite Hr, <- Haeq, <- Hs|]. split; [by exists i|]. split; [done|]. split; [done|]. split; [|done].
  split; [done|]. split; [done|]. split; [by rewrite H1|]. split; [by rewrite H2|]. intros x Hx. by rewrite Ha, Hx.
Qed.

Lemma give_pages_spec s a n :
  palloc_ok s -> owned s a n ->
  exists s', palloc_free_multiple a n s = Ret (tt, s') /\ palloc_ok s' /\ pool_start s' = pool_start s /\ pool_limit s' = pool_limit s /\
    (forall x, allocated s' x = negb (in_pages a n x) && allocated s x) /\ memory s' = fill (memory s) a 204 (PGSIZE * n).
Proof.
  intros Hok (Hn & Hm & Hb & He & Hal). pose proof Hok as (Hk & Hu & Hku). pose proof Hk as (_ & Hpos & Hpm & _).
  unfold pool_start, pool_limit in *. set (p := kernel_pool s) in *. set (i := (a - Palloc.base p) / PGSIZE).
  assert (a = Palloc.base p + PGSIZE * i) as Ha.
  { unfold i. rewrite PGSIZE_eq in *. pose proof (Z.div_mod (a - Palloc.base p) 4096 ltac:(lia)) as Hd.
    rewrite Zminus_mod, Hm, Hpm in Hd. change ((0 - 0) mod 4096) with 0 in Hd. lia. }
  assert (0 <= i) as Hi by (apply Z.div_pos; rewrite ?PGSIZE_eq; lia).
  assert (i + n <= bit_cnt (used_map p)) as Hic by (unfold pool_end in He; rewrite PGSIZE_eq in *; lia).
  destruct (palloc_free_cases s false i n Hok Hi Hn Hic) as [(Hg & map & Hfl & Hr)|(Hg & _)]; cbn [the_pool set_pool] in *; fold p in Hg.
  - fold p in Hr. rewrite <- Ha in Hr. eexists. split; [exact Hr|]. split; [by apply (palloc_ok_set s false map i n false)|].
    cbn. destruct Hfl as (Hw & Hc & Hrest). split; [done|]. split; [unfold pool_end; cbn; by rewrite Hc|]. split; [|done].
    intros x. pose proof (allocated_set s false map i n false (fill (memory s) a 204 (PGSIZE * n)) x Hok Hi ltac:(lia) Hic (conj Hw (conj Hc Hrest))) as Hx.
    cbv zeta in Hx. cbn [the_pool set_pool] in Hx. fold p in Hx. rewrite Hx, <- Ha. by destruct (in_pages a n x).
  - destruct Hg. intros j Hj. specialize (Hal (Palloc.base p + PGSIZE * j)). rewrite PGSIZE_eq in *.
    assert (in_pages a n (Palloc.base p + 4096 * j) = true) as Hin by (apply in_pages_iff; rewrite PGSIZE_eq; lia). specialize (Hal Hin).
    unfold allocated in Hal. fold p in Hal. apply orb_true_iff in Hal as [Hal|Hal%pool_used_range].
    + unfold pool_used in Hal. apply andb_true_iff in Hal as [_ Hal]. rewrite PGSIZE_eq in Hal.
      replace (Palloc.base p + 4096 * j - Palloc.base p) with (j * 4096) in Hal by lia. by rewrite Z.div_mul in Hal by lia.
    + unfold pool_end in Hku, He. fold p in Hku. rewrite PGSIZE_eq in *. lia.
Qed.

(** ** The invariant *)

Definition npages (ar : arena) : Z := match arena_desc ar with Some _ => 1 | None => free_cnt ar end.

(** Arenas own the pages they occupy, and do not overlap. *)
Definition pages_inv (s : palloc_state) (A : gmap Z arena) : Prop :=
  palloc_ok s /\
  (forall a ar, A !! a = Some ar -> magic ar = ARENA_MAGIC /\ owned s a (npages ar)) /\
  (forall a ar a' ar', A !! a = Some ar -> A !! a' = Some ar' -> a <> a' ->
     a + PGSIZE * npages ar <= a' \/ a' + PGSIZE * npages ar' <= a).

(** How many of the free blocks are in the page [a]. *)
Definition count (a : Z) (l : list Z) : Z := Z.of_nat (length (filter (fun b => pg_round_down b = a) l)).

(** Free lists hold distinct blocks of arenas of their descriptor, and every
    arena counts its free blocks. *)
Definition lists_inv (D : list desc) (A : gmap Z arena) : Prop :=
  (shape <$> D) = sizes /\
  (forall i d, D !! i = Some d -> NoDup (free_list d) /\
     forall b, b ∈ free_list d -> exists a ar, A !! a = Some ar /\ arena_desc ar = Some i /\ b ∈ blocks d a) /\
  (forall a ar i, A !! a = Some ar -> arena_desc ar = Some i ->
     exists d, D !! i = Some d /\ free_cnt ar = count a (free_list d)).

Definition heap_inv (h : heap) : Prop := pages_inv (pages h) (arenas h) /\ lists_inv (descs h) (arenas h).

(** No page is kept for an arena that has no block in use. *)
Definition tight (h : heap) : Prop :=
  forall a ar i d, arenas h !! a = Some ar -> arena_desc ar = Some i -> descs h !! i = Some d -> free_cnt ar < blocks_per_arena d.

Definition heap_ok (h : heap) : Prop := heap_inv h /\ tight h.

(** The block at [p], of [n] bytes, is in use. *)
Definition live (h : heap) (p n : Z) : Prop :=
  exists a ar, arenas h !! a = Some ar /\
    match arena_desc ar with
    | Some i => exists d, descs h !! i = Some d /\ p ∈ blocks d a /\ (p ∉ free_list d) /\ n = desc_block_size d
    | None => p = a + ARENA_SIZE /\ n = PGSIZE * free_cnt ar - ARENA_SIZE
    end.

(** The address [x] is in a page of the heap. *)
Definition heap_page (h : heap) (x : Z) : Prop := exists a ar, arenas h !! a = Some ar /\ in_pages a (npages ar) x = true.

(** The pages that are in use for something else are the same. *)
Definition same_others (h h' : heap) : Prop :=
  forall x, allocated (pages h) x = true /\ ~ heap_page h x <-> allocated (pages h') x = true /\ ~ heap_page h' x.

#[global] Instance same_others_equiv : Equivalence same_others.
Proof. unfold same_others. split; [intros h x; done|intros h h' H x; by rewrite H|intros h1 h2 h3 H H' x; by rewrite H]. Qed.

Lemma shape_at D A i d : lists_inv D A -> D !! i = Some d -> shape d ∈ sizes.
Proof. intros (Hs & _) Hd. rewrite <- Hs. apply list_elem_of_fmap_2, list_elem_of_lookup_2 with i. done. Qed.

Lemma arena_page s A a ar :
  pages_inv s A -> A !! a = Some ar -> 0 < a /\ a + PGSIZE <= two32 /\ a mod PGSIZE = 0 /\ 0 < npages ar /\ a + PGSIZE * npages ar < two32.
Proof.
  intros (Hok & Ha & _) Har. destruct (Ha a ar Har) as (_ & Hn & Hm & Hb & He & _). destruct (pool_bounds s Hok). rewrite PGSIZE_eq in *. lia.
Qed.

Lemma arena_block s A D a ar i d b :
  pages_inv s A -> lists_inv D A -> A !! a = Some ar -> D !! i = Some d -> b ∈ blocks d a ->
  pg_round_down b = a /\ a + ARENA_SIZE <= b /\ b + desc_block_size d <= a + PGSIZE /\ (pg_ofs b - ARENA_SIZE) mod desc_block_size d = 0 /\ pg_ofs b = b - a.
Proof.
  intros Hp Hl Ha Hd Hb. destruct (arena_page s A a ar Hp Ha) as (H1 & H2 & H3 & _).
  apply block_page; [by eapply shape_at|lia|done|done|done].
Qed.

(** *** Pages *)

Lemma pages_inv_get s A s' a n ar :
  pages_inv s A -> palloc_ok s' -> owned s' a n -> pool_start s' = pool_start s -> pool_limit s' = pool_limit s ->
  (forall x, in_pages a n x = true -> allocated s x = false) -> (forall x, allocated s' x = in_pages a n x || allocated s x) ->
  magic ar = ARENA_MAGIC -> npages ar = n ->
  pages_inv s' (<[a := ar]> A) /\ A !! a = None.
Proof.
  intros (Hok & Ha & Hd) Hok' Hown H1 H2 Hf Hal Hm Hn.
  assert (forall b br, A !! b = Some br -> a + PGSIZE * n <= b \/ b + PGSIZE * npages br <= a) as Hap.
  { intros b br Hb. destruct (Ha b br Hb) as (_ & Hbn & _ & _ & _ & Hba). destruct Hown as (Hn0 & _).
    destruct (Z_le_gt_dec (a + PGSIZE * n) b); [by left|]. destruct (Z_le_gt_dec (b + PGSIZE * npages br) a); [by right|exfalso].
    rewrite PGSIZE_eq in *. specialize (Hf (Z.max a b)). specialize (Hba (Z.max a b)). rewrite !in_pages_iff, PGSIZE_eq in *.
    rewrite Hba in Hf by lia. discriminate Hf. lia. }
  split.
  - split; [done|]. split.
    + intros b br. rewrite lookup_insert_Some. intros [[<- <-]|[_ Hb]]; [by rewrite Hn|]. destruct (Ha b br Hb) as (Hbm & Hb1 & Hb2 & Hb3 & Hb4 & Hb5).
      split; [done|]. split; [done|]. split; [done|]. split; [lia|]. split; [lia|]. intros x Hx. rewrite Hal, Hb5 by done. apply orb_true_r.
    + intros b br b' br'. rewrite !lookup_insert_Some. intros [[<- <-]|[_ Hb]] [[<- <-]|[_ Hb']] Hne; [done|rewrite Hn; by apply Hap|rewrite Hn|by apply Hd].
      destruct (Hap b br Hb); [by right|by left].
  - destruct (A !! a) as [br|] eqn:E; [|done]. destruct (Ha a br E) as (_ & Hb1 & _). destruct Hown as (Hn0 & _).
    destruct (Hap a br E); rewrite PGSIZE_eq in *; lia.
Qed.

Lemma pages_inv_give s A s' a ar :
  pages_inv s A -> A !! a = Some ar -> palloc_ok s' -> pool_start s' = pool_start s -> pool_limit s' = pool_limit s ->
  (forall x, allocated s' x = negb (in_pages a (npages ar) x) && allocated s x) -> pages_inv s' (delete a A).
Proof.
  intros (Hok & Ha & Hd) Har Hok' H1 H2 Hal. split; [done|]. split.
  - intros b br. rewrite lookup_delete_Some. intros [Hne Hb]. destruct (Ha b br Hb) as (Hbm & Hb1 & Hb2 & Hb3 & Hb4 & Hb5).
    split; [done|]. split; [done|]. split; [done|]. split; [lia|]. split; [lia|]. intros x Hx. rewrite Hal, Hb5 by done.
    destruct (in_pages a (npages ar) x) eqn:E; [|done]. apply in_pages_iff in E. apply in_pages_iff in Hx.
    destruct (Hd a ar b br Har Hb Hne); lia.
  - intros b br b' br'. rewrite !lookup_delete_Some. intros [_ Hb] [_ Hb']. by apply Hd.
Qed.

Lemma pages_inv_update s A a ar ar' :
  pages_inv s A -> A !! a = Some ar -> magic ar' = ARENA_MAGIC -> npages ar' = npages ar -> pages_inv s (<[a := ar']> A).
Proof.
  intros (Hok & Ha & Hd) Har Hm Hn. split; [done|]. split.
  - intros b br. rewrite lookup_insert_Some. intros [[<- <-]|[_ Hb]]; [rewrite Hn; split; [done|]; by apply Ha|by apply Ha].
  - intros b br b' br'. rewrite !lookup_insert_Some. intros [[<- <-]|[_ Hb]] [[<- <-]|[_ Hb']] Hne; rewrite ?Hn; by eauto.
Qed.

Lemma others_get h s' D a n ar :
  pages_inv (pages h) (arenas h) -> (forall x, in_pages a n x = true -> allocated (pages h) x = false) ->
  (forall x, allocated s' x = in_pages a n x || allocated (pages h) x) -> npages ar = n -> arenas h !! a = None ->
  same_others h (mkHeap s' D (<[a := ar]> (arenas h))).
Proof.
  intros Hp Hf Hal Hn Hno x. cbn [pages]. rewrite Hal.
  assert (heap_page (mkHeap s' D (<[a := ar]> (arenas h))) x <-> in_pages a n x = true \/ heap_page h x) as ->.
  { unfold heap_page. cbn [arenas]. split.
    - intros (b & br & Hb & Hx). apply lookup_insert_Some in Hb as [[<- <-]|[_ Hb]]; [left; by rewrite <- Hn|right; eauto].
    - intros [Hx|(b & br & Hb & Hx)]; [exists a, ar; by rewrite lookup_insert_eq, Hn|]. exists b, br. by rewrite lookup_insert_ne by congruence. }
  specialize (Hf x). destruct (in_pages a n x); cbn [orb]; [rewrite Hf by done|]; intuition congruence.
Qed.

Lemma others_give h s' D a ar :
  pages_inv (pages h) (arenas h) -> arenas h !! a = Some ar ->
  (forall x, allocated s' x = negb (in_pages a (npages ar) x) && allocated (pages h) x) -> same_others h (mkHeap s' D (delete a (arenas h))).
Proof.
  intros (_ & _ & Hd) Ha Hal x. cbn [pages]. rewrite Hal.
  assert (heap_page h x <-> in_pages a (npages ar) x = true \/ heap_page (mkHeap s' D (delete a (arenas h))) x) as ->.
  { unfold heap_page. cbn [arenas]. split.
    - intros (b & br & Hb & Hx). destruct (decide (b = a)) as [->|Hne]; [left; congruence|]. right. exists b, br. by rewrite lookup_delete_ne.
    - intros [Hx|(b & br & [_ Hb]%lookup_delete_Some & Hx)]; eauto. }
  destruct (in_pages a (npages ar) x); cbn [negb andb]; intuition congruence.
Qed.

Lemma others_update h s' D a ar ar' :
  arenas h !! a = Some ar -> npages ar' = npages ar -> (forall x, allocated s' x = allocated (pages h) x) ->
  same_others h (mkHeap s' D (<[a := ar']> (arenas h))).
Proof.
  intros Ha Hn Hal x. cbn [pages]. rewrite Hal.
  enough (heap_page (mkHeap s' D (<[a := ar']> (arenas h))) x <-> heap_page h x) as -> by done. unfold heap_page. cbn [arenas]. split.
  - intros (b & br & Hb & Hx). apply lookup_insert_Some in Hb as [[<- <-]|[_ Hb]]; [exists a, ar; by rewrite <- Hn|eauto].
  - intros (b & br & Hb & Hx). destruct (decide (b = a)) as [->|]; [exists a, ar'; rewrite lookup_insert_eq, Hn; split; congruence|].
    exists b, br. by rewrite lookup_insert_ne.
Qed.

(** *** Free lists *)

Definition set_list (D : list desc) (i : nat) (f : list Z -> list Z) : list desc :=
  alter (fun d => mkDesc (desc_block_size d) (blocks_per_arena d) (f (free_list d))) i D.

Lemma set_list_lookup D i f j d :
  D !! i = Some d ->
  set_list D i f !! j = if decide (j = i) then Some (mkDesc (desc_block_size d) (blocks_per_arena d) (f (free_list d))) else D !! j.
Proof.
  intros Hd. unfold set_list. destruct (decide (j = i)) as [->|Hne]; [by rewrite list_lookup_alter_eq, Hd|by rewrite list_lookup_alter_ne].
Qed.

Lemma set_list_shape D i f : (shape <$> set_list D i f) = shape <$> D.
Proof. unfold set_list. revert i. induction D as [|d D IH]; intros [|i]; simpl; [done|done|done|]. f_equal. apply IH. Qed.

Lemma count_cons a b l : count a (b :: l) = (if decide (pg_round_down b = a) then 1 else 0) + count a l.
Proof. unfold count. rewrite filter_cons. destruct (decide _); simpl length; lia. Qed.

Lemma count_all a l : (forall b, b ∈ l -> pg_round_down b = a) -> count a l = Z.of_nat (length l).
Proof.
  induction l as [|b l IH]; intros H; [done|]. rewrite count_cons, IH by set_solver. rewrite decide_True by (apply H; set_solver). simpl length. lia.
Qed.

Lemma count_none a l : (forall b, b ∈ l -> pg_round_down b <> a) -> count a l = 0.
Proof. induction l as [|b l IH]; intros H; [done|]. rewrite count_cons, IH by set_solver. by rewrite decide_False by (apply H; set_solver). Qed.

(** The free blocks of an arena are at most its blocks. *)
Lemma count_bound s A D a ar i d l :
  pages_inv s A -> lists_inv D A -> A !! a = Some ar -> D !! i = Some d -> NoDup l ->
  (forall b, b ∈ l -> pg_round_down b = a -> b ∈ blocks d a) ->
  count a l <= blocks_per_arena d /\ (count a l = blocks_per_arena d -> forall b, b ∈ blocks d a -> b ∈ l).
Proof.
  intros Hp Hl Ha Hd Hnd Hin. pose proof (shape_facts d (shape_at _ _ _ _ Hl Hd)) as (_ & Hn & _).
  set (fl := filter (fun b => pg_round_down b = a) l).
  assert (NoDup fl) as Hfl by (by apply NoDup_filter). assert (fl ⊆ blocks d a) as Hsub by (intros b Hb; apply list_elem_of_filter in Hb as [Hb1 Hb2]; auto).
  assert (fl ⊆+ blocks d a) as Hsm by (by apply NoDup_submseteq).
  pose proof (submseteq_length _ _ Hsm) as Hle. rewrite length_blocks in Hle. unfold count. fold fl. split; [lia|].
  intros Hc b Hb. assert (fl ≡ₚ blocks d a) as Hperm by (apply submseteq_length_Permutation; [done|rewrite length_blocks; lia]).
  rewrite <- Hperm in Hb. by apply list_elem_of_filter in Hb as [_ Hb].
Qed.

Lemma free_block_at s A D i d a b :
  pages_inv s A -> lists_inv D A -> D !! i = Some d -> b ∈ free_list d -> pg_round_down b = a ->
  exists ar, A !! a = Some ar /\ arena_desc ar = Some i /\ b ∈ blocks d a.
Proof.
  intros Hp Hl Hd Hb Ha. destruct Hl as (Hs & Hf & Hc). destruct (Hf i d Hd) as [_ Hfb]. destruct (Hfb b Hb) as (a' & ar & Ha' & Hi & Hbl).
  destruct (arena_block s A D a' ar i d b Hp (conj Hs (conj Hf Hc)) Ha' Hd Hbl) as (Hr & _). subst a. rewrite Hr. eauto.
Qed.

Lemma lists_new s A D i d a :
  pages_inv s (<[a := mkArena ARENA_MAGIC (Some i) (blocks_per_arena d)]> A) -> lists_inv D A -> A !! a = None ->
  D !! i = Some d -> free_list d = [] ->
  lists_inv (set_list D i (fun l => l ++ blocks d a)) (<[a := mkArena ARENA_MAGIC (Some i) (blocks_per_arena d)]> A).
Proof.
  intros Hp Hl Hno Hd Hnil. pose proof (shape_at _ _ _ _ Hl Hd) as Hsh. pose proof (shape_facts d Hsh) as (_ & Hn & _). destruct Hl as (Hs & Hf & Hc).
  destruct (arena_page _ _ a _ Hp (lookup_insert_eq _ _ _)) as (P1 & P2 & P3 & _).
  assert (forall b, b ∈ blocks d a -> pg_round_down b = a) as Hbp by (intros b Hb; apply (block_page d a b Hsh ltac:(lia) P2 P3 Hb)).
  split; [by rewrite set_list_shape|]. split.
  - intros j dj. rewrite (set_list_lookup D i _ j d Hd). destruct (decide (j = i)) as [->|Hne].
    + intros [= <-]. cbn [free_list]. rewrite Hnil. split; [by apply blocks_NoDup|]. intros b Hb. exists a. eexists. by rewrite lookup_insert_eq.
    + intros Hj. destruct (Hf j dj Hj) as [H1 H2]. split; [done|]. intros b Hb. destruct (H2 b Hb) as (a' & ar & Ha' & Hrest).
      exists a', ar. rewrite lookup_insert_ne; [done|congruence].
  - intros a' ar j. rewrite lookup_insert_Some. intros [[<- <-]|[Hne Ha']] Hj.
    + injection Hj as <-. eexists. rewrite (set_list_lookup D i _ i d Hd), decide_True by done. split; [done|]. cbn [free_list free_cnt].
      rewrite Hnil, app_nil_l, (count_all a (blocks d a)) by done. rewrite length_blocks. lia.
    + destruct (Hc a' ar j Ha' Hj) as (dj & Hdj & Hcnt). rewrite (set_list_lookup D i _ j d Hd). destruct (decide (j = i)) as [->|]; [|eauto].
      assert (dj = d) as -> by congruence. eexists. split; [done|]. cbn [free_list]. rewrite Hcnt, Hnil. symmetry. apply count_none.
      intros b Hb. rewrite (Hbp b Hb). done.
Qed.

(** Moving one block of the arena [a] from or to the head of the free list. *)
Lemma lists_move s A D i d a ar l l' k :
  pages_inv s A -> lists_inv D A -> A !! a = Some ar -> arena_desc ar = Some i -> D !! i = Some d ->
  NoDup l' -> (forall b, b ∈ l' -> b ∈ free_list d \/ b ∈ blocks d a) ->
  count a l' = k -> (forall a', a' <> a -> count a' l' = count a' (free_list d)) -> l = l' ->
  lists_inv (set_list D i (fun _ => l)) (<[a := mkArena (magic ar) (arena_desc ar) k]> A).
Proof.
  intros Hp Hl Ha Hi Hd Hnd Hsub Hk Hoth ->. destruct Hl as (Hs & Hf & Hc). destruct (Hf i d Hd) as [Hnd0 Hf0].
  split; [by rewrite set_list_shape|]. split.
  - assert (forall b c br, A !! b = Some br -> arena_desc br = c ->
      exists br', <[a := mkArena (magic ar) (arena_desc ar) k]> A !! b = Some br' /\ arena_desc br' = c) as Hlk.
    { intros b c br Hb Hbc. destruct (decide (b = a)) as [->|]; [rewrite lookup_insert_eq; simplify_eq; eauto|rewrite lookup_insert_ne by done; eauto]. }
    intros j dj. rewrite (set_list_lookup D i _ j d Hd). destruct (decide (j = i)) as [->|Hne].
    + intros [= <-]. cbn [free_list]. split; [done|]. intros b Hb. destruct (Hsub b Hb) as [Hb0|Hb0].
      * destruct (Hf0 b Hb0) as (a' & br & Ha' & Hbi & Hbl). destruct (Hlk a' _ br Ha' Hbi) as (br' & ? & ?). eauto.
      * exists a. eexists. rewrite lookup_insert_eq. split; [done|]. by split.
    + intros Hj. destruct (Hf j dj Hj) as [H1 H2]. split; [done|]. intros b Hb. destruct (H2 b Hb) as (a' & br & Ha' & Hbi & Hbl).
      destruct (Hlk a' _ br Ha' Hbi) as (br' & ? & ?). eauto.
  - intros a' br j. rewrite lookup_insert_Some. intros [[<- <-]|[Hne Ha']] Hj.
    + cbn [arena_desc] in Hj. assert (j = i) as -> by congruence. eexists. rewrite (set_list_lookup D i _ i d Hd), decide_True by done. by split.
    + destruct (Hc a' br j Ha' Hj) as (dj & Hdj & Hcnt). rewrite (set_list_lookup D i _ j d Hd). destruct (decide (j = i)) as [->|]; [|eauto].
      eexists. split; [done|]. cbn [free_list]. rewrite Hoth by done. congruence.
Qed.

Lemma lists_pop s A D i d a ar b l :
  pages_inv s A -> lists_inv D A -> A !! a = Some ar -> arena_desc ar = Some i -> D !! i = Some d -> free_list d = b :: l -> b ∈ blocks d a ->
  lists_inv (set_list D i (fun _ => l)) (<[a := mkArena (magic ar) (arena_desc ar) (u32 (free_cnt ar + -1))]> A) /\
  1 <= free_cnt ar <= blocks_per_arena d.
Proof.
  intros Hp Hl Ha Hi Hd Hfl Hb. destruct (arena_block _ _ _ _ _ _ _ _ Hp Hl Ha Hd Hb) as (Hr & _).
  destruct (count_bound s A D a ar i d (free_list d) Hp Hl Ha Hd) as [Hcb _].
  { by apply (proj1 (proj2 Hl)) in Hd as [Hd _]. }
  { intros x Hx Hxa. by destruct (free_block_at s A D i d a x Hp Hl Hd Hx Hxa) as (? & _ & _ & ?). }
  pose proof (shape_facts d (shape_at _ _ _ _ Hl Hd)) as (_ & Hn & _).
  destruct Hl as (Hs & Hf & Hc). destruct (Hc a ar i Ha Hi) as (d' & Hd' & Hcnt). assert (d' = d) as -> by congruence.
  rewrite <- Hcnt in Hcb. rewrite Hfl, count_cons, decide_True in Hcnt by done. assert (0 <= count a l) by (unfold count; lia).
  split; [|lia]. rewrite u32_small by (unfold is_u32, two32; lia). destruct (Hf i d Hd) as [Hnd _]. rewrite Hfl in Hnd.
  apply (lists_move s A D i d a ar l l); try done; [by inversion Hnd|intros x Hx; left; rewrite Hfl; set_solver|lia|].
  intros a' Ha'. rewrite Hfl, count_cons, decide_False by congruence. lia.
Qed.

Lemma lists_push s A D i d a ar b :
  pages_inv s A -> lists_inv D A -> A !! a = Some ar -> arena_desc ar = Some i -> D !! i = Some d -> b ∈ blocks d a -> b ∉ free_list d ->
  lists_inv (set_list D i (cons b)) (<[a := mkArena (magic ar) (arena_desc ar) (u32 (free_cnt ar + 1))]> A) /\
  u32 (free_cnt ar + 1) = free_cnt ar + 1 /\ free_cnt ar < blocks_per_arena d.
Proof.
  intros Hp Hl Ha Hi Hd Hb Hnb. destruct (arena_block _ _ _ _ _ _ _ _ Hp Hl Ha Hd Hb) as (Hr & _).
  pose proof (proj1 (proj1 (proj2 Hl) i d Hd)) as Hnd.
  destruct (count_bound s A D a ar i d (b :: free_list d) Hp Hl Ha Hd) as [Hcb _].
  { by constructor. }
  { intros x [->|Hx]%elem_of_cons Hxa; [done|]. by destruct (free_block_at s A D i d a x Hp Hl Hd Hx Hxa) as (? & _ & _ & ?). }
  pose proof (shape_facts d (shape_at _ _ _ _ Hl Hd)) as (_ & Hn & _).
  destruct (proj2 (proj2 Hl) a ar i Ha Hi) as (d' & Hd' & Hcnt). assert (d' = d) as -> by congruence.
  rewrite count_cons, decide_True in Hcb by done. assert (0 <= count a (free_list d)) by (unfold count; lia).
  rewrite u32_small by (unfold is_u32, two32; lia). split; [|split; [done|lia]].
  replace (set_list D i (cons b)) with (set_list D i (fun _ => b :: free_list d)).
  2:{ unfold set_list. apply list_alter_ext; [|done]. intros x Hx. congruence. }
  apply (lists_move s A D i d a ar _ (b :: free_list d)); try done; [by constructor|set_solver|rewrite count_cons, decide_True by done; lia|].
  intros a' Ha'. rewrite count_cons, decide_False by congruence. lia.
Qed.

(** The blocks of an arena that is given back leave the free list. *)
Lemma lists_drop s A D i d a ar :
  pages_inv s A -> lists_inv D A -> A !! a = Some ar -> arena_desc ar = Some i -> D !! i = Some d ->
  lists_inv (set_list D i (filter (fun b => pg_round_down b <> a))) (delete a A).
Proof.
  intros Hp Hl Ha Hi Hd. pose proof Hl as (Hs & Hf & Hc). split; [by rewrite set_list_shape|]. split.
  - intros j dj. rewrite (set_list_lookup D i _ j d Hd). destruct (decide (j = i)) as [->|Hne].
    + intros [= <-]. cbn [free_list]. destruct (Hf i d Hd) as [H1 H2]. split; [by apply NoDup_filter|].
      intros b [Hba Hb]%list_elem_of_filter. destruct (H2 b Hb) as (a' & br & Ha' & Hbi & Hbl).
      destruct (arena_block _ _ _ _ _ _ _ _ Hp Hl Ha' Hd Hbl) as (Hr & _). exists a', br. rewrite lookup_delete_ne; [done|congruence].
    + intros Hj. destruct (Hf j dj Hj) as [H1 H2]. split; [done|]. intros b Hb. destruct (H2 b Hb) as (a' & br & Ha' & Hbi & Hbl).
      exists a', br. rewrite lookup_delete_ne; [done|]. intros <-. congruence.
  - intros a' br j. rewrite lookup_delete_Some. intros [Hne Ha'] Hj. destruct (Hc a' br j Ha' Hj) as (dj & Hdj & Hcnt).
    rewrite (set_list_lookup D i _ j d Hd). destruct (decide (j = i)) as [->|]; [|eauto]. eexists. split; [done|]. cbn [free_list].
    assert (dj = d) as -> by congruence. rewrite Hcnt. unfold count. f_equal. f_equal. rewrite list_filter_filter.
    apply list_filter_iff. intros b. split; [intros <-; done|tauto].
Qed.

Lemma lists_big D A a n : lists_inv D A -> A !! a = None -> lists_inv D (<[a := mkArena ARENA_MAGIC None n]> A).
Proof.
  intros (Hs & Hf & Hc) Hno. split; [done|]. split.
  - intros j dj Hj. destruct (Hf j dj Hj) as [H1 H2]. split; [done|]. intros b Hb. destruct (H2 b Hb) as (a' & br & Ha' & Hr).
    exists a', br. rewrite lookup_insert_ne; [done|congruence].
  - intros a' br j. rewrite lookup_insert_Some. intros [[<- <-]|[Hne Ha']] Hj; [done|eauto].
Qed.

Lemma lists_big_free D A a ar : lists_inv D A -> A !! a = Some ar -> arena_desc ar = None -> lists_inv D (delete a A).
Proof.
  intros (Hs & Hf & Hc) Ha Hnone. split; [done|]. split.
  - intros j dj Hj. destruct (Hf j dj Hj) as [H1 H2]. split; [done|]. intros b Hb. destruct (H2 b Hb) as (a' & br & Ha' & Hbi & Hr).
    exists a', br. rewrite lookup_delete_ne; [done|congruence].
  - intros a' br j. rewrite lookup_delete_Some. intros [Hne Ha'] Hj. eauto.
Qed.

(** ** Operations *)

Lemma with_free_list_eq h i f : with_free_list h i f = mkHeap (pages h) (set_list (descs h) i f) (arenas h).
Proof. done. Qed.

Lemma set_list_compose D i f g : set_list (set_list D i f) i g = set_list D i (fun l => g (f l)).
Proof. unfold set_list. by rewrite list_alter_alter_eq. Qed.

Lemma set_list_ext D i d f g : D !! i = Some d -> f (free_list d) = g (free_list d) -> set_list D i f = set_list D i g.
Proof. intros Hd Hfg. unfold set_list. apply list_alter_ext; [|done]. intros x Hx. assert (x = d) as -> by congruence. by rewrite Hfg. Qed.

Lemma block_to_arena_small h a ar i d b :
  pages_inv (pages h) (arenas h) -> arenas h !! a = Some ar -> arena_desc ar = Some i -> descs h !! i = Some d -> shape d ∈ sizes ->
  b ∈ blocks d a -> block_to_arena h b = Ret a.
Proof.
  intros Hp Ha Hi Hd Hsh Hb. destruct (arena_page _ _ _ _ Hp Ha) as (P1 & P2 & P3 & _). destruct (proj1 (proj2 Hp) a ar Ha) as [Hm _].
  destruct (block_page d a b Hsh ltac:(lia) P2 P3 Hb) as (Hr & B1 & B2 & B3 & B4). destruct (shape_facts d Hsh) as (Hbs & _).
  unfold block_to_arena. rewrite Hr. rewrite (proj2 (Z.eqb_neq a NULL)) by (unfold NULL; lia). cbn [negb ASSERT obind].
  rewrite Ha. cbn [access obind]. rewrite Hm, Z.eqb_refl. cbn [ASSERT obind]. unfold desc_of. rewrite Hi, Hd. cbn [access obind].
  rewrite u32_small by (unfold is_u32, ARENA_SIZE, two32 in *; rewrite PGSIZE_eq in *; lia). by rewrite B3.
Qed.

Lemma block_to_arena_big h a ar :
  pages_inv (pages h) (arenas h) -> arenas h !! a = Some ar -> arena_desc ar = None -> block_to_arena h (a + ARENA_SIZE) = Ret a.
Proof.
  intros Hp Ha Hi. destruct (arena_page _ _ _ _ Hp Ha) as (P1 & P2 & P3 & _). destruct (proj1 (proj2 Hp) a ar Ha) as [Hm _].
  assert ((a + ARENA_SIZE) mod PGSIZE = ARENA_SIZE) as Hmod.
  { rewrite PGSIZE_eq in *. rewrite Z.add_mod, P3 by lia. done. }
  unfold block_to_arena. rewrite pg_round_down_eq by (unfold ARENA_SIZE; rewrite PGSIZE_eq in *; lia). rewrite Hmod.
  replace (a + ARENA_SIZE - ARENA_SIZE) with a by lia. rewrite (proj2 (Z.eqb_neq a NULL)) by (unfold NULL; lia). cbn [negb ASSERT obind].
  rewrite Ha. cbn [access obind]. rewrite Hm, Z.eqb_refl. cbn [ASSERT obind]. unfold desc_of. rewrite Hi. cbn [obind].
  by rewrite pg_ofs_mod, Hmod.
Qed.

Lemma arena_to_block_spec h a ar i d k :
  pages_inv (pages h) (arenas h) -> arenas h !! a = Some ar -> arena_desc ar = Some i -> descs h !! i = Some d -> shape d ∈ sizes ->
  0 <= k < blocks_per_arena d -> arena_to_block h a k = Ret (block_at d a k).
Proof.
  intros Hp Ha Hi Hd Hsh Hk. destruct (arena_page _ _ _ _ Hp Ha) as (P1 & P2 & P3 & _). destruct (proj1 (proj2 Hp) a ar Ha) as [Hm _].
  assert (block_at d a k ∈ blocks d a) as Hb by (apply elem_blocks; eauto).
  destruct (block_page d a _ Hsh ltac:(lia) P2 P3 Hb) as (_ & B1 & B2 & _). destruct (shape_facts d Hsh) as (Hbs & _).
  unfold arena_to_block. rewrite (proj2 (Z.eqb_neq a NULL)) by (unfold NULL; lia). cbn [negb ASSERT obind].
  rewrite Ha. cbn [access obind]. rewrite Hm, Z.eqb_refl. cbn [ASSERT obind]. unfold desc_of. rewrite Hi, Hd. cbn [access obind].
  rewrite (proj2 (Z.ltb_lt _ _)) by lia. cbn [ASSERT obind]. unfold block_at in *. rewrite u32_small; [done|].
  unfold is_u32, ARENA_SIZE, two32 in *. rewrite PGSIZE_eq in *. lia.
Qed.

Lemma add_blocks_spec h i d a ar :
  pages_inv (pages h) (arenas h) -> arenas h !! a = Some ar -> arena_desc ar = Some i -> descs h !! i = Some d -> shape d ∈ sizes ->
  add_blocks h i a (blocks_per_arena d) = Ret (with_free_list h i (fun l => l ++ blocks d a)).
Proof.
  intros Hp Ha Hi Hd Hsh. destruct (shape_facts d Hsh) as (_ & Hn & _). unfold add_blocks.
  match goal with |- for_loop _ _ ?f _ = _ =>
    destruct (for_loop_ind (fun k h' => h' = with_free_list h i (fun l => l ++ (block_at d a <$> seqZ 0 k))) f (Z.to_nat (blocks_per_arena d)) 0 h) as (h' & Hr & ->) end.
  - rewrite with_free_list_eq. unfold set_list. rewrite list_alter_id; [by destruct h|]. intros x. simpl. rewrite app_nil_r. by destruct x.
  - intros k h' Hk ->. rewrite with_free_list_eq.
    rewrite (arena_to_block_spec _ a ar i (mkDesc (desc_block_size d) (blocks_per_arena d) (free_list d ++ (block_at d a <$> seqZ 0 k))));
      [|done|done|done| |done|cbn; lia].
    2:{ cbn [descs]. by rewrite (set_list_lookup _ _ _ _ d Hd), decide_True by done. }
    cbn [obind]. eexists. split; [done|]. unfold with_free_list. cbn [pages descs arenas]. f_equal.
    fold (set_list (descs h) i (fun l => l ++ (block_at d a <$> seqZ 0 k))).
    match goal with |- alter _ i ?D = _ => change (set_list D i (fun l => l ++ [block_at d a k]) = set_list (descs h) i (fun l => l ++ (block_at d a <$> seqZ 0 (k + 1)))) end.
    rewrite set_list_compose. apply (set_list_ext _ _ d _ _ Hd). rewrite <- app_assoc. f_equal. rewrite (seqZ_app 0 k 1) by lia. by rewrite fmap_app.
  - rewrite Hr. f_equal. rewrite Z.add_0_l, Z2Nat.id by lia. done.
Qed.

(** Every arena but the one of block [b] has a block in use. *)
Definition tight_but (h : heap) (b : Z) : Prop :=
  forall a ar i d, arenas h !! a = Some ar -> arena_desc ar = Some i -> descs h !! i = Some d -> pg_round_down b <> a ->
    free_cnt ar < blocks_per_arena d.

Lemma new_arena_live h i d a s :
  heap_inv h -> descs h !! i = Some d -> free_list d = [] -> arenas h !! a = None -> (forall b, b ∈ blocks d a -> pg_round_down b = a) ->
  let h' := mkHeap s (set_list (descs h) i (fun l => l ++ blocks d a)) (<[a := mkArena ARENA_MAGIC (Some i) (blocks_per_arena d)]> (arenas h)) in
  forall p n, live h' p n <-> live h p n.
Proof.
  intros (Hp & Hl) Hd Hnil Hno Hbp h' p n. unfold live, h'. cbn [arenas descs]. split.
  - intros (a' & ar & Ha' & Hrest). apply lookup_insert_Some in Ha' as [[<- <-]|[Hne Ha']].
    + cbn [arena_desc] in Hrest. destruct Hrest as (d' & Hd' & Hin & Hno' & _). rewrite (set_list_lookup _ _ _ _ d Hd), decide_True in Hd' by done.
      injection Hd' as <-. cbn [free_list] in Hno'. rewrite Hnil in Hno'. by destruct Hno'.
    + exists a', ar. split; [done|]. destruct (arena_desc ar) as [j|] eqn:Hj; [|done]. destruct Hrest as (d' & Hd' & Hin & Hno' & ->).
      rewrite (set_list_lookup _ _ _ _ d Hd) in Hd'. destruct (decide (j = i)) as [->|]; [|eauto].
      injection Hd' as <-. exists d. split; [done|]. split; [done|]. split; [rewrite Hnil; set_solver|done].
  - intros (a' & ar & Ha' & Hrest). exists a', ar. rewrite lookup_insert_ne by congruence. split; [done|].
    destruct (arena_desc ar) as [j|] eqn:Hj; [|done]. destruct Hrest as (d' & Hd' & Hin & Hno' & ->).
    rewrite (set_list_lookup _ _ _ _ d Hd). destruct (decide (j = i)) as [->|]; [|eauto].
    assert (d' = d) as -> by congruence. eexists. split; [done|]. split; [done|]. split; [|done]. cbn [free_list]. rewrite Hnil, app_nil_l.
    intros Hb%Hbp. destruct (arena_block _ _ _ _ _ _ _ _ Hp Hl Ha' Hd Hin) as (Hr & _). congruence.
Qed.

Lemma new_arena_spec h i d :
  heap_ok h -> descs h !! i = Some d ->
  (new_arena h i d = Ret (false, h) /\ free_list d = [] /\ forall k, ~ free_run (kernel_pool (pages h)) k 1) \/
  (exists h' d' b l, new_arena h i d = Ret (true, h') /\ (free_list d <> [] \/ exists k, free_run (kernel_pool (pages h)) k 1) /\ same_others h h' /\ heap_inv h' /\ descs h' !! i = Some d' /\ shape d' = shape d /\ free_list d' = b :: l /\
     tight_but h' b /\ (forall p n, live h' p n <-> live h p n) /\ memory (pages h') = memory (pages h)).
Proof.
  intros [(Hp & Hl) Ht] Hd. unfold new_arena. destruct (free_list d) as [|b l] eqn:Hfl.
  2:{ right. exists h, d, b, l. split; [done|]. split; [by left|]. do 5 (split; [done|]). split; [intros a ar j dj Ha Hj Hdj _; by eapply Ht|done]. }
  unfold palloc_get_page. pose proof (shape_at _ _ _ _ Hl Hd) as Hsh.
  destruct (get_pages_spec (pages h) 1 (proj1 Hp) ltac:(lia)) as [[-> Hno]|(a & s' & -> & Hrun & Hnn & Hok' & Hown & H1 & H2 & Hf & Hal & Hmem)]; cbn [obind].
  { left. change (NULL =? NULL) with true. split; [by destruct h|done]. }
  right. rewrite (proj2 (Z.eqb_neq a NULL)) by done.
  destruct (pages_inv_get _ _ s' a 1 (mkArena ARENA_MAGIC (Some i) (blocks_per_arena d)) Hp) as [Hp' Hnone]; try done.
  destruct (arena_page _ _ a _ Hp' (lookup_insert_eq _ _ _)) as (P1 & P2 & P3 & _).
  assert (forall b, b ∈ blocks d a -> pg_round_down b = a) as Hbp by (intros b Hb; apply (block_page d a b Hsh ltac:(lia) P2 P3 Hb)).
  rewrite (add_blocks_spec _ i d a (mkArena ARENA_MAGIC (Some i) (blocks_per_arena d))); [|done|apply lookup_insert_eq|done|done|done].
  cbn [obind]. pose proof (shape_facts d Hsh) as (_ & Hn & _).
  destruct (blocks d a) as [|b l] eqn:Hbl; [apply (f_equal length) in Hbl; rewrite length_blocks in Hbl; simpl in Hbl; lia|].
  eexists _, (mkDesc (desc_block_size d) (blocks_per_arena d) (b :: l)), b, l. split; [done|]. unfold with_free_list, with_arenas, with_pages. cbn [pages descs arenas].
  rewrite <- Hbl in Hbp. rewrite <- Hbl. fold (set_list (descs h) i (fun l => l ++ blocks d a)).
  split; [by right|]. split; [by apply (others_get h s' _ a 1)|]. split; [split; [done|by apply (lists_new s')]|]. split; [|split; [done|split; [done|split; [|split; [intros p n; by apply (new_arena_live h i d a s')|done]]]]].
  - cbn [descs]. rewrite (set_list_lookup _ _ _ _ d Hd), decide_True, Hfl by done. by rewrite Hbl.
  - intros a' ar j dj Ha' Hj Hdj Hne. cbn [arenas descs] in *. rewrite (Hbp b) in Hne by (rewrite Hbl; set_solver).
    apply lookup_insert_Some in Ha' as [[<- <-]|[_ Ha']]; [done|]. rewrite (set_list_lookup _ _ _ _ d Hd) in Hdj.
    destruct (decide (j = i)) as [->|]; [|by eapply Ht]. injection Hdj as <-. cbn [blocks_per_arena]. by eapply Ht.
Qed.

(** The blocks in use when the free list of [i] is [l] and only the count of
    the arena [a] differs. *)
Lemma live_update h s i d a ar k l p n :
  arenas h !! a = Some ar -> arena_desc ar = Some i -> descs h !! i = Some d ->
  live (mkHeap s (set_list (descs h) i (fun _ => l)) (<[a := mkArena (magic ar) (arena_desc ar) k]> (arenas h))) p n <->
  exists a' ar', arenas h !! a' = Some ar' /\
    match arena_desc ar' with
    | Some j => exists dj, descs h !! j = Some dj /\ p ∈ blocks dj a' /\ (p ∉ (if decide (j = i) then l else free_list dj)) /\ n = desc_block_size dj
    | None => p = a' + ARENA_SIZE /\ n = PGSIZE * free_cnt ar' - ARENA_SIZE
    end.
Proof.
  intros Ha Hi Hd. unfold live. cbn [arenas descs]. split.
  - intros (a' & ar' & Ha' & Hrest).
    assert (exists br, arenas h !! a' = Some br /\ arena_desc br = arena_desc ar' /\ (arena_desc br = None -> free_cnt br = free_cnt ar')) as (br & Hbr & Hbd & Hbc).
    { apply lookup_insert_Some in Ha' as [[<- <-]|[_ Ha']]; [exists ar; cbn; split; [done|]; split; [done|congruence]|eauto]. }
    exists a', br. split; [done|]. rewrite <- Hbd in Hrest. destruct (arena_desc br) as [j|] eqn:Hj; [|by rewrite Hbc].
    destruct Hrest as (dj & Hdj & Hpj & Hno & ->). rewrite (set_list_lookup _ _ _ _ d Hd) in Hdj.
    destruct (decide (j = i)) as [->|]; [injection Hdj as <-; by exists d|eauto].
  - intros (a' & ar' & Ha' & Hrest). exists a'.
    assert (exists br, <[a := mkArena (magic ar) (arena_desc ar) k]> (arenas h) !! a' = Some br /\
      arena_desc br = arena_desc ar' /\ (arena_desc br = None -> free_cnt br = free_cnt ar')) as (br & Hbr & Hbd & Hbc).
    { destruct (decide (a' = a)) as [->|]; [rewrite lookup_insert_eq|rewrite lookup_insert_ne by done; eauto].
      eexists. split; [done|]. cbn. assert (ar' = ar) as -> by congruence. split; [done|congruence]. }
    exists br. split; [done|]. destruct (arena_desc ar') as [j|] eqn:Hj; rewrite Hbd; [|by rewrite Hbc].
    destruct Hrest as (dj & Hdj & Hpj & Hno & ->). rewrite (set_list_lookup _ _ _ _ d Hd).
    destruct (decide (j = i)) as [->|]; [|eauto]. assert (dj = d) as -> by congruence. by eexists.
Qed.

Lemma take_block_spec h i d b l :
  heap_inv h -> descs h !! i = Some d -> free_list d = b :: l -> tight_but h b ->
  exists h', (let! (b, h) := pop_block h i in let! a := block_to_arena h b in let! h := add_free_cnt h a (-1) in Ret (b, h)) = Ret (b, h') /\
    heap_ok h' /\ same_others h h' /\ b <> NULL /\ (forall n, ~ live h b n) /\
    (forall p n, live h' p n <-> live h p n \/ (p = b /\ n = desc_block_size d)) /\ memory (pages h') = memory (pages h).
Proof.
  intros (Hp & Hl) Hd Hfl Ht. pose proof (shape_at _ _ _ _ Hl Hd) as Hsh. pose proof Hl as (_ & Hf & _).
  destruct (Hf i d Hd) as [Hnd Hfb]. destruct (Hfb b) as (a & ar & Ha & Hi & Hb); [rewrite Hfl; set_solver|].
  destruct (arena_block _ _ _ _ _ _ _ _ Hp Hl Ha Hd Hb) as (Hr & B1 & _). destruct (arena_page _ _ _ _ Hp Ha) as (P1 & _).
  destruct (lists_pop _ _ _ _ _ _ _ _ _ Hp Hl Ha Hi Hd Hfl Hb) as [Hl' Hcnt].
  unfold pop_block. rewrite Hd. cbn [access obind]. rewrite Hfl. cbn [obind].
  rewrite (block_to_arena_small _ a ar i (mkDesc (desc_block_size d) (blocks_per_arena d) l)); [|done|done|done| |done|done].
  2:{ rewrite with_free_list_eq. cbn [descs]. by rewrite (set_list_lookup _ _ _ _ d Hd), decide_True by done. }
  cbn [obind]. unfold add_free_cnt. rewrite with_free_list_eq. cbn [arenas]. rewrite Ha. cbn [access obind]. eexists. split; [done|].
  unfold with_arenas. cbn [pages descs arenas]. split; [|split; [apply (others_update h _ _ a ar); try done; unfold npages; cbn; by rewrite Hi|]].
  2: split; [unfold NULL, ARENA_SIZE in *; lia|split; [|split; [|done]]].
  - split; [split; [apply (pages_inv_update _ _ a ar); try done; [by apply (proj1 (proj2 Hp)) in Ha as [? _]|unfold npages; cbn; by rewrite Hi]|done]|].
    intros a' ar' j dj Ha' Hj Hdj. cbn [arenas descs] in *. destruct (decide (a' = a)) as [->|Hne].
    + rewrite lookup_insert_eq in Ha'. injection Ha' as <-. cbn [free_cnt arena_desc] in *. assert (j = i) as -> by congruence.
      rewrite (set_list_lookup _ _ _ _ d Hd), decide_True in Hdj by done. injection Hdj as <-. cbn [blocks_per_arena].
      pose proof (shape_facts d Hsh). rewrite u32_small by (unfold is_u32, two32; lia). lia.
    + rewrite lookup_insert_ne in Ha' by done. rewrite (set_list_lookup _ _ _ _ d Hd) in Hdj.
      destruct (decide (j = i)) as [->|]; [injection Hdj as <-; cbn [blocks_per_arena]|]; (eapply Ht; [done|done|done|congruence]).
  - intros n (a' & ar' & Ha' & Hrest). destruct (arena_desc ar') as [j|] eqn:Hj.
    + destruct Hrest as (dj & Hdj & Hbj & Hno & _). destruct (arena_block _ _ _ _ _ _ _ _ Hp Hl Ha' Hdj Hbj) as (Hr' & _).
      assert (a' = a) as -> by congruence. assert (j = i) as -> by congruence. assert (dj = d) as -> by congruence. rewrite Hfl in Hno. set_solver.
    + destruct Hrest as [Heq _]. pose proof (block_to_arena_big h a' ar' Hp Ha' Hj) as Hba. rewrite <- Heq in Hba.
      rewrite (block_to_arena_small h a ar i d b Hp Ha Hi Hd Hsh Hb) in Hba. congruence.
  - intros p n. rewrite (live_update h (pages h) i d a ar _ l p n Ha Hi Hd). split.
    + intros (a' & ar' & Ha' & Hrest). destruct (decide (p = b /\ n = desc_block_size d)); [by right|left]. exists a', ar'. split; [done|].
      destruct (arena_desc ar') as [j|]; [|done]. destruct Hrest as (dj & Hdj & Hpj & Hno & ->). exists dj. split; [done|]. split; [done|]. split; [|done].
      destruct (decide (j = i)) as [->|]; [|done]. assert (dj = d) as -> by congruence. rewrite Hfl. set_solver.
    + intros [(a' & ar' & Ha' & Hrest)|[-> ->]].
      * exists a', ar'. split; [done|]. destruct (arena_desc ar') as [j|]; [|done]. destruct Hrest as (dj & Hdj & Hpj & Hno & ->).
        exists dj. split; [done|]. split; [done|]. split; [|done]. destruct (decide (j = i)) as [->|]; [|done].
        assert (dj = d) as -> by congruence. rewrite Hfl in Hno. set_solver.
      * exists a, ar. split; [done|]. rewrite Hi. exists d. rewrite decide_True by done. split; [done|]. split; [done|]. split; [|done].
        rewrite Hfl in Hnd. by inversion Hnd.
Qed.

Lemma find_desc_spec ds k size :
  match find_desc ds k size with
  | Some i => exists d, ds !! (i - k)%nat = Some d /\ (k <= i)%nat /\ size <= desc_block_size d
  | None => forall d, d ∈ ds -> desc_block_size d < size
  end.
Proof.
  revert k. induction ds as [|d ds IH]; intros k; simpl; [set_solver|]. destruct (Z.leb_spec size (desc_block_size d)).
  - exists d. rewrite Nat.sub_diag. split; [done|]. split; [lia|done].
  - specialize (IH (S k)). destruct (find_desc ds (S k) size) as [i|].
    + destruct IH as (d' & Hd' & Hk & Hs). exists d'. replace (i - k)%nat with (S (i - S k)) by lia. split; [done|]. split; [lia|done].
    + intros d' [->|Hd']%elem_of_cons; [lia|auto].
Qed.

(** The pages that [malloc (size)] needs at once. *)
Definition pages_needed (h : heap) (size : Z) : Z :=
  match find_desc (descs h) 0 size with Some _ => 1 | None => (size + ARENA_SIZE + PGSIZE - 1) / PGSIZE end.

Lemma big_live h s a n :
  arenas h !! a = None ->
  forall p k, live (mkHeap s (descs h) (<[a := mkArena ARENA_MAGIC None n]> (arenas h))) p k <->
    live h p k \/ (p = a + ARENA_SIZE /\ k = PGSIZE * n - ARENA_SIZE).
Proof.
  intros Hno p k. unfold live. cbn [arenas descs]. split.
  - intros (a' & ar & Ha' & Hrest). apply lookup_insert_Some in Ha' as [[<- <-]|[Hne Ha']]; [by right|left; eauto].
  - intros [(a' & ar & Ha' & Hrest)|[-> ->]].
    + exists a', ar. rewrite lookup_insert_ne by congruence. done.
    + exists a. eexists. rewrite lookup_insert_eq. done.
Qed.

(** A block in use at [a + ARENA_SIZE] belongs to the arena at [a]. *)
Lemma live_arena h p n :
  heap_inv h -> live h p n -> exists a ar, arenas h !! a = Some ar /\ block_to_arena h p = Ret a /\ a + ARENA_SIZE <= p /\ p + n <= a + PGSIZE * npages ar /\ 0 < n.
Proof.
  intros (Hp & Hl) (a & ar & Ha & Hrest). exists a, ar. split; [done|]. destruct (arena_page _ _ _ _ Hp Ha) as (P1 & P2 & P3 & P4 & _). unfold npages in *.
  destruct (arena_desc ar) as [i|] eqn:Hi.
  - destruct Hrest as (d & Hd & Hb & _ & ->). pose proof (shape_at _ _ _ _ Hl Hd) as Hsh. destruct (shape_facts d Hsh) as (Hs & _).
    destruct (arena_block _ _ _ _ _ _ _ _ Hp Hl Ha Hd Hb) as (_ & B1 & B2 & _).
    split; [by apply (block_to_arena_small h a ar i d)|lia].
  - destruct Hrest as [-> ->]. split; [by apply (block_to_arena_big h a ar)|]. unfold ARENA_SIZE. rewrite PGSIZE_eq in *. lia.
Qed.

(** A request for whole pages. *)
Lemma big_block_spec h n :
  heap_ok h -> 0 < n ->
  (palloc_get_multiple 0 n (pages h) = Ret (NULL, pages h) /\ forall k, ~ free_run (kernel_pool (pages h)) k n) \/
  (exists a s', palloc_get_multiple 0 n (pages h) = Ret (a, s') /\ (exists k, free_run (kernel_pool (pages h)) k n) /\ a <> NULL /\
     let h' := mkHeap s' (descs h) (<[a := mkArena ARENA_MAGIC None n]> (arenas h)) in
     heap_ok h' /\ same_others h h' /\ a + ARENA_SIZE <> NULL /\ (forall k, ~ live h (a + ARENA_SIZE) k) /\
     (forall q k, live h' q k <-> live h q k \/ (q = a + ARENA_SIZE /\ k = PGSIZE * n - ARENA_SIZE)) /\ memory s' = memory (pages h)).
Proof.
  intros [(Hp & Hl) Ht] Hn.
  destruct (get_pages_spec (pages h) n (proj1 Hp) Hn) as [[-> Hno]|(a & s' & -> & Hrun & Hnn & Hok' & Hown & H1 & H2 & Hf & Hal & Hmem)]; [by left|right].
  exists a, s'. do 3 (split; [done|]). cbv zeta.
  destruct (pages_inv_get _ _ s' a n (mkArena ARENA_MAGIC None n) Hp) as [Hp' Hnone]; try done.
  destruct (arena_page _ _ a _ Hp' (lookup_insert_eq _ _ _)) as (P1 & _).
  split; [split; [split; [done|by apply lists_big]|]|split; [by apply (others_get h s' _ a n)|split; [unfold NULL, ARENA_SIZE; lia|]]].
  { intros a' ar j dj Ha' Hj Hdj. cbn [arenas descs] in *. apply lookup_insert_Some in Ha' as [[<- <-]|[_ Ha']]; [done|by eapply Ht]. }
  split; [|split; [intros q k; by apply big_live|done]]. intros k Hk. destruct (live_arena h _ k (conj Hp Hl) Hk) as (a' & ar & Ha' & Hba & B1 & B2 & B3).
  destruct (proj2 (proj2 Hp') a (mkArena ARENA_MAGIC None n) a' ar) as [Hd|Hd]; [apply lookup_insert_eq| |congruence|..].
  { rewrite lookup_insert_ne; [done|congruence]. }
  { unfold npages in Hd. cbn in Hd. unfold ARENA_SIZE in *. rewrite PGSIZE_eq in *. lia. }
  { unfold ARENA_SIZE in *. lia. }
Qed.

(** The number of pages, which wraps to zero for the largest requests. *)
Lemma page_cnt_spec size :
  0 < size <= two32 - ARENA_SIZE ->
  let n := (size + ARENA_SIZE + PGSIZE - 1) / PGSIZE in
  let page_cnt := DIV_ROUND_UP (u32 (size + ARENA_SIZE)) PGSIZE in
  0 < n /\ size + ARENA_SIZE <= PGSIZE * n /\ (page_cnt = n \/ (page_cnt = 0 /\ 1048576 <= n)).
Proof.
  intros Hsz n page_cnt. unfold n, page_cnt, DIV_ROUND_UP, u32, two32, ARENA_SIZE in *. rewrite PGSIZE_eq in *. clear n page_cnt.
  pose proof (Z.div_mod (size + 12 + 4096 - 1) 4096 ltac:(lia)). pose proof (Z.mod_pos_bound (size + 12 + 4096 - 1) 4096 ltac:(lia)).
  split; [apply Z.div_str_pos; lia|]. split; [lia|].
  assert (size + 12 + 4095 < 4294967296 \/ 4294967296 <= size + 12 + 4095) as [Hs|Hw] by lia.
  - left. rewrite (Z.mod_small (size + 12)), Z.mod_small by lia. done.
  - right. split; [|apply Z.div_le_lower_bound; lia]. destruct (decide (size = 4294967284)) as [->|]; [done|].
    rewrite (Z.mod_small (size + 12)) by lia. replace (size + 12 + 4096 - 1) with (size + 12 + 4095 - 4294967296 + 1 * 4294967296) by lia.
    rewrite Z.mod_add by lia. rewrite Z.mod_small by lia. apply Z.div_small. lia.
Qed.

(** There is a free block of the smallest size that fits. *)
Definition spare (h : heap) (size : Z) : Prop :=
  exists i d, find_desc (descs h) 0 size = Some i /\ descs h !! i = Some d /\ free_list d <> [].

(** No block for a request: there is neither a free block nor a run of pages
    to make one of. *)
Definition exhausted (h : heap) (size : Z) : Prop :=
  ~ spare h size /\ forall k, ~ free_run (kernel_pool (pages h)) k (pages_needed h size).

Lemma malloc_spec h size :
  heap_ok h -> 0 <= size <= two32 - ARENA_SIZE ->
  (malloc size h = Ret (NULL, h) /\ (size = 0 \/ exhausted h size)) \/
  (exists p h' n, malloc size h = Ret (p, h') /\ ~ exhausted h size /\ same_others h h' /\ p <> NULL /\ 0 < size <= n /\ heap_ok h' /\
     (forall k, ~ live h p k) /\ (forall q k, live h' q k <-> live h q k \/ (q = p /\ k = n)) /\ memory (pages h') = memory (pages h)).
Proof.
  intros Hok Hsz. pose proof Hok as [(Hp & Hl) Ht]. unfold malloc, exhausted, spare, pages_needed.
  destruct (Z.eqb_spec size 0) as [->|Hnz]; [left; by split; [|left]|].
  pose proof (find_desc_spec (descs h) 0 size) as Hfd. destruct (find_desc (descs h) 0 size) as [i|].
  - destruct Hfd as (d & Hd & _ & Hle). rewrite Nat.sub_0_r in Hd. rewrite Hd. cbn [access obind].
    destruct (new_arena_spec h i d Hok Hd) as [(-> & Hnil & Hno)|(h1 & d' & b & l & -> & Hroom & Hoth & Hinv & Hd' & Hsh & Hfl & Htb & Hlive & Hmem)]; cbn [obind negb].
    { left. split; [done|]. right. split; [|done]. intros (j & dj & [= <-] & Hdj & Hne). congruence. }
    right. destruct (take_block_spec h1 i d' b l Hinv Hd' Hfl Htb) as (h2 & -> & Hok2 & Hoth2 & Hnn & Hfresh & Hlive2 & Hmem2).
    exists b, h2, (desc_block_size d'). injection Hsh as Hbs _. split; [done|].
    split; [intros [Hs Hr]; destruct Hroom as [?|[k ?]]; [apply Hs; by exists i, d|by apply (Hr k)]|]. split; [by rewrite Hoth|].
    split; [done|]. split; [lia|]. split; [done|].
    split; [intros k Hk; apply (Hfresh k); by apply Hlive|]. split; [|congruence]. intros q k. rewrite Hlive2, Hlive. done.
  - assert (~ exists i d, None = Some i /\ descs h !! i = Some d /\ free_list d <> []) as Hns by (by intros (? & ? & ? & _)).
    destruct (page_cnt_spec size ltac:(lia)) as (Hn & Hfit & [-> |[-> Hbig]]).
    + destruct (big_block_spec h _ Hok Hn) as [[-> Hno]|(a & s' & -> & [k Hrun] & Hnn & Hok' & Hoth & Hnn' & Hfresh & Hlive & Hmem)]; cbn [obind].
      { left. change (NULL =? NULL) with true. split; [by destruct h|by right]. }
      right. rewrite (proj2 (Z.eqb_neq a NULL)) by done. eexists _, _, _. split; [done|]. split; [intros [_ Hr]; by apply (Hr k)|]. split; [done|].
      split; [done|]. split; [|split; [done|]]; [|by split]. lia.
    + left. split; [unfold palloc_get_multiple; cbn [Z.eqb obind]; change (NULL =? NULL) with true; cbv iota; by destruct h|].
      right. split; [done|]. intros k (Hk & Hkn & _). destruct (pool_bounds _ (proj1 Hp)) as [Hb0 Hb1].
      unfold pool_start, pool_limit, pool_end, two32 in *. rewrite PGSIZE_eq in *. lia.
Qed.

(** ** Freeing *)

(** The arena of a block. *)
Lemma block_arena h c cr r :
  heap_inv h -> arenas h !! c = Some cr ->
  match arena_desc cr with Some i => exists d, descs h !! i = Some d /\ r ∈ blocks d c | None => r = c + ARENA_SIZE end ->
  block_to_arena h r = Ret c.
Proof.
  intros (Hp & Hl) Hc Hr. destruct (arena_desc cr) as [i|] eqn:Hi.
  - destruct Hr as (d & Hd & Hr). apply (block_to_arena_small h c cr i d); try done. by eapply shape_at.
  - subst r. by apply (block_to_arena_big h c cr).
Qed.

Lemma live_block h p n a ar :
  heap_inv h -> live h p n -> block_to_arena h p = Ret a -> arenas h !! a = Some ar ->
  match arena_desc ar with
  | Some i => exists d, descs h !! i = Some d /\ p ∈ blocks d a /\ (p ∉ free_list d) /\ n = desc_block_size d
  | None => p = a + ARENA_SIZE /\ n = PGSIZE * free_cnt ar - ARENA_SIZE
  end.
Proof.
  intros Hinv (c & cr & Hc & Hrest) Hpa Ha.
  assert (block_to_arena h p = Ret c) as Hpc.
  { apply (block_arena h c cr); [done|done|]. destruct (arena_desc cr); [destruct Hrest as (d & ? & ? & _); eauto|by destruct Hrest]. }
  assert (c = a) as -> by congruence. by assert (cr = ar) as -> by congruence.
Qed.

(** Blocks in use do not overlap. *)
Lemma live_disjoint h p n q k :
  heap_inv h -> live h p n -> live h q k -> p <> q -> p + n <= q \/ q + k <= p.
Proof.
  intros Hinv Hp Hq Hne. pose proof Hinv as (Hpg & Hl).
  destruct (live_arena h p n Hinv Hp) as (a & ar & Ha & Hpa & A1 & A2 & A3). destruct (live_arena h q k Hinv Hq) as (b & br & Hb & Hqb & B1 & B2 & B3).
  destruct (decide (a = b)) as [<-|Hab]; [|destruct (proj2 (proj2 Hpg) a ar b br Ha Hb Hab); unfold ARENA_SIZE in *; lia].
  assert (br = ar) as -> by congruence.
  pose proof (live_block h p n a ar Hinv Hp Hpa Ha) as Hp'. pose proof (live_block h q k a ar Hinv Hq Hqb Ha) as Hq'.
  destruct (arena_desc ar) as [i|]; [|destruct Hp', Hq'; congruence].
  destruct Hp' as (d & Hd & (x & Hx & ->)%elem_blocks & _ & ->). destruct Hq' as (d' & Hd' & (y & Hy & ->)%elem_blocks & _ & ->).
  assert (d' = d) as -> by congruence. unfold block_at in *. assert (x <> y) by (intros ->; done).
  assert (x < y \/ y < x) as [|] by lia; [left|right]; nia.
Qed.

Lemma filter_ext_in {A} (P Q : A -> Prop) `{!forall x, Decision (P x), !forall x, Decision (Q x)} (l : list A) :
  (forall x, x ∈ l -> P x <-> Q x) -> filter P l = filter Q l.
Proof.
  induction l as [|x l IH]; intros Hx; [done|]. rewrite !filter_cons, IH by set_solver.
  destruct (decide (P x)), (decide (Q x)); try done; exfalso; naive_solver set_solver.
Qed.

Lemma remove_blocks_spec h i d a ar :
  pages_inv (pages h) (arenas h) -> lists_inv (descs h) (arenas h) -> arenas h !! a = Some ar -> arena_desc ar = Some i -> descs h !! i = Some d ->
  (forall b, b ∈ blocks d a -> b ∈ free_list d) ->
  remove_blocks h i a (blocks_per_arena d) = Ret (with_free_list h i (filter (fun b => pg_round_down b <> a))).
Proof.
  intros Hp Hl Ha Hi Hd Hall. pose proof (shape_at _ _ _ _ Hl Hd) as Hsh. destruct (shape_facts d Hsh) as (Hbs & Hn & _). unfold remove_blocks.
  match goal with |- for_loop _ _ ?f _ = _ =>
    destruct (for_loop_ind (fun k h' => h' = with_free_list h i (filter (fun b => b ∉ (block_at d a <$> seqZ 0 k)))) f (Z.to_nat (blocks_per_arena d)) 0 h) as (h' & Hr & ->) end.
  - rewrite with_free_list_eq. unfold set_list. rewrite list_alter_id; [by destruct h|]. intros [bs n fl]. simpl. f_equal.
    induction fl as [|x fl IH]; [done|]. rewrite filter_cons, decide_True, IH by set_solver. done.
  - intros k h' Hk ->. rewrite with_free_list_eq.
    set (d' := mkDesc (desc_block_size d) (blocks_per_arena d) (filter (fun b => b ∉ (block_at d a <$> seqZ 0 k)) (free_list d))).
    assert (set_list (descs h) i (filter (fun b => b ∉ (block_at d a <$> seqZ 0 k))) !! i = Some d') as Hd'
      by (by rewrite (set_list_lookup _ _ _ _ d Hd), decide_True by done).
    rewrite (arena_to_block_spec _ a ar i d'); [|done|done|done|done|done|cbn; lia]. cbn [obind]. unfold remove_block. cbn [descs]. rewrite Hd'. cbn [access obind].
    rewrite bool_decide_true.
    2:{ apply list_elem_of_filter. split; [|apply Hall, elem_blocks; exists k; split; [lia|done]].
        intros (j & Hj & Hjk)%list_elem_of_fmap. apply elem_of_seqZ in Hjk. change (block_at d' a k) with (block_at d a k) in Hj. unfold block_at in Hj. nia. }
    eexists. split; [done|]. rewrite with_free_list_eq. cbn [pages descs arenas]. rewrite with_free_list_eq. f_equal. rewrite set_list_compose.
    apply (set_list_ext _ _ d _ _ Hd). rewrite list_filter_filter. apply filter_ext_in. intros x _. rewrite (seqZ_app 0 k 1), fmap_app by lia. simpl.
    change (block_at d' a k) with (block_at d a k). rewrite Z.add_0_l. set_solver.
  - rewrite Hr. f_equal. rewrite Z.add_0_l, Z2Nat.id by lia. rewrite !with_free_list_eq. f_equal. apply (set_list_ext _ _ d _ _ Hd).
    fold (blocks d a). apply filter_ext_in. intros x Hx. split; intros Hx' Hno; apply Hx'.
    + by destruct (free_block_at _ _ _ _ _ _ _ Hp Hl Hd Hx Hno) as (_ & _ & _ & ?).
    + by destruct (arena_block _ _ _ _ _ _ _ _ Hp Hl Ha Hd Hno) as (? & _).
Qed.

(** The blocks in use when an arena without such blocks is given back. *)
Lemma drop_live h s i d a ar :
  heap_inv h -> arenas h !! a = Some ar -> arena_desc ar = Some i -> descs h !! i = Some d -> (forall b, b ∈ blocks d a -> b ∈ free_list d) ->
  forall p n, live (mkHeap s (set_list (descs h) i (filter (fun b => pg_round_down b <> a))) (delete a (arenas h))) p n <-> live h p n.
Proof.
  intros (Hp & Hl) Ha Hi Hd Hall p n. unfold live. cbn [arenas descs]. split.
  - intros (c & cr & [Hne Hc]%lookup_delete_Some & Hrest). exists c, cr. split; [done|]. destruct (arena_desc cr) as [j|]; [|done].
    destruct Hrest as (dj & Hdj & Hb & Hno & ->). rewrite (set_list_lookup _ _ _ _ d Hd) in Hdj. destruct (decide (j = i)) as [->|]; [|eauto].
    injection Hdj as <-. exists d. split; [done|]. split; [done|]. split; [|done]. cbn [free_list] in Hno. intros Hin. apply Hno.
    apply list_elem_of_filter. split; [|done]. change (p ∈ blocks d c) in Hb. destruct (arena_block _ _ _ _ _ _ _ _ Hp Hl Hc Hd Hb) as (-> & _). congruence.
  - intros (c & cr & Hc & Hrest). assert (c <> a) as Hne.
    { intros ->. assert (cr = ar) as -> by congruence. rewrite Hi in Hrest. destruct Hrest as (d' & Hd' & Hb & Hno & _).
      assert (d' = d) as -> by congruence. auto. }
    exists c, cr. rewrite lookup_delete_ne by done. split; [done|]. destruct (arena_desc cr) as [j|]; [|done].
    destruct Hrest as (dj & Hdj & Hb & Hno & ->). rewrite (set_list_lookup _ _ _ _ d Hd). destruct (decide (j = i)) as [->|]; [|eauto].
    assert (dj = d) as -> by congruence. eexists. split; [done|]. split; [done|]. split; [|done]. cbn [free_list].
    intros [_ Hin]%list_elem_of_filter. done.
Qed.

Definition keeps (h h' : heap) : Prop :=
  forall q k x, live h' q k -> q <= x < q + k -> memory (pages h') x = memory (pages h) x.

Lemma fill_outside m dst v n x : x < dst \/ dst + n <= x -> fill m dst v n x = m x.
Proof. intros H. unfold fill. by destruct (Z.leb_spec dst x), (Z.ltb_spec x (dst + n)); cbn [andb]; try lia. Qed.

(** Giving back the pages of an arena. *)
Lemma give_arena h a ar D :
  heap_inv h -> arenas h !! a = Some ar -> lists_inv D (delete a (arenas h)) ->
  exists s', free_pages (mkHeap (pages h) D (arenas h)) a (npages ar) = Ret (mkHeap s' D (delete a (arenas h))) /\
    heap_inv (mkHeap s' D (delete a (arenas h))) /\ keeps h (mkHeap s' D (delete a (arenas h))) /\ same_others h (mkHeap s' D (delete a (arenas h))).
Proof.
  intros (Hp & Hl) Ha HD. destruct (proj1 (proj2 Hp) a ar Ha) as [_ Hown].
  destruct (give_pages_spec (pages h) a (npages ar) (proj1 Hp) Hown) as (s' & Hr & Hok' & H1 & H2 & Hal & Hmem).
  exists s'. unfold free_pages. cbn [pages]. rewrite Hr. cbn [obind]. split; [done|].
  assert (heap_inv (mkHeap s' D (delete a (arenas h)))) as Hinv by (split; [by apply (pages_inv_give (pages h) _ s' a ar)|done]).
  split; [done|]. split; [|by apply (others_give h s' D a ar)]. intros q k x Hq Hx. destruct (live_arena _ q k Hinv Hq) as (c & cr & Hc & _ & C1 & C2 & _).
  cbn [arenas pages] in *. apply lookup_delete_Some in Hc as [Hne Hc]. rewrite Hmem. apply fill_outside.
  destruct (proj2 (proj2 Hp) a ar c cr Ha Hc Hne); unfold ARENA_SIZE in *; lia.
Qed.

Lemma free_big h p n a ar :
  heap_ok h -> live h p n -> block_to_arena h p = Ret a -> arenas h !! a = Some ar -> arena_desc ar = None ->
  exists h', free_pages h a (free_cnt ar) = Ret h' /\ heap_ok h' /\ (forall q k, live h' q k <-> live h q k /\ q <> p) /\ keeps h h' /\ same_others h h'.
Proof.
  intros [Hinv Ht] Hlive Hpa Ha Hi. pose proof Hinv as (Hp & Hl). pose proof (live_block _ _ _ _ _ Hinv Hlive Hpa Ha) as Hb. rewrite Hi in Hb. destruct Hb as [-> _].
  destruct (give_arena h a ar (descs h) Hinv Ha) as (s' & Hr & Hinv' & Hk & Ho); [by apply (lists_big_free _ _ a ar)|].
  unfold npages in Hr. rewrite Hi in Hr. replace (mkHeap (pages h) (descs h) (arenas h)) with h in Hr by (by destruct h).
  eexists. split; [exact Hr|]. split; [split; [done|]|split; [|done]].
  - intros c cr j dj. cbn [arenas descs]. rewrite lookup_delete_Some. intros [_ Hc]. by eapply Ht.
  - intros q k. split.
    + intros Hq. pose proof Hq as (c & cr & Hc & Hrest). cbn [arenas descs] in *. apply lookup_delete_Some in Hc as [Hne Hc]. split; [by exists c, cr|].
      intros ->. assert (block_to_arena h (a + ARENA_SIZE) = Ret c) as Hcc; [|congruence].
      apply (block_arena h c cr); [done|done|]. destruct (arena_desc cr); [destruct Hrest as (d & ? & ? & _); eauto|by destruct Hrest].
    + intros [(c & cr & Hc & Hrest) Hne]. exists c, cr. cbn [arenas descs]. rewrite lookup_delete_ne; [done|].
      intros <-. assert (cr = ar) as -> by congruence. rewrite Hi in Hrest. destruct Hrest. congruence.
Qed.

(** A block that joins the free list of its arena. *)
Lemma push_block_spec h p n a ar i d :
  heap_inv h -> live h p n -> block_to_arena h p = Ret a -> arenas h !! a = Some ar -> arena_desc ar = Some i -> descs h !! i = Some d ->
  let h1 := mkHeap (mkPalloc (kernel_pool (pages h)) (user_pool (pages h)) (fill (memory (pages h)) p 204 (desc_block_size d)))
              (set_list (descs h) i (cons p)) (<[a := mkArena (magic ar) (arena_desc ar) (u32 (free_cnt ar + 1))]> (arenas h)) in
  heap_inv h1 /\ same_others h h1 /\ (forall q k, live h1 q k <-> live h q k /\ q <> p) /\ keeps h h1 /\
  u32 (free_cnt ar + 1) = free_cnt ar + 1 /\ free_cnt ar < blocks_per_arena d.
Proof.
  intros Hinv Hlive Hpa Ha Hi Hd h1. pose proof Hinv as (Hp & Hl). pose proof (live_block _ _ _ _ _ Hinv Hlive Hpa Ha) as Hb. rewrite Hi in Hb.
  destruct Hb as (d' & Hd' & Hb & Hnb & ->). assert (d' = d) as -> by congruence.
  destruct (lists_push _ _ _ _ _ _ _ _ Hp Hl Ha Hi Hd Hb Hnb) as (Hl1 & Hu & Hlt).
  assert (heap_inv h1) as Hinv1.
  { split; [|done]. cbn. apply (pages_inv_update _ _ a ar); [exact Hp|done|by apply (proj1 (proj2 Hp)) in Ha as [? _]|unfold npages; cbn; by rewrite Hi]. }
  assert (forall q k, live h1 q k <-> live h q k /\ q <> p) as Hlv.
  { intros q k. unfold h1. rewrite (set_list_ext (descs h) i d (cons p) (fun _ => p :: free_list d) Hd eq_refl).
    rewrite (live_update h _ i d a ar _ (p :: free_list d) q k Ha Hi Hd). split.
    - intros (c & cr & Hc & Hrest). split.
      + exists c, cr. split; [done|]. destruct (arena_desc cr) as [j|]; [|done]. destruct Hrest as (dj & Hdj & Hqb & Hno & ->).
        exists dj. split; [done|]. split; [done|]. split; [|done]. destruct (decide (j = i)) as [->|]; [|done]. assert (dj = d) as -> by congruence. set_solver.
      + intros ->. assert (block_to_arena h p = Ret c) as Hpc.
        { apply (block_arena h c cr); [done|done|]. destruct (arena_desc cr); [destruct Hrest as (dj & ? & ? & _); eauto|by destruct Hrest]. }
        assert (c = a) as -> by congruence. assert (cr = ar) as -> by congruence. rewrite Hi in Hrest. destruct Hrest as (dj & _ & _ & Hno & _).
        rewrite decide_True in Hno by done. set_solver.
    - intros [(c & cr & Hc & Hrest) Hne]. exists c, cr. split; [done|]. destruct (arena_desc cr) as [j|]; [|done].
      destruct Hrest as (dj & Hdj & Hqb & Hno & ->). exists dj. split; [done|]. split; [done|]. split; [|done].
      destruct (decide (j = i)) as [->|]; [|done]. assert (dj = d) as -> by congruence. set_solver. }
  split; [done|]. split; [apply (others_update h _ _ a ar); try done; unfold npages; cbn; by rewrite Hi|].
  split; [done|]. split; [|done]. intros q k x Hq Hx. apply Hlv in Hq as [Hq Hne]. cbn [pages memory h1]. apply fill_outside.
  destruct (live_disjoint h q k p (desc_block_size d) Hinv Hq Hlive Hne); lia.
Qed.

Lemma free_spec h p n :
  heap_ok h -> live h p n ->
  exists h', free p h = Ret h' /\ heap_ok h' /\ (forall q k, live h' q k <-> live h q k /\ q <> p) /\ keeps h h' /\ same_others h h'.
Proof.
  intros Hok Hlive. pose proof Hok as [Hinv Ht]. destruct (live_arena h p n Hinv Hlive) as (a & ar & Ha & Hpa & Hap & _).
  destruct (arena_page _ _ _ _ (proj1 Hinv) Ha) as (P1 & _). unfold free. rewrite (proj2 (Z.eqb_neq p NULL)) by (unfold NULL, ARENA_SIZE in *; lia).
  rewrite Hpa. cbn [obind]. rewrite Ha. cbn [access obind]. destruct (arena_desc ar) as [i|] eqn:Hi; [|by apply (free_big h p n a ar)].
  pose proof (live_block _ _ _ _ _ Hinv Hlive Hpa Ha) as Hb. rewrite Hi in Hb. destruct Hb as (d & Hd & Hb & Hnb & ->).
  rewrite Hd. cbn [access obind]. unfold add_free_cnt. rewrite with_free_list_eq. unfold with_memory, with_pages, with_arenas. cbn [pages descs arenas]. rewrite Ha. cbn [access obind].
  cbn [arenas]. rewrite lookup_insert_eq. cbn [access obind free_cnt].
  destruct (push_block_spec h p (desc_block_size d) a ar i d Hinv Hlive Hpa Ha Hi Hd) as (Hinv1 & Ho1 & Hlv & Hk & Hu & Hlt). cbv zeta in *. rewrite Hi in *.
  match type of Hinv1 with heap_inv ?H => set (h1 := H) in * end.
  assert (arenas h1 !! a = Some (mkArena (magic ar) (Some i) (u32 (free_cnt ar + 1)))) as Ha1 by apply lookup_insert_eq.
  set (d1 := mkDesc (desc_block_size d) (blocks_per_arena d) (p :: free_list d)).
  assert (descs h1 !! i = Some d1) as Hd1 by (cbn; by rewrite (set_list_lookup _ _ _ _ d Hd), decide_True by done).
  assert (forall c cr j dj, c <> a -> arenas h1 !! c = Some cr -> arena_desc cr = Some j -> descs h1 !! j = Some dj -> free_cnt cr < blocks_per_arena dj) as Ht1.
  { intros c cr j dj Hne Hc Hj Hdj. cbn [arenas descs h1] in *. rewrite lookup_insert_ne in Hc by done. rewrite (set_list_lookup _ _ _ _ d Hd) in Hdj.
    destruct (decide (j = i)) as [->|]; [injection Hdj as <-; cbn [blocks_per_arena]; by eapply Ht|by eapply Ht]. }
  destruct (Z.leb_spec (blocks_per_arena d) (u32 (free_cnt ar + 1))) as [Hfull|Hnot].
  2:{ exists h1. split; [done|]. split; [split; [done|]|done]. intros c cr j dj Hc Hj Hdj. destruct (decide (c = a)) as [->|]; [|by eapply Ht1].
      assert (cr = mkArena (magic ar) (Some i) (u32 (free_cnt ar + 1))) as -> by congruence. injection Hj as <-. assert (dj = d1) as -> by congruence. done. }
  rewrite (proj2 (Z.eqb_eq _ _)) by lia. cbn [ASSERT obind].
  assert (forall b, b ∈ blocks d1 a -> b ∈ free_list d1) as Hall.
  { destruct Hinv1 as (Hp1 & Hl1). pose proof Hl1 as (_ & Hf1 & Hc1). destruct (Hc1 a _ i Ha1 eq_refl) as (d' & Hd' & Hcnt). assert (d' = d1) as -> by congruence.
    apply (count_bound _ _ _ a _ i d1 (free_list d1) Hp1 Hl1 Ha1 Hd1 (proj1 (Hf1 i d1 Hd1))); [|cbn [free_cnt blocks_per_arena d1] in *; lia].
    intros b Hb' Hba. by destruct (free_block_at _ _ _ _ _ _ _ Hp1 Hl1 Hd1 Hb' Hba) as (_ & _ & _ & ?). }
  change (blocks_per_arena d) with (blocks_per_arena d1). rewrite (remove_blocks_spec h1 i d1 a _ (proj1 Hinv1) (proj2 Hinv1) Ha1 eq_refl Hd1 Hall). cbn [obind].
  destruct (give_arena h1 a _ (set_list (descs h1) i (filter (fun b => pg_round_down b <> a))) Hinv1 Ha1) as (s' & Hr & Hinv2 & Hk2 & Ho2).
  { by apply (lists_drop _ _ _ i d1 a _ (proj1 Hinv1) (proj2 Hinv1) Ha1). }
  rewrite with_free_list_eq. change (npages _) with 1 in Hr. rewrite Hr. eexists. split; [done|].
  pose proof (drop_live h1 s' i d1 a _ Hinv1 Ha1 eq_refl Hd1 Hall) as Hlv2. split; [split; [done|]|split; [|split; [|by rewrite Ho1]]].
  - intros c cr j dj. cbn [arenas descs]. rewrite lookup_delete_Some. intros [Hne Hc] Hj Hdj. rewrite (set_list_lookup _ _ _ _ d1 Hd1) in Hdj.
    destruct (decide (j = i)) as [->|]; [injection Hdj as <-; by apply (Ht1 c cr i d1 ltac:(congruence))|by apply (Ht1 c cr j dj ltac:(congruence))].
  - intros q k. by rewrite Hlv2.
  - intros q k x Hq Hx. rewrite (Hk2 q k x Hq Hx). apply (Hk q k x); [by apply Hlv2|done].
Qed.

(** ** Theorems *)

Lemma malloc_init_ok s h : palloc_ok s -> malloc_init s = Ret h -> heap_ok h /\ forall p n, ~ live h p n.
Proof.
  intros Hok Hr. destruct (malloc_init_spec s) as (h' & Hr' & Hp & Hs & Ha & Hnil). assert (h' = h) as -> by congruence.
  split; [split; [split|]|].
  - rewrite Hp, Ha. split; [done|]. split; intros a ar; rewrite lookup_empty; done.
  - rewrite Ha. split; [done|]. split.
    + intros i d Hd%list_elem_of_lookup_2%Hnil. rewrite Hd. split; [constructor|set_solver].
    + intros a ar i. by rewrite lookup_empty.
  - intros a ar i d. by rewrite Ha, lookup_empty.
  - intros p n (a & ar & Ha' & _). by rewrite Ha, lookup_empty in Ha'.
Qed.

(** The bytes of a block in use belong to pages that are in use. *)
Lemma live_allocated h p n x : heap_inv h -> live h p n -> p <= x < p + n -> allocated (pages h) x = true.
Proof.
  intros Hinv Hlive Hx. destruct (live_arena h p n Hinv Hlive) as (a & ar & Ha & _ & A1 & A2 & _).
  destruct (proj1 (proj2 (proj1 Hinv)) a ar Ha) as (_ & _ & _ & _ & _ & Hal). apply Hal, in_pages_iff. unfold ARENA_SIZE in A1. lia.
Qed.

(** The address [x] is in one of the pages on which a block of [n] bytes at
    [p] lies. *)
Definition covers (p n x : Z) : Prop := p / PGSIZE <= x / PGSIZE <= (p + n - 1) / PGSIZE.

Lemma page_between a x n : a mod PGSIZE = 0 -> a / PGSIZE <= x / PGSIZE < a / PGSIZE + n <-> a <= x < a + PGSIZE * n.
Proof.
  rewrite PGSIZE_eq. intros Ha. pose proof (Z.div_mod a 4096 ltac:(lia)). pose proof (Z.div_mod x 4096 ltac:(lia)).
  pose proof (Z.mod_pos_bound x 4096 ltac:(lia)). lia.
Qed.

(** A block covers the pages of its arena. *)
Lemma covers_arena h p n a ar x :
  heap_inv h -> live h p n -> arenas h !! a = Some ar -> block_to_arena h p = Ret a -> covers p n x <-> in_pages a (npages ar) x = true.
Proof.
  intros Hinv Hlive Ha Hpa. pose proof (live_block h p n a ar Hinv Hlive Hpa Ha) as Hb. pose proof Hinv as (Hp & Hl).
  destruct (arena_page _ _ _ _ Hp Ha) as (P1 & P2 & P3 & P4 & _). rewrite in_pages_iff, <- page_between by done. unfold covers, npages in *.
  assert (p / PGSIZE = a / PGSIZE /\ (p + n - 1) / PGSIZE = a / PGSIZE + npages ar - 1) as [-> ->]; [|unfold npages; lia].
  pose proof (Z.div_mod a PGSIZE ltac:(done)) as Hdm. rewrite P3 in Hdm. unfold npages. destruct (arena_desc ar) as [i|].
  - destruct Hb as (d & Hd & Hb & _ & ->). pose proof (shape_at _ _ _ _ Hl Hd) as Hsh. destruct (shape_facts d Hsh) as (Hs & _).
    destruct (arena_block _ _ _ _ _ _ _ _ Hp Hl Ha Hd Hb) as (_ & B1 & B2 & _). unfold ARENA_SIZE in *. rewrite PGSIZE_eq in *.
    split; symmetry; [apply (Z.div_unique_pos _ _ _ (p - a))|apply (Z.div_unique_pos _ _ _ (p + desc_block_size d - 1 - a))]; lia.
  - destruct Hb as [-> ->]. unfold ARENA_SIZE. rewrite PGSIZE_eq in *.
    split; symmetry; [apply (Z.div_unique_pos _ _ _ 12)|apply (Z.div_unique_pos _ _ _ 4095)]; lia.
Qed.

(** The heap has the pages of its blocks in use, and no others. *)
Lemma heap_page_live h x : heap_ok h -> heap_page h x <-> exists q k, live h q k /\ covers q k x.
Proof.
  intros [Hinv Ht]. pose proof Hinv as (Hp & Hl). split.
  - intros (a & ar & Ha & Hx).
    assert (exists q k, live h q k /\ block_to_arena h q = Ret a) as (q & k & Hq & Hqa).
    { destruct (arena_desc ar) as [i|] eqn:Hi.
      2:{ eexists (a + ARENA_SIZE), _. split; [exists a, ar; by rewrite Hi|by apply (block_to_arena_big h a ar)]. }
      destruct (proj2 (proj2 Hl) a ar i Ha Hi) as (d & Hd & Hc). pose proof (Ht a ar i d Ha Hi Hd) as Hlt.
      destruct (decide (Forall (fun b => b ∈ free_list d) (blocks d a))) as [Hall|Hno].
      - exfalso. pose proof (shape_at _ _ _ _ Hl Hd) as Hsh. enough (Z.of_nat (length (blocks d a)) <= count a (free_list d)) as Hle.
        { rewrite length_blocks in Hle. pose proof (shape_facts d Hsh). lia. }
        apply inj_le, submseteq_length, NoDup_submseteq; [by apply blocks_NoDup|]. intros b Hb. apply list_elem_of_filter.
        split; [by apply (arena_block _ _ _ _ _ _ _ _ Hp Hl Ha Hd Hb)|]. by apply (proj1 (Forall_forall _ _) Hall).
      - apply not_Forall_Exists, Exists_exists in Hno as (b & Hb & Hnb); [|apply _]. exists b, (desc_block_size d).
        split; [exists a, ar; rewrite Hi; eauto 6|]. apply (block_arena h a ar); [done|done|]. rewrite Hi. eauto. }
    exists q, k. split; [done|]. by apply (covers_arena h q k a ar).
  - intros (q & k & Hq & Hx). destruct (live_arena h q k Hinv Hq) as (a & ar & Ha & Hqa & _). exists a, ar. split; [done|].
    by apply (covers_arena h q k a ar).
Qed.

Lemma heap_page_allocated h x : heap_inv h -> heap_page h x -> allocated (pages h) x = true.
Proof. intros ((_ & Ha & _) & _) (a & ar & Har & Hx). destruct (Ha a ar Har) as (_ & _ & _ & _ & _ & Hal). by apply Hal. Qed.

#[global] Instance covers_dec p n x : Decision (covers p n x).
Proof. apply _. Defined.

#[global] Instance heap_page_dec h x : Decision (heap_page h x).
Proof.
  refine (cast_if (decide (Exists (fun '(a, ar) => in_pages a (npages ar) x = true) (map_to_list (arenas h)))));
    unfold heap_page; rewrite Exists_exists in *.
  - destruct e as ([a ar] & Ha%elem_of_map_to_list & Hx). eauto.
  - intros (a & ar & Ha & Hx). apply n. exists (a, ar). by rewrite elem_of_map_to_list.
Defined.

Lemma live_size h p n k : heap_inv h -> live h p n -> live h p k -> k = n.
Proof.
  intros Hinv Hn Hk. destruct (live_arena h p n Hinv Hn) as (a & ar & Ha & Hpa & _).
  pose proof (live_block h p n a ar Hinv Hn Hpa Ha) as Hb. pose proof (live_block h p k a ar Hinv Hk Hpa Ha) as Hb'.
  destruct (arena_desc ar); [|destruct Hb, Hb'; congruence]. destruct Hb as (d & ? & _ & _ & ->), Hb' as (d' & ? & _ & _ & ->). congruence.
Qed.

(** The pages in use afterwards, where only pages of the heap change. *)
Lemma pages_after h h' x :
  heap_ok h -> heap_ok h' -> same_others h h' ->
  allocated (pages h') x = true <->
    (allocated (pages h) x = true /\ ~ (exists q k, live h q k /\ covers q k x)) \/ (exists q k, live h' q k /\ covers q k x).
Proof.
  intros Hok Hok' Ho. specialize (Ho x). rewrite <- !heap_page_live by done. pose proof (heap_page_allocated h' x (proj1 Hok')).
  destruct (heap_page_dec h' x); tauto.
Qed.

Lemma pages_after_malloc h h' p n x :
  heap_ok h -> heap_ok h' -> same_others h h' -> (forall q k, live h' q k <-> live h q k \/ (q = p /\ k = n)) ->
  allocated (pages h') x = true <-> allocated (pages h) x = true \/ covers p n x.
Proof.
  intros Hok Hok' Ho Hlv. rewrite (pages_after h h') by done. rewrite <- (heap_page_live h) by done. pose proof (heap_page_allocated h x (proj1 Hok)) as Hal.
  assert ((exists q k, live h' q k /\ covers q k x) <-> heap_page h x \/ covers p n x) as ->.
  { rewrite heap_page_live by done. split.
    - intros (q & k & [Hq|[-> ->]]%Hlv & Hx); eauto.
    - intros [(q & k & Hq & Hx)|Hx]; [exists q, k|exists p, n]; split; try done; apply Hlv; auto. }
  destruct (heap_page_dec h x); tauto.
Qed.

Lemma pages_after_free h h' p n x :
  heap_ok h -> heap_ok h' -> same_others h h' -> live h p n -> (forall q k, live h' q k <-> live h q k /\ q <> p) ->
  allocated (pages h') x = true <-> allocated (pages h) x = true /\ (covers p n x -> exists q k, live h q k /\ q <> p /\ covers q k x).
Proof.
  intros Hok Hok' Ho Hp Hlv. rewrite (pages_after h h') by done. rewrite <- !heap_page_live by done.
  pose proof (heap_page_allocated h x (proj1 Hok)) as Hal.
  assert ((exists q k, live h q k /\ q <> p /\ covers q k x) <-> heap_page h' x) as ->.
  { rewrite heap_page_live by done. split; intros (q & k & H); exists q, k; rewrite Hlv in *; tauto. }
  assert (heap_page h x <-> heap_page h' x \/ covers p n x) as Hh.
  { rewrite !heap_page_live by done. split.
    - intros (q & k & Hq & Hx). destruct (decide (q = p)) as [->|]; [right|left; exists q, k; by rewrite Hlv].
      by assert (k = n) as -> by (by apply (live_size h p n k (proj1 Hok))).
    - intros [(q & k & [Hq _]%Hlv & Hx)|Hx]; eauto. }
  destruct (heap_page_dec h' x), (covers_dec p n x); tauto.
Qed.


(** C2: [free] of a block in use keeps the invariant; exactly this block is
    no longer in use, and the contents of all the others stay.  The pages
    that go back to the page allocator are exactly those of the block on
    which no other block in use lies.  [free] of a null pointer does
    nothing. *)
Theorem free_correct h p n :
  heap_ok h -> live h p n ->
  (exists h', free p h = Ret h' /\ heap_ok h' /\ (forall q k, live h' q k <-> live h q k /\ q <> p) /\
     (forall x, allocated (pages h') x = true <->
        allocated (pages h) x = true /\ (covers p n x -> exists q k, live h q k /\ q <> p /\ covers q k x)) /\
     (forall q k x, live h' q k -> q <= x < q + k -> memory (pages h') x = memory (pages h) x)) /\
  free NULL h = Ret h.
Proof.
  intros Hok Hlive. split; [|done]. destruct (free_spec h p n Hok Hlive) as (h' & Hr & Hok' & Hlv & Hk & Ho).
  exists h'. do 3 (split; [done|]). split; [|done]. intros x. by apply (pages_after_free h h').
Qed.

Lemma block_size_spec h p n : heap_inv h -> live h p n -> block_size h p = Ret n.
Proof.
  intros Hinv Hlive. destruct (live_arena h p n Hinv Hlive) as (a & ar & Ha & Hpa & _).
  pose proof (live_block h p n a ar Hinv Hlive Hpa Ha) as Hb. unfold block_size. rewrite Hpa. cbn [obind]. rewrite Ha. cbn [access obind]. unfold desc_of.
  destruct (arena_page _ _ _ _ (proj1 Hinv) Ha) as (P1 & P2 & P3 & P4 & P5). unfold npages in *. destruct (arena_desc ar) as [i|].
  - destruct Hb as (d & -> & _ & _ & ->). done.
  - destruct Hb as [-> ->]. cbn [obind]. rewrite pg_ofs_mod. rewrite PGSIZE_eq in *. unfold ARENA_SIZE.
    rewrite Z.add_mod, P3 by lia. change ((0 + 12 mod 4096) mod 4096) with 12. rewrite u32_small; [done|]. unfold is_u32, two32 in *. lia.
Qed.

Lemma heap_ok_memory h m : heap_ok h -> heap_ok (with_memory h m).
Proof. intros H. exact H. Qed.

Lemma live_memory h m p n : live (with_memory h m) p n <-> live h p n.
Proof. done. Qed.

Lemma live_positive h p n : heap_inv h -> live h p n -> p <> NULL.
Proof.
  intros Hinv Hlive. destruct (live_arena h p n Hinv Hlive) as (a & ar & Ha & _ & A1 & _).
  destruct (arena_page _ _ _ _ (proj1 Hinv) Ha) as (P1 & _). unfold NULL, ARENA_SIZE in *. lia.
Qed.

(** [realloc] of a block in use to a positive size either fails, with the
    heap unchanged and the old block still in use, or returns a block of at
    least the new size that replaces the old one: the common prefix of the two
    blocks is copied and every other block in use keeps its contents.
    [realloc] of a null pointer is [malloc], and to size zero it is [free]. *)
Theorem realloc_correct h p n new_size :
  heap_ok h -> live h p n -> 0 < new_size <= two32 - ARENA_SIZE ->
  (realloc p new_size h = Ret (NULL, h) \/
   (exists q h' k, realloc p new_size h = Ret (q, h') /\ q <> NULL /\ new_size <= k /\ heap_ok h' /\
      (forall r j, live h' r j <-> (live h r j /\ r <> p) \/ (r = q /\ j = k)) /\
      (forall x, 0 <= x < Z.min n new_size -> memory (pages h') (q + x) = memory (pages h) (p + x)) /\
      (forall r j x, live h r j -> r <> p -> r <= x < r + j -> memory (pages h') x = memory (pages h) x))) /\
  realloc NULL new_size h = malloc new_size h /\ realloc p 0 h = (let! h := free p h in Ret (NULL, h)).
Proof.
  intros Hok Hlive Hsz. pose proof (live_positive h p n (proj1 Hok) Hlive) as Hpn. unfold realloc. rewrite (proj2 (Z.eqb_neq new_size 0)) by lia.
  change (NULL =? NULL) with true. change (0 =? 0) with true. cbn [negb andb]. split; [|split; [by destruct (malloc new_size h) as [[]|]|done]].
  destruct (malloc_spec h new_size Hok ltac:(lia)) as [[-> _]|(q & h1 & k & -> & _ & _ & Hnn & Hk & Hok1 & Hf & Hlv & Hm)]; cbn [obind].
  { left. change (NULL =? NULL) with true. by rewrite andb_false_r. }
  right. rewrite (proj2 (Z.eqb_neq p NULL)), (proj2 (Z.eqb_neq q NULL)) by done. cbn [negb andb].
  assert (live h1 p n) as Hp1 by (apply Hlv; by left). assert (live h1 q k) as Hq1 by (apply Hlv; by right).
  assert (p <> q) as Hpq by (intros <-; by apply (Hf n)).
  rewrite (block_size_spec h1 p n (proj1 Hok1) Hp1). cbn [obind].
  set (mn := if new_size <? n then new_size else n). assert (mn = Z.min n new_size) as Hmn by (unfold mn; destruct (Z.ltb_spec new_size n); lia).
  destruct (free_spec (with_memory h1 (copy (memory (pages h1)) q p mn)) p n) as (h3 & -> & Hok3 & Hlv3 & Hkeep & _); [done|done|].
  cbn [obind]. exists q, h3, k. split; [done|]. split; [done|]. split; [lia|]. split; [done|].
  assert (forall r j, live h3 r j <-> (live h r j /\ r <> p) \/ (r = q /\ j = k)) as Hlive3.
  { intros r j. rewrite Hlv3, live_memory, Hlv. split; [tauto|]. intros [[? ?]|[-> ->]]; [tauto|]. split; [by right|congruence]. }
  split; [done|]. split.
  - intros x Hx. rewrite (Hkeep q k (q + x)) by (first [apply Hlive3; by right|lia]). cbn [pages with_memory with_pages memory]. unfold copy.
    rewrite (proj2 (Z.leb_le q (q + x))), (proj2 (Z.ltb_lt (q + x) (q + mn))) by lia. cbn [andb]. rewrite Hm. f_equal. lia.
  - intros r j x Hr Hne Hx. rewrite (Hkeep r j x) by (first [apply Hlive3; by left|done]). cbn [pages with_memory with_pages memory]. unfold copy.
    assert (r <> q) as Hrq by (intros ->; by apply (Hf j)).
    destruct (live_disjoint h1 r j q k (proj1 Hok1)) as [Hd|Hd]; [apply Hlv; by left|done|done|..];
      (destruct (Z.leb_spec q x), (Z.ltb_spec x (q + mn)); cbn [andb]; [lia|by rewrite Hm..]).
Qed.

(** [calloc] of a product that fits: the block is zeroed. *)
Theorem calloc_correct h a b :
  heap_ok h -> 0 < a -> 0 < b -> a * b <= two32 - ARENA_SIZE ->
  calloc a b h = Ret (NULL, h) \/
  (exists p h' n, calloc a b h = Ret (p, h') /\ p <> NULL /\ a * b <= n /\ heap_ok h' /\
     (forall q k, live h' q k <-> live h q k \/ (q = p /\ k = n)) /\
     (forall x, memory (pages h') x = if (p <=? x) && (x <? p + a * b) then 0 else memory (pages h) x)).
Proof.
  intros Hok Ha Hb Hab. assert (a <= a * b /\ b <= a * b) as [Hla Hlb] by nia. unfold calloc. rewrite u32_small by (unfold is_u32, ARENA_SIZE in *; lia).
  rewrite (proj2 (Z.ltb_ge _ a)), (proj2 (Z.ltb_ge _ b)) by done. cbn [orb].
  destruct (malloc_spec h (a * b) Hok ltac:(lia)) as [[-> _]|(p & h' & n & -> & _ & _ & Hnn & Hn & Hok' & _ & Hlv & Hm)]; cbn [obind]; [by left|right].
  rewrite (proj2 (Z.eqb_neq p NULL)) by done. cbn [negb]. eexists p, _, n. split; [done|]. split; [done|]. split; [lia|]. split; [done|]. split; [done|].
  intros x. cbn [pages with_memory with_pages memory]. unfold fill. by rewrite Hm.
Qed.

(** Sizes that overflow.  The sum of the size and the arena header wraps,
    so that [malloc (2^32 - 1)] is treated as a request for 2000 bytes and can
    return a block of one page; the test of [calloc] misses products that wrap
    to a value above both factors: [calloc (65537, 65537)], of more than 4 GB,
    allocates and clears 131073 bytes. *)
Theorem heap_size_overflow h :
  heap_ok h ->
  malloc (two32 - 1) h = malloc 2000 h /\ calloc 65537 65537 h = calloc 131073 1 h /\
  (forall p h', malloc (two32 - 1) h = Ret (p, h') -> p <> NULL -> live h' p (PGSIZE - ARENA_SIZE)).
Proof.
  intros [(Hp & Hl) Ht]. assert (forall size, 1024 < size -> find_desc (descs h) 0 size = None) as Hbig.
  { intros size Hs. pose proof (find_desc_spec (descs h) 0 size) as Hfd. destruct (find_desc (descs h) 0 size) as [i|]; [|done].
    destruct Hfd as (d & Hd & _ & Hle). pose proof (shape_facts d (shape_at _ _ _ _ Hl Hd)). lia. }
  split; [|split].
  - unfold malloc. rewrite !Hbig by (unfold two32; lia). done.
  - done.
  - intros p h' Hr Hnn. unfold malloc in Hr. rewrite Hbig in Hr by (unfold two32; lia).
    change (DIV_ROUND_UP (u32 (two32 - 1 + ARENA_SIZE)) PGSIZE) with 1 in Hr. change (two32 - 1 =? 0) with false in Hr. cbv iota in Hr.
    destruct (palloc_get_multiple 0 1 (pages h)) as [[a s]|]; [|done]. cbn [obind] in Hr. destruct (a =? NULL); injection Hr as <- <-; [done|].
    exists a. eexists. cbn [arenas with_arenas]. rewrite lookup_insert_eq. split; [done|]. cbn. done.
Qed.

(** *** A concrete heap, on a kernel pool of four pages *)

Definition ret_or {A} (x : A) (o : outcome A) : A := match o with Ret a => a | Err _ => x end.

Definition demo_heap : heap := ret_or (mkHeap demo_pools [] ∅) (malloc_init demo_pools).

(** After [malloc (10)]. *)
Definition demo_block : Z * heap := ret_or (0, demo_heap) (malloc 10 demo_heap).

Lemma demo_heap_ok : heap_ok demo_heap /\ forall p n, ~ live demo_heap p n.
Proof. apply (malloc_init_ok demo_pools); [apply demo_pools_ok|]. unfold demo_heap. by destruct (malloc_init_spec demo_pools) as (h & -> & _). Qed.

Lemma demo_block_ok : heap_ok demo_block.2 /\ live demo_block.2 demo_block.1 16.
Proof.
  destruct demo_heap_ok as [Hok Hno].
  destruct (malloc_spec demo_heap 10 Hok) as [[Hr _]|(p & h' & n & Hr & _ & _ & _ & _ & Hok' & _)]; [by vm_compute|..].
  - apply (f_equal (fun r => ret_or 0 (let! (p, _) := r in Ret p))) in Hr. vm_compute in Hr. discriminate Hr.
  - assert (demo_block = (p, h')) as Heq by (unfold demo_block; by rewrite Hr). rewrite Heq. cbn [fst snd]. split; [done|].
    replace h' with (demo_block.2) by (by rewrite Heq). replace p with (demo_block.1) by (by rewrite Heq).
    exists (pg_round_down demo_block.1), (mkArena ARENA_MAGIC (Some 0%nat) 254). split; [by vm_compute|]. cbn [arena_desc].
    exists (mkDesc 16 255 (tail (blocks (mkDesc 16 255 []) (pg_round_down demo_block.1)))). split; [by vm_compute|].
    split; [|split; [|done]]; apply (bool_decide_unpack _); by vm_compute.
Qed.


Lemma free_correct_witness :
  exists h', free demo_block.1 demo_block.2 = Ret h' /\ heap_ok h' /\
    allocated (pages demo_block.2) demo_block.1 = true /\ allocated (pages h') demo_block.1 = false.
Proof.
  destruct (free_correct demo_block.2 demo_block.1 16 (proj1 demo_block_ok) (proj2 demo_block_ok)) as [(h' & Hr & Hok & _) _].
  exists h'. split; [done|]. split; [done|]. split; [by vm_compute|].
  apply (f_equal (fun r => ret_or true (let! h := r in Ret (allocated (pages h) demo_block.1)))) in Hr. cbn [ret_or obind] in Hr.
  rewrite <- Hr. by vm_compute.
Defined.

Lemma realloc_correct_witness :
  realloc NULL 5000 demo_block.2 = malloc 5000 demo_block.2 /\
  exists q h', realloc demo_block.1 5000 demo_block.2 = Ret (q, h').
Proof.
  destruct (realloc_correct demo_block.2 demo_block.1 16 5000 (proj1 demo_block_ok) (proj2 demo_block_ok)) as [[H|(q & h' & k & H & _)] [H1 _]];
    [by vm_compute|split; eauto..].
Defined.

Lemma heap_size_overflow_witness :
  exists p h', malloc (two32 - 1) demo_heap = Ret (p, h') /\ p <> NULL /\ live h' p (PGSIZE - ARENA_SIZE).
Proof.
  destruct (heap_size_overflow demo_heap (proj1 demo_heap_ok)) as (_ & _ & H).
  destruct (malloc (two32 - 1) demo_heap) as [[p h']|e] eqn:E.
  - exists p, h'. assert (p <> NULL) as Hnn.
    { intros ->. apply (f_equal (fun r => ret_or 1 (let! (p, _) := r in Ret p))) in E. vm_compute in E. discriminate E. }
    auto.
  - apply (f_equal (fun r => ret_or 1 (let! (p, _) := r in Ret p))) in E. vm_compute in E. discriminate E.
Defined.
