(* ===== verification/Pagedir.v ===== *)
(** * Page tables ([threads/pte.h], [userprog/pagedir.c])

    Page directories and page tables live in the pages handed out by
    [Palloc]: an entry is the little-endian 32-bit word at its address in the
    memory of the allocator.  The control register CR3 and the translation
    lookaside buffer of the CPU are part of the state, since the functions
    that take permissions away must flush the buffer. *)
From stdpp Require Import prelude list.
From Stdlib Require Import ZArith Lia.
From S2P Require Import Prelude Bitmap Palloc.
#[local] Open Scope Z_scope.

(** ** Words in memory *)

Definition read32 (m : Z -> Z) (a : Z) : Z :=
  m a + 256 * m (a + 1) + 65536 * m (a + 2) + 16777216 * m (a + 3).

Definition write32 (m : Z -> Z) (a v : Z) : Z -> Z := fun x =>
  if x =? a then v mod 256
  else if x =? a + 1 then (v / 256) mod 256
  else if x =? a + 2 then (v / 65536) mod 256
  else if x =? a + 3 then (v / 16777216) mod 256
  else m x.

(** ** [threads/pte.h] *)

Definition PTSHIFT : Z := PGBITS.
Definition PTBITS : Z := 10.
Definition PTMASK : Z := BITMASK PTSHIFT PTBITS.
Definition PDSHIFT : Z := PTSHIFT + PTBITS.
Definition pt_no (va : Z) : Z := Z.shiftr (Z.land va PTMASK) PTSHIFT.
Definition pd_no (va : Z) : Z := Z.shiftr va PDSHIFT.

Definition PTE_ADDR : Z := 4294963200.
Definition PTE_P : Z := 1.
Definition PTE_W : Z := 2.
Definition PTE_U : Z := 4.
Definition PTE_A : Z := 32.
Definition PTE_D : Z := 64.

Definition pde_create (pt : Z) : outcome Z :=
  let! _ := ASSERT (pg_ofs pt =? 0) in
  let! p := vtop pt in
  Ret (Z.lor (Z.lor (Z.lor p PTE_U) PTE_P) PTE_W).

Definition pde_get_pt (pde : Z) : outcome Z :=
  let! _ := ASSERT (negb (Z.land pde PTE_P =? 0)) in
  ptov (Z.land pde PTE_ADDR).

Definition pte_create_kernel (page : Z) (writable : bool) : outcome Z :=
  let! _ := ASSERT (pg_ofs page =? 0) in
  let! p := vtop page in
  Ret (Z.lor (Z.lor p PTE_P) (if writable then PTE_W else 0)).

Definition pte_create_user (page : Z) (writable : bool) : outcome Z :=
  let! p := pte_create_kernel page writable in Ret (Z.lor p PTE_U).

Definition pte_get_page (pte : Z) : outcome Z := ptov (Z.land pte PTE_ADDR).

(** ** State *)

Record mmu : Type := mkMmu {
  pal : palloc_state;
  cr3 : Z;
  tlb : list (Z * Z)
}.

Definition mem (s : mmu) : Z -> Z := memory (pal s).

Definition load (a : Z) : ST mmu Z := fun s => Ret (read32 (mem s) a, s).

Definition store (a v : Z) : ST mmu unit := fun s =>
  Ret (tt, mkMmu (mkPalloc (kernel_pool (pal s)) (user_pool (pal s)) (write32 (mem s) a v)) (cr3 s) (tlb s)).

Definition pcall {A} (m : ST palloc_state A) : ST mmu A := fun s =>
  match m (pal s) with Ret (a, p) => Ret (a, mkMmu p (cr3 s) (tlb s)) | Err e => Err e end.

(** ** [userprog/pagedir.c] *)

Section pagedir.
(** The page directory of the kernel and the size of the RAM, set at boot. *)
Context (init_page_dir init_ram_pages : Z).

(** [memcpy (dst, src, PGSIZE)]. *)
Definition copy_page (dst src : Z) : ST mmu unit := fun s =>
  let m := mem s in
  Ret (tt, mkMmu (mkPalloc (kernel_pool (pal s)) (user_pool (pal s))
    (fun a => if in_pages dst 1 a then m (src + (a - dst)) else m a)) (cr3 s) (tlb s)).

Definition pagedir_create : ST mmu Z :=
  do! pd := pcall (palloc_get_page 0) in
  do! _ := (if negb (pd =? NULL) then copy_page pd init_page_dir else sret tt) in
  sret pd.

(** [for (i = 0; i < n; i++) body] with state. *)
Fixpoint iter (n : nat) (i : Z) (body : Z -> ST mmu unit) : ST mmu unit :=
  match n with
  | O => sret tt
  | S n' => do! _ := body i in iter n' (i + 1) body
  end.

Definition pagedir_destroy (pd : Z) : ST mmu unit :=
  if pd =? NULL then sret tt else
  do! _ := assert_ (negb (pd =? init_page_dir)) in
  do! _ := iter (Z.to_nat (pd_no PHYS_BASE)) 0 (fun i =>
    do! pde := load (pd + 4 * i) in
    if negb (Z.land pde PTE_P =? 0) then
      do! pt := lift (pde_get_pt pde) in
      do! _ := iter (Z.to_nat (PGSIZE / 4)) 0 (fun j =>
        do! pte := load (pt + 4 * j) in
        if negb (Z.land pte PTE_P =? 0) then
          do! page := lift (pte_get_page pte) in pcall (palloc_free_page page)
        else sret tt) in
      pcall (palloc_free_page pt)
    else sret tt) in
  pcall (palloc_free_page pd).

Definition lookup_page (pd vaddr : Z) (create : bool) : ST mmu Z :=
  do! _ := assert_ (negb (pd =? NULL)) in
  do! _ := assert_ (negb create || is_user_vaddr vaddr) in
  let pde := pd + 4 * pd_no vaddr in
  do! e := load pde in
  do! ok := (if e =? 0 then
      if create then
        do! pt := pcall (palloc_get_page PAL_ZERO) in
        if pt =? NULL then sret false else
        do! v := lift (pde_create pt) in
        do! _ := store pde v in sret true
      else sret false
    else sret true) in
  if (ok : bool) then
    do! e := load pde in
    do! pt := lift (pde_get_pt e) in
    sret (pt + 4 * pt_no vaddr)
  else sret NULL.

Definition pagedir_set_page (pd upage kpage : Z) (writable : bool) : ST mmu bool :=
  do! _ := assert_ (pg_ofs upage =? 0) in
  do! _ := assert_ (pg_ofs kpage =? 0) in
  do! _ := assert_ (is_user_vaddr upage) in
  do! p := lift (vtop kpage) in
  do! _ := assert_ (Z.shiftr p PTSHIFT <? init_ram_pages) in
  do! _ := assert_ (negb (pd =? init_page_dir)) in
  do! pte := lookup_page pd upage true in
  if negb (pte =? NULL) then
    do! e := load pte in
    do! _ := assert_ (Z.land e PTE_P =? 0) in
    do! v := lift (pte_create_user kpage writable) in
    do! _ := store pte v in
    sret true
  else sret false.

Definition pagedir_get_page (pd uaddr : Z) : ST mmu Z :=
  do! _ := assert_ (is_user_vaddr uaddr) in
  do! pte := lookup_page pd uaddr false in
  if pte =? NULL then sret NULL else
  do! e := load pte in
  if negb (Z.land e PTE_P =? 0) then
    do! page := lift (pte_get_page e) in sret (page + pg_ofs uaddr)
  else sret NULL.

(** Loading CR3 empties the translation lookaside buffer. *)
Definition pagedir_activate (pd : Z) : ST mmu unit :=
  let pd := if pd =? NULL then init_page_dir else pd in
  do! p := lift (vtop pd) in
  fun s => Ret (tt, mkMmu (pal s) p []).

Definition active_pd : ST mmu Z := fun s => lift (ptov (cr3 s)) s.

Definition invalidate_pagedir (pd : Z) : ST mmu unit :=
  do! a := active_pd in
  if a =? pd then pagedir_activate pd else sret tt.

Definition pagedir_clear_page (pd upage : Z) : ST mmu unit :=
  do! _ := assert_ (pg_ofs upage =? 0) in
  do! _ := assert_ (is_user_vaddr upage) in
  do! pte := lookup_page pd upage false in
  if pte =? NULL then sret tt else
  do! e := load pte in
  if negb (Z.land e PTE_P =? 0) then
    do! _ := store pte (Z.land e (u32 (Z.lnot PTE_P))) in
    invalidate_pagedir pd
  else sret tt.

(** [pagedir_is_dirty] and [pagedir_is_accessed], by their bit. *)
Definition pagedir_is (bit pd vpage : Z) : ST mmu bool :=
  do! pte := lookup_page pd vpage false in
  if pte =? NULL then sret false else
  do! e := load pte in sret (negb (Z.land e bit =? 0)).

Definition pagedir_is_dirty (pd vpage : Z) : ST mmu bool := pagedir_is PTE_D pd vpage.
Definition pagedir_is_accessed (pd vpage : Z) : ST mmu bool := pagedir_is PTE_A pd vpage.

(** [pagedir_set_dirty] and [pagedir_set_accessed], by their bit. *)
Definition pagedir_set (bit pd vpage : Z) (value : bool) : ST mmu unit :=
  do! pte := lookup_page pd vpage false in
  if pte =? NULL then sret tt else
  do! e := load pte in
  if value then store pte (Z.lor e bit)
  else
    do! _ := store pte (Z.land e (u32 (Z.lnot bit))) in
    invalidate_pagedir pd.

Definition pagedir_set_dirty (pd vpage : Z) (dirty : bool) : ST mmu unit :=
  pagedir_set PTE_D pd vpage dirty.
Definition pagedir_set_accessed (pd vpage : Z) (accessed : bool) : ST mmu unit :=
  pagedir_set PTE_A pd vpage accessed.
End pagedir.

(** ** Arithmetic of entries and addresses *)

Lemma write32_read_same m a v : 0 <= v < two32 -> read32 (write32 m a v) a = v.
Proof.
  intros Hv. unfold read32, write32, two32 in *.
  repeat (match goal with |- context [?x =? ?y] => destruct (Z.eqb_spec x y); try lia end).
  pose proof (Z.div_mod v 256 ltac:(lia)). pose proof (Z.div_mod (v / 256) 256 ltac:(lia)).
  pose proof (Z.div_mod (v / 65536) 256 ltac:(lia)).
  assert (E1 : v / 256 / 256 = v / 65536) by (by rewrite Z.div_div by lia).
  assert (E2 : v / 65536 / 256 = v / 16777216) by (by rewrite Z.div_div by lia).
  rewrite (Z.mod_small (v / 16777216) 256); [lia|]. split; [apply Z.div_pos; lia|apply Z.div_lt_upper_bound; lia].
Qed.

Lemma write32_read_other m a b v : a + 4 <= b \/ b + 4 <= a -> read32 (write32 m a v) b = read32 m b.
Proof. intros H. unfold read32, write32. bool_cases; (done || lia). Qed.

Lemma write32_outside m a v x : x < a \/ a + 4 <= x -> write32 m a v x = m x.
Proof. intros H. unfold write32. bool_cases; (done || lia). Qed.

Lemma write32_byte m a v x : 0 <= m x < 256 -> 0 <= write32 m a v x < 256.
Proof.
  intros H. unfold write32.
  repeat (match goal with
    | |- context [?y =? ?z] => destruct (Z.eqb_spec y z); [apply Z.mod_pos_bound; lia|]
    end). done.
Qed.

Lemma read32_range m a : (forall x, 0 <= m x < 256) -> 0 <= read32 m a < two32.
Proof.
  intros H. unfold read32, two32. pose proof (H a). pose proof (H (a + 1)). pose proof (H (a + 2)). pose proof (H (a + 3)). lia.
Qed.

(** The address part and the flags of an entry. *)
Lemma land_addr e : 0 <= e < two32 -> Z.land e PTE_ADDR = 4096 * (e / 4096).
Proof.
  intros He. assert (Z.land e PTE_ADDR = Z.ldiff e (Z.ones 12)) as ->.
  { apply Z.bits_inj'. intros j Hj. rewrite Z.land_spec, Z.ldiff_spec.
    destruct (Z_lt_le_dec j 32) as [Hl|Hl].
    - assert (Hb : Z.testbit PTE_ADDR j = negb (Z.testbit (Z.ones 12) j)); [|by rewrite Hb].
      change PTE_ADDR with (Z.shiftl (Z.ones 20) 12). rewrite Z.shiftl_spec by done.
      destruct (Z_lt_le_dec j 12).
      + rewrite Z.testbit_neg_r by lia. by rewrite Z.ones_spec_low by lia.
      + rewrite (Z.ones_spec_low 20), (Z.ones_spec_high 12) by lia. done.
    - by rewrite (testbit_high e 32 j) by (unfold two32 in He; lia). }
  rewrite Z.ldiff_ones_r by lia. rewrite Z.shiftl_mul_pow2, Z.shiftr_div_pow2 by lia.
  change (2 ^ 12) with 4096. lia.
Qed.

Lemma lor_flags p f : p mod 4096 = 0 -> 0 <= f < 4096 -> Z.lor p f = p + f.
Proof. apply (lor_add 12 p f). lia. Qed.

Definition present (e : Z) : bool := negb (Z.land e PTE_P =? 0).

Lemma present_odd e : present e = Z.odd e.
Proof.
  unfold present, PTE_P. change 1 with (Z.ones 1). rewrite Z.land_ones by lia. change (2 ^ 1) with 2.
  rewrite Zmod_odd. by destruct (Z.odd e).
Qed.

Lemma page_flags p f : p mod 4096 = 0 -> 0 <= f < 4096 ->
  present (p + f) = Z.odd f /\ (p + f) / 4096 = p / 4096.
Proof.
  intros Hp Hf. pose proof (Z.div_mod p 4096 ltac:(lia)) as Hd. rewrite Hp in Hd. split.
  - rewrite present_odd, Z.odd_add, Hd, Z.add_0_r, Z.odd_mul. by destruct (Z.odd f).
  - replace (p + f) with (f + p / 4096 * 4096) by lia. rewrite Z.div_add, Z.div_small by lia. lia.
Qed.

Lemma pd_no_div va : pd_no va = va / 4194304.
Proof. unfold pd_no. by rewrite Z.shiftr_div_pow2. Qed.

Lemma pt_no_eq va : pt_no va = va / 4096 mod 1024.
Proof.
  unfold pt_no. rewrite Z.shiftr_land. change (Z.shiftr PTMASK PTSHIFT) with (Z.ones 10).
  rewrite Z.land_ones by (unfold PTSHIFT; lia). by rewrite Z.shiftr_div_pow2.
Qed.

(** A page number is a directory index and a table index. *)
Lemma vpage_split va : va / 4096 = 1024 * pd_no va + pt_no va.
Proof.
  rewrite pd_no_div, pt_no_eq. replace 4194304 with (4096 * 1024) by lia. rewrite <- Z.div_div by lia.
  apply Z.div_mod. lia.
Qed.

Lemma pt_no_range va : 0 <= pt_no va < 1024.
Proof. rewrite pt_no_eq. apply Z.mod_pos_bound. lia. Qed.

Lemma pd_no_range va : 0 <= va < PHYS_BASE -> 0 <= pd_no va < 768.
Proof.
  intros H. rewrite pd_no_div. unfold PHYS_BASE in H. split; [apply Z.div_pos; lia|apply Z.div_lt_upper_bound; lia].
Qed.

(** ** Well-formed page directories *)

(** The table that a present directory entry points to. *)
Definition table (e : Z) : Z := PHYS_BASE + 4096 * (e / 4096).

Definition kernel_page (a : Z) : Prop := a mod 4096 = 0 /\ PHYS_BASE <= a < two32.

Definition pde (s : mmu) (pd i : Z) : Z := read32 (mem s) (pd + 4 * i).

Definition pte (s : mmu) (pd i j : Z) : Z := read32 (mem s) (table (pde s pd i) + 4 * j).

Definition owned (s : mmu) (a : Z) : Prop := forall x, in_pages a 1 x = true -> allocated (pal s) x = true.

(** The user part of a page directory: its page and those of its tables are
    allocated and all different, and present entries point into the RAM. *)
Record pd_ok (s : mmu) (pd : Z) : Prop := mkPdOk {
  po_pal : palloc_ok (pal s) /\ PHYS_BASE <= base (kernel_pool (pal s));
  po_bytes x : 0 <= mem s x < 256;
  po_pd : kernel_page pd /\ owned s pd;
  po_pde i : 0 <= i < 768 -> pde s pd i <> 0 ->
    present (pde s pd i) = true /\ table (pde s pd i) < two32 /\ owned s (table (pde s pd i)) /\
    table (pde s pd i) <> pd;
  po_inj i j : 0 <= i < 768 -> 0 <= j < 768 -> pde s pd i <> 0 -> pde s pd j <> 0 ->
    table (pde s pd i) = table (pde s pd j) -> i = j;
  po_pte i j : 0 <= i < 768 -> 0 <= j < 1024 -> pde s pd i <> 0 -> present (pte s pd i j) = true ->
    table (pte s pd i j) < two32
}.

(** The page table entry of a user address, if there is a table for it. *)
Definition entry (s : mmu) (pd va : Z) : option Z :=
  if pde s pd (pd_no va) =? 0 then None else Some (pte s pd (pd_no va) (pt_no va)).

(** What [pagedir_get_page] returns. *)
Definition translate (s : mmu) (pd va : Z) : Z :=
  match entry s pd va with
  | Some e => if present e then table e + va mod 4096 else NULL
  | None => NULL
  end.

Lemma table_page e : 0 <= e -> table e mod 4096 = 0 /\ PHYS_BASE <= table e.
Proof.
  intros He. unfold table, PHYS_BASE. split.
  - rewrite Z.mul_comm, Z.add_mod, Z.mod_mul by lia. done.
  - pose proof (Z.div_pos e 4096 He ltac:(lia)). lia.
Qed.

Lemma word_apart a b x y :
  a mod 4096 = 0 -> b mod 4096 = 0 -> 0 <= x < 1024 -> 0 <= y < 1024 -> a <> b \/ x <> y ->
  a + 4 * x + 4 <= b + 4 * y \/ b + 4 * y + 4 <= a + 4 * x.
Proof.
  intros Ha Hb Hx Hy Hne. pose proof (Z.div_mod a 4096 ltac:(lia)). pose proof (Z.div_mod b 4096 ltac:(lia)). lia.
Qed.

Lemma run_ptov e : 0 <= e -> table e < two32 -> 0 <= e < two32 -> ptov (Z.land e PTE_ADDR) = Ret (table e).
Proof.
  intros He Ht Hr. rewrite land_addr by done. unfold ptov. unfold table, PHYS_BASE, two32 in *.
  destruct (Z.ltb_spec (4096 * (e / 4096)) 3221225472); [|lia]. cbn [ASSERT obind]. f_equal.
  rewrite u32_small; [lia|]. unfold is_u32, two32. pose proof (Z.div_pos e 4096 He ltac:(lia)). lia.
Qed.

Lemma run_vtop a : kernel_page a -> vtop a = Ret (a - PHYS_BASE) /\ (a - PHYS_BASE) mod 4096 = 0.
Proof.
  intros [Ha Hr]. unfold vtop, is_kernel_vaddr, PHYS_BASE, two32 in *. destruct (Z.leb_spec 3221225472 a); [|lia].
  cbn [ASSERT obind]. rewrite u32_small by (unfold is_u32, two32; lia). split; [done|].
  rewrite Zminus_mod, Ha. done.
Qed.

Lemma pde_range s pd i : pd_ok s pd -> 0 <= pde s pd i < two32.
Proof. intros H. apply read32_range. apply (po_bytes _ _ H). Qed.

Lemma pte_range s pd i j : pd_ok s pd -> 0 <= pte s pd i j < two32.
Proof. intros H. apply read32_range. apply (po_bytes _ _ H). Qed.

Lemma kernel_page_nonnull a : kernel_page a -> a <> NULL.
Proof. unfold kernel_page, PHYS_BASE, NULL. lia. Qed.

(** *** Looking up without creating *)

Lemma run_load s a : load a s = Ret (read32 (mem s) a, s).
Proof. done. Qed.

Lemma run_lift {A} (m : outcome A) (a : A) (s : mmu) : m = Ret a -> lift m s = Ret (a, s).
Proof. by intros ->. Qed.

Lemma run_get_pt s pd i :
  pd_ok s pd -> 0 <= i < 768 -> pde s pd i <> 0 -> pde_get_pt (pde s pd i) = Ret (table (pde s pd i)).
Proof.
  intros H Hi Hne. destruct (po_pde _ _ H i Hi Hne) as (Hp & Ht & _). pose proof (pde_range s pd i H) as Hr.
  unfold pde_get_pt. fold (present (pde s pd i)). rewrite Hp. cbn [ASSERT obind]. apply run_ptov; lia.
Qed.

Lemma run_lookup s pd va create :
  pd_ok s pd -> 0 <= va < PHYS_BASE -> pde s pd (pd_no va) <> 0 ->
  lookup_page pd va create s = Ret (table (pde s pd (pd_no va)) + 4 * pt_no va, s).
Proof.
  intros H Hva Hne. destruct (po_pd _ _ H) as [Hk _]. pose proof (kernel_page_nonnull _ Hk).
  unfold lookup_page. sassert by (by destruct (Z.eqb_spec pd NULL)).
  sassert by (unfold is_user_vaddr; destruct (Z.ltb_spec va PHYS_BASE); [apply orb_true_r|lia]).
  cbv zeta. sstep (run_load s (pd + 4 * pd_no va)). change (read32 (mem s) (pd + 4 * pd_no va)) with (pde s pd (pd_no va)).
  destruct (Z.eqb_spec (pde s pd (pd_no va)) 0); [done|].
  sstep (eq_refl : sret true s = Ret (true, s)). sstep (run_load s (pd + 4 * pd_no va)).
  sstep (run_lift _ _ s (run_get_pt s pd (pd_no va) H (pd_no_range va Hva) Hne)). done.
Qed.

Lemma run_lookup_none s pd va :
  pd_ok s pd -> 0 <= va < PHYS_BASE -> pde s pd (pd_no va) = 0 ->
  lookup_page pd va false s = Ret (NULL, s).
Proof.
  intros H Hva He. destruct (po_pd _ _ H) as [Hk _]. pose proof (kernel_page_nonnull _ Hk).
  unfold lookup_page. sassert by (by destruct (Z.eqb_spec pd NULL)). sassert by done. cbv zeta.
  sstep (run_load s (pd + 4 * pd_no va)). change (read32 (mem s) (pd + 4 * pd_no va)) with (pde s pd (pd_no va)).
  rewrite He. done.
Qed.

Lemma pte_address_nonnull s pd va : pd_ok s pd -> table (pde s pd (pd_no va)) + 4 * pt_no va <> NULL.
Proof.
  intros H. destruct (table_page (pde s pd (pd_no va))) as [_ Ht]; [apply (pde_range s pd _ H)|].
  pose proof (pt_no_range va). unfold NULL, PHYS_BASE in *. lia.
Qed.

Lemma run_get_page s pd va :
  pd_ok s pd -> 0 <= va < PHYS_BASE -> pagedir_get_page pd va s = Ret (translate s pd va, s).
Proof.
  intros H Hva. unfold pagedir_get_page, translate, entry.
  sassert by (unfold is_user_vaddr; destruct (Z.ltb_spec va PHYS_BASE); [done|lia]).
  destruct (Z.eqb_spec (pde s pd (pd_no va)) 0) as [He|He].
  - sstep (run_lookup_none s pd va H Hva He). done.
  - sstep (run_lookup s pd va false H Hva He). pose proof (pte_address_nonnull s pd va H).
    destruct (Z.eqb_spec (table (pde s pd (pd_no va)) + 4 * pt_no va) NULL); [done|].
    sstep (run_load s (table (pde s pd (pd_no va)) + 4 * pt_no va)).
    change (read32 (mem s) (table (pde s pd (pd_no va)) + 4 * pt_no va)) with (pte s pd (pd_no va) (pt_no va)).
    fold (present (pte s pd (pd_no va) (pt_no va))). destruct (present _) eqn:Ep; [|done].
    pose proof (pte_range s pd (pd_no va) (pt_no va) H) as Hr.
    pose proof (po_pte _ _ H _ _ (pd_no_range va Hva) (pt_no_range va) He Ep) as Ht.
    sstep (run_lift _ _ s (run_ptov _ (proj1 Hr) Ht Hr)). unfold sret. do 2 f_equal.
    by rewrite pg_ofs_mod.
Qed.

(** *** Storing an entry *)

Definition stored (s : mmu) (a v : Z) : mmu :=
  mkMmu (mkPalloc (kernel_pool (pal s)) (user_pool (pal s)) (write32 (mem s) a v)) (cr3 s) (tlb s).

Lemma run_store s a v : store a v s = Ret (tt, stored s a v).
Proof. done. Qed.

Lemma stored_bytes s pd a v x : pd_ok s pd -> 0 <= mem (stored s a v) x < 256.
Proof. intros H. apply write32_byte. apply (po_bytes _ _ H). Qed.

Lemma pd_aligned s pd : pd_ok s pd -> pd mod 4096 = 0.
Proof. intros H. apply (po_pd _ _ H). Qed.

Lemma table_aligned s pd i : pd_ok s pd -> table (pde s pd i) mod 4096 = 0.
Proof. intros H. apply table_page. apply (pde_range s pd i H). Qed.

(** A store to a page table entry changes this entry only. *)
Lemma store_pte s pd i j v :
  pd_ok s pd -> 0 <= i < 768 -> 0 <= j < 1024 -> pde s pd i <> 0 ->
  0 <= v < two32 -> (present v = true -> table v < two32) ->
  let s' := stored s (table (pde s pd i) + 4 * j) v in
  pd_ok s' pd /\ (forall i', 0 <= i' < 1024 -> pde s' pd i' = pde s pd i') /\
  (forall i' j', 0 <= i' < 768 -> 0 <= j' < 1024 -> pde s pd i' <> 0 ->
     pte s' pd i' j' = if (i' =? i) && (j' =? j) then v else pte s pd i' j').
Proof.
  intros H Hi Hj Hne Hv Hpv s'. destruct (po_pde _ _ H i Hi Hne) as (_ & _ & _ & Htp).
  pose proof (table_aligned s pd i H) as Hta. pose proof (pd_aligned s pd H) as Hpa.
  assert (Hpde : forall i', 0 <= i' < 1024 -> pde s' pd i' = pde s pd i').
  { intros i' Hi'. unfold pde, s', stored, mem. cbn [pal memory]. apply write32_read_other.
    destruct (word_apart (table (pde s pd i)) pd j i'); auto. }
  assert (Hpte : forall i' j', 0 <= i' < 768 -> 0 <= j' < 1024 -> pde s pd i' <> 0 ->
     pte s' pd i' j' = if (i' =? i) && (j' =? j) then v else pte s pd i' j').
  { intros i' j' Hi' Hj' Hne'. unfold pte at 1. rewrite Hpde by lia. unfold s', stored, mem. cbn [pal memory].
    destruct ((i' =? i) && (j' =? j)) eqn:E.
    - apply andb_prop in E as [->%Z.eqb_eq ->%Z.eqb_eq]. by apply write32_read_same.
    - apply write32_read_other.
      destruct (word_apart (table (pde s pd i)) (table (pde s pd i')) j j') as [?|?]; auto; [by apply table_aligned|].
      destruct (Z.eqb_spec j' j) as [->|Hjj]; [|right; congruence]. rewrite andb_true_r in E.
      apply Z.eqb_neq in E. left. intros Et. apply E. symmetry. by apply (po_inj _ _ H). }
  split; [|done].
  split; try apply H.
  - intros x. by apply (stored_bytes s pd).
  - intros i' Hi'. rewrite Hpde by lia. by apply (po_pde _ _ H).
  - intros i' j' Hi' Hj'. rewrite !Hpde by lia. by apply (po_inj _ _ H).
  - intros i' j' Hi' Hj'. rewrite Hpde by lia. intros Hne'. rewrite Hpte by done.
    destruct ((i' =? i) && (j' =? j)); [done|]. by apply (po_pte _ _ H).
Qed.

(** The entries seen through [entry]. *)
Lemma store_entry s pd va v va' :
  pd_ok s pd -> 0 <= va < PHYS_BASE -> 0 <= va' < PHYS_BASE -> pde s pd (pd_no va) <> 0 ->
  0 <= v < two32 -> (present v = true -> table v < two32) ->
  entry (stored s (table (pde s pd (pd_no va)) + 4 * pt_no va) v) pd va' =
    if va' / 4096 =? va / 4096 then Some v else entry s pd va'.
Proof.
  intros H Hva Hva' Hne Hv Hpv. pose proof (pd_no_range va Hva). pose proof (pd_no_range va' Hva').
  pose proof (pt_no_range va). pose proof (pt_no_range va').
  destruct (store_pte s pd (pd_no va) (pt_no va) v H) as (_ & Hpde & Hpte); [done..|].
  unfold entry. rewrite Hpde by lia. rewrite (vpage_split va), (vpage_split va').
  destruct (Z.eqb_spec (pde s pd (pd_no va')) 0) as [E|E].
  - destruct (Z.eqb_spec (1024 * pd_no va' + pt_no va') (1024 * pd_no va + pt_no va)) as [E2|]; [|done].
    assert (pd_no va' = pd_no va) by lia. congruence.
  - rewrite Hpte by (done || lia).
    destruct (Z.eqb_spec (pd_no va') (pd_no va)), (Z.eqb_spec (pt_no va') (pt_no va)); cbn [andb];
      destruct (Z.eqb_spec (1024 * pd_no va' + pt_no va') (1024 * pd_no va + pt_no va)); (done || lia).
Qed.

(** *** Creating a table *)

Lemma owned_page_apart s a b :
  owned s a -> a mod 4096 = 0 -> b mod 4096 = 0 ->
  (forall x, in_pages b 1 x = true -> allocated (pal s) x = false) -> a <> b.
Proof.
  intros Ho Ha Hb Hf ->. assert (in_pages b 1 b = true) as Hx.
  { unfold in_pages. rewrite PGSIZE_eq. bool_cases; simpl; (done || lia). }
  pose proof (Ho b Hx). pose proof (Hf b Hx). congruence.
Qed.

Lemma read32_outside m m' a b x :
  a mod 4096 = 0 -> b mod 4096 = 0 -> a <> b -> 0 <= x < 1024 ->
  (forall y, in_pages a 1 y = false -> m' y = m y) -> read32 m' (b + 4 * x) = read32 m (b + 4 * x).
Proof.
  intros Ha Hb Hne Hx Hm. unfold read32. pose proof (Z.div_mod a 4096 ltac:(lia)). pose proof (Z.div_mod b 4096 ltac:(lia)).
  rewrite !Hm; try done; unfold in_pages; rewrite PGSIZE_eq; bool_cases; simpl; (done || lia).
Qed.

Lemma read32_zero m a x :
  a mod 4096 = 0 -> 0 <= x < 1024 -> (forall y, in_pages a 1 y = true -> m y = 0) -> read32 m (a + 4 * x) = 0.
Proof.
  intros Ha Hx Hm. unfold read32. rewrite !Hm; [lia|..]; unfold in_pages; rewrite PGSIZE_eq; bool_cases; simpl; (done || lia).
Qed.

Lemma run_palloc_zero s :
  palloc_ok (pal s) -> PHYS_BASE <= base (kernel_pool (pal s)) ->
  (pcall (palloc_get_page PAL_ZERO) s = Ret (NULL, s) /\ forall i, ~ free_run (kernel_pool (pal s)) i 1) \/
  (exists pt p', pcall (palloc_get_page PAL_ZERO) s = Ret (pt, mkMmu p' (cr3 s) (tlb s)) /\
     palloc_ok p' /\ PHYS_BASE <= base (kernel_pool p') /\ kernel_page pt /\
     (forall x, in_pages pt 1 x = true -> allocated (pal s) x = false) /\
     (forall x, allocated p' x = in_pages pt 1 x || allocated (pal s) x) /\
     (forall x, memory p' x = if in_pages pt 1 x then 0 else mem s x) /\ user_pool p' = user_pool (pal s)).
Proof.
  intros Hok Hb. unfold pcall, palloc_get_page.
  destruct (palloc_get_spec (pal s) PAL_ZERO 1 Hok ltac:(lia)) as [[Hno ->]|(a & s' & Hg & Hok' & Hnn & Hal & H1 & H2 & H3 & H4 & H5)].
  - left. split; [|done]. by destruct s.
  - right. rewrite Hg. exists a, s'. change (the_pool (pal s) (has_flag PAL_ZERO PAL_USER)) with (kernel_pool (pal s)) in *.
    pose proof Hok as ((_ & _ & _ & He) & _).
    assert (Hb' : base (kernel_pool s') = base (kernel_pool (pal s)) /\ user_pool s' = user_pool (pal s)).
    { destruct (palloc_get_cases (pal s) PAL_ZERO 1 Hok ltac:(lia)) as [[_ Hx]|(i & map & _ & _ & Hx)];
        cbv zeta in Hx; rewrite Hx in Hg; [by injection Hg as <- _|]. by injection Hg as _ <-. }
    destruct Hb' as [Hb' Hu']. split; [done|]. split; [done|]. split; [by rewrite Hb'|].
    split; [split; [done|rewrite PGSIZE_eq in *; lia]|]. done.
Qed.

(** A directory entry for a new, zeroed table is installed. *)
Lemma new_table_ok s pd i pt p' :
  pd_ok s pd -> 0 <= i < 768 -> pde s pd i = 0 -> kernel_page pt -> palloc_ok p' ->
  PHYS_BASE <= base (kernel_pool p') ->
  (forall x, in_pages pt 1 x = true -> allocated (pal s) x = false) ->
  (forall x, allocated p' x = in_pages pt 1 x || allocated (pal s) x) ->
  (forall x, memory p' x = if in_pages pt 1 x then 0 else mem s x) ->
  let s' := stored (mkMmu p' (cr3 s) (tlb s)) (pd + 4 * i) (pt - PHYS_BASE + 7) in
  pd_ok s' pd /\ pde s' pd i = pt - PHYS_BASE + 7 /\ table (pde s' pd i) = pt /\
  (forall i', 0 <= i' < 768 -> i' <> i -> pde s' pd i' = pde s pd i') /\
  (forall i' j, 0 <= i' < 768 -> 0 <= j < 1024 -> i' <> i -> pde s pd i' <> 0 -> pte s' pd i' j = pte s pd i' j) /\
  (forall j, 0 <= j < 1024 -> pte s' pd i j = 0).
Proof.
  intros H Hi Hz Hpt Hok Hb Hfree Hal Hmem s'. set (s1 := mkMmu p' (cr3 s) (tlb s)) in *.
  pose proof (pd_aligned s pd H) as Hpa. destruct Hpt as [Hpt Hptr]. destruct (po_pd _ _ H) as [Hkp Hown].
  pose proof (owned_page_apart s pd pt Hown Hpa Hpt Hfree) as Hne.
  assert (Hmem' : forall y, in_pages pt 1 y = false -> mem s1 y = mem s y).
  { intros y Hy. unfold s1, mem. cbn [pal]. by rewrite Hmem, Hy. }
  assert (Hv : 0 <= pt - PHYS_BASE + 7 < two32) by (unfold two32, PHYS_BASE in *; lia).
  destruct (run_vtop pt (conj Hpt Hptr)) as [_ Hpm].
  destruct (page_flags (pt - PHYS_BASE) 7 Hpm ltac:(lia)) as [Hodd Hdiv].
  assert (Htab : table (pt - PHYS_BASE + 7) = pt).
  { unfold table. rewrite Hdiv. pose proof (Z.div_mod (pt - PHYS_BASE) 4096 ltac:(lia)). lia. }
  assert (Hpi : pde s' pd i = pt - PHYS_BASE + 7) by (unfold pde, s', stored, mem; cbn [pal memory]; by apply write32_read_same).
  assert (Hpo : forall i', 0 <= i' < 768 -> i' <> i -> pde s' pd i' = pde s pd i').
  { intros i' Hi' Hii. unfold pde at 1, s', stored, mem. cbn [pal memory].
    rewrite write32_read_other by (destruct (word_apart pd pd i i'); auto; lia).
    apply (read32_outside _ _ pt); auto; lia. }
  assert (Hapart : forall i', 0 <= i' < 768 -> pde s pd i' <> 0 -> table (pde s pd i') <> pt /\ table (pde s pd i') <> pd).
  { intros i' Hi' Hn. destruct (po_pde _ _ H i' Hi' Hn) as (_ & _ & Ho & Hp). split; [|done].
    apply (owned_page_apart s _ _ Ho); [by apply table_aligned|done|done]. }
  assert (Hto : forall i' j, 0 <= i' < 768 -> 0 <= j < 1024 -> i' <> i -> pde s pd i' <> 0 -> pte s' pd i' j = pte s pd i' j).
  { intros i' j Hi' Hj Hii Hn. unfold pte at 1. rewrite Hpo by done. destruct (Hapart i' Hi' Hn) as [Hn1 Hn2].
    pose proof (table_aligned s pd i' H) as Hta. unfold s', stored, mem. cbn [pal memory].
    rewrite write32_read_other by (destruct (word_apart pd (table (pde s pd i')) i j); auto; lia).
    by apply (read32_outside _ _ pt). }
  assert (Htz : forall j, 0 <= j < 1024 -> pte s' pd i j = 0).
  { intros j Hj. unfold pte. rewrite Hpi, Htab. unfold s', stored, mem. cbn [pal memory].
    rewrite write32_read_other by (destruct (word_apart pd pt i j); auto; lia).
    apply read32_zero; [done|done|]. intros y Hy. unfold s1, mem. cbn [pal]. by rewrite Hmem, Hy. }
  split; [|rewrite Hpi; done].
  assert (Hown' : forall a, owned s a -> owned s' a).
  { intros a Ho x Hx. change (allocated (pal s') x) with (allocated p' x). rewrite Hal, (Ho x Hx). apply orb_true_r. }
  split.
  - by split.
  - intros x. apply write32_byte. unfold s1, mem. cbn [pal]. rewrite Hmem. destruct (in_pages pt 1 x); [lia|apply (po_bytes _ _ H)].
  - split; [done|by apply Hown'].
  - intros i' Hi'. destruct (decide (i' = i)) as [->|Hii].
    + rewrite Hpi, Htab. intros _. split_and!; [exact Hodd|lia| |done].
      intros x Hx. change (allocated (pal s') x) with (allocated p' x). by rewrite Hal, Hx.
    + rewrite Hpo by done. intros Hn. destruct (po_pde _ _ H i' Hi' Hn) as (? & ? & ? & ?). split_and!; auto.
  - intros i1 i2 H1 H2. destruct (decide (i1 = i)) as [->|N1], (decide (i2 = i)) as [->|N2]; [done| | |].
    + rewrite Hpi, Htab, Hpo by done. intros _ Hn E. by destruct (Hapart i2 H2 Hn).
    + rewrite Hpi, Htab, Hpo by done. intros Hn _ E. by destruct (Hapart i1 H1 Hn).
    + rewrite !Hpo by done. by apply (po_inj _ _ H).
  - intros i' j Hi' Hj. destruct (decide (i' = i)) as [->|Hii]; [rewrite Htz by done; done|].
    rewrite Hpo by done. intros Hn. rewrite Hto by done. by apply (po_pte _ _ H).
Qed.

(** [s'] is [s] with a new, empty table in the page [pt] for the directory
    entry [i]. *)
Record new_table (s s' : mmu) (pd i pt : Z) : Prop := mkNewTable {
  nt_old : pde s pd i = 0;
  nt_page : kernel_page pt;
  nt_free x : in_pages pt 1 x = true -> allocated (pal s) x = false;
  nt_alloc x : allocated (pal s') x = in_pages pt 1 x || allocated (pal s) x;
  nt_pde : pde s' pd i = pt - PHYS_BASE + 7 /\ table (pde s' pd i) = pt;
  nt_pdes i' : 0 <= i' < 768 -> i' <> i -> pde s' pd i' = pde s pd i';
  nt_ptes i' j : 0 <= i' < 768 -> 0 <= j < 1024 -> i' <> i -> pde s pd i' <> 0 -> pte s' pd i' j = pte s pd i' j;
  nt_zero j : 0 <= j < 1024 -> pte s' pd i j = 0;
  nt_frame x : in_pages pt 1 x = false -> in_pages pd 1 x = false -> mem s' x = mem s x;
  nt_user : user_pool (pal s') = user_pool (pal s);
  nt_cpu : cr3 s' = cr3 s /\ tlb s' = tlb s
}.

(** [lookup_page] with [create] set: it finds the entry, making an empty
    table for it if needed, unless no page is free. *)
Lemma run_lookup_create s pd va :
  pd_ok s pd -> 0 <= va < PHYS_BASE ->
  (lookup_page pd va true s = Ret (NULL, s) /\ pde s pd (pd_no va) = 0 /\
   forall i, ~ free_run (kernel_pool (pal s)) i 1) \/
  (exists s', pd_ok s' pd /\ pde s' pd (pd_no va) <> 0 /\
     lookup_page pd va true s = Ret (table (pde s' pd (pd_no va)) + 4 * pt_no va, s') /\
     (forall va', 0 <= va' < PHYS_BASE -> entry s' pd va' = entry s pd va' \/
        entry s pd va' = None /\ entry s' pd va' = Some 0) /\
     (s' = s \/ exists pt, new_table s s' pd (pd_no va) pt)).
Proof.
  intros H Hva. destruct (decide (pde s pd (pd_no va) = 0)) as [Hz|Hnz].
  2: { right. exists s. split_and!; [done|done|by apply run_lookup| |by left]. intros; by left. }
  pose proof (pd_no_range va Hva) as Hi. destruct (po_pd _ _ H) as [Hk _]. pose proof (kernel_page_nonnull _ Hk).
  destruct (po_pal _ _ H) as [Hok Hb]. unfold lookup_page.
  sassert by (by destruct (Z.eqb_spec pd NULL)).
  sassert by (unfold is_user_vaddr; destruct (Z.ltb_spec va PHYS_BASE); [done|lia]). cbv zeta.
  sstep (run_load s (pd + 4 * pd_no va)). change (read32 (mem s) (pd + 4 * pd_no va)) with (pde s pd (pd_no va)).
  rewrite Hz. cbn [Z.eqb].
  destruct (run_palloc_zero s Hok Hb) as [[Hp Hno]|(pt & p' & Hp & Hok' & Hb' & Hpt & Hfr & Hal & Hm & Hup)].
  - left. split; [|done]. unfold sbind at 1. unfold sbind at 1. rewrite Hp. done.
  - right. destruct (new_table_ok s pd (pd_no va) pt p' H Hi Hz Hpt Hok' Hb' Hfr Hal Hm) as (H' & Hpi & Htab & Hpo & Hto & Htz).
    set (s1 := mkMmu p' (cr3 s) (tlb s)) in *. set (s' := stored s1 (pd + 4 * pd_no va) (pt - PHYS_BASE + 7)) in *.
    exists s'. split; [done|].
    assert (Hne : pde s' pd (pd_no va) <> 0) by (rewrite Hpi; destruct Hpt as [_ ?]; unfold PHYS_BASE in *; lia).
    split; [done|]. split_and!.
    + destruct (run_vtop pt Hpt) as [Hvt Hpm].
      assert (Hc : pde_create pt = Ret (pt - PHYS_BASE + 7)).
      { unfold pde_create. rewrite pg_ofs_mod. destruct Hpt as [Hpt _]. rewrite PGSIZE_eq, Hpt. cbn [Z.eqb ASSERT obind].
        rewrite Hvt. cbn [obind]. f_equal. rewrite <- !Z.lor_assoc. apply (lor_flags _ 7); [done|lia]. }
      assert (Hin : (do! pt0 := pcall (palloc_get_page PAL_ZERO) in
          if pt0 =? NULL then sret false else
          do! v := lift (pde_create pt0) in do! _ := store (pd + 4 * pd_no va) v in sret true) s = Ret (true, s')).
      { sstep Hp. destruct (Z.eqb_spec pt NULL); [by apply kernel_page_nonnull in Hpt|].
        sstep (run_lift _ _ s1 Hc). done. }
      sstep Hin. sstep (run_load s' (pd + 4 * pd_no va)).
      sstep (run_lift _ _ s' (run_get_pt s' pd (pd_no va) H' Hi Hne)). done.
    + intros va' Hva'. pose proof (pd_no_range va' Hva'). pose proof (pt_no_range va'). unfold entry.
      destruct (decide (pd_no va' = pd_no va)) as [E|E].
      * right. rewrite E, Hz. destruct (Z.eqb_spec (pde s' pd (pd_no va)) 0); [done|]. by rewrite Htz.
      * left. rewrite Hpo by done. destruct (Z.eqb_spec (pde s pd (pd_no va')) 0); [done|]. by rewrite Hto.
    + right. exists pt. split; try done. intros x Hx1 Hx2. unfold s', stored, mem. cbn [pal memory].
      rewrite write32_outside, Hm, Hx1; [done|]. unfold in_pages in Hx2. rewrite PGSIZE_eq in Hx2.
      bool_cases; simpl in Hx2; (done || lia).
Qed.

(** Translation follows entries; an empty entry translates like none. *)
Lemma translate_ext s s' pd va :
  entry s' pd va = entry s pd va \/ entry s pd va = None /\ entry s' pd va = Some 0 ->
  translate s' pd va = translate s pd va.
Proof. unfold translate. intros [->|[-> ->]]; done. Qed.

(** *** Changing an existing entry *)

(** The entry that [pagedir_set_page] writes. *)
Definition user_entry (kpage : Z) (writable : bool) : Z :=
  kpage - PHYS_BASE + (if writable then 7 else 5).

Lemma user_entry_facts kpage w :
  kernel_page kpage -> 0 <= user_entry kpage w < two32 /\ present (user_entry kpage w) = true /\
  table (user_entry kpage w) = kpage /\ pte_create_user kpage w = Ret (user_entry kpage w).
Proof.
  intros Hk. destruct (run_vtop kpage Hk) as [Hv Hm]. destruct Hk as [Ha Hr].
  destruct (page_flags (kpage - PHYS_BASE) (if w then 7 else 5) Hm ltac:(destruct w; lia)) as [Hp Hd].
  unfold user_entry. split_and!.
  - unfold PHYS_BASE in *. destruct w; lia.
  - unfold two32, PHYS_BASE in *. destruct w; lia.
  - rewrite Hp. by destruct w.
  - unfold table. rewrite Hd. pose proof (Z.div_mod (kpage - PHYS_BASE) 4096 ltac:(lia)). lia.
  - unfold pte_create_user, pte_create_kernel. rewrite pg_ofs_mod, PGSIZE_eq, Ha. cbn [Z.eqb ASSERT obind].
    rewrite Hv. cbn [obind]. f_equal. rewrite <- !Z.lor_assoc.
    destruct w; [apply (lor_flags _ 7)|apply (lor_flags _ 5)]; (done || lia).
Qed.

Lemma land_bound32 e b : 0 <= e < two32 -> 0 <= b -> 0 <= Z.land e b < two32.
Proof. intros He Hb. apply (land_bound 32); (done || lia). Qed.

(** Clearing a flag below bit 12 keeps the address of the entry. *)
Lemma clear_flag e b :
  0 <= e < two32 -> 0 <= b < 12 ->
  let e' := Z.land e (u32 (Z.lnot (2 ^ b))) in
  0 <= e' < two32 /\ e' / 4096 = e / 4096 /\ forall j, 0 <= j -> Z.testbit e' j = if j =? b then false else Z.testbit e j.
Proof.
  intros He Hb e'. assert (Hbits : forall j, 0 <= j -> Z.testbit e' j = if j =? b then false else Z.testbit e j).
  { intros j Hj. unfold e', u32. rewrite Z.land_spec. change two32 with (2 ^ 32). destruct (Z_lt_le_dec j 32).
    - rewrite Z.mod_pow2_bits_low, Z.lnot_spec by lia. rewrite Z.pow2_bits_eqb by lia. rewrite (Z.eqb_sym b j).
      destruct (j =? b); [apply andb_false_r|apply andb_true_r].
    - rewrite (testbit_high e 32 j) by (unfold two32 in He; lia). by destruct (j =? b). }
  split; [apply land_bound32; [done|apply u32_range]|]. split; [|done].
  change 4096 with (2 ^ 12). rewrite <- !Z.shiftr_div_pow2 by lia. apply Z.bits_inj'. intros j Hj.
  rewrite !Z.shiftr_spec, Hbits by lia. destruct (Z.eqb_spec (j + 12) b); [lia|done].
Qed.

Lemma set_flag e b :
  0 <= e < two32 -> 0 <= b < 12 ->
  let e' := Z.lor e (2 ^ b) in
  0 <= e' < two32 /\ e' / 4096 = e / 4096 /\ forall j, 0 <= j -> Z.testbit e' j = (j =? b) || Z.testbit e j.
Proof.
  intros He Hb e'. assert (Hbits : forall j, 0 <= j -> Z.testbit e' j = (j =? b) || Z.testbit e j).
  { intros j Hj. unfold e'. rewrite Z.lor_spec, Z.pow2_bits_eqb by lia. rewrite (Z.eqb_sym b j). apply orb_comm. }
  split; [|split; [|done]].
  - apply (lor_bound 32); [lia|done|]. split; [apply Z.pow_nonneg; lia|apply Z.pow_lt_mono_r; lia].
  - change 4096 with (2 ^ 12). rewrite <- !Z.shiftr_div_pow2 by lia. apply Z.bits_inj'. intros j Hj.
    rewrite !Z.shiftr_spec, Hbits by lia. destruct (Z.eqb_spec (j + 12) b); [lia|done].
Qed.

Lemma flag_testbit e b : 0 <= b -> negb (Z.land e (2 ^ b) =? 0) = Z.testbit e b.
Proof.
  intros Hb. destruct (Z.testbit e b) eqn:E.
  - destruct (Z.eqb_spec (Z.land e (2 ^ b)) 0) as [H|H]; [|done].
    assert (Z.testbit (Z.land e (2 ^ b)) b = true) by (rewrite Z.land_spec, E, Z.pow2_bits_true by done; done).
    rewrite H, Z.bits_0 in *. done.
  - assert (Z.land e (2 ^ b) = 0) as ->; [|done]. apply Z.bits_inj'. intros j Hj. rewrite Z.land_spec, Z.bits_0.
    rewrite Z.pow2_bits_eqb by lia. destruct (Z.eqb_spec b j) as [<-|]; [by rewrite E|apply andb_false_r].
Qed.

Lemma present_testbit e : present e = Z.testbit e 0.
Proof. apply (flag_testbit e 0). lia. Qed.

Lemma table_div e e' : e' / 4096 = e / 4096 -> table e' = table e.
Proof. unfold table. by intros ->. Qed.

(** The state after the translation lookaside buffer has been flushed, if
    [pd] is the active page directory. *)
Definition flushed (s : mmu) (pd : Z) : mmu :=
  if u32 (cr3 s + PHYS_BASE) =? pd then mkMmu (pal s) (cr3 s) [] else s.

Lemma run_invalidate ipd s pd :
  kernel_page pd -> 0 <= cr3 s < two32 - PHYS_BASE -> invalidate_pagedir ipd pd s = Ret (tt, flushed s pd).
Proof.
  intros Hk Hc. unfold invalidate_pagedir, flushed.
  assert (Ha : active_pd s = Ret (u32 (cr3 s + PHYS_BASE), s)).
  { unfold active_pd, ptov, PHYS_BASE, two32 in *. destruct (Z.ltb_spec (cr3 s) 3221225472); [|lia].
    cbn [ASSERT obind lift]. done. }
  sstep Ha. destruct (Z.eqb_spec (u32 (cr3 s + PHYS_BASE)) pd) as [E|_]; [|done].
  unfold pagedir_activate. pose proof (kernel_page_nonnull pd Hk). destruct (Z.eqb_spec pd NULL); [done|].
  destruct (run_vtop pd Hk) as [Hv _]. sstep (run_lift _ _ s Hv). do 3 f_equal.
  rewrite u32_small in E by (unfold is_u32, PHYS_BASE, two32 in *; lia). lia.
Qed.

Lemma flushed_entry s pd pd' va : entry (flushed s pd) pd' va = entry s pd' va /\ (pd_ok s pd' -> pd_ok (flushed s pd) pd').
Proof. unfold flushed. destruct (_ =? pd); [|done]. split; [done|]. by intros []. Qed.

Lemma run_set_page_prefix ipd ram s pd upage kpage w :
  0 <= upage < PHYS_BASE -> upage mod 4096 = 0 -> kernel_page kpage -> (kpage - PHYS_BASE) / 4096 < ram -> pd <> ipd ->
  pagedir_set_page ipd ram pd upage kpage w s =
    (do! a := lookup_page pd upage true in
     if negb (a =? NULL) then
       do! e := load a in
       do! _ := assert_ (Z.land e PTE_P =? 0) in
       do! v := lift (pte_create_user kpage w) in
       do! _ := store a v in sret true
     else sret false) s.
Proof.
  intros Hu Ha Hk Hr Hne. unfold pagedir_set_page. destruct (run_vtop kpage Hk) as [Hv _]. pose proof Hk as [Hka _].
  sassert by (by rewrite pg_ofs_mod, PGSIZE_eq, Ha). sassert by (by rewrite pg_ofs_mod, PGSIZE_eq, Hka).
  sassert by (unfold is_user_vaddr; destruct (Z.ltb_spec upage PHYS_BASE); [done|lia]).
  sstep (run_lift _ _ s Hv).
  sassert by (rewrite Z.shiftr_div_pow2 by (unfold PTSHIFT, PGBITS; lia); apply Z.ltb_lt; exact Hr).
  sassert by (by destruct (Z.eqb_spec pd ipd)). done.
Qed.

Lemma page_offset upage ofs : upage mod 4096 = 0 -> 0 <= ofs < 4096 ->
  (upage + ofs) / 4096 = upage / 4096 /\ (upage + ofs) mod 4096 = ofs.
Proof.
  intros Ha Ho. pose proof (Z.div_mod upage 4096 ltac:(lia)). rewrite Ha in *.
  replace (upage + ofs) with (ofs + upage / 4096 * 4096) by lia. split.
  - rewrite Z.div_add, Z.div_small by lia. lia.
  - rewrite Z.mod_add, Z.mod_small by lia. lia.
Qed.

(** ** Theorems *)

(** C22: mapping a page.  [pagedir_set_page] of an unmapped user page either
    fails, changing nothing, because no page is free for a page table that
    is missing; or it succeeds, and then every address of the page translates
    to the same offset in the frame, with the requested permissions, while
    every other user address translates as before.  Mapping a page that is
    mapped already trips an assertion. *)
Theorem pagedir_set_page_correct ipd ram s pd upage kpage w :
  pd_ok s pd -> 0 <= upage < PHYS_BASE -> upage mod 4096 = 0 -> kernel_page kpage ->
  (kpage - PHYS_BASE) / 4096 < ram -> pd <> ipd ->
  (translate s pd upage = NULL ->
   (pagedir_set_page ipd ram pd upage kpage w s = Ret (false, s) /\
    entry s pd upage = None /\ forall i, ~ free_run (kernel_pool (pal s)) i 1) \/
   exists s', pagedir_set_page ipd ram pd upage kpage w s = Ret (true, s') /\ pd_ok s' pd /\
     entry s' pd upage = Some (user_entry kpage w) /\
     (forall ofs, 0 <= ofs < 4096 -> pagedir_get_page pd (upage + ofs) s' = Ret (kpage + ofs, s')) /\
     (forall va, 0 <= va < PHYS_BASE -> va / 4096 <> upage / 4096 ->
        exists r, pagedir_get_page pd va s = Ret (r, s) /\ pagedir_get_page pd va s' = Ret (r, s'))) /\
  (translate s pd upage <> NULL -> pagedir_set_page ipd ram pd upage kpage w s = Err AssertFailed).
Proof.
  intros H Hu Ha Hk Hr Hne. destruct (user_entry_facts kpage w Hk) as (Hv & Hp & Ht & Hc).
  rewrite (run_set_page_prefix ipd ram s pd upage kpage w Hu Ha Hk Hr Hne). split.
  - intros Hun. destruct (run_lookup_create s pd upage H Hu) as [(Hl & Hz & Hno)|(s1 & H1 & Hnz & Hl & He & _)].
    { left. sstep Hl. split_and!; [done| |done]. unfold entry. by rewrite Hz. }
    right. sstep Hl. pose proof (pte_address_nonnull s1 pd upage H1).
    destruct (Z.eqb_spec (table (pde s1 pd (pd_no upage)) + 4 * pt_no upage) NULL); [done|]. cbn [negb].
    sstep (run_load s1 (table (pde s1 pd (pd_no upage)) + 4 * pt_no upage)).
    change (read32 (mem s1) _) with (pte s1 pd (pd_no upage) (pt_no upage)).
    assert (Hnp : present (pte s1 pd (pd_no upage) (pt_no upage)) = false).
    { rewrite <- (translate_ext s s1 pd upage (He upage Hu)) in Hun. unfold translate, entry in Hun.
      destruct (Z.eqb_spec (pde s1 pd (pd_no upage)) 0); [done|].
      destruct (present (pte s1 pd (pd_no upage) (pt_no upage))); [|done].
      destruct (table_page (pte s1 pd (pd_no upage) (pt_no upage))) as [_ Hx]; [apply (pte_range s1 pd _ _ H1)|].
      unfold NULL, PHYS_BASE in *. pose proof (Z.mod_pos_bound upage 4096 ltac:(lia)). exfalso. lia. }
    unfold present in Hnp. apply negb_false_iff in Hnp. sassert by done.
    sstep (run_lift _ _ s1 Hc). set (a := table (pde s1 pd (pd_no upage)) + 4 * pt_no upage) in *.
    sstep (run_store s1 a (user_entry kpage w)). exists (stored s1 a (user_entry kpage w)).
    pose proof (pd_no_range upage Hu) as Hi. pose proof (pt_no_range upage) as Hj.
    destruct (store_pte s1 pd (pd_no upage) (pt_no upage) (user_entry kpage w) H1 Hi Hj Hnz Hv) as (H2 & _);
      [intros _; rewrite Ht; apply Hk|]. fold a in H2.
    assert (Hent : forall va, 0 <= va < PHYS_BASE -> entry (stored s1 a (user_entry kpage w)) pd va =
      if va / 4096 =? upage / 4096 then Some (user_entry kpage w) else entry s1 pd va).
    { intros va Hva. apply store_entry; try done. intros _. rewrite Ht. apply Hk. }
    split; [done|]. split; [done|]. split; [by rewrite Hent, Z.eqb_refl|]. split.
    + intros ofs Ho. destruct (page_offset upage ofs Ha Ho) as [Hd Hm].
      assert (Huo : 0 <= upage + ofs < PHYS_BASE).
      { unfold PHYS_BASE in *. pose proof (Z.div_mod upage 4096 ltac:(lia)). lia. }
      rewrite run_get_page by done. unfold translate. rewrite Hent, Hd, Z.eqb_refl, Hp, Ht, Hm by done. done.
    + intros va Hva Hvp. exists (translate s pd va). rewrite !run_get_page by done. split; [done|].
      do 2 f_equal. unfold translate at 1. rewrite Hent by done. destruct (Z.eqb_spec (va / 4096) (upage / 4096)); [done|].
      apply (translate_ext s s1 pd va (He va Hva)).
  - intros Hm. unfold translate, entry in Hm. destruct (Z.eqb_spec (pde s pd (pd_no upage)) 0) as [|Hnz]; [done|].
    sstep (run_lookup s pd upage true H Hu Hnz). pose proof (pte_address_nonnull s pd upage H).
    destruct (Z.eqb_spec (table (pde s pd (pd_no upage)) + 4 * pt_no upage) NULL); [done|]. cbn [negb].
    sstep (run_load s (table (pde s pd (pd_no upage)) + 4 * pt_no upage)).
    change (read32 (mem s) _) with (pte s pd (pd_no upage) (pt_no upage)).
    destruct (present (pte s pd (pd_no upage) (pt_no upage))) eqn:E; [|done]. unfold present in E. apply negb_true_iff in E.
    unfold sbind, assert_, lift. by rewrite E.
Qed.

(** Unmapping a page.  After [pagedir_clear_page] no address of the page
    translates and every other user address translates as before; if a
    mapping was removed and the page directory is the active one, the
    translation lookaside buffer has been emptied. *)
Theorem pagedir_clear_page_correct ipd s pd upage :
  pd_ok s pd -> 0 <= upage < PHYS_BASE -> upage mod 4096 = 0 -> 0 <= cr3 s < two32 - PHYS_BASE ->
  exists s', pagedir_clear_page ipd pd upage s = Ret (tt, s') /\ pd_ok s' pd /\
    (forall ofs, 0 <= ofs < 4096 -> pagedir_get_page pd (upage + ofs) s' = Ret (NULL, s')) /\
    (forall va, 0 <= va < PHYS_BASE -> va / 4096 <> upage / 4096 ->
       exists r, pagedir_get_page pd va s = Ret (r, s) /\ pagedir_get_page pd va s' = Ret (r, s')) /\
    (translate s pd upage <> NULL -> cr3 s + PHYS_BASE = pd -> tlb s' = []).
Proof.
  intros H Hu Ha Hc. unfold pagedir_clear_page. destruct (po_pd _ _ H) as [Hk _].
  sassert by (by rewrite pg_ofs_mod, PGSIZE_eq, Ha).
  sassert by (unfold is_user_vaddr; destruct (Z.ltb_spec upage PHYS_BASE); [done|lia]).
  assert (Huo : forall ofs, 0 <= ofs < 4096 -> 0 <= upage + ofs < PHYS_BASE).
  { intros ofs Ho. unfold PHYS_BASE in *. pose proof (Z.div_mod upage 4096 ltac:(lia)). lia. }
  assert (Hent0 : forall ofs, 0 <= ofs < 4096 -> entry s pd (upage + ofs) = entry s pd upage).
  { intros ofs Ho. destruct (page_offset upage ofs Ha Ho) as [Hd _]. pose proof (vpage_split (upage + ofs)) as E1.
    pose proof (vpage_split upage). pose proof (pt_no_range upage). pose proof (pt_no_range (upage + ofs)).
    unfold entry. replace (pd_no (upage + ofs)) with (pd_no upage) by lia.
    by replace (pt_no (upage + ofs)) with (pt_no upage) by lia. }
  assert (Hsame : match entry s pd upage with Some e => present e = false | None => True end ->
    forall ofs, 0 <= ofs < 4096 -> pagedir_get_page pd (upage + ofs) s = Ret (NULL, s)).
  { intros Hn ofs Ho. rewrite run_get_page by auto. unfold translate. rewrite Hent0 by done.
    destruct (entry s pd upage); [by rewrite Hn|done]. }
  assert (Hself : forall va, 0 <= va < PHYS_BASE -> va / 4096 <> upage / 4096 ->
     exists r, pagedir_get_page pd va s = Ret (r, s) /\ pagedir_get_page pd va s = Ret (r, s)).
  { intros va Hva _. rewrite run_get_page by done. eauto. }
  unfold translate in *. unfold entry in Hsame at 1. destruct (Z.eqb_spec (pde s pd (pd_no upage)) 0) as [Hz|Hnz].
  { exists s. sstep (run_lookup_none s pd upage H Hu Hz). split_and!; auto. unfold entry. by rewrite Hz. }
  sstep (run_lookup s pd upage false H Hu Hnz). pose proof (pte_address_nonnull s pd upage H).
  destruct (Z.eqb_spec (table (pde s pd (pd_no upage)) + 4 * pt_no upage) NULL); [done|].
  set (a := table (pde s pd (pd_no upage)) + 4 * pt_no upage) in *. sstep (run_load s a).
  change (read32 (mem s) a) with (pte s pd (pd_no upage) (pt_no upage)).
  set (e := pte s pd (pd_no upage) (pt_no upage)) in *. fold (present e).
  destruct (present e) eqn:Ep.
  2: { exists s. split_and!; auto. unfold entry. destruct (Z.eqb_spec (pde s pd (pd_no upage)) 0); [done|]. fold e. by rewrite Ep. }
  pose proof (pte_range s pd (pd_no upage) (pt_no upage) H) as Hr. fold e in Hr.
  destruct (clear_flag e 0 Hr ltac:(lia)) as (Hr' & Hd' & Hb'). change (2 ^ 0) with PTE_P in *.
  set (e' := Z.land e (u32 (Z.lnot PTE_P))) in *.
  assert (Hp' : present e' = false) by (rewrite present_testbit, Hb' by lia; done).
  sstep (run_store s a e'). pose proof (pd_no_range upage Hu) as Hi. pose proof (pt_no_range upage) as Hj.
  destruct (store_pte s pd (pd_no upage) (pt_no upage) e' H Hi Hj Hnz Hr') as (H2 & _); [congruence|]. fold a in H2.
  rewrite (run_invalidate ipd (stored s a e') pd Hk Hc). set (s2 := stored s a e') in *.
  exists (flushed s2 pd). destruct (flushed_entry s2 pd pd upage) as [_ Hfo]. specialize (Hfo H2).
  assert (Hent : forall va, 0 <= va < PHYS_BASE -> entry (flushed s2 pd) pd va =
    if va / 4096 =? upage / 4096 then Some e' else entry s pd va).
  { intros va Hva. rewrite (proj1 (flushed_entry s2 pd pd va)). apply store_entry; try done. congruence. }
  split; [done|]. split; [done|]. split_and!.
  - intros ofs Ho. rewrite run_get_page by auto. unfold translate. rewrite Hent by auto.
    destruct (page_offset upage ofs Ha Ho) as [-> _]. by rewrite Z.eqb_refl, Hp'.
  - intros va Hva Hvp. exists (translate s pd va). rewrite !run_get_page by done. split; [done|].
    do 2 f_equal. unfold translate. rewrite Hent by done. by destruct (Z.eqb_spec (va / 4096) (upage / 4096)).
  - intros _ Hcr. unfold flushed. change (cr3 s2) with (cr3 s). rewrite u32_small by (unfold is_u32, PHYS_BASE, two32 in *; lia).
    by rewrite Hcr, Z.eqb_refl.
Qed.

(** *** Dirty and accessed bits *)

Definition flag_of (s : mmu) (pd va b : Z) : bool :=
  match entry s pd va with Some e => Z.testbit e b | None => false end.

Lemma run_is s pd va b :
  pd_ok s pd -> 0 <= va < PHYS_BASE -> 0 <= b -> pagedir_is (2 ^ b) pd va s = Ret (flag_of s pd va b, s).
Proof.
  intros H Hva Hb. unfold pagedir_is, flag_of, entry. destruct (Z.eqb_spec (pde s pd (pd_no va)) 0) as [Hz|Hnz].
  - sstep (run_lookup_none s pd va H Hva Hz). done.
  - sstep (run_lookup s pd va false H Hva Hnz). pose proof (pte_address_nonnull s pd va H).
    destruct (Z.eqb_spec (table (pde s pd (pd_no va)) + 4 * pt_no va) NULL); [done|].
    sstep (run_load s (table (pde s pd (pd_no va)) + 4 * pt_no va)). by rewrite flag_testbit.
Qed.

(** Setting or clearing one of the flags 1 to 11 in the entry of a page. *)
Lemma run_set ipd s pd va b v :
  pd_ok s pd -> 0 <= va < PHYS_BASE -> 0 < b < 12 -> 0 <= cr3 s < two32 - PHYS_BASE ->
  exists s', pagedir_set ipd (2 ^ b) pd va v s = Ret (tt, s') /\ pd_ok s' pd /\
    (forall va', 0 <= va' < PHYS_BASE -> translate s' pd va' = translate s pd va') /\
    (forall va' b', 0 <= va' < PHYS_BASE -> 0 <= b' -> flag_of s' pd va' b' =
       if (va' / 4096 =? va / 4096) && (b' =? b) then v && bool_decide (is_Some (entry s pd va))
       else flag_of s pd va' b') /\
    (v = false -> is_Some (entry s pd va) -> cr3 s + PHYS_BASE = pd -> tlb s' = []).
Proof.
  intros H Hva Hb Hc. destruct (po_pd _ _ H) as [Hk _]. unfold pagedir_set.
  assert (Hsame : forall va', va' / 4096 = va / 4096 -> entry s pd va' = entry s pd va).
  { intros va' E. pose proof (vpage_split va). pose proof (vpage_split va'). pose proof (pt_no_range va).
    pose proof (pt_no_range va'). unfold entry. assert (Ep : pd_no va' = pd_no va) by lia.
    assert (Et : pt_no va' = pt_no va) by lia. by rewrite Ep, Et. }
  destruct (Z.eqb_spec (pde s pd (pd_no va)) 0) as [Hz|Hnz].
  - sstep (run_lookup_none s pd va H Hva Hz). exists s.
    assert (He : entry s pd va = None) by (unfold entry; by rewrite Hz).
    split_and!; [done|done|done| |intros _ [? ?]; congruence]. intros va' b' Hva' Hb'.
    rewrite He, bool_decide_false by (by intros [? ?]). rewrite andb_false_r.
    destruct (Z.eqb_spec (va' / 4096) (va / 4096)) as [E|]; [|done]. destruct (b' =? b); [|done].
    unfold flag_of. by rewrite (Hsame va' E), He.
  - sstep (run_lookup s pd va false H Hva Hnz). pose proof (pte_address_nonnull s pd va H).
    destruct (Z.eqb_spec (table (pde s pd (pd_no va)) + 4 * pt_no va) NULL); [done|].
    set (a := table (pde s pd (pd_no va)) + 4 * pt_no va) in *. sstep (run_load s a).
    set (e := read32 (mem s) a) in *. set (e' := if v then Z.lor e (2 ^ b) else Z.land e (u32 (Z.lnot (2 ^ b)))).
    assert (He : entry s pd va = Some e) by (unfold entry; by destruct (Z.eqb_spec (pde s pd (pd_no va)) 0)).
    pose proof (pte_range s pd (pd_no va) (pt_no va) H) as Hr. change (pte s pd (pd_no va) (pt_no va)) with e in Hr.
    assert (He' : 0 <= e' < two32 /\ e' / 4096 = e / 4096 /\
      forall j, 0 <= j -> Z.testbit e' j = if j =? b then v else Z.testbit e j).
    { unfold e'. destruct v; [destruct (set_flag e b Hr ltac:(lia)) as (? & ? & Hx)|apply clear_flag; [done|lia]].
      split; [done|]. split; [done|]. intros j Hj. rewrite Hx by done. by destruct (j =? b). }
    destruct He' as (Hr' & Hd' & Hb'').
    assert (Hpres : present e' = present e).
    { rewrite !present_testbit, Hb'' by lia. by destruct (Z.eqb_spec 0 b); [lia|]. }
    pose proof (pd_no_range va Hva) as Hi. pose proof (pt_no_range va) as Hj.
    assert (Hte : present e' = true -> table e' < two32).
    { rewrite Hpres, (table_div e e' Hd'). apply (po_pte _ _ H (pd_no va) (pt_no va)); done. }
    destruct (store_pte s pd (pd_no va) (pt_no va) e' H Hi Hj Hnz Hr' Hte) as (H2 & _). fold a in H2.
    assert (Hrun : (if v then store a (Z.lor e (2 ^ b)) else
        do! _ := store a (Z.land e (u32 (Z.lnot (2 ^ b)))) in invalidate_pagedir ipd pd) s =
        Ret (tt, if v then stored s a e' else flushed (stored s a e') pd)).
    { unfold e'. destruct v; [done|]. sstep (run_store s a (Z.land e (u32 (Z.lnot (2 ^ b))))). by apply run_invalidate. }
    rewrite Hrun. eexists. split; [done|]. set (s2 := if v then stored s a e' else flushed (stored s a e') pd).
    assert (Hs2 : pd_ok s2 pd) by (unfold s2; destruct v; [done|by apply (flushed_entry (stored s a e') pd pd 0)]).
    assert (Hent : forall va', 0 <= va' < PHYS_BASE -> entry s2 pd va' =
      if va' / 4096 =? va / 4096 then Some e' else entry s pd va').
    { intros va' Hva'. assert (entry s2 pd va' = entry (stored s a e') pd va') as ->
        by (unfold s2; destruct v; [done|apply (proj1 (flushed_entry (stored s a e') pd pd va'))]).
      by apply store_entry. }
    split; [done|]. split_and!.
    + intros va' Hva'. unfold translate. rewrite Hent by done. destruct (Z.eqb_spec (va' / 4096) (va / 4096)) as [E|]; [|done].
      by rewrite (Hsame va' E), He, Hpres, (table_div e e' Hd').
    + intros va' b' Hva' Hb'. unfold flag_of. rewrite Hent, He, bool_decide_true by (done || by eexists).
      rewrite andb_true_r. destruct (Z.eqb_spec (va' / 4096) (va / 4096)) as [E|]; [|done]. cbn [andb].
      rewrite (Hsame va' E), He. by apply Hb''.
    + intros -> _ Hcr. unfold s2, flushed. change (cr3 (stored s a e')) with (cr3 s).
      rewrite u32_small by (unfold is_u32, PHYS_BASE, two32 in *; lia). by rewrite Hcr, Z.eqb_refl.
Qed.

(** dirty and accessed bits.  [pagedir_set_dirty] makes
    [pagedir_is_dirty] return the new value for the page (false if it has no
    page table), and changes no accessed bit, no other page and no
    translation; likewise [pagedir_set_accessed].  Clearing a bit in the
    active page directory empties the translation lookaside buffer. *)
Theorem pagedir_bits_correct ipd s pd vpage v :
  pd_ok s pd -> 0 <= vpage < PHYS_BASE -> 0 <= cr3 s < two32 - PHYS_BASE ->
  (exists s', pagedir_set_dirty ipd pd vpage v s = Ret (tt, s') /\ pd_ok s' pd /\
     pagedir_is_dirty pd vpage s' = Ret (v && bool_decide (is_Some (entry s pd vpage)), s') /\
     (forall va, 0 <= va < PHYS_BASE ->
        translate s' pd va = translate s pd va /\ flag_of s' pd va 5 = flag_of s pd va 5 /\
        (va / 4096 <> vpage / 4096 -> flag_of s' pd va 6 = flag_of s pd va 6)) /\
     (v = false -> is_Some (entry s pd vpage) -> cr3 s + PHYS_BASE = pd -> tlb s' = [])) /\
  (exists s', pagedir_set_accessed ipd pd vpage v s = Ret (tt, s') /\ pd_ok s' pd /\
     pagedir_is_accessed pd vpage s' = Ret (v && bool_decide (is_Some (entry s pd vpage)), s') /\
     (forall va, 0 <= va < PHYS_BASE ->
        translate s' pd va = translate s pd va /\ flag_of s' pd va 6 = flag_of s pd va 6 /\
        (va / 4096 <> vpage / 4096 -> flag_of s' pd va 5 = flag_of s pd va 5)) /\
     (v = false -> is_Some (entry s pd vpage) -> cr3 s + PHYS_BASE = pd -> tlb s' = [])).
Proof.
  intros H Hva Hc. split.
  - destruct (run_set ipd s pd vpage 6 v H Hva ltac:(lia) Hc) as (s' & H1 & H2 & H3 & H4 & H5).
    exists s'. split; [exact H1|]. split; [done|]. split; [|split; [|done]].
    + unfold pagedir_is_dirty. change PTE_D with (2 ^ 6). rewrite run_is by (done || lia).
      rewrite H4 by (done || lia). by rewrite !Z.eqb_refl.
    + intros va Hv'. split; [auto|]. rewrite !H4 by (done || lia). split; [by rewrite andb_false_r|].
      intros Hne. by destruct (Z.eqb_spec (va / 4096) (vpage / 4096)).
  - destruct (run_set ipd s pd vpage 5 v H Hva ltac:(lia) Hc) as (s' & H1 & H2 & H3 & H4 & H5).
    exists s'. split; [exact H1|]. split; [done|]. split; [|split; [|done]].
    + unfold pagedir_is_accessed. change PTE_A with (2 ^ 5). rewrite run_is by (done || lia).
      rewrite H4 by (done || lia). by rewrite !Z.eqb_refl.
    + intros va Hv'. split; [auto|]. rewrite !H4 by (done || lia). split; [by rewrite andb_false_r|].
      intros Hne. by destruct (Z.eqb_spec (va / 4096) (vpage / 4096)).
Qed.

(** *** A concrete page directory, empty, in the first page of a kernel pool
    of four pages *)

Definition demo_mmu : mmu :=
  mkMmu (mkPalloc (mkPool (mkBitmap 4 [1]) 3222278144) (mkPool (mkBitmap 3 [0]) 3222302720) (fun _ => 0)) 0 [(1, 1)].

Lemma demo_pd_ok : pd_ok demo_mmu 3222278144.
Proof.
  split; try done.
  - unfold palloc_ok, pool_ok, bitmap_wf, pool_end, two32. rewrite PGSIZE_eq. simpl.
    split_and!; try done; try lia; repeat constructor; lia.
  - split; [split; [done|unfold PHYS_BASE, two32; lia]|]. intros x Hx. unfold in_pages in Hx. rewrite PGSIZE_eq in Hx.
    unfold allocated, pool_used, pool_end. rewrite PGSIZE_eq. simpl.
    assert ((x - 3222278144) / 4096 = 0) as -> by (apply Z.div_small; bool_cases; simpl in Hx; (lia || done)).
    bool_cases; simpl in *; (done || lia).
Qed.

Lemma pagedir_set_page_correct_witness :
  exists s', pagedir_set_page 0 1024 3222278144 8192 3222302720 true demo_mmu = Ret (true, s') /\
    pagedir_get_page 3222278144 (8192 + 5) s' = Ret (3222302720 + 5, s').
Proof.
  destruct (pagedir_set_page_correct 0 1024 demo_mmu 3222278144 8192 3222302720 true demo_pd_ok) as [H _];
    [unfold PHYS_BASE; lia|reflexivity|split; [reflexivity|unfold PHYS_BASE, two32; lia]|reflexivity|discriminate|].
  destruct (H ltac:(reflexivity)) as [(_ & _ & Hno)|(s' & H1 & _ & _ & H2 & _)].
  - destruct (Hno 1). split; [lia|]. split; [simpl; lia|]. intros j Hj. by replace j with 1 by lia.
  - exists s'. split; [exact H1|]. apply H2. lia.
Defined.

Lemma pagedir_clear_page_correct_witness :
  exists s', pagedir_clear_page 0 3222278144 8192 demo_mmu = Ret (tt, s') /\
    pagedir_get_page 3222278144 (8192 + 5) s' = Ret (NULL, s').
Proof.
  destruct (pagedir_clear_page_correct 0 demo_mmu 3222278144 8192 demo_pd_ok) as (s' & H1 & _ & H2 & _);
    [unfold PHYS_BASE; lia|reflexivity|simpl; unfold PHYS_BASE, two32; lia|].
  exists s'. split; [exact H1|]. apply H2. lia.
Defined.

Lemma pagedir_bits_correct_witness :
  exists s', pagedir_set_dirty 0 3222278144 8192 true demo_mmu = Ret (tt, s') /\
    pagedir_is_dirty 3222278144 8192 s' = Ret (false, s').
Proof.
  destruct (pagedir_bits_correct 0 demo_mmu 3222278144 8192 true demo_pd_ok) as ((s' & H1 & _ & H2 & _) & _);
    [unfold PHYS_BASE; lia|simpl; unfold PHYS_BASE, two32; lia|].
  exists s'. split; [exact H1|exact H2].
Defined.
