(* ===== verification/AddrSpace.v ===== *)
(** * Address spaces: the pages of a process

    A page directory, its page tables and the frames they map, as one object
    with an owner.  [view] is the memory that user code sees: the byte at a
    virtual address and whether it may be written.  [vm_ok s pd R] says that
    the pages of the directory [pd] are allocated, all different, and that the
    allocated memory is made of these pages and of the part [R] that belongs
    to others; creating, mapping, freeing and destroying move pages between
    the two. *)
From stdpp Require Import prelude list.
From Stdlib Require Import ZArith Lia.
From S2P Require Import Prelude Bitmap Palloc Pagedir.
#[local] Open Scope Z_scope.

(** ** What user code sees *)

Definition view (s : mmu) (pd va : Z) : option (Z * bool) :=
  match entry s pd va with
  | Some e => if present e && Z.testbit e 2 then Some (mem s (table e + va mod 4096), Z.testbit e 1) else None
  | None => None
  end.

(** The pages that make up an address space. *)
Inductive spage (s : mmu) (pd : Z) : Z -> Prop :=
| sp_pd : spage s pd pd
| sp_table i : 0 <= i < 768 -> pde s pd i <> 0 -> spage s pd (table (pde s pd i))
| sp_frame i j : 0 <= i < 768 -> 0 <= j < 1024 -> pde s pd i <> 0 -> present (pte s pd i j) = true ->
    spage s pd (table (pte s pd i j)).

Definition in_space (s : mmu) (pd x : Z) : Prop := exists a, spage s pd a /\ in_pages a 1 x = true.

Record vm_ok (s : mmu) (pd : Z) (R : Z -> Prop) : Prop := mkVmOk {
  vm_pd : pd_ok s pd;
  vm_frame i j : 0 <= i < 768 -> 0 <= j < 1024 -> pde s pd i <> 0 -> present (pte s pd i j) = true ->
    Z.testbit (pte s pd i j) 2 = true /\ table (pte s pd i j) <> pd /\
    (forall i', 0 <= i' < 768 -> pde s pd i' <> 0 -> table (pde s pd i') <> table (pte s pd i j));
  vm_inj i j i' j' : 0 <= i < 768 -> 0 <= j < 1024 -> 0 <= i' < 768 -> 0 <= j' < 1024 ->
    pde s pd i <> 0 -> pde s pd i' <> 0 -> present (pte s pd i j) = true -> present (pte s pd i' j') = true ->
    table (pte s pd i j) = table (pte s pd i' j') -> i = i' /\ j = j';
  vm_acct x : allocated (pal s) x = true <-> R x \/ in_space s pd x;
  vm_rest x : R x -> ~ in_space s pd x
}.

(** ** Pages *)

Lemma in_pages_spec a x : in_pages a 1 x = true <-> a <= x < a + 4096.
Proof. unfold in_pages. rewrite PGSIZE_eq. bool_cases; simpl; split; intros; (done || lia). Qed.

Lemma in_pages_false a x : in_pages a 1 x = false <-> x < a \/ a + 4096 <= x.
Proof. unfold in_pages. rewrite PGSIZE_eq. bool_cases; simpl; split; intros; (done || lia). Qed.

Lemma pages_apart a b x :
  a mod 4096 = 0 -> b mod 4096 = 0 -> in_pages a 1 x = true -> in_pages b 1 x = true -> a = b.
Proof.
  rewrite !in_pages_spec. intros Ha Hb H1 H2. pose proof (Z.div_mod a 4096 ltac:(lia)). pose proof (Z.div_mod b 4096 ltac:(lia)). lia.
Qed.

Lemma spage_kernel s pd a : pd_ok s pd -> spage s pd a -> kernel_page a.
Proof.
  intros H [|i Hi Hn|i j Hi Hj Hn Hp].
  - apply (po_pd _ _ H).
  - destruct (po_pde _ _ H i Hi Hn) as (_ & Ht & _). destruct (table_page (pde s pd i)); [apply (pde_range s pd i H)|].
    split; [done|lia].
  - pose proof (po_pte _ _ H i j Hi Hj Hn Hp). destruct (table_page (pte s pd i j)); [apply (pte_range s pd i j H)|].
    split; [done|lia].
Qed.

Lemma spage_owned s pd R a : vm_ok s pd R -> spage s pd a -> owned s a.
Proof. intros H Ha x Hx. apply (vm_acct _ _ _ H). right. by exists a. Qed.

(** The words of a table are in its page. *)
Lemma word_in_page a k d : 0 <= k < 1024 -> 0 <= d < 4 -> in_pages a 1 (a + 4 * k + d) = true.
Proof. intros. apply in_pages_spec. lia. Qed.

Lemma read32_page m m' a k :
  0 <= k < 1024 -> (forall x, in_pages a 1 x = true -> m' x = m x) -> read32 m' (a + 4 * k) = read32 m (a + 4 * k).
Proof.
  intros Hk Hm. unfold read32. replace (a + 4 * k) with (a + 4 * k + 0) by lia.
  rewrite <- !(Z.add_assoc (a + 4 * k)), !Z.add_0_l. rewrite !Hm; [done|..]; apply word_in_page; lia.
Qed.

(** ** Frame rule

    The pages of an address space decide what it is: a change of the memory
    and of the allocator outside of them leaves the space as it is. *)

Definition same_pages (s s' : mmu) (pd : Z) : Prop := forall x, in_space s pd x -> mem s' x = mem s x.

Lemma same_pde s s' pd i : same_pages s s' pd -> 0 <= i < 1024 -> pde s' pd i = pde s pd i.
Proof. intros H Hi. apply read32_page; [done|]. intros x Hx. apply H. exists pd. split; [apply sp_pd|done]. Qed.

Lemma same_pte s s' pd i j :
  same_pages s s' pd -> 0 <= i < 768 -> 0 <= j < 1024 -> pde s pd i <> 0 -> pte s' pd i j = pte s pd i j.
Proof.
  intros H Hi Hj Hn. unfold pte. rewrite (same_pde s s') by (done || lia). apply read32_page; [done|].
  intros x Hx. apply H. exists (table (pde s pd i)). split; [by apply sp_table|done].
Qed.

Lemma same_spage s s' pd a : same_pages s s' pd -> spage s' pd a <-> spage s pd a.
Proof.
  intros H. split; intros [|i Hi Hn|i j Hi Hj Hn Hp]; try apply sp_pd.
  - rewrite (same_pde s s') in * by (done || lia). by apply sp_table.
  - rewrite (same_pde s s') in Hn by (done || lia). rewrite (same_pte s s') in * by done. by apply sp_frame.
  - rewrite <- (same_pde s s') in * by (done || lia). by apply sp_table.
  - rewrite <- (same_pte s s' pd i j) in * by done. apply sp_frame; try done. by rewrite (same_pde s s') by (done || lia).
Qed.

Lemma same_in_space s s' pd x : same_pages s s' pd -> in_space s' pd x <-> in_space s pd x.
Proof. intros H. unfold in_space. by setoid_rewrite (same_spage s s' pd _ H). Qed.

Lemma same_entry s s' pd va : same_pages s s' pd -> 0 <= va < PHYS_BASE -> entry s' pd va = entry s pd va.
Proof.
  intros H Hva. pose proof (pd_no_range va Hva). pose proof (pt_no_range va). unfold entry.
  rewrite (same_pde s s') by (done || lia). destruct (Z.eqb_spec (pde s pd (pd_no va)) 0); [done|].
  by rewrite (same_pte s s').
Qed.

Lemma same_view s s' pd va : same_pages s s' pd -> 0 <= va < PHYS_BASE -> view s' pd va = view s pd va.
Proof.
  intros H Hva. unfold view. rewrite (same_entry s s') by done. unfold entry.
  pose proof (pd_no_range va Hva). pose proof (pt_no_range va).
  destruct (Z.eqb_spec (pde s pd (pd_no va)) 0) as [|Hn]; [done|].
  destruct (present (pte s pd (pd_no va) (pt_no va))) eqn:Ep; [|done]. destruct (Z.testbit _ 2); [|done]. cbn [andb].
  do 2 f_equal. apply H. eexists. split; [by apply (sp_frame s pd (pd_no va) (pt_no va))|].
  apply in_pages_spec. pose proof (Z.mod_pos_bound va 4096 ltac:(lia)). lia.
Qed.

Lemma vm_frame_rule s s' pd R R' :
  vm_ok s pd R -> palloc_ok (pal s') -> PHYS_BASE <= base (kernel_pool (pal s')) -> (forall x, 0 <= mem s' x < 256) ->
  same_pages s s' pd -> (forall x, allocated (pal s') x = true <-> R' x \/ in_space s pd x) ->
  (forall x, R' x -> ~ in_space s pd x) -> vm_ok s' pd R'.
Proof.
  intros H Hok Hb Hbytes Hsame Hal Hdis. pose proof (vm_pd _ _ _ H) as Hpd.
  assert (Hown : forall a, spage s pd a -> owned s' a).
  { intros a Ha x Hx. apply Hal. right. by exists a. }
  split.
  - split; try done.
    + split; [apply (po_pd _ _ Hpd)|]. apply Hown, sp_pd.
    + intros i Hi. rewrite (same_pde s s') by (done || lia). intros Hn. destruct (po_pde _ _ Hpd i Hi Hn) as (? & ? & _ & ?).
      split_and!; try done. apply Hown. by apply sp_table.
    + intros i j Hi Hj. rewrite !(same_pde s s') by (done || lia). by apply (po_inj _ _ Hpd).
    + intros i j Hi Hj. rewrite (same_pde s s') by (done || lia). intros Hn. rewrite (same_pte s s') by done.
      by apply (po_pte _ _ Hpd).
  - intros i j Hi Hj. rewrite (same_pde s s') by (done || lia). intros Hn. rewrite (same_pte s s') by done. intros Hp.
    destruct (vm_frame _ _ _ H i j Hi Hj Hn Hp) as (H1 & H2 & H3). split_and!; try done.
    intros i' Hi'. rewrite (same_pde s s') by (done || lia). auto.
  - intros i j i' j' Hi Hj Hi' Hj'. rewrite !(same_pde s s') by (done || lia). intros Hn Hn'.
    rewrite !(same_pte s s') by done. by apply (vm_inj _ _ _ H).
  - intros x. by rewrite (same_in_space s s').
  - intros x. by rewrite (same_in_space s s'); auto.
Qed.

(** [R] extended by a page. *)
Definition with_page (R : Z -> Prop) (k : Z) : Z -> Prop := fun x => R x \/ in_pages k 1 x = true.

(** *** Taking a page from the user pool and giving it back *)

Lemma vm_get_user s pd R z :
  vm_ok s pd R -> 
  let flags := if (z : bool) then Z.lor PAL_USER PAL_ZERO else PAL_USER in
  (pcall (palloc_get_page flags) s = Ret (NULL, s) /\ forall i, ~ free_run (user_pool (pal s)) i 1) \/
  exists k s', pcall (palloc_get_page flags) s = Ret (k, s') /\ vm_ok s' pd (with_page R k) /\
    kernel_page k /\ base (user_pool (pal s')) <= k /\ k + 4096 <= pool_end (user_pool (pal s)) /\ k <> NULL /\ same_pages s s' pd /\
    pool_end (user_pool (pal s')) = pool_end (user_pool (pal s)) /\ kernel_pool (pal s') = kernel_pool (pal s) /\
    cr3 s' = cr3 s /\ tlb s' = tlb s /\
    (forall x, mem s' x = if z && in_pages k 1 x then 0 else mem s x) /\
    (forall x, R x -> in_pages k 1 x = false).
Proof.
  intros H flags. destruct (po_pal _ _ (vm_pd _ _ _ H)) as [Hok Hb]. unfold pcall, palloc_get_page.
  assert (Hfl : has_flag flags PAL_USER = true /\ has_flag flags PAL_ASSERT = false /\ has_flag flags PAL_ZERO = z)
    by (by destruct z). destruct Hfl as (Hf1 & Hf2 & Hf3).
  destruct (palloc_get_spec (pal s) flags 1 Hok ltac:(lia)) as [[Hno ->]|(k & p' & Hg & Hok' & Hnn & Hal & H1 & H2 & H3 & H4 & H5)].
  { left. rewrite Hf1 in Hno. rewrite Hf2. split; [by destruct s|done]. }
  right. rewrite Hg. rewrite Hf1 in *. cbn [the_pool] in *. rewrite Hf3 in H5.
  assert (Hpools : kernel_pool p' = kernel_pool (pal s) /\ pool_end (user_pool p') = pool_end (user_pool (pal s)) /\
    base (user_pool p') = base (user_pool (pal s))).
  { pose proof (palloc_get_cases (pal s) flags 1 Hok ltac:(lia)) as Hc. cbv zeta in Hc. rewrite Hf1 in Hc. cbn [the_pool] in Hc.
    destruct Hc as [[_ Hx]|(i & map & _ & Hfi & Hx)]; rewrite Hx in Hg; rewrite ?Hf2 in Hg; injection Hg; intros <- Hk; [by split|].
    split; [done|]. unfold pool_end. cbn [set_pool user_pool used_map base]. destruct Hfi as (_ & -> & _). done. }
  destruct Hpools as (Hkp & Hend & Hub). pose proof Hok as ((_ & _ & _ & Hke) & (_ & _ & _ & Hue) & Hku).
  rewrite PGSIZE_eq in *. set (s' := mkMmu p' (cr3 s) (tlb s)).
  assert (Hbk : base (kernel_pool (pal s)) <= pool_end (kernel_pool (pal s))).
  { destruct Hok as ((Hwf & _) & _). unfold pool_end. rewrite PGSIZE_eq. destruct Hwf as (? & _). lia. }
  assert (Hkk : kernel_page k) by (split; [done|lia]).
  assert (Hsame : same_pages s s' pd).
  { intros x Hx. unfold s', mem. cbn [pal]. rewrite H5. destruct (in_pages k 1 x) eqn:E; [|by rewrite andb_false_r].
    assert (allocated (pal s) x = true) by (apply (vm_acct _ _ _ H); by right). rewrite (H3 x E) in *. done. }
  exists k, s'. split; [done|]. split.
  { apply (vm_frame_rule s s' pd R); try done.
    - cbn [pal s']. by rewrite Hkp.
    - intros x. unfold s', mem. cbn [pal]. rewrite H5. pose proof (po_bytes _ _ (vm_pd _ _ _ H) x) as Hx. unfold mem in Hx.
      destruct (_ && _); lia.
    - intros x. cbn [pal s']. rewrite H4, orb_true_iff, (vm_acct _ _ _ H). unfold with_page. tauto.
    - intros x [Hx|Hx]; [by apply (vm_rest _ _ _ H)|]. intros Hi.
      assert (allocated (pal s) x = true) by (apply (vm_acct _ _ _ H); by right). rewrite (H3 x Hx) in *. done. }
  split; [done|]. split; [cbn [pal s']; lia|]. split; [lia|]. split_and!; try done.
  intros x Hx. destruct (in_pages k 1 x) eqn:E; [|done].
  assert (allocated (pal s) x = true) by (apply (vm_acct _ _ _ H); by left). rewrite (H3 x E) in *. done.
Qed.

(** Freeing an allocated page. *)
Lemma run_free_page s a :
  palloc_ok (pal s) -> a mod 4096 = 0 -> allocated (pal s) a = true ->
  exists s', pcall (palloc_free_page a) s = Ret (tt, s') /\ palloc_ok (pal s') /\
    base (kernel_pool (pal s')) = base (kernel_pool (pal s)) /\ pool_end (user_pool (pal s')) = pool_end (user_pool (pal s)) /\
    cr3 s' = cr3 s /\ tlb s' = tlb s /\
    (forall x, allocated (pal s') x = negb (in_pages a 1 x) && allocated (pal s) x) /\
    (forall x, mem s' x = if in_pages a 1 x then 204 else mem s x) /\
    (base (user_pool (pal s)) <= a -> kernel_pool (pal s') = kernel_pool (pal s)).
Proof.
  intros Hok Ha Hal.
  assert (Hu : exists user, pool_used (the_pool (pal s) user) a = true).
  { unfold allocated in Hal. apply orb_true_iff in Hal as [E|E]; [by exists false|by exists true]. }
  destruct Hu as [user Hu]. assert (Hp : pool_ok (the_pool (pal s) user)) by (destruct Hok as (? & ? & _); by destruct user).
  pose proof (pool_used_range _ _ Hu) as Hr. pose proof Hp as (Hwf & Hb & Hm & He).
  set (p := the_pool (pal s) user) in *. set (i := (a - base p) / PGSIZE).
  assert (Hai : a = base p + PGSIZE * i /\ 0 <= i < bit_cnt (used_map p)).
  { unfold i, pool_end in *. rewrite PGSIZE_eq in *. pose proof (Z.div_mod a 4096 ltac:(lia)).
    pose proof (Z.div_mod (base p) 4096 ltac:(lia)). replace (a - base p) with ((a / 4096 - base p / 4096) * 4096) by lia.
    rewrite Z.div_mul by lia. lia. }
  destruct Hai as [Hai Hi]. clearbody i. unfold pcall, palloc_free_page. rewrite Hai.
  destruct (palloc_free_cases (pal s) user i 1 Hok ltac:(lia) ltac:(lia) ltac:(fold p; lia)) as [(_ & map & Hf & Hrun)|[Hg _]].
  2: { destruct Hg. intros j Hj. replace j with i by lia. unfold pool_used in Hu.
       apply andb_prop in Hu as [_ Hu]. fold p.
       replace ((a - base p) / PGSIZE) with i in Hu; [done|]. rewrite PGSIZE_eq in *.
       replace (a - base p) with (i * 4096) by lia. by rewrite Z.div_mul by lia. }
  fold p in Hf, Hrun. rewrite Hrun. eexists. split; [done|]. cbn [pal cr3 tlb].
  split; [by apply (palloc_ok_set (pal s) user map i 1 false)|].
  assert (Hpe : pool_end (mkPool map (base p)) = pool_end p) by (unfold pool_end; simpl; by destruct Hf as (_ & -> & _)).
  split_and!.
  - unfold p. by destruct user.
  - unfold p in *. by destruct user.
  - done.
  - done.
  - intros x. rewrite (allocated_set (pal s) user map i 1 false) by (done || fold p; lia). fold p. by destruct (in_pages _ 1 x).
  - intros x. unfold mem, in_pages, fill. cbn [pal]. by destruct user.
  - intros Hua. destruct user; [done|]. destruct Hok as (_ & _ & Hku). cbn [the_pool p] in *. unfold p in *. lia.
Qed.

Lemma vm_put_back s pd R k :
  vm_ok s pd (with_page R k) -> (forall x, R x -> in_pages k 1 x = false) -> kernel_page k ->
  exists s', pcall (palloc_free_page k) s = Ret (tt, s') /\ vm_ok s' pd R /\ same_pages s s' pd /\
    pool_end (user_pool (pal s')) = pool_end (user_pool (pal s)) /\ cr3 s' = cr3 s /\ tlb s' = tlb s /\
    (forall x, R x -> mem s' x = mem s x) /\
    (base (user_pool (pal s)) <= k -> kernel_pool (pal s') = kernel_pool (pal s)).
Proof.
  intros H Hdis [Hk _]. destruct (po_pal _ _ (vm_pd _ _ _ H)) as [Hok Hb].
  assert (Hkk : in_pages k 1 k = true) by (apply in_pages_spec; lia).
  destruct (run_free_page s k Hok Hk) as (s' & Hr & Hok' & Hb' & Hend & Hc & Ht & Hal & Hm & Hkp).
  { apply (vm_acct _ _ _ H). left. by right. }
  assert (Hout : forall x, in_space s pd x -> in_pages k 1 x = false).
  { intros x Hx. destruct (in_pages k 1 x) eqn:E; [|done]. exfalso. apply (vm_rest _ _ _ H x); [by right|done]. }
  assert (Hsame : same_pages s s' pd) by (intros x Hx; by rewrite Hm, (Hout x Hx)).
  exists s'. split; [done|]. split; [|split_and!; try done; intros x Hx; by rewrite Hm, (Hdis x Hx)].
  apply (vm_frame_rule s s' pd (with_page R k)); try done; [by rewrite Hb'|..].
  - intros x. rewrite Hm. destruct (in_pages k 1 x); [lia|]. apply (po_bytes _ _ (vm_pd _ _ _ H)).
  - intros x. rewrite Hal, andb_true_iff, negb_true_iff, (vm_acct _ _ _ H). unfold with_page. split.
    + intros [Hx [[?|?]|?]]; [by left|congruence|by right].
    + intros [?|?]; split; auto.
  - intros x Hx. apply (vm_rest _ _ _ H). by left.
Qed.

(** Writing into a page that is not of the space. *)
Lemma vm_write s pd R m' :
  vm_ok s pd R -> (forall x, 0 <= m' x < 256) -> (forall x, in_space s pd x -> m' x = mem s x) ->
  let s' := mkMmu (mkPalloc (kernel_pool (pal s)) (user_pool (pal s)) m') (cr3 s) (tlb s) in
  vm_ok s' pd R /\ same_pages s s' pd.
Proof.
  intros H Hb Hm s'. split; [|done]. destruct (po_pal _ _ (vm_pd _ _ _ H)) as [Hok Hbase].
  apply (vm_frame_rule s s' pd R); try done; [apply (vm_acct _ _ _ H)|apply (vm_rest _ _ _ H)].
Qed.

(** *** Adding a page table *)

Lemma vm_new_table s s' pd R i pt :
  vm_ok s pd R -> 0 <= i < 768 -> new_table s s' pd i pt -> pd_ok s' pd ->
  vm_ok s' pd R /\ (forall va, 0 <= va < PHYS_BASE -> view s' pd va = view s pd va) /\
  (forall x, R x -> mem s' x = mem s x).
Proof.
  intros H Hi [Hz Hpt Hfree Hal [Hpde Htab] Hpdes Hptes Hzero Hframe _ _] H'. pose proof (vm_pd _ _ _ H) as Hpd.
  destruct Hpt as [Hpta Hptr].
  assert (Hne : pde s' pd i <> 0) by (rewrite Hpde; unfold PHYS_BASE in *; lia).
  assert (Hap : forall a, spage s pd a -> a <> pt).
  { intros a Ha. apply (owned_page_apart s); [by apply (spage_owned s pd R)|by apply (spage_kernel s pd)|done|done]. }
  assert (Hapx : forall a x, spage s pd a -> in_pages a 1 x = true -> in_pages pt 1 x = false).
  { intros a x Ha Hx. destruct (in_pages pt 1 x) eqn:E; [|done]. destruct (Hap a Ha).
    apply (pages_apart a pt x); try done. by apply (spage_kernel s pd). }
  assert (Hpres : forall i' j, 0 <= i' < 768 -> 0 <= j < 1024 -> pde s' pd i' <> 0 -> present (pte s' pd i' j) = true ->
    i' <> i /\ pde s pd i' <> 0 /\ pte s' pd i' j = pte s pd i' j).
  { intros i' j Hi' Hj Hn Hp. assert (i' <> i) by (intros ->; by rewrite Hzero in Hp). rewrite Hpdes in Hn by done.
    split_and!; try done. by apply Hptes. }
  assert (Hsp : forall a, spage s' pd a <-> spage s pd a \/ a = pt).
  { intros a. split.
    - intros [|i' Hi' Hn|i' j Hi' Hj Hn Hp]; [left; apply sp_pd|..].
      + destruct (decide (i' = i)) as [->|]; [right; by rewrite Htab|]. left. rewrite Hpdes in * by done. by apply sp_table.
      + destruct (Hpres i' j Hi' Hj Hn Hp) as (Hii & Hn' & Ep). left. rewrite Ep in *. by apply sp_frame.
    - intros [[|i' Hi' Hn|i' j Hi' Hj Hn Hp]| ->]; [apply sp_pd|..].
      + assert (i' <> i) by congruence. rewrite <- Hpdes in * by done. by apply sp_table.
      + assert (i' <> i) by congruence. rewrite <- (Hptes i' j) in * by done. apply sp_frame; try done. by rewrite Hpdes.
      + rewrite <- Htab. by apply sp_table. }
  assert (Hin : forall x, in_space s' pd x <-> in_space s pd x \/ in_pages pt 1 x = true).
  { intros x. unfold in_space. setoid_rewrite Hsp. split.
    - intros (a & [Ha| ->] & Hx); [left; by exists a|by right].
    - intros [(a & Ha & Hx)|Hx]; [exists a; auto|exists pt; auto]. }
  split; [|split].
  - split; try done.
    + intros i' j Hi' Hj Hn Hp. destruct (Hpres i' j Hi' Hj Hn Hp) as (Hii & Hn' & Ep). rewrite Ep in *.
      destruct (vm_frame _ _ _ H i' j Hi' Hj Hn' Hp) as (H1 & H2 & H3). split_and!; try done.
      intros i2 Hi2 Hn2. destruct (decide (i2 = i)) as [->|]; [|rewrite Hpdes in * by done; auto].
      rewrite Htab. apply not_eq_sym, Hap. by apply sp_frame.
    + intros i1 j1 i2 j2 Hi1 Hj1 Hi2 Hj2 Hn1 Hn2 Hp1 Hp2.
      destruct (Hpres i1 j1 Hi1 Hj1 Hn1 Hp1) as (_ & Hn1' & E1), (Hpres i2 j2 Hi2 Hj2 Hn2 Hp2) as (_ & Hn2' & E2).
      rewrite E1, E2 in *. by apply (vm_inj _ _ _ H).
    + intros x. rewrite Hal, orb_true_iff, Hin, (vm_acct _ _ _ H). tauto.
    + intros x Hx [Hs|Hp]%Hin; [by apply (vm_rest _ _ _ H x)|].
      specialize (Hfree x Hp). rewrite (proj2 (vm_acct _ _ _ H x)) in Hfree by auto. done.
  - intros va Hva. pose proof (pd_no_range va Hva). pose proof (pt_no_range va). unfold view, entry.
    destruct (decide (pd_no va = i)) as [E|E].
    + rewrite E, Hz. cbn [Z.eqb]. destruct (Z.eqb_spec (pde s' pd i) 0); [done|]. rewrite Hzero by done. done.
    + rewrite Hpdes by done. destruct (Z.eqb_spec (pde s pd (pd_no va)) 0) as [|Hn]; [done|]. rewrite Hptes by done.
      destruct (present _) eqn:Ep; [|done]. cbn [andb]. destruct (Z.testbit _ 2); [|done]. do 2 f_equal.
      destruct (vm_frame _ _ _ H (pd_no va) (pt_no va)) as (_ & Hfp & _); try done.
      pose proof (Z.mod_pos_bound va 4096 ltac:(lia)). set (a := table (pte s pd (pd_no va) (pt_no va))) in *.
      assert (Ha : spage s pd a) by (by apply sp_frame).
      assert (Hx : in_pages a 1 (a + va mod 4096) = true) by (apply in_pages_spec; lia).
      apply Hframe; [by apply (Hapx a)|]. destruct (in_pages pd 1 _) eqn:E2; [|done]. destruct Hfp.
      apply (pages_apart a pd (a + va mod 4096)); try done; [by apply (spage_kernel s pd)|apply (pd_aligned s pd Hpd)].
  - intros x Hx. apply Hframe.
    + destruct (in_pages pt 1 x) eqn:E; [|done]. specialize (Hfree x E). by rewrite (proj2 (vm_acct _ _ _ H x)) in Hfree by auto.
    + destruct (in_pages pd 1 x) eqn:E; [|done]. destruct (vm_rest _ _ _ H x Hx). exists pd. split; [apply sp_pd|done].
Qed.

(** *** Adding a frame *)

Lemma user_entry_bits k w : kernel_page k ->
  Z.testbit (user_entry k w) 2 = true /\ Z.testbit (user_entry k w) 1 = w.
Proof.
  intros Hk. destruct (run_vtop k Hk) as [_ Hm].
  assert (Hb : forall b, 0 <= b < 12 -> Z.testbit (user_entry k w) b = Z.testbit (if w then 7 else 5) b).
  { intros b Hb. rewrite <- (Z.mod_pow2_bits_low _ 12) by lia. f_equal. unfold user_entry. change (2 ^ 12) with 4096.
    rewrite Z.add_mod, Hm, Z.add_0_l, Z.mod_mod by lia. by destruct w. }
  rewrite !Hb by lia. by destruct w.
Qed.

Lemma vm_map s pd R i j k w :
  vm_ok s pd (with_page R k) -> 0 <= i < 768 -> 0 <= j < 1024 -> pde s pd i <> 0 -> present (pte s pd i j) = false ->
  kernel_page k -> (forall x, R x -> in_pages k 1 x = false) ->
  let s' := stored s (table (pde s pd i) + 4 * j) (user_entry k w) in
  vm_ok s' pd R /\ (forall x, R x -> mem s' x = mem s x) /\
  (forall va, 0 <= va < PHYS_BASE -> view s' pd va =
     if (pd_no va =? i) && (pt_no va =? j) then Some (mem s (k + va mod 4096), w) else view s pd va).
Proof.
  intros H Hi Hj Hn Hnp Hk Hdis s'. pose proof (vm_pd _ _ _ H) as Hpd.
  destruct (user_entry_facts k w Hk) as (Hv & Hpv & Htv & _). destruct (user_entry_bits k w Hk) as [Hb2 Hb1].
  destruct (store_pte s pd i j (user_entry k w) Hpd Hi Hj Hn Hv) as (Hpd' & Hpdes & Hptes); [intros _; rewrite Htv; apply Hk|].
  fold s' in Hpd', Hpdes, Hptes.
  assert (Hkr : forall x, in_pages k 1 x = true -> ~ in_space s pd x) by (intros x Hx; apply (vm_rest _ _ _ H); by right).
  assert (Hap : forall a, spage s pd a -> a <> k).
  { intros a Ha ->. apply (Hkr k); [apply in_pages_spec; lia|]. exists k. split; [done|apply in_pages_spec; lia]. }
  assert (Hcase : forall i' j', 0 <= i' < 768 -> 0 <= j' < 1024 -> pde s pd i' <> 0 -> present (pte s' pd i' j') = true ->
    (i' = i /\ j' = j /\ pte s' pd i' j' = user_entry k w) \/
    ((i' <> i \/ j' <> j) /\ pte s' pd i' j' = pte s pd i' j' /\ present (pte s pd i' j') = true)).
  { intros i' j' Hi' Hj' Hn' Hp. rewrite Hptes in * by done. destruct ((i' =? i) && (j' =? j)) eqn:E.
    - left. apply andb_prop in E as [?%Z.eqb_eq ?%Z.eqb_eq]. done.
    - right. split_and!; try done. apply andb_false_iff in E as [?%Z.eqb_neq|?%Z.eqb_neq]; auto. }
  assert (Hsp : forall a, spage s' pd a <-> spage s pd a \/ a = k).
  { intros a. split.
    - intros [|i' Hi' Hn'|i' j' Hi' Hj' Hn' Hp]; [left; apply sp_pd|..].
      + rewrite Hpdes in * by lia. left. by apply sp_table.
      + rewrite Hpdes in Hn' by lia. destruct (Hcase i' j' Hi' Hj' Hn' Hp) as [(_ & _ & ->)|(_ & E & Hp')]; [by right|].
        left. rewrite E. by apply sp_frame.
    - intros [[|i' Hi' Hn'|i' j' Hi' Hj' Hn' Hp]| ->]; [apply sp_pd|..].
      + rewrite <- Hpdes in * by lia. by apply sp_table.
      + assert (E : pte s' pd i' j' = pte s pd i' j').
        { rewrite Hptes by done. destruct ((i' =? i) && (j' =? j)) eqn:E; [|done].
          apply andb_prop in E as [->%Z.eqb_eq ->%Z.eqb_eq]. congruence. }
        rewrite <- E in *. apply sp_frame; try done. by rewrite Hpdes by lia.
      + assert (E : pte s' pd i j = user_entry k w) by (by rewrite Hptes, !Z.eqb_refl).
        rewrite <- Htv, <- E. apply sp_frame; try done; [by rewrite Hpdes by lia|by rewrite E]. }
  assert (Hin : forall x, in_space s' pd x <-> in_space s pd x \/ in_pages k 1 x = true).
  { intros x. unfold in_space. setoid_rewrite Hsp. split.
    - intros (a & [Ha| ->] & Hx); [left; by exists a|by right].
    - intros [(a & Ha & Hx)|Hx]; [exists a; auto|exists k; auto]. }
  assert (Hmem : forall x, in_pages (table (pde s pd i)) 1 x = false -> mem s' x = mem s x).
  { intros x Hx. apply write32_outside. apply in_pages_false in Hx. lia. }
  split; [|split].
  - split; try done.
    + intros i' j' Hi' Hj'. rewrite Hpdes by lia. intros Hn' Hp.
      destruct (Hcase i' j' Hi' Hj' Hn' Hp) as [(_ & _ & ->)|(_ & E & Hp')].
      * rewrite Htv. split_and!; [done|apply not_eq_sym, Hap, sp_pd|]. intros i2 Hi2. rewrite Hpdes by lia. intros Hn2.
        apply Hap. by apply sp_table.
      * rewrite E. destruct (vm_frame _ _ _ H i' j' Hi' Hj' Hn' Hp') as (H1 & H2 & H3). split_and!; try done.
        intros i2 Hi2. rewrite Hpdes by lia. auto.
    + intros i1 j1 i2 j2 Hi1 Hj1 Hi2 Hj2. rewrite !Hpdes by lia. intros Hn1 Hn2 Hp1 Hp2.
      destruct (Hcase i1 j1 Hi1 Hj1 Hn1 Hp1) as [(-> & -> & ->)|(_ & E1 & Hp1')],
        (Hcase i2 j2 Hi2 Hj2 Hn2 Hp2) as [(-> & -> & ->)|(_ & E2 & Hp2')]; [done|..].
      * rewrite Htv, E2. intros E. destruct (Hap (table (pte s pd i2 j2))); [by apply sp_frame|done].
      * rewrite Htv, E1. intros E. destruct (Hap (table (pte s pd i1 j1))); [by apply sp_frame|done].
      * rewrite E1, E2. by apply (vm_inj _ _ _ H).
    + intros x. rewrite Hin. change (allocated (pal s') x) with (allocated (pal s) x). rewrite (vm_acct _ _ _ H).
      unfold with_page. tauto.
    + intros x Hx [Hs|Hp]%Hin; [by apply (vm_rest _ _ _ H x); [left|]|]. by rewrite Hdis in Hp.
  - intros x Hx. apply Hmem. destruct (in_pages _ 1 x) eqn:E; [|done]. destruct (vm_rest _ _ _ H x); [by left|].
    eexists. split; [by apply (sp_table s pd i)|done].
  - intros va Hva. pose proof (pd_no_range va Hva). pose proof (pt_no_range va). pose proof (Z.mod_pos_bound va 4096 ltac:(lia)).
    assert (Ht : forall a, kernel_page a -> (forall i', 0 <= i' < 768 -> pde s pd i' <> 0 -> table (pde s pd i') <> a) ->
      mem s' (a + va mod 4096) = mem s (a + va mod 4096)).
    { intros a [Ha _] Hne. apply Hmem. destruct (in_pages _ 1 _) eqn:E; [|done]. destruct (Hne i Hi Hn).
      apply (pages_apart _ _ (a + va mod 4096)); try done; [by apply (table_aligned s pd)|apply in_pages_spec; lia]. }
    unfold view, entry. rewrite Hpdes by lia. destruct (Z.eqb_spec (pde s pd (pd_no va)) 0) as [Hz|Hnz].
    { destruct ((pd_no va =? i) && (pt_no va =? j)) eqn:E; [|done]. apply andb_prop in E as [<-%Z.eqb_eq _]. done. }
    rewrite Hptes by done. destruct ((pd_no va =? i) && (pt_no va =? j)) eqn:E.
    + rewrite Hpv, Hb2, Htv, Hb1. cbn [andb]. do 2 f_equal. apply Ht; [done|]. intros i' Hi' Hn'. apply Hap. by apply sp_table.
    + cbv iota. destruct (present (pte s pd (pd_no va) (pt_no va))) eqn:Ep; [|done]. destruct (Z.testbit (pte s pd (pd_no va) (pt_no va)) 2); [|done]. cbn [andb]. do 2 f_equal.
      apply Ht; [apply (spage_kernel s pd); [done|by apply sp_frame]|]. by apply (vm_frame _ _ _ H).
Qed.

(** *** Mapping a page *)

Lemma view_none s pd R va : vm_ok s pd R -> 0 <= va < PHYS_BASE -> view s pd va = None <-> translate s pd va = NULL.
Proof.
  intros H Hva. pose proof (pd_no_range va Hva). pose proof (pt_no_range va). unfold view, translate, entry.
  destruct (Z.eqb_spec (pde s pd (pd_no va)) 0) as [|Hn]; [done|].
  destruct (present (pte s pd (pd_no va) (pt_no va))) eqn:Ep; [|done].
  destruct (vm_frame _ _ _ H (pd_no va) (pt_no va)) as (-> & _); try done. cbn [andb].
  destruct (spage_kernel s pd (table (pte s pd (pd_no va) (pt_no va))) (vm_pd _ _ _ H)) as [_ Hr]; [by apply sp_frame|].
  pose proof (Z.mod_pos_bound va 4096 ltac:(lia)). unfold NULL, PHYS_BASE in *. split; [done|lia].
Qed.

Lemma vpage_eq va va' : (va / 4096 =? va' / 4096) = (pd_no va =? pd_no va') && (pt_no va =? pt_no va').
Proof.
  rewrite !vpage_split. pose proof (pt_no_range va). pose proof (pt_no_range va'). bool_cases; simpl; (done || lia).
Qed.

Lemma vm_set_page ipd ram s pd R upage k w :
  vm_ok s pd (with_page R k) -> 0 <= upage < PHYS_BASE -> upage mod 4096 = 0 -> kernel_page k ->
  (k - PHYS_BASE) / 4096 < ram -> pd <> ipd -> (forall x, R x -> in_pages k 1 x = false) -> view s pd upage = None ->
  (pagedir_set_page ipd ram pd upage k w s = Ret (false, s) /\ forall i, ~ free_run (kernel_pool (pal s)) i 1) \/
  exists s', pagedir_set_page ipd ram pd upage k w s = Ret (true, s') /\ vm_ok s' pd R /\
    (forall va, 0 <= va < PHYS_BASE -> view s' pd va =
       if va / 4096 =? upage / 4096 then Some (mem s (k + va mod 4096), w) else view s pd va) /\
    (forall x, R x -> mem s' x = mem s x) /\ user_pool (pal s') = user_pool (pal s) /\ cr3 s' = cr3 s /\ tlb s' = tlb s.
Proof.
  intros H Hu Ha Hk Hr Hne Hdis Hv. pose proof (vm_pd _ _ _ H) as Hpd. apply (view_none s pd _ upage H Hu) in Hv as Ht.
  rewrite (run_set_page_prefix ipd ram s pd upage k w Hu Ha Hk Hr Hne).
  pose proof (pd_no_range upage Hu) as Hi. pose proof (pt_no_range upage) as Hj.
  destruct (run_lookup_create s pd upage Hpd Hu) as [(Hl & _ & Hno)|(s1 & Hpd1 & Hnz & Hl & He & Hs1)]; [left; sstep Hl; done|].
  right. sstep Hl. pose proof (pte_address_nonnull s1 pd upage Hpd1).
  destruct (Z.eqb_spec (table (pde s1 pd (pd_no upage)) + 4 * pt_no upage) NULL); [done|]. cbn [negb].
  sstep (run_load s1 (table (pde s1 pd (pd_no upage)) + 4 * pt_no upage)).
  change (read32 (mem s1) _) with (pte s1 pd (pd_no upage) (pt_no upage)).
  assert (Hvm1 : vm_ok s1 pd (with_page R k) /\ (forall va, 0 <= va < PHYS_BASE -> view s1 pd va = view s pd va) /\
    (forall x, with_page R k x -> mem s1 x = mem s x) /\ user_pool (pal s1) = user_pool (pal s) /\ cr3 s1 = cr3 s /\ tlb s1 = tlb s).
  { destruct Hs1 as [->|[pt Hnt]]; [done|]. destruct (vm_new_table s s1 pd _ (pd_no upage) pt H Hi Hnt Hpd1) as (? & ? & ?).
    split_and!; try done; apply Hnt. }
  destruct Hvm1 as (Hvm1 & Hview1 & Hmem1 & Hup1 & Hc1 & Ht1).
  assert (Hnp : present (pte s1 pd (pd_no upage) (pt_no upage)) = false).
  { rewrite <- (translate_ext s s1 pd upage (He upage Hu)) in Ht. apply (view_none s1 pd _ upage Hvm1 Hu) in Ht.
    unfold view, entry in Ht. destruct (Z.eqb_spec (pde s1 pd (pd_no upage)) 0); [done|].
    destruct (present _) eqn:Ep; [|done]. destruct (vm_frame _ _ _ Hvm1 (pd_no upage) (pt_no upage)) as (E & _); try done.
    by rewrite E in Ht. }
  destruct (user_entry_facts k w Hk) as (_ & _ & _ & Hc).
  unfold present in Hnp. apply negb_false_iff in Hnp as Hnp'. sassert by done. sstep (run_lift _ _ s1 Hc).
  set (a := table (pde s1 pd (pd_no upage)) + 4 * pt_no upage) in *. sstep (run_store s1 a (user_entry k w)).
  destruct (vm_map s1 pd R (pd_no upage) (pt_no upage) k w Hvm1 Hi Hj Hnz Hnp Hk Hdis) as (Hvm2 & Hm2 & Hv2).
  fold a in Hvm2, Hm2, Hv2. eexists. split; [done|]. split; [done|]. split_and!; try done.
  - intros va Hva. rewrite Hv2, Hview1, vpage_eq, Hmem1 by (done || right; apply in_pages_spec;
      pose proof (Z.mod_pos_bound va 4096 ltac:(lia)); lia). done.
  - intros x Hx. rewrite Hm2 by done. apply Hmem1. by left.
Qed.

(** *** Creating an address space *)

Lemma vm_create ipd s R :
  palloc_ok (pal s) -> PHYS_BASE <= base (kernel_pool (pal s)) -> (forall x, 0 <= mem s x < 256) ->
  kernel_page ipd -> (forall x, in_pages ipd 1 x = true -> R x) -> (forall i, 0 <= i < 768 -> pde s ipd i = 0) ->
  (forall x, allocated (pal s) x = true <-> R x) ->
  (pagedir_create ipd s = Ret (NULL, s) /\ forall i, ~ free_run (kernel_pool (pal s)) i 1) \/
  exists pd s', pagedir_create ipd s = Ret (pd, s') /\ vm_ok s' pd R /\ pd <> ipd /\
    (forall va, 0 <= va < PHYS_BASE -> view s' pd va = None) /\ (forall x, R x -> mem s' x = mem s x) /\
    user_pool (pal s') = user_pool (pal s) /\ cr3 s' = cr3 s /\ tlb s' = tlb s.
Proof.
  intros Hok Hb Hbytes Hipd HiR Hz Hal. unfold pagedir_create, pcall, palloc_get_page.
  pose proof (palloc_get_cases (pal s) 0 1 Hok ltac:(lia)) as Hcs. cbv zeta in Hcs.
  destruct (palloc_get_spec (pal s) 0 1 Hok ltac:(lia)) as [[Hno Hg]|(pd & p' & Hg & Hok' & Hnn & Ha & H1 & H2 & H3 & H4 & H5)].
  { left. split; [|done]. cbn [has_flag] in Hg. unfold sbind at 1. rewrite Hg. by destruct s. }
  right. change (the_pool (pal s) (has_flag 0 PAL_USER)) with (kernel_pool (pal s)) in *.
  assert (Hpools : base (kernel_pool p') = base (kernel_pool (pal s)) /\ user_pool p' = user_pool (pal s)).
  { destruct Hcs as [[_ Hx]|(i & map & _ & _ & Hx)]; rewrite Hx in Hg; injection Hg; intros <- _; done. }
  destruct Hpools as [Hbp Hup]. pose proof Hok as ((_ & _ & _ & Hke) & _). rewrite PGSIZE_eq in *.
  set (s1 := mkMmu p' (cr3 s) (tlb s)).
  assert (Hr : (fun s0 => match palloc_get_multiple 0 1 (pal s0) with
      | Ret (a, p) => Ret (a, mkMmu p (cr3 s0) (tlb s0)) | Err e => Err e end) s = Ret (pd, s1)) by (by rewrite Hg).
  sstep Hr. destruct (Z.eqb_spec pd NULL); [done|]. cbn [negb].
  set (s2 := mkMmu (mkPalloc (kernel_pool p') (user_pool p')
    (fun a => if in_pages pd 1 a then memory p' (ipd + (a - pd)) else memory p' a)) (cr3 s) (tlb s)).
  sstep (eq_refl : copy_page pd ipd s1 = Ret (tt, s2)). exists pd, s2. split; [done|].
  assert (Hm1 : forall x, memory p' x = mem s x) by (intros x; by rewrite H5).
  assert (Hne : pd <> ipd).
  { intros ->. assert (E : in_pages ipd 1 ipd = true) by (apply in_pages_spec; lia).
    specialize (H3 _ E). rewrite (proj2 (Hal ipd)) in H3; [done|auto]. }
  assert (Hpde : forall i, 0 <= i < 768 -> pde s2 pd i = 0).
  { intros i Hi. rewrite <- (Hz i Hi). unfold pde, read32, s2, mem. cbn [pal memory].
    pose proof (word_in_page pd i 0) as W0. pose proof (word_in_page pd i 1) as W1.
    pose proof (word_in_page pd i 2) as W2. pose proof (word_in_page pd i 3) as W3. rewrite Z.add_0_r in W0.
    rewrite W0, W1, W2, W3 by lia. rewrite !Hm1. unfold mem.
    by replace (ipd + (pd + 4 * i - pd)) with (ipd + 4 * i) by lia;
      replace (ipd + (pd + 4 * i + 1 - pd)) with (ipd + 4 * i + 1) by lia;
      replace (ipd + (pd + 4 * i + 2 - pd)) with (ipd + 4 * i + 2) by lia;
      replace (ipd + (pd + 4 * i + 3 - pd)) with (ipd + 4 * i + 3) by lia. }
  assert (Hsp : forall a, spage s2 pd a -> a = pd).
  { intros a [|i Hi Hn|i j Hi Hj Hn Hp]; [done|by rewrite Hpde in Hn|by rewrite Hpde in Hn]. }
  assert (Hin : forall x, in_space s2 pd x <-> in_pages pd 1 x = true).
  { intros x. split; [|intros Hx; exists pd; split; [apply sp_pd|done]].
    intros (a & Hsa & Hx). by rewrite (Hsp a Hsa) in Hx. }
  split; [|split_and!; try done].
  - split.
    + split; try (by intros; rewrite Hpde in *).
      * split; [done|by cbn [pal s2 kernel_pool]; rewrite Hbp].
      * intros x. unfold s2, mem. cbn [pal memory]. rewrite !Hm1. destruct (in_pages pd 1 x); apply Hbytes.
      * split; [split; [done|lia]|]. intros x Hx. change (allocated (pal s2) x) with (allocated p' x). by rewrite H4, Hx.
    + intros; by rewrite Hpde in *.
    + intros; by rewrite Hpde in *.
    + intros x. change (allocated (pal s2) x) with (allocated p' x). rewrite H4, orb_true_iff, Hin, Hal. tauto.
    + intros x Hx Hp%Hin. specialize (H3 x Hp). by rewrite (proj2 (Hal x) Hx) in H3.
  - intros va Hva. unfold view, entry. rewrite Hpde by (by apply pd_no_range). done.
  - intros x Hx. unfold s2, mem. cbn [pal memory]. destruct (in_pages pd 1 x) eqn:E; [|by rewrite Hm1].
    specialize (H3 x E). by rewrite (proj2 (Hal x) Hx) in H3.
Qed.

(** *** Destroying an address space *)

Lemma iter_ind (I : Z -> mmu -> Prop) n i body s :
  I i s -> (forall k s, i <= k < i + Z.of_nat n -> I k s -> exists s', body k s = Ret (tt, s') /\ I (k + 1) s') ->
  exists s', iter n i body s = Ret (tt, s') /\ I (i + Z.of_nat n) s'.
Proof.
  revert i s. induction n as [|n IH]; intros i s Hi Hstep; cbn [iter].
  - exists s. split; [done|]. by replace (i + Z.of_nat 0) with i by lia.
  - destruct (Hstep i s) as (s1 & Hr & H1); [lia|done|]. sstep Hr.
    destruct (IH (i + 1) s1 H1) as (s2 & Hr2 & H2); [intros k s' Hk; apply Hstep; lia|].
    exists s2. split; [done|]. by replace (i + Z.of_nat (S n)) with (i + 1 + Z.of_nat n) by lia.
Qed.

(** [s'] is [s] with the pages of [D] freed. *)
Record freed (s s' : mmu) (D : Z -> Prop) : Prop := mkFreed {
  fr_ok : palloc_ok (pal s') /\ base (kernel_pool (pal s')) = base (kernel_pool (pal s)) /\
    pool_end (user_pool (pal s')) = pool_end (user_pool (pal s));
  fr_cpu : cr3 s' = cr3 s /\ tlb s' = tlb s;
  fr_alloc x : allocated (pal s') x = true <->
    allocated (pal s) x = true /\ forall a, D a -> in_pages a 1 x = false;
  fr_mem x : (forall a, D a -> in_pages a 1 x = false) -> mem s' x = mem s x
}.

Lemma freed_ext s s' D D' : (forall a, D a <-> D' a) -> freed s s' D -> freed s s' D'.
Proof.
  intros HD [H1 H2 H3 H4]. split; try done.
  - intros x. rewrite H3. by setoid_rewrite HD.
  - intros x Hx. apply H4. intros a Ha. by apply Hx, HD.
Qed.

Section destroy.
Context (s : mmu) (pd : Z) (R : Z -> Prop) (Hvm : vm_ok s pd R).

Lemma freed_step s' (D : Z -> Prop) a :
  freed s s' D -> (forall b, D b -> spage s pd b) -> spage s pd a -> ~ D a ->
  exists s'', pcall (palloc_free_page a) s' = Ret (tt, s'') /\ freed s s'' (fun b => D b \/ b = a).
Proof.
  intros H HD Ha Hn. pose proof (spage_kernel s pd) as Hkp. specialize (fun a => Hkp a (vm_pd _ _ _ Hvm)).
  assert (Hout : forall b x, D b -> in_pages a 1 x = true -> in_pages b 1 x = false).
  { intros b x Hb Hx. destruct (in_pages b 1 x) eqn:E; [|done]. destruct Hn.
    rewrite (pages_apart a b x); try done; by apply Hkp; auto. }
  destruct (fr_ok _ _ _ H) as (Hok & Hb & He). destruct (fr_cpu _ _ _ H) as [Hc Ht].
  destruct (run_free_page s' a Hok) as (s'' & Hr & Hok' & Hb' & He' & Hc' & Ht' & Hal & Hm & _); [by apply Hkp| |].
  { apply (fr_alloc _ _ _ H). assert (E : in_pages a 1 a = true) by (apply in_pages_spec; lia).
    split; [by apply (spage_owned s pd R a Hvm Ha)|]. intros b Hb'. by apply Hout. }
  exists s''. split; [done|]. split.
  - split_and!; [done|congruence|congruence].
  - split; congruence.
  - intros x. rewrite Hal, andb_true_iff, negb_true_iff, (fr_alloc _ _ _ H). split.
    + intros (H1 & H2 & H3). split; [done|]. intros b [Hb1| ->]; auto.
    + intros [H1 H2]. split_and!; auto.
  - intros x Hx. rewrite Hm, (Hx a (or_intror eq_refl)). apply (fr_mem _ _ _ H). auto.
Qed.

(** The pages freed when the loops are at the entry [j] of the table [i]. *)
Definition freed_frame (i j a : Z) : Prop :=
  exists j', 0 <= j' < j /\ present (pte s pd i j') = true /\ a = table (pte s pd i j').

Definition freed_dir (i a : Z) : Prop :=
  exists i', 0 <= i' < i /\ pde s pd i' <> 0 /\ (a = table (pde s pd i') \/ freed_frame i' 1024 a).

Lemma freed_spage i j a :
  0 <= i <= 768 -> 0 <= j <= 1024 -> (j = 0 \/ i < 768 /\ pde s pd i <> 0) -> freed_dir i a \/ freed_frame i j a -> spage s pd a.
Proof.
  intros Hi Hj Hn [(i' & Hi' & Hn' & [->|(j' & Hj' & Hp & ->)])|(j' & Hj' & Hp & ->)].
  - apply sp_table; (done || lia).
  - apply sp_frame; (done || lia).
  - apply sp_frame; (done || lia).
Qed.

Lemma table_not_freed i j :
  0 <= i < 768 -> 0 <= j <= 1024 -> pde s pd i <> 0 -> ~ (freed_dir i (table (pde s pd i)) \/ freed_frame i j (table (pde s pd i))).
Proof.
  intros Hi Hj Hn. pose proof (po_inj _ _ (vm_pd _ _ _ Hvm)) as Hinj.
  assert (Hfr : forall i' j', 0 <= i' <= i -> 0 <= j' < 1024 -> pde s pd i' <> 0 -> present (pte s pd i' j') = true ->
    table (pde s pd i) <> table (pte s pd i' j')).
  { intros i' j' Hi' Hj' Hn' Hp. destruct (vm_frame _ _ _ Hvm i' j') as (_ & _ & H); try (done || lia). apply H; (done || lia). }
  intros [(i' & Hi' & Hn' & [E|(j' & Hj' & Hp & E)])|(j' & Hj' & Hp & E)].
  - apply Hinj in E; (done || lia).
  - by apply (Hfr i' j'); [lia|lia|..].
  - by apply (Hfr i j'); [lia|lia|..].
Qed.

Lemma frame_not_freed i j :
  0 <= i < 768 -> 0 <= j < 1024 -> pde s pd i <> 0 -> present (pte s pd i j) = true ->
  ~ (freed_dir i (table (pte s pd i j)) \/ freed_frame i j (table (pte s pd i j))).
Proof.
  intros Hi Hj Hn Hp. destruct (vm_frame _ _ _ Hvm i j Hi Hj Hn Hp) as (_ & _ & Ht).
  intros [(i' & Hi' & Hn' & [E|(j' & Hj' & Hp' & E)])|(j' & Hj' & Hp' & E)].
  - by apply (Ht i'); [lia|..].
  - apply (vm_inj _ _ _ Hvm) in E; (done || lia).
  - apply (vm_inj _ _ _ Hvm) in E; (done || lia).
Qed.

(** While a page is not freed its words are those of the start. *)
Lemma freed_word s' (D : Z -> Prop) a k :
  freed s s' D -> (forall b, D b -> spage s pd b) -> spage s pd a -> ~ D a -> 0 <= k < 1024 ->
  read32 (mem s') (a + 4 * k) = read32 (mem s) (a + 4 * k).
Proof.
  intros H HD Ha Hn Hk. apply read32_page; [done|]. intros x Hx. apply (fr_mem _ _ _ H). intros b Hb.
  destruct (in_pages b 1 x) eqn:E; [|done]. destruct Hn.
  pose proof (fun a => spage_kernel s pd a (vm_pd _ _ _ Hvm)) as Hkp. rewrite (pages_apart a b x); try done; by apply Hkp; auto.
Qed.

Lemma destroy_table s' i :
  0 <= i < 768 -> pde s pd i <> 0 -> freed s s' (freed_dir i) ->
  exists s'', iter 1024 0 (fun j =>
      do! pte := load (table (pde s pd i) + 4 * j) in
      if negb (Z.land pte PTE_P =? 0) then
        do! page := lift (pte_get_page pte) in pcall (palloc_free_page page)
      else sret tt) s' = Ret (tt, s'') /\ freed s s'' (fun a => freed_dir i a \/ freed_frame i 1024 a).
Proof.
  intros Hi Hn H. set (body := fun j : Z => _).
  destruct (iter_ind (fun j s' => freed s s' (fun a => freed_dir i a \/ freed_frame i j a)) 1024 0 body s') as (s'' & Hr & H'').
  - revert H. apply freed_ext. intros a. split; [by left|]. intros [?|(j' & Hj' & _)]; [done|lia].
  - intros j s1 Hj H1. unfold body. rewrite Z.add_0_l in Hj.
    assert (HD : forall b, freed_dir i b \/ freed_frame i j b -> spage s pd b) by (intros b; apply freed_spage; auto; lia).
    assert (Ht : spage s pd (table (pde s pd i))) by (by apply sp_table).
    sstep (run_load s1 (table (pde s pd i) + 4 * j)).
    rewrite (freed_word s1 _ _ j H1 HD Ht (table_not_freed i j Hi ltac:(lia) Hn) ltac:(lia)).
    change (read32 (mem s) (table (pde s pd i) + 4 * j)) with (pte s pd i j).
    change (negb (Z.land (pte s pd i j) PTE_P =? 0)) with (present (pte s pd i j)).
    destruct (present (pte s pd i j)) eqn:Ep.
    + pose proof (pte_range s pd i j (vm_pd _ _ _ Hvm)) as Hrg.
      assert (Htb : table (pte s pd i j) < two32) by (apply (po_pte _ _ (vm_pd _ _ _ Hvm)); (done || lia)).
      sstep (run_lift _ _ s1 (run_ptov _ (proj1 Hrg) Htb Hrg)).
      destruct (freed_step s1 _ (table (pte s pd i j)) H1 HD) as (s2 & Hr2 & H2);
        [apply sp_frame; (done || lia)|apply frame_not_freed; (done || lia)|].
      exists s2. split; [done|]. revert H2. apply freed_ext. intros a. split.
      * intros [[?|(j' & Hj' & ?)]| ->]; [by left|right; exists j'; split; [lia|done]|right; exists j; split; [lia|done]].
      * intros [?|(j' & Hj' & Hp & ->)]; [by left; left|]. destruct (decide (j' = j)) as [->|]; [by right|].
        left. right. exists j'. split; [lia|done].
    + exists s1. split; [done|]. revert H1. apply freed_ext. intros a. split.
      * intros [?|(j' & Hj' & ?)]; [by left|right; exists j'; split; [lia|done]].
      * intros [?|(j' & Hj' & Hp & ->)]; [by left|]. destruct (decide (j' = j)) as [->|]; [congruence|].
        right. exists j'. split; [lia|done].
  - exists s''. split; [done|]. done.
Qed.

Lemma vm_destroy ipd :
  pd <> ipd ->
  exists s', pagedir_destroy ipd pd s = Ret (tt, s') /\ palloc_ok (pal s') /\
    base (kernel_pool (pal s')) = base (kernel_pool (pal s)) /\ pool_end (user_pool (pal s')) = pool_end (user_pool (pal s)) /\
    cr3 s' = cr3 s /\ tlb s' = tlb s /\
    (forall x, allocated (pal s') x = true <-> R x) /\ (forall x, R x -> mem s' x = mem s x).
Proof.
  intros Hne. pose proof (vm_pd _ _ _ Hvm) as Hpd. destruct (po_pd _ _ Hpd) as [Hk _]. pose proof (kernel_page_nonnull _ Hk) as Hnn.
  unfold pagedir_destroy. destruct (Z.eqb_spec pd NULL); [done|]. sassert by (by destruct (Z.eqb_spec pd ipd)).
  assert (Hpn : forall i, 0 <= i <= 768 -> ~ freed_dir i pd).
  { intros i Hi (i' & Hi' & Hn' & [E|(j' & Hj' & Hp & E)]).
    - destruct (po_pde _ _ Hpd i' ltac:(lia) Hn') as (_ & _ & _ & ?). congruence.
    - destruct (vm_frame _ _ _ Hvm i' j') as (_ & ? & _); try (done || lia). }
  set (body := fun i : Z => _). change (Z.to_nat (pd_no PHYS_BASE)) with 768%nat.
  destruct (iter_ind (fun i s' => freed s s' (freed_dir i)) 768 0 body s) as (s1 & Hr & H1).
  - destruct (po_pal _ _ Hpd). split; try done. intros x. split; [|by intros [? _]]. intros Hx. split; [done|].
    intros a (i' & Hi' & _). lia.
  - intros i s1 Hi H1. rewrite Z.add_0_l in Hi. unfold body.
    assert (HD : forall b, freed_dir i b -> spage s pd b) by (intros b Hb; apply (freed_spage i 0); auto; lia).
    sstep (run_load s1 (pd + 4 * i)).
    rewrite (freed_word s1 _ pd i H1 HD (sp_pd s pd) (Hpn i ltac:(lia)) ltac:(lia)).
    change (read32 (mem s) (pd + 4 * i)) with (pde s pd i).
    change (negb (Z.land (pde s pd i) PTE_P =? 0)) with (present (pde s pd i)).
    destruct (decide (pde s pd i = 0)) as [Hz|Hn].
    + rewrite Hz. change (present 0) with false. exists s1. split; [done|]. revert H1. apply freed_ext. intros a. split.
      * intros (i' & Hi' & ?). exists i'. split; [lia|done].
      * intros (i' & Hi' & Hn' & ?). assert (i' <> i) by congruence. exists i'. split; [lia|done].
    + destruct (po_pde _ _ Hpd i ltac:(lia) Hn) as (Hp & _). rewrite Hp.
      sstep (run_lift _ _ s1 (run_get_pt s pd i Hpd ltac:(lia) Hn)). change (Z.to_nat (PGSIZE / 4)) with 1024%nat.
      destruct (destroy_table s1 i ltac:(lia) Hn H1) as (s2 & Hr2 & H2). sstep Hr2.
      destruct (freed_step s2 _ (table (pde s pd i)) H2) as (s3 & Hr3 & H3).
      { intros b. apply freed_spage; auto; lia. }
      { apply sp_table; (done || lia). }
      { apply table_not_freed; (done || lia). }
      exists s3. split; [done|]. revert H3. apply freed_ext. intros a. split.
      * intros [[(i' & Hi' & ?)|?]| ->]; [exists i'; split; [lia|done]|exists i; split; [lia|auto]|exists i; split; [lia|auto]].
      * intros (i' & Hi' & Hn' & Hc). destruct (decide (i' = i)) as [->|]; [destruct Hc; [by right|by left; right]|].
        left. left. exists i'. split; [lia|done].
  - sstep Hr.
    assert (HD : forall b, freed_dir 768 b -> spage s pd b) by (intros b Hb; apply (freed_spage 768 0); auto; lia).
    destruct (freed_step s1 _ pd H1 HD (sp_pd s pd) (Hpn 768 ltac:(lia))) as (s2 & Hr2 & H2).
    exists s2. split; [done|]. destruct (fr_ok _ _ _ H2) as (? & ? & ?), (fr_cpu _ _ _ H2). split_and!; try done.
    + intros x. rewrite (fr_alloc _ _ _ H2). split.
      * intros [Ha Hx]. apply (vm_acct _ _ _ Hvm) in Ha as [?|(a & Hs & Hin)]; [done|].
        enough (E : in_pages a 1 x = false) by congruence. apply Hx.
        destruct Hs as [|i Hi Hn|i j Hi Hj Hn Hp]; [by right|left; exists i; auto|]. left. exists i. split_and!; try done; [lia..|].
        right. by exists j.
      * intros Hx. split; [apply (vm_acct _ _ _ Hvm); by left|]. intros a Ha. destruct (in_pages a 1 x) eqn:E; [|done].
        destruct (vm_rest _ _ _ Hvm x Hx). exists a. split; [|done]. destruct Ha as [?| ->]; [auto|apply sp_pd].
    + intros x Hx. apply (fr_mem _ _ _ H2). intros a Ha. destruct (in_pages a 1 x) eqn:E; [|done].
      destruct (vm_rest _ _ _ Hvm x Hx). exists a. split; [|done]. destruct Ha as [?| ->]; [auto|apply sp_pd].
Qed.
End destroy.
