(* ===== verification/Segments.v ===== *)
(** * Descriptors of the CPU ([userprog/gdt.c], [userprog/tss.c],
    [threads/interrupt.c], [userprog/exception.c], [userprog/syscall.c])

    Segment descriptors and gates are 64-bit integers assembled from bit
    fields; [segment_of] and [gate_of] read the fields back at the positions
    that the CPU manual gives.  The interrupt descriptor table, the handlers
    and the names of the interrupts are lists of 256 elements; a handler or a
    name is named by an integer.  [stubs] gives the addresses of the entry
    points that intr-stubs.S generates. *)
From stdpp Require Import prelude list.
From Stdlib Require Import ZArith Lia.
From S2P Require Import Prelude Palloc.
#[local] Open Scope Z_scope.

(** ** Selectors *)

Definition SEL_NULL : Z := 0.
Definition SEL_KCSEG : Z := 8.
Definition SEL_KDSEG : Z := 16.
Definition SEL_UCSEG : Z := 27.
Definition SEL_UDSEG : Z := 35.
Definition SEL_TSS : Z := 40.
Definition SEL_CNT : Z := 6.

(** ** [userprog/gdt.c] *)

Inductive seg_class : Type := CLS_SYSTEM | CLS_CODE_DATA.
Inductive seg_granularity : Type := GRAN_BYTE | GRAN_PAGE.

Definition class_val (c : seg_class) : Z := match c with CLS_SYSTEM => 0 | CLS_CODE_DATA => 1 end.
Definition gran_val (g : seg_granularity) : Z := match g with GRAN_BYTE => 0 | GRAN_PAGE => 1 end.

Definition make_seg_desc (base limit : Z) (class : seg_class) (type dpl : Z) (granularity : seg_granularity) : outcome Z :=
  let! _ := ASSERT (limit <=? 1048575) in
  let! _ := ASSERT ((0 <=? type) && (type <=? 15)) in
  let! _ := ASSERT ((0 <=? dpl) && (dpl <=? 3)) in
  let e0 := Z.lor (Z.land limit 65535) (u32 (Z.shiftl base 16)) in
  let e1 := Z.lor (Z.lor (Z.lor (Z.lor (Z.lor (Z.lor (Z.lor (Z.lor
      (Z.land (Z.shiftr base 16) 255)
      (Z.shiftl type 8))
      (Z.shiftl (class_val class) 12))
      (Z.shiftl dpl 13))
      (Z.shiftl 1 15))
      (Z.land limit 983040))
      (Z.shiftl 1 22))
      (Z.shiftl (gran_val granularity) 23))
      (Z.land base 4278190080) in
  Ret (Z.lor e0 (u64 (Z.shiftl e1 32))).

Definition make_code_desc (dpl : Z) : outcome Z := make_seg_desc 0 1048575 CLS_CODE_DATA 10 dpl GRAN_PAGE.
Definition make_data_desc (dpl : Z) : outcome Z := make_seg_desc 0 1048575 CLS_CODE_DATA 2 dpl GRAN_PAGE.
Definition make_tss_desc (laddr : Z) : outcome Z := make_seg_desc laddr 103 CLS_SYSTEM 9 0 GRAN_BYTE.
Definition make_gdtr_operand (limit base : Z) : Z := Z.lor limit (u64 (Z.shiftl base 16)).

(** The table, and the operand of [lgdt] for the table at [gdt_addr]. *)
Definition gdt_init (gdt_addr tss : Z) : outcome (list Z * Z) :=
  let gdt := replicate (Z.to_nat SEL_CNT) 0 in
  let gdt := <[Z.to_nat (SEL_NULL / 8) := 0]> gdt in
  let! d := make_code_desc 0 in let gdt := <[Z.to_nat (SEL_KCSEG / 8) := d]> gdt in
  let! d := make_data_desc 0 in let gdt := <[Z.to_nat (SEL_KDSEG / 8) := d]> gdt in
  let! d := make_code_desc 3 in let gdt := <[Z.to_nat (SEL_UCSEG / 8) := d]> gdt in
  let! d := make_data_desc 3 in let gdt := <[Z.to_nat (SEL_UDSEG / 8) := d]> gdt in
  let! _ := ASSERT (negb (tss =? NULL)) in
  let! d := make_tss_desc tss in let gdt := <[Z.to_nat (SEL_TSS / 8) := d]> gdt in
  Ret (gdt, make_gdtr_operand (8 * SEL_CNT - 1) gdt_addr).

(** ** [userprog/tss.c]

    The members of the task-state segment that are ever set; the others stay
    zero. *)
Record tss : Type := mkTss { esp0 : Z; ss0 : Z; tss_bitmap : Z }.

(** [tss_update]: the stack of the thread whose page is at [cur]. *)
Definition tss_update (cur : Z) (t : option tss) : outcome (option tss) :=
  match t with
  | None => Err AssertFailed
  | Some t => Ret (Some (mkTss (u32 (cur + PGSIZE)) (ss0 t) (tss_bitmap t)))
  end.

(** The page of the segment is taken from the kernel pool. *)
Definition tss_init (cur : Z) : ST palloc_state (Z * option tss) :=
  do! p := palloc_get_page (Z.lor PAL_ASSERT PAL_ZERO) in
  do! t := lift (tss_update cur (Some (mkTss 0 SEL_KDSEG 57343))) in
  sret (p, t).

Definition tss_get (p : Z) : outcome Z := let! _ := ASSERT (negb (p =? NULL)) in Ret p.

(** ** [threads/interrupt.c]: gates *)

Definition make_gate (function dpl type : Z) : outcome Z :=
  let! _ := ASSERT (negb (function =? NULL)) in
  let! _ := ASSERT ((0 <=? dpl) && (dpl <=? 3)) in
  let! _ := ASSERT ((0 <=? type) && (type <=? 15)) in
  let e0 := Z.lor (Z.land function 65535) (Z.shiftl SEL_KCSEG 16) in
  let e1 := Z.lor (Z.lor (Z.lor (Z.lor
      (Z.land function 4294901760)
      (Z.shiftl 1 15))
      (Z.shiftl dpl 13))
      (Z.shiftl 0 12))
      (Z.shiftl type 8) in
  Ret (Z.lor e0 (u64 (Z.shiftl e1 32))).

Definition make_intr_gate (function dpl : Z) : outcome Z := make_gate function dpl 14.
Definition make_trap_gate (function dpl : Z) : outcome Z := make_gate function dpl 15.
Definition make_idtr_operand (limit base : Z) : Z := Z.lor limit (u64 (Z.shiftl base 16)).

(** ** [threads/interrupt.c]: the interrupt controllers

    The writes to ports, in order. *)
Definition PIC0_CTRL : Z := 32.
Definition PIC0_DATA : Z := 33.
Definition PIC1_CTRL : Z := 160.
Definition PIC1_DATA : Z := 161.

Definition pic_init : list (Z * Z) :=
  [ (PIC0_DATA, 255); (PIC1_DATA, 255);
    (PIC0_CTRL, 17); (PIC0_DATA, 32); (PIC0_DATA, 4); (PIC0_DATA, 1);
    (PIC1_CTRL, 17); (PIC1_DATA, 40); (PIC1_DATA, 2); (PIC1_DATA, 1);
    (PIC0_DATA, 0); (PIC1_DATA, 0) ].

Definition pic_end_of_interrupt (irq : Z) : outcome (list (Z * Z)) :=
  let! _ := ASSERT ((32 <=? irq) && (irq <? 48)) in
  Ret ((32, 32) :: if 40 <=? irq then [(160, 32)] else []).

(** ** [threads/interrupt.c]: the tables *)

Definition INTR_CNT : Z := 256.

Record intrs : Type := mkIntrs {
  idt : list Z;
  intr_handlers : list Z;
  intr_names : list Z;
  unexpected_cnt : list Z
}.

Section tables.
Context (stubs : Z -> Z).

(** [for (i = 0; i < n; i++) idt[i] = make_intr_gate (intr_stubs[i], 0);] *)
Definition idt_loop (n : nat) (t : list Z) : outcome (list Z) :=
  for_loop n 0 (fun i t => let! g := make_intr_gate (stubs i) 0 in Ret (<[Z.to_nat i := g]> t)) t.

(** The names are numbered: [0] is "unknown" and [v + 1] the name that the
    code gives to the exception [v]; there is none for 15. *)
Definition exception_names : list Z := [0; 1; 2; 3; 4; 5; 6; 7; 8; 9; 10; 11; 12; 13; 14; 16; 17; 18; 19].

(** The writes to the ports, the operand of [lidt] for the table at
    [idt_addr], and the tables. *)
Definition intr_init (idt_addr : Z) (s : intrs) : outcome (list (Z * Z) * Z * intrs) :=
  let ports := pic_init in
  let! t := idt_loop (Z.to_nat INTR_CNT) (idt s) in
  let idtr_operand := make_idtr_operand (8 * INTR_CNT - 1) idt_addr in
  let names := replicate (Z.to_nat INTR_CNT) 0 in
  let names := fold_left (fun l v => <[Z.to_nat v := v + 1]> l) exception_names names in
  Ret (ports, idtr_operand, mkIntrs t (intr_handlers s) names (unexpected_cnt s)).

Definition register_handler (vec_no dpl : Z) (level : bool) (handler name : Z) (s : intrs) : outcome intrs :=
  let! h := access (intr_handlers s !! Z.to_nat vec_no) in
  let! _ := ASSERT (h =? NULL) in
  let! g := (if level then make_trap_gate (stubs vec_no) dpl else make_intr_gate (stubs vec_no) dpl) in
  Ret (mkIntrs (<[Z.to_nat vec_no := g]> (idt s)) (<[Z.to_nat vec_no := handler]> (intr_handlers s))
    (<[Z.to_nat vec_no := name]> (intr_names s)) (unexpected_cnt s)).

Definition intr_register_ext (vec_no handler name : Z) (s : intrs) : outcome intrs :=
  let! _ := ASSERT ((32 <=? vec_no) && (vec_no <=? 47)) in
  register_handler vec_no 0 false handler name s.

Definition intr_register_int (vec_no dpl : Z) (level : bool) (handler name : Z) (s : intrs) : outcome intrs :=
  let! _ := ASSERT ((vec_no <? 32) || (47 <? vec_no)) in
  register_handler vec_no dpl level handler name s.

Definition intr_name (vec : Z) (s : intrs) : outcome Z := access (intr_names s !! Z.to_nat vec).

(** The new table, and whether a message is printed. *)
Definition unexpected_interrupt (vec_no : Z) (s : intrs) : outcome (bool * intrs) :=
  let! c := access (unexpected_cnt s !! Z.to_nat vec_no) in
  let n := u32 (c + 1) in
  Ret (Z.land n (u32 (n - 1)) =? 0,
    mkIntrs (idt s) (intr_handlers s) (intr_names s) (<[Z.to_nat vec_no := n]> (unexpected_cnt s))).

(** *** [userprog/exception.c] and [userprog/syscall.c]: registration *)

Context (kill page_fault syscall_handler : Z).

Definition exception_init (s : intrs) : outcome intrs :=
  let! s := intr_register_int 3 3 true kill 4 s in
  let! s := intr_register_int 4 3 true kill 5 s in
  let! s := intr_register_int 5 3 true kill 6 s in
  let! s := intr_register_int 0 0 true kill 1 s in
  let! s := intr_register_int 1 0 true kill 2 s in
  let! s := intr_register_int 6 0 true kill 7 s in
  let! s := intr_register_int 7 0 true kill 8 s in
  let! s := intr_register_int 11 0 true kill 12 s in
  let! s := intr_register_int 12 0 true kill 13 s in
  let! s := intr_register_int 13 0 true kill 14 s in
  let! s := intr_register_int 16 0 true kill 17 s in
  let! s := intr_register_int 19 0 true kill 20 s in
  intr_register_int 14 0 false page_fault 15 s.

(** The name of the system call is numbered 49. *)
Definition syscall_init (s : intrs) : outcome intrs := intr_register_int 48 3 true syscall_handler 49 s.
End tables.

(** ** The fields as the CPU reads them *)

(** The [n] bits of [d] from bit [lo] on. *)
Definition field (d lo n : Z) : Z := d / 2 ^ lo mod 2 ^ n.

Record segment : Type := mkSegment {
  seg_base : Z; seg_limit : Z; seg_type : Z; seg_s : Z; seg_dpl : Z; seg_present : Z; seg_32bit : Z; seg_gran : Z
}.

Definition segment_of (d : Z) : segment :=
  mkSegment (field d 16 24 + 16777216 * field d 56 8) (field d 0 16 + 65536 * field d 48 4) (field d 40 4)
    (field d 44 1) (field d 45 2) (field d 47 1) (field d 54 1) (field d 55 1).

Record gate : Type := mkGate {
  g_offset : Z; g_selector : Z; g_type : Z; g_system : Z; g_dpl : Z; g_present : Z
}.

Definition gate_of (d : Z) : gate :=
  mkGate (field d 0 16 + 65536 * field d 48 16) (field d 16 16) (field d 40 4) (field d 44 1) (field d 45 2) (field d 47 1).

(** ** Fields joined by [|] are sums *)

Lemma lor_high n a b : 0 <= n -> 0 <= a < 2 ^ n -> Z.lor a (Z.shiftl b n) = a + b * 2 ^ n.
Proof.
  intros Hn Ha. rewrite Z.lor_comm, Z.shiftl_mul_pow2 by done. rewrite (lor_add n); [lia|done| |done].
  apply Z.mod_mul. apply Z.pow_nonzero; lia.
Qed.

Lemma lor_low n p b k : 0 <= n -> 0 <= k -> p mod 2 ^ n = 0 -> 0 <= b * 2 ^ k < 2 ^ n -> Z.lor p (Z.shiftl b k) = p + b * 2 ^ k.
Proof. intros Hn Hk Hp Hb. rewrite Z.shiftl_mul_pow2 by done. by apply (lor_add n). Qed.

(** A mask of the high bits of a word. *)
Lemma land_high n m a : 0 <= n <= m -> 0 <= a < 2 ^ m -> Z.land a (2 ^ m - 2 ^ n) = Z.shiftl (a / 2 ^ n) n.
Proof.
  intros Hn Ha. rewrite <- Z.shiftr_div_pow2 by lia. rewrite <- Z.ldiff_ones_r by lia. apply Z.bits_inj'. intros j Hj.
  rewrite Z.land_spec, Z.ldiff_spec.
  assert (2 ^ m - 2 ^ n = Z.shiftl (Z.ones (m - n)) n) as ->.
  { assert (E : 2 ^ m = 2 ^ (m - n) * 2 ^ n) by (rewrite <- Z.pow_add_r by lia; f_equal; lia).
    rewrite Z.shiftl_mul_pow2, Z.ones_equiv by lia. lia. }
  destruct (Z_lt_le_dec j n) as [?|?].
  - rewrite Z.shiftl_spec_low, Z.ones_spec_low by lia. by rewrite !andb_false_r.
  - rewrite Z.shiftl_spec, (Z.ones_spec_high n j) by lia. cbn [negb]. rewrite andb_true_r. destruct (Z_lt_le_dec j m).
    + rewrite Z.ones_spec_low by lia. apply andb_true_r.
    + by rewrite (testbit_high a m j) by lia.
Qed.

Lemma land_low n a : 0 <= n -> Z.land a (2 ^ n - 1) = a mod 2 ^ n.
Proof. intros Hn. rewrite <- Z.land_ones by done. by rewrite Z.ones_equiv, <- Z.sub_1_r. Qed.

(** The value of a segment descriptor. *)
Definition seg_value (base limit class type dpl gran : Z) : Z :=
  limit mod 65536 + 65536 * (base mod 65536) + 4294967296 *
    (base / 65536 mod 256 + 256 * type + 4096 * class + 8192 * dpl + 32768 + 65536 * (limit / 65536) +
     4194304 + 8388608 * gran + 16777216 * (base / 16777216)).

Lemma make_seg_desc_value base limit class type dpl gran :
  0 <= base < two32 -> 0 <= limit < 1048576 -> 0 <= type < 16 -> 0 <= dpl < 4 ->
  make_seg_desc base limit class type dpl gran =
    Ret (seg_value base limit (class_val class) type dpl (gran_val gran)).
Proof.
  intros Hb Hl Ht Hd. unfold make_seg_desc.
  destruct (Z.leb_spec limit 1048575); [|lia]. destruct (Z.leb_spec 0 type); [|lia]. destruct (Z.leb_spec type 15); [|lia].
  destruct (Z.leb_spec 0 dpl); [|lia]. destruct (Z.leb_spec dpl 3); [|lia]. cbn [andb ASSERT obind]. f_equal.
  assert (Hc : 0 <= class_val class < 2) by (destruct class; simpl; lia).
  assert (Hg : 0 <= gran_val gran < 2) by (destruct gran; simpl; lia).
  unfold seg_value. set (c := class_val class) in *. set (g := gran_val gran) in *.
  change 65535 with (2 ^ 16 - 1). rewrite land_low by lia.
  assert (Hsh : u32 (Z.shiftl base 16) = Z.shiftl (base mod 65536) 16).
  { rewrite !Z.shiftl_mul_pow2 by lia. change (2 ^ 16) with 65536. unfold u32.
    change two32 with (65536 * 65536). rewrite Z.mul_mod_distr_r by lia. done. }
  rewrite Hsh. pose proof (Z.mod_pos_bound limit 65536 ltac:(lia)). pose proof (Z.mod_pos_bound base 65536 ltac:(lia)).
  rewrite (lor_high 16) by (change (2 ^ 16) with 65536; lia).
  rewrite Z.shiftr_div_pow2 by lia. change 255 with (2 ^ 8 - 1). rewrite land_low by lia.
  change (2 ^ 8) with 256. change (2 ^ 16) with 65536. pose proof (Z.mod_pos_bound (base / 65536) 256 ltac:(lia)).
  change 983040 with (2 ^ 20 - 2 ^ 16). rewrite (land_high 16 20) by (change (2 ^ 20) with 1048576; lia).
  change 4278190080 with (2 ^ 32 - 2 ^ 24). rewrite (land_high 24 32) by (change (2 ^ 32) with two32; lia).
  change (2 ^ 16) with 65536. change (2 ^ 24) with 16777216.
  assert (0 <= limit / 65536 < 16) by (split; [apply Z.div_pos; lia|apply Z.div_lt_upper_bound; lia]).
  assert (0 <= base / 16777216 < 256) by (unfold two32 in Hb; split; [apply Z.div_pos; lia|apply Z.div_lt_upper_bound; lia]).
  rewrite (lor_high 8), (lor_high 12), (lor_high 13), (lor_high 15), (lor_high 16), (lor_high 22), (lor_high 23), (lor_high 24)
    by (cbn [Z.pow Z.pow_pos Pos.iter Z.mul Pos.mul]; lia).
  rewrite u64_small; [rewrite (lor_high 32)|]; cbn [Z.pow Z.pow_pos Pos.iter Z.mul Pos.mul]; [lia|lia|lia|].
  rewrite Z.shiftl_mul_pow2 by lia. unfold is_u64, two64. cbn [Z.pow Z.pow_pos Pos.iter Z.mul Pos.mul]. lia.
Qed.

Lemma make_gate_value f dpl type :
  0 < f < two32 -> 0 <= type < 16 -> 0 <= dpl < 4 ->
  make_gate f dpl type = Ret (f mod 65536 + 65536 * 8 + 4294967296 *
    (65536 * (f / 65536) + 32768 + 8192 * dpl + 256 * type)).
Proof.
  intros Hf Ht Hd. unfold make_gate, NULL.
  destruct (Z.eqb_spec f 0); [lia|]. destruct (Z.leb_spec 0 type); [|lia]. destruct (Z.leb_spec type 15); [|lia].
  destruct (Z.leb_spec 0 dpl); [|lia]. destruct (Z.leb_spec dpl 3); [|lia]. cbn [negb andb ASSERT obind]. f_equal.
  change 65535 with (2 ^ 16 - 1). rewrite land_low by lia. change 4294901760 with (2 ^ 32 - 2 ^ 16).
  rewrite (land_high 16 32) by (change (2 ^ 32) with two32; lia). change (2 ^ 16) with 65536.
  pose proof (Z.mod_pos_bound f 65536 ltac:(lia)).
  assert (0 <= f / 65536 < 65536) by (unfold two32 in Hf; split; [apply Z.div_pos; lia|apply Z.div_lt_upper_bound; lia]).
  rewrite (lor_high 16) by (change (2 ^ 16) with 65536; lia). rewrite (Z.shiftl_mul_pow2 (f / 65536)) by lia.
  change (Z.shiftl 0 12) with 0. rewrite Z.lor_0_r.
  rewrite (lor_low 16 _ 1 15) by (cbn [Z.pow Z.pow_pos Pos.iter Z.mul Pos.mul]; lia || apply Z.mod_mul; lia).
  rewrite (lor_low 15 _ dpl 13) by (cbn [Z.pow Z.pow_pos Pos.iter Z.mul Pos.mul]; try lia; Z.to_euclidean_division_equations; lia).
  rewrite (lor_low 13 _ type 8) by (cbn [Z.pow Z.pow_pos Pos.iter Z.mul Pos.mul]; try lia; Z.to_euclidean_division_equations; lia).
  unfold SEL_KCSEG. cbn [Z.pow Z.pow_pos Pos.iter Z.mul Pos.mul].
  rewrite u64_small; [rewrite (lor_high 32)|]; cbn [Z.pow Z.pow_pos Pos.iter Z.mul Pos.mul]; [lia|lia|lia|].
  rewrite Z.shiftl_mul_pow2 by lia. unfold is_u64, two64. cbn [Z.pow Z.pow_pos Pos.iter Z.mul Pos.mul]. lia.
Qed.

Lemma seg_value_fields base limit class type dpl gran :
  0 <= base < two32 -> 0 <= limit < 1048576 -> 0 <= type < 16 -> 0 <= dpl < 4 -> 0 <= class < 2 -> 0 <= gran < 2 ->
  segment_of (seg_value base limit class type dpl gran) = mkSegment base limit type class dpl 1 1 gran.
Proof.
  unfold two32. intros Hb Hl Ht Hd Hc Hg. unfold segment_of, seg_value, field.
  cbn [Z.pow Z.pow_pos Pos.iter Z.mul Pos.mul]. f_equal; Z.to_euclidean_division_equations; lia.
Qed.

Lemma gate_value_fields f dpl type g :
  0 < f < two32 -> 0 <= type < 16 -> 0 <= dpl < 4 -> make_gate f dpl type = Ret g ->
  gate_of g = mkGate f SEL_KCSEG type 0 dpl 1.
Proof.
  intros Hf Ht Hd. rewrite make_gate_value by done. intros [= <-]. unfold gate_of, field, SEL_KCSEG, two32 in *.
  cbn [Z.pow Z.pow_pos Pos.iter Z.mul Pos.mul]. f_equal; Z.to_euclidean_division_equations; lia.
Qed.

(** ** The interrupt descriptor table after a sequence of registrations *)

Record registration : Type := mkReg { r_vec : Z; r_dpl : Z; r_level : bool; r_handler : Z; r_name : Z }.

Lemma find_app {A} (f : A -> bool) l1 l2 :
  find f (l1 ++ l2) = match find f l1 with Some x => Some x | None => find f l2 end.
Proof. induction l1 as [|a l1 IH]; simpl; [done|]. by destruct (f a). Qed.

Section registration.
Context (stubs : Z -> Z) (Hstubs : forall v, 0 <= v < 256 -> 0 < stubs v < two32).

Definition register_all (l : list registration) (s : intrs) : outcome intrs :=
  fold_left (fun o r => let! s := o in register_handler stubs (r_vec r) (r_dpl r) (r_level r) (r_handler r) (r_name r) s) l (Ret s).

(** The gate of a vector after the registrations [l]. *)
Definition expected_gate (l : list registration) (v : Z) : gate :=
  match find (fun r => r_vec r =? v) l with
  | Some r => mkGate (stubs v) SEL_KCSEG (if r_level r then 15 else 14) 0 (r_dpl r) 1
  | None => mkGate (stubs v) SEL_KCSEG 14 0 0 1
  end.

Definition tables_match (l : list registration) (s : intrs) : Prop :=
  length (idt s) = 256%nat /\ length (intr_handlers s) = 256%nat /\
  forall v, 0 <= v < 256 ->
    (exists g, idt s !! Z.to_nat v = Some g /\ gate_of g = expected_gate l v) /\
    intr_handlers s !! Z.to_nat v = Some (match find (fun r => r_vec r =? v) l with Some r => r_handler r | None => NULL end).

Lemma idt_loop_spec t :
  length t = 256%nat -> exists t', idt_loop stubs 256 t = Ret t' /\ length t' = 256%nat /\
    forall v, 0 <= v < 256 -> exists g, t' !! Z.to_nat v = Some g /\ gate_of g = mkGate (stubs v) SEL_KCSEG 14 0 0 1.
Proof.
  intros Ht. unfold idt_loop. set (f := fun (i : Z) (t : list Z) => _).
  destruct (for_loop_ind (fun k t => length t = 256%nat /\
    forall v, 0 <= v < k -> exists g, t !! Z.to_nat v = Some g /\ gate_of g = mkGate (stubs v) SEL_KCSEG 14 0 0 1) f 256 0 t)
    as (t' & Hr & Hl & Hv).
  - split; [done|lia].
  - intros k x Hk [Hl Hx]. unfold f, make_intr_gate. rewrite make_gate_value by (lia || apply Hstubs; lia).
    eexists. split; [done|]. split; [by rewrite length_insert|]. intros v Hv.
    destruct (decide (v = k)) as [->|]; [|rewrite list_lookup_insert_ne by lia; apply Hx; lia].
    rewrite list_lookup_insert_eq by lia. eexists. split; [done|]. eapply gate_value_fields; [apply Hstubs; lia|lia|lia|].
    apply make_gate_value; [apply Hstubs; lia|lia|lia].
  - by exists t'.
Qed.

Lemma register_step l s r :
  tables_match l s -> 0 <= r_vec r < 256 -> 0 <= r_dpl r < 4 -> r_handler r <> NULL ->
  find (fun r' => r_vec r' =? r_vec r) l = None ->
  exists s', register_handler stubs (r_vec r) (r_dpl r) (r_level r) (r_handler r) (r_name r) s = Ret s' /\
    tables_match (l ++ [r]) s' /\ unexpected_cnt s' = unexpected_cnt s /\ length (intr_names s') = length (intr_names s).
Proof.
  intros (Hl1 & Hl2 & Hm) Hv Hd Hh Hnew. unfold register_handler. destruct (Hm (r_vec r) Hv) as [_ Hhv].
  rewrite Hhv, Hnew. cbn [access obind]. change (NULL =? NULL) with true. cbn [ASSERT obind].
  unfold make_trap_gate, make_intr_gate.
  assert (Hg : exists g, (if r_level r then make_gate (stubs (r_vec r)) (r_dpl r) 15 else make_gate (stubs (r_vec r)) (r_dpl r) 14) = Ret g /\
    gate_of g = mkGate (stubs (r_vec r)) SEL_KCSEG (if r_level r then 15 else 14) 0 (r_dpl r) 1).
  { destruct (r_level r); (eexists; split; [apply make_gate_value; [by apply Hstubs|lia|lia]|]);
      (eapply gate_value_fields; [by apply Hstubs| |done|apply make_gate_value; [by apply Hstubs|lia|done]]; lia). }
  destruct Hg as (g & -> & Hgf). cbn [obind]. eexists. split; [done|]. split; [|by cbn [intr_names unexpected_cnt]; rewrite length_insert].
  split; [by cbn [idt]; rewrite length_insert|]. split; [by cbn [intr_handlers]; rewrite length_insert|].
  cbn [idt intr_handlers]. intros v Hvr. unfold expected_gate. rewrite find_app. cbn [find].
  destruct (Z.eqb_spec (r_vec r) v) as [<-|Hne].
  - rewrite Hnew, !list_lookup_insert_eq by lia. split; [|done]. exists g. split; [done|exact Hgf].
  - rewrite !list_lookup_insert_ne by lia. destruct (Hm v Hvr) as [Hg1 Hg2]. unfold expected_gate in Hg1.
    by destruct (find (fun r' => r_vec r' =? v) l).
Qed.

Lemma find_none_notin v (l : list registration) : find (fun r => r_vec r =? v) l = None <-> v ∉ map r_vec l.
Proof.
  induction l as [|r l IH]; simpl; [set_solver|]. destruct (Z.eqb_spec (r_vec r) v) as [<-|Hne].
  - split; [done|]. intros []. by left.
  - rewrite IH. set_solver.
Qed.

Lemma register_all_spec l0 l s :
  tables_match l0 s -> Forall (fun r => 0 <= r_vec r < 256 /\ 0 <= r_dpl r < 4 /\ r_handler r <> NULL) l ->
  NoDup (map r_vec (l0 ++ l)) ->
  exists s', register_all l s = Ret s' /\ tables_match (l0 ++ l) s' /\ unexpected_cnt s' = unexpected_cnt s /\
    length (intr_names s') = length (intr_names s).
Proof.
  revert l0 s. induction l as [|r l IH]; intros l0 s Hm HF Hnd.
  - exists s. by rewrite app_nil_r.
  - apply Forall_cons in HF as [(H1 & H2 & H3) HF]. unfold register_all. cbn [fold_left obind].
    destruct (register_step l0 s r Hm H1 H2 H3) as (s1 & -> & Hm1 & Hu1 & Hn1).
    { apply find_none_notin. rewrite map_app in Hnd. apply NoDup_app in Hnd as (_ & Hx & _). intros Hin.
      apply (Hx _ Hin). by left. }
    destruct (IH (l0 ++ [r]) s1 Hm1 HF) as (s2 & Hr & Hm2 & Hu2 & Hn2); [by rewrite <- app_assoc|].
    exists s2. rewrite <- app_assoc in Hm2. split_and!; [exact Hr|done|congruence|congruence].
Qed.
End registration.

(** The registrations of [exception_init] and [syscall_init], in order. *)
Definition kernel_registrations (kill page_fault syscall_handler : Z) : list registration :=
  [mkReg 3 3 true kill 4; mkReg 4 3 true kill 5; mkReg 5 3 true kill 6; mkReg 0 0 true kill 1; mkReg 1 0 true kill 2;
   mkReg 6 0 true kill 7; mkReg 7 0 true kill 8; mkReg 11 0 true kill 12; mkReg 12 0 true kill 13; mkReg 13 0 true kill 14;
   mkReg 16 0 true kill 17; mkReg 19 0 true kill 20; mkReg 14 0 false page_fault 15; mkReg 48 3 true syscall_handler 49].

(** The part of [main] that fills the tables; they do not depend on the
    address of the IDT. *)
Definition exceptions_and_syscalls (stubs : Z -> Z) (kill page_fault syscall_handler : Z) (s : intrs) : outcome intrs :=
  let! (_, s) := intr_init stubs 0 s in
  let! s := exception_init stubs kill page_fault s in
  syscall_init stubs syscall_handler s.

(** Power-on state of the tables. *)
Definition no_intrs : intrs := mkIntrs (replicate 256 0) (replicate 256 NULL) (replicate 256 0) (replicate 256 0).

Lemma registrations_run stubs kill page_fault syscall_handler s :
  (let! s := exception_init stubs kill page_fault s in syscall_init stubs syscall_handler s) =
  register_all stubs (kernel_registrations kill page_fault syscall_handler) s.
Proof.
  unfold exception_init, syscall_init, register_all, kernel_registrations, intr_register_int.
  cbn [fold_left r_vec r_dpl r_level r_handler r_name obind Z.ltb Z.compare Pos.compare Pos.compare_cont orb ASSERT].
  repeat (match goal with |- context [register_handler stubs ?v ?d ?l ?h ?n ?s] =>
    is_var s; destruct (register_handler stubs v d l h n s); cbn [obind]; try reflexivity end).
Qed.

Lemma land_pred_pow2 n : 0 <= n -> Z.land n (n - 1) = 0 <-> n = 0 \/ exists k, 0 <= k /\ n = 2 ^ k.
Proof.
  intros Hn. split.
  - intros H. destruct (decide (n = 0)) as [|Hnz]; [by left|right]. exists (Z.log2 n). split; [apply Z.log2_nonneg|].
    destruct (Z.log2_spec n ltac:(lia)) as [H1 H2]. rewrite Z.pow_succ_r in H2 by apply Z.log2_nonneg.
    destruct (decide (n = 2 ^ Z.log2 n)) as [|Hne]; [done|]. exfalso.
    assert (Hb : Z.testbit (Z.land n (n - 1)) (Z.log2 n) = true).
    { rewrite Z.land_spec, Z.bit_log2 by lia. cbn [andb].
      assert (Z.log2 n = Z.log2 (n - 1)) as ->; [|apply Z.bit_log2; pose proof (Z.pow_pos_nonneg 2 (Z.log2 n) ltac:(lia) (Z.log2_nonneg n)); lia].
      symmetry. apply Z.log2_unique; [apply Z.log2_nonneg|]. rewrite Z.pow_succ_r by apply Z.log2_nonneg. lia. }
    by rewrite H, Z.bits_0 in Hb.
  - intros [->|(k & Hk & ->)]; [done|]. rewrite land_low by done. apply Z.mod_same, Z.pow_nonzero; lia.
Qed.

(** The tables after the initialization. *)
Lemma exceptions_tables stubs kill page_fault syscall_handler :
  (forall v, 0 <= v < 256 -> 0 < stubs v < two32) -> kill <> NULL -> page_fault <> NULL -> syscall_handler <> NULL ->
  exists s, exceptions_and_syscalls stubs kill page_fault syscall_handler no_intrs = Ret s /\
    tables_match stubs (kernel_registrations kill page_fault syscall_handler) s /\
    length (intr_names s) = 256%nat /\ length (unexpected_cnt s) = 256%nat.
Proof.
  intros Hst Hk Hp Hs. unfold exceptions_and_syscalls, intr_init.
  destruct (idt_loop_spec stubs Hst (idt no_intrs) eq_refl) as (t & Ht & Hl & Hv). change (Z.to_nat INTR_CNT) with 256%nat.
  rewrite Ht. cbn [obind]. rewrite registrations_run. set (s0 := mkIntrs t _ _ _).
  assert (Hm0 : tables_match stubs [] s0).
  { split; [done|]. split; [done|]. intros v Hr. split; [by apply Hv|]. cbn [find s0 intr_handlers].
    apply lookup_replicate_2. lia. }
  destruct (register_all_spec stubs Hst [] (kernel_registrations kill page_fault syscall_handler) s0 Hm0) as (s & Hr & Hm & Hu & Hn).
  - repeat constructor; simpl; (done || lia).
  - change (map r_vec _) with [3; 4; 5; 0; 1; 6; 7; 11; 12; 13; 16; 19; 14; 48].
    apply (bool_decide_unpack (NoDup _)). vm_compute. done.
  - exists s. split; [exact Hr|]. rewrite app_nil_l in Hm. split; [done|]. rewrite Hu, Hn. done.
Qed.

(** ** Theorems *)

(** Segment descriptors.  For every base, limit, class, type, privilege
    level and granularity in range, [make_seg_desc] returns a descriptor in
    which the CPU finds exactly these fields, present and 32-bit; a limit,
    type or privilege level out of range trips an assertion. *)
Theorem make_seg_desc_correct base limit class type dpl gran :
  0 <= base < two32 -> 0 <= limit ->
  (limit < 1048576 -> 0 <= type < 16 -> 0 <= dpl < 4 ->
   exists d, make_seg_desc base limit class type dpl gran = Ret d /\
     segment_of d = mkSegment base limit type (class_val class) dpl 1 1 (gran_val gran)) /\
  (1048576 <= limit \/ ~ 0 <= type < 16 \/ ~ 0 <= dpl < 4 ->
   make_seg_desc base limit class type dpl gran = Err AssertFailed).
Proof.
  intros Hb Hl. split.
  - intros Hl' Ht Hd. eexists. split; [by apply make_seg_desc_value|]. apply seg_value_fields; try done; [destruct class|destruct gran]; simpl; lia.
  - intros H. unfold make_seg_desc. bool_cases; cbn [andb ASSERT obind]; try done; exfalso; lia.
Qed.

Lemma make_seg_desc_correct_witness :
  exists d, make_seg_desc 3222282240 103 CLS_SYSTEM 9 0 GRAN_BYTE = Ret d /\
    segment_of d = mkSegment 3222282240 103 9 0 0 1 1 0.
Proof.
  destruct (make_seg_desc_correct 3222282240 103 CLS_SYSTEM 9 0 GRAN_BYTE) as [H _]; [unfold two32; lia|lia|].
  apply H; lia.
Defined.

(** Interrupt gates.  After [intr_init], [exception_init] and
    [syscall_init] every vector has a present gate to its own stub in the
    kernel code segment; user code can invoke the vectors 3, 4, 5 and 0x30 by
    an instruction, and no other; interrupts are off in the handlers of page
    faults and of the vectors that have none yet, and on in the others.
    Registering one of these vectors again trips an assertion. *)
Theorem user_gates_correct stubs kill page_fault syscall_handler :
  (forall v, 0 <= v < 256 -> 0 < stubs v < two32) -> kill <> NULL -> page_fault <> NULL -> syscall_handler <> NULL ->
  exists s, exceptions_and_syscalls stubs kill page_fault syscall_handler no_intrs = Ret s /\
    (forall v, 0 <= v < 256 -> exists g, idt s !! Z.to_nat v = Some g /\
       let traps := [0; 1; 3; 4; 5; 6; 7; 11; 12; 13; 16; 19; 48] in
       gate_of g = mkGate (stubs v) SEL_KCSEG (if bool_decide (v ∈ traps) then 15 else 14) 0
         (if bool_decide (v ∈ [3; 4; 5; 48]) then 3 else 0) 1) /\
    (forall v dpl level h n, v ∈ [0; 1; 3; 4; 5; 6; 7; 11; 12; 13; 14; 16; 19; 48] ->
       intr_register_int stubs v dpl level h n s = Err AssertFailed).
Proof.
  intros Hst Hk Hp Hs. destruct (exceptions_tables stubs kill page_fault syscall_handler Hst Hk Hp Hs) as (s & Hr & Hm & _).
  exists s. split; [exact Hr|]. destruct Hm as (_ & _ & Hm). split.
    + intros v Hvr. destruct (Hm v Hvr) as [(g & Hg & He) _]. exists g. split; [done|]. cbv zeta. rewrite He.
      unfold expected_gate, kernel_registrations. cbn [find r_vec].
      repeat (match goal with |- context [?a =? v] => destruct (Z.eqb_spec a v) as [<-|?]; [reflexivity|] end).
      rewrite !bool_decide_false; [done|..]; set_solver by lia.
    + intros v dpl level h n Hin.
      assert (Hvr : 0 <= v < 256) by (revert v Hin; apply (proj1 (Forall_forall (fun v => 0 <= v < 256) _)); repeat constructor; lia).
      unfold intr_register_int, register_handler. destruct (Hm v Hvr) as [_ ->]. cbn [access obind].
      assert (Hh : exists r, find (fun r => r_vec r =? v) (kernel_registrations kill page_fault syscall_handler) = Some r /\ r_handler r <> NULL).
      { clear Hvr. revert v Hin. apply (proj1 (Forall_forall (fun v => exists r, find (fun r => r_vec r =? v) _ = Some r /\ r_handler r <> NULL) _)).
        repeat (apply Forall_cons; split; [simpl; eauto|]). constructor. }
      destruct Hh as (r & -> & Hn). destruct (Z.eqb_spec (r_handler r) NULL); [done|].
      by destruct (ASSERT _) as [[]|] eqn:E; cbn [obind ASSERT]; [|destruct (_ || _); [done|injection E as <-]].
Qed.

Lemma user_gates_correct_witness :
  exists s, exceptions_and_syscalls (fun v => 3221225472 + 16 * v) 1 2 3 no_intrs = Ret s.
Proof.
  destruct (user_gates_correct (fun v => 3221225472 + 16 * v) 1 2 3) as (s & H & _);
    [intros v Hv; unfold two32; lia|done|done|done|]. by exists s.
Defined.

(** Unexpected interrupts are counted, and reported when the count is a power
    of two (or has wrapped around to zero). *)
Theorem unexpected_interrupt_correct vec_no s c :
  unexpected_cnt s !! Z.to_nat vec_no = Some c ->
  exists b s', unexpected_interrupt vec_no s = Ret (b, s') /\
    unexpected_cnt s' = <[Z.to_nat vec_no := u32 (c + 1)]> (unexpected_cnt s) /\ idt s' = idt s /\
    (b = true <-> u32 (c + 1) = 0 \/ exists k, 0 <= k /\ u32 (c + 1) = 2 ^ k).
Proof.
  intros Hc. unfold unexpected_interrupt. rewrite Hc. cbn [access obind]. eexists _, _. split; [done|]. split; [done|]. split; [done|].
  pose proof (u32_range (c + 1)) as Hr. rewrite <- land_pred_pow2 by apply Hr. rewrite Z.eqb_eq.
  destruct (decide (u32 (c + 1) = 0)) as [->|]; [done|]. rewrite (u32_small (u32 (c + 1) - 1)); [done|].
  unfold is_u32 in *. lia.
Qed.

(** The tables of the global descriptor table: flat segments for the kernel
    and, at privilege level 3, for user code, and the task-state segment. *)
Theorem gdt_init_correct gdt_addr tss :
  0 < tss < two32 ->
  exists gdt, gdt_init gdt_addr tss = Ret (gdt, make_gdtr_operand 47 gdt_addr) /\ length gdt = 6%nat /\
    (forall sel d, gdt !! Z.to_nat (sel / 8) = Some d ->
       (sel = SEL_KCSEG -> segment_of d = mkSegment 0 1048575 10 1 0 1 1 1) /\
       (sel = SEL_KDSEG -> segment_of d = mkSegment 0 1048575 2 1 0 1 1 1) /\
       (sel = SEL_UCSEG -> segment_of d = mkSegment 0 1048575 10 1 3 1 1 1) /\
       (sel = SEL_UDSEG -> segment_of d = mkSegment 0 1048575 2 1 3 1 1 1) /\
       (sel = SEL_TSS -> segment_of d = mkSegment tss 103 9 0 0 1 1 0)).
Proof.
  intros Ht. unfold gdt_init, make_code_desc, make_data_desc, make_tss_desc.
  rewrite !make_seg_desc_value by (unfold two32 in *; lia). unfold NULL. destruct (Z.eqb_spec tss 0); [lia|].
  cbn [obind negb ASSERT]. eexists. split; [done|]. split; [done|]. intros sel d Hd.
  split_and!; intros ->; cbn -[seg_value] in Hd; injection Hd as <-; apply seg_value_fields; unfold two32 in *; lia.
Qed.
