(* ===== verification/Boot.v ===== *)
(** * Start-up ([threads/init.c]): the page tables of the kernel

    [paging_init] maps the whole RAM at [PHYS_BASE], in a directory and tables
    that it takes from the kernel pool.  [start] and [end_text] are the
    addresses [_start] and [_end_kernel_text] that the linker gives to the
    code of the kernel. *)
From stdpp Require Import prelude list.
From Stdlib Require Import ZArith Lia.
From S2P Require Import Prelude Bitmap Palloc Pagedir AddrSpace.
#[local] Open Scope Z_scope.

Section paging.
Context (init_ram_pages start end_text : Z).

(** One iteration of the loop, with the variables [page] and [pt]. *)
Definition paging_page (pd : Z) (v : Z * Z) : ST mmu (Z * Z + unit) :=
  let '(page, pt) := v in
  if page <? init_ram_pages then
    let paddr := u32 (page * PGSIZE) in
    do! vaddr := lift (ptov paddr) in
    let pde_idx := pd_no vaddr in
    let pte_idx := pt_no vaddr in
    let in_kernel_text := (start <=? vaddr) && (vaddr <? end_text) in
    do! e := load (pd + 4 * pde_idx) in
    do! pt := (if e =? 0 then
        do! pt := pcall (palloc_get_page (Z.lor PAL_ASSERT PAL_ZERO)) in
        do! v := lift (pde_create pt) in
        do! _ := store (pd + 4 * pde_idx) v in
        sret pt
      else sret pt) in
    do! v := lift (pte_create_kernel vaddr (negb in_kernel_text)) in
    do! _ := store (pt + 4 * pte_idx) v in
    sret (inl (u32 (page + 1), pt))
  else sret (inr tt).

(** The result is [init_page_dir]; loading CR3 empties the translation
    lookaside buffer. *)
Definition paging_init : ST mmu Z :=
  do! pd := pcall (palloc_get_page (Z.lor PAL_ASSERT PAL_ZERO)) in
  do! _ := sloop (paging_page pd) (0, NULL) in
  do! p := lift (vtop pd) in
  do! _ := (fun s => Ret (tt, mkMmu (pal s) p [])) in
  sret pd.
End paging.

(** ** Free pages of a pool *)

Definition free_count (p : pool) : nat :=
  length (filter (fun i => bit (used_map p) i = false) (seqZ 0 (bit_cnt (used_map p)))).

Lemma filter_without {A} (P Q : A -> Prop) `{forall x, Decision (P x), forall x, Decision (Q x)} a l :
  NoDup l -> a ∈ l -> P a -> (forall x, x ∈ l -> Q x <-> P x /\ x <> a) -> length (filter P l) = S (length (filter Q l)).
Proof.
  intros Hn. induction Hn as [|x l Hx Hn IH]; intros Ha Hp HQ; [by apply elem_of_nil in Ha|].
  apply elem_of_cons in Ha as [->|Ha].
  - rewrite filter_cons_True by done. rewrite filter_cons_False by (rewrite HQ by set_solver; tauto). cbn [length]. do 2 f_equal.
    clear IH Hn. induction l as [|y l IH]; [done|]. assert (Hy : Q y <-> P y).
    { rewrite HQ by set_solver. split; [tauto|]. intros ?. split; [done|]. set_solver. }
    rewrite !filter_cons. rewrite IH by set_solver. destruct (decide (P y)), (decide (Q y)); tauto.
  - assert (x <> a) by set_solver. specialize (IH Ha Hp). assert (Hy : Q x <-> P x) by (rewrite HQ by set_solver; tauto).
    rewrite !filter_cons. destruct (decide (P x)), (decide (Q x)); try tauto; cbn [length]; rewrite IH; try done; intros; apply HQ; set_solver.
Qed.

Lemma free_count_take p map i :
  free_run p i 1 -> filled (used_map p) map i 1 true -> free_count p = S (free_count (mkPool map (base p))).
Proof.
  intros (Hi & Hc & Hg) (_ & Hcnt & _ & Hb). unfold free_count. cbn [used_map]. rewrite Hcnt.
  apply (filter_without _ _ i); [apply NoDup_seqZ|apply elem_of_seqZ; lia|apply Hg; lia|].
  intros x Hx%elem_of_seqZ. rewrite Hb by lia. destruct (Z.leb_spec i x), (Z.ltb_spec x (i + 1)); cbn [andb].
  - assert (x = i) as -> by lia. naive_solver.
  - split; [|tauto]. intros ?. split; [done|lia].
  - split; [|tauto]. intros ?. split; [done|lia].
  - lia.
Qed.

Lemma free_count_none p : (forall i, ~ free_run p i 1) -> free_count p = 0%nat.
Proof.
  intros H. unfold free_count. destruct (filter _ _) as [|x l] eqn:E; [done|exfalso].
  assert (Hx : x ∈ filter (fun i => bit (used_map p) i = false) (seqZ 0 (bit_cnt (used_map p)))) by (rewrite E; left).
  apply list_elem_of_filter in Hx as [Hb Hx%elem_of_seqZ]. apply (H x). split; [lia|]. split; [lia|].
  intros j Hj. by replace j with x by lia.
Qed.

(** A zeroed page of the kernel pool, when there is one. *)
Lemma run_get_zeroed s :
  palloc_ok (pal s) -> PHYS_BASE <= base (kernel_pool (pal s)) ->
  let r := pcall (palloc_get_page (Z.lor PAL_ASSERT PAL_ZERO)) s in
  (r = Err Panicked /\ free_count (kernel_pool (pal s)) = 0%nat) \/
  (exists a p, r = Ret (a, mkMmu p (cr3 s) (tlb s)) /\ palloc_ok p /\ PHYS_BASE <= base (kernel_pool p) /\ kernel_page a /\
     (forall x, in_pages a 1 x = true -> allocated (pal s) x = false) /\
     (forall x, allocated p x = in_pages a 1 x || allocated (pal s) x) /\
     (forall x, memory p x = if in_pages a 1 x then 0 else mem s x) /\
     user_pool p = user_pool (pal s) /\ free_count (kernel_pool (pal s)) = S (free_count (kernel_pool p))).
Proof.
  intros Hok Hb r. unfold r, pcall, palloc_get_page. clear r. set (fl := Z.lor PAL_ASSERT PAL_ZERO).
  pose proof (palloc_get_cases (pal s) fl 1 Hok ltac:(lia)) as Hc. cbv zeta in Hc.
  destruct (palloc_get_spec (pal s) fl 1 Hok ltac:(lia)) as [[Hno ->]|(a & p & Hg & Hok' & Hnn & Hal & H1 & H2 & H3 & H4 & H5)];
    change (the_pool (pal s) (has_flag fl PAL_USER)) with (kernel_pool (pal s)) in *.
  - left. split; [done|]. by apply free_count_none.
  - right. exists a, p. rewrite Hg. pose proof Hok as ((_ & _ & _ & He) & _). rewrite PGSIZE_eq in *.
    destruct Hc as [[Hno _]|(i & map & Hfr & Hfi & Hx)]; [|rewrite Hx in Hg; injection Hg as _ <-; split_and!; try done; [by split; [done|lia]|by eapply free_count_take]].
    exfalso. destruct (palloc_get_cases (pal s) fl 1 Hok ltac:(lia)) as [[_ Hx]|(i & map & Hfr & _)]; [by rewrite Hx in Hg|by apply (Hno i)].
Qed.

(** ** The mapping of the kernel *)

Section mapping.
Context (start end_text : Z).

(** The entry for page [q] of the RAM: the code of the kernel is read-only. *)
Definition kernel_pte (q : Z) : Z :=
  4096 * q + if (start <=? PHYS_BASE + 4096 * q) && (PHYS_BASE + 4096 * q <? end_text) then 1 else 3.

(** [s] is [s0] with a directory [pd] that has [t] tables for the addresses
    from [PHYS_BASE] on, in which the first [n] pages are mapped. *)
Record mapped (s0 s : mmu) (pd t n : Z) : Prop := mkMapped {
  mp_pal : palloc_ok (pal s) /\ PHYS_BASE <= base (kernel_pool (pal s));
  mp_bytes x : 0 <= mem s x < 256;
  mp_pd : kernel_page pd /\ forall x, in_pages pd 1 x = true -> allocated (pal s0) x = false;
  mp_none i : 0 <= i < 1024 -> ~ (768 <= i < 768 + t) -> pde s pd i = 0;
  mp_table i : 768 <= i < 768 + t -> present (pde s pd i) = true /\ pde s pd i <> 0 /\ kernel_page (table (pde s pd i)) /\
    table (pde s pd i) <> pd /\ forall x, in_pages (table (pde s pd i)) 1 x = true -> allocated (pal s0) x = false;
  mp_inj i j : 768 <= i < 768 + t -> 768 <= j < 768 + t -> table (pde s pd i) = table (pde s pd j) -> i = j;
  mp_pte i j : 768 <= i < 768 + t -> 0 <= j < 1024 ->
    pte s pd i j = if 1024 * (i - 768) + j <? n then kernel_pte (1024 * (i - 768) + j) else 0;
  mp_alloc x : allocated (pal s) x = true <-> allocated (pal s0) x = true \/ in_pages pd 1 x = true \/
    exists i, 768 <= i < 768 + t /\ in_pages (table (pde s pd i)) 1 x = true;
  mp_old x : allocated (pal s0) x = true -> mem s x = mem s0 x;
  mp_pools : user_pool (pal s) = user_pool (pal s0) /\
    free_count (kernel_pool (pal s0)) = (S (Z.to_nat t) + free_count (kernel_pool (pal s)))%nat
}.

Lemma kernel_pte_range q : 0 <= q < 262144 -> 0 <= kernel_pte q < two32.
Proof. intros H. unfold kernel_pte, two32. destruct (_ && _); lia. Qed.

(** One more page is mapped, in a table that is there already. *)
Lemma mapped_page s0 s pd t n :
  mapped s0 s pd t n -> 0 <= n < 1024 * t -> t <= 256 ->
  mapped s0 (stored s (table (pde s pd (768 + n / 1024)) + 4 * (n mod 1024)) (kernel_pte n)) pd t (n + 1).
Proof.
  intros [H1 H2 [Hk Hpf] H4 H5 H6 H7 H8 H9 H10] Hn Ht. set (i := 768 + n / 1024). set (j := n mod 1024). set (s' := stored _ _ _).
  pose proof (Z.div_mod n 1024 ltac:(lia)) as Hdm. pose proof (Z.mod_pos_bound n 1024 ltac:(lia)) as Hj. fold j in Hdm, Hj.
  assert (Hi : 768 <= i < 768 + t) by (unfold i; lia). destruct (H5 i Hi) as (_ & _ & Hti & Htp & Htf).
  assert (Hpde : forall i', 0 <= i' < 1024 -> pde s' pd i' = pde s pd i').
  { intros i' Hi'. unfold pde, s', stored, mem. cbn [pal memory]. apply write32_read_other.
    destruct (word_apart (table (pde s pd i)) pd j i'); auto; [apply Hti|apply Hk]. }
  split; try done.
  - intros x. by apply write32_byte.
  - intros i' Hi' Hr. rewrite Hpde by done. by apply H4.
  - intros i' Hi'. rewrite Hpde by lia. by apply H5.
  - intros i1 i2 Hi1 Hi2. rewrite !Hpde by lia. by apply H6.
  - intros i' j' Hi' Hj'. unfold pte. rewrite Hpde by lia. unfold s', stored, mem. cbn [pal memory].
    destruct (decide (i' = i /\ j' = j)) as [[-> ->]|Hne].
    + rewrite write32_read_same by (apply kernel_pte_range; lia). replace (1024 * (i - 768) + j) with n by (unfold i; lia).
      destruct (Z.ltb_spec n (n + 1)); [done|lia].
    + destruct (H5 i' Hi') as (_ & _ & Hti' & _). rewrite write32_read_other.
      * change (read32 (memory (pal s)) (table (pde s pd i') + 4 * j')) with (pte s pd i' j'). rewrite H7 by done.
        destruct (Z.ltb_spec (1024 * (i' - 768) + j') n), (Z.ltb_spec (1024 * (i' - 768) + j') (n + 1)); try done; try lia.
      * destruct (word_apart (table (pde s pd i)) (table (pde s pd i')) j j') as [?|?]; auto; [apply Hti|apply Hti'|].
        destruct (decide (j = j')) as [<-|]; [|by right]. left. intros E%H6; [|done|done]. apply Hne. by split.
  - intros x. change (allocated (pal s') x) with (allocated (pal s) x). rewrite H8.
    split; (intros [?|[?|(i' & Hi' & Hx)]]; [by left|right; by left|right; right; exists i']); [by rewrite Hpde by lia|].
    by rewrite Hpde in Hx by lia.
  - intros x Hx. unfold s', stored, mem. cbn [pal memory]. rewrite write32_outside; [by apply H9|].
    destruct (in_pages (table (pde s pd i)) 1 x) eqn:E; [by rewrite (Htf x E) in Hx|]. apply in_pages_false in E. lia.
Qed.

(** A new, empty table. *)
Lemma mapped_table s0 s pd t n a p :
  mapped s0 s pd t n -> 0 <= n <= 1024 * t -> 0 <= t < 256 -> palloc_ok p -> PHYS_BASE <= base (kernel_pool p) -> kernel_page a ->
  (forall x, in_pages a 1 x = true -> allocated (pal s) x = false) ->
  (forall x, allocated p x = in_pages a 1 x || allocated (pal s) x) ->
  (forall x, memory p x = if in_pages a 1 x then 0 else mem s x) ->
  user_pool p = user_pool (pal s) -> free_count (kernel_pool (pal s)) = S (free_count (kernel_pool p)) ->
  let s' := stored (mkMmu p (cr3 s) (tlb s)) (pd + 4 * (768 + t)) (a - PHYS_BASE + 7) in
  mapped s0 s' pd (t + 1) n /\ table (pde s' pd (768 + t)) = a.
Proof.
  intros [H1 H2 [Hk Hpf] H4 H5 H6 H7 H8 H9 H10] Hn Ht Hok Hb Ha Hfr Hal Hmem Hup Hfp s'.
  destruct (run_vtop a Ha) as [_ Hpm]. destruct (page_flags (a - PHYS_BASE) 7 Hpm ltac:(lia)) as [Hodd Hdiv].
  assert (Hv : 0 <= a - PHYS_BASE + 7 < two32) by (destruct Ha; unfold two32, PHYS_BASE in *; lia).
  assert (Htab : table (a - PHYS_BASE + 7) = a).
  { unfold table. rewrite Hdiv. pose proof (Z.div_mod (a - PHYS_BASE) 4096 ltac:(lia)). lia. }
  assert (Hold : forall b, kernel_page b -> (forall x, in_pages b 1 x = true -> allocated (pal s) x = true) -> b <> a).
  { intros b Hkb Hbx ->. assert (E : in_pages a 1 a = true) by (apply in_pages_spec; lia). pose proof (Hbx a E) as Hx. by rewrite (Hfr a E) in Hx. }
  assert (Hpa : pd <> a) by (apply Hold; [done|]; intros x Hx; apply H8; auto).
  assert (Hta : forall i, 768 <= i < 768 + t -> table (pde s pd i) <> a).
  { intros i Hi. apply Hold; [by apply H5|]. intros x Hx. apply H8. right. right. by exists i. }
  assert (Hpi : pde s' pd (768 + t) = a - PHYS_BASE + 7) by (unfold pde, s', stored, mem; cbn [pal memory]; by apply write32_read_same).
  assert (Hword : forall b i, b mod 4096 = 0 -> b <> a -> 0 <= i < 1024 -> b <> pd \/ i <> 768 + t ->
    read32 (mem s') (b + 4 * i) = read32 (mem s) (b + 4 * i)).
  { intros b i Hb' Hba Hi Hne. unfold s', stored, mem. cbn [pal memory]. rewrite write32_read_other.
    - apply (read32_outside _ _ a); auto; [apply Ha|]. intros y Hy. by rewrite Hmem, Hy.
    - destruct (word_apart pd b (768 + t) i); auto; [apply Hk|lia|]. destruct Hne; auto. }
  assert (Hpde : forall i, 0 <= i < 1024 -> i <> 768 + t -> pde s' pd i = pde s pd i).
  { intros i Hi Hne. apply Hword; auto; apply Hk. }
  assert (Hfa : forall x, in_pages a 1 x = true -> allocated (pal s0) x = false).
  { intros x Hx. destruct (allocated (pal s0) x) eqn:E; [|done]. by rewrite <- (Hfr x Hx), (proj2 (H8 x)); [|left]. }
  split; [|by rewrite Hpi]. split; try done.
  - intros x. apply write32_byte. unfold mem. cbn [pal]. rewrite Hmem. destruct (in_pages a 1 x); [lia|apply H2].
  - intros i Hi Hr. rewrite Hpde by lia. apply H4; lia.
  - intros i Hi. destruct (decide (i = 768 + t)) as [->|]; [|rewrite Hpde by lia; apply H5; lia].
    rewrite Hpi, Htab. split_and!; [exact Hodd| |done|done|done]. destruct Ha. unfold PHYS_BASE in *. lia.
  - intros i j Hi Hj. destruct (decide (i = 768 + t)) as [->|], (decide (j = 768 + t)) as [->|]; try done;
      rewrite ?Hpi, ?Htab, ?Hpde by lia; [|intros E; exfalso..|apply H6; lia].
    + intros E. exfalso. symmetry in E. apply (Hta j); [lia|done].
    + apply (Hta i); [lia|done].
  - intros i j Hi Hj. unfold pte. destruct (decide (i = 768 + t)) as [->|].
    + rewrite Hpi, Htab. destruct (Z.ltb_spec (1024 * (768 + t - 768) + j) n); [lia|].
      unfold s', stored, mem. cbn [pal memory]. rewrite write32_read_other.
      * apply read32_zero; [apply Ha|done|]. intros y Hy. by rewrite Hmem, Hy.
      * destruct (word_apart pd a (768 + t) j); auto; [apply Hk|apply Ha|lia].
    + rewrite Hpde by lia. destruct (H5 i ltac:(lia)) as (_ & _ & Hki & Hne & _). rewrite Hword; [apply H7; lia|apply Hki|apply Hta; lia|done|by left].
  - intros x. change (allocated (pal s') x) with (allocated p x). rewrite Hal, orb_true_iff, H8. split.
    + intros [Hx|[?|[?|(i & Hi & Hx)]]]; [|by left|right; by left|]; right; right.
      * exists (768 + t). rewrite Hpi, Htab. split; [lia|done].
      * exists i. rewrite Hpde by lia. split; [lia|done].
    + intros [?|[?|(i & Hi & Hx)]]; [right; by left|right; right; by left|]. destruct (decide (i = 768 + t)) as [->|].
      * rewrite Hpi, Htab in Hx. by left.
      * rewrite Hpde in Hx by lia. right. right. right. exists i. split; [lia|done].
  - intros x Hx. unfold s', stored, mem. cbn [pal memory]. rewrite write32_outside.
    + rewrite Hmem. destruct (in_pages a 1 x) eqn:E; [by rewrite (Hfa x E) in Hx|by apply H9].
    + destruct (in_pages pd 1 x) eqn:E; [by rewrite (Hpf x E) in Hx|]. apply in_pages_false in E. lia.
  - cbn [s' stored pal user_pool kernel_pool]. split; [rewrite Hup; apply H10|]. destruct H10 as [_ ->].
    rewrite Hfp. replace (Z.to_nat (t + 1)) with (S (Z.to_nat t)) by lia. lia.
Qed.

(** The tables for [n] pages. *)
Definition tables_for (n : Z) : Z := (n + 1023) / 1024.

Lemma kernel_address n :
  0 <= n < 262144 -> let va := PHYS_BASE + 4096 * n in
  ptov (u32 (n * PGSIZE)) = Ret va /\ kernel_page va /\ pd_no va = 768 + n / 1024 /\ pt_no va = n mod 1024.
Proof.
  intros Hn va. rewrite PGSIZE_eq. rewrite u32_small by (unfold is_u32, two32; lia). unfold ptov.
  destruct (Z.ltb_spec (n * 4096) PHYS_BASE); [|unfold PHYS_BASE in *; lia]. cbn [ASSERT obind].
  rewrite u32_small by (unfold is_u32, two32, PHYS_BASE; lia). rewrite pd_no_div, pt_no_eq.
  assert (Hva : va / 4096 = 786432 + n) by (unfold va, PHYS_BASE; Z.to_euclidean_division_equations; lia).
  split_and!; [f_equal; unfold va; lia| | |].
  - split; [unfold va, PHYS_BASE; Z.to_euclidean_division_equations; lia|unfold va, two32, PHYS_BASE; lia].
  - unfold va, PHYS_BASE. Z.to_euclidean_division_equations. lia.
  - rewrite Hva. Z.to_euclidean_division_equations. lia.
Qed.

Lemma run_pte_kernel n w : 0 <= n < 262144 ->
  pte_create_kernel (PHYS_BASE + 4096 * n) w = Ret (4096 * n + if (w : bool) then 3 else 1).
Proof.
  intros Hn. destruct (kernel_address n Hn) as (_ & Hk & _). unfold pte_create_kernel. rewrite pg_ofs_mod, PGSIZE_eq, (proj1 Hk).
  cbn [Z.eqb ASSERT obind]. destruct (run_vtop _ Hk) as [-> _]. cbn [obind]. f_equal. replace (PHYS_BASE + 4096 * n - PHYS_BASE) with (4096 * n) by lia.
  assert (Hm : (4096 * n) mod 4096 = 0) by (rewrite Z.mul_comm; apply Z.mod_mul; lia).
  rewrite <- Z.lor_assoc. rewrite lor_flags; [destruct w; done|done|destruct w; vm_compute; split; congruence].
Qed.

Lemma run_pde_create a : kernel_page a -> pde_create a = Ret (a - PHYS_BASE + 7).
Proof.
  intros Ha. unfold pde_create. rewrite pg_ofs_mod, PGSIZE_eq, (proj1 Ha). cbn [Z.eqb ASSERT obind].
  destruct (run_vtop a Ha) as [-> Hm]. cbn [obind]. f_equal. rewrite <- !Z.lor_assoc. by rewrite lor_flags.
Qed.
End mapping.

(** ** The loop *)

(** A loop that returns or stops. *)
Lemma sloop_cases {S A R} (n : nat) (I : nat -> A -> S -> Prop) (Q : R -> S -> Prop) (E : fault -> Prop) body a s :
  (forall n a s, I n a s ->
     (exists r s', body a s = Ret (inr r, s') /\ Q r s') \/
     (exists n' a' s', body a s = Ret (inl a', s') /\ I n' a' s' /\ (n' < n)%nat) \/
     (exists e, body a s = Err e /\ E e)) ->
  I n a s -> Z.of_nat n < two32 ->
  (exists r s', sloop body a s = Ret (r, s') /\ Q r s') \/ (exists e, sloop body a s = Err e /\ E e).
Proof.
  intros Hb Hi Hn. unfold sloop, loop. rewrite while_pos_nat. set (f := fun '(a, s) => _).
  assert (H : forall k n a s, (n < k)%nat -> I n a s ->
    (exists r s', while_nat k f (a, s) = Ret (inr (r, s')) /\ Q r s') \/ (exists e, while_nat k f (a, s) = Err e /\ E e)).
  { induction k as [|k IH]; intros n1 a1 s1 Hk H1; [lia|]. cbn [while_nat]. unfold f at 1 3.
    destruct (Hb n1 a1 s1 H1) as [(r & s' & -> & Hq)|[(n' & a' & s' & -> & H' & Hlt)|(e & -> & He)]]; [eauto|apply (IH n'); [lia|done]|eauto]. }
  destruct (H (Pos.to_nat 4294967296) n a s) as [(r & s' & -> & Hq)|(e & -> & He)]; [unfold two32 in Hn; lia|done|left; eauto|right; eauto].
Qed.

Section loop.
Context (ram start end_text : Z).

Lemma tables_for_step n : 0 <= n ->
  tables_for (n + 1) = if n mod 1024 =? 0 then tables_for n + 1 else tables_for n.
Proof. intros Hn. unfold tables_for. destruct (Z.eqb_spec (n mod 1024) 0); Z.to_euclidean_division_equations; lia. Qed.

Lemma tables_for_index n : 0 <= n -> n / 1024 = if n mod 1024 =? 0 then tables_for n else tables_for n - 1.
Proof. intros Hn. unfold tables_for. destruct (Z.eqb_spec (n mod 1024) 0); Z.to_euclidean_division_equations; lia. Qed.

(** The state of the loop before page [n]. *)
Definition at_page (s0 : mmu) (pd : Z) (k : nat) (v : Z * Z) (s : mmu) : Prop :=
  let '(n, pt) := v in
  0 <= n <= ram /\ Z.of_nat k = ram - n /\ mapped start end_text s0 s pd (tables_for n) n /\
  (n mod 1024 <> 0 -> pt = table (pde s pd (768 + n / 1024))).

Lemma run_page s0 pd k v s :
  ram <= 262144 -> at_page s0 pd k v s ->
  (exists r s', paging_page ram start end_text pd v s = Ret (inr r, s') /\ mapped start end_text s0 s' pd (tables_for ram) ram) \/
  (exists k' v' s', paging_page ram start end_text pd v s = Ret (inl v', s') /\ at_page s0 pd k' v' s' /\ (k' < k)%nat) \/
  (exists e, paging_page ram start end_text pd v s = Err e /\ e = Panicked /\
     (free_count (kernel_pool (pal s0)) < S (Z.to_nat (tables_for ram)))%nat).
Proof.
  destruct v as [n pt]. intros Hram (Hn & Hk & Hm & Hpt). unfold paging_page. destruct (Z.ltb_spec n ram) as [Hlt|].
  2:{ left. exists tt, s. split; [done|]. by replace ram with n by lia. }
  right. assert (Hnr : 0 <= n < 262144) by lia. destruct (kernel_address n Hnr) as (Hp & Hkp & Hpd & Hpn). cbv zeta in Hp, Hkp, Hpd, Hpn.
  cbv zeta. sstep (run_lift _ _ s Hp). cbv zeta. rewrite Hpd, Hpn. sstep (run_load s (pd + 4 * (768 + n / 1024))).
  change (read32 (mem s) (pd + 4 * (768 + n / 1024))) with (pde s pd (768 + n / 1024)).
  pose proof (tables_for_step n ltac:(lia)) as Hts. pose proof (tables_for_index n ltac:(lia)) as Hti.
  set (w := negb _). pose proof (run_pte_kernel n w Hnr) as Hpte.
  assert (Hpv : 4096 * n + (if w then 3 else 1) = kernel_pte start end_text n) by (unfold kernel_pte, w; by destruct (_ && _)). rewrite Hpv in Hpte.
  assert (Htb : 0 <= tables_for n <= 256 /\ (n mod 1024 = 0 -> 1024 * tables_for n = n) /\ (n mod 1024 <> 0 -> n < 1024 * tables_for n)) by (unfold tables_for; Z.to_euclidean_division_equations; lia).
  assert (Hfin : forall s1 t, mapped start end_text s0 s1 pd t n -> t = tables_for (n + 1) -> n < 1024 * t -> t <= 256 ->
    let s2 := stored s1 (table (pde s1 pd (768 + n / 1024)) + 4 * (n mod 1024)) (kernel_pte start end_text n) in
    at_page s0 pd (k - 1) (u32 (n + 1), table (pde s1 pd (768 + n / 1024))) s2 /\ (k - 1 < k)%nat).
  { intros s1 t Hm1 Ht Hlt1 Ht256 s2. split; [|lia]. rewrite u32_small by (unfold is_u32, two32; lia). unfold at_page.
    pose proof (mapped_page start end_text s0 s1 pd t n Hm1 ltac:(lia) Ht256) as Hm2. fold s2 in Hm2. rewrite <- Ht.
    split_and!; try done; try lia. intros Hn1. replace ((n + 1) / 1024) with (n / 1024) by (Z.to_euclidean_division_equations; lia).
    f_equal. unfold s2, pde at 2, stored, mem. cbn [pal memory]. symmetry. apply write32_read_other.
    destruct (mp_table _ _ _ _ _ _ _ Hm1 (768 + n / 1024) ltac:(Z.to_euclidean_division_equations; lia)) as (_ & _ & Hkt & Hne & _).
    destruct (mp_pd _ _ _ _ _ _ _ Hm1) as [Hkpd _].
    destruct (word_apart (table (pde s1 pd (768 + n / 1024))) pd (n mod 1024) (768 + n / 1024)); auto;
      [apply Hkt|apply Hkpd|apply Z.mod_pos_bound; lia|Z.to_euclidean_division_equations; lia]. }
  destruct (Z.eqb_spec (n mod 1024) 0) as [Hz|Hnz].
  - rewrite (mp_none _ _ _ _ _ _ _ Hm (768 + n / 1024)) by lia. cbn [Z.eqb]. destruct (mp_pal _ _ _ _ _ _ _ Hm) as [Hok Hb].
    destruct (run_get_zeroed s Hok Hb) as [[Hg Hf]|(a & p & Hg & G1 & G2 & Ha & G3 & G4 & G5 & G6 & G7)].
    + right. exists Panicked. split; [unfold sbind; by rewrite Hg|]. split; [done|]. destruct (mp_pools _ _ _ _ _ _ _ Hm) as [_ ->].
      rewrite Hf. assert (tables_for n < tables_for ram) by (unfold tables_for; Z.to_euclidean_division_equations; lia). lia.
    + left. destruct (mapped_table start end_text s0 s pd (tables_for n) n a p Hm) as [Hm1 Ht1]; try done; [lia|unfold tables_for in *; Z.to_euclidean_division_equations; lia|].
      rewrite Hti. set (s1 := stored _ _ _) in *. eexists _, _, _. rewrite (sbind_run _ _ s a s1).
      * sstep (run_lift _ _ s1 Hpte). sstep (run_store s1 (a + 4 * (n mod 1024)) (kernel_pte start end_text n)). split; [reflexivity|].
        rewrite <- Ht1, <- Hti. apply (Hfin s1 (tables_for n + 1)); try done; lia.
      * sstep Hg. sstep (run_lift _ _ (mkMmu p (cr3 s) (tlb s)) (run_pde_create a Ha)). done.
  - destruct (mp_table _ _ _ _ _ _ _ Hm (768 + n / 1024) ltac:(Z.to_euclidean_division_equations; lia)) as (_ & Hne & _).
    destruct (Z.eqb_spec (pde s pd (768 + n / 1024)) 0); [done|]. sstep (eq_refl : sret pt s = Ret (pt, s)). sstep (run_lift _ _ s Hpte).
    rewrite (Hpt Hnz). left. eexists _, _, _. sstep (run_store s (table (pde s pd (768 + n / 1024)) + 4 * (n mod 1024)) (kernel_pte start end_text n)).
    split; [reflexivity|]. apply (Hfin s (tables_for n)); try done; lia.
Qed.

(** The directory before the loop. *)
Lemma mapped_start s0 a p :
  (forall x, 0 <= mem s0 x < 256) -> palloc_ok p -> PHYS_BASE <= base (kernel_pool p) -> kernel_page a ->
  (forall x, in_pages a 1 x = true -> allocated (pal s0) x = false) ->
  (forall x, allocated p x = in_pages a 1 x || allocated (pal s0) x) ->
  (forall x, memory p x = if in_pages a 1 x then 0 else mem s0 x) ->
  user_pool p = user_pool (pal s0) -> free_count (kernel_pool (pal s0)) = S (free_count (kernel_pool p)) ->
  mapped start end_text s0 (mkMmu p (cr3 s0) (tlb s0)) a 0 0.
Proof.
  intros Hby Hok Hb Ha Hfr Hal Hmem Hup Hfp. split; try done; try (intros; lia).
  - intros x. unfold mem. cbn [pal]. rewrite Hmem. destruct (in_pages a 1 x); [lia|apply Hby].
  - intros i Hi _. apply read32_zero; [apply Ha|done|]. intros y Hy. unfold mem. cbn [pal]. by rewrite Hmem, Hy.
  - intros x. cbn [pal]. rewrite Hal, orb_true_iff. split; [tauto|]. intros [?|[?|(i & Hi & _)]]; [tauto|tauto|lia].
  - intros x Hx. unfold mem. cbn [pal]. rewrite Hmem. destruct (in_pages a 1 x) eqn:E; [by rewrite (Hfr x E) in Hx|done].
Qed.

Lemma run_paging_init s0 :
  palloc_ok (pal s0) -> PHYS_BASE <= base (kernel_pool (pal s0)) -> (forall x, 0 <= mem s0 x < 256) -> 0 <= ram <= 262144 ->
  if (free_count (kernel_pool (pal s0)) <? S (Z.to_nat (tables_for ram)))%nat then paging_init ram start end_text s0 = Err Panicked
  else exists pd s, paging_init ram start end_text s0 = Ret (pd, s) /\ mapped start end_text s0 s pd (tables_for ram) ram /\
    cr3 s = pd - PHYS_BASE /\ tlb s = [].
Proof.
  intros Hok Hb Hby Hram. unfold paging_init.
  assert (Ht0 : 0 <= tables_for ram) by (unfold tables_for; Z.to_euclidean_division_equations; lia).
  destruct (run_get_zeroed s0 Hok Hb) as [[Hg Hf]|(pd & p & Hg & G1 & G2 & Ha & G3 & G4 & G5 & G6 & G7)].
  { rewrite Hf. destruct (Nat.ltb_spec 0 (S (Z.to_nat (tables_for ram)))); [|lia]. unfold sbind. by rewrite Hg. }
  assert (H0 : at_page s0 pd (Z.to_nat ram) (0, NULL) (mkMmu p (cr3 s0) (tlb s0))).
  { split; [lia|]. split; [lia|]. split; [by apply mapped_start|done]. }
  destruct (sloop_cases (Z.to_nat ram) (at_page s0 pd) (fun _ s => mapped start end_text s0 s pd (tables_for ram) ram)
    (fun e => e = Panicked /\ (free_count (kernel_pool (pal s0)) < S (Z.to_nat (tables_for ram)))%nat) (paging_page ram start end_text pd) (0, NULL) (mkMmu p (cr3 s0) (tlb s0)))
    as [(r & s & Hr & Hm)|(e & Hr & -> & Hlt)].
  - intros k v s Hi. destruct (run_page s0 pd k v s ltac:(lia) Hi) as [?|[?|(e & ? & ? & ?)]]; [by left|right; by left|right; right; by exists e].
  - exact H0.
  - unfold two32. lia.
  - destruct (Nat.ltb_spec (free_count (kernel_pool (pal s0))) (S (Z.to_nat (tables_for ram)))).
    { destruct (mp_pools _ _ _ _ _ _ _ Hm) as [_ Hx]. lia. }
    destruct (run_vtop pd Ha) as [Hv _]. exists pd, (mkMmu (pal s) (pd - PHYS_BASE) []). sstep Hg. sstep Hr. sstep (run_lift _ _ s Hv).
    split; [done|]. split; [by destruct Hm|done].
  - destruct (Nat.ltb_spec (free_count (kernel_pool (pal s0))) (S (Z.to_nat (tables_for ram)))); [|lia]. unfold sbind. by rewrite Hg, Hr.
Qed.

Lemma mapped_entry s0 s pd va :
  0 <= ram <= 262144 -> mapped start end_text s0 s pd (tables_for ram) ram -> 0 <= va < two32 ->
  if (PHYS_BASE <=? va) && (va <? PHYS_BASE + 4096 * ram)
  then present (pde s pd (pd_no va)) = true /\ entry s pd va = Some (kernel_pte start end_text ((va - PHYS_BASE) / 4096))
  else translate s pd va = NULL.
Proof.
  intros Hram Hm Hva. pose proof (vpage_split va) as Hv. pose proof (pt_no_range va) as Hpt. rewrite pd_no_div in *. unfold two32, PHYS_BASE in *.
  unfold translate, entry. rewrite pd_no_div. set (i := va / 4194304) in *. set (j := pt_no va) in *.
  assert (Hi : 0 <= i < 1024 /\ 4194304 * i <= va < 4194304 * (i + 1)) by (unfold i; Z.to_euclidean_division_equations; lia).
  assert (Hvr : 4096 * (va / 4096) <= va < 4096 * (va / 4096) + 4096) by (Z.to_euclidean_division_equations; lia).
  assert (Ht : 1024 * tables_for ram - 1024 < ram <= 1024 * tables_for ram) by (unfold tables_for; Z.to_euclidean_division_equations; lia).
  assert (Hq : (va - 3221225472) / 4096 = 1024 * (i - 768) + j) by (Z.to_euclidean_division_equations; lia).
  destruct (decide (768 <= i < 768 + tables_for ram)) as [Hin|Hout].
  - destruct (mp_table _ _ _ _ _ _ _ Hm i Hin) as (Hp & Hnz & _). destruct (Z.eqb_spec (pde s pd i) 0); [done|].
    rewrite (mp_pte _ _ _ _ _ _ _ Hm i j Hin Hpt). rewrite Hq.
    destruct (Z.leb_spec 3221225472 va), (Z.ltb_spec va (3221225472 + 4096 * ram)), (Z.ltb_spec (1024 * (i - 768) + j) ram); cbn [andb]; try lia; done.
  - rewrite (mp_none _ _ _ _ _ _ _ Hm i) by (done || lia). cbn [Z.eqb].
    destruct (Z.leb_spec 3221225472 va), (Z.ltb_spec va (3221225472 + 4096 * ram)); cbn [andb]; try done. lia.
Qed.
End loop.

Lemma kernel_pte_fields start end_text q : 0 <= q ->
  let e := kernel_pte start end_text q in
  present e = true /\ table e = PHYS_BASE + 4096 * q /\ Z.testbit e 2 = false /\
  Z.testbit e 1 = negb ((start <=? PHYS_BASE + 4096 * q) && (PHYS_BASE + 4096 * q <? end_text)).
Proof.
  intros Hq e. unfold e, kernel_pte. set (b := _ && _). rewrite present_odd. unfold table.
  assert (Hb : forall n, Z.testbit (4096 * q + (if b then 1 else 3)) n = Z.testbit (Z.lor (4096 * q) (if b then 1 else 3)) n).
  { intros n. rewrite lor_flags; [done|rewrite Z.mul_comm; apply Z.mod_mul; lia|destruct b; lia]. }
  rewrite !Hb, !Z.lor_spec. assert (Hs : forall n, 0 <= n < 12 -> Z.testbit (4096 * q) n = false).
  { intros n Hn. replace (4096 * q) with (Z.shiftl q 12) by (rewrite Z.shiftl_mul_pow2 by lia; lia). rewrite Z.shiftl_spec by lia. apply Z.testbit_neg_r. lia. }
  rewrite !Hs by lia. split_and!.
  - rewrite Z.odd_add, Z.odd_mul. by destruct b.
  - f_equal. f_equal. destruct b; Z.to_euclidean_division_equations; lia.
  - by destruct b.
  - by destruct b.
Qed.

(** ** Theorems *)

(** C23: [paging_init]: with fewer free pages in the kernel pool than the
    directory and its tables need it panics.  Otherwise every virtual address
    of the RAM from [PHYS_BASE] on is mapped to its physical address, for the
    kernel only, writable but for the code of the kernel; no other address is
    mapped; the CPU uses the new directory and has no stale translation.  The
    directory and one table per 1024 pages are the only new allocations, and
    memory in use is not touched. *)
Theorem paging_init_correct ram start end_text s0 :
  palloc_ok (pal s0) -> PHYS_BASE <= base (kernel_pool (pal s0)) -> (forall x, 0 <= mem s0 x < 256) -> 0 <= ram <= 262144 ->
  if (free_count (kernel_pool (pal s0)) <? S (Z.to_nat (tables_for ram)))%nat then paging_init ram start end_text s0 = Err Panicked
  else exists pd s, paging_init ram start end_text s0 = Ret (pd, s) /\ cr3 s = pd - PHYS_BASE /\ tlb s = [] /\
    (forall va, 0 <= va < two32 ->
       if (PHYS_BASE <=? va) && (va <? PHYS_BASE + 4096 * ram) then
         exists e, entry s pd va = Some e /\ present e = true /\ present (pde s pd (pd_no va)) = true /\
           table e + va mod 4096 = va /\ Z.testbit e 2 = false /\
           Z.testbit e 1 = negb ((start <=? va - va mod 4096) && (va - va mod 4096 <? end_text))
       else translate s pd va = NULL) /\
    palloc_ok (pal s) /\ (forall x, allocated (pal s0) x = true -> allocated (pal s) x = true /\ mem s x = mem s0 x) /\
    free_count (kernel_pool (pal s0)) = (S (Z.to_nat (tables_for ram)) + free_count (kernel_pool (pal s)))%nat.
Proof.
  intros Hok Hb Hby Hram. pose proof (run_paging_init ram start end_text s0 Hok Hb Hby Hram) as H.
  destruct (_ <? _)%nat; [done|]. destruct H as (pd & s & Hr & Hm & Hc & Ht). exists pd, s. split_and!; try done.
  - intros va Hva. pose proof (mapped_entry ram start end_text s0 s pd va Hram Hm Hva) as He.
    destruct ((PHYS_BASE <=? va) && _) eqn:E; [|done]. apply andb_true_iff in E as [E1%Z.leb_le _]. destruct He as [Hp He]. eexists. split; [exact He|].
    assert (Hq : 0 <= (va - PHYS_BASE) / 4096) by (apply Z.div_pos; lia). destruct (kernel_pte_fields start end_text _ Hq) as (F1 & F2 & F3 & F4).
    assert (Hd : PHYS_BASE + 4096 * ((va - PHYS_BASE) / 4096) = va - va mod 4096) by (unfold PHYS_BASE; Z.to_euclidean_division_equations; lia).
    rewrite Hd in F2, F4. split_and!; try done. rewrite F2. lia.
  - apply Hm.
  - intros x Hx. split; [apply (mp_alloc _ _ _ _ _ _ _ Hm); by left|by apply (mp_old _ _ _ _ _ _ _ Hm)].
  - apply (mp_pools _ _ _ _ _ _ _ Hm).
Qed.

(** A machine with 1024 pages of RAM of which four are free. *)
Lemma paging_init_correct_witness :
  exists pd s, paging_init 1024 3221356544 3221422080 (mkMmu demo_pools 0 []) = Ret (pd, s) /\
    (exists e, entry s pd 3222282240 = Some e /\ table e = 3222282240 /\ Z.testbit e 1 = true) /\
    translate s pd 134512640 = NULL.
Proof.
  pose proof (paging_init_correct 1024 3221356544 3221422080 (mkMmu demo_pools 0 []) demo_pools_ok) as H.
  assert (E : (free_count (kernel_pool demo_pools) <? S (Z.to_nat (tables_for 1024)))%nat = false) by (vm_compute; reflexivity).
  cbn [pal] in H. rewrite E in H. destruct H as (pd & s & Hr & _ & _ & Hv & _).
  - unfold PHYS_BASE. cbn. lia.
  - intros x. cbn. lia.
  - lia.
  - exists pd, s. split; [exact Hr|]. split; [|apply (Hv 134512640); unfold two32; lia].
    destruct (Hv 3222282240 ltac:(unfold two32; lia)) as (e & He & _ & _ & Ht & _ & Hw). exists e. split; [exact He|].
    split; [change (3222282240 mod 4096) with 0 in Ht; lia|]. rewrite Hw. reflexivity.
Defined.
