(* ===== verification/Filesys.v ===== *)
(** * The file system ([filesys/*.c], [devices/block.c])

    The state holds the sectors of the file system device and what the C
    files keep in memory: the [struct inode]s and [struct file]s, by address,
    since they are shared by those who have them open; the list of open
    inodes; the free map and the file that stores it.  Bytes are integers
    between 0 and 255, a buffer is a list of bytes.

    Memory allocation is a parameter: [malloc_ok n] tells whether the [n]-th
    call of [malloc] or [calloc] succeeds, so that every pattern of failures
    is covered.  An address is never given out twice. *)
From stdpp Require Import prelude list gmap.
From Stdlib Require Import ZArith Lia.
From S2P Require Import Prelude Bitmap.
#[local] Open Scope Z_scope.

(** ** Data *)

Definition BLOCK_SECTOR_SIZE : Z := 512.
Definition FREE_MAP_SECTOR : Z := 0.
Definition ROOT_DIR_SECTOR : Z := 1.
Definition INODE_MAGIC : Z := 1229868868.
Definition NAME_MAX : Z := 14.

Record inode_disk : Type := mkDisk { start : Z; dlength : Z; dmagic : Z }.

Record inode : Type := mkInode {
  sector : Z;
  open_cnt : Z;
  removed : bool;
  deny_write_cnt : Z;
  data : inode_disk
}.

Record file : Type := mkFile { finode : Z; pos : Z; deny_write : bool }.

Record dir : Type := mkDir { dinode : Z; dpos : Z }.

Record fs : Type := mkFs {
  disk : list (list Z);
  inodes : gmap Z inode;
  open_inodes : list Z;
  files : gmap Z file;
  dirs : gmap Z dir;
  free_map : bitmap;
  free_map_file : Z;
  allocs : nat
}.

Definition with_disk (s : fs) x := mkFs x (inodes s) (open_inodes s) (files s) (dirs s) (free_map s) (free_map_file s) (allocs s).
Definition with_inodes (s : fs) x := mkFs (disk s) x (open_inodes s) (files s) (dirs s) (free_map s) (free_map_file s) (allocs s).
Definition with_open (s : fs) x := mkFs (disk s) (inodes s) x (files s) (dirs s) (free_map s) (free_map_file s) (allocs s).
Definition with_files (s : fs) x := mkFs (disk s) (inodes s) (open_inodes s) x (dirs s) (free_map s) (free_map_file s) (allocs s).
Definition with_dirs (s : fs) x := mkFs (disk s) (inodes s) (open_inodes s) (files s) x (free_map s) (free_map_file s) (allocs s).
Definition with_map (s : fs) x := mkFs (disk s) (inodes s) (open_inodes s) (files s) (dirs s) x (free_map_file s) (allocs s).
Definition with_map_file (s : fs) x := mkFs (disk s) (inodes s) (open_inodes s) (files s) (dirs s) (free_map s) x (allocs s).
Definition with_allocs (s : fs) x := mkFs (disk s) (inodes s) (open_inodes s) (files s) (dirs s) (free_map s) (free_map_file s) x.

(** ** Bytes *)

Definition le32 (v : Z) : list Z :=
  [v mod 256; v / 256 mod 256; v / 65536 mod 256; v / 16777216 mod 256].

(** The little-endian word at the start of a buffer. *)
Definition word (b : list Z) : Z :=
  match b with
  | b0 :: b1 :: b2 :: b3 :: _ => b0 + 256 * b1 + 65536 * b2 + 16777216 * b3
  | _ => 0
  end.

Fixpoint words (n : nat) (b : list Z) : list Z :=
  match n with O => [] | S n' => word b :: words n' (drop 4 b) end.

(** [memcpy (buf, bytes, ...)]: the first bytes of the buffer are replaced. *)
Definition overlay (buf bytes : list Z) : list Z := bytes ++ drop (length bytes) buf.

Definition overlay_at (buf : list Z) (ofs : Z) (bytes : list Z) : list Z :=
  take (Z.to_nat ofs) buf ++ bytes ++ drop (Z.to_nat ofs + length bytes) buf.

Definition zeros (n : Z) : list Z := replicate (Z.to_nat n) 0.

Definition encode_inode (d : inode_disk) : list Z :=
  le32 (start d) ++ le32 (u32 (dlength d)) ++ le32 (dmagic d) ++ zeros 500.

Definition decode_inode (b : list Z) : inode_disk :=
  mkDisk (word b) (s32 (word (drop 4 b))) (word (drop 8 b)).

(** A directory entry: the sector, 15 bytes of name, the flag. *)
Definition ENTRY_SIZE : Z := 20.
Definition e_inode_sector (e : list Z) : Z := word e.
Definition e_name (e : list Z) : list Z := take 15 (drop 4 e).
Definition e_in_use (e : list Z) : bool := negb (default 0 (e !! 19%nat) =? 0).
Definition set_in_use (e : list Z) (b : bool) : list Z := <[19%nat := if b then 1 else 0]> e.
Definition set_inode_sector (e : list Z) (s : Z) : list Z := overlay e (le32 s).
(** [strlcpy (e.name, name, sizeof e.name)]. *)
Definition set_name (e : list Z) (name : list Z) : list Z :=
  overlay_at e 4 (take 14 name ++ [0]).

(** [!strcmp (name, field)], where [field] is an array of characters. *)
Fixpoint str_eq (name field : list Z) : outcome bool :=
  match name, field with
  | _, [] => Err BadAccess
  | [], c :: _ => Ret (c =? 0)
  | n :: ns, c :: cs => if n =? c then str_eq ns cs else Ret false
  end.

Section filesys.
Context (malloc_ok : nat -> bool).

(** ** Memory *)

Definition malloc : ST fs Z := fun s =>
  let a := 16 * (Z.of_nat (allocs s) + 1) in
  Ret (if malloc_ok (allocs s) then a else NULL, with_allocs s (S (allocs s))).

Definition read_inode (a : Z) : ST fs inode := fun s =>
  match inodes s !! a with Some i => Ret (i, s) | None => Err BadAccess end.
Definition write_inode (a : Z) (i : inode) : ST fs unit := fun s =>
  Ret (tt, with_inodes s (<[a := i]> (inodes s))).
Definition read_file (a : Z) : ST fs file := fun s =>
  match files s !! a with Some f => Ret (f, s) | None => Err BadAccess end.
Definition write_file (a : Z) (f : file) : ST fs unit := fun s =>
  Ret (tt, with_files s (<[a := f]> (files s))).
Definition read_dir (a : Z) : ST fs dir := fun s =>
  match dirs s !! a with Some d => Ret (d, s) | None => Err BadAccess end.
Definition write_dir (a : Z) (d : dir) : ST fs unit := fun s =>
  Ret (tt, with_dirs s (<[a := d]> (dirs s))).

(** ** The block device *)

Definition block_size (s : fs) : Z := Z.of_nat (length (disk s)).

Definition check_sector (sec : Z) : ST fs unit := fun s =>
  if block_size s <=? sec then Err Panicked else Ret (tt, s).

Definition block_read (sec : Z) : ST fs (list Z) :=
  do! _ := check_sector sec in
  fun s => match disk s !! Z.to_nat sec with Some b => Ret (b, s) | None => Err BadAccess end.

Definition block_write (sec : Z) (b : list Z) : ST fs unit :=
  do! _ := check_sector sec in
  fun s => Ret (tt, with_disk s (<[Z.to_nat sec := b]> (disk s))).

(** ** Inodes: data *)

(** [DIV_ROUND_UP (size, BLOCK_SECTOR_SIZE)] on [int] operands, converted to
    [size_t]. *)
Definition bytes_to_sectors (size : Z) : Z := u32 (Z.quot (s32 (size + BLOCK_SECTOR_SIZE - 1)) BLOCK_SECTOR_SIZE).

Definition byte_to_sector (i : inode) (p : Z) : Z :=
  if p <? dlength (data i) then u32 (start (data i) + p / BLOCK_SECTOR_SIZE) else u32 (-1).

Definition inode_length (i : inode) : Z := dlength (data i).

(** The loop of [inode_read_at]: [acc] are the bytes read so far, [bounce]
    tells whether the bounce buffer has been allocated.  Every iteration
    reads at least one byte, so [size] bounds their number. *)
Fixpoint read_loop (fuel : nat) (i : inode) (size offset : Z) (bounce : bool) (acc : list Z) : ST fs (list Z) :=
  if size <=? 0 then sret acc else
  match fuel with
  | O => stop NoFuel
  | S fuel' =>
      let sector_idx := byte_to_sector i offset in
      let sector_ofs := Z.rem offset BLOCK_SECTOR_SIZE in
      let inode_left := inode_length i - offset in
      let sector_left := BLOCK_SECTOR_SIZE - sector_ofs in
      let min_left := if inode_left <? sector_left then inode_left else sector_left in
      let chunk_size := if size <? min_left then size else min_left in
      if chunk_size <=? 0 then sret acc else
      if (sector_ofs =? 0) && (chunk_size =? BLOCK_SECTOR_SIZE) then
        do! b := block_read sector_idx in
        read_loop fuel' i (size - chunk_size) (offset + chunk_size) bounce (acc ++ b)
      else
        do! ok := (if (bounce : bool) then sret true else do! p := malloc in sret (negb (p =? NULL))) in
        if (ok : bool) then
          do! b := block_read sector_idx in
          let part := take (Z.to_nat chunk_size) (drop (Z.to_nat sector_ofs) b) in
          read_loop fuel' i (size - chunk_size) (offset + chunk_size) true (acc ++ part)
        else sret acc
  end.

(** The bytes that [inode_read_at] stores into the buffer; their number is
    its result. *)
Definition inode_read_at (a size offset : Z) : ST fs (list Z) :=
  do! i := read_inode a in
  read_loop (Z.to_nat size) i size offset false [].

Fixpoint write_loop (fuel : nat) (i : inode) (buffer : list Z) (size offset : Z) (bounce : bool) (written : Z)
  : ST fs Z :=
  if size <=? 0 then sret written else
  match fuel with
  | O => stop NoFuel
  | S fuel' =>
      let sector_idx := byte_to_sector i offset in
      let sector_ofs := Z.rem offset BLOCK_SECTOR_SIZE in
      let inode_left := inode_length i - offset in
      let sector_left := BLOCK_SECTOR_SIZE - sector_ofs in
      let min_left := if inode_left <? sector_left then inode_left else sector_left in
      let chunk_size := if size <? min_left then size else min_left in
      if chunk_size <=? 0 then sret written else
      do! part := (if Z.of_nat (length buffer) <? written + chunk_size then stop BadAccess
                   else sret (take (Z.to_nat chunk_size) (drop (Z.to_nat written) buffer))) in
      if (sector_ofs =? 0) && (chunk_size =? BLOCK_SECTOR_SIZE) then
        do! _ := block_write sector_idx part in
        write_loop fuel' i buffer (size - chunk_size) (offset + chunk_size) bounce (written + chunk_size)
      else
        do! ok := (if (bounce : bool) then sret true else do! p := malloc in sret (negb (p =? NULL))) in
        if (ok : bool) then
          do! b := (if (0 <? sector_ofs) || (chunk_size <? sector_left) then block_read sector_idx
                    else sret (zeros BLOCK_SECTOR_SIZE)) in
          do! _ := block_write sector_idx (overlay_at b sector_ofs part) in
          write_loop fuel' i buffer (size - chunk_size) (offset + chunk_size) true (written + chunk_size)
        else sret written
  end.

Definition inode_write_at (a : Z) (buffer : list Z) (size offset : Z) : ST fs Z :=
  do! i := read_inode a in
  if negb (deny_write_cnt i =? 0) then sret 0 else
  write_loop (Z.to_nat size) i buffer size offset false 0.

(** ** Files: data *)

Definition file_read (f size : Z) : ST fs (list Z) :=
  do! x := read_file f in
  do! b := inode_read_at (finode x) size (pos x) in
  do! x := read_file f in
  do! _ := write_file f (mkFile (finode x) (s32 (pos x + Z.of_nat (length b))) (deny_write x)) in
  sret b.

Definition file_read_at (f size file_ofs : Z) : ST fs (list Z) :=
  do! x := read_file f in inode_read_at (finode x) size file_ofs.

Definition file_write (f : Z) (buffer : list Z) (size : Z) : ST fs Z :=
  do! x := read_file f in
  do! n := inode_write_at (finode x) buffer size (pos x) in
  do! x := read_file f in
  do! _ := write_file f (mkFile (finode x) (s32 (pos x + n)) (deny_write x)) in
  sret n.

Definition file_write_at (f : Z) (buffer : list Z) (size file_ofs : Z) : ST fs Z :=
  do! x := read_file f in inode_write_at (finode x) buffer size file_ofs.

Definition file_length (f : Z) : ST fs Z :=
  do! _ := assert_ (negb (f =? NULL)) in
  do! x := read_file f in do! i := read_inode (finode x) in sret (inode_length i).

Definition file_seek (f new_pos : Z) : ST fs unit :=
  do! _ := assert_ (negb (f =? NULL)) in
  do! _ := assert_ (0 <=? new_pos) in
  do! x := read_file f in write_file f (mkFile (finode x) new_pos (deny_write x)).

Definition file_tell (f : Z) : ST fs Z :=
  do! _ := assert_ (negb (f =? NULL)) in
  do! x := read_file f in sret (pos x).

(** ** The free map *)

(** [bitmap_write (free_map, free_map_file)]. *)
Definition write_free_map : ST fs bool :=
  do! s := get in
  let b := free_map s in
  do! n := file_write_at (free_map_file s) (concat (map le32 (bits b))) (s32 (byte_cnt (bit_cnt b))) 0 in
  sret (bitmap_write b (fun _ _ => n)).

(** [bitmap_read (free_map, free_map_file)]. *)
Definition read_free_map : ST fs bool :=
  do! s := get in
  let b := free_map s in
  do! bytes := (if 0 <? bit_cnt b then file_read_at (free_map_file s) (s32 (byte_cnt (bit_cnt b))) 0
                else sret []) in
  do! (ok, b') := lift (bitmap_read b (fun ws _ => (Z.of_nat (length bytes),
      words (length ws) (overlay (concat (map le32 ws)) bytes)))) in
  do! s := get in
  do! _ := put (with_map s b') in
  sret ok.

(** The sector that is allocated, if any. *)
Definition free_map_allocate (cnt : Z) : ST fs (option Z) :=
  do! s := get in
  do! (sec, b) := lift (bitmap_scan_and_flip (free_map s) 0 cnt false) in
  do! _ := put (with_map s b) in
  do! failed := (if negb (sec =? BITMAP_ERROR) && negb (free_map_file s =? NULL)
                 then do! ok := write_free_map in sret (negb ok) else sret false) in
  if (failed : bool) then
    do! s := get in
    do! b := lift (bitmap_set_multiple (free_map s) sec cnt false) in
    do! _ := put (with_map s b) in sret None
  else sret (if sec =? BITMAP_ERROR then None else Some sec).

Definition free_map_release (sec cnt : Z) : ST fs unit :=
  do! s := get in
  do! all := lift (bitmap_all (free_map s) sec cnt) in
  do! _ := assert_ all in
  do! b := lift (bitmap_set_multiple (free_map s) sec cnt false) in
  do! _ := put (with_map s b) in
  do! _ := write_free_map in
  sret tt.

(** ** Inodes: life cycle *)

Definition inode_init : ST fs unit := fun s => Ret (tt, with_open s []).

(** [for (i = 0; i < n; i++) block_write (fs_device, sec + i, zeros)]. *)
Fixpoint zero_sectors (n : nat) (sec : Z) : ST fs unit :=
  match n with
  | O => sret tt
  | S n' => do! _ := block_write (u32 sec) (zeros BLOCK_SECTOR_SIZE) in zero_sectors n' (sec + 1)
  end.

Definition inode_create (sec length : Z) : ST fs bool :=
  do! _ := assert_ (0 <=? length) in
  do! p := malloc in
  if negb (p =? NULL) then
    let sectors := bytes_to_sectors length in
    do! r := free_map_allocate sectors in
    match r with
    | Some st =>
        do! _ := block_write sec (encode_inode (mkDisk st length INODE_MAGIC)) in
        do! _ := (if 0 <? sectors then zero_sectors (Z.to_nat sectors) st else sret tt) in
        sret true
    | None => sret false
    end
  else sret false.

Definition inode_reopen (a : Z) : ST fs Z :=
  if a =? NULL then sret a else
  do! i := read_inode a in
  do! _ := write_inode a (mkInode (sector i) (s32 (open_cnt i + 1)) (removed i) (deny_write_cnt i) (data i)) in
  sret a.

(** The search of [inode_open] through the list of open inodes. *)
Fixpoint find_open (l : list Z) (sec : Z) : ST fs (option Z) :=
  match l with
  | [] => sret None
  | a :: l' => do! i := read_inode a in if sector i =? sec then sret (Some a) else find_open l' sec
  end.

Definition inode_open (sec : Z) : ST fs Z :=
  do! s := get in
  do! r := find_open (open_inodes s) sec in
  match r with
  | Some a => do! _ := inode_reopen a in sret a
  | None =>
      do! a := malloc in
      if a =? NULL then sret NULL else
      do! s := get in
      do! _ := put (with_open s (a :: open_inodes s)) in
      do! b := block_read sec in
      do! _ := write_inode a (mkInode sec 1 false 0 (decode_inode b)) in
      sret a
  end.

Definition inode_get_inumber (a : Z) : ST fs Z := do! i := read_inode a in sret (sector i).

(** [list_remove (&inode->elem)] and [free (inode)]. *)
Definition drop_inode (a : Z) : ST fs unit := fun s =>
  Ret (tt, with_inodes s (delete a (inodes s))).

Definition inode_close (a : Z) : ST fs unit :=
  if a =? NULL then sret tt else
  do! i := read_inode a in
  let i := mkInode (sector i) (s32 (open_cnt i - 1)) (removed i) (deny_write_cnt i) (data i) in
  do! _ := write_inode a i in
  if open_cnt i =? 0 then
    do! s := get in
    do! _ := put (with_open s (List.remove Z.eq_dec a (open_inodes s))) in
    do! _ := (if removed i then
        do! _ := free_map_release (sector i) 1 in
        free_map_release (start (data i)) (bytes_to_sectors (dlength (data i)))
      else sret tt) in
    drop_inode a
  else sret tt.

Definition inode_remove (a : Z) : ST fs unit :=
  do! _ := assert_ (negb (a =? NULL)) in
  do! i := read_inode a in
  write_inode a (mkInode (sector i) (open_cnt i) true (deny_write_cnt i) (data i)).

Definition inode_deny_write (a : Z) : ST fs unit :=
  do! i := read_inode a in
  let n := s32 (deny_write_cnt i + 1) in
  do! _ := write_inode a (mkInode (sector i) (open_cnt i) (removed i) n (data i)) in
  assert_ (n <=? open_cnt i).

Definition inode_allow_write (a : Z) : ST fs unit :=
  do! i := read_inode a in
  do! _ := assert_ (0 <? deny_write_cnt i) in
  do! _ := assert_ (deny_write_cnt i <=? open_cnt i) in
  write_inode a (mkInode (sector i) (open_cnt i) (removed i) (deny_write_cnt i - 1) (data i)).

(** ** Files: life cycle *)

Definition file_open (ino : Z) : ST fs Z :=
  do! f := malloc in
  if negb (ino =? NULL) && negb (f =? NULL) then
    do! _ := write_file f (mkFile ino 0 false) in sret f
  else
    do! _ := inode_close ino in sret NULL.

Definition file_reopen (f : Z) : ST fs Z :=
  do! x := read_file f in
  do! a := inode_reopen (finode x) in
  file_open a.

Definition file_deny_write (f : Z) : ST fs unit :=
  do! _ := assert_ (negb (f =? NULL)) in
  do! x := read_file f in
  if deny_write x then sret tt else
  do! _ := write_file f (mkFile (finode x) (pos x) true) in
  inode_deny_write (finode x).

Definition file_allow_write (f : Z) : ST fs unit :=
  do! _ := assert_ (negb (f =? NULL)) in
  do! x := read_file f in
  if deny_write x then
    do! _ := write_file f (mkFile (finode x) (pos x) false) in
    inode_allow_write (finode x)
  else sret tt.

Definition drop_file (f : Z) : ST fs unit := fun s => Ret (tt, with_files s (delete f (files s))).

Definition file_close (f : Z) : ST fs unit :=
  if f =? NULL then sret tt else
  do! _ := file_allow_write f in
  do! x := read_file f in
  do! _ := inode_close (finode x) in
  drop_file f.

Definition file_get_inode (f : Z) : ST fs Z := do! x := read_file f in sret (finode x).

(** ** The free map: life cycle *)

(** [raw n] is what a block of [n] words holds when [malloc] returns it. *)
Definition free_map_init (raw : nat -> list Z) : ST fs unit :=
  do! s := get in
  let n := block_size s in
  do! p := malloc in
  do! q := (if negb (p =? NULL) then malloc else sret NULL) in
  do! r := lift (bitmap_create n (negb (p =? NULL))
      (if negb (q =? NULL) then Some (raw (Z.to_nat (elem_cnt n))) else None)) in
  match r with
  | None => stop Panicked
  | Some b =>
      do! b := lift (bitmap_mark b FREE_MAP_SECTOR) in
      do! b := lift (bitmap_mark b ROOT_DIR_SECTOR) in
      do! s := get in put (with_map s b)
  end.

Definition open_free_map_file : ST fs unit :=
  do! i := inode_open FREE_MAP_SECTOR in
  do! f := file_open i in
  do! s := get in
  do! _ := put (with_map_file s f) in
  if f =? NULL then stop Panicked else sret tt.

Definition free_map_open : ST fs unit :=
  do! _ := open_free_map_file in
  do! ok := read_free_map in
  if (ok : bool) then sret tt else stop Panicked.

Definition free_map_close : ST fs unit :=
  do! s := get in file_close (free_map_file s).

Definition free_map_create : ST fs unit :=
  do! s := get in
  do! ok := inode_create FREE_MAP_SECTOR (s32 (bitmap_file_size (free_map s))) in
  if (ok : bool) then
    do! _ := open_free_map_file in
    do! ok := write_free_map in
    if (ok : bool) then sret tt else stop Panicked
  else stop Panicked.

(** ** Directories *)

Definition dir_create (sec entry_cnt : Z) : ST fs bool := inode_create sec (s32 (u32 (entry_cnt * ENTRY_SIZE))).

Definition dir_open (ino : Z) : ST fs Z :=
  do! d := malloc in
  if negb (ino =? NULL) && negb (d =? NULL) then
    do! _ := write_dir d (mkDir ino 0) in sret d
  else
    do! _ := inode_close ino in sret NULL.

Definition dir_open_root : ST fs Z := do! i := inode_open ROOT_DIR_SECTOR in dir_open i.

Definition dir_reopen (d : Z) : ST fs Z :=
  do! x := read_dir d in do! a := inode_reopen (dinode x) in dir_open a.

Definition drop_dir (d : Z) : ST fs unit := fun s => Ret (tt, with_dirs s (delete d (dirs s))).

Definition dir_close (d : Z) : ST fs unit :=
  if d =? NULL then sret tt else
  do! x := read_dir d in
  do! _ := inode_close (dinode x) in
  drop_dir d.

Definition dir_get_inode (d : Z) : ST fs Z := do! x := read_dir d in sret (dinode x).

(** Reading the entry at [ofs] into the buffer [e]: the new buffer, and
    whether the read was complete. *)
Definition read_entry (ino : Z) (e : list Z) (ofs : Z) : ST fs (list Z * bool) :=
  do! b := inode_read_at ino ENTRY_SIZE ofs in
  sret (overlay e b, Z.of_nat (length b) =? ENTRY_SIZE).

(** The loop of [lookup]; the number of iterations is bounded by that of the
    entries of the directory. *)
Fixpoint lookup_loop (fuel : nat) (ino : Z) (name : list Z) (e : list Z) (ofs : Z) : ST fs (option (list Z * Z)) :=
  do! (e, ok) := read_entry ino e ofs in
  if (ok : bool) then
    do! eq := (if e_in_use e then lift (str_eq name (e_name e)) else sret false) in
    if (eq : bool) then sret (Some (e, ofs))
    else match fuel with O => stop NoFuel | S fuel' => lookup_loop fuel' ino name e (ofs + ENTRY_SIZE) end
  else sret None.

Definition dir_fuel (ino : Z) : ST fs nat :=
  do! i := read_inode ino in sret (Z.to_nat (dlength (data i) / ENTRY_SIZE)).

(** [junk] is what the uninitialized variable [e] holds. *)
Definition lookup (junk : list Z) (d : Z) (name : list Z) : ST fs (option (list Z * Z)) :=
  do! _ := assert_ (negb (d =? NULL)) in
  do! x := read_dir d in
  do! n := dir_fuel (dinode x) in
  lookup_loop n (dinode x) name junk 0.

Definition dir_lookup (junk : list Z) (d : Z) (name : list Z) : ST fs Z :=
  do! _ := assert_ (negb (d =? NULL)) in
  do! r := lookup junk d name in
  match r with
  | Some (e, _) => inode_open (e_inode_sector e)
  | None => sret NULL
  end.

(** The search of [dir_add] for a free slot: the buffer and the offset at
    which it stops. *)
Fixpoint slot_loop (fuel : nat) (ino : Z) (e : list Z) (ofs : Z) : ST fs (list Z * Z) :=
  do! (e, ok) := read_entry ino e ofs in
  if (ok : bool) then
    if negb (e_in_use e) then sret (e, ofs)
    else match fuel with O => stop NoFuel | S fuel' => slot_loop fuel' ino e (ofs + ENTRY_SIZE) end
  else sret (e, ofs).

Definition dir_add (junk : list Z) (d : Z) (name : list Z) (inode_sector : Z) : ST fs bool :=
  do! _ := assert_ (negb (d =? NULL)) in
  if (Z.of_nat (length name) =? 0) || (NAME_MAX <? Z.of_nat (length name)) then sret false else
  do! r := lookup junk d name in
  match r with
  | Some _ => sret false
  | None =>
      do! x := read_dir d in
      do! n := dir_fuel (dinode x) in
      do! (e, ofs) := slot_loop n (dinode x) junk 0 in
      let e := set_inode_sector (set_name (set_in_use e true) name) inode_sector in
      do! w := inode_write_at (dinode x) e ENTRY_SIZE ofs in
      sret (w =? ENTRY_SIZE)
  end.

Definition dir_remove (junk : list Z) (d : Z) (name : list Z) : ST fs bool :=
  do! _ := assert_ (negb (d =? NULL)) in
  do! r := lookup junk d name in
  match r with
  | None => do! _ := inode_close NULL in sret false
  | Some (e, ofs) =>
      do! ino := inode_open (e_inode_sector e) in
      if ino =? NULL then do! _ := inode_close ino in sret false else
      do! x := read_dir d in
      do! w := inode_write_at (dinode x) (set_in_use e false) ENTRY_SIZE ofs in
      do! success := (if w =? ENTRY_SIZE then do! _ := inode_remove ino in sret true else sret false) in
      do! _ := inode_close ino in
      sret success
  end.

(** [dir_readdir]: the name of the next entry in use. *)
Fixpoint readdir_loop (fuel : nat) (d : Z) (e : list Z) : ST fs (option (list Z)) :=
  do! x := read_dir d in
  do! (e, ok) := read_entry (dinode x) e (dpos x) in
  if (ok : bool) then
    do! _ := write_dir d (mkDir (dinode x) (s32 (dpos x + ENTRY_SIZE))) in
    if e_in_use e then sret (Some (e_name e))
    else match fuel with O => stop NoFuel | S fuel' => readdir_loop fuel' d e end
  else sret None.

Definition dir_readdir (junk : list Z) (d : Z) : ST fs (option (list Z)) :=
  do! x := read_dir d in
  do! n := dir_fuel (dinode x) in
  readdir_loop n d junk.

(** ** The file system *)

Definition do_format : ST fs unit :=
  do! _ := free_map_create in
  do! ok := dir_create ROOT_DIR_SECTOR 16 in
  if (ok : bool) then free_map_close else stop Panicked.

Definition filesys_init (raw : nat -> list Z) (format : bool) : ST fs unit :=
  do! _ := inode_init in
  do! _ := free_map_init raw in
  do! _ := (if format then do_format else sret tt) in
  free_map_open.

Definition filesys_done : ST fs unit := free_map_close.

Definition filesys_create (junk name : list Z) (initial_size : Z) : ST fs bool :=
  do! d := dir_open_root in
  do! r := (if d =? NULL then sret None else free_map_allocate 1) in
  let inode_sector := default 0 r in
  do! success := (match r with
    | None => sret false
    | Some sec =>
        do! ok := inode_create sec initial_size in
        if (ok : bool) then dir_add junk d name sec else sret false
    end) in
  do! _ := (if negb success && negb (inode_sector =? 0) then free_map_release inode_sector 1 else sret tt) in
  do! _ := dir_close d in
  sret success.

Definition filesys_open (junk name : list Z) : ST fs Z :=
  do! d := dir_open_root in
  do! ino := (if d =? NULL then sret NULL else dir_lookup junk d name) in
  do! _ := dir_close d in
  file_open ino.

Definition filesys_remove (junk name : list Z) : ST fs bool :=
  do! d := dir_open_root in
  do! success := (if d =? NULL then sret false else dir_remove junk d name) in
  do! _ := dir_close d in
  sret success.
End filesys.
