(* ===== verification/FsData.v ===== *)
(** * Reading and writing the data of inodes

    [inode_read_at] and [inode_write_at] work sector by sector, through a
    bounce buffer for partial sectors.  Here they are shown to implement
    reading and writing a range of bytes: [byte_at dk d p] is the byte at
    offset [p] of the inode with on-disk part [d]. *)
From stdpp Require Import prelude list gmap.
From Stdlib Require Import ZArith Lia.
From S2P Require Import Prelude Bitmap Filesys.
#[local] Open Scope Z_scope.

(** ** Bytes of the disk *)

Definition nth_byte (b : list Z) (i : Z) : Z := default 0 (b !! Z.to_nat i).

Definition sector_byte (dk : list (list Z)) (k o : Z) : Z :=
  match dk !! Z.to_nat k with Some b => nth_byte b o | None => 0 end.

Definition byte_at (dk : list (list Z)) (d : inode_disk) (p : Z) : Z :=
  sector_byte dk (start d + p / 512) (p mod 512).

Definition slice (dk : list (list Z)) (d : inode_disk) (ofs n : Z) : list Z :=
  map (byte_at dk d) (seqZ ofs n).

Definition disk_ok (dk : list (list Z)) : Prop :=
  Z.of_nat (length dk) < two32 /\ Forall (fun b => length b = 512%nat) dk.

(** The data of the inode lies on the disk. *)
Definition extent_ok (dk : list (list Z)) (d : inode_disk) : Prop :=
  0 <= start d /\ 0 <= dlength d < 2147483648 /\ start d + (dlength d + 511) / 512 <= Z.of_nat (length dk).

(** [dk'] is [dk] with the [n] bytes at offset [ofs] of [d] replaced by those
    of [buf] from [from] on; no other byte of the disk differs. *)
Definition patched (dk dk' : list (list Z)) (d : inode_disk) (ofs n : Z) (buf : list Z) (from : Z) : Prop :=
  length dk' = length dk /\ disk_ok dk' /\
  forall k o, 0 <= k -> 0 <= o < 512 ->
    let p := (k - start d) * 512 + o in
    sector_byte dk' k o = if (ofs <=? p) && (p <? ofs + n) then nth_byte buf (from + (p - ofs)) else sector_byte dk k o.

(** The number of bytes that can be transferred. *)
Definition avail (d : inode_disk) (size ofs : Z) : Z := Z.max 0 (Z.min size (dlength d - ofs)).

(** ** Arithmetic of a chunk *)

(** The part of a transfer that lies in one sector. *)
Definition chunk (d : inode_disk) (size ofs : Z) : Z :=
  let sector_left := 512 - Z.rem ofs 512 in
  let min_left := if dlength d - ofs <? sector_left then dlength d - ofs else sector_left in
  if size <? min_left then size else min_left.

Lemma chunk_facts dk d size ofs :
  extent_ok dk d -> 0 <= ofs -> 0 < size ->
  (chunk d size ofs <= 0 -> avail d size ofs = 0) /\
  (0 < chunk d size ofs ->
     ofs < dlength d /\ Z.rem ofs 512 = ofs mod 512 /\ chunk d size ofs <= size /\
     ofs mod 512 + chunk d size ofs <= 512 /\ ofs + chunk d size ofs <= dlength d /\
     0 <= start d + ofs / 512 < Z.of_nat (length dk) /\
     avail d size ofs = chunk d size ofs + avail d (size - chunk d size ofs) (ofs + chunk d size ofs)).
Proof.
  intros (Hs & Hl & He) Ho Hsz. unfold chunk, avail. rewrite Z.rem_mod_nonneg by lia.
  pose proof (Z.div_mod ofs 512 ltac:(lia)). pose proof (Z.mod_pos_bound ofs 512 ltac:(lia)).
  pose proof (Z.div_mod (dlength d + 511) 512 ltac:(lia)). pose proof (Z.mod_pos_bound (dlength d + 511) 512 ltac:(lia)).
  destruct (Z.ltb_spec (dlength d - ofs) (512 - ofs mod 512)); bool_cases; lia.
Qed.

Lemma run_byte_to_sector i p dk :
  extent_ok dk (data i) -> disk_ok dk -> 0 <= p < dlength (data i) ->
  byte_to_sector i p = start (data i) + p / 512.
Proof.
  intros (Hs & Hl & He) [Hd _] Hp. unfold byte_to_sector. destruct (Z.ltb_spec p (dlength (data i))); [|lia].
  change BLOCK_SECTOR_SIZE with 512. apply u32_small. unfold is_u32.
  pose proof (Z.div_mod p 512 ltac:(lia)). pose proof (Z.mod_pos_bound p 512 ltac:(lia)).
  pose proof (Z.div_mod (dlength (data i) + 511) 512 ltac:(lia)). pose proof (Z.mod_pos_bound (dlength (data i) + 511) 512 ltac:(lia)).
  lia.
Qed.

(** ** Sectors *)

Lemma run_block_read s sec :
  0 <= sec < Z.of_nat (length (disk s)) ->
  exists b, disk s !! Z.to_nat sec = Some b /\ block_read sec s = Ret (b, s).
Proof.
  intros Hs. destruct (lookup_lt_is_Some_2 (disk s) (Z.to_nat sec)) as [b Hb]; [lia|]. exists b. split; [done|].
  unfold block_read, sbind, check_sector, block_size. destruct (Z.leb_spec (Z.of_nat (length (disk s))) sec); [lia|].
  by rewrite Hb.
Qed.

Lemma run_block_write s sec b :
  0 <= sec < Z.of_nat (length (disk s)) ->
  block_write sec b s = Ret (tt, with_disk s (<[Z.to_nat sec := b]> (disk s))).
Proof.
  intros Hs. unfold block_write, sbind, check_sector, block_size.
  destruct (Z.leb_spec (Z.of_nat (length (disk s))) sec); [lia|done].
Qed.

Lemma sector_length dk k b : disk_ok dk -> dk !! k = Some b -> length b = 512%nat.
Proof. intros [_ H] Hb. by apply (proj1 (Forall_lookup _ dk) H k). Qed.

Lemma slice_length dk d ofs n : 0 <= n -> length (slice dk d ofs n) = Z.to_nat n.
Proof. intros Hn. unfold slice. by rewrite length_map, length_seqZ. Qed.

Lemma slice_app dk d ofs n m : 0 <= n -> 0 <= m -> slice dk d ofs (n + m) = slice dk d ofs n ++ slice dk d (ofs + n) m.
Proof. intros Hn Hm. unfold slice. by rewrite seqZ_app, map_app by done. Qed.

Lemma slice_lookup dk d ofs n i : 0 <= i < n -> slice dk d ofs n !! Z.to_nat i = Some (byte_at dk d (ofs + i)).
Proof.
  intros Hi. unfold slice. rewrite list_lookup_fmap. rewrite lookup_seqZ_lt by lia. simpl. do 2 f_equal. lia.
Qed.

(** The bytes of one sector that a chunk covers. *)
Lemma sector_slice dk d ofs n b :
  disk_ok dk -> 0 <= ofs -> 0 <= n -> ofs mod 512 + n <= 512 ->
  dk !! Z.to_nat (start d + ofs / 512) = Some b ->
  take (Z.to_nat n) (drop (Z.to_nat (ofs mod 512)) b) = slice dk d ofs n.
Proof.
  intros Hok Ho Hn Hr Hb. pose proof (sector_length _ _ _ Hok Hb) as Hl.
  pose proof (Z.mod_pos_bound ofs 512 ltac:(lia)). pose proof (Z.div_mod ofs 512 ltac:(lia)) as Hdm.
  apply list_eq_same_length with (n := Z.to_nat n).
  - by rewrite slice_length.
  - rewrite length_take, length_drop. lia.
  - intros i x y Hi Hx Hy. rewrite <- (Nat2Z.id i) in Hy. rewrite slice_lookup in Hy by lia.
    injection Hy as <-. rewrite lookup_take in Hx. case_decide; [|done]. rewrite lookup_drop in Hx.
    unfold byte_at, sector_byte.
    assert ((ofs + Z.of_nat i) / 512 = ofs / 512) as ->.
    { symmetry. apply (Z.div_unique _ _ _ (ofs mod 512 + Z.of_nat i)); lia. }
    rewrite Hb. unfold nth_byte.
    assert ((ofs + Z.of_nat i) mod 512 = ofs mod 512 + Z.of_nat i) as ->.
    { symmetry. apply (Z.mod_unique _ _ (ofs / 512)); lia. }
    replace (Z.to_nat (ofs mod 512 + Z.of_nat i)) with (Z.to_nat (ofs mod 512) + i)%nat by lia. by rewrite Hx.
Qed.

Section data.
Context (malloc_ok : nat -> bool).

(** ** Reading *)

Lemma run_bounce bounce s :
  exists ok k, (if (bounce : bool) then sret true else do! p := malloc malloc_ok in sret (negb (p =? NULL))) s =
    Ret (ok, with_allocs s k) /\ ((forall j, malloc_ok j = true) -> ok = true).
Proof.
  destruct bounce.
  - exists true, (allocs s). split; [|done]. by destruct s.
  - unfold sbind, malloc, sret. destruct (malloc_ok (allocs s)) eqn:E.
    + eexists true, (S (allocs s)). split; [|done]. do 3 f_equal. unfold NULL. destruct (Z.eqb_spec (16 * (Z.of_nat (allocs s) + 1)) 0); [lia|done].
    + exists false, (S (allocs s)). split; [done|]. intros H. congruence.
Qed.

Lemma read_loop_spec fuel i size ofs bounce acc s :
  disk_ok (disk s) -> extent_ok (disk s) (data i) -> 0 <= ofs -> (Z.to_nat size <= fuel)%nat ->
  exists n k, read_loop malloc_ok fuel i size ofs bounce acc s =
      Ret (acc ++ slice (disk s) (data i) ofs n, with_allocs s k) /\
    0 <= n <= avail (data i) size ofs /\ ((forall j, malloc_ok j = true) -> n = avail (data i) size ofs).
Proof.
  revert size ofs bounce acc s. induction fuel as [|fuel IH]; intros size ofs bounce acc s Hok Hext Ho Hf.
  - exists 0, (allocs s). simpl. destruct (Z.leb_spec size 0); [|lia]. unfold slice, avail. simpl. rewrite app_nil_r.
    split; [by destruct s|lia].
  - cbn [read_loop]. destruct (Z.leb_spec size 0) as [Hz|Hz].
    { exists 0, (allocs s). unfold slice, avail. simpl. rewrite app_nil_r. split; [by destruct s|lia]. }
    change BLOCK_SECTOR_SIZE with 512. unfold inode_length. cbv zeta. fold (chunk (data i) size ofs).
    destruct (chunk_facts (disk s) (data i) size ofs Hext Ho Hz) as [Hc0 Hc1].
    destruct (Z.leb_spec (chunk (data i) size ofs) 0) as [Hc|Hc].
    { exists 0, (allocs s). rewrite (Hc0 Hc). unfold slice. simpl. rewrite app_nil_r. split; [by destruct s|done || lia]. }
    destruct (Hc1 Hc) as (H1 & H2 & H3 & H4 & H5 & H6 & H7). set (c := chunk (data i) size ofs) in *.
    rewrite H2, (run_byte_to_sector i ofs (disk s)) by (done || lia).
    destruct ((ofs mod 512 =? 0) && (c =? 512)) eqn:Efull.
    + apply andb_prop in Efull as [E1%Z.eqb_eq E2%Z.eqb_eq].
      destruct (run_block_read s _ H6) as (b & Hb & Hr). sstep Hr.
      destruct (IH (size - c) (ofs + c) bounce (acc ++ b) s Hok Hext ltac:(lia) ltac:(lia)) as (n & k & Hrun & Hn & Hfull).
      exists (c + n), k. rewrite Hrun. split_and!; [|lia|lia|intros Hm; rewrite (Hfull Hm); lia].
      do 2 f_equal. rewrite <- app_assoc, slice_app by lia. do 2 f_equal.
      pose proof (sector_slice (disk s) (data i) ofs c b Hok Ho ltac:(lia) H4 Hb) as Hsl. rewrite E1, E2 in Hsl.
      rewrite E2, <- Hsl. simpl. rewrite drop_0, take_ge; [done|]. by rewrite (sector_length _ _ _ Hok Hb).
    + destruct (run_bounce bounce s) as (ok & k & Hbn & Hmok). sstep Hbn. destruct ok.
      * destruct (run_block_read (with_allocs s k) (start (data i) + ofs / 512) H6) as (b & Hb & Hr). sstep Hr.
        destruct (IH (size - c) (ofs + c) true (acc ++ take (Z.to_nat c) (drop (Z.to_nat (ofs mod 512)) b)) (with_allocs s k)
          Hok Hext ltac:(lia) ltac:(lia)) as (n & k' & Hrun & Hn & Hfull).
        exists (c + n), k'. rewrite Hrun. split_and!; [|lia|lia|intros Hm; rewrite (Hfull Hm); lia].
        do 2 f_equal. rewrite <- app_assoc, slice_app by lia. do 2 f_equal.
        apply (sector_slice (disk s) (data i) ofs c b); (done || lia).
      * exists 0, k. unfold slice. simpl. rewrite app_nil_r. split_and!; [done|lia|unfold avail; lia|].
        intros Hm. discriminate (Hmok Hm).
Qed.

(** ** Writing *)

Lemma nth_byte_app_l a b j : 0 <= j < Z.of_nat (length a) -> nth_byte (a ++ b) j = nth_byte a j.
Proof. intros Hj. unfold nth_byte. by rewrite lookup_app_l by lia. Qed.

Lemma nth_byte_app_r a b j : Z.of_nat (length a) <= j -> nth_byte (a ++ b) j = nth_byte b (j - Z.of_nat (length a)).
Proof. intros Hj. unfold nth_byte. rewrite lookup_app_r by lia. do 3 f_equal. lia. Qed.

Lemma nth_byte_take b n j : 0 <= j < n -> nth_byte (take (Z.to_nat n) b) j = nth_byte b j.
Proof. intros Hj. unfold nth_byte. by rewrite lookup_take_lt by lia. Qed.

Lemma nth_byte_drop b n j : 0 <= n -> 0 <= j -> nth_byte (drop (Z.to_nat n) b) j = nth_byte b (n + j).
Proof. intros Hn Hj. unfold nth_byte. rewrite lookup_drop. do 3 f_equal. lia. Qed.

(** A buffer with a part replaced. *)
Lemma nth_byte_overlay b o part j :
  length b = 512%nat -> 0 <= o -> o + Z.of_nat (length part) <= 512 -> 0 <= j < 512 ->
  length (overlay_at b o part) = 512%nat /\
  nth_byte (overlay_at b o part) j =
    if (o <=? j) && (j <? o + Z.of_nat (length part)) then nth_byte part (j - o) else nth_byte b j.
Proof.
  intros Hb Ho Hp Hj. unfold overlay_at.
  assert (Hlt : length (take (Z.to_nat o) b) = Z.to_nat o) by (rewrite length_take; lia).
  split; [rewrite !length_app, Hlt, length_drop; lia|].
  destruct (Z.leb_spec o j) as [H1|H1]; cbn [andb].
  - rewrite nth_byte_app_r by lia. rewrite Hlt, Z2Nat.id by lia.
    destruct (Z.ltb_spec j (o + Z.of_nat (length part))).
    + by rewrite nth_byte_app_l by lia.
    + rewrite nth_byte_app_r by lia. unfold nth_byte. rewrite lookup_drop. do 3 f_equal. lia.
  - rewrite nth_byte_app_l by lia. by rewrite nth_byte_take by lia.
Qed.

Lemma sector_byte_insert dk k b k' o :
  0 <= k < Z.of_nat (length dk) -> 0 <= k' ->
  sector_byte (<[Z.to_nat k := b]> dk) k' o = if k' =? k then nth_byte b o else sector_byte dk k' o.
Proof.
  intros Hk Hk'. unfold sector_byte. destruct (Z.eqb_spec k' k) as [->|Hne].
  - by rewrite list_lookup_insert_eq by lia.
  - by rewrite list_lookup_insert_ne by lia.
Qed.

Lemma disk_ok_insert dk k b : disk_ok dk -> length b = 512%nat -> disk_ok (<[k := b]> dk).
Proof. intros [H1 H2] Hb. split; [by rewrite length_insert|]. by apply Forall_insert. Qed.

(** Writing one chunk into its sector. *)
Lemma patched_chunk dk d ofs c b b' buf from :
  disk_ok dk -> extent_ok dk d -> 0 <= ofs -> 0 < c -> ofs mod 512 + c <= 512 -> 0 <= from ->
  0 <= start d + ofs / 512 < Z.of_nat (length dk) -> dk !! Z.to_nat (start d + ofs / 512) = Some b ->
  length b' = 512%nat ->
  (forall j, 0 <= j < 512 -> nth_byte b' j =
     if (ofs mod 512 <=? j) && (j <? ofs mod 512 + c) then nth_byte buf (from + (j - ofs mod 512)) else nth_byte b j) ->
  patched dk (<[Z.to_nat (start d + ofs / 512) := b']> dk) d ofs c buf from.
Proof.
  intros Hok Hext Ho Hc Hr Hfrom Hk Hb Hb' Hj. split; [by rewrite length_insert|]. split; [by apply disk_ok_insert|].
  intros k o Hk0 Ho' p. rewrite sector_byte_insert by done. pose proof (Z.div_mod ofs 512 ltac:(lia)) as Hdm.
  pose proof (Z.mod_pos_bound ofs 512 ltac:(lia)). destruct (Z.eqb_spec k (start d + ofs / 512)) as [->|Hne].
  - rewrite Hj by lia. assert (Hp : p = ofs - ofs mod 512 + o) by (unfold p; lia). rewrite Hp.
    unfold sector_byte. rewrite Hb.
    bool_cases; cbn [andb]; try done; try lia. f_equal. lia.
  - destruct (Z.leb_spec ofs p), (Z.ltb_spec p (ofs + c)); cbn [andb]; try done. unfold p in *.
    exfalso. apply Hne. lia.
Qed.

Lemma patched_trans dk dk1 dk2 d ofs c n buf from :
  0 <= c -> 0 <= n -> patched dk dk1 d ofs c buf from -> patched dk1 dk2 d (ofs + c) n buf (from + c) ->
  patched dk dk2 d ofs (c + n) buf from.
Proof.
  intros Hc Hn (L1 & K1 & P1) (L2 & K2 & P2). split; [congruence|]. split; [done|]. intros k o Hk Ho p.
  rewrite P2, P1 by done. fold p. bool_cases; cbn [andb]; try done; try lia. f_equal. lia.
Qed.

Lemma patched_refl dk d ofs buf from : disk_ok dk -> patched dk dk d ofs 0 buf from.
Proof.
  intros H. split; [done|]. split; [done|]. intros k o Hk Ho p. destruct (Z.leb_spec ofs p), (Z.ltb_spec p (ofs + 0)); cbn [andb]; (done || lia).
Qed.

Lemma extent_ok_length dk dk' d : length dk' = length dk -> extent_ok dk d -> extent_ok dk' d.
Proof. unfold extent_ok. by intros ->. Qed.

Lemma write_loop_spec fuel i buf size ofs bounce from s :
  disk_ok (disk s) -> extent_ok (disk s) (data i) -> 0 <= ofs -> 0 <= from -> (Z.to_nat size <= fuel)%nat ->
  from + size <= Z.of_nat (length buf) ->
  exists n dk k, write_loop malloc_ok fuel i buf size ofs bounce from s =
      Ret (from + n, with_allocs (with_disk s dk) k) /\
    patched (disk s) dk (data i) ofs n buf from /\ 0 <= n <= avail (data i) size ofs /\
    ((forall j, malloc_ok j = true) -> n = avail (data i) size ofs).
Proof.
  revert size ofs bounce from s. induction fuel as [|fuel IH]; intros size ofs bounce from s Hok Hext Ho Hfrom Hf Hbuf.
  - exists 0, (disk s), (allocs s). simpl. destruct (Z.leb_spec size 0); [|lia]. rewrite Z.add_0_r. unfold avail.
    split; [by destruct s|]. split; [by apply patched_refl|lia].
  - cbn [write_loop]. destruct (Z.leb_spec size 0) as [Hz|Hz].
    { exists 0, (disk s), (allocs s). rewrite Z.add_0_r. unfold avail. split; [by destruct s|]. split; [by apply patched_refl|lia]. }
    change BLOCK_SECTOR_SIZE with 512. unfold inode_length. cbv zeta. fold (chunk (data i) size ofs).
    destruct (chunk_facts (disk s) (data i) size ofs Hext Ho Hz) as [Hc0 Hc1].
    destruct (Z.leb_spec (chunk (data i) size ofs) 0) as [Hc|Hc].
    { exists 0, (disk s), (allocs s). rewrite (Hc0 Hc), Z.add_0_r. split; [by destruct s|]. split; [by apply patched_refl|lia]. }
    destruct (Hc1 Hc) as (H1 & H2 & H3 & H4 & H5 & H6 & H7). set (c := chunk (data i) size ofs) in *.
    rewrite H2, (run_byte_to_sector i ofs (disk s)) by (done || lia).
    pose proof (Z.mod_pos_bound ofs 512 ltac:(lia)) as Hmb.
    set (part := take (Z.to_nat c) (drop (Z.to_nat from) buf)).
    assert (Hpl : Z.of_nat (length part) = c) by (unfold part; rewrite length_take, length_drop; lia).
    assert (Hpb : forall j, 0 <= j < c -> nth_byte part j = nth_byte buf (from + j)).
    { intros j Hj. unfold part. rewrite nth_byte_take, nth_byte_drop by lia. done. }
    destruct (Z.ltb_spec (Z.of_nat (length buf)) (from + c)); [lia|].
    sstep (eq_refl : sret part s = Ret (part, s)).
    set (sec := start (data i) + ofs / 512) in *.
    (* the rest of the loop, after the sector has been written *)
    assert (Hrest : forall b' k0 bounce', length b' = 512%nat ->
      (forall j, 0 <= j < 512 -> nth_byte b' j = if (ofs mod 512 <=? j) && (j <? ofs mod 512 + c)
         then nth_byte buf (from + (j - ofs mod 512)) else sector_byte (disk s) sec j) ->
      exists n dk k, write_loop malloc_ok fuel i buf (size - c) (ofs + c) bounce' (from + c)
          (with_allocs (with_disk s (<[Z.to_nat sec := b']> (disk s))) k0) = Ret (from + n, with_allocs (with_disk s dk) k) /\
        patched (disk s) dk (data i) ofs n buf from /\ 0 <= n <= avail (data i) size ofs /\
        ((forall j, malloc_ok j = true) -> n = avail (data i) size ofs)).
    { intros b' k0 bounce' Hb' Hj. destruct (lookup_lt_is_Some_2 (disk s) (Z.to_nat sec)) as [b Hb]; [lia|].
      assert (Hpc : patched (disk s) (<[Z.to_nat sec := b']> (disk s)) (data i) ofs c buf from).
      { apply (patched_chunk _ _ _ _ b); try done. intros j Hjr. rewrite Hj by done. unfold sector_byte. by rewrite Hb. }
      set (s1 := with_allocs (with_disk s (<[Z.to_nat sec := b']> (disk s))) k0).
      destruct Hpc as (L1 & K1 & P1). assert (Hpc : patched (disk s) (disk s1) (data i) ofs c buf from) by (split; [done|split; done]).
      destruct (IH (size - c) (ofs + c) bounce' (from + c) s1) as (n & dk & k & Hrun & Hp & Hn & Hfull);
        [done|by apply (extent_ok_length (disk s))|lia|lia|lia|lia|].
      exists (c + n), dk, k. rewrite Hrun. split; [by rewrite Z.add_assoc|]. split; [by eapply patched_trans; [lia|lia| |]|].
      split; [lia|]. intros Hm. rewrite (Hfull Hm). lia. }
    destruct ((ofs mod 512 =? 0) && (c =? 512)) eqn:Efull.
    + apply andb_prop in Efull as [E1%Z.eqb_eq E2%Z.eqb_eq]. sstep (run_block_write s sec part H6).
      specialize (Hrest part (allocs s) bounce ltac:(lia)).
      assert (Hs : with_allocs (with_disk s (<[Z.to_nat sec := part]> (disk s))) (allocs s) =
                   with_disk s (<[Z.to_nat sec := part]> (disk s))) by done. rewrite Hs in Hrest. apply Hrest.
      intros j Hj. rewrite E1, E2. destruct (Z.leb_spec 0 j), (Z.ltb_spec j (0 + 512)); try lia. cbn [andb].
      rewrite Hpb by lia. f_equal. lia.
    + destruct (run_bounce bounce s) as (ok & k & Hbn & Hmok). sstep Hbn. destruct ok.
      * destruct (run_block_read (with_allocs s k) sec H6) as (b & Hb & Hr).
        assert (Hrd : (if (0 <? ofs mod 512) || (c <? 512 - ofs mod 512) then block_read sec else sret (zeros 512)) (with_allocs s k) =
          Ret (b, with_allocs s k)).
        { destruct ((0 <? ofs mod 512) || (c <? 512 - ofs mod 512)) eqn:E; [done|].
          apply orb_false_iff in E as [E1%Z.ltb_ge E2%Z.ltb_ge]. apply andb_false_iff in Efull as [Ex|Ex];
            apply Z.eqb_neq in Ex; lia. }
        sstep Hrd. pose proof (sector_length _ _ _ Hok Hb) as Hbl.
        sstep (run_block_write (with_allocs s k) sec (overlay_at b (ofs mod 512) part) H6).
        apply (Hrest (overlay_at b (ofs mod 512) part) k true).
        -- apply (nth_byte_overlay b (ofs mod 512) part 0); lia.
        -- intros j Hj. destruct (nth_byte_overlay b (ofs mod 512) part j Hbl) as [_ ->]; [lia..|]. rewrite Hpl.
           change (disk (with_allocs s k)) with (disk s) in Hb. unfold sector_byte. rewrite Hb.
           destruct (Z.leb_spec (ofs mod 512) j), (Z.ltb_spec j (ofs mod 512 + c)); cbn [andb]; try done. apply Hpb. lia.
      * exists 0, (disk s), k. rewrite Z.add_0_r. split; [by destruct s|]. split; [by apply patched_refl|].
        split; [unfold avail; lia|]. intros Hm. discriminate (Hmok Hm).
Qed.

Lemma run_inode_read_at s a i size ofs :
  inodes s !! a = Some i -> disk_ok (disk s) -> extent_ok (disk s) (data i) -> 0 <= ofs ->
  exists n k, inode_read_at malloc_ok a size ofs s = Ret (slice (disk s) (data i) ofs n, with_allocs s k) /\
    0 <= n <= avail (data i) size ofs /\ ((forall j, malloc_ok j = true) -> n = avail (data i) size ofs).
Proof.
  intros Ha Hok Hext Ho. unfold inode_read_at.
  assert (Hr : read_inode a s = Ret (i, s)) by (unfold read_inode; by rewrite Ha). sstep Hr.
  by apply read_loop_spec.
Qed.

Lemma run_inode_write_at s a i buf size ofs :
  inodes s !! a = Some i -> disk_ok (disk s) -> extent_ok (disk s) (data i) -> 0 <= ofs ->
  deny_write_cnt i = 0 -> size <= Z.of_nat (length buf) ->
  exists n dk k, inode_write_at malloc_ok a buf size ofs s = Ret (n, with_allocs (with_disk s dk) k) /\
    patched (disk s) dk (data i) ofs n buf 0 /\ 0 <= n <= avail (data i) size ofs /\
    ((forall j, malloc_ok j = true) -> n = avail (data i) size ofs).
Proof.
  intros Ha Hok Hext Ho Hd Hb. unfold inode_write_at.
  assert (Hr : read_inode a s = Ret (i, s)) by (unfold read_inode; by rewrite Ha). sstep Hr.
  rewrite Hd. apply (write_loop_spec (Z.to_nat size) i buf size ofs false 0 s); (done || lia).
Qed.

(** ** What a write does to the bytes of inodes *)

Lemma patched_byte_at dk dk' d ofs n buf p :
  patched dk dk' d ofs n buf 0 -> 0 <= start d -> 0 <= p ->
  byte_at dk' d p = if (ofs <=? p) && (p <? ofs + n) then nth_byte buf (p - ofs) else byte_at dk d p.
Proof.
  intros (_ & _ & H) Hs Hp. unfold byte_at. pose proof (Z.mod_pos_bound p 512 ltac:(lia)).
  pose proof (Z.div_pos p 512 Hp ltac:(lia)). rewrite H by lia. pose proof (Z.div_mod p 512 ltac:(lia)).
  assert ((start d + p / 512 - start d) * 512 + p mod 512 = p) as -> by lia. by rewrite Z.add_0_l.
Qed.

(** The sectors of two inodes do not overlap. *)
Definition disjoint_extents (d d' : inode_disk) : Prop :=
  start d + (dlength d + 511) / 512 <= start d' \/ start d' + (dlength d' + 511) / 512 <= start d.

Lemma patched_other dk dk' d d' ofs n buf p :
  patched dk dk' d ofs n buf 0 -> disjoint_extents d d' -> 0 <= start d -> 0 <= start d' ->
  0 <= ofs -> 0 <= n -> ofs + n <= dlength d -> 0 <= p < dlength d' -> byte_at dk' d' p = byte_at dk d' p.
Proof.
  intros (_ & _ & H) Hdis Hs Hs' Ho Hn Hle Hp. unfold byte_at. pose proof (Z.mod_pos_bound p 512 ltac:(lia)).
  pose proof (Z.div_pos p 512 ltac:(lia) ltac:(lia)). rewrite H by lia. pose proof (Z.div_mod p 512 ltac:(lia)).
  set (q := (start d' + p / 512 - start d) * 512 + p mod 512).
  destruct (Z.leb_spec ofs q), (Z.ltb_spec q (ofs + n)); cbn [andb]; try done. exfalso. unfold q in *.
  pose proof (Z.div_mod (dlength d + 511) 512 ltac:(lia)). pose proof (Z.mod_pos_bound (dlength d + 511) 512 ltac:(lia)).
  pose proof (Z.div_mod (dlength d' + 511) 512 ltac:(lia)). pose proof (Z.mod_pos_bound (dlength d' + 511) 512 ltac:(lia)).
  destruct Hdis; lia.
Qed.

Lemma slice_written dk dk' d ofs n buf :
  patched dk dk' d ofs n buf 0 -> 0 <= start d -> 0 <= ofs -> 0 <= n <= Z.of_nat (length buf) ->
  slice dk' d ofs n = take (Z.to_nat n) buf.
Proof.
  intros H Hs Ho Hn. apply list_eq_same_length with (n := Z.to_nat n).
  - rewrite length_take. lia.
  - by rewrite slice_length by lia.
  - intros j x y Hj Hx Hy. rewrite <- (Nat2Z.id j) in Hx. rewrite slice_lookup in Hx by lia. injection Hx as <-.
    rewrite (patched_byte_at _ _ _ _ _ _ _ H) by lia. rewrite lookup_take_lt in Hy by lia.
    destruct (Z.leb_spec ofs (ofs + Z.of_nat j)), (Z.ltb_spec (ofs + Z.of_nat j) (ofs + n)); try lia. cbn [andb].
    unfold nth_byte. replace (Z.to_nat (ofs + Z.of_nat j - ofs)) with j by lia. by rewrite Hy.
Qed.
End data.

(** ** Theorems *)

(** C11: reading.  [inode_read_at] terminates and returns the bytes of the
    inode from the offset on: as many as were asked for and exist, or, when
    the allocation of the bounce buffer fails, a prefix of them.  The disk
    and the inodes are not changed. *)
Theorem inode_read_at_correct malloc_ok s a i size ofs :
  inodes s !! a = Some i -> disk_ok (disk s) -> extent_ok (disk s) (data i) -> 0 <= ofs ->
  exists n k, inode_read_at malloc_ok a size ofs s = Ret (slice (disk s) (data i) ofs n, with_allocs s k) /\
    0 <= n <= avail (data i) size ofs /\ ((forall j, malloc_ok j = true) -> n = avail (data i) size ofs).
Proof. apply run_inode_read_at. Qed.

(** C10: writing.  [inode_write_at] terminates; it writes as many of the
    bytes as fit before the end of the inode (or fewer, when the allocation
    of the bounce buffer fails), and changes exactly these bytes of the
    inode, no byte of an inode in other sectors, and nothing else of the
    state.  While writing is denied it writes nothing.  Reading the range
    back gives the bytes that were written. *)
Theorem inode_write_at_correct malloc_ok s a i buf size ofs :
  inodes s !! a = Some i -> disk_ok (disk s) -> extent_ok (disk s) (data i) -> 0 <= ofs ->
  size <= Z.of_nat (length buf) ->
  (deny_write_cnt i <> 0 -> inode_write_at malloc_ok a buf size ofs s = Ret (0, s)) /\
  (deny_write_cnt i = 0 ->
   exists n dk k, inode_write_at malloc_ok a buf size ofs s = Ret (n, with_allocs (with_disk s dk) k) /\
     0 <= n <= avail (data i) size ofs /\ ((forall j, malloc_ok j = true) -> n = avail (data i) size ofs) /\
     disk_ok dk /\ length dk = length (disk s) /\
     (forall p, 0 <= p -> byte_at dk (data i) p =
        if (ofs <=? p) && (p <? ofs + n) then nth_byte buf (p - ofs) else byte_at (disk s) (data i) p) /\
     (forall d' p, disjoint_extents (data i) d' -> 0 <= start d' -> 0 <= p < dlength d' ->
        byte_at dk d' p = byte_at (disk s) d' p) /\
     ((forall j, malloc_ok j = true) ->
      exists k', inode_read_at malloc_ok a n ofs (with_allocs (with_disk s dk) k) =
        Ret (take (Z.to_nat n) buf, with_allocs (with_disk s dk) k'))).
Proof.
  intros Ha Hok Hext Ho Hb. split.
  - intros Hd. unfold inode_write_at.
    assert (Hr : read_inode a s = Ret (i, s)) by (unfold read_inode; by rewrite Ha). sstep Hr.
    by destruct (Z.eqb_spec (deny_write_cnt i) 0).
  - intros Hd. destruct (run_inode_write_at malloc_ok s a i buf size ofs Ha Hok Hext Ho Hd Hb) as (n & dk & k & Hr & Hp & Hn & Hf).
    pose proof Hp as (Hl & Hk & _). pose proof Hext as (Hs & Hlen & _). exists n, dk, k. split; [done|].
    assert (Hle : n = 0 \/ ofs + n <= dlength (data i) /\ n <= size) by (unfold avail in Hn; lia).
    split; [done|]. split; [done|]. split; [done|]. split; [done|]. split_and!.
    + intros p Hpp. by apply (patched_byte_at (disk s)).
    + intros d' p Hdis Hs' Hp'. destruct Hle as [->|Hle].
      * unfold byte_at. destruct Hp as (_ & _ & Hp). pose proof (Z.mod_pos_bound p 512 ltac:(lia)).
        pose proof (Z.div_pos p 512 ltac:(lia) ltac:(lia)). rewrite Hp by lia. cbv zeta.
        destruct (Z.leb_spec ofs ((start d' + p / 512 - start (data i)) * 512 + p mod 512)),
          (Z.ltb_spec ((start d' + p / 512 - start (data i)) * 512 + p mod 512) (ofs + 0)); cbn [andb]; (done || lia).
      * apply (patched_other (disk s) dk (data i) d' ofs n buf); (done || lia).
    + intros Hm. destruct (run_inode_read_at malloc_ok (with_allocs (with_disk s dk) k) a i n ofs) as (m & k' & Hrd & _ & Hfull);
        [done|done|by apply (extent_ok_length (disk s))|done|]. specialize (Hfull Hm).
      assert (m = n) as -> by (rewrite Hfull; unfold avail in *; lia). exists k'. rewrite Hrd. do 2 f_equal.
      apply (slice_written (disk s)); (done || lia).
Qed.

(** A disk of four sectors and an inode of 700 bytes in the sectors 2 and 3. *)
Definition demo_disk : list (list Z) := replicate 4 (replicate 512 7).
Definition demo_fs : fs :=
  mkFs demo_disk {[ 16 := mkInode 1 1 false 0 (mkDisk 2 700 INODE_MAGIC) ]} [16] ∅ ∅ (mkBitmap 4 [15]) 0 1.

Lemma demo_disk_ok : disk_ok demo_disk /\ extent_ok demo_disk (mkDisk 2 700 INODE_MAGIC).
Proof. split; [split; [done|]|split; [done|split; [done|done]]]. by apply Forall_replicate. Qed.

Lemma inode_read_at_correct_witness :
  exists n k, inode_read_at (fun _ => true) 16 300 600 demo_fs = Ret (replicate 100 7, with_allocs demo_fs k) /\ n = 100.
Proof.
  destruct (inode_read_at_correct (fun _ => true) demo_fs 16 (mkInode 1 1 false 0 (mkDisk 2 700 INODE_MAGIC)) 300 600)
    as (n & k & H & _ & Hn); [reflexivity|apply demo_disk_ok|apply demo_disk_ok|lia|].
  exists n, k. rewrite (Hn (fun _ => eq_refl)) in *. split; [|reflexivity]. rewrite H. f_equal.
Defined.

Lemma inode_write_at_correct_witness :
  exists n dk k, inode_write_at (fun _ => true) 16 (replicate 300 9) 300 600 demo_fs =
    Ret (n, with_allocs (with_disk demo_fs dk) k) /\ n = 100 /\ byte_at dk (mkDisk 2 700 INODE_MAGIC) 650 = 9.
Proof.
  destruct (inode_write_at_correct (fun _ => true) demo_fs 16 (mkInode 1 1 false 0 (mkDisk 2 700 INODE_MAGIC))
    (replicate 300 9) 300 600) as [_ H]; [reflexivity|apply demo_disk_ok|apply demo_disk_ok|lia|done|].
  destruct (H eq_refl) as (n & dk & k & H1 & _ & H2 & _ & _ & H3 & _). specialize (H2 (fun _ => eq_refl)).
  exists n, dk, k. split; [exact H1|]. split; [rewrite H2; reflexivity|]. cbn [data] in H3. rewrite H3 by lia.
  rewrite H2. reflexivity.
Defined.
