(* ===== verification/FsDir.v ===== *)
(** * Directories

    A directory is an inode that holds entries of 20 bytes.  Here [lookup]
    and [dir_add] are shown to work on the abstract directory: the sequence
    of its slots, each free or holding a name and a sector. *)
From stdpp Require Import prelude list gmap.
From Stdlib Require Import ZArith Lia.
From S2P Require Import Prelude Bitmap Filesys FsData.
#[local] Open Scope Z_scope.

(** ** Slots *)

(** The string in an array of characters. *)
Fixpoint cname (f : list Z) : list Z :=
  match f with [] => [] | c :: f' => if c =? 0 then [] else c :: cname f' end.

Definition slot (e : list Z) : option (list Z * Z) :=
  if e_in_use e then Some (cname (e_name e), e_inode_sector e) else None.

Definition entry_cnt (d : inode_disk) : Z := dlength d / 20.

Definition entry (dk : list (list Z)) (d : inode_disk) (k : Z) : list Z := slice dk d (20 * k) 20.

Definition slots (dk : list (list Z)) (d : inode_disk) : list (option (list Z * Z)) :=
  map (fun k => slot (entry dk d k)) (seqZ 0 (entry_cnt d)).

(** The names of the entries in use end within their field. *)
Definition names_ok (dk : list (list Z)) (d : inode_disk) : Prop :=
  forall k, 0 <= k < entry_cnt d -> e_in_use (entry dk d k) = true -> 0 ∈ e_name (entry dk d k).

Definition has_name (name : list Z) (x : option (list Z * Z)) : bool :=
  match x with Some (n, _) => bool_decide (n = name) | None => false end.

(** The sector that a name stands for: that of the first slot with the name. *)
Fixpoint find_name (name : list Z) (l : list (option (list Z * Z))) : option Z :=
  match l with
  | [] => None
  | x :: l' => if has_name name x then snd <$> x else find_name name l'
  end.

(** The position of the first slot that satisfies a test. *)
Fixpoint first_slot (P : option (list Z * Z) -> bool) (l : list (option (list Z * Z))) : option nat :=
  match l with
  | [] => None
  | x :: l' => if P x then Some 0%nat else S <$> first_slot P l'
  end.

Definition is_free (x : option (list Z * Z)) : bool := match x with None => true | Some _ => false end.

(** A string of characters other than the null character. *)
Definition c_string (name : list Z) : Prop := Forall (fun c => c <> 0) name.

(** ** Lemmas *)

Lemma str_eq_spec name f :
  c_string name -> 0 ∈ f -> str_eq name f = Ret (bool_decide (cname f = name)).
Proof.
  intros Hn. revert f. induction Hn as [|c name Hc Hn IH]; intros f Hf.
  - destruct f as [|x f]; [by apply elem_of_nil in Hf|]. simpl. destruct (Z.eqb_spec x 0).
    + by rewrite bool_decide_true.
    + by rewrite bool_decide_false.
  - destruct f as [|x f]; [by apply elem_of_nil in Hf|]. cbn [str_eq cname].
    destruct (Z.eqb_spec c x) as [->|Hne].
    + destruct (Z.eqb_spec x 0); [done|]. apply elem_of_cons in Hf as [|Hf]; [done|]. rewrite IH by done. f_equal.
      apply bool_decide_ext. split; [by intros ->|by intros [= ->]].
    + destruct (Z.eqb_spec x 0); rewrite bool_decide_false; congruence.
Qed.

Lemma entry_length dk d k : length (entry dk d k) = 20%nat.
Proof. unfold entry. by rewrite slice_length. Qed.

Lemma slots_length dk d : 0 <= dlength d -> length (slots dk d) = Z.to_nat (entry_cnt d).
Proof. intros H. unfold slots. by rewrite length_map, length_seqZ. Qed.

Lemma slots_lookup dk d k :
  0 <= k < entry_cnt d -> slots dk d !! Z.to_nat k = Some (slot (entry dk d k)).
Proof.
  intros Hk. unfold slots. rewrite list_lookup_fmap, lookup_seqZ_lt by lia. simpl. do 3 f_equal. lia.
Qed.

Lemma slots_drop dk d k :
  0 <= k < entry_cnt d ->
  drop (Z.to_nat k) (slots dk d) = slot (entry dk d k) :: drop (Z.to_nat (k + 1)) (slots dk d).
Proof.
  intros Hk. rewrite (drop_S _ (slot (entry dk d k))) by (by apply slots_lookup).
  do 2 f_equal. lia.
Qed.

Lemma overlay_all e b : length e = length b -> overlay e b = b.
Proof. intros H. unfold overlay. rewrite drop_ge by lia. apply app_nil_r. Qed.

Section dir.
Context (malloc_ok : nat -> bool).
(** The directory: an inode whose data is on the disk. *)
Context (s0 : fs) (ino : Z) (i : inode).
Context (Hino : inodes s0 !! ino = Some i) (Hdk : disk_ok (disk s0)) (Hext : extent_ok (disk s0) (data i)).
Context (Hnames : names_ok (disk s0) (data i)).

#[local] Abbreviation dk := (disk s0).
#[local] Abbreviation d := (data i).

(** No allocation fails. *)
#[local] Abbreviation enough := (forall j, malloc_ok j = true).

(** An entry that is read completely is in the directory; with memory enough
    every entry of the directory is. *)
Lemma run_read_entry e ofs k0 :
  length e = 20%nat -> 0 <= ofs ->
  exists k e' ok, read_entry malloc_ok ino e ofs (with_allocs s0 k0) = Ret ((e', ok), with_allocs s0 k) /\ length e' = 20%nat /\
    (ok = true -> ofs + 20 <= dlength d /\ e' = slice dk d ofs 20) /\ (enough -> ok = bool_decide (ofs + 20 <= dlength d)).
Proof.
  intros He Ho. unfold read_entry.
  destruct (run_inode_read_at malloc_ok (with_allocs s0 k0) ino i ENTRY_SIZE ofs Hino Hdk Hext Ho) as (n & k & Hr & Hn & Hf).
  sstep Hr. exists k. eexists _, _. unfold sret. change (disk (with_allocs s0 k0)) with dk in *.
  assert (Hl : Z.of_nat (length (slice dk d ofs n)) = n) by (rewrite slice_length; lia).
  rewrite Hl. split; [done|]. unfold avail, ENTRY_SIZE in *. split; [|split].
  - unfold overlay. rewrite length_app, length_drop. lia.
  - intros ->%Z.eqb_eq. split; [lia|]. apply overlay_all. by rewrite slice_length.
  - intros Hmem. specialize (Hf Hmem). destruct (Z.eqb_spec n 20); [rewrite bool_decide_true|rewrite bool_decide_false]; (done || lia).
Qed.

Lemma entry_fits k : 0 <= k -> (20 * k + 20 <= dlength d <-> k < entry_cnt d).
Proof.
  intros Hk. unfold entry_cnt. pose proof (Z.div_mod (dlength d) 20 ltac:(lia)). pose proof (Z.mod_pos_bound (dlength d) 20 ltac:(lia)). lia.
Qed.

(** The loop of [lookup] from slot [k] on: it finds what there is, or
    nothing when an allocation fails. *)
Lemma lookup_loop_spec fuel name e k k0 :
  c_string name -> length e = 20%nat -> 0 <= k <= entry_cnt d -> entry_cnt d <= k + Z.of_nat fuel ->
  let found := match first_slot (has_name name) (drop (Z.to_nat k) (slots dk d)) with
               | Some j => Some (entry dk d (k + Z.of_nat j), 20 * (k + Z.of_nat j))
               | None => None
               end in
  exists k1 r, lookup_loop malloc_ok fuel ino name e (20 * k) (with_allocs s0 k0) = Ret (r, with_allocs s0 k1) /\
    (r = found \/ r = None) /\ (enough -> r = found).
Proof.
  intros Hn. revert e k k0. induction fuel as [|fuel IH]; intros e k k0 He Hk Hf found; cbn [lookup_loop];
    destruct (run_read_entry e (20 * k) k0 He ltac:(lia)) as (k1 & e1 & ok & Hr & He1 & Hsl & Hen); sstep Hr; cbv iota.
  - assert (found = None) as -> by (unfold found; by rewrite drop_ge by (rewrite slots_length by (destruct Hext as (_ & ? & _); lia); lia)).
    destruct ok; [|by exists k1, None; auto]. exfalso. destruct (Hsl eq_refl) as [Hfit%entry_fits _]; lia.
  - destruct (decide (k < entry_cnt d)) as [Hlt|Hge].
    2:{ assert (found = None) as -> by (unfold found; by rewrite drop_ge by (rewrite slots_length by (destruct Hext as (_ & ? & _); lia); lia)).
        destruct ok; [|by exists k1, None; auto]. exfalso. destruct (Hsl eq_refl) as [Hfit%entry_fits _]; lia. }
    assert (Hfit : 20 * k + 20 <= dlength d) by (apply entry_fits; lia).
    destruct ok; [|exists k1, None; split; [done|]; split; [by right|]; intros Hm; specialize (Hen Hm); by rewrite bool_decide_true in Hen].
    destruct (Hsl eq_refl) as [_ ->]. fold (entry dk d k). unfold found. rewrite slots_drop by lia. cbn [first_slot].
    assert (Heq : (if e_in_use (entry dk d k) then lift (str_eq name (e_name (entry dk d k))) else sret false) (with_allocs s0 k1) =
      Ret (has_name name (slot (entry dk d k)), with_allocs s0 k1)).
    { unfold slot. destruct (e_in_use (entry dk d k)) eqn:Eu; [|done]. unfold lift.
      rewrite str_eq_spec; [done|done|]. apply Hnames; [lia|done]. }
    sstep Heq. destruct (has_name name (slot (entry dk d k))).
    + exists k1. eexists. split; [done|]. rewrite Z.add_0_r. auto.
    + replace (20 * k + ENTRY_SIZE) with (20 * (k + 1)) by (unfold ENTRY_SIZE; lia).
      destruct (IH (entry dk d k) (k + 1) k1) as (k2 & r & Hrun & Hres); [apply entry_length|lia|lia|].
      exists k2, r. rewrite Hrun. split; [done|]. cbv zeta in Hres. revert Hres. clear found.
      destruct (first_slot (has_name name) (drop (Z.to_nat (k + 1)) (slots dk d))); cbn [fmap option_fmap option_map]; [|done].
      by replace (k + Z.of_nat (S n)) with (k + 1 + Z.of_nat n) by lia.
Qed.

(** The search for a free slot ends at a slot or at the end. *)
Lemma slot_loop_any fuel e k k0 :
  length e = 20%nat -> 0 <= k <= entry_cnt d -> entry_cnt d <= k + Z.of_nat fuel ->
  exists k1 e' j, slot_loop malloc_ok fuel ino e (20 * k) (with_allocs s0 k0) = Ret (e', 20 * j, with_allocs s0 k1) /\ length e' = 20%nat /\ 0 <= j.
Proof.
  revert e k k0. induction fuel as [|fuel IH]; intros e k k0 He Hk Hf; cbn [slot_loop];
    destruct (run_read_entry e (20 * k) k0 He ltac:(lia)) as (k1 & e1 & ok & Hr & He1 & Hsl & _); sstep Hr; cbv iota;
    (destruct ok; [|exists k1, e1, k; split; [done|]; split; [done|lia]]); destruct (negb (e_in_use e1)); try (exists k1, e1, k; split; [done|]; split; [done|lia]).
  - exfalso. destruct (Hsl eq_refl) as [Hfit%entry_fits _]; lia.
  - destruct (Hsl eq_refl) as [Hfit%entry_fits _]; [|lia]. replace (20 * k + ENTRY_SIZE) with (20 * (k + 1)) by (unfold ENTRY_SIZE; lia).
    apply IH; (done || lia).
Qed.

(** With memory enough it is the first free one. *)
Lemma slot_loop_spec fuel e k k0 :
  enough -> length e = 20%nat -> 0 <= k <= entry_cnt d -> entry_cnt d <= k + Z.of_nat fuel ->
  exists k1 e', slot_loop malloc_ok fuel ino e (20 * k) (with_allocs s0 k0) =
    Ret (e', match first_slot is_free (drop (Z.to_nat k) (slots dk d)) with
             | Some j => 20 * (k + Z.of_nat j)
             | None => 20 * entry_cnt d
             end, with_allocs s0 k1) /\ length e' = 20%nat.
Proof.
  intros Hm. revert e k k0. induction fuel as [|fuel IH]; intros e k k0 He Hk Hf; cbn [slot_loop];
    destruct (run_read_entry e (20 * k) k0 He ltac:(lia)) as (k1 & e1 & ok & Hr & He1 & Hsl & Hen); sstep Hr; cbv iota; rewrite (Hen Hm) in *.
  - assert (bool_decide (20 * k + 20 <= dlength d) = false) as ->
      by (apply bool_decide_eq_false; rewrite entry_fits; lia).
    rewrite drop_ge by (rewrite slots_length by (destruct Hext as (_ & ? & _); lia); lia). exists k1, e1. cbn [first_slot].
    replace (entry_cnt d) with k by lia. done.
  - destruct (decide (k < entry_cnt d)) as [Hlt|Hge].
    + assert (Hfit : 20 * k + 20 <= dlength d) by (apply entry_fits; lia). rewrite bool_decide_true in * by done. cbv iota.
      destruct (Hsl eq_refl) as [_ ->]. fold (entry dk d k). rewrite slots_drop by lia. cbn [first_slot].
      assert (is_free (slot (entry dk d k)) = negb (e_in_use (entry dk d k))) as ->
        by (unfold slot; by destruct (e_in_use (entry dk d k))).
      destruct (negb (e_in_use (entry dk d k))).
      * exists k1. eexists. unfold sret. rewrite Z.add_0_r. split; [done|apply entry_length].
      * replace (20 * k + ENTRY_SIZE) with (20 * (k + 1)) by (unfold ENTRY_SIZE; lia).
        destruct (IH (entry dk d k) (k + 1) k1) as (k2 & e2 & Hrun & He2); [apply entry_length|lia|lia|].
        exists k2, e2. rewrite Hrun. split; [|done]. destruct (first_slot _ _); [|done]. cbn [fmap option_fmap option_map].
        do 3 f_equal. lia.
    + assert (bool_decide (20 * k + 20 <= dlength d) = false) as ->
        by (apply bool_decide_eq_false; rewrite entry_fits; lia).
      rewrite drop_ge by (rewrite slots_length by (destruct Hext as (_ & ? & _); lia); lia). exists k1, e1. cbn [first_slot].
      replace (entry_cnt d) with k by lia. done.
Qed.

(** ** Searching a directory *)

Context (dd p : Z) (Hdd : dd <> NULL) (Hdir : dirs s0 !! dd = Some (mkDir ino p)).

Lemma entry_cnt_nonneg : 0 <= entry_cnt d.
Proof. apply Z.div_pos; [|lia]. destruct Hext as (_ & ? & _). lia. Qed.

Lemma run_read_dir k0 : read_dir dd (with_allocs s0 k0) = Ret (mkDir ino p, with_allocs s0 k0).
Proof. unfold read_dir. change (dirs (with_allocs s0 k0)) with (dirs s0). by rewrite Hdir. Qed.

Lemma run_dir_fuel k0 : dir_fuel ino (with_allocs s0 k0) = Ret (Z.to_nat (entry_cnt d), with_allocs s0 k0).
Proof.
  unfold dir_fuel, sbind, read_inode. change (inodes (with_allocs s0 k0)) with (inodes s0). by rewrite Hino.
Qed.

Lemma run_dir_find_any junk name k0 :
  c_string name -> length junk = 20%nat ->
  let found := match first_slot (has_name name) (slots dk d) with
               | Some j => Some (entry dk d (Z.of_nat j), 20 * Z.of_nat j)
               | None => None
               end in
  exists k1 r, lookup malloc_ok junk dd name (with_allocs s0 k0) = Ret (r, with_allocs s0 k1) /\
    (r = found \/ r = None) /\ (enough -> r = found).
Proof.
  intros Hn Hj. unfold lookup. sassert by (by destruct (Z.eqb_spec dd NULL)). sstep (run_read_dir k0).
  cbn [dinode]. sstep (run_dir_fuel k0). pose proof entry_cnt_nonneg.
  apply (lookup_loop_spec (Z.to_nat (entry_cnt d)) name junk 0 k0); (done || lia).
Qed.

Lemma run_dir_find junk name k0 :
  enough -> c_string name -> length junk = 20%nat ->
  exists k1, lookup malloc_ok junk dd name (with_allocs s0 k0) =
    Ret (match first_slot (has_name name) (slots dk d) with
         | Some j => Some (entry dk d (Z.of_nat j), 20 * Z.of_nat j)
         | None => None
         end, with_allocs s0 k1).
Proof.
  intros Hm Hn Hj. destruct (run_dir_find_any junk name k0 Hn Hj) as (k1 & r & Hr & _ & Hf). exists k1. by rewrite Hr, Hf.
Qed.

(** ** Adding an entry *)

(** The buffer that [dir_add] writes. *)
Definition new_entry (e name : list Z) (sec : Z) : list Z :=
  set_inode_sector (set_name (set_in_use e true) name) sec.

Lemma word_le32 v rest : 0 <= v < two32 -> word (le32 v ++ rest) = v.
Proof.
  intros Hv. unfold word, le32. cbn [app]. unfold two32 in Hv.
  pose proof (Z.div_mod v 256 ltac:(lia)). pose proof (Z.div_mod (v / 256) 256 ltac:(lia)).
  pose proof (Z.div_mod (v / 65536) 256 ltac:(lia)).
  assert (E1 : v / 256 / 256 = v / 65536) by (by rewrite Z.div_div by lia).
  assert (E2 : v / 65536 / 256 = v / 16777216) by (by rewrite Z.div_div by lia).
  rewrite (Z.mod_small (v / 16777216) 256); [lia|]. split; [apply Z.div_pos; lia|apply Z.div_lt_upper_bound; lia].
Qed.

Lemma cname_app name rest : c_string name -> cname (name ++ 0 :: rest) = name.
Proof.
  induction 1 as [|c name Hc Hn IH]; [done|]. cbn [app cname]. destruct (Z.eqb_spec c 0); [done|]. by rewrite IH.
Qed.

Lemma new_entry_slot e name sec :
  length e = 20%nat -> c_string name -> (length name <= 14)%nat -> 0 <= sec < two32 ->
  length (new_entry e name sec) = 20%nat /\ slot (new_entry e name sec) = Some (name, sec) /\
  0 ∈ e_name (new_entry e name sec).
Proof.
  intros He Hn Hl Hs. unfold new_entry, set_inode_sector, set_name. set (e1 := set_in_use e true).
  assert (He1 : length e1 = 20%nat) by (unfold e1, set_in_use; by rewrite length_insert).
  rewrite (take_ge name 14) by lia. unfold overlay_at. change (Z.to_nat 4) with 4%nat. rewrite length_app. cbn [length].
  unfold overlay. change (length (le32 sec)) with 4%nat.
  rewrite drop_app_ge by (rewrite length_take; lia). rewrite length_take, He1. change (4 - 4 `min` 20)%nat with 0%nat.
  rewrite drop_0. set (rest := drop (4 + (length name + 1)) e1).
  assert (Hrl : length rest = (15 - length name)%nat) by (unfold rest; rewrite length_drop; lia).
  assert (Hnm : e_name (le32 sec ++ (name ++ [0]) ++ rest) = name ++ 0 :: take (14 - length name) rest).
  { unfold e_name. change (drop 4 (le32 sec ++ (name ++ [0]) ++ rest)) with ((name ++ [0]) ++ rest).
    rewrite <- app_assoc. cbn [app].
    rewrite take_app_ge by lia. f_equal. replace (15 - length name)%nat with (S (14 - length name)) by lia. done. }
  split; [rewrite !length_app, Hrl; cbn [length]; change (length (le32 sec)) with 4%nat; lia|].
  split; [|rewrite Hnm; set_solver].
  unfold slot.
  assert (Hu : e_in_use (le32 sec ++ (name ++ [0]) ++ rest) = true).
  { unfold e_in_use. rewrite lookup_app_r by (change (length (le32 sec)) with 4%nat; lia). change (length (le32 sec)) with 4%nat.
    rewrite lookup_app_r by (rewrite length_app; cbn [length]; lia). rewrite length_app. cbn [length].
    unfold rest. rewrite lookup_drop. replace (4 + (length name + 1) + (19 - 4 - (length name + 1)))%nat with 19%nat by lia.
    unfold e1, set_in_use. rewrite list_lookup_insert_eq by lia. done. }
  rewrite Hu, Hnm, cname_app by done. unfold e_inode_sector. by rewrite word_le32.
Qed.

(** The entries after a write at slot [k]. *)
Lemma entry_patched dk' k e n k' :
  patched dk dk' d (20 * k) n e 0 -> 0 <= k -> 0 <= k' < entry_cnt d -> length e = 20%nat ->
  (n = 20 -> k < entry_cnt d) -> 0 <= n <= 20 -> (n < 20 -> entry_cnt d <= k) ->
  entry dk' d k' = if k' =? k then e else entry dk d k'.
Proof.
  intros Hp Hk Hk' He Hn1 Hn Hn2. destruct Hext as (Hst & _). unfold entry.
  apply list_eq_same_length with (n := 20%nat).
  - destruct (k' =? k); [done|]. by rewrite slice_length.
  - by rewrite slice_length.
  - intros j x y Hj Hx Hy. rewrite <- (Nat2Z.id j) in Hx. rewrite slice_lookup in Hx by lia. injection Hx as <-.
    rewrite (patched_byte_at _ _ _ _ _ _ _ Hp) by lia. destruct (Z.eqb_spec k' k) as [->|Hne].
    + assert (n = 20) as -> by lia. destruct (Z.leb_spec (20 * k) (20 * k + Z.of_nat j)); [|lia].
      destruct (Z.ltb_spec (20 * k + Z.of_nat j) (20 * k + 20)); [|lia]. cbn [andb]. unfold nth_byte.
      replace (Z.to_nat (20 * k + Z.of_nat j - 20 * k)) with j by lia. by rewrite Hy.
    + rewrite <- (Nat2Z.id j) in Hy. rewrite slice_lookup in Hy by lia. injection Hy as <-.
      destruct (Z.leb_spec (20 * k) (20 * k' + Z.of_nat j)), (Z.ltb_spec (20 * k' + Z.of_nat j) (20 * k + n)); cbn [andb]; try done. lia.
Qed.

Lemma slots_patched_other dk' k e n :
  patched dk dk' d (20 * k) n e 0 -> 0 <= k -> n <= 20 -> forall j, j <> Z.to_nat k -> slots dk' d !! j = slots dk d !! j.
Proof.
  intros Hp Hk Hn j Hj. destruct Hext as (Hst & Hlen & _). destruct (decide (Z.of_nat j < entry_cnt d)) as [Hlt|Hge].
  2:{ rewrite !lookup_ge_None_2; [done|rewrite slots_length by lia; lia..]. }
  rewrite <- (Nat2Z.id j), !slots_lookup by lia. f_equal. f_equal. unfold entry, slice. apply list_fmap_ext.
  intros m q Hq. apply lookup_seqZ in Hq as [-> Hm]. rewrite (patched_byte_at _ _ _ _ _ _ _ Hp) by lia.
  destruct (Z.leb_spec (20 * k) (20 * Z.of_nat j + Z.of_nat m)), (Z.ltb_spec (20 * Z.of_nat j + Z.of_nat m) (20 * k + n)); cbn [andb]; try done. lia.
Qed.

Lemma slots_patched dk' k e n :
  patched dk dk' d (20 * k) n e 0 -> 0 <= k -> length e = 20%nat ->
  (n = 20 -> k < entry_cnt d) -> 0 <= n <= 20 -> (n < 20 -> entry_cnt d <= k) ->
  slots dk' d = <[Z.to_nat k := slot e]> (slots dk d).
Proof.
  intros Hp Hk He Hn1 Hn Hn2. destruct Hext as (_ & Hlen & _).
  apply list_eq_same_length with (n := Z.to_nat (entry_cnt d)).
  - by rewrite length_insert, slots_length by lia.
  - by rewrite slots_length by lia.
  - intros j x y Hj Hx Hy. rewrite <- (Nat2Z.id j) in Hx, Hy. rewrite slots_lookup in Hx by lia. injection Hx as <-.
    rewrite (entry_patched dk' k e n) by (done || lia). destruct (Z.eqb_spec (Z.of_nat j) k) as [<-|Hne].
    + rewrite list_lookup_insert_eq in Hy by (rewrite slots_length by lia; lia). by injection Hy.
    + rewrite list_lookup_insert_ne in Hy by lia. rewrite slots_lookup in Hy by lia. by injection Hy.
Qed.

Lemma first_slot_some P l j : first_slot P l = Some j -> (j < length l)%nat /\ exists x, l !! j = Some x /\ P x = true.
Proof.
  revert j. induction l as [|x l IH]; intros j; [done|]. cbn [first_slot]. destruct (P x) eqn:E.
  - intros [= <-]. split; [simpl; lia|]. exists x. done.
  - destruct (first_slot P l) as [j'|]; [|done]. intros [= <-]. destruct (IH j' eq_refl) as (? & y & ? & ?).
    split; [simpl; lia|]. exists y. done.
Qed.

(** [dir_add], also when allocations fail: at most one slot changes. *)
Lemma run_dir_add_any junk name sec k0 :
  c_string name -> length junk = 20%nat -> 0 <= sec < two32 ->
  exists k1 dk' b, dir_add malloc_ok junk dd name sec (with_allocs s0 k0) = Ret (b, with_allocs (with_disk s0 dk') k1) /\
    disk_ok dk' /\ length dk' = length dk /\ (exists j, forall j', j' <> j -> slots dk' d !! j' = slots dk d !! j') /\
    (deny_write_cnt i <> 0 -> b = false /\ dk' = dk).
Proof.
  intros Hn Hj Hs. assert (Hself : forall k, with_allocs s0 k = with_allocs (with_disk s0 dk) k) by done.
  assert (Hsame : exists j, forall j', j' <> j -> slots dk d !! j' = slots dk d !! j') by (by exists 0%nat).
  unfold dir_add. sassert by (by destruct (Z.eqb_spec dd NULL)). unfold NAME_MAX.
  destruct (_ || _) eqn:El; [exists k0, dk, false; rewrite <- Hself; by split_and!|]. apply orb_false_iff in El as [El1%Z.eqb_neq El2%Z.ltb_ge].
  destruct (run_dir_find_any junk name k0 Hn Hj) as (k1 & r & Hlk & _). sstep Hlk.
  destruct r as [[e0 o0]|]; [exists k1, dk, false; rewrite <- Hself; by split_and!|].
  sstep (run_read_dir k1). cbn [dinode]. sstep (run_dir_fuel k1). pose proof entry_cnt_nonneg as Hcnt.
  destruct (slot_loop_any (Z.to_nat (entry_cnt d)) junk 0 k1 Hj ltac:(lia) ltac:(lia)) as (k2 & e & j & Hsl & He & Hj0).
  change (20 * 0) with 0 in Hsl. sstep Hsl. cbv iota. fold (new_entry e name sec).
  destruct (new_entry_slot e name sec He Hn ltac:(lia) Hs) as (Hel & _).
  destruct (decide (deny_write_cnt i = 0)) as [Hdeny|Hdeny].
  - destruct (run_inode_write_at malloc_ok (with_allocs s0 k2) ino i (new_entry e name sec) ENTRY_SIZE (20 * j))
      as (n & dk' & k3 & Hw & Hp & Hnr & _); [done|done|done|lia|done|rewrite Hel; done|].
    change (disk (with_allocs s0 k2)) with dk in Hp. sstep Hw. exists k3, dk', (n =? ENTRY_SIZE). split; [done|]. pose proof Hp as (Hl' & Hok' & _).
    split_and!; try done. exists (Z.to_nat j). apply (slots_patched_other dk' j (new_entry e name sec) n Hp Hj0). unfold avail, ENTRY_SIZE in Hnr. lia.
  - assert (Hw : inode_write_at malloc_ok ino (new_entry e name sec) ENTRY_SIZE (20 * j) (with_allocs s0 k2) = Ret (0, with_allocs s0 k2)).
    { unfold inode_write_at. assert (Hr : read_inode ino (with_allocs s0 k2) = Ret (i, with_allocs s0 k2))
        by (unfold read_inode; change (inodes (with_allocs s0 k2)) with (inodes s0); by rewrite Hino).
      sstep Hr. by destruct (Z.eqb_spec (deny_write_cnt i) 0). }
    sstep Hw. exists k2, dk, false. rewrite <- Hself. by split_and!.
Qed.

(** [dir_add] of a valid name that is not in the directory. *)
Lemma run_dir_add junk name sec k0 :
  enough -> c_string name -> (0 < length name <= 14)%nat -> length junk = 20%nat -> 0 <= sec < two32 ->
  deny_write_cnt i = 0 -> first_slot (has_name name) (slots dk d) = None ->
  exists k1 dk' b, dir_add malloc_ok junk dd name sec (with_allocs s0 k0) = Ret (b, with_allocs (with_disk s0 dk') k1) /\
    disk_ok dk' /\ length dk' = length dk /\ names_ok dk' d /\
    match first_slot is_free (slots dk d) with
    | Some j => b = true /\ slots dk' d = <[j := Some (name, sec)]> (slots dk d)
    | None => b = false /\ slots dk' d = slots dk d
    end.
Proof.
  intros Hmem Hn Hl Hj Hs Hdeny Hno. unfold dir_add. sassert by (by destruct (Z.eqb_spec dd NULL)).
  unfold NAME_MAX. destruct (Z.eqb_spec (Z.of_nat (length name)) 0) as [|_]; [lia|].
  destruct (Z.ltb_spec 14 (Z.of_nat (length name))); [lia|]. cbn [orb].
  destruct (run_dir_find junk name k0 Hmem Hn Hj) as (k1 & Hlk). rewrite Hno in Hlk. sstep Hlk.
  sstep (run_read_dir k1). cbn [dinode]. sstep (run_dir_fuel k1). pose proof entry_cnt_nonneg as Hcnt.
  destruct (slot_loop_spec (Z.to_nat (entry_cnt d)) junk 0 k1 Hmem Hj ltac:(lia) ltac:(lia)) as (k2 & e & Hsl & He).
  change (20 * 0) with 0 in Hsl. change (drop (Z.to_nat 0) (slots dk d)) with (slots dk d) in Hsl. sstep Hsl. cbv iota.
  fold (new_entry e name sec). destruct (new_entry_slot e name sec He Hn ltac:(lia) Hs) as (Hel & Hes & Hez).
  set (ofs := match first_slot is_free (slots dk d) with Some j => 20 * (0 + Z.of_nat j) | None => 20 * entry_cnt d end) in *.
  set (kk := match first_slot is_free (slots dk d) with Some j => Z.of_nat j | None => entry_cnt d end).
  assert (Hofs : ofs = 20 * kk) by (unfold ofs, kk; destruct (first_slot is_free (slots dk d)); lia).
  assert (Hkk : 0 <= kk) by (unfold kk; destruct (first_slot is_free (slots dk d)); lia).
  destruct (run_inode_write_at malloc_ok (with_allocs s0 k2) ino i (new_entry e name sec) ENTRY_SIZE ofs)
    as (n & dk' & k3 & Hw & Hp & Hnr & Hfull); [done|done|done|lia|done|rewrite Hel; done|].
  specialize (Hfull Hmem). change (disk (with_allocs s0 k2)) with dk in Hp. sstep Hw.
  exists k3, dk', (n =? ENTRY_SIZE). split; [done|]. pose proof Hp as (Hl' & Hok' & _).
  split; [done|]. split; [done|]. rewrite Hofs in Hp, Hfull. unfold avail, ENTRY_SIZE in Hfull. pose proof (entry_fits kk Hkk) as Hfit.
  assert (Hn20 : 0 <= n <= 20) by lia. assert (Hc1 : n = 20 -> kk < entry_cnt d) by lia.
  assert (Hc2 : n < 20 -> entry_cnt d <= kk) by lia.
  split.
  { intros k Hk. rewrite (entry_patched dk' kk (new_entry e name sec) n k Hp Hkk Hk Hel Hc1 Hn20 Hc2).
    destruct (k =? kk); [done|]. by apply Hnames. }
  rewrite (slots_patched dk' kk (new_entry e name sec) n Hp Hkk Hel Hc1 Hn20 Hc2), Hes.
  unfold kk in *. destruct (first_slot is_free (slots dk d)) as [j|] eqn:Ef.
  - apply first_slot_some in Ef as [Hjl _]. rewrite slots_length in Hjl by (destruct Hext as (_ & ? & _); lia).
    split; [|by rewrite Nat2Z.id]. unfold ENTRY_SIZE. apply Z.eqb_eq. lia.
  - split; [unfold ENTRY_SIZE; apply Z.eqb_neq; lia|]. apply list_insert_ge.
    rewrite slots_length by (destruct Hext as (_ & ? & _); lia). lia.
Qed.
End dir.

(** ** The map that a directory stands for *)

Lemma find_name_none name l : first_slot (has_name name) l = None <-> find_name name l = None.
Proof.
  induction l as [|x l IH]; [done|]. cbn [first_slot find_name]. destruct (has_name name x) eqn:E.
  - destruct x as [[? ?]|]; done.
  - destruct (first_slot _ l), (find_name name l); simpl; try done; destruct IH; (split; [done|]); intros; (done || naive_solver).
Qed.

Lemma find_name_insert name sec j l name' :
  (j < length l)%nat -> l !! j = Some None -> find_name name l = None ->
  find_name name' (<[j := Some (name, sec)]> l) = if decide (name' = name) then Some sec else find_name name' l.
Proof.
  revert j. induction l as [|x l IH]; intros j Hj Hl Hno; [simpl in Hj; lia|].
  destruct j as [|j]; cbn [list_insert insert].
  - injection Hl as ->. change (<[0%nat := Some (name, sec)]> (None :: l)) with (Some (name, sec) :: l). cbn [find_name has_name].
    destruct (decide (name' = name)) as [->|Hne]; [by rewrite bool_decide_true|]. by rewrite bool_decide_false by congruence.
  - change (<[S j := Some (name, sec)]> (x :: l)) with (x :: <[j := Some (name, sec)]> l). cbn [find_name] in *.
    destruct (has_name name x) eqn:E; [destruct x as [[? ?]|]; done|].
    destruct (has_name name' x) eqn:E'.
    + destruct (decide (name' = name)) as [->|]; [congruence|done].
    + apply IH; [simpl in Hj; lia|done|done].
Qed.

Lemma find_name_first name l :
  find_name name l = match first_slot (has_name name) l with
                     | Some j => match l !! j with Some (Some (_, sec)) => Some sec | _ => None end
                     | None => None
                     end.
Proof.
  induction l as [|x l IH]; [done|]. cbn [find_name first_slot]. destruct (has_name name x) eqn:E.
  - by destruct x as [[? ?]|].
  - rewrite IH. by destruct (first_slot (has_name name) l).
Qed.

(** An open directory: [dd] is a [struct dir] for the inode at [ino], whose
    entries are well formed. *)
Record open_dir (s : fs) (dd ino : Z) (i : inode) : Prop := mkOpenDir {
  od_dir : dd <> NULL /\ exists p, dirs s !! dd = Some (mkDir ino p);
  od_inode : inodes s !! ino = Some i;
  od_disk : disk_ok (disk s);
  od_extent : extent_ok (disk s) (data i);
  od_names : names_ok (disk s) (data i)
}.

Lemma with_allocs_same s : with_allocs s (allocs s) = s.
Proof. by destruct s. Qed.

(** ** Theorems *)

(** Looking up a name.  With enough memory, [lookup] terminates and
    finds the entry exactly when the directory maps the name to a sector, and
    the entry it returns holds this sector; nothing but the count of
    allocations changes. *)
Theorem dir_lookup_correct malloc_ok junk s dd ino i name :
  (forall j, malloc_ok j = true) -> open_dir s dd ino i -> c_string name -> length junk = 20%nat ->
  exists r k, lookup malloc_ok junk dd name s = Ret (r, with_allocs s k) /\
    match r with
    | Some (e, ofs) => find_name name (slots (disk s) (data i)) = Some (e_inode_sector e) /\
        slots (disk s) (data i) !! Z.to_nat (ofs / 20) = Some (Some (name, e_inode_sector e))
    | None => find_name name (slots (disk s) (data i)) = None
    end.
Proof.
  intros Hm [[Hnn [p Hdir]] Hino Hdk Hext Hnames] Hn Hj.
  destruct (run_dir_find malloc_ok s ino i Hino Hdk Hext Hnames dd p Hnn Hdir junk name (allocs s) Hm Hn Hj) as (k & Hr).
  rewrite with_allocs_same in Hr. rewrite Hr. eexists _, k. split; [done|]. rewrite find_name_first.
  destruct (first_slot (has_name name) (slots (disk s) (data i))) as [j|] eqn:E; [|done].
  apply first_slot_some in E as (Hjl & x & Hx & Hp). rewrite slots_length in Hjl by (destruct Hext as (_ & ? & _); lia).
  assert (Hsl : slots (disk s) (data i) !! j = Some (slot (entry (disk s) (data i) (Z.of_nat j))))
    by (rewrite <- (slots_lookup (disk s) (data i) (Z.of_nat j)) by lia; by rewrite Nat2Z.id).
  rewrite Z.mul_comm, Z.div_mul, Nat2Z.id by lia. rewrite Hsl in *. injection Hx as <-.
  unfold has_name, slot in *. destruct (e_in_use _); [|done]. apply bool_decide_eq_true in Hp. by rewrite Hp.
Qed.

(** [dir_add] with memory enough, on a directory that may be written. *)
Lemma dir_add_enough malloc_ok junk s dd ino i name sec :
  (forall j, malloc_ok j = true) -> open_dir s dd ino i -> c_string name -> length junk = 20%nat ->
  0 <= sec < two32 -> deny_write_cnt i = 0 ->
  exists b k dk', dir_add malloc_ok junk dd name sec s = Ret (b, with_allocs (with_disk s dk') k) /\
    open_dir (with_disk s dk') dd ino i /\
    let old := slots (disk s) (data i) in
    let new := slots dk' (data i) in
    if bool_decide (0 < length name <= 14)%nat && bool_decide (find_name name old = None)
         && bool_decide (is_Some (first_slot is_free old))
    then b = true /\ forall name', find_name name' new = if decide (name' = name) then Some sec else find_name name' old
    else b = false /\ new = old.
Proof.
  intros Hm Hod Hn Hj Hs Hdeny. pose proof Hod as [[Hnn [p Hdir]] Hino Hdk Hext Hnames].
  assert (Hself : forall k, with_allocs s k = with_allocs (with_disk s (disk s)) k) by done.
  destruct (bool_decide_reflect (0 < length name <= 14)%nat) as [Hl|Hl]; cbn [andb].
  2: { exists false, (allocs s), (disk s). rewrite <- Hself, with_allocs_same. split; [|split; [by split; eauto|done]].
       unfold dir_add. sassert by (by destruct (Z.eqb_spec dd NULL)). unfold NAME_MAX.
       destruct (Z.eqb_spec (Z.of_nat (length name)) 0); [done|]. destruct (Z.ltb_spec 14 (Z.of_nat (length name))); [done|lia]. }
  destruct (bool_decide_reflect (find_name name (slots (disk s) (data i)) = None)) as [Hf|Hf]; cbn [andb].
  2: { destruct (run_dir_find malloc_ok s ino i Hino Hdk Hext Hnames dd p Hnn Hdir junk name (allocs s) Hm Hn Hj) as (k & Hr).
       rewrite with_allocs_same in Hr. rewrite <- find_name_none in Hf.
       destruct (first_slot (has_name name) (slots (disk s) (data i))) as [j|]; [|done].
       exists false, k, (disk s). rewrite <- Hself. split; [|split; [by split; eauto|done]].
       unfold dir_add. sassert by (by destruct (Z.eqb_spec dd NULL)). unfold NAME_MAX.
       destruct (Z.eqb_spec (Z.of_nat (length name)) 0); [lia|]. destruct (Z.ltb_spec 14 (Z.of_nat (length name))); [lia|].
       cbn [orb]. by sstep Hr. }
  apply find_name_none in Hf.
  destruct (run_dir_add malloc_ok s ino i Hino Hdk Hext Hnames dd p Hnn Hdir junk name sec (allocs s) Hm Hn Hl Hj Hs Hdeny Hf)
    as (k & dk' & b & Hr & Hok' & Hlen & Hnm & Hres). rewrite with_allocs_same in Hr. apply find_name_none in Hf.
  exists b, k, dk'. split; [done|]. split.
  { split; try done; [by eauto|]. by apply (extent_ok_length (disk s)). }
  destruct (first_slot is_free (slots (disk s) (data i))) as [j|] eqn:E; destruct Hres as [-> Hsl].
  - rewrite bool_decide_true by eauto. split; [done|]. intros name'. cbv zeta. rewrite Hsl.
    apply first_slot_some in E as (Hjl & x & Hx & Hp). apply find_name_insert; [done| |done].
    destruct x; [done|]. done.
  - rewrite bool_decide_false by (by intros [? ?]). done.
Qed.

(** C12: adding a name.  [dir_add] always returns, and at most one slot of
    the directory changes.  If no allocation of a buffer fails: a name that is
    empty, too long or taken is rejected, and so is every name while writing
    is denied or no slot is free, and the directory is unchanged; otherwise
    the result is true, and the directory maps the name to the sector and
    every other name as before.  (When allocations fail, the slot that changes
    may be one that is in use: [dir_add_overwrites].) *)
Theorem dir_add_correct malloc_ok junk s dd ino i name sec :
  open_dir s dd ino i -> c_string name -> length junk = 20%nat -> 0 <= sec < two32 ->
  exists b k dk', dir_add malloc_ok junk dd name sec s = Ret (b, with_allocs (with_disk s dk') k) /\
    let old := slots (disk s) (data i) in
    let new := slots dk' (data i) in
    disk_ok dk' /\ length dk' = length (disk s) /\ (exists j, forall j', j' <> j -> new !! j' = old !! j') /\
    ((forall j, malloc_ok j = true) ->
     open_dir (with_disk s dk') dd ino i /\
     if bool_decide (0 < length name <= 14)%nat && bool_decide (find_name name old = None)
          && bool_decide (is_Some (first_slot is_free old)) && (deny_write_cnt i =? 0)
     then b = true /\ forall name', find_name name' new = if decide (name' = name) then Some sec else find_name name' old
     else b = false /\ new = old).
Proof.
  intros Hod Hn Hj Hs. pose proof Hod as [[Hnn [p Hdir]] Hino Hdk Hext Hnames].
  destruct (run_dir_add_any malloc_ok s ino i Hino Hdk Hext Hnames dd p Hnn Hdir junk name sec (allocs s) Hn Hj Hs)
    as (k & dk' & b & Hr & Hok & Hlen & Hone & Hdeny). rewrite with_allocs_same in Hr.
  exists b, k, dk'. split; [done|]. cbv zeta. do 3 (split; [done|]). intros Hm.
  destruct (Z.eqb_spec (deny_write_cnt i) 0) as [Hz|Hnz].
  - rewrite andb_true_r. destruct (dir_add_enough malloc_ok junk s dd ino i name sec Hm Hod Hn Hj Hs Hz) as (b' & k' & dk2 & Hr' & Hod' & Hres).
    rewrite Hr in Hr'. injection Hr' as <- Hd _. by rewrite Hd.
  - rewrite andb_false_r. destruct (Hdeny Hnz) as [-> ->]. split; [|done]. by split; eauto.
Qed.

(** A directory of 16 free slots in sector 2. *)
Definition demo_dirs : fs :=
  mkFs (replicate 4 (replicate 512 0)) {[ 16 := mkInode 1 1 false 0 (mkDisk 2 320 INODE_MAGIC) ]} [16] ∅
    {[ 32 := mkDir 16 0 ]} (mkBitmap 4 [15]) 0 2.

Lemma demo_open_dir : open_dir demo_dirs 32 16 (mkInode 1 1 false 0 (mkDisk 2 320 INODE_MAGIC)).
Proof.
  split.
  - split; [done|]. exists 0. reflexivity.
  - reflexivity.
  - split; [done|]. by apply Forall_replicate.
  - split; [done|]. split; done.
  - intros k Hk Hu. exfalso. unfold entry_cnt in Hk. cbn [data dlength] in Hk. change (320 / 20) with 16 in Hk.
    assert (Hz : forall p, byte_at (disk demo_dirs) (mkDisk 2 320 INODE_MAGIC) p = 0).
    { intros q. unfold byte_at, sector_byte. cbn [disk demo_dirs].
      destruct (replicate 4 (replicate 512 0) !! _) as [b|] eqn:E; [|done]. apply lookup_replicate in E as [-> _].
      unfold nth_byte. destruct (replicate 512 0 !! _) as [x|] eqn:E2; [|done]. by apply lookup_replicate in E2 as [-> _]. }
    revert Hu. unfold e_in_use, entry, slice. rewrite list_lookup_fmap. rewrite lookup_seqZ_lt by lia. simpl. by rewrite Hz.
Qed.

Lemma dir_lookup_correct_witness :
  exists r k, lookup (fun _ => true) (replicate 20 0) 32 [97] demo_dirs = Ret (r, with_allocs demo_dirs k) /\ r = None.
Proof.
  destruct (dir_lookup_correct (fun _ => true) (replicate 20 0) demo_dirs 32 16 _ [97] (fun _ => eq_refl) demo_open_dir)
    as (r & k & H & Hr); [by repeat constructor|reflexivity|].
  exists r, k. split; [exact H|]. destruct r as [[e ofs]|]; [|reflexivity]. destruct Hr as [Hr _]. vm_compute in Hr. discriminate Hr.
Defined.

Lemma dir_add_correct_witness :
  exists b k dk', dir_add (fun _ => true) (replicate 20 0) 32 [97] 7 demo_dirs = Ret (b, with_allocs (with_disk demo_dirs dk') k) /\
    b = true /\ find_name [97] (slots dk' (mkDisk 2 320 INODE_MAGIC)) = Some 7.
Proof.
  destruct (dir_add_correct (fun _ => true) (replicate 20 0) demo_dirs 32 16 _ [97] 7 demo_open_dir)
    as (b & k & dk' & H & _ & _ & _ & Hr); [by repeat constructor|reflexivity|unfold two32; lia|].
  exists b, k, dk'. split; [exact H|]. destruct (Hr (fun _ => eq_refl)) as [_ Hr']. vm_compute in Hr'.
  destruct Hr' as [Hb Hf]. split; [exact Hb|]. exact (Hf [97]).
Defined.

(** The name [a] is in the first slot.  Adding [b], the 16 entries are read
    to see that [b] is not there; if then the allocation for the first read of
    the search for a free slot fails, that slot is taken for the end of the
    directory, and the entry of [a] is overwritten. *)
Definition one_name : fs :=
  match dir_add (fun _ => true) (replicate 20 0) 32 [97] 7 demo_dirs with Ret (_, s) => s | Err _ => demo_dirs end.

Example dir_add_overwrites :
  let fails j := negb (j =? allocs one_name + 16)%nat in
  find_name [97] (slots (disk one_name) (mkDisk 2 320 INODE_MAGIC)) = Some 7 /\
  match dir_add fails (replicate 20 0) 32 [98] 8 one_name with
  | Ret (b, s) => b = true /\ find_name [97] (slots (disk s) (mkDisk 2 320 INODE_MAGIC)) = None
  | Err _ => False
  end.
Proof. vm_compute. repeat split. Qed.
