(* ===== verification/FsMap.v ===== *)
(** * The free map and the life of inodes

    [free_map_allocate] and [free_map_release] against the set of used
    sectors; [inode_open], [inode_close] and [inode_remove]: sharing, and the
    release of the sectors of a removed inode at its last close. *)
From stdpp Require Import prelude list gmap.
From Stdlib Require Import ZArith Lia.
From S2P Require Import Prelude Bitmap Filesys FsData.
#[local] Open Scope Z_scope.

(** ** The free map file *)

(** The free map is well formed and, if its file is open, the file is an
    inode on the disk that is large enough for it. *)
Record map_ok (s : fs) : Prop := mkMapOk {
  mo_disk : disk_ok (disk s);
  mo_map : bitmap_wf (free_map s) /\ bit_cnt (free_map s) <= 1073741824;
  mo_file : free_map_file s = NULL \/ exists f i, files s !! free_map_file s = Some f /\
    inodes s !! finode f = Some i /\ deny_write_cnt i = 0 /\ extent_ok (disk s) (data i) /\
    4 * elem_cnt (bit_cnt (free_map s)) <= dlength (data i)
}.

(** Two states that differ in the contents of the disk, the free map and the
    count of allocations only. *)
Definition same_objects (s s' : fs) : Prop :=
  inodes s' = inodes s /\ open_inodes s' = open_inodes s /\ files s' = files s /\ dirs s' = dirs s /\
  free_map_file s' = free_map_file s /\ length (disk s') = length (disk s).

Lemma concat_le32_length ws : length (concat (map le32 ws)) = (4 * length ws)%nat.
Proof. induction ws as [|w ws IH]; [done|]. cbn [map concat]. rewrite length_app, IH. simpl. lia. Qed.

Lemma byte_cnt_small n : 0 <= n <= 1073741824 -> s32 (byte_cnt n) = 4 * elem_cnt n /\ 0 <= elem_cnt n.
Proof.
  intros Hn. pose proof (elem_cnt_enough n ltac:(unfold two32; lia)) as He.
  unfold byte_cnt. rewrite u32_small by (unfold is_u32, two32; lia). rewrite s32_small by (unfold is_s32; lia). lia.
Qed.

Lemma elem_cnt_length b : bitmap_wf b -> elem_cnt (bit_cnt b) <= Z.of_nat (length (bits b)).
Proof. intros (H1 & H2 & _). pose proof (elem_cnt_enough (bit_cnt b) H1). lia. Qed.

Lemma map_ok_change s b dk k :
  map_ok s -> bitmap_wf b -> bit_cnt b = bit_cnt (free_map s) -> disk_ok dk -> length dk = length (disk s) ->
  map_ok (with_allocs (with_disk (with_map s b) dk) k).
Proof.
  intros [H1 [H2 H2'] H3] Hb Hc Hdk Hl. split; [done|split; [done|]|].
  - simpl. by rewrite Hc.
  - cbn [free_map_file files inodes with_allocs with_disk with_map disk free_map]. rewrite Hc.
    destruct H3 as [?|(f & i & ? & ? & ? & ? & ?)]; [by left|right]. exists f, i. split; [done|]. split; [done|]. split; [done|].
    split; [|done]. by apply (extent_ok_length (disk s)).
Qed.

Section map.
Context (malloc_ok : nat -> bool).

Lemma run_write_free_map s :
  map_ok s -> free_map_file s <> NULL ->
  exists b dk k, write_free_map malloc_ok s = Ret (b, with_allocs (with_disk s dk) k) /\
    disk_ok dk /\ length dk = length (disk s) /\ ((forall j, malloc_ok j = true) -> b = true).
Proof.
  intros [Hdk [Hwf Hsz] Hf] Hnn. destruct Hf as [?|(f & i & Hff & Hi & Hd & Hext & Hlen)]; [done|].
  unfold write_free_map. sstep (eq_refl : get s = Ret (s, s)). set (b := free_map s) in *.
  destruct (byte_cnt_small (bit_cnt b)) as [Hbc Hec]; [destruct Hwf as (? & _); lia|]. rewrite Hbc.
  set (bytes := concat (map le32 (bits b))). pose proof (elem_cnt_length b Hwf) as Hel.
  destruct (run_inode_write_at malloc_ok s (finode f) i bytes (4 * elem_cnt (bit_cnt b)) 0 Hi Hdk Hext ltac:(lia) Hd)
    as (n & dk & k & Hw & Hp & Hn & Hfull); [unfold bytes; rewrite concat_le32_length; lia|].
  assert (Hr : file_write_at malloc_ok (free_map_file s) bytes (4 * elem_cnt (bit_cnt b)) 0 s =
    Ret (n, with_allocs (with_disk s dk) k)).
  { unfold file_write_at. assert (Hrf : read_file (free_map_file s) s = Ret (f, s)) by (unfold read_file; by rewrite Hff).
    by sstep Hrf. }
  sstep Hr. destruct Hp as (Hl & Hok & _). eexists _, dk, k. split; [done|]. split; [done|]. split; [done|].
  intros Hm. unfold bitmap_write. rewrite Hbc. apply Z.eqb_eq. rewrite (Hfull Hm). unfold avail. lia.
Qed.

(** ** Allocation and release of sectors *)

Lemma run_release s sec cnt :
  map_ok s -> free_map_file s <> NULL -> 0 <= sec -> 0 <= cnt -> sec + cnt <= bit_cnt (free_map s) ->
  (~ group (free_map s) sec cnt true -> free_map_release malloc_ok sec cnt s = Err AssertFailed) /\
  (group (free_map s) sec cnt true ->
   exists s', free_map_release malloc_ok sec cnt s = Ret (tt, s') /\ map_ok s' /\ same_objects s s' /\
     filled (free_map s) (free_map s') sec cnt false).
Proof.
  intros Hmap Hnn Hs Hc Hsc. pose proof Hmap as [Hdk [Hwf Hsz] _].
  destruct (bitmap_all_spec (free_map s) sec cnt Hwf Hs Hc Hsc) as (r & Hr & Hg).
  unfold free_map_release. split.
  - intros Hng. sstep (eq_refl : get s = Ret (s, s)).
    assert (Ha : lift (bitmap_all (free_map s) sec cnt) s = Ret (r, s)) by (unfold lift; by rewrite Hr). sstep Ha.
    destruct r; [by destruct Hng; apply Hg|done].
  - intros Hgr. sstep (eq_refl : get s = Ret (s, s)).
    assert (Ha : lift (bitmap_all (free_map s) sec cnt) s = Ret (r, s)) by (unfold lift; by rewrite Hr). sstep Ha.
    sassert by (by apply Hg).
    destruct (bitmap_set_multiple_spec (free_map s) sec cnt false Hwf Hs Hc Hsc) as (b & Hb & Hfl).
    assert (Hb' : lift (bitmap_set_multiple (free_map s) sec cnt false) s = Ret (b, s)) by (unfold lift; by rewrite Hb). sstep Hb'.
    sstep (eq_refl : put (with_map s b) s = Ret (tt, with_map s b)). pose proof Hfl as (Hbw & Hbc & _).
    pose proof (map_ok_change s b (disk s) (allocs s) Hmap Hbw Hbc Hdk eq_refl) as Hm1.
    assert (E : with_allocs (with_disk (with_map s b) (disk s)) (allocs s) = with_map s b) by done. rewrite E in Hm1.
    destruct (run_write_free_map (with_map s b) Hm1 Hnn) as (ok & dk & k & Hw & Hok & Hl & _). sstep Hw.
    eexists. split; [done|]. split; [by apply (map_ok_change s b dk k)|]. split; [|done]. by split_and!.
Qed.

Lemma run_allocate s cnt :
  map_ok s -> 0 <= cnt ->
  exists r s', free_map_allocate malloc_ok cnt s = Ret (r, s') /\ map_ok s' /\ same_objects s s' /\
    bit_cnt (free_map s') = bit_cnt (free_map s) /\
    match r with
    | Some sec => 0 <= sec /\ sec + cnt <= bit_cnt (free_map s) /\ group (free_map s) sec cnt false /\
        (forall j, 0 <= j -> bit (free_map s') j = if (sec <=? j) && (j <? sec + cnt) then true else bit (free_map s) j)
    | None => (forall j, 0 <= j -> bit (free_map s') j = bit (free_map s) j) /\
        ((forall j, malloc_ok j = true) ->
         forall k, 0 <= k -> k + cnt <= bit_cnt (free_map s) -> ~ group (free_map s) k cnt false)
    end.
Proof.
  intros Hmap Hc. pose proof Hmap as [Hdk [Hwf Hsz] _]. unfold free_map_allocate. sstep (eq_refl : get s = Ret (s, s)).
  pose proof (proj1 Hwf) as Hb0.
  destruct (bitmap_scan_and_flip_cases (free_map s) 0 cnt false Hwf ltac:(lia) Hc)
    as [[Hr Hno]|(sec & b & Hr & Hne & (Hs1 & Hs2 & Hg & _) & Hfl)].
  - assert (Hl : lift (bitmap_scan_and_flip (free_map s) 0 cnt false) s = Ret ((BITMAP_ERROR, free_map s), s))
      by (unfold lift; by rewrite Hr). sstep Hl. cbv iota.
    assert (E : with_map s (free_map s) = s) by (by destruct s). rewrite E.
    sstep (eq_refl : put s s = Ret (tt, s)). rewrite Z.eqb_refl. cbn [negb andb].
    sstep (eq_refl : sret false s = Ret (false, s)). eexists _, s. split; [done|]. split; [done|]. split; [by split_and!|].
    split; [done|]. split; [done|]. intros _. exact Hno.
  - assert (Hl : lift (bitmap_scan_and_flip (free_map s) 0 cnt false) s = Ret ((sec, b), s)) by (unfold lift; by rewrite Hr).
    sstep Hl. cbv iota. sstep (eq_refl : put (with_map s b) s = Ret (tt, with_map s b)).
    destruct (Z.eqb_spec sec BITMAP_ERROR) as [|_]; [done|]. cbn [negb andb]. pose proof Hfl as (Hbw & Hbc & Hbl & Hbits).
    pose proof (map_ok_change s b (disk s) (allocs s) Hmap Hbw Hbc Hdk eq_refl) as Hm1.
    assert (E : with_allocs (with_disk (with_map s b) (disk s)) (allocs s) = with_map s b) by done. rewrite E in Hm1.
    destruct (Z.eqb_spec (free_map_file s) NULL) as [Hnf|Hnf]; cbn [negb].
    + sstep (eq_refl : sret false (with_map s b) = Ret (false, with_map s b)). eexists (Some sec), _. split; [done|].
      split; [done|]. split; [by split_and!|]. split; [done|]. split; [lia|]. split; [done|]. split; [done|]. exact Hbits.
    + destruct (run_write_free_map (with_map s b) Hm1 Hnf) as (ok & dk & k & Hw & Hok & Hdl & Hfull).
      assert (Hw' : (do! ok0 := write_free_map malloc_ok in sret (negb ok0)) (with_map s b) =
        Ret (negb ok, with_allocs (with_disk (with_map s b) dk) k)) by (by sstep Hw).
      sstep Hw'. set (s2 := with_allocs (with_disk (with_map s b) dk) k).
      destruct ok; cbn [negb].
      * eexists (Some sec), s2. split; [done|]. split; [by apply (map_ok_change s b dk k)|]. split; [by split_and!|].
        split; [done|]. split; [lia|]. split; [done|]. split; [done|]. exact Hbits.
      * sstep (eq_refl : get s2 = Ret (s2, s2)). change (free_map s2) with b.
        destruct (bitmap_set_multiple_spec b sec cnt false Hbw ltac:(lia) Hc ltac:(lia)) as (b2 & Hb2 & Hfl2).
        assert (Hl2 : lift (bitmap_set_multiple b sec cnt false) s2 = Ret (b2, s2)) by (unfold lift; by rewrite Hb2). sstep Hl2.
        sstep (eq_refl : put (with_map s2 b2) s2 = Ret (tt, with_map s2 b2)). eexists None, (with_map s2 b2).
        split; [done|]. destruct Hfl2 as (Hb2w & Hb2c & _ & Hb2bits). split.
        { change (with_map s2 b2) with (with_allocs (with_disk (with_map s b2) dk) k). apply map_ok_change; try done. congruence. }
        split; [by split_and!|]. split; [simpl; congruence|]. split.
        -- intros j Hj. change (free_map (with_map s2 b2)) with b2. rewrite Hb2bits, Hbits by done. cbn [negb].
           destruct ((sec <=? j) && (j <? sec + cnt)) eqn:Er; [|done]. apply andb_prop in Er as [E1%Z.leb_le E2%Z.ltb_lt].
           symmetry. apply Hg. lia.
        -- intros Hm. discriminate (Hfull Hm).
Qed.
End map.

(** ** Open inodes *)

(** The list of open inodes holds the live inodes, at most one per sector,
    and new addresses are fresh. *)
Record open_ok (s : fs) : Prop := mkOpenOk {
  oo_nodup : NoDup (open_inodes s);
  oo_live a : a ∈ open_inodes s <-> is_Some (inodes s !! a);
  oo_count a i : inodes s !! a = Some i -> 1 <= open_cnt i < 2147483647;
  oo_unique a a' i i' : inodes s !! a = Some i -> inodes s !! a' = Some i' -> sector i = sector i' -> a = a';
  oo_fresh a i : inodes s !! a = Some i -> NULL < a < 16 * (Z.of_nat (allocs s) + 1)
}.

Definition with_cnt (i : inode) (n : Z) : inode := mkInode (sector i) n (removed i) (deny_write_cnt i) (data i).

(** The open inode for a sector, if there is one. *)
Lemma run_find_open s l sec :
  (forall a, a ∈ l -> is_Some (inodes s !! a)) ->
  exists r, find_open l sec s = Ret (r, s) /\
    match r with
    | Some a => a ∈ l /\ exists i, inodes s !! a = Some i /\ sector i = sec
    | None => forall a i, a ∈ l -> inodes s !! a = Some i -> sector i <> sec
    end.
Proof.
  induction l as [|a l IH]; intros Hl; cbn [find_open].
  - exists None. split; [done|]. intros a i []%elem_of_nil.
  - destruct (Hl a) as [i Hi]; [by left|]. assert (Hr : read_inode a s = Ret (i, s)) by (unfold read_inode; by rewrite Hi).
    sstep Hr. destruct (Z.eqb_spec (sector i) sec) as [E|E].
    + exists (Some a). split; [done|]. split; [by left|]. eauto.
    + destruct IH as (r & Hrun & Hspec); [set_solver|]. exists r. split; [done|]. destruct r as [b|].
      * destruct Hspec as [? ?]. split; [by right|done].
      * intros b j [->|Hb]%elem_of_cons Hj; [congruence|by apply (Hspec b)].
Qed.

Lemma elem_of_lremove (x y : Z) l : x ∈ List.remove Z.eq_dec y l <-> x ∈ l /\ x <> y.
Proof. induction l as [|a l IH]; simpl; [set_solver|]. destruct (Z.eq_dec y a); set_solver. Qed.

Lemma lremove_notin (y : Z) l : y ∉ l -> List.remove Z.eq_dec y l = l.
Proof. induction l as [|a l IH]; simpl; [done|]. intros Hn. destruct (Z.eq_dec y a); [set_solver|]. rewrite IH; set_solver. Qed.

Section open.
Context (malloc_ok : nat -> bool).

(** Closing an inode that others have open. *)
Lemma run_close_shared s a i :
  a <> NULL -> inodes s !! a = Some i -> 1 < open_cnt i < 2147483648 ->
  inode_close malloc_ok a s = Ret (tt, with_inodes s (<[a := with_cnt i (open_cnt i - 1)]> (inodes s))).
Proof.
  intros Ha Hi Hc. unfold inode_close. destruct (Z.eqb_spec a NULL); [done|].
  assert (Hr : read_inode a s = Ret (i, s)) by (unfold read_inode; by rewrite Hi). sstep Hr.
  rewrite s32_small by (unfold is_s32; lia). fold (with_cnt i (open_cnt i - 1)).
  set (s1 := with_inodes s (<[a := with_cnt i (open_cnt i - 1)]> (inodes s))).
  sstep (eq_refl : write_inode a (with_cnt i (open_cnt i - 1)) s = Ret (tt, s1)). cbn [open_cnt with_cnt].
  destruct (Z.eqb_spec (open_cnt i - 1) 0); [lia|done].
Qed.

(** Closing the last reference to an inode. *)
Lemma run_close_last s a i :
  a <> NULL -> inodes s !! a = Some i -> open_cnt i = 1 ->
  let s1 := with_open (with_inodes s (<[a := with_cnt i 0]> (inodes s))) (List.remove Z.eq_dec a (open_inodes s)) in
  inode_close malloc_ok a s =
    (do! _ := (if removed i then
        do! _ := free_map_release malloc_ok (sector i) 1 in
        free_map_release malloc_ok (start (data i)) (bytes_to_sectors (dlength (data i)))
      else sret tt) in
     drop_inode a) s1.
Proof.
  intros Ha Hi Hc s1. unfold inode_close. destruct (Z.eqb_spec a NULL); [done|].
  assert (Hr : read_inode a s = Ret (i, s)) by (unfold read_inode; by rewrite Hi). sstep Hr.
  rewrite Hc. change (s32 (1 - 1)) with 0. fold (with_cnt i 0).
  set (s0 := with_inodes s (<[a := with_cnt i 0]> (inodes s))).
  sstep (eq_refl : write_inode a (with_cnt i 0) s = Ret (tt, s0)). cbn [open_cnt with_cnt Z.eqb].
  sstep (eq_refl : get s0 = Ret (s0, s0)).
  by sstep (eq_refl : put (with_open s0 (List.remove Z.eq_dec a (open_inodes s0))) s0 = Ret (tt, s1)).
Qed.

Lemma run_open s sec :
  open_ok s -> 0 <= sec < Z.of_nat (length (disk s)) ->
  malloc_ok (allocs s) = true \/ (exists b j, inodes s !! b = Some j /\ sector j = sec) ->
  exists a s1 i, inode_open malloc_ok sec s = Ret (a, s1) /\ a <> NULL /\ disk s1 = disk s /\ free_map s1 = free_map s /\
    files s1 = files s /\ dirs s1 = dirs s /\ sector i = sec /\ inodes s1 = <[a := i]> (inodes s) /\
    ((exists i0, inodes s !! a = Some i0 /\ i = with_cnt i0 (open_cnt i0 + 1) /\ open_inodes s1 = open_inodes s /\
        allocs s1 = allocs s) \/
     (inodes s !! a = None /\ open_inodes s1 = a :: open_inodes s /\ a = 16 * (Z.of_nat (allocs s) + 1) /\
      allocs s1 = S (allocs s) /\ (forall b j, inodes s !! b = Some j -> sector j <> sec) /\
      exists blk, disk s !! Z.to_nat sec = Some blk /\ i = mkInode sec 1 false 0 (decode_inode blk))).
Proof.
  intros H Hsec Hmal. unfold inode_open. sstep (eq_refl : get s = Ret (s, s)).
  destruct (run_find_open s (open_inodes s) sec) as (r & Hr & Hspec); [intros a; apply H|]. sstep Hr. destruct r as [a|].
  - destruct Hspec as (Hin & i0 & Hi0 & Hs0). pose proof (oo_fresh _ H a i0 Hi0) as Hfr. pose proof (oo_count _ H a i0 Hi0) as Hcn.
    assert (Hro : inode_reopen a s = Ret (a, with_inodes s (<[a := with_cnt i0 (open_cnt i0 + 1)]> (inodes s)))).
    { unfold inode_reopen. destruct (Z.eqb_spec a NULL); [lia|].
      assert (Hri : read_inode a s = Ret (i0, s)) by (unfold read_inode; by rewrite Hi0). sstep Hri.
      rewrite s32_small by (unfold is_s32; lia). done. }
    sstep Hro. eexists a, _, (with_cnt i0 (open_cnt i0 + 1)). split; [done|]. split_and!; try done; [lia|]. left. eauto.
  - unfold malloc at 1. set (a := 16 * (Z.of_nat (allocs s) + 1)). set (s1 := with_allocs s (S (allocs s))).
    assert (Hno : forall b j, inodes s !! b = Some j -> sector j <> sec) by (intros b j Hb; apply (Hspec b j); [apply (oo_live _ H); eauto|done]).
    destruct Hmal as [Hmal|(b & j & Hb & Hj)]; [|by destruct (Hno b j)].
    assert (Hm : malloc malloc_ok s = Ret (a, s1)) by (unfold malloc; by rewrite Hmal). sstep Hm.
    assert (Han : a <> NULL) by (unfold a, NULL; lia). destruct (Z.eqb_spec a NULL); [done|].
    sstep (eq_refl : get s1 = Ret (s1, s1)). set (s2 := with_open s1 (a :: open_inodes s1)).
    sstep (eq_refl : put s2 s1 = Ret (tt, s2)).
    destruct (run_block_read s2 sec Hsec) as (blk & Hblk & Hrd). sstep Hrd.
    set (i := mkInode sec 1 false 0 (decode_inode blk)).
    sstep (eq_refl : write_inode a i s2 = Ret (tt, with_inodes s2 (<[a := i]> (inodes s2)))).
    eexists a, _, i. split; [done|]. split_and!; try done. right. split_and!; try done.
    + destruct (inodes s !! a) as [j|] eqn:E; [|done]. pose proof (oo_fresh _ H a j E). unfold a in *. lia.
    + exists blk. done.
Qed.

(** Without memory, an inode that is not open cannot be opened. *)
Lemma run_open_fails s sec :
  open_ok s -> malloc_ok (allocs s) = false -> (forall b j, inodes s !! b = Some j -> sector j <> sec) ->
  inode_open malloc_ok sec s = Ret (NULL, with_allocs s (S (allocs s))).
Proof.
  intros H Hmal Hno. unfold inode_open. sstep (eq_refl : get s = Ret (s, s)).
  destruct (run_find_open s (open_inodes s) sec) as (r & Hr & Hspec); [intros a; apply H|]. sstep Hr.
  destruct r as [a|]; [by destruct Hspec as (_ & i0 & Hi0 & Hs0); destruct (Hno a i0 Hi0)|].
  assert (Hm : malloc malloc_ok s = Ret (NULL, with_allocs s (S (allocs s)))) by (unfold malloc; by rewrite Hmal). by sstep Hm.
Qed.

Lemma open_ok_opened s sec a s1 i :
  open_ok s -> sector i = sec -> NULL < a -> inodes s1 = <[a := i]> (inodes s) ->
  (forall b j, inodes s !! b = Some j -> sector j = sec -> b = a) ->
  ((exists i0, inodes s !! a = Some i0 /\ i = with_cnt i0 (open_cnt i0 + 1) /\ open_cnt i0 < 2147483646 /\
      open_inodes s1 = open_inodes s /\ allocs s1 = allocs s) \/
   (inodes s !! a = None /\ open_cnt i = 1 /\ open_inodes s1 = a :: open_inodes s /\ a = 16 * (Z.of_nat (allocs s) + 1) /\
      allocs s1 = S (allocs s))) ->
  open_ok s1.
Proof.
  intros H Hsec Ha Hino Huniq Hcase.
  assert (Hlk : forall b j, inodes s1 !! b = Some j -> (b = a /\ j = i) \/ (b <> a /\ inodes s !! b = Some j)).
  { intros b j. rewrite Hino, lookup_insert. case_decide; [intros [= <-]; left; split; congruence|right; split; congruence]. }
  split.
  - destruct Hcase as [(i0 & Hi0 & _ & _ & -> & _)|(Hi0 & _ & -> & _)]; [apply H|]. constructor; [|apply H].
    rewrite (oo_live _ H), Hi0. by intros [? ?].
  - intros b. rewrite Hino, lookup_insert. case_decide as Hd.
    + subst b. split; [eauto|]. intros _. destruct Hcase as [(i0 & Hi0 & _ & _ & -> & _)|(_ & _ & -> & _)]; [|by left].
      apply (oo_live _ H). eauto.
    + rewrite <- (oo_live _ H). destruct Hcase as [(i0 & Hi0 & _ & _ & -> & _)|(_ & _ & -> & _)]; [done|]. set_solver.
  - intros b j Hb. destruct (Hlk b j Hb) as [[-> ->]|[_ Hj]]; [|by apply (oo_count _ H b)].
    destruct Hcase as [(i0 & Hi0 & -> & Hlt & _)|(_ & -> & _)]; [|lia]. pose proof (oo_count _ H a i0 Hi0). simpl. lia.
  - intros b b' j j' Hb Hb' Hs. destruct (Hlk b j Hb) as [[-> ->]|[Hn Hj]], (Hlk b' j' Hb') as [[-> ->]|[Hn' Hj']]; [done| | |].
    + symmetry. apply (Huniq b' j'); congruence.
    + apply (Huniq b j); congruence.
    + by apply (oo_unique _ H b b' j j').
  - intros b j Hb. destruct (Hlk b j Hb) as [[-> ->]|[_ Hj]].
    + destruct Hcase as [(i0 & Hi0 & _ & _ & _ & ->)|(_ & _ & _ & Hae & ->)]; [by apply (oo_fresh _ H a i0)|]. lia.
    + pose proof (oo_fresh _ H b j Hj). destruct Hcase as [(i0 & _ & _ & _ & _ & ->)|(_ & _ & _ & _ & ->)]; lia.
Qed.
End open.

(** The release of the sectors of an inode. *)
Lemma bytes_to_sectors_eq n : 0 <= n <= 2147483136 -> bytes_to_sectors n = (n + 511) / 512.
Proof.
  intros Hn. unfold bytes_to_sectors. change BLOCK_SECTOR_SIZE with 512. rewrite s32_small by (unfold is_s32; lia).
  rewrite Z.quot_div_nonneg by lia. replace (n + 512 - 1) with (n + 511) by lia. apply u32_small.
  unfold is_u32, two32. split; [apply Z.div_pos; lia|apply Z.div_lt_upper_bound; lia].
Qed.

(** ** Theorems *)

(** C29: allocating sectors is all or nothing.  [free_map_allocate] either
    returns a run of [cnt] sectors of the device that were all free, and
    marks exactly these as used; or it returns nothing, and every bit of the
    free map is as before, also when the updated map could not be written to
    its file.  With enough memory it fails only if no such run exists. *)
Theorem free_map_allocate_correct malloc_ok s cnt :
  map_ok s -> 0 <= cnt ->
  exists r s', free_map_allocate malloc_ok cnt s = Ret (r, s') /\ map_ok s' /\ same_objects s s' /\
    bit_cnt (free_map s') = bit_cnt (free_map s) /\
    match r with
    | Some sec => 0 <= sec /\ sec + cnt <= bit_cnt (free_map s) /\ group (free_map s) sec cnt false /\
        (forall j, 0 <= j -> bit (free_map s') j = if (sec <=? j) && (j <? sec + cnt) then true else bit (free_map s) j)
    | None => (forall j, 0 <= j -> bit (free_map s') j = bit (free_map s) j) /\
        ((forall j, malloc_ok j = true) ->
         forall k, 0 <= k -> k + cnt <= bit_cnt (free_map s) -> ~ group (free_map s) k cnt false)
    end.
Proof. apply run_allocate. Qed.

(** Opening and closing inodes.  Opening a sector whose inode is open
    gives the same [struct inode] with one more opener; otherwise a fresh
    inode, read from the disk.  No two open inodes are for the same sector,
    before or after.  Closing it again restores the table of open inodes and
    touches neither the disk nor the free map. *)
Theorem inode_open_close malloc_ok s sec :
  open_ok s -> 0 <= sec < Z.of_nat (length (disk s)) -> malloc_ok (allocs s) = true ->
  (forall a i, inodes s !! a = Some i -> open_cnt i < 2147483646) ->
  exists a s1, inode_open malloc_ok sec s = Ret (a, s1) /\ a <> NULL /\ open_ok s1 /\
    (forall b i, inodes s !! b = Some i -> sector i = sec ->
       a = b /\ inodes s1 !! a = Some (with_cnt i (open_cnt i + 1))) /\
    ((forall b i, inodes s !! b = Some i -> sector i <> sec) ->
       inodes s !! a = None /\ exists blk, disk s !! Z.to_nat sec = Some blk /\
         inodes s1 !! a = Some (mkInode sec 1 false 0 (decode_inode blk))) /\
    exists s2, inode_close malloc_ok a s1 = Ret (tt, s2) /\ inodes s2 = inodes s /\
      open_inodes s2 = open_inodes s /\ disk s2 = disk s /\ free_map s2 = free_map s.
Proof.
  intros H Hsec Hm Hcnt.
  destruct (run_open malloc_ok s sec H Hsec (or_introl Hm)) as (a & s1 & i & Hr & Han & Hd & Hfm & Hfl & Hdr & Hs & Hino & Hcase).
  exists a, s1. split; [done|]. split; [done|].
  destruct Hcase as [(i0 & Hi0 & Hi & Hol & Hal)|(Hi0 & Hol & Hae & Hal & Hnone & blk & Hblk & Hi)].
  - assert (Hs0 : sector i0 = sec) by (by rewrite Hi in Hs). pose proof (oo_count _ H a i0 Hi0) as Hc0.
    split_and!.
    + apply (open_ok_opened s sec a s1 i H Hs); [apply (oo_fresh _ H a i0 Hi0)|done| |].
      * intros b j Hj Hjs. apply (oo_unique _ H b a j i0); congruence.
      * left. exists i0. split_and!; try done. by apply (Hcnt a).
    + intros b j Hj Hjs. assert (b = a) as -> by (apply (oo_unique _ H b a j i0); congruence).
      split; [done|]. rewrite Hino, lookup_insert_eq. congruence.
    + intros Hno. by destruct (Hno a i0 Hi0).
    + assert (Hi1 : inodes s1 !! a = Some i) by (by rewrite Hino, lookup_insert_eq).
      pose proof (Hcnt a i0 Hi0). rewrite (run_close_shared malloc_ok s1 a i Han Hi1) by (rewrite Hi; simpl; lia).
      eexists. split; [done|]. cbn [inodes open_inodes disk free_map with_inodes]. split_and!; try done.
      rewrite Hino, insert_insert_eq. apply insert_id. rewrite Hi0. f_equal. rewrite Hi. destruct i0. unfold with_cnt. simpl. f_equal. lia.
  - assert (Hi1 : inodes s1 !! a = Some i) by (by rewrite Hino, lookup_insert_eq).
    split_and!.
    + apply (open_ok_opened s sec a s1 i H Hs); [unfold NULL; lia|done| |].
      * intros b j Hj Hjs. by destruct (Hnone b j Hj).
      * right. rewrite Hi. done.
    + intros b j Hj Hjs. by destruct (Hnone b j Hj).
    + intros _. split; [done|]. exists blk. split; [done|]. congruence.
    + rewrite (run_close_last malloc_ok s1 a i Han Hi1) by (by rewrite Hi). rewrite Hi. cbn [removed].
      eexists. split; [done|]. cbn [inodes open_inodes disk free_map with_inodes with_open]. split_and!; try done.
      * rewrite Hino, insert_insert_eq. apply delete_insert_id. done.
      * rewrite Hol. cbn [List.remove]. destruct (Z.eq_dec a a); [|done]. apply lremove_notin.
        rewrite (oo_live _ H), Hi0. by intros [? ?].
Qed.

(** C28: removal is deferred.  Closing an inode that others have open only
    counts the openers down, even if the inode has been removed; at the last
    close of a removed inode its own sector and all sectors of its data
    become free, and no other sector changes its state; at the last close of
    an inode that has not been removed the free map is not touched. *)
Theorem inode_close_deferred_removal malloc_ok s a i :
  map_ok s -> free_map_file s <> NULL -> a <> NULL -> inodes s !! a = Some i ->
  (forall f, files s !! free_map_file s = Some f -> finode f <> a) ->
  0 <= dlength (data i) <= 2147483136 -> 0 <= sector i < bit_cnt (free_map s) -> 0 <= start (data i) ->
  let n := (dlength (data i) + 511) / 512 in
  start (data i) + n <= bit_cnt (free_map s) -> ~ (start (data i) <= sector i < start (data i) + n) ->
  bit (free_map s) (sector i) = true -> group (free_map s) (start (data i)) n true ->
  (1 < open_cnt i < 2147483648 ->
     inode_close malloc_ok a s = Ret (tt, with_inodes s (<[a := with_cnt i (open_cnt i - 1)]> (inodes s)))) /\
  (open_cnt i = 1 -> exists s', inode_close malloc_ok a s = Ret (tt, s') /\
     inodes s' !! a = None /\ (a ∉ open_inodes s') /\
     forall j, 0 <= j -> bit (free_map s') j =
       if removed i && ((j =? sector i) || (start (data i) <=? j) && (j <? start (data i) + n)) then false
       else bit (free_map s) j).
Proof.
  intros Hmap Hnn Ha Hi Hother Hlen Hsec Hst n Hext Hapart Hbs Hbd. split; [intros Hc; by apply run_close_shared|].
  intros Hc. rewrite (run_close_last malloc_ok s a i Ha Hi Hc). set (s1 := with_open _ _).
  assert (Hn : 0 <= n) by (apply Z.div_pos; lia).
  assert (Hm1 : map_ok s1).
  { destruct Hmap as [H1 H2 [H3|(f & fi & Hf & Hfi & Hr)]]; split; try done. right. exists f, fi.
    split; [done|]. split; [|done]. unfold s1. cbn [inodes with_open with_inodes]. rewrite lookup_insert_ne; [done|].
    intros E. by apply (Hother f Hf). }
  destruct (removed i) eqn:Erm; cbn [andb].
  - destruct (run_release malloc_ok s1 (sector i) 1 Hm1 Hnn ltac:(lia) ltac:(lia)) as [_ Hr1].
    { change (free_map s1) with (free_map s). lia. }
    destruct Hr1 as (s2 & Hr1 & Hm2 & Hso & Hf1).
    { intros j Hj. change (free_map s1) with (free_map s). by replace j with (sector i) by lia. }
    change (free_map s1) with (free_map s) in Hf1. destruct Hf1 as (_ & Hc1 & _ & Hb1). destruct Hso as (Ho1 & Ho2 & Ho3 & Ho4 & Ho5 & Ho6).
    destruct (run_release malloc_ok s2 (start (data i)) n Hm2) as [_ Hr2]; [by rewrite Ho5|done|done|by rewrite Hc1|].
    destruct Hr2 as (s3 & Hr2 & _ & (Hp1 & Hp2 & _) & (_ & _ & _ & Hb2)).
    { intros j Hj. rewrite Hb1 by lia. destruct (Z.leb_spec (sector i) j), (Z.ltb_spec j (sector i + 1)); cbn [andb];
        try (by apply Hbd); lia. }
    rewrite bytes_to_sectors_eq by lia. fold n.
    assert (Hboth : (do! _ := free_map_release malloc_ok (sector i) 1 in free_map_release malloc_ok (start (data i)) n) s1 = Ret (tt, s3))
      by (by sstep Hr1). sstep Hboth.
    eexists. split; [done|]. cbn [inodes open_inodes free_map with_inodes]. split; [apply lookup_delete_eq|]. split.
    + rewrite Hp2, Ho2. unfold s1. cbn [open_inodes with_open]. rewrite elem_of_lremove. tauto.
    + intros j Hj. rewrite Hb2, Hb1 by done.
      destruct (Z.leb_spec (sector i) j), (Z.ltb_spec j (sector i + 1)), (Z.eqb_spec j (sector i)); try lia; cbn [andb orb];
        by destruct ((start (data i) <=? j) && (j <? start (data i) + n)).
  - eexists. split; [done|]. cbn [inodes open_inodes free_map with_inodes]. split; [apply lookup_delete_eq|]. split; [|done].
    unfold s1. cbn [open_inodes with_open]. rewrite elem_of_lremove. tauto.
Qed.

(** ** Concrete states *)

(** Eight sectors: the free map file (inode in sector 0, data in sector 2) is
    open; the inode in sector 3, with 700 bytes in the sectors 4 and 5, is
    open once and removed. *)
Definition demo_map : fs :=
  mkFs (replicate 8 (replicate 512 0))
    {[ 48 := mkInode 0 1 false 0 (mkDisk 2 512 INODE_MAGIC); 16 := mkInode 3 1 true 0 (mkDisk 4 700 INODE_MAGIC) ]}
    [16; 48] {[ 64 := mkFile 48 0 false ]} ∅ (mkBitmap 8 [63]) 64 5.

Lemma demo_map_ok : map_ok demo_map.
Proof.
  split.
  - split; [done|]. by apply Forall_replicate.
  - split; [|simpl; lia]. unfold bitmap_wf, two32. simpl. split_and!; try lia. repeat constructor; lia.
  - right. exists (mkFile 48 0 false), (mkInode 0 1 false 0 (mkDisk 2 512 INODE_MAGIC)).
    split; [reflexivity|]. split; [reflexivity|]. split; [done|]. split; [|done]. split; [done|]. split; done.
Qed.

Lemma demo_map_inodes a i : inodes demo_map !! a = Some i ->
  a = 48 /\ i = mkInode 0 1 false 0 (mkDisk 2 512 INODE_MAGIC) \/ a = 16 /\ i = mkInode 3 1 true 0 (mkDisk 4 700 INODE_MAGIC).
Proof. simpl. rewrite lookup_insert, lookup_singleton. repeat case_decide; intros [= <-]; auto. Qed.

Lemma demo_map_open : open_ok demo_map.
Proof.
  split.
  - simpl. repeat constructor; set_solver.
  - intros a. split.
    + simpl. intros [->|[->|[]%elem_of_nil]%elem_of_cons]%elem_of_cons; eexists; reflexivity.
    + intros [i Hi]. destruct (demo_map_inodes a i Hi) as [[-> _]|[-> _]]; simpl; set_solver.
  - intros a i Hi. destruct (demo_map_inodes a i Hi) as [[_ ->]|[_ ->]]; simpl; lia.
  - intros a a' i i' Hi Hi'. destruct (demo_map_inodes a i Hi) as [[-> ->]|[-> ->]], (demo_map_inodes a' i' Hi') as [[-> ->]|[-> ->]]; done.
  - intros a i Hi. destruct (demo_map_inodes a i Hi) as [[-> _]|[-> _]]; unfold NULL; simpl; lia.
Qed.

Lemma free_map_allocate_correct_witness :
  exists s', free_map_allocate (fun _ => true) 2 demo_map = Ret (Some 6, s') /\ bit (free_map s') 7 = true.
Proof.
  destruct (free_map_allocate_correct (fun _ => true) demo_map 2 demo_map_ok ltac:(lia)) as (r & s' & H & _ & _ & _ & Hr).
  destruct r as [sec|].
  - destruct Hr as (H1 & H2 & H3 & H4). change (bit_cnt (free_map demo_map)) with 8 in H2.
    assert (sec = 6) as ->.
    { destruct (Z_lt_le_dec sec 6) as [Hl|]; [|lia]. exfalso. specialize (H3 sec ltac:(lia)).
      assert (Hc : sec = 0 \/ sec = 1 \/ sec = 2 \/ sec = 3 \/ sec = 4 \/ sec = 5) by lia.
      destruct Hc as [->|[->|[->|[->|[->| ->]]]]]; vm_compute in H3; discriminate H3. }
    exists s'. split; [exact H|]. rewrite H4 by lia. reflexivity.
  - destruct Hr as [_ Hno]. exfalso. apply (Hno (fun _ => eq_refl) 6 ltac:(lia)); [simpl; lia|].
    intros j Hj. assert (Hc : j = 6 \/ j = 7) by lia. destruct Hc as [-> | ->]; reflexivity.
Defined.

Lemma inode_open_close_witness :
  exists a s1, inode_open (fun _ => true) 3 demo_map = Ret (a, s1) /\ a = 16.
Proof.
  destruct (inode_open_close (fun _ => true) demo_map 3 demo_map_open) as (a & s1 & H & _ & _ & Hs & _).
  - simpl. lia.
  - reflexivity.
  - intros b i Hi. destruct (demo_map_inodes b i Hi) as [[_ ->]|[_ ->]]; simpl; lia.
  - exists a, s1. split; [exact H|]. apply (Hs 16 (mkInode 3 1 true 0 (mkDisk 4 700 INODE_MAGIC))); reflexivity.
Defined.

Lemma inode_close_deferred_removal_witness :
  exists s', inode_close (fun _ => true) 16 demo_map = Ret (tt, s') /\ bit (free_map s') 5 = false /\ bit (free_map s') 2 = true.
Proof.
  destruct (inode_close_deferred_removal (fun _ => true) demo_map 16 (mkInode 3 1 true 0 (mkDisk 4 700 INODE_MAGIC)) demo_map_ok)
    as [_ H].
  - discriminate.
  - discriminate.
  - reflexivity.
  - intros f Hf. injection Hf as <-. discriminate.
  - simpl. lia.
  - simpl. lia.
  - simpl. lia.
  - vm_compute. discriminate.
  - vm_compute. intros [? ?]. discriminate || congruence.
  - reflexivity.
  - intros j Hj. cbn [data dlength start] in Hj. change ((700 + 511) / 512) with 2 in Hj.
    assert (Hc : j = 4 \/ j = 5) by lia. destruct Hc as [-> | ->]; reflexivity.
  - destruct (H eq_refl) as (s' & Hr & _ & _ & Hb). exists s'. split; [exact Hr|]. rewrite !Hb by lia. split; reflexivity.
Defined.

(** A formatted file system with one file of 1000 bytes, and a second attempt
    to create a file with the same name: the result, and the words of the
    free map before and after the attempt. *)
Definition create_twice : ST fs (bool * list Z * list Z) :=
  let ok := fun _ => true in
  let junk := replicate 20 204 in
  do! _ := filesys_init ok (fun n => replicate n 0) true in
  do! _ := filesys_create ok junk [97] 1000 in
  do! s1 := get in
  do! b := filesys_create ok junk [97] 1000 in
  do! s2 := get in
  sret (b, bits (free_map s1), bits (free_map s2)).

Definition blank_disk : fs := mkFs (replicate 20 (replicate 512 0)) ∅ [] ∅ ∅ (mkBitmap 0 []) NULL 0.

(** A failed creation loses sectors.  When [filesys_create] is called
    with a name that exists, it returns false and gives the sector of the
    inode back, but not the sectors of the data, which [inode_create] had
    allocated: two more sectors are marked as used afterwards, although no
    inode refers to them. *)
Example filesys_create_leaks :
  exists s, create_twice blank_disk = Ret ((false, [127], [895]), s).
Proof. eexists. vm_compute. reflexivity. Qed.
