(* ===== verification/FsOpen.v ===== *)
(** * Opening and closing a file by name

    [filesys_open] opens the root directory, looks the name up, opens the
    inode, closes the directory and makes a [struct file].  Here the parts
    are put together: the file that comes out stands for the inode that the
    directory names, and [file_close] leaves the file system as it was.  An
    allocation may fail at any point: then the result is NULL, and everything
    that was opened on the way is closed again. *)
From stdpp Require Import prelude list gmap.
From Stdlib Require Import ZArith Lia.
From S2P Require Import Prelude Bitmap Filesys FsData FsDir FsMap.
#[local] Open Scope Z_scope.

(** [d] is the on-disk part of the inode in the sector [sec], also in
    memory if the inode is open. *)
Definition inode_data (s : fs) (sec : Z) (d : inode_disk) : Prop :=
  (forall a i, inodes s !! a = Some i -> sector i = sec -> data i = d) /\
  (exists blk, disk s !! Z.to_nat sec = Some blk /\ decode_inode blk = d).

(** Objects in memory have addresses that were given out. *)
Definition fresh_ok (s : fs) : Prop :=
  (forall a f, files s !! a = Some f -> a < 16 * (Z.of_nat (allocs s) + 1)) /\
  (forall a d, dirs s !! a = Some d -> a < 16 * (Z.of_nat (allocs s) + 1)).

(** The state with the inode [a] closed once. *)
Definition close_state (s : fs) (a : Z) (i : inode) : fs :=
  if open_cnt i =? 1 then with_inodes (with_open s (List.remove Z.eq_dec a (open_inodes s))) (delete a (inodes s))
  else with_inodes s (<[a := with_cnt i (open_cnt i - 1)]> (inodes s)).

Lemma fs_ext s s' :
  disk s = disk s' -> inodes s = inodes s' -> open_inodes s = open_inodes s' -> files s = files s' -> dirs s = dirs s' ->
  free_map s = free_map s' -> free_map_file s = free_map_file s' -> allocs s = allocs s' -> s = s'.
Proof. destruct s, s'. simpl. congruence. Qed.

Section open.
Context (malloc_ok : nat -> bool).

(** No allocation fails. *)
#[local] Abbreviation enough := (forall j, malloc_ok j = true).

Lemma run_malloc s :
  malloc malloc_ok s = Ret (if malloc_ok (allocs s) then 16 * (Z.of_nat (allocs s) + 1) else NULL, with_allocs s (S (allocs s))).
Proof. done. Qed.

Lemma run_malloc_ok s : malloc_ok (allocs s) = true -> malloc malloc_ok s = Ret (16 * (Z.of_nat (allocs s) + 1), with_allocs s (S (allocs s))).
Proof. intros H. by rewrite run_malloc, H. Qed.

Lemma run_malloc_fails s : malloc_ok (allocs s) = false -> malloc malloc_ok s = Ret (NULL, with_allocs s (S (allocs s))).
Proof. intros H. by rewrite run_malloc, H. Qed.

Lemma run_inode_close s a i :
  a <> NULL -> inodes s !! a = Some i -> 1 <= open_cnt i < 2147483648 -> (open_cnt i = 1 -> removed i = false) ->
  inode_close malloc_ok a s = Ret (tt, close_state s a i).
Proof.
  intros Ha Hi Hc Hr. unfold close_state. destruct (Z.eqb_spec (open_cnt i) 1) as [E|E].
  - rewrite (run_close_last malloc_ok s a i Ha Hi E), (Hr E). unfold sbind, sret, drop_inode. do 2 f_equal.
    apply fs_ext; try done. cbn [inodes with_inodes with_open]. apply delete_insert_eq.
  - apply run_close_shared; (done || lia).
Qed.

(** What opening the sector [sec] adds to the table of inodes. *)
Record opened (s s1 : fs) (sec a : Z) (i : inode) : Prop := mkOpened {
  op_run : inode_open malloc_ok sec s = Ret (a, s1);
  op_addr : NULL < a;
  op_inodes : inodes s1 = <[a := i]> (inodes s);
  op_rest : disk s1 = disk s /\ files s1 = files s /\ dirs s1 = dirs s /\ free_map s1 = free_map s /\ free_map_file s1 = free_map_file s;
  op_sector : sector i = sec;
  op_cnt : 1 <= open_cnt i < 2147483648 /\ (open_cnt i = 1 -> removed i = false);
  op_allocs : (allocs s <= allocs s1)%nat;
  op_undo : (open_cnt i = 1 /\ inodes s !! a = None /\ open_inodes s1 = a :: open_inodes s /\ a = 16 * (Z.of_nat (allocs s) + 1) /\
      allocs s1 = S (allocs s)) \/
    (open_cnt i <> 1 /\ inodes s !! a = Some (with_cnt i (open_cnt i - 1)) /\ open_inodes s1 = open_inodes s /\ allocs s1 = allocs s)
}.

(** Opening an inode, when there is memory or it is open already. *)
Lemma run_inode_opened s sec d :
  open_ok s -> 0 <= sec < Z.of_nat (length (disk s)) -> (forall a i, inodes s !! a = Some i -> open_cnt i < 2147483646) ->
  inode_data s sec d -> malloc_ok (allocs s) = true \/ (exists b j, inodes s !! b = Some j /\ sector j = sec) ->
  exists a i s1, opened s s1 sec a i /\ data i = d /\ open_ok s1 /\ free_map_file s1 = free_map_file s.
Proof.
  intros H Hsec Hcnt [Hd1 (b0 & Hb0 & Hd2)] Hmal.
  destruct (run_open malloc_ok s sec H Hsec Hmal) as (a & s1 & i & Hr & Han & Hdk & Hfm & Hfl & Hdr & Hs & Hino & Hcase).
  assert (Hff : free_map_file s1 = free_map_file s).
  { clear -Hr Hsec H. unfold inode_open in Hr. sinv Hr with (eq_refl : get s = Ret (s, s)).
    destruct (run_find_open s (open_inodes s) sec) as (r & Hf & _); [intros b Hb; by apply (oo_live _ H)|]. sinv Hr with Hf. destruct r as [b|].
    - unfold inode_reopen, sbind, read_inode, write_inode, sret in Hr. destruct (b =? NULL); [by injection Hr as _ <-|].
      destruct (inodes s !! b); [|done]. by injection Hr as _ <-.
    - sinv Hr with (run_malloc s). destruct (_ =? NULL); [by injection Hr as _ <-|].
      unfold sbind, get, put in Hr. set (s2 := with_open _ _) in Hr. destruct (run_block_read s2 sec Hsec) as (blk & _ & Hrd).
      rewrite Hrd in Hr. by injection Hr as _ <-. }
  destruct Hcase as [(i0 & Hi0 & -> & Hol & Hal)|(Hi0 & Hol & Hae & Hal & Hnone & blk & Hblk & ->)].
  - pose proof (oo_count _ H a i0 Hi0) as Hc0. pose proof (oo_fresh _ H a i0 Hi0) as Hf0. pose proof (Hcnt a i0 Hi0) as Hc1.
    exists a, (with_cnt i0 (open_cnt i0 + 1)), s1. split_and!; [|exact (Hd1 a i0 Hi0 Hs)| |done].
    + split; try done; [lia|simpl; split; lia|lia|]. right. simpl. split_and!; try done; [lia|].
      rewrite Hi0. f_equal. destruct i0. unfold with_cnt. simpl. f_equal. lia.
    + apply (open_ok_opened s sec a s1 (with_cnt i0 (open_cnt i0 + 1)) H Hs); [lia|done| |].
      * intros b j Hj Hjs. apply (oo_unique _ H b a j i0); [done|done|]. by rewrite Hjs.
      * left. by exists i0.
  - rewrite Hb0 in Hblk. injection Hblk as <-. exists a, (mkInode sec 1 false 0 (decode_inode b0)), s1.
    assert (NULL < a) by (unfold NULL; lia). split_and!; [|done| |done].
    + split; try done; [lia|]. left. by split_and!.
    + apply (open_ok_opened s sec a s1 (mkInode sec 1 false 0 (decode_inode b0)) H Hs); [done|done| |].
      * intros b j Hj Hjs. by destruct (Hnone b j Hj).
      * right. by split_and!.
Qed.

Lemma run_inode_open s sec d :
  open_ok s -> 0 <= sec < Z.of_nat (length (disk s)) -> (forall a i, inodes s !! a = Some i -> open_cnt i < 2147483646) ->
  inode_data s sec d ->
  (exists a i s1, opened s s1 sec a i /\ data i = d /\ open_ok s1 /\ free_map_file s1 = free_map_file s) \/
  (malloc_ok (allocs s) = false /\ inode_open malloc_ok sec s = Ret (NULL, with_allocs s (S (allocs s)))).
Proof.
  intros H Hsec Hcnt Hd. destruct (malloc_ok (allocs s)) eqn:Hmal; [left; apply run_inode_opened; auto|].
  destruct (decide (map_Exists (fun _ j => sector j = sec) (inodes s))) as [(b & j & Hb & Hj)|Hno].
  - left. apply run_inode_opened; eauto.
  - right. split; [done|]. apply run_open_fails; [done|done|]. intros b j Hb Hj. apply Hno. by exists b, j.
Qed.

(** The state [l] is [s] with the inode [a] opened once more. *)
Definition once_more (s l : fs) (a : Z) (i : inode) : Prop :=
  inodes l = <[a := i]> (inodes s) /\
  ((open_cnt i = 1 /\ inodes s !! a = None /\ open_inodes l = a :: open_inodes s) \/
   (open_cnt i <> 1 /\ inodes s !! a = Some (with_cnt i (open_cnt i - 1)) /\ open_inodes l = open_inodes s)).

Lemma opened_once s s1 sec a i l :
  opened s s1 sec a i -> inodes l = inodes s1 -> open_inodes l = open_inodes s1 -> once_more s l a i.
Proof.
  intros [_ _ Hino _ _ _ _ Hundo] El Eo. split; [by rewrite El|]. rewrite Eo.
  destruct Hundo as [(? & ? & ? & _)|(? & ? & ? & _)]; [left|right]; by split_and!.
Qed.

(** Closing the inode [a] undoes its opening. *)
Lemma close_state_undo s a i l :
  open_ok s -> once_more s l a i ->
  inodes (close_state l a i) = inodes s /\ open_inodes (close_state l a i) = open_inodes s.
Proof.
  intros H [Hino Hundo]. unfold close_state. rewrite Hino. destruct Hundo as [(-> & Hn & ->)|(Hc & Hi & Ho)].
  - change (1 =? 1) with true. cbv iota. cbn [inodes open_inodes with_inodes with_open List.remove].
    split; [by apply delete_insert_id|]. destruct (Z.eq_dec a a); [|done]. apply lremove_notin.
    rewrite (oo_live _ H), Hn. by intros [? ?].
  - destruct (Z.eqb_spec (open_cnt i) 1); [done|]. cbn [inodes open_inodes with_inodes]. split; [|done]. rewrite insert_insert_eq. by apply insert_id.
Qed.

(** Two inodes may be closed in the order in which they were opened. *)
Lemma close_state_swap s l1 l2 r ir a i :
  open_ok s -> a <> r -> once_more s l1 r ir -> once_more l1 l2 a i -> once_more s (close_state l2 r ir) a i.
Proof.
  intros H Hne [E1 U1] [E2 U2]. assert (Hs : inodes l1 !! a = inodes s !! a) by (rewrite E1; by apply lookup_insert_ne).
  rewrite Hs in U2. unfold once_more, close_state. rewrite E2, E1.
  destruct U1 as [(-> & Hn & Ho)|(Hc & Hi & Ho)]; [change (1 =? 1) with true|destruct (Z.eqb_spec (open_cnt ir) 1); [done|]];
    cbv iota; cbn [inodes open_inodes with_inodes with_open].
  - split; [rewrite delete_insert_ne by done; by rewrite delete_insert_id|].
    assert (Hni : r ∉ open_inodes s) by (rewrite (oo_live _ H), Hn; by intros [? ?]).
    destruct U2 as [(? & ? & ->)|(? & ? & ->)]; [left|right]; split_and!; try done; rewrite Ho; cbn [List.remove].
    + destruct (Z.eq_dec r a); [congruence|]. destruct (Z.eq_dec r r); [|done]. by rewrite lremove_notin.
    + destruct (Z.eq_dec r r); [|done]. by rewrite lremove_notin.
  - split; [|by rewrite Ho in U2]. rewrite insert_insert_ne by done. rewrite insert_insert_eq. f_equal. by apply insert_id.
Qed.

Lemma close_state_rest s a i :
  let s2 := close_state s a i in
  disk s2 = disk s /\ files s2 = files s /\ dirs s2 = dirs s /\ free_map s2 = free_map s /\
  free_map_file s2 = free_map_file s /\ allocs s2 = allocs s.
Proof. unfold close_state. by destruct (_ =? 1). Qed.

(** *** Opening a file *)

Context (junk : list Z) (Hjunk : length junk = 20%nat).

(** A root directory whose data [rd] is well formed. *)
Record root_ok (s : fs) (rd : inode_disk) : Prop := mkRootOk {
  rt_open : open_ok s;
  rt_fresh : fresh_ok s;
  rt_cnt a i : inodes s !! a = Some i -> open_cnt i < 2147483645;
  rt_disk : disk_ok (disk s);
  rt_data : inode_data s ROOT_DIR_SECTOR rd;
  rt_extent : extent_ok (disk s) rd;
  rt_names : names_ok (disk s) rd
}.

(** The file system with the file [f], at position [p], open on the inode
    [a]. *)
Definition open_at (s : fs) (f a p : Z) (k : nat) : fs :=
  with_allocs (with_files s (<[f := mkFile a p false]> (files s))) k.

(** Closing the inode that was just opened. *)
Lemma run_close_opened s l a i k :
  open_ok s -> once_more s l a i -> a <> NULL -> 1 <= open_cnt i < 2147483648 -> (open_cnt i = 1 -> removed i = false) ->
  disk l = disk s -> files l = files s -> dirs l = dirs s -> free_map l = free_map s -> free_map_file l = free_map_file s ->
  inode_close malloc_ok a (with_allocs l k) = Ret (tt, with_allocs s k).
Proof.
  intros H Ho Ha Hc Hr E1 E2 E3 E4 E5. assert (Hi : inodes l !! a = Some i) by (destruct Ho as [-> _]; apply lookup_insert_eq).
  rewrite (run_inode_close (with_allocs l k) a i Ha Hi Hc Hr).
  assert (Hc' : close_state (with_allocs l k) a i = with_allocs (close_state l a i) k) by (unfold close_state; by destruct (_ =? 1)). rewrite Hc'.
  destruct (close_state_undo s a i l H Ho) as [U1 U2]. destruct (close_state_rest l a i) as (C1 & C2 & C3 & C4 & C5 & _).
  do 2 f_equal. apply fs_ext; cbn; congruence.
Qed.

Lemma run_dir_open_root s rd :
  root_ok s rd ->
  (exists r ir s1 d, opened s s1 ROOT_DIR_SECTOR r ir /\ data ir = rd /\ open_ok s1 /\ d <> NULL /\ dirs s !! d = None /\
    dir_open_root malloc_ok s = Ret (d, with_dirs (with_allocs s1 (S (allocs s1))) (<[d := mkDir r 0]> (dirs s)))) \/
  (~ enough /\ exists k, dir_open_root malloc_ok s = Ret (NULL, with_allocs s k)).
Proof.
  intros [H [_ Hfr] Hcnt Hdk Hrd Hext Hnm]. unfold dir_open_root. pose proof Hrd as [_ (blk & Hblk & _)].
  assert (Hsec : 0 <= ROOT_DIR_SECTOR < Z.of_nat (length (disk s))).
  { apply lookup_lt_Some in Hblk. unfold ROOT_DIR_SECTOR in *. lia. }
  destruct (run_inode_open s ROOT_DIR_SECTOR rd H Hsec) as [(r & ir & s1 & Hop & Hd & Hok1 & _)|[Hmal Hop]];
    [intros a i Ha; specialize (Hcnt a i Ha); lia|done| |].
  2:{ right. split; [intros Hm; by rewrite Hm in Hmal|]. sstep Hop. unfold dir_open. sstep (run_malloc (with_allocs s (S (allocs s)))).
      change (NULL =? NULL) with true. cbn [negb andb]. by eexists. }
  sstep (op_run _ _ _ _ _ Hop). unfold dir_open. destruct (op_rest _ _ _ _ _ Hop) as (R1 & R2 & R3 & R4 & R5).
  destruct (op_cnt _ _ _ _ _ Hop) as [Hc1 Hc2]. pose proof (op_addr _ _ _ _ _ Hop). pose proof (op_allocs _ _ _ _ _ Hop).
  destruct (malloc_ok (allocs s1)) eqn:Hmal.
  - left. sstep (run_malloc_ok s1 Hmal). set (d := 16 * (Z.of_nat (allocs s1) + 1)). unfold NULL in *.
    destruct (Z.eqb_spec r 0), (Z.eqb_spec d 0); try (unfold d in *; lia). cbn [negb andb].
    exists r, ir, s1, d. split; [done|]. split; [done|]. split; [done|]. split; [done|]. split.
    + destruct (dirs s !! d) eqn:E; [|done]. specialize (Hfr _ _ E). unfold d in *. lia.
    + unfold sbind, write_dir, sret. cbn [dirs with_allocs]. by rewrite R3.
  - right. split; [intros Hm; by rewrite Hm in Hmal|]. sstep (run_malloc_fails s1 Hmal). change (NULL =? NULL) with true. rewrite andb_false_r.
    exists (S (allocs s1)). assert (r <> NULL) by (unfold NULL in *; lia).
    by sstep (run_close_opened s s1 r ir (S (allocs s1)) H (opened_once _ _ _ _ _ s1 Hop eq_refl eq_refl) ltac:(done) Hc1 Hc2 R1 R2 R3 R4 R5).
Qed.

(** The entry that a search finds holds the sector of the name. *)
Lemma found_sector dk d name j :
  0 <= dlength d -> first_slot (has_name name) (slots dk d) = Some j ->
  find_name name (slots dk d) = Some (e_inode_sector (FsDir.entry dk d (Z.of_nat j))).
Proof.
  intros Hl E. rewrite find_name_first, E. apply first_slot_some in E as (Hjl & x & Hx & Hp). rewrite slots_length in Hjl by done.
  assert (Hsl : slots dk d !! j = Some (slot (FsDir.entry dk d (Z.of_nat j))))
    by (rewrite <- (slots_lookup dk d (Z.of_nat j)) by lia; by rewrite Nat2Z.id).
  rewrite Hsl in *. injection Hx as <-. unfold has_name, slot in *. by destruct (e_in_use _).
Qed.

(** *** Addresses are given out in increasing order *)

Definition grows {A} (m : ST fs A) : Prop := forall s a s', m s = Ret (a, s') -> (allocs s <= allocs s')%nat.

Lemma grows_ret {A} (a : A) : grows (sret a).
Proof. intros s b s' [= _ <-]. done. Qed.

Lemma grows_stop {A} e : grows (stop e : ST fs A).
Proof. intros s b s' H. discriminate H. Qed.

Lemma grows_bind {A B} (m : ST fs A) (g : A -> ST fs B) : grows m -> (forall a, grows (g a)) -> grows (sbind m g).
Proof. intros H1 H2 s b s' (a & s1 & E1 & E2)%sbind_inv. etrans; [by eapply H1|by eapply H2]. Qed.

Lemma grows_assert b : grows (assert_ b : ST fs unit).
Proof. intros s a s'. destruct b; [intros [= _ <-]; done|done]. Qed.

Lemma grows_lift {A} (m : outcome A) : grows (lift m : ST fs A).
Proof. intros s a s'. unfold lift. destruct m; [intros [= _ <-]; done|done]. Qed.

Lemma grows_malloc : grows (malloc malloc_ok).
Proof. intros s a s' [= _ <-]. simpl. lia. Qed.

Lemma grows_read_inode a : grows (read_inode a).
Proof. intros s i s'. unfold read_inode. destruct (_ !! _); [intros [= _ <-]; done|done]. Qed.

Lemma grows_read_dir a : grows (read_dir a).
Proof. intros s i s'. unfold read_dir. destruct (_ !! _); [intros [= _ <-]; done|done]. Qed.

Lemma grows_block_read sec : grows (block_read sec).
Proof.
  apply grows_bind.
  - intros s a s'. unfold check_sector. destruct (_ <=? _); [done|]. intros [= _ <-]. done.
  - intros _ s a s'. destruct (_ !! _); [intros [= _ <-]; done|done].
Qed.

Create HintDb grows.
#[local] Hint Resolve grows_ret grows_stop grows_bind grows_assert grows_lift grows_malloc grows_read_inode
  grows_read_dir grows_block_read : grows.

Lemma grows_read_loop fuel i size ofs bounce acc : grows (read_loop malloc_ok fuel i size ofs bounce acc).
Proof.
  revert size ofs bounce acc. induction fuel as [|fuel IH]; intros; cbn [read_loop];
    repeat (match goal with |- grows (if ?b then _ else _) => destruct b end); auto with grows.
  apply grows_bind; [destruct bounce; auto with grows|]. intros [|]; auto with grows.
Qed.

Lemma grows_lookup d name : grows (lookup malloc_ok junk d name).
Proof.
  assert (Hre : forall ino e ofs, grows (read_entry malloc_ok ino e ofs)).
  { intros. unfold read_entry, inode_read_at. apply grows_bind; auto with grows. apply grows_bind; auto with grows.
    intros. apply grows_read_loop. }
  assert (Hlo : forall fuel ino e ofs, grows (lookup_loop malloc_ok fuel ino name e ofs)).
  { induction fuel as [|fuel IH]; intros; cbn [lookup_loop]; (apply grows_bind; [done|]; intros [e' [|]]; [|auto with grows];
      (apply grows_bind; [destruct (e_in_use e'); auto with grows|]); intros [|]; auto with grows). }
  unfold lookup, dir_fuel. auto 10 with grows.
Qed.

Lemma open_ok_grow s s' :
  open_ok s -> inodes s' = inodes s -> open_inodes s' = open_inodes s -> (allocs s <= allocs s')%nat -> open_ok s'.
Proof.
  intros [H1 H2 H3 H4 H5] E1 E2 E3. split; rewrite ?E1, ?E2; try done. intros a i Ha. specialize (H5 a i Ha). lia.
Qed.

(** Making a [struct file] and closing it again. *)
Lemma run_file_open s a : a <> NULL -> malloc_ok (allocs s) = true -> file_open malloc_ok a s =
  Ret (16 * (Z.of_nat (allocs s) + 1), open_at s (16 * (Z.of_nat (allocs s) + 1)) a 0 (S (allocs s))).
Proof.
  intros Ha Hmal. unfold file_open. sstep (run_malloc_ok s Hmal). unfold NULL in *.
  destruct (Z.eqb_spec a 0), (Z.eqb_spec (16 * (Z.of_nat (allocs s) + 1)) 0); try lia. done.
Qed.

Lemma run_file_close s f a i p k :
  f <> NULL -> a <> NULL -> inodes s !! a = Some i -> 1 <= open_cnt i < 2147483648 -> (open_cnt i = 1 -> removed i = false) ->
  files s !! f = None ->
  file_close malloc_ok f (open_at s f a p k) = Ret (tt, with_allocs (close_state s a i) k).
Proof.
  intros Hf Ha Hi Hc Hr Hfr. unfold file_close. destruct (Z.eqb_spec f NULL); [done|].
  assert (Hrf : read_file f (open_at s f a p k) = Ret (mkFile a p false, open_at s f a p k))
    by (unfold read_file, open_at; cbn [files with_allocs with_files]; by rewrite lookup_insert_eq).
  assert (Haw : file_allow_write f (open_at s f a p k) = Ret (tt, open_at s f a p k)).
  { unfold file_allow_write. sassert by (by destruct (Z.eqb_spec f NULL)). by sstep Hrf. }
  sstep Haw. sstep Hrf. cbn [finode]. sstep (run_inode_close (open_at s f a p k) a i Ha Hi Hc Hr).
  unfold drop_file. do 2 f_equal. unfold close_state, open_at. destruct (open_cnt i =? 1); apply fs_ext; try done;
    cbn [files with_allocs with_files with_inodes with_open]; by apply delete_insert_id.
Qed.

(** Closing the root directory. *)
Lemma run_dir_close s d r ir p :
  d <> NULL -> r <> NULL -> dirs s !! d = Some (mkDir r p) -> inodes s !! r = Some ir ->
  1 <= open_cnt ir < 2147483648 -> (open_cnt ir = 1 -> removed ir = false) ->
  dir_close malloc_ok d s = Ret (tt, with_dirs (close_state s r ir) (delete d (dirs s))).
Proof.
  intros Hd Hr Hdir Hi Hc Hrm. unfold dir_close. destruct (Z.eqb_spec d NULL); [done|].
  assert (Hrd : read_dir d s = Ret (mkDir r p, s)) by (unfold read_dir; by rewrite Hdir). sstep Hrd. cbn [dinode].
  sstep (run_inode_close s r ir Hr Hi Hc Hrm). unfold drop_dir.
  destruct (close_state_rest s r ir) as (_ & _ & -> & _). done.
Qed.

Lemma open_fail s : file_open malloc_ok NULL s = Ret (NULL, with_allocs s (S (allocs s))).
Proof. unfold file_open. sstep (run_malloc s). done. Qed.

(** The file system [s2] with the root directory open: [d] is the object
    for the inode [ir] at [r]. *)
Record root_open (s s2 : fs) (r : Z) (ir : inode) (d : Z) : Prop := mkRootOpen {
  ro_inode : r <> NULL /\ inodes s2 !! r = Some ir /\ sector ir = ROOT_DIR_SECTOR;
  ro_cnt : 1 <= open_cnt ir < 2147483648 /\ (open_cnt ir = 1 -> removed ir = false);
  ro_once : once_more s s2 r ir;
  ro_dir : d <> NULL /\ dirs s !! d = None /\ dirs s2 = <[d := mkDir r 0]> (dirs s);
  ro_rest : disk s2 = disk s /\ files s2 = files s /\ free_map s2 = free_map s /\ free_map_file s2 = free_map_file s;
  ro_ok : open_ok s2;
  ro_allocs : (allocs s <= allocs s2)%nat
}.

(** The slot that a search of the root directory finds: what there is, or,
    when an allocation fails, nothing. *)
Definition looked_up (s : fs) (rd : inode_disk) (name : list Z) (r : option nat) : Prop :=
  (r = first_slot (has_name name) (slots (disk s) rd) \/ r = None) /\ (enough -> r = first_slot (has_name name) (slots (disk s) rd)).

(** The lookup in the root directory that [filesys_open] has opened. *)
Lemma run_root_lookup s rd name :
  root_ok s rd -> c_string name ->
  (~ enough /\ exists k, filesys_open malloc_ok junk name s = Ret (NULL, with_allocs s k)) \/
  exists s2 r ir d x, root_open s s2 r ir d /\ looked_up s rd name x /\
    filesys_open malloc_ok junk name s =
      (do! ino := (match x with
                   | Some j => inode_open malloc_ok (e_inode_sector (FsDir.entry (disk s) rd (Z.of_nat j)))
                   | None => sret NULL
                   end) in
       do! _ := dir_close malloc_ok d in file_open malloc_ok ino) s2.
Proof.
  intros Hrt Hn. destruct (run_dir_open_root s rd Hrt) as [(r & ir & s1 & d & Hop & Hd & Hok1 & Hdn & Hdf & Hrun)|(Hno & k & Hrun)].
  2:{ left. split; [done|]. unfold filesys_open. sstep Hrun. change (NULL =? NULL) with true. cbv iota.
      sstep (eq_refl : sret NULL (with_allocs s k) = Ret (NULL, with_allocs s k)).
      sstep (eq_refl : dir_close malloc_ok NULL (with_allocs s k) = Ret (tt, with_allocs s k)). rewrite open_fail. by eexists. }
  right. destruct Hrt as [H Hfr Hcnt Hdk Hrd Hext Hnm]. destruct (op_rest _ _ _ _ _ Hop) as (Ed & Ef & Edr & Efm & Eff).
  unfold filesys_open. set (S1 := with_dirs _ _) in Hrun.
  assert (Hi1 : inodes S1 !! r = Some ir) by (unfold S1; cbn [inodes with_dirs with_allocs]; rewrite (op_inodes _ _ _ _ _ Hop); apply lookup_insert_eq).
  assert (Hdd : dirs S1 !! d = Some (mkDir r 0)) by (unfold S1; cbn [dirs with_dirs]; apply lookup_insert_eq).
  destruct (run_dir_find_any malloc_ok S1 r ir Hi1) with (dd := d) (p := 0) (junk := junk) (name := name) (k0 := allocs S1) as (k & x & Hlk & Hx & Hxe); try done.
  { unfold S1. cbn [disk with_dirs with_allocs]. by rewrite Ed. }
  { unfold S1. cbn [disk with_dirs with_allocs]. by rewrite Ed, Hd. }
  { unfold S1. cbn [disk with_dirs with_allocs]. by rewrite Ed, Hd. }
  assert (Hwa : with_allocs S1 (allocs S1) = S1) by done. rewrite Hwa in Hlk.
  pose proof (grows_lookup _ _ _ _ _ Hlk) as Hg. cbn in Hg.
  assert (Edk : disk S1 = disk s) by done || (unfold S1; cbn [disk with_dirs with_allocs]; by rewrite Ed). rewrite Edk, Hd in Hx, Hxe.
  set (y := match x with Some _ => first_slot (has_name name) (slots (disk s) rd) | None => None end).
  exists (with_dirs (with_allocs s1 k) (<[d := mkDir r 0]> (dirs s))), r, ir, d, y. split.
  { pose proof (op_addr _ _ _ _ _ Hop). pose proof (op_allocs _ _ _ _ _ Hop).
    split; try done; [|by apply (op_cnt _ _ _ _ _ Hop)|by eapply opened_once|apply (open_ok_grow s1); try done; cbn; lia|cbn; lia].
    split_and!; [lia|by rewrite <- Hi1|by apply (op_sector _ _ _ _ _ Hop)]. }
  split.
  { unfold looked_up, y. destruct x; [auto|]. split; [by right|]. intros Hm. specialize (Hxe Hm). by destruct (first_slot _ _). }
  sstep Hrun.
  destruct (Z.eqb_spec d NULL); [done|]. unfold dir_lookup at 1. unfold sbind at 1.
  rewrite sbind_assert by (by destruct (Z.eqb_spec d NULL)).
  rewrite (sbind_run _ _ _ _ _ Hlk). unfold sbind at 1. unfold y.
  destruct Hx as [->| ->]; [|done]. by destruct (first_slot (has_name name) (slots (disk s) rd)).
Qed.

(** With the root directory open, nothing is found: everything is closed. *)
Lemma run_close_root s s2 r ir d k :
  open_ok s -> root_open s s2 r ir d ->
  exists k', (do! _ := dir_close malloc_ok d in file_open malloc_ok NULL) (with_allocs s2 k) = Ret (NULL, with_allocs s k').
Proof.
  intros H [(Hrn & Hi & _) [Hc1 Hc2] Honce (Hdn & Hdf & Ed) (E1 & E2 & E3 & E4) _ _].
  destruct (close_state_rest (with_allocs s2 k) r ir) as (C1 & C2 & C3 & C4 & C5 & C6).
  destruct (close_state_undo s r ir (with_allocs s2 k) H Honce) as [U1 U2].
  assert (Hd2 : dirs (with_allocs s2 k) !! d = Some (mkDir r 0)) by (cbn; rewrite Ed; apply lookup_insert_eq).
  eexists. sstep (run_dir_close (with_allocs s2 k) d r ir 0 Hdn Hrn Hd2 Hi Hc1 Hc2). rewrite open_fail. do 2 f_equal. apply fs_ext; try done; cbn.
  - by rewrite C1.
  - by rewrite C2.
  - rewrite Ed. by apply delete_insert_id.
  - by rewrite C4.
  - by rewrite C5.
Qed.

(** With the root directory open, a second inode is opened and the directory
    closed: what is left is [s] with that inode opened. *)
Lemma run_open_inner s s2 r ir d sec dd :
  open_ok s -> (forall a i, inodes s !! a = Some i -> open_cnt i < 2147483645) -> root_open s s2 r ir d ->
  sec <> ROOT_DIR_SECTOR -> 0 <= sec < Z.of_nat (length (disk s)) -> inode_data s sec dd ->
  (~ enough /\ exists k, inode_open malloc_ok sec s2 = Ret (NULL, with_allocs s2 k)) \/
  exists a i s4, (do! ino := inode_open malloc_ok sec in do! _ := dir_close malloc_ok d in sret ino) s2 = Ret (a, s4) /\
    a <> NULL /\ sector i = sec /\ data i = dd /\ 1 <= open_cnt i < 2147483648 /\ (open_cnt i = 1 -> removed i = false) /\
    once_more s s4 a i /\ (allocs s <= allocs s4)%nat /\ disk s4 = disk s /\ files s4 = files s /\ dirs s4 = dirs s /\
    free_map s4 = free_map s /\ free_map_file s4 = free_map_file s.
Proof.
  intros H Hcnt [(Hrn & Hi & Hsr) [Hc1 Hc2] Honce (Hdn & Hdf & Ed) (E1 & E2 & E3 & E4) Hok2 Hal] Hs1 Hs2 [Ha Hb].
  pose proof Honce as [Ein _].
  destruct (run_inode_open s2 sec dd Hok2) as [(a & i & s3 & Hop & Hdi & _ & _)|[Hmal Hop]].
  { by rewrite E1. }
  { rewrite Ein. intros b ib [[-> <-]|[Hb1 Hb2]]%lookup_insert_Some; [|specialize (Hcnt _ _ Hb2); lia].
    destruct Honce as [_ [(-> & _)|(_ & Hx & _)]]; [lia|]. specialize (Hcnt _ _ Hx). cbn in Hcnt. lia. }
  { split; [|by rewrite E1]. rewrite Ein. intros b ib [[-> <-]|[Hb1 Hb2]]%lookup_insert_Some Hib; [by rewrite Hsr in Hib|by eapply Ha]. }
  2:{ left. split; [intros Hm; by rewrite Hm in Hmal|by eexists]. }
  right. destruct (op_rest _ _ _ _ _ Hop) as (Ed3 & Ef3 & Edr3 & Efm3 & Eff3). pose proof (op_sector _ _ _ _ _ Hop) as Hse.
  assert (Hne : a <> r).
  { intros ->. destruct (op_undo _ _ _ _ _ Hop) as [(_ & Hx & _)|(_ & Hx & _)]; rewrite Hi in Hx; [done|].
    injection Hx as Hx. rewrite Hx in Hsr. cbn in Hsr. congruence. }
  assert (Hi3 : inodes s3 !! r = Some ir) by (rewrite (op_inodes _ _ _ _ _ Hop); by rewrite lookup_insert_ne).
  assert (Hd3 : dirs s3 !! d = Some (mkDir r 0)) by (rewrite Edr3, Ed; apply lookup_insert_eq).
  destruct (close_state_rest s3 r ir) as (C1 & C2 & C3 & C4 & C5 & C6).
  pose proof (op_addr _ _ _ _ _ Hop). destruct (op_cnt _ _ _ _ _ Hop) as [Hc3 Hc4]. pose proof (op_allocs _ _ _ _ _ Hop).
  exists a, i, (with_dirs (close_state s3 r ir) (delete d (dirs s3))).
  split_and!; try done; cbn [disk files dirs free_map free_map_file allocs with_dirs]; try lia; try congruence.
  - sstep (op_run _ _ _ _ _ Hop). by sstep (run_dir_close s3 d r ir 0 Hdn Hrn Hd3 Hi3 Hc1 Hc2).
  - exact (close_state_swap s s2 s3 r ir a i H Hne Honce (opened_once _ _ _ _ _ s3 Hop eq_refl eq_refl)).
  - rewrite Edr3, Ed. by apply delete_insert_id.
Qed.

(** The file is made, or there is no memory for it and the inode is closed. *)
Lemma run_finish_open s s4 a i :
  open_ok s -> fresh_ok s -> a <> NULL -> 1 <= open_cnt i < 2147483648 -> (open_cnt i = 1 -> removed i = false) ->
  once_more s s4 a i -> (allocs s <= allocs s4)%nat -> disk s4 = disk s -> files s4 = files s -> dirs s4 = dirs s ->
  free_map s4 = free_map s -> free_map_file s4 = free_map_file s ->
  (~ enough /\ exists k, file_open malloc_ok a s4 = Ret (NULL, with_allocs s k)) \/
  exists f k, file_open malloc_ok a s4 = Ret (f, open_at s4 f a 0 k) /\ f <> NULL /\
    forall p k', file_close malloc_ok f (open_at s4 f a p k') = Ret (tt, with_allocs s k').
Proof.
  intros H [Hff _] Han Hc3 Hc4 Honce Hal F1 F2 F3 F4 F5. destruct (malloc_ok (allocs s4)) eqn:Hmal.
  - right. assert (Hi4 : inodes s4 !! a = Some i) by (destruct Honce as [-> _]; apply lookup_insert_eq).
    set (f := 16 * (Z.of_nat (allocs s4) + 1)). assert (Hfn0 : f <> NULL) by (unfold f, NULL; lia).
    exists f, (S (allocs s4)). split; [by apply run_file_open|]. split; [done|]. intros p k'.
    assert (Hfr : files s4 !! f = None) by (rewrite F2; destruct (files s !! f) eqn:E; [specialize (Hff _ _ E); unfold f in *; lia|done]).
    rewrite (run_file_close s4 f a i p k' Hfn0 Han Hi4 Hc3 Hc4 Hfr). destruct (close_state_undo s a i s4 H Honce) as [U1 U2].
    destruct (close_state_rest s4 a i) as (D1 & D2 & D3 & D4 & D5 & D6). do 2 f_equal. apply fs_ext; cbn; congruence.
  - left. split; [intros Hm; by rewrite Hm in Hmal|]. exists (S (allocs s4)). unfold file_open. sstep (run_malloc_fails s4 Hmal).
    change (NULL =? NULL) with true. rewrite andb_false_r. by sstep (run_close_opened s s4 a i (S (allocs s4)) H Honce Han Hc3 Hc4 F1 F2 F3 F4 F5).
Qed.

(** [filesys_open] with any allocations failing. *)
Lemma run_filesys_open s rd name :
  root_ok s rd -> c_string name ->
  (forall sec, find_name name (slots (disk s) rd) = Some sec ->
     sec <> ROOT_DIR_SECTOR /\ 0 <= sec < Z.of_nat (length (disk s)) /\ exists dd, inode_data s sec dd) ->
  (exists k, filesys_open malloc_ok junk name s = Ret (NULL, with_allocs s k) /\ (enough -> find_name name (slots (disk s) rd) = None)) \/
  exists sec f a i s1 k, find_name name (slots (disk s) rd) = Some sec /\ filesys_open malloc_ok junk name s = Ret (f, open_at s1 f a 0 k) /\
    f <> NULL /\ inodes s1 !! a = Some i /\ sector i = sec /\ inode_data s sec (data i) /\
    disk s1 = disk s /\ files s1 = files s /\ dirs s1 = dirs s /\
    forall p k', file_close malloc_ok f (open_at s1 f a p k') = Ret (tt, with_allocs s k').
Proof.
  intros Hrt Hn Hok. destruct (run_root_lookup s rd name Hrt Hn) as [(Hno & k & Hr)|(s2 & r & ir & d & x & Hro & [Hx Hxe] & Hrun)].
  { left. exists k. split; [done|]. intros Hm. by destruct Hno. }
  pose proof Hrt as [H Hfr Hcnt Hdk Hrd Hext Hnm]. assert (Hl : 0 <= dlength rd) by (destruct Hext as (_ & ? & _); lia).
  destruct x as [j|].
  2:{ left. destruct (run_close_root s s2 r ir d (allocs s2) H Hro) as (k' & Hc). exists k'. split.
      - rewrite Hrun. sstep (eq_refl : sret NULL s2 = Ret (NULL, s2)). rewrite <- Hc. by destruct s2.
      - intros Hm. by apply find_name_none, eq_sym, Hxe. }
  destruct Hx as [Hx|?]; [|done]. symmetry in Hx. pose proof (found_sector _ _ _ _ Hl Hx) as Hfn.
  set (sec := e_inode_sector _) in *. destruct (Hok sec Hfn) as (Hs1 & Hs2 & dd & Hdd).
  destruct (run_open_inner s s2 r ir d sec dd H Hcnt Hro Hs1 Hs2 Hdd)
    as [(Hno & k & Hop)|(a & i & s4 & Hin & Han & Hse & Hda & Hc3 & Hc4 & Honce & Hal & F1 & F2 & F3 & F4 & F5)].
  { left. destruct (run_close_root s s2 r ir d k H Hro) as (k' & Hc). exists k'. split; [|intros Hm; by destruct Hno]. rewrite Hrun. by sstep Hop. }
  assert (Hi4 : inodes s4 !! a = Some i) by (destruct Honce as [-> _]; apply lookup_insert_eq).
  apply sbind_inv in Hin as (ino & s3 & Hio & (u & s5 & Hdc & [= -> ->])%sbind_inv). rewrite Hrun. sstep Hio. sstep Hdc.
  destruct (run_finish_open s s4 a i H Hfr Han Hc3 Hc4 Honce Hal F1 F2 F3 F4 F5) as [(Hno & k & Hf)|(f & k & Hf & Hnn & Hcl)].
  - left. exists k. split; [done|]. intros Hm. by destruct Hno.
  - right. exists sec, f, a, i, s4, k. split_and!; try done. by rewrite Hda.
Qed.

(** [filesys_open] and [file_close]: for a well-formed root directory and
    any name, when no allocation fails, the call returns NULL exactly when no
    entry has the name, and then the file system is as before; otherwise the
    file stands for the inode in the sector that the entry names, at position
    0, nothing on disk has changed and the directory is closed again, and
    whenever [file_close] is called the file system is as it was before
    [filesys_open].  (Only the count of the addresses given out goes up.) *)
Theorem filesys_open_correct s rd name :
  enough -> root_ok s rd -> c_string name ->
  match find_name name (slots (disk s) rd) with
  | None => exists k, filesys_open malloc_ok junk name s = Ret (NULL, with_allocs s k)
  | Some sec =>
      forall d, sec <> ROOT_DIR_SECTOR -> 0 <= sec < Z.of_nat (length (disk s)) -> inode_data s sec d ->
      exists f a i s1 k, filesys_open malloc_ok junk name s = Ret (f, open_at s1 f a 0 k) /\
        f <> NULL /\ inodes s1 !! a = Some i /\ sector i = sec /\ data i = d /\
        disk s1 = disk s /\ files s1 = files s /\ dirs s1 = dirs s /\
        forall p k', file_close malloc_ok f (open_at s1 f a p k') = Ret (tt, with_allocs s k')
  end.
Proof.
  intros Hm Hrt Hn. destruct (find_name name (slots (disk s) rd)) as [sec|] eqn:E.
  - intros d Hs1 Hs2 Hd. destruct (run_filesys_open s rd name Hrt Hn) as [(k & _ & Hno)|(sec' & f & a & i & s1 & k & Hfn & Hr & Hnn & Hi & Hse & Hda & Hrest)].
    + intros sec' [= <-]%(eq_trans (eq_sym E)). eauto.
    + by rewrite Hno in E.
    + rewrite E in Hfn. injection Hfn as <-. exists f, a, i, s1, k. split_and!; try done; try apply Hrest.
      destruct Hda as [_ (b & Hb & <-)], Hd as [_ (b' & Hb' & <-)]. congruence.
  - destruct (run_filesys_open s rd name Hrt Hn) as [(k & Hr & _)|(sec' & f & a & i & s1 & k & Hfn & _)]; [by rewrite E|eauto|congruence].
Qed.
End open.
