(* ===== verification/Process.v ===== *)
(** * Processes and the program loader ([userprog/process.c])

    The state joins those of the parts that the loader calls: the memory and
    the page tables ([Pagedir]), the file system ([Filesys]), the scheduler
    ([Thread]), the page directory of each thread and the task-state segment.
    [console] holds the messages that the code prints, last first.

    [malloc] of the file system is the parameter of [Filesys]; it does not
    take pages from the pools of this model.  Variables on the stack of the
    kernel ([ehdr], [phdr]) are lists of bytes. *)
From stdpp Require Import prelude list gmap.
From Stdlib Require Import ZArith Lia.
From S2P Require Import Prelude Bitmap Dlist Thread Filesys FsData FsDir FsMap Palloc Pagedir AddrSpace Segments.
#[local] Open Scope Z_scope.

(** ** Data *)

Inductive message : Type :=
| OpenFailed (file_name : list Z)
| BadExecutable (file_name : list Z).

Record proc : Type := mkProc {
  mm : mmu;
  fsys : fs;
  sched : kernel;
  pagedirs : gmap Z Z;
  ktss : option tss;
  console : list message
}.

Definition with_mm (s : proc) x := mkProc x (fsys s) (sched s) (pagedirs s) (ktss s) (console s).
Definition with_fsys (s : proc) x := mkProc (mm s) x (sched s) (pagedirs s) (ktss s) (console s).
Definition with_sched (s : proc) x := mkProc (mm s) (fsys s) x (pagedirs s) (ktss s) (console s).
Definition with_pagedirs (s : proc) x := mkProc (mm s) (fsys s) (sched s) x (ktss s) (console s).
Definition with_tss (s : proc) x := mkProc (mm s) (fsys s) (sched s) (pagedirs s) x (console s).
Definition print (m : message) : ST proc unit := fun s =>
  Ret (tt, mkProc (mm s) (fsys s) (sched s) (pagedirs s) (ktss s) (m :: console s)).

Definition mcall {A} (m : ST mmu A) : ST proc A := fun s =>
  match m (mm s) with Ret (a, x) => Ret (a, with_mm s x) | Err e => Err e end.
Definition fcall {A} (m : ST fs A) : ST proc A := fun s =>
  match m (fsys s) with Ret (a, x) => Ret (a, with_fsys s x) | Err e => Err e end.
Definition kcall {A} (m : ST kernel A) : ST proc A := fun s =>
  match m (sched s) with Ret (a, x) => Ret (a, with_sched s x) | Err e => Err e end.

(** [t->pagedir]; the page of a new thread is zeroed. *)
Definition read_pagedir (t : Z) : ST proc Z := fun s => Ret (default NULL (pagedirs s !! t), s).
Definition write_pagedir (t pd : Z) : ST proc unit := fun s => Ret (tt, with_pagedirs s (<[t := pd]> (pagedirs s))).

(** The bytes of a buffer stored at [a]. *)
Definition write_bytes (m : Z -> Z) (a : Z) (b : list Z) : Z -> Z := fun x =>
  if (a <=? x) && (x <? a + Z.of_nat (length b)) then nth_byte b (x - a) else m x.

Definition set_memory (f : (Z -> Z) -> Z -> Z) : ST mmu unit := fun s =>
  Ret (tt, mkMmu (mkPalloc (kernel_pool (pal s)) (user_pool (pal s)) (f (mem s))) (cr3 s) (tlb s)).

(** The string at [a], of which at most [n] bytes are looked at. *)
Fixpoint read_string (n : nat) (m : Z -> Z) (a : Z) : list Z :=
  match n with
  | O => []
  | S n' => if m a =? 0 then [] else m a :: read_string n' m (a + 1)
  end.

(** ** The format of executables *)

Record Elf32_Ehdr : Type := mkEhdr {
  e_ident : list Z; e_type : Z; e_machine : Z; e_version : Z; e_entry : Z; e_phoff : Z; e_shoff : Z; e_flags : Z;
  e_ehsize : Z; e_phentsize : Z; e_phnum : Z; e_shentsize : Z; e_shnum : Z; e_shstrndx : Z
}.

Record Elf32_Phdr : Type := mkPhdr {
  p_type : Z; p_offset : Z; p_vaddr : Z; p_paddr : Z; p_filesz : Z; p_memsz : Z; p_flags : Z; p_align : Z
}.

Definition half (b : list Z) (o : nat) : Z := default 0 (b !! o) + 256 * default 0 (b !! S o).
Definition word_at (b : list Z) (o : nat) : Z := word (drop o b).

(** The structures that lie over the bytes read from the file. *)
Definition ehdr_of (b : list Z) : Elf32_Ehdr :=
  mkEhdr (take 16 b) (half b 16) (half b 18) (word_at b 20) (word_at b 24) (word_at b 28) (word_at b 32) (word_at b 36)
    (half b 40) (half b 42) (half b 44) (half b 46) (half b 48) (half b 50).

Definition phdr_of (b : list Z) : Elf32_Phdr :=
  mkPhdr (word_at b 0) (word_at b 4) (word_at b 8) (word_at b 12) (word_at b 16) (word_at b 20) (word_at b 24) (word_at b 28).

Definition sizeof_Ehdr : Z := 52.
Definition sizeof_Phdr : Z := 32.

Definition PT_NULL : Z := 0.
Definition PT_LOAD : Z := 1.
Definition PT_DYNAMIC : Z := 2.
Definition PT_INTERP : Z := 3.
Definition PT_NOTE : Z := 4.
Definition PT_SHLIB : Z := 5.
Definition PT_PHDR : Z := 6.
Definition PT_STACK : Z := 1685382481.
Definition PF_W : Z := 2.

(** The bytes [\177ELF\1\1\1]. *)
Definition elf_magic : list Z := [127; 69; 76; 70; 1; 1; 1].

Section process.
Context (malloc_ok : nat -> bool) (junk : list Z) (init_page_dir init_ram_pages : Z).

(** ** Activation and exit *)

Definition process_activate : ST proc unit :=
  do! t := kcall thread_current in
  do! pd := read_pagedir t in
  do! _ := mcall (pagedir_activate init_page_dir pd) in
  do! t := kcall thread_current in
  do! s := get in
  do! x := lift (tss_update t (ktss s)) in
  put (with_tss s x).

Definition process_exit : ST proc unit :=
  do! cur := kcall thread_current in
  do! pd := read_pagedir cur in
  if negb (pd =? NULL) then
    do! _ := write_pagedir cur NULL in
    do! _ := mcall (pagedir_activate init_page_dir NULL) in
    mcall (pagedir_destroy init_page_dir pd)
  else sret tt.

Definition process_wait (child_tid : Z) : Z := -1.

(** ** [load] and its helpers *)

Definition install_page (upage kpage : Z) (writable : bool) : ST proc bool :=
  do! t := kcall thread_current in
  do! pd := read_pagedir t in
  do! p := mcall (pagedir_get_page pd upage) in
  if p =? NULL then
    do! pd := read_pagedir t in
    mcall (pagedir_set_page init_page_dir init_ram_pages pd upage kpage writable)
  else sret false.

(** The stack pointer that is stored, if any. *)
Definition setup_stack : ST proc (option Z) :=
  do! kpage := mcall (pcall (palloc_get_page (Z.lor PAL_USER PAL_ZERO))) in
  if negb (kpage =? NULL) then
    do! success := install_page (PHYS_BASE - PGSIZE) kpage true in
    if (success : bool) then sret (Some PHYS_BASE)
    else do! _ := mcall (pcall (palloc_free_page kpage)) in sret None
  else sret None.

Definition validate_segment (phdr : Elf32_Phdr) (file : Z) : ST proc bool :=
  if negb (Z.land (p_offset phdr) PGMASK =? Z.land (p_vaddr phdr) PGMASK) then sret false else
  do! len := fcall (file_length file) in
  if u32 len <? p_offset phdr then sret false else
  if p_memsz phdr <? p_filesz phdr then sret false else
  if p_memsz phdr =? 0 then sret false else
  if negb (is_user_vaddr (p_vaddr phdr)) then sret false else
  if negb (is_user_vaddr (u32 (p_vaddr phdr + p_memsz phdr))) then sret false else
  if u32 (p_vaddr phdr + p_memsz phdr) <? p_vaddr phdr then sret false else
  if p_vaddr phdr <? PGSIZE then sret false else
  sret true.

(** One iteration of the loop of [load_segment]. *)
Definition load_page (file : Z) (writable : bool) (v : Z * Z * Z) : ST proc (Z * Z * Z + bool) :=
  let '(upage, read_bytes, zero_bytes) := v in
  if (0 <? read_bytes) || (0 <? zero_bytes) then
    let page_read_bytes := if read_bytes <? PGSIZE then read_bytes else PGSIZE in
    let page_zero_bytes := PGSIZE - page_read_bytes in
    do! kpage := mcall (pcall (palloc_get_page PAL_USER)) in
    if kpage =? NULL then sret (inr false) else
    do! b := fcall (file_read malloc_ok file page_read_bytes) in
    do! _ := mcall (set_memory (fun m => write_bytes m kpage b)) in
    if negb (Z.of_nat (length b) =? page_read_bytes) then
      do! _ := mcall (pcall (palloc_free_page kpage)) in sret (inr false)
    else
      do! _ := mcall (set_memory (fun m => fill m (kpage + page_read_bytes) 0 page_zero_bytes)) in
      do! ok := install_page upage kpage writable in
      if (ok : bool) then
        sret (inl (u32 (upage + PGSIZE), u32 (read_bytes - page_read_bytes), u32 (zero_bytes - page_zero_bytes)))
      else
        do! _ := mcall (pcall (palloc_free_page kpage)) in sret (inr false)
  else sret (inr true).

Definition load_segment (file ofs upage read_bytes zero_bytes : Z) (writable : bool) : ST proc bool :=
  do! _ := assert_ (u32 (read_bytes + zero_bytes) mod PGSIZE =? 0) in
  do! _ := assert_ (pg_ofs upage =? 0) in
  do! _ := assert_ (Z.rem ofs PGSIZE =? 0) in
  do! _ := fcall (file_seek file ofs) in
  sloop (load_page file writable) (upage, read_bytes, zero_bytes).

(** The case [PT_LOAD] of the loop over the program headers. *)
Definition load_phdr (file : Z) (phdr : Elf32_Phdr) : ST proc bool :=
  do! ok := validate_segment phdr file in
  if (ok : bool) then
    let writable := negb (Z.land (p_flags phdr) PF_W =? 0) in
    let file_page := Z.land (p_offset phdr) (u32 (Z.lnot PGMASK)) in
    let mem_page := Z.land (p_vaddr phdr) (u32 (Z.lnot PGMASK)) in
    let page_offset := Z.land (p_vaddr phdr) PGMASK in
    let '(read_bytes, zero_bytes) :=
      if 0 <? p_filesz phdr then
        let read_bytes := u32 (page_offset + p_filesz phdr) in
        (read_bytes, u32 (ROUND_UP (u32 (page_offset + p_memsz phdr)) PGSIZE - read_bytes))
      else (0, ROUND_UP (u32 (page_offset + p_memsz phdr)) PGSIZE) in
    load_segment file (s32 file_page) mem_page read_bytes zero_bytes writable
  else sret false.

(** The loop over the [n] program headers that are left; the result is false
    for a [goto done]. *)
Fixpoint load_phdrs (n : nat) (file file_ofs : Z) : ST proc bool :=
  match n with
  | O => sret true
  | S n' =>
      do! len := (if file_ofs <? 0 then sret (-1) else fcall (file_length file)) in
      if (file_ofs <? 0) || (len <? file_ofs) then sret false else
      do! _ := fcall (file_seek file file_ofs) in
      do! b := fcall (file_read malloc_ok file sizeof_Phdr) in
      if negb (Z.of_nat (length b) =? sizeof_Phdr) then sret false else
      let phdr := phdr_of b in
      let file_ofs := s32 (file_ofs + sizeof_Phdr) in
      if (p_type phdr =? PT_DYNAMIC) || (p_type phdr =? PT_INTERP) || (p_type phdr =? PT_SHLIB) then sret false
      else if p_type phdr =? PT_LOAD then
        do! ok := load_phdr file phdr in
        if (ok : bool) then load_phdrs n' file file_ofs else sret false
      else load_phdrs n' file file_ofs
  end.

Definition ehdr_ok (b : list Z) : bool :=
  (Z.of_nat (length b) =? sizeof_Ehdr) &&
  bool_decide (take 7 (e_ident (ehdr_of b)) = elf_magic) &&
  (e_type (ehdr_of b) =? 2) && (e_machine (ehdr_of b) =? 3) && (e_version (ehdr_of b) =? 1) &&
  (e_phentsize (ehdr_of b) =? sizeof_Phdr) && (e_phnum (ehdr_of b) <=? 1024).

(** What [load] does once the file is open: the new values of [*eip] and
    [*esp], or nothing for a failure. *)
Definition load_file (file : Z) (file_name : list Z) : ST proc (option (Z * Z)) :=
  do! b := fcall (file_read malloc_ok file sizeof_Ehdr) in
  if negb (ehdr_ok b) then
    do! _ := print (BadExecutable file_name) in sret None
  else
    do! ok := load_phdrs (Z.to_nat (e_phnum (ehdr_of b))) file (s32 (e_phoff (ehdr_of b))) in
    if (ok : bool) then
      do! esp := setup_stack in
      match esp with
      | Some esp => sret (Some (e_entry (ehdr_of b), esp))
      | None => sret None
      end
    else sret None.

Definition load (file_name : list Z) : ST proc (option (Z * Z)) :=
  do! t := kcall thread_current in
  do! pd := mcall (pagedir_create init_page_dir) in
  do! _ := write_pagedir t pd in
  do! pd := read_pagedir t in
  if pd =? NULL then do! _ := fcall (file_close malloc_ok NULL) in sret None else
  do! _ := process_activate in
  do! file := fcall (filesys_open malloc_ok junk file_name) in
  if file =? NULL then
    do! _ := print (OpenFailed file_name) in
    do! _ := fcall (file_close malloc_ok file) in sret None
  else
    do! r := load_file file file_name in
    do! _ := fcall (file_close malloc_ok file) in
    sret r.

(** ** Starting a process *)

(** [thread_exit] of the build with user programs.  In the thread that runs
    next, [thread_schedule_tail] calls [process_activate] and then frees the
    page of the dead thread. *)
Definition thread_exit : ST proc unit :=
  do! c := kcall intr_context in
  do! _ := assert_ (negb c) in
  do! _ := process_exit in
  do! cur := kcall running_thread in
  do! _ := kcall Thread.thread_exit in
  do! _ := process_activate in
  do! s := get in
  if bool_decide (threads (sched s) !! cur = None) then mcall (pcall (palloc_free_page cur)) else sret tt.

Record intr_frame : Type := mkFrame {
  f_edi : Z; f_esi : Z; f_ebp : Z; f_esp_dummy : Z; f_ebx : Z; f_edx : Z; f_ecx : Z; f_eax : Z;
  f_gs : Z; f_fs : Z; f_es : Z; f_ds : Z;
  f_vec_no : Z; f_error_code : Z; f_frame_pointer : Z;
  f_eip : Z; f_cs : Z; f_eflags : Z; f_esp : Z; f_ss : Z
}.

Definition FLAG_MBS : Z := 2.
Definition FLAG_IF : Z := 512.

(** The frame with which the process enters user mode, or nothing when the
    thread has exited. *)
Definition start_process (file_name_ : Z) : ST proc (option intr_frame) :=
  do! s := get in
  do! r := load (read_string (Z.to_nat PGSIZE) (mem (mm s)) file_name_) in
  do! _ := mcall (pcall (palloc_free_page file_name_)) in
  match r with
  | Some (eip, esp) => sret (Some (mkFrame 0 0 0 0 0 0 0 0 SEL_UDSEG SEL_UDSEG SEL_UDSEG SEL_UDSEG 0 0 0
                              eip SEL_UCSEG (Z.lor FLAG_IF FLAG_MBS) esp SEL_UDSEG))
  | None => do! _ := thread_exit in sret None
  end.

(** The thread id; the new thread runs [start_process] with the address of
    the copy of the file name. *)
Definition process_execute (file_name : list Z) : ST proc (Z * Z) :=
  do! fn_copy := mcall (pcall (palloc_get_page 0)) in
  if fn_copy =? NULL then sret (TID_ERROR, NULL) else
  do! _ := mcall (set_memory (fun m => write_bytes m fn_copy (take (Z.to_nat (PGSIZE - 1)) file_name ++ [0]))) in
  do! page := mcall (pcall (palloc_get_page PAL_ZERO)) in
  do! tid := kcall (thread_create file_name PRI_DEFAULT (if page =? NULL then None else Some page)) in
  do! _ := (if tid =? TID_ERROR then mcall (pcall (palloc_free_page fn_copy)) else sret tt) in
  sret (tid, fn_copy).
End process.
