(* ===== verification/Exec.v ===== *)
(** * Loading and leaving a program

    [load] is put together from the loader of an open file ([Loader]) and
    from opening it by name ([FsOpen]); [process_exit] takes the address
    space down again.  Between the two the memory of the kernel and of the
    other processes, described by [R], is not touched, and afterwards exactly
    the pages that were allocated before are allocated. *)
From stdpp Require Import prelude list gmap.
From Stdlib Require Import ZArith Lia.
From S2P Require Import Prelude Bitmap Dlist Thread Filesys FsData FsDir FsMap FsOpen Palloc Pagedir AddrSpace Segments Process Loader.
#[local] Open Scope Z_scope.

(** No address is mapped. *)
Definition empty_view (va : Z) : option (Z * bool) := None.

(** The file that [name] stands for in the root directory [rd], if any, is
    well formed. *)
Definition named (s : fs) (rd : inode_disk) (name : list Z) (file : option inode_disk) : Prop :=
  match find_name name (slots (disk s) rd) with
  | None => file = None
  | Some sec => exists d, file = Some d /\ sec <> ROOT_DIR_SECTOR /\ 0 <= sec < Z.of_nat (length (disk s)) /\
      inode_data s sec d /\ extent_ok (disk s) d
  end.

Lemma page_not_null pd : kernel_page pd -> pd <> NULL.
Proof. intros [_ ?]. unfold PHYS_BASE, NULL in *. lia. Qed.

Section exec.
Context (malloc_ok : nat -> bool) (junk : list Z) (Hjunk : length junk = 20%nat) (ipd ram : Z).

(** The kernel when a process is started: the pages in [R] are in use. *)
Record ready (s : proc) (R : Z -> Prop) : Prop := mkReady {
  rd_cur : thread_current (sched s) = Ret (running (sched s), sched s);
  rd_pal : palloc_ok (pal (mm s)) /\ PHYS_BASE <= base (kernel_pool (pal (mm s)));
  rd_bytes x : 0 <= mem (mm s) x < 256;
  rd_ipd : kernel_page ipd /\ (forall x, in_pages ipd 1 x = true -> R x) /\ forall i, 0 <= i < 768 -> pde (mm s) ipd i = 0;
  rd_alloc x : allocated (pal (mm s)) x = true <-> R x;
  rd_ram : pool_end (user_pool (pal (mm s))) <= PHYS_BASE + 4096 * ram;
  rd_tss : is_Some (ktss s)
}.

(** The page directory that the processor uses for [pd]. *)
Definition effective (pd : Z) : Z := if pd =? NULL then ipd else pd.

Lemma effective_page pd : kernel_page pd -> effective pd = pd.
Proof. intros Hk%page_not_null. unfold effective. by destruct (Z.eqb_spec pd NULL). Qed.

Lemma run_activate m pd :
  kernel_page (effective pd) -> pagedir_activate ipd pd m = Ret (tt, mkMmu (pal m) (effective pd - PHYS_BASE) []).
Proof. intros Hk. unfold pagedir_activate. fold (effective pd). destruct (run_vtop _ Hk) as [-> _]. done. Qed.

(** Loading the page-directory register does not change the memory. *)
Lemma vm_activate m pd R c : vm_ok m pd R -> vm_ok (mkMmu (pal m) c []) pd R.
Proof.
  intros H. destruct (po_pal _ _ (vm_pd _ _ _ H)) as [Hok Hb].
  apply (vm_frame_rule m _ pd R); try done; [apply (po_bytes _ _ (vm_pd _ _ _ H))|apply (vm_acct _ _ _ H)|apply (vm_rest _ _ _ H)].
Qed.

(** The scheduler may ask which thread runs. *)
Definition is_running (s : proc) : Prop := thread_current (sched s) = Ret (running (sched s), sched s).

Lemma run_running s : is_running s -> kcall thread_current s = Ret (running (sched s), s).
Proof. intros H. rewrite (run_kcall _ _ _ _ H). by rewrite with_sched_same. Qed.

Lemma run_pagedir s pd : default NULL (pagedirs s !! running (sched s)) = pd -> read_pagedir (running (sched s)) s = Ret (pd, s).
Proof. by intros <-. Qed.

Lemma run_process_activate s pd t :
  is_running s -> default NULL (pagedirs s !! running (sched s)) = pd -> kernel_page (effective pd) -> ktss s = Some t ->
  process_activate ipd s = Ret (tt, with_tss (with_mm s (mkMmu (pal (mm s)) (effective pd - PHYS_BASE) []))
    (Some (mkTss (u32 (running (sched s) + PGSIZE)) (ss0 t) (tss_bitmap t)))).
Proof.
  intros Hr Hp Hk Ht. unfold process_activate. sstep (run_running s Hr). sstep (run_pagedir s pd Hp).
  sstep (run_mcall _ s _ _ (run_activate (mm s) pd Hk)). set (s1 := with_mm s _).
  sstep (run_running s1 Hr). sstep (eq_refl : get s1 = Ret (s1, s1)). change (ktss s1) with (ktss s). rewrite Ht. done.
Qed.

(** The state in which [load] opens the file. *)
Definition activated (s : proc) (pd : Z) (m : mmu) (x : option tss) : proc :=
  mkProc (mkMmu (pal m) (pd - PHYS_BASE) []) (fsys s) (sched s) (<[running (sched s) := pd]> (pagedirs s)) x (console s).

Lemma run_load_start s R :
  ready s R ->
  (forall i, ~ free_run (kernel_pool (pal (mm s))) i 1) /\ (forall name, load malloc_ok junk ipd ram name s =
     Ret (None, with_pagedirs s (<[running (sched s) := NULL]> (pagedirs s)))) \/
  exists pd m t, let x := Some t in pok ipd ram (activated s pd m x) pd R /\ (forall y, R y -> mem m y = mem (mm s) y) /\
    (forall va, 0 <= va < PHYS_BASE -> view (mm (activated s pd m x)) pd va = None) /\
    forall name, load malloc_ok junk ipd ram name s =
      (do! file := fcall (filesys_open malloc_ok junk name) in
       if file =? NULL then
         do! _ := print (OpenFailed name) in
         do! _ := fcall (file_close malloc_ok file) in sret None
       else
         do! r := load_file malloc_ok ipd ram file name in
         do! _ := fcall (file_close malloc_ok file) in
         sret r) (activated s pd m x).
Proof.
  intros [Hcur [Hok Hb] Hby (Hk & HiR & Hz) Hal Hram [t Ht]]. set (t0 := running (sched s)).
  assert (Hw : forall pd s', write_pagedir t0 pd s' = Ret (tt, with_pagedirs s' (<[t0 := pd]> (pagedirs s')))) by done.
  destruct (vm_create ipd (mm s) R Hok Hb Hby Hk HiR Hz Hal) as [[Hcr Hno]|(pd & m & Hcr & Hvm & Hne & Hv & HR & Hup & _)].
  - left. split; [done|]. intros name. unfold load. sstep (run_running s Hcur). sstep (run_mcall _ s _ _ Hcr). rewrite with_mm_same.
    sstep (Hw NULL s). set (s1 := with_pagedirs s _).
    assert (Hp : default NULL (pagedirs s1 !! running (sched s1)) = NULL) by (cbn; by rewrite lookup_insert_eq).
    sstep (run_pagedir s1 NULL Hp). change (NULL =? NULL) with true. cbv iota.
    change (fcall (file_close malloc_ok NULL)) with (fcall (sret tt : ST fs unit)). unfold sbind, fcall, sret. by rewrite with_fsys_same.
  - right. pose proof (spage_kernel m pd pd (vm_pd _ _ _ Hvm) (sp_pd m pd)) as Hkp.
    exists pd, m, (mkTss (u32 (t0 + PGSIZE)) (ss0 t) (tss_bitmap t)). split; [|split; [done|split]].
    + split; try done; [by cbn; rewrite lookup_insert_eq|by apply vm_activate|]. cbn. by rewrite Hup.
    + intros va Hva. rewrite <- (Hv va Hva). by apply same_view.
    + intros name. unfold load. sstep (run_running s Hcur). sstep (run_mcall _ s _ _ Hcr).
      sstep (Hw pd (with_mm s m)). set (s1 := with_pagedirs (with_mm s m) _).
      assert (Hp : default NULL (pagedirs s1 !! running (sched s1)) = pd) by (cbn; by rewrite lookup_insert_eq).
      sstep (run_pagedir s1 pd Hp). pose proof (page_not_null pd Hkp). destruct (Z.eqb_spec pd NULL); [done|].
      pose proof (effective_page pd Hkp) as He. rewrite <- He in Hkp. sstep (run_process_activate s1 pd t Hcur Hp Hkp Ht). by rewrite He.
Qed.

(** What [load] makes of [s]: [pd] is the page directory of the thread. *)
Record loaded (s s' : proc) (R : Z -> Prop) (pd : Z) : Prop := mkLoaded {
  ld_fs : exists k, fsys s' = with_allocs (fsys s) k;
  ld_tss : is_Some (ktss s');
  ld_thread : sched s' = sched s /\ pagedirs s' = <[running (sched s) := pd]> (pagedirs s);
  ld_mem x : R x -> mem (mm s') x = mem (mm s) x;
  ld_space : (pd = NULL /\ mm s' = mm s) \/ (pok ipd ram s' pd R /\ cr3 (mm s') = pd - PHYS_BASE)
}.

Lemma run_load_named s R rd name file :
  ready s R -> root_ok (fsys s) rd -> (forall k o, 0 <= sector_byte (disk (fsys s)) k o < 256) -> c_string name ->
  named (fsys s) rd name file ->
  exists r s' pd, load malloc_ok junk ipd ram name s = Ret (r, s') /\ loaded s s' R pd /\
    let dk := disk (fsys s) in
    match r with
    | Some (eip, esp) => exists d, file = Some d /\ executable dk d empty_view /\ eip = e_entry (ehdr dk d) /\ esp = PHYS_BASE /\
        pd <> NULL /\ forall va, 0 <= va < PHYS_BASE -> view (mm s') pd va = stack_view (program dk d empty_view) va
    | None => exhausted s' \/ ((forall j, malloc_ok j = true) -> forall d, file = Some d -> ~ executable dk d empty_view)
    end.
Proof.
  intros Hrd Hrt Hby Hn Hnm. destruct (run_load_start s R Hrd) as [[Hno Hl]|(pd & m & t & Hpk & HR & Hv & Hl)].
  { exists None, (with_pagedirs s (<[running (sched s) := NULL]> (pagedirs s))), NULL. split; [apply Hl|]. split; [|by left; right].
    split; try done; [|apply Hrd|by left]. exists (allocs (fsys s)). by destruct s as [? []]. }
  specialize (Hl name). set (s1 := activated s pd m (Some t)) in *. change (disk (fsys s)) with (disk (fsys s1)) in *. unfold named in Hnm.
  assert (Hse : forall s2, sched s2 = sched s1 -> pagedirs s2 = pagedirs s1 ->
     sched s2 = sched s /\ pagedirs s2 = <[running (sched s) := pd]> (pagedirs s)) by (by intros s2 -> ->).
  assert (Hpn : pd <> NULL).
  { exact (page_not_null _ (spage_kernel _ _ _ (vm_pd _ _ _ (pk_vm _ _ _ _ _ Hpk)) (sp_pd (mm s1) pd))). }
  destruct (run_filesys_open malloc_ok junk Hjunk (fsys s) rd name Hrt Hn)
    as [(k & Hop & Hmiss)|(sec & f & a & i & F & k & Efn & Hop & Hf & Hino & Hsec & Hda & Hdk & _ & _ & Hcl)].
  { intros sec Efn. rewrite Efn in Hnm. destruct Hnm as (d & _ & Hsr & Hsd & Hid & _). eauto. }
  - rewrite Hl. sstep (run_fcall _ s1 _ _ Hop). change (NULL =? NULL) with true. cbv iota.
    eexists None, _, pd. split; [reflexivity|]. split.
    + split; [by exists k|done|by apply Hse|done|]. right. split; [by destruct Hpk|done].
    + right. intros Hm d Hd. by rewrite (Hmiss Hm), Hd in Hnm.
  - rewrite Efn in Hnm. destruct Hnm as (d & -> & Hsr & Hsd & Hid & Hext).
    assert (data i = d) as Hd by (destruct Hda as [_ (b & Hb & <-)], Hid as [_ (b' & Hb' & <-)]; congruence).
    rewrite Hl. sstep (run_fcall _ s1 _ _ Hop). destruct (Z.eqb_spec f NULL); [done|]. set (s2 := with_fsys s1 _).
    assert (Hpk2 : pok ipd ram s2 pd R) by (by destruct Hpk).
    destruct (run_load_file malloc_ok ipd ram (disk (fsys s)) d (rt_disk _ _ Hrt) Hext Hby F f a false i Hf Hino Hdk Hd s2 pd R k name Hpk2 eq_refl)
      as (r & s3 & Hr & (p3 & k3 & Hfs3) & (v3 & Hst3) & Hres).
    sstep Hr. specialize (Hcl p3 k3). change (open_at F f a p3 k3) with (fat F f a false p3 k3) in Hcl. rewrite <- Hfs3 in Hcl.
    sstep (run_fcall _ s3 _ _ Hcl). set (s4 := with_fsys s3 _). pose proof Hst3 as (Hpk3 & (T1 & T2 & T3 & T4) & HR3 & Hv3).
    exists r, s4, pd. split; [done|]. split.
    { split; [by exists k3|change (ktss s4) with (ktss s3); by rewrite T3|by apply Hse|intros y Hy; change (mm s4) with (mm s3); rewrite HR3 by done; by apply HR|].
      right. split; [by destruct Hpk3|]. change (mm s4) with (mm s3). rewrite T4. done. }
    pose proof (executable_ext (disk (fsys s)) d (rt_disk _ _ Hrt) Hext Hby F f a i Hf Hino Hdk Hd) as Hex.
    assert (Hsv : same_view_on (view (mm s2) pd) empty_view) by (intros va Hva; by apply Hv).
    destruct r as [[eip esp]|].
    + destruct Hres as (He & -> & -> & _ & (_ & _ & _ & Hvf)). exists d. split_and!; try done; [by eapply Hex|].
      intros va Hva. change (mm s4) with (mm s3). rewrite Hvf by done. unfold stack_view. destruct (_ && _); [done|].
      by apply image_ext.
    + destruct Hres as [?|Hne]; [by left|]. right. intros Hm d' [= <-] He. apply (Hne Hm). eapply Hex; [|exact He]. by apply same_view_sym.
Qed.

(** ** Leaving *)

Lemma run_process_exit s pd R :
  pok ipd ram s pd R -> kernel_page ipd ->
  exists s', process_exit ipd s = Ret (tt, s') /\ fsys s' = fsys s /\ sched s' = sched s /\
    pagedirs s' = <[running (sched s) := NULL]> (pagedirs s) /\ console s' = console s /\ ktss s' = ktss s /\
    cr3 (mm s') = ipd - PHYS_BASE /\ palloc_ok (pal (mm s')) /\
    (forall x, allocated (pal (mm s')) x = true <-> R x) /\ (forall x, R x -> mem (mm s') x = mem (mm s) x).
Proof.
  intros Hpk Hk. pose proof Hpk as [Hcur Hp Hne Hvm _]. unfold process_exit. sstep (run_running s Hcur).
  assert (Hpd : default NULL (pagedirs s !! running (sched s)) = pd) by (by rewrite Hp). sstep (run_pagedir s pd Hpd).
  pose proof (page_not_null _ (spage_kernel _ _ _ (vm_pd _ _ _ Hvm) (sp_pd (mm s) pd))) as Hpn.
  destruct (Z.eqb_spec pd NULL); [done|]. cbn [negb].
  sstep (eq_refl : write_pagedir (running (sched s)) NULL s = Ret (tt, with_pagedirs s (<[running (sched s) := NULL]> (pagedirs s)))).
  set (s1 := with_pagedirs s _). sstep (run_mcall _ s1 _ _ (run_activate (mm s1) NULL Hk)). set (m1 := mkMmu _ _ _) in *. assert (Hvm1 : vm_ok m1 pd R) by (by apply vm_activate).
  destruct (vm_destroy m1 pd R Hvm1 ipd Hne) as (m2 & Hd & Hok & _ & _ & Hc & _ & Hal & HR).
  rewrite (run_mcall _ (with_mm s1 m1) _ _ Hd). eexists. split; [done|]. by split_and!.
Qed.

(** The current thread has the page directory [pd], or none, and beside
    its address space the pages in [R] are in use. *)
Definition space (s : proc) (pd : Z) (R : Z -> Prop) : Prop :=
  pok ipd ram s pd R \/
  (is_running s /\ default NULL (pagedirs s !! running (sched s)) = NULL /\ pd = NULL /\ palloc_ok (pal (mm s)) /\
   forall x, allocated (pal (mm s)) x = true <-> R x).

Lemma space_running s pd R : space s pd R -> is_running s.
Proof. intros [[]|(? & _)]; done. Qed.

Lemma loaded_space s s' R pd : ready s R -> loaded s s' R pd -> space s' pd R.
Proof.
  intros [Hcur [Hok _] _ _ Hal _ _] [_ _ [Hs Hp] _ [[-> Hmm]|[Hpk _]]]; [right|by left]. unfold is_running. rewrite Hs, Hp, Hmm.
  split_and!; try done. by rewrite lookup_insert_eq.
Qed.

(** The effect of [process_exit]. *)
Record left_space (s s' : proc) (R : Z -> Prop) : Prop := mkLeft {
  lv_rest : fsys s' = fsys s /\ sched s' = sched s /\ console s' = console s /\ ktss s' = ktss s;
  lv_pagedirs t : default NULL (pagedirs s' !! t) = if decide (t = running (sched s)) then NULL else default NULL (pagedirs s !! t);
  lv_pal : palloc_ok (pal (mm s'));
  lv_alloc x : allocated (pal (mm s')) x = true <-> R x;
  lv_mem x : R x -> mem (mm s') x = mem (mm s) x
}.

Lemma run_leave s pd R : space s pd R -> kernel_page ipd -> exists s', process_exit ipd s = Ret (tt, s') /\ left_space s s' R.
Proof.
  intros [Hpk|(Hcur & Hp & -> & Hok & Hal)] Hk.
  - destruct (run_process_exit s pd R Hpk Hk) as (s' & He & E1 & E2 & E3 & E4 & E5 & _ & Hok & Hal & HR). exists s'. split; [done|].
    split; try done. intros t. rewrite E3. destruct (decide (t = running (sched s))) as [->|]; [by rewrite lookup_insert_eq|by rewrite lookup_insert_ne].
  - exists s. split; [|split; try done; intros t; by destruct (decide _) as [->|]].
    unfold process_exit. sstep (run_running s Hcur). by sstep (run_pagedir s NULL Hp).
Qed.


(** C6: A process that is loaded and exits leaves nothing behind: after [load]
    of any file, with success or not, also when allocations of [malloc] fail
    on the way, [process_exit] returns, exactly the
    pages that were in use before are in use, with the same contents, the
    file system and the scheduler are as before, and the thread has no page
    directory. *)
Theorem load_exit_no_leak s R rd name file :
  ready s R -> root_ok (fsys s) rd -> (forall k o, 0 <= sector_byte (disk (fsys s)) k o < 256) -> c_string name ->
  named (fsys s) rd name file ->
  exists s' k, (do! _ := load malloc_ok junk ipd ram name in process_exit ipd) s = Ret (tt, s') /\
    fsys s' = with_allocs (fsys s) k /\ sched s' = sched s /\ default NULL (pagedirs s' !! running (sched s)) = NULL /\
    (forall x, allocated (pal (mm s')) x = true <-> R x) /\ (forall x, R x -> mem (mm s') x = mem (mm s) x).
Proof.
  intros Hrd Hrt Hby Hn Hnm. destruct (run_load_named s R rd name file Hrd Hrt Hby Hn Hnm) as (r & s1 & pd & Hl & Hld & _).
  destruct (run_leave s1 pd R (loaded_space _ _ _ _ Hrd Hld)) as (s2 & He & [(E1 & E2 & _) Hp _ Hal HR]); [apply Hrd|].
  destruct Hld as [[k Hfs] _ [Hs _] HR1 _]. exists s2, k. sstep Hl. rewrite He. split_and!; try done; try congruence.
  - rewrite Hp, Hs. by rewrite decide_True.
  - intros x Hx. rewrite HR by done. auto.
Qed.

(** ** Starting a process *)

Lemma vm_ext m pd R R' : (forall x, R x <-> R' x) -> vm_ok m pd R -> vm_ok m pd R'.
Proof. intros E [H1 H2 H3 H4 H5]. split; try done; [intros x; by rewrite <- E|intros x Hx; apply H5; by apply E]. Qed.

(** A page outside of the address space is given back. *)
Lemma space_free s pd R k :
  space s pd (with_page R k) -> (forall x, R x -> in_pages k 1 x = false) -> kernel_page k ->
  exists s', mcall (pcall (palloc_free_page k)) s = Ret (tt, s') /\ space s' pd R /\ same_thread s s' /\ fsys s' = fsys s /\
    (forall x, R x -> mem (mm s') x = mem (mm s) x) /\
    (pd <> NULL -> forall va, 0 <= va < PHYS_BASE -> view (mm s') pd va = view (mm s) pd va).
Proof.
  intros [Hpk|(Hcur & Hp & -> & Hok & Hal)] Hdis Hk.
  - destruct (run_put_back ipd ram s pd R k Hpk Hdis Hk) as (s' & Hr & E1 & _ & (Hpk' & Hst & HR & Hv) & _).
    exists s'. split_and!; try done. by left.
  - assert (Hka : allocated (pal (mm s)) k = true) by (apply Hal; right; apply in_pages_spec; lia).
    destruct (run_free_page (mm s) k Hok (proj1 Hk) Hka) as (m & Hr & Hok' & _ & _ & Hc & _ & Hal' & HR & _).
    exists (with_mm s m). rewrite (run_mcall _ s _ _ Hr). split_and!; try done.
    + right. split_and!; try done. intros x. cbn [mm with_mm]. rewrite Hal', andb_true_iff, negb_true_iff, Hal. split.
      * intros [H1 [?|H2]]; [done|]. by rewrite H1 in H2.
      * intros Hx. split; [by apply Hdis|by left].
    + intros x Hx. cbn [mm with_mm]. by rewrite HR, Hdis.
Qed.

Lemma read_string_c n m a : c_string (read_string n m a).
Proof.
  unfold c_string. revert a. induction n as [|n IH]; intros a; cbn [read_string]; [constructor|].
  destruct (Z.eqb_spec (m a) 0); constructor; auto.
Qed.

(** What [thread_exit] relies on: the thread is a process with a page of its
    own, and every thread has a page directory or none. *)
Record exit_ready (s : proc) (R : Z -> Prop) : Prop := mkExitReady {
  er_kernel : kernel_ok (sched s) /\ in_external_intr (sched s) = false;
  er_thread : running (sched s) <> idle_thread (sched s) /\ running (sched s) <> initial_thread (sched s);
  er_page : kernel_page (running (sched s)) /\ forall x, in_pages (running (sched s)) 1 x = true -> R x;
  er_pagedirs t : kernel_page (effective (default NULL (pagedirs s !! t)));
  er_tss : is_Some (ktss s);
  er_ipd : kernel_page ipd
}.

(** The scheduler after the exit of the running thread of [k]. *)
Definition exited (k : kernel) : kernel := switch_to (leave (with_intr k false) THREAD_DYING (ready_list k) (exit_all k)).

Lemma exited_gone k : kernel_ok k -> running k <> initial_thread k -> threads (exited k) !! running k = None.
Proof.
  intros [H _] Hi. destruct (ki_alive _ _ H) as [c Hc]. unfold exited, switch_to. cbn [threads]. unfold leave, set_current. ksimp.
  rewrite lookup_alter_eq, Hc. cbn [fmap option_fmap option_map]. destruct (Z.eqb_spec (running k) (initial_thread k)); [done|].
  cbn. apply lookup_delete_eq.
Qed.

Lemma run_exit_thread s pd R :
  space s pd R -> exit_ready s R ->
  exists s', thread_exit ipd s = Ret (tt, s') /\ fsys s' = fsys s /\ sched s' = exited (sched s) /\ kernel_ok (sched s') /\
    (forall x, allocated (pal (mm s')) x = true <-> R x /\ in_pages (running (sched s)) 1 x = false) /\
    cr3 (mm s') = effective (default NULL (pagedirs s' !! running (sched s'))) - PHYS_BASE.
Proof.
  intros Hsp [[Hk Hctx] [Hne Hni] [Htp HtR] Hpds [t Ht] Hipd]. unfold thread_exit.
  assert (Hc : kcall intr_context s = Ret (false, s)) by (rewrite (run_kcall _ _ false (sched s)); [by rewrite with_sched_same|by unfold intr_context; rewrite Hctx]).
  sstep Hc. sassert by done. destruct (run_leave s pd R Hsp Hipd) as (s1 & He & [(E1 & E2 & E3 & E4) Hp Hok Hal HR]). sstep He.
  sstep (run_kcall running_thread s1 _ _ eq_refl). rewrite with_sched_same. destruct (run_thread_exit (sched s) Hk Hctx Hne) as [Hx Hk2].
  fold (exited (sched s)) in Hx, Hk2. rewrite <- E2 in Hx. sstep (run_kcall _ s1 _ _ Hx). rewrite E2 in *. set (s2 := with_sched s1 (exited (sched s))).
  assert (Hcur2 : is_running s2) by (unfold is_running; apply run_thread_current, Hk2).
  assert (Hpk2 : kernel_page (effective (default NULL (pagedirs s2 !! running (sched s2))))).
  { change (pagedirs s2) with (pagedirs s1). rewrite Hp. destruct (decide _); [exact Hipd|apply Hpds]. }
  assert (Ht2 : ktss s2 = Some t) by (change (ktss s2) with (ktss s1); congruence).
  sstep (run_process_activate s2 _ t Hcur2 eq_refl Hpk2 Ht2). set (s3 := with_tss _ _). sstep (eq_refl : get s3 = Ret (s3, s3)).
  change (sched s3) with (exited (sched s)). rewrite bool_decide_true by (by apply exited_gone).
  assert (Hta : allocated (pal (mm s3)) (running (sched s)) = true) by (apply Hal, HtR, in_pages_spec; lia).
  destruct (run_free_page (mm s3) _ Hok (proj1 Htp) Hta) as (m & Hf & _ & _ & _ & Hcr & _ & Hal' & _).
  rewrite (run_mcall _ s3 _ _ Hf). eexists. split; [done|]. split_and!; try done.
  intros x. cbn [mm with_mm]. rewrite Hal', andb_true_iff, negb_true_iff. change (pal (mm s3)) with (pal (mm s1)). rewrite Hal. tauto.
Qed.

(** C30: [start_process], run by the new thread with the page [k] that holds
    the file name, also when allocations of [malloc] fail: if [load] succeeds
    the file is an executable, the page of the name is freed and the
    frame for user mode has the selectors of the user segments, interrupts
    enabled, the entry point and the stack pointer, over the address space of
    the program; if it fails, the thread exits, and the pages in use are
    exactly those of before without the page of the name and the page of the
    thread, the scheduler's invariant holds and the processor uses the page
    directory of the thread that runs next. *)
Theorem start_process_correct s R rd k file :
  ready s (with_page R k) -> kernel_page k -> (forall x, R x -> in_pages k 1 x = false) -> exit_ready s R ->
  root_ok (fsys s) rd -> (forall k o, 0 <= sector_byte (disk (fsys s)) k o < 256) ->
  named (fsys s) rd (read_string 4096 (mem (mm s)) k) file ->
  exists r s' n, start_process malloc_ok junk ipd ram k s = Ret (r, s') /\ fsys s' = with_allocs (fsys s) n /\
    (exists r1 s1, load malloc_ok junk ipd ram (read_string 4096 (mem (mm s)) k) s = Ret (r1, s1) /\ (r = None <-> r1 = None)) /\
    let dk := disk (fsys s) in
    match r with
    | Some fr => exists d pd, file = Some d /\ executable dk d empty_view /\
        fr = mkFrame 0 0 0 0 0 0 0 0 SEL_UDSEG SEL_UDSEG SEL_UDSEG SEL_UDSEG 0 0 0
               (e_entry (ehdr dk d)) SEL_UCSEG 514 PHYS_BASE SEL_UDSEG /\
        pok ipd ram s' pd R /\ sched s' = sched s /\
        forall va, 0 <= va < PHYS_BASE -> view (mm s') pd va = stack_view (program dk d empty_view) va
    | None => sched s' = exited (sched s) /\ kernel_ok (sched s') /\
        (forall x, allocated (pal (mm s')) x = true <-> R x /\ in_pages (running (sched s)) 1 x = false) /\
        cr3 (mm s') = effective (default NULL (pagedirs s' !! running (sched s'))) - PHYS_BASE
    end.
Proof.
  intros Hrd Hk Hdis Her Hrt Hby Hnm. unfold start_process. sstep (eq_refl : get s = Ret (s, s)). change (Z.to_nat PGSIZE) with 4096%nat.
  destruct (run_load_named s _ rd _ file Hrd Hrt Hby (read_string_c _ _ _) Hnm) as (r & s1 & pd & Hl & Hld & Hres). sstep Hl.
  destruct (space_free s1 pd R k (loaded_space _ _ _ _ Hrd Hld) Hdis Hk) as (s2 & Hf & Hsp & (T1 & T2 & T3 & T4) & Hfs2 & HR2 & Hv2). sstep Hf.
  pose proof Hld as [[n Hfs] Htss [Hs Hp] HR Hsp1]. destruct r as [[eip esp]|].
  - destruct Hres as (d & -> & Hex & -> & -> & Hpn & Hv). eexists _, s2, n. split; [done|]. split; [by rewrite Hfs2|]. split; [by eexists _, s1; split; [exact Hl|]|].
    exists d, pd. split_and!; try done; [|congruence|intros va Hva; rewrite Hv2 by done; auto].
    destruct Hsp as [?|(_ & _ & ? & _)]; done.
  - destruct Her as [[E1 E2] [E3 E4] [E5 E6] E7 E8 E9]. destruct (run_exit_thread s2 pd R Hsp) as (s3 & Hx & X1 & X2 & X3 & X4 & X5).
    { split; rewrite ?T1, ?Hs; try done.
      - intros t. rewrite T2, Hp. destruct (decide (t = running (sched s))) as [->|]; [rewrite lookup_insert_eq|by rewrite lookup_insert_ne].
        cbn. destruct Hsp1 as [[-> _]|[Hpk _]]; [done|].
        pose proof (spage_kernel _ _ _ (vm_pd _ _ _ (pk_vm _ _ _ _ _ Hpk)) (sp_pd (mm s1) pd)) as Hkp. cbn. by rewrite effective_page.
      - by rewrite T3. }
    exists None, s3, n. sstep Hx. split; [done|]. split; [by rewrite X1, Hfs2|]. split; [by exists None, s1|]. rewrite X2, X5 in *. rewrite T1, Hs in *. by split_and!.
Qed.

End exec.

(** ** Making a process *)

Lemma read_string_written m a l n :
  c_string l -> (length l < n)%nat -> (forall j, 0 <= j <= Z.of_nat (length l) -> m (a + j) = default 0 ((l ++ [0]) !! Z.to_nat j)) ->
  read_string n m a = l.
Proof.
  revert a n. induction l as [|c l IH]; intros a [|n] Hc Hl Hm'; cbn [length] in Hl; try lia; cbn [read_string].
  - specialize (Hm' 0). rewrite Z.add_0_r in Hm'. rewrite Hm' by (cbn; lia). done.
  - inversion_clear Hc as [|? ? Hc0 Hcl]. assert (Hm0 : m a = c) by (specialize (Hm' 0); rewrite Z.add_0_r in Hm'; rewrite Hm' by (cbn; lia); done).
    rewrite Hm0. destruct (Z.eqb_spec c 0); [done|]. f_equal. apply IH; [done|lia|]. intros j Hj.
    replace (a + 1 + j) with (a + (j + 1)) by lia. rewrite Hm' by (cbn [length]; lia).
    replace (Z.to_nat (j + 1)) with (S (Z.to_nat j)) by lia. done.
Qed.

Lemma write_bytes_out m a b x : (length b <= 4096)%nat -> in_pages a 1 x = false -> write_bytes m a b x = m x.
Proof.
  intros Hl Hx%in_pages_false. unfold write_bytes.
  destruct (Z.leb_spec a x), (Z.ltb_spec x (a + Z.of_nat (length b))); cbn [andb]; (done || lia).
Qed.

Lemma write_bytes_in m a b j : 0 <= j < Z.of_nat (length b) -> write_bytes m a b (a + j) = nth_byte b j.
Proof.
  intros Hj. unfold write_bytes. replace (a + j - a) with j by lia.
  destruct (Z.leb_spec a (a + j)), (Z.ltb_spec (a + j) (a + Z.of_nat (length b))); cbn [andb]; (done || lia).
Qed.

(** The memory when a process is made: the threads are on pages in use. *)
Record create_ready (s : proc) (R : Z -> Prop) : Prop := mkCreateReady {
  cr_pal : palloc_ok (pal (mm s)) /\ PHYS_BASE <= base (kernel_pool (pal (mm s)));
  cr_alloc x : allocated (pal (mm s)) x = true <-> R x;
  cr_kernel : kernel_ok (sched s) /\ in_external_intr (sched s) = false;
  cr_threads t : is_Some (threads (sched s) !! t) -> R t;
  cr_tid : next_tid (sched s) <> TID_ERROR
}.

(** A page from the kernel pool. *)
Lemma run_get_kernel s z :
  palloc_ok (pal (mm s)) -> PHYS_BASE <= base (kernel_pool (pal (mm s))) ->
  (mcall (pcall (palloc_get_page (if (z : bool) then PAL_ZERO else 0))) s = Ret (NULL, s) /\
   forall i, ~ free_run (kernel_pool (pal (mm s))) i 1) \/
  exists a p, mcall (pcall (palloc_get_page (if z then PAL_ZERO else 0))) s = Ret (a, with_mm s (mkMmu p (cr3 (mm s)) (tlb (mm s)))) /\
    kernel_page a /\ palloc_ok p /\ (forall x, in_pages a 1 x = true -> allocated (pal (mm s)) x = false) /\
    (forall x, allocated p x = in_pages a 1 x || allocated (pal (mm s)) x) /\
    (forall x, in_pages a 1 x = false -> memory p x = mem (mm s) x) /\ base (kernel_pool p) = base (kernel_pool (pal (mm s))).
Proof.
  intros Hok Hb. unfold palloc_get_page. set (flags := if z then PAL_ZERO else 0).
  assert (Hfl : has_flag flags PAL_USER = false /\ has_flag flags PAL_ASSERT = false) by (by destruct z).
  destruct Hfl as [Hu Ha]. pose proof (palloc_get_cases (pal (mm s)) flags 1 Hok ltac:(lia)) as Hcs. cbv zeta in Hcs.
  destruct (palloc_get_spec (pal (mm s)) flags 1 Hok ltac:(lia)) as [[Hno Hg]|(a & p & Hg & Hok' & Hnn & Hal & H1 & H2 & H3 & H4 & H5)];
    rewrite Hu in *; cbn [the_pool] in *.
  - left. rewrite Ha in Hg. split; [|done]. unfold mcall, pcall. rewrite Hg. destruct s as [[] ? ? ? ? ?]. done.
  - right. exists a, p. split; [unfold mcall, pcall; by rewrite Hg|]. rewrite PGSIZE_eq in *.
    destruct Hok as ((_ & _ & _ & Hke) & _). split_and!; try done; try lia.
    + split; [done|lia].
    + intros x Hx. unfold mem. rewrite H5, Hx. by rewrite andb_false_r.
    + destruct Hcs as [[_ Hx]|(i & map & _ & _ & Hx)]; rewrite Hx in Hg; [rewrite Ha in Hg|]; injection Hg; intros <- _; done.
Qed.

(** [s'] is [s] with the string [l] in the new page [fn]. *)
Record copied (s s' : proc) (R : Z -> Prop) (fn : Z) (l : list Z) : Prop := mkCopied {
  cp_rest : sched s' = sched s /\ fsys s' = fsys s;
  cp_pal : palloc_ok (pal (mm s')) /\ PHYS_BASE <= base (kernel_pool (pal (mm s')));
  cp_page : kernel_page fn /\ forall x, R x -> in_pages fn 1 x = false;
  cp_alloc x : allocated (pal (mm s')) x = true <-> R x \/ in_pages fn 1 x = true;
  cp_mem x : in_pages fn 1 x = false -> mem (mm s') x = mem (mm s) x;
  cp_bytes j : 0 <= j <= Z.of_nat (length l) -> mem (mm s') (fn + j) = default 0 ((l ++ [0]) !! Z.to_nat j)
}.

(** [process_execute] after the name has been copied. *)
Definition spawn (file_name : list Z) (fn_copy : Z) : ST proc (Z * Z) :=
  do! page := mcall (pcall (palloc_get_page PAL_ZERO)) in
  do! tid := kcall (thread_create file_name PRI_DEFAULT (if page =? NULL then None else Some page)) in
  do! _ := (if tid =? TID_ERROR then mcall (pcall (palloc_free_page fn_copy)) else sret tt) in
  sret (tid, fn_copy).

Lemma run_copy_name s R name :
  create_ready s R ->
  process_execute name s = Ret ((TID_ERROR, NULL), s) \/
  exists fn s', copied s s' R fn (take 4095 name) /\ process_execute name s = spawn name fn s'.
Proof.
  intros [[Hok Hb] Hal _ _ _]. unfold process_execute.
  destruct (run_get_kernel s false Hok Hb) as [[Hg Hno]|(fn & p & Hg & Hfk & Hok1 & Hfr & Hal1 & Hm1 & Hb1)]; [left; by sstep Hg|right].
  pose proof (page_not_null fn Hfk). set (l := take 4095 name). assert (Hll : (length l <= 4095)%nat) by (unfold l; rewrite length_take; lia).
  set (s2 := with_mm (with_mm s (mkMmu p (cr3 (mm s)) (tlb (mm s)))) (mkMmu (mkPalloc (kernel_pool p) (user_pool p) (write_bytes (memory p) fn (l ++ [0]))) (cr3 (mm s)) (tlb (mm s)))).
  exists fn, s2. split; [|sstep Hg; by destruct (Z.eqb_spec fn NULL)]. split; try done.
  - by cbn; rewrite Hb1.
  - split; [done|]. intros x Hx. destruct (in_pages fn 1 x) eqn:E; [|done]. apply Hfr in E. apply Hal in Hx. congruence.
  - intros x. change (allocated (pal (mm s2)) x) with (allocated p x). rewrite Hal1, orb_true_iff, Hal. tauto.
  - intros x Hx. change (mem (mm s2) x) with (write_bytes (memory p) fn (l ++ [0]) x).
    rewrite write_bytes_out by (rewrite ?length_app; cbn; done || lia). auto.
  - intros j Hj. change (mem (mm s2) (fn + j)) with (write_bytes (memory p) fn (l ++ [0]) (fn + j)).
    rewrite write_bytes_in by (rewrite length_app; cbn; lia). done.
Qed.

(** No page is left for the thread: the copy is given back. *)
Lemma spawn_fails s s2 R fn name l :
  copied s s2 R fn l -> mcall (pcall (palloc_get_page PAL_ZERO)) s2 = Ret (NULL, s2) ->
  exists s', spawn name fn s2 = Ret ((TID_ERROR, fn), s') /\ fsys s' = fsys s /\ sched s' = sched s /\
    (forall x, R x -> mem (mm s') x = mem (mm s) x) /\ (forall x, allocated (pal (mm s')) x = true <-> R x).
Proof.
  intros [[E1 E2] [Hok _] [Hfk HRf] Hal Hm _] Hg. unfold spawn. sstep Hg.
  change (NULL =? NULL) with true. cbv iota. sstep (run_kcall _ s2 _ _ (run_thread_create_fail name PRI_DEFAULT (sched s2))).
  rewrite with_sched_same. change (TID_ERROR =? TID_ERROR) with true. cbv iota.
  assert (Hfa : allocated (pal (mm s2)) fn = true) by (apply Hal; right; apply in_pages_spec; lia).
  destruct (run_free_page (mm s2) fn Hok (proj1 Hfk) Hfa) as (m & Hf & _ & _ & _ & _ & _ & Hal' & Hm' & _).
  sstep (run_mcall _ s2 _ _ Hf). exists (with_mm s2 m). split_and!; try done.
  - intros x Hx. cbn [mm with_mm]. rewrite Hm', (HRf x Hx). auto.
  - intros x. cbn [mm with_mm]. rewrite Hal', andb_true_iff, negb_true_iff, Hal. split; [|auto]. intros [E [?|E']]; [done|congruence].
Qed.

(** The new thread is ready, on a page of its own. *)
Lemma spawn_runs s s2 R fn name l pg p :
  create_ready s R -> copied s s2 R fn l ->
  mcall (pcall (palloc_get_page PAL_ZERO)) s2 = Ret (pg, with_mm s2 (mkMmu p (cr3 (mm s2)) (tlb (mm s2)))) -> kernel_page pg ->
  (forall x, in_pages pg 1 x = true -> allocated (pal (mm s2)) x = false) ->
  exists k', spawn name fn s2 = Ret ((next_tid (sched s), fn), with_sched (with_mm s2 (mkMmu p (cr3 (mm s2)) (tlb (mm s2)))) k') /\
    kernel_ok k' /\ status <$> threads k' !! pg = Some THREAD_READY.
Proof.
  intros [_ _ [[Hki Hidle] Hctx] Hth Htid] [[E1 E2] _ _ Hal _ _] Hg Hpk Hfr. unfold spawn. sstep Hg. set (s3 := with_mm s2 _).
  pose proof (page_not_null pg Hpk). destruct (Z.eqb_spec pg NULL); [done|].
  assert (Hpf : in_pages pg 1 pg = true) by (apply in_pages_spec; lia).
  assert (Hnt : threads (sched s) !! pg = None).
  { destruct (threads (sched s) !! pg) eqn:E; [|done]. assert (Hx : R pg) by (apply Hth; eauto).
    specialize (Hfr pg Hpf). rewrite (proj2 (Hal pg)) in Hfr; [done|by left]. }
  assert (Hni : pg <> idle_thread (sched s)).
  { intros ->. destruct (ki_idle _ _ Hki Hidle) as [Hi _]. apply (ki_all _ _ Hki) in Hi as (th & Hi & _). congruence. }
  destruct (run_thread_create (Some (running (sched s))) (sched s) name PRI_DEFAULT pg Hki Hnt ltac:(done) Hni) as [Hc Hk'];
    [unfold PRI_MIN, PRI_MAX, PRI_DEFAULT; lia|done|]. rewrite <- E1 in Hc at 1. change (sched s2) with (sched s3) in Hc.
  set (k' := unblocked _ _) in *. sstep (run_kcall _ s3 _ _ Hc). destruct (Z.eqb_spec (next_tid (sched s)) TID_ERROR); [done|].
  exists k'. split; [done|]. split; [by split|]. unfold k', unblocked, with_new. ksimp. by rewrite lookup_alter_eq, lookup_insert_eq.
Qed.

(** C31: [process_execute]: either it returns TID_ERROR, because the kernel pool is
    exhausted, and then the pages in use and the threads are those of before;
    or the new thread is ready to run with the next thread id, its page and
    the page of the file name are the only new ones, and the page holds the
    name as [start_process] will read it, cut to 4,095 characters. *)
Theorem process_execute_correct s R name :
  create_ready s R -> c_string name ->
  exists tid fn s', process_execute name s = Ret ((tid, fn), s') /\ fsys s' = fsys s /\
    (forall x, R x -> mem (mm s') x = mem (mm s) x) /\
    if tid =? TID_ERROR then
      sched s' = sched s /\ (forall x, allocated (pal (mm s')) x = true <-> R x)
    else
      tid = next_tid (sched s) /\ kernel_ok (sched s') /\ read_string 4096 (mem (mm s')) fn = take 4095 name /\
      exists page, kernel_page page /\ kernel_page fn /\ page <> fn /\
        status <$> threads (sched s') !! page = Some THREAD_READY /\
        (forall x, in_pages fn 1 x || in_pages page 1 x = true -> ~ R x) /\
        (forall x, allocated (pal (mm s')) x = true <-> R x \/ in_pages fn 1 x = true \/ in_pages page 1 x = true).
Proof.
  intros Hcr Hn. destruct (run_copy_name s R name Hcr) as [->|(fn & s2 & Hcp & ->)].
  { exists TID_ERROR, NULL, s. split_and!; try done. change (TID_ERROR =? TID_ERROR) with true. split; [done|apply Hcr]. }
  pose proof Hcp as [[E1 E2] [Hok Hb] [Hfk HRf] Hal Hm Hby].
  destruct (run_get_kernel s2 true Hok Hb) as [[Hg _]|(pg & p & Hg & Hpk & _ & Hfr & Hal3 & Hm3 & _)]; cbv iota in Hg.
  { destruct (spawn_fails s s2 R fn name _ Hcp Hg) as (s' & Hr & F1 & F2 & F3 & F4). exists TID_ERROR, fn, s'. by split_and!. }
  destruct (spawn_runs s s2 R fn name _ pg p Hcr Hcp Hg Hpk Hfr) as (k' & Hr & Hk' & Hst).
  exists (next_tid (sched s)), fn, (with_sched (with_mm s2 (mkMmu p (cr3 (mm s2)) (tlb (mm s2)))) k'). split; [exact Hr|]. split; [done|].
  assert (HnR : forall x, R x \/ in_pages fn 1 x = true -> in_pages pg 1 x = false).
  { intros x Hx. destruct (in_pages pg 1 x) eqn:E; [|done]. apply Hal in Hx. apply Hfr in E. congruence. }
  split; [intros x Hx; cbn; unfold mem; cbn; rewrite Hm3 by auto; auto|].
  destruct (Z.eqb_spec (next_tid (sched s)) TID_ERROR); [by destruct (cr_tid _ _ Hcr)|]. split_and!; try done.
  - apply read_string_written; [by apply Forall_take|rewrite length_take; lia|]. intros j Hj. rewrite length_take in Hj. unfold mem. cbn.
    rewrite Hm3 by (apply HnR; right; apply in_pages_spec; lia). apply Hby. rewrite length_take. lia.
  - exists pg. split_and!; try done.
    + intros ->. assert (E : in_pages fn 1 fn = true) by (apply in_pages_spec; lia). by rewrite HnR in E by auto.
    + intros x [E|E]%orb_true_iff Hx; [by rewrite (HRf x Hx) in E|by rewrite HnR in E by auto].
    + intros x. cbn. rewrite Hal3, orb_true_iff, Hal. tauto.
Qed.

(** ** A machine with one small program *)

Definition le16 (x : Z) : list Z := [x mod 256; x / 256].

(** An executable of 84 bytes: one segment, mapped at 0x08048000. *)
Definition demo_elf : list Z :=
  elf_magic ++ replicate 9 0 ++ le16 2 ++ le16 3 ++ le32 1 ++ le32 134512724 ++ le32 52 ++ le32 0 ++ le32 0 ++
  le16 52 ++ le16 32 ++ le16 1 ++ le16 0 ++ le16 0 ++ le16 0 ++
  le32 PT_LOAD ++ le32 0 ++ le32 134512640 ++ le32 134512640 ++ le32 84 ++ le32 84 ++ le32 5 ++ le32 4096.

(** The root directory is in sector 2; its entry [a] is the file of which
    the inode is in sector 3 and the data in sector 4. *)
Definition demo_root : inode_disk := mkDisk 2 320 INODE_MAGIC.
Definition demo_exe : inode_disk := mkDisk 4 84 INODE_MAGIC.

Definition demo_files : fs :=
  mkFs [replicate 512 0; encode_inode demo_root; le32 3 ++ [97] ++ replicate 14 0 ++ [1] ++ replicate 492 0;
        encode_inode demo_exe; demo_elf ++ replicate 428 0] ∅ [] ∅ ∅ (mkBitmap 5 [31]) NULL 0.

(** The kernel pool has eight pages: the first page directory, the pages of
    three threads and the page of a file name are in use. *)
Definition demo_base : Z := 3222274048.
Definition demo_name : Z := demo_base + 4 * 4096.

Definition demo_memory : mmu :=
  mkMmu (mkPalloc (mkPool (mkBitmap 8 [31]) demo_base) (mkPool (mkBitmap 8 [0]) (demo_base + 8 * 4096))
    (fun x => if x =? demo_name then 97 else 0)) (demo_base - PHYS_BASE) [].

Definition demo_threads : kernel :=
  let th i s := mkThread i s [] 0 31 THREAD_MAGIC in
  mkKernel {[ demo_base + 4096 := th 3 THREAD_RUNNING; demo_base + 2 * 4096 := th 2 THREAD_BLOCKED; demo_base + 3 * 4096 := th 1 THREAD_BLOCKED ]}
    [] [demo_base + 4096; demo_base + 2 * 4096; demo_base + 3 * 4096] (demo_base + 2 * 4096) (demo_base + 3 * 4096) (demo_base + 4096)
    true false false 0 0 0 0 4.

Definition demo_proc : proc := mkProc demo_memory demo_files demo_threads ∅ (Some (mkTss 0 SEL_KDSEG 57343)) [].

Definition demo_used (x : Z) : Prop := allocated (pal demo_memory) x = true.
Definition demo_rest (x : Z) : Prop := demo_used x /\ in_pages demo_name 1 x = false.

Lemma demo_page n x : 0 <= n < 5 -> in_pages (demo_base + n * 4096) 1 x = true -> demo_used x.
Proof.
  intros Hn Hx. apply in_pages_spec in Hx. unfold demo_used, allocated, pool_used, pool_end. rewrite PGSIZE_eq. simpl.
  unfold demo_base in *. change (3222274048 + 4096 * 8) with 3222306816.
  destruct (Z.leb_spec 3222274048 x), (Z.ltb_spec x 3222306816); try lia. cbn [andb orb]. apply orb_true_iff. left.
  replace ((x - 3222274048) / 4096) with n by (apply (Z.div_unique _ _ _ (x - 3222274048 - n * 4096)); lia).
  assert (Hc : n = 0 \/ n = 1 \/ n = 2 \/ n = 3 \/ n = 4) by lia. destruct Hc as [->|[->|[->|[->| ->]]]]; reflexivity.
Qed.

Lemma demo_kernel_page n : 0 <= n < 5 -> kernel_page (demo_base + n * 4096).
Proof. intros Hn. unfold kernel_page, demo_base, PHYS_BASE, two32. split; [|lia]. by rewrite Z.mod_add by lia. Qed.

Lemma demo_palloc : palloc_ok (pal demo_memory).
Proof.
  unfold palloc_ok, pool_ok, bitmap_wf, pool_end, two32. rewrite PGSIZE_eq. simpl. unfold demo_base.
  split_and!; try done; try lia; repeat constructor; lia.
Qed.

Lemma demo_ready : ready demo_base 1024 demo_proc demo_used.
Proof.
  split; try done.
  - split; [apply demo_palloc|]. simpl. unfold PHYS_BASE, demo_base. lia.
  - intros x. cbn. destruct (_ =? _); lia.
  - split_and!; [by apply (demo_kernel_page 0)| |].
    + intros x Hx. apply (demo_page 0); [lia|]. by rewrite Z.mul_0_l, Z.add_0_r.
    + assert (Hz : forall x, x < demo_name -> mem demo_memory x = 0).
      { intros x Hx. change (mem demo_memory x) with (if x =? demo_name then 97 else 0). destruct (Z.eqb_spec x demo_name); [lia|done]. }
      intros i Hi. unfold pde, read32. change (mm demo_proc) with demo_memory. rewrite !Hz by (unfold demo_name; lia). done.
Qed.

Lemma demo_root_ok : root_ok demo_files demo_root.
Proof.
  split.
  - split; cbn [inodes open_inodes demo_files]; [constructor|intros a; rewrite lookup_empty; split; [by intros ?%elem_of_nil|by intros [? ?]]|..];
      intros *; by rewrite lookup_empty.
  - split; cbn [files dirs demo_files]; intros *; by rewrite lookup_empty.
  - cbn [inodes demo_files]. intros *. by rewrite lookup_empty.
  - split; [done|]. repeat constructor.
  - split; [done|]. by eexists.
  - by split_and!.
  - assert (Hc : forallb (fun k => implb (e_in_use (FsDir.entry (disk demo_files) demo_root k))
        (bool_decide (0 ∈ e_name (FsDir.entry (disk demo_files) demo_root k)))) (seqZ 0 16) = true) by (vm_compute; reflexivity).
    rewrite forallb_forall in Hc. intros k Hk Hu. change (entry_cnt demo_root) with 16 in Hk.
    specialize (Hc k ltac:(apply list_elem_of_In, elem_of_seqZ; lia)). rewrite Hu in Hc. by apply bool_decide_eq_true in Hc.
Qed.

Lemma demo_bytes k o : 0 <= sector_byte (disk demo_files) k o < 256.
Proof.
  assert (Hc : forallb (forallb (fun x => (0 <=? x) && (x <? 256))) (disk demo_files) = true) by (vm_compute; reflexivity).
  rewrite forallb_forall in Hc. unfold sector_byte. destruct (disk demo_files !! Z.to_nat k) as [b|] eqn:E; [|lia].
  specialize (Hc b ltac:(by apply list_elem_of_In, (list_elem_of_lookup_2 _ (Z.to_nat k)))). rewrite forallb_forall in Hc. unfold nth_byte.
  destruct (b !! Z.to_nat o) as [x|] eqn:E'; cbn; [|lia].
  specialize (Hc x ltac:(by apply list_elem_of_In, (list_elem_of_lookup_2 _ (Z.to_nat o)))).
  apply andb_true_iff in Hc as [?%Z.leb_le ?%Z.ltb_lt]. lia.
Qed.

Lemma demo_named : named demo_files demo_root [97] (Some demo_exe).
Proof.
  unfold named. assert (E : find_name [97] (slots (disk demo_files) demo_root) = Some 3) by (vm_compute; reflexivity). rewrite E.
  exists demo_exe. split_and!; try done. split; [done|]. by eexists.
Qed.

Lemma demo_executable : executable (disk demo_files) demo_exe empty_view.
Proof.
  split_and!; [done|vm_compute; reflexivity| |].
  - assert (E1 : Z.to_nat (e_phnum (ehdr (disk demo_files) demo_exe)) = 1%nat) by (vm_compute; reflexivity).
    assert (E2 : s32 (e_phoff (ehdr (disk demo_files) demo_exe)) = 52) by (vm_compute; reflexivity). rewrite E1, E2.
    assert (E3 : phdr_at (disk demo_files) demo_exe 52 = mkPhdr 1 0 134512640 134512640 84 84 5 4096) by (vm_compute; reflexivity).
    cbn [loadable]. rewrite E3. split_and!; done.
  - vm_compute. reflexivity.
Qed.

Lemma demo_thread t th :
  threads demo_threads !! t = Some th ->
  (t = demo_base + 4096 /\ status th = THREAD_RUNNING \/
   (t = demo_base + 2 * 4096 \/ t = demo_base + 3 * 4096) /\ status th = THREAD_BLOCKED) /\ magic th = THREAD_MAGIC.
Proof.
  cbn [threads demo_threads]. rewrite !lookup_insert, lookup_singleton.
  repeat case_decide; intros [= <-]; subst; simpl; split; try done; auto 10.
Qed.

Lemma demo_process_threads_ok : kernel_ok demo_threads.
Proof.
  split; [split|done].
  - intros t th Ht. destruct (demo_thread t th Ht) as [[[-> ->]|[Hx ->]] _]; split; try done.
    intros [= <-]. unfold demo_base in Hx. lia.
  - by intros t [= <-].
  - eexists. vm_compute. reflexivity.
  - intros t th Ht. destruct (demo_thread t th Ht) as [Hx Hm]. split; [done|]. unfold NULL, demo_base in *. lia.
  - constructor.
  - by intros t ?%elem_of_nil.
  - intros t th Ht Hs. destruct (demo_thread t th Ht) as [[[-> Hx]|[_ Hx]] _]; congruence.
  - cbn. unfold demo_base. repeat constructor; set_solver.
  - intros t. split.
    + cbn. rewrite !elem_of_cons. intros [->|[->|[->|[]%elem_of_nil]]]; (eexists; split; [vm_compute; reflexivity|done]).
    + intros (th & Ht & _). destruct (demo_thread t th Ht) as [Hx _]. cbn. set_solver by lia.
  - intros _. split; cbn; set_solver.
Qed.

Lemma demo_rest_spec x : with_page demo_rest demo_name x <-> demo_used x.
Proof.
  split.
  - intros [[H _]|H]; [done|by apply (demo_page 4)].
  - intros H. destruct (in_pages demo_name 1 x) eqn:E; [by right|by left].
Qed.

Lemma demo_thread_page x : in_pages (demo_base + 4096) 1 x = true -> demo_rest x.
Proof.
  intros Hx. split; [by apply (demo_page 1)|]. apply in_pages_spec in Hx. apply in_pages_false. unfold demo_name. lia.
Qed.

Lemma demo_exit_ready : exit_ready demo_base demo_proc demo_rest.
Proof.
  split.
  - split; [apply demo_process_threads_ok|done].
  - split; done.
  - split; [by apply (demo_kernel_page 1)|exact demo_thread_page].
  - intros t. cbn [pagedirs demo_proc]. rewrite lookup_empty. by apply (demo_kernel_page 0).
  - done.
  - by apply (demo_kernel_page 0).
Qed.

(** The value that a function returns. *)
Definition result {S A} (o : outcome (A * S)) : option A := match o with Ret (a, _) => Some a | Err _ => None end.

Lemma result_ret {S A} (o : outcome (A * S)) a s : o = Ret (a, s) -> result o = Some a.
Proof. by intros ->. Qed.


Lemma load_exit_no_leak_witness :
  (exists s', (do! _ := load (fun _ => true) (replicate 20 0) demo_base 1024 [97] in process_exit demo_base) demo_proc = Ret (tt, s') /\
    forall x, allocated (pal (mm s')) x = true <-> demo_used x) /\
  (exists s', (do! _ := load (fun _ => false) (replicate 20 0) demo_base 1024 [97] in process_exit demo_base) demo_proc = Ret (tt, s') /\
    forall x, allocated (pal (mm s')) x = true <-> demo_used x).
Proof.
  split.
  - destruct (load_exit_no_leak (fun _ => true) (replicate 20 0) eq_refl demo_base 1024 demo_proc demo_used demo_root [97]
      (Some demo_exe) demo_ready demo_root_ok demo_bytes) as (s' & k & H & _ & _ & _ & Hal & _); [by repeat constructor|exact demo_named|].
    exists s'. split; [exact H|exact Hal].
  - destruct (load_exit_no_leak (fun _ => false) (replicate 20 0) eq_refl demo_base 1024 demo_proc demo_used demo_root [97]
      (Some demo_exe) demo_ready demo_root_ok demo_bytes) as (s' & k & H & _ & _ & _ & Hal & _); [by repeat constructor|exact demo_named|].
    exists s'. split; [exact H|exact Hal].
Defined.

Lemma demo_ready_rest : ready demo_base 1024 demo_proc (with_page demo_rest demo_name).
Proof.
  destruct demo_ready as [H1 H2 H3 (H4 & H5 & H6) H7 H8 H9]. split; try done.
  - split_and!; try done. intros x Hx. by apply demo_rest_spec, H5.
  - intros x. rewrite demo_rest_spec. apply H7.
Qed.

Lemma demo_name_file : named (fsys demo_proc) demo_root (read_string 4096 (mem (mm demo_proc)) demo_name) (Some demo_exe).
Proof.
  assert (E : read_string 4096 (mem (mm demo_proc)) demo_name = [97]) by (vm_compute; reflexivity). rewrite E. exact demo_named.
Qed.

(** The process is started; without memory for the inode it exits. *)
Lemma start_process_correct_witness :
  (exists fr s', start_process (fun _ => true) (replicate 20 0) demo_base 1024 demo_name demo_proc = Ret (Some fr, s') /\
    sched s' = demo_threads /\ exists pd, pok demo_base 1024 s' pd demo_rest) /\
  (exists s', start_process (fun _ => false) (replicate 20 0) demo_base 1024 demo_name demo_proc = Ret (None, s') /\
    forall x, allocated (pal (mm s')) x = true <-> demo_rest x /\ in_pages (demo_base + 4096) 1 x = false).
Proof.
  split.
  - destruct (start_process_correct (fun _ => true) (replicate 20 0) eq_refl demo_base 1024 demo_proc demo_rest demo_root demo_name
      (Some demo_exe) demo_ready_rest (demo_kernel_page 4 ltac:(lia)) (fun x Hx => proj2 Hx) demo_exit_ready demo_root_ok demo_bytes demo_name_file)
      as (r & s' & n & H & _ & _ & Hr).
    destruct r as [fr|]; [|apply result_ret in H; vm_compute in H; discriminate H].
    destruct Hr as (d & pd & _ & _ & _ & Hp & Hs & _). exists fr, s'. split; [exact H|]. split; [exact Hs|]. exists pd. exact Hp.
  - destruct (start_process_correct (fun _ => false) (replicate 20 0) eq_refl demo_base 1024 demo_proc demo_rest demo_root demo_name
      (Some demo_exe) demo_ready_rest (demo_kernel_page 4 ltac:(lia)) (fun x Hx => proj2 Hx) demo_exit_ready demo_root_ok demo_bytes demo_name_file)
      as (r & s' & n & H & _ & _ & Hr).
    destruct r as [fr|]; [apply result_ret in H; vm_compute in H; discriminate H|].
    destruct Hr as (_ & _ & Hal & _). exists s'. split; [exact H|exact Hal].
Defined.

Lemma demo_create_ready : create_ready demo_proc demo_used.
Proof.
  split.
  - split; [apply demo_palloc|]. cbn. unfold PHYS_BASE, demo_base. lia.
  - done.
  - split; [apply demo_process_threads_ok|done].
  - intros t [th Ht]. destruct (demo_thread t th Ht) as [[[-> _]|[[->| ->] _]] _];
      [apply (demo_page 1)|apply (demo_page 2)|apply (demo_page 3)]; try lia; apply in_pages_spec; lia.
  - done.
Qed.

Lemma process_execute_correct_witness :
  exists fn s', process_execute [97] demo_proc = Ret ((4, fn), s') /\ kernel_ok (sched s') /\ read_string 4096 (mem (mm s')) fn = [97].
Proof.
  destruct (process_execute_correct demo_proc demo_used [97] demo_create_ready) as (tid & fn & s' & H & _ & _ & Hr); [by repeat constructor|].
  destruct (Z.eqb_spec tid TID_ERROR) as [->|]; [apply result_ret in H; vm_compute in H; discriminate H|].
  destruct Hr as (-> & Hk & Hs & _). exists fn, s'. split; [exact H|]. split; [exact Hk|exact Hs].
Defined.

Lemma filesys_open_correct_witness :
  exists f s', filesys_open (fun _ => true) (replicate 20 0) [97] demo_files = Ret (f, s') /\ f <> NULL /\
    exists k, file_close (fun _ => true) f s' = Ret (tt, with_allocs demo_files k).
Proof.
  pose proof (filesys_open_correct (fun _ => true) (replicate 20 0) eq_refl demo_files demo_root [97] (fun _ => eq_refl) demo_root_ok
    ltac:(by repeat constructor)) as H.
  assert (E : find_name [97] (slots (disk demo_files) demo_root) = Some 3) by (vm_compute; reflexivity). rewrite E in H.
  destruct (H demo_exe) as (f & a & i & s1 & k & Ho & Hf & _ & _ & _ & _ & _ & _ & Hc); [done|cbn; lia|split; [done|by eexists]|].
  exists f, (open_at s1 f a 0 k). split; [exact Ho|]. split; [exact Hf|]. exists k. apply Hc.
Defined.
