(* ===== verification/Exception.v ===== *)
(** * Traps from user programs ([userprog/exception.c], [userprog/syscall.c],
    and [intr_handler] and [intr_dump_frame] of [threads/interrupt.c])

    The state adds to that of the processes the tables of [Segments], the
    count of page faults, the messages that are printed (last first) and the
    writes to the ports of the interrupt controllers (last first).  [cr2] is
    the register of that name, [ipd] the page directory of the kernel.  The
    handlers in the table are addresses: [kill_], [page_fault_] and
    [syscall_] are those of the functions of this file, and [device] gives
    the functions of the others, which the device drivers register. *)
From stdpp Require Import prelude list gmap.
From Stdlib Require Import ZArith Lia.
From S2P Require Import Prelude Bitmap Dlist Thread Filesys FsData FsDir FsMap Palloc Pagedir AddrSpace Segments FsOpen Process Loader Exec.
#[local] Open Scope Z_scope.

(** ** Data *)

Inductive report : Type :=
| DyingDue (thread : list Z) (vec_no nm : Z)
| UnknownSegment (vec_no nm cs : Z)
| PageFault (fault_addr : Z) (not_present write user : bool)
| SystemCall
| UnexpectedInterrupt (vec_no nm : Z)
| FrameDump (nm cr2 : Z) (f : intr_frame).

Record exc : Type := mkExc {
  xproc : proc;
  xtables : intrs;
  page_fault_cnt : Z;
  reports : list report;
  ports : list (Z * Z)
}.

Definition xprint (r : report) : ST exc unit := fun s =>
  Ret (tt, mkExc (xproc s) (xtables s) (page_fault_cnt s) (r :: reports s) (ports s)).
Definition xcall {A} (m : ST proc A) : ST exc A := fun s =>
  match m (xproc s) with
  | Ret (a, x) => Ret (a, mkExc x (xtables s) (page_fault_cnt s) (reports s) (ports s))
  | Err e => Err e
  end.
Definition xtable {A} (f : intrs -> outcome A) : ST exc A := fun s =>
  match f (xtables s) with Ret a => Ret (a, s) | Err e => Err e end.
Definition outb (l : list (Z * Z)) : ST exc unit := fun s =>
  Ret (tt, mkExc (xproc s) (xtables s) (page_fault_cnt s) (reports s) (rev l ++ ports s)).

Definition PF_P : Z := 1.
Definition PF_W : Z := 2.
Definition PF_U : Z := 4.

Section traps.
Context (ipd cr2 : Z) (kill_ page_fault_ syscall_ : Z) (device : Z -> ST kernel unit).

(** ** The handlers *)

Definition intr_dump_frame (f : intr_frame) : ST exc unit :=
  do! nm := xtable (fun t => access (intr_names t !! Z.to_nat (f_vec_no f))) in
  xprint (FrameDump nm cr2 f).

(** [intr_name] takes a [uint8_t]. *)
Definition kill (f : intr_frame) : ST exc unit :=
  if f_cs f =? SEL_UCSEG then
    do! th := xcall (kcall thread_name) in
    do! nm := xtable (intr_name (f_vec_no f mod 256)) in
    do! _ := xprint (DyingDue th (f_vec_no f) nm) in
    do! _ := intr_dump_frame f in
    xcall (thread_exit ipd)
  else if f_cs f =? SEL_KCSEG then
    do! _ := intr_dump_frame f in
    stop Panicked
  else
    do! nm := xtable (intr_name (f_vec_no f mod 256)) in
    do! _ := xprint (UnknownSegment (f_vec_no f) nm (f_cs f)) in
    xcall (thread_exit ipd).

Definition page_fault (f : intr_frame) : ST exc unit :=
  let fault_addr := cr2 in
  do! _ := xcall (kcall intr_enable) in
  do! s := get in
  do! _ := put (mkExc (xproc s) (xtables s) (s64 (page_fault_cnt s + 1)) (reports s) (ports s)) in
  let not_present := Z.land (f_error_code f) PF_P =? 0 in
  let write := negb (Z.land (f_error_code f) PF_W =? 0) in
  let user := negb (Z.land (f_error_code f) PF_U =? 0) in
  do! _ := xprint (PageFault fault_addr not_present write user) in
  kill f.

Definition syscall_handler (f : intr_frame) : ST exc unit :=
  do! _ := xprint SystemCall in
  xcall (thread_exit ipd).

(** ** Dispatch *)

(** [handler (frame)] for the handler at an address. *)
Definition call_handler (h : Z) (f : intr_frame) : ST exc unit :=
  if h =? kill_ then kill f
  else if h =? page_fault_ then page_fault f
  else if h =? syscall_ then syscall_handler f
  else xcall (kcall (device h)).

Definition count_unexpected (f : intr_frame) : ST exc unit :=
  do! s := get in
  do! r := lift (unexpected_interrupt (f_vec_no f) (xtables s)) in
  let '(report, t) := r in
  do! _ := put (mkExc (xproc s) t (page_fault_cnt s) (reports s) (ports s)) in
  if (report : bool) then
    do! nm := xtable (fun t => access (intr_names t !! Z.to_nat (f_vec_no f))) in
    xprint (UnexpectedInterrupt (f_vec_no f) nm)
  else sret tt.

(** [intr_handler]; after [thread_yield] the thread that runs next activates
    its address space. *)
Definition intr_handler (f : intr_frame) : ST exc unit :=
  let external := (32 <=? f_vec_no f) && (f_vec_no f <? 48) in
  do! _ := (if external then
      do! l := xcall (kcall intr_get_level) in
      do! _ := assert_ (negb l) in
      do! c := xcall (kcall intr_context) in
      do! _ := assert_ (negb c) in
      xcall (kcall (do! k := get in put (with_context k true false)))
    else sret tt) in
  do! handler := xtable (fun t => access (intr_handlers t !! Z.to_nat (f_vec_no f))) in
  do! _ := (if negb (handler =? NULL) then call_handler handler f
    else if (f_vec_no f =? 39) || (f_vec_no f =? 47) then sret tt
    else count_unexpected f) in
  if external then
    do! l := xcall (kcall intr_get_level) in
    do! _ := assert_ (negb l) in
    do! c := xcall (kcall intr_context) in
    do! _ := assert_ c in
    do! y := xcall (kcall (do! k := get in do! _ := put (with_context k false (yield_on_return k)) in sret (yield_on_return k))) in
    do! l := lift (pic_end_of_interrupt (f_vec_no f)) in
    do! _ := outb l in
    if (y : bool) then
      do! _ := xcall (kcall thread_yield) in
      xcall (process_activate ipd)
    else sret tt
  else sret tt.

(** ** Vectors that user programs can raise *)

(** The handler of a vector that no device uses. *)
Definition trap_handler (v : Z) : Z :=
  if bool_decide (v ∈ [0; 1; 3; 4; 5; 6; 7; 11; 12; 13; 16; 19]) then kill_
  else if v =? 14 then page_fault_
  else if v =? 48 then syscall_
  else NULL.

Definition traps_installed (t : intrs) : Prop :=
  (forall v, 0 <= v < 256 -> ~ (32 <= v < 48) -> intr_handlers t !! Z.to_nat v = Some (trap_handler v)) /\
  length (intr_names t) = 256%nat /\ length (unexpected_cnt t) = 256%nat.

Context (ram : Z).

(** The process has exited: [s'] is the state in the thread that runs next. *)
Record killed (s s' : proc) (R : Z -> Prop) : Prop := mkKilled {
  kd_fs : fsys s' = fsys s;
  kd_sched : sched s' = exited (sched s) /\ kernel_ok (sched s');
  kd_alloc x : allocated (pal (mm s')) x = true <-> R x /\ in_pages (running (sched s)) 1 x = false;
  kd_cr3 : cr3 (mm s') = effective ipd (default NULL (pagedirs s' !! running (sched s'))) - PHYS_BASE
}.

Lemma run_xcall {A} (m : ST proc A) s a x :
  m (xproc s) = Ret (a, x) -> xcall m s = Ret (a, mkExc x (xtables s) (page_fault_cnt s) (reports s) (ports s)).
Proof. intros H. unfold xcall. by rewrite H. Qed.

Lemma run_name t v : length (intr_names t) = 256%nat -> 0 <= v < 256 -> exists nm, access (intr_names t !! Z.to_nat v) = Ret nm.
Proof.
  intros Hl Hv. destruct (lookup_lt_is_Some_2 (intr_names t) (Z.to_nat v)) as [nm Hn]; [lia|]. exists nm. by rewrite Hn.
Qed.

Lemma run_xtable {A} (f : intrs -> outcome A) s a : f (xtables s) = Ret a -> xtable f s = Ret (a, s).
Proof. intros H. unfold xtable. by rewrite H. Qed.

Lemma run_xexit s pd R :
  space ipd ram (xproc s) pd R -> exit_ready ipd (xproc s) R ->
  exists s', xcall (thread_exit ipd) s = Ret (tt, s') /\ killed (xproc s) (xproc s') R /\
    xtables s' = xtables s /\ page_fault_cnt s' = page_fault_cnt s.
Proof.
  intros Hs He. destruct (run_exit_thread (replicate 20 0) eq_refl ipd ram (xproc s) pd R Hs He) as (p & Hr & H1 & H2 & H3 & H4 & H5).
  eexists. split; [by apply run_xcall|]. by split.
Qed.

Lemma run_thread_name k : kernel_ok k -> exists nm, thread_name k = Ret (nm, k).
Proof.
  intros [H _]. unfold thread_name. sstep (run_thread_current k H). destruct (ki_alive _ _ H) as [c Hc]. exists (name c).
  unfold sbind, read_thread. by rewrite Hc.
Qed.

Lemma run_print r s : xprint r s = Ret (tt, mkExc (xproc s) (xtables s) (page_fault_cnt s) (r :: reports s) (ports s)).
Proof. done. Qed.

Lemma run_dump s f nm :
  access (intr_names (xtables s) !! Z.to_nat (f_vec_no f)) = Ret nm ->
  intr_dump_frame f s = Ret (tt, mkExc (xproc s) (xtables s) (page_fault_cnt s) (FrameDump nm cr2 f :: reports s) (ports s)).
Proof. intros H. unfold intr_dump_frame. by sstep (run_xtable (fun t => access (intr_names t !! Z.to_nat (f_vec_no f))) s nm H). Qed.

(** Traps from the kernel panic; all others end the process. *)
Lemma run_kill s pd R f :
  space ipd ram (xproc s) pd R -> exit_ready ipd (xproc s) R -> length (intr_names (xtables s)) = 256%nat -> 0 <= f_vec_no f < 256 ->
  if f_cs f =? SEL_KCSEG then kill f s = Err Panicked
  else exists s', kill f s = Ret (tt, s') /\ killed (xproc s) (xproc s') R /\ xtables s' = xtables s /\ page_fault_cnt s' = page_fault_cnt s.
Proof.
  intros Hs He Hl Hv. destruct (run_name _ _ Hl Hv) as [nm Hn]. unfold kill. rewrite (Z.mod_small _ 256) by done.
  destruct (Z.eqb_spec (f_cs f) SEL_UCSEG) as [->|Hu]; [|destruct (Z.eqb_spec (f_cs f) SEL_KCSEG)].
  - change (SEL_UCSEG =? SEL_KCSEG) with false. cbv iota. destruct (run_thread_name _ (proj1 (er_kernel _ _ _ He))) as [th Ht].
    sstep (run_xcall _ s _ _ (run_kcall _ _ _ _ Ht)). rewrite with_sched_same. set (s1 := mkExc _ _ _ _ _).
    sstep (run_xtable (intr_name (f_vec_no f)) s1 nm Hn). sstep (run_print (DyingDue th (f_vec_no f) nm) s1).
    set (s2 := mkExc _ _ _ _ _). sstep (run_dump s2 f nm Hn). set (s3 := mkExc _ _ _ _ _). exact (run_xexit s3 pd R Hs He).
  - by sstep (run_dump s f nm Hn).
  - sstep (run_xtable (intr_name (f_vec_no f)) s nm Hn). sstep (run_print (UnknownSegment (f_vec_no f) nm (f_cs f)) s). set (s3 := mkExc _ _ _ _ _). exact (run_xexit s3 pd R Hs He).
Qed.

(** With interrupts on, the process is the same. *)
Definition enabled (s : proc) : proc := with_sched s (with_intr (sched s) true).

Lemma enabled_running s : kernel_ok (sched s) -> is_running (enabled s).
Proof. intros [H _]. unfold is_running. apply run_thread_current. by destruct H. Qed.

Lemma enabled_space s pd R : kernel_ok (sched s) -> space ipd ram s pd R -> space ipd ram (enabled s) pd R.
Proof.
  intros Hk%enabled_running [[H1 H2 H3 H4 H5]|(H1 & H2 & H3)]; [left; by split|right; by split].
Qed.

Lemma enabled_exit s R : exit_ready ipd s R -> exit_ready ipd (enabled s) R.
Proof. intros [[[Hk Hi] ?]]. split; try done. split; [|done]. split; [by destruct Hk|done]. Qed.

Lemma killed_enabled s s' R : killed (enabled s) s' R -> killed s s' R.
Proof. intros [H1 [H2 H3] H4 H5]. by split. Qed.

Lemma run_page_fault s pd R f :
  space ipd ram (xproc s) pd R -> exit_ready ipd (xproc s) R -> length (intr_names (xtables s)) = 256%nat -> 0 <= f_vec_no f < 256 ->
  if f_cs f =? SEL_KCSEG then page_fault f s = Err Panicked
  else exists s', page_fault f s = Ret (tt, s') /\ killed (xproc s) (xproc s') R /\ xtables s' = xtables s /\
    page_fault_cnt s' = s64 (page_fault_cnt s + 1).
Proof.
  intros Hs He Hl Hv. unfold page_fault. pose proof (er_kernel _ _ _ He) as [Hk Hi].
  assert (Hen : intr_enable (sched (xproc s)) = Ret (intr_on (sched (xproc s)), with_intr (sched (xproc s)) true)).
  { unfold intr_enable, intr_get_level, intr_context, sbind, get, put, sret, assert_, lift. by rewrite Hi. }
  sstep (run_xcall _ s _ _ (run_kcall _ _ _ _ Hen)). fold (enabled (xproc s)). set (s1 := mkExc _ _ _ _ _).
  sstep (eq_refl : get s1 = Ret (s1, s1)). set (s2 := mkExc _ _ _ _ _). sstep (eq_refl : put s2 s1 = Ret (tt, s2)).
  set (r := PageFault _ _ _ _). sstep (run_print r s2). set (s3 := mkExc _ _ _ _ _).
  pose proof (run_kill s3 pd R f (enabled_space _ _ _ Hk Hs) (enabled_exit _ _ He) Hl Hv) as H.
  destruct (f_cs f =? SEL_KCSEG); [done|]. destruct H as (s' & Hr & Hkd & Ht & Hc). exists s'. split_and!; try done.
  by apply killed_enabled.
Qed.

Lemma run_unexpected s f :
  traps_installed (xtables s) -> 0 <= f_vec_no f < 256 ->
  exists s', count_unexpected f s = Ret (tt, s') /\ xproc s' = xproc s /\ page_fault_cnt s' = page_fault_cnt s /\
    traps_installed (xtables s') /\
    (forall v, unexpected_cnt (xtables s') !! Z.to_nat v =
       if bool_decide (Z.to_nat v = Z.to_nat (f_vec_no f)) then (fun c => u32 (c + 1)) <$> unexpected_cnt (xtables s) !! Z.to_nat v
       else unexpected_cnt (xtables s) !! Z.to_nat v).
Proof.
  intros (Hh & Hn & Hu) Hv. destruct (lookup_lt_is_Some_2 (unexpected_cnt (xtables s)) (Z.to_nat (f_vec_no f))) as [c Hc]; [lia|].
  destruct (run_name _ _ Hn Hv) as [nm Hnm]. unfold count_unexpected. sstep (eq_refl : get s = Ret (s, s)).
  unfold unexpected_interrupt. rewrite Hc. cbn [access obind]. set (b := _ =? 0). set (t := mkIntrs _ _ _ _).
  sstep (eq_refl : lift (Ret (b, t)) s = Ret ((b, t), s)). set (s1 := mkExc _ _ _ _ _). sstep (eq_refl : put s1 s = Ret (tt, s1)).
  assert (Ht : traps_installed t) by (split; [done|]; split; [done|]; cbn; by rewrite length_insert).
  assert (Hcnt : forall v, unexpected_cnt t !! Z.to_nat v =
       if bool_decide (Z.to_nat v = Z.to_nat (f_vec_no f)) then (fun c => u32 (c + 1)) <$> unexpected_cnt (xtables s) !! Z.to_nat v
       else unexpected_cnt (xtables s) !! Z.to_nat v).
  { intros v. cbn [unexpected_cnt t]. case_bool_decide as E; [rewrite E, list_lookup_insert_eq by lia; by rewrite Hc|by rewrite list_lookup_insert_ne]. }
  destruct b; [|by exists s1].
  sstep (run_xtable (fun t => access (intr_names t !! Z.to_nat (f_vec_no f))) s1 nm Hnm). by eexists.
Qed.
End traps.

(** The addresses of the handlers. *)
Definition distinct_handlers (kill_ page_fault_ syscall_ : Z) : Prop :=
  kill_ <> NULL /\ page_fault_ <> NULL /\ syscall_ <> NULL /\ kill_ <> page_fault_ /\ kill_ <> syscall_ /\ page_fault_ <> syscall_.

Lemma trap_handler_cases kill_ page_fault_ syscall_ v :
  distinct_handlers kill_ page_fault_ syscall_ ->
  let h := trap_handler kill_ page_fault_ syscall_ v in
  (h = NULL /\ v <> 14 /\ v <> 48) \/ (h <> NULL /\ (h = kill_ /\ v <> 14 /\ v <> 48 \/ h = page_fault_ /\ v = 14 \/ h = syscall_ /\ v = 48)).
Proof.
  intros (H1 & H2 & H3 & _). unfold trap_handler. case_bool_decide as E.
  - right. split; [done|]. left. split; [done|]. set_solver by lia.
  - destruct (Z.eqb_spec v 14); [right; auto|]. destruct (Z.eqb_spec v 48); [right; auto|]. by left.
Qed.

(** C7: Traps of a process are contained.  With the handlers of
    [exception_init] and [syscall_init] in the table, consider any vector
    that is not a device's.  If it has a handler and the trap does not come
    from the kernel's code segment, the process ends: the pages in use are
    exactly those of before without its address space and the page of its
    thread, the file system is untouched, the invariant of the scheduler
    holds and the CPU uses the page directory of the next thread; page faults
    are counted.  An exception in the kernel's own code panics, but for a
    system call.  A vector without a handler changes only its count of
    unexpected interrupts, which goes up by one, and the process goes on. *)
Theorem trap_contained ipd cr2 kill_ page_fault_ syscall_ device ram s pd R f :
  distinct_handlers kill_ page_fault_ syscall_ -> traps_installed kill_ page_fault_ syscall_ (xtables s) ->
  space ipd ram (xproc s) pd R -> exit_ready ipd (xproc s) R -> 0 <= f_vec_no f < 256 -> ~ (32 <= f_vec_no f < 48) ->
  let h := trap_handler kill_ page_fault_ syscall_ (f_vec_no f) in
  let run := intr_handler ipd cr2 kill_ page_fault_ syscall_ device f s in
  if h =? NULL then
    exists s', run = Ret (tt, s') /\ xproc s' = xproc s /\ page_fault_cnt s' = page_fault_cnt s /\
      traps_installed kill_ page_fault_ syscall_ (xtables s') /\
      forall v, unexpected_cnt (xtables s') !! v =
        if bool_decide (v = Z.to_nat (f_vec_no f)) then (fun c => u32 (c + 1)) <$> unexpected_cnt (xtables s) !! v
        else unexpected_cnt (xtables s) !! v
  else if (f_cs f =? SEL_KCSEG) && negb (f_vec_no f =? 48) then run = Err Panicked
  else exists s', run = Ret (tt, s') /\ killed ipd (xproc s) (xproc s') R /\ xtables s' = xtables s /\
    page_fault_cnt s' = if f_vec_no f =? 14 then s64 (page_fault_cnt s + 1) else page_fault_cnt s.
Proof.
  intros Hd Ht Hs He Hv Hx h run. pose proof Ht as (Hh & Hn & Hu). pose proof Hd as (_ & _ & _ & D1 & D2 & D3).
  assert (Hrun : forall P : outcome (unit * exc) -> Prop,
    P ((if negb (h =? NULL) then call_handler ipd cr2 kill_ page_fault_ syscall_ device h f else count_unexpected f) s) -> P run).
  { intros P HP. unfold run, intr_handler. assert (Hext : (32 <=? f_vec_no f) && (f_vec_no f <? 48) = false).
    { destruct (Z.leb_spec 32 (f_vec_no f)), (Z.ltb_spec (f_vec_no f) 48); (done || lia). }
    rewrite Hext. cbv iota zeta. sstep (eq_refl : sret tt s = Ret (tt, s)).
    assert (Ha : access (intr_handlers (xtables s) !! Z.to_nat (f_vec_no f)) = Ret h) by (by rewrite (Hh _ Hv Hx)).
    sstep (run_xtable (fun t => access (intr_handlers t !! Z.to_nat (f_vec_no f))) s h Ha).
    destruct (Z.eqb_spec (f_vec_no f) 39); [lia|]. destruct (Z.eqb_spec (f_vec_no f) 47); [lia|]. cbn [orb].
    unfold sbind. destruct (negb (h =? NULL));
      [destruct (call_handler _ _ _ _ _ _ h f s) as [[[] s']|e]|destruct (count_unexpected f s) as [[[] s']|e]]; exact HP. }
  apply Hrun. clear Hrun run. destruct (trap_handler_cases _ _ _ (f_vec_no f) Hd) as [(Hz & _)|(Hnz & Hc)]; fold h in Hz || fold h in Hnz, Hc.
  - rewrite Hz. change (NULL =? NULL) with true. cbn [negb]. destruct (run_unexpected kill_ page_fault_ syscall_ s f Ht Hv) as (s' & Hr & H1 & H2 & H3 & H4).
    exists s'. do 4 (split; [done|]). intros v. specialize (H4 (Z.of_nat v)). by rewrite Nat2Z.id in H4.
  - destruct (Z.eqb_spec h NULL); [done|]. cbn [negb]. unfold call_handler. destruct Hc as [(Hk & V1 & V2)|[[Hk V]|[Hk V]]].
    + destruct (Z.eqb_spec h kill_); [|done]. destruct (Z.eqb_spec (f_vec_no f) 48); [done|]. destruct (Z.eqb_spec (f_vec_no f) 14); [done|].
      cbn [negb]. rewrite andb_true_r. by apply (run_kill ipd cr2 ram s pd R f).
    + rewrite Hk, V. destruct (Z.eqb_spec page_fault_ kill_); [congruence|]. rewrite Z.eqb_refl. cbn [negb Z.eqb Pos.eqb]. rewrite andb_true_r.
      by apply (run_page_fault ipd cr2 ram s pd R f).
    + rewrite Hk, V. destruct (Z.eqb_spec syscall_ kill_); [congruence|]. destruct (Z.eqb_spec syscall_ page_fault_); [congruence|].
      rewrite !Z.eqb_refl. cbn [negb Z.eqb Pos.eqb]. rewrite andb_false_r. unfold syscall_handler. sstep (run_print SystemCall s). set (s3 := mkExc _ _ _ _ _). exact (run_xexit ipd ram s3 pd R Hs He).
Qed.

(** The initialization installs the handlers. *)
Lemma traps_installed_init stubs kill_ page_fault_ syscall_ t :
  (forall v, 0 <= v < 256 -> 0 < stubs v < two32) -> distinct_handlers kill_ page_fault_ syscall_ ->
  exceptions_and_syscalls stubs kill_ page_fault_ syscall_ no_intrs = Ret t -> traps_installed kill_ page_fault_ syscall_ t.
Proof.
  intros Hst (Hk & Hp & Hs & _) Hr. destruct (exceptions_tables stubs kill_ page_fault_ syscall_ Hst Hk Hp Hs) as (t' & Ht & (_ & _ & Hm) & Hn & Hu).
  rewrite Hr in Ht. injection Ht as <-. split; [|done]. intros v Hv _. destruct (Hm v Hv) as [_ ->]. f_equal. unfold trap_handler, kernel_registrations.
  cbn [find r_vec]. repeat (match goal with |- context [?a =? v] => destruct (Z.eqb_spec a v) as [<-|?]; [reflexivity|] end).
  rewrite bool_decide_false by (set_solver by lia). destruct (Z.eqb_spec v 14); [lia|]. by destruct (Z.eqb_spec v 48); [lia|].
Qed.

(** A page fault of the process of [demo_proc], and a system call. *)
Definition demo_frame (v : Z) : intr_frame :=
  mkFrame 0 0 0 0 0 0 0 0 SEL_UDSEG SEL_UDSEG SEL_UDSEG SEL_UDSEG v 4 0 134512724 SEL_UCSEG 514 PHYS_BASE SEL_UDSEG.

Definition demo_tables : intrs :=
  match exceptions_and_syscalls (fun v => 3221225472 + 16 * (v + 1)) 1 2 3 no_intrs with Ret t => t | Err _ => no_intrs end.

Lemma demo_tables_installed : traps_installed 1 2 3 demo_tables.
Proof.
  apply (traps_installed_init (fun v => 3221225472 + 16 * (v + 1))); [intros v Hv; unfold two32; lia|by split_and!|].
  vm_compute. reflexivity.
Qed.

Lemma demo_space : space demo_base 1024 demo_proc NULL demo_used.
Proof.
  right. split_and!; try done. apply demo_palloc.
Qed.

Lemma demo_exit_used : exit_ready demo_base demo_proc demo_used.
Proof. destruct demo_exit_ready as [H1 H2 [H3 H4] H5 H6 H7]. split; try done. split; [done|]. intros x Hx. by apply H4. Qed.

(** A page fault, and a vector without a handler. *)
Lemma trap_contained_witness :
  (exists s', intr_handler demo_base 0 1 2 3 (fun _ => sret tt) (demo_frame 14) (mkExc demo_proc demo_tables 0 [] []) = Ret (tt, s') /\
    page_fault_cnt s' = 1 /\ kernel_ok (sched (xproc s'))) /\
  (exists s', intr_handler demo_base 0 1 2 3 (fun _ => sret tt) (demo_frame 100) (mkExc demo_proc demo_tables 0 [] []) = Ret (tt, s') /\
    xproc s' = demo_proc /\ unexpected_cnt (xtables s') !! 100%nat = Some 1).
Proof.
  assert (Hd : distinct_handlers 1 2 3) by (by split_and!). split.
  - destruct (trap_contained demo_base 0 1 2 3 (fun _ => sret tt) 1024 (mkExc demo_proc demo_tables 0 [] []) NULL demo_used (demo_frame 14)
      Hd demo_tables_installed demo_space demo_exit_used) as (s' & Hr & [_ [_ Hk] _ _] & _ & Hc); [cbn; lia|cbn; lia|].
    exists s'. split; [exact Hr|]. split; [exact Hc|exact Hk].
  - destruct (trap_contained demo_base 0 1 2 3 (fun _ => sret tt) 1024 (mkExc demo_proc demo_tables 0 [] []) NULL demo_used (demo_frame 100)
      Hd demo_tables_installed demo_space demo_exit_used) as (s' & Hr & Hp & _ & _ & Hc); [cbn; lia|cbn; lia|].
    exists s'. split; [exact Hr|]. split; [exact Hp|]. rewrite Hc. vm_compute. reflexivity.
Defined.
