(* ===== verification/System.v ===== *)
(** * From power-on to the first process ([main] of [threads/init.c])

    [boot_memory] is the part of [main] that sets up the memory: the pools,
    the page tables of the kernel, the task-state segment and the global
    descriptor table, in this order ([malloc_init] between them takes no
    pages).  The theorem connects the initialization with what the loader of
    user programs assumes. *)
From stdpp Require Import prelude list gmap.
From Stdlib Require Import ZArith Lia.
From S2P Require Import Prelude Bitmap Dlist Thread Filesys FsData FsDir FsMap Palloc Pagedir AddrSpace Segments FsOpen Process Loader Exec Boot.
#[local] Open Scope Z_scope.

(** [cur] is the page of the initial thread, [gdt_addr] the address of the
    descriptor table, [m] the memory and [c] the register CR3 at power-on.
    The result is [init_page_dir], the operand of [lgdt] with the table, the
    task-state segment and the memory. *)
Definition boot_memory (init_ram_pages user_page_limit start end_text gdt_addr cur : Z) (kst ust : list Z) (m : Z -> Z) (c : Z)
  : outcome (Z * (list Z * Z) * option tss * mmu) :=
  let! p := palloc_init init_ram_pages user_page_limit kst ust m in
  let! (ipd, s) := paging_init init_ram_pages start end_text (mkMmu p c []) in
  let! (tp, s) := pcall (tss_init cur) s in
  let '(page, t) := tp in
  let! x := tss_get page in
  let! g := gdt_init gdt_addr x in
  Ret (ipd, g, t, s).

(** ** An empty pool *)

Lemma filter_all {A} (P : A -> Prop) `{forall x, Decision (P x)} (l : list A) : (forall x, x ∈ l -> P x) -> filter P l = l.
Proof.
  induction l as [|x l IH]; intros Hp; [done|]. rewrite filter_cons_True by (apply Hp; left). f_equal. apply IH. set_solver.
Qed.

Lemma free_count_empty p : pool_ok p -> (forall x, pool_used p x = false) -> free_count p = Z.to_nat (bit_cnt (used_map p)).
Proof.
  intros (Hwf & Hb & _) Hu. unfold free_count. rewrite filter_all; [by rewrite length_seqZ|].
  intros i Hi%elem_of_seqZ. specialize (Hu (base p + 4096 * i)). unfold pool_used, pool_end in Hu. rewrite PGSIZE_eq in Hu.
  replace (base p + 4096 * i - base p) with (i * 4096) in Hu by lia. rewrite Z.div_mul in Hu by lia.
  destruct (Z.leb_spec (base p) (base p + 4096 * i)), (Z.ltb_spec (base p + 4096 * i) (base p + 4096 * bit_cnt (used_map p))); cbn [andb] in Hu; (done || lia).
Qed.

(** ** The task-state segment *)

Lemma run_tss_init s cur :
  palloc_ok (pal s) -> PHYS_BASE <= base (kernel_pool (pal s)) -> (0 < free_count (kernel_pool (pal s)))%nat ->
  exists a p, pcall (tss_init cur) s = Ret ((a, Some (mkTss (u32 (cur + PGSIZE)) SEL_KDSEG 57343)), mkMmu p (cr3 s) (tlb s)) /\
    palloc_ok p /\ PHYS_BASE <= base (kernel_pool p) /\ kernel_page a /\
    (forall x, in_pages a 1 x = true -> allocated (pal s) x = false) /\
    (forall x, allocated p x = in_pages a 1 x || allocated (pal s) x) /\
    (forall x, memory p x = if in_pages a 1 x then 0 else mem s x) /\ user_pool p = user_pool (pal s).
Proof.
  intros Hok Hb Hf. destruct (run_get_zeroed s Hok Hb) as [[_ Hz]|(a & p & Hg & G1 & G2 & G3 & G4 & G5 & G6 & G7 & _)]; [lia|].
  exists a, p. split_and!; try done. unfold pcall in *. unfold tss_init.
  destruct (palloc_get_page (Z.lor PAL_ASSERT PAL_ZERO) (pal s)) as [[a' p']|] eqn:E; [|done]. injection Hg as -> ->.
  by sstep E.
Qed.

(** A change of memory in free pages keeps the page directory. *)
Lemma pde_kept s s' pd i :
  0 <= i < 1024 -> (forall x, in_pages pd 1 x = true -> mem s' x = mem s x) -> pde s' pd i = pde s pd i.
Proof. intros Hi Hm. by apply read32_page. Qed.

(** C24: Start-up, from 282 pages of RAM on: the initialization of the memory
    returns, and whatever the file system is, the machine is [ready] to load
    user programs: the page directory of the kernel has no user mappings, the
    task-state segment points to the stack of the initial thread, and the
    descriptor table has the flat segments of the kernel and of user code. *)
Theorem boot_ready ram limit start end_text gdt_addr cur kst ust m c :
  282 <= ram < 262144 -> 0 < limit ->
  storage_for (ram - 256 - user_pages ram limit) kst -> storage_for (user_pages ram limit) ust ->
  (forall x, 0 <= m x < 256) ->
  exists ipd g t s, boot_memory ram limit start end_text gdt_addr cur kst ust m c = Ret (ipd, g, Some t, s) /\
    esp0 t = u32 (cur + 4096) /\ ss0 t = SEL_KDSEG /\ cr3 s = ipd - PHYS_BASE /\
    (forall f k pds log, thread_current k = Ret (running k, k) ->
       ready ipd ram (mkProc s f k pds (Some t) log) (fun x => allocated (pal s) x = true)) /\
    (forall d, fst g !! Z.to_nat (SEL_UCSEG / 8) = Some d -> segment_of d = mkSegment 0 1048575 10 1 3 1 1 1) /\
    (forall d, fst g !! Z.to_nat (SEL_UDSEG / 8) = Some d -> segment_of d = mkSegment 0 1048575 2 1 3 1 1 1).
Proof.
  intros Hram Hlim Hks Hus Hby. set (n := user_pages ram limit) in *. set (k := ram - 256 - n) in *. unfold boot_memory.
  destruct (palloc_init_spec ram limit kst ust m ltac:(lia) Hks) as [H _].
  destruct (H Hlim Hus) as (p & -> & Hok & Hpm & Hfree & Hkb & Hke & _ & Hue). clear H. fold n k in Hkb, Hke, Hue. cbn [obind].
  assert (Hkr : 13 <= k < 262144 /\ 2 * k >= ram - 256) by (unfold k, n, user_pages; Z.to_euclidean_division_equations; lia).
  destruct (map_pages_bound k ltac:(lia)) as (Hmk & _).
  assert (Hcnt : free_count (kernel_pool p) = Z.to_nat (k - map_pages k)).
  { rewrite free_count_empty; [|apply Hok|intros x; specialize (Hfree x); by apply orb_false_iff in Hfree as [? _]].
    f_equal. unfold pool_end in Hke. rewrite PGSIZE_eq in *. lia. }
  assert (Hb : PHYS_BASE <= base (kernel_pool p)) by (rewrite Hkb, PGSIZE_eq; unfold PHYS_BASE; lia).
  assert (Htf : tables_for ram + 2 <= k - map_pages k) by (unfold tables_for; Z.to_euclidean_division_equations; lia).
  assert (Ht0 : 0 <= tables_for ram) by (unfold tables_for; Z.to_euclidean_division_equations; lia).
  set (s0 := mkMmu p c []). assert (Hby0 : forall x, 0 <= mem s0 x < 256) by (intros x; unfold mem, s0; cbn [pal]; by rewrite Hpm).
  pose proof (run_paging_init ram start end_text s0 Hok Hb Hby0 ltac:(lia)) as Hpg. cbn [pal s0] in Hpg. rewrite Hcnt in Hpg.
  destruct (Nat.ltb_spec (Z.to_nat (k - map_pages k)) (S (Z.to_nat (tables_for ram)))); [lia|].
  destruct Hpg as (ipd & s & Hr & Hm & Hc3 & Htlb). rewrite Hr. cbn [obind].
  destruct (mp_pal _ _ _ _ _ _ _ Hm) as [Hok1 Hb1]. destruct (mp_pools _ _ _ _ _ _ _ Hm) as [Hup Hfp]. cbn [pal s0] in Hup, Hfp.
  destruct (run_tss_init s cur Hok1 Hb1 ltac:(lia)) as (a & q & Ht & Q1 & Q2 & Qk & Q3 & Q4 & Q5 & Q6). rewrite Ht. cbn [obind].
  unfold tss_get. pose proof (page_not_null a Qk) as Han. destruct (Z.eqb_spec a NULL); [done|]. cbn [negb ASSERT obind].
  destruct Qk as [Qk1 Qk2]. destruct (gdt_init_correct gdt_addr a) as (gdt & -> & _ & Hsel); [unfold PHYS_BASE in *; lia|]. cbn [obind].
  set (s1 := mkMmu q (cr3 s) (tlb s)). eexists ipd, _, _, s1. split; [done|]. rewrite PGSIZE_eq. split_and!; try done.
  - intros f ker pds log Hcur. destruct (mp_pd _ _ _ _ _ _ _ Hm) as [Hki _].
    assert (Hia : forall x, in_pages ipd 1 x = true -> allocated (pal s) x = true) by (intros x Hx; apply (mp_alloc _ _ _ _ _ _ _ Hm); auto).
    split; try done.
    + intros x. unfold mem. cbn [mm pal s1]. rewrite Q5. destruct (in_pages a 1 x); [lia|apply (mp_bytes _ _ _ _ _ _ _ Hm)].
    + split_and!; [done|intros x Hx; cbn [pal s1]; by rewrite Q4, (Hia x Hx), orb_true_r|].
      intros i Hi. cbn [mm]. rewrite <- (mp_none _ _ _ _ _ _ _ Hm i) by lia. apply pde_kept; [lia|]. intros x Hx. unfold mem. cbn [pal s1]. rewrite Q5.
      destruct (in_pages a 1 x) eqn:E; [|done]. pose proof (Hia x Hx) as Hy. by rewrite (Q3 x E) in Hy.
    + cbn [mm pal s1]. rewrite Q6, Hup, Hue, PGSIZE_eq. lia.
  - intros d Hd. by apply (Hsel SEL_UCSEG d Hd).
  - intros d Hd. by apply (Hsel SEL_UDSEG d Hd).
Qed.

(** A machine with 4 MB of RAM. *)
Lemma boot_ready_witness :
  exists ipd g t s, boot_memory 1024 3 3221356544 3221422080 3221500000 3221282816 demo_kst demo_ust (fun _ => 7) 0 = Ret (ipd, g, Some t, s) /\
    esp0 t = 3221286912.
Proof.
  destruct (boot_ready 1024 3 3221356544 3221422080 3221500000 3221282816 demo_kst demo_ust (fun _ => 7) 0) as (ipd & g & t & s & Hr & He & _).
  - lia.
  - lia.
  - exact (proj1 demo_storage).
  - exact (proj2 demo_storage).
  - intros x. lia.
  - exists ipd, g, t, s. split; [exact Hr|exact He].
Defined.
