(* ===== verification/Strings.v ===== *)
(** * The string library (lib/string.c)

    Every function of lib/string.c, on a memory that is a finite map from
    addresses to bytes: a load or a store outside of it is a [BadAccess], so
    that the theorems also say which bytes the functions touch.  Loops run
    under [loop], at most [2^32] iterations; strings and blocks lie in a
    32-bit address space, so that a theorem which gives a result also shows
    that the loops end. *)
From stdpp Require Import prelude list gmap.
From Stdlib Require Import ZArith Lia.
From S2P Require Import Prelude.
#[local] Open Scope Z_scope.

(** ** Memory *)

Abbreviation mem := (gmap Z Z).

Definition load (m : mem) (p : Z) : outcome Z := access (m !! p).
Definition store (m : mem) (p b : Z) : outcome mem :=
  match m !! p with Some _ => Ret (<[p := b]> m) | None => Err BadAccess end.

(** Conversion of an [int] to [unsigned char].  A [char] is kept as the byte
    that represents it: the code only tests characters for equality, or
    converts them to [unsigned char] first. *)
Definition u8 (z : Z) : Z := z mod 256.

(** ** The functions of lib/string.c *)

(** [while (size-- > 0) *dst++ = *src++;] *)
Definition copy_up (m : mem) (dst src size : Z) : outcome (Z * mem) :=
  loop (fun '(m, dst, src, size) =>
    if 0 <? size then
      let! b := load m src in
      let! m := store m dst b in
      Ret (inl (m, dst + 1, src + 1, size - 1))
    else Ret (inr (dst, m))) (m, dst, src, size).

(** [while (size-- > 0) *--dst = *--src;] *)
Definition copy_down (m : mem) (dst src size : Z) : outcome (Z * mem) :=
  loop (fun '(m, dst, src, size) =>
    if 0 <? size then
      let! b := load m (src - 1) in
      let! m := store m (dst - 1) b in
      Ret (inl (m, dst - 1, src - 1, size - 1))
    else Ret (inr (dst, m))) (m, dst, src, size).

Definition nonnull_or_empty (p size : Z) : bool := negb (p =? NULL) || (size =? 0).

Definition memcpy (m : mem) (dst_ src_ size : Z) : outcome (Z * mem) :=
  let! _ := ASSERT (nonnull_or_empty dst_ size) in
  let! _ := ASSERT (nonnull_or_empty src_ size) in
  let! (_, m) := copy_up m dst_ src_ size in
  Ret (dst_, m).

Definition memmove (m : mem) (dst_ src_ size : Z) : outcome (Z * mem) :=
  let! _ := ASSERT (nonnull_or_empty dst_ size) in
  let! _ := ASSERT (nonnull_or_empty src_ size) in
  let! (dst, m) :=
    if dst_ <? src_ then copy_up m dst_ src_ size
    else copy_down m (dst_ + size) (src_ + size) size in
  Ret (dst, m).

Definition memcmp (m : mem) (a_ b_ size : Z) : outcome Z :=
  let! _ := ASSERT (nonnull_or_empty a_ size) in
  let! _ := ASSERT (nonnull_or_empty b_ size) in
  loop (fun '(a, b, size) =>
    if 0 <? size then
      let! x := load m a in
      let! y := load m b in
      if negb (x =? y) then Ret (inr (if y <? x then 1 else -1))
      else Ret (inl (a + 1, b + 1, size - 1))
    else Ret (inr 0)) (a_, b_, size).

Definition strcmp (m : mem) (a_ b_ : Z) : outcome Z :=
  let! _ := ASSERT (negb (a_ =? NULL)) in
  let! _ := ASSERT (negb (b_ =? NULL)) in
  let! (a, b) := loop (fun '(a, b) =>
    let! x := load m a in
    if negb (x =? 0) then
      let! y := load m b in
      if x =? y then Ret (inl (a + 1, b + 1)) else Ret (inr (a, b))
    else Ret (inr (a, b))) (a_, b_) in
  let! x := load m a in
  let! y := load m b in
  Ret (if x <? y then -1 else if y <? x then 1 else 0).

Definition memchr (m : mem) (block_ ch_ size : Z) : outcome Z :=
  let ch := u8 ch_ in
  let! _ := ASSERT (nonnull_or_empty block_ size) in
  loop (fun '(block, size) =>
    if 0 <? size then
      let! x := load m block in
      if x =? ch then Ret (inr block) else Ret (inl (block + 1, size - 1))
    else Ret (inr NULL)) (block_, size).

Definition strchr (m : mem) (string c_ : Z) : outcome Z :=
  let c := u8 c_ in
  let! _ := ASSERT (negb (string =? NULL)) in
  loop (fun string =>
    let! x := load m string in
    if x =? c then Ret (inr string)
    else if x =? 0 then Ret (inr NULL)
    else Ret (inl (string + 1))) string.

Definition strcspn (m : mem) (string stop : Z) : outcome Z :=
  loop (fun length =>
    let! x := load m (string + length) in
    if negb (x =? 0) then
      let! q := strchr m stop x in
      if negb (q =? NULL) then Ret (inr length) else Ret (inl (length + 1))
    else Ret (inr length)) 0.

Definition strpbrk (m : mem) (string stop : Z) : outcome Z :=
  loop (fun string =>
    let! x := load m string in
    if negb (x =? 0) then
      let! q := strchr m stop x in
      if negb (q =? NULL) then Ret (inr string) else Ret (inl (string + 1))
    else Ret (inr NULL)) string.

Definition strrchr (m : mem) (string c_ : Z) : outcome Z :=
  let c := u8 c_ in
  loop (fun '(string, p) =>
    let! x := load m string in
    if negb (x =? 0) then Ret (inl (string + 1, if x =? c then string else p))
    else Ret (inr p)) (string, NULL).

Definition strspn (m : mem) (string skip : Z) : outcome Z :=
  loop (fun length =>
    let! x := load m (string + length) in
    if negb (x =? 0) then
      let! q := strchr m skip x in
      if q =? NULL then Ret (inr length) else Ret (inl (length + 1))
    else Ret (inr length)) 0.

Definition strlen (m : mem) (string : Z) : outcome Z :=
  let! _ := ASSERT (negb (string =? NULL)) in
  let! p := loop (fun p =>
    let! x := load m p in
    if negb (x =? 0) then Ret (inl (p + 1)) else Ret (inr p)) string in
  Ret (u32 (p - string)).

Definition strnlen (m : mem) (string maxlen : Z) : outcome Z :=
  loop (fun length =>
    let! x := load m (string + length) in
    if negb (x =? 0) && (length <? maxlen) then Ret (inl (length + 1))
    else Ret (inr length)) 0.

Definition strstr (m : mem) (haystack needle : Z) : outcome Z :=
  let! haystack_len := strlen m haystack in
  let! needle_len := strlen m needle in
  if needle_len <=? haystack_len then
    loop (fun i =>
      if i <=? u32 (haystack_len - needle_len) then
        let! d := memcmp m (haystack + i) needle needle_len in
        if d =? 0 then Ret (inr (haystack + i)) else Ret (inl (i + 1))
      else Ret (inr NULL)) 0
  else Ret NULL.

(** The first loop of [strtok_r], over delimiters: the end of the string, or
    the start of a token. *)
Definition skip_delimiters (m : mem) (s delimiters : Z) : outcome (Z + Z) :=
  loop (fun s =>
    let! x := load m s in
    let! q := strchr m delimiters x in
    if negb (q =? NULL) then
      if x =? 0 then Ret (inr (inl s)) else Ret (inl (s + 1))
    else Ret (inr (inr s))) s.

(** The second loop of [strtok_r], to the end of the token. *)
Definition skip_token (m : mem) (s delimiters : Z) : outcome Z :=
  loop (fun s =>
    let! x := load m s in
    let! q := strchr m delimiters x in
    if q =? NULL then Ret (inl (s + 1)) else Ret (inr s)) s.

(** [strtok_r]: the argument [save_ptr] is the value of the variable that it
    points to, or [None] for a null pointer.  Returns the token, the new value
    of the variable and the memory. *)
Definition strtok_r (m : mem) (s delimiters : Z) (save_ptr : option Z) : outcome (Z * Z * mem) :=
  let! _ := ASSERT (negb (delimiters =? NULL)) in
  let! save := match save_ptr with Some v => Ret v | None => Err AssertFailed end in
  let s := if s =? NULL then save else s in
  let! _ := ASSERT (negb (s =? NULL)) in
  let! r := skip_delimiters m s delimiters in
  match r with
  | inl s => Ret (NULL, s, m)
  | inr token =>
      let! s := skip_token m token delimiters in
      let! x := load m s in
      if negb (x =? 0) then
        let! m := store m s 0 in
        Ret (token, s + 1, m)
      else Ret (token, s, m)
  end.

Definition memset (m : mem) (dst_ value size : Z) : outcome (Z * mem) :=
  let! _ := ASSERT (nonnull_or_empty dst_ size) in
  let! m := loop (fun '(m, dst, size) =>
    if 0 <? size then
      let! m := store m dst (u8 value) in
      Ret (inl (m, dst + 1, size - 1))
    else Ret (inr m)) (m, dst_, size) in
  Ret (dst_, m).

Definition strlcpy (m : mem) (dst src size : Z) : outcome (Z * mem) :=
  let! _ := ASSERT (negb (dst =? NULL)) in
  let! _ := ASSERT (negb (src =? NULL)) in
  let! src_len := strlen m src in
  if 0 <? size then
    let dst_len := size - 1 in
    let dst_len := if src_len <? dst_len then src_len else dst_len in
    let! (_, m) := memcpy m dst src dst_len in
    let! m := store m (dst + dst_len) 0 in
    Ret (src_len, m)
  else Ret (src_len, m).

Definition strlcat (m : mem) (dst src size : Z) : outcome (Z * mem) :=
  let! _ := ASSERT (negb (dst =? NULL)) in
  let! _ := ASSERT (negb (src =? NULL)) in
  let! src_len := strlen m src in
  let! dst_len := strlen m dst in
  if (0 <? size) && (dst_len <? size) then
    let copy_cnt := u32 (size - dst_len - 1) in
    let copy_cnt := if src_len <? copy_cnt then src_len else copy_cnt in
    let! (_, m) := memcpy m (dst + dst_len) src copy_cnt in
    let! m := store m (dst + dst_len + copy_cnt) 0 in
    Ret (u32 (src_len + dst_len), m)
  else Ret (u32 (src_len + dst_len), m).

(** ** Blocks and strings in memory *)

Definition bytes_at (m : mem) (p : Z) (l : list Z) : Prop :=
  forall i b, l !! i = Some b -> m !! (p + Z.of_nat i) = Some b.

Definition mapped (m : mem) (p n : Z) : Prop :=
  forall q, p <= q < p + n -> is_Some (m !! q).

Fixpoint write_bytes (m : mem) (p : Z) (l : list Z) : mem :=
  match l with
  | [] => m
  | b :: l => write_bytes (<[p := b]> m) (p + 1) l
  end.

Abbreviation len l := (Z.of_nat (length l)).

Definition is_char (c : Z) : Prop := 0 < c < 256.

(** A null-terminated string in memory. *)
Definition cstr (m : mem) (p : Z) (s : list Z) : Prop :=
  0 < p /\ p + len s < two32 /\ Forall is_char s /\ bytes_at m p (s ++ [0]).

(** The blocks [p, p + n) and [q, q + k) have no byte in common. *)
Definition disjoint_blocks (p n q k : Z) : Prop := p + n <= q \/ q + k <= p.

Lemma write_bytes_snoc m p l b :
  write_bytes m p (l ++ [b]) = <[p + len l := b]> (write_bytes m p l).
Proof.
  revert m p. induction l as [|a l IH]; intros m p; simpl.
  - by rewrite Z.add_0_r.
  - rewrite IH. f_equal. lia.
Qed.

Lemma lookup_write_bytes_out m p l q :
  q < p \/ p + len l <= q -> write_bytes m p l !! q = m !! q.
Proof.
  revert m p. induction l as [|a l IH]; intros m p Hq; simpl in *; [done|].
  rewrite IH by lia. apply lookup_insert_ne. lia.
Qed.

Lemma write_bytes_cons m p b l :
  write_bytes m p (b :: l) = <[p := b]> (write_bytes m (p + 1) l).
Proof.
  simpl. revert b m p. induction l as [|a l IH] using rev_ind; intros b m p; [done|].
  rewrite !write_bytes_snoc, IH. apply insert_insert_ne. lia.
Qed.

Lemma write_bytes_at m p l : bytes_at (write_bytes m p l) p l.
Proof.
  revert m p. induction l as [|a l IH]; intros m p i b Hi; [done|].
  destruct i as [|i]; simpl in *.
  - injection Hi as ->. rewrite lookup_write_bytes_out, Z.add_0_r by lia. apply lookup_insert_eq.
  - replace (p + Z.of_nat (S i)) with (p + 1 + Z.of_nat i) by lia. by apply IH.
Qed.

Lemma mapped_write m p l q n : mapped m q n -> mapped (write_bytes m p l) q n.
Proof.
  intros Hm. revert m p Hm. induction l as [|a l IH]; intros m p Hm; simpl; [done|].
  apply IH. intros r Hr. destruct (decide (r = p)) as [->|].
  - rewrite lookup_insert_eq. eauto.
  - rewrite lookup_insert_ne by done. by apply Hm.
Qed.

Lemma bytes_at_app m p l1 l2 :
  bytes_at m p (l1 ++ l2) <-> bytes_at m p l1 /\ bytes_at m (p + len l1) l2.
Proof.
  split.
  - intros H. split; intros i b Hi.
    + apply H. by apply lookup_app_l_Some.
    + replace (p + len l1 + Z.of_nat i) with (p + Z.of_nat (length l1 + i)) by lia. apply H.
      rewrite lookup_app_r by lia. by replace (length l1 + i - length l1)%nat with i by lia.
  - intros [H1 H2] i b [Hi|[Hl Hi]]%lookup_app_Some; [by apply H1|].
    replace (p + Z.of_nat i) with (p + len l1 + Z.of_nat (i - length l1)) by lia. by apply H2.
Qed.

Lemma bytes_at_mapped m p l : bytes_at m p l -> mapped m p (len l).
Proof.
  intros H q Hq. destruct (lookup_lt_is_Some_2 l (Z.to_nat (q - p))) as [b Hb]; [lia|].
  exists b. replace q with (p + Z.of_nat (Z.to_nat (q - p))) by lia. by apply H.
Qed.

Lemma bytes_at_write_out m p l q k :
  disjoint_blocks p (len l) q (len k) -> bytes_at m q k -> bytes_at (write_bytes m p l) q k.
Proof.
  intros Hd Hb i b Hi. rewrite lookup_write_bytes_out; [by apply Hb|].
  pose proof (lookup_lt_Some _ _ _ Hi). unfold disjoint_blocks in Hd. lia.
Qed.

(** ** Copying *)

Lemma load_ok m p b : m !! p = Some b -> load m p = Ret b.
Proof. unfold load. by intros ->. Qed.

Lemma store_ok m p b : is_Some (m !! p) -> store m p b = Ret (<[p := b]> m).
Proof. unfold store. by intros [x ->]. Qed.

(** Applies [loop_trace] to the states [st] and the number [n] of iterations. *)
Ltac trace st n :=
  lazymatch goal with
  | |- loop ?body ?s = Ret ?r =>
      transitivity (loop body (st O));
        [apply (f_equal (loop body))
        |apply (loop_trace st n body r); [intros ?i ?Hi| |]]; cbv beta iota zeta
  end.

Lemma copy_up_spec m dst src l :
  bytes_at m src l -> mapped m dst (len l) -> dst <= src \/ src + len l <= dst -> len l < two32 ->
  copy_up m dst src (len l) = Ret (dst + len l, write_bytes m dst l).
Proof.
  intros Hs Hd Ho Hl. unfold copy_up.
  trace (fun i => (write_bytes m dst (take i l), dst + Z.of_nat i, src + Z.of_nat i, len l - Z.of_nat i)) (length l).
  - simpl. feq.
  - destruct (lookup_lt_is_Some_2 l i Hi) as [b Hb]. rewrite (proj2 (Z.ltb_lt _ _)) by lia.
    rewrite (load_ok _ _ b). 2: { rewrite lookup_write_bytes_out by (rewrite length_take; lia). by apply Hs. }
    simpl. rewrite store_ok by (apply (mapped_write _ _ _ _ _ Hd); lia). simpl.
    rewrite (take_S_r _ _ b Hb), write_bytes_snoc, length_take, Nat.min_l by lia.
    feq.
  - rewrite firstn_all, (proj2 (Z.ltb_ge _ _)) by lia. done.
  - done.
Qed.

Lemma copy_down_spec m dst src l :
  bytes_at m src l -> mapped m dst (len l) -> src <= dst -> len l < two32 ->
  copy_down m (dst + len l) (src + len l) (len l) = Ret (dst, write_bytes m dst l).
Proof.
  intros Hs Hd Ho Hl. unfold copy_down.
  trace (fun i => let k := len l - Z.of_nat i in
    (write_bytes m (dst + k) (drop (length l - i) l), dst + k, src + k, k)) (length l).
  - rewrite Nat.sub_0_r, drop_all. simpl. feq.
  - destruct (lookup_lt_is_Some_2 l (length l - S i)) as [b Hb]; [lia|]. rewrite (proj2 (Z.ltb_lt _ _)) by lia.
    rewrite (load_ok _ _ b).
    2: { rewrite lookup_write_bytes_out by lia. apply Hs in Hb. rewrite <- Hb. f_equal. lia. }
    simpl. rewrite store_ok by (apply (mapped_write _ _ _ _ _ Hd); lia). simpl.
    rewrite (drop_S _ _ _ Hb), write_bytes_cons. feq.
  - rewrite Nat.sub_diag, Z.sub_diag, Z.add_0_r. done.
  - done.
Qed.

Lemma nonnull_ok p n : 0 < p -> nonnull_or_empty p n = true.
Proof. intros. unfold nonnull_or_empty, NULL. by rewrite (proj2 (Z.eqb_neq _ _)) by lia. Qed.

Lemma nonnull p : 0 < p -> negb (p =? NULL) = true.
Proof. intros. unfold NULL. by rewrite (proj2 (Z.eqb_neq _ _)) by lia. Qed.

Lemma memcpy_spec m dst src l :
  bytes_at m src l -> mapped m dst (len l) -> disjoint_blocks dst (len l) src (len l) ->
  0 < dst -> 0 < src -> len l < two32 ->
  memcpy m dst src (len l) = Ret (dst, write_bytes m dst l).
Proof.
  intros Hs Hd Ho H1 H2 Hl. unfold memcpy. rewrite !nonnull_ok by done. simpl.
  unfold disjoint_blocks in Ho. rewrite copy_up_spec by (done || lia). done.
Qed.

Lemma memset_spec m dst value n :
  mapped m dst (Z.of_nat n) -> 0 < dst -> Z.of_nat n < two32 ->
  memset m dst value (Z.of_nat n) = Ret (dst, write_bytes m dst (replicate n (u8 value))).
Proof.
  intros Hd H1 Hl. unfold memset. rewrite nonnull_ok by done. simpl.
  match goal with |- obind ?L _ = _ => assert (L = Ret (write_bytes m dst (replicate n (u8 value)))) as -> end; [|done].
  trace (fun i => (write_bytes m dst (replicate i (u8 value)), dst + Z.of_nat i, Z.of_nat n - Z.of_nat i)) n.
  - simpl. feq.
  - rewrite (proj2 (Z.ltb_lt _ _)) by lia. rewrite store_ok by (apply (mapped_write _ _ _ _ _ Hd); lia). simpl obind.
    rewrite replicate_S_end, write_bytes_snoc, length_replicate. feq.
  - by rewrite Z.sub_diag.
  - done.
Qed.

(** ** Scanning *)

Lemma cstr_char m p s i c : cstr m p s -> s !! i = Some c -> m !! (p + Z.of_nat i) = Some c /\ is_char c.
Proof.
  intros (_ & _ & Hc & Hb) Hi. split; [|by apply (Forall_lookup_1 _ _ _ _ Hc Hi)].
  apply Hb. by apply lookup_app_l_Some.
Qed.

Lemma cstr_end m p s : cstr m p s -> m !! (p + len s) = Some 0.
Proof.
  intros (_ & _ & _ & Hb). apply Hb. rewrite lookup_app_r by lia. by rewrite Nat.sub_diag.
Qed.

Lemma cstr_suffix m p s1 s2 : cstr m p (s1 ++ s2) -> cstr m (p + len s1) s2.
Proof.
  intros (Hp & Hl & Hc & Hb). apply Forall_app in Hc as [_ Hc]. rewrite <- app_assoc in Hb.
  apply bytes_at_app in Hb as [_ Hb]. rewrite length_app in Hl. repeat split; [lia|lia|done|done].
Qed.

Lemma cstr_frame m m' p s :
  cstr m p s -> (forall q, p <= q <= p + len s -> m' !! q = m !! q) -> cstr m' p s.
Proof.
  intros (Hp & Hl & Hc & Hb) Hm. repeat split; [done|done|done|].
  intros i b Hi. rewrite Hm; [by apply Hb|]. apply lookup_lt_Some in Hi. rewrite length_app in Hi. simpl in Hi. lia.
Qed.

Lemma cstr_mapped m p s : cstr m p s -> mapped m p (len s + 1).
Proof.
  intros (_ & _ & _ & Hb). apply bytes_at_mapped in Hb. rewrite length_app in Hb. simpl in Hb.
  intros q Hq. apply Hb. lia.
Qed.

Lemma u8_byte c : 0 <= c < 256 -> u8 c = c.
Proof. apply Z.mod_small. Qed.

(** Membership in a set of characters given as a string; the terminator
    belongs to it. *)
Definition mem_chr (c : Z) (s : list Z) : bool := bool_decide (c ∈ s ++ [0]).

Lemma strchr_found m p s l1 c l2 :
  cstr m p s -> 0 <= c < 256 -> s ++ [0] = l1 ++ c :: l2 -> c ∉ l1 ->
  strchr m p c = Ret (p + len l1).
Proof.
  intros Hs Hc Heq Hn. pose proof Hs as (Hp & Hl & Hch & Hb). unfold strchr. rewrite nonnull by done. simpl.
  rewrite u8_byte by done.
  assert (length s = length l1 + length l2)%nat as Hlen.
  { apply (f_equal length) in Heq. rewrite !length_app in Heq. simpl in Heq. lia. }
  trace (fun i => p + Z.of_nat i) (length l1).
  - lia.
  - destruct (lookup_lt_is_Some_2 l1 i Hi) as [b Hib].
    assert (s !! i = Some b) as Hsi.
    { assert ((s ++ [0]) !! i = Some b) as H by (rewrite Heq; by apply lookup_app_l_Some).
      rewrite lookup_app_l in H by lia. done. }
    destruct (cstr_char _ _ _ _ _ Hs Hsi) as [Hm Hbc]. unfold is_char in Hbc.
    rewrite (load_ok _ _ _ Hm). simpl. rewrite (proj2 (Z.eqb_neq b c)), (proj2 (Z.eqb_neq b 0)); [feq|lia|].
    intros ->. apply Hn. by eapply list_elem_of_lookup_2.
  - rewrite (load_ok _ _ c). 2: { apply Hb. rewrite Heq, lookup_app_r, Nat.sub_diag by lia. done. }
    simpl. by rewrite Z.eqb_refl.
  - lia.
Qed.

Lemma strchr_none m p s c :
  cstr m p s -> 0 < c < 256 -> c ∉ s -> strchr m p c = Ret NULL.
Proof.
  intros Hs Hc Hn. pose proof Hs as (Hp & Hl & Hch & Hb). unfold strchr. rewrite nonnull by done. simpl.
  rewrite u8_byte by lia. trace (fun i => p + Z.of_nat i) (length s).
  - lia.
  - destruct (lookup_lt_is_Some_2 s i Hi) as [b Hib].
    destruct (cstr_char _ _ _ _ _ Hs Hib) as [Hm Hbc]. unfold is_char in Hbc.
    rewrite (load_ok _ _ _ Hm). simpl. rewrite (proj2 (Z.eqb_neq b c)), (proj2 (Z.eqb_neq b 0)); [feq|lia|].
    intros ->. apply Hn. by eapply list_elem_of_lookup_2.
  - rewrite (load_ok _ _ _ (cstr_end _ _ _ Hs)). cbn [obind]. by rewrite (proj2 (Z.eqb_neq 0 c)) by lia.
  - lia.
Qed.

(** The test that the other functions make on the result of [strchr]. *)
Lemma strchr_test m p s c :
  cstr m p s -> 0 <= c < 256 -> exists q, strchr m p c = Ret q /\ (q =? NULL) = negb (mem_chr c s).
Proof.
  intros Hs Hc. unfold mem_chr. case_bool_decide as Hin.
  - apply list_elem_of_split_l in Hin as (l1 & l2 & Heq & Hn). exists (p + len l1).
    split; [by apply (strchr_found m p s l1 c l2)|]. pose proof Hs as (Hp & _). unfold NULL. simpl. apply Z.eqb_neq. lia.
  - exists NULL. split; [|done]. apply strchr_none with s; [done| |set_solver].
    assert (c <> 0) by set_solver. lia.
Qed.

Lemma strlen_spec m p s : cstr m p s -> strlen m p = Ret (len s).
Proof.
  intros Hs. pose proof Hs as (Hp & Hl & Hch & Hb). unfold strlen. rewrite nonnull by done. simpl.
  match goal with |- obind ?L _ = _ => assert (L = Ret (p + len s)) as -> end.
  { trace (fun i => p + Z.of_nat i) (length s); [lia| |by rewrite (load_ok _ _ _ (cstr_end _ _ _ Hs))|lia].
    destruct (lookup_lt_is_Some_2 s i Hi) as [b Hib].
    destruct (cstr_char _ _ _ _ _ Hs Hib) as [Hm Hbc]. unfold is_char in Hbc.
    rewrite (load_ok _ _ _ Hm). simpl. rewrite (proj2 (Z.eqb_neq b 0)) by lia. simpl. feq. }
  simpl. rewrite u32_small; [feq|]. unfold is_u32. lia.
Qed.

(** The number of leading elements that satisfy [f]. *)
Fixpoint span (f : Z -> bool) (l : list Z) : nat :=
  match l with
  | [] => O
  | x :: l => if f x then S (span f l) else O
  end.

Lemma span_le f l : (span f l <= length l)%nat.
Proof. induction l as [|x l IH]; simpl; [lia|]. destruct (f x); lia. Qed.

Lemma span_in f l i x : (i < span f l)%nat -> l !! i = Some x -> f x = true.
Proof.
  revert i. induction l as [|y l IH]; intros i Hi Hx; [done|]. simpl in Hi. destruct (f y) eqn:Hy; [|lia].
  destruct i as [|i]; simpl in Hx; [by injection Hx as <-|]. apply (IH i); [lia|done].
Qed.

Lemma span_out f l x : l !! span f l = Some x -> f x = false.
Proof.
  induction l as [|y l IH]; simpl; [done|]. destruct (f y) eqn:Hy; simpl; [done|]. by intros [= <-].
Qed.

(** Splits a string at the end of the span. *)
Lemma span_split f l :
  exists l1 l2, l = l1 ++ l2 /\ length l1 = span f l /\ Forall (fun x => f x = true) l1 /\
    (forall x l2', l2 = x :: l2' -> f x = false).
Proof.
  exists (take (span f l) l), (drop (span f l) l). repeat split.
  - by rewrite take_drop.
  - rewrite length_take. pose proof (span_le f l). lia.
  - apply Forall_lookup. intros i x Hi. apply lookup_take_Some in Hi as [Hi Hlt]. by apply (span_in f l i).
  - intros x l2' Hx. apply span_out with l. rewrite <- (Nat.add_0_r (span f l)), <- lookup_drop. by rewrite Hx.
Qed.

(** A loop that tests the characters of a string one by one with [strchr]. *)
Lemma char_test m p s d set i c :
  cstr m p s -> cstr m d set -> s !! i = Some c ->
  load m (p + Z.of_nat i) = Ret c /\ (c =? 0) = false /\
  exists q, strchr m d c = Ret q /\ (q =? NULL) = negb (mem_chr c set).
Proof.
  intros Hs Hd Hi. destruct (cstr_char _ _ _ _ _ Hs Hi) as [Hm Hc]. unfold is_char in Hc.
  split; [by apply load_ok|]. split; [lia|]. apply (strchr_test m d set c Hd). lia.
Qed.

Ltac run_char T :=
  let El := fresh in let Ez := fresh in let Eq := fresh in let Hq := fresh in let q := fresh "q" in
  destruct T as (El & Ez & q & Eq & Hq);
  rewrite El; cbn [obind]; rewrite ?Ez; cbn [negb]; rewrite Eq; cbn [obind]; rewrite ?Hq.

Lemma strcspn_spec m p s d stop :
  cstr m p s -> cstr m d stop ->
  strcspn m p d = Ret (Z.of_nat (span (fun c => negb (mem_chr c stop)) s)).
Proof.
  intros Hs Hd. pose proof Hs as (Hp & Hl & _). unfold strcspn. set (f := fun c => negb (mem_chr c stop)).
  pose proof (span_le f s). trace (fun i => Z.of_nat i) (span f s); [done| | |lia].
  - destruct (lookup_lt_is_Some_2 s i) as [c Hc]; [lia|].
    run_char (char_test m p s d stop i c Hs Hd Hc).
    pose proof (span_in f s i c Hi Hc) as Hf. unfold f in Hf. rewrite Hf. simpl. feq.
  - destruct (s !! span f s) as [c|] eqn:Hc.
    + run_char (char_test m p s d stop _ c Hs Hd Hc).
      pose proof (span_out f s c Hc) as Hf. unfold f in Hf. by rewrite Hf.
    + apply lookup_ge_None in Hc. replace (span f s) with (length s) by lia.
      by rewrite (load_ok _ _ _ (cstr_end _ _ _ Hs)).
Qed.

Lemma strspn_spec m p s d skip :
  cstr m p s -> cstr m d skip -> strspn m p d = Ret (Z.of_nat (span (fun c => mem_chr c skip) s)).
Proof.
  intros Hs Hd. pose proof Hs as (Hp & Hl & _). unfold strspn. set (f := fun c => mem_chr c skip).
  pose proof (span_le f s). trace (fun i => Z.of_nat i) (span f s); [done| | |lia].
  - destruct (lookup_lt_is_Some_2 s i) as [c Hc]; [lia|].
    run_char (char_test m p s d skip i c Hs Hd Hc).
    pose proof (span_in f s i c Hi Hc) as Hf. unfold f in Hf. rewrite Hf. simpl. feq.
  - destruct (s !! span f s) as [c|] eqn:Hc.
    + run_char (char_test m p s d skip _ c Hs Hd Hc).
      pose proof (span_out f s c Hc) as Hf. unfold f in Hf. by rewrite Hf.
    + apply lookup_ge_None in Hc. replace (span f s) with (length s) by lia.
      by rewrite (load_ok _ _ _ (cstr_end _ _ _ Hs)).
Qed.

(** ** Comparison *)

(** Lexicographic order on bytes. *)
Fixpoint lex (a b : list Z) : Z :=
  match a, b with
  | [], [] => 0
  | [], _ :: _ => -1
  | _ :: _, [] => 1
  | x :: a, y :: b => if x <? y then -1 else if y <? x then 1 else lex a b
  end.

Lemma lex_zero a b : lex a b = 0 <-> a = b.
Proof.
  revert b. induction a as [|x a IH]; intros [|y b]; simpl; [done|done|done|].
  bool_cases; [split; [done|intros [= -> ->]; lia]|split; [done|intros [= -> ->]; lia]|].
  rewrite IH. assert (x = y) as -> by lia. split; [by intros ->|by intros [= ->]].
Qed.

(** The first difference of two blocks of the same length. *)
Lemma lex_block a b :
  length a = length b ->
  a = b \/ exists n x y, (forall i, (i < n)%nat -> exists c, a !! i = Some c /\ b !! i = Some c) /\
    a !! n = Some x /\ b !! n = Some y /\ x <> y /\ lex a b = if y <? x then 1 else -1.
Proof.
  revert b. induction a as [|x a IH]; intros [|y b] Hl; simpl in Hl; [by left|done|done|].
  destruct (decide (x = y)) as [->|Hne].
  - destruct (IH b) as [->|(n & u & v & Hp & Hu & Hv & Hne & Hx)]; [lia|by left|].
    right. exists (S n), u, v. repeat split; [|done|done|done|].
    + intros [|i] Hi; simpl; [eauto|]. apply Hp. lia.
    + simpl. by rewrite Z.ltb_irrefl.
  - right. exists O, x, y. repeat split; [intros; lia|done|]. simpl. bool_cases; lia || done.
Qed.

Lemma memcmp_spec m p q a b :
  bytes_at m p a -> bytes_at m q b -> length a = length b -> 0 < p -> 0 < q -> len a < two32 ->
  memcmp m p q (len a) = Ret (lex a b).
Proof.
  intros Ha Hb Hlen Hp Hq Hl. unfold memcmp. rewrite !nonnull_ok by done. simpl.
  destruct (lex_block a b Hlen) as [->|(n & x & y & Hpre & Hx & Hy & Hne & ->)].
  - rewrite (proj2 (lex_zero b b)) by done.
    trace (fun i => (p + Z.of_nat i, q + Z.of_nat i, len b - Z.of_nat i)) (length b); [feq| | |done].
    + destruct (lookup_lt_is_Some_2 b i Hi) as [c Hc]. rewrite (proj2 (Z.ltb_lt _ _)) by lia.
      rewrite (load_ok _ _ c), (load_ok _ _ c) by auto. simpl. rewrite Z.eqb_refl. simpl. feq.
    + by rewrite Z.sub_diag.
  - assert (n < length a)%nat by (by eapply lookup_lt_Some).
    trace (fun i => (p + Z.of_nat i, q + Z.of_nat i, len a - Z.of_nat i)) n; [feq| | |lia];
      rewrite (proj2 (Z.ltb_lt _ _)) by lia.
    + destruct (Hpre i Hi) as (c & Hc & Hc'). rewrite (load_ok _ _ c), (load_ok _ _ c) by auto.
      simpl. rewrite Z.eqb_refl. simpl. feq.
    + rewrite (load_ok _ _ x), (load_ok _ _ y) by auto. simpl. by rewrite (proj2 (Z.eqb_neq _ _)).
Qed.

(** The first difference of two strings, or their common end. *)
Lemma lex_string a b :
  Forall is_char a -> Forall is_char b ->
  exists n x y, (n <= length a)%nat /\
    (forall i, (i < n)%nat -> exists c, a !! i = Some c /\ b !! i = Some c) /\
    (a ++ [0]) !! n = Some x /\ (b ++ [0]) !! n = Some y /\ (x = 0 \/ x <> y) /\
    lex a b = if x <? y then -1 else if y <? x then 1 else 0.
Proof.
  revert b. induction a as [|x a IH]; intros [|y b] Ha Hb; simpl; decompose_Forall_hyps; unfold is_char in *.
  - exists O, 0, 0. repeat split; [lia|intros; lia|by left].
  - exists O, 0, y. repeat split; [lia|intros; lia|by left|]. by rewrite (proj2 (Z.ltb_lt 0 y)) by lia.
  - exists O, x, 0. repeat split; [lia|intros; lia|right; lia|]. bool_cases; lia || done.
  - destruct (decide (x = y)) as [->|Hne].
    + destruct (IH b) as (n & u & v & Hn & Hp & Hu & Hv & Hd & He); [done|done|].
      exists (S n), u, v. repeat split; [lia| |done|done|done|by rewrite Z.ltb_irrefl].
      intros [|i] Hi; simpl; [eauto|]. apply Hp. lia.
    + exists O, x, y. repeat split; [lia|intros; lia|by right|]. bool_cases; lia || done.
Qed.

(** [strcmp] computes the lexicographic order. *)
Lemma strcmp_spec m p q a b : cstr m p a -> cstr m q b -> strcmp m p q = Ret (lex a b).
Proof.
  intros Ha Hb. pose proof Ha as (Hp & Hl & Hca & Hba). pose proof Hb as (Hq & _ & Hcb & Hbb).
  unfold strcmp. rewrite !nonnull by done. simpl.
  destruct (lex_string a b Hca Hcb) as (n & x & y & Hn & Hpre & Hx & Hy & Hd & ->).
  match goal with |- obind ?L _ = _ => assert (L = Ret (p + Z.of_nat n, q + Z.of_nat n)) as -> end.
  { trace (fun i => (p + Z.of_nat i, q + Z.of_nat i)) n; [feq| | |lia].
    - destruct (Hpre i Hi) as (c & Hc & Hc'). destruct (cstr_char _ _ _ _ _ Ha Hc) as [Hm Hch].
      destruct (cstr_char _ _ _ _ _ Hb Hc') as [Hm' _]. unfold is_char in Hch.
      rewrite (load_ok _ _ c Hm). simpl. rewrite (proj2 (Z.eqb_neq c 0)) by lia. simpl.
      rewrite (load_ok _ _ c Hm'). simpl. rewrite Z.eqb_refl. simpl. feq.
    - rewrite (load_ok _ _ x (Hba _ _ Hx)). cbn [obind]. destruct (Z.eqb_spec x 0); simpl; [done|].
      rewrite (load_ok _ _ y (Hbb _ _ Hy)). simpl. rewrite (proj2 (Z.eqb_neq x y)); [done|]. by destruct Hd. }
  simpl. rewrite (load_ok _ _ x (Hba _ _ Hx)). simpl. by rewrite (load_ok _ _ y (Hbb _ _ Hy)).
Qed.

(** ** Substrings *)

Lemma prefix_take (n l : list Z) : n `prefix_of` l <-> take (length n) l = n.
Proof.
  split.
  - intros [k ->]. by rewrite take_app_length.
  - intros <-. apply prefix_take.
Qed.

Lemma memcmp_substring m p h q n i :
  cstr m p h -> cstr m q n -> (i + length n <= length h)%nat ->
  exists d, memcmp m (p + Z.of_nat i) q (len n) = Ret d /\ (d = 0 <-> n `prefix_of` drop i h).
Proof.
  intros Hh Hn Hi. pose proof Hh as (Hp & Hl & _ & Hb). pose proof Hn as (Hq & _ & _ & Hbn).
  set (w := take (length n) (drop i h)).
  assert (length w = length n) as Hw by (unfold w; rewrite length_take, length_drop; lia).
  exists (lex w n). split.
  - rewrite <- Hw. apply memcmp_spec; [| |done|lia|done|lia].
    + intros j b Hj. unfold w in Hj. apply lookup_take_Some in Hj as [Hj Hlt]. rewrite lookup_drop in Hj.
      replace (p + Z.of_nat i + Z.of_nat j) with (p + Z.of_nat (i + j)) by lia.
      apply Hb. by apply lookup_app_l_Some.
    + by apply bytes_at_app in Hbn as [? _].
  - by rewrite lex_zero, prefix_take.
Qed.

(** [strstr] returns the first occurrence of the needle in the haystack,
    and a null pointer exactly when there is none; its loops end. *)
Theorem strstr_first_occurrence m p q h n :
  cstr m p h -> cstr m q n ->
  (exists i, strstr m p q = Ret (p + Z.of_nat i) /\ (i <= length h)%nat /\ n `prefix_of` drop i h /\
     forall j, (j < i)%nat -> ~ n `prefix_of` drop j h) \/
  (strstr m p q = Ret NULL /\ forall i, ~ n `prefix_of` drop i h).
Proof.
  intros Hh Hn. pose proof Hh as (Hp & Hl & _). pose proof Hn as (Hq & Hln & _).
  unfold strstr. rewrite (strlen_spec _ _ _ Hh), (strlen_spec _ _ _ Hn). simpl.
  assert (forall i, n `prefix_of` drop i h -> (length n + i <= length h \/ length n = 0)%nat) as Hlen.
  { intros i H%prefix_length. rewrite length_drop in H. lia. }
  destruct (Z.leb_spec (len n) (len h)) as [Hle|Hgt].
  2: { right. split; [done|]. intros i H%Hlen. lia. }
  rewrite u32_small by (unfold is_u32; lia).
  destruct (first_index (fun i => n `prefix_of` drop i h) (length h - length n + 1)) as [(i & Hi & Hpre & Hmin)|Hno].
  - left. exists i. split; [|split; [lia|done]].
    trace (fun i => Z.of_nat i) i; [done| | |lia]; rewrite (proj2 (Z.leb_le _ _)) by lia.
    + destruct (memcmp_substring m p h q n i0 Hh Hn) as (d & -> & Hd); [lia|]. simpl.
      rewrite (proj2 (Z.eqb_neq d 0)); [feq|]. intros H%Hd. by apply (Hmin i0).
    + destruct (memcmp_substring m p h q n i Hh Hn) as (d & -> & Hd); [lia|]. simpl.
      by rewrite (proj2 Hd).
  - right. split.
    + trace (fun i => Z.of_nat i) (length h - length n + 1)%nat; [done| | |lia].
      * rewrite (proj2 (Z.leb_le _ _)) by lia.
        destruct (memcmp_substring m p h q n i Hh Hn) as (d & -> & Hd); [lia|]. simpl.
        rewrite (proj2 (Z.eqb_neq d 0)); [feq|]. intros H%Hd. by apply (Hno i).
      * by rewrite (proj2 (Z.leb_gt _ _)) by lia.
    + intros i Hi. destruct (Hlen i Hi) as [?|H0]; [apply (Hno i); [lia|done]|].
      apply (Hno O); [lia|]. destruct n; [apply prefix_nil|done].
Qed.

Lemma cstr_write m p s :
  0 < p -> p + len s < two32 -> Forall is_char s -> cstr (write_bytes m p (s ++ [0])) p s.
Proof. intros. repeat split; [done|done|done|apply write_bytes_at]. Qed.

Lemma cstr_write_out m p l q s :
  cstr m q s -> disjoint_blocks p (len l) q (len s + 1) -> cstr (write_bytes m p l) q s.
Proof.
  intros Hs Hd. apply (cstr_frame m); [done|]. intros r Hr. apply lookup_write_bytes_out.
  unfold disjoint_blocks in Hd. lia.
Qed.

Ltac chars := repeat constructor; unfold is_char; lia.

(** Two strings in memory: "abcab" at 100 and "ca" at 200. *)
Definition two_strings : mem :=
  write_bytes (write_bytes ∅ 100 ([97; 98; 99; 97; 98] ++ [0])) 200 ([99; 97] ++ [0]).

Lemma two_strings_ok : cstr two_strings 100 [97; 98; 99; 97; 98] /\ cstr two_strings 200 [99; 97].
Proof.
  unfold two_strings. split; [apply cstr_write_out; [|unfold disjoint_blocks; simpl; lia]|];
    apply cstr_write; (lia || chars || (unfold two32; simpl; lia)).
Qed.

Lemma strstr_first_occurrence_witness :
  strstr two_strings 100 200 = Ret 102 /\
  ((exists i, strstr two_strings 100 200 = Ret (100 + Z.of_nat i) /\ (i <= 5)%nat /\
      [99; 97] `prefix_of` drop i [97; 98; 99; 97; 98] /\
      forall j, (j < i)%nat -> ~ [99; 97] `prefix_of` drop j [97; 98; 99; 97; 98]) \/
   (strstr two_strings 100 200 = Ret NULL /\ forall i, ~ [99; 97] `prefix_of` drop i [97; 98; 99; 97; 98])).
Proof.
  split; [by vm_compute|].
  apply (strstr_first_occurrence two_strings 100 200 [97; 98; 99; 97; 98] [99; 97]); apply two_strings_ok.
Defined.

(** ** Moving blocks *)

(** [memmove] copies the bytes of the source block to the destination
    block, also when the two overlap, and changes no other byte.  It returns
    the destination only when it copies backwards: a copy to a lower address
    returns the end of the destination block. *)
Theorem memmove_correct m dst src l :
  bytes_at m src l -> mapped m dst (len l) ->
  0 < dst -> 0 < src -> len l < two32 ->
  exists m', memmove m dst src (len l) = Ret (if dst <? src then dst + len l else dst, m') /\
    bytes_at m' dst l /\ (forall q, q < dst \/ dst + len l <= q -> m' !! q = m !! q).
Proof.
  intros Hs Hd H1 H2 Hl. exists (write_bytes m dst l).
  split; [|split; [apply write_bytes_at|intros q; apply lookup_write_bytes_out]].
  unfold memmove. rewrite !nonnull_ok by done. simpl. destruct (Z.ltb_spec dst src).
  - rewrite copy_up_spec by (done || lia). done.
  - rewrite copy_down_spec by (done || lia). done.
Qed.

(** Moving "abcab" down by one and up by one, over itself. *)
Lemma memmove_correct_witness :
  (exists m', memmove two_strings 100 101 4 = Ret (104, m') /\ bytes_at m' 100 [98; 99; 97; 98] /\
     (forall q, q < 100 \/ 104 <= q -> m' !! q = two_strings !! q)) /\
  (exists m', memmove two_strings 101 100 4 = Ret (101, m') /\ bytes_at m' 101 [97; 98; 99; 97] /\
     (forall q, q < 101 \/ 105 <= q -> m' !! q = two_strings !! q)).
Proof.
  split.
  - apply (memmove_correct two_strings 100 101 [98; 99; 97; 98]); [|intros q Hq|lia|lia|done].
    + intros i b. do 4 (destruct i as [|i]; [by intros [= <-]|]). done.
    + apply (cstr_mapped _ _ _ (proj1 two_strings_ok)). simpl in *. lia.
  - apply (memmove_correct two_strings 101 100 [97; 98; 99; 97]); [|intros q Hq|lia|lia|done].
    + intros i b. do 4 (destruct i as [|i]; [by intros [= <-]|]). done.
    + apply (cstr_mapped _ _ _ (proj1 two_strings_ok)). simpl in *. lia.
Defined.

(** ** Tokens *)

(** The tokens of a string: its maximal non-empty runs of characters that
    are not delimiters; [cur] is the run read so far. *)
Fixpoint tokens_from (d cur s : list Z) : list (list Z) :=
  match s with
  | [] => match cur with [] => [] | _ => [cur] end
  | c :: s =>
      if mem_chr c d then match cur with [] => tokens_from d [] s | _ => cur :: tokens_from d [] s end
      else tokens_from d (cur ++ [c]) s
  end.

Definition tokens (d s : list Z) : list (list Z) := tokens_from d [] s.

Lemma tokens_skip d l s : Forall (fun c => mem_chr c d = true) l -> tokens d (l ++ s) = tokens d s.
Proof. unfold tokens. induction 1 as [|c l Hc _ IH]; simpl; [done|]. by rewrite Hc. Qed.

Lemma tokens_run d cur l s :
  Forall (fun c => negb (mem_chr c d) = true) l -> tokens_from d cur (l ++ s) = tokens_from d (cur ++ l) s.
Proof.
  intros H. revert cur. induction H as [|c l Hc _ IH]; intros cur; simpl; [by rewrite app_nil_r|].
  apply negb_true_iff in Hc. rewrite Hc, IH. by rewrite <- app_assoc.
Qed.

Lemma tokens_token d l s :
  l <> [] -> Forall (fun c => negb (mem_chr c d) = true) l -> (forall x s', s = x :: s' -> negb (mem_chr x d) = false) ->
  tokens d (l ++ s) = l :: tokens d (tail s).
Proof.
  intros Hl Hc Hs. unfold tokens. rewrite tokens_run by done. simpl. destruct s as [|x s]; simpl; [by destruct l|].
  specialize (Hs x s eq_refl). apply negb_false_iff in Hs. rewrite Hs. by destruct l.
Qed.

(** The terminator ends both loops: it is in every set of delimiters. *)
Lemma end_test m p s d dl :
  cstr m p s -> cstr m d dl ->
  load m (p + len s) = Ret 0 /\ exists q, strchr m d 0 = Ret q /\ (q =? NULL) = false.
Proof.
  intros Hs Hd. split; [by apply load_ok, cstr_end|]. destruct (strchr_test m d dl 0 Hd) as (q & Hr & Hq); [lia|].
  exists q. split; [done|]. rewrite Hq. unfold mem_chr. by rewrite bool_decide_eq_true_2 by set_solver.
Qed.

Ltac run_end T :=
  let El := fresh in let Eq := fresh in let Hq := fresh in let q := fresh "q" in
  destruct T as (El & q & Eq & Hq); rewrite El; cbn [obind]; rewrite Eq; cbn [obind]; rewrite Hq.

Lemma skip_delimiters_spec m p d dl pre s2 :
  cstr m p (pre ++ s2) -> cstr m d dl -> Forall (fun c => mem_chr c dl = true) pre ->
  (forall x s', s2 = x :: s' -> mem_chr x dl = false) ->
  skip_delimiters m p d = Ret (match s2 with [] => inl (p + len pre) | _ => inr (p + len pre) end).
Proof.
  intros Hs Hd Hpre Hnext. pose proof Hs as (Hp & Hl & _). rewrite length_app in Hl. unfold skip_delimiters.
  trace (fun i => p + Z.of_nat i) (length pre); [lia| | |lia].
  - destruct (lookup_lt_is_Some_2 pre i Hi) as [c Hc].
    run_char (char_test m p (pre ++ s2) d dl i c Hs Hd ltac:(by apply lookup_app_l_Some)).
    rewrite (Forall_lookup_1 _ _ _ _ Hpre Hc). simpl. feq.
  - destruct s2 as [|x s2].
    + rewrite app_nil_r in Hs. by run_end (end_test m p pre d dl Hs Hd).
    + run_char (char_test m p _ d dl (length pre) x Hs Hd ltac:(by rewrite lookup_app_r, Nat.sub_diag by lia)).
      by rewrite (Hnext x s2 eq_refl).
Qed.

Lemma skip_token_spec m p d dl tok rest :
  cstr m p (tok ++ rest) -> cstr m d dl -> Forall (fun c => negb (mem_chr c dl) = true) tok ->
  (forall x s', rest = x :: s' -> negb (mem_chr x dl) = false) ->
  skip_token m p d = Ret (p + len tok).
Proof.
  intros Hs Hd Htok Hnext. pose proof Hs as (Hp & Hl & _). rewrite length_app in Hl. unfold skip_token.
  trace (fun i => p + Z.of_nat i) (length tok); [lia| | |lia].
  - destruct (lookup_lt_is_Some_2 tok i Hi) as [c Hc].
    run_char (char_test m p (tok ++ rest) d dl i c Hs Hd ltac:(by apply lookup_app_l_Some)).
    rewrite (Forall_lookup_1 _ _ _ _ Htok Hc). feq.
  - destruct rest as [|x rest].
    + rewrite app_nil_r in Hs. by run_end (end_test m p tok d dl Hs Hd).
    + run_char (char_test m p _ d dl (length tok) x Hs Hd ltac:(by rewrite lookup_app_r, Nat.sub_diag by lia)).
      by rewrite (Hnext x rest eq_refl).
Qed.

(** One call of [strtok_r], from the string or from the saved position [p]: no
    token is left, or the string is delimiters, a token, and a rest that
    starts with a delimiter. *)
Lemma strtok_step m a sv p s d dl :
  (if a =? NULL then sv else a) = p -> cstr m p s -> cstr m d dl ->
  (Forall (fun c => mem_chr c dl = true) s /\ strtok_r m a d (Some sv) = Ret (NULL, p + len s, m)) \/
  exists pre tok rest, s = pre ++ tok ++ rest /\ Forall (fun c => mem_chr c dl = true) pre /\ tok <> [] /\
    Forall (fun c => negb (mem_chr c dl) = true) tok /\
    (forall x s', rest = x :: s' -> negb (mem_chr x dl) = false) /\
    strtok_r m a d (Some sv) =
      match rest with
      | [] => Ret (p + len pre, p + len s, m)
      | _ :: _ => Ret (p + len pre, p + len pre + len tok + 1, <[p + len pre + len tok := 0]> m)
      end.
Proof.
  intros Ha Hs Hd. pose proof Hs as (Hp & Hl & _). pose proof Hd as (Hdp & _).
  unfold strtok_r. rewrite (nonnull d Hdp). simpl. rewrite Ha, (nonnull p Hp). simpl.
  destruct (span_split (fun c => mem_chr c dl) s) as (pre & s2 & -> & _ & Hpre & Hnext).
  rewrite (skip_delimiters_spec m p d dl pre s2 Hs Hd Hpre Hnext). cbn [obind].
  destruct s2 as [|x s2]; [left; by rewrite app_nil_r in *|]. right.
  apply cstr_suffix in Hs. destruct (span_split (fun c => negb (mem_chr c dl)) (x :: s2)) as (tok & rest & Hs2 & _ & Htok & Hn2).
  exists pre, tok, rest. rewrite Hs2 in *. split; [done|]. split; [done|]. split.
  { intros ->. simpl in Hs2. subst rest. pose proof (Hn2 x s2 eq_refl) as H. by rewrite (Hnext x s2 eq_refl) in H. }
  split; [done|]. split; [done|]. rewrite (skip_token_spec _ _ d dl tok rest Hs Hd Htok Hn2). cbn [obind].
  destruct rest as [|y rest].
  - rewrite app_nil_r in Hs |- *. rewrite (load_ok _ _ _ (cstr_end _ _ _ Hs)). simpl. rewrite length_app. feq.
  - destruct (cstr_char _ _ _ (length tok) y Hs) as [Hm Hc]; [by rewrite lookup_app_r, Nat.sub_diag by lia|].
    rewrite (load_ok _ _ _ Hm). cbn [obind]. unfold is_char in Hc. rewrite (proj2 (Z.eqb_neq y 0)) by lia. simpl.
    rewrite store_ok by (rewrite Hm; eauto). done.
Qed.

(** The loop that the comment of [strtok_r] documents (lines 224 to 226), with
    the pointers to the tokens collected in order. *)
Fixpoint tokenize (fuel : nat) (m : mem) (s delimiters save : Z) : outcome (list Z * mem) :=
  match fuel with
  | O => Err NoFuel
  | S fuel =>
      let! (token, save, m) := strtok_r m s delimiters (Some save) in
      if token =? NULL then Ret ([], m)
      else
        let! (ts, m) := tokenize fuel m NULL delimiters save in
        Ret (token :: ts, m)
  end.

(** What one successful call leaves: the token as a string of its own, and
    the rest of the string behind the saved position. *)
Lemma strtok_token m a sv p s d dl :
  (if a =? NULL then sv else a) = p -> cstr m p s -> cstr m d dl ->
  (tokens dl s = [] /\ strtok_r m a d (Some sv) = Ret (NULL, p + len s, m)) \/
  exists t tok p' s' m1, strtok_r m a d (Some sv) = Ret (t, p', m1) /\ tokens dl s = tok :: tokens dl s' /\
    cstr m1 t tok /\ cstr m1 p' s' /\ (length s' < length s)%nat /\
    p <= t /\ t + len tok < p' + (if decide (s' = []) then 1 else 0) /\ p' + len s' <= p + len s /\ p < p' /\
    (forall q, q < p \/ p + len s <= q -> m1 !! q = m !! q).
Proof.
  intros Ha Hs Hd. destruct (strtok_step m a sv p s d dl Ha Hs Hd) as [[Hall Hr]|(pre & tok & rest & -> & Hpre & Hne & Htok & Hnext & Hr)].
  - left. split; [|done]. rewrite <- (app_nil_r s). by rewrite tokens_skip.
  - right. pose proof Hs as (Hp & Hl & Hc & _). rewrite !length_app in Hl.
    assert (0 < length tok)%nat by (destruct tok; simpl; [done|lia]).
    assert (tokens dl (pre ++ tok ++ rest) = tok :: tokens dl (tail rest)) as Ht.
    { rewrite tokens_skip by done. by apply tokens_token. }
    apply Forall_app in Hc as [_ Hc]. apply Forall_app in Hc as [Hct Hcr].
    destruct rest as [|y rest].
    + exists (p + len pre), tok, (p + len (pre ++ tok ++ [])), [], m. rewrite !length_app in *. simpl in *.
      split; [done|]. split; [done|]. apply cstr_suffix in Hs as Hs1. rewrite app_nil_r in Hs1.
      split; [done|]. split; [|repeat split; lia || done]. rewrite app_nil_r in Hs. pose proof (cstr_suffix m p (pre ++ tok) []) as H0.
      rewrite app_nil_r, length_app in H0. replace (p + Z.of_nat (length pre + (length tok + 0))) with (p + Z.of_nat (length pre + length tok)) by lia.
      by apply H0.
    + set (e := p + len pre + len tok) in *. exists (p + len pre), tok, (e + 1), rest, (<[e := 0]> m).
      split; [done|]. split; [done|]. split.
      { repeat split; [lia|lia|done|]. intros i b [Hi|[Hi Hb]]%lookup_app_Some.
        - pose proof (lookup_lt_Some _ _ _ Hi). rewrite lookup_insert_ne by (unfold e; lia).
          apply cstr_suffix in Hs. eapply cstr_char; [exact Hs|]. by apply lookup_app_l_Some.
        - apply list_lookup_singleton_Some in Hb as [Hb <-].
          replace (p + len pre + Z.of_nat i) with e by (unfold e; lia). apply lookup_insert_eq. }
      split.
      { replace (pre ++ tok ++ y :: rest) with ((pre ++ tok ++ [y]) ++ rest) in Hs by (by rewrite <- !app_assoc).
        apply cstr_suffix in Hs. rewrite !length_app in Hs. simpl in Hs.
        replace (p + Z.of_nat (length pre + (length tok + 1))) with (e + 1) in Hs by (unfold e; lia).
        apply (cstr_frame m); [done|]. intros q Hq. apply lookup_insert_ne. lia. }
      rewrite !length_app. simpl. unfold e. repeat split; try lia; [destruct (decide _); lia|].
      intros q Hq. apply lookup_insert_ne. unfold e. lia.
Qed.

Lemma tokenize_spec d dl k m a sv p s :
  (if a =? NULL then sv else a) = p -> cstr m p s -> cstr m d dl ->
  disjoint_blocks p (len s) d (len dl + 1) -> (length s < k)%nat ->
  exists ptrs m', tokenize k m a d sv = Ret (ptrs, m') /\ Forall2 (cstr m') ptrs (tokens dl s) /\
    forall q, q < p \/ p + len s <= q -> m' !! q = m !! q.
Proof.
  revert m a sv p s. induction k as [|k IH]; intros m a sv p s Ha Hs Hd Hdis Hk; [lia|]. cbn [tokenize].
  destruct (strtok_token m a sv p s d dl Ha Hs Hd)
    as [[Ht ->]|(t & tok & p' & s' & m1 & -> & Ht & Htok & Hs' & Hlen & H1 & H2 & H3 & H4 & Hm1)]; simpl.
  - exists [], m. rewrite Ht. split; [done|]. by split; [constructor|].
  - pose proof Hs as (Hp & _). rewrite (proj2 (Z.eqb_neq t NULL)) by (unfold NULL; lia).
    unfold disjoint_blocks in *.
    destruct (IH m1 NULL p' p' s') as (ts & m' & -> & Hts & Hm'); [done|done| |lia|lia|].
    { apply (cstr_frame m); [done|]. intros q Hq. apply Hm1. lia. }
    simpl. exists (t :: ts), m'. rewrite Ht. split; [done|]. split.
    + constructor; [|done]. apply (cstr_frame m1); [done|]. intros q Hq. apply Hm'.
      destruct (decide (s' = [])) as [->|]; simpl in *; lia.
    + intros q Hq. rewrite Hm' by lia. apply Hm1. lia.
Qed.

(** Calling [strtok_r] first on a string and then on a null pointer until
    it returns null yields pointers to the tokens of the string, in order,
    each null-terminated in the final memory; the calls end after at most one
    more than the length of the string, and change no byte outside of it. *)
Theorem strtok_r_tokens m p s d dl save :
  cstr m p s -> cstr m d dl -> disjoint_blocks p (len s) d (len dl + 1) ->
  exists ptrs m', tokenize (S (length s)) m p d save = Ret (ptrs, m') /\
    Forall2 (cstr m') ptrs (tokens dl s) /\ (forall q, q < p \/ p + len s <= q -> m' !! q = m !! q).
Proof.
  intros Hs Hd Hdis. pose proof Hs as (Hp & _).
  apply tokenize_spec; [|done|done|done|lia]. by rewrite (proj2 (Z.eqb_neq p NULL)) by (unfold NULL; lia).
Qed.

(** "abcab" split at "ca": the only token is "b", twice. *)
Lemma strtok_r_tokens_witness :
  tokens [99; 97] [97; 98; 99; 97; 98] = [[98]; [98]] /\
  exists ptrs m', tokenize 6 two_strings 100 200 0 = Ret (ptrs, m') /\
    Forall2 (cstr m') ptrs (tokens [99; 97] [97; 98; 99; 97; 98]) /\
    (forall q, q < 100 \/ 105 <= q -> m' !! q = two_strings !! q).
Proof.
  split; [done|]. apply (strtok_r_tokens two_strings 100 [97; 98; 99; 97; 98] 200 [99; 97] 0);
    [apply two_strings_ok|apply two_strings_ok|unfold disjoint_blocks; simpl; lia].
Defined.

(** ** Bounded copies *)

(** Writing a prefix of [s] and a terminator. *)
Lemma write_terminated m dst s n src :
  bytes_at m src (s ++ [0]) -> Forall is_char s -> (n <= length s)%nat ->
  mapped m dst (Z.of_nat n + 1) -> disjoint_blocks dst (Z.of_nat n + 1) src (Z.of_nat n) ->
  0 < dst -> dst + Z.of_nat n < two32 -> 0 < src ->
  exists m', memcpy m dst src (Z.of_nat n) = Ret (dst, m') /\
    store m' (dst + Z.of_nat n) 0 = Ret (write_bytes m dst (take n s ++ [0])).
Proof.
  intros Hb Hc Hn Hm Hdis Hd Hl Hs. exists (write_bytes m dst (take n s)).
  assert (len (take n s) = Z.of_nat n) as Hlen by (rewrite length_take; lia).
  unfold disjoint_blocks in Hdis. split.
  - rewrite <- Hlen at 1. apply memcpy_spec; [|rewrite Hlen|rewrite Hlen|done|done|lia].
    + intros i b Hi. apply Hb, lookup_app_l_Some. by apply lookup_take_Some in Hi as [? _].
    + intros q Hq. apply Hm. lia.
    + unfold disjoint_blocks. lia.
  - rewrite write_bytes_snoc, Hlen. apply store_ok, (mapped_write _ _ _ _ _ Hm). lia.
Qed.

Lemma strlcpy_spec m dst src s size :
  cstr m src s -> 0 < dst -> 0 <= size -> dst + size <= two32 -> mapped m dst size ->
  disjoint_blocks dst size src (len s + 1) ->
  strlcpy m dst src size = Ret (len s, if 0 <? size then write_bytes m dst (take (Z.to_nat (size - 1)) s ++ [0]) else m).
Proof.
  intros Hs Hd Hz Hl Hm Hdis. pose proof Hs as (Hp & Hls & Hc & Hb). unfold strlcpy.
  rewrite !nonnull by done. simpl. rewrite (strlen_spec _ _ _ Hs). cbn [obind].
  destruct (Z.ltb_spec 0 size) as [Hpos|]; [|done]. unfold disjoint_blocks in Hdis.
  set (k := if len s <? size - 1 then len s else size - 1). set (n := Z.to_nat k).
  assert (k = Z.of_nat n /\ (n <= length s)%nat /\ Z.of_nat n <= size - 1) as (Hk & Hn & Hn')
    by (unfold n, k; destruct (Z.ltb_spec (len s) (size - 1)); lia).
  destruct (write_terminated m dst s n src) as (m' & He & Hst); [done|done|done| | |done|lia|done|].
  - intros q Hq. apply Hm. lia.
  - unfold disjoint_blocks. lia.
  - rewrite Hk, He. cbn [obind]. rewrite Hst. cbn [obind]. do 4 f_equal. unfold n, k.
    destruct (Z.ltb_spec (len s) (size - 1)); [|done]. rewrite !take_ge by lia. done.
Qed.

Lemma strlcat_spec m dst src t s size :
  cstr m src s -> cstr m dst t -> 0 <= size -> dst + size <= two32 -> mapped m dst size ->
  disjoint_blocks dst size src (len s + 1) -> len t < size ->
  strlcat m dst src size =
    Ret (u32 (len s + len t), write_bytes m (dst + len t) (take (Z.to_nat (size - len t - 1)) s ++ [0])).
Proof.
  intros Hs Ht Hz Hl Hm Hdis Hlt. pose proof Hs as (Hp & Hls & Hc & Hb). pose proof Ht as (Hd & _). unfold strlcat.
  rewrite !nonnull by done. simpl. rewrite (strlen_spec _ _ _ Hs), (strlen_spec _ _ _ Ht). cbn [obind].
  rewrite (proj2 (Z.ltb_lt 0 size)), (proj2 (Z.ltb_lt (len t) size)) by lia. cbn [andb].
  rewrite (u32_small (size - len t - 1)) by (unfold is_u32; lia). unfold disjoint_blocks in Hdis.
  set (k := if len s <? size - len t - 1 then len s else size - len t - 1). set (n := Z.to_nat k).
  assert (k = Z.of_nat n /\ (n <= length s)%nat /\ Z.of_nat n <= size - len t - 1) as (Hk & Hn & Hn')
    by (unfold n, k; destruct (Z.ltb_spec (len s) (size - len t - 1)); lia).
  destruct (write_terminated m (dst + len t) s n src) as (m' & He & Hst); [done|done|done| | |lia|lia|done|].
  - intros q Hq. apply Hm. lia.
  - unfold disjoint_blocks. lia.
  - rewrite Hk, He. cbn [obind]. rewrite Hst. cbn [obind]. do 4 f_equal. unfold n, k.
    destruct (Z.ltb_spec (len s) (size - len t - 1)); [|done]. rewrite !take_ge by lia. done.
Qed.

(** on a buffer of [size] bytes, [strlcpy] leaves the first [size - 1]
    characters of the source and [strlcat] those of the concatenation, always
    null-terminated; nothing outside of the buffer changes, and the return
    values are the lengths without truncation.  A buffer that is empty, or
    (for [strlcat]) filled already, is left as it is. *)
Theorem strlcpy_strlcat_bounded m dst src t s size :
  cstr m src s -> cstr m dst t -> 0 <= size -> dst + size <= two32 -> mapped m dst size ->
  disjoint_blocks dst size src (len s + 1) ->
  (exists m', strlcpy m dst src size = Ret (len s, m') /\
     (if 0 <? size then cstr m' dst (take (Z.to_nat (size - 1)) s) else m' = m) /\
     (forall q, q < dst \/ dst + size <= q -> m' !! q = m !! q)) /\
  (exists m', strlcat m dst src size = Ret (u32 (len s + len t), m') /\
     (if len t <? size then cstr m' dst (take (Z.to_nat (size - 1)) (t ++ s)) else m' = m) /\
     (forall q, q < dst \/ dst + size <= q -> m' !! q = m !! q)).
Proof.
  intros Hs Ht Hz Hl Hm Hdis. pose proof Ht as (Hd & Hlt & Hct & Hbt). pose proof Hs as (_ & _ & Hcs & _). split.
  - rewrite (strlcpy_spec m dst src s size) by done. eexists. split; [done|].
    destruct (Z.ltb_spec 0 size) as [Hpos|]; [|done]. split.
    + apply cstr_write; [done|rewrite length_take; lia|by apply Forall_take].
    + intros q Hq. apply lookup_write_bytes_out. rewrite length_app, length_take. simpl. lia.
  - destruct (Z.ltb_spec (len t) size) as [Hpos|Hge].
    + rewrite (strlcat_spec m dst src t s size) by done. eexists. split; [done|]. rewrite take_app.
      rewrite (take_ge t) by lia.
      replace (Z.to_nat (size - 1) - length t)%nat with (Z.to_nat (size - len t - 1)) by lia.
      set (s' := take _ s). assert (len s' <= size - len t - 1) by (unfold s'; rewrite length_take; lia). split.
      * repeat split; [done|rewrite length_app; lia|apply Forall_app; split; [done|by apply Forall_take]|].
        rewrite <- app_assoc. apply bytes_at_app. split; [|apply write_bytes_at].
        apply bytes_at_write_out; [unfold disjoint_blocks; lia|]. by apply bytes_at_app in Hbt as [? _].
      * intros q Hq. apply lookup_write_bytes_out. rewrite length_app. simpl. lia.
    + exists m. split; [|done]. unfold strlcat. pose proof Hs as (Hp & _). rewrite !nonnull by done. simpl.
      rewrite (strlen_spec _ _ _ Hs), (strlen_spec _ _ _ Ht). simpl. rewrite (proj2 (Z.ltb_ge (len t) size)) by lia.
      by rewrite andb_false_r.
Qed.

(** A buffer of 6 bytes: "ca" replaces "abcab", and does not fit behind it. *)
Lemma strlcpy_strlcat_bounded_witness :
  (exists m', strlcpy two_strings 100 200 6 = Ret (2, m') /\ cstr m' 100 [99; 97] /\
     (forall q, q < 100 \/ 106 <= q -> m' !! q = two_strings !! q)) /\
  (exists m', strlcat two_strings 100 200 6 = Ret (7, m') /\ cstr m' 100 [97; 98; 99; 97; 98] /\
     (forall q, q < 100 \/ 106 <= q -> m' !! q = two_strings !! q)).
Proof.
  apply (strlcpy_strlcat_bounded two_strings 100 200 [97; 98; 99; 97; 98] [99; 97] 6);
    [apply two_strings_ok|apply two_strings_ok|lia|unfold two32; lia
    |apply (cstr_mapped _ _ _ (proj1 two_strings_ok))|unfold disjoint_blocks; simpl; lia].
Defined.

(** [strnlen] reads the byte at offset [maxlen] before it compares the length
    with [maxlen]: on a block of [maxlen] bytes without a terminator it
    reads one byte past the block. *)
Theorem strnlen_overread m p l :
  bytes_at m p l -> Forall is_char l -> len l < two32 -> m !! (p + len l) = None ->
  strnlen m p (len l) = Err BadAccess.
Proof.
  intros Hb Hc Hl Hno. unfold strnlen, loop. rewrite while_pos_nat.
  assert (forall k i, (i <= length l)%nat -> (length l - i < k)%nat ->
    while_nat k (fun n => let! x := load m (p + n) in
      if negb (x =? 0) && (n <? len l) then Ret (inl (n + 1)) else Ret (inr n)) (Z.of_nat i) = Err BadAccess) as H.
  { induction k as [|k IH]; intros i Hi Hk; [lia|]. cbn [while_nat]. destruct (decide (i = length l)) as [->|].
    - unfold load. by rewrite Hno.
    - destruct (lookup_lt_is_Some_2 l i) as [c Hlc]; [lia|]. pose proof (Forall_lookup_1 _ _ _ _ Hc Hlc) as Hch.
      unfold is_char in Hch. rewrite (load_ok _ _ c) by auto. simpl.
      rewrite (proj2 (Z.eqb_neq c 0)), (proj2 (Z.ltb_lt _ _)) by lia. simpl.
      replace (Z.of_nat i + 1) with (Z.of_nat (S i)) by lia. apply IH; lia. }
  rewrite (H _ O); [done|lia|]. unfold two32 in Hl. lia.
Qed.
