(* ===== verification/Arith.v ===== *)
(** * 64-bit division (lib/arithmetic.c)

    The routines that GCC calls for 64-bit division and remainder on i386,
    built from the 64-by-32-bit [divl] instruction, against the quotient and
    remainder of mathematical integers. *)
From stdpp Require Import prelude.
From Stdlib Require Import ZArith Lia Znumtheory.
From S2P Require Import Prelude.
#[local] Open Scope Z_scope.

(** ** The routines *)

(** The [divl] instruction: a divide error (the kernel panics on it) when the
    divisor is zero or the quotient does not fit in 32 bits. *)
Definition divl (n d : Z) : outcome Z :=
  let n1 := u32 (Z.shiftr n 32) in
  let n0 := u32 n in
  if n1 <? d then Ret ((n1 * two32 + n0) / d) else Err Panicked.

Definition nlz (x : Z) : Z :=
  let n := 0 in
  let '(n, x) := if x <=? 65535 then (n + 16, u32 (Z.shiftl x 16)) else (n, x) in
  let '(n, x) := if x <=? 16777215 then (n + 8, u32 (Z.shiftl x 8)) else (n, x) in
  let '(n, x) := if x <=? 268435455 then (n + 4, u32 (Z.shiftl x 4)) else (n, x) in
  let '(n, x) := if x <=? 1073741823 then (n + 2, u32 (Z.shiftl x 2)) else (n, x) in
  if x <=? 2147483647 then n + 1 else n.

(** A division by the zero of type [uint32_t] is a divide error as well. *)
Definition udiv64 (n d : Z) : outcome Z :=
  if Z.shiftr d 32 =? 0 then
    let b := Z.shiftl 1 32 in
    let n1 := u32 (Z.shiftr n 32) in
    let n0 := u32 n in
    let d0 := u32 d in
    if d0 =? 0 then Err Panicked
    else
      let! q := divl (u64 (b * (n1 mod d0) + n0)) d0 in
      Ret (u64 (q + b * (n1 / d0)))
  else if n <? d then Ret 0
  else
    let d1 := u32 (Z.shiftr d 32) in
    let s := nlz d1 in
    let! q := divl (Z.shiftr n 1) (u32 (Z.shiftr (u64 (Z.shiftl d s)) 32)) in
    let q := Z.shiftr q (31 - s) in
    Ret (if u64 (n - u64 (q - 1) * d) <? d then u64 (q - 1) else q).

(** The result has type [uint32_t]. *)
Definition umod64 (n d : Z) : outcome Z :=
  let! q := udiv64 n d in
  Ret (u32 (u64 (n - d * q))).

Definition sdiv64 (n d : Z) : outcome Z :=
  let n_abs := if 0 <=? n then u64 n else u64 (- u64 n) in
  let d_abs := if 0 <=? d then u64 d else u64 (- u64 d) in
  let! q_abs := udiv64 n_abs d_abs in
  Ret (if Bool.eqb (n <? 0) (d <? 0) then s64 q_abs else s64 (- s64 q_abs)).

(** The result has type [int32_t]. *)
Definition smod64 (n d : Z) : outcome Z :=
  let! q := sdiv64 n d in
  Ret (s32 (s64 (n - d * q))).

Definition __divdi3 (n d : Z) : outcome Z := sdiv64 n d.
Definition __moddi3 (n d : Z) : outcome Z := smod64 n d.
Definition __udivdi3 (n d : Z) : outcome Z := udiv64 n d.
Definition __umoddi3 (n d : Z) : outcome Z := umod64 n d.

(** ** Lemmas *)

Definition is_s64 (z : Z) : Prop := -9223372036854775808 <= z < 9223372036854775808.

Lemma s64_small z : is_s64 z -> s64 z = z.
Proof. unfold is_s64, s64. intros. rewrite Z.mod_small by (unfold two64; lia). lia. Qed.

Lemma u32_high n : is_u64 n -> u32 (Z.shiftr n 32) = n / two32.
Proof.
  intros Hn. rewrite Z.shiftr_div_pow2 by lia. change (2 ^ 32) with two32. apply u32_small.
  unfold is_u64, is_u32, two64, two32 in *. split; [apply Z.div_pos; lia|apply Z.div_lt_upper_bound; lia].
Qed.

Lemma split_u64 n : n / two32 * two32 + u32 n = n.
Proof. unfold u32. pose proof (Z.div_mod n two32). unfold two32 in *. lia. Qed.

(** [divl] divides when the quotient fits. *)
Lemma divl_ok n d : is_u64 n -> 0 < d < two32 -> n < d * two32 -> divl n d = Ret (n / d).
Proof.
  intros Hn Hd Hlt. unfold divl. rewrite (u32_high n Hn), split_u64.
  rewrite (proj2 (Z.ltb_lt _ _)); [done|]. apply Z.div_lt_upper_bound; unfold two32 in *; lia.
Qed.

Lemma nlz_step k n x :
  0 <= k <= 31 -> 0 < x < two32 ->
  exists n' x', (if x <=? 2 ^ (32 - k) - 1 then (n + k, u32 (Z.shiftl x k)) else (n, x)) = (n', x') /\
    ((n' = n /\ x' = x /\ 2 ^ (32 - k) <= x) \/ (n' = n + k /\ x' = x * 2 ^ k /\ x < 2 ^ (32 - k))) /\
    0 < x' < two32.
Proof.
  intros Hk Hx. destruct (Z.leb_spec x (2 ^ (32 - k) - 1)).
  - eexists _, _. split; [done|].
    assert (2 ^ (32 - k) * 2 ^ k = two32) by (rewrite <- Z.pow_add_r by lia; replace (32 - k + k) with 32 by lia; done).
    pose proof (Z.pow_pos_nonneg 2 k). rewrite Z.shiftl_mul_pow2 by lia. rewrite u32_small by (unfold is_u32; nia).
    split; [right; repeat split; lia|nia].
  - eexists _, _. split; [done|]. split; [left; lia|done].
Qed.

Lemma nlz_spec x : 0 < x < two32 -> 0 <= nlz x <= 31 /\ 2147483648 <= x * 2 ^ nlz x < two32.
Proof.
  intros Hx. unfold nlz. cbv zeta. change 65535 with (2 ^ (32 - 16) - 1). change 16777215 with (2 ^ (32 - 8) - 1).
  change 268435455 with (2 ^ (32 - 4) - 1). change 1073741823 with (2 ^ (32 - 2) - 1).
  destruct (nlz_step 16 0 x) as (n1 & x1 & -> & H1 & Hr1); [lia|done|].
  destruct (nlz_step 8 n1 x1) as (n2 & x2 & -> & H2 & Hr2); [lia|done|].
  destruct (nlz_step 4 n2 x2) as (n3 & x3 & -> & H3 & Hr3); [lia|done|].
  destruct (nlz_step 2 n3 x3) as (n4 & x4 & -> & H4 & Hr4); [lia|done|].
  unfold two32 in *. destruct (Z.leb_spec x4 2147483647);
  repeat match goal with H : _ \/ _ |- _ => destruct H as [(-> & -> & ?)|(-> & -> & ?)] end;
  simpl in *; lia.
Qed.

(** The one-digit case: schoolbook division in base [2^32]. *)
Lemma udiv64_small n d : is_u64 n -> 0 < d < two32 -> udiv64 n d = Ret (n / d).
Proof.
  intros Hn Hd. unfold udiv64. rewrite Z.shiftr_div_pow2 by lia. change (2 ^ 32) with two32.
  rewrite Z.div_small by lia. simpl Z.eqb. cbv iota zeta. rewrite (u32_small d) by (unfold is_u32; lia).
  rewrite (proj2 (Z.eqb_neq d 0)) by lia. rewrite (u32_high n Hn). change (Z.shiftl 1 32) with two32.
  set (n1 := n / two32). pose proof (split_u64 n) as Hs. fold n1 in Hs. set (n0 := u32 n) in *.
  pose proof (u32_range n) as H0. fold n0 in H0. unfold is_u32 in H0.
  pose proof (Z.mod_pos_bound n1 d) as Hm. pose proof (Z.div_mod n1 d) as Hdm.
  assert (two32 * (n1 mod d) + n0 < d * two32) by (unfold two32 in *; nia).
  assert (is_u64 (two32 * (n1 mod d) + n0)) as H64 by (unfold is_u64, two64, two32 in *; nia).
  rewrite (u64_small _ H64), (divl_ok _ _ H64 Hd) by done. simpl.
  assert ((two32 * (n1 mod d) + n0) / d + two32 * (n1 / d) = n / d) as E.
  { rewrite <- Z.div_add by lia. f_equal. lia. }
  rewrite E, u64_small; [done|]. unfold is_u64, two64 in *.
  split; [apply Z.div_pos; lia|apply Z.div_lt_upper_bound; nia].
Qed.

(** The two-digit case: the divisor is normalized and cut to its upper digit
    [v]; the quotient by [v * P], [P = 2^(32 - s)], is the wanted one or one
    more. *)
Lemma estimate n d v P :
  0 <= n < two64 -> 0 < d -> P = 2 \/ 4 <= P -> 2147483648 <= v ->
  v * P <= d < v * P + P -> 2147483648 * P <= d ->
  n / d <= n / (v * P) <= n / d + 1.
Proof.
  intros Hn Hd HP Hv Hvd HdP. assert (0 < v * P) as HV by nia. split.
  - apply Z.div_le_lower_bound; [done|]. pose proof (Z.mul_div_le n d Hd). pose proof (Z.div_pos n d). nia.
  - assert (n < (n / d + 1) * d) as H1 by (pose proof (Z.mul_succ_div_gt n d Hd); lia).
    assert (n * (d - v * P) < v * P * d) as H2.
    { destruct HP as [->|HP].
      - assert (n * (d - v * 2) <= n * 1) by (apply Z.mul_le_mono_nonneg_l; lia).
        assert (4294967296 * 4294967296 <= v * 2 * d) by (apply Z.mul_le_mono_nonneg; lia). unfold two64 in Hn. lia.
      - assert (n * (d - v * P) <= n * P) by (apply Z.mul_le_mono_nonneg_l; lia).
        assert (n * P < 18446744073709551616 * P) by (apply Z.mul_lt_mono_pos_r; unfold two64 in Hn; lia).
        assert ((2147483648 * P) * (2147483648 * P) <= v * P * d) by (apply Z.mul_le_mono_nonneg; nia).
        assert (4 * P <= P * P) by (apply Z.mul_le_mono_nonneg_r; lia). lia. }
    assert (n < v * P * (n / d + 2)) as H3.
    { apply (Z.mul_lt_mono_pos_r d); [done|].
      assert (v * P * (n + d) < v * P * ((n / d + 2) * d)) by (apply Z.mul_lt_mono_pos_l; lia). lia. }
    assert (n / (v * P) < n / d + 2); [|lia]. by apply Z.div_lt_upper_bound.
Qed.

(** The correction of the estimate. *)
Lemma correct_estimate n d q :
  is_u64 n -> 0 < d -> d <= n -> n / d <= q <= n / d + 1 ->
  (if u64 (n - u64 (q - 1) * d) <? d then u64 (q - 1) else q) = n / d.
Proof.
  intros Hn Hd Hge Hq. unfold is_u64 in Hn.
  pose proof (Z.div_mod n d ltac:(lia)) as Hnd. pose proof (Z.mod_pos_bound n d Hd) as Hm.
  assert (1 <= n / d) by (apply Z.div_le_lower_bound; lia).
  assert (n / d <= n) by (apply Z.div_le_upper_bound; [done|clear - Hn Hd; nia]).
  rewrite (u64_small (q - 1)) by (unfold is_u64; lia).
  assert (q - 1 = n / d \/ q - 1 = n / d - 1) as [E|E] by lia; rewrite E.
  - replace (n - n / d * d) with (n mod d) by lia. rewrite u64_small by (unfold is_u64; lia).
    by rewrite (proj2 (Z.ltb_lt _ _)) by lia.
  - assert (d * 1 <= d * (n / d)) by (apply Z.mul_le_mono_nonneg_l; lia).
    replace (n - (n / d - 1) * d) with (n mod d + d) by lia.
    rewrite u64_small by (unfold is_u64; lia). rewrite (proj2 (Z.ltb_ge _ _)) by lia. lia.
Qed.

(** The normalized upper digit of the divisor. *)
Lemma normalize d :
  two32 <= d < two64 ->
  let s := nlz (d / two32) in let P := 2 ^ (32 - s) in
  0 <= s <= 31 /\ 2147483648 * P <= d /\
  u32 (Z.shiftr (u64 (Z.shiftl d s)) 32) = d / P /\ 2147483648 <= d / P < two32.
Proof.
  intros Hd s P.
  assert (1 <= d / two32 < two32) as Hd1.
  { split; [apply Z.div_le_lower_bound|apply Z.div_lt_upper_bound]; unfold two32, two64 in *; lia. }
  destruct (nlz_spec (d / two32)) as [Hs Hnorm]; [lia|]. fold s in Hs, Hnorm. set (S := 2 ^ s) in *.
  assert (P * S = two32) as HPS by (unfold P, S; rewrite <- Z.pow_add_r by lia; replace (32 - s + s) with 32 by lia; done).
  assert (0 < P /\ 0 < S) as [HP HS] by (split; apply Z.pow_pos_nonneg; lia).
  pose proof (split_u64 d) as Hsp. pose proof (u32_range d) as Hr. unfold is_u32 in Hr.
  set (d1 := d / two32) in *. set (d0 := u32 d) in *. assert (2 ^ s = S) as HS2 by done. clearbody d1 d0 P S.
  assert (d1 + 1 <= P) as HdP by (clear - HPS Hnorm HP HS; nia).
  assert (d + 1 <= two32 * P) as Hhi by (unfold two32 in *; lia).
  assert (2147483648 * P <= d) as Hlow.
  { assert (P <= 2 * d1) by (clear - HPS Hnorm HP HS; unfold two32 in *; nia). unfold two32 in *. lia. }
  assert ((d + 1) * S <= two32 * P * S) as HdS by (apply Z.mul_le_mono_nonneg_r; lia).
  assert (d * S < two64) by (rewrite <- Z.mul_assoc, HPS in HdS; unfold two64, two32 in *; lia).
  assert (0 <= d * S) by (apply Z.mul_nonneg_nonneg; unfold two32 in *; lia).
  repeat split; [lia|lia|done| |apply Z.div_le_lower_bound; lia|apply Z.div_lt_upper_bound; lia].
  rewrite Z.shiftl_mul_pow2, HS2, u64_small by (unfold is_u64; lia). rewrite u32_high by (unfold is_u64; lia).
  rewrite <- HPS. by rewrite Z.div_mul_cancel_r by lia.
Qed.

Lemma udiv64_big n d : is_u64 n -> two32 <= d < two64 -> udiv64 n d = Ret (n / d).
Proof.
  intros Hn Hd. unfold udiv64. rewrite Z.shiftr_div_pow2 by lia. change (2 ^ 32) with two32.
  assert (1 <= d / two32 < two32) as Hd1.
  { split; [apply Z.div_le_lower_bound|apply Z.div_lt_upper_bound]; unfold two32, two64 in *; lia. }
  rewrite (proj2 (Z.eqb_neq _ _)) by lia. unfold is_u64 in Hn.
  destruct (Z.ltb_spec n d) as [Hlt|Hge]; [rewrite Z.div_small; [done|lia]|].
  rewrite (u32_small (d / two32)) by (unfold is_u32; lia).
  destruct (normalize d Hd) as (Hs & Hlow & -> & Hv). set (s := nlz (d / two32)) in *. cbv zeta.
  assert (2 ^ (32 - s) = 2 * 2 ^ (31 - s)) as HP2 by (rewrite <- Z.pow_succ_r by lia; f_equal; lia).
  assert (2 ^ (32 - s) = 2 \/ 4 <= 2 ^ (32 - s)) as HP4.
  { destruct (Z.eq_dec s 31) as [->|]; [by left|right]. change 4 with (2 ^ 2). apply Z.pow_le_mono_r; lia. }
  pose proof (Z.pow_pos_nonneg 2 (31 - s) ltac:(lia) ltac:(lia)) as Hp31.
  set (P := 2 ^ (32 - s)) in *. set (v := d / P) in *.
  pose proof (Z.div_mod d P ltac:(lia)) as HdP. pose proof (Z.mod_pos_bound d P ltac:(lia)) as HmP.
  rewrite Z.shiftr_div_pow2 by lia. change (2 ^ 1) with 2. unfold two64, two32 in *.
  rewrite divl_ok; [|unfold is_u64, two64; split; [apply Z.div_pos|apply Z.div_lt_upper_bound]; lia|unfold two32; lia|].
  2: { apply Z.div_lt_upper_bound; unfold two32; lia. }
  cbn [obind]. rewrite Z.shiftr_div_pow2, !Z.div_div by lia.
  replace (2 * (v * 2 ^ (31 - s))) with (v * P) by lia. f_equal. fold v in HdP.
  apply correct_estimate; [done|lia|done|]. apply estimate; [unfold two64; lia|lia|done|lia|lia|lia].
Qed.

Lemma udiv64_spec n d : is_u64 n -> 0 < d < two64 -> udiv64 n d = Ret (n / d).
Proof.
  intros Hn Hd. destruct (Z_lt_le_dec d two32); [apply udiv64_small|apply udiv64_big]; (done || lia).
Qed.

Lemma u64_abs n : is_s64 n -> (if 0 <=? n then u64 n else u64 (- u64 n)) = Z.abs n.
Proof.
  unfold is_s64. intros Hn. destruct (Z.leb_spec 0 n).
  - rewrite u64_small by (unfold is_u64, two64; lia). lia.
  - unfold u64. rewrite <- (Z.mod_add n 1 two64), (Z.mod_small (n + 1 * two64)) by (unfold two64; lia).
    rewrite <- (Z.mod_add _ 1 two64), Z.mod_small by (unfold two64; lia). lia.
Qed.

(** Negation at the width of an [int64_t]: only the least value overflows. *)
Lemma s64_opp q : 0 <= q <= 9223372036854775808 -> s64 (- s64 q) = s64 (- q).
Proof.
  intros Hq. destruct (Z.eq_dec q 9223372036854775808) as [->|]; [by vm_compute|].
  by rewrite (s64_small q) by (unfold is_s64; lia).
Qed.

Lemma sdiv64_spec n d : is_s64 n -> is_s64 d -> d <> 0 -> sdiv64 n d = Ret (s64 (Z.quot n d)).
Proof.
  intros Hn Hd H0. unfold sdiv64. rewrite !u64_abs by done. unfold is_s64 in *.
  rewrite udiv64_spec by (unfold is_u64, two64; lia). cbn [obind].
  assert (0 <= Z.abs n / Z.abs d <= 9223372036854775808) as Hq.
  { split; [apply Z.div_pos; lia|]. apply Z.div_le_upper_bound; [lia|]. clear - Hn H0. nia. }
  pose proof (Z.quot_div n d H0) as Hqd. rewrite Hqd. clear Hqd.
  destruct (Z.ltb_spec n 0), (Z.ltb_spec d 0); cbn [Bool.eqb].
  - rewrite (Z.sgn_neg n), (Z.sgn_neg d) by lia. feq.
  - rewrite s64_opp, (Z.sgn_neg n), (Z.sgn_pos d) by lia. feq.
  - rewrite s64_opp by done. rewrite (Z.sgn_neg d) by lia. destruct (Z.eq_dec n 0) as [->|]; [done|].
    rewrite (Z.sgn_pos n) by lia. feq.
  - rewrite (Z.sgn_pos d) by lia. destruct (Z.eq_dec n 0) as [->|]; [by rewrite Z.div_0_l by lia|].
    rewrite (Z.sgn_pos n) by lia. feq.
Qed.

Lemma s64_cong z : exists k, s64 z = z + k * two64.
Proof.
  unfold s64. exists (- ((z + 9223372036854775808) / two64)).
  pose proof (Z.div_mod (z + 9223372036854775808) two64). unfold two64 in *. lia.
Qed.

Lemma s64_mod z k : s64 (z + k * two64) = s64 z.
Proof.
  unfold s64. replace (z + k * two64 + 9223372036854775808) with (z + 9223372036854775808 + k * two64) by lia.
  by rewrite Z.mod_add by (unfold two64; lia).
Qed.

(** The 64-bit division routines compute the quotients and remainders
    of C for all operands, with a divide error exactly for a zero divisor;
    but the remainders are returned at a width of 32 bits, so that
    [__umoddi3] and [__moddi3] lose the upper half of a larger remainder. *)
Theorem division64_correct n d :
  (is_u64 n -> is_u64 d ->
     __udivdi3 n d = (if d =? 0 then Err Panicked else Ret (n / d)) /\
     __umoddi3 n d = (if d =? 0 then Err Panicked else Ret (u32 (n mod d)))) /\
  (is_s64 n -> is_s64 d ->
     __divdi3 n d = (if d =? 0 then Err Panicked else Ret (s64 (Z.quot n d))) /\
     __moddi3 n d = (if d =? 0 then Err Panicked else Ret (s32 (Z.rem n d)))).
Proof.
  unfold __udivdi3, __umoddi3, __divdi3, __moddi3. split; intros Hn Hd; destruct (Z.eqb_spec d 0) as [->|H0];
    [by split| |by unfold sdiv64, smod64, sdiv64; rewrite !u64_abs by done|].
  - unfold umod64. unfold is_u64 in *. rewrite udiv64_spec by (unfold is_u64; lia). cbn [obind].
    split; [done|]. rewrite (Z.mul_comm d), <- Zmod_eq_full by done. do 2 f_equal. apply u64_small.
    pose proof (Z.mod_pos_bound n d). pose proof (Z.mod_le n d). unfold is_u64. lia.
  - unfold smod64. rewrite sdiv64_spec by done. split; [done|]. cbn [obind]. do 2 f_equal.
    destruct (s64_cong (Z.quot n d)) as [k ->].
    replace (n - d * (Z.quot n d + k * two64)) with (Z.rem n d + (- d * k) * two64)
      by (pose proof (Z.quot_rem n d H0); lia).
    rewrite s64_mod. apply s64_small. pose proof (Z.rem_bound_abs n d H0). unfold is_s64 in *.
    destruct (Z.eq_dec d (-9223372036854775808)) as [->|]; [|lia].
    pose proof (Z.rem_bound_abs n (-9223372036854775808)). lia.
Qed.

Lemma division64_correct_witness :
  __udivdi3 18446744073709551615 4294967297 = Ret 4294967295 /\
  __umoddi3 8589934592 1099511627776 = Ret 0 /\ 8589934592 mod 1099511627776 = 8589934592 /\
  __divdi3 (-7) 2 = Ret (-3) /\ __moddi3 (-7) 2 = Ret (-1).
Proof.
  destruct (division64_correct 18446744073709551615 4294967297) as [H1 _].
  destruct (division64_correct 8589934592 1099511627776) as [H2 _].
  destruct (division64_correct (-7) 2) as [_ H3].
  split; [apply H1; by vm_compute|]. split; [apply H2; by vm_compute|]. split; [done|].
  split; apply H3; by vm_compute.
Defined.
