(* ===== verification/Sort.v ===== *)
(** * Sorting and searching arrays (lib/stdlib.c)

    Heap sort and binary search on arrays of elements of any size, on the
    memory of the string library: elements are compared by a callback that is
    given pointers, and swapped byte by byte.  [atoi] is modelled as well. *)
From stdpp Require Import prelude list gmap sorting.
From Stdlib Require Import ZArith Lia.
From S2P Require Import Prelude Strings.
#[local] Open Scope Z_scope.

(** ** The functions of lib/stdlib.c *)

(** A comparison callback, on two pointers and the auxiliary data. *)
Definition compare_fn (Aux : Type) : Type := mem -> Z -> Z -> Aux -> outcome Z.

Definition elem_addr (array idx size : Z) : Z := array + u32 (u32 (idx - 1) * size).

(** [for (i = 0; i < size; i++)] of [do_swap]. *)
Definition do_swap (m : mem) (array a_idx b_idx size : Z) : outcome mem :=
  let a := elem_addr array a_idx size in
  let b := elem_addr array b_idx size in
  loop (fun '(m, i) =>
    if i <? size then
      let! t := load m (a + i) in
      let! x := load m (b + i) in
      let! m := store m (a + i) x in
      let! m := store m (b + i) t in
      Ret (inl (m, i + 1))
    else Ret (inr m)) (m, 0).

Definition do_compare {Aux} (m : mem) (array a_idx b_idx size : Z) (compare : compare_fn Aux) (aux : Aux)
  : outcome Z :=
  compare m (elem_addr array a_idx size) (elem_addr array b_idx size) aux.

(** One choice of [heapify]: [child] becomes the greatest if it exists and
    is greater. *)
Definition pick_max {Aux} (m : mem) (array child max cnt size : Z) (compare : compare_fn Aux) (aux : Aux)
  : outcome Z :=
  if child <=? cnt then
    let! c := do_compare m array child max size compare aux in
    Ret (if 0 <? c then child else max)
  else Ret max.

Definition heapify {Aux} (m : mem) (array i cnt size : Z) (compare : compare_fn Aux) (aux : Aux)
  : outcome mem :=
  loop (fun '(m, i) =>
    let left := u32 (2 * i) in
    let right := u32 (2 * i + 1) in
    let! max := pick_max m array left i cnt size compare aux in
    let! max := pick_max m array right max cnt size compare aux in
    if max =? i then Ret (inr m)
    else
      let! m := do_swap m array i max size in
      Ret (inl (m, max))) (m, i).

(** The callback is a function, hence not null. *)
Definition sort {Aux} (m : mem) (array cnt size : Z) (compare : compare_fn Aux) (aux : Aux) : outcome mem :=
  let! _ := ASSERT (nonnull_or_empty array cnt) in
  let! _ := ASSERT (0 <? size) in
  let! m := loop (fun '(m, i) =>
    if 0 <? i then
      let! m := heapify m array i cnt size compare aux in
      Ret (inl (m, i - 1))
    else Ret (inr m)) (m, cnt / 2) in
  loop (fun '(m, i) =>
    if 1 <? i then
      let! m := do_swap m array 1 i size in
      let! m := heapify m array 1 (i - 1) size compare aux in
      Ret (inl (m, i - 1))
    else Ret (inr m)) (m, cnt).

Definition compare_thunk (m : mem) (a b : Z) (aux : mem -> Z -> Z -> outcome Z) : outcome Z := aux m a b.

Definition qsort (m : mem) (array cnt size : Z) (compare : mem -> Z -> Z -> outcome Z) : outcome mem :=
  sort m array cnt size compare_thunk compare.

Definition binary_search {Aux} (m : mem) (key array cnt size : Z) (compare : compare_fn Aux) (aux : Aux)
  : outcome Z :=
  loop (fun '(first, last) =>
    if first <? last then
      let range := u32 ((last - first) / size) in
      let middle := first + u32 (range / 2 * size) in
      let! cmp := compare m key middle aux in
      if cmp <? 0 then Ret (inl (first, middle))
      else if 0 <? cmp then Ret (inl (middle + size, last))
      else Ret (inr middle)
    else Ret (inr NULL)) (array, array + u32 (size * cnt)).

Definition bsearch (m : mem) (key array cnt size : Z) (compare : mem -> Z -> Z -> outcome Z) : outcome Z :=
  binary_search m key array cnt size compare_thunk compare.

(** [isspace] and [isdigit] of lib/ctype.h. *)
Definition isspace (c : Z) : bool :=
  (c =? 32) || (c =? 12) || (c =? 10) || (c =? 13) || (c =? 9) || (c =? 11).
Definition isdigit (c : Z) : bool := (48 <=? c) && (c <=? 57).

Definition atoi (m : mem) (s : Z) : outcome Z :=
  let! _ := ASSERT (negb (s =? NULL)) in
  let! s := loop (fun s =>
    let! c := load m s in
    if isspace c then Ret (inl (s + 1)) else Ret (inr s)) s in
  let! c := load m s in
  let '(negative, s) :=
    if c =? 43 then (false, s + 1)
    else if c =? 45 then (true, s + 1)
    else (false, s) in
  let! value := loop (fun '(s, value) =>
    let! c := load m s in
    if isdigit c then Ret (inl (s + 1, s32 (value * 10 - (c - 48)))) else Ret (inr value)) (s, 0) in
  Ret (if negb negative then s32 (- value) else value).

(** ** Arrays in memory *)

(** Exchange of two positions of a list. *)
Definition exchange {A} (l : list A) (i j : nat) : list A :=
  match l !! i, l !! j with
  | Some x, Some y => <[j := x]> (<[i := y]> l)
  | _, _ => l
  end.

Lemma exchange_spec {A} (l : list A) i j x y :
  l !! i = Some x -> l !! j = Some y ->
  exchange l i j = <[j := x]> (<[i := y]> l) /\ length (exchange l i j) = length l.
Proof. intros Hi Hj. unfold exchange. rewrite Hi, Hj. by rewrite !length_insert. Qed.

Lemma exchange_lookup {A} (l : list A) i j x y k :
  l !! i = Some x -> l !! j = Some y -> i <> j ->
  exchange l i j !! k = if decide (k = i) then Some y else if decide (k = j) then Some x else l !! k.
Proof.
  intros Hi Hj Hne. rewrite (proj1 (exchange_spec l i j x y Hi Hj)).
  pose proof (lookup_lt_Some _ _ _ Hi). pose proof (lookup_lt_Some _ _ _ Hj).
  destruct (decide (k = i)) as [->|]; [rewrite list_lookup_insert_ne, list_lookup_insert_eq by done; done|].
  destruct (decide (k = j)) as [->|]; [by rewrite list_lookup_insert_eq by (rewrite length_insert; done)|].
  by rewrite !list_lookup_insert_ne by done.
Qed.

Lemma exchange_Permutation {A} (l : list A) i j x y :
  l !! i = Some x -> l !! j = Some y -> i <> j -> exchange l i j ≡ₚ l.
Proof.
  intros Hi Hj Hne. rewrite (proj1 (exchange_spec l i j x y Hi Hj)).
  assert (length (<[j := x]> (<[i := y]> l)) = length l) by (by rewrite !length_insert).
  assert (<[i := y]> l !! j = Some y) as Hj' by (by rewrite list_lookup_insert_ne).
  apply (Permutation_cons_inv (a := y)).
  transitivity (x :: <[i := y]> l).
  - rewrite (insert_take_drop _ j x) by (by eapply lookup_lt_Some).
    rewrite <- (take_drop_middle _ j y Hj') at 3. solve_Permutation.
  - rewrite (insert_take_drop l i y) by (by eapply lookup_lt_Some).
    rewrite <- (take_drop_middle l i x Hi) at 3. solve_Permutation.
Qed.

Lemma insert_write_bytes m p l q v :
  q < p \/ p + len l <= q -> <[q := v]> (write_bytes m p l) = write_bytes (<[q := v]> m) p l.
Proof.
  revert m p. induction l as [|b l IH]; intros m p Hq; simpl in *; [done|].
  rewrite IH by lia. f_equal. apply insert_insert_ne. lia.
Qed.

Section Array.
Context (array size : Z) (Hsize : 0 < size) (Harray : 0 < array).

(** The elements [l] of an array, each a block of [size] bytes. *)
Definition arr (m : mem) (l : list (list Z)) : Prop :=
  forall i x, l !! i = Some x -> len x = size /\ bytes_at m (array + Z.of_nat i * size) x.

(** The array fits in the address space. *)
Definition fits (n : Z) : Prop := array + n * size <= two32 /\ n < 2147483648.

(** Nothing outside of the first [n] elements has changed. *)
Definition frame (n : Z) (m m' : mem) : Prop :=
  forall q, q < array \/ array + n * size <= q -> m' !! q = m !! q.

Lemma elem_addr_nat i n :
  fits n -> (0 <= Z.of_nat i < n) -> elem_addr array (Z.of_nat i + 1) size = array + Z.of_nat i * size.
Proof.
  intros [Hf Hn] Hi. unfold elem_addr. replace (Z.of_nat i + 1 - 1) with (Z.of_nat i) by lia.
  rewrite (u32_small (Z.of_nat i)) by (unfold is_u32, two32; lia).
  rewrite u32_small; [done|]. unfold is_u32. nia.
Qed.

Lemma arr_app m h t :
  arr m (h ++ t) <-> arr m h /\ (forall i x, t !! i = Some x -> len x = size /\ bytes_at m (array + (len h + Z.of_nat i) * size) x).
Proof.
  split.
  - intros H. split; intros i x Hi.
    + apply H. by apply lookup_app_l_Some.
    + specialize (H (length h + i)%nat x). rewrite Nat2Z.inj_add in H. apply H.
      rewrite lookup_app_r by lia. by replace (length h + i - length h)%nat with i by lia.
  - intros [Hh Ht] i x [Hi|[Hl Hi]]%lookup_app_Some; [by apply Hh|].
    replace (Z.of_nat i) with (len h + Z.of_nat (i - length h)) by lia. by apply Ht.
Qed.

Lemma arr_elem m l i x : arr m l -> l !! i = Some x -> len x = size /\ bytes_at m (array + Z.of_nat i * size) x.
Proof. intros H Hi. by apply H. Qed.

(** Different elements are disjoint blocks. *)
Lemma elems_disjoint i j : i <> j -> disjoint_blocks (array + Z.of_nat i * size) size (array + Z.of_nat j * size) size.
Proof. intros Hne. unfold disjoint_blocks. destruct (decide (i < j)%nat); [left|right]; nia. Qed.

Lemma do_swap_run m l i j x y :
  arr m l -> fits (len l) -> l !! i = Some x -> l !! j = Some y -> i <> j ->
  do_swap m array (Z.of_nat i + 1) (Z.of_nat j + 1) size =
    Ret (write_bytes (write_bytes m (array + Z.of_nat i * size) y) (array + Z.of_nat j * size) x).
Proof.
  intros Ha Hf Hi Hj Hne. pose proof (lookup_lt_Some _ _ _ Hi). pose proof (lookup_lt_Some _ _ _ Hj).
  unfold do_swap. rewrite !(elem_addr_nat _ (len l)) by (done || lia).
  destruct (arr_elem m l i x Ha Hi) as [Hlx Hbx]. destruct (arr_elem m l j y Ha Hj) as [Hly Hby].
  pose proof (elems_disjoint i j Hne) as Hd. unfold disjoint_blocks in Hd.
  set (a := array + Z.of_nat i * size) in *. set (b := array + Z.of_nat j * size) in *.
  assert (mapped m a size /\ mapped m b size) as [Hma Hmb].
  { split; [rewrite <- Hlx|rewrite <- Hly]; by apply bytes_at_mapped. }
  trace (fun k => (write_bytes (write_bytes m a (take k y)) b (take k x), Z.of_nat k)) (Z.to_nat size).
  - done.
  - rewrite (proj2 (Z.ltb_lt _ _)) by lia.
    destruct (lookup_lt_is_Some_2 x i0) as [u Hu]; [lia|]. destruct (lookup_lt_is_Some_2 y i0) as [v Hv]; [lia|].
    assert (len (take i0 x) = Z.of_nat i0 /\ len (take i0 y) = Z.of_nat i0) as [Hx Hy] by (rewrite !length_take; lia).
    rewrite (load_ok _ _ u). 2: { rewrite !lookup_write_bytes_out by lia. by apply Hbx. }
    cbn [obind]. rewrite (load_ok _ _ v). 2: { rewrite !lookup_write_bytes_out by lia. by apply Hby. }
    cbn [obind]. rewrite store_ok by (apply (mapped_write _ _ _ a size); [by apply mapped_write|lia]). cbn [obind].
    rewrite insert_write_bytes by lia.
    rewrite <- Hy at 1. rewrite <- write_bytes_snoc, <- (take_S_r _ _ v Hv).
    rewrite store_ok by (apply (mapped_write _ _ _ b size); [by apply mapped_write|lia]). cbn [obind].
    rewrite <- Hx at 1. rewrite <- write_bytes_snoc, <- (take_S_r _ _ u Hu). feq.
  - rewrite !take_ge by lia. by rewrite (proj2 (Z.ltb_ge _ _)) by lia.
  - destruct Hf. unfold two32 in *. nia.
Qed.

(** [do_swap] exchanges two elements. *)
Lemma do_swap_spec m l i j :
  arr m l -> fits (len l) -> (i < length l)%nat -> (j < length l)%nat -> i <> j ->
  exists m', do_swap m array (Z.of_nat i + 1) (Z.of_nat j + 1) size = Ret m' /\
    arr m' (exchange l i j) /\ frame (len l) m m'.
Proof.
  intros Ha Hf Hi Hj Hne. destruct (lookup_lt_is_Some_2 l i Hi) as [x Hx]. destruct (lookup_lt_is_Some_2 l j Hj) as [y Hy].
  eexists. split; [by apply (do_swap_run m l)|].
  destruct (arr_elem m l i x Ha Hx) as [Hlx _]. destruct (arr_elem m l j y Ha Hy) as [Hly _]. split.
  - intros k z. rewrite (exchange_lookup l i j x y) by done. destruct (decide (k = i)) as [->|Hki].
    { intros [= <-]. split; [done|]. apply bytes_at_write_out; [|apply write_bytes_at].
      rewrite Hlx, Hly. by apply elems_disjoint. }
    destruct (decide (k = j)) as [->|Hkj]; [intros [= <-]; split; [done|apply write_bytes_at]|].
    intros Hk. destruct (arr_elem m l k z Ha Hk) as [Hlz Hbz]. split; [done|].
    apply bytes_at_write_out; [rewrite Hlx, Hlz; by apply elems_disjoint|].
    apply bytes_at_write_out; [rewrite Hly, Hlz; by apply elems_disjoint|done].
  - intros q Hq. rewrite !lookup_write_bytes_out by nia. done.
Qed.

(** ** Heaps

    A total preorder on the contents of elements, which the callback
    computes. *)
Context {Aux : Type} (compare : compare_fn Aux) (aux : Aux) (cmp : list Z -> list Z -> Z).
Hypothesis compare_ok : forall m p q x y,
  0 < p -> 0 < q -> bytes_at m p x -> bytes_at m q y -> len x = size -> len y = size ->
  compare m p q aux = Ret (cmp x y).
Hypothesis cmp_sign : forall x y, 0 < cmp x y <-> cmp y x < 0.
Hypothesis cmp_trans : forall x y z, cmp x y <= 0 -> cmp y z <= 0 -> cmp x z <= 0.

Lemma cmp_total x y : 0 < cmp x y -> cmp y x <= 0.
Proof. intros H%cmp_sign. lia. Qed.

Definition le (x y : list Z) : Prop := cmp x y <= 0.

Lemma le_refl x : le x x.
Proof. unfold le. destruct (Z_lt_le_dec 0 (cmp x x)) as [H|H]; [by apply cmp_total|done]. Qed.

(** Positions from 0: the children of [p]. *)
Definition child (c p : nat) : Prop := c = (2 * p + 1)%nat \/ c = (2 * p + 2)%nat.

(** No child of a position at or after [k] is greater than its parent. *)
Definition heap_ok (l : list (list Z)) (k : nat) : Prop :=
  forall p c x y, (k <= p)%nat -> child c p -> l !! p = Some x -> l !! c = Some y -> le y x.

(** The same but for the children of [i], which are not greater than the
    parent of [i]. *)
Definition heap_but (l : list (list Z)) (k i : nat) : Prop :=
  (forall p c x y, (k <= p)%nat -> p <> i -> child c p -> l !! p = Some x -> l !! c = Some y -> le y x) /\
  (forall p c x y, (k <= p)%nat -> child i p -> child c i -> l !! p = Some x -> l !! c = Some y -> le y x).

Lemma pick_max_spec m l c i x :
  arr m l -> fits (len l) -> l !! i = Some x ->
  exists r z, pick_max m array (Z.of_nat c + 1) (Z.of_nat i + 1) (len l) size compare aux = Ret (Z.of_nat r + 1) /\
    l !! r = Some z /\ (r = i \/ r = c) /\ le x z /\ (forall y, l !! c = Some y -> le y z).
Proof.
  intros Ha Hf Hx. unfold pick_max. destruct (Z.leb_spec (Z.of_nat c + 1) (len l)) as [Hc|Hc].
  - destruct (lookup_lt_is_Some_2 l c) as [y Hy]; [lia|]. unfold do_compare.
    pose proof (lookup_lt_Some _ _ _ Hx). rewrite !(elem_addr_nat _ (len l)) by (done || lia).
    destruct (arr_elem m l i x Ha Hx) as [Hlx Hbx]. destruct (arr_elem m l c y Ha Hy) as [Hly Hby].
    rewrite (compare_ok m _ _ y x) by (done || nia). simpl. destruct (Z.ltb_spec 0 (cmp y x)).
    + exists c, y. repeat split; [done|by right|by apply cmp_total|]. intros y'. rewrite Hy. intros [= <-]. apply le_refl.
    + exists i, x. repeat split; [done|by left|apply le_refl|]. intros y'. rewrite Hy. by intros [= <-].
  - exists i, x. repeat split; [done|by left|apply le_refl|]. intros y Hy%lookup_lt_Some. lia.
Qed.

(** Swapping a position with its greatest child moves the exception down. *)
Lemma sift_step l k i r x z :
  heap_but l k i -> (k <= i)%nat -> l !! i = Some x -> l !! r = Some z -> child r i -> le x z ->
  (forall c y, child c i -> l !! c = Some y -> le y z) -> heap_but (exchange l i r) k r.
Proof.
  intros [H1 H2] Hk Hx Hz Hr Hxz Hmax. assert (i <> r) as Hne by (unfold child in Hr; lia).
  split; intros p c u v Hp; rewrite !(exchange_lookup l i r x z) by done.
  - intros Hpr Hc. destruct (decide (p = i)) as [->|].
    + intros [= <-]. destruct (decide (c = i)) as [->|]; [unfold child in Hc; lia|].
      destruct (decide (c = r)); [by intros [= <-]|]. by apply Hmax.
    + destruct (decide (p = r)); [done|]. intros Hu. destruct (decide (c = i)) as [->|].
      * intros [= <-]. by apply (H2 p r).
      * destruct (decide (c = r)) as [->|]; [unfold child in *; lia|]. by apply (H1 p c).
  - intros Hrp Hc. assert (p = i) as -> by (unfold child in *; lia). rewrite decide_True by done. intros [= <-].
    destruct (decide (c = i)) as [->|]; [unfold child in *; lia|].
    destruct (decide (c = r)) as [->|]; [unfold child in *; lia|].
    apply (H1 r c); [unfold child in *; lia|done|done|done].
Qed.

Lemma sift_done l k i x :
  heap_but l k i -> l !! i = Some x -> (forall c y, child c i -> l !! c = Some y -> le y x) -> heap_ok l k.
Proof.
  intros [H1 _] Hx Hmax p c u v Hp Hc Hu Hv. destruct (decide (p = i)) as [->|]; [|by apply (H1 p c)].
  rewrite Hx in Hu. injection Hu as <-. by apply (Hmax c).
Qed.

Lemma frame_trans n m1 m2 m3 : frame n m1 m2 -> frame n m2 m3 -> frame n m1 m3.
Proof. intros H1 H2 q Hq. by rewrite (H2 q Hq), (H1 q Hq). Qed.

(** [heapify] ends and makes a heap from position [k] on, of the same
    elements, if there is one from position [k + 1] on. *)
Lemma heapify_spec m l k :
  arr m l -> fits (len l) -> (k < length l)%nat -> heap_ok l (S k) ->
  exists m' l', heapify m array (Z.of_nat k + 1) (len l) size compare aux = Ret m' /\
    arr m' l' /\ l' ≡ₚ l /\ heap_ok l' k /\ frame (len l) m m'.
Proof.
  intros Ha Hf Hk Hh. unfold heapify.
  edestruct (loop_rule
    (fun s : mem * Z => exists i l', s.2 = Z.of_nat i + 1 /\ (k <= i < length l)%nat /\ arr s.1 l' /\ l' ≡ₚ l /\
       heap_but l' k i /\ frame (len l) m s.1)
    (fun m' => exists l', arr m' l' /\ l' ≡ₚ l /\ heap_ok l' k /\ frame (len l) m m')
    (fun s => len l + 1 - s.2)) as (m' & Hr & l' & Hl'); [| | | |exists m', l'; split; [exact Hr|done]]; cbn [fst snd].
  - intros [m1 i1] (i & l1 & -> & Hi & _). simpl. lia.
  - intros [m1 i1] (i & l1 & Hi1 & Hi & Ha1 & Hp1 & Hb1 & Hfr). cbn [fst snd] in *. subst i1.
    pose proof (Permutation_length Hp1) as Hlen. rewrite <- Hlen in *. destruct (lookup_lt_is_Some_2 l1 i) as [x Hx]; [lia|].
    rewrite !u32_small by (destruct Hf; unfold is_u32, two32; lia).
    replace (2 * (Z.of_nat i + 1)) with (Z.of_nat (2 * i + 1) + 1) by lia.
    replace (Z.of_nat (2 * i + 1) + 1 + 1) with (Z.of_nat (2 * i + 2) + 1) by lia.
    destruct (pick_max_spec m1 l1 (2 * i + 1) i x Ha1 Hf Hx) as (r1 & z1 & -> & Hz1 & Hr1 & Hxz1 & Hm1). cbn [obind].
    destruct (pick_max_spec m1 l1 (2 * i + 2) r1 z1 Ha1 Hf Hz1) as (r & z & -> & Hz & Hr & Hz12 & Hm2). cbn [obind].
    assert (forall c y, child c i -> l1 !! c = Some y -> le y z) as Hmax.
    { intros c y [->| ->] Hy; [|by apply Hm2]. eapply cmp_trans; [by apply Hm1|done]. }
    assert (le x z) as Hxz by (by eapply cmp_trans).
    destruct (Z.eqb_spec (Z.of_nat r + 1) (Z.of_nat i + 1)) as [He|Hne].
    + left. assert (r = i) as -> by lia. rewrite Hx in Hz. injection Hz as <-. eexists. split; [done|].
      exists l1. split; [done|]. split; [done|]. split; [by eapply sift_done|done].
    + right. assert (child r i) as Hc by (unfold child; lia). pose proof (lookup_lt_Some _ _ _ Hz).
      destruct (do_swap_spec m1 l1 i r) as (m2 & -> & Ha2 & Hfr2); [done|done|lia|done|lia|]. cbn [obind].
      eexists. split; [done|]. split; [|simpl; unfold child in Hc; lia]. exists r, (exchange l1 i r). simpl.
      split; [done|]. split; [unfold child in Hc; lia|]. split; [done|].
      split; [rewrite <- Hp1; eapply exchange_Permutation; [done|done|lia]|].
      split; [apply (sift_step l1 k i r x z); done || lia|by eapply frame_trans].
  - exists k, l. split; [done|]. split; [lia|]. split; [done|]. split; [done|]. split; [split|done].
    + intros p c x y Hp Hpk Hc Hx Hy. apply (Hh p c); (done || lia).
    + intros p c x y Hp Hc. unfold child in Hc. lia.
  - simpl. destruct Hf. unfold two32. lia.
Qed.

(** ** Sorting *)

Lemma heap_root l r : heap_ok l 0 -> l !! O = Some r -> forall x, x ∈ l -> le x r.
Proof.
  intros Hh Hr. assert (forall i x, l !! i = Some x -> le x r) as H.
  { intros i. induction (lt_wf i) as [i _ IH]. intros x Hx. destruct (decide (i = O)) as [->|Hne].
    - rewrite Hr in Hx. injection Hx as <-. apply le_refl.
    - assert (exists p, child i p /\ (p < i)%nat) as (p & Hc & Hp).
      { unfold child. exists ((i - 1) / 2)%nat. pose proof (Nat.div_mod_eq (i - 1) 2).
        pose proof (Nat.mod_upper_bound (i - 1) 2). lia. }
      pose proof (lookup_lt_Some _ _ _ Hx). destruct (lookup_lt_is_Some_2 l p) as [y Hy]; [lia|].
      eapply cmp_trans; [by apply (Hh p i y x); [lia| | |]|by apply (IH p)]. }
  intros x (i & Hi)%list_elem_of_lookup. by apply (H i).
Qed.

(** The first loop of [sort] builds a heap. *)
Lemma build_heap m l :
  arr m l -> fits (len l) ->
  exists m' l', loop (fun '(m, i) =>
      if 0 <? i then
        let! m := heapify m array i (len l) size compare aux in Ret (inl (m, i - 1))
      else Ret (inr m)) (m, len l / 2) = Ret m' /\
    arr m' l' /\ l' ≡ₚ l /\ heap_ok l' 0 /\ frame (len l) m m'.
Proof.
  intros Ha Hf. pose proof (Z.div_mod (len l) 2 ltac:(lia)) as Hdm. pose proof (Z.mod_pos_bound (len l) 2 ltac:(lia)).
  edestruct (loop_rule
    (fun s : mem * Z => exists l', 0 <= s.2 <= len l / 2 /\ arr s.1 l' /\ l' ≡ₚ l /\
       heap_ok l' (Z.to_nat s.2) /\ frame (len l) m s.1)
    (fun m' => exists l', arr m' l' /\ l' ≡ₚ l /\ heap_ok l' 0 /\ frame (len l) m m')
    (fun s => s.2)) as (m' & Hr & l' & Hl'); [| | | |exists m', l'; split; [exact Hr|done]]; cbn [fst snd].
  - intros [m1 i] (l1 & Hi & _). simpl. simpl in Hi. lia.
  - intros [m1 i] (l1 & Hi & Ha1 & Hp1 & Hh1 & Hfr). cbn [fst snd] in *.
    pose proof (Permutation_length Hp1) as Hlen. destruct (Z.ltb_spec 0 i).
    + right. destruct (heapify_spec m1 l1 (Z.to_nat (i - 1))) as (m2 & l2 & He & Ha2 & Hp2 & Hh2 & Hfr2);
        [done|by rewrite Hlen|lia|by replace (S (Z.to_nat (i - 1))) with (Z.to_nat i) by lia|].
      replace (Z.of_nat (Z.to_nat (i - 1)) + 1) with i in He by lia. rewrite Hlen in He, Hfr2. rewrite He. cbn [obind].
      eexists. split; [done|]. split; [|simpl; lia]. exists l2. cbn [fst snd].
      split; [lia|]. split; [done|]. split; [by rewrite Hp2|]. split; [done|by eapply frame_trans].
    + left. eexists. split; [done|]. exists l1. by replace (Z.to_nat i) with O in Hh1 by lia.
  - exists l. split; [lia|]. split; [done|]. split; [done|]. split; [|done].
    intros p c x y Hp Hc _ Hy%lookup_lt_Some. unfold child in Hc. lia.
  - simpl. destruct Hf. unfold two32. lia.
Qed.

(** One turn of the second loop: the greatest element moves to its place. *)
Lemma sort_step m h t :
  arr m (h ++ t) -> fits (len (h ++ t)) -> (2 <= length h)%nat -> heap_ok h 0 ->
  StronglySorted le t -> (forall x y, x ∈ h -> y ∈ t -> le x y) ->
  exists m1 m2 h' x, do_swap m array 1 (len h) size = Ret m1 /\
    heapify m1 array 1 (len h - 1) size compare aux = Ret m2 /\
    arr m2 (h' ++ x :: t) /\ h' ++ [x] ≡ₚ h /\ heap_ok h' 0 /\
    StronglySorted le (x :: t) /\ (forall u v, u ∈ h' -> v ∈ x :: t -> le u v) /\ frame (len (h ++ t)) m m2.
Proof.
  intros Ha Hf H2 Hh Hs Hle. destruct h as [|x h0]; [simpl in H2; lia|].
  destruct (exists_last (l := h0)) as (mid & y & ->); [destruct h0; [simpl in H2; lia|done]|].
  set (h := x :: mid ++ [y]) in *. assert (length h = S (S (length mid))) as Hlh by (unfold h; simpl; rewrite length_app; simpl; lia).
  destruct (do_swap_spec m (h ++ t) 0 (S (length mid))) as (m1 & He1 & Ha1 & Hf1); [done|done| | |done|];
    [rewrite length_app; lia..|].
  assert (exchange (h ++ t) 0 (S (length mid)) = (y :: mid) ++ x :: t) as Hex.
  { assert ((h ++ t) !! S (length mid) = Some y) as Hy.
    { unfold h. simpl. rewrite <- app_assoc, lookup_app_r, Nat.sub_diag by lia. done. }
    rewrite (proj1 (exchange_spec (h ++ t) 0 (S (length mid)) x y eq_refl Hy)).
    unfold h. simpl. rewrite <- app_assoc, insert_app_r_alt, Nat.sub_diag by lia. done. }
  rewrite Hex in Ha1. apply arr_app in Ha1 as Hsplit. destruct Hsplit as [Hah Hat].
  assert (fits (len (y :: mid))) as Hf'.
  { destruct Hf as [Hfa Hfb]. rewrite length_app, Hlh in Hfa, Hfb. unfold fits. simpl. nia. }
  destruct (heapify_spec m1 (y :: mid) 0) as (m2 & h' & He2 & Ha2 & Hp2 & Hh2 & Hf2); [done|done|simpl; lia| |].
  { intros p c u v Hp Hc Hu Hv. assert (forall j w, (1 <= j)%nat -> (y :: mid) !! j = Some w -> h !! j = Some w) as Hj.
    { intros [|j] w Hj Hw; [lia|]. unfold h. simpl in *. by apply lookup_app_l_Some. }
    apply (Hh p c); [lia|done|by apply Hj|]. apply Hj; [unfold child in Hc; lia|done]. }
  pose proof (Permutation_length Hp2) as Hl2.
  exists m1, m2, h', x. split; [rewrite <- He1; f_equal; lia|]. split.
  { rewrite <- He2. replace (len h - 1) with (len (y :: mid)); [done|]. change (length (y :: mid)) with (S (length mid)). lia. }
  assert (forall u, u ∈ h' -> u ∈ h) as Hin by (intros u; rewrite Hp2; unfold h; set_solver).
  split; [|split; [|split; [done|split; [|split]]]].
  - apply arr_app. split; [done|]. intros i z Hi. destruct (Hat i z Hi) as [Hz Hb]. split; [done|].
    rewrite Hl2. intros j b Hj. rewrite Hf2; [by apply Hb|]. nia.
  - rewrite Hp2. unfold h. solve_Permutation.
  - constructor; [done|]. apply Forall_forall. intros v Hv. apply Hle; [unfold h; set_solver|done].
  - intros u v Hu [->|Hv]%elem_of_cons; [by apply (heap_root h); [|unfold h|apply Hin]|]. by apply Hle; [apply Hin|].
  - eapply frame_trans; [done|]. intros q Hq. apply Hf2. rewrite length_app, Hlh in Hq. simpl. nia.
Qed.

(** [sort] ends without tripping an assertion and leaves the array
    sorted by the comparison, with the same elements as before; memory
    outside of the array is unchanged. *)
Theorem sort_correct m l :
  arr m l -> fits (len l) ->
  exists m' l', sort m array (len l) size compare aux = Ret m' /\
    arr m' l' /\ l' ≡ₚ l /\ StronglySorted le l' /\ frame (len l) m m'.
Proof.
  intros Ha Hf. unfold sort. rewrite nonnull_ok, (proj2 (Z.ltb_lt 0 size)) by done. cbn [ASSERT obind].
  destruct (build_heap m l Ha Hf) as (m1 & l1 & -> & Ha1 & Hp1 & Hh1 & Hf1). cbn [obind].
  pose proof (Permutation_length Hp1) as Hlen1.
  edestruct (loop_rule
    (fun s : mem * Z => exists h t, s.2 = len h /\ arr s.1 (h ++ t) /\ h ++ t ≡ₚ l /\ heap_ok h 0 /\
       StronglySorted le t /\ (forall x y, x ∈ h -> y ∈ t -> le x y) /\ frame (len l) m s.1)
    (fun m' => exists l', arr m' l' /\ l' ≡ₚ l /\ StronglySorted le l' /\ frame (len l) m m')
    (fun s => s.2)) as (m' & Hr & l' & Hl'); [| | | |exists m', l'; split; [exact Hr|done]]; cbn [fst snd].
  - intros [m2 i] (h & t & Hi & _). simpl in *. lia.
  - intros [m2 i] (h & t & Hi & Ha2 & Hp2 & Hh2 & Hs2 & Hle2 & Hf2). cbn [fst snd] in *. subst i.
    pose proof (Permutation_length Hp2) as Hlen2. destruct (Z.ltb_spec 1 (len h)).
    + right. destruct (sort_step m2 h t) as (m3 & m4 & h' & x & -> & He & Ha4 & Hp4 & Hh4 & Hs4 & Hle4 & Hf4);
        [done|by rewrite Hlen2|lia|done|done|done|]. cbn [obind]. rewrite He. cbn [obind]. eexists. split; [done|].
      pose proof (Permutation_length Hp4) as Hl4. rewrite length_app in Hl4. simpl in Hl4.
      split; [|simpl; lia]. exists h', (x :: t). cbn [fst snd]. split; [lia|]. split; [done|].
      split; [rewrite <- Hp2, <- Hp4; by rewrite <- app_assoc|]. split; [done|]. split; [done|]. split; [done|].
      eapply frame_trans; [done|]. by rewrite <- Hlen2.
    + left. eexists. split; [done|]. exists (h ++ t). split; [done|]. split; [done|]. split; [|done].
      destruct h as [|x [|? ?]]; simpl in *; [done| |lia]. constructor; [done|]. apply Forall_forall. intros v Hv. apply Hle2; set_solver.
  - exists l1, []. rewrite app_nil_r. rewrite Hlen1. split; [done|]. split; [done|]. split; [done|]. split; [done|].
    split; [constructor|]. split; [set_solver|done].
  - simpl. destruct Hf. unfold two32. lia.
Qed.

(** ** Searching *)

(** In a sorted array the key is compared alike from one side. *)
Lemma sorted_below k l i j x y :
  StronglySorted le l -> (i < j)%nat -> l !! i = Some x -> l !! j = Some y ->
  (cmp k x < 0 -> cmp k y < 0) /\ (0 < cmp k y -> 0 < cmp k x).
Proof.
  intros Hs Hij Hx Hy. assert (le x y) as Hxy .
  { rewrite <- (take_drop j l) in Hs. eapply StronglySorted_app_1_elem_of; [exact Hs| |].
    - apply (list_elem_of_lookup_2 _ i). by rewrite lookup_take_lt.
    - apply (list_elem_of_lookup_2 _ O). by rewrite lookup_drop, Nat.add_0_r. }
  split; intros H.
  - apply cmp_sign. apply cmp_sign in H. destruct (Z_lt_le_dec 0 (cmp y k)) as [|Hn]; [done|].
    pose proof (cmp_trans x y k Hxy Hn). lia.
  - destruct (Z_lt_le_dec 0 (cmp k x)) as [|Hn]; [done|]. pose proof (cmp_trans k x y Hn Hxy). lia.
Qed.

(** [binary_search] on a sorted array ends, and returns a pointer to an
    element equal to the key, or null exactly when there is none. *)
Theorem binary_search_correct m l key k :
  arr m l -> fits (len l) -> StronglySorted le l -> 0 < key -> bytes_at m key k -> len k = size ->
  (exists i x, binary_search m key array (len l) size compare aux = Ret (array + Z.of_nat i * size) /\
     l !! i = Some x /\ cmp k x = 0) \/
  (binary_search m key array (len l) size compare aux = Ret NULL /\ forall x, x ∈ l -> cmp k x <> 0).
Proof.
  intros Ha Hf Hs Hkey Hk Hlk. pose proof Hf as [Hf1 Hf2]. unfold binary_search.
  rewrite u32_small by (unfold is_u32; nia).
  lazymatch goal with |- context [loop ?body ?init] => destruct (loop_rule
    (fun s : Z * Z => exists a b : nat, s = (array + Z.of_nat a * size, array + Z.of_nat b * size) /\ (a <= b <= length l)%nat /\
       (forall i x, (i < a)%nat -> l !! i = Some x -> 0 < cmp k x) /\
       (forall i x, (b <= i)%nat -> l !! i = Some x -> cmp k x < 0))
    (fun r => (exists i x, r = array + Z.of_nat i * size /\ l !! i = Some x /\ cmp k x = 0) \/
              (r = NULL /\ forall x, x ∈ l -> cmp k x <> 0))
    (fun s => s.2 - s.1) body init) as (r & -> & Hq) end;
    [| | | |destruct Hq as [(i & x & -> & Hi & Hx)|[-> Hno]]; [left|right]; eauto].
  - intros s (a & b & -> & Hab & _). simpl. nia.
  - intros s (a & b & -> & Hab & Hlo & Hhi). cbv beta iota zeta. destruct (Z.ltb_spec (array + Z.of_nat a * size) (array + Z.of_nat b * size)) as [Hlt|Hge].
    + assert (a < b)%nat by nia. set (c := (a + (b - a) / 2)%nat).
      assert (a <= c < b)%nat as Hc.
      { unfold c. pose proof (Nat.div_lt (b - a) 2). pose proof (Nat.le_0_l ((b - a) / 2)). lia. }
      assert (array + Z.of_nat a * size + u32 (u32 ((array + Z.of_nat b * size - (array + Z.of_nat a * size)) / size) / 2 * size)
              = array + Z.of_nat c * size) as ->.
      { replace (array + Z.of_nat b * size - (array + Z.of_nat a * size)) with (Z.of_nat (b - a) * size) by nia.
        rewrite Z.div_mul by lia. rewrite (u32_small (Z.of_nat (b - a))) by (unfold is_u32, two32; lia).
        change 2 with (Z.of_nat 2) at 1. rewrite <- Nat2Z.inj_div. rewrite u32_small by (unfold c in Hc; unfold is_u32; nia).
        unfold c. lia. }
      destruct (lookup_lt_is_Some_2 l c) as [x Hx]; [lia|]. destruct (arr_elem m l c x Ha Hx) as [Hlx Hbx].
      rewrite (compare_ok m key _ k x) by (done || nia). cbn [obind]. destruct (Z.ltb_spec (cmp k x) 0) as [Hn|Hn].
      { right. eexists. split; [done|]. split; [|simpl; nia]. exists a, c. split; [done|]. split; [lia|]. split; [done|].
        intros i y Hi Hy. destruct (decide (i = c)) as [->|]; [rewrite Hx in Hy; by injection Hy as <-|].
        apply (sorted_below k l c i x y); (done || lia). }
      destruct (Z.ltb_spec 0 (cmp k x)) as [Hp|Hp].
      { right. eexists. split; [done|]. split; [|simpl; nia]. exists (S c), b. split; [f_equal; lia|]. split; [lia|]. split; [|done].
        intros i y Hi Hy. destruct (decide (i = c)) as [->|]; [rewrite Hx in Hy; by injection Hy as <-|].
        apply (sorted_below k l i c y x); (done || lia). }
      left. eexists. split; [done|]. left. exists c, x. repeat split; [done|lia].
    + left. eexists. split; [done|]. right. split; [done|]. assert (a = b) as -> by nia.
      intros x (i & Hi)%list_elem_of_lookup. destruct (decide (i < b)%nat) as [Hlt|Hge'];
      [specialize (Hlo i x Hlt Hi); lia|specialize (Hhi i x ltac:(lia) Hi); lia].
  - exists O, (length l). split; [f_equal; lia|]. split; [lia|]. split; [lia|]. intros i x Hi Hx%lookup_lt_Some. lia.
  - simpl. nia.
Qed.
End Array.

(** ** Instances *)

Lemma lex_sign x y : 0 < lex x y <-> lex y x < 0.
Proof.
  revert y. induction x as [|a x IH]; intros [|b y]; simpl; [lia|lia|lia|]. bool_cases; try lia. apply IH.
Qed.

Lemma lex_trans x y z : lex x y <= 0 -> lex y z <= 0 -> lex x z <= 0.
Proof.
  revert y z. induction x as [|a x IH]; intros [|b y] [|c z]; simpl; try lia. bool_cases; try lia. apply IH.
Qed.

(** [memcmp] as the callback; the auxiliary data is the size. *)
Definition memcmp_callback : compare_fn Z := fun m p q size => memcmp m p q size.

Lemma memcmp_callback_ok size m p q x y :
  size < two32 -> 0 < p -> 0 < q -> bytes_at m p x -> bytes_at m q y -> len x = size -> len y = size ->
  memcmp_callback m p q size = Ret (lex x y).
Proof. intros Hz Hp Hq Hx Hy Hlx Hly. unfold memcmp_callback. rewrite <- Hlx. apply memcmp_spec; (done || lia). Qed.

(** The array of the two-byte elements "ba", "cc", "ab", and the key "cc". *)
Definition three_elems : mem := write_bytes (write_bytes ∅ 100 [98; 97; 99; 99; 97; 98]) 200 [99; 99].

Lemma three_elems_arr : arr 100 2 three_elems [[98; 97]; [99; 99]; [97; 98]].
Proof.
  intros i x Hi. do 3 (destruct i as [|i]; [injection Hi as <-; split; [done|];
    intros j b Hj; do 2 (destruct j as [|j]; [injection Hj as <-; by vm_compute|]); done|]). done.
Qed.

Lemma sort_correct_witness :
  exists m' l', sort three_elems 100 3 2 memcmp_callback 2 = Ret m' /\
    arr 100 2 m' l' /\ l' ≡ₚ [[98; 97]; [99; 99]; [97; 98]] /\ StronglySorted (le lex) l' /\ frame 100 2 3 three_elems m'.
Proof.
  apply (sort_correct 100 2 ltac:(lia) ltac:(lia) memcmp_callback 2 lex
    (fun m p q x y => memcmp_callback_ok 2 m p q x y eq_refl) lex_sign lex_trans three_elems [[98; 97]; [99; 99]; [97; 98]]).
  - apply three_elems_arr.
  - unfold fits, two32. simpl. lia.
Defined.

(** The sorted array "ab", "cc", searched for "cc". *)
Definition sorted_elems : mem := write_bytes (write_bytes ∅ 100 [97; 98; 99; 99]) 200 [99; 99].

Lemma binary_search_correct_witness :
  (exists i x, binary_search sorted_elems 200 100 2 2 memcmp_callback 2 = Ret (100 + Z.of_nat i * 2) /\
     [[97; 98]; [99; 99]] !! i = Some x /\ lex [99; 99] x = 0) \/
  (binary_search sorted_elems 200 100 2 2 memcmp_callback 2 = Ret NULL /\
     forall x, x ∈ [[97; 98]; [99; 99]] -> lex [99; 99] x <> 0).
Proof.
  apply (binary_search_correct 100 2 ltac:(lia) ltac:(lia) memcmp_callback 2 lex
    (fun m p q x y => memcmp_callback_ok 2 m p q x y eq_refl) lex_sign lex_trans sorted_elems [[97; 98]; [99; 99]] 200 [99; 99]).
  - intros i x Hi. do 2 (destruct i as [|i]; [injection Hi as <-; split; [done|];
      intros j b Hj; do 2 (destruct j as [|j]; [injection Hj as <-; by vm_compute|]); done|]). done.
  - unfold fits, two32. simpl. lia.
  - repeat constructor; by vm_compute.
  - lia.
  - intros j b Hj. do 2 (destruct j as [|j]; [injection Hj as <-; by vm_compute|]). done.
  - done.
Defined.
