(* ===== verification/Random.v ===== *)
(** * Pseudo-random numbers ([lib/random.c])

    The RC4 generator: an array of 256 bytes, which stays a permutation of
    0 to 255, and two indices. *)
From stdpp Require Import prelude list.
From Stdlib Require Import ZArith Lia.
From S2P Require Import Prelude Sort.
#[local] Open Scope Z_scope.

Record rc4 : Type := mkRc4 { s : list Z; s_i : Z; s_j : Z; inited : bool }.

Definition u8_ (z : Z) : Z := z mod 256.

Definition swap_byte (l : list Z) (a b : Z) : outcome (list Z) :=
  let! t := access (l !! Z.to_nat a) in
  let! x := access (l !! Z.to_nat b) in
  Ret (<[Z.to_nat b := t]> (<[Z.to_nat a := x]> l)).

(** [seedp[k]]: the bytes of the seed, the least significant first. *)
Definition seed_byte (seed k : Z) : Z := Z.shiftr seed (8 * k) mod 256.

Definition random_init (seed : Z) : outcome rc4 :=
  let! (l, _) := for_loop 256 0 (fun i '(l, j) =>
    let! x := access (l !! Z.to_nat i) in
    let j := u8_ (j + (x + seed_byte seed (i mod 4))) in
    let! l := swap_byte l i j in
    Ret (l, j)) (seqZ 0 256, 0) in
  Ret (mkRc4 l 0 0 true).

(** One iteration of the loop of [random_bytes]. *)
Definition random_step (g : rc4) : outcome (Z * rc4) :=
  let i := u8_ (s_i g + 1) in
  let! x := access (s g !! Z.to_nat i) in
  let j := u8_ (s_j g + x) in
  let! l := swap_byte (s g) i j in
  let! a := access (l !! Z.to_nat i) in
  let! b := access (l !! Z.to_nat j) in
  let! c := access (l !! Z.to_nat (u8_ (a + b))) in
  Ret (c, mkRc4 l i j (inited g)).

(** The bytes written to the buffer. *)
Definition random_bytes (size : Z) (g : rc4) : outcome (list Z * rc4) :=
  let! g := if negb (inited g) then random_init 0 else Ret g in
  for_loop (Z.to_nat size) 0 (fun _ '(out, g) =>
    let! (b, g) := random_step g in
    Ret (out ++ [b], g)) ([], g).

Definition random_ulong (g : rc4) : outcome (Z * rc4) :=
  let! (bs, g) := random_bytes 4 g in
  Ret (foldr (fun b n => b + 256 * n) 0 bs, g).

(** ** The state stays a permutation *)

Definition is_permutation (l : list Z) : Prop := l ≡ₚ seqZ 0 256.

Definition rc4_ok (g : rc4) : Prop := is_permutation (s g) /\ 0 <= s_i g < 256 /\ 0 <= s_j g < 256.

Lemma u8_range z : 0 <= u8_ z < 256.
Proof. apply Z.mod_pos_bound. lia. Qed.

Lemma perm_lookup l i : is_permutation l -> 0 <= i < 256 -> exists x, l !! Z.to_nat i = Some x /\ 0 <= x < 256.
Proof.
  intros Hp Hi. unfold is_permutation in Hp. assert (length l = 256%nat) as Hl by (by rewrite (Permutation_length Hp)).
  destruct (lookup_lt_is_Some_2 l (Z.to_nat i)) as [x Hx]; [lia|]. exists x. split; [done|].
  apply list_elem_of_lookup_2 in Hx. rewrite Hp in Hx. apply elem_of_seqZ in Hx. lia.
Qed.

Lemma swap_byte_spec l a b :
  is_permutation l -> 0 <= a < 256 -> 0 <= b < 256 -> exists l', swap_byte l a b = Ret l' /\ is_permutation l'.
Proof.
  intros Hp Ha Hb. destruct (perm_lookup l a Hp Ha) as (x & Hx & _). destruct (perm_lookup l b Hp Hb) as (y & Hy & _).
  unfold swap_byte. rewrite Hx, Hy. cbn [access obind]. eexists. split; [done|]. unfold is_permutation in *. rewrite <- Hp.
  destruct (decide (Z.to_nat a = Z.to_nat b)) as [Heq|Hne].
  - rewrite Heq in *. assert (x = y) as -> by congruence. by rewrite !list_insert_id by (by rewrite ?list_insert_id).
  - rewrite <- (proj1 (exchange_spec l _ _ x y Hx Hy)). by apply (exchange_Permutation l _ _ x y).
Qed.

Lemma random_step_spec g : rc4_ok g -> exists b g', random_step g = Ret (b, g') /\ rc4_ok g' /\ inited g' = inited g /\ 0 <= b < 256.
Proof.
  intros (Hp & Hi & Hj). unfold random_step. pose proof (u8_range (s_i g + 1)) as Hi'.
  destruct (perm_lookup (s g) _ Hp Hi') as (x & -> & _). cbn [access obind]. pose proof (u8_range (s_j g + x)) as Hj'.
  destruct (swap_byte_spec (s g) _ _ Hp Hi' Hj') as (l & -> & Hl). cbn [obind].
  destruct (perm_lookup l _ Hl Hi') as (a & -> & _). cbn [access obind]. destruct (perm_lookup l _ Hl Hj') as (b & -> & _). cbn [access obind].
  destruct (perm_lookup l _ Hl (u8_range (a + b))) as (c & -> & Hc). cbn [access obind]. eexists _, _. split; [done|]. done.
Qed.

Lemma random_init_spec seed : exists g, random_init seed = Ret g /\ rc4_ok g /\ inited g = true.
Proof.
  unfold random_init.
  match goal with |- context [for_loop _ _ ?f ?a] =>
    destruct (for_loop_ind (fun i '(l, j) => is_permutation l /\ 0 <= j < 256) f 256 0 a) as ([l j] & -> & Hl & Hj); [split; [by unfold is_permutation|lia]| |] end.
  - intros k [l j] Hk [Hl Hj]. destruct (perm_lookup l k Hl) as (x & -> & _); [lia|]. cbn [access obind].
    destruct (swap_byte_spec l k (u8_ (j + (x + seed_byte seed (k mod 4)))) Hl) as (l' & -> & Hl'); [lia|apply u8_range|].
    cbn [obind]. eexists. split; [done|]. split; [done|apply u8_range].
  - cbn [obind]. eexists. split; [done|]. done.
Qed.

(** Whatever the seed, the generator never leaves its array: the array stays
    a permutation of the bytes, [random_bytes] gives as many bytes as it is
    asked for, and an uninitialized generator starts from the seed 0. *)
Theorem random_bytes_correct seed n :
  0 <= n ->
  exists g0, random_init seed = Ret g0 /\ rc4_ok g0 /\
  exists out g, random_bytes n g0 = Ret (out, g) /\ rc4_ok g /\ Z.of_nat (length out) = n /\ Forall (fun b => 0 <= b < 256) out /\
    (forall l i j, random_bytes n (mkRc4 l i j false) = (let! g := random_init 0 in random_bytes n g)).
Proof.
  intros Hn. destruct (random_init_spec seed) as (g0 & -> & Hok & Hin). exists g0. split; [done|]. split; [done|].
  unfold random_bytes at 1. rewrite Hin. cbn [negb obind].
  match goal with |- context [for_loop _ _ ?f ?a] =>
    destruct (for_loop_ind (fun i '(out, g) => rc4_ok g /\ Z.of_nat (length out) = i /\ Forall (fun b => 0 <= b < 256) out) f (Z.to_nat n) 0 a)
      as ([out g] & -> & Hg & Hl & Hf); [done| |] end.
  - intros k [out g] Hk (Hg & Hl & Hf). destruct (random_step_spec g Hg) as (b & g' & -> & Hg' & _ & Hb). cbn [obind]. eexists. split; [done|].
    split; [done|]. split; [rewrite length_app; simpl; lia|]. apply Forall_app. split; [done|by apply Forall_singleton].
  - exists out, g. split; [done|]. split; [done|]. split; [lia|]. split; [done|]. intros l i j. unfold random_bytes. cbn [inited negb obind].
    destruct (random_init_spec 0) as (g1 & -> & _ & Hin1). cbn [obind]. by rewrite Hin1.
Qed.
