(* ===== verification/Hash.v ===== *)
(** * Hash tables (lib/kernel/hash.c, lib/kernel/hash.h)

    Every function of hash.c, on the pointer-level lists of [Dlist]: a table
    is an array of [struct list]s, 16 bytes each, in which the elements are
    linked.  A [struct hash_elem] is its [struct list_elem], so the
    conversions between them are the identity.  The hash function and the
    comparison are callbacks on elements, and the array comes from [malloc],
    which may fail; where it places a block is a parameter. *)
From stdpp Require Import prelude list gmap.
From Stdlib Require Import ZArith Lia.
From S2P Require Import Prelude Strings Dlist.
#[local] Open Scope Z_scope.

(** ** State *)

(** [struct hash]; the callbacks are parameters of the functions. *)
Record hash : Type := mkHash { elem_cnt : Z; bucket_cnt : Z; buckets : Z }.

(** The list elements in memory, the blocks given out by [malloc] with their
    number of list elements, and the table. *)
Record hstate : Type := mkHst { cells : heap; blocks : gmap Z nat; tab : hash }.

Definition with_tab (f : hash -> hash) : ST hstate unit := fun s =>
  Ret (tt, mkHst (cells s) (blocks s) (f (tab s))).

Definition lists {A} (m : ST heap A) : ST hstate A := fun s =>
  match m (cells s) with
  | Ret (a, h) => Ret (a, mkHst h (blocks s) (tab s))
  | Err e => Err e
  end.

(** [struct hash_iterator], of the table of the state. *)
Record hash_iterator : Type := mkIter { i_bucket : Z; i_elem : Z }.

Definition sizeof_list : Z := 16.

(** The list elements of a block at [p]. *)
Definition block_cells (p : Z) (n : nat) : list Z := (fun k => p + 8 * k) <$> seqZ 0 (Z.of_nat n).

Section Code.
Context (hash_fn : Z -> Z) (less : Z -> Z -> bool).
(** Where [malloc] places a block of the given size ([NULL] if it fails), and
    the old contents of memory. *)
Context (place : hstate -> Z -> Z) (junk : Z -> list_elem).

Definition malloc (size : Z) : ST hstate Z := fun s =>
  let p := place s size in
  if p =? NULL then Ret (NULL, s)
  else
    let n := Z.to_nat (size / 8) in
    Ret (p, mkHst (foldr (fun c h => <[c := junk c]> h) (cells s) (block_cells p n)) (<[p := n]> (blocks s)) (tab s)).

Definition free (p : Z) : ST hstate unit := fun s =>
  if p =? NULL then Ret (tt, s)
  else
    match blocks s !! p with
    | Some n => Ret (tt, mkHst (foldr delete (cells s) (block_cells p n)) (delete p (blocks s)) (tab s))
    | None => Err BadAccess
    end.

(** ** The functions of hash.c *)

Definition find_bucket (e : Z) : ST hstate Z :=
  do! s := get in
  let bucket_idx := Z.land (hash_fn e) (u32 (bucket_cnt (tab s) - 1)) in
  sret (buckets (tab s) + sizeof_list * bucket_idx).

Definition find_elem (bucket e : Z) : ST hstate Z :=
  do! i := lists (list_begin bucket) in
  sloop (fun i =>
    do! en := lists (list_end bucket) in
    if negb (i =? en) then
      if negb (less i e) && negb (less e i) then sret (inr i)
      else
        do! n := lists (list_next i) in
        sret (inl n)
    else sret (inr NULL)) i.

Definition turn_off_least_1bit (x : Z) : Z := Z.land x (u32 (x - 1)).

Definition is_power_of_2 (x : Z) : bool := negb (x =? 0) && (turn_off_least_1bit x =? 0).

Definition BEST_ELEMS_PER_BUCKET : Z := 2.

(** [while (!is_power_of_2 (n)) n = turn_off_least_1bit (n);] *)
Definition round_to_power (n : Z) : outcome Z :=
  loop (fun n => if negb (is_power_of_2 n) then Ret (inl (turn_off_least_1bit n)) else Ret (inr n)) n.

(** [for (i = 0; i < cnt; i++) list_init (&array[i]);] *)
Definition init_buckets (array cnt : Z) : ST hstate unit :=
  sloop (fun i =>
    if i <? cnt then
      do! _ := lists (list_init (array + sizeof_list * i)) in
      sret (inl (i + 1))
    else sret (inr tt)) 0.

(** The inner loop of [rehash]. *)
Definition move_bucket (old_bucket : Z) : ST hstate unit :=
  do! elem := lists (list_begin old_bucket) in
  sloop (fun elem =>
    do! en := lists (list_end old_bucket) in
    if negb (elem =? en) then
      do! new_bucket := find_bucket elem in
      do! next := lists (list_next elem) in
      do! _ := lists (list_remove elem) in
      do! _ := lists (list_push_front new_bucket elem) in
      sret (inl next)
    else sret (inr tt)) elem.

Definition rehash : ST hstate unit :=
  do! s := get in
  let old_buckets := buckets (tab s) in
  let old_bucket_cnt := bucket_cnt (tab s) in
  let n := elem_cnt (tab s) / BEST_ELEMS_PER_BUCKET in
  let n := if n <? 4 then 4 else n in
  do! new_bucket_cnt := lift (round_to_power n) in
  if new_bucket_cnt =? old_bucket_cnt then sret tt
  else
    do! new_buckets := malloc (u32 (sizeof_list * new_bucket_cnt)) in
    if new_buckets =? NULL then sret tt
    else
      do! _ := init_buckets new_buckets new_bucket_cnt in
      do! _ := with_tab (fun h => mkHash (elem_cnt h) new_bucket_cnt new_buckets) in
      do! _ := sloop (fun i =>
        if i <? old_bucket_cnt then
          do! _ := move_bucket (old_buckets + sizeof_list * i) in
          sret (inl (i + 1))
        else sret (inr tt)) 0 in
      free old_buckets.

Definition insert_elem (bucket e : Z) : ST hstate unit :=
  do! _ := with_tab (fun h => mkHash (u32 (elem_cnt h + 1)) (bucket_cnt h) (buckets h)) in
  lists (list_push_front bucket e).

Definition remove_elem (e : Z) : ST hstate unit :=
  do! _ := with_tab (fun h => mkHash (u32 (elem_cnt h - 1)) (bucket_cnt h) (buckets h)) in
  do! _ := lists (list_remove e) in
  sret tt.

(** The inner loop of [hash_clear]: every element is popped and given to the
    destructor; [called] are the elements given so far. *)
Definition drain_bucket (bucket : Z) (called : list Z) : ST hstate (list Z) :=
  sloop (fun called =>
    do! b := lists (list_empty bucket) in
    if negb b then
      do! e := lists (list_pop_front bucket) in
      sret (inl (called ++ [e]))
    else sret (inr called)) called.

(** [hash_clear]: the elements given to the destructor, in order, or none if
    it is null.  A destructor does not use the table. *)
Definition hash_clear (destructor : bool) : ST hstate (list Z) :=
  do! s := get in
  do! called := sloop (fun '(i, called) =>
    if i <? bucket_cnt (tab s) then
      let bucket := buckets (tab s) + sizeof_list * i in
      do! called := if destructor then drain_bucket bucket called else sret called in
      do! _ := lists (list_init bucket) in
      sret (inl (i + 1, called))
    else sret (inr called)) (0, []) in
  do! _ := with_tab (fun h => mkHash 0 (bucket_cnt h) (buckets h)) in
  sret called.

Definition hash_init : ST hstate bool :=
  do! p := malloc (u32 (sizeof_list * 4)) in
  do! _ := with_tab (fun _ => mkHash 0 4 p) in
  if negb (p =? NULL) then
    do! _ := hash_clear false in
    sret true
  else sret false.

Definition hash_destroy (destructor : bool) : ST hstate (list Z) :=
  do! called := if destructor then hash_clear true else sret [] in
  do! s := get in
  do! _ := free (buckets (tab s)) in
  sret called.

Definition hash_insert (new : Z) : ST hstate Z :=
  do! bucket := find_bucket new in
  do! old := find_elem bucket new in
  do! _ := if old =? NULL then insert_elem bucket new else sret tt in
  do! _ := rehash in
  sret old.

Definition hash_replace (new : Z) : ST hstate Z :=
  do! bucket := find_bucket new in
  do! old := find_elem bucket new in
  do! _ := if negb (old =? NULL) then remove_elem old else sret tt in
  do! _ := insert_elem bucket new in
  do! _ := rehash in
  sret old.

Definition hash_find (e : Z) : ST hstate Z :=
  do! bucket := find_bucket e in
  find_elem bucket e.

Definition hash_delete (e : Z) : ST hstate Z :=
  do! bucket := find_bucket e in
  do! found := find_elem bucket e in
  do! _ := if negb (found =? NULL) then do! _ := remove_elem found in rehash else sret tt in
  sret found.

(** The inner loop of [hash_apply]. *)
Definition visit_bucket (bucket : Z) (called : list Z) : ST hstate (list Z) :=
  do! elem := lists (list_begin bucket) in
  sloop (fun '(elem, called) =>
    do! en := lists (list_end bucket) in
    if negb (elem =? en) then
      do! next := lists (list_next elem) in
      sret (inl (next, called ++ [elem]))
    else sret (inr called)) (elem, called).

(** [hash_apply]: the elements given to the action, in order.  An action does
    not modify the table. *)
Definition hash_apply : ST hstate (list Z) :=
  do! s := get in
  sloop (fun '(i, called) =>
    if i <? bucket_cnt (tab s) then
      do! called := visit_bucket (buckets (tab s) + sizeof_list * i) called in
      sret (inl (i + 1, called))
    else sret (inr called)) (0, []).

Definition hash_first : ST hstate hash_iterator :=
  do! s := get in
  do! e := lists (list_head (buckets (tab s))) in
  sret (mkIter (buckets (tab s)) e).

(** [hash_next]: the element and the iterator. *)
Definition hash_next (i : hash_iterator) : ST hstate (Z * hash_iterator) :=
  do! s := get in
  do! e := lists (list_next (i_elem i)) in
  do! i := sloop (fun i =>
    do! en := lists (list_end (i_bucket i)) in
    if i_elem i =? en then
      let b := i_bucket i + sizeof_list in
      if buckets (tab s) + sizeof_list * bucket_cnt (tab s) <=? b then sret (inr (mkIter b NULL))
      else
        do! e := lists (list_begin b) in
        sret (inl (mkIter b e))
    else sret (inr i)) (mkIter (i_bucket i) e) in
  sret (i_elem i, i).

Definition hash_cur (i : hash_iterator) : Z := i_elem i.

Definition hash_size : ST hstate Z := do! s := get in sret (elem_cnt (tab s)).

Definition hash_empty : ST hstate bool := do! s := get in sret (elem_cnt (tab s) =? 0).
End Code.

(** *** Hash functions on bytes *)

Definition FNV_32_PRIME : Z := 16777619.
Definition FNV_32_BASIS : Z := 2166136261.

Definition fnv_step (hash b : Z) : Z := Z.lxor (u32 (hash * FNV_32_PRIME)) b.

Definition hash_bytes (m : mem) (buf_ size : Z) : outcome Z :=
  let! _ := ASSERT (negb (buf_ =? NULL)) in
  loop (fun '(hash, buf, size) =>
    if 0 <? size then
      let! b := Strings.load m buf in
      Ret (inl (fnv_step hash b, buf + 1, size - 1))
    else Ret (inr hash)) (FNV_32_BASIS, buf_, size).

Definition hash_string (m : mem) (s_ : Z) : outcome Z :=
  let! _ := ASSERT (negb (s_ =? NULL)) in
  loop (fun '(hash, s) =>
    let! b := Strings.load m s in
    if negb (b =? 0) then Ret (inl (fnv_step hash b, s + 1)) else Ret (inr hash)) (FNV_32_BASIS, s_).

(** The bytes of an [int], in memory at [addr]. *)
Definition int_bytes (i : Z) : list Z :=
  let u := u32 i in [u mod 256; u / 256 mod 256; u / 65536 mod 256; u / 16777216].

Definition hash_int (addr i : Z) : outcome Z := hash_bytes (write_bytes ∅ addr (int_bytes i)) addr 4.

(** FNV-1 of a sequence of bytes. *)
Definition fnv (l : list Z) : Z := foldl fnv_step FNV_32_BASIS l.

Lemma hash_bytes_spec m p l :
  bytes_at m p l -> 0 < p -> len l < two32 -> hash_bytes m p (len l) = Ret (fnv l).
Proof.
  intros Hb Hp Hl. unfold hash_bytes. rewrite nonnull by done. cbn [ASSERT obind].
  trace (fun i => (fnv (take i l), p + Z.of_nat i, len l - Z.of_nat i)) (length l).
  - simpl. feq.
  - destruct (lookup_lt_is_Some_2 l i Hi) as [b Hlb]. rewrite (proj2 (Z.ltb_lt _ _)) by lia.
    rewrite (load_ok _ _ b) by (by apply Hb). cbn [obind]. rewrite (take_S_r _ _ b Hlb). unfold fnv. rewrite foldl_app. simpl. feq.
  - rewrite Z.sub_diag, firstn_all. done.
  - done.
Qed.

(** A string hashes like its bytes. *)
Lemma hash_string_spec m p s : cstr m p s -> hash_string m p = Ret (fnv s).
Proof.
  intros Hs. pose proof Hs as (Hp & Hl & Hc & _). unfold hash_string. rewrite nonnull by done. cbn [ASSERT obind].
  trace (fun i => (fnv (take i s), p + Z.of_nat i)) (length s).
  - simpl. feq.
  - destruct (lookup_lt_is_Some_2 s i Hi) as [b Hlb]. destruct (cstr_char _ _ _ _ _ Hs Hlb) as [Hm Hb].
    unfold is_char in Hb. rewrite (load_ok _ _ b Hm). cbn [obind]. rewrite (proj2 (Z.eqb_neq b 0)) by lia. cbn [negb].
    rewrite (take_S_r _ _ b Hlb). unfold fnv. rewrite foldl_app. simpl. feq.
  - rewrite (load_ok _ _ _ (cstr_end _ _ _ Hs)), firstn_all. done.
  - lia.
Qed.
