(* ===== verification/HashInv.v ===== *)
(** * Hash tables: representation and correctness

    The table as a family of disjoint lists, one per bucket; the invariant
    [rep] and that every operation keeps it; the operations as operations on
    the collection of elements. *)
From stdpp Require Import prelude list gmap.
From Stdlib Require Import ZArith Lia.
From S2P Require Import Prelude Strings Dlist Hash.
#[local] Open Scope Z_scope.

(** ** Families of lists

    Lists at different addresses without a common node. *)
Record dls (h : heap) (F : gmap Z (list Z)) : Prop := {
  dls_dl : forall l xs, F !! l = Some xs -> dl h l xs;
  dls_disj : forall l l' xs xs' x,
    F !! l = Some xs -> F !! l' = Some xs' -> l <> l' -> x ∈ nodes l xs -> x ∉ nodes l' xs' }.

(** The nodes of a family. *)
Definition owned (F : gmap Z (list Z)) (x : Z) : Prop := exists l xs, F !! l = Some xs /\ x ∈ nodes l xs.

Lemma dls_set h h' F l xs :
  dls h F -> dl h' l xs -> (forall x, x ∉ nodes l xs -> h' !! x = h !! x) ->
  (forall x l' xs', x ∈ nodes l xs -> l' <> l -> F !! l' = Some xs' -> x ∉ nodes l' xs') ->
  dls h' (<[l := xs]> F).
Proof.
  intros [Hd Hj] Hl Hf Hn. split.
  - intros l1 xs1 [[<- <-]|[Hne H1]]%lookup_insert_Some; [done|].
    apply (dl_frame h); [by apply Hd|]. intros x Hx. apply Hf. intros Hx'. by apply (Hn x l1 xs1).
  - intros l1 l2 xs1 xs2 x [[<- <-]|[Hne1 H1]]%lookup_insert_Some [[<- <-]|[Hne2 H2]]%lookup_insert_Some Hne Hx.
    + done.
    + by apply (Hn x).
    + intros Hx2. by apply (Hn x l1 xs1).
    + by apply (Hj l1 l2 xs1 xs2).
Qed.

Lemma dls_sub h F F' : F' ⊆ F -> dls h F -> dls h F'.
Proof.
  intros Hs [Hd Hj]. split.
  - intros l xs H. apply Hd. by eapply lookup_weaken.
  - intros l l' xs xs' x H H'. apply (Hj l l' xs xs'); by eapply lookup_weaken.
Qed.

Lemma dls_frame h h' F : dls h F -> (forall x, owned F x -> h' !! x = h !! x) -> dls h' F.
Proof.
  intros [Hd Hj] Hf. split; [|done]. intros l xs H. apply (dl_frame h); [by apply Hd|].
  intros x Hx. apply Hf. by exists l, xs.
Qed.

Lemma dls_push h F l xs e :
  dls h F -> F !! l = Some xs -> ~ owned F e -> e <> NULL -> is_Some (h !! e) ->
  exists h', list_push_front l e h = Ret (tt, h') /\ dls h' (<[l := e :: xs]> F) /\
    (forall x, x ∉ nodes l (e :: xs) -> h' !! x = h !! x).
Proof.
  intros Hd Hl He Hn Hc. destruct (run_push_front h l e xs) as (h' & Hr & Hdl & Hf); [by apply (dls_dl h F)| |done|done|].
  - intros Hin. apply He. by exists l, xs.
  - exists h'. split; [done|]. split; [|done]. apply (dls_set h); [done|done|done|].
    intros x l' xs' Hx Hne Hl' Hx'. rewrite (nodes_perm_insert l [] e xs) in Hx. apply elem_of_cons in Hx as [->|Hx].
    + apply He. by exists l', xs'.
    + by apply (dls_disj h F Hd l l' xs xs' x).
Qed.

Lemma dls_remove h F l pre e post :
  dls h F -> F !! l = Some (pre ++ e :: post) ->
  exists h', list_remove e h = Ret (cur l post, h') /\ dls h' (<[l := pre ++ post]> F) /\
    (forall x, x ∉ nodes l (pre ++ post) -> h' !! x = h !! x) /\ ~ owned (<[l := pre ++ post]> F) e /\
    e <> NULL /\ is_Some (h' !! e).
Proof.
  intros Hd Hl. pose proof (dls_dl h F Hd _ _ Hl) as Hdl.
  destruct (run_list_remove h l pre e post Hdl) as (h' & Hr & Hdl' & Hf).
  pose proof (dl_nodup _ _ _ Hdl) as Hnd. rewrite nodes_perm_insert in Hnd. apply NoDup_cons in Hnd as [Hen _].
  assert (e ∈ nodes l (pre ++ e :: post)) as Hin by (rewrite nodes_perm_insert; set_solver).
  exists h'. split; [done|]. split; [|split; [done|split; [|split]]].
  - apply (dls_set h); [done|done|done|]. intros x l' xs' Hx Hne Hl'.
    apply (dls_disj h F Hd l l' (pre ++ e :: post) xs' x); [done|done|done|]. rewrite nodes_perm_insert. by right.
  - intros (l1 & xs1 & [[<- <-]|[Hne H1]]%lookup_insert_Some & Hx); [done|].
    by apply (dls_disj h F Hd l l1 (pre ++ e :: post) xs1 e).
  - by apply (dl_nodes_nonnull h l (pre ++ e :: post)).
  - rewrite Hf by done. by apply (dl_cell h l (pre ++ e :: post)).
Qed.

(** ** The lists of an array of buckets *)

Definition bucket_addr (base : Z) (i : nat) : Z := base + 16 * Z.of_nat i.

Definition tabmap (base : Z) (bs : list (list Z)) : gmap Z (list Z) :=
  list_to_map (imap (fun i xs => (bucket_addr base i, xs)) bs).

Lemma lookup_tabmap base bs l xs :
  tabmap base bs !! l = Some xs <-> exists i, l = bucket_addr base i /\ bs !! i = Some xs.
Proof.
  unfold tabmap. rewrite <- elem_of_list_to_map.
  - rewrite elem_of_lookup_imap. split.
    + intros (i & y & [= -> ->] & Hi). eauto.
    + intros (i & -> & Hi). eauto.
  - rewrite fmap_imap. apply NoDup_alt. intros i j x. unfold compose. rewrite !list_lookup_imap.
    intros (u & _ & Hx)%fmap_Some (v & _ & Hy)%fmap_Some. simpl in *. unfold bucket_addr in *. lia.
Qed.

Lemma tabmap_insert base bs i xs :
  (i < length bs)%nat -> tabmap base (<[i := xs]> bs) = <[bucket_addr base i := xs]> (tabmap base bs).
Proof.
  intros Hi. apply map_eq_iff. intros l. apply option_eq. intros ys.
  rewrite lookup_tabmap, lookup_insert_Some, lookup_tabmap. split.
  - intros (j & -> & [(-> & <- & _)|[Hne Hj]]%list_lookup_insert_Some); [by left|]. right.
    split; [unfold bucket_addr; lia|eauto].
  - intros [[<- <-]|[Hne (j & -> & Hj)]].
    + exists i. by rewrite list_lookup_insert_eq.
    + exists j. rewrite list_lookup_insert_ne; [done|]. intros ->. done.
Qed.

(** Nodes of the array itself. *)
Lemma tabmap_heads base bs i :
  (i < length bs)%nat -> owned (tabmap base bs) (bucket_addr base i) /\ owned (tabmap base bs) (bucket_addr base i + 8).
Proof.
  intros Hi. destruct (lookup_lt_is_Some_2 bs i Hi) as [xs Hxs].
  assert (tabmap base bs !! bucket_addr base i = Some xs) as H by (apply lookup_tabmap; eauto).
  split; exists (bucket_addr base i), xs; (split; [done|]); unfold nodes, head_of, tail_of; set_solver.
Qed.

Lemma tabmap_elem base bs e : e ∈ mjoin bs -> owned (tabmap base bs) e.
Proof.
  intros (xs & Hx & Hin)%list_elem_of_join. apply list_elem_of_lookup in Hin as (i & Hi).
  exists (bucket_addr base i), xs. split; [apply lookup_tabmap; eauto|]. unfold nodes. set_solver.
Qed.

Lemma join_insert (bs : list (list Z)) i xs :
  bs !! i = Some xs ->
  exists rest, mjoin bs ≡ₚ xs ++ rest /\ forall ys, mjoin (<[i := ys]> bs) ≡ₚ ys ++ rest.
Proof.
  intros Hi. pose proof (lookup_lt_Some _ _ _ Hi). exists (mjoin (take i bs) ++ mjoin (drop (S i) bs)). split.
  - rewrite <- (take_drop_middle bs i xs Hi) at 1. rewrite join_app. simpl. solve_Permutation.
  - intros ys. rewrite insert_take_drop by done. rewrite join_app. simpl. solve_Permutation.
Qed.

Lemma join_replicate_nil n : mjoin (replicate n []) = @nil Z.
Proof. induction n as [|n IH]; [done|]. exact IH. Qed.

(** ** Memory blocks *)

Lemma elem_of_block_cells p n c : c ∈ block_cells p n <-> exists k, c = p + 8 * k /\ 0 <= k < Z.of_nat n.
Proof.
  unfold block_cells. rewrite list_elem_of_fmap. split.
  - intros (k & -> & Hk%elem_of_seqZ). exists k. lia.
  - intros (k & -> & Hk). exists k. split; [done|]. apply elem_of_seqZ. lia.
Qed.

Lemma lookup_foldr_insert (f : Z -> list_elem) cs (h : heap) c :
  foldr (fun c h => <[c := f c]> h) h cs !! c = if decide (c ∈ cs) then Some (f c) else h !! c.
Proof.
  induction cs as [|c0 cs IH]; cbn [foldr]; [by rewrite decide_False by set_solver|].
  destruct (decide (c = c0)) as [->|Hne]; [rewrite lookup_insert_eq, decide_True; [done|set_solver]|].
  rewrite lookup_insert_ne, IH by done. destruct (decide (c ∈ cs)), (decide (c ∈ c0 :: cs)); set_solver.
Qed.

Lemma lookup_foldr_delete cs (h : heap) c :
  foldr delete h cs !! c = if decide (c ∈ cs) then None else h !! c.
Proof.
  induction cs as [|c0 cs IH]; cbn [foldr]; [by rewrite decide_False by set_solver|].
  destruct (decide (c = c0)) as [->|Hne]; [rewrite lookup_delete_eq, decide_True; [done|set_solver]|].
  rewrite lookup_delete_ne, IH by done. destruct (decide (c ∈ cs)), (decide (c ∈ c0 :: cs)); set_solver.
Qed.

(** The cells of an array of buckets are the heads and tails of its lists. *)
Lemma block_bucket p n c :
  c ∈ block_cells p (2 * n) <-> exists i, (i < n)%nat /\ (c = bucket_addr p i \/ c = bucket_addr p i + 8).
Proof.
  rewrite elem_of_block_cells. unfold bucket_addr. split.
  - intros (k & -> & Hk). exists (Z.to_nat (k / 2)). pose proof (Z.div_mod k 2). pose proof (Z.mod_pos_bound k 2).
    assert (0 <= k / 2) by (apply Z.div_pos; lia). lia.
  - intros (i & Hi & [->| ->]); [exists (2 * Z.of_nat i)|exists (2 * Z.of_nat i + 1)]; lia.
Qed.

Lemma node_cases l xs x : x ∈ nodes l xs -> x = l \/ x = l + 8 \/ x ∈ xs.
Proof. unfold nodes, head_of, tail_of. set_solver. Qed.

Lemma node_head l xs : l ∈ nodes l xs /\ l + 8 ∈ nodes l xs.
Proof. unfold nodes, head_of, tail_of. set_solver. Qed.

Lemma tabmap_snoc base bs xs : tabmap base (bs ++ [xs]) = <[bucket_addr base (length bs) := xs]> (tabmap base bs).
Proof.
  apply map_eq_iff. intros l. apply option_eq. intros ys. rewrite lookup_tabmap, lookup_insert_Some, lookup_tabmap. split.
  - intros (j & -> & [Hj|[Hj Hs]]%lookup_app_Some).
    + right. pose proof (lookup_lt_Some _ _ _ Hj). split; [unfold bucket_addr; lia|eauto].
    + apply list_lookup_singleton_Some in Hs as [Hs <-]. left. split; [f_equal; lia|done].
  - intros [[<- <-]|[Hne (j & -> & Hj)]].
    + exists (length bs). split; [done|]. rewrite lookup_app_r, Nat.sub_diag by lia. done.
    + exists j. split; [done|]. by apply lookup_app_l_Some.
Qed.

(** *** Powers of two *)

Lemma turn_off_spec m :
  0 < m < two32 ->
  (turn_off_least_1bit m = 0 /\ m = 2 ^ Z.log2 m) \/
  (0 < turn_off_least_1bit m < m /\ Z.log2 (turn_off_least_1bit m) = Z.log2 m).
Proof.
  intros Hm. unfold turn_off_least_1bit. rewrite u32_small by (unfold is_u32; lia).
  pose proof (Z.log2_spec m ltac:(lia)) as [Hlo Hhi]. pose proof (Z.log2_nonneg m) as Hk. set (k := Z.log2 m) in *.
  destruct (Z.eq_dec m (2 ^ k)) as [He|Hne].
  - left. split; [|done]. rewrite He. replace (2 ^ k - 1) with (Z.ones k) by (rewrite Z.ones_equiv; lia).
    rewrite Z.land_ones by done. apply Z.mod_same. lia.
  - right. assert (Z.testbit (Z.land m (m - 1)) k = true) as Hb.
    { rewrite Z.land_spec. unfold k at 1. rewrite (Z.bit_log2 m) by lia. cbn [andb].
      replace k with (Z.log2 (m - 1)); [apply Z.bit_log2; lia|]. apply Z.log2_unique; lia. }
    assert (0 <= Z.land m (m - 1)) by (apply Z.land_nonneg; lia).
    assert (Z.land m (m - 1) <= m - 1).
    { apply Z.ldiff_le; [lia|]. apply Z.bits_inj'. intros j Hj. rewrite Z.ldiff_spec, Z.land_spec, Z.bits_0.
      by destruct (Z.testbit m j), (Z.testbit (m - 1) j). }
    assert (2 ^ k <= Z.land m (m - 1)) as Hge.
    { destruct (Z_lt_le_dec (Z.land m (m - 1)) (2 ^ k)) as [Hlt|]; [|done]. rewrite (testbit_high _ k k) in Hb by lia. done. }
    pose proof (Z.pow_pos_nonneg 2 k ltac:(lia) Hk). split; [lia|]. apply Z.log2_unique; lia.
Qed.

(** The loop ends with the greatest power of two that is not greater. *)
Lemma round_to_power_spec n : 0 < n < two32 -> round_to_power n = Ret (2 ^ Z.log2 n).
Proof.
  intros Hn. unfold round_to_power.
  edestruct (loop_rule (fun m => 0 < m < two32 /\ Z.log2 m = Z.log2 n) (fun r => r = 2 ^ Z.log2 n) (fun m => m))
    as (r & Hr & ->); [| | | |exact Hr].
  - lia.
  - intros m [Hm Hlog]. unfold is_power_of_2. rewrite (proj2 (Z.eqb_neq m 0)) by lia. cbn [negb andb].
    destruct (turn_off_spec m Hm) as [[-> He]|[Hlt He]].
    + left. exists m. split; [done|]. by rewrite <- Hlog.
    + right. rewrite (proj2 (Z.eqb_neq _ 0)) by lia. eexists. split; [done|]. split; [|lia]. split; [lia|congruence].
  - done.
  - lia.
Qed.

(** ** The invariant of a table *)

Section Table.
Context (hash_fn : Z -> Z) (less : Z -> Z -> bool) (place : hstate -> Z -> Z) (junk : Z -> list_elem).

(** Elements are equal when neither is less. *)
Definition equal (a b : Z) : Prop := less a b = false /\ less b a = false.

#[local] Instance equal_dec a b : Decision (equal a b).
Proof. unfold equal. apply _. Defined.

Lemma equal_sym a b : equal a b -> equal b a.
Proof. unfold equal. tauto. Qed.

(** What the callbacks promise (hash.h): equality is transitive, and equal
    elements have equal hash values, of type [unsigned]. *)
Hypothesis equal_trans : forall a b c, equal a b -> equal b c -> equal a c.
Hypothesis hash_equal : forall a b, equal a b -> hash_fn a = hash_fn b.
Hypothesis hash_range : forall e, is_u32 (hash_fn e).

(** What [malloc] promises: a new block lies in unused memory. *)
Hypothesis place_fresh : forall s size, place s size <> NULL ->
  0 < place s size /\ forall c, c ∈ block_cells (place s size) (Z.to_nat (size / 8)) -> cells s !! c = None.

(** The bucket of an element among [n]. *)
Definition bucket_of (n : nat) (e : Z) : nat := Z.to_nat (Z.land (hash_fn e) (Z.of_nat n - 1)).

Definition placed (bs : list (list Z)) : Prop :=
  forall i xs e, bs !! i = Some xs -> e ∈ xs -> bucket_of (length bs) e = i.

(** The bound on the number of elements holds as each takes 8 bytes of a
    32-bit address space. *)
Record rep (s : hstate) (bs : list (list Z)) : Prop := {
  rep_cnt : bucket_cnt (tab s) = len bs;
  rep_pos : 0 < len bs < 268435456;
  rep_dls : dls (cells s) (tabmap (buckets (tab s)) bs);
  rep_placed : placed bs;
  rep_elems : elem_cnt (tab s) = len (mjoin bs);
  rep_small : len (mjoin bs) < 536870912;
  rep_distinct : forall x y, x ∈ mjoin bs -> y ∈ mjoin bs -> equal x y -> x = y;
  rep_block : 0 < buckets (tab s) /\ blocks s !! buckets (tab s) = Some (2 * length bs)%nat }.

Lemma bucket_of_lt n e : (0 < n)%nat -> (bucket_of n e < n)%nat.
Proof.
  intros Hn. unfold bucket_of. pose proof (hash_range e) as Hr. unfold is_u32 in Hr.
  destruct (Z.eq_dec (Z.of_nat n) 1) as [He|Hne]; [rewrite He; simpl; rewrite Z.land_0_r; simpl; lia|].
  pose proof (Z.land_nonneg (hash_fn e) (Z.of_nat n - 1)) as H1.
  assert (Z.land (hash_fn e) (Z.of_nat n - 1) <= Z.of_nat n - 1); [|lia].
  rewrite Z.land_comm. apply Z.ldiff_le; [lia|]. apply Z.bits_inj'. intros j Hj.
  rewrite Z.ldiff_spec, Z.land_spec, Z.bits_0. by destruct (Z.testbit _ j), (Z.testbit _ j).
Qed.

(** ** Searching *)

Lemma run_lists {A} (m : ST heap A) s a h :
  m (cells s) = Ret (a, h) -> lists m s = Ret (a, mkHst h (blocks s) (tab s)).
Proof. unfold lists. by intros ->. Qed.

(** Reading leaves the state as it is. *)
Lemma run_lists_ro {A} (m : ST heap A) s a : m (cells s) = Ret (a, cells s) -> lists m s = Ret (a, s).
Proof. intros H. rewrite (run_lists m s a _ H). by destruct s. Qed.

Lemma run_find_bucket s n e :
  bucket_cnt (tab s) = Z.of_nat n -> 0 < Z.of_nat n < 268435456 ->
  find_bucket hash_fn e s = Ret (bucket_addr (buckets (tab s)) (bucket_of n e), s).
Proof.
  intros Hc Hn. unfold find_bucket, sbind, get, sret. rewrite Hc.
  rewrite u32_small by (unfold is_u32, two32; lia).
  unfold bucket_addr, bucket_of, sizeof_list. rewrite Z2Nat.id; [done|].
  apply Z.land_nonneg. left. by apply hash_range.
Qed.

Lemma rep_bucket s bs i xs :
  rep s bs -> bs !! i = Some xs ->
  dl (cells s) (bucket_addr (buckets (tab s)) i) xs /\ tabmap (buckets (tab s)) bs !! bucket_addr (buckets (tab s)) i = Some xs.
Proof.
  intros R Hi. assert (tabmap (buckets (tab s)) bs !! bucket_addr (buckets (tab s)) i = Some xs) as H by (apply lookup_tabmap; eauto).
  split; [|done]. by apply (dls_dl _ _ (rep_dls _ _ R)).
Qed.

Lemma join_length_le (bs : list (list Z)) i xs : bs !! i = Some xs -> (length xs <= length (mjoin bs))%nat.
Proof. intros Hi. destruct (join_insert bs i xs Hi) as (rest & Hp & _). rewrite Hp, length_app. lia. Qed.

Lemma run_find_elem s l xs e :
  dl (cells s) l xs -> len xs < two32 ->
  exists r, find_elem less l e s = Ret (r, s) /\
    ((r ∈ xs /\ equal r e) \/ (r = NULL /\ forall x, x ∈ xs -> ~ equal x e)).
Proof.
  intros Hd Hl. unfold find_elem. sstep (run_lists_ro _ _ _ (run_list_begin _ _ _ Hd)).
  edestruct (sloop_ind (length xs)
    (fun n i s' => s' = s /\ exists pre post, xs = pre ++ post /\ i = cur l post /\ n = length post /\
       forall x, x ∈ pre -> ~ equal x e)
    (fun r s' => s' = s /\ ((r ∈ xs /\ equal r e) \/ (r = NULL /\ forall x, x ∈ xs -> ~ equal x e))))
    as (r & s' & Hr & -> & Hq); [| | |exists r; split; [exact Hr|done]].
  - intros n i s' (-> & pre & post & -> & -> & -> & Hpre).
    sstep (run_lists_ro _ _ _ (run_list_end _ _ _ Hd)). rewrite (cur_end (cells s) l pre post Hd).
    destruct post as [|x post]; cbn [negb].
    + left. exists NULL, s. split; [done|]. split; [done|]. right. rewrite app_nil_r. done.
    + change (cur l (x :: post)) with x. destruct (decide (equal x e)) as [He|He].
      * left. exists x, s. destruct He as [H1 H2]. rewrite H1, H2. split; [done|]. split; [done|]. left. split; [set_solver|done].
      * right. exists (length post), (cur l post), s.
        replace (negb (less x e) && negb (less e x)) with false
          by (unfold equal in He; destruct (less x e), (less e x); tauto || done).
        sstep (run_lists_ro _ _ _ (run_list_next _ _ _ _ _ Hd)). split; [done|]. split; [|simpl; lia].
        split; [done|]. exists (pre ++ [x]), post. rewrite <- app_assoc. split; [done|]. split; [done|]. split; [done|].
        intros y [Hy| ->%list_elem_of_singleton]%elem_of_app; [by apply Hpre|done].
  - split; [done|]. exists [], xs. split; [done|]. split; [done|]. split; [done|]. set_solver.
  - done.
Qed.

(** Equal elements are in the same bucket. *)
Lemma equal_bucket s bs e x :
  rep s bs -> x ∈ mjoin bs -> equal x e ->
  exists xs, bs !! bucket_of (length bs) e = Some xs /\ x ∈ xs.
Proof.
  intros R (xs & Hx & Hin)%list_elem_of_join He. apply list_elem_of_lookup in Hin as (i & Hi).
  exists xs. split; [|done]. rewrite <- (rep_placed _ _ R i xs x Hi Hx) in Hi.
  unfold bucket_of in *. by rewrite <- (hash_equal x e He).
Qed.

Lemma bucket_exists s bs e : rep s bs -> exists xs, bs !! bucket_of (length bs) e = Some xs.
Proof. intros R. pose proof (rep_pos _ _ R). apply lookup_lt_is_Some_2, bucket_of_lt. lia. Qed.

(** The search that every operation starts with. *)
Lemma run_search s bs e :
  rep s bs ->
  exists xs r, bs !! bucket_of (length bs) e = Some xs /\
    find_elem less (bucket_addr (buckets (tab s)) (bucket_of (length bs) e)) e s = Ret (r, s) /\
    ((r ∈ xs /\ r ∈ mjoin bs /\ equal r e /\ r <> NULL) \/ (r = NULL /\ forall x, x ∈ mjoin bs -> ~ equal x e)).
Proof.
  intros R. destruct (bucket_exists s bs e R) as [xs Hxs]. destruct (rep_bucket s bs _ xs R Hxs) as [Hd _].
  pose proof (join_length_le bs _ xs Hxs). pose proof (rep_small _ _ R).
  destruct (run_find_elem s _ xs e Hd) as (r & Hr & Hq); [unfold two32; lia|]. exists xs, r. split; [done|]. split; [done|].
  destruct Hq as [[Hin He]|[-> Hno]]; [left|right].
  - split; [done|]. split; [|split; [done|]].
    + apply list_elem_of_join. exists xs. split; [done|]. by eapply list_elem_of_lookup_2.
    + eapply dl_nodes_nonnull; [exact Hd|]. unfold nodes. set_solver.
  - split; [done|]. intros x Hx He. destruct (equal_bucket s bs e x R Hx He) as (xs' & Hxs' & Hin).
    rewrite Hxs in Hxs'. injection Hxs' as <-. by apply (Hno x).
Qed.

(** ** Insertion and removal of an element *)

(** Memory that is not the table's stays as it is. *)
Definition keeps (s : hstate) (bs : list (list Z)) (s' : hstate) : Prop :=
  forall x v, ~ owned (tabmap (buckets (tab s)) bs) x -> cells s !! x = Some v -> cells s' !! x = Some v.

(** An element outside of the table that can be linked into it. *)
Definition linkable (s : hstate) (bs : list (list Z)) (e : Z) : Prop :=
  e <> NULL /\ is_Some (cells s !! e) /\ ~ owned (tabmap (buckets (tab s)) bs) e.

Lemma placed_insert bs i xs :
  placed bs -> (i < length bs)%nat -> (forall e, e ∈ xs -> bucket_of (length bs) e = i) -> placed (<[i := xs]> bs).
Proof.
  intros Hp Hi Hx j ys e. rewrite length_insert.
  intros [(-> & <- & _)|[Hne Hj]]%list_lookup_insert_Some He; [by apply Hx|by apply (Hp j ys)].
Qed.

Lemma run_insert_elem s bs xs e :
  rep s bs -> linkable s bs e -> bs !! bucket_of (length bs) e = Some xs ->
  (forall x, x ∈ mjoin bs -> ~ equal x e) -> len (mjoin bs) + 1 < 536870912 ->
  exists s', insert_elem (bucket_addr (buckets (tab s)) (bucket_of (length bs) e)) e s = Ret (tt, s') /\
    rep s' (<[bucket_of (length bs) e := e :: xs]> bs) /\ buckets (tab s') = buckets (tab s) /\
    (forall x v, x <> e -> ~ owned (tabmap (buckets (tab s)) bs) x -> cells s !! x = Some v -> cells s' !! x = Some v).
Proof.
  intros R (Hn & Hc & Hfree) Hxs Hno Hlen. pose proof R as [Rc Rp Rd Rpl Re Rs Rdi [Rb Rbl]].
  set (i := bucket_of (length bs) e) in *. pose proof (lookup_lt_Some _ _ _ Hxs) as Hi.
  destruct (rep_bucket s bs i xs R Hxs) as [_ Hm].
  destruct (dls_push _ _ _ _ e Rd Hm Hfree Hn Hc) as (h' & Hr & Hd & Hf).
  destruct (join_insert bs i xs Hxs) as (rest & Hp1 & Hp2).
  assert (mjoin (<[i := e :: xs]> bs) ≡ₚ e :: mjoin bs) as Hp by (rewrite Hp2, Hp1; done).
  eexists. split; [unfold insert_elem, sbind, with_tab; by apply run_lists|]. split; [|split; [done|]].
  - constructor; cbn [tab cells blocks elem_cnt bucket_cnt buckets]; rewrite ?length_insert; try done.
    + by rewrite tabmap_insert.
    + apply placed_insert; [done|done|]. intros x [->|Hx]%elem_of_cons; [done|]. by apply (Rpl i xs).
    + rewrite Hp, Re. simpl length. rewrite u32_small by (unfold is_u32, two32; lia). lia.
    + rewrite Hp. simpl length. lia.
    + intros x y. rewrite Hp. intros [->|Hx]%elem_of_cons [->|Hy]%elem_of_cons Heq; [done| | |by apply Rdi].
      * destruct (Hno y Hy (equal_sym _ _ Heq)).
      * destruct (Hno x Hx Heq).
  - intros x v Hne Hx Hv. cbn [cells]. rewrite Hf; [done|]. rewrite (nodes_perm_insert _ [] e xs).
    intros [->|Hin]%elem_of_cons; [done|]. apply Hx. by eexists _, _.
Qed.

Lemma owned_insert_sub (F : gmap Z (list Z)) l xs xs' x :
  F !! l = Some xs -> (forall y, y ∈ xs' -> y ∈ xs) -> owned (<[l := xs']> F) x -> owned F x.
Proof.
  intros Hl Hs (l1 & ys & [[<- <-]|[Hne H1]]%lookup_insert_Some & Hx); [|by exists l1, ys].
  exists l, xs. split; [done|]. unfold nodes in *. set_solver.
Qed.

Lemma run_remove_elem s bs i xs r :
  rep s bs -> bs !! i = Some xs -> r ∈ xs ->
  exists s' xs', remove_elem r s = Ret (tt, s') /\ rep s' (<[i := xs']> bs) /\ buckets (tab s') = buckets (tab s) /\
    xs ≡ₚ r :: xs' /\ mjoin bs ≡ₚ r :: mjoin (<[i := xs']> bs) /\ linkable s' (<[i := xs']> bs) r /\
    (forall x, owned (tabmap (buckets (tab s)) (<[i := xs']> bs)) x -> owned (tabmap (buckets (tab s)) bs) x) /\
    keeps s bs s'.
Proof.
  intros R Hxs (pre & post & ->)%list_elem_of_split. pose proof R as [Rc Rp Rd Rpl Re Rs Rdi [Rb Rbl]].
  pose proof (lookup_lt_Some _ _ _ Hxs) as Hi. destruct (rep_bucket s bs i _ R Hxs) as [_ Hm].
  destruct (dls_remove _ _ _ _ _ _ Rd Hm) as (h' & Hr & Hd & Hf & Hno & Hn & Hc).
  destruct (join_insert bs i _ Hxs) as (rest & Hp1 & Hp2).
  assert (mjoin bs ≡ₚ r :: mjoin (<[i := pre ++ post]> bs)) as Hp by (rewrite Hp2, Hp1; solve_Permutation).
  assert (len (mjoin bs) = len (mjoin (<[i := pre ++ post]> bs)) + 1) as Hlen by (rewrite Hp at 1; simpl length; lia).
  eexists _, (pre ++ post). split; [unfold remove_elem, sbind, with_tab; erewrite run_lists by (cbn [cells]; exact Hr); done|].
  split; [|split; [done|split; [solve_Permutation|split; [done|split; [|split]]]]].
  - constructor; cbn [tab cells blocks elem_cnt bucket_cnt buckets]; rewrite ?length_insert; try done.
    + by rewrite tabmap_insert.
    + apply placed_insert; [done|done|]. intros x Hx. apply (Rpl i _ x Hxs). set_solver.
    + rewrite Re, Hlen. rewrite u32_small by (unfold is_u32, two32; lia). lia.
    + lia.
    + intros x y Hx Hy. apply Rdi; rewrite Hp; by right.
  - split; [done|]. cbn [cells tab buckets]. split; [done|]. by rewrite tabmap_insert.
  - intros x. rewrite tabmap_insert by done. apply (owned_insert_sub _ _ (pre ++ r :: post)); [done|set_solver].
  - intros x v Hx Hv. cbn [cells]. rewrite Hf; [done|]. intros Hin. apply Hx. eexists _, _. split; [exact Hm|].
    rewrite nodes_perm_insert. by right.
Qed.

(** ** Rehashing *)

Lemma owned_cell h F x : dls h F -> owned F x -> is_Some (h !! x).
Proof. intros Hd (l & xs & Hl & Hx). eapply dl_cell; [by apply (dls_dl _ _ Hd)|done]. Qed.

Lemma owned_none F l : ~ owned F l -> F !! l = None.
Proof.
  intros Ho. destruct (F !! l) as [xs|] eqn:Hl; [|done]. destruct Ho. exists l, xs. split; [done|apply node_head].
Qed.

Lemma owned_union F G x : owned (F ∪ G) x -> owned F x \/ owned G x.
Proof. intros (l & xs & [H|[_ H]]%lookup_union_Some_raw & Hx); [left|right]; by exists l, xs. Qed.

Lemma owned_replicate p j x :
  owned (tabmap p (replicate j [])) x -> exists i, (i < j)%nat /\ (x = bucket_addr p i \/ x = bucket_addr p i + 8).
Proof.
  intros (l & xs & (i & -> & [-> Hi]%lookup_replicate)%lookup_tabmap & Hx). exists i. split; [done|].
  apply node_cases in Hx as [->|[->|Hnil%elem_of_nil]]; [by left|by right|done].
Qed.

(** [list_init] adds an empty list to a family. *)
Lemma dls_init h F l :
  dls h F -> 0 < l -> ~ owned F l -> ~ owned F (l + 8) -> is_Some (h !! l) -> is_Some (h !! (l + 8)) ->
  exists h', list_init l h = Ret (tt, h') /\ dls h' (<[l := []]> F) /\
    (forall x, x <> l -> x <> l + 8 -> h' !! x = h !! x) /\ is_Some (h' !! l) /\ is_Some (h' !! (l + 8)).
Proof.
  intros Hd Hl H1 H2 C1 C2.
  destruct (run_list_init h l) as (h1 & Hr & Hdl & Hf); [unfold NULL; lia|unfold tail_of, NULL; lia|done|done|].
  exists h1. split; [done|]. split; [|split; [done|split; apply (dl_cell h1 l []); (done || apply node_head)]].
  apply (dls_set h); [done|done|intros x Hx; apply Hf; intros ->; apply Hx, node_head|].
  intros x l' xs' Hx Hne Hl' Hx'. apply node_cases in Hx as [->|[->|Hnil%elem_of_nil]]; [apply H1|apply H2|done]; by exists l', xs'.
Qed.

(** New buckets are lists of their own. *)
Lemma run_init_buckets s F p n :
  dls (cells s) F -> 0 < p -> Z.of_nat n < two32 ->
  (forall c, c ∈ block_cells p (2 * n) -> ~ owned F c /\ is_Some (cells s !! c)) ->
  exists h', init_buckets p (Z.of_nat n) s = Ret (tt, mkHst h' (blocks s) (tab s)) /\
    dls h' (F ∪ tabmap p (replicate n [])) /\ (forall x, x ∉ block_cells p (2 * n) -> h' !! x = cells s !! x).
Proof.
  intros Hd Hp Hn Hc. unfold init_buckets.
  edestruct (sloop_ind n
    (fun k i s' => exists j h', (k + j = n)%nat /\ i = Z.of_nat j /\ s' = mkHst h' (blocks s) (tab s) /\
       dls h' (F ∪ tabmap p (replicate j [])) /\ (forall c, c ∈ block_cells p (2 * n) -> is_Some (h' !! c)) /\
       (forall x, x ∉ block_cells p (2 * n) -> h' !! x = cells s !! x))
    (fun (_ : unit) s' => exists h', s' = mkHst h' (blocks s) (tab s) /\ dls h' (F ∪ tabmap p (replicate n [])) /\
       (forall x, x ∉ block_cells p (2 * n) -> h' !! x = cells s !! x)))
    as ([] & s' & Hr & h' & -> & Hq); [| | |exists h'; split; [exact Hr|done]].
  - intros k i s' (j & h & Hk & -> & -> & Hdj & Hcell & Hf). destruct (Z.ltb_spec (Z.of_nat j) (Z.of_nat n)) as [Hlt|Hge].
    + right. set (l := bucket_addr p j).
      assert (l ∈ block_cells p (2 * n) /\ l + 8 ∈ block_cells p (2 * n)) as [Hl1 Hl2].
      { split; apply block_bucket; exists j; (split; [lia|]); [by left|by right]. }
      destruct (dls_init h (F ∪ tabmap p (replicate j [])) l) as (h1 & Hr1 & Hd1 & Hf1 & C1 & C2);
        [done|unfold l, bucket_addr; lia| | |by apply Hcell|by apply Hcell|];
        [intros [H|(i' & Hi' & Hx)%owned_replicate]%owned_union;
           [by eapply (Hc l)|unfold l, bucket_addr in Hx; lia]|
         intros [H|(i' & Hi' & Hx)%owned_replicate]%owned_union;
           [by eapply (Hc (l + 8))|unfold l, bucket_addr in Hx; lia]|].
      exists (k - 1)%nat, (Z.of_nat j + 1), (mkHst h1 (blocks s) (tab s)).
      split; [unfold sizeof_list; erewrite sbind_run; [|apply run_lists; exact Hr1]; done|].
      split; [|lia]. exists (S j), h1. split; [lia|]. split; [lia|]. split; [done|]. split; [|split].
      * rewrite replicate_S_end, tabmap_snoc, length_replicate. fold l.
        rewrite <- insert_union_r by (apply owned_none, Hc; done). done.
      * intros c Hcc. destruct (decide (c = l)) as [->|]; [done|]. destruct (decide (c = l + 8)) as [->|]; [done|].
        rewrite Hf1 by done. by apply Hcell.
      * intros x Hx. rewrite Hf1; [by apply Hf|intros ->; done|intros ->; done].
    + left. exists tt, (mkHst h (blocks s) (tab s)). split; [done|]. exists h. replace j with n in Hdj by lia. done.
  - exists O, (cells s). split; [lia|]. split; [done|]. split; [by destruct s|].
    split; [|split; [intros c Hcc; by apply Hc|done]]. simpl. unfold tabmap. simpl. by rewrite map_union_empty.
  - done.
Qed.

(** The state of [rehash] while the elements move from the buckets [bs0] at
    [old] to [n] buckets at [nw]: some buckets [ob] and [nb] hold them. *)
Section Moving.
Context (s0 : hstate) (old nw : Z) (bs0 : list (list Z)) (n : nat).
Hypothesis n_pos : 0 < Z.of_nat n < 268435456.
Hypothesis apart : forall i j, (i < length bs0)%nat -> (j < n)%nat -> bucket_addr old i <> bucket_addr nw j.
Hypothesis s0_tab : bucket_cnt (tab s0) = Z.of_nat n /\ buckets (tab s0) = nw.

Record moving (s : hstate) (ob nb : list (list Z)) : Prop := {
  mv_tab : tab s = tab s0 /\ blocks s = blocks s0;
  mv_len : length ob = length bs0 /\ length nb = n;
  mv_dls : dls (cells s) (tabmap old ob ∪ tabmap nw nb);
  mv_placed : placed nb;
  mv_perm : mjoin ob ++ mjoin nb ≡ₚ mjoin bs0;
  mv_frame : forall x, ~ owned (tabmap old bs0) x -> x ∉ block_cells nw (2 * n) -> cells s !! x = cells s0 !! x }.

Lemma old_node i ys x :
  (i < length bs0)%nat -> (forall y, y ∈ ys -> y ∈ mjoin bs0) -> x ∈ nodes (bucket_addr old i) ys -> owned (tabmap old bs0) x.
Proof.
  intros Hi Hys [->|[->|Hx]]%node_cases; [by apply tabmap_heads|by apply tabmap_heads|by apply tabmap_elem, Hys].
Qed.

Lemma new_node j ys x :
  (j < n)%nat -> (forall y, y ∈ ys -> y ∈ mjoin bs0) -> x ∈ nodes (bucket_addr nw j) ys ->
  owned (tabmap old bs0) x \/ x ∈ block_cells nw (2 * n).
Proof.
  intros Hj Hys [Hx|[Hx|Hx]]%node_cases; [right; apply block_bucket; eauto..|left; by apply tabmap_elem, Hys].
Qed.

Lemma old_not_new ob j : length ob = length bs0 -> (j < n)%nat -> tabmap old ob !! bucket_addr nw j = None.
Proof.
  intros Hl Hj. destruct (tabmap old ob !! bucket_addr nw j) as [xs|] eqn:H; [|done].
  apply lookup_tabmap in H as (i & He & Hi). apply lookup_lt_Some in Hi. symmetry in He.
  destruct (apart i j); [lia|done|done].
Qed.

(** One element moves to its new bucket. *)
Lemma move_step s ob nb i e xs :
  moving s ob nb -> ob !! i = Some (e :: xs) ->
  exists s1 s2 b nb', find_bucket hash_fn e s = Ret (b, s) /\
    lists (list_next e) s = Ret (cur (bucket_addr old i) xs, s) /\
    lists (list_remove e) s = Ret (cur (bucket_addr old i) xs, s1) /\
    lists (list_push_front b e) s1 = Ret (tt, s2) /\ moving s2 (<[i := xs]> ob) nb'.
Proof.
  intros M Hi. pose proof M as [[Mt Mb] [Ml1 Ml2] Md Mp Mj Mf]. pose proof (lookup_lt_Some _ _ _ Hi) as Hil.
  assert ((tabmap old ob ∪ tabmap nw nb) !! bucket_addr old i = Some (e :: xs)) as Hl.
  { apply lookup_union_Some_l, lookup_tabmap. eauto. }
  set (j := bucket_of n e). assert (j < n)%nat as Hj by (apply bucket_of_lt; lia).
  destruct (lookup_lt_is_Some_2 nb j) as [ys Hys]; [lia|].
  destruct (dls_remove _ _ _ [] e xs Md Hl) as (h1 & Hr1 & Hd1 & Hf1 & Hno & Hne & Hcell). simpl app in *.
  rewrite insert_union_l, <- tabmap_insert in Hd1, Hno by done.
  assert ((tabmap old (<[i := xs]> ob) ∪ tabmap nw nb) !! bucket_addr nw j = Some ys) as Hl2.
  { rewrite lookup_union_r by (apply old_not_new; [by rewrite length_insert|done]). apply lookup_tabmap. eauto. }
  destruct (dls_push h1 _ _ _ e Hd1 Hl2 Hno Hne Hcell) as (h2 & Hr2 & Hd2 & Hf2).
  rewrite insert_union_r, <- tabmap_insert in Hd2 by (first [by apply old_not_new; [rewrite length_insert|]|lia]).
  destruct (join_insert ob i _ Hi) as (r1 & Hp1 & Hq1). destruct (join_insert nb j _ Hys) as (r2 & Hp2 & Hq2).
  assert (forall y, y ∈ e :: xs -> y ∈ mjoin bs0) as Hin1 by (intros y Hy; rewrite <- Mj, Hp1; set_solver).
  assert (forall y, y ∈ e :: ys -> y ∈ mjoin bs0) as Hin2 by (intros y Hy; rewrite <- Mj, Hp1, Hp2; set_solver).
  exists (mkHst h1 (blocks s) (tab s)), (mkHst h2 (blocks s) (tab s)), (bucket_addr nw j), (<[j := e :: ys]> nb).
  destruct s0_tab as [Hb0 Hn0]. split; [rewrite (run_find_bucket s n e) by (rewrite ?Mt; done); by rewrite Mt, Hn0|].
  split; [apply run_lists_ro, (run_list_next _ _ [] e xs), (dls_dl _ _ Md _ _ Hl)|].
  split; [by apply run_lists|]. split; [by apply (run_lists _ (mkHst h1 (blocks s) (tab s)))|].
  constructor; cbn [tab blocks cells]; rewrite ?length_insert; [done|done|done| | |].
  - apply placed_insert; [done|lia|]. rewrite Ml2. intros x [->|Hx]%elem_of_cons; [done|]. rewrite <- Ml2. by apply (Mp j ys).
  - rewrite Hq1, Hq2, <- Mj, Hp1, Hp2. solve_Permutation.
  - intros x Hx Hb. rewrite Hf2, Hf1; [by apply Mf| |].
    + intros Hc. apply Hx, (old_node i xs); [lia|intros y Hy; apply Hin1; by right|done].
    + intros Hc. by destruct (new_node j (e :: ys) x Hj Hin2 Hc).
Qed.

Lemma insert_insert_list {A} (l : list A) i x y : <[i := x]> (<[i := y]> l) = <[i := x]> l.
Proof. revert i. induction l as [|a l IH]; intros [|i]; simpl; [done|done|done|]. f_equal. apply IH. Qed.

Lemma run_move_bucket s ob nb i xs :
  moving s ob nb -> ob !! i = Some xs -> len xs < two32 ->
  exists s' nb', move_bucket hash_fn (bucket_addr old i) s = Ret (tt, s') /\ moving s' (<[i := []]> ob) nb'.
Proof.
  intros M Hi Hx. unfold move_bucket. pose proof (lookup_lt_Some _ _ _ Hi) as Hil.
  assert (forall s ob nb ys, moving s ob nb -> ob !! i = Some ys -> dl (cells s) (bucket_addr old i) ys) as Hdl.
  { intros s1 ob1 nb1 ys M1 H1. apply (dls_dl _ _ (mv_dls _ _ _ M1)). apply lookup_union_Some_l, lookup_tabmap. eauto. }
  sstep (run_lists_ro _ _ _ (run_list_begin _ _ _ (Hdl _ _ _ _ M Hi))).
  edestruct (sloop_ind (length xs)
    (fun k e s' => exists ys nb', k = length ys /\ e = cur (bucket_addr old i) ys /\ moving s' (<[i := ys]> ob) nb')
    (fun (_ : unit) s' => exists nb', moving s' (<[i := []]> ob) nb')) as ([] & s' & Hr & nb' & Hm);
    [| | |exists s', nb'; split; [exact Hr|done]].
  - intros k e s1 (ys & nb1 & -> & -> & M1).
    assert (<[i := ys]> ob !! i = Some ys) as Hys by (by rewrite list_lookup_insert_eq).
    pose proof (Hdl _ _ _ _ M1 Hys) as Hd. sstep (run_lists_ro _ _ _ (run_list_end _ _ _ Hd)).
    rewrite (cur_end _ _ [] ys Hd). destruct ys as [|y ys]; cbn [negb].
    + left. exists tt, s1. split; [done|]. by exists nb1.
    + right. change (cur (bucket_addr old i) (y :: ys)) with y.
      destruct (move_step s1 _ nb1 i y ys M1 Hys) as (s2 & s3 & b & nb2 & E1 & E2 & E3 & E4 & M3).
      exists (length ys), (cur (bucket_addr old i) ys), s3. sstep E1. sstep E2. sstep E3. sstep E4. split; [done|].
      split; [|simpl; lia]. exists ys, nb2. by rewrite insert_insert_list in M3.
  - exists xs, nb. by rewrite list_insert_id.
  - done.
Qed.

Lemma run_move_all s nb :
  moving s bs0 nb -> len (mjoin bs0) < two32 -> len bs0 < two32 ->
  exists s' nb', sloop (fun i =>
      if i <? len bs0 then
        do! _ := move_bucket hash_fn (old + sizeof_list * i) in sret (inl (i + 1))
      else sret (inr tt)) 0 s = Ret (tt, s') /\
    moving s' (replicate (length bs0) []) nb'.
Proof.
  intros M Hs Hb.
  edestruct (sloop_ind (length bs0)
    (fun k i s' => exists j ob nb', (k + j = length bs0)%nat /\ i = Z.of_nat j /\ moving s' ob nb' /\
       (forall t, (t < j)%nat -> ob !! t = Some []))
    (fun (_ : unit) s' => exists nb', moving s' (replicate (length bs0) []) nb')) as ([] & s' & Hr & nb' & Hm);
    [| | |exists s', nb'; split; [exact Hr|done]].
  - intros k i s1 (j & ob & nb1 & Hk & -> & M1 & He). pose proof (mv_len _ _ _ M1) as [Hlo _].
    destruct (Z.ltb_spec (Z.of_nat j) (len bs0)) as [Hlt|Hge].
    + right. destruct (lookup_lt_is_Some_2 ob j) as [xs Hxs]; [lia|].
      assert (len xs < two32) as Hxl.
      { pose proof (join_length_le ob j xs Hxs). pose proof (Permutation_length (mv_perm _ _ _ M1)) as Hp. rewrite length_app in Hp. lia. }
      destruct (run_move_bucket s1 ob nb1 j xs M1 Hxs Hxl) as (s2 & nb2 & E & M2).
      exists (k - 1)%nat, (Z.of_nat j + 1), s2. unfold sizeof_list. fold (bucket_addr old j). sstep E. split; [done|]. split; [|lia].
      exists (S j), (<[j := []]> ob), nb2. split; [lia|]. split; [lia|]. split; [done|].
      intros t Ht. destruct (decide (t = j)) as [->|]; [rewrite list_lookup_insert_eq by lia; done|].
      rewrite list_lookup_insert_ne by done. apply He. lia.
    + left. exists tt, s1. split; [done|]. exists nb1. replace (replicate (length bs0) []) with ob; [done|].
      apply list_eq_same_length with (length bs0); [by rewrite length_replicate|lia|].
      intros t x y Ht. rewrite He by lia. intros [= <-]. rewrite lookup_replicate_2 by lia. by intros [= <-].
  - exists O, bs0, nb. split; [lia|]. split; [done|]. split; [done|]. lia.
  - done.
Qed.

(** When every element has moved, the old array is freed. *)
Lemma moving_finish s nb :
  moving s (replicate (length bs0) []) nb ->
  0 < old -> old <> nw -> blocks s0 !! old = Some (2 * length bs0)%nat -> blocks s0 !! nw = Some (2 * n)%nat -> 0 < nw ->
  elem_cnt (tab s0) = len (mjoin bs0) -> len (mjoin bs0) < 536870912 ->
  (forall x y, x ∈ mjoin bs0 -> y ∈ mjoin bs0 -> equal x y -> x = y) ->
  exists s', free old s = Ret (tt, s') /\ rep s' nb /\ mjoin nb ≡ₚ mjoin bs0 /\ length nb = n /\
    (forall x, ~ owned (tabmap old bs0) x -> x ∉ block_cells nw (2 * n) -> cells s' !! x = cells s0 !! x).
Proof.
  intros M Ho Hne Hb Hb' Hw He Hsm Hdi. pose proof M as [[Mt Mb] [Ml1 Ml2] Md Mp Mj Mf].
  rewrite join_replicate_nil in Mj. simpl in Mj. destruct s0_tab as [Ht1 Ht2].
  eexists. unfold free. rewrite (proj2 (Z.eqb_neq old NULL)) by (unfold NULL; lia). rewrite Mb, Hb. split; [done|].
  split; [|split; [done|split; [done|]]].
  - constructor; cbn [tab cells blocks]; rewrite ?Mt.
    + by rewrite Ht1, Ml2.
    + by rewrite Ml2.
    + rewrite Ht2. apply (dls_frame (cells s)).
      * apply (dls_sub _ (tabmap old (replicate (length bs0) []) ∪ tabmap nw nb)); [|done].
        apply map_union_subseteq_r, map_disjoint_spec. intros l xs ys (i & -> & Hi)%lookup_tabmap (j & Hj & Hj')%lookup_tabmap.
        apply lookup_lt_Some in Hi, Hj'. rewrite length_replicate in Hi. by apply (apart i j); [|lia|].
      * intros x (l & xs & (j & -> & Hj)%lookup_tabmap & Hx). rewrite lookup_foldr_delete, decide_False; [done|].
        intros (i & Hi & Hxi)%block_bucket. pose proof (lookup_lt_Some _ _ _ Hj).
        assert (x ∈ nodes (bucket_addr old i) []) as Hx' by (destruct Hxi as [->| ->]; apply node_head).
        apply (dls_disj _ _ Md (bucket_addr old i) (bucket_addr nw j) [] xs x); [| |by apply apart; lia|done|done].
        -- apply lookup_union_Some_l, lookup_tabmap. exists i. split; [done|]. by apply lookup_replicate_2.
        -- rewrite lookup_union_r by (apply old_not_new; [done|lia]). apply lookup_tabmap. eauto.
    + done.
    + by rewrite He, Mj.
    + by rewrite Mj.
    + intros x y. rewrite Mj. apply Hdi.
    + rewrite Ht2, Ml2. split; [done|]. rewrite lookup_delete_ne by done. done.
  - intros x Hx Hxb. cbn [cells]. rewrite lookup_foldr_delete, decide_False; [by apply Mf|].
    intros (i & Hi & [->| ->])%block_bucket; apply Hx; by apply tabmap_heads.
Qed.
End Moving.

(** A new array of buckets, not yet installed. *)
Lemma malloc_buckets s F n :
  dls (cells s) F -> 0 < Z.of_nat n < 268435456 -> place s (16 * Z.of_nat n) <> NULL ->
  let p := place s (16 * Z.of_nat n) in
  exists s1 h2, malloc place junk (16 * Z.of_nat n) s = Ret (p, s1) /\ 0 < p /\
    init_buckets p (Z.of_nat n) s1 = Ret (tt, mkHst h2 (<[p := (2 * n)%nat]> (blocks s)) (tab s)) /\
    dls h2 (F ∪ tabmap p (replicate n [])) /\
    (forall c, c ∈ block_cells p (2 * n) -> cells s !! c = None) /\
    (forall x, x ∉ block_cells p (2 * n) -> h2 !! x = cells s !! x).
Proof.
  intros R Hn Hp p. destruct (place_fresh s (16 * Z.of_nat n) Hp) as [Hpos Hfr]. fold p in Hp, Hpos, Hfr.
  assert (Z.to_nat (16 * Z.of_nat n / 8) = (2 * n)%nat) as Hsz.
  { replace (16 * Z.of_nat n) with (2 * Z.of_nat n * 8) by lia. rewrite Z.div_mul by lia. lia. }
  rewrite Hsz in Hfr.
  set (s1 := mkHst (foldr (fun c h => <[c := junk c]> h) (cells s) (block_cells p (2 * n)))
               (<[p := (2 * n)%nat]> (blocks s)) (tab s)).
  assert (malloc place junk (16 * Z.of_nat n) s = Ret (p, s1)) as Hm.
  { unfold malloc. fold p. rewrite (proj2 (Z.eqb_neq p NULL)) by done. by rewrite Hsz. }
  assert (forall c, owned F c -> c ∉ block_cells p (2 * n)) as Hno.
  { intros c Ho Hc. destruct (owned_cell _ _ _ R Ho) as [v Hv]. by rewrite Hfr in Hv. }
  destruct (run_init_buckets s1 F p n) as (h2 & Hi & Hd & Hf); [|done|unfold two32; lia| |].
  - apply (dls_frame (cells s)); [done|]. intros x Hx. unfold s1. cbn [cells].
    by rewrite lookup_foldr_insert, decide_False by (by apply Hno).
  - intros c Hc. split; [intros Ho; by apply (Hno c)|]. unfold s1. cbn [cells].
    rewrite lookup_foldr_insert, decide_True by done. eauto.
  - exists s1, h2. split; [done|]. split; [done|]. split; [done|]. split; [done|]. split; [done|].
    intros x Hx. rewrite Hf by done. unfold s1. cbn [cells]. by rewrite lookup_foldr_insert, decide_False.
Qed.

(** The number of buckets that [rehash] aims at. *)
Definition ideal_buckets (elems : Z) : Z := 2 ^ Z.log2 (Z.max 4 (elems / 2)).

Lemma ideal_range elems : 0 <= elems < 536870912 -> 4 <= ideal_buckets elems <= Z.max 4 (elems / 2) /\ ideal_buckets elems < 268435456.
Proof.
  intros He. unfold ideal_buckets. assert (elems / 2 < 268435456) by (apply Z.div_lt_upper_bound; lia).
  pose proof (Z.log2_spec (Z.max 4 (elems / 2)) ltac:(lia)) as [H1 H2]. split; [|lia]. split; [|done].
  change 4 with (2 ^ 2) at 1. apply Z.pow_le_mono_r; [lia|]. change 2 with (Z.log2 4) at 1. apply Z.log2_le_mono. lia.
Qed.

Lemma run_rehash s bs :
  rep s bs ->
  exists s' bs', rehash hash_fn place junk s = Ret (tt, s') /\ rep s' bs' /\ mjoin bs' ≡ₚ mjoin bs /\ keeps s bs s' /\
    (len bs' = ideal_buckets (len (mjoin bs)) \/
     (s' = s /\ bs' = bs /\ place s (16 * ideal_buckets (len (mjoin bs))) = NULL)).
Proof.
  intros R. pose proof R as [Rc Rp Rd Rpl Re Rs Rdi [Rb Rbl]]. set (N := ideal_buckets (len (mjoin bs))).
  destruct (ideal_range (len (mjoin bs))) as [HN1 HN2]; [lia|]. fold N in HN1, HN2.
  assert (round_to_power (if elem_cnt (tab s) / 2 <? 4 then 4 else elem_cnt (tab s) / 2) = Ret N) as Hrp.
  { rewrite Re. assert (len (mjoin bs) / 2 < 268435456) by (apply Z.div_lt_upper_bound; lia).
    replace (if len (mjoin bs) / 2 <? 4 then 4 else len (mjoin bs) / 2) with (Z.max 4 (len (mjoin bs) / 2))
      by (destruct (Z.ltb_spec (len (mjoin bs) / 2) 4); lia).
    apply round_to_power_spec. unfold two32. lia. }
  unfold rehash. sstep (eq_refl : get s = Ret (s, s)). cbv zeta. unfold BEST_ELEMS_PER_BUCKET. rewrite Hrp.
  sstep (eq_refl : lift (Ret N) s = Ret (N, s)). rewrite Rc.
  destruct (Z.eqb_spec N (len bs)) as [Heq|Hneq]; [exists s, bs; split; [done|]; split; [done|]; split; [done|]; split; [by intros x v|by left]|].
  unfold sizeof_list. rewrite u32_small by (unfold is_u32, two32; lia).
  destruct (decide (place s (16 * N) = NULL)) as [Hnull|Hp].
  { assert (malloc place junk (16 * N) s = Ret (NULL, s)) as Em by (unfold malloc; rewrite Hnull; done).
    sstep Em. exists s, bs. split; [done|]. split; [done|]. split; [done|]. split; [by intros x v|by right]. }
  set (n := Z.to_nat N). assert (N = Z.of_nat n) as HNn by (unfold n; lia). rewrite HNn in *.
  destruct (malloc_buckets s _ n Rd ltac:(lia) Hp) as (s1 & h2 & Em & Hpos & Ei & Hd2 & Hfr & Hf2).
  set (p := place s (16 * Z.of_nat n)) in *. sstep Em. rewrite (proj2 (Z.eqb_neq p NULL)) by done. sstep Ei.
  unfold sbind at 1, with_tab at 1. cbn [tab cells blocks elem_cnt].
  set (s3 := mkHst h2 _ _). assert (forall i, (i < length bs)%nat -> owned (tabmap (buckets (tab s)) bs) (bucket_addr (buckets (tab s)) i))
    as Hheads by (intros i Hi; by apply tabmap_heads).
  assert (forall i j, (i < length bs)%nat -> (j < n)%nat -> bucket_addr (buckets (tab s)) i <> bucket_addr p j) as Hap.
  { intros i j Hi Hj Heq. destruct (owned_cell _ _ _ Rd (Hheads i Hi)) as [v Hv].
    rewrite Heq, Hfr in Hv; [done|]. apply block_bucket. eauto. }
  assert (moving s3 (buckets (tab s)) p bs n s3 bs (replicate n [])) as M.
  { constructor; [done|by rewrite length_replicate|done| |by rewrite join_replicate_nil, app_nil_r|done].
    intros i xs e [-> _]%lookup_replicate He. by apply elem_of_nil in He. }
  destruct (run_move_all s3 _ p bs n ltac:(lia) Hap (conj eq_refl eq_refl) s3 _ M) as (s4 & nb & E4 & M4); [unfold two32; lia..|].
  sstep E4.
  destruct (moving_finish s3 _ p bs n ltac:(lia) Hap (conj eq_refl eq_refl) s4 nb M4) as (s5 & E5 & R5 & Hp5 & Hl5 & Hf5);
    [done| | | |done|done|done|done|].
  - specialize (Hap O O ltac:(lia) ltac:(lia)). unfold bucket_addr in Hap. lia.
  - cbn [blocks]. unfold s3. cbn [blocks]. rewrite lookup_insert_ne; [done|].
    specialize (Hap O O ltac:(lia) ltac:(lia)). unfold bucket_addr in Hap. lia.
  - unfold s3. cbn [blocks]. apply lookup_insert_eq.
  - exists s5, nb. split; [done|]. split; [done|]. split; [done|]. split; [|left; lia].
    intros x v Hx Hv. assert (x ∉ block_cells p (2 * n)) as Hxb by (intros Hc; by rewrite Hfr in Hv).
    rewrite Hf5 by done. unfold s3. cbn [cells]. by rewrite Hf2.
Qed.

(** ** The operations *)

(** The result of a search for an element equal to [e]. *)
Definition found (bs : list (list Z)) (e r : Z) : Prop :=
  (r <> NULL /\ r ∈ mjoin bs /\ equal r e) \/ (r = NULL /\ forall x, x ∈ mjoin bs -> ~ equal x e).

(** What is left untouched when [e] is linked into the table. *)
Definition keeps_but (s : hstate) (bs : list (list Z)) (e : Z) (s' : hstate) : Prop :=
  forall x v, x <> e -> ~ owned (tabmap (buckets (tab s)) bs) x -> cells s !! x = Some v -> cells s' !! x = Some v.

Lemma owned_link base bs i xs e x :
  bs !! i = Some xs -> owned (tabmap base (<[i := e :: xs]> bs)) x -> x = e \/ owned (tabmap base bs) x.
Proof.
  intros Hi. rewrite tabmap_insert by (by eapply lookup_lt_Some).
  intros (l & ys & [[<- <-]|[Hne H1]]%lookup_insert_Some & Hx); [|right; by exists l, ys].
  rewrite (nodes_perm_insert _ [] e xs) in Hx. apply elem_of_cons in Hx as [->|Hx]; [by left|]. right.
  exists (bucket_addr base i), xs. split; [apply lookup_tabmap; eauto|done].
Qed.

(** Linking a new element and rehashing. *)
Lemma run_link s bs xs e :
  rep s bs -> linkable s bs e -> bs !! bucket_of (length bs) e = Some xs ->
  (forall x, x ∈ mjoin bs -> ~ equal x e) -> len (mjoin bs) + 1 < 536870912 ->
  exists s1 s' bs', insert_elem (bucket_addr (buckets (tab s)) (bucket_of (length bs) e)) e s = Ret (tt, s1) /\
    rehash hash_fn place junk s1 = Ret (tt, s') /\ rep s' bs' /\ mjoin bs' ≡ₚ e :: mjoin bs /\ keeps_but s bs e s'.
Proof.
  intros R Hl Hxs Hno Hlen. destruct (run_insert_elem s bs xs e R Hl Hxs Hno Hlen) as (s1 & E1 & R1 & Hb1 & Hk1).
  destruct (run_rehash s1 _ R1) as (s2 & bs2 & E2 & R2 & Hp2 & Hk2 & _). exists s1, s2, bs2.
  split; [done|]. split; [done|]. split; [done|]. split.
  - rewrite Hp2. destruct (join_insert bs _ xs Hxs) as (rest & Hp & Hq). by rewrite Hq, Hp.
  - intros x v Hne Hx Hv. apply Hk2; [|by apply Hk1]. rewrite Hb1. intros [->|Ho]%(owned_link _ _ _ _ _ _ Hxs); done.
Qed.

Lemma search_steps s bs e :
  rep s bs ->
  exists xs r, bs !! bucket_of (length bs) e = Some xs /\
    find_bucket hash_fn e s = Ret (bucket_addr (buckets (tab s)) (bucket_of (length bs) e), s) /\
    find_elem less (bucket_addr (buckets (tab s)) (bucket_of (length bs) e)) e s = Ret (r, s) /\
    found bs e r /\ (r <> NULL -> r ∈ xs).
Proof.
  intros R. destruct (run_search s bs e R) as (xs & r & Hxs & Hr & Hq). exists xs, r.
  split; [done|]. split; [apply run_find_bucket; [apply (rep_cnt _ _ R)|apply (rep_pos _ _ R)]|]. split; [done|].
  unfold found. destruct Hq as [(H1 & H2 & H3 & H4)|[-> H]]; [by split; [left|]|by split; [right|]].
Qed.

Lemma run_hash_find s bs e : rep s bs -> exists r, hash_find hash_fn less e s = Ret (r, s) /\ found bs e r.
Proof.
  intros R. destruct (search_steps s bs e R) as (xs & r & _ & E1 & E2 & Hf & _). exists r.
  unfold hash_find. sstep E1. by rewrite E2.
Qed.

Lemma run_hash_insert s bs e :
  rep s bs -> linkable s bs e -> len (mjoin bs) + 1 < 536870912 ->
  exists r s' bs', hash_insert hash_fn less place junk e s = Ret (r, s') /\ rep s' bs' /\ found bs e r /\
    mjoin bs' ≡ₚ (if r =? NULL then e :: mjoin bs else mjoin bs) /\ keeps_but s bs e s'.
Proof.
  intros R Hl Hlen. destruct (search_steps s bs e R) as (xs & r & Hxs & E1 & E2 & Hf & _). exists r.
  unfold hash_insert. sstep E1. sstep E2. destruct (Z.eqb_spec r NULL) as [->|Hne].
  - destruct Hf as [[? _]|[_ Hno]]; [done|]. destruct (run_link s bs xs e R Hl Hxs Hno Hlen) as (s1 & s' & bs' & E3 & E4 & R' & Hp & Hk).
    exists s', bs'. sstep E3. sstep E4. split; [done|]. split; [done|]. split; [by right|done].
  - destruct (run_rehash s bs R) as (s' & bs' & E & R' & Hp & Hk & _). exists s', bs'.
    sstep (eq_refl : sret tt s = Ret (tt, s)). sstep E. split; [done|]. split; [done|]. split; [done|]. split; [done|].
    intros x v _. apply Hk.
Qed.

Lemma run_hash_replace s bs e :
  rep s bs -> linkable s bs e -> len (mjoin bs) + 1 < 536870912 ->
  exists r s' bs' rest, hash_replace hash_fn less place junk e s = Ret (r, s') /\ rep s' bs' /\ found bs e r /\
    mjoin bs' ≡ₚ e :: rest /\ mjoin bs ≡ₚ (if r =? NULL then rest else r :: rest) /\ keeps_but s bs e s'.
Proof.
  intros R Hl Hlen. destruct (search_steps s bs e R) as (xs & r & Hxs & E1 & E2 & Hf & Hin). exists r.
  unfold hash_replace. sstep E1. sstep E2. destruct (Z.eqb_spec r NULL) as [->|Hne]; cbn [negb].
  - destruct Hf as [[? _]|[_ Hno]]; [done|]. destruct (run_link s bs xs e R Hl Hxs Hno Hlen) as (s1 & s' & bs' & E3 & E4 & R' & Hp & Hk).
    exists s', bs', (mjoin bs). sstep (eq_refl : sret tt s = Ret (tt, s)). sstep E3. sstep E4.
    split; [done|]. split; [done|]. split; [by right|done].
  - destruct Hf as [(_ & Hrin & Heq)|[? _]]; [|done].
    destruct (run_remove_elem s bs _ xs r R Hxs (Hin Hne)) as (s1 & xs' & E3 & R1 & Hb1 & Hpx & Hpj & Hlr & Hsub & Hk1).
    set (bs1 := <[_ := xs']> bs) in *. assert (length bs1 = length bs) as Hl1 by (unfold bs1; by rewrite length_insert).
    pose proof (lookup_lt_Some _ _ _ Hxs) as Hlt. destruct Hl as (Hn & [v Hv] & Hfree).
    destruct (run_link s1 bs1 xs' e R1) as (s2 & s' & bs' & E4 & E5 & R' & Hp & Hk).
    + split; [done|]. split; [exists v; by apply Hk1|]. rewrite Hb1. intros Ho. by apply Hfree, Hsub.
    + rewrite Hl1. unfold bs1. by rewrite list_lookup_insert_eq.
    + intros x Hx Hxe. assert (x = r) as ->.
      { apply (rep_distinct _ _ R); [rewrite Hpj; by right|done|]. apply (equal_trans x e r); [done|by apply equal_sym]. }
      destruct Hlr as (_ & _ & Hlr). apply Hlr. by apply tabmap_elem.
    + apply Permutation_length in Hpj. simpl in Hpj. lia.
    + rewrite Hl1, Hb1 in E4. exists s', bs', (mjoin bs1). sstep E3. sstep E4. sstep E5.
      split; [done|]. split; [done|]. split; [by left|]. split; [done|]. split; [done|].
      intros x u Hxe Hx Hu. apply Hk; [done| |by apply Hk1]. rewrite Hb1. intros Ho. by apply Hx, Hsub.
Qed.

Lemma run_hash_delete s bs e :
  rep s bs ->
  exists r s' bs', hash_delete hash_fn less place junk e s = Ret (r, s') /\ rep s' bs' /\ found bs e r /\
    mjoin bs ≡ₚ (if r =? NULL then mjoin bs' else r :: mjoin bs') /\ keeps s bs s'.
Proof.
  intros R. destruct (search_steps s bs e R) as (xs & r & Hxs & E1 & E2 & Hf & Hin). exists r.
  unfold hash_delete. sstep E1. sstep E2. destruct (Z.eqb_spec r NULL) as [->|Hne]; cbn [negb].
  - exists s, bs. sstep (eq_refl : sret tt s = Ret (tt, s)). split; [done|]. split; [done|]. split; [done|]. split; [done|by intros x v].
  - destruct (run_remove_elem s bs _ xs r R Hxs (Hin Hne)) as (s1 & xs' & E3 & R1 & Hb1 & _ & Hpj & _ & Hsub & Hk1).
    destruct (run_rehash s1 _ R1) as (s2 & bs2 & E4 & R2 & Hp2 & Hk2 & _). exists s2, bs2.
    assert ((do! _ := remove_elem r in rehash hash_fn place junk) s = Ret (tt, s2)) as E by (sstep E3; done).
    sstep E. split; [done|]. split; [done|]. split; [done|]. split; [by rewrite Hp2|].
    intros x v Hx Hv. apply Hk2; [|by apply Hk1]. rewrite Hb1. intros Ho. by apply Hx, Hsub.
Qed.
End Table.
