(* ===== verification/HashTable.v ===== *)
(** * Hash tables: refinement of a collection of elements

    The operations on a table against an abstract specification, the life
    cycle ([hash_init], [hash_clear]) and iteration. *)
From stdpp Require Import prelude list gmap.
From Stdlib Require Import ZArith Lia.
From S2P Require Import Prelude Strings Dlist Hash HashInv.
#[local] Open Scope Z_scope.

(** ** The abstract specification *)

(** The operations of a client. *)
Inductive hash_op : Type :=
| OpFind (e : Z)
| OpInsert (e : Z)
| OpReplace (e : Z)
| OpDelete (e : Z).

Section Spec.
Context (hash_fn : Z -> Z) (less : Z -> Z -> bool) (place : hstate -> Z -> Z) (junk : Z -> list_elem).

Definition run_op (o : hash_op) : ST hstate Z :=
  match o with
  | OpFind e => hash_find hash_fn less e
  | OpInsert e => hash_insert hash_fn less place junk e
  | OpReplace e => hash_replace hash_fn less place junk e
  | OpDelete e => hash_delete hash_fn less place junk e
  end.

(** [r] is the element of [l] that is equal to [e], or null. *)
Definition the_equal (l : list Z) (e r : Z) : Prop :=
  (r <> NULL /\ r ∈ l /\ equal less r e) \/ (r = NULL /\ forall x, x ∈ l -> ~ equal less x e).

(** An operation on a collection [l] of elements, its result [r] and the
    collection [l'] after it; the order of elements does not matter. *)
Definition op_spec (o : hash_op) (l : list Z) (r : Z) (l' : list Z) : Prop :=
  match o with
  | OpFind e => the_equal l e r /\ l' ≡ₚ l
  | OpInsert e => the_equal l e r /\ l' ≡ₚ (if r =? NULL then e :: l else l)
  | OpReplace e => the_equal l e r /\ exists rest, l ≡ₚ (if r =? NULL then rest else r :: rest) /\ l' ≡ₚ e :: rest
  | OpDelete e => the_equal l e r /\ l ≡ₚ (if r =? NULL then l' else r :: l')
  end.

(** The elements that are new to the table must be linkable. *)
Definition op_pre (o : hash_op) (s : hstate) (bs : list (list Z)) : Prop :=
  match o with
  | OpInsert e | OpReplace e => linkable s bs e /\ len (mjoin bs) + 1 < 536870912
  | _ => True
  end.

Definition op_elem (o : hash_op) : Z :=
  match o with OpFind e | OpInsert e | OpReplace e | OpDelete e => e end.

Hypothesis equal_trans : forall a b c, equal less a b -> equal less b c -> equal less a c.
Hypothesis hash_equal : forall a b, equal less a b -> hash_fn a = hash_fn b.
Hypothesis hash_range : forall e, is_u32 (hash_fn e).
Hypothesis place_fresh : forall s size, place s size <> NULL ->
  0 < place s size /\ forall c, c ∈ block_cells (place s size) (Z.to_nat (size / 8)) -> cells s !! c = None.

(** C9: every operation of a hash table returns without tripping an
    assertion, keeps the invariant of the table (through any rehashing and
    any failure of [malloc]), does to the collection of elements what the
    specification says, and changes no memory but the table and the element
    that it links. *)
Theorem hash_op_refines o s bs :
  rep hash_fn less s bs -> op_pre o s bs ->
  exists r s' bs', run_op o s = Ret (r, s') /\ rep hash_fn less s' bs' /\ op_spec o (mjoin bs) r (mjoin bs') /\
    keeps_but s bs (op_elem o) s'.
Proof.
  intros R Hpre. destruct o as [e|e|e|e]; cbn [run_op op_spec op_elem].
  - edestruct run_hash_find as (r & E & Hf); [eassumption..|].
    exists r, s, bs. split; [done|]. split; [done|]. split; [done|by intros x v].
  - destruct Hpre as [Hl Hn]. edestruct run_hash_insert as (r & s' & bs' & E & R' & Hf & Hp & Hk); [eassumption..|].
    by exists r, s', bs'.
  - destruct Hpre as [Hl Hn].
    edestruct run_hash_replace as (r & s' & bs' & rest & E & R' & Hf & Hp & Hq & Hk); [eassumption..|].
    exists r, s', bs'. split; [done|]. split; [done|]. split; [|done]. split; [done|]. by exists rest.
  - edestruct run_hash_delete as (r & s' & bs' & E & R' & Hf & Hp & Hk); [eassumption..|].
    exists r, s', bs'. split; [done|]. split; [done|]. split; [done|]. intros x v _. by apply Hk.
Qed.

(** ** Life cycle *)

(** [list_init] on a list of the family empties it. *)
Lemma dls_reinit h F l xs :
  dls h F -> F !! l = Some xs ->
  exists h', list_init l h = Ret (tt, h') /\ dls h' (<[l := []]> F) /\ (forall x, x <> l -> x <> l + 8 -> h' !! x = h !! x).
Proof.
  intros Hd Hl. pose proof (dls_dl _ _ Hd _ _ Hl) as Hdl. destruct (node_head l xs) as [N1 N2].
  destruct (run_list_init h l) as (h1 & Hr & Hdl1 & Hf);
    [by eapply dl_nodes_nonnull|by eapply dl_nodes_nonnull|by eapply dl_cell|by eapply dl_cell|].
  exists h1. split; [done|]. split; [|done].
  apply (dls_set h); [done|done|intros x Hx; apply Hf; intros ->; apply Hx, node_head|].
  intros x l' xs' Hx Hne Hl'. apply (dls_disj _ _ Hd l l' xs xs'); [done|done|done|].
  apply node_cases in Hx as [->|[->|Hnil%elem_of_nil]]; done.
Qed.

Lemma run_drain s F l xs called :
  dls (cells s) F -> F !! l = Some xs -> len xs < two32 ->
  exists h', drain_bucket l called s = Ret (called ++ xs, mkHst h' (blocks s) (tab s)) /\ dls h' (<[l := []]> F).
Proof.
  intros Hd Hl Hn. unfold drain_bucket.
  edestruct (sloop_ind (length xs)
    (fun k c s' => exists ys h', k = length ys /\ called ++ xs = c ++ ys /\ s' = mkHst h' (blocks s) (tab s) /\
       dls h' (<[l := ys]> F))
    (fun c s' => c = called ++ xs /\ exists h', s' = mkHst h' (blocks s) (tab s) /\ dls h' (<[l := []]> F)))
    as (c & s' & Hr & -> & h' & -> & Hq); [| | |exists h'; split; [exact Hr|done]].
  - intros k c s1 (ys & h1 & -> & Hc & -> & Hd1). assert (<[l := ys]> F !! l = Some ys) as Hys by apply lookup_insert_eq.
    pose proof (dls_dl _ _ Hd1 _ _ Hys) as Hdl.
    erewrite sbind_run by (apply run_lists_ro; exact (run_list_empty _ _ _ Hdl)). destruct ys as [|y ys]; cbn [negb].
    + left. exists c, (mkHst h1 (blocks s) (tab s)). rewrite app_nil_r in Hc. split; [done|]. split; [done|]. by exists h1.
    + right. destruct (run_pop_front h1 l y ys Hdl) as (h2 & Hp & Hd2 & Hf2).
      exists (length ys), (c ++ [y]), (mkHst h2 (blocks s) (tab s)). erewrite sbind_run by (apply run_lists; exact Hp).
      split; [done|]. split; [|simpl; lia]. exists ys, h2. split; [done|]. split; [by rewrite <- app_assoc|]. split; [done|].
      rewrite <- (insert_insert_eq F l ys (y :: ys)). apply (dls_set h1); [done|done|done|].
      intros x l' xs' Hx Hne Hl'. apply (dls_disj _ _ Hd1 l l' (y :: ys) xs'); [done|done|done|].
      rewrite (nodes_perm_insert l [] y ys). by right.
  - exists xs, (cells s). split; [done|]. split; [done|]. split; [by destruct s|]. by rewrite insert_id.
  - done.
Qed.

Lemma replicate_drop_insert (bs : list (list Z)) j xs :
  bs !! j = Some xs ->
  (replicate j [] ++ drop j bs) !! j = Some xs /\
  <[j := []]> (replicate j [] ++ drop j bs) = replicate (S j) [] ++ drop (S j) bs.
Proof.
  intros Hj. rewrite (drop_S _ _ _ Hj). split.
  - rewrite lookup_app_r, length_replicate, Nat.sub_diag by (rewrite length_replicate; lia). done.
  - rewrite insert_app_r_alt, length_replicate, Nat.sub_diag by (rewrite length_replicate; lia). simpl.
    rewrite (cons_middle [] (replicate j [])), app_assoc. by rewrite <- replicate_S_end.
Qed.

Lemma clear_step d h b t F l xs called :
  dls h F -> F !! l = Some xs -> len xs < two32 ->
  exists s1 h2, (if d : bool then drain_bucket l called else sret called) (mkHst h b t)
      = Ret (called ++ (if d then xs else []), s1) /\
    lists (list_init l) s1 = Ret (tt, mkHst h2 b t) /\ dls h2 (<[l := []]> F).
Proof.
  intros Hd Hl Hn. destruct d.
  - destruct (run_drain (mkHst h b t) F l xs called Hd Hl Hn) as (h1 & E1 & Hd1).
    destruct (dls_reinit h1 _ l [] Hd1) as (h2 & E2 & Hd2 & _); [apply lookup_insert_eq|].
    eexists _, h2. split; [exact E1|]. split; [by apply (run_lists _ (mkHst h1 b t))|]. by rewrite insert_insert_eq in Hd2.
  - destruct (dls_reinit h F l xs Hd Hl) as (h2 & E2 & Hd2 & _). exists (mkHst h b t), h2. rewrite app_nil_r.
    split; [done|]. split; [by apply (run_lists _ (mkHst h b t))|done].
Qed.

Lemma rep_empty s n p :
  0 < Z.of_nat n < 268435456 -> 0 < p -> tab s = mkHash 0 (Z.of_nat n) p -> blocks s !! p = Some (2 * n)%nat ->
  dls (cells s) (tabmap p (replicate n [])) -> rep hash_fn less s (replicate n []).
Proof.
  intros Hn Hp Ht Hb Hd. constructor; rewrite ?Ht, ?length_replicate, ?join_replicate_nil; cbn [elem_cnt bucket_cnt buckets]; try done.
  - intros i xs e [-> _]%lookup_replicate He. by apply elem_of_nil in He.
  - intros x y Hx. by apply elem_of_nil in Hx.
Qed.

(** [hash_clear] empties the table and gives every element to the
    destructor, if there is one. *)
Lemma run_hash_clear d s bs :
  rep hash_fn less s bs ->
  exists s', hash_clear d s = Ret (if d then mjoin bs else [], s') /\ rep hash_fn less s' (replicate (length bs) []).
Proof.
  intros R. pose proof R as [Rc Rp Rd Rpl Re Rs Rdi [Rb Rbl]]. unfold hash_clear. sstep (eq_refl : get s = Ret (s, s)).
  edestruct (sloop_ind (length bs)
    (fun k '(i, c) s' => exists j h', (k + j = length bs)%nat /\ i = Z.of_nat j /\ s' = mkHst h' (blocks s) (tab s) /\
       dls h' (tabmap (buckets (tab s)) (replicate j [] ++ drop j bs)) /\ c = if d then mjoin (take j bs) else [])
    (fun c s' => exists h', s' = mkHst h' (blocks s) (tab s) /\ dls h' (tabmap (buckets (tab s)) (replicate (length bs) [])) /\
       c = if d then mjoin bs else [])) as (c & s1 & Hr & h1 & -> & Hd1 & ->).
  4: { sstep Hr. eexists. split; [done|]. apply (rep_empty _ _ (buckets (tab s))); cbn [tab cells blocks]; [done|done|by rewrite Rc|done|done]. }
  - intros k [i c] s1 (j & h1 & Hk & -> & -> & Hd1 & ->). rewrite Rc. destruct (Z.ltb_spec (Z.of_nat j) (len bs)) as [Hlt|Hge].
    + right. destruct (lookup_lt_is_Some_2 bs j) as [xs Hxs]; [lia|]. destruct (replicate_drop_insert bs j xs Hxs) as [Hj1 Hj2].
      destruct (clear_step d h1 (blocks s) (tab s) _ (bucket_addr (buckets (tab s)) j) xs (if d then mjoin (take j bs) else []) Hd1)
        as (s2 & h2 & E1 & E2 & Hd2); [apply lookup_tabmap; eauto|pose proof (join_length_le bs j xs Hxs); unfold two32; lia|].
      unfold sizeof_list. fold (bucket_addr (buckets (tab s)) j). cbv zeta.
      exists (k - 1)%nat, (Z.of_nat j + 1, (if d then mjoin (take j bs) else []) ++ (if d then xs else [])), (mkHst h2 (blocks s) (tab s)).
      sstep E1. sstep E2. split; [done|]. split; [|lia]. exists (S j), h2. split; [lia|]. split; [lia|]. split; [done|].
      rewrite <- tabmap_insert, Hj2 in Hd2 by (rewrite length_app, length_replicate, length_drop; lia).
      split; [done|]. rewrite (take_S_r _ _ _ Hxs), join_app. destruct d; [simpl; by rewrite app_nil_r|done].
    + left. eexists _, _. split; [done|]. exists h1. split; [done|]. assert (j = length bs) as -> by lia.
      rewrite drop_all, app_nil_r in Hd1. by rewrite firstn_all.
  - exists O, (cells s). split; [lia|]. split; [done|]. split; [by destruct s|]. split; [done|]. by destruct d.
  - unfold two32. lia.
Qed.

(** [hash_clear] on four buckets of uninitialized memory. *)
Lemma clear_fresh p h1 b :
  0 < p -> (forall c, c ∈ block_cells p (2 * 4) -> is_Some (h1 !! c)) ->
  let s1 := mkHst h1 b (mkHash 0 4 p) in
  exists h2, hash_clear false s1 = Ret ([], mkHst h2 (blocks s1) (tab s1)) /\ dls h2 (tabmap p (replicate 4 [])) /\
    forall x, x ∉ block_cells p (2 * 4) -> h2 !! x = h1 !! x.
Proof.
  intros Hpos Hcell s1. unfold hash_clear. sstep (eq_refl : get s1 = Ret (s1, s1)).
  edestruct (sloop_ind 4
    (fun k '(i, c) s' => exists j h', (k + j = 4)%nat /\ i = Z.of_nat j /\ s' = mkHst h' (blocks s1) (tab s1) /\ c = @nil Z /\
       dls h' (tabmap p (replicate j [])) /\ (forall c, c ∈ block_cells p (2 * 4) -> is_Some (h' !! c)) /\
       (forall x, x ∉ block_cells p (2 * 4) -> h' !! x = h1 !! x))
    (fun (c : list Z) s' => c = [] /\ exists h', s' = mkHst h' (blocks s1) (tab s1) /\ dls h' (tabmap p (replicate 4 [])) /\
       (forall x, x ∉ block_cells p (2 * 4) -> h' !! x = h1 !! x))) as (c & s2 & Hr & -> & h2 & -> & Hq).
  4: { sstep Hr. exists h2. split; [done|exact Hq]. }
  - intros k [i c] s2 (j & h & Hk & -> & -> & -> & Hdj & Hcj & Hfj). cbn [tab bucket_cnt s1].
    destruct (Z.ltb_spec (Z.of_nat j) 4) as [Hlt|Hge].
    + right. set (l := bucket_addr p j).
      assert (l ∈ block_cells p (2 * 4) /\ l + 8 ∈ block_cells p (2 * 4)) as [Hl1 Hl2].
      { split; apply block_bucket; exists j; (split; [lia|]); [by left|by right]. }
      destruct (dls_init h (tabmap p (replicate j [])) l) as (h3 & E3 & Hd3 & Hf3 & C1 & C2);
        [done|unfold l, bucket_addr; lia| | |by apply Hcj|by apply Hcj|];
        [intros (t & Ht & Hx)%owned_replicate; unfold l, bucket_addr in Hx; lia..|].
      exists (k - 1)%nat, (Z.of_nat j + 1, []), (mkHst h3 (blocks s1) (tab s1)).
      split; [sstep (eq_refl : sret (@nil Z) (mkHst h (blocks s1) (tab s1)) = Ret ([], mkHst h (blocks s1) (tab s1)));
        unfold sizeof_list; erewrite sbind_run; [|apply run_lists; exact E3]; done|].
      split; [|lia]. exists (S j), h3. split; [lia|]. split; [lia|]. split; [done|]. split; [done|]. split; [|split].
      * rewrite replicate_S_end, tabmap_snoc, length_replicate. done.
      * intros c Hc. destruct (decide (c = l)) as [->|]; [done|]. destruct (decide (c = l + 8)) as [->|]; [done|].
        rewrite Hf3 by done. by apply Hcj.
      * intros x Hx. rewrite Hf3; [by apply Hfj|intros ->; done|intros ->; done].
    + left. exists [], (mkHst h (blocks s1) (tab s1)). split; [done|]. split; [done|]. exists h. replace j with 4%nat in Hdj by lia. done.
  - exists O, h1. split; [done|]. split; [done|]. split; [done|]. split; [done|]. split; [|done].
    split; intros ? ?; unfold tabmap; simpl; by rewrite lookup_empty.
  - done.
Qed.

(** [hash_init] makes an empty table of four buckets, or fails with [malloc]. *)
Lemma run_hash_init s :
  exists s', hash_init place junk s = Ret (negb (place s 64 =? NULL), s') /\
    (place s 64 <> NULL -> rep hash_fn less s' (replicate 4 []) /\ forall x v, cells s !! x = Some v -> cells s' !! x = Some v).
Proof.
  unfold hash_init. change (u32 (sizeof_list * 4)) with 64. destruct (decide (place s 64 = NULL)) as [Hn|Hp].
  { assert (malloc place junk 64 s = Ret (NULL, s)) as Em by (unfold malloc; by rewrite Hn). sstep Em. rewrite Hn.
    eexists. split; [done|]. done. }
  assert (dls (cells s) ∅) as He by (split; intros ? ?; rewrite lookup_empty; done).
  destruct (place_fresh s 64 Hp) as [Hpos Hfr]. change (Z.to_nat (64 / 8)) with (2 * 4)%nat in Hfr. set (p := place s 64) in *.
  set (h1 := foldr (fun c h => <[c := junk c]> h) (cells s) (block_cells p (2 * 4))).
  set (s1 := mkHst h1 (<[p := (2 * 4)%nat]> (blocks s)) (mkHash 0 4 p)).
  assert (malloc place junk 64 s = Ret (p, mkHst h1 (<[p := (2 * 4)%nat]> (blocks s)) (tab s))) as Em.
  { unfold malloc. fold p. by rewrite (proj2 (Z.eqb_neq p NULL)). }
  sstep Em. rewrite (proj2 (Z.eqb_neq p NULL)) by done. cbn [negb].
  assert (forall c, c ∈ block_cells p (2 * 4) -> is_Some (h1 !! c)) as Hcell.
  { intros c Hc. unfold h1. rewrite lookup_foldr_insert, decide_True by done. eauto. }
  destruct (clear_fresh p h1 (<[p := (2 * 4)%nat]> (blocks s)) Hpos Hcell) as (h2 & Ec & Hd2 & Hf2). fold s1 in Ec.
  unfold sbind at 1, with_tab at 1. cbn [cells blocks tab]. fold s1. sstep Ec. eexists. split; [done|]. intros _. split.
  - apply (rep_empty _ 4 p); cbn [tab blocks cells]; [lia|done|done|apply lookup_insert_eq|done].
  - intros x v Hv. cbn [cells]. assert (x ∉ block_cells p (2 * 4)) as Hx by (intros Hc; by rewrite Hfr in Hv).
    rewrite Hf2 by done. unfold h1. by rewrite lookup_foldr_insert, decide_False.
Qed.

(** ** Iteration *)

Lemma run_visit s l xs called :
  dl (cells s) l xs -> len xs < two32 -> visit_bucket l called s = Ret (called ++ xs, s).
Proof.
  intros Hd Hn. unfold visit_bucket. sstep (run_lists_ro _ _ _ (run_list_begin _ _ _ Hd)).
  edestruct (sloop_ind (length xs)
    (fun k '(e, c) s' => s' = s /\ exists pre post, xs = pre ++ post /\ k = length post /\ e = cur l post /\ c = called ++ pre)
    (fun c s' => s' = s /\ c = called ++ xs)) as (c & s' & Hr & -> & ->); [| | |exact Hr].
  - intros k [e c] s' (-> & pre & post & -> & -> & -> & ->). sstep (run_lists_ro _ _ _ (run_list_end _ _ _ Hd)).
    rewrite (cur_end _ _ pre post Hd). destruct post as [|x post]; cbn [negb].
    + left. eexists _, _. split; [done|]. by rewrite app_nil_r.
    + right. change (cur l (x :: post)) with x. exists (length post), (cur l post, (called ++ pre) ++ [x]), s.
      sstep (run_lists_ro _ _ _ (run_list_next _ _ _ _ _ Hd)). split; [done|]. split; [|simpl; lia]. split; [done|].
      exists (pre ++ [x]), post. by rewrite <- !app_assoc.
  - split; [done|]. exists [], xs. by rewrite app_nil_r.
  - done.
Qed.

Lemma run_hash_apply s bs : rep hash_fn less s bs -> hash_apply s = Ret (mjoin bs, s).
Proof.
  intros R. unfold hash_apply. sstep (eq_refl : get s = Ret (s, s)). rewrite (rep_cnt _ _ _ _ R).
  edestruct (sloop_ind (length bs)
    (fun k '(i, c) s' => s' = s /\ exists j, (k + j = length bs)%nat /\ i = Z.of_nat j /\ c = mjoin (take j bs))
    (fun c s' => s' = s /\ c = mjoin bs)) as (c & s' & Hr & -> & ->); [| | |exact Hr].
  - intros k [i c] s' (-> & j & Hk & -> & ->). destruct (Z.ltb_spec (Z.of_nat j) (len bs)) as [Hlt|Hge].
    + right. destruct (lookup_lt_is_Some_2 bs j) as [xs Hxs]; [lia|].
      edestruct rep_bucket as [Hd _]; [exact R|exact Hxs|].
      pose proof (join_length_le bs j xs Hxs). pose proof (rep_small _ _ _ _ R).
      exists (k - 1)%nat, (Z.of_nat j + 1, mjoin (take j bs) ++ xs), s. unfold sizeof_list. fold (bucket_addr (buckets (tab s)) j).
      erewrite sbind_run by (apply (run_visit s _ xs _ Hd); unfold two32; lia). split; [done|]. split; [|lia].
      split; [done|]. exists (S j). split; [lia|]. split; [lia|]. rewrite (take_S_r _ _ _ Hxs), join_app. simpl. by rewrite app_nil_r.
    + left. eexists _, _. split; [done|]. split; [done|]. by rewrite take_ge by lia.
  - split; [done|]. exists O. split; [lia|done].
  - pose proof (rep_pos _ _ _ _ R). unfold two32. lia.
Qed.

(** The next node of a position, also at the head. *)
Lemma run_next_rcur h l pre post : dl h l (pre ++ post) -> list_next (rcur l pre) h = Ret (cur l post, h).
Proof.
  intros H. destruct pre as [|x pre _] using rev_ind.
  - destruct (dl_link h l [] post H) as [Hn _]. simpl in *. unfold rcur in *. simpl in *.
    assert (head_of l <> NULL) as Hh by (by eapply dl_l_nonnull).
    assert (cur l post <> NULL) as Hc by (eapply dl_nodes_nonnull; [exact H|apply (cur_in l [] post)]).
    unfold list_next. sstep (run_is_head h (head_of l) NULL _ Hh (dl_head _ _ _ H) Hn). rewrite Z.eqb_refl.
    rewrite (proj2 (Z.eqb_neq (cur l post) NULL)) by done. cbn [andb negb]. sstep (eq_refl : sret true h = Ret (true, h)).
    sassert by done. by apply run_get_next.
  - unfold rcur. rewrite last_snoc. simpl. apply (run_list_next h l pre x post). by rewrite <- app_assoc in H.
Qed.

(** An iterator after the elements [pre] of bucket [j]. *)
Definition at_pos (s : hstate) (bs : list (list Z)) (i : hash_iterator) (j : nat) (pre post : list Z) : Prop :=
  bs !! j = Some (pre ++ post) /\ i = mkIter (bucket_addr (buckets (tab s)) j) (rcur (bucket_addr (buckets (tab s)) j) pre).

(** [hash_next] goes to the next element of the bucket, or of the next
    non-empty bucket. *)
Lemma run_hash_next s bs i j pre post :
  rep hash_fn less s bs -> at_pos s bs i j pre post ->
  exists e i', hash_next i s = Ret ((e, i'), s) /\ hash_cur i' = e /\
    match post ++ mjoin (drop (S j) bs) with
    | [] => e = NULL
    | x :: rest => e = x /\ e <> NULL /\ exists j' pre' post', at_pos s bs i' j' pre' post' /\ rest = post' ++ mjoin (drop (S j') bs)
    end.
Proof.
  intros R (Hj & ->). set (base := buckets (tab s)) in *.
  assert (forall j xs, bs !! j = Some xs -> dl (cells s) (bucket_addr base j) xs) as Hdl.
  { intros j' xs H. edestruct rep_bucket as [Hd _]; [exact R|exact H|done]. }
  unfold hash_next. sstep (eq_refl : get s = Ret (s, s)). cbn [i_elem i_bucket].
  sstep (run_lists_ro _ _ _ (run_next_rcur _ _ _ _ (Hdl _ _ Hj))). rewrite (rep_cnt _ _ _ _ R). fold base.
  set (all := post ++ mjoin (drop (S j) bs)).
  edestruct (sloop_ind (length bs - j)
    (fun k i s' => s' = s /\ exists j1 pre1 post1, bs !! j1 = Some (pre1 ++ post1) /\ (k + j1 = length bs)%nat /\
       i = mkIter (bucket_addr base j1) (cur (bucket_addr base j1) post1) /\ all = post1 ++ mjoin (drop (S j1) bs))
    (fun i s' => s' = s /\ match all with
       | [] => i_elem i = NULL
       | x :: rest => i_elem i = x /\ x <> NULL /\ exists j' pre' post', at_pos s bs i j' pre' post' /\ rest = post' ++ mjoin (drop (S j') bs)
       end)) as (i' & s' & Hr & -> & Hq).
  4: { sstep Hr. exists (i_elem i'), i'. split; [done|]. split; [done|]. destruct all as [|x rest]; [done|]. destruct Hq as (-> & Hq). done. }
  - intros k i s' (-> & j1 & pre1 & post1 & Hj1 & Hk & -> & Hall). pose proof (Hdl _ _ Hj1) as Hd. cbn [i_elem i_bucket].
    sstep (run_lists_ro _ _ _ (run_list_end _ _ _ Hd)). rewrite (cur_end _ _ _ _ Hd). pose proof (lookup_lt_Some _ _ _ Hj1).
    destruct post1 as [|x post1].
    + simpl in Hall. destruct (Z.leb_spec (base + sizeof_list * len bs) (bucket_addr base j1 + sizeof_list)) as [Hle|Hgt].
      * left. eexists _, s. split; [done|]. split; [done|]. rewrite drop_ge in Hall; [|unfold bucket_addr, sizeof_list in Hle; lia].
        rewrite Hall. done.
      * right. unfold sizeof_list, bucket_addr in Hgt. destruct (lookup_lt_is_Some_2 bs (S j1)) as [xs Hxs]; [lia|].
        replace (bucket_addr base j1 + sizeof_list) with (bucket_addr base (S j1)) by (unfold bucket_addr, sizeof_list; lia).
        exists (k - 1)%nat. eexists _, s. sstep (run_lists_ro _ _ _ (run_list_begin _ _ _ (Hdl _ _ Hxs))).
        split; [done|]. split; [|lia]. split; [done|]. exists (S j1), [], xs. split; [done|]. split; [lia|]. split; [done|].
        rewrite Hall, (drop_S _ _ _ Hxs). done.
    + left. eexists _, s. split; [done|]. split; [done|]. rewrite Hall. simpl. split; [done|].
      split; [eapply dl_nodes_nonnull; [exact Hd|unfold nodes; set_solver]|].
      exists j1, (pre1 ++ [x]), post1. split; [|done]. split; [by rewrite <- app_assoc|]. unfold rcur. rewrite last_snoc. done.
  - split; [done|]. exists j, pre, post. pose proof (lookup_lt_Some _ _ _ Hj). split; [done|]. split; [lia|done].
  - pose proof (rep_pos _ _ _ _ R). unfold two32. lia.
Qed.

(** The iteration idiom of [hash_first]'s comment. *)
Fixpoint iterate (fuel : nat) (i : hash_iterator) : ST hstate (list Z) :=
  match fuel with
  | O => stop NoFuel
  | S fuel =>
      do! r := hash_next i in
      if r.1 =? NULL then sret []
      else
        do! l := iterate fuel r.2 in
        sret (hash_cur r.2 :: l)
  end.

Lemma run_iterate s bs fuel i j pre post :
  rep hash_fn less s bs -> at_pos s bs i j pre post -> (length (post ++ mjoin (drop (S j) bs)) < fuel)%nat ->
  iterate fuel i s = Ret (post ++ mjoin (drop (S j) bs), s).
Proof.
  intros R. revert i j pre post. induction fuel as [|fuel IH]; intros i j pre post Hp Hl; [lia|]. cbn [iterate].
  destruct (run_hash_next s bs i j pre post R Hp) as (e & i' & E & Hcur & Hq). sstep E. cbn [fst snd].
  destruct (post ++ mjoin (drop (S j) bs)) as [|x rest]; [by rewrite Hq|].
  destruct Hq as (-> & Hne & j' & pre' & post' & Hp' & ->). rewrite (proj2 (Z.eqb_neq x NULL)) by done.
  erewrite sbind_run by (apply (IH i' j' pre' post' Hp'); simpl in Hl; lia). by rewrite Hcur.
Qed.

Lemma join_NoDup (bs : list (list Z)) :
  (forall i xs, bs !! i = Some xs -> NoDup xs) ->
  (forall i j xs ys x, i <> j -> bs !! i = Some xs -> bs !! j = Some ys -> x ∈ xs -> x ∉ ys) -> NoDup (mjoin bs).
Proof.
  induction bs as [|b bs IH]; intros H1 H2; [constructor|]. simpl. apply NoDup_app. split; [by apply (H1 O)|]. split.
  - intros x Hx (ys & Hy & Hin)%list_elem_of_join. apply list_elem_of_lookup in Hin as (i & Hi). by apply (H2 O (S i) b ys x).
  - apply IH; [intros i xs Hi; by apply (H1 (S i))|].
    intros i j xs ys x Hne Hi Hj. apply (H2 (S i) (S j)); [lia|done|done].
Qed.

Lemma rep_NoDup s bs : rep hash_fn less s bs -> NoDup (mjoin bs).
Proof.
  intros R. pose proof (rep_dls _ _ _ _ R) as Hd. apply join_NoDup.
  - intros i xs Hi. pose proof (dl_nodup _ _ _ (dls_dl _ _ Hd (bucket_addr (buckets (tab s)) i) xs ltac:(apply lookup_tabmap; eauto))) as Hn.
    unfold nodes in Hn. apply NoDup_cons in Hn as [_ Hn]. by apply NoDup_app in Hn as [? _].
  - intros i j xs ys x Hne Hi Hj Hx Hy.
    apply (dls_disj _ _ Hd (bucket_addr (buckets (tab s)) i) (bucket_addr (buckets (tab s)) j) xs ys x);
      [apply lookup_tabmap; eauto|apply lookup_tabmap; eauto|unfold bucket_addr; lia|unfold nodes; set_solver|unfold nodes; set_solver].
Qed.

(** The elements of a table are distinct and as many as [hash_size]
    says; [hash_apply] and the iteration idiom visit each of them exactly
    once, in the same order, and end; [hash_clear] gives each of them to the
    destructor once and leaves an empty table. *)
Theorem hash_iteration s bs :
  rep hash_fn less s bs ->
  NoDup (mjoin bs) /\ hash_size s = Ret (len (mjoin bs), s) /\ hash_apply s = Ret (mjoin bs, s) /\
  (do! i := hash_first in iterate (S (length (mjoin bs))) i) s = Ret (mjoin bs, s) /\
  exists s', hash_clear true s = Ret (mjoin bs, s') /\ rep hash_fn less s' (replicate (length bs) []).
Proof.
  intros R. split; [by apply (rep_NoDup s)|]. pose proof (rep_elems _ _ _ _ R) as He. pose proof (rep_pos _ _ _ _ R) as Hp.
  split; [unfold hash_size, sbind, get, sret; by rewrite He|]. split; [by apply run_hash_apply|].
  split; [|by apply (run_hash_clear true)]. destruct (lookup_lt_is_Some_2 bs 0) as [xs Hxs]; [lia|].
  assert (hash_first s = Ret (mkIter (buckets (tab s)) (buckets (tab s)), s)) as E.
  { unfold hash_first. sstep (eq_refl : get s = Ret (s, s)). destruct (rep_block _ _ _ _ R) as [Hb _].
    assert (list_head (buckets (tab s)) (cells s) = Ret (buckets (tab s), cells s)) as Hh
      by (unfold list_head; sassert by (by apply nonnull); done).
    by sstep (run_lists_ro _ _ _ Hh). }
  sstep E. assert (mjoin bs = xs ++ mjoin (drop 1 bs)) as Hj by (rewrite <- (drop_0 bs) at 1; by rewrite (drop_S _ _ _ Hxs)).
  rewrite Hj. apply (run_iterate s bs _ _ O []); [done| |lia]. split; [done|].
  unfold bucket_addr, rcur. simpl. unfold head_of. f_equal; lia.
Qed.
End Spec.

(** ** An instance

    Elements with the same address modulo 16 are equal; blocks are placed
    behind everything else. *)
Definition demo_hash (e : Z) : Z := e mod 16.
Definition demo_less16 (a b : Z) : bool := a mod 16 <? b mod 16.
Definition bump (s : hstate) (size : Z) : Z := map_fold (fun k _ m => Z.max (k + 8) m) 4096 (cells s).
Definition demo_junk (c : Z) : list_elem := mkElem 3435973836 3435973836.

Lemma bump_fresh s size : bump s size <> NULL ->
  0 < bump s size /\ forall c, c ∈ block_cells (bump s size) (Z.to_nat (size / 8)) -> cells s !! c = None.
Proof.
  intros _. unfold bump.
  assert (4096 <= map_fold (fun k (_ : list_elem) m => Z.max (k + 8) m) 4096 (cells s) /\
    forall c, is_Some (cells s !! c) -> c < map_fold (fun k (_ : list_elem) m => Z.max (k + 8) m) 4096 (cells s)) as [H1 H2].
  { apply (map_fold_weak_ind (fun r h => 4096 <= r /\ forall c, is_Some (h !! c) -> c < r)).
    - split; [lia|]. intros c [v Hv]. by rewrite lookup_empty in Hv.
    - intros k v h r _ [Hr IH]. split; [lia|]. intros c [u [[-> _]|[_ Hu]]%lookup_insert_Some]; [lia|].
      specialize (IH c (ex_intro _ u Hu)). lia. }
  split; [lia|]. intros c (k & -> & Hk)%elem_of_block_cells.
  match goal with |- ?o = None => destruct o as [v|] eqn:Hv end; [|done]. specialize (H2 _ (ex_intro _ v Hv)). lia.
Qed.

Lemma demo_equal a b : equal demo_less16 a b <-> a mod 16 = b mod 16.
Proof.
  unfold equal, demo_less16. rewrite !Z.ltb_ge. lia.
Qed.

Lemma demo_trans a b c : equal demo_less16 a b -> equal demo_less16 b c -> equal demo_less16 a c.
Proof. rewrite !demo_equal. congruence. Qed.

Lemma demo_hash_equal a b : equal demo_less16 a b -> demo_hash a = demo_hash b.
Proof. by rewrite demo_equal. Qed.

Lemma demo_hash_range e : is_u32 (demo_hash e).
Proof. unfold is_u32, demo_hash, two32. pose proof (Z.mod_pos_bound e 16). lia. Qed.

(** Two equal elements, and a table. *)
Definition demo_start : hstate := mkHst {[ 24 := mkElem 0 0; 40 := mkElem 0 0 ]} ∅ (mkHash 0 0 0).
Definition demo_table : hstate :=
  match hash_init bump demo_junk demo_start with Ret (_, s) => s | Err _ => demo_start end.

Lemma demo_table_rep : rep demo_hash demo_less16 demo_table (replicate 4 []).
Proof.
  destruct (run_hash_init demo_hash demo_less16 bump demo_junk bump_fresh demo_start)
    as (s' & E & H).
  unfold demo_table. rewrite E. apply H. by vm_compute.
Qed.

Lemma demo_linkable : linkable demo_table (replicate 4 []) 24.
Proof.
  split; [done|]. split; [eexists; by vm_compute|]. intros (l & xs & (i & -> & Hi)%lookup_tabmap & Hx).
  apply lookup_replicate in Hi as [-> Hi]. apply node_cases in Hx.
  assert (buckets (tab demo_table) = 4096) as Hb by (by vm_compute). rewrite Hb in Hx. unfold bucket_addr in Hx.
  destruct Hx as [Hx|[Hx|Hx%elem_of_nil]]; [lia|lia|done].
Qed.

Lemma hash_op_refines_witness :
  exists r s' bs', run_op demo_hash demo_less16 bump demo_junk (OpInsert 24) demo_table = Ret (r, s') /\
    rep demo_hash demo_less16 s' bs' /\
    op_spec demo_less16 (OpInsert 24) (mjoin (replicate 4 [])) r (mjoin bs') /\
    keeps_but demo_table (replicate 4 []) 24 s'.
Proof.
  apply (hash_op_refines demo_hash demo_less16 bump demo_junk demo_trans demo_hash_equal demo_hash_range bump_fresh
    (OpInsert 24) demo_table (replicate 4 [])).
  - apply demo_table_rep.
  - split; [apply demo_linkable|by vm_compute].
Defined.

(** The table after the insertion of 24, of which 40 is an equal element. *)
Definition demo_one : hstate :=
  match run_op demo_hash demo_less16 bump demo_junk (OpInsert 24) demo_table with Ret (_, s) => s | Err _ => demo_table end.

Example demo_find : run_op demo_hash demo_less16 bump demo_junk (OpFind 40) demo_one = Ret (24, demo_one).
Proof. by vm_compute. Qed.

Lemma hash_iteration_witness :
  exists bs, rep demo_hash demo_less16 demo_one bs /\ hash_apply demo_one = Ret (mjoin bs, demo_one) /\ mjoin bs = [24].
Proof.
  destruct (run_hash_insert demo_hash demo_less16 bump demo_junk demo_trans demo_hash_equal demo_hash_range bump_fresh
    demo_table (replicate 4 []) 24 demo_table_rep demo_linkable ltac:(by vm_compute)) as (r & s' & bs' & E & R' & _).
  assert (demo_one = s') as <- by (unfold demo_one; cbn [run_op]; by rewrite E).
  destruct (hash_iteration demo_hash demo_less16 bump demo_junk demo_trans demo_hash_equal demo_hash_range bump_fresh demo_one bs' R')
    as (_ & _ & Ha & _).
  exists bs'. split; [exact R'|]. split; [exact Ha|].
  assert (hash_apply demo_one = Ret ([24], demo_one)) as Hc by (by vm_compute). rewrite Hc in Ha.
  clear Hc R' E. revert Ha. generalize demo_one. intros s H. congruence.
Defined.
