(* ===== verification/Stdio.v ===== *)
(** * Formatted output (lib/stdio.c)

    [__vprintf] and the functions it is built from, as the sequence of
    characters that they give to their [output] callback, in order; and
    [vsnprintf], whose callback stores them into a buffer.  Formats and
    strings are read from memory (as in [Strings]); the variable arguments
    are the 32-bit words on the stack of the i386 calling convention, a
    64-bit argument being two words.  The characters are produced before the
    callback of [vsnprintf] stores them, so that its buffer must not overlap
    the format or the strings, as the C standard demands. *)
From stdpp Require Import prelude list gmap.
From Stdlib Require Import ZArith Lia String Ascii.
From S2P Require Import Prelude Strings Sort.
#[local] Open Scope Z_scope.
#[local] Abbreviation length := Datatypes.length.

(** ** Characters and literals *)

Definition chr (a : ascii) : Z := Z.of_N (Ascii.N_of_ascii a).

Definition chars (s : string) : list Z := chr <$> String.list_ascii_of_string s.

(** A string literal, in memory of its own. *)
Definition LITERAL : Z := 4096.
Definition literal (s : string) : mem := write_bytes ∅ LITERAL (chars s ++ [0]).

(** ** Variable arguments *)

(** [va_arg (args, int)] and its like: the next word. *)
Definition va_word (args : list Z) : outcome (Z * list Z) :=
  match args with w :: args => Ret (u32 w, args) | [] => Err BadAccess end.

(** [va_arg (args, long long)] and its like. *)
Definition va_dword (args : list Z) : outcome (Z * list Z) :=
  let! (lo, args) := va_word args in
  let! (hi, args) := va_word args in
  Ret (lo + two32 * hi, args).

(** ** Conversions *)

Definition MINUS : Z := 1.
Definition PLUS : Z := 2.
Definition SPACE : Z := 4.
Definition POUND : Z := 8.
Definition ZERO : Z := 16.
Definition GROUP : Z := 32.

Inductive conv_type : Type := CHAR | SHORT | INT | INTMAX | LONG | LONGLONG | PTRDIFFT | SIZET.

Record printf_conversion : Type := mkConv { flags : Z; width : Z; precision : Z; type : conv_type }.

Definition has (flags f : Z) : bool := negb (Z.land flags f =? 0).

Record integer_base : Type := mkBase { base : Z; digits : list Z; xchar : Z; group : Z }.

Definition base_d : integer_base := mkBase 10 (chars "0123456789") 0 3.
Definition base_o : integer_base := mkBase 8 (chars "01234567") 0 3.
Definition base_x : integer_base := mkBase 16 (chars "0123456789abcdef") (chr "x") 4.
Definition base_X : integer_base := mkBase 16 (chars "0123456789ABCDEF") (chr "X") 4.

Definition output_dup (ch cnt : Z) : list Z := replicate (Z.to_nat cnt) ch.

(** The loop that reads the digits of a width or a precision. *)
Definition parse_digits (m : mem) (format n : Z) : outcome (Z * Z) :=
  loop (fun '(format, n) =>
    let! c := load m format in
    if isdigit c then Ret (inl (format + 1, s32 (n * 10 + c - 48))) else Ret (inr (format, n))) (format, n).

Definition flag_of (c : Z) : option Z :=
  if c =? chr "-" then Some MINUS
  else if c =? chr "+" then Some PLUS
  else if c =? chr " " then Some SPACE
  else if c =? chr "#" then Some POUND
  else if c =? chr "0" then Some ZERO
  else if c =? chr "'" then Some GROUP
  else None.

(** The loop over the flag characters. *)
Definition parse_flags (m : mem) (format : Z) : outcome (Z * Z) :=
  loop (fun '(format, flags) =>
    let! c := load m format in
    match flag_of c with
    | Some f => Ret (inl (format + 1, Z.lor flags f))
    | None => Ret (inr (format, flags))
    end) (format, 0).

(** Returns the position of the conversion character, the conversion and the
    remaining arguments. *)
Definition parse_conversion (m : mem) (format : Z) (args : list Z)
  : outcome (Z * printf_conversion * list Z) :=
  let! (format, flags) := parse_flags m format in
  let flags := if has flags MINUS then Z.ldiff flags ZERO else flags in
  let flags := if has flags PLUS then Z.ldiff flags SPACE else flags in
  let! c := load m format in
  let! (format, width, args) :=
    if c =? chr "*" then
      let! (w, args) := va_word args in
      Ret (format + 1, s32 w, args)
    else
      let! (format, w) := parse_digits m format 0 in
      Ret (format, w, args) in
  let '(width, flags) := if width <? 0 then (s32 (- width), Z.lor flags MINUS) else (width, flags) in
  let! c := load m format in
  let! (format, precision, args) :=
    if c =? chr "." then
      let format := format + 1 in
      let! c := load m format in
      let! (format, p, args) :=
        if c =? chr "*" then
          let! (w, args) := va_word args in
          Ret (format + 1, s32 w, args)
        else
          let! (format, p) := parse_digits m format 0 in
          Ret (format, p, args) in
      Ret (format, (if p <? 0 then -1 else p), args)
    else Ret (format, -1, args) in
  let flags := if 0 <=? precision then Z.ldiff flags ZERO else flags in
  let! c := load m format in
  let! (format, type) :=
    if c =? chr "h" then
      let! c := load m (format + 1) in
      Ret (if c =? chr "h" then (format + 2, CHAR) else (format + 1, SHORT))
    else if c =? chr "j" then Ret (format + 1, INTMAX)
    else if c =? chr "l" then
      let! c := load m (format + 1) in
      Ret (if c =? chr "l" then (format + 2, LONGLONG) else (format + 1, LONG))
    else if c =? chr "t" then Ret (format + 1, PTRDIFFT)
    else if c =? chr "z" then Ret (format + 1, SIZET)
    else Ret (format, INT) in
  Ret (format, mkConv flags width precision type, args).

(** [*cp++ = ch], in a buffer of 64 characters. *)
Definition push (buf : list Z) (ch : Z) : outcome (list Z) :=
  if len buf <? 64 then Ret (buf ++ [ch]) else Err BadAccess.

(** The loop that accumulates digits in reverse order. *)
Definition digit_loop (b : integer_base) (flags value : Z) : outcome (list Z) :=
  loop (fun '(value, buf, digit_cnt) =>
    if 0 <? value then
      let! buf := if has flags GROUP && (0 <? digit_cnt) && (digit_cnt mod group b =? 0)
                  then push buf (chr ",") else Ret buf in
      let! d := access (digits b !! Z.to_nat (value mod base b)) in
      let! buf := push buf d in
      Ret (inl (value / base b, buf, digit_cnt + 1))
    else Ret (inr buf)) (value, [], 0).

(** The loop that appends zeros up to the precision. *)
Definition precision_loop (buf : list Z) (precision : Z) : outcome (list Z) :=
  loop (fun buf =>
    if (len buf <? precision) && (len buf <? 63) then
      let! buf := push buf (chr "0") in
      Ret (inl buf)
    else Ret (inr buf)) buf.

Definition sign_char (is_signed negative : bool) (flags : Z) : Z :=
  if is_signed then
    if has flags PLUS then (if negative then chr "-" else chr "+")
    else if has flags SPACE then (if negative then chr "-" else chr " ")
    else if negative then chr "-" else 0
  else 0.

Definition format_integer (value : Z) (is_signed negative : bool) (b : integer_base) (c : printf_conversion)
  : outcome (list Z) :=
  let sign := sign_char is_signed negative (flags c) in
  let x := if has (flags c) POUND && negb (value =? 0) then xchar b else 0 in
  let! buf := digit_loop b (flags c) value in
  let precision := if precision c <? 0 then 1 else precision c in
  let! buf := precision_loop buf precision in
  let! buf := if has (flags c) POUND && (base b =? 8) &&
                 (match last buf with None => true | Some d => negb (d =? chr "0") end)
              then push buf (chr "0") else Ret buf in
  let pad_cnt := s32 (s32 (s32 (width c - len buf) - (if x =? 0 then 0 else 2)) - (if sign =? 0 then 0 else 1)) in
  let pad_cnt := if pad_cnt <? 0 then 0 else pad_cnt in
  Ret ((if Z.land (flags c) (Z.lor MINUS ZERO) =? 0 then output_dup (chr " ") pad_cnt else []) ++
       (if sign =? 0 then [] else [sign]) ++
       (if x =? 0 then [] else [chr "0"; x]) ++
       (if has (flags c) ZERO then output_dup (chr "0") pad_cnt else []) ++
       rev buf ++
       (if has (flags c) MINUS then output_dup (chr " ") pad_cnt else [])).

(** [for (i = 0; i < length; i++) output (string[i], aux);] *)
Definition output_string (m : mem) (string length : Z) : outcome (list Z) :=
  loop (fun '(i, out) =>
    if i <? length then
      let! ch := load m (string + i) in
      Ret (inl (i + 1, out ++ [ch]))
    else Ret (inr out)) (0, []).

Definition format_string (m : mem) (string length : Z) (c : printf_conversion) : outcome (list Z) :=
  let! s := output_string m string length in
  Ret ((if (length <? width c) && negb (has (flags c) MINUS) then output_dup (chr " ") (width c - length) else []) ++
       s ++
       (if (length <? width c) && has (flags c) MINUS then output_dup (chr " ") (width c - length) else [])).

(** The argument of a signed integer conversion. *)
Definition signed_arg (t : conv_type) (args : list Z) : outcome (Z * list Z) :=
  match t with
  | CHAR => let! (w, args) := va_word args in Ret ((w + 128) mod 256 - 128, args)
  | SHORT => let! (w, args) := va_word args in Ret ((w + 32768) mod 65536 - 32768, args)
  | INT | LONG | PTRDIFFT => let! (w, args) := va_word args in Ret (s32 w, args)
  | INTMAX | LONGLONG => let! (w, args) := va_dword args in Ret (s64 w, args)
  | SIZET => let! (w, args) := va_word args in Ret (if 2147483647 <? w then w - two32 else w, args)
  end.

(** The argument of an unsigned integer conversion. *)
Definition unsigned_arg (t : conv_type) (args : list Z) : outcome (Z * list Z) :=
  match t with
  | CHAR => let! (w, args) := va_word args in Ret (w mod 256, args)
  | SHORT => let! (w, args) := va_word args in Ret (w mod 65536, args)
  | INT | LONG | SIZET => va_word args
  | INTMAX | LONGLONG => va_dword args
  | PTRDIFFT => let! (w, args) := va_word args in Ret (Z.land (u64 (s32 w)) 4294967295, args)
  end.

(** What [__vprintf] does with a conversion character; [unsupported] is the
    nested call of [__printf] for the ones it does not know. *)
Definition convert (unsupported : string -> Z -> outcome (list Z))
    (m : mem) (ch : Z) (c : printf_conversion) (args : list Z) : outcome (list Z * list Z) :=
  if (ch =? chr "d") || (ch =? chr "i") then
    let! (value, args) := signed_arg (type c) args in
    let! out := format_integer (u64 (if value <? 0 then s64 (- value) else value)) true (value <? 0) base_d c in
    Ret (out, args)
  else if (ch =? chr "o") || (ch =? chr "u") || (ch =? chr "x") || (ch =? chr "X") then
    let! (value, args) := unsigned_arg (type c) args in
    let b := if ch =? chr "o" then base_o else if ch =? chr "u" then base_d
             else if ch =? chr "x" then base_x else base_X in
    let! out := format_integer value false false b c in
    Ret (out, args)
  else if ch =? chr "c" then
    let! (w, args) := va_word args in
    let! out := format_string (write_bytes ∅ LITERAL [u8 w]) LITERAL 1 c in
    Ret (out, args)
  else if ch =? chr "s" then
    let! (s, args) := va_word args in
    let '(m, s) := if s =? NULL then (literal "(null)", LITERAL) else (m, s) in
    let! n := strnlen m s (u32 (precision c)) in
    let! out := format_string m s (s32 n) c in
    Ret (out, args)
  else if ch =? chr "p" then
    let! (p, args) := va_word args in
    let! out := format_integer p false false base_x (mkConv POUND (width c) (precision c) (type c)) in
    Ret (out, args)
  else if (ch =? chr "f") || (ch =? chr "e") || (ch =? chr "E") || (ch =? chr "g") || (ch =? chr "G") || (ch =? chr "n") then
    let! out := unsupported "<<no %%%c in kernel>>"%string ch in
    Ret (out, args)
  else
    let! out := unsupported "<<no %%%c conversion>>"%string ch in
    Ret (out, args).

(** [__vprintf]: the characters given to [output].  The messages for unknown
    conversions are printed by a nested call, whose format has none. *)
Fixpoint vprintf_nested (depth : nat) (m : mem) (format : Z) (args : list Z) : outcome (list Z) :=
  match depth with
  | O => Err NoFuel
  | S depth =>
      loop (fun '(format, args, out) =>
        let! c := load m format in
        if c =? 0 then Ret (inr out)
        else if negb (c =? chr "%") then Ret (inl (format + 1, args, out ++ [c]))
        else
          let format := format + 1 in
          let! c := load m format in
          if c =? chr "%" then Ret (inl (format + 1, args, out ++ [chr "%"]))
          else
            let! (format, c, args) := parse_conversion m format args in
            let! ch := load m format in
            let! (o, args) :=
              convert (fun fmt ch => vprintf_nested depth (literal fmt) LITERAL [ch]) m ch c args in
            Ret (inl (format + 1, args, out ++ o))) (format, args, [])
  end.

Definition __vprintf (m : mem) (format : Z) (args : list Z) : outcome (list Z) := vprintf_nested 2 m format args.

(** ** Output to a buffer *)

Record vsnprintf_aux : Type := mkAux { aux_p : Z; aux_length : Z; aux_max_length : Z }.

Definition vsnprintf_helper (ch : Z) (aux : vsnprintf_aux) (m : mem) : outcome (vsnprintf_aux * mem) :=
  let length := s32 (aux_length aux + 1) in
  if aux_length aux <? aux_max_length aux then
    let! m := store m (aux_p aux) ch in
    Ret (mkAux (aux_p aux + 1) length (aux_max_length aux), m)
  else Ret (mkAux (aux_p aux) length (aux_max_length aux), m).

Fixpoint helper_all (chs : list Z) (aux : vsnprintf_aux) (m : mem) : outcome (vsnprintf_aux * mem) :=
  match chs with
  | [] => Ret (aux, m)
  | ch :: chs =>
      let! (aux, m) := vsnprintf_helper ch aux m in
      helper_all chs aux m
  end.

Definition vsnprintf (m : mem) (buffer buf_size format : Z) (args : list Z) : outcome (Z * mem) :=
  let aux := mkAux buffer 0 (s32 (if 0 <? buf_size then buf_size - 1 else 0)) in
  let! chs := __vprintf m format args in
  let! (aux, m) := helper_all chs aux m in
  let! m := if 0 <? buf_size then store m (aux_p aux) 0 else Ret m in
  Ret (aux_length aux, m).

(** The arguments of the call are its variable arguments. *)
Definition snprintf (m : mem) (buffer buf_size format : Z) (args : list Z) : outcome (Z * mem) :=
  vsnprintf m buffer buf_size format args.

Example printf_demo :
  __vprintf (literal "%5d|%-5d|%05d|%#x|%+d|%c%%|%'d|%o|%q") LITERAL [42; 42; -7; 255; 3; 65; 1234567; 8]
  = Ret (chars "   42|42   |-0007|0xff|+3|A%|1,234,567|10|<<no %q conversion>>").
Proof. by vm_compute. Qed.

(** ** Dumps and sizes *)

(** [printf] with a literal format: the characters written to the console. *)
Definition printf (format : string) (args : list Z) : outcome (list Z) := __vprintf (literal format) LITERAL args.

(** [for (; i < n; i++) printf (f i)] *)
Definition printf_from (i n : Z) (f : Z -> outcome (list Z)) (out : list Z) : outcome (list Z) :=
  for_loop (Z.to_nat (n - i)) i (fun i out => let! o := f i in Ret (out ++ o)) out.

Definition isprint (c : Z) : bool := (32 <=? c) && (c <? 127).

(** One line of [hex_dump], for the bytes at [buf]. *)
Definition hex_line (m : mem) (ofs buf start endp : Z) (ascii : bool) : outcome (list Z) :=
  let per_line := 16 in
  let line := ROUND_DOWN ofs per_line in
  let! out := printf "%08jx  " [line; 0] in
  let! out := printf_from 0 start (fun _ => printf "   " []) out in
  let! out := printf_from start endp (fun i =>
    let! b := load m (buf + (i - start)) in
    printf "%02hhx%c" [b; if i =? per_line / 2 - 1 then chr "-" else chr " "]) out in
  let! out :=
    if ascii then
      let! out := printf_from endp per_line (fun _ => printf "   " []) out in
      let! o := printf "|" [] in
      let! out := printf_from 0 start (fun _ => printf " " []) (out ++ o) in
      let! out := printf_from start endp (fun i =>
        let! b := load m (buf + (i - start)) in
        printf "%c" [if isprint b then b else chr "."]) out in
      let! out := printf_from endp per_line (fun _ => printf " " []) out in
      let! o := printf "|" [] in
      Ret (out ++ o)
    else Ret out in
  Ret (out ++ [10]).

Definition hex_dump (m : mem) (ofs buf_ size : Z) (ascii : bool) : outcome (list Z) :=
  loop (fun '(ofs, buf, size, out) =>
    if 0 <? size then
      let per_line := 16 in
      let start := ofs mod per_line in
      let endp := if size <? per_line - start then start + size else per_line in
      let n := endp - start in
      let! o := hex_line m ofs buf start endp ascii in
      Ret (inl (u32 (ofs + n), buf + n, size - n, out ++ o))
    else Ret (inr out)) (ofs, buf_, size, []).

(** [factors], without its null terminator. *)
Definition factors : list string := ["bytes"; "kB"; "MB"; "GB"; "TB"]%string.

(** [for (fp = factors; size >= 1024 && fp[1] != NULL; fp++) size /= 1024;] *)
Fixpoint scale (size : Z) (unit : string) (rest : list string) : Z * string :=
  match rest with
  | [] => (size, unit)
  | next :: rest => if 1024 <=? size then scale (size / 1024) next rest else (size, unit)
  end.

(** The format is "%llu %s"; the unit is put into memory for the call. *)
Definition print_human_readable_size (size : Z) : outcome (list Z) :=
  if size =? 1 then printf "1 byte" []
  else
    let '(size, unit) := scale size "bytes"%string (tail factors) in
    let m := write_bytes (literal "%llu %s") 8192 (chars unit ++ [0]) in
    __vprintf m LITERAL [size mod two32; size / two32; 8192].

Example hex_dump_demo :
  hex_dump (write_bytes ∅ 100 (chars "Pintos!")) 4 100 7 true
  = Ret (chars "00000000              50 69 6e 74-6f 73 21                |    Pintos!     |" ++ [10]).
Proof. by vm_compute. Qed.

Example size_demo : print_human_readable_size 3145728 = Ret (chars "3 MB").
Proof. by vm_compute. Qed.

(** ** Numerals *)

(** The value of digits, the least significant first. *)
Fixpoint num (b : Z) (ds : list Z) : Z :=
  match ds with [] => 0 | d :: ds => d + b * num b ds end.

Definition numeral_base (b : integer_base) : Prop := b = base_d \/ b = base_o \/ b = base_x \/ b = base_X.

Lemma base_facts b : numeral_base b -> 8 <= base b <= 16 /\ length (digits b) = Z.to_nat (base b) /\ 0 < group b.
Proof. intros [->|[->|[->| ->]]]; vm_compute; repeat split; congruence || done. Qed.

Definition digit (b : integer_base) (d : Z) : Z := default 0 (digits b !! Z.to_nat d).

Lemma num_app b l d : num b (l ++ [d]) = num b l + d * b ^ len l.
Proof.
  induction l as [|x l IH]; simpl; [lia|]. rewrite IH. change (Z.pos (Pos.of_succ_nat (length l))) with (Z.of_nat (S (length l))).
  rewrite Nat2Z.inj_succ, Z.pow_succ_r by lia. lia.
Qed.

Lemma num_zeros b l n : num b (l ++ replicate n 0) = num b l.
Proof. induction l as [|x l IH]; simpl; [induction n; simpl; lia|lia]. Qed.

Lemma push_ok buf ch : len buf < 64 -> push buf ch = Ret (buf ++ [ch]).
Proof. intros H. unfold push. by rewrite (proj2 (Z.ltb_lt _ _)). Qed.

(** The digits fit in the buffer, also with separators. *)
Lemma digit_loop_total b f value :
  numeral_base b -> is_u64 value -> exists buf, digit_loop b f value = Ret buf /\ len buf <= 44.
Proof.
  intros Hb Hv. destruct (base_facts b Hb) as (Hb8 & Hlen & Hg). unfold digit_loop.
  edestruct (loop_ind 22 (fun k (st : Z * list Z * Z) => let '(v, buf, _) := st in 0 <= v < base b ^ Z.of_nat k /\ (k <= 22)%nat /\ len buf <= 2 * (22 - Z.of_nat k))
    (fun buf : list Z => len buf <= 44)) as (buf & Hr & Hq); [| | |exists buf; split; [exact Hr|done]].
  - intros k [[v buf] cnt] (Hk & Hk22 & Hbuf). destruct (Z.ltb_spec 0 v) as [Hpos|]; [|left; eexists; split; [done|lia]].
    right. destruct k as [|k]; [simpl in Hk; lia|]. rewrite Nat2Z.inj_succ, Z.pow_succ_r in Hk by lia.
    assert (exists buf1, (if has f GROUP && (0 <? cnt) && (cnt mod group b =? 0) then push buf (chr ",") else Ret buf) = Ret buf1 /\
              len buf1 <= len buf + 1) as (buf1 & -> & Hl1).
    { destruct (_ && _); [|exists buf; split; [done|lia]]. rewrite push_ok by lia. eexists. split; [done|]. rewrite length_app. simpl. lia. }
    cbn [obind]. pose proof (Z.mod_pos_bound v (base b) ltac:(lia)).
    destruct (lookup_lt_is_Some_2 (digits b) (Z.to_nat (v mod base b))) as [d Hd]; [lia|]. rewrite Hd. cbn [access obind].
    rewrite push_ok by lia. cbn [obind]. exists k. eexists. split; [done|]. split; [|lia].
    split; [split; [apply Z.div_pos; lia|apply Z.div_lt_upper_bound; lia]|]. rewrite length_app. simpl. lia.
  - split; [|simpl; lia]. unfold is_u64, two64 in Hv. split; [lia|].
    assert (8 ^ 22 <= base b ^ 22) by (apply Z.pow_le_mono_l; lia). change (Z.of_nat 22) with 22. lia.
  - done.
Qed.

Lemma precision_loop_total buf p :
  len buf <= 44 -> exists buf', precision_loop buf p = Ret buf' /\ len buf' <= 63.
Proof.
  intros Hb. unfold precision_loop.
  edestruct (loop_rule (fun b : list Z => len b <= 63) (fun b : list Z => len b <= 63) (fun b => 64 - len b)) as (buf' & Hr & Hq);
    [| | | |exists buf'; split; [exact Hr|done]].
  - lia.
  - intros b Hl. cbn beta. destruct ((len b <? p) && (len b <? 63)) eqn:E; [|left; eauto].
    apply andb_true_iff in E as [_ E]. apply Z.ltb_lt in E.
    right. rewrite push_ok by lia. cbn [obind]. eexists. split; [done|]. rewrite length_app. simpl. lia.
  - lia.
  - unfold two32. lia.
Qed.

(** [format_integer] stays inside of its buffer of 64 characters and
    inside of the table of digits, and terminates, for all 64-bit values, all
    four bases and all flags, widths and precisions. *)
Theorem format_integer_in_bounds value is_signed negative b c :
  numeral_base b -> is_u64 value -> exists out, format_integer value is_signed negative b c = Ret out.
Proof.
  intros Hb Hv. unfold format_integer. destruct (digit_loop_total b (flags c) value Hb Hv) as (b1 & -> & H1). cbn [obind].
  destruct (precision_loop_total b1 (if precision c <? 0 then 1 else precision c) H1) as (b2 & -> & H2). cbn [obind].
  destruct (_ && _); [rewrite push_ok by lia|]; cbn [obind]; eauto.
Qed.

(** The longest numeral: grouped octal digits, an explicit precision. *)
Lemma format_integer_in_bounds_witness :
  exists out, format_integer (two64 - 1) false false base_o (mkConv (POUND + GROUP) 80 70 LONGLONG) = Ret out.
Proof. apply format_integer_in_bounds; [by right; left|by vm_compute]. Defined.

(** Without separators, the digits are the numeral of the value. *)
Lemma digit_loop_spec b f value :
  numeral_base b -> is_u64 value -> has f GROUP = false ->
  exists ds, digit_loop b f value = Ret (digit b <$> ds) /\ Forall (fun d => 0 <= d < base b) ds /\ num (base b) ds = value /\
             (ds = [] \/ base b ^ (len ds - 1) <= value).
Proof.
  intros Hb Hv Hf. destruct (base_facts b Hb) as (Hb8 & Hlen & Hg).
  unfold digit_loop.
  match goal with |- context [loop ?body ?s] =>
    edestruct (loop_ind 22 (fun k (st : Z * list Z * Z) => let '(v, buf, _) := st in 0 <= v < base b ^ Z.of_nat k /\ (k <= 22)%nat /\
      exists ds, buf = digit b <$> ds /\ (length ds <= 22 - k)%nat /\ Forall (fun d => 0 <= d < base b) ds /\ num (base b) ds + v * base b ^ len ds = value /\
             (ds = [] \/ base b ^ (len ds - 1) <= value))
    (fun buf : list Z => exists ds, buf = digit b <$> ds /\ Forall (fun d => 0 <= d < base b) ds /\ num (base b) ds = value /\
             (ds = [] \/ base b ^ (len ds - 1) <= value)) body s) as (buf' & Hr' & ds & -> & Hds); [| | |exists ds; split; [exact Hr'|done]] end.
  - intros k [[v bf] cnt] (Hk & Hk22 & ds & -> & Hl & Hfa & Hnum & Hmin). destruct (Z.ltb_spec 0 v) as [Hpos|].
    2:{ left. eexists. split; [reflexivity|]. exists ds. replace v with 0 in Hnum by lia. repeat split; [done|lia|done]. }
    right. destruct k as [|k]; [simpl in Hk; lia|]. rewrite Nat2Z.inj_succ, Z.pow_succ_r in Hk by lia. rewrite Hf. cbn [obind andb].
    pose proof (Z.mod_pos_bound v (base b) ltac:(lia)).
    destruct (lookup_lt_is_Some_2 (digits b) (Z.to_nat (v mod base b))) as [d Hd]; [lia|]. rewrite Hd. cbn [access obind].
    rewrite push_ok by (rewrite length_fmap; lia). cbn [obind]. exists k. eexists. split; [done|]. split; [|lia].
    split; [split; [apply Z.div_pos; lia|apply Z.div_lt_upper_bound; lia]|]. split; [lia|].
    exists (ds ++ [v mod base b]). rewrite fmap_app. simpl. unfold digit at 3. rewrite Hd. split; [done|]. rewrite length_app. simpl.
    split; [lia|]. split; [apply Forall_app_2; [done|by constructor]|]. rewrite num_app.
    replace (Z.of_nat (length ds + 1)) with (Z.succ (len ds)) by lia. rewrite Z.pow_succ_r by lia. split.
    + rewrite <- Hnum. rewrite (Z.div_mod v (base b)) at 3 by lia. ring.
    + right. replace (Z.succ (len ds) - 1) with (len ds) by lia. rewrite <- Hnum.
      assert (0 <= num (base b) ds). { clear -Hfa Hb8. induction Hfa; simpl; lia. }
      assert (0 < base b ^ len ds) by (apply Z.pow_pos_nonneg; lia). nia.
  - split; [|split; [lia|exists []; repeat split; [simpl; lia|constructor|simpl; lia|by left]]]. unfold is_u64, two64 in Hv. split; [lia|].
    assert (8 ^ 22 <= base b ^ 22) by (apply Z.pow_le_mono_l; lia). change (Z.of_nat 22) with 22. lia.
  - done.
Qed.

(** The numeral that is rendered with no precision: at least one digit, and
    no more than the value needs. *)
Lemma numeral_spec b f value :
  numeral_base b -> is_u64 value -> has f GROUP = false ->
  exists ds, (let! buf := digit_loop b f value in precision_loop buf 1) = Ret (digit b <$> ds) /\
    Forall (fun d => 0 <= d < base b) ds /\ num (base b) ds = value /\ 1 <= len ds <= 44 /\ (len ds = 1 \/ base b ^ (len ds - 1) <= value).
Proof.
  intros Hb Hv Hf. destruct (digit_loop_spec b f value Hb Hv Hf) as (ds & Hr & Hfa & Hnum & Hmin).
  destruct (digit_loop_total b f value Hb Hv) as (buf & Hr' & Hlen). rewrite Hr in Hr'. injection Hr' as <-. rewrite length_fmap in Hlen.
  rewrite Hr. cbn [obind]. destruct ds as [|d ds].
  - exists [0]. split.
    + unfold precision_loop. destruct Hb as [->|[->|[->| ->]]]; by vm_compute.
    + destruct (base_facts b Hb). repeat split; [repeat constructor; lia|simpl in *; lia|simpl; lia|simpl; lia|by left].
  - exists (d :: ds). destruct Hmin as [|Hmin]; [done|]. repeat split; [|done|done|simpl; lia|done|by right].
    unfold precision_loop. trace (fun _ : nat => digit b <$> (d :: ds)) O; [done|lia| |done].
    rewrite length_fmap, (proj2 (Z.ltb_ge _ 1)) by (simpl; lia). done.
Qed.

(** ** Conversion specifications *)

#[local] Strategy 1000 [loop].

Lemma bytes_load m p l i c : bytes_at m p l -> l !! i = Some c -> load m (p + Z.of_nat i) = Ret c.
Proof. intros H Hi. apply load_ok. by apply H. Qed.

Lemma parse_flags_spec m p fs c :
  bytes_at m p (fs ++ [c]) -> Forall (fun x => is_Some (flag_of x)) fs -> flag_of c = None -> len fs < two32 ->
  parse_flags m p = Ret (p + len fs, foldl (fun f x => Z.lor f (default 0 (flag_of x))) 0 fs).
Proof.
  intros Hb Hf Hc Hl. unfold parse_flags.
  trace (fun i : nat => (p + Z.of_nat i, foldl (fun f x => Z.lor f (default 0 (flag_of x))) 0 (take i fs))) (length fs).
  - simpl. feq.
  - destruct (lookup_lt_is_Some_2 fs i Hi) as [x Hx]. pose proof (Forall_lookup_1 _ _ _ _ Hf Hx) as [f Hfx].
    rewrite (bytes_load m p (fs ++ [c]) i x) by (done || by apply lookup_app_l_Some). cbn [obind].
    rewrite Hfx, (take_S_r _ _ x), foldl_app by done. simpl. rewrite Hfx. simpl. feq.
  - rewrite (bytes_load m p (fs ++ [c]) (length fs) c) by (done || by rewrite list_lookup_middle). cbn [obind].
    by rewrite Hc, firstn_all.
  - done.
Qed.

Lemma parse_digits_spec m p ds c n :
  bytes_at m p (ds ++ [c]) -> Forall (fun x => isdigit x = true) ds -> isdigit c = false -> len ds < two32 ->
  parse_digits m p n = Ret (p + len ds, foldl (fun n x => s32 (n * 10 + x - 48)) n ds).
Proof.
  intros Hb Hf Hc Hl. unfold parse_digits.
  trace (fun i : nat => (p + Z.of_nat i, foldl (fun n x => s32 (n * 10 + x - 48)) n (take i ds))) (length ds).
  - simpl. feq.
  - destruct (lookup_lt_is_Some_2 ds i Hi) as [x Hx]. pose proof (Forall_lookup_1 _ _ _ _ Hf Hx) as Hfx.
    rewrite (bytes_load m p (ds ++ [c]) i x) by (done || by apply lookup_app_l_Some). cbn [obind].
    simpl in Hfx. rewrite Hfx, (take_S_r _ _ x), foldl_app by done. simpl. feq.
  - rewrite (bytes_load m p (ds ++ [c]) (length ds) c) by (done || by rewrite list_lookup_middle). cbn [obind].
    by rewrite Hc, firstn_all.
  - done.
Qed.

(** A conversion character that is read as neither option nor length. *)
Definition plain_conv (c : Z) : bool :=
  negb (isdigit c) && bool_decide (flag_of c = None) && bool_decide (c ∉ chr <$> ["*"; "."; "h"; "j"; "l"; "t"; "z"]%char).

(** The specification of flags without sign or alignment, a width, and a
    conversion character. *)
Lemma parse_plain m p zero ds c args :
  bytes_at m p ((if zero : bool then [chr "0"] else []) ++ ds ++ [c]) -> plain_conv c = true ->
  Forall (fun x => isdigit x = true) ds -> head ds <> Some (chr "0") -> len ds < two32 ->
  0 <= foldl (fun n x => s32 (n * 10 + x - 48)) 0 ds ->
  parse_conversion m p args =
    Ret (p + (if zero then 1 else 0) + len ds, mkConv (if zero then ZERO else 0) (foldl (fun n x => s32 (n * 10 + x - 48)) 0 ds) (-1) INT, args).
Proof.
  intros Hb Hc Hds Hhd Hl Hw. unfold plain_conv in Hc. rewrite !andb_true_iff, negb_true_iff, !bool_decide_eq_true in Hc.
  destruct Hc as [[Hdig Hflag] Hopt]. set (fs := if zero then [chr "0"] else []) in *.
  set (nx := default c (head ds)).
  assert (flag_of nx = None) as Hnx.
  { destruct ds as [|d ds]; [done|]. unfold nx. simpl in *. inversion_clear Hds as [|? ? Hd _]. unfold isdigit in Hd.
    assert (d <> 48) by (intros ->; apply Hhd; done). unfold flag_of, chr. simpl.
    rewrite !(proj2 (Z.eqb_neq d _)) by lia. done. }
  assert (bytes_at m p (fs ++ [nx])) as Hbf.
  { apply bytes_at_app in Hb as [Hb1 Hb2]. apply bytes_at_app. split; [done|]. intros [|i] x Hx; [|done]. injection Hx as <-.
    apply Hb2. destruct ds; done. }
  unfold parse_conversion. rewrite (parse_flags_spec m p fs nx) by (done || destruct zero; simpl; repeat constructor; eauto). cbn [obind].
  replace (len fs) with (if zero then 1 else 0) by (by destruct zero).
  replace (foldl (fun f x => Z.lor f (default 0 (flag_of x))) 0 fs) with (if zero then ZERO else 0) by (by destruct zero).
  set (q := p + (if zero then 1 else 0)).
  assert (bytes_at m q (ds ++ [c])) as Hq.
  { apply bytes_at_app in Hb as [_ Hb]. unfold q. by destruct zero. }
  assert (load m q = Ret nx) as ->.
  { replace q with (q + Z.of_nat 0) by lia. apply (bytes_load m q (ds ++ [c])); [done|]. by destruct ds. }
  assert (load m (q + len ds) = Ret c) as Hlc by (apply (bytes_load m q (ds ++ [c])); [done|by rewrite list_lookup_middle]).
  assert ((nx =? chr "*") = false) as Hstar.
  { apply Z.eqb_neq. intros Hs. unfold nx in Hs. destruct ds as [|d ds]; simpl in Hs; [apply Hopt; rewrite Hs; set_solver|].
    inversion_clear Hds as [|? ? Hd _]. by rewrite Hs in Hd. }
  cbn [obind]. rewrite Hstar, (parse_digits_spec m q ds c 0) by done. cbn [obind].
  assert (forall x : ascii, x ∈ ["*"; "."; "h"; "j"; "l"; "t"; "z"]%char -> (c =? chr x) = false) as Hne.
  { intros x Hx. apply Z.eqb_neq. intros ->. apply Hopt. by apply list_elem_of_fmap_2. }
  rewrite (proj2 (Z.ltb_ge _ 0)) by done. rewrite Hlc. cbn [obind]. rewrite (Hne "."%char) by set_solver. cbn [obind]. rewrite Hlc. cbn [obind].
  rewrite (Hne "h"%char), (Hne "j"%char), (Hne "l"%char), (Hne "t"%char), (Hne "z"%char) by set_solver. cbn [obind].
  by destruct zero.
Qed.

(** A format that is a single plain conversion. *)
Lemma vprintf_one m p zero ds c args args' o :
  bytes_at m p ([chr "%"] ++ (if zero : bool then [chr "0"] else []) ++ ds ++ [c; 0]) -> plain_conv c = true -> c <> chr "%" ->
  Forall (fun x => isdigit x = true) ds -> head ds <> Some (chr "0") -> len ds < two32 ->
  0 <= foldl (fun n x => s32 (n * 10 + x - 48)) 0 ds ->
  (forall u, convert u m c (mkConv (if zero then ZERO else 0) (foldl (fun n x => s32 (n * 10 + x - 48)) 0 ds) (-1) INT) args = Ret (o, args')) ->
  __vprintf m p args = Ret o.
Proof.
  intros Hb Hc Hp Hds Hhd Hl Hw Hconv. unfold __vprintf. change 2%nat with (S 1). remember 1%nat as depth eqn:Hd. clear Hd. cbn [vprintf_nested].
  pose proof Hb as [H0 Hb1]%bytes_at_app. change (len [chr "%"]) with 1 in Hb1.
  assert (bytes_at m (p + 1) ((if zero then [chr "0"] else []) ++ ds ++ [c]) /\
          load m (p + 1 + (if zero then 1 else 0) + len ds) = Ret c /\
          load m (p + 1 + (if zero then 1 else 0) + len ds + 1) = Ret 0) as (Hspec & Hlc & Hl0).
  { apply bytes_at_app in Hb1 as [H1 H2]. pose proof H2 as [H3 H4]%bytes_at_app.
    replace (len (if zero then [chr "0"] else [])) with (if zero then 1 else 0) in * by (by destruct zero). split; [|split].
    - apply bytes_at_app. split; [done|]. replace (len (if zero then [chr "0"] else [])) with (if zero then 1 else 0) by (by destruct zero).
      apply bytes_at_app. split; [done|]. intros [|i] x Hx; [|done]. apply (H4 O). done.
    - replace (p + 1 + (if zero then 1 else 0) + len ds) with (p + 1 + (if zero then 1 else 0) + len ds + Z.of_nat 0) by lia.
      by apply (bytes_load _ _ _ _ _ H4).
    - by apply (bytes_load _ _ _ 1%nat _ H4). }
  assert (exists x, load m (p + 1) = Ret x /\ x <> chr "%") as (x & Hx & Hxp).
  { replace (p + 1) with (p + 1 + Z.of_nat 0) by lia. destruct zero; [|destruct ds as [|d ds]].
    - exists (chr "0"). split; [by apply (bytes_load _ _ _ _ _ Hb1)|done].
    - exists c. split; [by apply (bytes_load _ _ _ _ _ Hb1)|done].
    - exists d. split; [by apply (bytes_load _ _ _ _ _ Hb1)|]. inversion_clear Hds as [|? ? Hd _]. intros ->. done. }
  set (e := p + 1 + (if zero then 1 else 0) + len ds + 1) in *.
  trace (fun i : nat => match i with O => (p, args, []) | _ => (e, args', o) end) 1%nat; [done| | |done].
  - destruct i as [|i]; [|lia]. replace (load m p) with (Ret (chr "%")) by (symmetry; replace p with (p + Z.of_nat 0) by lia; by apply (bytes_load _ _ _ _ _ H0)).
    cbn [obind]. change (chr "%" =? 0) with false. change (negb (chr "%" =? chr "%")) with false. rewrite Hx. cbn [obind].
    rewrite (proj2 (Z.eqb_neq x (chr "%"))) by done. rewrite (parse_plain m (p + 1) zero ds c) by done. cbn [obind]. rewrite Hlc. cbn [obind].
    rewrite Hconv. done.
  - rewrite Hl0. done.
Qed.

Lemma rev_fmap {A B} (f : A -> B) l : rev (f <$> l) = f <$> rev l.
Proof. symmetry. apply map_rev. Qed.

Lemma rev_replicate {A} n (x : A) : rev (replicate n x) = replicate n x.
Proof. rewrite rev_alt. apply reverse_replicate. Qed.

(** [%d], and [%0<w>o] of a value of at most [w] digits. *)
Lemma format_decimal value neg :
  is_u64 value ->
  exists ds, format_integer value true neg base_d (mkConv 0 0 (-1) INT) = Ret ((if neg : bool then [chr "-"] else []) ++ (digit base_d <$> rev ds)) /\
    Forall (fun d => 0 <= d < 10) ds /\ num 10 ds = value /\ 1 <= len ds <= 44 /\ (len ds = 1 \/ 10 ^ (len ds - 1) <= value).
Proof.
  intros Hv. destruct (numeral_spec base_d 0 value ltac:(by left) Hv ltac:(done)) as (ds & Hr & Hfa & Hnum & Hlen & Hmin).
  exists ds. repeat split; [|done|done|lia|lia|done]. unfold format_integer. cbn [flags precision width base xchar].
  destruct (digit_loop base_d 0 value) as [buf|]; [|done]. cbn [obind] in *. change (if -1 <? 0 then 1 else -1) with 1. rewrite Hr. cbn [obind].
  change (has 0 POUND) with false. cbn [andb obind]. rewrite length_fmap, rev_fmap.
  assert (forall k, 0 <= k <= 2 -> s32 (s32 (s32 (0 - len ds) - 0) - k) < 0) as Hs by (intros; rewrite (s32_small (0 - len ds)), Z.sub_0_r, (s32_small (0 - len ds)), s32_small; unfold is_s32; lia).
  unfold sign_char. change (has 0 PLUS) with false. change (has 0 SPACE) with false. change (has 0 ZERO) with false. change (has 0 MINUS) with false.
  change (Z.land 0 _ =? 0) with true. change (0 =? 0) with true. change (chr "-" =? 0) with false. cbv iota.
  destruct neg; try change (chr "-" =? 0) with false; try change (0 =? 0) with true; cbv iota; rewrite (proj2 (Z.ltb_lt _ 0)) by (apply Hs; lia); by rewrite app_nil_r.
Qed.

Lemma format_octal value w :
  is_u64 value -> value < 8 ^ w -> 1 <= w <= 40 ->
  exists ds, format_integer value false false base_o (mkConv ZERO w (-1) INT) = Ret (digit base_o <$> rev ds) /\
    Forall (fun d => 0 <= d < 8) ds /\ num 8 ds = value /\ len ds = w.
Proof.
  intros Hv Hw Hwr. destruct (numeral_spec base_o ZERO value ltac:(by right; left) Hv ltac:(done)) as (ds & Hr & Hfa & Hnum & Hlen & Hmin).
  change (base base_o) with 8 in *.
  assert (len ds <= w). { destruct Hmin; [lia|]. enough (~ w <= len ds - 1) by lia. intros ?. pose proof (Z.pow_le_mono_r 8 w (len ds - 1)). lia. }
  exists (ds ++ replicate (Z.to_nat (w - len ds)) 0). repeat split.
  - unfold format_integer. cbn [flags precision width base xchar].
    destruct (digit_loop base_o ZERO value) as [buf|]; [|done]. cbn [obind] in *. change (if -1 <? 0 then 1 else -1) with 1. rewrite Hr. cbn [obind].
    change (has ZERO POUND) with false. cbn [andb obind]. rewrite length_fmap, rev_fmap. unfold sign_char.
    change (0 =? 0) with true. change (has ZERO ZERO) with true. change (has ZERO MINUS) with false. change (Z.land ZERO _ =? 0) with false. cbv iota.
    rewrite !Z.sub_0_r, !(s32_small (w - len ds)) by (unfold is_s32; lia). rewrite (proj2 (Z.ltb_ge _ 0)) by lia. rewrite app_nil_r, !app_nil_l.
    rewrite rev_app_distr, fmap_app. unfold output_dup. f_equal. f_equal.
    rewrite rev_replicate, fmap_replicate. done.
  - apply Forall_app_2; [done|]. apply Forall_replicate. lia.
  - rewrite <- Hnum. apply num_zeros.
  - rewrite length_app, length_replicate. lia.
Qed.

(** ** Reading numerals *)

(** The value of digits, the most significant first. *)
Definition value_of (b : Z) (ds : list Z) : Z := num b (rev ds).

Lemma value_of_snoc b ds d : value_of b (ds ++ [d]) = b * value_of b ds + d.
Proof. unfold value_of. rewrite rev_app_distr. simpl. lia. Qed.

Lemma value_of_le b l1 l2 :
  1 <= b -> Forall (fun d => 0 <= d) (l1 ++ l2) -> 0 <= value_of b l1 <= value_of b (l1 ++ l2).
Proof.
  intros Hb H. assert (forall l, Forall (fun d => 0 <= d) l -> 0 <= value_of b l) as Hpos.
  { induction l as [|d l IH] using rev_ind; [done|]. intros [Hl Hd]%Forall_app. inversion_clear Hd. rewrite value_of_snoc. specialize (IH Hl). nia. }
  pose proof H as [H1 H2]%Forall_app. specialize (Hpos l1 H1). split; [done|]. clear H H1.
  induction l2 as [|d l IH] using rev_ind; [by rewrite app_nil_r|]. apply Forall_app in H2 as [Hl Hd]. inversion_clear Hd.
  rewrite app_assoc, value_of_snoc. specialize (IH Hl). nia.
Qed.

Lemma value_of_take b i ds d :
  1 <= b -> Forall (fun d => 0 <= d) ds -> ds !! i = Some d ->
  value_of b (take (S i) ds) = b * value_of b (take i ds) + d /\
  0 <= value_of b (take i ds) /\ b * value_of b (take i ds) + d <= value_of b ds.
Proof.
  intros Hb Hf Hd. rewrite (take_S_r ds i d Hd), value_of_snoc. split; [done|].
  assert (forall j, 0 <= value_of b (take j ds) <= value_of b ds) as Hle.
  { intros j. rewrite <- (take_drop j ds) at 3. apply value_of_le; [done|]. by rewrite take_drop. }
  pose proof (Hle i). pose proof (Hle (S i)) as Hi. rewrite (take_S_r ds i d Hd), value_of_snoc in Hi. lia.
Qed.

Lemma digit_char d : 0 <= d < 10 -> digit base_d d = 48 + d.
Proof.
  intros H. assert (d = 0 \/ d = 1 \/ d = 2 \/ d = 3 \/ d = 4 \/ d = 5 \/ d = 6 \/ d = 7 \/ d = 8 \/ d = 9) as Hd by lia.
  by repeat destruct Hd as [->|Hd]; [..|subst d].
Qed.

(** [atoi] of a numeral with an optional minus sign. *)
Lemma atoi_spec m p neg ds :
  0 < p -> bytes_at m p ((if neg : bool then [chr "-"] else []) ++ (digit base_d <$> ds) ++ [0]) -> (0 < length ds)%nat -> len ds < two32 ->
  Forall (fun d => 0 <= d < 10) ds -> is_s32 (if neg then - value_of 10 ds else value_of 10 ds) ->
  atoi m p = Ret (if neg then - value_of 10 ds else value_of 10 ds).
Proof.
  intros Hp Hb Hl Hl2 Hf Hr. unfold atoi. rewrite (proj2 (Z.eqb_neq p NULL)) by (unfold NULL; lia). cbn [negb ASSERT obind].
  set (sg := if neg then [chr "-"] else []) in *. set (q := p + len sg).
  assert (bytes_at m q ((digit base_d <$> ds) ++ [0])) as Hq by (apply bytes_at_app in Hb; tauto).
  assert (exists c, load m p = Ret c /\ isspace c = false /\
            (if c =? 43 then (false, p + 1) else if c =? 45 then (true, p + 1) else (false, p)) = (neg, q)) as (c & Hc & Hsp & Hsg).
  { destruct neg; [exists 45|exists (digit base_d (default 0 (head ds)))]; (split; [replace p with (p + Z.of_nat 0) by lia; apply (bytes_load _ _ _ _ _ Hb)|]).
    - done.
    - done.
    - destruct ds; [simpl in Hl; lia|done].
    - destruct ds as [|d ds]; [simpl in Hl; lia|]. inversion_clear Hf as [|? ? Hd _]. unfold isspace. simpl default. rewrite digit_char by done.
      rewrite !(proj2 (Z.eqb_neq (48 + d) _)) by lia. split; [done|]. unfold q. simpl. feq. }
  match goal with |- obind ?L _ = _ => assert (L = Ret p) as -> end.
  { trace (fun _ : nat => p) O; [done|lia| |done]. rewrite Hc. cbn [obind]. by rewrite Hsp. }
  cbn [obind]. rewrite Hc. cbn [obind]. rewrite Hsg.
  assert (value_of 10 ds <= 2147483648) as Hmax by (unfold is_s32 in Hr; destruct neg; lia).
  match goal with |- obind ?L _ = _ => assert (L = Ret (- value_of 10 ds)) as -> end.
  { assert (Forall (fun d => 0 <= d) ds) as Hnn by (eapply Forall_impl; [done|]; simpl; lia).
    trace (fun i : nat => (q + Z.of_nat i, - value_of 10 (take i ds))) (length ds).
    - simpl. feq.
    - destruct (lookup_lt_is_Some_2 ds i Hi) as [d Hd]. pose proof (Forall_lookup_1 _ _ _ _ Hf Hd) as Hfd. cbn beta in Hfd.
      rewrite (bytes_load _ _ _ i (digit base_d d) Hq) by (apply lookup_app_l_Some; by rewrite list_lookup_fmap, Hd). cbn [obind].
      rewrite digit_char by done. unfold isdigit. rewrite (proj2 (Z.leb_le 48 _)), (proj2 (Z.leb_le _ 57)) by lia. cbn [andb].
      destruct (value_of_take 10 i ds d) as (-> & H1 & H2); [lia|done|done|].
      rewrite s32_small by (unfold is_s32; lia). feq.
    - rewrite (bytes_load _ _ _ (length ds) 0 Hq) by (rewrite list_lookup_middle; [done|by rewrite length_fmap]). cbn [obind].
      by rewrite firstn_all.
    - done. }
  cbn [obind]. destruct neg; cbn [negb]; [done|]. rewrite Z.opp_involutive, s32_small by done. done.
Qed.

(** ** Output to a buffer *)

Lemma helper_all_spec chs p l mx m :
  0 <= l -> l + len chs < 2147483648 -> mapped m p (mx - l) ->
  helper_all chs (mkAux p l mx) m =
    Ret (mkAux (p + len (take (Z.to_nat (mx - l)) chs)) (l + len chs) mx, write_bytes m p (take (Z.to_nat (mx - l)) chs)).
Proof.
  revert p l m. induction chs as [|ch chs IH]; intros p l m Hl Hlen Hm.
  - rewrite take_nil. simpl. by rewrite !Z.add_0_r.
  - cbn [helper_all]. unfold vsnprintf_helper. cbn [aux_p aux_length aux_max_length]. simpl length in Hlen.
    rewrite s32_small by (unfold is_s32; lia). destruct (Z.ltb_spec l mx) as [Hlt|Hge].
    + rewrite store_ok by (apply Hm; lia). cbn [obind]. rewrite IH; [|lia|lia|].
      2:{ intros q Hq. change (is_Some (write_bytes m p [ch] !! q)). apply mapped_write with (q := p) (n := mx - l); [done|lia]. }
      replace (Z.to_nat (mx - l)) with (S (Z.to_nat (mx - (l + 1)))) by lia. simpl take. simpl write_bytes. simpl length. feq.
    + cbn [obind]. replace (Z.to_nat (mx - l)) with O by lia. rewrite IH; [|lia|lia|intros q Hq; lia].
      replace (Z.to_nat (mx - (l + 1))) with O by lia. simpl. feq.
Qed.

Lemma vsnprintf_spec m buffer buf_size format args chs :
  __vprintf m format args = Ret chs -> len chs < 2147483648 ->
  0 <= buf_size <= 2147483648 -> mapped m buffer buf_size ->
  vsnprintf m buffer buf_size format args =
    Ret (len chs, if 0 <? buf_size then write_bytes m buffer (take (Z.to_nat (buf_size - 1)) chs ++ [0]) else m).
Proof.
  intros Hch Hlen Hsz Hm. unfold vsnprintf. rewrite Hch. cbn [obind]. destruct (Z.ltb_spec 0 buf_size).
  - rewrite s32_small by (unfold is_s32; lia). rewrite helper_all_spec; [|lia|lia|intros q Hq; apply Hm; lia]. cbn [obind aux_p aux_length].
    rewrite Z.sub_0_r. rewrite store_ok.
    + cbn [obind]. by rewrite write_bytes_snoc.
    + apply mapped_write with (q := buffer) (n := buf_size); [done|]. rewrite length_take. lia.
  - change (s32 0) with 0. rewrite helper_all_spec; [|lia|lia|intros q Hq; lia]. done.
Qed.

(** C37: when the characters that a format and its arguments produce are
    [chs], [snprintf] returns their number, leaves the first [buf_size - 1]
    of them in the buffer, always followed by a null byte, and changes no
    byte outside of the buffer; with a buffer of size zero it changes no
    memory at all. *)
Theorem snprintf_bounded m buffer buf_size format args chs :
  __vprintf m format args = Ret chs -> len chs < 2147483648 ->
  0 <= buf_size <= 2147483648 -> mapped m buffer buf_size ->
  exists m', snprintf m buffer buf_size format args = Ret (len chs, m') /\
    (0 < buf_size -> bytes_at m' buffer (take (Z.to_nat (buf_size - 1)) chs ++ [0])) /\
    (forall q, ~ (buffer <= q < buffer + buf_size) -> m' !! q = m !! q).
Proof.
  intros Hch Hlen Hsz Hm. unfold snprintf. rewrite (vsnprintf_spec _ _ _ _ _ chs) by done. eexists. split; [done|].
  destruct (Z.ltb_spec 0 buf_size); split; [..|done].
  - intros _. apply write_bytes_at.
  - intros q Hq. apply lookup_write_bytes_out. rewrite length_app, length_take. simpl. lia.
  - lia.
Qed.

Lemma snprintf_bounded_witness :
  exists m', snprintf (write_bytes (literal "%d-%s") 100 (replicate 5 7)) 100 5 LITERAL [-42; 0] = Ret (10, m') /\
    (0 < 5 -> bytes_at m' 100 (chars "-42-" ++ [0])) /\
    (forall q, ~ (100 <= q < 100 + 5) -> m' !! q = write_bytes (literal "%d-%s") 100 (replicate 5 7) !! q).
Proof.
  apply (snprintf_bounded (write_bytes (literal "%d-%s") 100 (replicate 5 7)) 100 5 LITERAL [-42; 0] (chars "-42-(null)"));
    [by vm_compute|by vm_compute|lia|].
  apply (bytes_at_mapped _ 100 (replicate 5 7)), write_bytes_at.
Defined.

(** ** Numbers, printed and read back *)

Lemma s32_u32 n : is_s32 n -> s32 (u32 n) = n.
Proof. intros H. unfold s32, u32. rewrite Z.add_mod_idemp_l by done. fold (s32 n). by apply s32_small. Qed.

(** The characters of [%d]. *)
Lemma printf_decimal m format n :
  bytes_at m format (chars "%d" ++ [0]) -> is_s32 n ->
  exists ds, __vprintf m format [n] = Ret ((if n <? 0 then [chr "-"] else []) ++ (digit base_d <$> ds)) /\
    Forall (fun d => 0 <= d < 10) ds /\ value_of 10 ds = Z.abs n /\ 1 <= len ds <= 10.
Proof.
  intros Hb Hn. destruct (format_decimal (Z.abs n) (n <? 0)) as (ds & Hf & Hfa & Hnum & Hlen & Hmin); [unfold is_u64, is_s32, two64 in *; lia|].
  exists (rev ds). split; [|split; [by apply Forall_rev|split; [unfold value_of; by rewrite rev_involutive|rewrite length_rev]]].
  - apply (vprintf_one m format false [] (chr "d") [n] []); [done|done|done|constructor|done|done|done|].
    intros u. unfold convert. change ((chr "d" =? chr "d") || (chr "d" =? chr "i")) with true. cbv iota. cbn [type signed_arg va_word obind].
    rewrite s32_u32 by done. cbn [foldl]. replace (u64 (if n <? 0 then s64 (- n) else n)) with (Z.abs n); [by rewrite Hf|].
    unfold is_s32 in Hn. unfold u64, s64, two64. destruct (Z.ltb_spec n 0); [|rewrite Z.mod_small; lia].
    rewrite (Z.mod_small (- n + _)) by (unfold two64; lia). rewrite Z.mod_small; lia.
  - split; [lia|]. destruct Hmin; [lia|]. enough (~ 10 <= len ds - 1) by lia. intros ?.
    pose proof (Z.pow_le_mono_r 10 10 (len ds - 1)). unfold is_s32 in Hn. lia.
Qed.

(** For every [int] [n], printing it with [snprintf (buffer, size, "%d", n)]
    into a buffer of at least 12 bytes and reading the buffer with [atoi]
    gives [n] back, the most negative integer included. *)
Theorem decimal_roundtrip m buffer size format n :
  bytes_at m format (chars "%d" ++ [0]) -> is_s32 n ->
  12 <= size <= 2147483648 -> 0 < buffer -> mapped m buffer size ->
  exists k m', snprintf m buffer size format [n] = Ret (k, m') /\ atoi m' buffer = Ret n.
Proof.
  intros Hb Hn Hsz Hbuf Hm. destruct (printf_decimal m format n Hb Hn) as (ds & Hp & Hfa & Hv & Hl).
  set (out := (if n <? 0 then [chr "-"] else []) ++ (digit base_d <$> ds)) in *.
  assert (len out <= 11) by (unfold out; rewrite length_app, length_fmap; destruct (n <? 0); simpl; lia).
  unfold snprintf. rewrite (vsnprintf_spec _ _ _ _ _ out) by (done || lia). rewrite (proj2 (Z.ltb_lt 0 size)) by lia.
  rewrite take_ge by lia. eexists _, _. split; [done|].
  rewrite (atoi_spec _ _ (n <? 0) ds); [|done| |lia|unfold two32; lia|done|].
  - rewrite Hv. f_equal. destruct (Z.ltb_spec n 0); lia.
  - rewrite app_assoc. apply write_bytes_at.
  - rewrite Hv. unfold is_s32 in *. destruct (Z.ltb_spec n 0); lia.
Qed.

Lemma decimal_roundtrip_witness :
  exists k m', snprintf (write_bytes (literal "%d") 100 (replicate 12 0)) 100 12 LITERAL [-2147483648] = Ret (k, m') /\
    atoi m' 100 = Ret (-2147483648).
Proof.
  apply decimal_roundtrip; [|done|lia|lia|].
  - apply bytes_at_write_out; [unfold disjoint_blocks; vm_compute; by left|apply write_bytes_at].
  - apply (bytes_at_mapped _ 100 (replicate 12 0)), write_bytes_at.
Defined.
