(* ===== verification/Ustar.v ===== *)
(** * Archive headers (lib/ustar.c)

    [ustar_make_header] and [ustar_parse_header] on headers in memory.  The
    string literals of the source are objects in memory as well: [lit] gives
    the address of each, which the linker chooses. *)
From stdpp Require Import prelude list gmap.
From Stdlib Require Import ZArith Lia String Ascii.
From S2P Require Import Prelude Strings Sort Stdio.
#[local] Open Scope Z_scope.
#[local] Abbreviation length := Datatypes.length.

(** [enum ustar_type] *)
Definition USTAR_REGULAR : Z := 48.
Definition USTAR_DIRECTORY : Z := 53.
Definition USTAR_EOF : Z := -1.

Definition USTAR_HEADER_SIZE : Z := 512.

(** [struct ustar_header]: the offset and the size of the fields that the
    code uses. *)
Inductive field : Type :=
| h_name | h_mode | h_uid | h_gid | h_size | h_mtime | h_chksum | h_typeflag | h_linkname
| h_magic | h_version | h_uname | h_gname | h_devmajor | h_devminor | h_prefix | h_padding.

Definition fields : list (field * Z) :=
  [(h_name, 100); (h_mode, 8); (h_uid, 8); (h_gid, 8); (h_size, 12); (h_mtime, 12); (h_chksum, 8); (h_typeflag, 1);
   (h_linkname, 100); (h_magic, 6); (h_version, 2); (h_uname, 32); (h_gname, 32); (h_devmajor, 8); (h_devminor, 8);
   (h_prefix, 155); (h_padding, 12)].

#[export] Instance field_eq_dec : EqDecision field.
Proof. solve_decision. Defined.

Fixpoint offset_in (l : list (field * Z)) (f : field) (ofs : Z) : Z :=
  match l with
  | [] => ofs
  | (g, n) :: l => if decide (f = g) then ofs else offset_in l f (ofs + n)
  end.

Definition offsetof (f : field) : Z := offset_in fields f 0.
Definition sizeof (f : field) : Z := default 0 (snd <$> list_find (fun x => x.1 = f) fields ≫= fun x => Some (x.1, x.2.2)).
Definition sizeof_header : Z := foldr (fun x n => x.2 + n) 0 fields.

Example header_layout :
  map (fun x => (offsetof x.1, sizeof x.1)) fields =
  [(0, 100); (100, 8); (108, 8); (116, 8); (124, 12); (136, 12); (148, 8); (156, 1); (157, 100); (257, 6); (263, 2);
   (265, 32); (297, 32); (329, 8); (337, 8); (345, 155); (500, 12)] /\ sizeof_header = USTAR_HEADER_SIZE.
Proof. by vm_compute. Qed.

Definition calculate_chksum (m : mem) (h : Z) : outcome Z :=
  for_loop 512 0 (fun i chksum =>
    let chksum_start := offsetof h_chksum in
    let chksum_end := chksum_start + sizeof h_chksum in
    if (chksum_start <=? i) && (i <? chksum_end) then Ret (u32 (chksum + 32))
    else
      let! b := load m (h + i) in
      Ret (u32 (chksum + b))) 0.

Definition parse_octal_field (m : mem) (s size : Z) : outcome (bool * Z) :=
  loop (fun '(ofs, value) =>
    if ofs <? size then
      let! c := load m (s + ofs) in
      if (48 <=? c) && (c <=? 55) then
        if 536870911 <? value then Ret (inr (false, value))
        else Ret (inl (ofs + 1, u32 (c - 48 + value * 8)))
      else if (c =? 32) || (c =? 0) then Ret (inr (0 <? ofs, value))
      else Ret (inr (false, value))
    else Ret (inr (false, value))) (0, 0).

Definition is_all_zeros (m : mem) (block cnt : Z) : outcome bool :=
  loop (fun '(block, cnt) =>
    if 0 <? cnt then
      let! b := load m block in
      if negb (b =? 0) then Ret (inr false) else Ret (inl (block + 1, cnt - 1))
    else Ret (inr true)) (block, cnt).

Definition newline : string := String "010"%char EmptyString.

Section ustar.
  Context (lit : string -> Z).

(** The condition of the loop. *)
Definition antisocial_test (m : mem) (file_name : Z) : outcome bool :=
  let! c := load m file_name in
  if c =? 47 then Ret true
  else
    let! d := memcmp m file_name (lit "./") 2 in
    if d =? 0 then Ret true
    else
      let! d := memcmp m file_name (lit "../") 3 in
      Ret (d =? 0).

Definition strip_antisocial_prefixes (m : mem) (file_name : Z) : outcome Z :=
  let! file_name := loop (fun file_name =>
    let! slash := antisocial_test m file_name in
    if slash : bool then
      let! p := strchr m file_name 47 in
      Ret (inl (p + 1))
    else Ret (inr file_name)) file_name in
  let! c := load m file_name in
  if c =? 0 then Ret (lit ".")
  else
    let! d := strcmp m file_name (lit "..") in
    Ret (if d =? 0 then lit "." else file_name).

(** Returns the result, what is written to the console, and the memory. *)
Definition ustar_make_header (m : mem) (file_name type size header : Z) : outcome (bool * list Z * mem) :=
  let h f := header + offsetof f in
  let! _ := ASSERT (sizeof_header =? USTAR_HEADER_SIZE) in
  let! _ := ASSERT ((type =? USTAR_REGULAR) || (type =? USTAR_DIRECTORY)) in
  let! file_name := strip_antisocial_prefixes m file_name in
  let! n := strlen m file_name in
  if 99 <? n then
    let! out := __vprintf m (lit ("%s: file name too long" ++ newline)) [file_name] in
    Ret (false, out, m)
  else
    let! (_, m) := memset m header 0 sizeof_header in
    let! (_, m) := strlcpy m (h h_name) file_name (sizeof h_name) in
    let! (_, m) := snprintf m (h h_mode) (sizeof h_mode) (lit "%07o") [if type =? USTAR_REGULAR then 420 else 493] in
    let! (_, m) := strlcpy m (h h_uid) (lit "0000000") (sizeof h_uid) in
    let! (_, m) := strlcpy m (h h_gid) (lit "0000000") (sizeof h_gid) in
    let! (_, m) := snprintf m (h h_size) (sizeof h_size) (lit "%011o") [size] in
    let! (_, m) := snprintf m (h h_mtime) (sizeof h_size) (lit "%011o") [1136102400] in
    let! m := store m (h h_typeflag) (u8 type) in
    let! (_, m) := strlcpy m (h h_magic) (lit "ustar") (sizeof h_magic) in
    let! m := store m (h h_version + 1) 48 in
    let! m := store m (h h_version) 48 in
    let! (_, m) := strlcpy m (h h_gname) (lit "root") (sizeof h_gname) in
    let! (_, m) := strlcpy m (h h_uname) (lit "root") (sizeof h_uname) in
    let! chksum := calculate_chksum m header in
    let! (_, m) := snprintf m (h h_chksum) (sizeof h_chksum) (lit "%07o") [chksum] in
    Ret (true, [], m).

(** An error message, or the pointer to the file name, the type and the
    size. *)
Definition ustar_parse_header (m : mem) (header : Z) : outcome (string + Z * Z * Z) :=
  let h f := header + offsetof f in
  let! _ := ASSERT (sizeof_header =? USTAR_HEADER_SIZE) in
  let! zeros := is_all_zeros m header USTAR_HEADER_SIZE in
  if zeros : bool then Ret (inr (NULL, USTAR_EOF, 0))
  else
    let! d := memcmp m (h h_magic) (lit "ustar") 6 in
    if negb (d =? 0) then Ret (inl "not a ustar archive"%string)
    else
      let! v0 := load m (h h_version) in
      let! bad := if negb (v0 =? 48) then Ret true else (let! v1 := load m (h h_version + 1) in Ret (negb (v1 =? 48))) in
      if bad : bool then Ret (inl "invalid ustar version"%string)
      else
        let! (ok, chksum) := parse_octal_field m (h h_chksum) (sizeof h_chksum) in
        if negb ok then Ret (inl "corrupt chksum field"%string)
        else
          let! sum := calculate_chksum m header in
          if negb (chksum =? sum) then Ret (inl "checksum mismatch"%string)
          else
            let! l := load m (h h_name + sizeof h_name - 1) in
            let! long := if negb (l =? 0) then Ret true else (let! p := load m (h h_prefix) in Ret (negb (p =? 0))) in
            if long : bool then Ret (inl "file name too long"%string)
            else
              let! t := load m (h h_typeflag) in
              if negb (t =? USTAR_REGULAR) && negb (t =? USTAR_DIRECTORY) then Ret (inl "unimplemented file type"%string)
              else
                let! size_ul :=
                  if t =? USTAR_REGULAR then
                    let! (ok, n) := parse_octal_field m (h h_size) (sizeof h_size) in
                    Ret (if negb ok then inl "corrupt file size field"%string
                         else if 2147483647 <? n then inl "file too large"%string else inr n)
                  else Ret (inr 0) in
                match size_ul with
                | inl msg => Ret (inl msg)
                | inr n =>
                    let! name := strip_antisocial_prefixes m (h h_name) in
                    Ret (inr (name, t, s32 n))
                end.

End ustar.

(** ** File names *)

(** Comparison of the start of a string with another string. *)
Lemma memcmp_string m p q s l :
  cstr m p s -> cstr m q l -> exists d, memcmp m p q (len l) = Ret d /\ (d = 0 <-> l `prefix_of` s).
Proof.
  intros Hs Hl. pose proof Hs as (Hp & Hls & Hcs & Hbs). pose proof Hl as (Hq & Hll & Hcl & Hbl).
  destruct (decide (l `prefix_of` s)) as [Hpre|Hno].
  - destruct Hpre as [k ->]. exists 0. split; [|split; [by eexists|done]]. rewrite <- app_assoc in Hbs. apply bytes_at_app in Hbs as [Hbs _].
    apply bytes_at_app in Hbl as [Hbl _]. rewrite (memcmp_spec m p q l l) by (done || lia). f_equal. by apply lex_zero.
  - destruct (lex_string s l Hcs Hcl) as (n & x & y & Hn & Hpre & Hx & Hy & Hd & _).
    assert (n < length l)%nat as Hnl.
    { destruct (decide (n < length l)%nat) as [|Hge]; [done|]. exfalso. apply Hno. exists (drop (length l) s).
      rewrite <- (take_drop (length l) s) at 1. f_equal. apply list_eq_same_length with (length l); [done|rewrite length_take; lia|].
      intros i a b Hi Ha Hb. destruct (Hpre i ltac:(lia)) as (c & Hc1 & Hc2). rewrite lookup_take_lt in Ha by done. congruence. }
    assert (x <> y) as Hxy.
    { destruct Hd as [->|]; [|done]. intros <-. rewrite lookup_app_l in Hy by done. apply (Forall_lookup_1 _ _ _ _ Hcl) in Hy. unfold is_char in Hy. lia. }
    exists (if y <? x then 1 else -1). split; [|split; [destruct (y <? x); discriminate|intros; contradiction]].
    unfold memcmp. rewrite !nonnull_ok by done. cbn [ASSERT obind].
    trace (fun i => (p + Z.of_nat i, q + Z.of_nat i, len l - Z.of_nat i)) n; [feq| | |lia]; rewrite (proj2 (Z.ltb_lt _ _)) by lia.
    + destruct (Hpre i Hi) as (c & Hc & Hc'). destruct (cstr_char _ _ _ _ _ Hs Hc) as [Hm _]. destruct (cstr_char _ _ _ _ _ Hl Hc') as [Hm' _].
      rewrite (load_ok _ _ c), (load_ok _ _ c) by done. cbn [obind]. rewrite Z.eqb_refl. cbn [negb]. feq.
    + rewrite (load_ok _ _ x), (load_ok _ _ y) by auto. cbn [obind]. by rewrite (proj2 (Z.eqb_neq _ _)).
Qed.

(** The prefixes that are dropped. *)
Definition antisocial : list (list Z) := [chars "/"; chars "./"; chars "../"].

(** What [strip_antisocial_prefixes] computes. *)
Fixpoint strip (s : list Z) : list Z :=
  match s with
  | a :: s1 =>
      if a =? 47 then strip s1 else
      match s1 with
      | b :: s2 =>
          if (a =? 46) && (b =? 47) then strip s2 else
          match s2 with
          | c :: s3 => if (a =? 46) && (b =? 46) && (c =? 47) then strip s3 else s
          | [] => s
          end
      | [] => s
      end
  | [] => s
  end.

Definition archive_name (s : list Z) : list Z :=
  if bool_decide (strip s = [] \/ strip s = chars "..") then chars "." else strip s.

Definition social (s : list Z) : Prop := Forall (fun pre => ~ pre `prefix_of` s) antisocial.

Lemma social_spec s : social s <-> take 1 s <> [47] /\ take 2 s <> [46; 47] /\ take 3 s <> [46; 46; 47].
Proof. unfold social, antisocial. rewrite !Forall_cons, Forall_nil, !prefix_take. simpl. tauto. Qed.

Lemma strip_eq s :
  (exists pre t, pre ∈ antisocial /\ s = pre ++ t /\ strip s = strip t) \/ (social s /\ strip s = s).
Proof.
  rewrite social_spec. destruct s as [|a s1]; [by right|].
  simpl strip. destruct (Z.eqb_spec a 47) as [->|Ha]; [left; exists (chars "/"), s1; split; [set_solver|done]|].
  destruct s1 as [|b s2]; [right; split; [simpl; naive_solver|done]|].
  destruct (Z.eqb_spec a 46) as [->|Ha2]; cbn [andb].
  2:{ right. split; [simpl; naive_solver|]. by destruct s2. }
  destruct (Z.eqb_spec b 47) as [->|Hb]; [left; exists (chars "./"), s2; split; [set_solver|done]|].
  destruct (Z.eqb_spec b 46) as [->|Hb2]; cbn [andb].
  2:{ right. split; [simpl; naive_solver|]. by destruct s2. }
  destruct s2 as [|c s3]; [right; split; [simpl; naive_solver|done]|].
  destruct (Z.eqb_spec c 47) as [->|Hc]; [left; exists (chars "../"), s3; split; [set_solver|done]|].
  right. split; [simpl; naive_solver|done].
Qed.

Lemma antisocial_length pre : pre ∈ antisocial -> (0 < length pre)%nat.
Proof. revert pre. apply Forall_forall. repeat constructor; vm_compute; lia. Qed.

(** The name that is stored cannot leave the directory of extraction by its
    start, is not empty, and is stripped already. *)
Lemma archive_name_safe s : social (archive_name s) /\ archive_name s <> [] /\ archive_name s <> chars "..".
Proof.
  assert (forall n s, (length s <= n)%nat -> social (strip s)) as Hs.
  { induction n as [|n IH]; intros t Hn; destruct (strip_eq t) as [(pre & u & Hin%antisocial_length & -> & ->)|[Hno ->]]; try done;
      rewrite length_app in Hn; [lia|apply IH; lia]. }
  unfold archive_name. case_bool_decide as Hd; [|split; [by apply (Hs (length s))|tauto]].
  split; [by apply social_spec|done].
Qed.

Section names.
  Context (lit : string -> Z).

(** The string literals of the source that are read. *)
Definition literals : list string :=
  ["./"; "../"; ".."; "."; "%07o"; "0000000"; "%011o"; "ustar"; "root"]%string.

Definition rodata (m : mem) : Prop := Forall (fun s => cstr m (lit s) (chars s)) literals.

Lemma rodata_at m s : rodata m -> s ∈ literals -> cstr m (lit s) (chars s).
Proof. intros H Hs. by apply (proj1 (Forall_forall _ _) H). Qed.

Lemma antisocial_test_spec m p s :
  rodata m -> cstr m p s -> exists b, antisocial_test lit m p = Ret b /\ (b = true <-> ~ social s).
Proof.
  intros Hr Hs. unfold antisocial_test.
  destruct (memcmp_string m p (lit "./") s (chars "./") Hs) as (d2 & Hd2 & Hi2); [apply rodata_at; [done|set_solver]|].
  destruct (memcmp_string m p (lit "../") s (chars "../") Hs) as (d3 & Hd3 & Hi3); [apply rodata_at; [done|set_solver]|].
  change (len (chars "./")) with 2 in Hd2. change (len (chars "../")) with 3 in Hd3. rewrite (prefix_take (chars "./") s) in Hi2. rewrite (prefix_take (chars "../") s) in Hi3. pose proof (social_spec s) as Hsoc.
  change (take (length (chars "./")) s = chars "./") with (take 2 s = [46; 47]) in Hi2.
  change (take (length (chars "../")) s = chars "../") with (take 3 s = [46; 46; 47]) in Hi3.
  destruct Hs as (_ & _ & _ & Hb). replace (load m p) with (Ret (default 0 (head s))).
  2:{ symmetry. replace p with (p + Z.of_nat 0) by lia. apply (bytes_load _ _ _ _ _ Hb). by destruct s. }
  cbn [obind]. destruct (Z.eqb_spec (default 0 (head s)) 47) as [H1|H1].
  { exists true. split; [done|]. destruct s; [done|]. simpl in H1. subst. simpl. tauto. }
  rewrite Hd2. cbn [obind]. destruct (Z.eqb_spec d2 0) as [H2|H2]; [exists true; split; [done|]; tauto|].
  rewrite Hd3. cbn [obind]. exists (d3 =? 0). split; [done|]. rewrite Z.eqb_eq.
  assert (take 1 s <> [47]) by (destruct s; simpl in *; [done|congruence]). destruct (decide (take 3 s = [46; 46; 47])); tauto.
Qed.

Lemma antisocial_slash pre : pre ∈ antisocial -> exists l, pre = l ++ [47] /\ 47 ∉ l.
Proof.
  revert pre. apply Forall_forall. repeat constructor; [exists []|exists [46]|exists [46; 46]]; (split; [done|set_solver]).
Qed.

Lemma strip_spec m p s :
  rodata m -> cstr m p s ->
  exists q, strip_antisocial_prefixes lit m p = Ret q /\ cstr m q (archive_name s) /\
    ((q = lit "." /\ archive_name s = chars ".") \/ (p <= q /\ q + len (archive_name s) = p + len s)) /\ (social s -> s <> [] -> s <> chars ".." -> q = p).
Proof.
  intros Hr Hs. unfold strip_antisocial_prefixes.
  match goal with |- context [loop ?body ?s0] =>
    destruct (loop_ind (length s) (fun n p' => exists t, cstr m p' t /\ strip t = strip s /\ length t = n /\ p <= p' /\ p' + len t = p + len s /\ (social s -> p' = p /\ t = s))
      (fun p' => exists t, cstr m p' t /\ t = strip s /\ (p <= p' /\ p' + len t = p + len s) /\ (social s -> p' = p /\ t = s)) body s0) as (p' & -> & t & Ht & Hst & Hle & Hsoc) end.
  - intros n q (t & Ht & Hst & Hn & Hle & Hend & Hsoc). destruct (antisocial_test_spec m q t Hr Ht) as (b & -> & Hb). cbn [obind].
    destruct (strip_eq t) as [(pre & u & Hin & -> & Hu)|[Hno Heq]].
    + assert (~ social (pre ++ u)) as Hns by (intros H; apply (proj1 (Forall_forall _ _) H pre Hin); by exists u).
      rewrite (proj2 Hb Hns). right. destruct (antisocial_slash pre Hin) as (l & -> & Hl).
      rewrite (strchr_found m q ((l ++ [47]) ++ u) l 47 (u ++ [0])); [|done|lia|by rewrite <- !app_assoc|done]. cbn [obind].
      exists (length u). eexists. split; [done|]. apply cstr_suffix in Ht. rewrite !length_app in *. simpl in *. split; [|lia].
      exists u. replace (q + len l + 1) with (q + Z.of_nat (length l + 1)) by lia. split; [done|]. split; [congruence|]. split; [done|].
      split; [lia|]. split; [lia|]. intros Hs'. destruct (Hsoc Hs'); exfalso; apply Hns; congruence.
    + destruct b; [exfalso; by apply Hb|]. left. eexists. split; [done|]. exists t. split; [done|]. split; [congruence|]. split; [done|done].
  - exists s. split; [done|]. repeat split; lia.
  - destruct Hs. lia.
  - cbn [obind]. subst t.
    assert (load m p' = Ret (default 0 (head (strip s)))) as ->.
    { replace p' with (p' + Z.of_nat 0) by lia. destruct Ht as (_ & _ & _ & Hb). apply (bytes_load _ _ _ _ _ Hb). by destruct (strip s). }
    cbn [obind]. unfold archive_name. destruct (strip s) as [|c t] eqn:Es.
    { cbn [head default Z.eqb]. exists (lit "."). split; [done|]. rewrite bool_decide_true by (by left). split; [apply rodata_at; [done|set_solver]|]. split; [by left|].
      intros H H1. by destruct (Hsoc H) as [_ <-]. }
    simpl default. pose proof (proj2 (cstr_char _ _ _ 0%nat c Ht eq_refl)) as Hc. unfold is_char in Hc. rewrite (proj2 (Z.eqb_neq c 0)) by lia.
    rewrite (strcmp_spec m p' (lit "..") (c :: t) (chars "..")); [|done|apply rodata_at; [done|set_solver]]. cbn [obind].
    destruct (Z.eqb_spec (lex (c :: t) (chars "..")) 0) as [H0|H0]; [apply lex_zero in H0|rewrite lex_zero in H0].
    + exists (lit "."). split; [done|]. rewrite bool_decide_true by (by right). split; [apply rodata_at; [done|set_solver]|]. split; [by left|].
      intros H H1 H2. destruct (Hsoc H) as [_ <-]. done.
    + exists p'. split; [done|]. rewrite bool_decide_false by naive_solver. split; [done|]. split; [by right|]. intros H _ _. by apply Hsoc.
Qed.

End names.

(** ** Octal fields *)

Abbreviation octal ds := (digit base_o <$> ds).
Definition octal_digits : list Z -> Prop := Forall (fun d => 0 <= d < 8).

Lemma octal_char d : 0 <= d < 8 -> digit base_o d = 48 + d.
Proof.
  intros H. assert (d = 0 \/ d = 1 \/ d = 2 \/ d = 3 \/ d = 4 \/ d = 5 \/ d = 6 \/ d = 7) as Hd by lia.
  by repeat destruct Hd as [->|Hd]; [..|subst d].
Qed.

Lemma parse_octal_field_spec m s ds size :
  bytes_at m s (octal ds ++ [0]) -> 0 < len ds < size -> size < two32 -> octal_digits ds -> value_of 8 ds < two32 ->
  parse_octal_field m s size = Ret (true, value_of 8 ds).
Proof.
  intros Hb Hl Hsz Hf Hv. unfold parse_octal_field.
  assert (Forall (fun d => 0 <= d) ds) as Hnn by (eapply Forall_impl; [done|]; simpl; lia).
  trace (fun i : nat => (Z.of_nat i, value_of 8 (take i ds))) (length ds); [done| | |lia]; rewrite (proj2 (Z.ltb_lt _ size)) by lia.
  - destruct (lookup_lt_is_Some_2 ds i Hi) as [d Hd]. pose proof (Forall_lookup_1 _ _ _ _ Hf Hd) as Hfd. cbn beta in Hfd.
    rewrite (bytes_load _ _ _ i (digit base_o d) Hb) by (apply lookup_app_l_Some; by rewrite list_lookup_fmap, Hd). cbn [obind].
    rewrite octal_char by done. rewrite (proj2 (Z.leb_le 48 _)), (proj2 (Z.leb_le _ 55)) by lia. cbn [andb].
    destruct (value_of_take 8 i ds d) as (-> & H1 & H2); [lia|done|done|]. unfold two32 in Hv.
    rewrite (proj2 (Z.ltb_ge _ _)) by lia. rewrite u32_small by (unfold is_u32, two32; lia). feq.
  - rewrite (bytes_load _ _ _ (length ds) 0 Hb) by (rewrite list_lookup_middle; [done|by rewrite length_fmap]). cbn [obind].
    rewrite firstn_all. change ((48 <=? 0) && (0 <=? 55)) with false. change ((0 =? 32) || (0 =? 0)) with true. cbv iota. by rewrite (proj2 (Z.ltb_lt _ _)) by lia.
Qed.

(** [%0<w>o], into a field of [w + 1] bytes. *)
Lemma snprintf_octal m dst format ws w v :
  bytes_at m format ([chr "%"; chr "0"] ++ ws ++ [chr "o"; 0]) -> Forall (fun x => isdigit x = true) ws -> head ws <> Some (chr "0") ->
  len ws < two32 -> foldl (fun n x => s32 (n * 10 + x - 48)) 0 ws = w -> 1 <= w <= 40 -> is_u32 v -> v < 8 ^ w -> mapped m dst (w + 1) ->
  exists ds, snprintf m dst (w + 1) format [v] = Ret (w, write_bytes m dst (octal ds ++ [0])) /\
    octal_digits ds /\ value_of 8 ds = v /\ len ds = w.
Proof.
  intros Hb Hws Hhd Hl Hw Hwr Hv Hlt Hm. unfold is_u32 in Hv.
  destruct (format_octal v w) as (ds & Hf & Hfa & Hnum & Hlen); [unfold is_u64, two64, two32 in *; lia|done|done|].
  exists (rev ds). split; [|split; [by apply Forall_rev|split; [unfold value_of; by rewrite rev_involutive|by rewrite length_rev]]].
  assert (__vprintf m format [v] = Ret (octal (rev ds))) as Hp.
  { apply (vprintf_one m format true ws (chr "o") [v] []); try done; [lia|]. intros u. unfold convert.
    change ((chr "o" =? chr "d") || (chr "o" =? chr "i")) with false.
    change ((chr "o" =? chr "o") || (chr "o" =? chr "u") || (chr "o" =? chr "x") || (chr "o" =? chr "X")) with true.
    change (chr "o" =? chr "o") with true. cbv iota. cbn [type unsigned_arg va_word obind]. rewrite u32_small by done. cbn [obind].
    rewrite Hw, Hf. done. }
  unfold snprintf. rewrite (vsnprintf_spec _ _ _ _ _ _ Hp) by (done || lia || (rewrite length_fmap, length_rev; lia)).
  rewrite (proj2 (Z.ltb_lt 0 _)) by lia. rewrite length_fmap, length_rev, take_ge by (rewrite length_fmap, length_rev; lia). by rewrite Hlen.
Qed.

(** ** The checksum *)

Definition byte_block (m : mem) (p n : Z) : Prop := forall q, p <= q < p + n -> exists b, m !! q = Some b /\ 0 <= b < 256.

Lemma byte_block_mapped m p n : byte_block m p n -> mapped m p n.
Proof. intros H q Hq. destruct (H q Hq) as (b & Hb & _). eauto. Qed.

Lemma byte_block_write m p n q l :
  byte_block m p n -> Forall (fun b => 0 <= b < 256) l -> byte_block (write_bytes m q l) p n.
Proof.
  intros Hm Hl. revert m q Hm. induction Hl as [|b l Hb Hl IH]; intros m q Hm; [done|]. simpl. apply IH.
  intros r Hr. destruct (decide (r = q)) as [->|]; [rewrite lookup_insert_eq; eauto|rewrite lookup_insert_ne by done; by apply Hm].
Qed.

Lemma for_loop_ext {A} n i f g (a : A) :
  (forall k x, i <= k < i + Z.of_nat n -> f k x = g k x) -> for_loop n i f a = for_loop n i g a.
Proof.
  revert i a. induction n as [|n IH]; intros i a H; [done|]. simpl. rewrite H by lia.
  destruct (g i a) as [x|]; [|done]. simpl. apply IH. intros k y Hk. apply H. lia.
Qed.

(** The checksum of a block of bytes is small, and does not depend on the
    field that holds it. *)
Lemma chksum_total m h : byte_block m h 512 -> exists c, calculate_chksum m h = Ret c /\ 0 <= c <= 130560.
Proof.
  intros Hm. unfold calculate_chksum.
  destruct (for_loop_ind (fun i c => 0 <= c <= 255 * i) (fun i chksum =>
    let chksum_start := offsetof h_chksum in let chksum_end := chksum_start + sizeof h_chksum in
    if (chksum_start <=? i) && (i <? chksum_end) then Ret (u32 (chksum + 32)) else let! b := load m (h + i) in Ret (u32 (chksum + b))) 512 0 0)
    as (c & Hc & Hb); [lia| |exists c; split; [exact Hc|lia]].
  intros k c Hk Hc. cbv zeta. destruct (_ && _).
  - eexists. split; [done|]. rewrite u32_small by (unfold is_u32, two32; lia). lia.
  - destruct (Hm (h + k)) as (b & Hb & Hr); [lia|]. rewrite (load_ok _ _ _ Hb). cbn [obind]. eexists. split; [done|].
    rewrite u32_small by (unfold is_u32, two32; lia). lia.
Qed.

Lemma chksum_frame m m' h :
  (forall q, h <= q < h + 148 \/ h + 156 <= q < h + 512 -> m' !! q = m !! q) -> calculate_chksum m' h = calculate_chksum m h.
Proof.
  intros Hm. unfold calculate_chksum. apply for_loop_ext. intros k c Hk. cbv zeta.
  change (offsetof h_chksum) with 148. change (148 + sizeof h_chksum) with 156.
  destruct (Z.leb_spec 148 k), (Z.ltb_spec k 156); cbn [andb]; try done; unfold load; rewrite Hm by lia; done.
Qed.

(** ** Composing a header *)

Section header.
  Context (lit : string -> Z) (header : Z).

(** The header lies clear of the literals, in memory that holds bytes. *)
Definition header_ok (m : mem) : Prop :=
  rodata lit m /\ byte_block m header 512 /\ 0 < header /\ header + 512 <= two32 /\
  Forall (fun s => disjoint_blocks header 512 (lit s) (len (chars s) + 1)) literals.

Definition in_header (ofs : Z) (l : list Z) : Prop :=
  0 <= ofs /\ ofs + len l <= 512 /\ Forall (fun b => 0 <= b < 256) l.

Lemma header_ok_write m ofs l : header_ok m -> in_header ofs l -> header_ok (write_bytes m (header + ofs) l).
Proof.
  intros (Hr & Hb & Hp & Hl & Hd) (Ho & Hi & Hl2). repeat split; [|by apply byte_block_write|done|done|done].
  apply Forall_forall. intros s Hs. apply (cstr_frame m); [by apply rodata_at|].
  intros q Hq. apply lookup_write_bytes_out. apply (proj1 (Forall_forall _ _) Hd) in Hs. unfold disjoint_blocks in Hs. lia.
Qed.

Lemma header_mapped m ofs n : header_ok m -> 0 <= ofs -> ofs + n <= 512 -> mapped m (header + ofs) n.
Proof. intros (_ & Hb & _) H1 H2 q Hq. apply (byte_block_mapped _ _ _ Hb). lia. Qed.

Lemma header_strlcpy m ofs src s n :
  header_ok m -> cstr m src s -> disjoint_blocks header 512 src (len s + 1) -> 0 <= ofs -> ofs + n <= 512 -> len s < n ->
  strlcpy m (header + ofs) src n = Ret (len s, write_bytes m (header + ofs) (s ++ [0])).
Proof.
  intros Hok Hs Hd Ho Hn Hlt. pose proof Hok as (_ & _ & Hp & Hl & _).
  rewrite (strlcpy_spec m (header + ofs) src s n); [|done|lia|lia|lia|by apply header_mapped|unfold disjoint_blocks in *; lia].
  rewrite (proj2 (Z.ltb_lt 0 n)) by lia. by rewrite take_ge by lia.
Qed.

Lemma header_literal m ofs t n :
  header_ok m -> t ∈ literals -> 0 <= ofs -> ofs + n <= 512 -> len (chars t) < n ->
  strlcpy m (header + ofs) (lit t) n = Ret (len (chars t), write_bytes m (header + ofs) (chars t ++ [0])).
Proof.
  intros Hok Ht Ho Hn Hlt. pose proof Hok as (Hr & _ & _ & _ & Hd). apply header_strlcpy; try done; [by apply rodata_at|].
  by apply (proj1 (Forall_forall _ _) Hd).
Qed.

Lemma header_store m ofs b : header_ok m -> 0 <= ofs < 512 -> store m (header + ofs) b = Ret (write_bytes m (header + ofs) [b]).
Proof. intros Hok Ho. rewrite store_ok; [done|]. apply (header_mapped m ofs 1 Hok); lia. Qed.

Lemma in_header_string ofs t : t ∈ literals -> 0 <= ofs -> ofs + len (chars t) + 1 <= 512 -> in_header ofs (chars t ++ [0]).
Proof.
  intros Ht Ho Hl. split; [done|]. split; [rewrite length_app; simpl; lia|]. apply Forall_app. split; [|repeat constructor; lia].
  revert t Ht Hl. apply (Forall_forall (fun t => ofs + len (chars t) + 1 <= 512 -> Forall (fun b => 0 <= b < 256) (chars t))).
  repeat constructor; vm_compute; congruence.
Qed.

Lemma octal_bytes ds : octal_digits ds -> Forall (fun b => 0 <= b < 256) (octal ds ++ [0]).
Proof.
  intros H. apply Forall_app. split; [|repeat constructor; lia]. apply Forall_fmap. eapply Forall_impl; [done|].
  intros d Hd. cbn in Hd |- *. rewrite octal_char by done. lia.
Qed.

Lemma header_octal m ofs (t : string) ws w v :
  header_ok m -> t ∈ literals -> chars t = [chr "%"; chr "0"] ++ ws ++ [chr "o"] -> Forall (fun x => isdigit x = true) ws -> head ws <> Some (chr "0") ->
  len ws < two32 -> foldl (fun n x => s32 (n * 10 + x - 48)) 0 ws = w -> 1 <= w <= 40 -> is_u32 v -> v < 8 ^ w ->
  0 <= ofs -> ofs + w + 1 <= 512 ->
  exists ds, snprintf m (header + ofs) (w + 1) (lit t) [v] = Ret (w, write_bytes m (header + ofs) (octal ds ++ [0])) /\
    octal_digits ds /\ value_of 8 ds = v /\ len ds = w /\ in_header ofs (octal ds ++ [0]).
Proof.
  intros Hok Ht Hc Hws Hhd Hl Hw Hwr Hv Hlt Ho Hn. pose proof Hok as (Hr & _).
  pose proof (rodata_at lit m t Hr Ht) as (_ & _ & _ & Hb). rewrite Hc, <- !app_assoc in Hb.
  destruct (snprintf_octal m (header + ofs) (lit t) ws w v) as (ds & Hs & H1 & H2 & H3); try done; [apply header_mapped; [done|done|lia]|].
  exists ds. split; [done|]. split; [done|]. split; [done|]. split; [done|]. split; [done|].
  split; [|by apply octal_bytes]. rewrite length_app, length_fmap. simpl. lia.
Qed.


(** What a composed header holds: the name, the size and the checksum. *)
Definition header_holds (m : mem) (name : list Z) (type size : Z) : Prop :=
  bytes_at m header (name ++ [0]) /\ m !! (header + 99) = Some 0 /\
  (exists ds, bytes_at m (header + 124) (octal ds ++ [0]) /\ octal_digits ds /\ value_of 8 ds = size /\ len ds = 11) /\
  (exists ds, bytes_at m (header + 148) (octal ds ++ [0]) /\ octal_digits ds /\ len ds = 7 /\ calculate_chksum m header = Ret (value_of 8 ds)) /\
  m !! (header + 156) = Some type /\ bytes_at m (header + 257) (chars "ustar" ++ [0]) /\
  m !! (header + 263) = Some 48 /\ m !! (header + 264) = Some 48 /\ m !! (header + 345) = Some 0.

Lemma header_octal7 m ofs v :
  header_ok m -> 0 <= v < 2097152 -> 0 <= ofs -> ofs + 8 <= 512 ->
  exists ds, snprintf m (header + ofs) 8 (lit "%07o") [v] = Ret (7, write_bytes m (header + ofs) (octal ds ++ [0])) /\
    octal_digits ds /\ value_of 8 ds = v /\ len ds = 7 /\ in_header ofs (octal ds ++ [0]).
Proof.
  intros Hok Hv Ho Hn. apply (header_octal m ofs "%07o" [55] 7 v Hok);
    [set_solver|done|repeat constructor|done|done|done|lia|unfold is_u32, two32; lia|change (8 ^ 7) with 2097152; lia|done|lia].
Qed.

Lemma header_octal11 m ofs v :
  header_ok m -> is_u32 v -> 0 <= ofs -> ofs + 12 <= 512 ->
  exists ds, snprintf m (header + ofs) 12 (lit "%011o") [v] = Ret (11, write_bytes m (header + ofs) (octal ds ++ [0])) /\
    octal_digits ds /\ value_of 8 ds = v /\ len ds = 11 /\ in_header ofs (octal ds ++ [0]).
Proof.
  intros Hok Hv Ho Hn. apply (header_octal m ofs "%011o" [49; 49] 11 v Hok);
    [set_solver|done|repeat constructor|done|done|done|lia|done|change (8 ^ 11) with 8589934592; unfold is_u32, two32 in Hv; lia|done|lia].
Qed.

(** The sequence of writes that composes a header. *)
Definition composed (m : mem) (name mode size mtime : list Z) (type : Z) (chksum : list Z) : mem :=
  let w ofs l m := write_bytes m (header + ofs) l in
  w 148 chksum (w 265 (chars "root" ++ [0]) (w 297 (chars "root" ++ [0]) (w 263 [48] (w 264 [48] (w 257 (chars "ustar" ++ [0]) (w 156 [type]
    (w 136 mtime (w 124 size (w 116 (chars "0000000" ++ [0]) (w 108 (chars "0000000" ++ [0]) (w 100 mode (w 0 name
      (write_bytes m header (replicate 512 0)))))))))))))).

(** Reading past a write elsewhere. *)
Ltac past := rewrite lookup_write_bytes_out by lia.
Ltac pass := apply bytes_at_write_out; [unfold disjoint_blocks; lia|].

Lemma composed_spec m name mode size mtime type chksum :
  len name <= 100 -> len mode = 8 -> len size = 12 -> len mtime = 12 -> len chksum = 8 -> last name = Some 0 ->
  let m' := composed m name mode size mtime type chksum in
  bytes_at m' header name /\ m' !! (header + 99) = Some 0 /\ bytes_at m' (header + 124) size /\ bytes_at m' (header + 148) chksum /\
  m' !! (header + 156) = Some type /\ bytes_at m' (header + 257) (chars "ustar" ++ [0]) /\
  m' !! (header + 263) = Some 48 /\ m' !! (header + 264) = Some 48 /\ m' !! (header + 345) = Some 0 /\
  (forall q, q < header \/ header + 512 <= q -> m' !! q = m !! q).
Proof.
  intros Ln L1 L2 L3 L4 Hl m'. unfold m', composed. cbv zeta. clear m'.
  assert (forall l (b : Z), l = [b] -> len l = 1) as Lb by (by intros ? ? ->).
  pose proof (Lb [48] 48 eq_refl) as L5. pose proof (Lb [type] type eq_refl) as L6.
  pose proof (eq_refl : len (chars "root" ++ [0]) = 5) as L7. pose proof (eq_refl : len (chars "ustar" ++ [0]) = 6) as L8.
  pose proof (eq_refl : len (chars "0000000" ++ [0]) = 8) as L9. pose proof (eq_refl : len (replicate 512 0) = 512) as L10.
  assert (forall m p (b : Z), write_bytes m p [b] !! p = Some b) as Hb by (intros; apply lookup_insert_eq).
  assert (forall m o, 0 <= o < 512 -> write_bytes m header (replicate 512 0) !! (header + o) = Some 0) as Hz.
  { intros m0 o Ho. replace o with (Z.of_nat (Z.to_nat o)) by lia. apply (write_bytes_at m0 header (replicate 512 0)). apply lookup_replicate. split; [done|lia]. }
  split; [do 12 pass; rewrite Z.add_0_r; apply write_bytes_at|].
  split.
  { do 12 past. destruct (decide (len name = 100)); [|past; apply Hz; lia].
    replace (header + 99) with (header + 0 + Z.of_nat (pred (length name))) by lia.
    apply write_bytes_at. by rewrite <- last_lookup. }
  split; [do 8 pass; apply write_bytes_at|]. split; [apply write_bytes_at|]. split; [do 6 past; apply Hb|].
  split; [do 5 pass; apply write_bytes_at|]. split; [do 3 past; apply Hb|]. split; [do 4 past; apply Hb|].
  split; [do 13 past; apply Hz; lia|]. intros q Hq. by do 14 past.
Qed.

Ltac in_literals := apply (proj1 (bool_decide_eq_true _)); vm_compute; reflexivity.
Ltac put_literal ofs t n Hok Hok' :=
  rewrite (header_literal _ ofs t n Hok) by (lazymatch goal with |- _ ∈ _ => in_literals | |- _ => by vm_compute end); cbn [obind];
  pose proof (header_ok_write _ ofs (chars t ++ [0]) Hok
    ltac:(apply in_header_string; lazymatch goal with |- _ ∈ _ => in_literals | |- _ => by vm_compute end)) as Hok'.
Ltac put_byte ofs b Hok Hok' :=
  rewrite (header_store _ ofs b Hok) by lia; cbn [obind];
  pose proof (header_ok_write _ ofs [b] Hok ltac:(split; [lia|split; [simpl; lia|repeat constructor; lia]])) as Hok'.

Lemma make_header_spec m file_name s type size :
  header_ok m -> cstr m file_name s -> disjoint_blocks header 512 file_name (len s + 1) ->
  len (archive_name s) <= 99 -> type = USTAR_REGULAR \/ type = USTAR_DIRECTORY -> 0 <= size < 2147483648 ->
  exists m', ustar_make_header lit m file_name type size header = Ret (true, [], m') /\ header_ok m' /\
    header_holds m' (archive_name s) type size /\ (forall q, q < header \/ header + 512 <= q -> m' !! q = m !! q).
Proof.
  intros Hok Hs Hdis Hlen Ht Hsz. unfold ustar_make_header. change (sizeof_header =? USTAR_HEADER_SIZE) with true.
  replace ((type =? USTAR_REGULAR) || (type =? USTAR_DIRECTORY)) with true by (by destruct Ht as [->| ->]). cbn [ASSERT obind].
  pose proof Hok as (Hr & _ & Hp & Htop & Hlits).
  destruct (strip_spec lit m file_name s Hr Hs) as (q & -> & Hq & Hqr & _). cbn [obind]. rewrite (strlen_spec _ _ _ Hq). cbn [obind].
  rewrite (proj2 (Z.ltb_ge 99 _)) by done. set (name := archive_name s) in *.
  assert (disjoint_blocks header 512 q (len name + 1)) as Hdq.
  { destruct Hqr as [[-> ->]|Hqr]; [apply (proj1 (Forall_forall _ _) Hlits "."%string); set_solver|]. unfold disjoint_blocks in *. lia. }
  assert (Forall (fun b => 0 <= b < 256) (name ++ [0])) as Hnb.
  { apply Forall_app. split; [|repeat constructor; lia]. destruct Hq as (_ & _ & Hc & _). eapply Forall_impl; [done|]. unfold is_char. lia. }
  change sizeof_header with (Z.of_nat 512).
  rewrite (memset_spec m header 0 512); [|destruct Hok as (_ & Hb & _); by apply byte_block_mapped|done|done]. cbn [obind].
  change (u8 0) with 0.
  assert (header_ok (write_bytes m (header + 0) (replicate 512 0))) as Hok1.
  { apply header_ok_write; [done|]. split; [done|]. split; [by rewrite length_replicate|]. apply Forall_replicate. lia. }
  rewrite Z.add_0_r in Hok1.
  assert (cstr (write_bytes m header (replicate 512 0)) q name) as Hq1.
  { apply (cstr_frame m); [done|]. intros r Hr'. apply lookup_write_bytes_out. rewrite length_replicate. unfold disjoint_blocks in Hdq. lia. }
  set (m1 := write_bytes m header (replicate 512 0)) in *.
  change (offsetof h_name) with 0. change (sizeof h_name) with 100.
  rewrite (header_strlcpy m1 0 q name 100) by (done || lia). cbn [obind].
  assert (in_header 0 (name ++ [0])) as Hin by (split; [done|]; split; [rewrite length_app; simpl; lia|done]).
  pose proof (header_ok_write _ _ _ Hok1 Hin) as Hok2. set (m2 := write_bytes m1 (header + 0) (name ++ [0])) in *.
  destruct (header_octal7 m2 100 (if type =? USTAR_REGULAR then 420 else 493) Hok2) as (ds1 & Hs1 & Hd1 & Hv1 & Hl1 & Hi1); [destruct (type =? _); lia|lia|lia|].
  change (offsetof h_mode) with 100. change (sizeof h_mode) with 8. rewrite Hs1. cbn [obind].
  pose proof (header_ok_write _ _ _ Hok2 Hi1) as Hok3. set (m3 := write_bytes m2 (header + 100) (octal ds1 ++ [0])) in *.
  change (offsetof h_uid) with 108. change (sizeof h_uid) with 8. put_literal 108 "0000000"%string 8 Hok3 Hok4.
  change (offsetof h_gid) with 116. change (sizeof h_gid) with 8. put_literal 116 "0000000"%string 8 Hok4 Hok5.
  change (offsetof h_size) with 124. change (sizeof h_size) with 12.
  destruct (header_octal11 _ 124 size Hok5) as (ds2 & -> & Hd2 & Hv2 & Hl2 & Hi2); [unfold is_u32, two32; lia|lia|lia|]. cbn [obind].
  pose proof (header_ok_write _ _ _ Hok5 Hi2) as Hok6. change (offsetof h_mtime) with 136.
  destruct (header_octal11 _ 136 1136102400 Hok6) as (ds3 & -> & Hd3 & Hv3 & Hl3 & Hi3); [done|lia|lia|]. cbn [obind].
  pose proof (header_ok_write _ _ _ Hok6 Hi3) as Hok7.
  replace (u8 type) with type by (by destruct Ht as [->| ->]). change (offsetof h_typeflag) with 156.
  assert (0 <= type < 256) as Htb by (destruct Ht as [->| ->]; by vm_compute). put_byte 156 type Hok7 Hok8.
  change (offsetof h_magic) with 257. change (sizeof h_magic) with 6. put_literal 257 "ustar"%string 6 Hok8 Hok9.
  change (offsetof h_version) with 263. rewrite <- Z.add_assoc. change (263 + 1) with 264. put_byte 264 48 Hok9 Hok10. put_byte 263 48 Hok10 Hok11.
  change (offsetof h_gname) with 297. change (sizeof h_gname) with 32. put_literal 297 "root"%string 32 Hok11 Hok12.
  change (offsetof h_uname) with 265. change (sizeof h_uname) with 32. put_literal 265 "root"%string 32 Hok12 Hok13.
  match type of Hok13 with header_ok ?M => set (m13 := M) in * end.
  destruct (chksum_total m13 header) as (c & Hc & Hcb); [by destruct Hok13 as (_ & ? & _)|]. rewrite Hc. cbn [obind].
  change (offsetof h_chksum) with 148. change (sizeof h_chksum) with 8.
  destruct (header_octal7 m13 148 c Hok13) as (ds4 & -> & Hd4 & Hv4 & Hl4 & Hi4); [lia|lia|lia|]. cbn [obind].
  pose proof (header_ok_write _ _ _ Hok13 Hi4) as Hok14. eexists. split; [done|]. split; [done|].
  assert (len (name ++ [0]) <= 100) as Hn0 by (rewrite length_app; simpl; lia).
  assert (len (octal ds1 ++ [0]) = 8 /\ len (octal ds2 ++ [0]) = 12 /\ len (octal ds3 ++ [0]) = 12 /\ len (octal ds4 ++ [0]) = 8) as (L1 & L2 & L3 & L4)
    by (rewrite !length_app, !length_fmap; simpl; lia).
  change (write_bytes m13 (header + 148) (octal ds4 ++ [0]))
    with (composed m (name ++ [0]) (octal ds1 ++ [0]) (octal ds2 ++ [0]) (octal ds3 ++ [0]) type (octal ds4 ++ [0])) in *.
  destruct (composed_spec m (name ++ [0]) (octal ds1 ++ [0]) (octal ds2 ++ [0]) (octal ds3 ++ [0]) type (octal ds4 ++ [0]))
    as (F1 & F2 & F3 & F4 & F5 & F6 & F7 & F8 & F9 & F10); [done..|by rewrite last_snoc|].
  split; [|done]. split; [done|]. split; [done|]. split; [by exists ds2|]. split; [|done].
  exists ds4. split; [done|]. split; [done|]. split; [done|]. rewrite Hv4, <- Hc. apply chksum_frame.
  intros r Hr'. apply lookup_write_bytes_out. lia.
Qed.


(** ** Reading a header *)

Lemma not_all_zeros m p n b : m !! p = Some b -> b <> 0 -> 0 < n -> is_all_zeros m p n = Ret false.
Proof.
  intros Hb Hne Hn. unfold is_all_zeros. trace (fun _ : nat => (p, n)) O; [done|lia| |done].
  rewrite (proj2 (Z.ltb_lt 0 n)), (load_ok _ _ _ Hb) by done. cbn [obind]. by rewrite (proj2 (Z.eqb_neq b 0)).
Qed.

Lemma parse_header_spec m name type size :
  header_ok m -> header_holds m name type size -> cstr m header name -> social name -> name <> [] -> name <> chars ".." ->
  type = USTAR_REGULAR \/ type = USTAR_DIRECTORY -> 0 <= size < 2147483648 ->
  ustar_parse_header lit m header = Ret (inr (header, type, if type =? USTAR_REGULAR then size else 0)).
Proof.
  intros Hok (F1 & F2 & (ds & F3 & Hd & Hv & Hl) & (dc & F4 & Hdc & Hlc & Hck) & F5 & F6 & F7 & F8 & F9) Hs Hsoc Hne Hdd Ht Hsz.
  pose proof Hok as (Hr & Hbb & Hp & Htop & _).
  unfold ustar_parse_header. change (sizeof_header =? USTAR_HEADER_SIZE) with true. cbn [ASSERT obind].
  destruct name as [|c0 name]; [done|]. destruct (cstr_char _ _ _ 0%nat c0 Hs eq_refl) as [H0 Hc0]. unfold is_char in Hc0. rewrite Z.add_0_r in H0.
  rewrite (not_all_zeros _ _ _ c0 H0) by (done || lia). cbn [obind].
  change (offsetof h_magic) with 257. pose proof (rodata_at lit m "ustar" Hr ltac:(in_literals)) as (Hp2 & _ & _ & Hb2).
  change 6 with (len (chars "ustar" ++ [0])). rewrite (memcmp_spec m (header + 257) (lit "ustar") _ _ F6 Hb2) by (done || lia). cbn [obind].
  rewrite (proj2 (lex_zero _ _) eq_refl). change (negb (0 =? 0)) with false. cbv iota.
  change (offsetof h_version) with 263. rewrite (load_ok _ _ _ F7). cbn [obind]. change (negb (48 =? 48)) with false. cbv iota.
  rewrite <- (Z.add_assoc header 263 1). change (263 + 1) with 264. rewrite (load_ok _ _ _ F8). cbn [obind].
  change (negb (48 =? 48)) with false. cbv iota. change (offsetof h_chksum) with 148. change (sizeof h_chksum) with 8.
  destruct (chksum_total m header Hbb) as (c & Hc & Hcb). assert (value_of 8 dc = c) as Hvc by congruence.
  rewrite (parse_octal_field_spec m (header + 148) dc 8) by (done || unfold two32 in *; lia). cbn [obind negb]. rewrite Hck. cbn [obind].
  rewrite Z.eqb_refl. cbn [negb]. change (offsetof h_name) with 0. change (sizeof h_name) with 100.
  replace (header + 0 + 100 - 1) with (header + 99) by lia. rewrite (load_ok _ _ _ F2). cbn [obind]. change (negb (0 =? 0)) with false. cbv iota.
  change (offsetof h_prefix) with 345. rewrite (load_ok _ _ _ F9). cbn [obind]. change (negb (0 =? 0)) with false. cbv iota.
  change (offsetof h_typeflag) with 156. rewrite (load_ok _ _ _ F5). cbn [obind].
  replace (negb (type =? USTAR_REGULAR) && negb (type =? USTAR_DIRECTORY)) with false by (by destruct Ht as [->| ->]).
  rewrite Z.add_0_r. destruct (strip_spec lit m header (c0 :: name) Hr Hs) as (q & Hq & _ & _ & Heq). rewrite (Heq Hsoc Hne Hdd) in Hq.
  change (offsetof h_size) with 124. change (sizeof h_size) with 12.
  destruct (type =? USTAR_REGULAR).
  - rewrite (parse_octal_field_spec m (header + 124) ds 12) by (done || unfold two32; lia). cbn [obind negb]. rewrite Hv.
    rewrite (proj2 (Z.ltb_ge _ size)) by lia. rewrite Hq. cbn [obind]. by rewrite s32_small by (unfold is_s32; lia).
  - cbn [obind]. rewrite Hq. done.
Qed.

End header.

(** Composing a header and parsing it. *)
Lemma compose_parse lit m file_name s type size header :
  header_ok lit header m -> cstr m file_name s -> disjoint_blocks header 512 file_name (len s + 1) ->
  len (archive_name s) <= 99 -> type = USTAR_REGULAR \/ type = USTAR_DIRECTORY -> 0 <= size < 2147483648 ->
  exists m', ustar_make_header lit m file_name type size header = Ret (true, [], m') /\
    (forall q, q < header \/ header + 512 <= q -> m' !! q = m !! q) /\
    ustar_parse_header lit m' header = Ret (inr (header, type, if type =? USTAR_REGULAR then size else 0)) /\
    cstr m' header (archive_name s) /\
    social (archive_name s) /\ archive_name s <> [] /\ archive_name s <> chars ".." /\ header_ok lit header m'.
Proof.
  intros Hok Hs Hd Hl Ht Hsz. destruct (archive_name_safe s) as (Hsoc & Hne & Hdd).
  destruct (make_header_spec lit header m file_name s type size) as (m' & Hm & Hok' & Hh & Hf); [done..|].
  exists m'. pose proof Hok as (Hr & _). destruct (strip_spec lit m file_name s Hr Hs) as (q & _ & (_ & _ & Hc & _) & _).
  assert (cstr m' header (archive_name s)) as Hcs.
  { destruct Hok' as (_ & _ & Hp & Htop & _). destruct Hh as (Hb & _). split; [done|]. split; [lia|]. by split. }
  split; [done|]. split; [done|]. split; [by apply (parse_header_spec lit header m' (archive_name s))|done].
Qed.

(** C36: [ustar_make_header] succeeds for every file whose stripped name has at
    most 99 characters, and writes only to the header;
    [ustar_parse_header] accepts the header (its checksum included) and gives
    back the type, the size (zero for a directory) and, in the header, the
    stripped name, which is not empty and starts with none of "/", "./" and
    "../" and is not "..". *)
Theorem ustar_roundtrip lit m file_name s type size header :
  header_ok lit header m -> cstr m file_name s -> disjoint_blocks header 512 file_name (len s + 1) ->
  len (archive_name s) <= 99 -> type = USTAR_REGULAR \/ type = USTAR_DIRECTORY -> 0 <= size < 2147483648 ->
  exists m', ustar_make_header lit m file_name type size header = Ret (true, [], m') /\
    (forall q, q < header \/ header + 512 <= q -> m' !! q = m !! q) /\
    ustar_parse_header lit m' header = Ret (inr (header, type, if type =? USTAR_REGULAR then size else 0)) /\
    cstr m' header (archive_name s) /\
    social (archive_name s) /\ archive_name s <> [] /\ archive_name s <> chars "..".
Proof.
  intros ? ? ? ? ? ?. destruct (compose_parse lit m file_name s type size header) as (m' & ? & ? & ? & ? & ? & ? & ? & _); [done..|].
  by exists m'.
Qed.

Fixpoint check_bytes (m : mem) (p : Z) (l : list Z) : bool :=
  match l with [] => true | b :: l => bool_decide (m !! p = Some b) && check_bytes m (p + 1) l end.

Lemma check_bytes_at m p l : check_bytes m p l = true -> bytes_at m p l.
Proof.
  revert p. induction l as [|b l IH]; intros p H; [done|]. simpl in H. apply andb_true_iff in H as [Hb H]. apply bool_decide_eq_true in Hb.
  intros [|i] x Hx; simpl in Hx; [injection Hx as <-; by rewrite Z.add_0_r|].
  replace (p + Z.of_nat (S i)) with (p + 1 + Z.of_nat i) by lia. by apply (IH (p + 1) H).
Qed.

(** Literals from address 5000 on, a file name at 9000, a header at 100. *)
Definition sample_lit (s : string) : Z := 5000 + 16 * default 0 (Z.of_nat ∘ fst <$> list_find (eq s) literals).
Definition sample_mem : mem :=
  write_bytes (foldl (fun m s => write_bytes m (sample_lit s) (chars s ++ [0])) (write_bytes ∅ 9000 (chars "../../etc/passwd" ++ [0])) literals)
    100 (replicate 512 7).

Lemma check_cstr m p s : 0 < p -> p + len s < two32 -> forallb (fun c => (0 <? c) && (c <? 256)) s = true -> check_bytes m p (s ++ [0]) = true -> cstr m p s.
Proof.
  intros H1 H2 H3 H4. split; [done|]. split; [done|]. split; [|by apply check_bytes_at].
  apply Forall_forall. intros c Hc. rewrite forallb_forall in H3. unfold is_char. specialize (H3 c ltac:(by apply list_elem_of_In)). lia.
Qed.

Lemma sample_header_ok : header_ok sample_lit 100 sample_mem.
Proof.
  split; [repeat constructor; apply check_cstr; by vm_compute|]. split; [|split; [done|split; [done|]]].
  - intros q Hq. exists 7. split; [|lia]. replace q with (100 + Z.of_nat (Z.to_nat (q - 100))) by lia.
    apply (write_bytes_at _ 100 (replicate 512 7)). apply lookup_replicate. split; [done|lia].
  - repeat (apply Forall_cons_2; [left; by vm_compute|]). apply Forall_nil_2.
Qed.

Lemma ustar_roundtrip_witness :
  exists m', ustar_make_header sample_lit sample_mem 9000 USTAR_REGULAR 12345 100 = Ret (true, [], m') /\
    (forall q, q < 100 \/ 100 + 512 <= q -> m' !! q = sample_mem !! q) /\
    ustar_parse_header sample_lit m' 100 = Ret (inr (100, USTAR_REGULAR, 12345)) /\
    cstr m' 100 (chars "etc/passwd") /\
    social (chars "etc/passwd") /\ chars "etc/passwd" <> [] /\ chars "etc/passwd" <> chars "..".
Proof.
  apply (ustar_roundtrip sample_lit sample_mem 9000 (chars "../../etc/passwd") USTAR_REGULAR 12345 100);
    [apply sample_header_ok|apply check_cstr; by vm_compute|by left|by vm_compute|by left|lia].
Defined.
