(* ===== verification/Shell.v ===== *)
(** * The shell exercise: [lab_1/code/parse.c] and [lsh.c]

    The parser keeps its result in static arrays: the characters of the
    tokens in [cbuf], the pointers to them in [pbuf] and the commands in
    [cmdbuf].  Pointers into these arrays are indices, NULL is [None], and an
    access outside of an array or through NULL is the outcome [BadAccess].  A
    pointer into the line is the rest of the line from there on, without the
    terminator.

    The specification is a grammar on lists of tokens.  [parse_correct] shows
    that the arrays hold what the grammar gives, for every line that fits
    into them; the code does not check that a line fits. *)
From stdpp Require Import prelude list gmap.
From Stdlib Require Import ZArith Lia.
From S2P Require Import Prelude Bitmap Sort.
#[local] Open Scope Z_scope.

(** ** Characters *)

Definition PIPE : Z := 124.
Definition BG : Z := 38.
Definition RIN : Z := 60.
Definition RUT : Z := 62.

Definition isspec (c : Z) : bool := (c =? PIPE) || (c =? BG) || (c =? RIN) || (c =? RUT).

(** [isalnum] of the C library, in the C locale. *)
Definition isalnum (c : Z) : bool :=
  ((48 <=? c) && (c <=? 57)) || ((65 <=? c) && (c <=? 90)) || ((97 <=? c) && (c <=? 122)).

(** The characters [_-.,/~+]. *)
Definition IDCHARS : list Z := [95; 45; 46; 44; 47; 126; 43].

(** ** Data *)

Record Pgm : Type := mkPgm { pgmlist : nat; next : option nat }.

Record Command : Type := mkCommand {
  pgm : option nat;
  rstdin : option nat;
  rstdout : option nat;
  rstderr : option nat;
  background : bool
}.

Record shell : Type := mkShell {
  cbuf : list Z; cp : nat;
  pbuf : list (option nat); pp : nat;
  cmdbuf : list Pgm; cmds : option nat
}.

(** [*cp++ = c]. *)
Definition put_char (c : Z) : ST shell unit := fun s =>
  if bool_decide (cp s < length (cbuf s))%nat
  then Ret (tt, mkShell (<[cp s := c]> (cbuf s)) (S (cp s)) (pbuf s) (pp s) (cmdbuf s) (cmds s)) else Err BadAccess.

(** [--cp]. *)
Definition back_char : ST shell unit := fun s =>
  Ret (tt, mkShell (cbuf s) (cp s - 1) (pbuf s) (pp s) (cmdbuf s) (cmds s)).

(** [*pp++ = p]. *)
Definition put_word (p : option nat) : ST shell unit := fun s =>
  if bool_decide (pp s < length (pbuf s))%nat
  then Ret (tt, mkShell (cbuf s) (cp s) (<[pp s := p]> (pbuf s)) (S (pp s)) (cmdbuf s) (cmds s)) else Err BadAccess.

(** [*p]. *)
Definition char_at (p : nat) : ST shell Z := fun s =>
  match cbuf s !! p with Some c => Ret (c, s) | None => Err BadAccess end.

(** [p->next = n]. *)
Definition set_next (p : nat) (n : option nat) : ST shell unit := fun s =>
  match cmdbuf s !! p with
  | Some x => Ret (tt, mkShell (cbuf s) (cp s) (pbuf s) (pp s) (<[p := mkPgm (pgmlist x) n]> (cmdbuf s)) (cmds s))
  | None => Err BadAccess
  end.

(** ** The lexer *)

Definition init : ST shell unit := fun s =>
  Ret (tt, mkShell (cbuf s) 0 (pbuf s) 0
    (imap (fun i x => mkPgm (pgmlist x) (if bool_decide (i < 19)%nat then Some (S i) else None)) (cmdbuf s)) (Some 0%nat)).

(** [while (isspace (c = *s++) && c);]: the character and the rest behind it. *)
Fixpoint skip_space (s : list Z) : Z * list Z :=
  match s with
  | [] => (0, [])
  | c :: s' => if isspace c && negb (c =? 0) then skip_space s' else (c, s')
  end.

(** The loop that copies a word; the rest starts with the character that
    ends the word. *)
Fixpoint token_loop (s : list Z) : ST shell (list Z) :=
  match s with
  | [] => do! _ := put_char 0 in sret []
  | c :: s' =>
      do! _ := put_char c in
      if negb (isspace c) && negb (isspec c) && negb (c =? 0) then token_loop s' else sret s
  end.

(** The number of characters of the line that were used, and [*tok]. *)
Definition nexttoken (s : list Z) : ST shell (nat * nat) :=
  do! st := get in
  let tok := cp st in
  let '(c, s') := skip_space s in
  if c =? 0 then sret (0%nat, tok)
  else if isspec c then
    do! _ := put_char c in
    do! _ := put_char 0 in
    sret (length s - length s', tok)%nat
  else
    do! _ := put_char c in
    do! s' := token_loop s' in
    do! _ := back_char in
    do! _ := put_char 0 in
    sret (length s - length s', tok)%nat.

(** The loop of [acmd]; every iteration but the last uses a character. *)
Fixpoint acmd_loop (fuel : nat) (s : list Z) (cnt : nat) : ST shell nat :=
  match fuel with
  | O => stop NoFuel
  | S fuel' =>
      do! r := nexttoken s in
      let '(n, tok) := r in
      do! special := (if (n =? 0)%nat then sret true else do! c := char_at tok in sret (isspec c)) in
      if (special : bool) then
        do! _ := put_word None in sret cnt
      else
        do! _ := put_word (Some tok) in
        acmd_loop fuel' (drop n s) (cnt + n)
  end.

(** The number of characters used and the command. *)
Definition acmd (s : list Z) : ST shell (nat * nat) :=
  do! st := get in
  match cmds st with
  | None => stop BadAccess
  | Some cmd0 =>
      match cmdbuf st !! cmd0 with
      | None => stop BadAccess
      | Some x =>
          do! _ := put (mkShell (cbuf st) (cp st) (pbuf st) (pp st) (<[cmd0 := mkPgm (pp st) None]> (cmdbuf st)) (next x)) in
          do! cnt := acmd_loop (S (length s)) s 0 in
          sret (cnt, cmd0)
      end
  end.

Fixpoint isidentifier (fuel : nat) (s : nat) : ST shell bool :=
  match fuel with
  | O => stop NoFuel
  | S fuel' =>
      do! c := char_at s in
      if c =? 0 then sret true else
      if negb (isalnum c) && negb (bool_decide (c ∈ IDCHARS)) then sret false else isidentifier fuel' (S s)
  end.

(** ** The parser *)

Inductive label : Type := NewCmd | NewToken.

Definition with_pgm c x := mkCommand x (rstdin c) (rstdout c) (rstderr c) (background c).
Definition with_stdin c x := mkCommand (pgm c) x (rstdout c) (rstderr c) (background c).
Definition with_stdout c x := mkCommand (pgm c) (rstdin c) x (rstderr c) (background c).
Definition with_background c x := mkCommand (pgm c) (rstdin c) (rstdout c) (rstderr c) x.

(** From the label [l] on, with the rest [t] of the line. *)
Fixpoint parse_loop (fuel : nat) (l : label) (t : list Z) (c : Command) : ST shell (Z * Command) :=
  match fuel with
  | O => stop NoFuel
  | S fuel' =>
      match l with
      | NewCmd =>
          do! r := acmd t in
          let '(n, cmd0) := r in
          if (n =? 0)%nat then sret (-1, c) else
          do! _ := set_next cmd0 (pgm c) in
          parse_loop fuel' NewToken (drop n t) (with_pgm c (Some cmd0))
      | NewToken =>
          do! r := nexttoken t in
          let '(n, tok) := r in
          if (n =? 0)%nat then sret (1, c) else
          let t := drop n t in
          do! ch := char_at tok in
          if ch =? PIPE then parse_loop fuel' NewCmd t c
          else if ch =? BG then
            do! r := nexttoken t in
            if (fst r =? 0)%nat then sret (1, with_background c true) else sret (-1, c)
          else if ch =? RIN then
            if bool_decide (rstdin c <> None) then sret (-1, c) else
            do! r := nexttoken t in
            let c := with_stdin c (Some (snd r)) in
            do! ok := isidentifier 257 (snd r) in
            if (ok : bool) then parse_loop fuel' NewToken (drop (fst r) t) c else sret (-1, c)
          else if ch =? RUT then
            if bool_decide (rstdout c <> None) then sret (-1, c) else
            do! r := nexttoken t in
            let c := with_stdout c (Some (snd r)) in
            do! ok := isidentifier 257 (snd r) in
            if (ok : bool) then parse_loop fuel' NewToken (drop (fst r) t) c else sret (-1, c)
          else sret (-1, c)
      end
  end.

(** Two labels per character that is used are enough. *)
Definition parse (buf : list Z) : ST shell (Z * Command) :=
  do! _ := init in
  parse_loop (2 * length buf + 2) NewCmd buf (mkCommand None None None None false).

(** ** The specification: tokens and a grammar *)

Abbreviation word := (list Z).

Definition ends_word (c : Z) : bool := isspace c || isspec c.

Fixpoint span_word (s : list Z) : word * list Z :=
  match s with
  | [] => ([], [])
  | c :: s' => if ends_word c then ([], s) else let '(w, r) := span_word s' in (c :: w, r)
  end.

(** The first token and the rest of the line. *)
Definition lex1 (s : list Z) : option (word * list Z) :=
  let '(c, s') := skip_space s in
  if c =? 0 then None else if isspec c then Some ([c], s') else let '(w, r) := span_word s' in Some (c :: w, r).

Fixpoint lex (n : nat) (s : list Z) : list word :=
  match n with
  | O => []
  | S n' => match lex1 s with Some (w, r) => w :: lex n' r | None => [] end
  end.

Definition tokens (s : list Z) : list word := lex (length s) s.

Definition special (w : word) : bool := match w with c :: _ => isspec c | [] => false end.
Definition identifier (w : word) : bool := forallb (fun c => isalnum c || bool_decide (c ∈ IDCHARS)) w.

(** A command line: the programs with their arguments, the last one first. *)
Record cmdline : Type := mkLine {
  programs : list (list word);
  input : option word;
  output : option word;
  in_background : bool
}.

Definition add_program cl ws := mkLine (ws :: programs cl) (input cl) (output cl) (in_background cl).
Definition add_input cl w := mkLine (programs cl) (Some w) (output cl) (in_background cl).
Definition add_output cl w := mkLine (programs cl) (input cl) (Some w) (in_background cl).
Definition set_background cl := mkLine (programs cl) (input cl) (output cl) true.

(** [Dangling cl i]: the line ends where the name of a file should follow, for
    the input if [i] and else for the output; [cl] is the line up to there. *)
Inductive verdict : Type := Accept (cl : cmdline) | Reject | Dangling (cl : cmdline) (i : bool).

Inductive phase : Type := Program (ws : list word) | Next | NeedInput | NeedOutput | AtEnd.

Fixpoint grammar (ts : list word) (q : phase) (cl : cmdline) : verdict :=
  match ts with
  | [] =>
      match q with
      | Program [] => Reject
      | Program ws => Accept (add_program cl ws)
      | Next | AtEnd => Accept cl
      | NeedInput => Dangling cl true
      | NeedOutput => Dangling cl false
      end
  | w :: ts' =>
      let separator cl :=
        if bool_decide (w = [PIPE]) then grammar ts' (Program []) cl
        else if bool_decide (w = [BG]) then grammar ts' AtEnd (set_background cl)
        else if bool_decide (w = [RIN]) then match input cl with Some _ => Reject | None => grammar ts' NeedInput cl end
        else if bool_decide (w = [RUT]) then match output cl with Some _ => Reject | None => grammar ts' NeedOutput cl end
        else Reject in
      match q with
      | Program ws =>
          if special w then match ws with [] => Reject | _ => separator (add_program cl ws) end
          else grammar ts' (Program (ws ++ [w])) cl
      | Next => separator cl
      | NeedInput => if identifier w then grammar ts' Next (add_input cl w) else Reject
      | NeedOutput => if identifier w then grammar ts' Next (add_output cl w) else Reject
      | AtEnd => Reject
      end
  end.

(** What a line takes: the bytes of [cbuf] (a special character is stored
    twice), the pointers of [pbuf] and the entries of [cmdbuf]. *)
Definition token_cost (w : word) : nat := if special w then 4 else S (length w).
Definition cost (ts : list word) : nat := sum_list (map token_cost ts).
Definition pipes (ts : list word) : nat := length (filter (fun w => w = [PIPE]) ts).
Definition fits (ts : list word) : Prop := (cost ts <= 256 /\ length ts < 50 /\ pipes ts < 20)%nat.

(** ** Lemmas on the lexer *)

Definition c_line (s : list Z) : Prop := Forall (fun c => c <> 0) s.

Lemma skip_space_spec s c r :
  c_line s -> skip_space s = (c, r) ->
  (c = 0 /\ r = []) \/ (c <> 0 /\ isspace c = false /\ exists p, s = p ++ c :: r).
Proof.
  intros Hs. revert c r. induction Hs as [|x s Hx Hs IH]; intros c r; cbn [skip_space]; [intros [= <- <-]; by left|].
  destruct (Z.eqb_spec x 0); [done|]. rewrite andb_true_r. destruct (isspace x) eqn:E.
  - intros H. destruct (IH c r H) as [?|(H1 & H2 & p & ->)]; [by left|]. right. split_and!; try done. by exists (x :: p).
  - intros [= <- <-]. right. split_and!; try done. by exists [].
Qed.

Lemma span_word_app s w r : span_word s = (w, r) -> s = w ++ r.
Proof.
  revert w r. induction s as [|c s IH]; intros w r; cbn [span_word]; [by intros [= <- <-]|].
  destruct (ends_word c); [by intros [= <- <-]|]. destruct (span_word s) as [w' r'] eqn:E. intros [= <- <-]. cbn. f_equal. by apply IH.
Qed.

Lemma lex1_app s w r : c_line s -> lex1 s = Some (w, r) -> exists p, s = p ++ w ++ r /\ w <> [] /\ (special w = true -> w = [hd 0 w]).
Proof.
  intros Hs. unfold lex1. destruct (skip_space s) as [c s'] eqn:E. destruct (skip_space_spec s c s' Hs E) as [[-> _]|(Hc & _ & p & ->)]; [done|].
  destruct (Z.eqb_spec c 0); [done|]. destruct (isspec c) eqn:Ec; [intros [= <- <-]; by exists p|].
  destruct (span_word s') as [w' r'] eqn:Ew. intros [= <- <-]. exists p. split; [|split; [done|]].
  - by rewrite (span_word_app _ _ _ Ew).
  - cbn. by rewrite Ec.
Qed.

Lemma lex1_rest s w r : c_line s -> lex1 s = Some (w, r) -> (length r < length s)%nat /\ drop (length s - length r) s = r /\ c_line w /\ c_line r.
Proof.
  intros Hs H. destruct (lex1_app s w r Hs H) as (p & -> & Hw & _). rewrite !length_app.
  destruct w as [|c w]; [done|]. cbn [length]. split; [lia|]. split.
  - rewrite app_assoc. rewrite drop_app_ge by (rewrite length_app; cbn [length]; lia). rewrite length_app. cbn [length].
    by replace (_ - _)%nat with 0%nat by lia.
  - unfold c_line in *. rewrite !Forall_app in Hs. tauto.
Qed.

Lemma lex_enough n m s : c_line s -> (length s <= n)%nat -> (length s <= m)%nat -> lex n s = lex m s.
Proof.
  revert m s. induction n as [|n IH]; intros m s Hs Hn Hm.
  - destruct s; [|cbn in Hn; lia]. by destruct m.
  - destruct m as [|m]; [destruct s; [done|cbn in Hm; lia]|]. cbn [lex]. destruct (lex1 s) as [[w r]|] eqn:E; [|done].
    destruct (lex1_rest s w r Hs E) as (Hl & _ & _ & Hr). f_equal. apply IH; [done|lia|lia].
Qed.

Lemma tokens_eq s : c_line s -> tokens s = match lex1 s with Some (w, r) => w :: tokens r | None => [] end.
Proof.
  intros Hs. unfold tokens. destruct s as [|c s]; [done|]. cbn [length lex]. destruct (lex1 (c :: s)) as [[w r]|] eqn:E; [|done].
  destruct (lex1_rest _ w r Hs E) as (Hl & _ & _ & Hr). f_equal. apply lex_enough; [done| |lia]. cbn in Hl. lia.
Qed.

(** ** Stores into the arrays *)

(** The list [l] with [w] written from position [i] on. *)
Fixpoint poke {A} (i : nat) (w : list A) (l : list A) : list A :=
  match w with [] => l | x :: w' => poke (S i) w' (<[i := x]> l) end.

Lemma poke_length {A} i (w l : list A) : length (poke i w l) = length l.
Proof. revert i l. induction w as [|x w IH]; intros i l; cbn; [done|]. by rewrite IH, length_insert. Qed.

Lemma poke_app {A} i (w w' l : list A) : poke i (w ++ w') l = poke (i + length w) w' (poke i w l).
Proof. revert i l. induction w as [|x w IH]; intros i l; cbn; [by rewrite Nat.add_0_r|]. rewrite IH. f_equal. lia. Qed.

Lemma poke_out {A} i (w l : list A) j : (j < i \/ i + length w <= j)%nat -> poke i w l !! j = l !! j.
Proof.
  revert i l. induction w as [|x w IH]; intros i l Hj; cbn; [done|]. cbn [length] in Hj.
  rewrite IH by lia. apply list_lookup_insert_ne. lia.
Qed.

Lemma poke_in {A} i (w l : list A) j : (i + length w <= length l)%nat -> (j < length w)%nat -> poke i w l !! (i + j)%nat = w !! j.
Proof.
  revert i l j. induction w as [|x w IH]; intros i l j Hl Hj; cbn in *; [lia|]. destruct j as [|j].
  - rewrite Nat.add_0_r, poke_out by lia. cbn. apply list_lookup_insert_eq. lia.
  - replace (i + S j)%nat with (S i + j)%nat by lia. rewrite IH; [done|rewrite length_insert; lia|lia].
Qed.

Lemma poke_last {A} i (w l : list A) x y : poke i (w ++ [y]) l = <[(i + length w)%nat := y]> (poke i (w ++ [x]) l).
Proof. rewrite !poke_app. cbn. by rewrite list_insert_insert_eq. Qed.

Definition with_chars (st : shell) (w : word) : shell :=
  mkShell (poke (cp st) w (cbuf st)) (cp st + length w) (pbuf st) (pp st) (cmdbuf st) (cmds st).

Lemma run_put_char st c : (cp st < length (cbuf st))%nat -> put_char c st = Ret (tt, with_chars st [c]).
Proof. intros H. unfold put_char, with_chars. rewrite bool_decide_true by done. cbn. by rewrite Nat.add_1_r. Qed.

Lemma with_chars_app st w w' : with_chars (with_chars st w) w' = with_chars st (w ++ w').
Proof. unfold with_chars. cbn [cbuf cp pbuf pp cmdbuf cmds]. by rewrite poke_app, length_app, Nat.add_assoc. Qed.

Lemma run_token_loop s w r st :
  span_word s = (w, r) -> c_line s -> (cp st + length w < length (cbuf st))%nat ->
  token_loop s st = Ret (r, with_chars st (w ++ [hd 0 r])).
Proof.
  revert w r st. induction s as [|c s IH]; intros w r st; cbn [span_word token_loop].
  - intros [= <- <-] _ Hl. cbn in Hl. sstep (run_put_char st 0 ltac:(lia)). done.
  - intros Hsp Hs Hl. inversion_clear Hs as [|? ? Hc Hs']. destruct (Z.eqb_spec c 0); [done|].
    assert (Hb : negb (isspace c) && negb (isspec c) && negb false = negb (ends_word c)) by (unfold ends_word; by destruct (isspace c), (isspec c)).
    destruct (ends_word c) eqn:Ee.
    + injection Hsp as <- <-. cbn in Hl. sstep (run_put_char st c ltac:(lia)). by rewrite Hb.
    + destruct (span_word s) as [w' r'] eqn:Ew. injection Hsp as <- <-. cbn [length] in Hl.
      sstep (run_put_char st c ltac:(lia)). rewrite Hb. cbn [negb].
      rewrite (IH w' r' _ eq_refl Hs'); [by rewrite with_chars_app|]. cbn. rewrite length_insert. lia.
Qed.

Lemma run_nexttoken s st :
  c_line s ->
  match lex1 s with
  | None => nexttoken s st = Ret ((0%nat, cp st), st)
  | Some (w, r) => (cp st + length w < length (cbuf st))%nat ->
      nexttoken s st = Ret ((length s - length r, cp st)%nat, with_chars st (w ++ [0]))
  end.
Proof.
  intros Hs. unfold lex1, nexttoken. sstep (eq_refl : get st = Ret (st, st)). destruct (skip_space s) as [c s'] eqn:E.
  destruct (skip_space_spec s c s' Hs E) as [[-> _]|(Hc & _ & p & ->)]; [done|]. destruct (Z.eqb_spec c 0); [done|].
  assert (Hs' : c_line s') by (unfold c_line in *; rewrite Forall_app in Hs; destruct Hs as [_ Hs]; by inversion Hs).
  destruct (isspec c).
  - intros Hl. cbn [length] in Hl. sstep (run_put_char st c ltac:(lia)).
    sstep (run_put_char (with_chars st [c]) 0 ltac:(cbn; rewrite length_insert; lia)). by rewrite with_chars_app.
  - destruct (span_word s') as [w r] eqn:Ew. intros Hl. cbn [length] in Hl. sstep (run_put_char st c ltac:(lia)).
    sstep (run_token_loop s' w r (with_chars st [c]) Ew Hs' ltac:(cbn; rewrite length_insert; lia)). rewrite with_chars_app.
    set (st1 := with_chars st _). unfold back_char. unfold sbind at 1.
    assert (Hcp : (cp st1 - 1 = cp st + length (c :: w))%nat) by (cbn; rewrite length_app; cbn; lia).
    sstep (run_put_char (mkShell (cbuf st1) (cp st1 - 1) (pbuf st1) (pp st1) (cmdbuf st1) (cmds st1)) 0
      ltac:(cbn [cp cbuf]; rewrite Hcp; unfold st1, with_chars; cbn [cbuf]; rewrite poke_length; cbn [length]; lia)).
    unfold sret. do 2 f_equal. unfold with_chars at 1. cbn [cbuf cp pbuf pp cmdbuf cmds poke length]. rewrite Hcp.
    unfold st1, with_chars. cbn [cbuf cp pbuf pp cmdbuf cmds]. f_equal.
    + change ([c] ++ w ++ [hd 0 r]) with ((c :: w) ++ [hd 0 r]). symmetry. apply poke_last.
    + rewrite length_app. cbn. lia.
Qed.

(** ** What the arrays hold *)

(** The string [w] at [p], before [cp]. *)
Definition has_string (st : shell) (p : nat) (w : word) : Prop :=
  c_line w /\ (p + length w < cp st)%nat /\ (forall i, (i < length w)%nat -> cbuf st !! (p + i)%nat = w !! i) /\
  cbuf st !! (p + length w)%nat = Some 0.

(** The pointers to the strings [ws] and NULL from [a] on. *)
Definition has_args (st : shell) (a : nat) (ws : list word) : Prop :=
  (a + length ws < pp st)%nat /\
  (forall i w, ws !! i = Some w -> exists p, pbuf st !! (a + i)%nat = Some (Some p) /\ has_string st p w) /\
  pbuf st !! (a + length ws)%nat = Some None.

(** The list of commands at [o], among the first [k] entries, each before
    the one that points to it. *)
Fixpoint has_programs (st : shell) (k : nat) (o : option nat) (ps : list (list word)) : Prop :=
  match ps with
  | [] => o = None
  | ws :: ps' => exists i a n, o = Some i /\ (i < k)%nat /\ cmdbuf st !! i = Some (mkPgm a n) /\ has_args st a ws /\ has_programs st i n ps'
  end.

Definition has_file (st : shell) (o : option nat) (x : option word) : Prop :=
  match o, x with
  | Some p, Some w => has_string st p w
  | None, None => True
  | _, _ => False
  end.

Definition holds (st : shell) (k : nat) (c : Command) (cl : cmdline) : Prop :=
  has_programs st k (pgm c) (programs cl) /\ has_file st (rstdin c) (input cl) /\ has_file st (rstdout c) (output cl) /\
  rstderr c = None /\ background c = in_background cl.

(** The arrays have their sizes, and the entries from [k] on are free. *)
Record sized (st : shell) (k : nat) : Prop := mkSized {
  sz_cbuf : length (cbuf st) = 256%nat;
  sz_pbuf : length (pbuf st) = 50%nat;
  sz_cmdbuf : length (cmdbuf st) = 20%nat;
  sz_cmds : cmds st = if bool_decide (k < 20)%nat then Some k else None;
  sz_free i : (k <= i < 20)%nat -> exists a, cmdbuf st !! i = Some (mkPgm a (if bool_decide (i < 19)%nat then Some (S i) else None))
}.

(** Nothing that was stored changes, and nothing is stored behind [cp]. *)
Record extends (st st' : shell) (k : nat) : Prop := mkExtends {
  ex_cp : (cp st <= cp st')%nat;
  ex_cbuf i : (i < cp st)%nat -> cbuf st' !! i = cbuf st !! i;
  ex_pp : (pp st <= pp st')%nat;
  ex_pbuf i : (i < pp st)%nat -> pbuf st' !! i = pbuf st !! i;
  ex_cmdbuf i : (i < k)%nat -> cmdbuf st' !! i = cmdbuf st !! i;
  ex_rest i : (cp st' <= i)%nat -> cbuf st' !! i = cbuf st !! i
}.

Lemma extends_refl k st : extends st st k.
Proof. done. Qed.

Lemma extends_trans k s1 s2 s3 : extends s1 s2 k -> extends s2 s3 k -> extends s1 s3 k.
Proof.
  intros [A1 A2 A3 A4 A5 A6] [B1 B2 B3 B4 B5 B6]. split; try lia; intros i Hi.
  - rewrite B2 by lia. auto.
  - rewrite B4 by lia. auto.
  - rewrite B5 by lia. auto.
  - rewrite B6 by lia. apply A6. lia.
Qed.

Lemma string_extends st st' k p w : extends st st' k -> has_string st p w -> has_string st' p w.
Proof.
  intros [H1 H2 _ _ _ _] (S0 & S1 & S2 & S3). split; [done|]. split; [lia|]. split; [intros i Hi; rewrite H2 by lia; auto|by rewrite H2 by lia].
Qed.

Lemma args_extends st st' k a ws : extends st st' k -> has_args st a ws -> has_args st' a ws.
Proof.
  intros H (S1 & S2 & S3). pose proof H as [_ _ H3 H4 _ _]. split; [lia|]. split; [|by rewrite H4 by lia].
  intros i w Hw. destruct (S2 i w Hw) as (p & Hp & Hs). apply lookup_lt_Some in Hw. exists p. rewrite H4 by lia. split; [done|].
  by eapply string_extends.
Qed.

Lemma extends_mono st st' k k' : extends st st' k -> (k' <= k)%nat -> extends st st' k'.
Proof. intros [H1 H2 H3 H4 H5 H6] Hk. split; try done. intros i Hi. apply H5. lia. Qed.

Lemma programs_extends st st' k k' o ps : extends st st' k -> (k <= k')%nat -> has_programs st k o ps -> has_programs st' k' o ps.
Proof.
  intros H Hk. revert k k' o H Hk. induction ps as [|ws ps IH]; intros k k' o H Hk; cbn [has_programs]; [done|].
  intros (i & a & n & -> & Hi & Hc & Ha & Hn). exists i, a, n. split_and!; try done; [lia| |by eapply args_extends|].
  - by rewrite (ex_cmdbuf _ _ _ H).
  - apply (IH i i); [|done|done]. apply (extends_mono _ _ k); [done|lia].
Qed.

Lemma programs_length st k o ps : has_programs st k o ps -> (length ps <= k)%nat.
Proof.
  revert k o. induction ps as [|ws ps IH]; intros k o; cbn [has_programs length]; [lia|]. intros (i & a & n & _ & Hi & _ & _ & Hn).
  specialize (IH i n Hn). lia.
Qed.

Lemma file_extends st st' k o x : extends st st' k -> has_file st o x -> has_file st' o x.
Proof. intros H. destruct o, x; try done. by eapply string_extends. Qed.

Lemma holds_extends st st' k k' c cl : extends st st' k -> (k <= k')%nat -> holds st k c cl -> holds st' k' c cl.
Proof.
  intros H Hk (H1 & H2 & H3 & H4 & H5). split_and!; try done; [by eapply programs_extends|by eapply file_extends|by eapply file_extends].
Qed.

(** A token that is stored. *)
Lemma with_chars_extends st w k : extends st (with_chars st w) k.
Proof. split; cbn; try lia; try done; intros i Hi; apply poke_out; lia. Qed.

Lemma with_chars_sized st w k : sized st k -> sized (with_chars st w) k.
Proof. intros [H1 H2 H3 H4 H5]. split; try done. cbn. by rewrite poke_length. Qed.

Lemma with_chars_string st w : c_line w -> (cp st + length w < length (cbuf st))%nat -> has_string (with_chars st (w ++ [0])) (cp st) w.
Proof.
  intros Hw Hl. split; [done|]. split; [cbn; rewrite length_app; cbn; lia|]. split.
  - intros i Hi. cbn. rewrite poke_in by (rewrite length_app; cbn; lia). by apply lookup_app_l.
  - cbn. rewrite poke_in by (rewrite length_app; cbn; lia). rewrite lookup_app_r by lia. by rewrite Nat.sub_diag.
Qed.

Lemma run_char_at st p w : has_string st p w -> w <> [] -> char_at p st = Ret (hd 0 w, st).
Proof.
  intros (_ & _ & H & _) Hw. unfold char_at. specialize (H 0%nat). rewrite Nat.add_0_r in H. destruct w as [|c w]; [done|]. by rewrite H by (cbn; lia).
Qed.

Lemma string_nil st p : has_string st p [] -> char_at p st = Ret (0, st).
Proof. intros (_ & _ & _ & H). rewrite Nat.add_0_r in H. unfold char_at. by rewrite H. Qed.

Lemma string_cons st p c w : has_string st p (c :: w) -> char_at p st = Ret (c, st) /\ c <> 0 /\ has_string st (S p) w.
Proof.
  intros (H0 & H1 & H2 & H3). cbn [length] in *. inversion_clear H0 as [|? ? Hc Hw]. split; [|split; [done|split; [done|]]].
  - unfold char_at. specialize (H2 0%nat). rewrite Nat.add_0_r in H2. by rewrite H2 by lia.
  - split; [lia|]. split; [|by replace (S p + length w)%nat with (p + S (length w))%nat by lia].
    intros i Hi. replace (S p + i)%nat with (p + S i)%nat by lia. by rewrite H2 by lia.
Qed.

Lemma run_isidentifier st p w fuel :
  has_string st p w -> (length w < fuel)%nat -> isidentifier fuel p st = Ret (identifier w, st).
Proof.
  revert p w. induction fuel as [|fuel IH]; intros p w H Hl; [lia|]. cbn [isidentifier]. destruct w as [|c w].
  - by sstep (string_nil st p H).
  - destruct (string_cons st p c w H) as (Hc & Hc0 & Ht). sstep Hc. destruct (Z.eqb_spec c 0); [done|].
    cbn [identifier forallb]. rewrite <- negb_orb.
    destruct (isalnum c || bool_decide (c ∈ IDCHARS)); cbn [negb andb]; [|done]. apply IH; [done|cbn in Hl; lia].
Qed.

Definition with_word (st : shell) (p : option nat) : shell :=
  mkShell (cbuf st) (cp st) (<[pp st := p]> (pbuf st)) (S (pp st)) (cmdbuf st) (cmds st).

Lemma run_put_word st p : (pp st < length (pbuf st))%nat -> put_word p st = Ret (tt, with_word st p).
Proof. intros H. unfold put_word. by rewrite bool_decide_true. Qed.

Lemma with_word_extends st p k : extends st (with_word st p) k.
Proof. split; cbn; try lia; try done. intros i Hi. apply list_lookup_insert_ne. lia. Qed.

Lemma with_word_sized st p k : sized st k -> sized (with_word st p) k.
Proof. intros [H1 H2 H3 H4 H5]. split; try done. cbn. by rewrite length_insert. Qed.

(** ** A command *)

Fixpoint words (ts : list word) : list word * list word :=
  match ts with
  | [] => ([], [])
  | w :: ts' => if special w then ([], ts) else let '(ws, r) := words ts' in (w :: ws, r)
  end.

Definition bytes (ws : list word) : nat := sum_list (map (fun w => S (length w)) ws).
Definition peeked (ts : list word) : nat := match ts with [] => 0 | _ => 2 end.

Lemma words_app ts ws r : words ts = (ws, r) -> ts = ws ++ r /\ Forall (fun w => special w = false) ws /\ match r with w :: _ => special w = true | [] => True end.
Proof.
  revert ws r. induction ts as [|w ts IH]; intros ws r; cbn [words]; [by intros [= <- <-]|].
  destruct (special w) eqn:E; [by intros [= <- <-]|]. destruct (words ts) as [ws' r'] eqn:Ew. intros [= <- <-].
  destruct (IH ws' r' eq_refl) as (-> & H1 & H2). split_and!; try done. by constructor.
Qed.

Lemma cost_words ws r : Forall (fun w => special w = false) ws -> cost (ws ++ r) = (bytes ws + cost r)%nat.
Proof.
  intros H. unfold cost, bytes. induction H as [|w ws Hw Hws IH]; cbn [app map sum_list]; [done|].
  unfold token_cost at 1. rewrite Hw, IH. cbn. lia.
Qed.

(** The state after a command was read from [st]. *)
Record command_read (st st' : shell) (k : nat) (ws r : list word) : Prop := mkRead {
  cr_ext : extends st st' k;
  cr_sized : sized st' k;
  cr_cmdbuf : cmdbuf st' = cmdbuf st;
  cr_cp : cp st' = (cp st + bytes ws + peeked r)%nat;
  cr_pp : pp st' = (pp st + length ws + 1)%nat;
  cr_args : has_args st' (pp st) ws
}.

Lemma command_end st st1 k r :
  extends st st1 k -> sized st1 k -> cmdbuf st1 = cmdbuf st -> pp st1 = pp st -> cp st1 = (cp st + peeked r)%nat -> (pp st < 50)%nat ->
  command_read st (with_word st1 None) k [] r.
Proof.
  intros He Hs Hc Hp Hcp Hl. split.
  - eapply extends_trans; [exact He|apply with_word_extends].
  - by apply with_word_sized.
  - done.
  - cbn. by rewrite Nat.add_0_r.
  - cbn. lia.
  - split; [cbn; lia|]. split; [done|]. cbn. rewrite Nat.add_0_r, Hp. apply list_lookup_insert_eq. rewrite (sz_pbuf _ _ Hs). lia.
Qed.

Lemma command_cons st st' k w ws r :
  sized st k -> c_line w -> (cp st + length w < 256)%nat -> (pp st < 50)%nat ->
  let st2 := with_word (with_chars st (w ++ [0])) (Some (cp st)) in
  command_read st2 st' k ws r -> command_read st st' k (w :: ws) r.
Proof.
  intros Hsz Hcw Hw Hp st2 [He Hs Hc Hcp Hpp (A1 & A2 & A3)]. assert (He2 : extends st st2 k).
  { eapply extends_trans; [apply (with_chars_extends st (w ++ [0]))|apply with_word_extends]. }
  assert (Ecp : cp st2 = (cp st + S (length w))%nat) by (cbn; rewrite length_app; cbn; lia). assert (Epp : pp st2 = S (pp st)) by done.
  split; try done.
  - by eapply extends_trans.
  - rewrite Hcp, Ecp. unfold bytes. cbn. lia.
  - rewrite Hpp, Epp. cbn. lia.
  - rewrite Epp in *. split; [cbn; lia|]. split; [|by replace (pp st + length (w :: ws))%nat with (S (pp st) + length ws)%nat by (cbn; lia)].
    intros [|i] x Hx; [injection Hx as <-|]; [|by replace (pp st + S i)%nat with (S (pp st) + i)%nat by lia; apply A2].
    exists (cp st). split.
    + rewrite Nat.add_0_r, (ex_pbuf _ _ _ He) by lia. cbn. apply list_lookup_insert_eq. rewrite (sz_pbuf _ _ Hsz). lia.
    + eapply string_extends; [exact He|]. apply (string_extends (with_chars st (w ++ [0])) _ k); [apply with_word_extends|].
      apply with_chars_string; [done|]. rewrite (sz_cbuf _ _ Hsz). lia.
Qed.

Lemma run_acmd_loop fuel s cnt st k ws r :
  c_line s -> (length s < fuel)%nat -> words (tokens s) = (ws, r) -> sized st k ->
  (cp st + bytes ws + peeked r <= 256)%nat -> (pp st + length ws < 50)%nat ->
  exists n st', acmd_loop fuel s cnt st = Ret ((cnt + n)%nat, st') /\ tokens (drop n s) = r /\ (n = 0%nat <-> ws = []) /\ c_line (drop n s) /\
    (n <= length s)%nat /\ command_read st st' k ws r.
Proof.
  revert s cnt st ws. induction fuel as [|fuel IH]; intros s cnt st ws Hs Hf Hw Hsz Hcp Hpp; [lia|]. cbn [acmd_loop].
  pose proof (sz_cbuf _ _ Hsz) as Hl. pose proof (sz_pbuf _ _ Hsz) as Hlp.
  pose proof (run_nexttoken s st Hs) as Hnt. rewrite (tokens_eq s Hs) in Hw. destruct (lex1 s) as [[w s']|] eqn:El.
  - destruct (lex1_rest s w s' Hs El) as (Hlt & Hdrop & Hcw & Hcs). destruct (lex1_app s w s' Hs El) as (_ & _ & Hwn & Hsp).
    assert (Hstr : (cp st + length w < 256)%nat -> has_string (with_chars st (w ++ [0])) (cp st) w) by (intros; apply with_chars_string; (done || lia)).
    assert (Hsub : (cp st + length w < 256)%nat -> (if (length s - length s' =? 0)%nat then sret true else do! c := char_at (cp st) in sret (isspec c))
        (with_chars st (w ++ [0])) = Ret (special w, with_chars st (w ++ [0]))).
    { intros Hx. destruct (Nat.eqb_spec (length s - length s') 0); [lia|]. sstep (run_char_at _ _ _ (Hstr Hx) Hwn). by destruct w. }
    assert (He1 : extends st (with_chars st (w ++ [0])) k) by apply with_chars_extends.
    assert (Hs1 : sized (with_chars st (w ++ [0])) k) by (by apply with_chars_sized).
    cbn [words] in Hw. destruct (special w) eqn:Esp.
    + injection Hw as <- <-. cbn in Hcp. cbn in Hpp. specialize (Hsp eq_refl).
      assert (Hlw : length w = 1%nat) by (by rewrite Hsp). sstep (Hnt ltac:(lia)). sstep (Hsub ltac:(lia)).
      sstep (run_put_word (with_chars st (w ++ [0])) None ltac:(cbn; lia)). exists 0%nat. eexists. rewrite Nat.add_0_r. split; [done|].
      rewrite drop_0. split_and!; try done; [by rewrite (tokens_eq s Hs), El|lia|]. apply command_end; try done; [|lia].
      cbn. rewrite length_app. cbn. lia.
    + destruct (words (tokens s')) as [ws' r'] eqn:Ew. injection Hw as <- <-. change (bytes (w :: ws')) with (S (length w) + bytes ws')%nat in Hcp.
      cbn [length] in Hpp. sstep (Hnt ltac:(lia)). sstep (Hsub ltac:(lia)).
      sstep (run_put_word (with_chars st (w ++ [0])) (Some (cp st)) ltac:(cbn; lia)). rewrite Hdrop.
      destruct (IH s' (cnt + (length s - length s'))%nat (with_word (with_chars st (w ++ [0])) (Some (cp st))) ws' Hcs ltac:(lia) Ew)
        as (n & st' & Hr & Ht & _ & Hc & Hn & Hrd).
      { by apply with_word_sized. }
      { cbn. rewrite length_app. cbn. lia. }
      { cbn. lia. }
      exists (length s - length s' + n)%nat, st'. rewrite Nat.add_assoc. split; [exact Hr|]. rewrite <- drop_drop, Hdrop.
      split_and!; try done; try lia; [split; (done || lia)|]. by apply command_cons; [| |lia|lia|].
  - injection Hw as <- <-. sstep Hnt. cbn [Nat.eqb]. sstep (eq_refl : sret true st = Ret (true, st)). cbn in Hpp.
    sstep (run_put_word st None ltac:(lia)). exists 0%nat. eexists. rewrite Nat.add_0_r. split; [done|]. rewrite drop_0.
    split_and!; try done; [by rewrite (tokens_eq s Hs), El|lia|]. apply command_end; try done; cbn; lia.
Qed.

Lemma run_acmd s st k ws r :
  c_line s -> words (tokens s) = (ws, r) -> sized st k -> (k < 20)%nat ->
  (cp st + bytes ws + peeked r <= 256)%nat -> (pp st + length ws < 50)%nat ->
  exists n st', acmd s st = Ret ((n, k), st') /\ tokens (drop n s) = r /\ (n = 0%nat <-> ws = []) /\ c_line (drop n s) /\ (n <= length s)%nat /\
    sized st' (S k) /\ extends st st' k /\ cp st' = (cp st + bytes ws + peeked r)%nat /\ pp st' = (pp st + length ws + 1)%nat /\
    cmdbuf st' !! k = Some (mkPgm (pp st) None) /\ has_args st' (pp st) ws.
Proof.
  intros Hs Hw Hsz Hk Hcp Hpp. unfold acmd. sstep (eq_refl : get st = Ret (st, st)).
  destruct Hsz as [H1 H2 H3 H4 H5]. rewrite H4, bool_decide_true by done. destruct (H5 k ltac:(lia)) as (a & Ha). rewrite Ha. cbn [next].
  set (st0 := mkShell _ _ _ _ _ _). sstep (eq_refl : put st0 st = Ret (tt, st0)).
  assert (Hsz0 : sized st0 (S k)).
  { split; try done; cbn [cmdbuf cmds st0].
    - by rewrite length_insert.
    - repeat case_bool_decide; (done || lia).
    - intros i Hi. rewrite list_lookup_insert_ne by lia. apply H5. lia. }
  assert (He0 : extends st st0 k) by (split; try done; cbn [cmdbuf st0]; intros i Hi; apply list_lookup_insert_ne; lia).
  destruct (run_acmd_loop (S (length s)) s 0 st0 (S k) ws r Hs ltac:(lia) Hw Hsz0 Hcp Hpp) as (n & st' & Hr & Ht & Hn & Hc & Hl & [R1 R2 R3 R4 R5 R6]).
  sstep Hr. exists n, st'. split_and!; try done.
  - eapply extends_trans; [exact He0|]. destruct R1 as [E1 E2 E3 E4 E5 E6]. split; try done. intros i Hi. apply E5. lia.
  - rewrite R3. cbn [cmdbuf st0]. apply list_lookup_insert_eq. lia.
Qed.

(** The command is linked before those read already. *)
Lemma run_link_program st st1 k c cl ws :
  sized st1 (S k) -> extends st st1 k -> holds st k c cl -> cmdbuf st1 !! k = Some (mkPgm (pp st) None) -> has_args st1 (pp st) ws ->
  exists st2, set_next k (pgm c) st1 = Ret (tt, st2) /\ sized st2 (S k) /\ cp st2 = cp st1 /\ cbuf st2 = cbuf st1 /\ pp st2 = pp st1 /\
    holds st2 (S k) (with_pgm c (Some k)) (add_program cl ws).
Proof.
  intros Hsz He Hh Hc Ha. unfold set_next. rewrite Hc. eexists. split; [done|]. cbn [pgmlist]. set (st2 := mkShell _ _ _ _ _ _).
  assert (Hk : (k < length (cmdbuf st1))%nat) by (by apply lookup_lt_Some in Hc).
  assert (He2 : extends st1 st2 k) by (split; try done; cbn [cmdbuf st2]; intros i Hi; apply list_lookup_insert_ne; lia).
  split_and!; try done.
  - destruct Hsz as [H1 H2 H3 H4 H5]. split; try done; cbn [cmdbuf st2]; [by rewrite length_insert|].
    intros i Hi. rewrite list_lookup_insert_ne by lia. by apply H5.
  - destruct (holds_extends st st2 k k c cl (extends_trans _ _ _ _ He He2) ltac:(lia) Hh) as (G1 & G2 & G3 & G4 & G5).
    split_and!; try done; try lia. cbn [pgm programs with_pgm add_program has_programs]. exists k, (pp st), (pgm c). split_and!; try done; try lia.
    cbn [cmdbuf st2]. by apply list_lookup_insert_eq.
Qed.

Lemma grammar_words ts ws r ws0 cl :
  words ts = (ws, r) ->
  grammar ts (Program ws0) cl = match ws0 ++ ws with [] => Reject | ws1 => grammar r Next (add_program cl ws1) end.
Proof.
  revert ws r ws0. induction ts as [|w ts IH]; intros ws r ws0; cbn [words].
  - intros [= <- <-]. rewrite app_nil_r. by destruct ws0.
  - destruct (special w) eqn:E.
    + intros [= <- <-]. rewrite app_nil_r. cbn [grammar]. rewrite E. by destruct ws0.
    + destruct (words ts) as [ws' r'] eqn:Ew. intros [= <- <-]. cbn [grammar]. rewrite E, (IH ws' r' _ eq_refl), <- app_assoc. done.
Qed.

(** ** The parser is correct *)

(** What is left must fit into the arrays. *)
Definition room (st : shell) (k : nat) (l : label) (ts : list word) : Prop :=
  match l with
  | NewCmd => (cp st + cost ts <= 256 /\ pp st + length ts < 50 /\ k + pipes ts < 20)%nat
  | NewToken => (cp st + cost ts <= 256 + (match ts with w :: _ => if special w then 2 else 0 | [] => 0 end) /\
      pp st + length ts <= 50 /\ k + pipes ts <= 20)%nat
  end.

(** What [isidentifier] says of the bytes that follow; [None] if there is no
    null byte among them. *)
Fixpoint scan (l : list Z) : option bool :=
  match l with
  | [] => None
  | c :: l' => if c =? 0 then Some true else if isalnum c || bool_decide (c ∈ IDCHARS) then scan l' else Some false
  end.

Definition file_of (i : bool) (c : Command) : option nat := if i then rstdin c else rstdout c.
Definition without_file (i : bool) (c : Command) : Command := if i then with_stdin c None else with_stdout c None.

(** The outcome that belongs to a verdict; [B] is what [cbuf] held before the
    line. *)
Definition judged (B : list Z) (v : verdict) (r : outcome ((Z * Command) * shell)) : Prop :=
  match v with
  | Accept cl => exists c st k, r = Ret ((1, c), st) /\ holds st k c cl /\ (cp st <= 256 /\ pp st <= 50 /\ k <= 20)%nat
  | Reject => exists c st, r = Ret ((-1, c), st)
  | Dangling cl i => exists p, (p <= 256)%nat /\
      match scan (drop p B) with
      | Some true => exists c st k, r = Ret ((1, c), st) /\ file_of i c = Some p /\ drop p (cbuf st) = drop p B /\
          holds st k (without_file i c) cl /\ (cp st = p /\ pp st <= 50 /\ k <= 20)%nat
      | Some false => exists c st, r = Ret ((-1, c), st)
      | None => r = Err BadAccess
      end
  end.

Lemma run_identifier_scan st p fuel : (length (cbuf st) < p + fuel)%nat -> (0 < fuel)%nat ->
  isidentifier fuel p st = match scan (drop p (cbuf st)) with Some b => Ret (b, st) | None => Err BadAccess end.
Proof.
  revert p. induction fuel as [|fuel IH]; intros p Hl Hf; [lia|]. cbn [isidentifier]. unfold sbind, char_at. destruct (cbuf st !! p) as [c|] eqn:E.
  - rewrite (drop_S _ _ _ E). cbn [scan]. destruct (c =? 0); [done|]. rewrite <- negb_orb. destruct (isalnum c || bool_decide (c ∈ IDCHARS)); cbn [negb]; [|done].
    apply lookup_lt_Some in E. apply IH; lia.
  - apply lookup_ge_None in E. by rewrite drop_ge.
Qed.

Lemma cost_cons w ts : cost (w :: ts) = (token_cost w + cost ts)%nat.
Proof. done. Qed.

Lemma pipes_cons w ts : pipes (w :: ts) = ((if decide (w = [PIPE]) then 1 else 0) + pipes ts)%nat.
Proof. unfold pipes. rewrite filter_cons. by case_decide. Qed.

Lemma run_filename {A} t st k w r (K : nat -> nat -> bool -> ST shell A) :
  c_line t -> sized st k -> lex1 t = Some (w, r) -> (cp st + length w < 256)%nat ->
  (do! x := nexttoken t in do! ok := isidentifier 257 (snd x) in K (fst x) (snd x) ok) st =
    K (length t - length r)%nat (cp st) (identifier w) (with_chars st (w ++ [0])).
Proof.
  intros Ht Hsz El Hl. pose proof (run_nexttoken t st Ht) as Hn. rewrite El, (sz_cbuf _ _ Hsz) in Hn. sstep (Hn Hl). cbn [fst snd].
  destruct (lex1_rest t w r Ht El) as (_ & _ & Hw & _).
  assert (Hs : has_string (with_chars st (w ++ [0])) (cp st) w) by (apply with_chars_string; [done|]; by rewrite (sz_cbuf _ _ Hsz)).
  by sstep (run_isidentifier _ _ w 257 Hs ltac:(lia)).
Qed.

Lemma special_cases w : special w = true -> w = [hd 0 w] -> w = [PIPE] \/ w = [BG] \/ w = [RIN] \/ w = [RUT].
Proof.
  destruct w as [|c w]; [done|]. cbn. unfold isspec. intros Hs [= ->].
  destruct (Z.eqb_spec c PIPE), (Z.eqb_spec c BG), (Z.eqb_spec c RIN), (Z.eqb_spec c RUT); subst; try done; auto.
Qed.

(** A word where a separator should be. *)
Lemma not_separator w : special w = false -> w <> [] ->
  (hd 0 w <> PIPE /\ hd 0 w <> BG /\ hd 0 w <> RIN /\ hd 0 w <> RUT) /\ (w <> [PIPE] /\ w <> [BG] /\ w <> [RIN] /\ w <> [RUT]).
Proof.
  destruct w as [|c w]; [done|]. cbn. unfold isspec. intros H _.
  destruct (Z.eqb_spec c PIPE), (Z.eqb_spec c BG), (Z.eqb_spec c RIN), (Z.eqb_spec c RUT); try done. split_and!; congruence.
Qed.

Lemma room_nil st k : room st k NewToken [] -> (cp st <= 256 /\ pp st <= 50 /\ k <= 20)%nat.
Proof. unfold room. cbn. lia. Qed.

(** The room that is left behind a token. *)
Lemma room_token st k w ts :
  let st1 := with_chars st (w ++ [0]) in
  (special w = true -> w = [hd 0 w]) -> room st k NewToken (w :: ts) ->
  (cp st + length w < 256)%nat /\ room st1 k NewToken ts /\ (cp st1 + cost ts <= 256)%nat /\ (w = [PIPE] -> room st1 k NewCmd ts).
Proof.
  intros st1 Hsp (R1 & R2 & R3). rewrite cost_cons in R1. rewrite pipes_cons in R3. cbn [length] in R2.
  assert (Ecp : cp st1 = (cp st + length w + 1)%nat) by (cbn; rewrite length_app; cbn; lia).
  assert (H : (cp st + length w < 256 /\ cp st + length w + 1 + cost ts <= 256)%nat).
  { unfold token_cost in R1. destruct (special w) eqn:E; [specialize (Hsp eq_refl); rewrite Hsp in *; cbn in *; lia|lia]. }
  split; [lia|]. unfold room. rewrite Ecp. change (pp st1) with (pp st). split; [lia|]. split; [lia|].
  intros ->. rewrite decide_True in R3 by done. lia.
Qed.

Lemma run_parse_loop B fuel l t st k c cl :
  c_line t -> sized st k -> holds st k c cl -> room st k l (tokens t) -> (forall i, (cp st <= i)%nat -> cbuf st !! i = B !! i) ->
  (2 * length t + (match l with NewCmd => 2 | NewToken => 1 end) <= fuel)%nat ->
  judged B (grammar (tokens t) (match l with NewCmd => Program [] | NewToken => Next end) cl) (parse_loop fuel l t c st).
Proof.
  revert l t st k c cl. induction fuel as [|fuel IH]; intros l t st k c cl Ht Hsz Hh Hroom HB Hf; [destruct l; lia|].
  destruct l; cbn [parse_loop].
  - destruct Hroom as (R1 & R2 & R3). destruct (words (tokens t)) as [ws r] eqn:Ew. destruct (words_app _ _ _ Ew) as (Ets & Hws & Hr).
    rewrite Ets, (cost_words ws r Hws) in R1. rewrite Ets, length_app in R2.
    assert (Hpr : (pipes r <= pipes (tokens t))%nat) by (rewrite Ets; unfold pipes; rewrite filter_app, length_app; lia).
    assert (Hpk : (peeked r <= cost r)%nat /\ (cost r <= peeked r + cost r)%nat) by (destruct r as [|w r]; [done|]; rewrite cost_cons; unfold token_cost; rewrite Hr; cbn; lia).
    destruct (run_acmd t st k ws r Ht Ew Hsz ltac:(lia) ltac:(lia) ltac:(lia)) as (n & st1 & Ha & Htr & Hn & Hct & Hnl & Hsz1 & He & Hcp & Hpp & Hc & Hargs).
    sstep Ha. rewrite (grammar_words _ ws r [] cl Ew). cbn [app]. destruct (Nat.eqb_spec n 0) as [E|E].
    { rewrite (proj1 Hn E). by exists c, st1. }
    assert (Hwn : ws <> []) by (intros ->; by apply E, Hn). destruct ws as [|w0 ws0]; [done|]. set (ws := w0 :: ws0) in *.
    destruct (run_link_program st st1 k c cl ws Hsz1 He Hh Hc Hargs) as (st2 & Hl & Hsz2 & Ecp & Ecb & Epp & Hh2). sstep Hl.
    rewrite <- Htr. apply (IH NewToken (drop n t) st2 (S k)); try done; [| |rewrite length_drop; lia].
    + rewrite Htr. unfold room. rewrite Ecp, Epp, Hcp, Hpp. destruct r as [|w r]; [cbn in *; lia|]. rewrite Hr. cbn [peeked] in *. lia.
    + intros i Hi. rewrite Ecb, (ex_rest _ _ _ He) by lia. apply HB. pose proof (ex_cp _ _ _ He). lia.
  - destruct Hroom as (R1 & R2 & R3). pose proof (run_nexttoken t st Ht) as Hn. rewrite (tokens_eq t Ht) in *.
    rewrite (sz_cbuf _ _ Hsz) in Hn. destruct (lex1 t) as [[w r]|] eqn:El.
    2: { sstep Hn. exists c, st, k. split; [done|]. split; [done|]. by apply room_nil. }
    destruct (lex1_rest t w r Ht El) as (Hlt & Hd & Hcw & Hcr). destruct (lex1_app t w r Ht El) as (_ & _ & Hwn & Hsp).
    destruct (room_token st k w (tokens r) Hsp (conj R1 (conj R2 R3))) as (Hroomw & Hrt & Hrc & Hrp).
    sstep (Hn ltac:(lia)). destruct (Nat.eqb_spec (length t - length r) 0); [lia|]. rewrite Hd. set (st1 := with_chars st (w ++ [0])) in *.
    assert (Hstr : has_string st1 (cp st) w) by (apply with_chars_string; [done|]; rewrite (sz_cbuf _ _ Hsz); lia). sstep (run_char_at st1 _ w Hstr Hwn).
    assert (Hsz1 : sized st1 k) by (by apply with_chars_sized). assert (He1 : extends st st1 k) by apply with_chars_extends.
    assert (HB1 : forall i, (cp st1 <= i)%nat -> cbuf st1 !! i = B !! i).
    { intros i Hi. rewrite (ex_rest _ _ _ He1) by done. apply HB. pose proof (ex_cp _ _ _ He1). lia. }
    assert (Hh1 : holds st1 k c cl) by (by eapply holds_extends). cbn [grammar].
    assert (Hfile : forall i (put_c : Command -> nat -> Command) (put_cl : cmdline -> word -> cmdline),
      (forall st2 p x, extends st1 st2 k -> has_string st2 p x -> holds st2 k (put_c c p) (put_cl cl x)) ->
      (forall p, file_of i (put_c c p) = Some p /\ without_file i (put_c c p) = c) ->
      judged B (match tokens r with [] => Dangling cl i | x :: ts => if identifier x then grammar ts Next (put_cl cl x) else Reject end)
        ((do! x := nexttoken r in do! ok := isidentifier 257 (snd x) in
          if (ok : bool) then parse_loop fuel NewToken (drop (fst x) r) (put_c c (snd x)) else sret (-1, put_c c (snd x))) st1)).
    { intros i put_c put_cl Hput Hfi. rewrite (tokens_eq r Hcr) in *. destruct (lex1 r) as [[x r2]|] eqn:El2.
      - destruct (lex1_rest r x r2 Hcr El2) as (Hlt2 & Hd2 & Hcx & Hcr2). destruct (lex1_app r x r2 Hcr El2) as (_ & _ & _ & Hsp2).
        destruct (room_token st1 k x (tokens r2) Hsp2 Hrt) as (Hrx & Hrt2 & _).
        rewrite (run_filename r st1 k x r2 (fun n p ok => if ok then parse_loop fuel NewToken (drop n r) (put_c c p) else sret (-1, put_c c p)) Hcr Hsz1 El2 Hrx).
        destruct (identifier x); [|by eexists _, _]. rewrite Hd2. apply (IH NewToken r2 (with_chars st1 (x ++ [0])) k); try done; try lia.
        + by apply with_chars_sized.
        + apply Hput; [apply with_chars_extends|]. apply with_chars_string; [done|]. rewrite (sz_cbuf _ _ Hsz1). lia.
        + pose proof (with_chars_extends st1 (x ++ [0]) k) as He2. intros j Hj. rewrite (ex_rest _ _ _ He2) by done. apply HB1. pose proof (ex_cp _ _ _ He2). lia.
      - pose proof (run_nexttoken r st1 Hcr) as Hn2. rewrite El2 in Hn2. sstep Hn2. cbn [fst snd]. destruct (room_nil st1 k Hrt) as (L1 & L2 & L3).
        assert (Hdr : drop (cp st1) (cbuf st1) = drop (cp st1) B) by (apply list_eq; intros j; rewrite !lookup_drop; apply HB1; lia).
        unfold sbind at 1. rewrite run_identifier_scan by (rewrite ?(sz_cbuf _ _ Hsz1); lia). rewrite Hdr. exists (cp st1). split; [done|].
        destruct (scan (drop (cp st1) B)) as [[|]|]; [|by eexists _, _|done]. rewrite drop_0. destruct fuel as [|fuel]; [lia|]. cbn [parse_loop].
        rewrite (sbind_run _ _ _ _ _ Hn2). destruct (Hfi (cp st1)) as [F1 F2]. exists (put_c c (cp st1)), st1, k. rewrite F2. by split_and!. }
    destruct (special w) eqn:Esp.
    2: { destruct (not_separator w Esp Hwn) as [(N1 & N2 & N3 & N4) (M1 & M2 & M3 & M4)].
         apply Z.eqb_neq in N1 as ->, N2 as ->, N3 as ->, N4 as ->. rewrite !bool_decide_false by done. by eexists _, _. }
    pose proof Hh1 as (G1 & G2 & G3 & G4 & G5). destruct (special_cases w Esp (Hsp eq_refl)) as [E|[E|[E|E]]]; rewrite E; cbn [hd].
    + rewrite (bool_decide_true ([PIPE] = [PIPE])) by done. change (PIPE =? PIPE) with true. cbv iota. apply (IH NewCmd r st1 k); try done; [by apply Hrp|lia].
    + rewrite (bool_decide_false ([BG] = [PIPE])), (bool_decide_true ([BG] = [BG])) by done.
      change (BG =? PIPE) with false. change (BG =? BG) with true. cbv iota.
      pose proof (run_nexttoken r st1 Hcr) as Hn2. rewrite (tokens_eq r Hcr) in *. destruct (lex1 r) as [[x r2]|] eqn:El2.
      * destruct (lex1_app r x r2 Hcr El2) as (_ & _ & _ & Hsp2). destruct (lex1_rest r x r2 Hcr El2) as (Hlt2 & _).
        destruct (room_token st1 k x (tokens r2) Hsp2 Hrt) as (Hrx & _). rewrite (sz_cbuf _ _ Hsz1) in Hn2. sstep (Hn2 Hrx). cbn [fst].
        destruct (Nat.eqb_spec (length r - length r2) 0); [lia|]. by eexists _, _.
      * sstep Hn2. exists (with_background c true), st1, k. split; [done|]. split; [by split_and!|]. by apply room_nil.
    + rewrite (bool_decide_false ([RIN] = [PIPE])), (bool_decide_false ([RIN] = [BG])), (bool_decide_true ([RIN] = [RIN])) by done.
      change (RIN =? PIPE) with false. change (RIN =? BG) with false. change (RIN =? RIN) with true. cbv iota.
      destruct (rstdin c) as [q|] eqn:Er, (input cl) as [y|] eqn:Ei; try done; [by eexists _, _|].
      rewrite bool_decide_false by (intros Hx; by apply Hx).
      assert (Hg : grammar (tokens r) NeedInput cl = match tokens r with [] => Dangling cl true | x :: ts => if identifier x then grammar ts Next (add_input cl x) else Reject end)
        by (by destruct (tokens r)). rewrite Hg.
      apply (Hfile true (fun c p => with_stdin c (Some p)) add_input).
      * intros st2 p x He2 Hs2. split_and!; try done; [by eapply programs_extends|by eapply file_extends].
      * intros p. split; [done|]. destruct c. cbn in *. by subst.
    + rewrite (bool_decide_false ([RUT] = [PIPE])), (bool_decide_false ([RUT] = [BG])), (bool_decide_false ([RUT] = [RIN])), (bool_decide_true ([RUT] = [RUT])) by done.
      change (RUT =? PIPE) with false. change (RUT =? BG) with false. change (RUT =? RIN) with false. change (RUT =? RUT) with true. cbv iota.
      destruct (rstdout c) as [q|] eqn:Er, (output cl) as [y|] eqn:Ei; try done; [by eexists _, _|].
      rewrite bool_decide_false by (intros Hx; by apply Hx).
      assert (Hg : grammar (tokens r) NeedOutput cl = match tokens r with [] => Dangling cl false | x :: ts => if identifier x then grammar ts Next (add_output cl x) else Reject end)
        by (by destruct (tokens r)). rewrite Hg.
      apply (Hfile false (fun c p => with_stdout c (Some p)) add_output).
      * intros st2 p x He2 Hs2. split_and!; try done; [by eapply programs_extends|by eapply file_extends].
      * intros p. split; [done|]. destruct c. cbn in *. by subst.
Qed.

(** The arrays have the sizes of their declarations. *)
Definition declared (st : shell) : Prop := length (cbuf st) = 256%nat /\ length (pbuf st) = 50%nat /\ length (cmdbuf st) = 20%nat.

Definition no_command : Command := mkCommand None None None None false.
Definition empty_line : cmdline := mkLine [] None None false.

Lemma run_parse line st :
  c_line line -> declared st -> fits (tokens line) -> judged (cbuf st) (grammar (tokens line) (Program []) empty_line) (parse line st).
Proof.
  intros Hl (H1 & H2 & H3) Hfit. unfold parse. unfold init. unfold sbind at 1. set (st0 := mkShell _ _ _ _ _ _).
  apply (run_parse_loop (cbuf st) _ NewCmd line st0 0 no_command empty_line); try done.
  split; try done; cbn [cmdbuf st0]; [by rewrite length_imap|]. intros i Hi. rewrite list_lookup_imap.
  destruct (cmdbuf st !! i) as [x|] eqn:E; [|apply lookup_ge_None in E; lia]. by exists (pgmlist x).
Qed.


(** ** Printing *)

(** [printf ("%s", p)]: the string at [p]. *)
Fixpoint read_str (fuel : nat) (p : nat) : ST shell word :=
  match fuel with
  | O => stop NoFuel
  | S fuel' => do! c := char_at p in if c =? 0 then sret [] else do! w := read_str fuel' (S p) in sret (c :: w)
  end.

(** The loop over the arguments at [pl]. *)
Fixpoint print_args (fuel : nat) (pl : nat) : ST shell (list word) :=
  match fuel with
  | O => stop NoFuel
  | S fuel' =>
      do! st := get in
      match pbuf st !! pl with
      | None => stop BadAccess
      | Some None => sret []
      | Some (Some p) => do! w := read_str 257 p in do! ws := print_args fuel' (S pl) in sret (w :: ws)
      end
  end.

(** The lines that [print_pgm] (in parse.c: [PrintPgm]) prints. *)
Fixpoint print_pgm (fuel : nat) (p : option nat) : ST shell (list (list word)) :=
  match fuel with
  | O => stop NoFuel
  | S fuel' =>
      match p with
      | None => sret []
      | Some i =>
          do! st := get in
          match cmdbuf st !! i with
          | None => stop BadAccess
          | Some x =>
              do! before := print_pgm fuel' (next x) in
              do! ws := print_args 51 (pgmlist x) in
              sret (before ++ [ws])
          end
      end
  end.

Lemma run_read_str st p w fuel : has_string st p w -> (length w < fuel)%nat -> read_str fuel p st = Ret (w, st).
Proof.
  revert p w. induction fuel as [|fuel IH]; intros p w H Hl; [lia|]. cbn [read_str]. destruct w as [|c w].
  - by sstep (string_nil st p H).
  - destruct (string_cons st p c w H) as (Hc & Hc0 & Ht). sstep Hc. destruct (Z.eqb_spec c 0); [done|].
    rewrite (sbind_run _ _ _ w st); [done|]. apply IH; [done|cbn in Hl; lia].
Qed.

Lemma run_print_args st a ws fuel :
  (cp st <= 256)%nat -> has_args st a ws -> (length ws < fuel)%nat -> print_args fuel a st = Ret (ws, st).
Proof.
  intros Hcp. revert a ws. induction fuel as [|fuel IH]; intros a ws (H1 & H2 & H3) Hl; [lia|]. cbn [print_args].
  sstep (eq_refl : get st = Ret (st, st)). destruct ws as [|w ws].
  - rewrite Nat.add_0_r in H3. by rewrite H3.
  - destruct (H2 0%nat w eq_refl) as (p & Hp & Hs). rewrite Nat.add_0_r in Hp. rewrite Hp. pose proof Hs as (_ & Hx & _).
    sstep (run_read_str st p w 257 Hs ltac:(lia)). rewrite (sbind_run _ _ _ ws st); [done|]. cbn [length] in *. apply IH; [|lia].
    split; [lia|]. split; [|by replace (S a + length ws)%nat with (a + S (length ws))%nat by lia].
    intros i x Hx'. replace (S a + i)%nat with (a + S i)%nat by lia. by apply H2.
Qed.

Lemma run_print_pgm st k o ps fuel :
  (cp st <= 256)%nat -> (pp st <= 50)%nat -> has_programs st k o ps -> (length ps < fuel)%nat -> print_pgm fuel o st = Ret (rev ps, st).
Proof.
  intros Hcp Hpp. revert k o ps. induction fuel as [|fuel IH]; intros k o ps H Hl; [lia|]. cbn [print_pgm]. destruct ps as [|ws ps]; cbn [has_programs] in H.
  - by rewrite H.
  - destruct H as (i & a & n & -> & _ & Hc & Ha & Hn). sstep (eq_refl : get st = Ret (st, st)). rewrite Hc. cbn [next pgmlist].
    cbn [length] in Hl. sstep (IH i n ps Hn ltac:(lia)). pose proof Ha as (Hx & _). by sstep (run_print_args st a ws 51 Hcp Ha ltac:(lia)).
Qed.

(** What [print_cmd] (in parse.c: [DebugPrintCommand]) shows; the fuel for
    the list is one more than there are commands. *)
Definition print_file (o : option nat) : ST shell (option word) :=
  match o with Some p => do! w := read_str 257 p in sret (Some w) | None => sret None end.

Definition print_cmd (c : Command) : ST shell cmdline :=
  do! i := print_file (rstdin c) in
  do! o := print_file (rstdout c) in
  do! ps := print_pgm 21 (pgm c) in
  sret (mkLine ps i o (background c)).

Lemma run_print_file st o x : (cp st <= 256)%nat -> has_file st o x -> print_file o st = Ret (x, st).
Proof.
  intros Hcp. destruct o as [p|], x as [w|]; try done. cbn. intros H. pose proof H as (_ & Hl & _). by sstep (run_read_str st p w 257 H ltac:(lia)).
Qed.

(** What the shell prints for a line is what the line says: for every
    line that fits, [parse] followed by [print_cmd] shows the programs in the
    order of the line, with their arguments, and the redirections. *)
Theorem parse_print line st cl :
  c_line line -> declared st -> fits (tokens line) -> grammar (tokens line) (Program []) empty_line = Accept cl ->
  exists c st', parse line st = Ret ((1, c), st') /\
    print_cmd c st' = Ret (mkLine (rev (programs cl)) (input cl) (output cl) (in_background cl), st').
Proof.
  intros Hl Hd Hf Hg. pose proof (run_parse line st Hl Hd Hf) as H. cbv zeta in H. rewrite Hg in H.
  destruct H as (c & st' & k & Hp & (H1 & H2 & H3 & H4 & H5) & L1 & L2 & L3). exists c, st'. split; [done|].
  unfold print_cmd. sstep (run_print_file st' _ _ L1 H2). sstep (run_print_file st' _ _ L1 H3).
  pose proof (programs_length _ _ _ _ H1). sstep (run_print_pgm st' k _ _ 21 L1 L2 H1 ltac:(lia)). by rewrite H5.
Qed.

(** ** What the code does not check *)

Definition fresh_shell : shell := mkShell (replicate 256 0) 0 (replicate 50 None) 0 (replicate 20 (mkPgm 0 None)) None.

(** The lines "cat notes.txt" and "ls <", and what the second one is taken for
    after the first one. *)
Definition cat_notes : list Z := [99; 97; 116; 32; 110; 111; 116; 101; 115; 46; 116; 120; 116].
Definition ls_from_nothing : list Z := [108; 115; 32; 60].

Definition two_lines : ST shell (Z * option word) :=
  do! _ := parse cat_notes in
  do! x := parse ls_from_nothing in
  let '(r, c) := x in
  do! i := print_file (rstdin c) in
  sret (r, i).

(** The limits of the arrays are not checked: a word of 256 characters
    makes [parse] write behind [cbuf], a line of 50 words makes it write
    behind [pbuf], and a line of 21 programs makes it use a null pointer.  A
    redirection without a file name is accepted, and the name is what an
    earlier line has left in the buffer: after "cat notes.txt", the line
    "ls <" reads from "es.txt". *)
Theorem parse_unchecked :
  parse (replicate 256 97) fresh_shell = Err BadAccess /\
  parse (concat (replicate 50 [97; 32])) fresh_shell = Err BadAccess /\
  parse (concat (replicate 20 [97; PIPE]) ++ [97]) fresh_shell = Err BadAccess /\
  exists st, two_lines fresh_shell = Ret ((1, Some [101; 115; 46; 116; 120; 116]), st).
Proof. split; [vm_compute; reflexivity|]. split; [vm_compute; reflexivity|]. split; [vm_compute; reflexivity|]. eexists. vm_compute. reflexivity. Qed.

(** The line "ls -l | wc > out &". *)
Definition demo_line : list Z := [108; 115; 32; 45; 108; 32; 124; 32; 119; 99; 32; 62; 32; 111; 117; 116; 32; 38].

Lemma demo_line_ok : c_line demo_line /\ declared fresh_shell /\ fits (tokens demo_line).
Proof. split; [by repeat constructor|]. split; [done|]. vm_compute. lia. Qed.

(** An ordinary line; and "ls <" when the array holds "12345678notes". *)
Definition stale_shell : shell :=
  mkShell ([49; 50; 51; 52; 53; 54; 55; 56; 110; 111; 116; 101; 115] ++ replicate 243 0) 0 (replicate 50 None) 0 (replicate 20 (mkPgm 0 None)) None.


Lemma parse_print_witness :
  exists c st, parse demo_line fresh_shell = Ret ((1, c), st) /\
    print_cmd c st = Ret (mkLine [[[108; 115]; [45; 108]]; [[119; 99]]] None (Some [111; 117; 116]) true, st).
Proof.
  destruct (parse_print demo_line fresh_shell (mkLine [[[119; 99]]; [[108; 115]; [45; 108]]] None (Some [111; 117; 116]) true)
    (proj1 demo_line_ok) (proj1 (proj2 demo_line_ok)) (proj2 (proj2 demo_line_ok))) as (c & st & H & Hp); [vm_compute; reflexivity|].
  exists c, st. split; [exact H|exact Hp].
Defined.

(** ** Removing blanks *)

(** [strlen]; the string ends inside of the buffer. *)
Fixpoint strlen (b : list Z) : outcome Z :=
  match b with
  | [] => Err BadAccess
  | c :: b' => if c =? 0 then Ret 0 else let! n := strlen b' in Ret (n + 1)
  end.

(** [while (isspace (string[i])) i++;] from 0 on. *)
Fixpoint leading (b : list Z) : outcome Z :=
  match b with
  | [] => Err BadAccess
  | c :: b' => if isspace c then let! i := leading b' in Ret (i + 1) else Ret 0
  end.

Definition char_of (b : list Z) (i : Z) : outcome Z :=
  if i <? Z.of_nat (length b) then access (b !! Z.to_nat i) else Err BadAccess.

(** [while (i > 0 && isspace (string[i])) i--;]: at most [n] times. *)
Fixpoint trailing (n : nat) (b : list Z) (i : Z) : outcome Z :=
  match n with
  | O => Err NoFuel
  | S n' =>
      if 0 <? i then
        let! c := char_of b i in
        if isspace c then trailing n' b (i - 1) else Ret i
      else Ret i
  end.

(** The [memmove] of [stripwhite]. *)
Definition shifted (b : list Z) (i : Z) : outcome (list Z) :=
  if negb (i =? 0) then
    let! n := strlen (drop (Z.to_nat i) b) in
    Ret (poke 0 (take (Z.to_nat (n + 1)) (drop (Z.to_nat i) b)) b)
  else Ret b.

(** [stripwhite] on the buffer [b]; [size_t] has 64 bits on the host. *)
Definition stripwhite (b : list Z) : outcome (list Z) :=
  let! i := leading b in
  let! b := shifted b i in
  let! n := strlen b in
  let! i := trailing (S (length b)) b (u64 (n - 1)) in
  let i := u64 (i + 1) in
  if i <? Z.of_nat (length b) then Ret (<[Z.to_nat i := 0]> b) else Err BadAccess.

Fixpoint drop_space (s : list Z) : list Z :=
  match s with [] => [] | c :: s' => if isspace c then drop_space s' else s end.

Definition trim (s : list Z) : list Z := rev (drop_space (rev (drop_space s))).

Lemma poke_prefix {A} (w l : list A) : (length w <= length l)%nat -> poke 0 w l = w ++ drop (length w) l.
Proof.
  intros Hl. apply list_eq. intros j. destruct (decide (j < length w)%nat) as [Hj|Hj].
  - rewrite lookup_app_l by done. rewrite <- (poke_in 0 w l j) by (cbn; lia). done.
  - rewrite poke_out by lia. rewrite lookup_app_r by lia. rewrite lookup_drop. f_equal. lia.
Qed.

Lemma run_strlen s r : c_line s -> strlen (s ++ 0 :: r) = Ret (Z.of_nat (length s)).
Proof.
  induction 1 as [|c s Hc Hs IH]; [done|]. cbn [app strlen]. destruct (Z.eqb_spec c 0); [done|]. rewrite IH. cbn [obind length]. f_equal. lia.
Qed.

Definition blank (p : list Z) : Prop := Forall (fun c => isspace c = true) p.

Lemma run_leading p c r : blank p -> isspace c = false -> leading (p ++ c :: r) = Ret (Z.of_nat (length p)).
Proof.
  intros Hp Hc. induction Hp as [|x p Hx Hp IH]; cbn [app leading]; [by rewrite Hc|]. rewrite Hx, IH. cbn [obind length]. f_equal. lia.
Qed.

Lemma drop_space_spec s : exists p, blank p /\ s = p ++ drop_space s /\ match drop_space s with c :: _ => isspace c = false | [] => True end.
Proof.
  induction s as [|c s (p & Hp & E & Hd)]; [exists []; split; [apply Forall_nil_2|done]|]. cbn [drop_space]. destruct (isspace c) eqn:Ec.
  - exists (c :: p). split; [by apply Forall_cons_2|]. split; [cbn; by rewrite <- E|done].
  - exists []. split; [apply Forall_nil_2|done].
Qed.

Lemma run_char_of b i c : 0 <= i -> b !! Z.to_nat i = Some c -> char_of b i = Ret c.
Proof. intros Hi Hb. unfold char_of. pose proof (lookup_lt_Some _ _ _ Hb). destruct (Z.ltb_spec i (Z.of_nat (length b))); [by rewrite Hb|lia]. Qed.

Lemma run_trailing n u x q r :
  blank q -> isspace x = false -> (length q < n)%nat ->
  trailing n (u ++ [x] ++ q ++ r) (Z.of_nat (length u) + Z.of_nat (length q)) = Ret (Z.of_nat (length u)).
Proof.
  intros Hq Hx. revert n r. induction q as [|c q IH] using rev_ind; intros n r Hn; (destruct n as [|n]; [lia|]); cbn [trailing].
  - cbn [length]. rewrite Z.add_0_r. destruct (Z.ltb_spec 0 (Z.of_nat (length u))); [|f_equal; lia].
    rewrite (run_char_of _ _ x); [|lia|apply (list_lookup_middle u r x); lia]. cbn [obind]. by rewrite Hx.
  - apply Forall_app in Hq as [Hq Hc]. inversion_clear Hc as [|? ? Hc' _]. rewrite length_app in *. cbn [length] in *.
    destruct (Z.ltb_spec 0 (Z.of_nat (length u) + Z.of_nat (length q + 1))); [|lia].
    assert (Hb : u ++ [x] ++ (q ++ [c]) ++ r = (u ++ [x] ++ q) ++ c :: r) by (by rewrite <- !app_assoc).
    rewrite Hb. rewrite (run_char_of _ _ c); [|lia|rewrite list_lookup_middle; [done|rewrite !length_app; cbn; lia]]. cbn [obind]. rewrite Hc'.
    replace (Z.of_nat (length u) + Z.of_nat (length q + 1) - 1) with (Z.of_nat (length u) + Z.of_nat (length q)) by lia.
    rewrite <- !app_assoc. apply IH; [done|lia].
Qed.

(** The blanks at the end of a string that starts with another character. *)
Lemma trim_end t c t' : t = c :: t' -> isspace c = false ->
  exists u x q, rev (drop_space (rev t)) = u ++ [x] /\ t = u ++ [x] ++ q /\ blank q /\ isspace x = false.
Proof.
  intros -> Hc. destruct (drop_space_spec (rev (c :: t'))) as (p & Hp & E & Hd). destruct (drop_space (rev (c :: t'))) as [|x d] eqn:Ed.
  - rewrite app_nil_r in E. exfalso. assert (Hin : c ∈ p) by (rewrite <- E; cbn; apply elem_of_app; right; by left).
    unfold blank in Hp. rewrite Forall_forall in Hp. by rewrite (Hp c Hin) in Hc.
  - exists (rev d), x, (rev p). split; [done|]. split; [|split; [|done]].
    + rewrite <- (rev_involutive (c :: t')), E, rev_app_distr. cbn. by rewrite <- app_assoc.
    + unfold blank in *. by apply Forall_rev in Hp.
Qed.

Lemma run_shifted p t rest :
  c_line t -> exists r, shifted ((p ++ t) ++ 0 :: rest) (Z.of_nat (length p)) = Ret (t ++ 0 :: r) /\
    length (t ++ 0 :: r) = length ((p ++ t) ++ 0 :: rest).
Proof.
  intros Ht. unfold shifted. rewrite Nat2Z.id. destruct (Z.eqb_spec (Z.of_nat (length p)) 0) as [E0|E0]; cbn [negb].
  { destruct p; [by exists rest|cbn in E0; lia]. }
  assert (Hdr : drop (length p) ((p ++ t) ++ 0 :: rest) = t ++ 0 :: rest) by (rewrite <- app_assoc; apply drop_app_length).
  rewrite Hdr, (run_strlen t rest Ht). cbn [obind].
  assert (Htk : take (Z.to_nat (Z.of_nat (length t) + 1)) (t ++ 0 :: rest) = t ++ [0]).
  { replace (Z.to_nat (Z.of_nat (length t) + 1)) with (length t + 1)%nat by lia. by rewrite take_app_add. }
  rewrite Htk. set (b := (p ++ t) ++ 0 :: rest). set (w := t ++ [0]).
  assert (Hw : length w = S (length t)) by (unfold w; rewrite length_app; cbn; lia).
  assert (Hb : length b = (length p + length t + S (length rest))%nat) by (unfold b; rewrite !length_app; cbn; lia).
  rewrite poke_prefix by lia. exists (drop (length w) b). unfold w at 1. rewrite <- app_assoc. split; [done|].
  rewrite length_app. cbn [length]. rewrite length_drop. lia.
Qed.

(** [stripwhite] leaves the line without the blanks at its ends, in place;
    but on a line of blanks (or an empty one) the index [strlen (string) - 1]
    wraps around, and it reads outside of the line. *)
Theorem stripwhite_correct s rest :
  c_line s -> Z.of_nat (length (s ++ 0 :: rest)) < two64 ->
  if bool_decide (trim s = []) then stripwhite (s ++ 0 :: rest) = Err BadAccess
  else exists r, stripwhite (s ++ 0 :: rest) = Ret (trim s ++ 0 :: r) /\ length (trim s ++ 0 :: r) = length (s ++ 0 :: rest).
Proof.
  intros Hs Hlen. unfold trim. destruct (drop_space_spec s) as (p & Hp & E & Hd). set (t := drop_space s) in *.
  assert (Ht : c_line t) by (unfold c_line in *; rewrite E, Forall_app in Hs; tauto).
  assert (Hld : leading (s ++ 0 :: rest) = Ret (Z.of_nat (length p))).
  { rewrite E, <- app_assoc. destruct t as [|c t']; [by apply (run_leading p 0)|by apply (run_leading p c)]. }
  destruct (run_shifted p t rest Ht) as (r1 & Hb & Hlb). rewrite <- E in Hb, Hlb.
  unfold stripwhite. rewrite Hld. cbn [obind]. rewrite Hb. cbn [obind].
  rewrite (run_strlen t r1 Ht). cbn [obind]. destruct t as [|c t'] eqn:Et.
  - rewrite bool_decide_true by done. cbn [length]. change (u64 (Z.of_nat 0 - 1)) with 18446744073709551615. cbn [trailing].
    change (0 <? 18446744073709551615) with true. cbv iota. unfold char_of. rewrite Hlb. unfold two64 in Hlen.
    destruct (Z.ltb_spec 18446744073709551615 (Z.of_nat (length (s ++ 0 :: rest)))); [lia|done].
  - rewrite <- Et in *. destruct (trim_end t c t' Et Hd) as (u & x & q & Eu & Etq & Hq & Hx). rewrite Eu. rewrite bool_decide_false by (by destruct u).
    rewrite <- Hlb in Hlen |- *. rewrite Etq in *. rewrite <- !app_assoc in *. set (b := u ++ [x] ++ q ++ 0 :: r1) in *.
    assert (Hbl : length b = (length u + length q + length r1 + 2)%nat) by (unfold b; rewrite !length_app; cbn; lia).
    rewrite !length_app. cbn [length].
    replace (Z.of_nat (length u + (1 + length q)) - 1) with (Z.of_nat (length u) + Z.of_nat (length q)) by lia.
    unfold u64, two64 in *. rewrite Z.mod_small by lia. unfold b at 2. rewrite (run_trailing _ u x q (0 :: r1) Hq Hx) by lia. cbn [obind].
    rewrite Z.mod_small by lia. destruct (Z.ltb_spec (Z.of_nat (length u) + 1) (Z.of_nat (length b))); [|lia].
    assert (Hi : <[Z.to_nat (Z.of_nat (length u) + 1) := 0]> b = (u ++ [x]) ++ <[0%nat := 0]> (q ++ 0 :: r1)).
    { unfold b. rewrite (app_assoc u). replace (Z.to_nat (Z.of_nat (length u) + 1)) with (length (u ++ [x]) + 0)%nat by (rewrite length_app; cbn; lia).
      apply insert_app_r. }
    rewrite Hi. destruct q as [|y q]; cbn [app insert list_insert]; [exists r1|exists (q ++ 0 :: r1)]; (split; [done|]); rewrite !length_app; cbn; rewrite ?length_app; cbn in Hbl |- *; lia.
Qed.

Lemma stripwhite_correct_witness :
  stripwhite [32; 32; 0; 7] = Err BadAccess /\ exists r, stripwhite [32; 108; 115; 9; 0] = Ret ([108; 115; 0] ++ r).
Proof.
  split.
  - exact (stripwhite_correct [32; 32] [7] ltac:(by repeat constructor) ltac:(reflexivity)).
  - destruct (stripwhite_correct [32; 108; 115; 9] [] ltac:(by repeat constructor) ltac:(reflexivity)) as (r & H & _). exists r. exact H.
Defined.
