(* ===== verification/Partition.v ===== *)
(** * Block devices and partitions ([devices/block.c], [devices/partition.c])

    A block device is a descriptor in the list [all_blocks], here an index;
    its driver is either the driver of a disk, given by an instance of the
    class [RawDriver], or [partition_operations] with a [struct partition].
    [DriverLaws] is what a driver promises to the block layer; the main
    theorem shows that every registered device, partitions included, keeps
    that promise towards the layers above.

    The descriptors are allocated with [malloc], a parameter that may fail at
    any call ([malloc_ok]).  What the code prints is kept as [messages], last
    first. *)
From Stdlib Require Import ZArith Lia String.
From stdpp Require Import prelude list gmap.
From S2P Require Import Prelude Bitmap Arith Strings Sort Stdio.
#[local] Open Scope Z_scope.

(** ** The interface of a driver *)

Class RawDriver (D : Type) : Type := {
  raw_read : Z -> ST D (list Z);
  raw_write : Z -> list Z -> ST D unit
}.

(** A driver in a state that is [driver_ok], of a device of [capacity]
    sectors: [sectors] is what the device holds. *)
Class DriverLaws (D : Type) `{RawDriver D} : Type := {
  driver_ok : D -> Prop;
  capacity : D -> Z;
  sectors : D -> Z -> list Z;
  raw_read_law d i : driver_ok d -> 0 <= i < capacity d ->
    exists d', raw_read i d = Ret (sectors d i, d') /\ driver_ok d' /\ capacity d' = capacity d /\ forall j, sectors d' j = sectors d j;
  raw_write_law d i b : driver_ok d -> 0 <= i < capacity d -> length b = 512%nat ->
    exists d', raw_write i b d = Ret (tt, d') /\ driver_ok d' /\ capacity d' = capacity d /\
      forall j, sectors d' j = if j =? i then b else sectors d j
}.

(** ** Data *)

Inductive block_type : Type :=
| BLOCK_KERNEL | BLOCK_FILESYS | BLOCK_SCRATCH | BLOCK_SWAP | BLOCK_RAW | BLOCK_FOREIGN.

#[export] Instance block_type_eq_dec : EqDecision block_type.
Proof. solve_decision. Defined.

Definition block_type_index (t : block_type) : nat :=
  match t with BLOCK_KERNEL => 0 | BLOCK_FILESYS => 1 | BLOCK_SCRATCH => 2 | BLOCK_SWAP => 3 | BLOCK_RAW => 4 | BLOCK_FOREIGN => 5 end.

Definition BLOCK_ROLE_CNT : nat := 4.

(** The member [ops] with its [aux]: a disk, or a partition of the device
    [pblock]. *)
Inductive block_operations : Type :=
| Disk (dev : nat)
| Partition (pblock : nat) (start : Z).

Record block : Type := mkBlock {
  name : list Z;
  type : block_type;
  size : Z;
  ops : block_operations;
  read_cnt : Z;
  write_cnt : Z
}.

(** Names of types of partitions, by index; the other indices are NULL. *)
Definition type_names : list (Z * string) :=
  [(0, "Empty"); (1, "FAT12"); (2, "XENIX root"); (3, "XENIX usr");
   (4, "FAT16 <32M"); (5, "Extended"); (6, "FAT16"); (7, "HPFS/NTFS");
   (8, "AIX"); (9, "AIX bootable"); (10, "OS/2 Boot Manager"); (11, "W95 FAT32");
   (12, "W95 FAT32 (LBA)"); (14, "W95 FAT16 (LBA)"); (15, "W95 Ext'd (LBA)"); (16, "OPUS");
   (17, "Hidden FAT12"); (18, "Compaq diagnostics"); (20, "Hidden FAT16 <32M"); (22, "Hidden FAT16");
   (23, "Hidden HPFS/NTFS"); (24, "AST SmartSleep"); (27, "Hidden W95 FAT32"); (28, "Hidden W95 FAT32 (LBA)");
   (30, "Hidden W95 FAT16 (LBA)"); (32, "Pintos OS kernel"); (33, "Pintos file system"); (34, "Pintos scratch");
   (35, "Pintos swap"); (36, "NEC DOS"); (57, "Plan 9"); (60, "PartitionMagic recovery");
   (64, "Venix 80286"); (65, "PPC PReP Boot"); (66, "SFS"); (77, "QNX4.x");
   (78, "QNX4.x 2nd part"); (79, "QNX4.x 3rd part"); (80, "OnTrack DM"); (81, "OnTrack DM6 Aux1");
   (82, "CP/M"); (83, "OnTrack DM6 Aux3"); (84, "OnTrackDM6"); (85, "EZ-Drive");
   (86, "Golden Bow"); (92, "Priam Edisk"); (97, "SpeedStor"); (99, "GNU HURD or SysV");
   (100, "Novell Netware 286"); (101, "Novell Netware 386"); (112, "DiskSecure Multi-Boot"); (117, "PC/IX");
   (128, "Old Minix"); (129, "Minix / old Linux"); (130, "Linux swap / Solaris"); (131, "Linux");
   (132, "OS/2 hidden C: drive"); (133, "Linux extended"); (134, "NTFS volume set"); (135, "NTFS volume set");
   (136, "Linux plaintext"); (142, "Linux LVM"); (147, "Amoeba"); (148, "Amoeba BBT");
   (159, "BSD/OS"); (160, "IBM Thinkpad hibernation"); (165, "FreeBSD"); (166, "OpenBSD");
   (167, "NeXTSTEP"); (168, "Darwin UFS"); (169, "NetBSD"); (171, "Darwin boot");
   (183, "BSDI fs"); (184, "BSDI swap"); (187, "Boot Wizard hidden"); (190, "Solaris boot");
   (191, "Solaris"); (193, "DRDOS/sec (FAT-12)"); (196, "DRDOS/sec (FAT-16 < 32M)"); (198, "DRDOS/sec (FAT-16)");
   (199, "Syrinx"); (218, "Non-FS data"); (219, "CP/M / CTOS / ..."); (222, "Dell Utility");
   (223, "BootIt"); (225, "DOS access"); (227, "DOS R/O"); (228, "SpeedStor");
   (235, "BeOS fs"); (238, "EFI GPT"); (239, "EFI (FAT-12/16/32)"); (240, "Linux/PA-RISC boot");
   (241, "SpeedStor"); (244, "SpeedStor"); (242, "DOS secondary"); (253, "Linux raid autodetect");
   (254, "LANstep"); (255, "BBT")]%string.

Definition partition_type_name (t : Z) : string :=
  match find (fun x => fst x =? t) type_names with Some (_, s) => s | None => "Unknown"%string end.

Inductive message : Type :=
| NoPartitions (nm : list Z)
| TablePastEnd (nm : list Z) (sector : Z)
| InvalidSignature (nm : list Z)
| InvalidExtendedTable (nm : list Z) (sector : Z)
| ExtendedPartition (nm : list Z) (sector : Z)
| StartsPastEnd (nm : list Z) (part_nr start : Z)
| EndPastEnd (nm : list Z) (part_nr past size : Z)
| Registered (nm : list Z) (size : Z) (extra_info : option (string * Z)).

Section devices.
Context {D : Type} `{RawDriver D} (malloc_ok : nat -> bool).

Record bstate : Type := mkBstate {
  all_blocks : list block;
  block_by_role : list (option nat);
  disks : list D;
  allocs : nat;
  messages : list message
}.

Definition with_blocks s x := mkBstate x (block_by_role s) (disks s) (allocs s) (messages s).
Definition with_disks s x := mkBstate (all_blocks s) (block_by_role s) x (allocs s) (messages s).

Definition print (m : message) : ST bstate unit := fun s =>
  Ret (tt, mkBstate (all_blocks s) (block_by_role s) (disks s) (allocs s) (m :: messages s)).

Definition malloc : ST bstate bool := fun s =>
  Ret (malloc_ok (allocs s), mkBstate (all_blocks s) (block_by_role s) (disks s) (S (allocs s)) (messages s)).

Definition get_block (b : nat) : ST bstate block := fun s =>
  match all_blocks s !! b with Some x => Ret (x, s) | None => Err BadAccess end.

Definition put_block (b : nat) (x : block) : ST bstate unit := fun s =>
  Ret (tt, with_blocks s (<[b := x]> (all_blocks s))).

(** A call of the driver of the disk [d]. *)
Definition disk_call {A} (d : nat) (m : ST D A) : ST bstate A := fun s =>
  match disks s !! d with
  | Some x => match m x with Ret (a, x') => Ret (a, with_disks s (<[d := x']> (disks s))) | Err e => Err e end
  | None => Err BadAccess
  end.

(** ** [block.c] *)

Definition block_type_name (t : block_type) : string :=
  match t with
  | BLOCK_KERNEL => "kernel" | BLOCK_FILESYS => "filesys" | BLOCK_SCRATCH => "scratch"
  | BLOCK_SWAP => "swap" | BLOCK_RAW => "raw" | BLOCK_FOREIGN => "foreign"
  end%string.

Definition block_get_role (role : block_type) : ST bstate (option nat) :=
  do! _ := assert_ (bool_decide (block_type_index role < BLOCK_ROLE_CNT)%nat) in
  do! s := get in
  lift (access (block_by_role s !! block_type_index role)).

Definition block_set_role (role : block_type) (b : option nat) : ST bstate unit :=
  do! _ := assert_ (bool_decide (block_type_index role < BLOCK_ROLE_CNT)%nat) in
  do! s := get in
  put (mkBstate (all_blocks s) (<[block_type_index role := b]> (block_by_role s)) (disks s) (allocs s) (messages s)).

(** The descriptor at a position of [all_blocks], or NULL at its end. *)
Definition list_elem_to_block (s : bstate) (i : nat) : option nat :=
  if bool_decide (i < length (all_blocks s))%nat then Some i else None.

Definition block_first : ST bstate (option nat) := fun s => Ret (list_elem_to_block s 0, s).
Definition block_next (b : nat) : ST bstate (option nat) := fun s => Ret (list_elem_to_block s (S b), s).

Fixpoint find_named (nm : list Z) (l : list block) (i : nat) : option nat :=
  match l with
  | [] => None
  | x :: l' => if bool_decide (name x = nm) then Some i else find_named nm l' (S i)
  end.

Definition block_get_by_name (nm : list Z) : ST bstate (option nat) := fun s => Ret (find_named nm (all_blocks s) 0, s).

Definition block_size (b : nat) : ST bstate Z := do! x := get_block b in sret (size x).
Definition block_name (b : nat) : ST bstate (list Z) := do! x := get_block b in sret (name x).

Definition check_sector (x : block) (sector : Z) : ST bstate unit :=
  if size x <=? sector then stop Panicked else sret tt.

(** [block_read] and [partition_read] call each other; a partition comes
    after its device in [all_blocks], so the index bounds the depth. *)
Fixpoint read_nested (n : nat) (b : nat) (sector : Z) : ST bstate (list Z) :=
  match n with
  | O => stop NoFuel
  | S n' =>
      do! x := get_block b in
      do! _ := check_sector x sector in
      do! buffer :=
        (match ops x with
         | Disk d => disk_call d (raw_read sector)
         | Partition p start => read_nested n' p (u32 (start + sector))
         end) in
      do! x := get_block b in
      do! _ := put_block b (mkBlock (name x) (type x) (size x) (ops x) (u64 (read_cnt x + 1)) (write_cnt x)) in
      sret buffer
  end.

Definition block_read (b : nat) (sector : Z) : ST bstate (list Z) := read_nested (S b) b sector.

Fixpoint write_nested (n : nat) (b : nat) (sector : Z) (buffer : list Z) : ST bstate unit :=
  match n with
  | O => stop NoFuel
  | S n' =>
      do! x := get_block b in
      do! _ := check_sector x sector in
      do! _ := assert_ (negb (bool_decide (type x = BLOCK_FOREIGN))) in
      do! _ :=
        (match ops x with
         | Disk d => disk_call d (raw_write sector buffer)
         | Partition p start => write_nested n' p (u32 (start + sector)) buffer
         end) in
      do! x := get_block b in
      put_block b (mkBlock (name x) (type x) (size x) (ops x) (read_cnt x) (u64 (write_cnt x + 1)))
  end.

Definition block_write (b : nat) (sector : Z) (buffer : list Z) : ST bstate unit := write_nested (S b) b sector buffer.

Definition block_register (nm : list Z) (t : block_type) (extra_info : option (string * Z)) (sz : Z) (o : block_operations) : ST bstate nat :=
  do! ok := malloc in
  if (ok : bool) then
    do! s := get in
    do! _ := put (with_blocks s (all_blocks s ++ [mkBlock (take 15 nm) t sz o 0 0])) in
    do! _ := print (Registered (take 15 nm) sz extra_info) in
    sret (length (all_blocks s))
  else stop Panicked.

(** ** [partition.c] *)

(** The members of a partition table entry that are used. *)
Record partition_table_entry : Type := mkEntry { etype : Z; eoffset : Z; esize : Z }.

Definition byte (b : list Z) (i : nat) : Z := default 0 (b !! i).
Definition dword (b : list Z) (i : nat) : Z :=
  byte b i + 256 * byte b (i + 1) + 65536 * byte b (i + 2) + 16777216 * byte b (i + 3).

(** Entry [i] of the table in a sector. *)
Definition table_entry (pt : list Z) (i : nat) : partition_table_entry :=
  let o := (446 + 16 * i)%nat in mkEntry (byte pt (o + 4)) (dword pt (o + 8)) (dword pt (o + 12)).

Definition signature (pt : list Z) : Z := byte pt 510 + 256 * byte pt 511.

Definition partition_type (part_type : Z) : block_type :=
  if part_type =? 32 then BLOCK_KERNEL
  else if part_type =? 33 then BLOCK_FILESYS
  else if part_type =? 34 then BLOCK_SCRATCH
  else if part_type =? 35 then BLOCK_SWAP
  else BLOCK_FOREIGN.

Definition found_partition (b : nat) (part_type start sz part_nr : Z) : ST bstate unit :=
  do! n := block_size b in
  do! nm := block_name b in
  if n <=? start then print (StartsPastEnd nm part_nr start) else
  if (u32 (start + sz) <? start) || (n <? u32 (start + sz)) then print (EndPastEnd nm part_nr (u32 (start + sz)) n) else
  do! ok := malloc in
  if (ok : bool) then
    do! nr := lift (printf "%d" [part_nr]) in
    do! _ := block_register (take 15 (nm ++ nr)) (partition_type part_type) (Some (partition_type_name part_type, part_type)) sz (Partition b start) in
    sret tt
  else stop Panicked.

Definition extended (t : Z) : bool := (t =? 5) || (t =? 15) || (t =? 133) || (t =? 197).

(** One iteration of the loop over the entries of the table [pt]; [rec] is
    the call of [read_partition_table] for an extended partition. *)
Definition parse_entry (rec : Z -> Z -> Z -> ST bstate Z) (b : nat) (nm : list Z) (sector primary_extended_sector : Z) (pt : list Z)
    (i : nat) (part_nr : Z) : ST bstate Z :=
  let e := table_entry pt i in
  if (esize e =? 0) || (etype e =? 0) then sret part_nr
  else if extended (etype e) then
    do! _ := print (ExtendedPartition nm sector) in
    if sector =? 0 then rec (eoffset e) (eoffset e) part_nr
    else rec (u32 (eoffset e + primary_extended_sector)) primary_extended_sector part_nr
  else
    let part_nr := s32 (part_nr + 1) in
    do! _ := found_partition b (etype e) (u32 (eoffset e + sector)) (esize e) part_nr in
    sret part_nr.

Fixpoint entries_from (parse : nat -> Z -> ST bstate Z) (l : list nat) (part_nr : Z) : ST bstate Z :=
  match l with
  | [] => sret part_nr
  | i :: l' => do! n := parse i part_nr in entries_from parse l' n
  end.

(** The number of partitions found; an entry for an extended partition makes
    the function call itself. *)
Fixpoint read_partition_table (fuel : nat) (b : nat) (sector primary_extended_sector part_nr : Z) : ST bstate Z :=
  match fuel with
  | O => stop NoFuel
  | S fuel' =>
      do! n := block_size b in
      do! nm := block_name b in
      if n <=? sector then do! _ := print (TablePastEnd nm sector) in sret part_nr else
      do! ok := malloc in
      if (ok : bool) then
        do! pt := block_read b 0 in
        if negb (signature pt =? 43605) then
          do! _ := print (if primary_extended_sector =? 0 then InvalidSignature nm else InvalidExtendedTable nm sector) in sret part_nr
        else
          entries_from (parse_entry (read_partition_table fuel' b) b nm sector primary_extended_sector pt) [0; 1; 2; 3]%nat part_nr
      else stop Panicked
  end.

Definition partition_scan (fuel : nat) (b : nat) : ST bstate unit :=
  do! part_nr := read_partition_table fuel b 0 0 0 in
  do! nm := block_name b in
  if part_nr =? 0 then print (NoPartitions nm) else sret tt.
End devices.
Arguments bstate D : clear implicits.

(** ** Every device keeps the promise of a driver *)

Section laws.
Context {D : Type} `{DriverLaws D}.

(** What a descriptor says, without its counters. *)
Definition shape (x : block) : list Z * block_type * Z * block_operations := (name x, type x, size x, ops x).

(** The disk and the sector behind sector [i] of a device. *)
Fixpoint phys (n : nat) (bs : list block) (b : nat) (i : Z) : option (nat * Z) :=
  match n with
  | O => None
  | S n' =>
      match ops <$> bs !! b with
      | Some (Disk d) => Some (d, i)
      | Some (Partition p start) => phys n' bs p (start + i)
      | None => None
      end
  end.

Definition dsector (s : bstate D) (d : nat) (k : Z) : list Z :=
  match disks s !! d with Some y => sectors y k | None => [] end.

(** What sector [i] of the device [b] holds. *)
Definition contents (s : bstate D) (b : nat) (i : Z) : list Z :=
  match phys (S b) (all_blocks s) b i with Some (d, k) => dsector s d k | None => [] end.

Definition descriptor_ok (s : bstate D) (b : nat) (x : block) : Prop :=
  0 <= size x < two32 /\
  match ops x with
  | Disk d => exists y, disks s !! d = Some y /\ driver_ok y /\ size x = capacity y
  | Partition p start => (p < b)%nat /\ 0 <= start /\
      exists y, all_blocks s !! p = Some y /\ start + size x <= size y /\ type y <> BLOCK_FOREIGN
  end.

Definition blocks_ok (s : bstate D) : Prop := forall b x, all_blocks s !! b = Some x -> descriptor_ok s b x.

(** Only counters and sectors have changed. *)
Record after (s s' : bstate D) : Prop := mkAfter {
  af_blocks : map shape (all_blocks s') = map shape (all_blocks s);
  af_roles : block_by_role s' = block_by_role s;
  af_disks d : match disks s !! d, disks s' !! d with
               | Some y, Some y' => (driver_ok y -> driver_ok y') /\ capacity y' = capacity y
               | None, None => True
               | _, _ => False
               end
}.

Lemma after_refl s : after s s.
Proof. split; try done. intros d. by destruct (disks s !! d). Qed.

Lemma after_trans s1 s2 s3 : after s1 s2 -> after s2 s3 -> after s1 s3.
Proof.
  intros [A1 A2 A3] [B1 B2 B3]. split; [congruence|congruence|]. intros d. specialize (A3 d). specialize (B3 d).
  destruct (disks s1 !! d), (disks s2 !! d), (disks s3 !! d); try done. destruct A3, B3. split; [auto|congruence].
Qed.

Lemma shape_lookup (s s' : bstate D) b x :
  map shape (all_blocks s') = map shape (all_blocks s) -> all_blocks s !! b = Some x ->
  exists x', all_blocks s' !! b = Some x' /\ shape x' = shape x.
Proof.
  intros E Hx. assert (Hm : map shape (all_blocks s') !! b = Some (shape x)) by (rewrite E, list_lookup_fmap, Hx; done).
  rewrite list_lookup_fmap in Hm. destruct (all_blocks s' !! b) as [x'|]; [|done]. exists x'. split; [done|]. cbn in Hm. congruence.
Qed.

Lemma shape_sym (s s' : bstate D) b x' :
  map shape (all_blocks s') = map shape (all_blocks s) -> all_blocks s' !! b = Some x' ->
  exists x, all_blocks s !! b = Some x /\ shape x' = shape x.
Proof. intros E Hx. destruct (shape_lookup s' s b x' (eq_sym E) Hx) as (x & ? & ?). by exists x. Qed.

Lemma phys_shape bs bs' n b i : map shape bs' = map shape bs -> phys n bs' b i = phys n bs b i.
Proof.
  intros E. revert b i. induction n as [|n IH]; intros b i; [done|]. cbn [phys].
  assert (Ho : ops <$> bs' !! b = ops <$> bs !! b).
  { assert (Hm : map shape bs' !! b = map shape bs !! b) by (by rewrite E). rewrite !list_lookup_fmap in Hm.
    unfold shape in Hm. destruct (bs' !! b), (bs !! b); cbn in *; congruence. }
  rewrite Ho. destruct (ops <$> bs !! b) as [[]|]; auto.
Qed.

Lemma descriptor_after s s' b x x' : after s s' -> shape x' = shape x -> descriptor_ok s b x -> descriptor_ok s' b x'.
Proof.
  intros [A1 _ A3] [= _ _ Es Eo] [Hs Ho]. split; [by rewrite Es|]. rewrite Eo, Es. destruct (ops x) as [d|p start].
  - destruct Ho as (y & Hy & Hok & E). specialize (A3 d). rewrite Hy in A3. destruct (disks s' !! d) as [y'|]; [|done]. destruct A3. exists y'. split_and!; [done|auto|congruence].
  - destruct Ho as (H1 & H2 & y & Hy & H3 & H4). split_and!; try done. destruct (shape_lookup s s' p y A1 Hy) as (y' & Hy' & [= _ Et Es' _]).
    exists y'. split_and!; [done|lia|congruence].
Qed.

Lemma blocks_after s s' : after s s' -> blocks_ok s -> blocks_ok s'.
Proof.
  intros Ha Hok b x' Hx'. destruct (shape_sym s s' b x' (af_blocks _ _ Ha) Hx') as (x & Hx & E). by eapply descriptor_after; [|exact E|apply Hok].
Qed.

Lemma phys_enough n bs b i (s : bstate D) : bs = all_blocks s -> blocks_ok s -> (b < n)%nat -> phys n bs b i = phys (S b) bs b i.
Proof.
  intros -> Hok. revert b i. induction n as [n IH] using lt_wf_ind. intros b i Hn. destruct n as [|n]; [lia|]. cbn [phys].
  destruct (all_blocks s !! b) as [x|] eqn:Ex; [|done]. cbn. pose proof (Hok b x Ex) as [_ Ho].
  destruct (ops x) as [d|p start]; [done|]. destruct Ho as (Hp & _). rewrite (IH n) by lia. destruct b as [|b]; [lia|].
  symmetry. rewrite (IH (S b)) by lia. done.
Qed.

Lemma contents_partition s b x p start i :
  blocks_ok s -> all_blocks s !! b = Some x -> ops x = Partition p start -> contents s b i = contents s p (start + i).
Proof.
  intros Hok Hx Ho. unfold contents. assert (E : phys (S b) (all_blocks s) b i = phys b (all_blocks s) p (start + i)) by (cbn [phys]; rewrite Hx; cbn; by rewrite Ho).
  rewrite E. pose proof (Hok b x Hx) as [_ Hd]. rewrite Ho in Hd.
  destruct Hd as (Hp & _). by rewrite (phys_enough b (all_blocks s) p (start + i) s eq_refl Hok Hp).
Qed.

(** The update of a counter. *)
Lemma after_count (s : bstate D) b x x' : all_blocks s !! b = Some x -> shape x' = shape x -> after s (with_blocks s (<[b := x']> (all_blocks s))).
Proof.
  intros Hx E. split; try done; cbn.
  - rewrite list_fmap_insert, E. apply list_insert_id. by rewrite list_lookup_fmap, Hx.
  - intros d. by destruct (disks s !! d).
Qed.

Lemma run_get_block (s : bstate D) b x : all_blocks s !! b = Some x -> get_block b s = Ret (x, s).
Proof. intros Hx. unfold get_block. by rewrite Hx. Qed.

Lemma run_check (s : bstate D) x i : 0 <= i < size x -> check_sector x i s = Ret (tt, s).
Proof. intros Hi. unfold check_sector. destruct (Z.leb_spec (size x) i); [lia|done]. Qed.

(** The disk [d] with a new state. *)
Lemma after_disk (s : bstate D) d y y' : disks s !! d = Some y -> driver_ok y' -> capacity y' = capacity y -> after s (with_disks s (<[d := y']> (disks s))).
Proof.
  intros Hy Hdr Hc. split; try done. intros d'. cbn. destruct (decide (d' = d)) as [->|Hne].
  - rewrite Hy, list_lookup_insert_eq by (by apply lookup_lt_Some in Hy). done.
  - rewrite list_lookup_insert_ne by done. by destruct (disks s !! d').
Qed.

Lemma dsector_disk (s : bstate D) d y y' d' k :
  disks s !! d = Some y -> dsector (with_disks s (<[d := y']> (disks s))) d' k = if bool_decide (d' = d) then sectors y' k else dsector s d' k.
Proof.
  intros Hy. unfold dsector. cbn. case_bool_decide as E; [subst; by rewrite list_lookup_insert_eq by (by apply lookup_lt_Some in Hy)|].
  by rewrite list_lookup_insert_ne.
Qed.

Lemma run_read n (s : bstate D) b x i :
  blocks_ok s -> (b < n)%nat -> all_blocks s !! b = Some x -> 0 <= i < size x ->
  exists s', read_nested n b i s = Ret (contents s b i, s') /\ after s s' /\ forall d k, dsector s' d k = dsector s d k.
Proof.
  revert s b x i. induction n as [|n IH]; intros s b x i Hok Hn Hx Hi; [lia|]. cbn [read_nested].
  sstep (run_get_block s b x Hx). sstep (run_check s x i Hi). pose proof (Hok b x Hx) as [Hsz Ho].
  assert (Hinner : exists s1, (match ops x with Disk d => disk_call d (raw_read i) | Partition p start => read_nested n p (u32 (start + i)) end) s =
    Ret (contents s b i, s1) /\ after s s1 /\ forall d k, dsector s1 d k = dsector s d k).
  { destruct (ops x) as [d|p start] eqn:Eo.
    - destruct Ho as (y & Hy & Hdr & Ec). destruct (raw_read_law y i) as (y' & Hr & Hdr' & Hc & Hs); [done|lia|]. unfold disk_call. rewrite Hy, Hr. eexists. split.
      + unfold contents, phys. rewrite Hx. cbn. rewrite Eo. unfold dsector. by rewrite Hy.
      + split; [by eapply after_disk|]. intros d' k. rewrite (dsector_disk s d y) by done. case_bool_decide as E; [|done].
        subst. unfold dsector. by rewrite Hy, Hs.
    - destruct Ho as (Hp & Hst & y & Hy & Hle & _). pose proof (Hok p y Hy) as [Hsy _]. rewrite (u32_small (start + i)) by (unfold is_u32; lia).
      rewrite (contents_partition s b x p start i Hok Hx Eo). apply (IH s p y); [done|lia|done|lia]. }
  destruct Hinner as (s1 & Hr & Ha & Hd). sstep Hr. destruct (shape_lookup s s1 b x (af_blocks _ _ Ha) Hx) as (x1 & Hx1 & Ex).
  sstep (run_get_block s1 b x1 Hx1). eexists. split; [done|]. split; [|done]. eapply after_trans; [exact Ha|]. by eapply after_count.
Qed.

Lemma run_write n (s : bstate D) b x i buf :
  blocks_ok s -> (b < n)%nat -> all_blocks s !! b = Some x -> 0 <= i < size x -> type x <> BLOCK_FOREIGN -> length buf = 512%nat ->
  exists s', write_nested n b i buf s = Ret (tt, s') /\ after s s' /\
    forall d k, dsector s' d k = if bool_decide (phys (S b) (all_blocks s) b i = Some (d, k)) then buf else dsector s d k.
Proof.
  revert s b x i. induction n as [|n IH]; intros s b x i Hok Hn Hx Hi Hty Hlen; [lia|]. cbn [write_nested].
  sstep (run_get_block s b x Hx). sstep (run_check s x i Hi). sassert by (by rewrite bool_decide_false). pose proof (Hok b x Hx) as [Hsz Ho].
  assert (Hinner : exists s1, (match ops x with Disk d => disk_call d (raw_write i buf) | Partition p start => write_nested n p (u32 (start + i)) buf end) s =
    Ret (tt, s1) /\ after s s1 /\ forall d k, dsector s1 d k = if bool_decide (phys (S b) (all_blocks s) b i = Some (d, k)) then buf else dsector s d k).
  { destruct (ops x) as [d|p start] eqn:Eo.
    - destruct Ho as (y & Hy & Hdr & Ec). destruct (raw_write_law y i buf) as (y' & Hr & Hdr' & Hc & Hs); [done|lia|done|]. unfold disk_call. rewrite Hy, Hr. eexists. split; [done|].
      split; [by eapply after_disk|]. intros d' k. rewrite (dsector_disk s d y) by done. cbn [phys]. rewrite Hx. cbn. rewrite Eo.
      case_bool_decide as E; [subst|rewrite bool_decide_false by congruence; done]. rewrite Hs. destruct (Z.eqb_spec k i) as [->|Hk].
      + by rewrite bool_decide_true.
      + rewrite bool_decide_false by congruence. unfold dsector. by rewrite Hy.
    - destruct Ho as (Hp & Hst & y & Hy & Hle & Hf). pose proof (Hok p y Hy) as [Hsy _]. rewrite (u32_small (start + i)) by (unfold is_u32; lia).
      destruct (IH s p y (start + i) Hok ltac:(lia) Hy ltac:(lia) Hf Hlen) as (s1 & Hr & Ha & Hd). exists s1. split_and!; try done.
      intros d k. rewrite Hd. assert (E : phys (S b) (all_blocks s) b i = phys b (all_blocks s) p (start + i)) by (cbn [phys]; rewrite Hx; cbn; by rewrite Eo).
      by rewrite E, (phys_enough b (all_blocks s) p (start + i) s eq_refl Hok Hp). }
  destruct Hinner as (s1 & Hr & Ha & Hd). sstep Hr. destruct (shape_lookup s s1 b x (af_blocks _ _ Ha) Hx) as (x1 & Hx1 & Ex).
  sstep (run_get_block s1 b x1 Hx1). eexists. split; [done|]. split; [|done]. eapply after_trans; [exact Ha|]. by eapply after_count.
Qed.

Lemma phys_some (s : bstate D) b x i : blocks_ok s -> all_blocks s !! b = Some x -> exists d k, phys (S b) (all_blocks s) b i = Some (d, k).
Proof.
  intros Hok. revert x i. induction b as [b IH] using lt_wf_ind. intros x i Hx. cbn [phys]. rewrite Hx. cbn.
  pose proof (Hok b x Hx) as [_ Ho]. destruct (ops x) as [d|p start]; [by eexists _, _|]. destruct Ho as (Hp & _ & y & Hy & _).
  rewrite (phys_enough b _ p (start + i) s eq_refl Hok Hp). by apply (IH p Hp y).
Qed.

(** Different sectors of a device are different sectors of its disk. *)
Lemma phys_shift n bs b i j d k d' k' :
  phys n bs b i = Some (d, k) -> phys n bs b j = Some (d', k') -> d' = d /\ k' - k = j - i.
Proof.
  revert b i j. induction n as [|n IH]; intros b i j; [done|]. cbn [phys]. destruct (ops <$> bs !! b) as [[e|p st]|]; [| |done].
  - intros [= <- <-] [= <- <-]. split; [done|lia].
  - intros H1 H2. destruct (IH p (st + i) (st + j) H1 H2). split; [done|lia].
Qed.

(** ** Scanning a table *)

Context (malloc_ok : nat -> bool) (Hm : forall j, malloc_ok j = true).

(** New devices were registered behind the old ones, which are as before. *)
Record grown (s s' : bstate D) : Prop := mkGrown {
  gr_ok : blocks_ok s';
  gr_blocks : exists l, map shape (all_blocks s') = map shape (all_blocks s) ++ l;
  gr_sectors d k : dsector s' d k = dsector s d k
}.

Lemma blocks_same (s s' : bstate D) : all_blocks s' = all_blocks s -> disks s' = disks s -> blocks_ok s -> blocks_ok s'.
Proof. intros E1 E2 H' b x. rewrite E1. intros Hx. specialize (H' b x Hx). unfold descriptor_ok in *. by rewrite E1, E2. Qed.

Lemma grown_same (s s' : bstate D) : blocks_ok s -> all_blocks s' = all_blocks s -> disks s' = disks s -> grown s s'.
Proof.
  intros Hok E1 E2. split; [by eapply blocks_same|exists []; by rewrite E1, app_nil_r|]. intros d k. unfold dsector. by rewrite E2.
Qed.

Lemma grown_after (s s' : bstate D) : blocks_ok s -> after s s' -> (forall d k, dsector s' d k = dsector s d k) -> grown s s'.
Proof. intros Hok Ha Hd. split; [by eapply blocks_after|exists []; by rewrite app_nil_r, (af_blocks _ _ Ha)|done]. Qed.

Lemma grown_trans (s1 s2 s3 : bstate D) : grown s1 s2 -> grown s2 s3 -> grown s1 s3.
Proof.
  intros [A1 (l1 & A2) A3] [B1 (l2 & B2) B3]. split; [done| |intros; by rewrite B3].
  exists (l1 ++ l2). by rewrite B2, A2, app_assoc.
Qed.

Lemma grown_lookup (s s' : bstate D) b x : grown s s' -> all_blocks s !! b = Some x -> exists x', all_blocks s' !! b = Some x' /\ shape x' = shape x.
Proof.
  intros [_ (l & E) _] Hx. assert (Hm' : map shape (all_blocks s') !! b = Some (shape x)).
  { rewrite E, lookup_app_l by (rewrite length_map; by apply lookup_lt_Some in Hx). by rewrite list_lookup_fmap, Hx. }
  rewrite list_lookup_fmap in Hm'. destruct (all_blocks s' !! b) as [x'|]; [|done]. exists x'. split; [done|]. cbn in Hm'. congruence.
Qed.

Lemma phys_grown (s s' : bstate D) n b x i : blocks_ok s -> grown s s' -> all_blocks s !! b = Some x -> phys n (all_blocks s') b i = phys n (all_blocks s) b i.
Proof.
  intros Hok Hg. revert b x i. induction n as [|n IH]; intros b x i Hx; [done|]. cbn [phys].
  destruct (grown_lookup s s' b x Hg Hx) as (x' & Hx' & [= _ _ _ Eo]). rewrite Hx, Hx'. cbn. rewrite Eo.
  pose proof (Hok b x Hx) as [_ Ho]. destruct (ops x) as [d|p st]; [done|]. destruct Ho as (_ & _ & y & Hy & _). by apply (IH p y).
Qed.

Lemma contents_grown (s s' : bstate D) b x i : blocks_ok s -> grown s s' -> all_blocks s !! b = Some x -> contents s' b i = contents s b i.
Proof.
  intros Hok Hg Hx. unfold contents. rewrite (phys_grown s s' (S b) b x i Hok Hg Hx). destruct (phys _ _ _ _) as [[d k]|]; [|done]. apply Hg.
Qed.

Lemma run_register (s : bstate D) b x nm t info sz start :
  blocks_ok s -> all_blocks s !! b = Some x -> type x <> BLOCK_FOREIGN -> 0 <= start -> 0 <= sz < two32 -> start + sz <= size x ->
  exists r s', block_register malloc_ok nm t info sz (Partition b start) s = Ret (r, s') /\ grown s s' /\
    map shape (all_blocks s') = map shape (all_blocks s) ++ [(take 15 nm, t, sz, Partition b start)].
Proof.
  intros Hok Hx Hty Hst Hsz Hle. unfold block_register, malloc, sbind, get, put, print, sret. rewrite Hm. eexists _, _. split; [done|].
  cbn [all_blocks with_blocks]. split; [|by rewrite map_app]. split; [|eexists; cbn [all_blocks with_blocks]; rewrite map_app; done|done].
  intros b' x'. cbn [all_blocks]. intros [Hx'|[Hlen Hx']]%lookup_app_Some.
  - destruct (Hok b' x' Hx') as [H1 H2]. split; [done|]. destruct (ops x') as [d|p st]; [done|]. destruct H2 as (G1 & G2 & y & Hy & G3).
    split_and!; try done. exists y. split; [|done]. cbn [all_blocks]. by apply lookup_app_l_Some.
  - destruct (b' - length (all_blocks s))%nat as [|k] eqn:Ek; [|done]. injection Hx' as <-. split; [done|]. cbn [ops size]. split_and!; [|done|].
    + apply lookup_lt_Some in Hx. lia.
    + exists x. split_and!; try done. cbn [all_blocks]. by apply lookup_app_l_Some.
Qed.

Lemma run_print_nr n : is_s32 n -> exists out, printf "%d" [n] = Ret out.
Proof.
  intros Hn. destruct (printf_decimal (literal "%d") LITERAL n) as (ds & Hp & _); [apply write_bytes_at|done|]. eauto.
Qed.

(** A partition that was found is registered exactly if it lies inside of the
    device. *)
Lemma run_found (s : bstate D) b x t start sz nr :
  blocks_ok s -> all_blocks s !! b = Some x -> type x <> BLOCK_FOREIGN -> 0 <= start < two32 -> 0 <= sz < two32 -> is_s32 nr ->
  exists s', found_partition malloc_ok b t start sz nr s = Ret (tt, s') /\ grown s s' /\
    if bool_decide (start < size x /\ start + sz <= size x)
    then exists nm, map shape (all_blocks s') = map shape (all_blocks s) ++ [(nm, partition_type t, sz, Partition b start)]
    else all_blocks s' = all_blocks s.
Proof.
  intros Hok Hx Hty Hst Hsz Hnr. destruct (Hok b x Hx) as [Hsx _]. unfold found_partition.
  assert (H1 : block_size b s = Ret (size x, s)) by (unfold block_size; by sstep (run_get_block s b x Hx)). sstep H1.
  assert (H2 : block_name b s = Ret (name x, s)) by (unfold block_name; by sstep (run_get_block s b x Hx)). sstep H2.
  destruct (Z.leb_spec (size x) start) as [Hc|Hc].
  { rewrite bool_decide_false by lia. eexists. split; [done|]. by split; [apply grown_same|]. }
  assert (Hcond : (u32 (start + sz) <? start) || (size x <? u32 (start + sz)) = negb (bool_decide (start < size x /\ start + sz <= size x))).
  { destruct (Z_lt_le_dec (start + sz) two32).
    - rewrite u32_small by (unfold is_u32; lia). destruct (Z.ltb_spec (start + sz) start); [lia|]. cbn [orb].
      destruct (Z.ltb_spec (size x) (start + sz)); case_bool_decide; (done || lia).
    - assert (E : u32 (start + sz) = start + sz - two32) by (unfold u32; symmetry; apply (Z.mod_unique _ _ 1); unfold two32 in *; lia).
      rewrite E. destruct (Z.ltb_spec (start + sz - two32) start); [|lia]. cbn [orb]. rewrite bool_decide_false by lia. done. }
  rewrite Hcond. case_bool_decide as E; cbn [negb].
  2: { eexists. split; [done|]. by split; [apply grown_same|]. }
  unfold malloc. unfold sbind at 1. rewrite Hm. set (s1 := mkBstate _ _ _ _ _). destruct (run_print_nr nr Hnr) as (out & Hp).
  assert (Hp' : lift (printf "%d" [nr]) s1 = Ret (out, s1)) by (unfold lift; by rewrite Hp). sstep Hp'.
  destruct (run_register s1 b x (take 15 (name x ++ out)) (partition_type t) (Some (partition_type_name t, t)) sz start) as (r & s2 & Hr & Hg & Hsh); try done; try lia.
  sstep Hr. exists s2. split; [done|]. split; [|by eexists]. eapply grown_trans; [|exact Hg]. by apply grown_same.
Qed.

Section scan.
Context (b : nat) (sz : Z) (pt : list Z) (Hsz : 0 < sz < two32) (Hpt : forall j, 0 <= byte pt j < 256).

(** The device [b] has [sz] sectors, and [pt] is its sector 0. *)
Definition scanning (s : bstate D) : Prop :=
  blocks_ok s /\ (exists x, all_blocks s !! b = Some x /\ size x = sz /\ type x <> BLOCK_FOREIGN) /\ contents s b 0 = pt.

Lemma scanning_grown s s' : scanning s -> grown s s' -> scanning s'.
Proof.
  intros (Hok & (x & Hx & Es & Et) & Hc) Hg. split; [apply Hg|]. split.
  - destruct (grown_lookup s s' b x Hg Hx) as (x' & Hx' & [= _ E1 E2 _]). exists x'. split_and!; [done|congruence|congruence].
  - by rewrite (contents_grown s s' b x 0 Hok Hg Hx).
Qed.

(** The beginning of a call, up to the loop. *)
Lemma run_table fuel sector prim nr s :
  scanning s -> exists nm s1, grown s s1 /\ scanning s1 /\ map shape (all_blocks s1) = map shape (all_blocks s) /\
    read_partition_table malloc_ok (S fuel) b sector prim nr s =
      if sz <=? sector then Ret (nr, s1) else if signature pt =? 43605
      then entries_from (parse_entry malloc_ok (read_partition_table malloc_ok fuel b) b nm sector prim pt) [0; 1; 2; 3]%nat nr s1
      else Ret (nr, s1).
Proof.
  intros Hs. pose proof Hs as (Hok & (x & Hx & Es & Et) & Hc). cbn [read_partition_table]. exists (name x).
  assert (H1 : block_size b s = Ret (sz, s)) by (unfold block_size; sstep (run_get_block s b x Hx); by rewrite Es). sstep H1.
  assert (H2 : block_name b s = Ret (name x, s)) by (unfold block_name; by sstep (run_get_block s b x Hx)). sstep H2.
  destruct (Z.leb_spec sz sector) as [Hle|Hle].
  { eexists. split; [|split; [|split; [|reflexivity]; done]]; [by apply grown_same|]. eapply scanning_grown; [exact Hs|]. by apply grown_same. }
  unfold malloc. unfold sbind at 1. rewrite Hm. set (s1 := mkBstate _ _ _ _ _).
  assert (Hg1 : grown s s1) by (by apply grown_same). pose proof (scanning_grown s s1 Hs Hg1) as (Hok1 & (x1 & Hx1 & Es1 & _) & Hc1).
  destruct (run_read (S b) s1 b x1 0 Hok1 ltac:(lia) Hx1 ltac:(lia)) as (s2 & Hr & Ha & Hd). rewrite Hc1 in Hr.
  assert (Hr' : block_read b 0 s1 = Ret (pt, s2)) by done. sstep Hr'. assert (Hg2 : grown s s2).
  { eapply grown_trans; [exact Hg1|]. by apply grown_after. }
  destruct (signature pt =? 43605); cbn [negb].
  - exists s2. split; [done|]. split; [by eapply scanning_grown|]. split; [apply (af_blocks _ _ Ha)|done].
  - eexists. split; [|split; [|split; [|reflexivity]; apply (af_blocks _ _ Ha)]]; [|eapply scanning_grown; [exact Hs|]]; (eapply grown_trans; [exact Hg2|]; apply grown_same; [apply Hg2|done|done]).
Qed.

(** Entry [i] is that of an extended partition; where it points to. *)
Definition is_ext (i : nat) : bool :=
  negb (esize (table_entry pt i) =? 0) && negb (etype (table_entry pt i) =? 0) && extended (etype (table_entry pt i)).
Definition off (i : nat) : Z := eoffset (table_entry pt i).

Lemma dword_range j : 0 <= dword pt j < two32.
Proof. unfold dword, two32. pose proof (Hpt j). pose proof (Hpt (j + 1)). pose proof (Hpt (j + 2)). pose proof (Hpt (j + 3)). lia. Qed.

Definition returns (m : ST (bstate D) Z) (s : bstate D) : Prop := exists nr s', m s = Ret (nr, s') /\ grown s s'.
Definition quiet (m : ST (bstate D) Z) (s : bstate D) : Prop := m s = Err NoFuel \/ returns m s.

Lemma grown_print s m : scanning s -> exists s1, print m s = Ret (tt, s1) /\ grown s s1 /\ scanning s1.
Proof.
  intros Hs. assert (Hg : grown s (mkBstate (all_blocks s) (block_by_role s) (disks s) (allocs s) (m :: messages s))) by (apply grown_same; [apply Hs|done|done]).
  eexists. split; [done|]. split; [done|]. by eapply scanning_grown.
Qed.

(** An entry either registers a partition or leads to another table. *)
Lemma run_entry rec nm sector prim i nr s :
  scanning s -> 0 <= sector < two32 ->
  if is_ext i then exists s1, grown s s1 /\ scanning s1 /\ parse_entry malloc_ok rec b nm sector prim pt i nr s =
    (if sector =? 0 then rec (off i) (off i) nr else rec (u32 (off i + prim)) prim nr) s1
  else returns (parse_entry malloc_ok rec b nm sector prim pt i nr) s.
Proof.
  intros Hs Hsec. unfold parse_entry, is_ext, returns. pose proof Hs as (Hok & (x & Hx & Es & Et) & _).
  destruct ((esize (table_entry pt i) =? 0) || (etype (table_entry pt i) =? 0)) eqn:E0.
  { assert (negb (esize (table_entry pt i) =? 0) && negb (etype (table_entry pt i) =? 0) = false) as -> by (by rewrite <- negb_orb, E0).
    cbn [andb]. eexists _, _. split; [done|]. by apply grown_same. }
  assert (negb (esize (table_entry pt i) =? 0) && negb (etype (table_entry pt i) =? 0) = true) as -> by (by rewrite <- negb_orb, E0). cbn [andb].
  destruct (extended _).
  - destruct (grown_print s (ExtendedPartition nm sector) Hs) as (s1 & Hp & Hg & Hs1). exists s1. split; [done|]. split; [done|]. by sstep Hp.
  - destruct (run_found s b x (etype (table_entry pt i)) (u32 (eoffset (table_entry pt i) + sector)) (esize (table_entry pt i)) (s32 (nr + 1)) Hok Hx Et) as (s' & Hf & Hg & _).
    { apply u32_range. }
    { apply dword_range. }
    { unfold is_s32, s32, two32. pose proof (Z.mod_pos_bound (nr + 1 + 2147483648) 4294967296 ltac:(lia)). lia. }
    sstep Hf. eexists _, _. split; [done|]. done.
Qed.

Lemma entry_quiet rec nm sector prim i nr s :
  (forall p q n s, scanning s -> 0 <= p < two32 -> quiet (rec p q n) s) -> scanning s -> 0 <= sector < two32 ->
  quiet (parse_entry malloc_ok rec b nm sector prim pt i nr) s.
Proof.
  intros Hrec Hs Hsec. pose proof (run_entry rec nm sector prim i nr s Hs Hsec) as He. destruct (is_ext i); [|by right].
  destruct He as (s1 & Hg & Hs1 & He). unfold quiet, returns. rewrite He.
  assert (Hq : quiet (if sector =? 0 then rec (off i) (off i) nr else rec (u32 (off i + prim)) prim nr) s1)
    by (destruct (sector =? 0); apply Hrec; try done; [apply dword_range|apply u32_range]).
  destruct Hq as [?|(n2 & s2 & ? & ?)]; [by left|]. right. exists n2, s2. split; [done|by eapply grown_trans].
Qed.

Lemma entries_return parse l nr s :
  scanning s -> (forall i n s, i ∈ l -> scanning s -> returns (parse i n) s) -> returns (entries_from parse l nr) s.
Proof.
  revert nr s. induction l as [|i l IH]; intros nr s Hs Hp; cbn [entries_from].
  - exists nr, s. split; [done|]. apply grown_same; [apply Hs|done|done].
  - destruct (Hp i nr s ltac:(by left) Hs) as (n1 & s1 & Hr & Hg).
    destruct (IH n1 s1 (scanning_grown _ _ Hs Hg)) as (n2 & s2 & Hr2 & Hg2); [intros; apply Hp; [by right|done]|].
    exists n2, s2. sstep Hr. split; [exact Hr2|by eapply grown_trans].
Qed.

Lemma entries_quiet parse l nr s :
  scanning s -> (forall i n s, scanning s -> quiet (parse i n) s) -> quiet (entries_from parse l nr) s.
Proof.
  revert nr s. induction l as [|i l IH]; intros nr s Hs Hp; cbn [entries_from].
  - right. exists nr, s. split; [done|]. apply grown_same; [apply Hs|done|done].
  - destruct (Hp i nr s Hs) as [He|(n1 & s1 & Hr & Hg)]; [left; unfold sbind; by rewrite He|].
    destruct (IH n1 s1 (scanning_grown _ _ Hs Hg) Hp) as [He|(n2 & s2 & Hr2 & Hg2)]; [left; by sstep Hr|].
    right. exists n2, s2. sstep Hr. split; [exact Hr2|by eapply grown_trans].
Qed.

Lemma entries_stuck parse l nr s i :
  scanning s -> (forall i n s, scanning s -> quiet (parse i n) s) -> i ∈ l -> (forall n s, scanning s -> parse i n s = Err NoFuel) ->
  entries_from parse l nr s = Err NoFuel.
Proof.
  intros Hs Hp Hi Hst. revert nr s Hs. induction l as [|k l IH]; intros nr s Hs; [by apply elem_of_nil in Hi|]. cbn [entries_from].
  destruct (Hp k nr s Hs) as [He|(n1 & s1 & Hr & Hg)]; [unfold sbind; by rewrite He|]. sstep Hr.
  apply elem_of_cons in Hi as [->|Hi]; [rewrite Hst in Hr by done; discriminate Hr|]. apply IH; [done|by eapply scanning_grown].
Qed.

Lemma table_quiet fuel sector prim nr s : scanning s -> 0 <= sector < two32 -> quiet (read_partition_table malloc_ok fuel b sector prim nr) s.
Proof.
  revert sector prim nr s. induction fuel as [|fuel IH]; intros sector prim nr s Hs Hsec; [by left|].
  destruct (run_table fuel sector prim nr s Hs) as (nm & s1 & Hg & Hs1 & _ & Hr). unfold quiet, returns in *. rewrite Hr.
  destruct (sz <=? sector); [right; eauto|]. destruct (signature pt =? 43605); [|right; eauto].
  destruct (entries_quiet (parse_entry malloc_ok (read_partition_table malloc_ok fuel b) b nm sector prim pt) [0; 1; 2; 3]%nat nr s1 Hs1) as [He|(n2 & s2 & H2 & Hg2)].
  - intros i n s2 Hs2. by apply entry_quiet.
  - by left.
  - right. exists n2, s2. split; [done|by eapply grown_trans].
Qed.

(** Two extended entries that lead from one table to the next one for ever:
    sector 0 is read again and again. *)
Definition loops : Prop :=
  signature pt = 43605 /\ exists i j, (i < 4)%nat /\ (j < 4)%nat /\ is_ext i = true /\ is_ext j = true /\ off i < sz /\ u32 (off j + off i) < sz.

Lemma in_table i : (i < 4)%nat -> i ∈ [0; 1; 2; 3]%nat.
Proof. intros Hi. destruct i as [|[|[|[|i]]]]; [set_solver..|lia]. Qed.

(** A table with an entry whose call never returns. *)
Lemma table_stuck fuel sector prim nr s i :
  signature pt = 43605 -> scanning s -> 0 <= sector < sz -> (i < 4)%nat -> is_ext i = true ->
  (forall n s, scanning s -> (if sector =? 0 then read_partition_table malloc_ok fuel b (off i) (off i) n
     else read_partition_table malloc_ok fuel b (u32 (off i + prim)) prim n) s = Err NoFuel) ->
  read_partition_table malloc_ok (S fuel) b sector prim nr s = Err NoFuel.
Proof.
  intros Hsig Hs Hsec Hi Hext Hrec. destruct (run_table fuel sector prim nr s Hs) as (nm & s1 & Hg & Hs1 & _ & ->).
  destruct (Z.leb_spec sz sector); [lia|]. rewrite Hsig. change (43605 =? 43605) with true. cbv iota.
  apply (entries_stuck _ _ _ _ i Hs1); [|by apply in_table|].
  - intros k n s2 Hs2. apply entry_quiet; [|done|lia]. intros. by apply table_quiet.
  - intros n s2 Hs2. pose proof (run_entry (read_partition_table malloc_ok fuel b) nm sector prim i n s2 Hs2 ltac:(lia)) as He.
    rewrite Hext in He. destruct He as (s3 & Hg3 & Hs3 & ->). destruct (sector =? 0); by apply Hrec.
Qed.

Lemma scan_stuck fuel : loops -> forall prim nr s, scanning s -> read_partition_table malloc_ok fuel b 0 prim nr s = Err NoFuel.
Proof.
  intros (Hsig & i & j & Hi & Hj & Ei & Ej & Ho & Hu). pose proof (dword_range (446 + 16 * i + 8)) as Hoi. fold (off i) in Hoi.
  change (dword pt (446 + 16 * i + 8)) with (off i) in Hoi. pose proof (u32_range (off j + off i)) as Huj. unfold is_u32 in Huj.
  enough (Hall : (forall prim nr s, scanning s -> read_partition_table malloc_ok fuel b 0 prim nr s = Err NoFuel) /\
    (forall nr s, off i <> 0 -> scanning s -> read_partition_table malloc_ok fuel b (off i) (off i) nr s = Err NoFuel) /\
    (forall nr s, u32 (off j + off i) <> 0 -> scanning s -> read_partition_table malloc_ok fuel b (u32 (off j + off i)) (off i) nr s = Err NoFuel)) by apply Hall.
  induction fuel as [|fuel (IA & IB & IC)]; [done|]. split_and!.
  - intros prim nr s Hs. apply (table_stuck fuel 0 prim nr s i); try done; try lia. intros n s2 Hs2. cbn [Z.eqb].
    destruct (decide (off i = 0)) as [E|E]; [rewrite E; by apply IA|by apply IB].
  - intros nr s Hne Hs. apply (table_stuck fuel (off i) (off i) nr s j); try done; try lia. intros n s2 Hs2.
    destruct (Z.eqb_spec (off i) 0); [done|]. destruct (decide (u32 (off j + off i) = 0)) as [E|E]; [rewrite E; by apply IA|by apply IC].
  - intros nr s Hne Hs. apply (table_stuck fuel (u32 (off j + off i)) (off i) nr s j); try done; try lia. intros n s2 Hs2.
    destruct (Z.eqb_spec (u32 (off j + off i)) 0); [done|]. by apply IC.
Qed.

Lemma table_return fuel sector prim nr s :
  scanning s -> 0 <= sector < two32 ->
  (sector < sz -> signature pt = 43605 -> forall i n s1, is_ext i = true -> (i < 4)%nat -> scanning s1 ->
     returns (if sector =? 0 then read_partition_table malloc_ok fuel b (off i) (off i) n
              else read_partition_table malloc_ok fuel b (u32 (off i + prim)) prim n) s1) ->
  returns (read_partition_table malloc_ok (S fuel) b sector prim nr) s.
Proof.
  intros Hs Hsec Hrec. destruct (run_table fuel sector prim nr s Hs) as (nm & s1 & Hg & Hs1 & _ & Hr). unfold returns. rewrite Hr.
  destruct (Z.leb_spec sz sector) as [Hle|Hlt]; [eauto|]. destruct (Z.eqb_spec (signature pt) 43605) as [Hsig|Hsig]; [|eauto].
  destruct (entries_return (parse_entry malloc_ok (read_partition_table malloc_ok fuel b) b nm sector prim pt) [0; 1; 2; 3]%nat nr s1 Hs1) as (n2 & s2 & H2 & Hg2).
  - intros i n s2 Hi Hs2. assert (Hi4 : (i < 4)%nat) by (rewrite !elem_of_cons, elem_of_nil in Hi; lia).
    pose proof (run_entry (read_partition_table malloc_ok fuel b) nm sector prim i n s2 Hs2 Hsec) as He.
    destruct (is_ext i) eqn:Ei; [|done]. destruct He as (s3 & Hg3 & Hs3 & He). unfold returns. rewrite He.
    destruct (Hrec Hlt Hsig i n s3 Ei Hi4 Hs3) as (n4 & s4 & ? & ?). exists n4, s4. split; [done|by eapply grown_trans].
  - exists n2, s2. split; [done|by eapply grown_trans].
Qed.

Lemma scan_return nr s : ~ loops -> scanning s -> returns (read_partition_table malloc_ok 3 b 0 0 nr) s.
Proof.
  intros Hnl Hs. assert (Hoff : forall i, 0 <= off i < two32) by (intros i; apply dword_range).
  assert (Hpast : forall fuel sector prim n s1, sz <= sector -> 0 <= sector < two32 -> scanning s1 ->
    returns (read_partition_table malloc_ok (S fuel) b sector prim n) s1) by (intros; apply table_return; try done; lia).
  apply table_return; try done. intros _ Hsig i n s1 Ei Hi Hs1. cbn [Z.eqb].
  destruct (Z_lt_le_dec (off i) sz) as [Hlt|]; [|by apply Hpast]. apply table_return; try done. intros _ _ j n2 s2 Ej Hj Hs2.
  assert (Hnu : forall k, (k < 4)%nat -> is_ext k = true -> sz <= u32 (off k + off i)).
  { intros k Hk Ek. destruct (Z_lt_le_dec (u32 (off k + off i)) sz); [|done]. destruct Hnl. split; [done|]. exists i, k. by split_and!. }
  destruct (Z.eqb_spec (off i) 0) as [E0|E0]; [|apply Hpast; [by apply Hnu|apply u32_range|done]].
  specialize (Hnu i Hi Ei). rewrite E0 in Hnu. change (u32 (0 + 0)) with 0 in Hnu. lia.
Qed.

(** What a device is, without its name. *)
Definition kind (x : block) : block_type * Z * block_operations := (type x, size x, ops x).

(** The partition that an entry of the first table stands for, if it is
    neither empty nor past the end of the device. *)
Definition partition_of (i : nat) : option (block_type * Z * block_operations) :=
  let e := table_entry pt i in
  if (esize e =? 0) || (etype e =? 0) then None
  else if bool_decide (eoffset e < sz /\ eoffset e + esize e <= sz) then Some (partition_type (etype e), esize e, Partition b (eoffset e))
  else None.

Lemma kinds_of_shapes l l' : map shape l' = map shape l -> map kind l' = map kind l.
Proof.
  intros E. assert (Hk : forall l, map kind l = map (fun y => (snd (fst (fst y)), snd (fst y), snd y)) (map shape l)) by (intros; by rewrite map_map).
  by rewrite !Hk, E.
Qed.

Lemma run_entry_flat rec nm prim i nr s :
  scanning s -> is_ext i = false ->
  exists nr' s', parse_entry malloc_ok rec b nm 0 prim pt i nr s = Ret (nr', s') /\ grown s s' /\
    map kind (all_blocks s') = map kind (all_blocks s) ++ option_list (partition_of i).
Proof.
  intros Hs Hext. unfold parse_entry, partition_of. pose proof Hs as (Hok & (x & Hx & Es & Et) & _). unfold is_ext in Hext. rewrite <- negb_orb in Hext.
  destruct ((esize (table_entry pt i) =? 0) || (etype (table_entry pt i) =? 0)).
  { eexists _, s. split; [done|]. split; [by apply grown_same|by rewrite app_nil_r]. }
  cbn [negb andb] in Hext. rewrite Hext. rewrite Z.add_0_r, (u32_small (eoffset (table_entry pt i))) by apply dword_range.
  destruct (run_found s b x (etype (table_entry pt i)) (eoffset (table_entry pt i)) (esize (table_entry pt i)) (s32 (nr + 1)) Hok Hx Et) as (s' & Hf & Hg & Hk).
  { apply dword_range. }
  { apply dword_range. }
  { unfold is_s32, s32, two32. pose proof (Z.mod_pos_bound (nr + 1 + 2147483648) 4294967296 ltac:(lia)). lia. }
  sstep Hf. eexists _, s'. split; [done|]. split; [done|]. rewrite Es in Hk. case_bool_decide; [|by rewrite Hk, app_nil_r].
  destruct Hk as (n' & Hk).
  rewrite (kinds_of_shapes (all_blocks s ++ [mkBlock n' (partition_type (etype (table_entry pt i))) (esize (table_entry pt i)) (Partition b (eoffset (table_entry pt i))) 0 0]));
    rewrite map_app; done.
Qed.

Lemma run_entries_flat rec nm prim l nr s :
  scanning s -> (forall i, i ∈ l -> is_ext i = false) ->
  exists nr' s', entries_from (parse_entry malloc_ok rec b nm 0 prim pt) l nr s = Ret (nr', s') /\ grown s s' /\
    map kind (all_blocks s') = map kind (all_blocks s) ++ omap partition_of l.
Proof.
  revert nr s. induction l as [|i l IH]; intros nr s Hs Hl; cbn [entries_from].
  - exists nr, s. split; [done|]. split; [apply grown_same; [apply Hs|done|done]|by rewrite app_nil_r].
  - destruct (run_entry_flat rec nm prim i nr s Hs (Hl i ltac:(by left))) as (n1 & s1 & Hr & Hg & Hk). sstep Hr.
    destruct (IH n1 s1 (scanning_grown _ _ Hs Hg)) as (n2 & s2 & Hr2 & Hg2 & Hk2); [intros; apply Hl; by right|].
    exists n2, s2. split; [done|]. split; [by eapply grown_trans|]. rewrite Hk2, Hk, <- app_assoc. f_equal. cbn [omap list_omap]. by destruct (partition_of i).
Qed.

Lemma run_scan_flat nr s :
  signature pt = 43605 -> (forall i, (i < 4)%nat -> is_ext i = false) -> scanning s ->
  exists nr' s', read_partition_table malloc_ok 1 b 0 0 nr s = Ret (nr', s') /\ grown s s' /\
    map kind (all_blocks s') = map kind (all_blocks s) ++ omap partition_of [0; 1; 2; 3]%nat.
Proof.
  intros Hsig Hflat Hs. destruct (run_table 0 0 0 nr s Hs) as (nm & s1 & Hg & Hs1 & Esh & ->). destruct (Z.leb_spec sz 0); [lia|].
  rewrite Hsig. change (43605 =? 43605) with true. cbv iota.
  destruct (run_entries_flat (read_partition_table malloc_ok 0 b) nm 0 [0; 1; 2; 3]%nat nr s1 Hs1) as (n2 & s2 & Hr & Hg2 & Hk).
  { intros i Hi. apply Hflat. rewrite !elem_of_cons, elem_of_nil in Hi. lia. }
  exists n2, s2. split; [done|]. split; [by eapply grown_trans|]. by rewrite Hk, (kinds_of_shapes _ _ Esh).
Qed.
End scan.

(** Reading and writing inside of a device. *)
Lemma read_contents s b x i :
  blocks_ok s -> all_blocks s !! b = Some x -> 0 <= i < size x ->
  exists s', block_read b i s = Ret (contents s b i, s') /\ blocks_ok s' /\ after s s' /\
    forall b' j, contents s' b' j = contents s b' j.
Proof.
  intros Hok Hx Hi. destruct (run_read (S b) s b x i Hok ltac:(lia) Hx Hi) as (s' & Hr & Ha & Hd). exists s'. split_and!; try done; [by eapply blocks_after|].
  intros b' j. unfold contents. rewrite (phys_shape _ _ _ _ _ (af_blocks _ _ Ha)). destruct (phys _ _ _ _) as [[d k]|]; [apply Hd|done].
Qed.

Lemma write_contents s b x i buf :
  blocks_ok s -> all_blocks s !! b = Some x -> 0 <= i < size x -> type x <> BLOCK_FOREIGN -> length buf = 512%nat ->
  exists s', block_write b i buf s = Ret (tt, s') /\ blocks_ok s' /\ after s s' /\
    (forall j, contents s' b j = if j =? i then buf else contents s b j) /\
    (forall p start j, ops x = Partition p start -> j <> start + i -> contents s' p j = contents s p j).
Proof.
  intros Hok Hx Hi Hty Hlen. destruct (run_write (S b) s b x i buf Hok ltac:(lia) Hx Hi Hty Hlen) as (s' & Hr & Ha & Hd). exists s'.
  assert (Hc : forall b' j, contents s' b' j = if bool_decide (phys (S b') (all_blocks s) b' j = phys (S b) (all_blocks s) b i /\ is_Some (phys (S b) (all_blocks s) b i)) then buf else contents s b' j).
  { intros b' j. unfold contents. rewrite (phys_shape _ _ _ _ _ (af_blocks _ _ Ha)). destruct (phys (S b') (all_blocks s) b' j) as [[d k]|] eqn:Ep.
      - rewrite Hd. case_bool_decide as E1; case_bool_decide as E2; try done; [destruct E2; split; [congruence|by rewrite E1]|destruct E2 as [E2 _]; congruence].
      - rewrite bool_decide_false; [done|]. intros [E1 E2]. rewrite <- E1 in E2. by destruct E2. }
  pose proof (phys_some s b x i Hok Hx) as (d0 & k0 & Ep0). split_and!; try done; [by eapply blocks_after|..].
  - intros j. rewrite Hc. destruct (Z.eqb_spec j i) as [->|Hne]; [by rewrite bool_decide_true|]. rewrite bool_decide_false; [done|].
      intros [E _]. rewrite Ep0 in E. destruct (phys_shift _ _ _ _ _ _ _ _ _ Ep0 E). lia.
  - intros p start j Ho Hj. rewrite Hc. rewrite bool_decide_false; [done|]. intros [E _].
      pose proof (Hok b x Hx) as [_ Hdo]. rewrite Ho in Hdo. destruct Hdo as (Hp & _).
      assert (Eb : phys (S b) (all_blocks s) b i = phys b (all_blocks s) p (start + i)) by (cbn [phys]; rewrite Hx; cbn; by rewrite Ho).
      rewrite (phys_enough b _ p (start + i) s eq_refl Hok Hp) in Eb. rewrite Eb in Ep0. rewrite Eb, Ep0 in E.
      destruct (phys_shift _ _ _ _ _ _ _ _ _ Ep0 E). lia.
Qed.

(** C25: A device that is registered, be it a disk or a partition (of a
    partition, ...), keeps the promise of a driver: inside of its size a read
    returns the sector as it was written last and changes no sector of any
    device, a write of 512 bytes changes exactly the sector and, for a partition, nothing
    of the device below outside of the partition; outside of the size both
    panic, and a write to a foreign device trips the assertion. *)
Theorem block_device_laws s b x :
  blocks_ok s -> all_blocks s !! b = Some x ->
  (forall i, 0 <= i < size x -> exists s', block_read b i s = Ret (contents s b i, s') /\ blocks_ok s' /\ after s s' /\
     forall b' j, contents s' b' j = contents s b' j) /\
  (forall i buf, 0 <= i < size x -> type x <> BLOCK_FOREIGN -> length buf = 512%nat ->
     exists s', block_write b i buf s = Ret (tt, s') /\ blocks_ok s' /\ after s s' /\
     (forall j, contents s' b j = if j =? i then buf else contents s b j) /\
     (forall p start j, ops x = Partition p start -> j <> start + i -> contents s' p j = contents s p j)) /\
  (forall i buf, size x <= i -> block_read b i s = Err Panicked /\ block_write b i buf s = Err Panicked) /\
  (forall i buf, 0 <= i < size x -> type x = BLOCK_FOREIGN -> block_write b i buf s = Err AssertFailed).
Proof.
  intros Hok Hx. split_and!.
  - intros i. by apply read_contents.
  - intros i buf. by apply write_contents.
  - intros i buf Hi. unfold block_read, block_write. cbn [read_nested write_nested]. rewrite !(sbind_run _ _ _ _ _ (run_get_block s b x Hx)).
    unfold check_sector, sbind. by destruct (Z.leb_spec (size x) i); [|lia].
  - intros i buf Hi Hty. unfold block_write. cbn [write_nested]. sstep (run_get_block s b x Hx). sstep (run_check s x i Hi).
    unfold sbind, assert_, lift, ASSERT. by rewrite bool_decide_true.
Qed.

Lemma run_scan (s : bstate D) b x fuel nr s1 :
  all_blocks s1 !! b = Some x -> read_partition_table malloc_ok fuel b 0 0 0 s = Ret (nr, s1) ->
  exists s2, partition_scan malloc_ok fuel b s = Ret (tt, s2) /\ all_blocks s2 = all_blocks s1 /\ disks s2 = disks s1.
Proof.
  intros Hx Hr. unfold partition_scan. sstep Hr. assert (Hn : block_name b s1 = Ret (name x, s1)) by (unfold block_name; by sstep (run_get_block s1 b x Hx)).
  sstep Hn. destruct (nr =? 0); eexists; done.
Qed.

(** C38: [partition_scan] reads sector 0 for every table, also for those of
    extended partitions.  On a device that is not empty and not foreign, if no
    allocation fails (one that fails panics), it never returns exactly when the
    table in sector 0 has a valid signature and extended entries at offsets [o]
    and [o'] (which may be the same entry) such that [o] and [o + o'] are
    sectors of the device, whatever the device holds there.
    When it returns, the devices registered before are as they were, and
    every partition that it has registered lies inside of the device. *)
Theorem partition_scan_terminates s b x :
  blocks_ok s -> all_blocks s !! b = Some x -> type x <> BLOCK_FOREIGN -> 0 < size x -> (forall j, 0 <= byte (contents s b 0) j < 256) ->
  ((exists fuel s', partition_scan malloc_ok fuel b s = Ret (tt, s')) <-> ~ loops (size x) (contents s b 0)) /\
  (forall fuel s', partition_scan malloc_ok fuel b s = Ret (tt, s') -> grown s s').
Proof.
  intros Hok Hx Hty Hsz Hpt. pose proof (Hok b x Hx) as [Hsx _]. assert (Hsz' : 0 < size x < two32) by lia.
  assert (Hs : scanning b (size x) (contents s b 0) s) by (split_and!; try done; by exists x).
  assert (Hrest : forall s1, grown s s1 -> exists x1, all_blocks s1 !! b = Some x1) by (intros s1 Hg; destruct (grown_lookup s s1 b x Hg Hx) as (x1 & ? & _); by exists x1).
  split; [split|].
  - intros (fuel & s' & Hr) Hl. pose proof (scan_stuck b (size x) _ Hsz' Hpt fuel Hl 0 0 s Hs) as He. unfold partition_scan, sbind in Hr. by rewrite He in Hr.
  - intros Hnl. destruct (scan_return b (size x) _ Hsz' Hpt 0 s Hnl Hs) as (nr & s1 & Hr & Hg). destruct (Hrest s1 Hg) as (x1 & Hx1).
    destruct (run_scan s b x1 3 nr s1 Hx1 Hr) as (s2 & Hr2 & _). by exists 3%nat, s2.
  - intros fuel s' Hr. destruct (table_quiet b (size x) _ Hsz' Hpt fuel 0 0 0 s Hs ltac:(done)) as [He|(nr & s1 & Ht & Hg)].
    + unfold partition_scan, sbind in Hr. by rewrite He in Hr.
    + destruct (Hrest s1 Hg) as (x1 & Hx1). destruct (run_scan s b x1 fuel nr s1 Hx1 Ht) as (s2 & Hr2 & E1 & E2). rewrite Hr2 in Hr. injection Hr as <-.
      eapply grown_trans; [exact Hg|]. apply grown_same; [apply Hg|done|done].
Qed.

(** [partition_scan] of a device whose table has a valid signature and no
    extended entries registers exactly the partitions of the table that are
    not empty and lie inside of the device, in their order, with the types
    and sizes of their entries. *)
Theorem partition_scan_correct s b x :
  blocks_ok s -> all_blocks s !! b = Some x -> type x <> BLOCK_FOREIGN -> 0 < size x ->
  let pt := contents s b 0 in
  (forall j, 0 <= byte pt j < 256) -> signature pt = 43605 -> (forall i, (i < 4)%nat -> is_ext pt i = false) ->
  exists s', partition_scan malloc_ok 1 b s = Ret (tt, s') /\ blocks_ok s' /\
    map kind (all_blocks s') = map kind (all_blocks s) ++ omap (partition_of b (size x) pt) [0; 1; 2; 3]%nat.
Proof.
  intros Hok Hx Hty Hsz pt Hpt Hsig Hflat. pose proof (Hok b x Hx) as [Hsx _]. assert (Hsz' : 0 < size x < two32) by lia.
  assert (Hs : scanning b (size x) pt s) by (split_and!; try done; by exists x).
  destruct (run_scan_flat b (size x) pt Hsz' Hpt 0 s Hsig Hflat Hs) as (nr & s1 & Hr & Hg & Hk).
  destruct (grown_lookup s s1 b x Hg Hx) as (x1 & Hx1 & _). destruct (run_scan s b x1 1 nr s1 Hx1 Hr) as (s2 & Hr2 & E1 & E2).
  exists s2. split; [done|]. split; [|by rewrite E1]. eapply blocks_same; [exact E1|exact E2|apply Hg].
Qed.
End laws.

(** ** A disk in memory *)

#[export] Instance ram_disk : RawDriver (list (list Z)) := {
  raw_read i := fun d => match d !! Z.to_nat i with Some b => Ret (b, d) | None => Err BadAccess end;
  raw_write i b := fun d => Ret (tt, <[Z.to_nat i := b]> d)
}.

#[export] Program Instance ram_disk_laws : DriverLaws (list (list Z)) := {
  driver_ok d := True;
  capacity d := Z.of_nat (length d);
  sectors d i := if 0 <=? i then default [] (d !! Z.to_nat i) else []
}.
Next Obligation.
  intros d i _ Hi. destruct (lookup_lt_is_Some_2 d (Z.to_nat i)) as [b Hb]; [lia|]. cbn. rewrite Hb.
  destruct (Z.leb_spec 0 i); [|lia]. cbn. by exists d.
Qed.
Next Obligation.
  intros d i b _ Hi _. cbn. eexists. split; [done|]. rewrite length_insert. split; [done|]. split; [done|]. intros j.
  destruct (Z.eqb_spec j i) as [->|Hne].
  - destruct (Z.leb_spec 0 i); [|lia]. by rewrite list_lookup_insert_eq by lia.
  - destruct (Z.leb_spec 0 j); [|done]. by rewrite list_lookup_insert_ne by lia.
Qed.

(** A disk of eight sectors with two entries in its table: a file system of
    three sectors at sector 2, and one that is given. *)
Definition demo_table (t o n : Z) : list Z :=
  replicate 446 0 ++ [0; 0; 0; 0; 33; 0; 0; 0; 2; 0; 0; 0; 3; 0; 0; 0] ++ [0; 0; 0; 0; t; 0; 0; 0; o; 0; 0; 0; n; 0; 0; 0] ++ replicate 32 0 ++ [85; 170].

Definition demo_blocks (t o n : Z) : bstate (list (list Z)) :=
  mkBstate [mkBlock [104; 100; 97] BLOCK_RAW 8 (Disk 0) 0 0; mkBlock [104; 100; 97; 49] BLOCK_FILESYS 3 (Partition 0 2) 0 0]
    (replicate 4 None) [demo_table t o n :: replicate 7 (replicate 512 0)] 0 [].

Lemma demo_blocks_ok t o n : blocks_ok (demo_blocks t o n).
Proof.
  intros [|[|b]] x; cbn; [intros [= <-]|intros [= <-]|done]; (split; [done|]).
  - by eexists.
  - split; [lia|]. split; [done|]. eexists. by split_and!.
Qed.

Lemma byte_of_forallb l j : forallb (fun x => (0 <=? x) && (x <? 256)) l = true -> 0 <= byte l j < 256.
Proof.
  rewrite forallb_forall. intros Hl. unfold byte. destruct (l !! j) as [x|] eqn:E; cbn; [|lia].
  specialize (Hl x ltac:(by apply list_elem_of_In, (list_elem_of_lookup_2 _ j))). apply andb_true_iff in Hl as [?%Z.leb_le ?%Z.ltb_lt]. lia.
Qed.

Lemma block_device_laws_witness :
  exists s', block_write 1 2 (replicate 512 7) (demo_blocks 0 0 0) = Ret (tt, s') /\ contents s' 1 2 = replicate 512 7.
Proof.
  destruct (block_device_laws (demo_blocks 0 0 0) 1 _ (demo_blocks_ok 0 0 0) eq_refl) as (_ & Hw & _).
  destruct (Hw 2 (replicate 512 7) ltac:(cbn; lia) ltac:(discriminate) ltac:(reflexivity)) as (s' & H & _ & _ & Hc & _). exists s'. split; [exact H|]. rewrite Hc. reflexivity.
Defined.

(** An extended entry at sector 3 of eight: the scan does not return; with one
    at sector 5 it does. *)
Lemma partition_scan_terminates_witness :
  (~ exists fuel s', partition_scan (fun _ => true) fuel 0 (demo_blocks 5 3 2) = Ret (tt, s')) /\
  (exists fuel s', partition_scan (fun _ => true) fuel 0 (demo_blocks 5 5 2) = Ret (tt, s')).
Proof.
  split.
  - intros (fuel & s' & H).
    destruct (partition_scan_terminates (fun _ => true) (fun _ => eq_refl) (demo_blocks 5 3 2) 0 _ (demo_blocks_ok 5 3 2) eq_refl) as [[Hn _] _].
    + discriminate.
    + cbn. lia.
    + intros j. apply byte_of_forallb. vm_compute. reflexivity.
    + apply Hn; [by exists fuel, s'|]. split; [vm_compute; reflexivity|]. exists 1%nat, 1%nat. repeat split; try lia; vm_compute; reflexivity.
  - destruct (partition_scan_terminates (fun _ => true) (fun _ => eq_refl) (demo_blocks 5 5 2) 0 _ (demo_blocks_ok 5 5 2) eq_refl) as [[_ Hn] _].
    + discriminate.
    + cbn. lia.
    + intros j. apply byte_of_forallb. vm_compute. reflexivity.
    + apply Hn. intros (_ & i & j & Hi & Hj & Ei & Ej & _ & Hu). assert (Ho : forall k, (k < 4)%nat -> is_ext (contents (demo_blocks 5 5 2) 0 0) k = true -> k = 1%nat).
      { intros [|[|[|[|k]]]] Hk Ek; [vm_compute in Ek; discriminate Ek|reflexivity|vm_compute in Ek; discriminate Ek|vm_compute in Ek; discriminate Ek|lia]. }
      rewrite (Ho i Hi Ei), (Ho j Hj Ej) in Hu. vm_compute in Hu. discriminate Hu.
Defined.

Lemma partition_scan_correct_witness :
  exists s', partition_scan (fun _ => true) 1 0 (demo_blocks 35 5 3) = Ret (tt, s') /\
    map kind (drop 2 (all_blocks s')) = [(BLOCK_FILESYS, 3, Partition 0 2); (BLOCK_SWAP, 3, Partition 0 5)].
Proof.
  destruct (partition_scan_correct (fun _ => true) (fun _ => eq_refl) (demo_blocks 35 5 3) 0 _ (demo_blocks_ok 35 5 3) eq_refl) as (s' & H & _ & Hk).
  - discriminate.
  - cbn. lia.
  - intros j. apply byte_of_forallb. vm_compute. reflexivity.
  - vm_compute. reflexivity.
  - intros i Hi. destruct i as [|[|[|[|i]]]]; [vm_compute; reflexivity..|lia].
  - exists s'. split; [exact H|]. vm_compute in H. injection H as <-. reflexivity.
Defined.
