(* ===== verification/Ide.v ===== *)
(** * The disk driver ([devices/ide.c])

    The machine is a parameter: a type [W] of hardware states with the
    instructions of [threads/io.h] as operations (class [Ports]).  The class
    [AtaLaws] states what the ATA standard and the interrupt controller
    promise about them, as an abstract device [ata] per channel; two facts
    about the machine are part of it: the device sets BSY before the next
    access to a port (the standard gives it 400 ns), and it completes a
    command within the 29.99 s that the driver waits.

    An interrupt is taken after an access to a port when its line is raised
    and the schedule [deliver] says so; the schedule is a parameter of
    everything here, so that the theorems hold for every one.  A thread that
    blocks in [sema_down] waits for the line of its channel.  The lock of a
    channel is the lock of [Synch], seen by the thread that uses the driver:
    free or taken by it. *)
From Stdlib Require Import ZArith Lia String.
From stdpp Require Import prelude list.
From S2P Require Import Prelude Strings Sort Stdio Segments Partition.
#[local] Open Scope Z_scope.

(** ** The machine *)

Class Ports (W : Type) : Type := {
  hw_inb : Z -> ST W Z;
  hw_outb : Z -> Z -> ST W unit;
  hw_insw : Z -> nat -> ST W (list Z);
  hw_outsw : Z -> nat -> list Z -> ST W unit;
  hw_sleep : Z -> ST W unit;
  hw_halt : Z -> ST W unit;
  irq_line : W -> Z -> bool
}.

(** ** Data *)

Definition BLOCK_SECTOR_SIZE : Z := 512.

Definition STA_BSY : Z := 128.
Definition STA_DRDY : Z := 64.
Definition STA_DRQ : Z := 8.
Definition CTL_SRST : Z := 4.
Definition DEV_MBS : Z := 160.
Definition DEV_LBA : Z := 64.
Definition DEV_DEV : Z := 16.
Definition CMD_IDENTIFY_DEVICE : Z := 236.
Definition CMD_READ_SECTOR_RETRY : Z := 32.
Definition CMD_WRITE_SECTOR_RETRY : Z := 48.
Definition CHANNEL_CNT : nat := 2.

Record ata_disk : Type := mkDisk {
  dname : list Z;
  dev_no : Z;
  is_ata : bool
}.

Record channel : Type := mkChannel {
  cname : list Z;
  reg_base : Z;
  irq : Z;
  lock : bool;
  expecting_interrupt : bool;
  completion_wait : Z;
  devices : list ata_disk
}.

Definition reg_data (c : channel) : Z := reg_base c + 0.
Definition reg_error (c : channel) : Z := reg_base c + 1.
Definition reg_nsect (c : channel) : Z := reg_base c + 2.
Definition reg_lbal (c : channel) : Z := reg_base c + 3.
Definition reg_lbam (c : channel) : Z := reg_base c + 4.
Definition reg_lbah (c : channel) : Z := reg_base c + 5.
Definition reg_device (c : channel) : Z := reg_base c + 6.
Definition reg_status (c : channel) : Z := reg_base c + 7.
Definition reg_command (c : channel) : Z := reg_status c.
Definition reg_ctl (c : channel) : Z := reg_base c + 518.
Definition reg_alt_status (c : channel) : Z := reg_ctl c.

Inductive note : Type :=
| IdleTimeout (nm : list Z)
| BusyWaiting (nm : list Z)
| BusyOk
| BusyFailed
| UnexpectedInterrupt (nm : list Z)
| IgnoringDisk (nm size : list Z).

(** What is given to [block_register] (and then to [partition_scan], see
    [Partition]). *)
Record registration : Type := mkRegistration {
  rname : list Z;
  rextra : list Z;
  rsize : Z;
  rdisk : nat * nat
}.

Record ide (W : Type) : Type := mkIde {
  hw : W;
  channels : list channel;
  intr_on : bool;
  ticks : nat;
  notes : list note;
  registered : list registration;
  table : intrs
}.
Arguments mkIde {W} _ _ _ _ _ _ _.
Arguments hw {W} _. Arguments channels {W} _. Arguments intr_on {W} _. Arguments ticks {W} _.
Arguments notes {W} _. Arguments registered {W} _. Arguments table {W} _.

Section driver.
Context {W : Type} `{Ports W} (deliver : nat -> bool).
Implicit Types s : ide W.

Definition with_hw s (x : W) := mkIde x (channels s) (intr_on s) (ticks s) (notes s) (registered s) (table s).
Definition with_channels s x := mkIde (hw s) x (intr_on s) (ticks s) (notes s) (registered s) (table s).

Definition port {A} (m : ST W A) : ST (ide W) A := fun s =>
  match m (hw s) with Ret (a, w) => Ret (a, with_hw s w) | Err e => Err e end.

Definition printf_ (m : note) : ST (ide W) unit := fun s =>
  Ret (tt, mkIde (hw s) (channels s) (intr_on s) (ticks s) (m :: notes s) (registered s) (table s)).

(** A channel and a disk are pointers into [channels]: an index, two indices. *)
Definition get_channel (c : nat) : ST (ide W) channel := fun s =>
  match channels s !! c with Some x => Ret (x, s) | None => Err BadAccess end.
Definition set_channel (c : nat) (f : channel -> channel) : ST (ide W) unit := fun s =>
  match channels s !! c with Some x => Ret (tt, with_channels s (<[c := f x]> (channels s))) | None => Err BadAccess end.
Definition get_disk (c d : nat) : ST (ide W) ata_disk :=
  do! ch := get_channel c in lift (access (devices ch !! d)).

Definition with_lock (b : bool) (c : channel) := mkChannel (cname c) (reg_base c) (irq c) b (expecting_interrupt c) (completion_wait c) (devices c).
Definition with_expecting (b : bool) (c : channel) := mkChannel (cname c) (reg_base c) (irq c) (lock c) b (completion_wait c) (devices c).
Definition with_wait (n : Z) (c : channel) := mkChannel (cname c) (reg_base c) (irq c) (lock c) (expecting_interrupt c) n (devices c).
Definition with_devices (l : list ata_disk) (c : channel) := mkChannel (cname c) (reg_base c) (irq c) (lock c) (expecting_interrupt c) (completion_wait c) l.

(** ** Interrupts *)

Definition sema_up (c : nat) : ST (ide W) unit :=
  set_channel c (fun ch => with_wait (u32 (completion_wait ch + 1)) ch).

Fixpoint find_irq (vec_no : Z) (l : list channel) (c : nat) : option nat :=
  match l with
  | [] => None
  | ch :: l' => if vec_no =? irq ch then Some c else find_irq vec_no l' (S c)
  end.

Definition interrupt_handler (vec_no : Z) : ST (ide W) unit :=
  do! s := get in
  match find_irq vec_no (channels s) 0 with
  | Some c =>
      do! ch := get_channel c in
      if expecting_interrupt ch then
        do! _ := port (hw_inb (reg_status ch)) in
        sema_up c
      else printf_ (UnexpectedInterrupt (cname ch))
  | None => stop Panicked
  end.

(** Takes the interrupts of both channels whose lines are raised. *)
Definition take_irq (vec_no : Z) : ST (ide W) unit :=
  do! s := get in
  if irq_line (hw s) vec_no then interrupt_handler vec_no else sret tt.
Definition take_all : ST (ide W) unit :=
  do! _ := take_irq 46 in take_irq 47.

(** An opportunity for an interrupt. *)
Definition interrupts : ST (ide W) unit :=
  do! s := get in
  do! _ := put (mkIde (hw s) (channels s) (intr_on s) (S (ticks s)) (notes s) (registered s) (table s)) in
  if intr_on s && deliver (ticks s) then take_all else sret tt.

Definition access_port {A} (m : ST W A) : ST (ide W) A :=
  do! a := port m in
  do! _ := interrupts in
  sret a.

Definition inb (p : Z) : ST (ide W) Z := access_port (hw_inb p).
Definition outb (p v : Z) : ST (ide W) unit := access_port (hw_outb p (v mod 256)).
Definition insw (p : Z) (cnt : nat) : ST (ide W) (list Z) := access_port (hw_insw p cnt).
Definition outsw (p : Z) (cnt : nat) (data : list Z) : ST (ide W) unit := access_port (hw_outsw p cnt data).

Definition timer_msleep (ms : Z) : ST (ide W) unit := access_port (hw_sleep (ms * 1000000)).
Definition timer_usleep (us : Z) : ST (ide W) unit := access_port (hw_sleep (us * 1000)).
Definition timer_nsleep (ns : Z) : ST (ide W) unit := access_port (hw_sleep ns).

(** A thread that finds the value 0 sleeps until it is woken; the other
    threads do not use the channel, so that nothing happens to it before its
    interrupt. *)
Definition sema_down (c : nat) : ST (ide W) unit :=
  sloop (fun _ : unit =>
    do! ch := get_channel c in
    if 0 <? completion_wait ch then
      do! _ := set_channel c (with_wait (completion_wait ch - 1)) in
      sret (inr tt)
    else
      do! _ := port (hw_halt (irq ch)) in
      do! _ := take_all in
      sret (inl tt)) tt.

Definition lock_acquire (c : nat) : ST (ide W) unit :=
  do! ch := get_channel c in
  do! _ := assert_ (negb (lock ch)) in
  set_channel c (with_lock true).

Definition lock_release (c : nat) : ST (ide W) unit :=
  do! ch := get_channel c in
  do! _ := assert_ (lock ch) in
  set_channel c (with_lock false).

(** ** Low-level ATA primitives *)

Fixpoint idle_loop (n : nat) (c d : nat) : ST (ide W) unit :=
  match n with
  | O => do! dk := get_disk c d in printf_ (IdleTimeout (dname dk))
  | S n' =>
      do! ch := get_channel c in
      do! status := inb (reg_status ch) in
      if Z.land status (Z.lor STA_BSY STA_DRQ) =? 0 then sret tt
      else
        do! _ := timer_usleep 10 in
        idle_loop n' c d
  end.

Definition wait_until_idle (c d : nat) : ST (ide W) unit := idle_loop 1000 c d.

(** The iterations [i], ..., [i + n - 1]. *)
Fixpoint busy_loop (n : nat) (i : Z) (c d : nat) : ST (ide W) bool :=
  match n with
  | O => do! _ := printf_ BusyFailed in sret false
  | S n' =>
      do! ch := get_channel c in
      do! dk := get_disk c d in
      do! _ := (if i =? 700 then printf_ (BusyWaiting (dname dk)) else sret tt) in
      do! status := inb (reg_alt_status ch) in
      if Z.land status STA_BSY =? 0 then
        do! _ := (if 700 <=? i then printf_ BusyOk else sret tt) in
        do! status := inb (reg_alt_status ch) in
        sret (negb (Z.land status STA_DRQ =? 0))
      else
        do! _ := timer_msleep 10 in
        busy_loop n' (i + 1) c d
  end.

Definition wait_while_busy (c d : nat) : ST (ide W) bool := busy_loop 3000 0 c d.

Definition select_device (c d : nat) : ST (ide W) unit :=
  do! ch := get_channel c in
  do! dk := get_disk c d in
  let dev := if dev_no dk =? 1 then Z.lor DEV_MBS DEV_DEV else DEV_MBS in
  do! _ := outb (reg_device ch) dev in
  do! _ := inb (reg_alt_status ch) in
  timer_nsleep 400.

Definition select_device_wait (c d : nat) : ST (ide W) unit :=
  do! _ := wait_until_idle c d in
  do! _ := select_device c d in
  wait_until_idle c d.

Definition select_sector (c d : nat) (sec_no : Z) : ST (ide W) unit :=
  do! ch := get_channel c in
  do! dk := get_disk c d in
  do! _ := assert_ (sec_no <? 268435456) in
  do! _ := select_device_wait c d in
  do! _ := outb (reg_nsect ch) 1 in
  do! _ := outb (reg_lbal ch) sec_no in
  do! _ := outb (reg_lbam ch) (Z.shiftr sec_no 8) in
  do! _ := outb (reg_lbah ch) (Z.shiftr sec_no 16) in
  outb (reg_device ch)
    (Z.lor (Z.lor (Z.lor DEV_MBS DEV_LBA) (if dev_no dk =? 1 then DEV_DEV else 0)) (Z.shiftr sec_no 24)).

Definition issue_pio_command (c : nat) (command : Z) : ST (ide W) unit :=
  do! s := get in
  do! _ := assert_ (intr_on s) in
  do! _ := set_channel c (with_expecting true) in
  do! ch := get_channel c in
  outb (reg_command ch) command.

Definition input_sector (c : nat) : ST (ide W) (list Z) :=
  do! ch := get_channel c in insw (reg_data ch) (Z.to_nat (BLOCK_SECTOR_SIZE / 2)).

Definition output_sector (c : nat) (sector : list Z) : ST (ide W) unit :=
  do! ch := get_channel c in outsw (reg_data ch) (Z.to_nat (BLOCK_SECTOR_SIZE / 2)) sector.

(** ** Reading and writing *)

Definition ide_read (c d : nat) (sec_no : Z) : ST (ide W) (list Z) :=
  do! _ := lock_acquire c in
  do! _ := select_sector c d sec_no in
  do! _ := issue_pio_command c CMD_READ_SECTOR_RETRY in
  do! _ := sema_down c in
  do! drq := wait_while_busy c d in
  if (drq : bool) then
    do! buffer := input_sector c in
    do! _ := lock_release c in
    sret buffer
  else stop Panicked.

Definition ide_write (c d : nat) (sec_no : Z) (buffer : list Z) : ST (ide W) unit :=
  do! _ := lock_acquire c in
  do! _ := select_sector c d sec_no in
  do! _ := issue_pio_command c CMD_WRITE_SECTOR_RETRY in
  do! drq := wait_while_busy c d in
  if (drq : bool) then
    do! _ := output_sector c buffer in
    do! _ := sema_down c in
    lock_release c
  else stop Panicked.

(** ** Disk detection and identification *)

Definition set_disk (c d : nat) (f : ata_disk -> ata_disk) : ST (ide W) unit :=
  do! ch := get_channel c in
  do! dk := get_disk c d in
  set_channel c (with_devices (<[d := f dk]> (devices ch))).
Definition with_is_ata (b : bool) (x : ata_disk) := mkDisk (dname x) (dev_no x) b.

(** Whether the device [d] of the channel seems to be there. *)
Definition probe (c d : nat) : ST (ide W) bool :=
  do! ch := get_channel c in
  do! _ := select_device c d in
  do! _ := outb (reg_nsect ch) 85 in
  do! _ := outb (reg_lbal ch) 170 in
  do! _ := outb (reg_nsect ch) 170 in
  do! _ := outb (reg_lbal ch) 85 in
  do! _ := outb (reg_nsect ch) 85 in
  do! _ := outb (reg_lbal ch) 170 in
  do! n := inb (reg_nsect ch) in
  if n =? 85 then do! l := inb (reg_lbal ch) in sret (l =? 170) else sret false.

Fixpoint slave_loop (n : nat) (ch : channel) : ST (ide W) unit :=
  match n with
  | O => sret tt
  | S n' =>
      do! n := inb (reg_nsect ch) in
      do! there := (if n =? 1 then do! l := inb (reg_lbal ch) in sret (l =? 1) else sret false) in
      if (there : bool) then sret tt else
      do! _ := timer_msleep 10 in
      slave_loop n' ch
  end.

Definition reset_channel (c : nat) : ST (ide W) unit :=
  do! ch := get_channel c in
  do! present0 := probe c 0 in
  do! present1 := probe c 1 in
  do! _ := outb (reg_ctl ch) 0 in
  do! _ := timer_usleep 10 in
  do! _ := outb (reg_ctl ch) CTL_SRST in
  do! _ := timer_usleep 10 in
  do! _ := outb (reg_ctl ch) 0 in
  do! _ := timer_msleep 150 in
  do! _ :=
    (if (present0 : bool) then
      do! _ := select_device c 0 in
      do! _ := wait_while_busy c 0 in
      sret tt
    else sret tt) in
  if (present1 : bool) then
    do! _ := select_device c 1 in
    do! _ := slave_loop 3000 ch in
    do! _ := wait_while_busy c 1 in
    sret tt
  else sret tt.

Definition check_device_type (c d : nat) : ST (ide W) bool :=
  do! ch := get_channel c in
  do! _ := select_device c d in
  do! error := inb (reg_error ch) in
  do! lbam := inb (reg_lbam ch) in
  do! lbah := inb (reg_lbah ch) in
  do! status := inb (reg_status ch) in
  do! dk := get_disk c d in
  if (negb (error =? 1) && (negb (error =? 129) || (dev_no dk =? 1)))
     || (Z.land status STA_DRDY =? 0)
     || negb (Z.land status STA_BSY =? 0) then
    do! _ := set_disk c d (with_is_ata false) in
    sret (negb (error =? 129))
  else
    do! _ := set_disk c d (with_is_ata (((lbam =? 0) && (lbah =? 0)) || ((lbam =? 60) && (lbah =? 195)))) in
    sret true.

(** [for (i = 0; i + 1 < size; i += 2)]: the pairs of the first [size] bytes
    swapped. *)
Fixpoint swap_pairs (l : list Z) : list Z :=
  match l with a :: b :: l' => b :: a :: swap_pairs l' | _ => l end.

(** A [char] as an [int]. *)
Definition s8 (c : Z) : Z := if c <? 128 then c else c - 256.

(** The characters before the null byte. *)
Fixpoint cstring (l : list Z) : list Z :=
  match l with [] => [] | c :: l' => if c =? 0 then [] else c :: cstring l' end.

(** [for (size--; size > 0; size--)] from [size - 1 = n] on. *)
Fixpoint trim_loop (n : nat) (l : list Z) : nat :=
  match n with
  | O => O
  | S n' => let c := s8 (nth n' l 0) in if negb (c =? 0) && negb (isspace c) then n else trim_loop n' l
  end.

(** The string that STRING points to at the end. *)
Definition descramble_ata_string (string : list Z) (size : nat) : list Z :=
  let l := swap_pairs (firstn size string) in
  cstring (<[trim_loop (size - 1) l := 0]> l).

Definition identify_ata_device (c d : nat) : ST (ide W) unit :=
  do! dk := get_disk c d in
  do! _ := assert_ (is_ata dk) in
  do! _ := select_device_wait c d in
  do! _ := issue_pio_command c CMD_IDENTIFY_DEVICE in
  do! _ := sema_down c in
  do! drq := wait_while_busy c d in
  if negb drq then set_disk c d (with_is_ata false) else
  do! id := input_sector c in
  let capacity := dword id 120 in
  let model := descramble_ata_string (drop 20 id) 20 in
  let serial := descramble_ata_string (drop 54 id) 40 in
  let extra_info := firstn 127 (chars "model " ++ [34] ++ model ++ [34] ++ chars ", serial " ++ [34] ++ serial ++ [34]) in
  if 1073741824 / BLOCK_SECTOR_SIZE <=? capacity then
    do! size := lift (print_human_readable_size (u32 (capacity * 512))) in
    do! _ := printf_ (IgnoringDisk (dname dk) size) in
    set_disk c d (with_is_ata false)
  else
    fun s => Ret (tt, mkIde (hw s) (channels s) (intr_on s) (ticks s) (notes s)
      (registered s ++ [mkRegistration (dname dk) extra_info capacity (c, d)]) (table s)).

(** ** Initialization *)

(** The addresses of [interrupt_handler], of the names of the channels and of
    the stubs of the interrupts. *)
Context (handler : Z) (name_address : nat -> Z) (stubs : Z -> Z).

Definition init_channel (chan_no : nat) : outcome channel :=
  let nm := chars "ide" ++ [48 + Z.of_nat chan_no] in
  let disk dev_no := mkDisk (chars "hd" ++ [97 + Z.of_nat chan_no * 2 + dev_no]) dev_no false in
  match chan_no with
  | 0%nat => Ret (mkChannel nm 496 (14 + 32) false false 0 [disk 0; disk 1])
  | 1%nat => Ret (mkChannel nm 368 (15 + 32) false false 0 [disk 0; disk 1])
  | _ => Err Panicked
  end.

Definition register_channel (c : nat) : ST (ide W) unit :=
  do! ch := get_channel c in
  do! s := get in
  do! t := lift (intr_register_ext stubs (irq ch) handler (name_address c) (table s)) in
  put (mkIde (hw s) (channels s) (intr_on s) (ticks s) (notes s) (registered s) t).

Definition identify_if_ata (c d : nat) : ST (ide W) unit :=
  do! dk := get_disk c d in
  if is_ata dk then identify_ata_device c d else sret tt.

(** The body of the loop of [ide_init]. *)
Definition init_one (chan_no : nat) : ST (ide W) unit :=
  do! ch := lift (init_channel chan_no) in
  do! _ := set_channel chan_no (fun _ => ch) in
  do! _ := register_channel chan_no in
  do! _ := reset_channel chan_no in
  do! master := check_device_type chan_no 0 in
  do! _ := (if (master : bool) then do! _ := check_device_type chan_no 1 in sret tt else sret tt) in
  do! _ := identify_if_ata chan_no 0 in
  identify_if_ata chan_no 1.

Definition ide_init : ST (ide W) unit :=
  do! _ := init_one 0 in
  init_one 1.
End driver.

(** ** The strings of IDENTIFY DEVICE *)

Lemma pairs_ind (P : list Z -> Prop) : P [] -> (forall a, P [a]) -> (forall a b l, P l -> P (a :: b :: l)) -> forall l, P l.
Proof.
  intros H0 H1 H2. assert (H : forall l, P l /\ forall a, P (a :: l)) by (induction l as [|b l [IH1 IH2]]; [by split|split; [done|auto]]). apply H.
Qed.

Lemma swap_pairs_length l : length (swap_pairs l) = length l.
Proof. induction l as [| |a b l IH] using pairs_ind; cbn; by rewrite ?IH. Qed.

(** The place of the character [i] of a text in the bytes of its words, the
    first character of a word being in the high byte. *)
Definition in_word (i : nat) : nat := if Nat.even i then S i else pred i.

Lemma swap_pairs_lookup l i : Nat.Even (length l) -> (i < length l)%nat -> swap_pairs l !! i = l !! in_word i.
Proof.
  revert i. induction l as [|a|a b l IH] using pairs_ind; intros i He Hi; [done|by destruct He as [k Hk]; cbn in Hk; lia|].
  assert (He' : Nat.Even (length l)) by (destruct He as [k Hk]; exists (pred k); cbn in Hk; lia). cbn in Hi.
  destruct i as [|[|i]]; [done|done|]. cbn [swap_pairs lookup list_lookup]. rewrite IH by (done || lia). unfold in_word. cbn [Nat.even]. destruct (Nat.even i) eqn:Ei; [done|].
  destruct i; [done|done].
Qed.

(** [text] without the blanks at its end. *)
Fixpoint rtrim (l : list Z) : list Z :=
  match l with
  | [] => []
  | c :: l' => match rtrim l' with [] => if c =? 32 then [] else [c] | r => c :: r end
  end.

Definition printable (c : Z) : Prop := 32 <= c <= 126.

(** The [size] bytes from the word [w] on hold [text], padded with blanks, as
    the ATA standard stores strings. *)
Definition ata_text (id : list Z) (w size : nat) (text : list Z) : Prop :=
  (length text <= size)%nat /\ Forall printable text /\
  forall i, (i < size)%nat -> id !! (2 * w + in_word i)%nat = Some (nth i text 32).

Lemma rtrim_snoc l c : rtrim (l ++ [c]) = if c =? 32 then rtrim l else l ++ [c].
Proof.
  induction l as [|a l IH]; cbn [rtrim app]; [by destruct (c =? 32)|]. rewrite IH. destruct (c =? 32); [done|]. by destruct l.
Qed.

Lemma rtrim_blanks l n : rtrim (l ++ replicate n 32) = rtrim l.
Proof.
  induction n as [|n IH]; [by rewrite app_nil_r|]. rewrite replicate_S_end, app_assoc, rtrim_snoc. exact IH.
Qed.

Lemma printable_space c : printable c -> negb (s8 c =? 0) && negb (isspace (s8 c)) = negb (c =? 32).
Proof.
  intros [H1 H2]. unfold s8. destruct (Z.ltb_spec c 128); [|lia]. destruct (Z.eqb_spec c 0); [lia|]. cbn [negb andb]. f_equal. unfold isspace.
  repeat match goal with |- context [?a =? ?b] => destruct (Z.eqb_spec a b) end; done || lia.
Qed.

Lemma trim_loop_spec l n : Forall printable l -> (n <= length l)%nat -> take (trim_loop n l) l = rtrim (take n l) /\ (trim_loop n l <= n)%nat.
Proof.
  intros Hl. induction n as [|n IH]; intros Hn; [done|]. destruct (lookup_lt_is_Some_2 l n) as [c Hc]; [lia|].
  rewrite (take_S_r _ _ c) by done. rewrite rtrim_snoc. cbn [trim_loop].
  assert (nth n l 0 = c) as -> by (by apply nth_lookup_Some). rewrite printable_space by (by apply (Forall_lookup_1 _ _ _ _ Hl Hc)).
  destruct (c =? 32); cbn [negb].
  - destruct IH as [IH1 IH2]; [lia|]. split; [done|lia].
  - split; [by apply take_S_r|lia].
Qed.

Lemma cstring_text text l : Forall (fun c => c <> 0) text -> cstring (text ++ 0 :: l) = text.
Proof. induction 1 as [|c text Hc _ IH]; cbn; [done|]. destruct (Z.eqb_spec c 0); [done|]. by rewrite IH. Qed.

(** A text that is stored in a field of [size] bytes is read back up to the
    last byte of the field, without the blanks at its end. *)
Lemma descramble_text id w size text : Nat.Even size -> (0 < size)%nat -> ata_text id w size text ->
  descramble_ata_string (drop (2 * w) id) size = rtrim (take (size - 1) text).
Proof.
  intros He Hs (Hlen & Hpr & Hat). unfold descramble_ata_string. set (field := text ++ replicate (size - length text) 32).
  assert (Hf : length field = size) by (unfold field; rewrite length_app, length_replicate; lia).
  assert (Hpf : Forall printable field) by (apply Forall_app; split; [done|]; apply Forall_replicate; unfold printable; lia).
  assert (Hin : forall i, (i < size)%nat -> (in_word i < size)%nat).
  { intros i Hi. unfold in_word. destruct (Nat.even i) eqn:E; [|lia]. apply Nat.even_spec in E as [k Hk]. destruct He as [k' Hk']. lia. }
  assert (Hl : length (take size (drop (2 * w) id)) = size).
  { rewrite length_take. enough (size <= length (drop (2 * w) id))%nat by lia. destruct He as [k Hk]. pose proof (Hat (size - 2)%nat ltac:(lia)) as Hx.
    apply lookup_lt_Some in Hx. unfold in_word in Hx. rewrite length_drop. assert (Ee : Nat.even (size - 2) = true) by (apply Nat.even_spec; exists (k - 1)%nat; lia).
    rewrite Ee in Hx. lia. }
  assert (Ef : swap_pairs (firstn size (drop (2 * w) id)) = field).
  { apply list_eq. intros i. destruct (decide (i < size)%nat) as [Hi|Hi].
    - rewrite swap_pairs_lookup by (by rewrite Hl). rewrite lookup_take, decide_True by auto. rewrite lookup_drop, Hat by done. symmetry. unfold field.
      destruct (decide (i < length text)%nat).
      + rewrite lookup_app_l by done. destruct (lookup_lt_is_Some_2 text i) as [c Hc]; [done|]. rewrite Hc. f_equal. symmetry. by apply nth_lookup_Some.
      + rewrite lookup_app_r, nth_overflow by lia. apply lookup_replicate. split; [done|lia].
    - rewrite !lookup_ge_None_2; [done|lia|rewrite swap_pairs_length; lia]. }
  rewrite Ef. destruct (trim_loop_spec field (size - 1) Hpf) as [Ht Hle]; [lia|].
  assert (Hins : <[trim_loop (size - 1) field := 0]> field = rtrim (take (size - 1) field) ++ 0 :: drop (S (trim_loop (size - 1) field)) field).
  { rewrite insert_take_drop by lia. by rewrite Ht. }
  rewrite Hins, cstring_text.
  - unfold field. rewrite take_app, take_replicate. apply rtrim_blanks.
  - rewrite <- Ht. apply Forall_take. eapply Forall_impl; [exact Hpf|]. unfold printable. intros; lia.
Qed.

Example descramble_full : descramble_ata_string (swap_pairs (chars "ABCDEF")) 6 = chars "ABCDE".
Proof. reflexivity. Qed.

(** ** What the hardware promises *)

(** What the device does when it is no longer busy: it has a sector to send,
    it takes a sector, or it has stored one. *)
Inductive completion : Type :=
| SendData (data : list Z)
| TakeData (sector : Z)
| Stored (sector : Z) (data : list Z).

Inductive phase : Type :=
| Idle
| Busy (due : Z) (next : completion)
| DataIn (data : list Z)
| DataOut (sector : Z).

(** A channel with its two devices: the registers, the phase of the selected
    device, the interrupt request, and per device the sectors, their number
    and the answer to IDENTIFY DEVICE. *)
Record ata : Type := mkAta {
  device_reg : Z;
  nsect_reg : Z;
  lbal_reg : Z;
  lbam_reg : Z;
  lbah_reg : Z;
  state : phase;
  intrq : bool;
  media : nat -> Z -> list Z;
  msize : nat -> Z;
  identity : nat -> list Z
}.

Definition with_state (a : ata) (x : phase) := mkAta (device_reg a) (nsect_reg a) (lbal_reg a) (lbam_reg a) (lbah_reg a) x (intrq a) (media a) (msize a) (identity a).
Definition with_intrq (a : ata) (x : bool) := mkAta (device_reg a) (nsect_reg a) (lbal_reg a) (lbam_reg a) (lbah_reg a) (state a) x (media a) (msize a) (identity a).
Definition with_media (a : ata) x := mkAta (device_reg a) (nsect_reg a) (lbal_reg a) (lbam_reg a) (lbah_reg a) (state a) (intrq a) x (msize a) (identity a).

(** The registers that are written before a command, by their offsets. *)
Definition set_reg (a : ata) (k v : Z) : ata :=
  mkAta (if k =? 6 then v else device_reg a) (if k =? 2 then v else nsect_reg a) (if k =? 3 then v else lbal_reg a)
    (if k =? 4 then v else lbam_reg a) (if k =? 5 then v else lbah_reg a) (state a) (intrq a) (media a) (msize a) (identity a).

Definition selected (a : ata) : nat := if Z.testbit (device_reg a) 4 then 1 else 0.
Definition lba (a : ata) : Z := lbal_reg a + 256 * lbam_reg a + 65536 * lbah_reg a + 16777216 * (device_reg a mod 16).

Definition busy (a : ata) : bool := match state a with Busy _ _ => true | _ => false end.
Definition drq (a : ata) : bool := match state a with DataIn _ | DataOut _ => true | _ => false end.

(** The device [d] with other data in a sector. *)
Definition store (m : nat -> Z -> list Z) (d : nat) (i : Z) (data : list Z) : nat -> Z -> list Z :=
  fun d' j => if bool_decide (d' = d) && (j =? i) then data else m d' j.

(** The end of being busy, and whether an interrupt is requested then. *)
Definition settled (next : completion) (a : ata) : ata :=
  match next with
  | SendData data => with_state a (DataIn data)
  | TakeData i => with_state a (DataOut i)
  | Stored i data => with_state (with_media a (store (media a) (selected a) i data)) Idle
  end.
Definition raises (next : completion) : bool := match next with TakeData _ => false | _ => true end.
Definition complete (next : completion) (a : ata) : ata := with_intrq (settled next a) (raises next || intrq a).

(** At least [t] nanoseconds pass. *)
Definition passes (t : Z) (a a' : ata) : Prop :=
  match state a with
  | Busy due next => (exists due', 0 < due' <= due - t /\ a' = with_state a (Busy due' next)) \/ a' = complete next a
  | _ => a' = a
  end.

(** The commands; a sector is addressed in LBA mode. *)
Definition accepts (a : ata) (command : Z) : option completion :=
  if command =? CMD_IDENTIFY_DEVICE then Some (SendData (identity a (selected a)))
  else if Z.testbit (device_reg a) 6 && (nsect_reg a =? 1) && (lba a <? msize a (selected a)) then
    if command =? CMD_READ_SECTOR_RETRY then Some (SendData (media a (selected a) (lba a)))
    else if command =? CMD_WRITE_SECTOR_RETRY then Some (TakeData (lba a))
    else None
  else None.

(** The value [v] of a status register. *)
Definition status_of (a : ata) (v : Z) : Prop :=
  Z.land v STA_BSY = (if busy a then STA_BSY else 0) /\ (busy a = false -> Z.land v STA_DRQ = if drq a then STA_DRQ else 0).

Definition base (c : nat) : Z := if bool_decide (c = 0%nat) then 496 else 368.
Definition line (c : nat) : Z := 46 + Z.of_nat c.
Definition other (c : nat) : nat := (1 - c)%nat.

(** The instruction [m] makes time pass on both channels and then relates the
    state of [c] before and after by [post]. *)
Definition effect {W A} (view : W -> nat -> ata) (c : nat) (m : ST W A) (w : W) (post : ata -> A -> ata -> Prop) : Prop :=
  exists v w' a, m w = Ret (v, w') /\ passes 0 (view w c) a /\ post a v (view w' c) /\ passes 0 (view w (other c)) (view w' (other c)).

(** The longest time for which a device is busy with one of the commands. *)
Definition patience : Z := 29990000000.

Class AtaLaws (W : Type) `{Ports W} : Type := {
  view : W -> nat -> ata;
  line_law w c : (c < 2)%nat -> irq_line w (line c) = intrq (view w c);
  status_law w c : (c < 2)%nat ->
    effect view c (hw_inb (base c + 7)) w (fun a v a' => status_of a v /\ a' = with_intrq a false);
  alt_status_law w c : (c < 2)%nat ->
    effect view c (hw_inb (base c + 518)) w (fun a v a' => status_of a v /\ a' = a);
  register_law w c k v : (c < 2)%nat -> 2 <= k <= 6 -> 0 <= v < 256 -> state (view w c) = Idle ->
    effect view c (hw_outb (base c + k) v) w (fun a _ a' => a' = set_reg a k v);
  command_law w c v next : (c < 2)%nat -> state (view w c) = Idle -> accepts (view w c) v = Some next ->
    effect view c (hw_outb (base c + 7) v) w
      (fun a _ a' => exists due, 0 < due <= patience /\ a' = with_state (with_intrq a false) (Busy due next));
  data_in_law w c data : (c < 2)%nat -> state (view w c) = DataIn data -> length data = 512%nat ->
    effect view c (hw_insw (base c + 0) 256) w (fun a v a' => v = data /\ a' = with_state a Idle);
  data_out_law w c i data : (c < 2)%nat -> state (view w c) = DataOut i -> length data = 512%nat ->
    effect view c (hw_outsw (base c + 0) 256 data) w
      (fun a _ a' => exists due, 0 < due <= patience /\ a' = with_state a (Busy due (Stored i data)));
  sleep_law w ns : 0 <= ns ->
    exists w', hw_sleep ns w = Ret (tt, w') /\ forall c, (c < 2)%nat -> passes ns (view w c) (view w' c);
  halt_law w c : (c < 2)%nat ->
    (intrq (view w c) = true \/ exists due next, state (view w c) = Busy due next /\ raises next = true) ->
    effect view c (hw_halt (line c)) w (fun a _ a' => a' = a /\ intrq a = true)
}.

(** ** Running the driver *)

Lemma passes_intrq t a a' : passes t a a' -> intrq a = true -> intrq a' = true.
Proof.
  unfold passes. destruct (state a) as [|due next|d|i]; try (by intros ->). intros [(due' & _ & ->)| ->] Hi; [done|]. cbn.
  rewrite Hi. by destruct (raises next).
Qed.

Lemma passes_quiet t a a' : busy a = false -> passes t a a' -> a' = a.
Proof. unfold passes, busy. by destruct (state a). Qed.

Lemma passes_refl a : (forall due next, state a = Busy due next -> 0 < due) -> passes 0 a a.
Proof.
  unfold passes. destruct (state a) as [|due next|d|i] eqn:E; try done. intros Hp. left. exists due. split; [specialize (Hp due next eq_refl); lia|].
  destruct a. cbn in *. by subst.
Qed.

(** A computation returns, and then the condition holds. *)
Definition wp {S A} (m : ST S A) (s : S) (Q : A -> S -> Prop) : Prop := exists v s', m s = Ret (v, s') /\ Q v s'.

Lemma wp_bind {S A B} (m : ST S A) (f : A -> ST S B) (s : S) Q R :
  wp m s R -> (forall v s', R v s' -> wp (f v) s' Q) -> wp (sbind m f) s Q.
Proof. intros (v & s' & E & Hr) Hf. destruct (Hf v s' Hr) as (v2 & s2 & E2 & Hq). exists v2, s2. split; [|done]. by sstep E. Qed.

Lemma wp_ret {S A} (v : A) (s : S) (Q : A -> S -> Prop) : Q v s -> wp (sret v) s Q.
Proof. intros Hq. by exists v, s. Qed.

Lemma wp_step {S A B} (m : ST S A) (f : A -> ST S B) (s s' : S) v Q : m s = Ret (v, s') -> wp (f v) s' Q -> wp (sbind m f) s Q.
Proof. intros E (v2 & s2 & E2 & Hq). exists v2, s2. split; [|done]. by sstep E. Qed.

Lemma wp_mono {S A} (m : ST S A) (s : S) (Q Q' : A -> S -> Prop) : wp m s Q -> (forall v s', Q v s' -> Q' v s') -> wp m s Q'.
Proof. intros (v & s' & E & Hq) Hi. exists v, s'. auto. Qed.

Section run.
Context {W : Type} `{AtaLaws W} (deliver : nat -> bool).
Implicit Types s : ide W.

(** The channel in use, [c], is [K] up to the semaphore and the expectation of
    an interrupt; the other one, [o], is not in use. *)
Context (c : nat) (Hc : (c < 2)%nat) (o : channel) (oa : ata).
Context (Hoa : state oa = Idle) (Hoi : intrq oa = false) (R : list registration).

Definition chan (K : channel) (n : Z) (e : bool) : channel := with_expecting e (with_wait n K).
Definition both (x : channel) : list channel := if bool_decide (c = 0%nat) then [x; o] else [o; x].

Definition wired (K : channel) : Prop := reg_base K = base c /\ irq K = line c /\ irq o = line (other c).

Record at_ (K : channel) (s : ide W) (a : ata) (n : Z) (e : bool) : Prop := mkAt {
  at_chans : channels s = both (chan K n e);
  at_view : view (hw s) c = a;
  at_other : view (hw s) (other c) = oa;
  at_on : intr_on s = true;
  at_registered : registered s = R
}.

Definition cond : Type := ata -> Z -> bool -> Prop.
Definition inv (K : channel) (P : cond) (s : ide W) : Prop := exists a n e, at_ K s a n e /\ P a n e.

(** A condition that time and interrupts do not change. *)
Record stable (P : cond) : Prop := mkStable {
  st_time a n e a' : P a n e -> passes 0 a a' -> P a' n e;
  st_ack a n e : P a n e -> intrq a = true -> e = true /\ P (with_intrq a false) (n + 1) e;
  st_bound a n e : P a n e -> 0 <= n <= 1
}.

Lemma other_lt : (other c < 2)%nat.
Proof. unfold other. lia. Qed.

Lemma other_passes s : view (hw s) (other c) = oa -> forall t x, passes t (view (hw s) (other c)) x -> x = oa.
Proof. intros Ho t x Hp. rewrite Ho in Hp. apply passes_quiet in Hp; [done|]. unfold busy. by rewrite Hoa. Qed.

Lemma run_get_channel K s a n e : at_ K s a n e -> get_channel c s = Ret (chan K n e, s).
Proof.
  intros [E _ _ _ _]. unfold get_channel, both in *. rewrite E. case_bool_decide as Ez; [by rewrite Ez|].
  assert (c = 1%nat) as -> by lia. done.
Qed.

Lemma run_set_channel K s a n e f :
  at_ K s a n e -> exists s', set_channel c f s = Ret (tt, s') /\ channels s' = both (f (chan K n e)) /\ hw s' = hw s /\ intr_on s' = intr_on s /\ registered s' = registered s.
Proof.
  intros [E _ _ _ _]. unfold set_channel, both in *. rewrite E. case_bool_decide as Ez; [rewrite Ez; cbn; by eexists|].
  assert (c = 1%nat) as -> by lia. cbn. by eexists.
Qed.

Lemma find_irq_here K n e : wired K -> find_irq (line c) (both (chan K n e)) 0 = Some c.
Proof.
  intros (_ & Hi & Ho). unfold both. case_bool_decide as Ez; cbn [find_irq]; unfold chan; cbn [irq with_expecting with_wait].
  - rewrite Hi, Z.eqb_refl. by rewrite Ez.
  - assert (Ec : c = 1%nat) by lia. rewrite Ho, Hi, Z.eqb_refl. unfold line, other. rewrite Ec. done.
Qed.

(** An instruction that relates the states of the hardware as [effect] says. *)
Lemma wp_port {A} (m : ST W A) K s a n e post :
  at_ K s a n e -> effect view c m (hw s) post ->
  wp (port m) s (fun v s' => exists a1 a', passes 0 a a1 /\ post a1 v a' /\ at_ K s' a' n e).
Proof.
  intros [E1 E2 E3 E4 E5] (v & w' & a1 & Hm & Hp & Hpost & Ho). unfold wp, port. rewrite Hm. eexists v, _. split; [done|].
  exists a1, (view w' c). split_and!; [by rewrite <- E2|done|]. split; try done. by eapply other_passes.
Qed.

Lemma wp_handler K s a n (P : cond) : wired K -> at_ K s a n true -> intrq a = true -> 0 <= n <= 1 ->
  (forall a1, passes 0 a a1 -> intrq a1 = true -> P (with_intrq a1 false) (n + 1) true) ->
  wp (interrupt_handler (line c)) s (fun _ s' => inv K P s').
Proof.
  intros Hw Ha Hi Hn HP. unfold interrupt_handler. eapply wp_step; [done|]. cbv beta.
  rewrite (at_chans _ _ _ _ _ Ha), find_irq_here by done. eapply wp_step; [by eapply run_get_channel|]. cbn [chan with_expecting expecting_interrupt].
  assert (Hr : reg_status (chan K n true) = base c + 7) by (unfold reg_status; cbn; by destruct Hw as (-> & _)).
  eapply wp_bind.
  { rewrite Hr. eapply wp_port; [done|]. by apply status_law. }
  intros v s1 (a1 & a2 & Hp1 & (_ & ->) & Ha1). unfold sema_up.
  destruct (run_set_channel K s1 _ n true (fun ch => with_wait (u32 (completion_wait ch + 1)) ch) Ha1) as (s2 & E & Hch & Hhw & Hon & Hrg).
  eexists _, s2. split; [exact E|]. exists (with_intrq a1 false), (n + 1), true. split; [|apply HP; [done|by eapply passes_intrq]].
  destruct Ha1 as [B1 B2 B3 B4 B5]. split; [|by rewrite Hhw|by rewrite Hhw|by rewrite Hon|by rewrite Hrg].
  rewrite Hch. cbn. rewrite u32_small by (unfold is_u32, two32; lia). done.
Qed.

Lemma wp_take K s P i : wired K -> stable P -> (i < 2)%nat -> inv K P s -> wp (take_irq (line i)) s (fun _ s' => inv K P s').
Proof.
  intros Hw HP Hi (a & n & e & Ha & Hp). unfold take_irq. eapply wp_step; [done|]. rewrite line_law by done.
  destruct (decide (i = c)) as [->|Hne].
  - destruct (intrq (view (hw s) c)) eqn:Ei; [|apply wp_ret; by exists a, n, e]. rewrite (at_view _ _ _ _ _ Ha) in Ei.
    destruct (st_ack P HP a n e Hp Ei) as [-> _]. pose proof (st_bound P HP _ _ _ Hp). eapply wp_handler; try done.
    intros a1 Hp1 Hi1. apply (st_ack P HP); [by apply (st_time P HP a)|done].
  - assert (i = other c) as -> by (unfold other; lia). rewrite (at_other _ _ _ _ _ Ha), Hoi. apply wp_ret. by exists a, n, e.
Qed.

Lemma wp_take_all K s P : wired K -> stable P -> inv K P s -> wp take_all s (fun _ s' => inv K P s').
Proof.
  intros Hw HP Hi. unfold take_all. eapply wp_bind; [apply (wp_take K s P 0); [done|done|lia|done]|]. intros [] s1 H1. apply (wp_take K s1 P 1); [done|done|lia|done].
Qed.

Lemma wp_interrupts K s P : wired K -> stable P -> inv K P s -> wp (interrupts deliver) s (fun _ s' => inv K P s').
Proof.
  intros Hw HP (a & n & e & [E1 E2 E3 E4 E5] & Hp). unfold interrupts. eapply wp_step; [done|]. eapply wp_step; [done|].
  match goal with |- wp _ ?s1 _ => assert (H1 : inv K P s1) by (by exists a, n, e) end. destruct (_ && _); [by apply wp_take_all|by apply wp_ret].
Qed.

(** An access to a port, and then perhaps an interrupt. *)
Lemma wp_access {A} (m : ST W A) K s P (Q : A -> cond) :
  wired K -> inv K P s -> (forall v, stable (Q v)) ->
  (forall w n e, P (view w c) n e -> view w (other c) = oa ->
     exists v w', m w = Ret (v, w') /\ Q v (view w' c) n e /\ view w' (other c) = oa) ->
  wp (access_port deliver m) s (fun v s' => inv K (Q v) s').
Proof.
  intros Hw (a & n & e & [E1 E2 E3 E4 E5] & Hp) HQ Hm. destruct (Hm (hw s) n e) as (v & w' & Er & Hq & Ho); [by rewrite E2|done|].
  unfold access_port. eapply (wp_step _ _ _ (with_hw s w')); [unfold port; by rewrite Er|]. eapply wp_bind.
  - apply (wp_interrupts K _ (Q v)); [done|done|]. exists (view w' c), n, e. by split.
  - intros [] s2 H3. by apply wp_ret.
Qed.

Lemma wp_effect {A} (m : ST W A) K s P (Q : A -> cond) (post : ata -> A -> ata -> Prop) :
  wired K -> inv K P s -> (forall v, stable (Q v)) ->
  (forall w n e, P (view w c) n e -> effect view c m w post) ->
  (forall a n e a1 v a2, P a n e -> passes 0 a a1 -> post a1 v a2 -> Q v a2 n e) ->
  wp (access_port deliver m) s (fun v s' => inv K (Q v) s').
Proof.
  intros Hw Hi HQ Hm Hpost. eapply wp_access; [done|done|done|]. intros w n e Hp Ho.
  destruct (Hm w n e Hp) as (v & w' & a & Er & H1 & H2 & H3). exists v, w'. split_and!; [done|by eapply Hpost|].
  rewrite Ho in H3. apply passes_quiet in H3; [done|]. unfold busy. by rewrite Hoa.
Qed.

Lemma stable_and P (F : ata -> Prop) : stable P -> (forall a a', F a -> passes 0 a a' -> F a') -> (forall a, F a -> F (with_intrq a false)) ->
  stable (fun a n e => P a n e /\ F a).
Proof.
  intros [H1 H2 H3] F1 F2. split.
  - intros a n e a' [] Hp. eauto.
  - intros a n e [Hp Hf] Hi. destruct (H2 a n e Hp Hi). eauto.
  - intros a n e [Hp _]. eauto.
Qed.

(** What a value read from a status register tells about the device: at the
    time of the reading, and if it was not busy for good. *)
Definition seen (P : cond) (v : Z) (a : ata) : Prop :=
  (Z.land v STA_BSY = 0 -> busy a = false /\ Z.land v STA_DRQ = if drq a then STA_DRQ else 0) /\
  (Z.land v STA_BSY <> 0 -> exists a n e, P a n e /\ busy a = true).

Lemma stable_seen P v : stable P -> stable (fun a n e => P a n e /\ seen P v a).
Proof.
  intros HP. apply stable_and; [done|..].
  - intros a a' [H1 H2] Hp. split; [|done]. intros Hv. destruct (H1 Hv) as [Hb Hd]. by rewrite (passes_quiet _ _ _ Hb Hp).
  - intros a [H1 H2]. done.
Qed.

Lemma seen_status P a n e v : P a n e -> status_of a v -> seen P v a.
Proof.
  intros Hp [Hb Hd]. split; rewrite Hb; destruct (busy a) eqn:E; try done; eauto.
Qed.

Lemma wp_alt_status K P s ch : wired K -> stable P -> inv K P s -> reg_base ch = base c ->
  wp (inb deliver (reg_alt_status ch)) s (fun v s' => inv K (fun a n e => P a n e /\ seen P v a) s').
Proof.
  intros Hw HP Hi Hb. unfold inb, reg_alt_status, reg_ctl. rewrite Hb. eapply wp_effect; [done|done| |..].
  - intros v. by apply stable_seen.
  - intros w n e _. by apply alt_status_law.
  - intros a n e a1 v a2 Hp Hp1 (Hv & ->). pose proof (st_time P HP _ _ _ _ Hp Hp1). split; [done|]. by eapply seen_status.
Qed.

Lemma wp_status K P s ch : wired K -> stable P -> (forall a n e, P a n e -> P (with_intrq a false) n e) -> inv K P s -> reg_base ch = base c ->
  wp (inb deliver (reg_status ch)) s (fun v s' => inv K (fun a n e => P a n e /\ seen P v a) s').
Proof.
  intros Hw HP Hck Hi Hb. unfold inb, reg_status. rewrite Hb. eapply wp_effect; [done|done| |..].
  - intros v. by apply stable_seen.
  - intros w n e _. by apply status_law.
  - intros a n e a1 v a2 Hp Hp1 (Hv & ->). pose proof (st_time P HP _ _ _ _ Hp Hp1) as Hp2. split; [by apply Hck|].
    by apply (seen_status P a1 n e v).
Qed.

Lemma wp_sleep K (P Q : cond) s ns : wired K -> stable Q -> inv K P s -> 0 <= ns ->
  (forall a n e a', P a n e -> passes ns a a' -> Q a' n e) ->
  wp (access_port deliver (hw_sleep ns)) s (fun _ s' => inv K Q s').
Proof.
  intros Hw HQ Hi Hns Hpq. apply (wp_access _ K s P (fun _ => Q)); [done|done|done|]. intros w n e Hp Ho.
  destruct (sleep_law w ns Hns) as (w' & Er & Hs). exists tt, w'. split_and!; [done|by eapply Hpq, Hs|].
  specialize (Hs (other c) other_lt). rewrite Ho in Hs. apply passes_quiet in Hs; [done|]. unfold busy. by rewrite Hoa.
Qed.

Lemma run_get_disk K s P d dk : inv K P s -> devices K !! d = Some dk -> get_disk c d s = Ret (dk, s).
Proof. intros (a & n & e & Ha & _) Hd. unfold get_disk. sstep (run_get_channel K s a n e Ha). cbn. by rewrite Hd. Qed.

Lemma run_get K s P : inv K P s -> exists ch, get_channel c s = Ret (ch, s) /\ reg_base ch = reg_base K /\ irq ch = irq K /\ lock ch = lock K.
Proof. intros (a & n & e & Ha & _). eexists. by split; [by eapply run_get_channel|]. Qed.

Lemma wp_print K P s m : inv K P s -> wp (printf_ m) s (fun _ s' => inv K P s').
Proof. intros (a & n & e & [] & Hp). eexists _, _. split; [done|]. exists a, n, e. by split. Qed.

Lemma inv_mono K (P Q : cond) s : inv K P s -> (forall a n e, P a n e -> Q a n e) -> inv K Q s.
Proof. intros (a & n & e & Ha & Hp) Hpq. exists a, n, e. auto. Qed.

Lemma stable_ready P : stable P -> stable (fun a n e => P a n e /\ busy a = false).
Proof. intros HP. apply stable_and; [done| |done]. intros a a' Hb Hp. by rewrite (passes_quiet _ _ _ Hb Hp). Qed.

(** The end of [wait_while_busy]: the device is not busy. *)
Lemma wp_ready K P D s ch i : wired K -> stable P -> (forall a n e, P a n e -> busy a = false -> drq a = D) ->
  inv K (fun a n e => P a n e /\ busy a = false) s -> reg_base ch = base c ->
  wp (do! _ := (if 700 <=? i then printf_ BusyOk else sret tt) in
      do! status := inb deliver (reg_alt_status ch) in
      sret (negb (Z.land status STA_DRQ =? 0))) s
    (fun v s' => v = D /\ inv K (fun a n e => P a n e /\ busy a = false) s').
Proof.
  intros Hw HP HD Hi Hr. eapply (wp_bind _ _ _ _ (fun _ s' => inv K (fun a n e => P a n e /\ busy a = false) s')).
  { destruct (700 <=? i); [by apply wp_print|by apply wp_ret]. }
  intros [] s1 H1. eapply wp_bind; [apply (wp_alt_status K _ _ _ Hw (stable_ready P HP) H1 Hr)|]. intros v s2 (a & n & e & Ha & (Hp & Hb) & Hs1 & Hs2).
  apply wp_ret. split; [|by exists a, n, e]. destruct (Z.eq_dec (Z.land v STA_BSY) 0) as [E|E].
  - destruct (Hs1 E) as [_ ->]. rewrite (HD a n e Hp Hb). by destruct D.
  - destruct (Hs2 E) as (? & ? & ? & [_ Hx] & Hy). congruence.
Qed.

(** [wait_while_busy] when the device is busy for at most [B] more
    nanoseconds, and requests data afterwards as [D] says. *)
Section polling.
Context (K : channel) (P : Z -> cond) (D : bool) (d : nat) (dk : ata_disk).
Context (Hw : wired K) (Hd : devices K !! d = Some dk) (HP : forall B, stable (P B)).
Context (Hdue : forall B a n e, P B a n e -> B <= 0 -> busy a = false).
Context (Hsleep : forall B a n e a', P B a n e -> passes 10000000 a a' -> P (B - 10000000) a' n e).
Context (HD : forall B a n e, P B a n e -> busy a = false -> drq a = D).

Definition polled (s : ide W) : Prop := exists B, inv K (fun a n e => P B a n e /\ busy a = false) s.

Lemma wp_busy_step n B i s : inv K (P B) s ->
  (0 < B -> forall s', inv K (P (B - 10000000)) s' -> wp (busy_loop deliver n (i + 1) c d) s' (fun v s' => v = D /\ polled s')) ->
  wp (busy_loop deliver (S n) i c d) s (fun v s' => v = D /\ polled s').
Proof.
  intros Hi Hnext. cbn [busy_loop]. destruct (run_get _ _ _ Hi) as (ch & Hg & Hr & _). destruct Hw as (Hkb & _). rewrite Hkb in Hr.
  eapply wp_step; [exact Hg|]. eapply wp_step; [by eapply run_get_disk|].
  eapply (wp_bind _ _ _ _ (fun _ s' => inv K (P B) s')); [destruct (i =? 700); [by apply wp_print|by apply wp_ret]|]. intros [] s1 H1.
  eapply wp_bind; [apply (wp_alt_status K (P B)); done|]. intros v s2 H2. cbv beta in H2. destruct (Z.eqb_spec (Z.land v STA_BSY) 0) as [E|E].
  - eapply wp_mono; [apply (wp_ready K (P B) D); [done|done|apply HD| |done]|].
    + eapply inv_mono; [exact H2|]. intros a k e (Hp & Hs & _). split; [done|by apply Hs].
    + intros v' s' [-> H3]. split; [done|]. by exists B.
  - assert (HB : 0 < B).
    { destruct H2 as (a & k & e & _ & Hp & _ & Hs). destruct (Hs E) as (a' & k' & e' & Hp' & Hb). destruct (Z.lt_ge_cases 0 B); [done|].
      rewrite (Hdue _ _ _ _ Hp') in Hb; done. }
    eapply wp_bind.
    + eapply (wp_sleep K (P B) (P (B - 10000000))); [done|done| |lia|].
      * eapply inv_mono; [exact H2|]. by intros a k e [].
      * intros a k e a' Hp Hps. by eapply Hsleep.
    + intros [] s3 H3. by apply Hnext.
Qed.

Lemma wp_busy_loop n B i s : inv K (P B) s -> B <= Z.of_nat n * 10000000 ->
  wp (busy_loop deliver (S n) i c d) s (fun v s' => v = D /\ polled s').
Proof.
  revert B i s. induction n as [|n IH]; intros B i s Hi HB; apply (wp_busy_step _ B i s Hi); intros Hpos s' Hs'; [lia|]. eapply IH; [exact Hs'|lia].
Qed.

Lemma wp_wait_while_busy B s : inv K (P B) s -> B <= patience -> wp (wait_while_busy deliver c d) s (fun v s' => v = D /\ polled s').
Proof. intros Hi HB. unfold wait_while_busy. apply (wp_busy_loop 2999 B); [done|]. unfold patience in HB. lia. Qed.
End polling.

(** *** The device at rest, and with a command in flight *)

Definition rests (A : ata) : cond := fun a n e => a = A /\ n = 0.

Lemma stable_rests A : busy A = false -> intrq A = false -> stable (rests A).
Proof.
  intros Hb Hi. split.
  - intros a n e a' [-> ->] Hp. by rewrite (passes_quiet _ _ _ Hb Hp).
  - intros a n e [-> ->]. congruence.
  - intros a n e [-> ->]. lia.
Qed.

(** The command whose [completion] is [next] was given in the state [A]: the
    device is busy with it, or it has finished, and its interrupt is
    requested or counted by the semaphore. *)
Definition inflight (A : ata) (next : completion) (B : Z) : cond := fun a n e =>
  e = true /\
  ((exists due, 0 < due <= B /\ a = with_state A (Busy due next) /\ n = 0) \/
   (exists i, a = with_intrq (settled next A) i /\ 0 <= n /\ n + Z.b2z i = Z.b2z (raises next))).

Lemma settled_state A due next : settled next (with_state A (Busy due next)) = settled next A.
Proof. by destruct next. Qed.

Lemma settled_idle next A : busy (settled next A) = false.
Proof. by destruct next. Qed.

Lemma passes_flight A next B t a a' n e : intrq A = false -> 0 <= t -> inflight A next B a n e -> passes t a a' -> inflight A next (B - t) a' n e.
Proof.
  intros HA Ht [He [(due & Hd & -> & ->)|(i & -> & Hn & Hi)]] Hp; (split; [done|]).
  - unfold passes in Hp. cbn [state with_state] in Hp. destruct Hp as [(due' & Hd' & ->)| ->].
    + left. exists due'. split; [lia|]. by split.
    + right. exists (raises next). unfold complete. rewrite settled_state. cbn. rewrite HA, orb_false_r. split; [done|]. lia.
  - right. exists i. split; [|done]. apply passes_quiet in Hp; [done|]. by destruct next.
Qed.

Lemma stable_flight A next B : intrq A = false -> stable (inflight A next B).
Proof.
  intros HA. split.
  - intros a n e a' Hp Hps. replace B with (B - 0) by lia. by eapply passes_flight.
  - intros a n e [He [(due & Hd & -> & ->)|(i & -> & Hn & Hi)]] Hr; cbn in Hr; [congruence|]. subst i. split; [done|]. split; [done|]. right.
    exists false. split; [done|]. cbn in Hi |- *. lia.
  - intros a n e [He [(due & Hd & -> & ->)|(i & -> & Hn & Hi)]]; [lia|]. destruct i, (raises next); cbn in Hi; lia.
Qed.

Lemma flight_due A next B a n e : inflight A next B a n e -> B <= 0 -> busy a = false.
Proof. intros [_ [(due & Hd & _)|(i & -> & _)]] HB; [lia|]. by destruct next. Qed.

(** *** The steps of the driver *)

Lemma wp_idle K A d s : wired K -> state A = Idle -> intrq A = false -> inv K (rests A) s -> wp (wait_until_idle deliver c d) s (fun _ s' => inv K (rests A) s').
Proof.
  intros Hw Hs Hi H1. assert (Hb : busy A = false) by (unfold busy; by rewrite Hs). unfold wait_until_idle. cbn [idle_loop].
  destruct (run_get _ _ _ H1) as (ch & Hg & Hr & _). destruct Hw as (Hkb & Hw'). rewrite Hkb in Hr. eapply wp_step; [exact Hg|].
  eapply wp_bind; [apply (wp_status K (rests A)); [done|by apply stable_rests| |done|done]|].
  - intros a n e [-> ->]. split; [|done]. destruct A. cbn in *. by subst.
  - intros v s2 (a & n & e & Ha & [-> ->] & Hs1 & Hs2). change (Z.lor STA_BSY STA_DRQ) with (Z.lor STA_BSY STA_DRQ).
    destruct (Z.eq_dec (Z.land v STA_BSY) 0) as [E|E].
    + destruct (Hs1 E) as [_ Hd]. unfold drq in Hd. rewrite Hs in Hd. rewrite Z.land_lor_distr_r, E, Hd. cbn. apply wp_ret. by exists A, 0, e.
    + destruct (Hs2 E) as (? & ? & ? & [-> _] & Hy). congruence.
Qed.

Lemma wp_register K A s ch k v : wired K -> state A = Idle -> intrq A = false -> 2 <= k <= 6 -> inv K (rests A) s -> reg_base ch = base c ->
  wp (outb deliver (reg_base ch + k) v) s (fun _ s' => inv K (rests (set_reg A k (v mod 256))) s').
Proof.
  intros Hw Hs Hi Hk H1 Hr. unfold outb. rewrite Hr.
  apply (wp_effect _ K s (rests A) (fun _ => rests (set_reg A k (v mod 256))) (fun a _ a' => a' = set_reg a k (v mod 256))); [done|done| |..].
  - intros _. apply stable_rests; [unfold busy; cbn; by rewrite Hs|done].
  - intros w n e [Hv _]. apply register_law; [done|done|apply Z.mod_pos_bound; lia|by rewrite Hv].
  - intros a n e a1 [] a2 [-> ->] Hp ->. apply passes_quiet in Hp; [|unfold busy; by rewrite Hs]. by subst a1.
Qed.

Definition device_byte (d : nat) (hi : Z) : Z := hi + 160 + 16 * Z.of_nat d.

Lemma wp_select_device K A d dk s : wired K -> devices K !! d = Some dk -> dev_no dk = Z.of_nat d -> (d < 2)%nat ->
  state A = Idle -> intrq A = false -> inv K (rests A) s ->
  wp (select_device deliver c d) s (fun _ s' => inv K (rests (set_reg A 6 (device_byte d 0))) s').
Proof.
  intros Hw Hd Hn Hd2 Hs Hi H1. unfold select_device. destruct (run_get _ _ _ H1) as (ch & Hg & Hr & _). pose proof (proj1 Hw) as Hkb. rewrite Hkb in Hr.
  eapply wp_step; [exact Hg|]. eapply wp_step; [by eapply run_get_disk|].
  assert (E : (if dev_no dk =? 1 then Z.lor DEV_MBS DEV_DEV else DEV_MBS) mod 256 = device_byte d 0).
  { rewrite Hn. destruct d as [|[|]]; [done|done|lia]. }
  set (B := set_reg A 6 (device_byte d 0)). assert (HB : busy B = false) by (unfold busy, B; cbn; by rewrite Hs).
  assert (HBs : stable (rests B)) by (by apply stable_rests). eapply wp_bind.
  { apply (wp_register K A s ch 6); [done|done|done|lia|done|done]. }
  intros [] s1 H2. rewrite E in H2. eapply wp_bind; [apply (wp_alt_status K (rests B)); done|]. intros v s2 H3.
  unfold timer_nsleep. apply (wp_sleep K (rests B) (rests B)); [done|done| |lia|].
  - eapply inv_mono; [exact H3|]. by intros a n e [].
  - intros a n e a' [-> ->] Hp. by rewrite (passes_quiet _ _ _ HB Hp).
Qed.

Lemma wp_select_device_wait K A d dk s : wired K -> devices K !! d = Some dk -> dev_no dk = Z.of_nat d -> (d < 2)%nat ->
  state A = Idle -> intrq A = false -> inv K (rests A) s ->
  wp (select_device_wait deliver c d) s (fun _ s' => inv K (rests (set_reg A 6 (device_byte d 0))) s').
Proof.
  intros Hw Hd Hn Hd2 Hs Hi H1. unfold select_device_wait. eapply wp_bind; [by apply (wp_idle K A)|]. intros [] s1 H2.
  eapply wp_bind; [by eapply wp_select_device|]. intros [] s2 H3. by apply wp_idle.
Qed.

(** The device with the sector [i] of [d] in its registers. *)
Definition addressed (A : ata) (d : nat) (i : Z) : ata :=
  set_reg (set_reg (set_reg (set_reg (set_reg (set_reg A 6 (device_byte d 0)) 2 1) 3 (i mod 256)) 4 (i / 256 mod 256)) 5 (i / 65536 mod 256)) 6
    (device_byte d (i / 16777216 + 64)).

Lemma device_bits d h : (d < 2)%nat -> 0 <= h < 16 ->
  Z.lor (Z.lor (Z.lor DEV_MBS DEV_LBA) (if Z.of_nat d =? 1 then DEV_DEV else 0)) h mod 256 = device_byte d (h + 64) /\
  Z.testbit (device_byte d (h + 64)) 4 = bool_decide (d = 1%nat) /\ Z.testbit (device_byte d (h + 64)) 6 = true /\
  device_byte d (h + 64) mod 16 = h.
Proof.
  intros Hd Hh.
  assert (h = 0 \/ h = 1 \/ h = 2 \/ h = 3 \/ h = 4 \/ h = 5 \/ h = 6 \/ h = 7 \/ h = 8 \/ h = 9 \/ h = 10 \/ h = 11 \/ h = 12 \/ h = 13 \/ h = 14 \/ h = 15)
    as Hcases by lia.
  destruct d as [|[|]]; [| |lia]; clear Hh; repeat (destruct Hcases as [->|Hcases]; [done|]); by subst.
Qed.

Lemma addressed_facts A d i : (d < 2)%nat -> 0 <= i < 268435456 ->
  selected (addressed A d i) = d /\ lba (addressed A d i) = i /\ Z.testbit (device_reg (addressed A d i)) 6 = true /\ nsect_reg (addressed A d i) = 1.
Proof.
  intros Hd Hi. destruct (device_bits d (i / 16777216) Hd) as (_ & H4 & H6 & Hm).
  { split; [apply Z.div_pos; lia|apply Z.div_lt_upper_bound; lia]. }
  unfold selected, lba. change (device_reg (addressed A d i)) with (device_byte d (i / 16777216 + 64)). rewrite H4, H6, Hm. split_and!; try done.
  - destruct d as [|[|]]; [done|done|lia].
  - change (i mod 256 + 256 * (i / 256 mod 256) + 65536 * (i / 65536 mod 256) + 16777216 * (i / 16777216) = i).
    replace 65536 with (256 * 256) by lia. replace 16777216 with (256 * (256 * 256)) by lia. rewrite <- !Z.div_div by lia.
    pose proof (Z.div_mod i 256 ltac:(lia)). pose proof (Z.div_mod (i / 256) 256 ltac:(lia)). pose proof (Z.div_mod (i / 256 / 256) 256 ltac:(lia)). lia.
Qed.

Lemma wp_select_sector K A d dk i s : wired K -> devices K !! d = Some dk -> dev_no dk = Z.of_nat d -> (d < 2)%nat ->
  state A = Idle -> intrq A = false -> 0 <= i < 268435456 -> inv K (rests A) s ->
  wp (select_sector deliver c d i) s (fun _ s' => inv K (rests (addressed A d i)) s').
Proof.
  intros Hw Hd Hn Hd2 Hs Hi Hsec H1. unfold select_sector. destruct (run_get _ _ _ H1) as (ch & Hg & Hr & _). pose proof (proj1 Hw) as Hkb. rewrite Hkb in Hr.
  eapply wp_step; [exact Hg|]. eapply wp_step; [by eapply run_get_disk|]. eapply wp_step; [unfold assert_, lift, ASSERT; by destruct (Z.ltb_spec i 268435456); [|lia]|].
  eapply wp_bind; [by eapply wp_select_device_wait|]. intros [] s1 H2.
  eapply wp_bind; [eapply (wp_register K _ s1 ch 2 _ Hw); [| |lia|exact H2|exact Hr]; done|]. intros [] s2 H3.
  eapply wp_bind; [eapply (wp_register K _ s2 ch 3 _ Hw); [| |lia|exact H3|exact Hr]; done|]. intros [] s3 H4.
  eapply wp_bind; [eapply (wp_register K _ s3 ch 4 _ Hw); [| |lia|exact H4|exact Hr]; done|]. intros [] s4 H5.
  eapply wp_bind; [eapply (wp_register K _ s4 ch 5 _ Hw); [| |lia|exact H5|exact Hr]; done|]. intros [] s5 H6.
  eapply wp_mono; [eapply (wp_register K _ s5 ch 6 _ Hw); [| |lia|exact H6|exact Hr]; done|]. intros [] s6 H7.
  rewrite !Z.shiftr_div_pow2 in H7 by lia. change (2 ^ 8) with 256 in H7. change (2 ^ 16) with 65536 in H7. change (2 ^ 24) with 16777216 in H7.
  destruct (device_bits d (i / 16777216) Hd2) as (E & _); [split; [apply Z.div_pos; lia|apply Z.div_lt_upper_bound; lia]|].
  rewrite Hn in H7. rewrite E in H7. exact H7.
Qed.

Lemma wp_issue K A s cmd next : wired K -> state A = Idle -> intrq A = false -> accepts A cmd = Some next -> 0 <= cmd < 256 -> inv K (rests A) s ->
  wp (issue_pio_command deliver c cmd) s (fun _ s' => inv K (inflight A next patience) s').
Proof.
  intros Hw Hs Hi Hacc Hcmd (a & n & e & Ha & -> & ->). unfold issue_pio_command. eapply wp_step; [done|].
  eapply wp_step; [unfold assert_, lift, ASSERT; by rewrite (at_on _ _ _ _ _ Ha)|].
  destruct (run_set_channel K s A 0 e (with_expecting true) Ha) as (s1 & E & Hch & Hhw & Hon & Hrg). eapply wp_step; [exact E|].
  assert (Ha1 : at_ K s1 A 0 true) by (destruct Ha; split; [by rewrite Hch|by rewrite Hhw|by rewrite Hhw|by rewrite Hon|by rewrite Hrg]).
  eapply wp_step; [by eapply run_get_channel|].
  assert (H1 : inv K (fun a n e => rests A a n e /\ e = true) s1) by (by exists A, 0, true).
  unfold outb, reg_command, reg_status. cbn [chan with_expecting with_wait reg_base]. rewrite (proj1 Hw), (Z.mod_small cmd) by done.
  apply (wp_effect _ K s1 _ (fun _ => inflight A next patience) (fun a _ a' => exists due, 0 < due <= patience /\ a' = with_state (with_intrq a false) (Busy due next)) Hw H1).
  - intros _. by apply stable_flight.
  - intros w n e' [[Hv _] _]. apply command_law; [done|by rewrite Hv|by rewrite Hv].
  - intros a n e' a1 [] a2 [[-> ->] ->] Hp (due & Hd & ->). apply passes_quiet in Hp; [|unfold busy; by rewrite Hs]. subst a1.
    split; [done|]. left. exists due. split; [done|]. split; [|done]. destruct A. cbn in *. by subst.
Qed.

(** The state after a command that requests an interrupt, and the interrupt. *)
Definition done_with (A : ata) (next : completion) : ata := with_intrq (settled next A) false.

Lemma stable_counted A next k : stable (fun a n e => a = done_with A next /\ n = Z.b2z k /\ e = true).
Proof.
  split.
  - intros a n e a' (-> & -> & ->) Hp. apply passes_quiet in Hp; [by subst|]. by destruct next.
  - intros a n e (-> & _) Hi. done.
  - intros a n e (_ & -> & _). destruct k; cbn; lia.
Qed.

Lemma wp_take_here K A next s : wired K -> inv K (fun a n e => a = with_intrq (settled next A) true /\ n = 0 /\ e = true) s ->
  wp take_all s (fun _ s' => inv K (fun a n e => a = done_with A next /\ n = Z.b2z true /\ e = true) s').
Proof.
  intros Hw (a & n & e & Ha & -> & -> & ->). set (Q := fun a n e => a = done_with A next /\ n = Z.b2z true /\ e = true).
  assert (HQ : stable Q) by apply stable_counted.
  assert (Hhere : wp (take_irq (line c)) s (fun _ s' => inv K Q s')).
  { unfold take_irq. eapply wp_step; [done|]. rewrite line_law by done. rewrite (at_view _ _ _ _ _ Ha). cbn [with_intrq intrq].
    eapply wp_handler; [done|exact Ha|done|lia|]. intros a1 Hp _. apply passes_quiet in Hp; [by subst|]. by destruct next. }
  unfold take_all. destruct (decide (c = 0%nat)) as [Ez|Ez].
  - eapply wp_bind; [unfold line in Hhere; rewrite Ez in Hhere; exact Hhere|]. intros [] s1 H1. apply (wp_take K s1 Q 1); [done|done|lia|done].
  - assert (Ec : c = 1%nat) by lia. eapply (wp_step _ _ _ s); [|unfold line in Hhere; rewrite Ec in Hhere; exact Hhere].
    unfold take_irq, sbind, get. assert (Eo : 46 = line (other c)) by (rewrite Ec; done). rewrite Eo, line_law by apply other_lt.
    by rewrite (at_other _ _ _ _ _ Ha), Hoi.
Qed.

Lemma wp_halt K A next B s ch : wired K -> intrq A = false -> raises next = true -> irq ch = line c ->
  inv K (fun a n e => inflight A next B a n e /\ n = 0) s ->
  wp (port (hw_halt (irq ch))) s (fun _ s' => inv K (fun a n e => a = with_intrq (settled next A) true /\ n = 0 /\ e = true) s').
Proof.
  intros Hw HA Hr Hirq (a & n & e & Ha & Hfl & ->). rewrite Hirq. eapply wp_mono.
  - eapply (wp_port _ K); [exact Ha|]. apply halt_law; [done|]. rewrite (at_view _ _ _ _ _ Ha). destruct Hfl as [_ [(due & Hd & -> & _)|(i & -> & _ & Hi)]].
    + right. by exists due, next.
    + left. destruct i; [done|]. by rewrite Hr in Hi.
  - intros [] s1 (a1 & a2 & Hp & (-> & Hi) & Ha1). exists a1, 0, e. split; [done|].
    pose proof (passes_flight A next B 0 a a1 0 e HA ltac:(lia) Hfl Hp) as [-> [(due & _ & -> & _)|(i & -> & _ & Hi')]].
    + cbn in Hi. congruence.
    + cbn in Hi. by subst i.
Qed.

Lemma wp_sema_down K A next B s : wired K -> intrq A = false -> raises next = true -> inv K (inflight A next B) s ->
  wp (sema_down c) s (fun _ s' => inv K (fun a n e => rests (done_with A next) a n e /\ e = true) s').
Proof.
  intros Hw HA Hr Hfl. set (Q := fun a n e => a = done_with A next /\ n = Z.b2z true /\ e = true). unfold sema_down.
  assert (Hfin : forall s1, inv K Q s1 -> wp (set_channel c (with_wait (1 - 1))) s1 (fun _ s' => inv K (fun a n e => rests (done_with A next) a n e /\ e = true) s')).
  { intros s1 (a & n & e & Ha & -> & -> & ->). destruct (run_set_channel K s1 _ 1 true (with_wait (1 - 1)) Ha) as (s2 & E & Hch & Hhw & Hon & Hrg).
    eexists tt, s2. split; [exact E|]. exists (done_with A next), 0, true. split; [|done]. destruct Ha. split; [by rewrite Hch|by rewrite Hhw|by rewrite Hhw|by rewrite Hon|by rewrite Hrg]. }
  match goal with |- wp (sloop ?f tt) s ?R => destruct (sloop_ind 1 (fun k _ s1 => if k is O then inv K Q s1 else inv K (inflight A next B) s1) (fun _ s1 => R tt s1) f tt s)
    as ([] & s' & E & Hq) end; [|done|done|by exists tt, s'].
  intros k [] s1 HI.
  assert (Hlast : inv K Q s1 -> exists r s', (do! ch := get_channel c in
      if 0 <? completion_wait ch then do! _ := set_channel c (with_wait (completion_wait ch - 1)) in sret (inr tt)
      else do! _ := port (hw_halt (irq ch)) in do! _ := take_all in sret (inl tt)) s1 = Ret (@inr unit unit r, s') /\
      inv K (fun a n e => rests (done_with A next) a n e /\ e = true) s').
  { intros HQ. destruct (Hfin s1 HQ) as ([] & s2 & E & Hs2). destruct HQ as (a & n & e & Ha & -> & -> & ->). exists tt, s2. split; [|done].
    sstep (run_get_channel _ _ _ _ _ Ha). cbn. by sstep E. }
  destruct k as [|k]; [by left; apply Hlast|]. destruct HI as (a & n & e & Ha & Hfl1). destruct (Z.ltb_spec 0 n) as [Hn|Hn].
  - left. apply Hlast. exists a, n, e. split; [done|]. destruct Hfl1 as [-> [(due & _ & _ & ->)|(i & -> & _ & Hi)]]; [lia|].
    rewrite Hr in Hi. destruct i; cbn in Hi; [lia|]. unfold Q, done_with. cbn. by replace n with 1 by lia.
  - right. destruct (stable_flight A next B HA) as [_ _ Hbd]. specialize (Hbd a n e Hfl1). assert (n = 0) as -> by lia.
    destruct (wp_halt K A next B s1 (chan K 0 e) Hw HA Hr) as ([] & s2 & E2 & H2); [apply Hw|by exists a, 0, e|].
    destruct (wp_take_here K A next s2 Hw H2) as ([] & s3 & E3 & H3). exists 0%nat, tt, s3. split; [|split; [exact H3|lia]].
    sstep (run_get_channel _ _ _ _ _ Ha). cbn [completion_wait chan with_expecting with_wait Z.ltb Z.compare]. sstep E2. by sstep E3.
Qed.

Lemma wp_input K A data s : wired K -> state A = DataIn data -> intrq A = false -> length data = 512%nat -> inv K (rests A) s ->
  wp (input_sector deliver c) s (fun v s' => v = data /\ inv K (rests (with_state A Idle)) s').
Proof.
  intros Hw Hs Hi Hl H1. unfold input_sector. destruct (run_get _ _ _ H1) as (ch & Hg & Hr & _). rewrite (proj1 Hw) in Hr. eapply wp_step; [exact Hg|].
  unfold insw, reg_data. rewrite Hr. eapply wp_mono.
  - apply (wp_effect _ K s (rests A) (fun v a n e => rests (with_state A Idle) a n e /\ v = data) (fun a v a' => v = data /\ a' = with_state a Idle) Hw H1).
    + intros v. apply (stable_and _ (fun _ => v = data)); [by apply stable_rests|done|done].
    + intros w n e [Hv _]. apply data_in_law; [done|by rewrite Hv|done].
    + intros a n e a1 v a2 [-> ->] Hp (-> & ->). apply passes_quiet in Hp; [by subst|]. unfold busy. by rewrite Hs.
  - intros v s' (a & n & e & Ha & Hp & ->). split; [done|]. by exists a, n, e.
Qed.

Lemma wp_output K A i data s : wired K -> state A = DataOut i -> intrq A = false -> length data = 512%nat ->
  inv K (fun a n e => rests A a n e /\ e = true) s ->
  wp (output_sector deliver c data) s (fun _ s' => inv K (inflight A (Stored i data) patience) s').
Proof.
  intros Hw Hs Hi Hl H1. unfold output_sector. destruct (run_get _ _ _ H1) as (ch & Hg & Hr & _). rewrite (proj1 Hw) in Hr. eapply wp_step; [exact Hg|].
  unfold outsw, reg_data. rewrite Hr.
  apply (wp_effect _ K s _ (fun _ => inflight A (Stored i data) patience) (fun a _ a' => exists due, 0 < due <= patience /\ a' = with_state a (Busy due (Stored i data))) Hw H1).
  - intros _. by apply stable_flight.
  - intros w n e [[Hv _] _]. apply data_out_law; [done|by rewrite Hv|done].
  - intros a n e a1 [] a2 [[-> ->] ->] Hp (due & Hd & ->). apply passes_quiet in Hp; [|unfold busy; by rewrite Hs]. subst a1.
    split; [done|]. left. by exists due.
Qed.

(** *** Reading and writing *)

Lemma wp_set K s P f (f' : channel) : (forall n e, f (chan K n e) = chan f' n e) -> inv K P s -> wp (set_channel c f) s (fun _ s' => inv f' P s').
Proof.
  intros Hf (a & n & e & Ha & Hp). destruct (run_set_channel K s a n e f Ha) as (s' & E & Hch & Hhw & Hon & Hrg). exists tt, s'. split; [done|].
  exists a, n, e. split; [|done]. destruct Ha. split; [by rewrite Hch, Hf|by rewrite Hhw|by rewrite Hhw|by rewrite Hon|by rewrite Hrg].
Qed.

Lemma wp_acquire K P s : lock K = false -> inv K P s -> wp (lock_acquire c) s (fun _ s' => inv (with_lock true K) P s').
Proof.
  intros Hl Hi. unfold lock_acquire. destruct (run_get _ _ _ Hi) as (ch & Hg & _ & _ & Hlk). eapply wp_step; [exact Hg|].
  eapply wp_step; [unfold assert_, lift, ASSERT; by rewrite Hlk, Hl|]. by apply (wp_set K).
Qed.

Lemma wp_release K P s : lock K = false -> inv (with_lock true K) P s -> wp (lock_release c) s (fun _ s' => inv K P s').
Proof.
  intros Hl Hi. unfold lock_release. destruct (run_get _ _ _ Hi) as (ch & Hg & _ & _ & Hlk). eapply wp_step; [exact Hg|].
  eapply wp_step; [unfold assert_, lift, ASSERT; by rewrite Hlk|]. apply (wp_set (with_lock true K)); [|done]. intros n e.
  destruct K. cbn in *. by subst.
Qed.

Lemma stable_expecting A : busy A = false -> intrq A = false -> stable (fun a n e => rests A a n e /\ e = true).
Proof.
  intros Hb Hi. destruct (stable_rests A Hb Hi) as [H1 H2 H3]. split.
  - intros a n e a' [] Hp. eauto.
  - intros a n e [[-> ->] ->]. congruence.
  - intros a n e [Hp _]. eauto.
Qed.

(** [wait_while_busy] of a device that is not busy. *)
Lemma wp_wait_ready K A d dk s : wired K -> devices K !! d = Some dk -> busy A = false -> intrq A = false -> inv K (fun a n e => rests A a n e /\ e = true) s ->
  wp (wait_while_busy deliver c d) s (fun v s' => v = drq A /\ inv K (fun a n e => rests A a n e /\ e = true) s').
Proof.
  intros Hw Hd Hb Hi H1. eapply wp_mono; [apply (wp_wait_while_busy K (fun _ a n e => rests A a n e /\ e = true) (drq A) d dk Hw Hd) with (B := 0)|].
  - intros _. by apply stable_expecting.
  - intros B a n e [[-> _] _] _. done.
  - intros B a n e a' [[-> ->] ->] Hp. by rewrite (passes_quiet _ _ _ Hb Hp).
  - intros B a n e [[-> _] _] _. done.
  - done.
  - done.
  - intros v s' [-> (B & Hs')]. split; [done|]. eapply inv_mono; [exact Hs'|]. by intros a n e [].
Qed.

(** [wait_while_busy] until the device takes data. *)
Lemma wp_wait_take K A i d dk s : wired K -> devices K !! d = Some dk -> intrq A = false -> inv K (inflight A (TakeData i) patience) s ->
  wp (wait_while_busy deliver c d) s (fun v s' => v = true /\ inv K (fun a n e => rests (done_with A (TakeData i)) a n e /\ e = true) s').
Proof.
  intros Hw Hd Hi H1. eapply wp_mono; [apply (wp_wait_while_busy K (inflight A (TakeData i)) true d dk Hw Hd) with (B := patience)|].
  - intros B. by apply stable_flight.
  - intros B a n e. apply flight_due.
  - intros B a n e a' Hp Hps. by eapply passes_flight.
  - intros B a n e [_ [(due & _ & -> & _)|(k & -> & _)]] Hb; [done|]. done.
  - done.
  - done.
  - intros v s' [-> (B & Hs')]. split; [done|]. eapply inv_mono; [exact Hs'|].
    intros a n e [[-> [(due & _ & -> & _)|(k & -> & Hn & Hk)]] Hb]; [done|]. split; [|done]. destruct k; cbn in Hk; [lia|]. split; [done|lia].
Qed.

Lemma idle_eta X p : state X = Idle -> intrq X = false -> with_state (with_intrq (with_state X p) false) Idle = X.
Proof. destruct X. cbn. by intros -> ->. Qed.

Lemma idle_eta_media X p m : state X = Idle -> intrq X = false ->
  with_intrq (with_state (with_media (with_intrq (with_state X p) false) m) Idle) false = with_media X m.
Proof. destruct X. cbn. by intros -> ->. Qed.

(** The part of [identify_ata_device] that talks to the disk, and then [k]. *)
Lemma wp_identify {B} K A d dk s (fail : ST (ide W) B) (k : list Z -> ST (ide W) B) Q : wired K -> devices K !! d = Some dk -> dev_no dk = Z.of_nat d -> (d < 2)%nat ->
  state A = Idle -> intrq A = false -> length (identity A d) = 512%nat -> inv K (rests A) s ->
  (forall s', inv K (rests (set_reg A 6 (device_byte d 0))) s' -> wp (k (identity A d)) s' Q) ->
  wp (do! _ := select_device_wait deliver c d in
      do! _ := issue_pio_command deliver c CMD_IDENTIFY_DEVICE in
      do! _ := sema_down c in
      do! drq := wait_while_busy deliver c d in
      if negb drq then fail else do! id := input_sector deliver c in k id) s Q.
Proof.
  intros Hw Hd Hno Hd2 Hs Hi Hlen H1 Hk. set (A1 := set_reg A 6 (device_byte d 0)) in *.
  eapply wp_bind; [by eapply wp_select_device_wait|]. intros [] s1 H2. fold A1 in H2. set (data := identity A d) in *.
  assert (Hacc : accepts A1 CMD_IDENTIFY_DEVICE = Some (SendData data)).
  { unfold accepts, selected. destruct d as [|[|d]]; [done|done|lia]. }
  eapply wp_bind; [apply (wp_issue K A1 s1 _ (SendData data) Hw Hs Hi Hacc); done|]. intros [] s2 H3.
  eapply wp_bind; [by apply (wp_sema_down K A1 (SendData data) patience s2 Hw Hi)|]. intros [] s3 H4.
  eapply wp_bind; [by apply (wp_wait_ready K (done_with A1 (SendData data)) d dk s3 Hw Hd)|]. intros v s4 [-> H5]. cbn [drq done_with settled with_intrq with_state state negb].
  eapply wp_bind; [apply (wp_input K (done_with A1 (SendData data)) data s4 Hw); [done|done|done|]|].
  { eapply inv_mono; [exact H5|]. by intros a n e []. }
  intros v s6 [-> H7]. apply Hk. eapply inv_mono; [exact H7|]. intros a n e [-> ->]. split; [|done]. by apply idle_eta.
Qed.

Section transfer.
Context (K : channel) (A : ata) (d : nat) (dk : ata_disk) (i : Z).
Context (Hw : wired K) (Hlock : lock K = false) (Hd : devices K !! d = Some dk) (Hno : dev_no dk = Z.of_nat d) (Hd2 : (d < 2)%nat).
Context (Hs : state A = Idle) (Hi : intrq A = false) (Hsec : 0 <= i < 268435456) (Hsize : i < msize A d).

Lemma accepts_addressed cmd next : (cmd =? CMD_IDENTIFY_DEVICE) = false ->
  (if cmd =? CMD_READ_SECTOR_RETRY then Some (SendData (media A d i)) else if cmd =? CMD_WRITE_SECTOR_RETRY then Some (TakeData i) else None) = Some next ->
  accepts (addressed A d i) cmd = Some next.
Proof.
  intros Hc1 Hn. destruct (addressed_facts A d i Hd2 Hsec) as (E1 & E2 & E3 & E4). unfold accepts. rewrite Hc1, E1, E2, E3, E4.
  change (msize (addressed A d i)) with (msize A). change (media (addressed A d i)) with (media A). by destruct (Z.ltb_spec i (msize A d)); [|lia].
Qed.

Lemma wp_ide_read s : length (media A d i) = 512%nat -> inv K (rests A) s ->
  wp (ide_read deliver c d i) s (fun v s' => v = media A d i /\ inv K (rests (addressed A d i)) s').
Proof.
  intros Hlen H1. unfold ide_read. eapply wp_bind; [by eapply wp_acquire|]. intros [] s1 H2. set (K1 := with_lock true K) in *.
  assert (Hw1 : wired K1) by done. eapply wp_bind; [by eapply (wp_select_sector K1 A d dk i)|]. intros [] s2 H3.
  set (A1 := addressed A d i) in *. set (data := media A d i) in *.
  eapply wp_bind; [apply (wp_issue K1 A1 s2 _ (SendData data) Hw1 Hs Hi); [by apply accepts_addressed|done|done]|]. intros [] s3 H4.
  eapply wp_bind; [by apply (wp_sema_down K1 A1 (SendData data) patience s3 Hw1 Hi)|]. intros [] s4 H5.
  eapply wp_bind; [by apply (wp_wait_ready K1 (done_with A1 (SendData data)) d dk s4 Hw1 Hd)|]. intros v s5 [-> H6]. cbn [drq done_with settled with_intrq with_state state].
  eapply wp_bind; [apply (wp_input K1 (done_with A1 (SendData data)) data s5 Hw1); [done|done|done|]|].
  { eapply inv_mono; [exact H6|]. by intros a n e []. }
  intros v s6 [-> H7]. eapply wp_bind; [eapply (wp_release K _ s6 Hlock); exact H7|]. intros [] s7 H8. apply wp_ret. split; [done|]. eapply inv_mono; [exact H8|].
  intros a n e [-> ->]. split; [|done]. by apply idle_eta.
Qed.

Lemma wp_ide_write s data : length data = 512%nat -> inv K (rests A) s ->
  wp (ide_write deliver c d i data) s (fun _ s' => inv K (rests (with_media (addressed A d i) (store (media A) d i data))) s').
Proof.
  intros Hlen H1. unfold ide_write. eapply wp_bind; [by eapply wp_acquire|]. intros [] s1 H2. set (K1 := with_lock true K) in *.
  assert (Hw1 : wired K1) by done. eapply wp_bind; [by eapply (wp_select_sector K1 A d dk i)|]. intros [] s2 H3.
  set (A1 := addressed A d i) in *.
  eapply wp_bind; [apply (wp_issue K1 A1 s2 _ (TakeData i) Hw1 Hs Hi); [by apply accepts_addressed|done|done]|]. intros [] s3 H4.
  eapply wp_bind; [by apply (wp_wait_take K1 A1 i d dk s3 Hw1 Hd)|]. intros v s4 [-> H5].
  eapply wp_bind; [by apply (wp_output K1 (done_with A1 (TakeData i)) i data s4 Hw1)|]. intros [] s5 H6.
  eapply wp_bind; [by apply (wp_sema_down K1 (done_with A1 (TakeData i)) (Stored i data) patience s5 Hw1)|]. intros [] s6 H7.
  eapply wp_mono; [eapply (wp_release K _ s6 Hlock); exact H7|]. intros [] s7 H8. eapply inv_mono; [exact H8|].
  intros a n e [[-> ->] _]. split; [|done]. destruct (addressed_facts A d i Hd2 Hsec) as (E & _). fold A1 in E.
  unfold done_with, settled, selected in *. cbn [with_intrq with_state with_media device_reg media state] in *. rewrite E.
  by rewrite idle_eta_media.
Qed.
End transfer.
End run.

(** ** Both channels *)

Record channel_ok (c : nat) (ch : channel) (a : ata) : Prop := mkChannelOk {
  co_base : reg_base ch = base c;
  co_irq : irq ch = line c;
  co_lock : lock ch = false;
  co_wait : completion_wait ch = 0;
  co_state : state a = Idle;
  co_intrq : intrq a = false;
  co_disks d : (d < 2)%nat -> exists dk, devices ch !! d = Some dk /\ dev_no dk = Z.of_nat d;
  co_size d : msize a d <= 268435456;
  co_sectors d i : 0 <= i < msize a d -> length (media a d i) = 512%nat
}.

Section disks.
Context {W : Type} `{AtaLaws W} (deliver : nat -> bool).
Implicit Types s : ide W.

(** The driver between two calls. *)
Definition ready (s : ide W) : Prop :=
  intr_on s = true /\ exists ch0 ch1, channels s = [ch0; ch1] /\ channel_ok 0 ch0 (view (hw s) 0) /\ channel_ok 1 ch1 (view (hw s) 1).

(** What sector [i] of the disk [d] of channel [c] holds. *)
Definition content (s : ide W) (c d : nat) (i : Z) : list Z := media (view (hw s) c) d i.
Definition sectors_of (s : ide W) (c d : nat) : Z := msize (view (hw s) c) d.

Lemma ready_at s c : ready s -> (c < 2)%nat -> exists K o,
  channel_ok c K (view (hw s) c) /\ channel_ok (other c) o (view (hw s) (other c)) /\ wired c o K /\
  inv c o (view (hw s) (other c)) (registered s) K (rests (view (hw s) c)) s.
Proof.
  intros (Hon & ch0 & ch1 & Hch & H0' & H1') Hc.
  assert (Hchan : forall K, completion_wait K = 0 -> chan K 0 (expecting_interrupt K) = K) by (intros []; cbn; by intros ->).
  destruct (decide (c = 0%nat)) as [->|Hne]; [exists ch0, ch1|assert (c = 1%nat) as -> by lia; exists ch1, ch0].
  all: split; [done|]; split; [done|]; split; [by destruct H0', H1'|].
  - exists (view (hw s) 0%nat), 0, (expecting_interrupt ch0). split; [|done]. split; try done. unfold both. cbn. by rewrite Hchan by apply H0'.
  - exists (view (hw s) 1%nat), 0, (expecting_interrupt ch1). split; [|done]. split; try done. unfold both. cbn. by rewrite Hchan by apply H1'.
Qed.

Lemma at_ready s' c K o oa R A : (c < 2)%nat -> channel_ok c K A -> channel_ok (other c) o oa -> inv c o oa R K (rests A) s' ->
  ready s' /\ view (hw s') c = A /\ view (hw s') (other c) = oa /\ registered s' = R.
Proof.
  intros Hc HK Ho (a & n & e & [Hch Hv Hvo Hon Hrg] & -> & ->). split; [|done]. split; [done|]. unfold both in Hch.
  assert (HK' : channel_ok c (chan K 0 e) A) by (destruct HK; by split).
  destruct (decide (c = 0%nat)) as [->|Hne]; [|assert (c = 1%nat) as -> by lia]; cbn in Hch, Hvo, Ho; subst oa; subst A; eexists _, _; (split; [exact Hch|by split]).
Qed.

(** A call on the disk [d] of [c] that leaves [A] there. *)
Lemma ready_after s s' c K o R A : (c < 2)%nat -> channel_ok c K A -> channel_ok (other c) o (view (hw s) (other c)) ->
  inv c o (view (hw s) (other c)) R K (rests A) s' -> msize A = msize (view (hw s) c) ->
  ready s' /\ (forall d' j, content s' c d' j = media A d' j) /\
  (forall c' d', (c' < 2)%nat -> sectors_of s' c' d' = sectors_of s c' d') /\
  (forall c' d' j, (c' < 2)%nat -> c' <> c -> content s' c' d' j = content s c' d' j).
Proof.
  intros Hc HK Ho Hinv Hm. destruct (at_ready s' c K o _ R A Hc HK Ho Hinv) as (Hr & Ev & Evo & _). unfold content, sectors_of. split_and!; [done|by intros; rewrite Ev|..].
  - intros c' d' Hc'. destruct (decide (c' = c)) as [->|Hne]; [by rewrite Ev, Hm|]. assert (c' = other c) as -> by (unfold other; lia). by rewrite Evo.
  - intros c' d' j Hc' Hne. assert (c' = other c) as -> by (unfold other; lia). by rewrite Evo.
Qed.

(** C17: For every schedule of the interrupts, a sector of a disk is read as
    it is, nothing on any of the four disks changes, the call returns (no
    wait is endless or times out) and the driver is ready for the next one. *)
Theorem ide_read_correct s c d i :
  ready s -> (c < 2)%nat -> (d < 2)%nat -> 0 <= i < sectors_of s c d ->
  exists s', ide_read deliver c d i s = Ret (content s c d i, s') /\ ready s' /\
    (forall c' d', (c' < 2)%nat -> sectors_of s' c' d' = sectors_of s c' d') /\
    (forall c' d' j, (c' < 2)%nat -> content s' c' d' j = content s c' d' j).
Proof.
  intros Hrd Hc Hd Hi. destruct (ready_at s c Hrd Hc) as (K & o & HK & Ho & Hw & H1). set (A := view (hw s) c) in *. destruct (co_disks _ _ _ HK d Hd) as (dk & Hdk & Hno).
  pose proof (co_size _ _ _ HK d) as Hsz. unfold sectors_of in Hi. fold A in Hi.
  destruct (wp_ide_read deliver c Hc o _ (co_state _ _ _ Ho) (co_intrq _ _ _ Ho) _ K A d dk i Hw (co_lock _ _ _ HK) Hdk Hno Hd (co_state _ _ _ HK)
    (co_intrq _ _ _ HK) ltac:(lia) ltac:(lia) s (co_sectors _ _ _ HK d i Hi) H1) as (v & s' & E & -> & H2).
  exists s'. split; [exact E|]. destruct (ready_after s s' c K o (registered s) (addressed A d i) Hc) as (R1 & R2 & R3 & R4); [by destruct HK|done|done|done|].
  split_and!; try done. intros c' d' j Hc'. destruct (decide (c' = c)) as [->|Hne]; [|by apply R4]. by rewrite R2.
Qed.

(** C16: A write stores the sector and changes no other sector of any disk,
    for every schedule of the interrupts. *)
Theorem ide_write_correct s c d i data :
  ready s -> (c < 2)%nat -> (d < 2)%nat -> 0 <= i < sectors_of s c d -> length data = 512%nat ->
  exists s', ide_write deliver c d i data s = Ret (tt, s') /\ ready s' /\
    (forall c' d', (c' < 2)%nat -> sectors_of s' c' d' = sectors_of s c' d') /\
    (forall c' d' j, (c' < 2)%nat -> content s' c' d' j = if bool_decide (c' = c /\ d' = d) && (j =? i) then data else content s c' d' j).
Proof.
  intros Hrd Hc Hd Hi Hlen. destruct (ready_at s c Hrd Hc) as (K & o & HK & Ho & Hw & H1). set (A := view (hw s) c) in *. destruct (co_disks _ _ _ HK d Hd) as (dk & Hdk & Hno).
  pose proof (co_size _ _ _ HK d) as Hsz. unfold sectors_of in Hi. fold A in Hi.
  destruct (wp_ide_write deliver c Hc o _ (co_state _ _ _ Ho) (co_intrq _ _ _ Ho) _ K A d dk i Hw (co_lock _ _ _ HK) Hdk Hno Hd (co_state _ _ _ HK)
    (co_intrq _ _ _ HK) ltac:(lia) ltac:(lia) s data Hlen H1) as ([] & s' & E & H2).
  exists s'. split; [exact E|]. set (A' := with_media (addressed A d i) (store (media A) d i data)) in *.
  assert (HK' : channel_ok c K A').
  { destruct HK as [? ? ? ? ? ? ? ? Hsec]. split; try done. intros d' j Hj. cbn. unfold store. destruct (_ && _); [done|by apply Hsec]. }
  destruct (ready_after s s' c K o (registered s) A' Hc HK' Ho H2 eq_refl) as (R1 & R2 & R3 & R4).
  split_and!; try done. intros c' d' j Hc'. destruct (decide (c' = c)) as [->|Hne].
  - rewrite R2. cbn. unfold store, content. fold A. repeat case_bool_decide; naive_solver.
  - rewrite R4 by done. rewrite bool_decide_false; [done|]. by intros [].
Qed.

(** What [identify_ata_device] puts into [extra_info]. *)
Definition extra_of (id : list Z) : list Z :=
  firstn 127 (chars "model " ++ [34] ++ descramble_ata_string (drop 20 id) 20 ++ [34] ++ chars ", serial " ++ [34] ++ descramble_ata_string (drop 54 id) 40 ++ [34]).

Lemma length_rtrim l : (length (rtrim l) <= length l)%nat.
Proof. induction l as [|a l IH]; cbn; [lia|]. destruct (rtrim l); cbn in *; [destruct (a =? 32); cbn; lia|lia]. Qed.

Lemma extra_of_texts id ser mdl : ata_text id 10 20 ser -> ata_text id 27 40 mdl ->
  extra_of id = chars "model " ++ [34] ++ rtrim (take 19 ser) ++ [34] ++ chars ", serial " ++ [34] ++ rtrim (take 39 mdl) ++ [34].
Proof.
  intros Hs Hm. unfold extra_of. change (drop 20 id) with (drop (2 * 10) id). change (drop 54 id) with (drop (2 * 27) id).
  rewrite (descramble_text id 10 20 ser), (descramble_text id 27 40 mdl); [|by exists 20%nat|lia|done|by exists 10%nat|lia|done]. apply take_ge.
  pose proof (length_rtrim (take 19 ser)) as H1. pose proof (length_rtrim (take 39 mdl)) as H2. rewrite length_take in H1, H2. rewrite !length_app. cbn [length chars]. 
  change (length (chars "model ")) with 6%nat. change (length (chars ", serial ")) with 9%nat. cbn [Nat.sub] in *. lia.
Qed.

Lemma get_disk_ready s c d : ready s -> (c < 2)%nat -> (d < 2)%nat -> exists dk, get_disk c d s = Ret (dk, s) /\ dev_no dk = Z.of_nat d.
Proof.
  intros Hr Hc Hd. destruct (ready_at s c Hr Hc) as (K & o & HK & Ho & Hw & H1). destruct (co_disks _ _ _ HK d Hd) as (dk & Hdk & Hno).
  exists dk. split; [|done]. by eapply run_get_disk.
Qed.

Lemma set_disk_ready s c d f : ready s -> (c < 2)%nat -> (d < 2)%nat -> (forall x, dev_no (f x) = dev_no x) ->
  exists s' dk, set_disk c d f s = Ret (tt, s') /\ ready s' /\ get_disk c d s = Ret (dk, s) /\ get_disk c d s' = Ret (f dk, s') /\
    hw s' = hw s /\ registered s' = registered s.
Proof.
  intros (Hon & ch0 & ch1 & Hch & H0' & H1') Hc Hd Hf.
  assert (Hok : forall c ch a, channel_ok c ch a -> exists dk, devices ch !! d = Some dk /\ channel_ok c (with_devices (<[d := f dk]> (devices ch)) ch) a).
  { intros c' ch a [? ? ? ? ? ? Hds ? ?]. destruct (Hds d Hd) as (dk & Hdk & Hno). exists dk. split; [done|]. split; try done. intros d' Hd'. cbn.
    destruct (decide (d' = d)) as [->|Hne]; [|rewrite list_lookup_insert_ne by done; by apply Hds]. exists (f dk).
    rewrite list_lookup_insert_eq by (by eapply lookup_lt_Some). split; [done|]. by rewrite Hf. }
  destruct (Hok _ _ _ H0') as (dk0 & E0 & K0), (Hok _ _ _ H1') as (dk1 & E1 & K1). unfold set_disk, get_disk, get_channel, set_channel, sbind, lift, access.
  destruct c as [|[|c]]; [| |lia]; cbn; rewrite Hch; cbn.
  - repeat (first [rewrite Hch|rewrite E0]; cbn). eexists _, dk0. split; [done|]. split; [split; [done|]; eexists _, _; (split; [done|by split])|].
    split; [done|]. split; [|done]. cbn. by rewrite list_lookup_insert_eq by (by eapply lookup_lt_Some).
  - repeat (first [rewrite Hch|rewrite E1]; cbn). eexists _, dk1. split; [done|]. split; [split; [done|]; eexists _, _; (split; [done|by split])|].
    split; [done|]. split; [|done]. cbn. by rewrite list_lookup_insert_eq by (by eapply lookup_lt_Some).
Qed.

Lemma human_unit n u : 0 <= n < 1024 -> u ∈ ["bytes"; "kB"; "MB"; "GB"; "TB"]%string ->
  exists nm, __vprintf (write_bytes (literal "%llu %s") 8192 (chars u ++ [0])) LITERAL [n mod two32; n / two32; 8192] = Ret nm.
Proof.
  set (ok := fun n u => match __vprintf (write_bytes (literal "%llu %s") 8192 (chars u ++ [0])) LITERAL [Z.of_nat n mod two32; Z.of_nat n / two32; 8192] with Ret _ => true | Err _ => false end).
  assert (Hall : forallb (fun n => forallb (ok n) ["bytes"; "kB"; "MB"; "GB"; "TB"]%string) (seq 0 1024) = true) by (vm_compute; reflexivity).
  intros Hn Hu. rewrite forallb_forall in Hall. specialize (Hall (Z.to_nat n)). rewrite forallb_forall in Hall.
  specialize (Hall ltac:(apply in_seq; lia) u ltac:(by apply list_elem_of_In)). unfold ok in Hall. rewrite Z2Nat.id in Hall by lia.
  destruct (__vprintf _ _ _) as [nm|]; [by exists nm|done].
Qed.

Lemma human_size x : 0 <= x < two32 -> exists nm, print_human_readable_size x = Ret nm.
Proof.
  intros Hx. unfold print_human_readable_size. destruct (x =? 1); [by eexists|].
  assert (Hs : exists n u, scale x "bytes" (tail factors) = (n, u) /\ 0 <= n < 1024 /\ u ∈ ["bytes"; "kB"; "MB"; "GB"; "TB"]%string).
  { unfold factors, two32 in *. cbn [tail scale]. 
    assert (forall y, 0 <= y -> 0 <= y / 1024) as Hp by (intros; apply Z.div_pos; lia).
    assert (forall y, y < 1024 * (y / 1024 + 1)) as Hq by (intros y; pose proof (Z.div_mod y 1024 ltac:(lia)); pose proof (Z.mod_pos_bound y 1024 ltac:(lia)); lia).
    assert (Hle : forall y, 0 <= y -> 1024 * (y / 1024) <= y) by (intros y _; pose proof (Z.div_mod y 1024 ltac:(lia)); pose proof (Z.mod_pos_bound y 1024 ltac:(lia)); lia).
    pose proof (Hp x ltac:(lia)) as P1. pose proof (Hp _ P1) as P2. pose proof (Hp _ P2) as P3. pose proof (Hle x ltac:(lia)). pose proof (Hle _ P1). pose proof (Hle _ P2).
    destruct (Z.leb_spec 1024 x); [|eexists _, _; split; [done|]; split; [lia|set_solver]].
    destruct (Z.leb_spec 1024 (x / 1024)); [|eexists _, _; split; [done|]; split; [lia|set_solver]].
    destruct (Z.leb_spec 1024 (x / 1024 / 1024)); [|eexists _, _; split; [done|]; split; [lia|set_solver]].
    destruct (Z.leb_spec 1024 (x / 1024 / 1024 / 1024)); [lia|eexists _, _; split; [done|]; split; [lia|set_solver]]. }
  destruct Hs as (n & u & -> & Hn & Hu). by apply human_unit.
Qed.

(** C34: [identify_ata_device] of a disk registers it with its name and the
    number of sectors that the disk gives, when this is less than a gigabyte; a
    larger disk is not registered and is no longer considered a disk.  When the
    identity data of the disk hold a serial number and a model number as the
    ATA standard stores them (printable characters, the first of a word in its
    high byte, padded with blanks), the description calls the serial number of
    the disk its model and the model number its serial, each without the blanks
    at its end and without the last character of a text that fills its field.
    Nothing on the disks changes, for every schedule of the interrupts. *)
Theorem identify_ata_device_correct s c d dk :
  ready s -> (c < 2)%nat -> (d < 2)%nat -> get_disk c d s = Ret (dk, s) -> is_ata dk = true ->
  let id := identity (view (hw s) c) d in
  length id = 512%nat ->
  exists s', identify_ata_device deliver c d s = Ret (tt, s') /\ ready s' /\
    (forall c' d', (c' < 2)%nat -> sectors_of s' c' d' = sectors_of s c' d') /\
    (forall c' d' j, (c' < 2)%nat -> content s' c' d' j = content s c' d' j) /\
    if 2097152 <=? dword id 120 then
      registered s' = registered s /\ exists dk', get_disk c d s' = Ret (dk', s') /\ is_ata dk' = false
    else exists extra_info, registered s' = registered s ++ [mkRegistration (dname dk) extra_info (dword id 120) (c, d)] /\
      forall serial_number model_number, ata_text id 10 20 serial_number -> ata_text id 27 40 model_number ->
        extra_info = chars "model " ++ [34] ++ rtrim (take 19 serial_number) ++ [34] ++ chars ", serial " ++ [34] ++ rtrim (take 39 model_number) ++ [34].
Proof.
  intros Hrd Hc Hd Hgd Hata id Hlen. destruct (ready_at s c Hrd Hc) as (K & o & HK & Ho & Hw & H1). set (A := view (hw s) c) in *.
  destruct (co_disks _ _ _ HK d Hd) as (dk1 & Hdk & Hno).
  assert (dk1 = dk) as -> by (pose proof (run_get_disk c Hc o _ _ K s _ d dk1 H1 Hdk) as E; rewrite Hgd in E; by injection E).
  unfold identify_ata_device. rewrite (sbind_run _ _ _ _ _ Hgd), sbind_assert by done.
  match goal with |- exists s', ?m s = Ret (tt, s') /\ @?Q s' => assert (Hwp : wp m s (fun _ s' => Q s')) end.
  2:{ destruct Hwp as ([] & s' & E & HQ). by exists s'. }
  apply (wp_identify deliver c Hc o _ (co_state _ _ _ Ho) (co_intrq _ _ _ Ho) _ K A d dk s _ _ _ Hw Hdk Hno Hd (co_state _ _ _ HK) (co_intrq _ _ _ HK) Hlen H1).
  intros s1 H2. fold id. cbv beta zeta.
  set (A1 := set_reg A 6 (device_byte d 0)) in *. assert (HK1 : channel_ok c K A1) by (by destruct HK).
  destruct (ready_after s s1 c K o (registered s) A1 Hc HK1 Ho H2 eq_refl) as (R1 & R2 & R3 & R4).
  assert (Hreg : registered s1 = registered s) by (by destruct (at_ready s1 c K o _ (registered s) A1 Hc HK1 Ho H2) as (_ & _ & _ & ?)).
  assert (Hct : forall c' d' j, (c' < 2)%nat -> content s1 c' d' j = content s c' d' j).
  { intros c' d' j Hc'. destruct (decide (c' = c)) as [->|Hne]; [by rewrite R2|by apply R4]. }
  change (1073741824 / BLOCK_SECTOR_SIZE) with 2097152. destruct (2097152 <=? dword id 120).
  - destruct (human_size (u32 (dword id 120 * 512)) (u32_range _)) as (nm & E). eapply wp_step; [unfold lift; by rewrite E|]. eapply wp_step; [done|].
    match goal with |- wp _ ?s2 _ => destruct (set_disk_ready s2 c d (with_is_ata false)) as (s3 & dk3 & E3 & R & _ & G & Hh & Hr) end; [done|done|done|done|].
    exists tt, s3. split; [exact E3|]. split; [done|]. unfold sectors_of, content in *. rewrite Hh. split; [done|]. split; [done|]. rewrite Hr. split; [done|]. by eexists.
  - eexists tt, _. split; [done|]. split; [exact R1|]. split; [exact R3|]. split; [exact Hct|]. exists (extra_of id). split; [cbn; by rewrite Hreg|]. apply extra_of_texts.
Qed.
End disks.

(** ** The interface to the block layer *)

(** A disk as the block layer has it: the driver, the schedule of its
    interrupts, and the channel and the number of the disk. *)
Record ide_dev (W : Type) : Type := mkDev {
  world : ide W;
  schedule : nat -> bool;
  where_ : nat * nat
}.
Arguments mkDev {W} _ _ _. Arguments world {W} _. Arguments schedule {W} _. Arguments where_ {W} _.

Definition dev_run {W A} (d : ide_dev W) (m : ST (ide W) A) : outcome (A * ide_dev W) :=
  match m (world d) with Ret (v, s) => Ret (v, mkDev s (schedule d) (where_ d)) | Err e => Err e end.

#[export] Instance ide_operations (W : Type) `{Ports W} : RawDriver (ide_dev W) := {
  raw_read i := fun d => dev_run d (ide_read (schedule d) (fst (where_ d)) (snd (where_ d)) i);
  raw_write i b := fun d => dev_run d (ide_write (schedule d) (fst (where_ d)) (snd (where_ d)) i b)
}.

#[export] Program Instance ide_laws (W : Type) `{AtaLaws W} : DriverLaws (ide_dev W) := {
  driver_ok d := ready (world d) /\ (fst (where_ d) < 2)%nat /\ (snd (where_ d) < 2)%nat;
  capacity d := sectors_of (world d) (fst (where_ d)) (snd (where_ d));
  sectors d i := content (world d) (fst (where_ d)) (snd (where_ d)) i
}.
Next Obligation.
  intros W ?? [s f [c k]] i (Hr & Hc & Hk) Hi. cbn in *. destruct (ide_read_correct f s c k i Hr Hc Hk Hi) as (s' & E & Hr' & Hsz & Hct).
  exists (mkDev s' f (c, k)). unfold dev_run. cbn. rewrite E. split_and!; try done; [by apply Hsz|intros j; by apply Hct].
Qed.
Next Obligation.
  intros W ?? [s f [c k]] i b (Hr & Hc & Hk) Hi Hb. cbn in *. destruct (ide_write_correct f s c k i b Hr Hc Hk Hi Hb) as (s' & E & Hr' & Hsz & Hct).
  exists (mkDev s' f (c, k)). unfold dev_run. cbn. rewrite E. split_and!; try done; [by apply Hsz|]. intros j. rewrite Hct by done. by rewrite bool_decide_true.
Qed.

(** ** A simulated machine *)

Definition advance (t : Z) (a : ata) : ata :=
  match state a with
  | Busy due next => if 0 <? due - t then with_state a (Busy (due - t) next) else complete next a
  | _ => a
  end.

Definition finish (a : ata) : ata := match state a with Busy _ next => complete next a | _ => a end.

Definition pick (c : nat) (w : ata * ata) : ata := if bool_decide (c = 0%nat) then fst w else snd w.

(** An access takes a microsecond. *)
Definition sim_op {A} (c : nat) (f : ata -> outcome (A * ata)) : ST (ata * ata) A := fun '(a0, a1) =>
  let w := (advance 1000 a0, advance 1000 a1) in
  let! r := f (pick c w) in
  Ret (fst r, if bool_decide (c = 0%nat) then (snd r, snd w) else (fst w, snd r)).

Definition decode (p : Z) : option (nat * Z) :=
  if ((496 <=? p) && (p <=? 503)) || (p =? 1014) then Some (0%nat, p - 496)
  else if ((368 <=? p) && (p <=? 375)) || (p =? 886) then Some (1%nat, p - 368)
  else None.

Definition sim_status (a : ata) : Z := if busy a then 128 else if drq a then 72 else 64.

Definition sim_in (k : Z) (a : ata) : outcome (Z * ata) :=
  if k =? 7 then Ret (sim_status a, with_intrq a false)
  else if k =? 518 then Ret (sim_status a, a)
  else if k =? 1 then Ret (1, a)
  else if k =? 2 then Ret (nsect_reg a, a)
  else if k =? 3 then Ret (lbal_reg a, a)
  else if k =? 4 then Ret (lbam_reg a, a)
  else if k =? 5 then Ret (lbah_reg a, a)
  else Err BadAccess.

(** A soft reset puts the signature of a disk into the registers. *)
Definition sim_out (k v : Z) (a : ata) : outcome (unit * ata) :=
  if k =? 7 then
    match accepts a v with Some next => Ret (tt, with_state (with_intrq a false) (Busy 500000 next)) | None => Err BadAccess end
  else if k =? 518 then
    Ret (tt, if Z.testbit v 2 then mkAta 0 1 1 0 0 Idle false (media a) (msize a) (identity a) else a)
  else Ret (tt, set_reg a k v).

Definition sim_insw (k : Z) (a : ata) : outcome (list Z * ata) :=
  match state a with DataIn data => Ret (data, with_state a Idle) | _ => Err BadAccess end.
Definition sim_outsw (data : list Z) (a : ata) : outcome (unit * ata) :=
  match state a with DataOut i => Ret (tt, with_state a (Busy 500000 (Stored i data))) | _ => Err BadAccess end.

Definition at_port {A} (p : Z) (f : Z -> ata -> outcome (A * ata)) : ST (ata * ata) A :=
  match decode p with Some (c, k) => sim_op c (f k) | None => stop BadAccess end.

#[export] Instance sim_ports : Ports (ata * ata) := {
  hw_inb p := at_port p sim_in;
  hw_outb p v := at_port p (fun k => sim_out k v);
  hw_insw p cnt := at_port p sim_insw;
  hw_outsw p cnt data := at_port p (fun _ => sim_outsw data);
  hw_sleep ns := fun '(a0, a1) => Ret (tt, (advance ns a0, advance ns a1));
  hw_halt v := fun '(a0, a1) => let w := (finish a0, finish a1) in
    if intrq (pick (Z.to_nat (v - 46)) w) then Ret (tt, w) else Err NoFuel;
  irq_line w v := intrq (pick (Z.to_nat (v - 46)) w)
}.

Lemma advance_passes t t' a : t' <= t -> passes t' a (advance t a).
Proof.
  intros Ht. unfold passes, advance. destruct (state a) as [|due next|d|i]; try done. destruct (Z.ltb_spec 0 (due - t)); [|by right].
  left. exists (due - t). split; [lia|done].
Qed.

Lemma pick_0 (w : ata * ata) : pick 0 w = fst w.
Proof. done. Qed.
Lemma pick_1 (w : ata * ata) : pick 1 w = snd w.
Proof. done. Qed.

Lemma finish_passes t a : passes t a (finish a).
Proof. unfold passes, finish. destruct (state a); [done|by right|done|done]. Qed.

Lemma sim_effect {A} c (f : ata -> outcome (A * ata)) (w : ata * ata) (post : ata -> A -> ata -> Prop) : (c < 2)%nat ->
  (exists v a', f (advance 1000 (pick c w)) = Ret (v, a') /\ post (advance 1000 (pick c w)) v a') ->
  effect (fun w c => pick c w) c (sim_op c f) w post.
Proof.
  intros Hc (v & a' & Hf & Hpost). destruct w as [a0 a1]. unfold effect, sim_op.
  destruct c as [|[|c]]; [| |lia]; rewrite ?pick_0, ?pick_1 in *; cbn [fst snd] in *.
  - change (bool_decide (0%nat = 0%nat)) with true. cbn iota. rewrite ?pick_0. cbn [fst snd obind]. rewrite Hf. cbn [obind fst snd]. eexists v, _, _. split; [done|].
    change (other 0) with 1%nat. rewrite ?pick_0, ?pick_1. split; [by apply (advance_passes 1000)|]. split; [exact Hpost|]. by apply (advance_passes 1000).
  - change (bool_decide (1%nat = 0%nat)) with false. cbn iota. rewrite ?pick_1. cbn [fst snd obind]. rewrite Hf. cbn [obind fst snd]. eexists v, _, _. split; [done|].
    change (other 1) with 0%nat. rewrite ?pick_0, ?pick_1. split; [by apply (advance_passes 1000)|]. split; [exact Hpost|]. by apply (advance_passes 1000).
Qed.

Lemma decode_base c k : (c < 2)%nat -> 0 <= k <= 7 \/ k = 518 -> decode (base c + k) = Some (c, k).
Proof.
  intros Hc Hk. unfold decode, base. destruct c as [|[|c]]; [| |lia]; cbn [bool_decide]; rewrite ?bool_decide_true, ?bool_decide_false by done.
  - destruct (Z.leb_spec 496 (496 + k)), (Z.leb_spec (496 + k) 503), (Z.eqb_spec (496 + k) 1014); try lia; cbn [andb orb]; repeat f_equal; lia.
  - destruct (Z.leb_spec 496 (368 + k)), (Z.leb_spec (368 + k) 503), (Z.eqb_spec (368 + k) 1014), (Z.leb_spec 368 (368 + k)), (Z.leb_spec (368 + k) 375), (Z.eqb_spec (368 + k) 886);
      try lia; cbn [andb orb]; repeat f_equal; lia.
Qed.

Lemma at_port_base {A} c k (f : Z -> ata -> outcome (A * ata)) : (c < 2)%nat -> 0 <= k <= 7 \/ k = 518 -> at_port (base c + k) f = sim_op c (f k).
Proof.
  intros Hc Hk. unfold at_port. by rewrite decode_base.
Qed.

Lemma sim_busy a : state a = Idle -> advance 1000 a = a.
Proof. unfold advance. by intros ->. Qed.

Lemma sim_status_of a : status_of a (sim_status a).
Proof. unfold status_of, sim_status. by destruct (busy a), (drq a). Qed.

#[export] Program Instance sim_laws : AtaLaws (ata * ata) := {
  view w c := pick c w
}.
Next Obligation. intros w c Hc. destruct c as [|[|c]]; [done|done|lia]. Qed.
Next Obligation.
  intros w c Hc. cbn. rewrite at_port_base by (done || lia). apply sim_effect; [done|]. eexists _, _. split; [done|]. split; [apply sim_status_of|done].
Qed.
Next Obligation.
  intros w c Hc. cbn. rewrite at_port_base by (done || lia). apply sim_effect; [done|]. eexists _, _. split; [done|]. split; [apply sim_status_of|done].
Qed.
Next Obligation.
  intros w c k v Hc Hk Hv Hs. cbn. rewrite at_port_base by (done || lia). apply sim_effect; [done|]. unfold sim_out.
  destruct (Z.eqb_spec k 7); [lia|]. destruct (Z.eqb_spec k 518); [lia|]. by eexists _, _.
Qed.
Next Obligation.
  intros w c v next Hc Hs Ha. cbn in *. rewrite at_port_base by (done || lia). apply sim_effect; [done|]. cbn. rewrite (sim_busy _ Hs), Ha.
  eexists _, _. split; [done|]. exists 500000. done.
Qed.
Next Obligation.
  intros w c data Hc Hs Hl. cbn in *. rewrite at_port_base by (done || lia). apply sim_effect; [done|]. unfold sim_insw, advance. rewrite Hs, Hs. by eexists _, _.
Qed.
Next Obligation.
  intros w c i data Hc Hs Hl. cbn in *. rewrite at_port_base by (done || lia). apply sim_effect; [done|]. unfold sim_outsw, advance. rewrite Hs, Hs.
  eexists _, _. split; [done|]. by exists 500000.
Qed.
Next Obligation.
  intros [a0 a1] ns Hns. cbn. eexists. split; [done|]. intros c Hc. destruct c as [|[|c]]; [by apply (advance_passes ns)|by apply (advance_passes ns)|lia].
Qed.
Next Obligation.
  intros [a0 a1] c Hc Hi.
  assert (Hf : intrq (pick c (finish a0, finish a1)) = true).
  { destruct c as [|[|c]]; [| |lia]; rewrite ?pick_0, ?pick_1 in *; cbn [fst snd] in *; (destruct Hi as [Hi|(due & next & Hs & Hr)]; [by eapply (passes_intrq 0), Hi; apply finish_passes|]);
      unfold finish; rewrite Hs; cbn; by rewrite Hr. }
  exists tt, (finish a0, finish a1), (pick c (finish a0, finish a1)). split.
  { cbn -[pick line Z.sub]. replace (Z.to_nat (line c - 46)) with c by (unfold line; lia). by rewrite Hf. }
  destruct c as [|[|c]]; [| |lia]; (split; [apply finish_passes|]); (split; [by split|]); apply finish_passes.
Qed.

(** Two disks on each channel: one of four sectors that is all zeros, and one
    of two million sectors, above the limit of the driver. *)
Definition demo_identity (size : Z) : list Z :=
  replicate 54 32 ++ chars "IPTNSOD SI K" ++ replicate 54 32 ++ [size mod 256; size / 256 mod 256; size / 65536 mod 256; size / 16777216] ++ replicate 388 0.

Definition demo_ata : ata :=
  mkAta 0 0 0 0 0 Idle false (fun _ _ => replicate 512 0) (fun d => if bool_decide (d = 0%nat) then 4 else 200000000) (fun d => demo_identity (if bool_decide (d = 0%nat) then 4 else 200000000)).

Definition demo_ide : ide (ata * ata) :=
  mkIde (demo_ata, demo_ata) (replicate 2 (mkChannel [] 0 0 false false 0 [])) true 0 [] [] (mkIntrs (replicate 256 0) (replicate 256 0) (replicate 256 0) (replicate 256 0)).

(** The run of [ide_init] on this machine, with every interrupt delivered at
    the first opportunity and with none before the driver waits for it. *)
Example ide_init_demo :
  Forall (fun f => match ide_init f 4096 (fun c => 8192 + Z.of_nat c) (fun v => 65536 + v) demo_ide with
                   | Ret (_, s) => map rname (registered s) = [chars "hda"; chars "hdc"] /\ map rsize (registered s) = [4; 4] /\
                       map rextra (take 1 (registered s)) = [chars "model " ++ [34; 34] ++ chars ", serial " ++ [34] ++ chars "PINTOS DISK" ++ [34]] /\
                       notes s = [IgnoringDisk (chars "hdd") (chars "3 GB"); IgnoringDisk (chars "hdb") (chars "3 GB")]
                   | Err _ => False
                   end) [(fun _ => true); (fun _ => false)].
Proof. apply Forall_cons; (split; [vm_compute; repeat split|]); apply Forall_cons; (split; [vm_compute; repeat split|]); apply Forall_nil; done. Qed.

Definition demo_channel (c : nat) : channel :=
  mkChannel (chars "ide" ++ [48 + Z.of_nat c]) (base c) (line c) false false 0
    [mkDisk (chars "hd" ++ [97 + 2 * Z.of_nat c]) 0 true; mkDisk (chars "hd" ++ [98 + 2 * Z.of_nat c]) 1 true].

Definition demo_started : ide (ata * ata) := with_channels demo_ide [demo_channel 0; demo_channel 1].

Lemma ide_demo_ready : ready demo_started.
Proof.
  split; [done|]. exists (demo_channel 0), (demo_channel 1). split; [done|].
  assert (Hok : forall c, channel_ok c (demo_channel c) demo_ata).
  { intros c. split; try done.
    - intros [|[|d]] Hd; [by eexists|by eexists|lia].
    - intros d. cbn. by case_bool_decide. }
  split; apply Hok.
Qed.

Lemma ide_read_correct_witness :
  exists s', ide_read Nat.even 1 0 3 demo_started = Ret (replicate 512 0, s') /\ ready s'.
Proof.
  destruct (ide_read_correct Nat.even demo_started 1 0 3 ide_demo_ready) as (s' & E & Hr & _); [lia|lia|vm_compute; done|].
  exists s'. split; [exact E|exact Hr].
Defined.

Lemma ide_write_correct_witness :
  exists s', ide_write Nat.even 0 1 70000 (replicate 512 7) demo_started = Ret (tt, s') /\
    content s' 0 1 70000 = replicate 512 7 /\ content s' 0 0 3 = replicate 512 0.
Proof.
  destruct (ide_write_correct Nat.even demo_started 0 1 70000 (replicate 512 7) ide_demo_ready) as (s' & E & _ & _ & Hc); [lia|lia|vm_compute; done|done|].
  exists s'. split; [exact E|]. rewrite !Hc by lia. split; vm_compute; reflexivity.
Defined.

(** The serial number is blank and the model number is PINTOS DISK. *)
Lemma identify_ata_device_correct_witness :
  exists s', identify_ata_device Nat.even 1 0 demo_started = Ret (tt, s') /\
    registered s' = [mkRegistration (chars "hdc") (chars "model " ++ [34; 34] ++ chars ", serial " ++ [34] ++ chars "PINTOS DISK" ++ [34]) 4 (1%nat, 0%nat)].
Proof.
  destruct (identify_ata_device_correct Nat.even demo_started 1 0 (mkDisk (chars "hdc") 0 true) ide_demo_ready) as (s' & E & _ & _ & _ & Hr); [lia|lia|reflexivity|reflexivity|vm_compute; reflexivity|].
  exists s'. split; [exact E|]. assert (Hd : dword (identity (view (hw demo_started) 1) 0) 120 = 4) by (vm_compute; reflexivity). cbv zeta in Hr. rewrite Hd in Hr. cbn [Z.leb Z.compare] in Hr.
  destruct Hr as (extra & Hr & Hx). rewrite (Hx [] (chars "PINTOS DISK")) in Hr.
  - refine (eq_trans Hr _). vm_compute. reflexivity.
  - split; [cbn; lia|]. split; [constructor|]. intros i Hi. do 20 (destruct i as [|i]; [vm_compute; reflexivity|]). lia.
  - split; [cbn; lia|]. split; [repeat (apply Forall_cons; split; [split; vm_compute; discriminate|]); apply Forall_nil; exact I|].
    intros i Hi. do 40 (destruct i as [|i]; [vm_compute; reflexivity|]). lia.
Defined.

(** A partition of an ATA disk behind the block layer: what is written is read
    back, by [block_device_laws] with the laws of the driver. *)
Definition demo_ata_blocks : bstate (ide_dev (ata * ata)) :=
  mkBstate [mkBlock (chars "hda") BLOCK_RAW 4 (Disk 0) 0 0; mkBlock (chars "hda1") BLOCK_FILESYS 3 (Partition 0 1) 0 0]
    (replicate 4 None) [mkDev demo_started Nat.even (0%nat, 0%nat)] 0 [].

Lemma demo_ata_blocks_ok : blocks_ok demo_ata_blocks.
Proof.
  intros [|[|b]] x; cbn; [intros [= <-]|intros [= <-]|done]; (split; [done|]).
  - eexists. split; [done|]. split; [|done]. split; [apply ide_demo_ready|cbn; lia].
  - split; [lia|]. split; [done|]. eexists. by split_and!.
Qed.

Example ata_block_device :
  match (do! _ := block_write 1 2 (replicate 512 9) in block_read 1 2) demo_ata_blocks with
  | Ret (b, _) => b = replicate 512 9
  | Err _ => False
  end.
Proof. vm_compute. reflexivity. Qed.
