(* ===== verification/Clock.v ===== *)
(** * Clocks, the timer chip and the speaker

    [devices/rtc.c], [devices/pit.c], the calibration and the delays of
    [devices/timer.c], and [devices/speaker.c].

    The CMOS clock is a parameter: [cmos n r] is the byte in its register [r]
    at the [n]-th read.  What is written to ports is a sequence of writes.
    The tests of [too_many_loops], which compare the speed of the CPU with the
    timer interrupt, are a predicate on the number of loops. *)
From Stdlib Require Import ZArith Lia.
From stdpp Require Import prelude list.
From S2P Require Import Prelude Thread Segments.
#[local] Open Scope Z_scope.

(** ** [devices/rtc.c] *)

Definition CMOS_REG_SET : Z := 112.
Definition CMOS_REG_IO : Z := 113.
Definition RTC_REG_SEC : Z := 0.
Definition RTC_REG_MIN : Z := 2.
Definition RTC_REG_HOUR : Z := 4.
Definition RTC_REG_MDAY : Z := 7.
Definition RTC_REG_MON : Z := 8.
Definition RTC_REG_YEAR : Z := 9.

Definition bcd_to_bin (x : Z) : Z := Z.land x 15 + Z.shiftr x 4 * 10.

Definition days_per_month : list Z := [31; 28; 31; 30; 31; 30; 31; 31; 30; 31; 30; 31].

(** [for (i = 1; i <= mon; i++) time += days_per_month[i - 1] * 24 * 60 * 60;]:
    an access outside of the table is an error. *)
Definition add_months (mon time : Z) : outcome Z :=
  for_loop (Z.to_nat mon) 1 (fun i time =>
    let! d := access (days_per_month !! Z.to_nat (i - 1)) in
    Ret (u32 (time + d * 24 * 60 * 60))) time.

(** The part of [rtc_get_time] behind the reading, for the year since 1900. *)
Definition time_of (sec min hour mday mon year : Z) : outcome Z :=
  let year := if year <? 70 then year + 100 else year in
  let year := year - 70 in
  let time := u32 (s32 ((year * 365 + Z.quot (year - 1) 4) * 24 * 60 * 60)) in
  let! time := add_months mon time in
  let time := if (2 <? mon) && (Z.rem year 4 =? 0) then u32 (time + 24 * 60 * 60) else time in
  let time := u32 (time + (mday - 1) * 24 * 60 * 60) in
  let time := u32 (time + hour * 60 * 60) in
  let time := u32 (time + min * 60) in
  Ret (u32 (time + sec)).

Section rtc.
Context (cmos : nat -> Z -> Z).

(** The state counts the reads. *)
Definition cmos_read (index : Z) : ST nat Z := fun n => Ret (cmos n index, S n).

Definition read_field (r : Z) : ST nat Z := do! b := cmos_read r in sret (bcd_to_bin b).

(** The loop ends when the seconds did not change during an iteration. *)
Definition rtc_get_time : ST nat Z :=
  sloop (fun _ : unit =>
    do! sec := read_field RTC_REG_SEC in
    do! min := read_field RTC_REG_MIN in
    do! hour := read_field RTC_REG_HOUR in
    do! mday := read_field RTC_REG_MDAY in
    do! mon := read_field RTC_REG_MON in
    do! year := read_field RTC_REG_YEAR in
    do! sec' := read_field RTC_REG_SEC in
    if sec =? sec' then do! time := lift (time_of sec min hour mday mon year) in sret (inr time)
    else sret (inl tt)) tt.
End rtc.

(** ** [devices/pit.c] *)

Definition PIT_PORT_CONTROL : Z := 67.
Definition PIT_PORT_COUNTER (channel : Z) : Z := 64 + channel.
Definition PIT_HZ : Z := 1193180.

Definition pit_count (frequency : Z) : Z :=
  if frequency <? 19 then 0
  else if PIT_HZ <? frequency then 2
  else Z.quot (PIT_HZ + Z.quot frequency 2) frequency mod 65536.

(** The bytes written to ports. *)
Definition pit_configure_channel (channel mode frequency : Z) : outcome (list (Z * Z)) :=
  let! _ := ASSERT ((channel =? 0) || (channel =? 2)) in
  let! _ := ASSERT ((mode =? 2) || (mode =? 3)) in
  let count := pit_count frequency in
  Ret [(PIT_PORT_CONTROL, Z.lor (Z.lor (Z.shiftl channel 6) 48) (Z.shiftl mode 1) mod 256);
       (PIT_PORT_COUNTER channel, count mod 256);
       (PIT_PORT_COUNTER channel, Z.shiftr count 8 mod 256)].

(** ** [devices/speaker.c] *)

Definition SPEAKER_PORT_GATE : Z := 97.
Definition SPEAKER_GATE_ENABLE : Z := 3.

(** The byte at the gate port, whether interrupts are on, the writes to
    ports and the milliseconds slept, last first. *)
Inductive sound : Type := Write (port v : Z) | Sleep (ms : Z).
Record speaker : Type := mkSpeaker { gate : Z; sp_intr : bool; sounds : list sound }.

Definition emit (l : list sound) : ST speaker unit := fun s => Ret (tt, mkSpeaker (gate s) (sp_intr s) (rev l ++ sounds s)).
Definition out_gate (v : Z) : ST speaker unit := fun s =>
  Ret (tt, mkSpeaker v (sp_intr s) (Write SPEAKER_PORT_GATE v :: sounds s)).

Definition speaker_off : ST speaker unit :=
  do! s := get in
  out_gate (Z.ldiff (gate s) SPEAKER_GATE_ENABLE).

Definition speaker_on (frequency : Z) : ST speaker unit :=
  if (20 <=? frequency) && (frequency <=? 20000) then
    do! w := lift (pit_configure_channel 2 3 frequency) in
    do! _ := emit (map (fun x => Write (fst x) (snd x)) w) in
    do! s := get in
    out_gate (Z.lor (gate s) SPEAKER_GATE_ENABLE)
  else speaker_off.

Definition speaker_beep : ST speaker unit :=
  do! s := get in
  if sp_intr s then
    do! _ := speaker_on 440 in
    do! _ := emit [Sleep 250] in
    speaker_off
  else sret tt.

(** ** [devices/timer.c] *)

Definition TIMER_FREQ : Z := 100.

Section init.
Context (stubs : Z -> Z) (timer_interrupt_address name : Z).

Definition timer_init (t : intrs) : outcome (list (Z * Z) * intrs) :=
  let! w := pit_configure_channel 0 2 TIMER_FREQ in
  let! t := intr_register_ext stubs 32 timer_interrupt_address name t in
  Ret (w, t).
End init.

Definition timer_ticks : ST kernel Z :=
  do! old_level := intr_disable in
  do! k := get in
  do! _ := intr_set_level old_level in
  sret (ticks k).

Definition timer_elapsed (then_ : Z) : ST kernel Z := do! t := timer_ticks in sret (s64 (t - then_)).

(** One iteration of the loop of [timer_sleep]; [true]: the thread has
    yielded and goes on with the loop when it runs again. *)
Definition sleep_step (start n : Z) : ST kernel bool :=
  do! e := timer_elapsed start in
  if e <? n then do! _ := thread_yield in sret true else sret false.

(** [timer_sleep] up to its loop: the start. *)
Definition timer_sleep : ST kernel Z :=
  do! start := timer_ticks in
  do! on := intr_get_level in
  do! _ := assert_ on in
  sret start.

Section calibrate.
Context (too_many_loops : Z -> bool).

(** [while (!too_many_loops (loops_per_tick << 1))]; 22 shifts make the
    number 0. *)
Fixpoint double_loop (n : nat) (loops_per_tick : Z) : outcome Z :=
  if too_many_loops (u32 (Z.shiftl loops_per_tick 1)) then Ret loops_per_tick
  else match n with
       | O => Err NoFuel
       | S n' =>
           let loops_per_tick := u32 (Z.shiftl loops_per_tick 1) in
           let! _ := ASSERT (negb (loops_per_tick =? 0)) in
           double_loop n' loops_per_tick
       end.

(** [for (test_bit = high_bit >> 1; test_bit != high_bit >> 10; test_bit >>= 1)] *)
Fixpoint refine_loop (n : nat) (high_bit test_bit loops_per_tick : Z) : outcome Z :=
  if test_bit =? Z.shiftr high_bit 10 then Ret loops_per_tick
  else match n with
       | O => Err NoFuel
       | S n' =>
           let loops_per_tick := if negb (too_many_loops (Z.lor high_bit test_bit)) then Z.lor loops_per_tick test_bit else loops_per_tick in
           refine_loop n' high_bit (Z.shiftr test_bit 1) loops_per_tick
       end.

(** [loops_per_tick]; [intr_on] is the interrupt level. *)
Definition timer_calibrate (intr_on : bool) : outcome Z :=
  let! _ := ASSERT intr_on in
  let! high_bit := double_loop 32 1024 in
  refine_loop 32 high_bit (Z.shiftr high_bit 1) high_bit.
End calibrate.

(** The number of iterations of [busy_wait]. *)
Definition real_time_delay (loops_per_tick num denom : Z) : outcome Z :=
  let! _ := ASSERT (Z.rem denom 1000 =? 0) in
  Ret (Z.quot (s64 (Z.quot (s64 (loops_per_tick * num)) 1000 * TIMER_FREQ)) (Z.quot denom 1000)).

(** Sleeping for a number of ticks, or a busy loop. *)
Inductive rest : Type := SleepTicks (n : Z) | BusyLoops (n : Z).

Definition real_time_sleep (loops_per_tick : Z) (intr_on : bool) (num denom : Z) : outcome rest :=
  let n := Z.quot (s64 (num * TIMER_FREQ)) denom in
  let! _ := ASSERT intr_on in
  if 0 <? n then Ret (SleepTicks n)
  else let! l := real_time_delay loops_per_tick num denom in Ret (BusyLoops l).

Definition timer_msleep (l : Z) (on : bool) (ms : Z) : outcome rest := real_time_sleep l on ms 1000.
Definition timer_usleep (l : Z) (on : bool) (us : Z) : outcome rest := real_time_sleep l on us (1000 * 1000).
Definition timer_nsleep (l : Z) (on : bool) (ns : Z) : outcome rest := real_time_sleep l on ns (1000 * 1000 * 1000).
Definition timer_mdelay (l ms : Z) : outcome Z := real_time_delay l ms 1000.
Definition timer_udelay (l us : Z) : outcome Z := real_time_delay l us (1000 * 1000).
Definition timer_ndelay (l ns : Z) : outcome Z := real_time_delay l ns (1000 * 1000 * 1000).

(** ** The time of day *)

(** The proleptic count, for the years 1970 + [y] up to 2099. *)
Definition leap (y : Z) : bool := y mod 4 =? 2.
Definition month_length (y mon : Z) : Z :=
  nth (Z.to_nat (mon - 1)) days_per_month 0 + (if (mon =? 2) && leap y then 1 else 0).
Definition days_before_month (y mon : Z) : Z := foldr Z.add 0 (month_length y <$> seqZ 1 (mon - 1)).
Definition unix_time (y mon mday hour min sec : Z) : Z :=
  86400 * (365 * y + (y + 1) / 4 + days_before_month y mon + (mday - 1)) + 3600 * hour + 60 * min + sec.

(** The days that [rtc_get_time] counts too many: the current month, the leap
    day of a year after a common year, less the leap days that it misses. *)
Definition days_ahead (y mon : Z) : Z :=
  nth (Z.to_nat (mon - 1)) days_per_month 0 + (if (2 <? mon) && (Z.rem y 4 =? 0) then 1 else 0)
  - (if (2 <? mon) && leap y then 1 else 0) - ((y + 1) / 4 - Z.quot (y - 1) 4).

Lemma u32_add a b : u32 (u32 a + b) = u32 (a + b).
Proof. unfold u32. by rewrite Zplus_mod_idemp_l. Qed.

Lemma table_length m : (m < 12)%nat -> days_per_month !! m = Some (nth m days_per_month 0).
Proof. intros Hm. do 12 (destruct m as [|m]; [done|]). lia. Qed.

Lemma add_months_from n i t : 0 <= i -> Z.of_nat n + i <= 12 ->
  for_loop n (i + 1) (fun i time => let! d := access (days_per_month !! Z.to_nat (i - 1)) in Ret (u32 (time + d * 24 * 60 * 60))) (u32 t)
  = Ret (u32 (t + 86400 * foldr Z.add 0 ((fun j => nth (Z.to_nat (j - 1)) days_per_month 0) <$> seqZ (i + 1) (Z.of_nat n)))).
Proof.
  revert i t. induction n as [|n IH]; intros i t Hi Hn; [change (Z.of_nat 0) with 0; rewrite seqZ_nil by lia; cbn [fmap list_fmap foldr for_loop]; do 2 f_equal; lia|]. cbn [for_loop].
  replace (i + 1 - 1) with i by lia. rewrite table_length by lia. cbn [access obind]. rewrite u32_add, (IH (i + 1)) by lia.
  replace (Z.of_nat (S n)) with (Z.succ (Z.of_nat n)) by lia. rewrite (seqZ_cons (i + 1)) by lia. rewrite Z.pred_succ, fmap_cons. cbn [foldr].
  replace (i + 1 - 1) with i by lia. do 2 f_equal. replace (Z.succ (i + 1)) with (i + 1 + 1) by lia. lia.
Qed.

Lemma add_months_sum mon t : 1 <= mon <= 12 ->
  add_months mon (u32 t) = Ret (u32 (t + 86400 * foldr Z.add 0 ((fun j => nth (Z.to_nat (j - 1)) days_per_month 0) <$> seqZ 1 mon))).
Proof. intros Hm. unfold add_months. rewrite (add_months_from _ 0) by lia. by rewrite Z2Nat.id by lia. Qed.

(** The year as the clock gives it. *)
Definition rtc_year (y : Z) : Z := (y + 70) mod 100.

Lemma dates_checked :
  forallb (fun y => forallb (fun mon =>
    (86400 * (365 * y + Z.quot (y - 1) 4 + foldr Z.add 0 ((fun j => nth (Z.to_nat (j - 1)) days_per_month 0) <$> seqZ 1 mon)
      + if (2 <? mon) && (Z.rem y 4 =? 0) then 1 else 0)
     =? 86400 * (365 * y + (y + 1) / 4 + days_before_month y mon + days_ahead y mon)) && (26 <=? days_ahead y mon) && (days_ahead y mon <=? 32))
    (seqZ 1 12)) (seqZ 0 68) = true.
Proof. vm_compute. reflexivity. Qed.

Lemma date_sum y mon : 0 <= y < 68 -> 1 <= mon <= 12 ->
  86400 * (365 * y + Z.quot (y - 1) 4 + foldr Z.add 0 ((fun j => nth (Z.to_nat (j - 1)) days_per_month 0) <$> seqZ 1 mon)
      + if (2 <? mon) && (Z.rem y 4 =? 0) then 1 else 0)
  = 86400 * (365 * y + (y + 1) / 4 + days_before_month y mon + days_ahead y mon) /\ 26 <= days_ahead y mon <= 32.
Proof.
  intros Hy Hm. pose proof dates_checked as Hc. rewrite forallb_forall in Hc. specialize (Hc y ltac:(apply list_elem_of_In, elem_of_seqZ; lia)).
  cbv beta in Hc. rewrite forallb_forall in Hc. specialize (Hc mon ltac:(apply list_elem_of_In, elem_of_seqZ; lia)).
  apply andb_true_iff in Hc as [[E%Z.eqb_eq H1%Z.leb_le]%andb_true_iff H2%Z.leb_le]. split; [exact E|lia].
Qed.

Lemma days_before_bound y mon : 0 <= y < 68 -> 1 <= mon <= 12 -> 0 <= days_before_month y mon <= 400.
Proof.
  intros Hy Hm.
  assert (Hc : forallb (fun y => forallb (fun mon => (0 <=? days_before_month y mon) && (days_before_month y mon <=? 400)) (seqZ 1 12)) (seqZ 0 68) = true) by (vm_compute; reflexivity).
  rewrite forallb_forall in Hc. specialize (Hc y ltac:(apply list_elem_of_In, elem_of_seqZ; lia)). rewrite forallb_forall in Hc.
  specialize (Hc mon ltac:(apply list_elem_of_In, elem_of_seqZ; lia)). apply andb_true_iff in Hc as [?%Z.leb_le ?%Z.leb_le]. lia.
Qed.

Lemma time_of_ahead sec min hour mday mon y : 0 <= sec < 60 -> 0 <= min < 60 -> 0 <= hour < 24 -> 1 <= mday <= 31 -> 1 <= mon <= 12 -> 0 <= y < 68 ->
  time_of sec min hour mday mon (rtc_year y) = Ret (unix_time y mon mday hour min sec + 86400 * days_ahead y mon).
Proof.
  intros Hs Hmi Hh Hd Hm Hy. unfold time_of.
  assert (E : (if rtc_year y <? 70 then rtc_year y + 100 else rtc_year y) - 70 = y).
  { unfold rtc_year. destruct (Z.lt_ge_cases y 30).
    - rewrite Z.mod_small by lia. destruct (Z.ltb_spec (y + 70) 70); lia.
    - replace (y + 70) with (y - 30 + 1 * 100) by lia. rewrite Z.mod_add, Z.mod_small by lia. destruct (Z.ltb_spec (y - 30) 70); lia. }
  rewrite E. destruct (date_sum y mon Hy Hm) as [Hsum Hah]. pose proof (days_before_bound y mon Hy Hm) as Hb.
  assert (Hq : -1 <= Z.quot (y - 1) 4 <= 17).
  { destruct (Z.eq_dec y 0) as [->|]; [done|]. rewrite Z.quot_div_nonneg by lia. split; [transitivity 0; [lia|apply Z.div_pos; lia]|apply Z.div_le_upper_bound; lia]. }
  rewrite s32_small by (unfold is_s32; lia). rewrite add_months_sum by done. cbn [obind].
  set (S := foldr Z.add 0 _) in *. set (L := (2 <? mon) && (Z.rem y 4 =? 0)) in *.
  assert (Eif : (if L then u32 (u32 ((y * 365 + Z.quot (y - 1) 4) * 24 * 60 * 60 + 86400 * S) + 24 * 60 * 60) else u32 ((y * 365 + Z.quot (y - 1) 4) * 24 * 60 * 60 + 86400 * S))
    = u32 (86400 * (365 * y + Z.quot (y - 1) 4 + S + if L then 1 else 0))) by (destruct L; rewrite ?u32_add; f_equal; lia).
  rewrite Eif, Hsum. repeat first [rewrite u32_add|rewrite <- Z.add_assoc]. f_equal. unfold unix_time. assert (0 <= (y + 1) / 4 <= 17) by (split; [apply Z.div_pos; lia|apply Z.div_le_upper_bound; lia]).
  rewrite u32_small by (unfold is_u32, two32; lia). lia.
Qed.

Definition bcd (x : Z) : Z := 16 * (x / 10) + x mod 10.

Lemma bcd_roundtrip x : 0 <= x < 100 -> bcd_to_bin (bcd x) = x.
Proof.
  intros Hx. assert (Hc : forallb (fun x => bcd_to_bin (bcd x) =? x) (seqZ 0 100) = true) by (vm_compute; reflexivity).
  rewrite forallb_forall in Hc. specialize (Hc x ltac:(apply list_elem_of_In, elem_of_seqZ; lia)). by apply Z.eqb_eq.
Qed.

(** The registers show a date, in the reads [n], ..., [n + 6]. *)
Definition shows (cmos : nat -> Z -> Z) (n : nat) (y mon mday hour min sec : Z) : Prop :=
  forall k, (k <= 6)%nat ->
    cmos (n + k)%nat RTC_REG_SEC = bcd sec /\ cmos (n + k)%nat RTC_REG_MIN = bcd min /\ cmos (n + k)%nat RTC_REG_HOUR = bcd hour /\
    cmos (n + k)%nat RTC_REG_MDAY = bcd mday /\ cmos (n + k)%nat RTC_REG_MON = bcd mon /\ cmos (n + k)%nat RTC_REG_YEAR = bcd (rtc_year y).

Lemma sloop_once {S A R} (body : A -> ST S (A + R)) a s r s' : body a s = Ret (inr r, s') -> sloop body a s = Ret (r, s').
Proof.
  intros Hb. destruct (sloop_ind 0 (fun _ a1 s1 => a1 = a /\ s1 = s) (fun r1 s1 => r1 = r /\ s1 = s') body a s) as (r1 & s1 & E & -> & ->); [|done|done|done].
  intros k a1 s1 [-> ->]. left. exists r, s'. by split.
Qed.

(** [rtc_get_time] is not the time: for a valid date from 1970 to 2037
    that the clock shows during one iteration it returns the number of seconds
    since the epoch plus 26 to 32 days. *)
Theorem rtc_get_time_ahead cmos n y mon mday hour min sec :
  shows cmos n y mon mday hour min sec ->
  0 <= y < 68 -> 1 <= mon <= 12 -> 1 <= mday <= 31 -> 0 <= hour < 24 -> 0 <= min < 60 -> 0 <= sec < 60 ->
  rtc_get_time cmos n = Ret (unix_time y mon mday hour min sec + 86400 * days_ahead y mon, (n + 7)%nat) /\
  26 <= days_ahead y mon <= 32.
Proof.
  intros Hsh Hy Hm Hd Hh Hmi Hs. split; [|by apply date_sum].
  assert (Hrun : forall k r x, (k <= 6)%nat -> cmos (n + k)%nat r = bcd x -> 0 <= x < 100 -> read_field cmos r (n + k)%nat = Ret (x, (n + S k)%nat)).
  { intros k r x Hk E Hx. unfold read_field, cmos_read, sbind, sret. rewrite E, bcd_roundtrip by done. by rewrite Nat.add_succ_r. }
  assert (Hyr : 0 <= rtc_year y < 100) by (apply Z.mod_pos_bound; done). unfold rtc_get_time. apply sloop_once.
  replace n with (n + 0)%nat at 1 by lia. pose proof Hsh as Hsh'.
  destruct (Hsh 0%nat ltac:(lia)) as (E0 & _). sstep (Hrun 0%nat _ _ ltac:(lia) E0 ltac:(lia)).
  destruct (Hsh 1%nat ltac:(lia)) as (_ & E1 & _). sstep (Hrun 1%nat _ _ ltac:(lia) E1 ltac:(lia)).
  destruct (Hsh 2%nat ltac:(lia)) as (_ & _ & E2 & _). sstep (Hrun 2%nat _ _ ltac:(lia) E2 ltac:(lia)).
  destruct (Hsh 3%nat ltac:(lia)) as (_ & _ & _ & E3 & _). sstep (Hrun 3%nat _ _ ltac:(lia) E3 ltac:(lia)).
  destruct (Hsh 4%nat ltac:(lia)) as (_ & _ & _ & _ & E4 & _). sstep (Hrun 4%nat _ _ ltac:(lia) E4 ltac:(lia)).
  destruct (Hsh 5%nat ltac:(lia)) as (_ & _ & _ & _ & _ & E5). sstep (Hrun 5%nat _ _ ltac:(lia) E5 ltac:(lia)).
  destruct (Hsh 6%nat ltac:(lia)) as (E6 & _). sstep (Hrun 6%nat _ _ ltac:(lia) E6 ltac:(lia)).
  rewrite Z.eqb_refl. unfold sbind, lift. by rewrite time_of_ahead.
Qed.

(** The clock stopped at 2004-03-01 12:30:59. *)
Definition demo_cmos (_ : nat) (r : Z) : Z :=
  if r =? 0 then 89 else if r =? 2 then 48 else if r =? 4 then 18 else if r =? 7 then 1 else if r =? 8 then 3 else 4.

Lemma rtc_get_time_ahead_witness : rtc_get_time demo_cmos 0%nat = Ret (1078144259 + 86400 * 30, 7%nat) /\ 26 <= days_ahead 34 3 <= 32.
Proof.
  apply (rtc_get_time_ahead demo_cmos 0%nat 34 3 1 12 30 59); try lia. intros k Hk. repeat split; vm_compute; reflexivity.
Defined.

(** ** The timer chip *)

(** [pit_configure_channel] loads the number of cycles that is nearest to
    the period, for every frequency that the counter can give; the number is
    one of the counter, and it is 1, which is illegal in mode 2, exactly from
    795454 Hz up to PIT_HZ.  Other frequencies are clamped to 65536 (written
    as 0) and 2 cycles, and other channels and modes trip an assertion. *)
Theorem pit_configure_channel_correct channel mode f :
  (channel = 0 \/ channel = 2) -> (mode = 2 \/ mode = 3) ->
  exists count, pit_configure_channel channel mode f =
      Ret [(67, 64 * channel + 48 + 2 * mode); (64 + channel, count mod 256); (64 + channel, count / 256)] /\
    0 <= count < 65536 /\
    (f < 19 -> count = 0) /\ (PIT_HZ < f -> count = 2) /\
    (19 <= f <= PIT_HZ -> 0 < count /\ - f <= 2 * (count * f - PIT_HZ) <= f /\ (count = 1 <-> 795454 <= f)).
Proof.
  intros Hc Hm. exists (pit_count f).
  assert (Hmid : 19 <= f <= PIT_HZ -> pit_count f = (PIT_HZ + f / 2) / f /\ 0 < pit_count f < 65536 /\ - f <= 2 * (pit_count f * f - PIT_HZ) <= f).
  { intros Hf. unfold pit_count. destruct (Z.ltb_spec f 19); [lia|]. destruct (Z.ltb_spec PIT_HZ f); [lia|]. unfold PIT_HZ in *.
    rewrite (Z.quot_div_nonneg f 2) by lia. pose proof (Z.div_mod f 2 ltac:(lia)). pose proof (Z.mod_pos_bound f 2 ltac:(lia)).
    rewrite Z.quot_div_nonneg by lia. set (q := (1193180 + f / 2) / f).
    pose proof (Z.div_mod (1193180 + f / 2) f ltac:(lia)) as Hdm. fold q in Hdm. pose proof (Z.mod_pos_bound (1193180 + f / 2) f ltac:(lia)).
    assert (0 < q < 65536) by nia. rewrite Z.mod_small by lia. split_and!; try lia. }
  assert (Hrange : 0 <= pit_count f < 65536).
  { destruct (Z.lt_ge_cases f 19); [unfold pit_count; by destruct (Z.ltb_spec f 19); [|lia]|].
    destruct (Z.lt_ge_cases PIT_HZ f); [unfold pit_count; destruct (Z.ltb_spec f 19); [lia|]; by destruct (Z.ltb_spec PIT_HZ f); [|lia]|]. lia. }
  split_and!; try lia.
  - unfold pit_configure_channel, ASSERT, PIT_PORT_CONTROL, PIT_PORT_COUNTER. rewrite Z.shiftr_div_pow2 by lia. change (2 ^ 8) with 256.
    rewrite (Z.mod_small (pit_count f / 256)) by (split; [apply Z.div_pos; lia|apply Z.div_lt_upper_bound; lia]). by destruct Hc as [->| ->], Hm as [->| ->].
  - intros Hf. unfold pit_count. by destruct (Z.ltb_spec f 19); [|lia].
  - intros Hf. unfold pit_count, PIT_HZ in *. destruct (Z.ltb_spec f 19); [lia|]. by destruct (Z.ltb_spec 1193180 f); [|lia].
  - intros Hf. destruct (Hmid Hf) as (E & Hp & Hn). split; [lia|]. split; [exact Hn|]. unfold PIT_HZ in *. split; intros H1; [|clear E]; nia.
Qed.

Lemma pit_configure_channel_correct_witness :
  exists count, pit_configure_channel 0 2 TIMER_FREQ = Ret [(67, 64 * 0 + 48 + 2 * 2); (64 + 0, count mod 256); (64 + 0, count / 256)] /\ 0 < count.
Proof.
  destruct (pit_configure_channel_correct 0 2 TIMER_FREQ (or_introl eq_refl) (or_introl eq_refl)) as (count & E & _ & _ & _ & Hc).
  exists count. split; [exact E|]. apply Hc. split; vm_compute; discriminate.
Defined.

(** ** Calibration *)

(** The CPU runs [limit] loops in a tick, and not more. *)
Definition slower (limit loops : Z) : bool := limit <? loops.

Lemma shiftl_pow j : 0 <= j -> Z.shiftl (2 ^ j) 1 = 2 ^ (j + 1).
Proof. intros Hj. rewrite Z.shiftl_mul_pow2 by lia. rewrite Z.pow_add_r by lia. done. Qed.

Lemma shiftr_pow j n : 0 <= n <= j -> Z.shiftr (2 ^ j) n = 2 ^ (j - n).
Proof. intros Hj. rewrite Z.shiftr_div_pow2 by lia. by rewrite Z.pow_sub_r by lia. Qed.

Lemma pow_word j : 0 <= j <= 31 -> is_u32 (2 ^ j).
Proof. intros Hj. unfold is_u32, two32. change 4294967296 with (2 ^ 32). split; [lia|]. apply Z.pow_lt_mono_r; lia. Qed.

Lemma double_loop_stops limit k n j : 0 <= j <= k -> k < 31 -> 2 ^ k <= limit < 2 ^ (k + 1) -> k - j <= Z.of_nat n ->
  double_loop (slower limit) n (2 ^ j) = Ret (2 ^ k).
Proof.
  intros Hj Hk Hl. revert j Hj. induction n as [|n IH]; intros j Hj Hn; cbn [double_loop]; unfold slower; rewrite shiftl_pow, u32_small by (apply pow_word || lia; lia).
  - assert (j = k) as -> by lia. destruct (Z.ltb_spec limit (2 ^ (k + 1))); [done|lia].
  - destruct (Z.ltb_spec limit (2 ^ (j + 1))) as [Hlt|Hge].
    + f_equal. f_equal. assert (2 ^ k < 2 ^ (j + 1)) as Hp by lia. apply Z.pow_lt_mono_r_iff in Hp; lia.
    + assert (Hjk : j < k). { destruct (Z.eq_dec j k) as [->|]; lia. }
      unfold ASSERT. destruct (Z.eqb_spec (2 ^ (j + 1)) 0); [pose proof (Z.pow_pos_nonneg 2 (j + 1)); lia|]. cbn [negb obind]. apply IH; lia.
Qed.

Lemma double_loop_overflows limit n j : 0 <= j <= 31 -> 2 ^ 31 <= limit -> 31 - j < Z.of_nat n -> double_loop (slower limit) n (2 ^ j) = Err AssertFailed.
Proof.
  intros Hj Hl. revert j Hj. induction n as [|n IH]; intros j Hj Hn; [lia|]. cbn [double_loop]. rewrite shiftl_pow by lia. unfold slower.
  destruct (Z.eq_dec j 31) as [->|Hne].
  - change (u32 (2 ^ (31 + 1))) with 0. destruct (Z.ltb_spec limit 0); [lia|done].
  - rewrite u32_small by (apply pow_word; lia). assert (2 ^ (j + 1) <= 2 ^ 31) by (apply Z.pow_le_mono_r; lia).
    destruct (Z.ltb_spec limit (2 ^ (j + 1))); [lia|]. unfold ASSERT. destruct (Z.eqb_spec (2 ^ (j + 1)) 0); [pose proof (Z.pow_pos_nonneg 2 (j + 1)); lia|].
    cbn [negb obind]. apply IH; lia.
Qed.

(** What the bits from [j + 1] up to [k] add to [2 ^ k], for the rest [r]. *)
Definition refined (j r : Z) : Z := if r <? 2 ^ (j + 1) then 0 else 2 ^ (Z.log2 r + 1) - 2 ^ (j + 1).

Lemma refined_step j r : 0 <= j -> 0 <= r -> refined (j - 1) r = if r <? 2 ^ j then 0 else refined j r + 2 ^ j.
Proof.
  intros Hj Hr. unfold refined. replace (j - 1 + 1) with j by lia. destruct (Z.ltb_spec r (2 ^ j)) as [|H1]; [done|].
  assert (Hd : 2 ^ (j + 1) = 2 * 2 ^ j) by (rewrite Z.pow_add_r by lia; lia). destruct (Z.ltb_spec r (2 ^ (j + 1))) as [H2|H2]; [|lia].
  assert (Z.log2 r = j) as -> by (apply Z.log2_unique; lia). lia.
Qed.

Lemma refined_mod k j r : 0 <= j < k -> 0 <= r -> (2 ^ k + refined j r) mod 2 ^ (j + 1) = 0.
Proof.
  intros Hj Hr. assert (Hp : forall i, j + 1 <= i -> (2 ^ (j + 1) | 2 ^ i)).
  { intros i Hi. exists (2 ^ (i - (j + 1))). rewrite <- Z.pow_add_r by lia. f_equal. lia. }
  apply Z.mod_divide; [apply Z.pow_nonzero; lia|]. apply Z.divide_add_r; [apply Hp; lia|]. unfold refined.
  destruct (Z.ltb_spec r (2 ^ (j + 1))) as [|Hge]; [apply Z.divide_0_r|]. apply Z.divide_sub_r; [|apply Hp; lia]. apply Hp.
  pose proof (Z.log2_le_mono _ _ Hge) as Hlog. rewrite Z.log2_pow2 in Hlog by lia. lia.
Qed.

Lemma refine_loop_result limit k r n j : 10 <= k < 31 -> limit = 2 ^ k + r -> 0 <= r -> k - 10 <= j < k -> j - (k - 10) <= Z.of_nat n ->
  refine_loop (slower limit) n (2 ^ k) (2 ^ j) (2 ^ k + refined j r) = Ret (2 ^ k + refined (k - 10) r).
Proof.
  intros Hk Hl Hr. revert j. induction n as [|n IH]; intros j Hj Hn; cbn [refine_loop]; rewrite shiftr_pow by lia.
  - assert (j = k - 10) as -> by lia. by rewrite Z.eqb_refl.
  - destruct (Z.eqb_spec (2 ^ j) (2 ^ (k - 10))) as [E|E]; [apply Z.pow_inj_r in E; [by subst j|lia..]|].
    assert (Hj' : k - 10 < j) by (destruct (Z.eq_dec j (k - 10)) as [->|]; [done|lia]). rewrite shiftr_pow by lia.
    assert (Hpj : 0 < 2 ^ j) by (apply Z.pow_pos_nonneg; lia).
    assert (Hhi : Z.lor (2 ^ k) (2 ^ j) = 2 ^ k + 2 ^ j).
    { apply (lor_add (j + 1)); [lia| |]; [|rewrite Z.pow_add_r by lia; lia]. apply Z.mod_divide; [apply Z.pow_nonzero; lia|].
      exists (2 ^ (k - (j + 1))). rewrite <- Z.pow_add_r by lia. f_equal. lia. }
    assert (Hlo : Z.lor (2 ^ k + refined j r) (2 ^ j) = 2 ^ k + refined j r + 2 ^ j).
    { apply (lor_add (j + 1)); [lia|apply refined_mod; lia|rewrite Z.pow_add_r by lia; lia]. }
    rewrite Hhi, Hlo.
    replace (slower limit (2 ^ k + 2 ^ j)) with (r <? 2 ^ j) by (unfold slower; rewrite Hl; destruct (Z.ltb_spec r (2 ^ j)), (Z.ltb_spec (2 ^ k + r) (2 ^ k + 2 ^ j)); lia).
    assert (E' : (if negb (r <? 2 ^ j) then 2 ^ k + refined j r + 2 ^ j else 2 ^ k + refined j r) = 2 ^ k + refined (j - 1) r).
    2:{ rewrite E'. apply IH; lia. }
    rewrite refined_step by lia. destruct (Z.ltb_spec r (2 ^ j)) as [H1|H1]; cbn [negb]; [|lia].
    unfold refined. destruct (Z.ltb_spec r (2 ^ (j + 1))) as [|H2]; [lia|]. rewrite Z.pow_add_r in H2 by lia. lia.
Qed.

(** C39: [timer_calibrate], for a machine that does [limit] loops in a tick, at
    least the 1024 it starts from, finds the power of two below this number but
    does not refine the next bits one by one: every bit is tried alone with the
    highest one, so that of the nine bits below it all those from the highest
    bit of the rest downwards are set.  The result is too low by less than the
    last of these bits, and too high whenever the rest has a zero among them,
    by a third of the number at most.  For 2^31 loops or more an assertion
    fails. *)
Theorem timer_calibrate_correct limit : 1024 <= limit ->
  let k := Z.log2 limit in let r := limit - 2 ^ k in
  (limit < 2 ^ 31 -> exists l, timer_calibrate (slower limit) true = Ret l /\
     2 ^ k <= l < 2 * 2 ^ k /\
     l = 2 ^ k + (if r <? 2 ^ (k - 9) then 0 else 2 ^ (Z.log2 r + 1) - 2 ^ (k - 9)) /\
     (limit < l <-> 2 ^ (k - 9) <= r < 2 ^ (Z.log2 r + 1) - 2 ^ (k - 9)) /\
     limit - l < 2 ^ (k - 9) /\ 3 * l <= 4 * limit) /\
  (2 ^ 31 <= limit -> timer_calibrate (slower limit) true = Err AssertFailed).
Proof.
  intros Hl k r. destruct (Z.log2_spec limit ltac:(lia)) as [H1 H2]. fold k in H1, H2. replace (Z.succ k) with (k + 1) in H2 by lia. split.
  - intros Hlt. assert (Hk : 10 <= k < 31).
    { split; [apply (Z.log2_le_mono 1024 limit Hl)|]. apply Z.log2_lt_pow2; lia. }
    assert (Hr : 0 <= r < 2 ^ k) by (unfold r; rewrite Z.pow_add_r in H2 by lia; lia).
    assert (Hp9 : 0 < 2 ^ (k - 9)) by (apply Z.pow_pos_nonneg; lia).
    exists (2 ^ k + refined (k - 10) r). split.
    { unfold timer_calibrate, ASSERT. cbn [obind]. change 1024 with (2 ^ 10). rewrite (double_loop_stops limit k 32 10) by lia. cbn [obind].
      rewrite shiftr_pow by lia. replace (2 ^ k) with (2 ^ k + refined (k - 1) r) at 2.
      - apply refine_loop_result; unfold r; lia.
      - unfold refined. replace (k - 1 + 1) with k by lia. destruct (Z.ltb_spec r (2 ^ k)); lia. }
    unfold refined. replace (k - 10 + 1) with (k - 9) by lia. destruct (Z.ltb_spec r (2 ^ (k - 9))) as [Hs|Hs]; [split_and!; lia|].
    assert (Hlr : Z.log2 r < k) by (apply Z.log2_lt_pow2; lia). assert (2 ^ (Z.log2 r + 1) <= 2 ^ k) by (apply Z.pow_le_mono_r; lia).
    destruct (Z.log2_spec r ltac:(lia)) as [Hg Hg2]. rewrite <- Z.add_1_r in Hg2. assert (2 ^ (Z.log2 r + 1) = 2 * 2 ^ Z.log2 r) by (rewrite Z.pow_add_r by (pose proof (Z.log2_nonneg r); lia); lia).
    pose proof (Z.log2_le_mono _ _ Hs) as Hlog. rewrite Z.log2_pow2 in Hlog by lia. pose proof (Z.pow_le_mono_r 2 (k - 9) (Z.log2 r) ltac:(lia) Hlog).
    split_and!; unfold r in *; lia.
  - intros Hge. unfold timer_calibrate, ASSERT. cbn [obind]. change 1024 with (2 ^ 10). by rewrite double_loop_overflows by lia.
Qed.

(** 1,572,864 loops in a tick give 2,095,104. *)
Lemma timer_calibrate_correct_witness : exists l, timer_calibrate (slower 1572864) true = Ret l /\ l = 2095104 /\ 1332 * 1572864 <= 1000 * l.
Proof.
  destruct (timer_calibrate_correct 1572864 ltac:(lia)) as [H1 _]. destruct (H1 ltac:(lia)) as (l & E & _ & Hl & _). exists l. split; [exact E|].
  vm_compute in Hl. subst l. split; [reflexivity|lia].
Defined.

(** ** Delays *)

Lemma s64_id z : - 9223372036854775808 <= z < 9223372036854775808 -> s64 z = z.
Proof. intros Hz. unfold s64, two64. rewrite Z.mod_small by lia. lia. Qed.

(** A delay runs the loops for its time, at most 100 too few per
    thousandth of the denominator, and never too many; nothing overflows for
    delays of up to a second.  [real_time_sleep] sleeps for the ticks in its
    time, rounded down, and uses a busy loop exactly when this is none. *)
Theorem real_time_sleep_correct l on num denom : is_u32 l -> 0 < l -> 0 <= num <= denom -> (denom = 1000 \/ denom = 1000000 \/ denom = 1000000000) ->
  (on = false -> real_time_sleep l on num denom = Err AssertFailed) /\
  (on = true -> denom <= num * TIMER_FREQ -> real_time_sleep l on num denom = Ret (SleepTicks (num * TIMER_FREQ / denom))) /\
  (on = true -> num * TIMER_FREQ < denom -> exists n, real_time_sleep l on num denom = Ret (BusyLoops n) /\
     real_time_delay l num denom = Ret n /\ 0 <= n /\ n * denom <= l * num * TIMER_FREQ < (n + 1) * denom + 1000 * TIMER_FREQ).
Proof.
  intros Hl Hl0 Hn Hd. unfold real_time_sleep, is_u32, two32, TIMER_FREQ in *.
  assert (Hd1 : 0 < denom <= 1000000000 /\ Z.rem denom 1000 = 0 /\ denom = 1000 * Z.quot denom 1000 /\ 1 <= Z.quot denom 1000) by (destruct Hd as [->|[->| ->]]; vm_compute; intuition discriminate).
  destruct Hd1 as (Hdb & Hrem & Hdq & Hq1). rewrite s64_id by lia. rewrite Z.quot_div_nonneg by lia. split_and!.
  - by intros ->.
  - intros -> Hge. cbn [ASSERT obind]. assert (1 <= num * 100 / denom) by (apply Z.div_le_lower_bound; lia). by destruct (Z.ltb_spec 0 (num * 100 / denom)); [|lia].
  - intros -> Hlt. cbn [ASSERT obind]. rewrite (Z.div_small (num * 100) denom) by lia. cbn [Z.ltb Z.compare].
    assert (Hp : 0 <= l * num <= 4294967296 * 1000000000) by nia. set (p := l * num) in *.
    unfold real_time_delay. rewrite Hrem. cbn [Z.eqb ASSERT obind]. fold p. rewrite (s64_id p) by lia. rewrite (Z.quot_div_nonneg p) by lia. set (a := p / 1000).
    pose proof (Z.div_mod p 1000 ltac:(lia)) as Hm. fold a in Hm. pose proof (Z.mod_pos_bound p 1000 ltac:(lia)). unfold TIMER_FREQ. rewrite s64_id by lia.
    set (q := Z.quot denom 1000) in *. rewrite Z.quot_div_nonneg by lia. eexists. split; [done|]. split; [done|].
    pose proof (Z.div_mod (a * 100) q ltac:(lia)) as Hm2. pose proof (Z.mod_pos_bound (a * 100) q ltac:(lia)). set (n := a * 100 / q) in *.
    split; [apply Z.div_pos; lia|]. rewrite Hdq. split; nia.
Qed.

Lemma real_time_sleep_correct_witness : real_time_sleep 1500000 true 150 1000 = Ret (SleepTicks 15).
Proof.
  destruct (real_time_sleep_correct 1500000 true 150 1000) as (_ & H & _); [split; vm_compute; [discriminate|reflexivity]|lia|lia|by left|].
  apply H; [reflexivity|vm_compute; discriminate].
Defined.
