(* ===== verification/Vga.v ===== *)
(** * The text screen ([devices/vga.c])

    The framebuffer is a list of rows of cells, a character and an attribute
    each; an access outside of it is an error.  The position of the hardware
    cursor is the pair of CRT controller registers 14 and 15, as one 16-bit
    number.  The specification is an endless roll of paper: a new line at the
    bottom adds a row, and the screen is the last 25 rows. *)
From Stdlib Require Import ZArith Lia.
From stdpp Require Import prelude list.
From S2P Require Import Prelude Clock.
#[local] Open Scope Z_scope.

Definition COL_CNT : Z := 80.
Definition ROW_CNT : Z := 25.
Definition GRAY_ON_BLACK : Z := 7.

Abbreviation cell := (Z * Z)%type (only parsing).
Abbreviation row := (list (Z * Z)) (only parsing).

(** [spk] has the speaker and the interrupt level. *)
Record vga : Type := mkVga {
  cx : Z;
  cy : Z;
  fb : list row;
  inited : bool;
  cursor : Z;
  spk : speaker
}.

Definition with_pos (v : vga) (x y : Z) : vga := mkVga x y (fb v) (inited v) (cursor v) (spk v).
Definition with_fb (v : vga) (f : list row) : vga := mkVga (cx v) (cy v) f (inited v) (cursor v) (spk v).
Definition with_cursor (v : vga) (c : Z) : vga := mkVga (cx v) (cy v) (fb v) (inited v) c (spk v).
Definition with_intr (v : vga) (b : bool) : vga := mkVga (cx v) (cy v) (fb v) (inited v) (cursor v) (mkSpeaker (gate (spk v)) b (sounds (spk v))).

(** The instruction [outw] on the index port of the CRT controller. *)
Definition crtc_outw (x : Z) (v : vga) : vga :=
  let index := x mod 256 in
  let data := x / 256 mod 256 in
  if index =? 14 then with_cursor v (256 * data + cursor v mod 256)
  else if index =? 15 then with_cursor v (256 * (cursor v / 256) + data)
  else v.

Definition move_cursor (v : vga) : vga :=
  let cp := (cx v + COL_CNT * cy v) mod 65536 in
  let v := crtc_outw (Z.lor 14 (Z.land cp 65280)) v in
  crtc_outw (Z.lor 15 (Z.shiftl cp 8 mod 65536)) v.

(** The registers 14 and 15 are read one after the other. *)
Definition find_cursor (v : vga) : Z * Z :=
  let cp := Z.shiftl (cursor v / 256) 8 mod 65536 in
  let cp := Z.lor cp (cursor v mod 256) in
  (cp mod COL_CNT, cp / COL_CNT).

Definition init (v : vga) : vga :=
  if negb (inited v) then let '(x, y) := find_cursor v in mkVga x y (fb v) true (cursor v) (spk v) else v.

(** [fb[y][x][0] = c; fb[y][x][1] = GRAY_ON_BLACK] *)
Definition put_cell (x y c : Z) (f : list row) : outcome (list row) :=
  let! r := access (f !! Z.to_nat y) in
  let! _ := access (r !! Z.to_nat x) in
  Ret (<[Z.to_nat y := <[Z.to_nat x := (c mod 256, GRAY_ON_BLACK)]> r]> f).

Definition clear_row (y : Z) (f : list row) : outcome (list row) :=
  for_loop (Z.to_nat COL_CNT) 0 (fun x f => put_cell x y 32 f) f.

Definition cls (v : vga) : outcome vga :=
  let! f := for_loop (Z.to_nat ROW_CNT) 0 clear_row (fb v) in
  Ret (move_cursor (with_pos (with_fb v f) 0 0)).

(** The [memmove] of the rows 1, ..., 24 to the rows 0, ..., 23. *)
Definition scroll (f : list row) : list row := firstn 24 (skipn 1 f) ++ skipn 24 f.

Definition newline (v : vga) : outcome vga :=
  let v := with_pos v 0 (cy v + 1) in
  if ROW_CNT <=? cy v then
    let v := with_pos v 0 (ROW_CNT - 1) in
    let! f := clear_row (ROW_CNT - 1) (scroll (fb v)) in
    Ret (with_fb v f)
  else Ret v.

Definition with_spk (v : vga) (s : speaker) : vga := mkVga (cx v) (cy v) (fb v) (inited v) (cursor v) s.

Definition vga_putc (c : Z) (v : vga) : outcome vga :=
  let old_level := sp_intr (spk v) in
  let v := init (with_intr v false) in
  let! v :=
    (if c =? 10 then newline v
     else if c =? 12 then cls v
     else if c =? 8 then Ret (if 0 <? cx v then with_pos v (cx v - 1) (cy v) else v)
     else if c =? 13 then Ret (with_pos v 0 (cy v))
     else if c =? 9 then
       let v := with_pos v (ROUND_UP (cx v + 1) 8) (cy v) in
       if COL_CNT <=? cx v then newline v else Ret v
     else if c =? 7 then
       let v := with_intr v old_level in
       let! r := speaker_beep (spk v) in
       Ret (with_intr (with_spk v (snd r)) false)
     else
       let! f := put_cell (cx v) (cy v) c (fb v) in
       let v := with_pos (with_fb v f) (cx v + 1) (cy v) in
       if COL_CNT <=? cx v then newline v else Ret v) in
  Ret (with_intr (move_cursor v) old_level).

(** ** The specification: a roll of paper *)

Definition blank_row : row := replicate 80 (32, GRAY_ON_BLACK).

Record paper : Type := mkPaper { px : Z; py : nat; rows : list row }.

Definition feed (p : paper) : paper :=
  mkPaper 0 (S (py p)) (if bool_decide (S (py p) = length (rows p)) then rows p ++ [blank_row] else rows p).

Definition print_char (c : Z) (p : paper) : paper :=
  let r := default [] (rows p !! py p) in
  let p := mkPaper (px p + 1) (py p) (<[py p := <[Z.to_nat (px p) := (c, GRAY_ON_BLACK)]> r]> (rows p)) in
  if px p =? 80 then feed p else p.

Definition paper_putc (c : Z) (p : paper) : paper :=
  if c =? 10 then feed p
  else if c =? 12 then mkPaper 0 (length (rows p) - 25) (firstn (length (rows p) - 25) (rows p) ++ replicate 25 blank_row)
  else if c =? 8 then mkPaper (Z.max 0 (px p - 1)) (py p) (rows p)
  else if c =? 13 then mkPaper 0 (py p) (rows p)
  else if c =? 9 then let x := 8 * (px p / 8 + 1) in if x =? 80 then feed (mkPaper x (py p) (rows p)) else mkPaper x (py p) (rows p)
  else if c =? 7 then p
  else print_char c p.

(** The screen shows the last 25 rows of the paper, and the hardware cursor is
    at the position. *)
Record shows (v : vga) (p : paper) : Prop := mkShows {
  sh_len : (25 <= length (rows p))%nat;
  sh_fb : fb v = skipn (length (rows p) - 25) (rows p);
  sh_rows : Forall (fun r => length r = 80%nat) (rows p);
  sh_x : cx v = px p /\ 0 <= px p < 80;
  sh_y : cy v = Z.of_nat (py p) - Z.of_nat (length (rows p) - 25) /\ (length (rows p) - 25 <= py p < length (rows p))%nat;
  sh_inited : inited v = true
}.

Definition cursor_ok (v : vga) : Prop := cursor v = cx v + 80 * cy v.

(** ** The cursor *)

Lemma crtc_words : forallb (fun cp =>
    (Z.lor 14 (Z.land cp 65280) mod 256 =? 14) && (Z.lor 14 (Z.land cp 65280) / 256 mod 256 =? cp / 256) &&
    (Z.lor 15 (Z.shiftl cp 8 mod 65536) mod 256 =? 15) && (Z.lor 15 (Z.shiftl cp 8 mod 65536) / 256 mod 256 =? cp mod 256) &&
    (Z.lor (Z.shiftl (cp / 256) 8 mod 65536) (cp mod 256) =? cp)) (seqZ 0 2000) = true.
Proof. vm_compute. reflexivity. Qed.

Lemma crtc_word cp : 0 <= cp < 2000 ->
  Z.lor 14 (Z.land cp 65280) mod 256 = 14 /\ Z.lor 14 (Z.land cp 65280) / 256 mod 256 = cp / 256 /\
  Z.lor 15 (Z.shiftl cp 8 mod 65536) mod 256 = 15 /\ Z.lor 15 (Z.shiftl cp 8 mod 65536) / 256 mod 256 = cp mod 256 /\
  Z.lor (Z.shiftl (cp / 256) 8 mod 65536) (cp mod 256) = cp.
Proof.
  intros Hc. pose proof crtc_words as Hw. rewrite forallb_forall in Hw. specialize (Hw cp ltac:(apply list_elem_of_In, elem_of_seqZ; lia)).
  rewrite !andb_true_iff, !Z.eqb_eq in Hw. intuition.
Qed.

Lemma run_move_cursor v : 0 <= cx v < 80 -> 0 <= cy v < 25 -> move_cursor v = with_cursor v (cx v + 80 * cy v).
Proof.
  intros Hx Hy. unfold move_cursor, COL_CNT. rewrite (Z.mod_small (cx v + 80 * cy v)) by lia. set (cp := cx v + 80 * cy v).
  destruct (crtc_word cp) as (E1 & E2 & E3 & E4 & _); [unfold cp; lia|]. unfold crtc_outw. rewrite E1, E2, E3, E4. cbn [Z.eqb Pos.eqb]. unfold with_cursor. cbn.
  f_equal. rewrite (Z.mul_comm 256 (cp / 256)), Z.div_add_l by lia. rewrite (Z.div_small (cursor v mod 256)) by (apply Z.mod_pos_bound; lia).
  pose proof (Z.div_mod cp 256 ltac:(lia)). lia.
Qed.

Lemma run_find_cursor v : 0 <= cx v < 80 -> 0 <= cy v < 25 -> cursor_ok v -> find_cursor v = (cx v, cy v).
Proof.
  intros Hx Hy Hc. unfold find_cursor. rewrite Hc. destruct (crtc_word (cx v + 80 * cy v)) as (_ & _ & _ & _ & ->); [lia|]. unfold COL_CNT.
  rewrite (Z.mul_comm 80), Z.mod_add, Z.div_add, Z.mod_small, Z.div_small by lia. done.
Qed.

(** ** The framebuffer *)

Lemma run_put_cell x y c (f : list row) (r : row) : 0 <= y -> f !! Z.to_nat y = Some r -> (Z.to_nat x < length r)%nat -> 0 <= c < 256 ->
  put_cell x y c f = Ret (<[Z.to_nat y := <[Z.to_nat x := (c, GRAY_ON_BLACK)]> r]> f).
Proof.
  intros Hy Hr Hx Hc. unfold put_cell. rewrite Hr. cbn [access obind]. destruct (lookup_lt_is_Some_2 r _ Hx) as [b ->]. cbn. by rewrite Z.mod_small.
Qed.

Lemma clear_from n i y (f : list row) (r : row) : 0 <= i -> f !! y = Some r -> length r = (Z.to_nat i + n)%nat ->
  for_loop n i (fun x f => put_cell x (Z.of_nat y) 32 f) f = Ret (<[y := firstn (Z.to_nat i) r ++ replicate n (32, GRAY_ON_BLACK)]> f).
Proof.
  revert i f r. induction n as [|n IH]; intros i f r Hi Hr Hl; cbn [for_loop].
  - rewrite app_nil_r, take_ge by lia. by rewrite list_insert_id.
  - pose proof (lookup_lt_Some _ _ _ Hr) as Hy. rewrite (run_put_cell _ _ _ _ r) by (rewrite ?Nat2Z.id; done || lia). cbn [obind]. rewrite Nat2Z.id.
    rewrite (IH (i + 1) _ (<[Z.to_nat i := (32, GRAY_ON_BLACK)]> r)); [|lia|by rewrite list_lookup_insert_eq|rewrite length_insert; lia].
    rewrite list_insert_insert_eq. do 2 f_equal. replace (Z.to_nat (i + 1)) with (S (Z.to_nat i)) by lia.
    rewrite (take_S_r _ _ (32, GRAY_ON_BLACK)) by (rewrite list_lookup_insert_eq by lia; done).
    rewrite take_insert_ge by lia. by rewrite <- app_assoc.
Qed.

Lemma run_clear_row y (f : list row) (r : row) : f !! y = Some r -> length r = 80%nat -> clear_row (Z.of_nat y) f = Ret (<[y := blank_row]> f).
Proof. intros Hr Hl. unfold clear_row. change (Z.to_nat COL_CNT) with 80%nat. by rewrite (clear_from 80 0 y f r) by done. Qed.

Lemma cls_from n i (f : list row) : Forall (fun r : row => length r = 80%nat) f -> length f = (i + n)%nat ->
  for_loop n (Z.of_nat i) clear_row f = Ret (firstn i f ++ replicate n blank_row).
Proof.
  revert i f. induction n as [|n IH]; intros i f Hf Hl; cbn [for_loop]; [by rewrite app_nil_r, take_ge by lia|].
  destruct (lookup_lt_is_Some_2 f i ltac:(lia)) as [r Hr]. rewrite (run_clear_row i f r Hr) by (by eapply Forall_lookup_1 in Hf). cbn [obind].
  replace (Z.of_nat i + 1) with (Z.of_nat (S i)) by lia. rewrite IH; [|by apply Forall_insert|rewrite length_insert; lia].
  rewrite (take_S_r _ _ blank_row) by (by rewrite list_lookup_insert_eq by lia). rewrite take_insert_ge by lia. by rewrite <- app_assoc.
Qed.

(** ** The screen and the paper *)

Definition shown (p : paper) : list row := skipn (length (rows p) - 25) (rows p).

(** [shows] up to the column and the hardware cursor. *)
Record aligned (v : vga) (p : paper) : Prop := mkAligned {
  al_len : (25 <= length (rows p))%nat;
  al_fb : fb v = shown p;
  al_rows : Forall (fun r : row => length r = 80%nat) (rows p);
  al_y : cy v = Z.of_nat (py p) - Z.of_nat (length (rows p) - 25) /\ (length (rows p) - 25 <= py p < length (rows p))%nat;
  al_inited : inited v = true
}.

Lemma shows_aligned v p : shows v p <-> aligned v p /\ cx v = px p /\ 0 <= px p < 80.
Proof. split; [intros []; by split|intros [[] ?]; by split]. Qed.

Lemma shown_length p : (25 <= length (rows p))%nat -> length (shown p) = 25%nat.
Proof. intros Hl. unfold shown. rewrite length_drop. lia. Qed.

Lemma shown_feed p x y : (25 <= length (rows p))%nat -> shown (mkPaper x y (rows p ++ [blank_row])) = skipn 1 (shown p) ++ [blank_row].
Proof.
  intros Hl. unfold shown. cbn [rows]. rewrite length_app. cbn [length]. rewrite drop_app_le by lia. f_equal. rewrite drop_drop. f_equal. lia.
Qed.

Lemma run_newline v p : aligned v p -> exists v', newline v = Ret v' /\ aligned v' (feed p) /\ cx v' = 0 /\ spk v' = spk v.
Proof.
  intros [Hl Hf Hr [Hy Hp] Hi]. pose proof (shown_length p Hl) as Hs. unfold newline, feed, ROW_CNT. cbn [cy with_pos]. case_bool_decide as E.
  - destruct (Z.leb_spec 25 (cy v + 1)); [|lia]. cbn [fb with_pos]. rewrite Hf. unfold scroll.
    assert (Hsl : length (firstn 24 (skipn 1 (shown p))) = 24%nat) by (rewrite length_take, length_drop; lia).
    destruct (lookup_lt_is_Some_2 (shown p) 24 ltac:(lia)) as [r24 H24].
    assert (Hd : skipn 24 (shown p) = [r24]) by (rewrite (drop_S _ _ _ H24), drop_ge by lia; done).
    assert (H24' : length r24 = 80%nat).
    { unfold shown in H24. rewrite lookup_drop in H24. by eapply (Forall_lookup_1 (fun r : row => length r = 80%nat)) in H24. }
    change (25 - 1) with (Z.of_nat 24). rewrite (run_clear_row 24 _ r24); [|rewrite Hd, lookup_app_r, Hsl by lia; done|done]. cbn [obind].
    eexists. split; [done|]. split; [|done]. split; try done; cbn [rows py fb cy with_fb with_pos].
    + rewrite length_app. lia.
    + rewrite shown_feed by done. rewrite Hd, insert_app_r_alt, Hsl, Nat.sub_diag by lia. cbn [list_insert insert]. f_equal.
      rewrite take_ge by (rewrite length_drop; lia). done.
    + apply Forall_app. split; [done|]. by apply Forall_singleton.
    + rewrite length_app. cbn [length]. lia.
  - destruct (Z.leb_spec 25 (cy v + 1)); [lia|]. eexists. split; [done|]. split; [|done]. split; try done; cbn [rows py cy with_pos]; lia.
Qed.

Lemma vga_run_print v p c : aligned v p -> cx v = px p -> 0 <= px p < 80 -> 0 <= c < 256 ->
  exists v', (let! f := put_cell (cx v) (cy v) c (fb v) in
      let v := with_pos (with_fb v f) (cx v + 1) (cy v) in
      if COL_CNT <=? cx v then newline v else Ret v) = Ret v' /\ shows v' (print_char c p) /\ spk v' = spk v.
Proof.
  intros [Hl Hf Hr [Hy Hp] Hi] Hx Hpx Hc. destruct (lookup_lt_is_Some_2 (rows p) (py p) ltac:(lia)) as [r Hrow].
  assert (Hrl : length r = 80%nat) by (by eapply (Forall_lookup_1 (fun r : row => length r = 80%nat)) in Hrow).
  assert (Ey : Z.to_nat (cy v) = (py p - (length (rows p) - 25))%nat) by lia.
  assert (Hfr : fb v !! Z.to_nat (cy v) = Some r).
  { rewrite Hf, Ey. unfold shown. rewrite lookup_drop. rewrite <- Hrow. f_equal. lia. }
  rewrite (run_put_cell _ _ _ _ r) by (done || lia). cbn [obind]. unfold print_char. rewrite Hrow. cbn [default]. unfold COL_CNT. cbn [cx with_pos px]. rewrite Hx.
  set (rw := <[Z.to_nat (px p) := (c, GRAY_ON_BLACK)]> r). set (p1 := mkPaper (px p + 1) (py p) (<[py p := rw]> (rows p))).
  set (v1 := with_pos _ _ _). assert (Ha : aligned v1 p1).
  { split; cbn [rows py fb cy v1 p1 with_pos with_fb inited]; rewrite ?length_insert; try done.
    - rewrite Hf, Ey. unfold shown, p1. cbn [rows]. rewrite length_insert, drop_insert_ge by lia. done.
    - apply Forall_insert; [done|]. unfold rw. by rewrite length_insert. }
  destruct (Z.leb_spec 80 (px p + 1)); destruct (Z.eqb_spec (px p + 1) 80); try lia.
  - destruct (run_newline v1 p1 Ha) as (v' & E & Ha' & Hx' & Hk). exists v'. split; [exact E|]. split; [|done]. apply shows_aligned. split; [done|]. cbn. lia.
  - exists v1. split; [done|]. split; [|done]. apply shows_aligned. split; [done|]. cbn. lia.
Qed.

Lemma run_cls v p : aligned v p -> exists v', cls v = Ret v' /\ spk v' = spk v /\
  shows v' (mkPaper 0 (length (rows p) - 25) (firstn (length (rows p) - 25) (rows p) ++ replicate 25 blank_row)).
Proof.
  intros [Hl Hf Hr [Hy Hp] Hi]. unfold cls. change (Z.to_nat ROW_CNT) with 25%nat. rewrite Hf. change 0 with (Z.of_nat 0) at 1.
  rewrite cls_from; [|by apply Forall_drop|by rewrite shown_length]. cbn [obind firstn app]. rewrite run_move_cursor by done. eexists. split; [done|]. split; [done|].
  assert (Hlen : length (firstn (length (rows p) - 25) (rows p) ++ replicate 25 blank_row) = length (rows p)) by (rewrite length_app, length_take, length_replicate; lia).
  apply shows_aligned. split; [|done]. split; cbn [rows py fb cy with_cursor with_pos with_fb inited]; rewrite ?Hlen; try done; try lia.
  - unfold shown. cbn [rows]. rewrite Hlen. rewrite drop_app_length' by (rewrite length_take; lia). done.
  - apply Forall_app. split; [by apply Forall_take|by repeat constructor].
Qed.

Lemma tab_stop x : 0 <= x < 80 -> ROUND_UP (x + 1) 8 = 8 * (x / 8 + 1).
Proof.
  intros Hx. unfold ROUND_UP. rewrite (u32_small (x + 1 + 8 - 1)) by (unfold is_u32, two32; lia). replace (x + 1 + 8 - 1) with (x + 1 * 8) by lia.
  rewrite Z.div_add by lia. assert (0 <= x / 8 < 10) by (split; [apply Z.div_pos; lia|apply Z.div_lt_upper_bound; lia]). rewrite u32_small by (unfold is_u32, two32; lia). lia.
Qed.

Lemma beep_returns s : exists s', speaker_beep s = Ret (tt, s').
Proof. unfold speaker_beep, sbind, get. destruct (sp_intr s); by eexists. Qed.

Lemma vga_putc_shows v p c : shows v p -> 0 <= c < 256 ->
  exists v', vga_putc c v = Ret v' /\ shows v' (paper_putc c p) /\ cursor_ok v' /\ find_cursor v' = (cx v', cy v') /\ sp_intr (spk v') = sp_intr (spk v).
Proof.
  intros Hs Hc. set (v0 := with_intr v false).
  assert (Hs0 : shows v0 p) by (by destruct Hs). pose proof (proj1 (shows_aligned _ _) Hs0) as (Ha & Hx & Hpx).
  assert (Hend : forall v1, shows v1 (paper_putc c p) -> exists v', Ret (with_intr (move_cursor v1) (sp_intr (spk v))) = Ret v' /\ shows v' (paper_putc c p) /\
      cursor_ok v' /\ find_cursor v' = (cx v', cy v') /\ sp_intr (spk v') = sp_intr (spk v)).
  { intros v1 H1. destruct H1 as [L1 F1 R1 [X1 X2] [Y1 Y2] I1]. rewrite run_move_cursor by lia. eexists. split; [done|]. split; [by split|]. split; [done|].
    split; [|done]. apply run_find_cursor; cbn; [lia|lia|done]. }
  assert (Hfin : forall m, (exists v1, m = Ret v1 /\ shows v1 (paper_putc c p)) -> exists v', (let! v1 := m in Ret (with_intr (move_cursor v1) (sp_intr (spk v)))) = Ret v' /\
      shows v' (paper_putc c p) /\ cursor_ok v' /\ find_cursor v' = (cx v', cy v') /\ sp_intr (spk v') = sp_intr (spk v)).
  { intros m (v1 & -> & H1). by apply Hend. }
  unfold vga_putc. fold v0. assert (Hinit : init v0 = v0) by (unfold init; by rewrite (sh_inited _ _ Hs0)). rewrite Hinit. apply Hfin. clear Hend Hfin.
  unfold paper_putc. destruct (Z.eqb_spec c 10).
  { destruct (run_newline v0 p Ha) as (v1 & E & A1 & X1 & _). exists v1. split; [exact E|]. by apply shows_aligned. }
  destruct (Z.eqb_spec c 12). { destruct (run_cls v0 p Ha) as (v1 & E & _ & S1). by exists v1. }
  destruct (Z.eqb_spec c 8).
  { eexists. split; [done|]. destruct Ha. apply shows_aligned. destruct (Z.ltb_spec 0 (cx v0)); (split; [by split|]); cbn -[Z.max] in *; lia. }
  destruct (Z.eqb_spec c 13). { eexists. split; [done|]. destruct Ha. apply shows_aligned. split; [by split|]. cbn. lia. }
  destruct (Z.eqb_spec c 9) as [|Hn9].
  { rewrite Hx, tab_stop by done. unfold COL_CNT. cbn [cx with_pos]. set (x := 8 * (px p / 8 + 1)). assert (Ha' : aligned (with_pos v0 x (cy v0)) (mkPaper x (py p) (rows p))) by (by destruct Ha).
    assert (0 <= px p / 8 < 10) by (split; [apply Z.div_pos; lia|apply Z.div_lt_upper_bound; lia]).
    destruct (Z.leb_spec 80 x), (Z.eqb_spec x 80); try lia.
    - destruct (run_newline _ _ Ha') as (v1 & E & A1 & X1 & _). exists v1. split; [exact E|]. by apply shows_aligned.
    - eexists. split; [done|]. apply shows_aligned. split; [done|]. cbn. unfold x in *. lia. }
  destruct (Z.eqb_spec c 7) as [|Hn7].
  { destruct (beep_returns (spk (with_intr v0 (sp_intr (spk v))))) as (s' & E). rewrite E. cbn [obind snd]. eexists. split; [done|]. destruct Ha. apply shows_aligned. split; [by split|done]. }
  destruct (vga_run_print v0 p c Ha Hx Hpx Hc) as (v1 & E & S1 & _). by exists v1.
Qed.

(** C32: [vga_putc] on a screen that shows the paper shows what the paper has
    after the character (text is never lost, it scrolls off the top), leaves
    the hardware cursor at the position that the next character goes to, from
    where [find_cursor] gets it back, and restores the interrupt level. *)
Theorem vga_putc_refines v p c : shows v p -> 0 <= c < 256 ->
  exists v', vga_putc c v = Ret v' /\ shows v' (paper_putc c p) /\ cursor_ok v' /\ find_cursor v' = (cx v', cy v') /\ sp_intr (spk v') = sp_intr (spk v).
Proof. apply vga_putc_shows. Qed.

Lemma find_cursor_any v : 0 <= cursor v < 65536 -> find_cursor v = (cursor v mod 80, cursor v / 80).
Proof.
  intros Hc. unfold find_cursor, COL_CNT. pose proof (Z.div_mod (cursor v) 256 ltac:(lia)) as Hdm. pose proof (Z.mod_pos_bound (cursor v) 256 ltac:(lia)) as Hm.
  set (hi := cursor v / 256) in *. set (lo := cursor v mod 256) in *. rewrite Z.shiftl_mul_pow2 by lia. change (2 ^ 8) with 256. rewrite (Z.mod_small (hi * 256)) by lia.
  rewrite (lor_add 8) by (try apply Z.mod_mul; lia || (change (2 ^ 8) with 256; lia) || done). replace (hi * 256 + lo) with (cursor v) by lia. done.
Qed.

(** The first character takes the position from the hardware cursor: if
    it is on the screen the screen shows a paper with its contents from then
    on, and if it is not, a printable character is written outside of the
    screen. *)
Theorem vga_first_putc v c : length (fb v) = 25%nat -> Forall (fun r : row => length r = 80%nat) (fb v) -> inited v = false -> 0 <= cursor v < 65536 -> 32 <= c < 256 ->
  (cursor v < 2000 -> shows (init v) (mkPaper (cursor v mod 80) (Z.to_nat (cursor v / 80)) (fb v)) /\ vga_putc c v = vga_putc c (init v)) /\
  (2000 <= cursor v -> vga_putc c v = Err BadAccess).
Proof.
  intros Hl Hr Hi Hc Hch. assert (Ei : forall b, init (with_intr v b) = mkVga (cursor v mod 80) (cursor v / 80) (fb v) true (cursor v) (spk (with_intr v b))).
  { intros b. unfold init. cbn [inited with_intr]. rewrite Hi. cbn [negb]. by rewrite find_cursor_any. }
  assert (Ei' : init v = mkVga (cursor v mod 80) (cursor v / 80) (fb v) true (cursor v) (spk v)) by (unfold init; by rewrite Hi, find_cursor_any).
  pose proof (Z.mod_pos_bound (cursor v) 80 ltac:(lia)) as Hm. split.
  - intros Hlt. assert (0 <= cursor v / 80 < 25) by (split; [apply Z.div_pos; lia|apply Z.div_lt_upper_bound; lia]). split.
    + rewrite Ei'. split; cbn; rewrite ?Hl; try done; try lia.
    + unfold vga_putc. rewrite Ei, Ei'. unfold init at 1. cbn [inited with_intr negb sp_intr spk gate sounds cx cy fb cursor]. done.
  - intros Hge. assert (25 <= cursor v / 80) by (apply Z.div_le_lower_bound; lia). unfold vga_putc. rewrite Ei. cbn [spk with_intr sp_intr].
    destruct (Z.eqb_spec c 10), (Z.eqb_spec c 12), (Z.eqb_spec c 8), (Z.eqb_spec c 13), (Z.eqb_spec c 9), (Z.eqb_spec c 7); try lia.
    cbn [cx cy fb]. unfold put_cell. rewrite lookup_ge_None_2 by lia. done.
Qed.

(** *** A blank screen *)

Definition demo_vga (cur : Z) : vga := mkVga 0 0 (replicate 25 blank_row) false cur (mkSpeaker 0 true []).

Lemma vga_first_putc_witness : vga_putc 65 (demo_vga 2000) = Err BadAccess.
Proof.
  destruct (vga_first_putc (demo_vga 2000) 65) as [_ H]; [reflexivity|by repeat constructor|reflexivity|cbn; lia|lia|]. apply H. cbn. lia.
Defined.

Definition demo_paper : paper := mkPaper 79 24 (replicate 25 blank_row).

Lemma demo_shows : shows (init (demo_vga 1999)) demo_paper.
Proof. split; vm_compute; repeat split; try done; try lia; repeat constructor. Qed.

(** The last column of the last row: the screen scrolls. *)
Lemma vga_putc_refines_witness :
  exists v', vga_putc 65 (init (demo_vga 1999)) = Ret v' /\ cx v' = 0 /\ cy v' = 24 /\ fb v' !! 23%nat = Some (<[79%nat := (65, 7)]> blank_row).
Proof.
  destruct (vga_putc_refines (init (demo_vga 1999)) demo_paper 65 demo_shows ltac:(lia)) as (v' & E & [_ Hf _ [Hx _] [Hy _] _] & _).
  exists v'. split; [exact E|]. rewrite Hf, Hx, Hy. split; [reflexivity|]. split; vm_compute; reflexivity.
Defined.
