(* ===== verification/Serial.v ===== *)
(** * The serial port and the input buffer ([devices/serial.c], [devices/input.c])

    The transmit queue and the input buffer are interrupt queues of [Input]
    on one scheduler.  The two files call each other: the serial port puts
    what it receives into the input buffer, and the input buffer tells the
    serial port ([serial_notify]) when its fullness may have changed.

    The port is a 16550A: a write to its first register sends a byte, or sets
    the divisor while the divisor latch bit is set; the [n]-th read of a register is a parameter, [lsr n] of the line
    status and [rbr n] of the receiver buffer.

    The main invariant is that the bytes sent followed by the bytes queued are
    the bytes given to [serial_putc], in their order. *)
From Stdlib Require Import ZArith Lia.
From stdpp Require Import prelude list gmap.
From S2P Require Import Prelude Thread Segments Input.
#[local] Open Scope Z_scope.

Definition IO_BASE : Z := 1016.
Definition RBR_REG : Z := IO_BASE + 0.
Definition THR_REG : Z := IO_BASE + 0.
Definition IER_REG : Z := IO_BASE + 1.
Definition LS_REG : Z := IO_BASE + 0.
Definition MS_REG : Z := IO_BASE + 1.
Definition IIR_REG : Z := IO_BASE + 2.
Definition FCR_REG : Z := IO_BASE + 2.
Definition LCR_REG : Z := IO_BASE + 3.
Definition MCR_REG : Z := IO_BASE + 4.
Definition LSR_REG : Z := IO_BASE + 5.
Definition IER_RECV : Z := 1.
Definition IER_XMIT : Z := 2.
Definition LCR_N81 : Z := 3.
Definition LCR_DLAB : Z := 128.
Definition MCR_OUT2 : Z := 8.
Definition LSR_DR : Z := 1.
Definition LSR_THRE : Z := 32.

Inductive smode : Type := UNINIT | POLL | QUEUE.

#[export] Instance smode_eq_dec : EqDecision smode.
Proof. solve_decision. Defined.

(** The registers of the port, and the bytes it has sent. *)
Record uart : Type := mkUart { ier : Z; lcr : Z; fcr : Z; mcr : Z; divisor : Z; sent : list Z; reads : nat }.

Record serial : Type := mkSerial { mach : machine; txq : intq; mode : smode; port : uart; table : intrs }.

Definition with_port (s : serial) (u : uart) : serial := mkSerial (mach s) (txq s) (mode s) u (table s).
Definition with_mode (s : serial) (m : smode) : serial := mkSerial (mach s) (txq s) m (port s) (table s).
Definition with_txq (s : serial) (q : intq) : serial := mkSerial (mach s) q (mode s) (port s) (table s).

(** An operation on the input buffer, and one on the transmit queue. *)
Definition on_input {A} (m : ST machine A) : ST serial A := fun s =>
  match m (mach s) with Ret (a, x) => Ret (a, mkSerial x (txq s) (mode s) (port s) (table s)) | Err e => Err e end.
Definition tx (s : serial) : machine := mkMachine (kern (mach s)) (txq s) (kbd (mach s)).
Definition on_txq {A} (m : ST machine A) : ST serial A := fun s =>
  match m (tx s) with
  | Ret (a, x) => Ret (a, mkSerial (mkMachine (kern x) (buffer (mach s)) (kbd x)) (buffer x) (mode s) (port s) (table s))
  | Err e => Err e
  end.
Definition on_kern {A} (m : ST kernel A) : ST serial A := on_input (on_kernel m).

Definition assert_off : ST serial unit := do! l := on_kern intr_get_level in assert_ (negb l).

(** ** The port *)

Definition uart_out (p v : Z) (u : uart) : uart :=
  let '(mkUart e l f m d out n) := u in
  let dlab := negb (Z.land l LCR_DLAB =? 0) in
  if p =? IO_BASE then if dlab then mkUart e l f m (256 * (d / 256) + v) out n else mkUart e l f m d (out ++ [v]) n
  else if p =? IO_BASE + 1 then if dlab then mkUart e l f m (256 * v + d mod 256) out n else mkUart v l f m d out n
  else if p =? FCR_REG then mkUart e l v m d out n
  else if p =? LCR_REG then mkUart e v f m d out n
  else if p =? MCR_REG then mkUart e l f v d out n
  else u.

Definition outb (p v : Z) : ST serial unit := fun s => Ret (tt, with_port s (uart_out p (v mod 256) (port s))).

Section reading.
Context (lsr rbr : nat -> Z).

(** The value that is read from IIR is not used. *)
Definition inb (p : Z) : ST serial Z := fun s =>
  let n := reads (port s) in
  let u := mkUart (ier (port s)) (lcr (port s)) (fcr (port s)) (mcr (port s)) (divisor (port s)) (sent (port s)) (S n) in
  Ret (if p =? LSR_REG then lsr n else if p =? RBR_REG then rbr n else 0, with_port s u).

(** ** The driver *)

Definition set_serial (bps : Z) : ST serial unit :=
  let base_rate := Z.quot 1843200 16 in
  let divisor := Z.quot base_rate bps mod 65536 in
  do! _ := assert_ ((300 <=? bps) && (bps <=? 115200)) in
  do! _ := outb LCR_REG (Z.lor LCR_N81 LCR_DLAB) in
  do! _ := outb LS_REG (Z.land divisor 255) in
  do! _ := outb MS_REG (Z.shiftr divisor 8) in
  outb LCR_REG LCR_N81.

Definition init_poll : ST serial unit :=
  do! s := get in
  do! _ := assert_ (bool_decide (mode s = UNINIT)) in
  do! _ := outb IER_REG 0 in
  do! _ := outb FCR_REG 0 in
  do! _ := set_serial 9600 in
  do! _ := outb MCR_REG MCR_OUT2 in
  do! s := get in
  put (with_mode (with_txq s (intq_init (buf (txq s)))) POLL).

(** [input.c]; the contents of the array do not change. *)
Definition input_init : ST serial unit := fun s =>
  Ret (tt, mkSerial (mkMachine (kern (mach s)) (intq_init (buf (buffer (mach s)))) (kbd (mach s))) (txq s) (mode s) (port s) (table s)).

Definition input_full : ST serial bool :=
  do! _ := assert_off in
  on_input intq_full.

Definition write_ier : ST serial unit :=
  do! _ := assert_off in
  do! e := on_txq intq_empty in
  let ier := if negb e then IER_XMIT else 0 in
  do! f := input_full in
  let ier := if negb f then Z.lor ier IER_RECV else ier in
  outb IER_REG ier.

Definition putc_poll (byte : Z) : ST serial unit :=
  do! _ := assert_off in
  do! _ := sloop (fun _ : unit =>
    do! v := inb LSR_REG in
    sret (if Z.land v LSR_THRE =? 0 then inl tt else inr tt)) tt in
  outb THR_REG byte.

(** [intq_getc (&txq)] where the queue is not empty. *)
Definition next_byte : ST serial Z :=
  do! b := on_txq intq_getc in
  match b with Done c => sret c | Sleeps _ => stop Panicked end.

(** The end of [serial_putc], unless the thread sleeps inside of
    [intq_putc]. *)
Definition serial_stored (old_level : bool) (r : progress unit) : ST serial (progress unit) :=
  match r with
  | Done _ =>
      do! _ := write_ier in
      do! _ := on_kern (intr_set_level old_level) in
      sret (Done tt)
  | Sleeps p => sret (Sleeps p)
  end.

Definition serial_putc (byte : Z) : ST serial (progress unit) :=
  do! old_level := on_kern intr_disable in
  do! s := get in
  if bool_decide (mode s <> QUEUE) then
    do! _ := (if bool_decide (mode s = UNINIT) then init_poll else sret tt) in
    do! _ := putc_poll byte in
    do! _ := on_kern (intr_set_level old_level) in
    sret (Done tt)
  else
    do! f := (if negb old_level then on_txq intq_full else sret false) in
    do! _ := (if (f : bool) then do! c := next_byte in putc_poll c else sret tt) in
    do! r := on_txq (intq_putc byte) in
    serial_stored old_level r.

(** What is left of [serial_putc] when a thread that slept runs again. *)
Definition serial_putc_again (old_level : bool) (byte : Z) (p : place) : ST serial (progress unit) :=
  do! r := on_txq (putc_again byte p) in
  serial_stored old_level r.

Definition serial_flush : ST serial unit :=
  do! old_level := on_kern intr_disable in
  do! _ := sloop (fun _ : unit =>
    do! e := on_txq intq_empty in
    if (e : bool) then sret (inr tt) else
    do! c := next_byte in
    do! _ := putc_poll c in
    sret (inl tt)) tt in
  do! _ := on_kern (intr_set_level old_level) in
  sret tt.

Definition serial_notify : ST serial unit :=
  do! _ := assert_off in
  do! s := get in
  if bool_decide (mode s = QUEUE) then write_ier else sret tt.

(** [intq_putc] does not sleep, since the buffer is not full. *)
Definition input_putc (key : Z) : ST serial unit :=
  do! _ := assert_off in
  do! f := on_input intq_full in
  do! _ := assert_ (negb f) in
  do! r := on_input (intq_putc key) in
  match r with Done _ => serial_notify | Sleeps _ => stop Panicked end.

(** The end of [input_getc], unless the thread sleeps inside of
    [intq_getc]. *)
Definition input_taken (old_level : bool) (r : progress Z) : ST serial (progress Z) :=
  match r with
  | Done key =>
      do! _ := serial_notify in
      do! _ := on_kern (intr_set_level old_level) in
      sret (Done key)
  | Sleeps p => sret (Sleeps p)
  end.

Definition input_getc : ST serial (progress Z) :=
  do! old_level := on_kern intr_disable in
  do! r := on_input intq_getc in
  input_taken old_level r.

Definition input_getc_again (old_level : bool) (p : place) : ST serial (progress Z) :=
  do! r := on_input (getc_again p) in
  input_taken old_level r.

Definition serial_interrupt : ST serial unit :=
  do! _ := inb IIR_REG in
  do! _ := sloop (fun _ : unit =>
    do! f := input_full in
    if (f : bool) then sret (inr tt) else
    do! v := inb LSR_REG in
    if Z.land v LSR_DR =? 0 then sret (inr tt) else
    do! c := inb RBR_REG in
    do! _ := input_putc c in
    sret (inl tt)) tt in
  do! _ := sloop (fun _ : unit =>
    do! e := on_txq intq_empty in
    if (e : bool) then sret (inr tt) else
    do! v := inb LSR_REG in
    if Z.land v LSR_THRE =? 0 then sret (inr tt) else
    do! c := next_byte in
    do! _ := outb THR_REG c in
    sret (inl tt)) tt in
  write_ier.

Definition serial_init_queue (stubs : Z -> Z) (handler name : Z) : ST serial unit :=
  do! s := get in
  do! _ := (if bool_decide (mode s = UNINIT) then init_poll else sret tt) in
  do! s := get in
  do! _ := assert_ (bool_decide (mode s = POLL)) in
  do! t := lift (intr_register_ext stubs (32 + 4) handler name (table s)) in
  do! _ := put (mkSerial (mach s) (txq s) QUEUE (port s) t) in
  do! old_level := on_kern intr_disable in
  do! _ := write_ier in
  do! _ := on_kern (intr_set_level old_level) in
  sret tt.
End reading.

(** ** The queues *)

Record core (s : serial) : Prop := mkCore {
  co_in : machine_ok (mach s);
  co_tx : machine_ok (tx s);
  co_apart t : t ∈ sleepers (buffer (mach s)) -> t ∈ sleepers (txq s) -> False;
  co_dlab : Z.land (lcr (port s)) LCR_DLAB = 0;
  co_bytes : Forall (fun b => 0 <= b < 256) (contents (txq s))
}.

Definition stream (s : serial) : list Z := sent (port s) ++ contents (txq s).
Definition received (s : serial) : list Z := queued (mach s).

Lemma tx_id s : mkSerial (mkMachine (kern (mach s)) (buffer (mach s)) (kbd (mach s))) (txq s) (mode s) (port s) (table s) = s.
Proof. by destruct s as [[] ]. Qed.

Lemma on_txq_same {A} (m : ST machine A) s a : m (tx s) = Ret (a, tx s) -> on_txq m s = Ret (a, s).
Proof. intros E. unfold on_txq. rewrite E. cbn. by rewrite tx_id. Qed.

Lemma on_input_same {A} (m : ST machine A) s a : m (mach s) = Ret (a, mach s) -> on_input m s = Ret (a, s).
Proof. intros E. unfold on_input. rewrite E. by destruct s. Qed.

Lemma run_assert_off s : intr_on (kern (mach s)) = false -> assert_off s = Ret (tt, s).
Proof.
  intros Hoff. unfold assert_off, on_kern. assert (E : on_input (on_kernel intr_get_level) s = Ret (false, s)).
  { apply on_input_same. unfold on_kernel, intr_get_level. cbn. rewrite Hoff. by destruct (mach s). }
  by sstep E.
Qed.

Lemma core_off s : core s -> intr_on (kern (mach s)) = false.
Proof. by intros [(_ & Hoff & _) _ _ _ _]. Qed.

Lemma run_tx_empty s : core s -> on_txq intq_empty s = Ret (bool_decide (contents (txq s) = []), s).
Proof. intros [_ (_ & Hoff & Hr & _) _ _ _]. apply on_txq_same. by apply run_empty. Qed.

Lemma run_tx_full s : core s -> on_txq intq_full s = Ret (count (txq s) =? 63, s).
Proof. intros [_ (_ & Hoff & Hr & _) _ _ _]. apply on_txq_same. by apply run_full. Qed.

Lemma run_in_full s : core s -> on_input intq_full s = Ret (count (buffer (mach s)) =? 63, s).
Proof. intros [(_ & Hoff & Hr & _) _ _ _ _]. apply on_input_same. by apply run_full. Qed.

Lemma run_input_full s : core s -> input_full s = Ret (count (buffer (mach s)) =? 63, s).
Proof. intros Hc. unfold input_full. sstep (run_assert_off s (core_off s Hc)). by apply run_in_full. Qed.

(** The queue that an operation is not about: its sleepers go on sleeping. *)
Lemma queue_other k k' q x x' :
  machine_ok (mkMachine k q x) -> kernel_ok k' -> intr_on k' = false -> (forall t, sleeping k t -> t ∈ sleepers q -> sleeping k' t) -> machine_ok (mkMachine k' q x').
Proof.
  intros (_ & _ & Hr & Hl & Hnd & Hsl & H1 & H2) Hk' Hoff' Hkeep. do 2 (split; [done|]). do 3 (split; [done|]). split; [|done]. cbn [kern buffer] in *.
  rewrite Forall_forall in Hsl |- *. auto.
Qed.

(** The effect of an operation on one of the queues on the rest. *)
Definition own_threads (k k' : kernel) (q q' : intq) : Prop :=
  (forall t, t ∈ sleepers q' -> t ∈ sleepers q \/ t = running k) /\ (forall t, sleeping k t -> t ∉ sleepers q -> sleeping k' t).

Lemma goes_on_own s s' woken : goes_on s s' woken -> own_threads (kern s) (kern s') (buffer s) (buffer s').
Proof.
  intros (_ & _ & _ & _ & _ & Hp & Hk). split.
  - intros t Ht. left. rewrite Hp. set_solver.
  - intros t Ht Hn. apply Hk; [done|]. intros Hw. apply Hn. rewrite Hp. set_solver.
Qed.

Lemma asleep_own s s' : falls_asleep s s' -> own_threads (kern s) (kern s') (buffer s) (buffer s').
Proof. intros (_ & _ & _ & _ & Hp & Hk). split; [|auto]. intros t. rewrite Hp. set_solver. Qed.

Lemma sleeper_sleeps s t : machine_ok s -> t ∈ sleepers (buffer s) -> sleeping (kern s) t.
Proof. intros (_ & _ & _ & _ & _ & Hsl & _). rewrite Forall_forall in Hsl. auto. Qed.

Lemma core_tx s x : core s -> machine_ok x -> own_threads (kern (mach s)) (kern x) (txq s) (buffer x) -> Forall (fun b => 0 <= b < 256) (contents (buffer x)) ->
  core (mkSerial (mkMachine (kern x) (buffer (mach s)) (kbd x)) (buffer x) (mode s) (port s) (table s)).
Proof.
  intros [Hin Htx Hap Hdl Hby] Hx [Ho1 Ho2] Hb. pose proof Hx as (Hk & Hoff & _). split; try done.
  - apply (queue_other (kern (mach s)) (kern x) (buffer (mach s)) (kbd (mach s))); [by destruct s as [[]]|done|done|]. intros t Ht Hi. apply Ho2; [done|]. intros Ht'. by apply (Hap t).
  - cbn. intros t Ht Ht'. destruct (Ho1 t Ht') as [Hi| ->]; [by apply (Hap t)|]. by apply (not_sleeping_running _ (proj1 Hin)), sleeper_sleeps.
Qed.

Lemma core_input s x : core s -> machine_ok x -> own_threads (kern (mach s)) (kern x) (buffer (mach s)) (buffer x) -> core (mkSerial x (txq s) (mode s) (port s) (table s)).
Proof.
  intros [Hin Htx Hap Hdl Hby] Hx [Ho1 Ho2]. pose proof Hx as (Hk & Hoff & _). split; try done.
  - apply (queue_other (kern (mach s)) (kern x) (txq s) (kbd (mach s))); [done|done|done|]. intros t Ht Hi. apply Ho2; [done|]. intros Ht'. by apply (Hap t).
  - cbn. intros t Ht Ht'. destruct (Ho1 t Ht) as [Hi| ->]; [by apply (Hap t)|]. by apply (not_sleeping_running _ (proj1 Hin)), (sleeper_sleeps (tx s)).
Qed.

Definition in_intr (s : serial) : bool := in_external_intr (kern (mach s)).
Definition current (s : serial) : Z := running (kern (mach s)).
Definition idle (s : serial) : Z := idle_thread (kern (mach s)).

(** What the operations leave as it is. *)
Definition same_run (s s' : serial) : Prop := mode s' = mode s /\ table s' = table s /\ in_intr s' = in_intr s /\ current s' = current s /\ idle s' = idle s.

Lemma same_run_trans s1 s2 s3 : same_run s1 s2 -> same_run s2 s3 -> same_run s1 s3.
Proof. intros (A & B & C & D & E) (A' & B' & C' & D' & E'). split_and!; congruence. Qed.

Lemma run_next_byte s : core s -> contents (txq s) <> [] ->
  exists b s', next_byte s = Ret (b, s') /\ core s' /\ contents (txq s) = b :: contents (txq s') /\ port s' = port s /\ buffer (mach s') = buffer (mach s) /\ same_run s s' /\
    0 <= b < 256.
Proof.
  intros Hc Hne. destruct (run_getc (tx s) (co_tx s Hc) Hne) as (b & x & E & Hx & Hq & Hg & _).
  unfold next_byte, on_txq, sbind. rewrite E. eexists b, _. split; [done|]. unfold queued in Hq. cbn in Hq.
  pose proof (co_bytes s Hc) as Hb. rewrite Hq in Hb. inversion Hb. split; [apply core_tx; try done; by apply (goes_on_own (tx s) x _ Hg)|].
  destruct Hg as (_ & G1 & G2 & G3 & _). do 3 (split; [done|]). split; [by split_and!|done].
Qed.

Lemma run_tx_done s b x woken (m : ST machine (progress unit)) : core s -> 0 <= b < 256 -> m (tx s) = Ret (Done tt, x) -> machine_ok x ->
  queued x = queued (tx s) ++ [b] -> goes_on (tx s) x woken ->
  exists s', on_txq m s = Ret (Done tt, s') /\ core s' /\ contents (txq s') = contents (txq s) ++ [b] /\ port s' = port s /\ buffer (mach s') = buffer (mach s) /\ same_run s s'.
Proof.
  intros Hc Hb E Hx Hq Hg. unfold on_txq. rewrite E. eexists. split; [done|]. unfold queued in Hq. cbn in Hq.
  assert (Hbs : Forall (fun b => 0 <= b < 256) (contents (buffer x))) by (rewrite Hq; apply Forall_app; split; [apply Hc|by apply Forall_singleton]).
  split; [apply core_tx; try done; by apply (goes_on_own (tx s) x _ Hg)|]. destruct Hg as (_ & G1 & G2 & G3 & _). do 3 (split; [done|]). by split_and!.
Qed.

(** ** The port *)

Section hardware.
Context (lsr rbr : nat -> Z).
Context (ready : forall n, exists k, Z.of_nat k < 1000000000 /\ Z.land (lsr (n + k)) LSR_THRE <> 0).

Lemma core_port s u : core s -> Z.land (lcr u) LCR_DLAB = 0 -> core (with_port s u).
Proof. intros [] Hl. by split. Qed.

Definition read_n (u : uart) (n : nat) : uart := mkUart (ier u) (lcr u) (fcr u) (mcr u) (divisor u) (sent u) n.

Lemma run_thr s b : Z.land (lcr (port s)) LCR_DLAB = 0 -> 0 <= b < 256 ->
  outb THR_REG b s = Ret (tt, with_port s (mkUart (ier (port s)) (lcr (port s)) (fcr (port s)) (mcr (port s)) (divisor (port s)) (sent (port s) ++ [b]) (reads (port s)))).
Proof. intros Hl Hb. unfold outb, uart_out. destruct (port s) as [e l f m d out n]. cbn in *. rewrite Hl, Z.mod_small by done. done. Qed.

Lemma run_poll_loop s : exists n, sloop (fun _ : unit => do! v := inb lsr rbr LSR_REG in sret (if Z.land v LSR_THRE =? 0 then @inl unit unit tt else inr tt)) tt s =
  Ret (tt, with_port s (read_n (port s) n)).
Proof.
  destruct (ready (reads (port s))) as (k & Hk & Hr).
  match goal with |- exists n, sloop ?f tt s = _ => destruct (sloop_ind k (fun j _ s1 => exists n, s1 = with_port s (read_n (port s) n) /\ (n + j = reads (port s) + k)%nat)
    (fun _ s1 => exists n, s1 = with_port s (read_n (port s) n)) f tt s) as ([] & s' & E & n & ->) end; [|..|by exists n].
  - intros j [] s1 (n & -> & Hn). unfold sbind, inb, sret. cbn [port with_port read_n reads]. change (LSR_REG =? LSR_REG) with true. cbn iota.
    destruct (Z.eqb_spec (Z.land (lsr n) LSR_THRE) 0) as [E|E].
    + right. destruct j as [|j]; [replace n with (reads (port s) + k)%nat in E by lia; done|]. exists j, tt. eexists. split; [done|]. split; [|lia]. exists (S n). split; [done|lia].
    + left. exists tt. eexists. split; [done|]. by exists (S n).
  - exists (reads (port s)). split; [|lia]. by destruct s as [? ? ? []].
  - unfold two32. lia.
Qed.

Lemma run_putc_poll s b : intr_on (kern (mach s)) = false -> Z.land (lcr (port s)) LCR_DLAB = 0 -> 0 <= b < 256 ->
  exists n, putc_poll lsr rbr b s = Ret (tt, with_port s (mkUart (ier (port s)) (lcr (port s)) (fcr (port s)) (mcr (port s)) (divisor (port s)) (sent (port s) ++ [b]) n)).
Proof.
  intros Hoff Hl Hb. unfold putc_poll. sstep (run_assert_off s Hoff). destruct (run_poll_loop s) as (n & E). sstep E. exists n. by rewrite run_thr.
Qed.

(** What [write_ier] programs. *)
Definition wanted (s : serial) : Z :=
  (if bool_decide (contents (txq s) = []) then 0 else IER_XMIT) + (if count (buffer (mach s)) =? 63 then 0 else IER_RECV).

Lemma run_write_ier s : core s ->
  write_ier s = Ret (tt, with_port s (mkUart (wanted s) (lcr (port s)) (fcr (port s)) (mcr (port s)) (divisor (port s)) (sent (port s)) (reads (port s)))).
Proof.
  intros Hc. pose proof Hc as [_ _ _ Hl _]. unfold write_ier. sstep (run_assert_off s (core_off s Hc)). sstep (run_tx_empty s Hc). sstep (run_input_full s Hc).
  unfold outb, uart_out, wanted. destruct (port s) as [e l f m d out n]. cbn in *. rewrite Hl. by destruct (bool_decide _), (count _ =? 63).
Qed.

(** ** The functions *)

(** The state with an interrupt level. *)
Definition at_level (s : serial) (lv : bool) : serial :=
  mkSerial (mkMachine (with_intr (kern (mach s)) lv) (buffer (mach s)) (kbd (mach s))) (txq s) (mode s) (port s) (table s).
Definition level (s : serial) : bool := intr_on (kern (mach s)).

(** Between two calls. *)
Definition serial_ok (s : serial) : Prop := core (at_level s false) /\ (level s = true -> in_intr s = false).

Lemma run_disable s : on_kern intr_disable s = Ret (level s, at_level s false).
Proof. done. Qed.

Lemma run_restore s lv : (lv = true -> in_intr s = false) -> exists o, on_kern (intr_set_level lv) s = Ret (o, at_level s lv).
Proof.
  intros Hl. destruct (run_set_level (kern (mach s)) lv Hl) as (o & E). exists o. unfold on_kern, on_input, on_kernel. by rewrite E.
Qed.

Lemma at_level_core s : core s -> at_level s false = s.
Proof.
  intros Hc. pose proof (core_off s Hc) as Hoff. destruct s as [[k b x] q m p t]. unfold at_level. cbn in *. do 2 f_equal. destruct k. cbn in *. by subst.
Qed.

Lemma core_ok s : core s -> serial_ok s.
Proof. intros Hc. split; [by rewrite at_level_core|]. pose proof (core_off s Hc) as Hoff. unfold level. congruence. Qed.

Lemma ok_core s : serial_ok s -> level s = false -> core s.
Proof.
  intros [Hc _] Hl. assert (at_level s false = s) as <-; [|done]. destruct s as [[k bf x] q m p t]. unfold level in Hl. cbn in Hl. unfold at_level. cbn. do 2 f_equal.
  destruct k. cbn in *. by subst.
Qed.

Lemma restored s lv : core s -> (lv = true -> in_intr s = false) -> serial_ok (at_level s lv) /\ stream (at_level s lv) = stream s /\ level (at_level s lv) = lv.
Proof.
  intros Hc Hl. split; [|done]. split; [|done]. change (at_level (at_level s lv) false) with (at_level s false). by rewrite at_level_core.
Qed.

(** The level is restored and a result is given. *)
Lemma run_finish {A} s lv (r : A) : (lv = true -> in_intr s = false) ->
  (do! _ := on_kern (intr_set_level lv) in sret r) s = Ret (r, at_level s lv).
Proof. intros Hl. destruct (run_restore s lv Hl) as (o & E). by sstep E. Qed.

(** The thread that puts a byte waits for a place. *)
Lemma run_tx_asleep s p x (m : ST machine (progress unit)) : core s -> m (tx s) = Ret (Sleeps p, x) -> falls_asleep (tx s) x ->
  exists s', on_txq m s = Ret (Sleeps p, s') /\ core s' /\ stream s' = stream s /\ received s' = received s /\ port s' = port s /\ mode s' = mode s /\
    current s' = next_thread (kern (mach s)) /\ txq s' = buffer x.
Proof.
  intros Hc E Hs. pose proof Hs as (Hx & Hrun & Hq & _). unfold on_txq. rewrite E. eexists. split; [done|]. unfold queued in Hq. cbn in Hq.
  split; [apply core_tx; try done; [by apply (asleep_own (tx s) x)|rewrite Hq; apply Hc]|]. split; [unfold stream; cbn; by rewrite Hq|done].
Qed.

(** One byte of the queue sent by polling. *)
Lemma serial_run_drain s : core s -> contents (txq s) <> [] ->
  exists s', (do! c := next_byte in putc_poll lsr rbr c) s = Ret (tt, s') /\ core s' /\ stream s' = stream s /\
    length (contents (txq s)) = S (length (contents (txq s'))) /\ buffer (mach s') = buffer (mach s) /\ same_run s s'.
Proof.
  intros Hc Hne. destruct (run_next_byte s Hc Hne) as (b & s1 & E & Hc1 & Hq & Hp & Hb & Hsame & Hb0). sstep E.
  destruct (run_putc_poll s1 b) as (n & E2); [by apply core_off|apply (co_dlab s1 Hc1)|done|]. rewrite E2. eexists. split; [done|].
  split; [apply core_port; [done|apply (co_dlab s1 Hc1)]|]. split; [unfold stream; cbn; rewrite Hq, Hp, <- app_assoc; done|]. split; [by rewrite Hq|]. done.
Qed.

(** A call of [intq_putc] that has returned: the interrupts are programmed and
    the level is restored. *)
Lemma serial_run_stored s s1 b lv : core s1 -> (lv = true -> in_intr s = false) -> contents (txq s1) = contents (txq s) ++ [b] -> port s1 = port s ->
  buffer (mach s1) = buffer (mach s) -> same_run s s1 ->
  exists s', serial_stored lv (Done tt) s1 = Ret (Done tt, s') /\ serial_ok s' /\ stream s' = stream s ++ [b] /\ level s' = lv /\ same_run s s' /\
    ier (port s') = wanted s' /\ received s' = received s /\ contents (txq s') = contents (txq s) ++ [b].
Proof.
  intros Hc1 Hl Hq Hp Hb Hsame. unfold serial_stored. sstep (run_write_ier s1 Hc1).
  set (s2 := with_port s1 (mkUart (wanted s1) (lcr (port s1)) (fcr (port s1)) (mcr (port s1)) (divisor (port s1)) (sent (port s1)) (reads (port s1)))).
  assert (Hc2 : core s2) by (apply core_port; [done|apply (co_dlab s1 Hc1)]). pose proof Hsame as (_ & _ & Hctx & _).
  assert (Hl2 : lv = true -> in_intr s2 = false) by (intros Hlv; change (in_intr s1 = false); rewrite Hctx; auto).
  rewrite (run_finish s2 lv (Done tt) Hl2). eexists. split; [done|]. destruct (restored s2 lv Hc2 Hl2) as (R1 & R2 & R3). split; [done|].
  split; [rewrite R2; unfold stream; cbn; by rewrite Hq, Hp, app_assoc|]. do 2 (split; [done|]). split; [done|]. split; [unfold received, queued; cbn; by rewrite Hb|done].
Qed.

(** [serial_putc] without sleeping: with the queue set up, the byte goes to
    the end of what is sent; if the queue is full and interrupts are off, the
    oldest byte is sent by polling. *)
Lemma serial_putc_queue s b : serial_ok s -> mode s = QUEUE -> 0 <= b < 256 -> count (txq s) < 63 \/ level s = false ->
  exists s', serial_putc lsr rbr b s = Ret (Done tt, s') /\ serial_ok s' /\ stream s' = stream s ++ [b] /\ level s' = level s /\ same_run s s' /\ ier (port s') = wanted s' /\
    received s' = received s /\ length (contents (txq s')) = (if decide (count (txq s) = 63)%Z then 63 else S (length (contents (txq s))))%nat.
Proof.
  intros [Hc Hl] Hm Hb Hcase. set (s0 := at_level s false) in *. unfold serial_putc.
  sstep (run_disable s). sstep (eq_refl : get (at_level s false) = Ret (s0, s0)). rewrite bool_decide_false by (intros Hx; by apply Hx). fold s0.
  pose proof (length_contents (txq s)) as Hlen. pose proof (count_range (txq s)) as Hcr.
  assert (Hgo : exists s1, (do! f := (if negb (level s) then on_txq intq_full else sret false) in
     if (f : bool) then do! c := next_byte in putc_poll lsr rbr c else sret tt) s0 = Ret (tt, s1) /\ core s1 /\ stream s1 = stream s /\
     buffer (mach s1) = buffer (mach s) /\ same_run s0 s1 /\ length (contents (txq s1)) = (if decide (count (txq s) = 63)%Z then 62 else length (contents (txq s)))%nat).
  { destruct (decide (count (txq s) = 63)) as [Hf|Hnf].
    - destruct Hcase as [|Hlf]; [lia|]. assert (Hne : contents (txq s0) <> []) by (change (txq s0) with (txq s); intros E; rewrite E, Hf in Hlen; done).
      destruct (serial_run_drain s0 Hc Hne) as (s1 & E1 & Hc1 & Hst1 & Hn1 & Hb1 & Hs1). exists s1. split; [|split_and!; try done].
      + rewrite Hlf. cbn [negb]. sstep (run_tx_full s0 Hc). change (txq s0) with (txq s). by rewrite Hf.
      + change (txq s0) with (txq s) in Hn1. lia.
    - exists s0. split; [|done]. destruct (level s); cbn [negb]; [done|]. sstep (run_tx_full s0 Hc). change (txq s0) with (txq s). by rewrite (proj2 (Z.eqb_neq _ _) Hnf). }
  destruct Hgo as (s1 & E1 & Hc1 & Hst1 & Hb1 & Hs1 & Hn1). pose proof (length_contents (txq s1)) as Hlen1.
  destruct (run_putc (tx s1) b (co_tx s1 Hc1)) as (x & E2 & Hx & Hq & Hg & _); [cbn; destruct (decide (count (txq s) = 63)); lia|].
  destruct (run_tx_done s1 b x _ _ Hc1 Hb E2 Hx Hq Hg) as (s2 & E3 & Hc2 & Hq2 & Hp2 & Hb2 & Hs2).
  destruct (serial_run_stored s1 s2 b (level s)) as (s' & E4 & R1 & R2 & R3 & R4 & R5 & R6 & R7); try done.
  { intros Hlv. destruct Hs1 as (_ & _ & -> & _). by apply Hl. }
  exists s'. split; [|split; [done|split; [by rewrite R2, Hst1|split; [done|split; [exact (same_run_trans _ _ _ Hs1 R4)|split; [done|split]]]]]].
  - match type of E1 with ?m s0 = _ => assert (Eb : forall k : ST serial (progress unit), (do! f := (if negb (level s) then on_txq intq_full else sret false) in
      do! _ := (if (f : bool) then do! c := next_byte in putc_poll lsr rbr c else sret tt) in k) s0 = k s1) end.
    { intros k. unfold sbind in E1 |- *. destruct ((if negb (level s) then on_txq intq_full else sret false) s0) as [[f s0']|]; [|done]. by rewrite E1. }
    rewrite Eb. sstep E3. exact E4.
  - rewrite R6. unfold received, queued. by rewrite Hb1.
  - rewrite R7, length_app, Hn1. cbn. destruct (decide (count (txq s) = 63)); lia.
Qed.

(** With interrupts on and a full queue the thread sleeps. *)
Lemma serial_putc_sleeps s b : serial_ok s -> mode s = QUEUE -> count (txq s) = 63 -> level s = true -> current s <> idle s -> holder (qlock (txq s)) <> current s ->
  exists p s', serial_putc lsr rbr b s = Ret (Sleeps p, s') /\ core s' /\ stream s' = stream s /\ received s' = received s /\ mode s' = QUEUE /\ port s' = port s /\
    current s' = next_thread (kern (mach s)) /\ sleeps_at (tx (at_level s false)) (tx s') NotFull p.
Proof.
  intros [Hc Hl] Hm Hf Hlt Hni Hh. set (s0 := at_level s false) in *. unfold serial_putc.
  sstep (run_disable s). sstep (eq_refl : get (at_level s false) = Ret (s0, s0)). rewrite bool_decide_false by (intros Hx; by apply Hx). fold s0. rewrite Hlt. cbn [negb].
  sstep (eq_refl : (sret false : ST serial bool) s0 = Ret (false, s0)). sstep (eq_refl : (sret tt : ST serial unit) s0 = Ret (tt, s0)).
  destruct (run_putc_wait (tx s0) b (co_tx s0 Hc) (Hl Hlt) Hni Hh Hf) as (p & x & E & Hs & Hp).
  destruct (run_tx_asleep s0 p x _ Hc E Hs) as (s' & E' & R1 & R2 & R3 & R4 & R5 & R6 & R7). exists p, s'. split; [by sstep E'|].
  split; [done|]. split; [done|]. split; [done|]. split; [by rewrite R5|]. split; [done|]. split; [done|]. unfold sleeps_at in *. cbn [tx buffer]. by rewrite R7.
Qed.

(** The thread that waited runs again and there is a place: its byte goes to
    the end of what is sent. *)
Lemma serial_putc_resumes s b lv : core s -> mode s = QUEUE -> 0 <= b < 256 -> (lv = true -> in_intr s = false) -> holder (qlock (txq s)) = current s -> count (txq s) < 63 ->
  exists s', serial_putc_again lv b InWait s = Ret (Done tt, s') /\ serial_ok s' /\ stream s' = stream s ++ [b] /\ level s' = lv /\ same_run s s' /\
    ier (port s') = wanted s' /\ received s' = received s.
Proof.
  intros Hc Hm Hb Hl Hh Hcnt. destruct (proj1 (run_putc_again (tx s) b (co_tx s Hc) Hh) Hcnt) as (x & E & Hx & Hq & Hg & _).
  destruct (run_tx_done s b x _ _ Hc Hb E Hx Hq Hg) as (s1 & E1 & Hc1 & Hq1 & Hp1 & Hb1 & Hs1).
  destruct (serial_run_stored s s1 b lv) as (s' & E4 & R1 & R2 & R3 & R4 & R5 & R6 & _); try done. exists s'. split; [|done].
  unfold serial_putc_again. sstep E1. exact E4.
Qed.

Lemma sbind_then {S A B C} (m : ST S A) (f : A -> ST S B) (k : B -> ST S C) s b s' :
  (do! a := m in f a) s = Ret (b, s') -> (do! a := m in do! x := f a in k x) s = k b s'.
Proof. unfold sbind. destruct (m s) as [[a s1]|]; [|done]. by intros ->. Qed.

Lemma serial_flush_queue s : serial_ok s ->
  exists s', serial_flush lsr rbr s = Ret (tt, s') /\ serial_ok s' /\ sent (port s') = stream s /\ contents (txq s') = [] /\ level s' = level s /\ received s' = received s /\ same_run s s'.
Proof.
  intros [Hc Hl]. set (s0 := at_level s false) in *. unfold serial_flush. sstep (run_disable s). fold s0.
  match goal with |- context [sloop ?f tt] => destruct (sloop_ind (length (contents (txq s0)))
    (fun n _ s1 => core s1 /\ stream s1 = stream s0 /\ buffer (mach s1) = buffer (mach s0) /\ same_run s0 s1 /\ (length (contents (txq s1)) <= n)%nat)
    (fun _ s1 => core s1 /\ stream s1 = stream s0 /\ buffer (mach s1) = buffer (mach s0) /\ same_run s0 s1 /\ contents (txq s1) = []) f tt s0)
    as ([] & s1 & E & Hc1 & Hst & Hb & Hs & He) end.
  - intros n [] s1 (Hc1 & Hst & Hb & Hs & Hn). destruct (decide (contents (txq s1) = [])) as [He|He].
    + left. exists tt, s1. split; [|done]. sstep (run_tx_empty s1 Hc1). by rewrite bool_decide_true.
    + right. destruct (serial_run_drain s1 Hc1 He) as (s2 & E2 & Hc2 & Hst2 & Hn2 & Hb2 & Hs2). exists (length (contents (txq s2))), tt, s2.
      split; [|split; [split_and!; try congruence; [exact (same_run_trans _ _ _ Hs Hs2)|done]|lia]].
      sstep (run_tx_empty s1 Hc1). rewrite bool_decide_false by done. by rewrite (sbind_then _ _ _ _ _ _ E2).
  - done.
  - pose proof (length_contents (txq s0)). pose proof (count_range (txq s0)). unfold two32. lia.
  - sstep E. pose proof Hs as (_ & _ & Hctx & _). assert (Hl1 : level s = true -> in_intr s1 = false) by (intros; rewrite Hctx; by apply Hl).
    rewrite (run_finish s1 (level s) tt Hl1). eexists. split; [done|]. destruct (restored s1 (level s) Hc1 Hl1) as (R1 & R2 & R3). split; [done|].
    split; [unfold stream at 1 in Hst; rewrite He, app_nil_r in Hst; exact Hst|]. split; [done|]. split; [done|]. split; [|done].
    unfold received, queued. cbn. by rewrite Hb.
Qed.

(** Reading a register. *)
Lemma run_inb s p : core s -> exists s', inb lsr rbr p s = Ret (if p =? LSR_REG then lsr (reads (port s)) else if p =? RBR_REG then rbr (reads (port s)) else 0, s') /\
  core s' /\ mach s' = mach s /\ txq s' = txq s /\ sent (port s') = sent (port s) /\ reads (port s') = S (reads (port s)) /\ same_run s s'.
Proof. intros Hc. eexists. split; [done|]. split; [|done]. apply core_port; [done|apply (co_dlab s Hc)]. Qed.

(** Only the interrupts enabled in the port change. *)
Lemma run_notify s : core s ->
  exists s', serial_notify s = Ret (tt, s') /\ core s' /\ mach s' = mach s /\ txq s' = txq s /\ sent (port s') = sent (port s) /\ reads (port s') = reads (port s) /\ same_run s s' /\
    (mode s = QUEUE -> ier (port s') = wanted s').
Proof.
  intros Hc. unfold serial_notify. sstep (run_assert_off s (core_off s Hc)). sstep (eq_refl : get s = Ret (s, s)).
  case_bool_decide; [|exists s; by split_and!]. rewrite (run_write_ier s Hc). eexists. split; [done|]. split; [apply core_port; [done|apply (co_dlab s Hc)]|done].
Qed.

Lemma run_input_putc s c : core s -> count (buffer (mach s)) < 63 ->
  exists s', input_putc c s = Ret (tt, s') /\ core s' /\ received s' = received s ++ [c] /\ txq s' = txq s /\ sent (port s') = sent (port s) /\
    reads (port s') = reads (port s) /\ kbd (mach s') = kbd (mach s) /\ same_run s s' /\ (mode s = QUEUE -> ier (port s') = wanted s').
Proof.
  intros Hc Hcnt. destruct (run_putc (mach s) c (co_in s Hc) Hcnt) as (x & E & Hx & Hq & Hg & _). unfold input_putc.
  sstep (run_assert_off s (core_off s Hc)). sstep (run_in_full s Hc). sassert by (rewrite (proj2 (Z.eqb_neq _ 63)) by lia; done).
  set (s1 := mkSerial x (txq s) (mode s) (port s) (table s)). assert (E1 : on_input (intq_putc c) s = Ret (Done tt, s1)) by (unfold on_input; by rewrite E). sstep E1.
  assert (Hc1 : core s1) by (apply core_input; [done|done|by apply (goes_on_own (mach s) x _ Hg)]).
  destruct (run_notify s1 Hc1) as (s' & E2 & Hc2 & Hm2 & Hq2 & Hs2 & Hr2 & Hsame & Hi). exists s'. split; [exact E2|]. split; [done|].
  destruct Hg as (G0 & G1 & G2 & G3 & _). split; [unfold received; by rewrite Hm2|]. do 3 (split; [done|]). split; [by rewrite Hm2|]. split; [|done].
  apply (same_run_trans s s1); [by split_and!|done].
Qed.

Lemma received_count s : Z.of_nat (length (received s)) = count (buffer (mach s)).
Proof. apply length_contents. Qed.

(** The bytes that the port has for us: [room] is the number of free places of
    the input buffer and [n] the number of the next read.  With them, the
    number of the read after the loop. *)
Fixpoint arriving (room n : nat) : list Z * nat :=
  match room with
  | O => ([], n)
  | S room' =>
      if Z.land (lsr n) LSR_DR =? 0 then ([], S n)
      else let '(l, n') := arriving room' (S (S n)) in (rbr (S n) :: l, n')
  end.

Lemma arriving_S room n : arriving (S room) n =
  if Z.land (lsr n) LSR_DR =? 0 then ([], S n) else (rbr (S n) :: fst (arriving room (S (S n))), snd (arriving room (S (S n)))).
Proof. cbn. destruct (_ =? 0); [done|]. by destruct (arriving room (S (S n))). Qed.

(** How many of [q] bytes the port takes. *)
Fixpoint departing (q n : nat) : nat :=
  match q with
  | O => O
  | S q' => if Z.land (lsr n) LSR_THRE =? 0 then O else S (departing q' (S n))
  end.

(** The loop that receives. *)
Lemma run_receive s : core s ->
  exists s', sloop (fun _ : unit =>
    do! f := input_full in
    if (f : bool) then sret (@inr unit unit tt) else
    do! v := inb lsr rbr LSR_REG in
    if Z.land v LSR_DR =? 0 then sret (inr tt) else
    do! c := inb lsr rbr RBR_REG in
    do! _ := input_putc c in
    sret (inl tt)) tt s = Ret (tt, s') /\ core s' /\ same_run s s' /\ txq s' = txq s /\ sent (port s') = sent (port s) /\
    (received s', reads (port s')) = let '(rx, n) := arriving (63 - length (received s)) (reads (port s)) in (received s ++ rx, n).
Proof.
  intros Hc. set (goal := let '(rx, n) := arriving (63 - length (received s)) (reads (port s)) in (received s ++ rx, n)).
  match goal with |- exists s', sloop ?f tt s = _ /\ _ => destruct (sloop_ind (63 - length (received s))
    (fun n _ s1 => core s1 /\ same_run s s1 /\ txq s1 = txq s /\ sent (port s1) = sent (port s) /\ n = (63 - length (received s1))%nat /\
       goal = let '(rx, m) := arriving (63 - length (received s1)) (reads (port s1)) in (received s1 ++ rx, m))
    (fun _ s1 => core s1 /\ same_run s s1 /\ txq s1 = txq s /\ sent (port s1) = sent (port s) /\ (received s1, reads (port s1)) = goal) f tt s) as ([] & s' & E & H) end;
    [|by split_and!|unfold two32; lia|by exists s'].
  intros n [] s1 (Hc1 & Hs1 & Hq1 & Hse1 & Hn & Hgoal). rewrite (sbind_run _ _ _ _ _ (run_input_full s1 Hc1)). pose proof (received_count s1) as Hrc. pose proof (count_range (buffer (mach s1))) as Hcr.
  destruct (Z.eqb_spec (count (buffer (mach s1))) 63) as [Hf|Hnf].
  { left. exists tt, s1. split; [done|]. split_and!; try done. rewrite Hgoal. replace (63 - length (received s1))%nat with 0%nat by lia. cbn. by rewrite app_nil_r. }
  assert (Hroom : (63 - length (received s1) = S (62 - length (received s1)))%nat) by lia. rewrite Hroom, arriving_S in Hgoal.
  destruct (run_inb s1 LSR_REG Hc1) as (s2 & E2 & Hc2 & Hma2 & Hq2 & Hse2 & Hr2 & Hs2). rewrite (sbind_run _ _ _ _ _ E2). change (LSR_REG =? LSR_REG) with true. cbn iota.
  destruct (Z.land (lsr (reads (port s1))) LSR_DR =? 0).
  { left. exists tt, s2. split; [done|]. unfold received in *. rewrite Hma2, Hr2. split_and!; try congruence; [exact (same_run_trans _ _ _ Hs1 Hs2)|]. by rewrite Hgoal, app_nil_r. }
  destruct (run_inb s2 RBR_REG Hc2) as (s3 & E3 & Hc3 & Hma3 & Hq3 & Hse3 & Hr3 & Hs3). rewrite (sbind_run _ _ _ _ _ E3).
  change (RBR_REG =? LSR_REG) with false. change (RBR_REG =? RBR_REG) with true. cbn iota. rewrite Hr2 in *.
  destruct (run_input_putc s3 (rbr (S (reads (port s1)))) Hc3) as (s4 & E4 & Hc4 & Hr4 & Hq4 & Hse4 & Hrd4 & _ & Hs4 & _); [rewrite Hma3, Hma2; lia|].
  rewrite (sbind_run _ _ _ _ _ E4). right. exists (63 - length (received s4))%nat, tt, s4. split; [done|].
  assert (Hrec : received s4 = received s1 ++ [rbr (S (reads (port s1)))]) by (rewrite Hr4; unfold received; by rewrite Hma3, Hma2).
  assert (Hlen4 : length (received s4) = S (length (received s1))) by (rewrite Hrec, length_app; cbn; lia). split; [|lia].
  split; [done|]. split; [exact (same_run_trans _ _ _ Hs1 (same_run_trans _ _ _ Hs2 (same_run_trans _ _ _ Hs3 Hs4)))|]. split; [congruence|]. split; [congruence|]. split; [done|].
  rewrite Hgoal, Hrd4, Hr3, Hrec. replace (63 - length (received s1 ++ [rbr (S (reads (port s1)))]))%nat with (62 - length (received s1))%nat by (rewrite length_app; cbn; lia).
  destruct (arriving (62 - length (received s1)) (S (S (reads (port s1))))) as [l m]. cbn [fst snd]. by rewrite <- app_assoc.
Qed.

(** The loop that transmits. *)
Lemma run_transmit s : core s ->
  exists s', sloop (fun _ : unit =>
    do! e := on_txq intq_empty in
    if (e : bool) then sret (@inr unit unit tt) else
    do! v := inb lsr rbr LSR_REG in
    if Z.land v LSR_THRE =? 0 then sret (inr tt) else
    do! c := next_byte in
    do! _ := outb THR_REG c in
    sret (inl tt)) tt s = Ret (tt, s') /\ core s' /\ same_run s s' /\ stream s' = stream s /\ received s' = received s /\
    length (sent (port s')) = (length (sent (port s)) + departing (length (contents (txq s))) (reads (port s)))%nat.
Proof.
  intros Hc. set (goal := (length (sent (port s)) + departing (length (contents (txq s))) (reads (port s)))%nat).
  match goal with |- exists s', sloop ?f tt s = _ /\ _ => destruct (sloop_ind (length (contents (txq s)))
    (fun n _ s1 => core s1 /\ same_run s s1 /\ stream s1 = stream s /\ received s1 = received s /\ n = length (contents (txq s1)) /\
       goal = (length (sent (port s1)) + departing (length (contents (txq s1))) (reads (port s1)))%nat)
    (fun _ s1 => core s1 /\ same_run s s1 /\ stream s1 = stream s /\ received s1 = received s /\ length (sent (port s1)) = goal) f tt s) as ([] & s' & E & H) end;
    [|by split_and!|pose proof (length_contents (txq s)); pose proof (count_range (txq s)); unfold two32; lia|by exists s'].
  intros n [] s1 (Hc1 & Hs1 & Hst1 & Hrx & Hn & Hgoal). rewrite (sbind_run _ _ _ _ _ (run_tx_empty s1 Hc1)).
  case_bool_decide as He. { left. exists tt, s1. split; [done|]. split_and!; try done. rewrite Hgoal, He. cbn. lia. }
  destruct (run_inb s1 LSR_REG Hc1) as (s2 & E2 & Hc2 & Hma2 & Hq2 & Hse2 & Hr2 & Hs2). rewrite (sbind_run _ _ _ _ _ E2). change (LSR_REG =? LSR_REG) with true. cbn iota.
  destruct (contents (txq s1)) as [|c0 cs] eqn:Ec; [done|]. cbn [length departing] in Hgoal. destruct (Z.land (lsr (reads (port s1))) LSR_THRE =? 0).
  { left. exists tt, s2. split; [done|]. unfold received, stream in *. rewrite Hma2, Hse2, Hq2, Ec. split_and!; try congruence; [exact (same_run_trans _ _ _ Hs1 Hs2)|lia]. }
  destruct (run_next_byte s2 Hc2) as (b & s3 & E3 & Hc3 & Hq3 & Hp3 & Hb3 & Hs3 & Hb0); [rewrite Hq2, Ec; done|]. rewrite (sbind_run _ _ _ _ _ E3).
  rewrite (sbind_run _ _ _ _ _ (run_thr s3 b (co_dlab s3 Hc3) Hb0)). right. match goal with |- context [with_port s3 ?u] => exists (length (contents (txq s3))), tt, (with_port s3 u) end.
  rewrite Hq2, Ec in Hq3. injection Hq3 as -> Hcs. split; [done|]. split; [|rewrite Hn, Hcs; cbn; lia].
  split; [apply core_port; [done|apply (co_dlab s3 Hc3)]|]. split; [exact (same_run_trans _ _ _ Hs1 (same_run_trans _ _ _ Hs2 Hs3))|].
  split; [rewrite <- Hst1; unfold stream; cbn; rewrite Hp3, Hse2, Ec, Hcs, <- app_assoc; done|].
  split; [unfold received, queued in *; cbn; rewrite Hb3, Hma2; done|]. split; [done|]. cbn. rewrite Hgoal, Hp3, Hse2, Hr2, length_app, Hcs. cbn. lia.
Qed.

Lemma serial_interrupt_queue s : core s ->
  exists s', serial_interrupt lsr rbr s = Ret (tt, s') /\ core s' /\ same_run s s' /\ stream s' = stream s /\ ier (port s') = wanted s' /\
    let '(rx, n) := arriving (63 - length (received s)) (S (reads (port s))) in
    received s' = received s ++ rx /\ length (sent (port s')) = (length (sent (port s)) + departing (length (contents (txq s))) n)%nat.
Proof.
  intros Hc. unfold serial_interrupt. destruct (run_inb s IIR_REG Hc) as (s1 & E1 & Hc1 & Hma1 & Hq1 & Hse1 & Hr1 & Hs1). sstep E1.
  destruct (run_receive s1 Hc1) as (s2 & E2 & Hc2 & Hs2 & Hq2 & Hse2 & Hr2). sstep E2.
  destruct (run_transmit s2 Hc2) as (s3 & E3 & Hc3 & Hs3 & Hst3 & Hr3 & Hn3). sstep E3. rewrite (run_write_ier s3 Hc3). eexists. split; [done|].
  split; [apply core_port; [done|apply (co_dlab s3 Hc3)]|]. split; [exact (same_run_trans _ _ _ Hs1 (same_run_trans _ _ _ Hs2 Hs3))|].
  split; [change (stream s3 = stream s); rewrite Hst3; unfold stream; congruence|]. split; [done|]. unfold received in Hr2. rewrite Hma1, Hr1 in Hr2. fold (received s) (received s2) in Hr2.
  destruct (arriving _ _) as [rx n]. injection Hr2 as R1 R2. change (received s3 = received s ++ rx /\ length (sent (port s3)) = (length (sent (port s)) + departing (length (contents (txq s))) n)%nat).
  rewrite Hr3, Hn3, Hq2, Hq1, Hse2, Hse1, R2. done.
Qed.

Lemma input_getc_queue s : serial_ok s -> received s <> [] ->
  exists c s', input_getc s = Ret (Done c, s') /\ serial_ok s' /\ received s = c :: received s' /\ stream s' = stream s /\ level s' = level s /\ same_run s s' /\
    (mode s = QUEUE -> ier (port s') = wanted s').
Proof.
  intros [Hc Hl] Hne. set (s0 := at_level s false) in *. unfold input_getc. sstep (run_disable s). fold s0.
  destruct (run_getc (mach s0) (co_in s0 Hc) Hne) as (c & x & E & Hx & Hq & Hg & _). set (s1 := mkSerial x (txq s) (mode s) (port s) (table s)).
  assert (E1 : on_input intq_getc s0 = Ret (Done c, s1)) by (unfold on_input; by rewrite E). sstep E1.
  assert (Hc1 : core s1) by (apply (core_input s0); [done|done|by apply (goes_on_own (mach s0) x _ Hg)]).
  destruct (run_notify s1 Hc1) as (s2 & E2 & Hc2 & Hm2 & Hq2 & Hs2 & Hr2 & Hsame & Hi). unfold input_taken. sstep E2.
  destruct Hg as (G0 & G1 & G2 & G3 & _). assert (Hs : same_run s s2) by (apply (same_run_trans s s1); [by split_and!|done]). pose proof Hs as (_ & _ & Hctx & _).
  assert (Hl2 : level s = true -> in_intr s2 = false) by (intros; rewrite Hctx; auto). rewrite (run_finish s2 (level s) (Done c) Hl2).
  destruct (restored s2 (level s) Hc2 Hl2) as (R1 & R2 & R3). exists c. eexists. split; [done|]. split; [done|]. split; [unfold received; cbn; by rewrite Hm2|].
  split; [rewrite R2; unfold stream; by rewrite Hq2, Hs2|]. done.
Qed.
End hardware.

(** ** The byte stream *)

(** C19: No byte is lost, repeated or reordered on the serial port.  If the
    port is always ready again after a while, then with the queue set up:
    - [serial_putc] appends its byte to the bytes sent and queued, unless the
      queue is full (63 bytes) and interrupts are on; then the thread (not the
      idle thread, and not one that has the lock of the queue already) sleeps,
      as the waiter of the queue or for its lock, and when the waiter runs
      again with a place in the queue it appends its byte;
    - [serial_flush] sends everything;
    - the interrupt handler appends to the input buffer the bytes that it reads
      from the receiver while data is ready and there is room (63 bytes), and
      sends the oldest bytes of the queue while the transmitter is ready;
    - [input_getc] takes the oldest byte of the input buffer.
    At the end the interrupts enabled in the port are those for which there is
    something to do (bytes to send, room to receive), and the interrupt level
    is as before. *)
Theorem serial_correct lsr rbr s b :
  (forall n, exists k, Z.of_nat k < 1000000000 /\ Z.land (lsr (n + k)%nat) LSR_THRE <> 0) ->
  serial_ok s -> mode s = QUEUE -> 0 <= b < 256 ->
  (length (contents (txq s)) <> 63%nat \/ level s = false ->
   exists s', serial_putc lsr rbr b s = Ret (Done tt, s') /\ serial_ok s' /\ stream s' = stream s ++ [b] /\ received s' = received s /\ level s' = level s /\
     same_run s s' /\ ier (port s') = wanted s') /\
  (length (contents (txq s)) = 63%nat -> level s = true -> current s <> idle s -> holder (qlock (txq s)) <> current s ->
   exists p s', serial_putc lsr rbr b s = Ret (Sleeps p, s') /\ serial_ok s' /\ stream s' = stream s /\ received s' = received s /\ mode s' = QUEUE /\
     current s' = next_thread (kern (mach s)) /\ sleeps_at (tx (at_level s false)) (tx s') NotFull p) /\
  (level s = false -> in_intr s = false -> holder (qlock (txq s)) = current s -> (length (contents (txq s)) < 63)%nat ->
   exists s', serial_putc_again true b InWait s = Ret (Done tt, s') /\ serial_ok s' /\ stream s' = stream s ++ [b] /\ received s' = received s /\ level s' = true /\
     same_run s s' /\ ier (port s') = wanted s') /\
  (exists s', serial_flush lsr rbr s = Ret (tt, s') /\ serial_ok s' /\ sent (port s') = stream s /\ contents (txq s') = [] /\ received s' = received s /\ level s' = level s /\
     same_run s s') /\
  (level s = false ->
   let '(rx, n) := arriving lsr rbr (63 - length (received s)) (S (reads (port s))) in
   exists s', serial_interrupt lsr rbr s = Ret (tt, s') /\ serial_ok s' /\ received s' = received s ++ rx /\
     sent (port s') = sent (port s) ++ take (departing lsr (length (contents (txq s))) n) (contents (txq s)) /\ stream s' = stream s /\
     level s' = false /\ same_run s s' /\ ier (port s') = wanted s') /\
  (received s <> [] ->
   exists c s', input_getc s = Ret (Done c, s') /\ serial_ok s' /\ received s = c :: received s' /\ stream s' = stream s /\ level s' = level s /\ same_run s s' /\
     ier (port s') = wanted s').
Proof.
  intros Hready Hok Hm Hb. pose proof (length_contents (txq s)) as Hlen. pose proof (count_range (txq s)) as Hcr. split_and!.
  - intros Hcase. destruct (serial_putc_queue lsr rbr Hready s b Hok Hm Hb) as (s' & E & R1 & R2 & R3 & R4 & R5 & R6 & _); [|by exists s'; split_and!].
    destruct Hcase as [Hn|]; [left|by right]. lia.
  - intros Hf Hl Hni Hh. destruct (serial_putc_sleeps lsr rbr s b Hok Hm) as (p & s' & E & R1 & R2 & R3 & R4 & _ & R5 & R6); [lia|done|done|done|].
    exists p, s'. split; [done|]. split; [by apply core_ok|]. by split_and!.
  - intros Hl Hctx Hh Hn. destruct (serial_putc_resumes s b true (ok_core s Hok Hl) Hm Hb) as (s' & E & R1 & R2 & R3 & R4 & R5 & R6); [done|done|lia|]. exists s'. by split_and!.
  - destruct (serial_flush_queue lsr rbr Hready s Hok) as (s' & E & R1 & R2 & R3 & R4 & R5 & R6). exists s'. by split_and!.
  - intros Hl. destruct (serial_interrupt_queue lsr rbr s (ok_core s Hok Hl)) as (s' & E & R1 & R2 & R3 & R4 & R5). destruct (arriving _ _ _ _) as [rx n]. destruct R5 as [R5 R6].
    exists s'. split; [done|]. split; [by apply core_ok|]. split; [done|]. split; [|split; [done|split; [by apply core_off|done]]].
    rewrite <- take_app_add, <- R6. change (sent (port s') = take (length (sent (port s'))) (stream s)). rewrite <- R3. unfold stream. by rewrite take_app_length.
  - intros Hne. destruct (input_getc_queue s Hok Hne) as (c & s' & E & R1 & R2 & R3 & R4 & R5 & R6). exists c, s'. split_and!; try done. by apply R6.
Qed.

(** *** Concrete ports *)

Definition demo_port (l : bool) (q : intq) : serial :=
  at_level (mkSerial demo_machine q QUEUE (mkUart 3 3 0 8 12 [] 0) (mkIntrs (replicate 256 0) (replicate 256 0) (replicate 256 0) (replicate 256 0))) l.

Lemma demo_port_ok l lk h t bs : lk = lock_init \/ lk = mkLock 4096 0 [] -> length bs = 64%nat -> 0 <= h < 64 -> 0 <= t < 64 ->
  Forall (fun b => 0 <= b < 256) (contents (mkIntq lk NULL NULL bs h t)) -> serial_ok (demo_port l (mkIntq lk NULL NULL bs h t)).
Proof.
  intros Hlk Hl Hh Ht Hbs. split; [|done]. destruct demo_machine_ok as (Hk & _ & Hq). split; [split; [done|split; [done|exact Hq]]|..]; try done.
  - split; [done|]. split; [done|]. split; [split; [done|split; done]|]. assert (sleepers (mkIntq lk NULL NULL bs h t) = []) as Hs by (destruct Hlk as [-> | ->]; done).
    split; [split; [destruct Hlk as [-> | ->]; [by right|by left]|by intros []]|]. cbn [tx buffer at_level demo_port txq]. rewrite Hs. split; [constructor|]. by split; [constructor|].
  - cbn [at_level demo_port txq mach]. assert (sleepers (buffer demo_machine) = []) as Hs by done. intros t' Hx. cbn [buffer] in Hx. rewrite Hs in Hx. set_solver.
Qed.

(** Three bytes queued; a full queue and interrupts on; a thread that waited
    with the lock and runs again, with a place for its byte. *)
Definition demo_serial : serial := demo_port false (mkIntq lock_init NULL NULL ([104; 105; 10] ++ replicate 61 0) 3 0).
Definition demo_full : serial := demo_port true (mkIntq lock_init NULL NULL (replicate 64 7) 63 0).
Definition demo_woken : serial := demo_port false (mkIntq (mkLock 4096 0 []) NULL NULL (replicate 64 7) 63 1).

Lemma demo_serial_ok : serial_ok demo_serial.
Proof. apply demo_port_ok; [by left|done..|]. vm_compute. repeat constructor; done. Qed.

(** The port has data at the reads 1 and 3 and is ready to send at the reads
    6, 8, ... *)
Definition demo_lsr (n : nat) : Z := (if bool_decide (n < 5)%nat then 1 else 0) + (if bool_decide (5 < n)%nat && Nat.even n then 32 else 0).

Lemma demo_lsr_ready n : exists k, Z.of_nat k < 1000000000 /\ Z.land (demo_lsr (n + k)%nat) LSR_THRE <> 0.
Proof.
  exists (if bool_decide (n <= 5)%nat then 6 - n else if Nat.even n then 0 else 1)%nat. unfold demo_lsr. case_bool_decide as Hn.
  - replace (n + (6 - n))%nat with 6%nat by lia. split; [lia|done].
  - destruct (Nat.even n) eqn:E; (split; [done|]).
    + rewrite Nat.add_0_r, E, bool_decide_false, bool_decide_true by lia. done.
    + rewrite Nat.add_1_r, Nat.even_succ, <- Nat.negb_even, E, bool_decide_false, bool_decide_true by lia. done.
Qed.

Lemma serial_correct_witness :
  (exists s', serial_putc demo_lsr (fun n => Z.of_nat n) 33 demo_serial = Ret (Done tt, s') /\ stream s' = [104; 105; 10; 33]) /\
  (exists s', serial_interrupt demo_lsr (fun n => Z.of_nat n) demo_serial = Ret (tt, s') /\ received s' = [104; 7; 2; 4] /\ sent (port s') = [104]) /\
  (exists p s', serial_putc demo_lsr (fun n => Z.of_nat n) 33 demo_full = Ret (Sleeps p, s') /\ stream s' = replicate 63 7) /\
  (exists s', serial_putc_again true 33 InWait demo_woken = Ret (Done tt, s') /\ stream s' = replicate 62 7 ++ [33]).
Proof.
  assert (O2 : serial_ok demo_full) by (apply demo_port_ok; [by left|done..|]; vm_compute; repeat constructor; done).
  assert (O3 : serial_ok demo_woken) by (apply demo_port_ok; [by right|done..|]; vm_compute; repeat constructor; done).
  destruct (serial_correct demo_lsr (fun n => Z.of_nat n) demo_serial 33 demo_lsr_ready demo_serial_ok) as (H1 & _ & _ & _ & H2 & _); [done|lia|].
  destruct (serial_correct demo_lsr (fun n => Z.of_nat n) demo_full 33 demo_lsr_ready O2) as (_ & H3 & _); [done|lia|].
  destruct (serial_correct demo_lsr (fun n => Z.of_nat n) demo_woken 33 demo_lsr_ready O3) as (_ & _ & H4 & _); [done|lia|]. split; [|split; [|split]].
  - destruct H1 as (s' & E & _ & R & _); [by right|]. exists s'. split; [exact E|]. rewrite R. vm_compute. reflexivity.
  - specialize (H2 eq_refl). assert (Ea : arriving demo_lsr (fun n => Z.of_nat n) (63 - length (received demo_serial)) (S (reads (port demo_serial))) = ([2; 4], 6%nat)) by (vm_compute; reflexivity).
    rewrite Ea in H2. destruct H2 as (s' & E & _ & R1 & R2 & _). exists s'. split; [exact E|]. rewrite R1, R2. split; vm_compute; reflexivity.
  - destruct H3 as (p & s' & E & _ & R & _); [vm_compute; reflexivity|reflexivity|vm_compute; discriminate|vm_compute; discriminate|]. exists p, s'. split; [exact E|]. rewrite R. vm_compute. reflexivity.
  - destruct H4 as (s' & E & _ & R & _); [reflexivity|reflexivity|vm_compute; reflexivity|vm_compute; lia|]. exists s'. split; [exact E|]. rewrite R. vm_compute. reflexivity.
Defined.

(** From the reset state: 9600 bps, then a byte by polling. *)
Example init_poll_demo :
  match serial_putc (fun n => 32) (fun _ => 0) 65 (mkSerial demo_machine (intq_init (replicate 64 0)) UNINIT (mkUart 0 0 0 0 0 [] 0) (table demo_serial)) with
  | Ret (r, s) => r = Done tt /\ sent (port s) = [65] /\ divisor (port s) = 12 /\ lcr (port s) = 3 /\ mode s = POLL
  | Err _ => False
  end.
Proof. vm_compute. repeat split. Qed.
