(* ===== verification/Kbd.v ===== *)
(** * The keyboard ([devices/kbd.c])

    The scan codes, the keymaps, the state of the shift keys and the interrupt
    handler, which puts characters into the input buffer of [Serial]. *)
From stdpp Require Import prelude list gmap.
From Stdlib Require Import ZArith Lia.
From S2P Require Import Prelude Thread Input Serial.
#[local] Open Scope Z_scope.

(** ** The driver *)

(** Character codes. *)
Definition invariant_keymap : list (Z * list Z) :=
  [(1, [27]); (14, [8]); (15, [9; 81; 87; 69; 82; 84; 89; 85; 73; 79; 80]); (28, [13]);
   (30, [65; 83; 68; 70; 71; 72; 74; 75; 76]); (44, [90; 88; 67; 86; 66; 78; 77]); (55, [42]); (57, [32]); (83, [127])].

Definition unshifted_keymap : list (Z * list Z) :=
  [(2, [49; 50; 51; 52; 53; 54; 55; 56; 57; 48; 45; 61]); (26, [91; 93]); (39, [59; 39; 96]); (43, [92]); (51, [44; 46; 47])].

Definition shifted_keymap : list (Z * list Z) :=
  [(2, [33; 64; 35; 36; 37; 94; 38; 42; 40; 41; 95; 43]); (26, [123; 125]); (39, [58; 34; 126]); (43, [124]); (51, [60; 62; 63])].

Fixpoint map_key (k : list (Z * list Z)) (scancode : Z) : option Z :=
  match k with
  | [] => None
  | (first, chars) :: k =>
      if (first <=? scancode) && (scancode <? first + Z.of_nat (length chars)) then chars !! Z.to_nat (scancode - first)
      else map_key k scancode
  end.

Definition isupper (c : Z) : bool := (65 <=? c) && (c <=? 90).
Definition tolower (c : Z) : Z := if isupper c then c - 65 + 97 else c.

Definition shift (x : keyboard) : bool := left_shift x || right_shift x.
Definition alt (x : keyboard) : bool := left_alt x || right_alt x.
Definition ctrl (x : keyboard) : bool := left_ctrl x || right_ctrl x.

(** The character of a key that is pressed. *)
Definition key_char (x : keyboard) (code : Z) : option Z :=
  match map_key invariant_keymap code with
  | Some c => Some c
  | None => map_key (if shift x then shifted_keymap else unshifted_keymap) code
  end.

(** [c] after Ctrl, Shift and Alt. *)
Definition modified (x : keyboard) (c : Z) : Z :=
  let c := if ctrl x && (64 <=? c) && (c <? 96) then c - 64
           else if Bool.eqb (shift x) (caps_lock x) then tolower c else c in
  if alt x then (c + 128) mod 256 else c.

(** [*key->state_var = v] for the key of [shift_keys] with this code. *)
Definition set_shift_key (x : keyboard) (code : Z) (v : bool) : keyboard :=
  let '(mkKeyboard ls rs la ra lc rc cl n) := x in
  if code =? 42 then mkKeyboard v rs la ra lc rc cl n
  else if code =? 54 then mkKeyboard ls v la ra lc rc cl n
  else if code =? 56 then mkKeyboard ls rs v ra lc rc cl n
  else if code =? 57400 then mkKeyboard ls rs la v lc rc cl n
  else if code =? 29 then mkKeyboard ls rs la ra v rc cl n
  else if code =? 57373 then mkKeyboard ls rs la ra lc v cl n
  else x.

Definition with_caps (x : keyboard) (v : bool) : keyboard :=
  mkKeyboard (left_shift x) (right_shift x) (left_alt x) (right_alt x) (left_ctrl x) (right_ctrl x) v (key_cnt x).
Definition with_key_cnt (x : keyboard) (n : Z) : keyboard :=
  mkKeyboard (left_shift x) (right_shift x) (left_alt x) (right_alt x) (left_ctrl x) (right_ctrl x) (caps_lock x) n.

(** [b0] and [b1] are the bytes that reading the data port gives; the second
    is read after a prefix code.  [true]: the machine is rebooted. *)
Definition keyboard_interrupt (b0 b1 : Z) : ST serial bool := fun s =>
  let x := kbd (mach s) in
  let code := if b0 =? 224 then Z.lor (Z.shiftl b0 8) b1 else b0 in
  let release := negb (Z.land code 128 =? 0) in
  let code := Z.ldiff code 128 in
  if code =? 58 then
    (do! _ := (if negb release then on_input (set_keyboard (with_caps x (negb (caps_lock x)))) else sret tt) in sret false) s
  else
    match key_char x code with
    | Some c =>
        if negb release then
          if (c =? 127) && ctrl x && alt x then Ret (true, s)
          else
            (do! f := input_full in
             if negb f then
               do! _ := on_input (set_keyboard (with_key_cnt x (s64 (key_cnt x + 1)))) in
               do! _ := input_putc (modified x c) in
               sret false
             else sret false) s
        else Ret (false, s)
    | None => (do! _ := on_input (set_keyboard (set_shift_key x code (negb release))) in sret false) s
    end.

(** ** The handler *)

(** The key of an interrupt, and whether it is pressed. *)
Definition raw_code (b0 b1 : Z) : Z := if b0 =? 224 then Z.lor (Z.shiftl b0 8) b1 else b0.
Definition key_of (b0 b1 : Z) : Z := Z.ldiff (raw_code b0 b1) 128.
Definition pressed (b0 b1 : Z) : bool := Z.land (raw_code b0 b1) 128 =? 0.

Definition shift_keys : list (Z * (keyboard -> bool)) :=
  [(42, left_shift); (54, right_shift); (56, left_alt); (57400, right_alt); (29, left_ctrl); (57373, right_ctrl)].

(** Scan codes of the letters, with the letters in upper case. *)
Definition letters : list (Z * Z) :=
  zip [16; 17; 18; 19; 20; 21; 22; 23; 24; 25] [81; 87; 69; 82; 84; 89; 85; 73; 79; 80] ++
  zip [30; 31; 32; 33; 34; 35; 36; 37; 38] [65; 83; 68; 70; 71; 72; 74; 75; 76] ++
  zip [44; 45; 46; 47; 48; 49; 50] [90; 88; 67; 86; 66; 78; 77].

Lemma shift_key_char x : Forall (fun '(c, _) => key_char x c = None /\ c <> 58) shift_keys.
Proof. unfold key_char. repeat constructor; destruct (shift x); by vm_compute. Qed.

Lemma set_shift_key_spec x code v :
  Forall (fun '(c, f) => f (set_shift_key x code v) = if code =? c then v else f x) shift_keys.
Proof.
  destruct x as [ls rs la ra lc rc cl n]. unfold set_shift_key. repeat constructor; bool_cases; subst; done || lia.
Qed.

Lemma shift_keys_caps x b : Forall (fun '(_, f) => f (with_caps x b) = f x) shift_keys.
Proof. repeat constructor. Qed.

Lemma shift_keys_cnt x n : Forall (fun '(_, f) => f (with_key_cnt x n) = f x) shift_keys.
Proof. repeat constructor. Qed.

(** The state with another keyboard. *)
Definition typed_keys (s : serial) (x : keyboard) : serial :=
  mkSerial (mkMachine (kern (mach s)) (buffer (mach s)) x) (txq s) (mode s) (port s) (table s).

Lemma core_keys s x : core s -> core (typed_keys s x).
Proof. intros []. by split. Qed.

(** What the handler does with a key that has a character. *)
Lemma run_char s c :
  core s -> let x := kbd (mach s) in
  exists s', (do! f := input_full in
     if negb f then
       do! _ := on_input (set_keyboard (with_key_cnt x (s64 (key_cnt x + 1)))) in
       do! _ := input_putc c in
       sret false
     else sret false) s = Ret (false, s') /\ core s' /\ stream s' = stream s /\ same_run s s' /\
    ((length (received s) = 63%nat /\ s' = s) \/
     ((length (received s) < 63)%nat /\ received s' = received s ++ [c] /\ kbd (mach s') = with_key_cnt x (s64 (key_cnt x + 1)))).
Proof.
  intros Hc x. sstep (run_input_full s Hc). pose proof (received_count s) as Hr. pose proof (count_range (buffer (mach s))).
  destruct (Z.eqb_spec (count (buffer (mach s))) 63) as [He|Hne]; cbn [negb].
  - exists s. split; [done|]. split; [done|]. split; [done|]. split; [by split_and!|]. left. split; [lia|done].
  - set (s1 := mkSerial (mkMachine (kern (mach s)) (buffer (mach s)) (with_key_cnt x (s64 (key_cnt x + 1)))) (txq s) (mode s) (port s) (table s)).
    rewrite (sbind_run _ _ s tt s1) by done. cbv beta. assert (Hc1 : core s1) by (destruct Hc; by split).
    destruct (run_input_putc s1 c Hc1) as (s' & E & R1 & R2 & R3 & R4 & _ & R5 & R6 & _); [cbn; lia|]. sstep E. exists s'. split; [done|]. split; [done|].
    split; [unfold stream; by rewrite R3, R4|]. split; [exact R6|]. right. split; [lia|]. by split.
Qed.

(** The keyboard handler, with interrupts off.  For every pair of bytes read from the port,
    the handler returns with the invariant intact and without switching
    threads; it puts at most one byte, at the end of the queue, and counts it.
    The bytes to
    be sent stay as they are.  It asks for a reboot only when Delete is pressed under Ctrl and Alt.  Each
    of the six shift keys is tracked: its flag tells whether the last event of
    the key was a press, and no other event changes it; Caps Lock toggles when
    it is pressed.  A letter that is pressed without Ctrl and Alt arrives in
    upper case exactly when one of Shift and Caps Lock is on. *)
Theorem keyboard_correct s b0 b1 :
  core s -> 0 <= b0 < 256 -> 0 <= b1 < 256 ->
  let x := kbd (mach s) in
  exists reboot s', keyboard_interrupt b0 b1 s = Ret (reboot, s') /\ core s' /\ stream s' = stream s /\ same_run s s' /\
    (received s' = received s \/ exists c, received s' = received s ++ [c] /\ key_cnt (kbd (mach s')) = s64 (key_cnt x + 1)) /\
    (reboot = true -> s' = s /\ ctrl x = true /\ alt x = true /\ pressed b0 b1 = true /\ key_char x (key_of b0 b1) = Some 127) /\
    Forall (fun '(c, f) => f (kbd (mach s')) = if key_of b0 b1 =? c then pressed b0 b1 else f x) shift_keys /\
    caps_lock (kbd (mach s')) = (if (key_of b0 b1 =? 58) && pressed b0 b1 then negb (caps_lock x) else caps_lock x) /\
    (forall c, (key_of b0 b1, c) ∈ letters -> pressed b0 b1 = true -> ctrl x = false -> alt x = false -> (length (received s) < 63)%nat ->
       received s' = received s ++ [if xorb (shift x) (caps_lock x) then c else c + 32]).
Proof.
  intros Hok Hb0 Hb1 x. unfold keyboard_interrupt. fold (raw_code b0 b1). fold (key_of b0 b1). fold (pressed b0 b1).
  fold x. set (code := key_of b0 b1). set (pr := pressed b0 b1). cbv zeta. rewrite negb_involutive.
  pose proof (shift_key_char x) as Hsk.
  assert (forall c, (code, c) ∈ letters -> code <> 58 /\ key_char x code = Some c /\ 65 <= c <= 90) as Hlet.
  { intros c Hc. assert (Forall (fun '(k, c) => k <> 58 /\ (forall y, key_char y k = Some c) /\ 65 <= c <= 90) letters) as Hall
      by (repeat constructor; try (vm_compute; congruence); intros y; by vm_compute). destruct (proj1 (Forall_forall _ _) Hall (code, c) Hc) as (? & ? & ?). auto. }
  destruct (Z.eqb_spec code 58) as [Hc58|Hn58].
  { exists false, (typed_keys s (if pr then with_caps x (negb (caps_lock x)) else x)). split; [destruct pr; [done|by destruct s as [[]]]|]. split; [by apply core_keys|].
    split; [done|]. split; [by split_and!|]. split; [by left|]. split; [done|]. split; [|split; [cbn; by destruct pr|intros c Hc; by destruct (Hlet c Hc)]].
    cbn [kbd mach typed_keys]. eapply Forall_impl; [exact (proj2 (Forall_and _ _) (conj Hsk (shift_keys_caps x (negb (caps_lock x)))))|].
    intros [c f] [[_ Hc] Hf]. cbn in *. rewrite (proj2 (Z.eqb_neq code c)) by congruence. by destruct pr. }
  cbn [andb]. destruct (key_char x code) as [c|] eqn:Hkc.
  2:{ exists false, (typed_keys s (set_shift_key x code pr)). split; [done|]. split; [by apply core_keys|]. split; [done|]. split; [by split_and!|]. split; [by left|]. split; [done|].
      split; [apply (set_shift_key_spec x code pr)|]. split; [|intros c Hc; destruct (Hlet c Hc) as (_ & ? & _); congruence].
      cbn. unfold set_shift_key. destruct x. by repeat case_match. }
  assert (Forall (fun '(c, f) => f x = if code =? c then pr else f x) shift_keys) as Hsame.
  { eapply Forall_impl; [exact Hsk|]. intros [c' f] [Hc' _]. rewrite (proj2 (Z.eqb_neq code c')) by congruence. done. }
  destruct pr.
  2:{ exists false, s. split; [done|]. split; [done|]. split; [done|]. split; [by split_and!|]. split; [by left|]. split; [done|]. split; [done|]. split; [done|]. done. }
  destruct ((c =? 127) && ctrl x && alt x) eqn:Hreb.
  - rewrite !andb_true_iff, Z.eqb_eq in Hreb. destruct Hreb as [[-> Hct] Hal]. exists true, s. split; [done|]. split; [done|]. split; [done|]. split; [by split_and!|]. split; [by left|].
    split; [done|]. split; [done|]. split; [done|]. intros c Hc _ Hctf. congruence.
  - destruct (run_char s (modified x c) Hok) as (s' & Hr & Hok' & Hst & Hrun & Hcase). exists false, s'. split; [exact Hr|]. do 3 (split; [done|]).
    assert (exists n, kbd (mach s') = with_key_cnt x n) as [n Hkb]. { destruct Hcase as [[_ ->]|(_ & _ & ->)]; [exists (key_cnt x); unfold x; by destruct (kbd (mach s))|eauto]. }
    split; [destruct Hcase as [[_ ->]|(_ & Hq & Hk)]; [by left|right; exists (modified x c); by rewrite Hk]|]. split; [done|].
    split; [rewrite Hkb; eapply Forall_impl; [exact (proj2 (Forall_and _ _) (conj Hsame (shift_keys_cnt x n)))|]; intros [c0 f0] [H1 H2]; cbn in *; by rewrite H2|].
    split; [by rewrite Hkb|]. intros c' Hc' _ Hct Hal Hlt. destruct (Hlet c' Hc') as (_ & Heq & Hrange). injection Heq as ->.
    destruct Hcase as [[? _]|(_ & -> & _)]; [lia|]. do 2 f_equal. unfold modified. fold x in Hct, Hal. rewrite Hct, Hal. cbn [andb].
    unfold tolower, isupper. rewrite (proj2 (Z.leb_le 65 c')), (proj2 (Z.leb_le c' 90)) by lia. cbn [andb].
    destruct (shift x), (caps_lock x); cbn; lia.
Qed.

(** Right Shift is held: the A key gives an upper-case letter. *)
Lemma keyboard_correct_witness :
  exists reboot s', keyboard_interrupt 30 0 demo_serial = Ret (reboot, s') /\ received s' = [104; 7; 65].
Proof.
  destruct (keyboard_correct demo_serial 30 0 (ok_core _ demo_serial_ok eq_refl)) as (r & s' & H & _ & _ & _ & _ & _ & _ & _ & Hlet); [lia|lia|].
  exists r, s'. split; [exact H|]. rewrite (Hlet 65); [by vm_compute|..]; [|by vm_compute..|vm_compute; lia].
  apply (bool_decide_unpack _). by vm_compute.
Defined.
