(* ===== verification/Console.v ===== *)
(** * The console ([lib/kernel/console.c])

    The functions that print, on the serial port of [Serial] and the screen of
    [Vga]; the characters of [vprintf] come from [Stdio].  Strings and formats
    are in a memory [m].  The console lock is its holder; a thread that finds it
    taken by another one, or that finds the transmit queue full with interrupts
    on, sleeps: the result [false] or [None].  The theorem is about the calls
    that do not sleep: all those with interrupts off, and those with interrupts
    on that find room in the transmit queue. *)
From Stdlib Require Import ZArith Lia String.
From stdpp Require Import prelude list gmap.
From S2P Require Import Prelude Strings Stdio Thread Segments Input Clock Vga Serial.
#[local] Open Scope Z_scope.
#[local] Abbreviation length := Datatypes.length.

Record console : Type := mkConsole {
  serial_port : serial;
  screen : vga;
  console_lock : option Z;
  use_console_lock : bool;
  console_lock_depth : Z;
  write_cnt : Z
}.

Section console.
Context (lsr rbr : nat -> Z).
Implicit Types s : console.

Definition with_lock s l d := mkConsole (serial_port s) (screen s) l (use_console_lock s) d (write_cnt s).
Definition this_thread s : Z := current (serial_port s).
Definition intr_context_ s : bool := in_intr (serial_port s).

(** [lock_init] leaves the lock free. *)
Definition console_init s : console := mkConsole (serial_port s) (screen s) None true (console_lock_depth s) (write_cnt s).
Definition console_panic s : console := mkConsole (serial_port s) (screen s) (console_lock s) false (console_lock_depth s) (write_cnt s).

Definition held s : bool := bool_decide (console_lock s = Some (this_thread s)).

Definition acquire_console : ST console bool := fun s =>
  if negb (intr_context_ s) && use_console_lock s then
    if held s then Ret (true, with_lock s (console_lock s) (s32 (console_lock_depth s + 1)))
    else match console_lock s with
         | None => Ret (true, with_lock s (Some (this_thread s)) (console_lock_depth s))
         | Some _ => Ret (false, s)
         end
  else Ret (true, s).

Definition release_console : ST console unit := fun s =>
  if negb (intr_context_ s) && use_console_lock s then
    if 0 <? console_lock_depth s then Ret (tt, with_lock s (console_lock s) (s32 (console_lock_depth s - 1)))
    else let! _ := ASSERT (held s) in Ret (tt, with_lock s None (console_lock_depth s))
  else Ret (tt, s).

Definition console_locked_by_current_thread s : bool := intr_context_ s || negb (use_console_lock s) || held s.

(** The serial port and the screen share the interrupt level. *)
Definition putchar_have_lock (ch : Z) : ST console bool := fun s =>
  let c := ch mod 256 in
  let! _ := ASSERT (console_locked_by_current_thread s) in
  let n := s64 (write_cnt s + 1) in
  let! r := serial_putc lsr rbr c (serial_port s) in
  let p := snd r in
  match fst r with
  | Done _ =>
      let! v := vga_putc c (with_intr (screen s) (level p)) in
      Ret (true, mkConsole p v (console_lock s) (use_console_lock s) (console_lock_depth s) n)
  | Sleeps _ => Ret (false, mkConsole p (screen s) (console_lock s) (use_console_lock s) (console_lock_depth s) n)
  end.

(** [vprintf_helper] for each character that [__vprintf] produces. *)
Fixpoint vprintf_helper_all (l : list Z) (char_cnt : Z) : ST console (option Z) :=
  match l with
  | [] => sret (Some char_cnt)
  | c :: l' =>
      let char_cnt := s32 (char_cnt + 1) in
      do! ok := putchar_have_lock c in
      if (ok : bool) then vprintf_helper_all l' char_cnt else sret None
  end.

(** What [vprintf], [puts], [putbuf] and [putchar] have in common. *)
Definition locked {A} (body : ST console (option A)) : ST console (option A) :=
  do! ok := acquire_console in
  if (ok : bool) then
    do! r := body in
    match r with Some a => do! _ := release_console in sret (Some a) | None => sret None end
  else sret None.

Definition vprintf (m : mem) (format : Z) (args : list Z) : ST console (option Z) :=
  locked (do! l := lift (__vprintf m format args) in vprintf_helper_all l 0).

Definition puts (m : mem) (str : Z) : ST console (option Z) :=
  locked (
    do! ok := sloop (fun p =>
      do! c := lift (load m p) in
      if c =? 0 then sret (inr true) else
      do! ok := putchar_have_lock c in
      sret (if (ok : bool) then inl (p + 1) else inr false)) str in
    if (ok : bool) then do! ok := putchar_have_lock 10 in sret (if (ok : bool) then Some 0 else None) else sret None).

Definition putbuf (m : mem) (buffer n : Z) : ST console (option unit) :=
  locked (
    do! ok := sloop (fun '(p, n) =>
      if 0 <? n then
        do! c := lift (load m p) in
        do! ok := putchar_have_lock c in
        sret (if (ok : bool) then inl (p + 1, n - 1) else inr false)
      else sret (inr true)) (buffer, n) in
    sret (if (ok : bool) then Some tt else None)).

Definition putchar (c : Z) : ST console (option Z) :=
  locked (do! ok := putchar_have_lock c in sret (if (ok : bool) then Some c else None)).

(** [%lld] takes two words. *)
Definition console_print_stats : ST console (option Z) := fun s =>
  vprintf (write_bytes ∅ LITERAL (chars "Console: %lld characters output"%string ++ [10; 0])) LITERAL
    [u32 (write_cnt s); u32 (Z.shiftr (write_cnt s) 32)] s.

(** ** Nothing is lost, and the lock is given back *)

(** The console between two calls of a thread that may have the lock. *)
Record console_ok (s : console) (p : paper) : Prop := mkOk {
  ok_serial : serial_ok (serial_port s);
  ok_mode : mode (serial_port s) = QUEUE;
  ok_screen : shows (screen s) p;
  ok_lock : console_lock s = None \/ console_lock s = Some (this_thread s);
  ok_depth : 0 <= console_lock_depth s;
  ok_free : console_lock s = None -> console_lock_depth s = 0
}.

(** Interrupts are off, or the transmit queue has room for [n] characters. *)
Definition has_room (s : console) (n : nat) : Prop :=
  level (serial_port s) = false \/ (length (contents (txq (serial_port s))) + n <= 63)%nat.

(** The bytes of characters. *)
Definition bytes (l : list Z) : list Z := (fun c => c mod 256) <$> l.

Definition typed (l : list Z) (p : paper) : paper := fold_left (fun p c => paper_putc c p) l p.

(** The parts that printing does not change. *)
Definition same_lock (s s' : console) : Prop :=
  console_lock s' = console_lock s /\ use_console_lock s' = use_console_lock s /\ console_lock_depth s' = console_lock_depth s /\
  this_thread s' = this_thread s /\ intr_context_ s' = intr_context_ s /\ level (serial_port s') = level (serial_port s).

Lemma same_lock_trans s1 s2 s3 : same_lock s1 s2 -> same_lock s2 s3 -> same_lock s1 s3.
Proof. intros (? & ? & ? & ? & ? & ?) (? & ? & ? & ? & ? & ?). split_and!; congruence. Qed.

(** The characters [l] have been printed. *)
Definition prints (s s' : console) (p : paper) (l : list Z) : Prop :=
  console_ok s' (typed (bytes l) p) /\ same_lock s s' /\ stream (serial_port s') = stream (serial_port s) ++ bytes l.

Section calls.
Context (ready : forall n, exists k, Z.of_nat k < 1000000000 /\ Z.land (lsr (n + k)%nat) LSR_THRE <> 0).

Lemma same_locked s s' : same_lock s s' -> console_locked_by_current_thread s' = console_locked_by_current_thread s.
Proof. intros (E1 & E2 & E3 & E4 & E5 & _). unfold console_locked_by_current_thread, held. by rewrite E1, E2, E4, E5. Qed.

Lemma run_putchar s p ch n : console_ok s p -> console_locked_by_current_thread s = true -> has_room s (S n) ->
  exists s', putchar_have_lock ch s = Ret (true, s') /\ prints s s' p [ch] /\ has_room s' n.
Proof.
  intros [H1 H2 H4 H5 H6 H7] Hlk Hroom. set (c := ch mod 256). assert (Hc : 0 <= c < 256) by (apply Z.mod_pos_bound; done).
  pose proof (length_contents (txq (serial_port s))) as Hlen. pose proof (count_range (txq (serial_port s))) as Hcr.
  destruct (serial_putc_queue lsr rbr ready (serial_port s) c H1 H2 Hc) as (sp & E & R1 & R2 & R3 & (R4 & _ & R5 & R6 & _) & _ & _ & R7); [destruct Hroom; [by right|left; lia]|].
  assert (Hsh : shows (with_intr (screen s) (level sp)) p) by (by destruct H4).
  destruct (vga_putc_shows (with_intr (screen s) (level sp)) p c Hsh Hc) as (v & Ev & Hv & _).
  unfold putchar_have_lock. fold c. rewrite Hlk. cbn [ASSERT obind]. rewrite E. cbn [obind fst snd]. rewrite Ev. cbn [obind]. eexists. split; [done|].
  split; [split; [split; cbn; try done; try congruence|split; [split_and!; done|done]]|].
  - unfold this_thread. cbn. rewrite R6. exact H5.
  - destruct Hroom as [Hf|Hr]; [left; cbn; by rewrite R3|right]. cbn. rewrite R7. destruct (decide _); lia.
Qed.

Lemma prints_trans s1 s2 s3 p a b : prints s1 s2 p a -> prints s2 s3 (typed (bytes a) p) b -> prints s1 s3 p (a ++ b).
Proof.
  intros (A1 & A2 & A3) (B1 & B2 & B3). unfold prints, bytes, typed in *. rewrite fmap_app, fold_left_app. split; [done|].
  split; [exact (same_lock_trans _ _ _ A2 B2)|]. by rewrite B3, A3, app_assoc.
Qed.

Lemma prints_nil s p : console_ok s p -> prints s s p [].
Proof. intros H. split; [done|]. split; [by split_and!|]. by rewrite app_nil_r. Qed.

Lemma prints_locked s s' p l : prints s s' p l -> console_locked_by_current_thread s' = console_locked_by_current_thread s.
Proof. intros (_ & H & _). by apply same_locked. Qed.

Lemma ok_with_lock s p l d : console_ok s p -> (l = None \/ l = Some (this_thread s)) -> 0 <= d -> (l = None -> d = 0) -> console_ok (with_lock s l d) p.
Proof. intros [] Hl Hd Hn. by split. Qed.

(** Taking the lock and giving it back around a body that keeps the lock. *)
Lemma run_locked {A} s p (body : ST console (option A)) l (a : A) n : console_ok s p -> console_lock_depth s < 2147483647 -> has_room s n ->
  (forall s1, console_ok s1 p -> console_locked_by_current_thread s1 = true -> has_room s1 n -> exists s2, body s1 = Ret (Some a, s2) /\ prints s1 s2 p l) ->
  exists s', locked body s = Ret (Some a, s') /\ prints s s' p l.
Proof.
  intros Hok Hdep Hroom Hbody. pose proof Hok as [H1 H2 H4 H5 H6 H7]. unfold locked, acquire_console, release_console, sbind, sret.
  destruct (negb (intr_context_ s) && use_console_lock s) eqn:Eu.
  2:{ destruct (Hbody s Hok) as (s2 & E & Hpr); [|done|].
      { unfold console_locked_by_current_thread. apply andb_false_iff in Eu as [Eu|Eu]; [by apply negb_false_iff in Eu as ->|rewrite Eu; by rewrite orb_true_r]. }
      exists s2. rewrite E. pose proof Hpr as (_ & (S1 & S2 & S3 & S4 & S5 & S6) & _). rewrite S5, S2, Eu. done. }
  destruct H5 as [Hn|Hh].
  - assert (Hheld : held s = false) by (unfold held; rewrite Hn; by apply bool_decide_eq_false). rewrite Hheld, Hn. rewrite (H7 Hn).
    set (s1 := with_lock s (Some (this_thread s)) 0). destruct (Hbody s1) as (s2 & E & Hok2 & (S1 & S2 & S3 & S4 & S5 & S6) & Hst).
    + apply ok_with_lock; [done|by right|done|done].
    + unfold console_locked_by_current_thread, held. cbn. rewrite bool_decide_true by done. apply orb_true_r.
    + done.
    + rewrite E. rewrite S5, S2. change (intr_context_ s1) with (intr_context_ s). cbn [use_console_lock s1 with_lock]. rewrite Eu, S3. cbn [console_lock_depth s1 with_lock Z.ltb Z.compare].
      assert (held s2 = true) as -> by (unfold held; apply bool_decide_eq_true; rewrite S1, S4; done). cbn [ASSERT obind]. eexists. split; [done|].
      split; [apply ok_with_lock; [done|by left|done|done]|]. split; [split_and!; cbn; try done; rewrite ?Hn, ?(H7 Hn); done|exact Hst].
  - assert (Hheld : held s = true) by (unfold held; by apply bool_decide_eq_true). rewrite Hheld, Hh. rewrite s32_small by (unfold is_s32; lia).
    set (s1 := with_lock s (Some (this_thread s)) (console_lock_depth s + 1)). destruct (Hbody s1) as (s2 & E & Hok2 & (S1 & S2 & S3 & S4 & S5 & S6) & Hst).
    + apply ok_with_lock; [done|by right|lia|done].
    + unfold console_locked_by_current_thread, held. cbn. rewrite bool_decide_true by done. apply orb_true_r.
    + done.
    + rewrite E. rewrite S5, S2. change (intr_context_ s1) with (intr_context_ s). change (use_console_lock s1) with (use_console_lock s). rewrite Eu, S3. cbn [console_lock_depth s1 with_lock].
      destruct (Z.ltb_spec 0 (console_lock_depth s + 1)); [|lia]. eexists. split; [done|]. replace (console_lock_depth s + 1 - 1) with (console_lock_depth s) by lia. rewrite s32_small by (unfold is_s32; lia).
      rewrite S1. cbn [console_lock s1 with_lock]. split; [apply ok_with_lock; [done|right; by rewrite S4|done|done]|]. split; [split_and!; cbn; try done|exact Hst].
Qed.

Lemma run_helper l s p cnt : console_ok s p -> console_locked_by_current_thread s = true -> has_room s (length l) -> 0 <= cnt -> cnt + len l < 2147483648 ->
  exists s', vprintf_helper_all l cnt s = Ret (Some (cnt + len l), s') /\ prints s s' p l.
Proof.
  revert s p cnt. induction l as [|c l IH]; intros s p cnt Hok Hlk Hroom H0 Hcnt.
  - exists s. split; [cbn; by rewrite Z.add_0_r|]. by apply prints_nil.
  - destruct (run_putchar s p c (length l) Hok Hlk Hroom) as (s1 & E & Hp & Hroom1). cbn [length] in Hcnt.
    destruct (IH s1 (typed (bytes [c]) p) (cnt + 1)) as (s2 & E2 & Hp2); [apply Hp|by rewrite (prints_locked s s1 p [c])|done|lia|lia|].
    exists s2. split; [|exact (prints_trans _ _ _ _ [c] l Hp Hp2)]. cbn [vprintf_helper_all]. sstep E. rewrite s32_small by (unfold is_s32; lia). rewrite E2. cbn [length]. do 3 f_equal. lia.
Qed.

(** The loops of [puts] and [putbuf]. *)
Lemma run_puts_loop m s p str l k : console_ok s p -> console_locked_by_current_thread s = true -> bytes_at m str (l ++ [0]) -> Forall (fun c => c <> 0) l ->
  len l < two32 -> has_room s (length l + k) ->
  exists s', sloop (fun q => do! c := lift (load m q) in if c =? 0 then sret (@inr Z bool true) else do! ok := putchar_have_lock c in
      sret (if (ok : bool) then inl (q + 1) else inr false)) str s = Ret (true, s') /\ prints s s' p l /\ has_room s' k.
Proof.
  intros Hok Hlk Hm Hnz Hlen Hroom.
  match goal with |- exists s', sloop ?f str s = _ /\ _ => destruct (sloop_ind (length l)
    (fun n q s1 => exists d r, l = d ++ r /\ n = length r /\ q = str + len d /\ prints s s1 p d /\ has_room s1 (length r + k))
    (fun r s1 => r = true /\ prints s s1 p l /\ has_room s1 k) f str s) as (r & s' & E & -> & H1 & H2) end; [| |done|by exists s'].
  - intros n q s1 (d & r & -> & -> & -> & Hp & Hr). destruct r as [|c r].
    + left. exists true, s1. rewrite app_nil_r in *. split; [|done]. rewrite (sbind_run _ _ s1 0 s1); [done|]. unfold lift.
      rewrite (bytes_load m str _ (length d) 0 Hm); [done|]. rewrite lookup_app_r, Nat.sub_diag by lia. done.
    + right. apply Forall_app in Hnz as [_ Hnz]. inversion Hnz as [|? ? Hc _]; subst. cbn [length Nat.add] in Hr.
      destruct (run_putchar s1 (typed (bytes d) p) c (length r + k)) as (s2 & E & Hp2 & Hr2); [apply Hp|by rewrite (prints_locked s s1 p d)|done|].
      exists (length r), (str + len d + 1), s2. split; [|split; [|cbn; lia]].
      * rewrite (sbind_run _ _ s1 c s1). { rewrite (proj2 (Z.eqb_neq c 0) Hc). by rewrite (sbind_run _ _ _ _ _ E). }
        unfold lift. rewrite (bytes_load m str _ (length d) c Hm); [done|]. rewrite <- app_assoc, lookup_app_r, Nat.sub_diag by lia. done.
      * exists (d ++ [c]), r. rewrite <- app_assoc. split; [done|]. split; [done|]. split; [rewrite length_app; cbn; lia|]. split; [exact (prints_trans _ _ _ _ d [c] Hp Hp2)|done].
  - exists [], l. split; [done|]. split; [done|]. split; [cbn; lia|]. split; [by apply prints_nil|done].
Qed.

Lemma run_putbuf_loop m s p buf l : console_ok s p -> console_locked_by_current_thread s = true -> bytes_at m buf l -> len l < two32 -> has_room s (length l) ->
  exists s', sloop (fun '(q, n) => if 0 <? n then do! c := lift (load m q) in do! ok := putchar_have_lock c in
      sret (if (ok : bool) then inl (q + 1, n - 1) else @inr (Z * Z) bool false) else sret (inr true)) (buf, len l) s = Ret (true, s') /\ prints s s' p l.
Proof.
  intros Hok Hlk Hm Hlen Hroom.
  match goal with |- exists s', sloop ?f ?a s = _ /\ _ => destruct (sloop_ind (length l)
    (fun n '(q, i) s1 => exists d r, l = d ++ r /\ n = length r /\ q = buf + len d /\ i = len r /\ prints s s1 p d /\ has_room s1 (length r))
    (fun r s1 => r = true /\ prints s s1 p l) f a s) as (r & s' & E & -> & H) end; [| |done|by exists s'].
  - intros n [q i] s1 (d & r & -> & -> & -> & -> & Hp & Hr). destruct r as [|c r].
    + left. exists true, s1. by rewrite app_nil_r in *.
    + right. destruct (run_putchar s1 (typed (bytes d) p) c (length r)) as (s2 & E & Hp2 & Hr2); [apply Hp|by rewrite (prints_locked s s1 p d)|done|].
      exists (length r), (buf + len d + 1, len (c :: r) - 1), s2. split; [|split; [|cbn; lia]].
      * rewrite (proj2 (Z.ltb_lt 0 (len (c :: r)))) by (cbn; lia). rewrite (sbind_run _ _ s1 c s1); [by rewrite (sbind_run _ _ _ _ _ E)|].
        unfold lift. rewrite (bytes_load m buf _ (length d) c Hm); [done|]. rewrite lookup_app_r, Nat.sub_diag by lia. done.
      * exists (d ++ [c]), r. rewrite <- app_assoc. split; [done|]. split; [done|]. split; [rewrite length_app; cbn; lia|]. split; [cbn; lia|].
        split; [exact (prints_trans _ _ _ _ d [c] Hp Hp2)|done].
  - exists [], l. split; [done|]. split; [done|]. split; [cbn; lia|]. split; [done|]. split; [by apply prints_nil|done].
Qed.
End calls.

(** C33: The functions that print send their characters, all and in order, to
    the serial port and the screen, and leave the console lock as it was: a
    thread that prints while it prints (it has the lock) goes on without
    waiting for itself, and only the outermost call releases the lock.  So
    does printing in an interrupt or after a panic, where no lock is used.
    The serial port is set up with its queue, the lock is free or the thread's
    own, and either interrupts are off, and the call polls when the queue is
    full, or the queue has room for the characters.  [vprintf] prints what
    [__vprintf] produces from the format and the arguments and returns the
    number of characters, [puts] prints a string and a new line, [putbuf] the
    bytes of a buffer and [putchar] one byte. *)
Theorem console_output s p m l :
  (forall n, exists k, Z.of_nat k < 1000000000 /\ Z.land (lsr (n + k)%nat) LSR_THRE <> 0) ->
  console_ok s p -> console_lock_depth s < 2147483647 -> len l < 2147483648 -> has_room s (length l + 1) ->
  (forall format args, __vprintf m format args = Ret l -> exists s', vprintf m format args s = Ret (Some (len l), s') /\ prints s s' p l) /\
  (forall str, bytes_at m str (l ++ [0]) -> Forall (fun c => c <> 0) l -> exists s', puts m str s = Ret (Some 0, s') /\ prints s s' p (l ++ [10])) /\
  (forall buf, bytes_at m buf l -> exists s', putbuf m buf (len l) s = Ret (Some tt, s') /\ prints s s' p l) /\
  (forall c, exists s', putchar c s = Ret (Some c, s') /\ prints s s' p [c]).
Proof.
  intros Hready Hok Hd Hl Hroom. assert (Hless : forall s1 n, (n <= length l + 1)%nat -> has_room s1 (length l + 1) -> has_room s1 n).
  { intros s1 n Hn [|H]; [by left|right; lia]. }
  split_and!.
  - intros format args Hf. apply (run_locked s p _ _ _ (length l + 1)); try done. intros s1 Hok1 Hlk Hr.
    destruct (run_helper Hready l s1 p 0 Hok1 Hlk) as (s2 & E & Hp); [apply Hless; [lia|done]|done|lia|]. exists s2. split; [|done].
    unfold sbind, lift. by rewrite Hf, E.
  - intros str Hm Hnz. apply (run_locked s p _ _ _ (length l + 1)); try done. intros s1 Hok1 Hlk Hr.
    destruct (run_puts_loop Hready m s1 p str l 1 Hok1 Hlk Hm Hnz) as (s2 & E & Hp & Hr2); [unfold two32; lia|done|]. sstep E.
    destruct (run_putchar Hready s2 (typed (bytes l) p) 10 0) as (s3 & E3 & Hp3 & _); [apply Hp|by rewrite (prints_locked s1 s2 p l)|done|]. sstep E3.
    exists s3. split; [done|]. exact (prints_trans _ _ _ _ l [10] Hp Hp3).
  - intros buf Hm. apply (run_locked s p _ _ _ (length l + 1)); try done. intros s1 Hok1 Hlk Hr.
    destruct (run_putbuf_loop Hready m s1 p buf l Hok1 Hlk Hm) as (s2 & E & Hp); [unfold two32; lia|apply Hless; [lia|done]|]. sstep E. by exists s2.
  - intros c. apply (run_locked s p _ _ _ (length l + 1)); try done. intros s1 Hok1 Hlk Hr.
    destruct (run_putchar Hready s1 p c 0 Hok1 Hlk) as (s2 & E & Hp & _); [apply (Hless s1 1%nat); [lia|done]|]. sstep E. by exists s2.
Qed.
End console.

(** *** Two threads that print: one has the lock and interrupts off, the other
    takes the lock, with interrupts on and room in the queue *)

Definition demo_console (lv : bool) (l : option Z) : console :=
  mkConsole (at_level demo_serial lv) (init (demo_vga 1999)) l true 0 0.

Lemma demo_console_ok lv l : l = None \/ l = Some (running demo_kernel) -> console_ok (demo_console lv l) demo_paper.
Proof.
  intros Hl. split; try done.
  - destruct demo_serial_ok as [Hc _]. split; [|done]. change (core (at_level demo_serial false)). exact Hc.
  - apply demo_shows.
Qed.

Lemma console_output_witness :
  (exists s', vprintf (fun _ => 32) (fun _ => 0) (literal "%d") LITERAL [-42] (demo_console false (Some (running demo_kernel))) = Ret (Some 3, s') /\
     stream (serial_port s') = [104; 105; 10; 45; 52; 50] /\ console_lock s' = Some (running demo_kernel) /\ cx (screen s') = 2) /\
  (exists s', puts (fun _ => 32) (fun _ => 0) (literal "Hi") LITERAL (demo_console true None) = Ret (Some 0, s') /\
     stream (serial_port s') = [104; 105; 10; 72; 105; 10] /\ console_lock s' = None).
Proof.
  assert (Hready : forall n, exists k, Z.of_nat k < 1000000000 /\ Z.land ((fun _ : nat => 32) (n + k)%nat) LSR_THRE <> 0) by (intros n; exists 0%nat; split; [reflexivity|discriminate]).
  split.
  - destruct (console_output (fun _ => 32) (fun _ => 0) (demo_console false (Some (running demo_kernel))) demo_paper (literal "%d") [45; 52; 50] Hready) as (H & _);
      [apply demo_console_ok; by right|reflexivity|reflexivity|by left|].
    destruct (H LITERAL [-42]) as (s' & E & Hok & Hs & Hst); [vm_compute; reflexivity|]. exists s'. split; [exact E|]. split; [rewrite Hst; vm_compute; reflexivity|].
    split; [apply Hs|]. destruct (sh_x _ _ (ok_screen _ _ Hok)) as [-> _]. vm_compute. reflexivity.
  - destruct (console_output (fun _ => 32) (fun _ => 0) (demo_console true None) demo_paper (literal "Hi") [72; 105] Hready) as (_ & H & _);
      [apply demo_console_ok; by left|reflexivity|reflexivity|right; vm_compute; lia|].
    destruct (H LITERAL) as (s' & E & Hok & Hs & Hst); [apply write_bytes_at|repeat constructor; discriminate|]. exists s'. split; [exact E|].
    split; [rewrite Hst; vm_compute; reflexivity|apply Hs].
Defined.
