(* ===== verification/Command.v ===== *)
(** * The kernel command line and shutting down ([threads/init.c],
    [devices/shutdown.c])

    The words of the kernel command line, as the loader leaves them in the
    boot sector; the options; the actions; the choice of block devices; the
    ways to shut down.  Memory is that of [Strings]: [strtok_r] writes into
    the words, and the options keep pointers to them.  The static array
    [argv] is a list of pointers, an index into it is a [char **].

    The string literals of the code have addresses [lit].  The actions work
    on the file system and on processes, the state [W] of the class
    [Kernel]. *)
From Stdlib Require Import ZArith Lia String.
From stdpp Require Import prelude list gmap.
From S2P Require Import Prelude Bitmap Palloc Strings Sort Stdio Random Partition Clock.
#[local] Open Scope Z_scope.

(** ** Data *)

Definition LOADER_END : Z := 32256.
Definition LOADER_SIG_LEN : Z := 2.
Definition LOADER_PARTS_LEN : Z := 64.
Definition LOADER_ARGS_LEN : Z := 128.
Definition LOADER_ARG_CNT_LEN : Z := 4.
Definition LOADER_SIG : Z := LOADER_END - LOADER_SIG_LEN.
Definition LOADER_PARTS : Z := LOADER_SIG - LOADER_PARTS_LEN.
Definition LOADER_ARGS : Z := LOADER_PARTS - LOADER_ARGS_LEN.
Definition LOADER_ARG_CNT : Z := LOADER_ARGS - LOADER_ARG_CNT_LEN.

Definition CONTROL_REG : Z := 100.

Inductive shutdown_type : Type := SHUTDOWN_NONE | SHUTDOWN_POWER_OFF | SHUTDOWN_REBOOT.

(** What is done to the machine when it shuts down. *)
Inductive machine_op : Type :=
| OutB (port v : Z)
| OutW (port v : Z)
| InB (port v : Z)
| Delay (us : Z)
| Halt.

(** What the rest of the kernel does for this file: the first three return
    nothing that is used. *)
Class Kernel (W : Type) : Type := {
  process_execute : list Z -> ST W Z;
  process_wait : Z -> ST W Z;
  fsutil_ls : ST W unit;
  fsutil_cat : list Z -> ST W unit;
  fsutil_rm : list Z -> ST W unit;
  fsutil_extract : ST W unit;
  fsutil_append : list Z -> ST W unit;
  filesys_done : ST W unit;
  print_stats : ST W (list Z);
  serial_flush : ST W unit
}.

Section command.
Context {W : Type} `{Kernel W} (lit : string -> Z) (cmos : nat -> Z -> Z) (kbd_status : nat -> Z).

(** The variables of the files, the number of reads of the clock chip and of
    the keyboard controller, the text printed and the operations on the
    machine, first ones first. *)
Record kernel : Type := mkKernel {
  ram : mem;
  argv : list Z;
  format_filesys : bool;
  filesys_bdev_name : Z;
  scratch_bdev_name : Z;
  thread_mlfqs : bool;
  user_page_limit : Z;
  rng : rc4;
  how : shutdown_type;
  clock_reads : nat;
  kbd_reads : nat;
  text : list Z;
  hw : list machine_op;
  world : W
}.

Definition with_ram s x := mkKernel x (argv s) (format_filesys s) (filesys_bdev_name s) (scratch_bdev_name s) (thread_mlfqs s) (user_page_limit s) (rng s) (how s) (clock_reads s) (kbd_reads s) (text s) (hw s) (world s).
Definition with_argv s x := mkKernel (ram s) x (format_filesys s) (filesys_bdev_name s) (scratch_bdev_name s) (thread_mlfqs s) (user_page_limit s) (rng s) (how s) (clock_reads s) (kbd_reads s) (text s) (hw s) (world s).
Definition with_format s x := mkKernel (ram s) (argv s) x (filesys_bdev_name s) (scratch_bdev_name s) (thread_mlfqs s) (user_page_limit s) (rng s) (how s) (clock_reads s) (kbd_reads s) (text s) (hw s) (world s).
Definition with_filesys_name s x := mkKernel (ram s) (argv s) (format_filesys s) x (scratch_bdev_name s) (thread_mlfqs s) (user_page_limit s) (rng s) (how s) (clock_reads s) (kbd_reads s) (text s) (hw s) (world s).
Definition with_scratch_name s x := mkKernel (ram s) (argv s) (format_filesys s) (filesys_bdev_name s) x (thread_mlfqs s) (user_page_limit s) (rng s) (how s) (clock_reads s) (kbd_reads s) (text s) (hw s) (world s).
Definition with_mlfqs s x := mkKernel (ram s) (argv s) (format_filesys s) (filesys_bdev_name s) (scratch_bdev_name s) x (user_page_limit s) (rng s) (how s) (clock_reads s) (kbd_reads s) (text s) (hw s) (world s).
Definition with_page_limit s x := mkKernel (ram s) (argv s) (format_filesys s) (filesys_bdev_name s) (scratch_bdev_name s) (thread_mlfqs s) x (rng s) (how s) (clock_reads s) (kbd_reads s) (text s) (hw s) (world s).
Definition with_rng s x := mkKernel (ram s) (argv s) (format_filesys s) (filesys_bdev_name s) (scratch_bdev_name s) (thread_mlfqs s) (user_page_limit s) x (how s) (clock_reads s) (kbd_reads s) (text s) (hw s) (world s).
Definition with_how s x := mkKernel (ram s) (argv s) (format_filesys s) (filesys_bdev_name s) (scratch_bdev_name s) (thread_mlfqs s) (user_page_limit s) (rng s) x (clock_reads s) (kbd_reads s) (text s) (hw s) (world s).
Definition with_clock s x := mkKernel (ram s) (argv s) (format_filesys s) (filesys_bdev_name s) (scratch_bdev_name s) (thread_mlfqs s) (user_page_limit s) (rng s) (how s) x (kbd_reads s) (text s) (hw s) (world s).
Definition with_kbd s x := mkKernel (ram s) (argv s) (format_filesys s) (filesys_bdev_name s) (scratch_bdev_name s) (thread_mlfqs s) (user_page_limit s) (rng s) (how s) (clock_reads s) x (text s) (hw s) (world s).
Definition with_text s x := mkKernel (ram s) (argv s) (format_filesys s) (filesys_bdev_name s) (scratch_bdev_name s) (thread_mlfqs s) (user_page_limit s) (rng s) (how s) (clock_reads s) (kbd_reads s) x (hw s) (world s).
Definition with_hw s x := mkKernel (ram s) (argv s) (format_filesys s) (filesys_bdev_name s) (scratch_bdev_name s) (thread_mlfqs s) (user_page_limit s) (rng s) (how s) (clock_reads s) (kbd_reads s) (text s) x (world s).
Definition with_world s x := mkKernel (ram s) (argv s) (format_filesys s) (filesys_bdev_name s) (scratch_bdev_name s) (thread_mlfqs s) (user_page_limit s) (rng s) (how s) (clock_reads s) (kbd_reads s) (text s) (hw s) x.

Definition modify (f : kernel -> kernel) : ST kernel unit := fun s => Ret (tt, f s).
Definition print (l : list Z) : ST kernel unit := modify (fun s => with_text s (text s ++ l)).
Definition machine (o : machine_op) : ST kernel unit := modify (fun s => with_hw s (hw s ++ [o])).

(** A call into the rest of the kernel. *)
Definition in_world {A} (m : ST W A) : ST kernel A := fun s =>
  match m (world s) with Ret (a, w) => Ret (a, with_world s w) | Err e => Err e end.

(** The characters of the string at [p], as [printf] reads them for [%s]. *)
Definition string_at (m : mem) (p : Z) : outcome (list Z) :=
  loop (fun '(p, l) => let! c := load m p in if c =? 0 then Ret (inr l) else Ret (inl (p + 1, l ++ [c]))) (p, []).

Definition read_string (p : Z) : ST kernel (list Z) := fun s =>
  let! l := string_at (ram s) p in Ret (l, s).

(** [argv[i]]. *)
Definition arg (i : Z) : ST kernel Z := fun s =>
  if 0 <=? i then let! p := access (argv s !! Z.to_nat i) in Ret (p, s) else Err BadAccess.

Definition set_arg (i p : Z) : ST kernel unit := fun s =>
  if (0 <=? i) && (i <? len (argv s)) then Ret (tt, with_argv s (<[Z.to_nat i := p]> (argv s))) else Err BadAccess.

(** ** [shutdown.c] *)

Definition shutdown_configure (type : shutdown_type) : ST kernel unit := modify (fun s => with_how s type).

(** The state in which the machine is switched off; if it is not, the
    function prints "still running..." and loops. *)
Definition shutdown_power_off : ST kernel unit :=
  do! _ := in_world filesys_done in
  do! stats := in_world print_stats in
  do! _ := print stats in
  do! _ := print (chars "Powering off..." ++ [10]) in
  do! _ := in_world serial_flush in
  do! _ := machine (OutW 45060 8192) in
  do! _ := modify (fun s => with_hw s (hw s ++ (OutB 35072 <$> chars "Shutdown"))) in
  do! _ := machine (OutB 1281 49) in
  machine Halt.

Definition inb (port : Z) : ST kernel Z := fun s =>
  let v := kbd_status (kbd_reads s) in
  Ret (v, with_hw (with_kbd s (S (kbd_reads s))) (hw s ++ [InB port v])).

(** One iteration of the endless loop of [shutdown_reboot]. *)
Definition reboot_round : ST kernel unit :=
  do! _ := sloop (fun i =>
    if i <? 65536 then
      do! v := inb CONTROL_REG in
      if Z.land v 2 =? 0 then sret (inr tt)
      else do! _ := machine (Delay 2) in sret (inl (i + 1))
    else sret (inr tt)) 0 in
  do! _ := machine (Delay 50) in
  do! _ := machine (OutB CONTROL_REG 254) in
  machine (Delay 50).

(** The state after the first iteration, which resets the machine. *)
Definition shutdown_reboot : ST kernel unit :=
  do! _ := print (chars "Rebooting..." ++ [10]) in
  reboot_round.

(** Whether the function returns. *)
Definition shutdown : ST kernel bool :=
  do! s := get in
  match how s with
  | SHUTDOWN_POWER_OFF => do! _ := shutdown_power_off in sret false
  | SHUTDOWN_REBOOT => do! _ := shutdown_reboot in sret false
  | SHUTDOWN_NONE => sret true
  end.

(** ** [init.c] *)

Definition load_dword (m : mem) (p : Z) : outcome Z :=
  let! a := load m p in
  let! b := load m (p + 1) in
  let! c := load m (p + 2) in
  let! d := load m (p + 3) in
  Ret (a + 256 * b + 65536 * c + 16777216 * d).

(** The loop that finds the words. *)
Definition find_words (argc end_ p : Z) : ST kernel unit :=
  sloop (fun '(i, p) =>
    if i <? argc then
      if end_ <=? p then stop Panicked else
      do! _ := set_arg i p in
      do! s := get in
      do! n := lift (strnlen (ram s) p (end_ - p)) in
      sret (inl (i + 1, p + n + 1))
    else sret (inr tt)) (0, p).

(** The loop that prints the words. *)
Definition print_words (argc : Z) : ST kernel unit :=
  sloop (fun i =>
    if i <? argc then
      do! p := arg i in
      do! s := get in
      do! q := lift (strchr (ram s) p 32) in
      do! w := read_string p in
      do! _ := print (if q =? NULL then 32 :: w else 32 :: 39 :: w ++ [39]) in
      sret (inl (i + 1))
    else sret (inr tt)) 0.

(** Returns the index of the first argument. *)
Definition read_command_line : ST kernel Z :=
  do! s := get in
  do! cnt := lift (ptov LOADER_ARG_CNT) in
  do! n := lift (load_dword (ram s) cnt) in
  let argc := s32 n in
  do! p := lift (ptov LOADER_ARGS) in
  let end_ := p + LOADER_ARGS_LEN in
  do! _ := find_words argc end_ p in
  do! _ := set_arg argc NULL in
  do! _ := print (chars "Kernel command line:") in
  do! _ := print_words argc in
  do! _ := print [10] in
  sret 0.

(** The string literal, line by line. *)
Definition usage_text : list Z :=
  concat ((fun s : string => chars s ++ [10]) <$>
   [EmptyString;
    "Command line syntax: [OPTION...] [ACTION...]";
    "Options must precede actions.";
    "Actions are executed in the order specified.";
    EmptyString;
    "Available actions:";
    "  run 'PROG [ARG...]' Run PROG and wait for it to complete.";
    "  ls                 List files in the root directory.";
    "  cat FILE           Print FILE to the console.";
    "  rm FILE            Delete FILE.";
    "Use these actions indirectly via `pintos' -g and -p options:";
    "  extract            Untar from scratch device into file system.";
    "  append FILE        Append FILE to tar file on scratch device.";
    EmptyString;
    "Options:";
    "  -h                 Print this help message and power off.";
    "  -q                 Power off VM after actions or on panic.";
    "  -r                 Reboot after actions.";
    "  -f                 Format file system device during startup.";
    "  -filesys=BDEV      Use BDEV for file system instead of default.";
    "  -scratch=BDEV      Use BDEV for scratch instead of default.";
    "  -rs=SEED           Set random number seed to SEED.";
    "  -mlfqs             Use multi-level feedback queue scheduler.";
    "  -ul=COUNT          Limit user memory to COUNT pages."]%string).

Definition usage : ST kernel unit :=
  do! _ := print usage_text in
  shutdown_power_off.

(** [!strcmp (a, "...")]. *)
Definition equals (a : Z) (l : string) : ST kernel bool := fun s =>
  let! d := strcmp (ram s) a (lit l) in Ret (d =? 0, s).

Definition strtok (a : Z) (delimiters : string) (save : Z) : ST kernel (Z * Z) := fun s =>
  let! (token, save, m) := strtok_r (ram s) a (lit delimiters) (Some save) in
  Ret ((token, save), with_ram s m).

Definition init_random (seed : Z) : ST kernel unit :=
  do! g := lift (random_init (u32 seed)) in modify (fun s => with_rng s g).

Definition read_number (p : Z) : ST kernel Z := fun s => let! n := atoi (ram s) p in Ret (n, s).

(** The chain of tests of [parse_options]: whether to go on with the next
    argument; not after [usage], which does not return. *)
Definition parse_option (name value : Z) : ST kernel bool :=
  do! b := equals name "-h" in
  if (b : bool) then do! _ := usage in sret false else
  do! b := equals name "-q" in
  if (b : bool) then do! _ := shutdown_configure SHUTDOWN_POWER_OFF in sret true else
  do! b := equals name "-r" in
  if (b : bool) then do! _ := shutdown_configure SHUTDOWN_REBOOT in sret true else
  do! b := equals name "-f" in
  if (b : bool) then do! _ := modify (fun s => with_format s true) in sret true else
  do! b := equals name "-filesys" in
  if (b : bool) then do! _ := modify (fun s => with_filesys_name s value) in sret true else
  do! b := equals name "-scratch" in
  if (b : bool) then do! _ := modify (fun s => with_scratch_name s value) in sret true else
  do! b := equals name "-rs" in
  if (b : bool) then do! n := read_number value in do! _ := init_random n in sret true else
  do! b := equals name "-mlfqs" in
  if (b : bool) then do! _ := modify (fun s => with_mlfqs s true) in sret true else
  do! b := equals name "-ul" in
  if (b : bool) then do! n := read_number value in do! _ := modify (fun s => with_page_limit s (u32 n)) in sret true else
  stop Panicked.

(** The calls of [strtok_r] of one iteration: the name and the value. *)
Definition split_option (p : Z) : ST kernel (Z * Z) :=
  do! r := strtok p "=" 0 in
  do! r' := strtok NULL EmptyString (snd r) in
  sret (fst r, fst r').

Definition rtc_time : ST kernel Z := fun s =>
  let! (t, n) := rtc_get_time cmos (clock_reads s) in Ret (t, with_clock s n).

(** Returns the index of the first action; [None] if [usage] was called. *)
Definition parse_options (i : Z) : ST kernel (option Z) :=
  do! r := sloop (fun i =>
    do! p := arg i in
    do! s := get in
    if p =? NULL then sret (inr (Some i)) else
    do! c := lift (load (ram s) p) in
    if negb (c =? 45) then sret (inr (Some i)) else
    do! nv := split_option p in
    do! go_on := parse_option (fst nv) (snd nv) in
    sret (if (go_on : bool) then inl (i + 1) else inr None)) i in
  match r with
  | None => sret None
  | Some i =>
      do! t := rtc_time in
      do! _ := init_random t in
      sret (Some i)
  end.

Definition run_task (i : Z) : ST kernel unit :=
  do! p := arg (i + 1) in
  do! task := read_string p in
  do! _ := print (chars "Executing '" ++ task ++ chars "':" ++ [10]) in
  do! tid := in_world (process_execute task) in
  do! _ := in_world (process_wait tid) in
  print (chars "Execution of '" ++ task ++ chars "' complete." ++ [10]).

(** An action on a file, the argument behind its name. *)
Definition on_file (f : list Z -> ST W unit) (i : Z) : ST kernel unit :=
  do! p := arg (i + 1) in
  do! file_name := read_string p in
  in_world (f file_name).

(** Name, number of words, function. *)
Definition actions : list (string * Z * (Z -> ST kernel unit)) :=
  [("run"%string, 2, run_task);
   ("ls"%string, 1, fun _ => in_world fsutil_ls);
   ("cat"%string, 2, on_file fsutil_cat);
   ("rm"%string, 2, on_file fsutil_rm);
   ("extract"%string, 1, fun _ => in_world fsutil_extract);
   ("append"%string, 2, on_file fsutil_append)].

Fixpoint find_action (p : Z) (table : list (string * Z * (Z -> ST kernel unit))) : ST kernel (Z * (Z -> ST kernel unit)) :=
  match table with
  | [] => stop Panicked
  | (name, argc, function) :: table =>
      do! b := equals p name in
      if (b : bool) then sret (argc, function) else find_action p table
  end.

(** The loop over the required arguments. *)
Definition check_args (i argc : Z) : ST kernel unit :=
  sloop (fun k =>
    if k <? argc then
      do! q := arg (i + k) in
      if q =? NULL then stop Panicked else sret (inl (k + 1))
    else sret (inr tt)) 1.

Definition run_actions (i : Z) : ST kernel unit :=
  sloop (fun i =>
    do! p := arg i in
    if p =? NULL then sret (inr tt) else
    do! a := find_action p actions in
    do! _ := check_args i (fst a) in
    do! _ := snd a i in
    sret (inl (i + fst a))) i.
End command.
Arguments kernel W : clear implicits.

(** The block devices are those of [Partition], with names by content; the
    result is the text printed. *)
Section roles.
Context {D : Type}.

(** The loop over the devices: the first one of a type. *)
Fixpoint first_of_type (fuel : nat) (role : block_type) (b : option nat) : ST (bstate D) (option nat) :=
  match b, fuel with
  | None, _ => sret None
  | Some _, O => stop NoFuel
  | Some i, S fuel =>
      do! x := get_block i in
      if bool_decide (type x = role) then sret (Some i)
      else do! b := block_next i in first_of_type fuel role b
  end.

Definition locate_block_device (role : block_type) (nm : option (list Z)) : ST (bstate D) (list Z) :=
  do! s := get in
  do! b :=
    (match nm with
     | Some nm =>
         do! b := block_get_by_name nm in
         match b with None => stop Panicked | Some i => sret (Some i) end
     | None => do! b := block_first in first_of_type (length (all_blocks s)) role b
     end) in
  match b with
  | Some i =>
      do! n := block_name i in
      do! _ := block_set_role role (Some i) in
      sret (chars (block_type_name role) ++ chars ": using " ++ n ++ [10])
  | None => sret []
  end.

Definition locate_block_devices (filesys_name scratch_name : option (list Z)) : ST (bstate D) (list Z) :=
  do! t := locate_block_device BLOCK_FILESYS filesys_name in
  do! t' := locate_block_device BLOCK_SCRATCH scratch_name in
  sret (t ++ t').
End roles.

(** ** Loops that go over a list *)

(** At most [n] iterations from a state to a result. *)
Fixpoint sruns {S A R} (body : A -> ST S (A + R)) (n : nat) (a : A) (s : S) (r : R) (s' : S) : Prop :=
  match n with
  | O => False
  | Datatypes.S n => body a s = Ret (inr r, s') \/ exists a1 s1, body a s = Ret (inl a1, s1) /\ sruns body n a1 s1 r s'
  end.

Lemma sloop_runs {S A R} (body : A -> ST S (A + R)) n a s r s' :
  sruns body n a s r s' -> Z.of_nat n < two32 -> sloop body a s = Ret (r, s').
Proof.
  intros Hr Hn. unfold sloop, loop. rewrite while_pos_nat.
  match goal with |- context [while_nat _ ?f _] =>
    assert (forall k n a s, (n <= k)%nat -> sruns body n a s r s' -> while_nat k f (a, s) = Ret (inr (r, s'))) as H end.
  { induction k as [|k IH]; intros [|n1] a1 s1 Hk; try done; [lia|]. cbn [sruns while_nat]. intros [->|(a2 & s2 & -> & H2)]; [done|].
    apply (IH n1); [lia|done]. }
  rewrite (H _ n a s); [done| |done]. unfold two32 in Hn. lia.
Qed.

(** The first [n] iterations. *)
Fixpoint siter {S A R} (body : A -> ST S (A + R)) (n : nat) (a : A) (s : S) : outcome ((A + R) * S) :=
  match n with
  | O => Ret (inl a, s)
  | Datatypes.S n =>
      match body a s with
      | Ret (inl a1, s1) => siter body n a1 s1
      | Ret (inr r, s1) => Ret (inr r, s1)
      | Err e => Err e
      end
  end.

(** A loop that is left, or fails, within [n] iterations. *)
Lemma sloop_iter {S A R} (body : A -> ST S (A + R)) n a s (o : outcome (R * S)) :
  siter body n a s = match o with Ret (r, s') => Ret (inr r, s') | Err e => Err e end -> Z.of_nat n <= two32 -> sloop body a s = o.
Proof.
  intros Hr Hn. unfold sloop, loop. rewrite while_pos_nat.
  match goal with |- context [while_nat _ ?f _] =>
    assert (forall k n a s, (n <= k)%nat -> siter body n a s = match o with Ret (r, s') => Ret (inr r, s') | Err e => Err e end ->
      while_nat k f (a, s) = match o with Ret (r, s') => Ret (inr (r, s')) | Err e => Err e end) as H end.
  { induction k as [|k IH]; intros [|n1] a1 s1 Hk; cbn [siter while_nat]; [by destruct o as [[? ?]|]|lia|by destruct o as [[? ?]|]|].
    destruct (body a1 s1) as [[[a2|r] s2]|e]; [intros H2; apply (IH n1); [lia|done]|..]; by destruct o as [[? ?]|]; intros [= ]; subst. }
  rewrite (H _ n a s); [by destruct o as [[? ?]|]| |done]. unfold two32 in Hn. lia.
Qed.

(** ** Words in memory *)

Definition is_word (w : list Z) : Prop := Forall is_char w.

(** The block of terminated words at [p], its end, and the pointers to them. *)
Fixpoint words_at (m : mem) (p : Z) (ws : list (list Z)) : Prop :=
  match ws with
  | [] => True
  | w :: ws => cstr m p w /\ words_at m (p + len w + 1) ws
  end.

Fixpoint words_end (p : Z) (ws : list (list Z)) : Z :=
  match ws with [] => p | w :: ws => words_end (p + len w + 1) ws end.

Fixpoint starts (p : Z) (ws : list (list Z)) : list Z :=
  match ws with [] => [] | w :: ws => p :: starts (p + len w + 1) ws end.

Lemma words_end_ge p ws : p + len ws <= words_end p ws.
Proof. revert p. induction ws as [|w ws IH]; intros p; cbn [words_end length]; [lia|]. specialize (IH (p + len w + 1)). lia. Qed.

Lemma length_starts p ws : length (starts p ws) = length ws.
Proof. revert p. induction ws as [|w ws IH]; intros p; [done|]. cbn [starts length]. by rewrite IH. Qed.

Lemma words_at_frame m m' p ws :
  words_at m p ws -> (forall q, p <= q < words_end p ws -> m' !! q = m !! q) -> words_at m' p ws.
Proof.
  revert p. induction ws as [|w ws IH]; intros p; [done|]. cbn [words_at words_end]. intros [Hw Hws] Hm.
  pose proof (words_end_ge (p + len w + 1) ws). split.
  - apply (cstr_frame m); [done|]. intros q Hq. apply Hm. lia.
  - apply IH; [done|]. intros q Hq. apply Hm. lia.
Qed.

Lemma words_at_app m p ws1 ws2 : words_at m p (ws1 ++ ws2) <-> words_at m p ws1 /\ words_at m (words_end p ws1) ws2.
Proof.
  revert p. induction ws1 as [|w ws1 IH]; intros p; cbn [words_at words_end app]; [tauto|]. rewrite IH. tauto.
Qed.

Lemma words_end_app p ws1 ws2 : words_end p (ws1 ++ ws2) = words_end (words_end p ws1) ws2.
Proof. revert p. induction ws1 as [|w ws1 IH]; intros p; [done|]. apply IH. Qed.

Lemma starts_app p ws1 ws2 : starts p (ws1 ++ ws2) = starts p ws1 ++ starts (words_end p ws1) ws2.
Proof. revert p. induction ws1 as [|w ws1 IH]; intros p; [done|]. cbn [starts words_end app]. by rewrite IH. Qed.

Lemma strnlen_spec m p w maxlen : cstr m p w -> len w <= maxlen -> strnlen m p maxlen = Ret (len w).
Proof.
  intros Hw Hl. pose proof Hw as (Hp & Hlt & _). unfold strnlen. trace (fun i => Z.of_nat i) (length w); [done| | |lia].
  - destruct (lookup_lt_is_Some_2 w i Hi) as [c Hc]. destruct (cstr_char _ _ _ _ _ Hw Hc) as [Hm Hch]. unfold is_char in Hch.
    rewrite (load_ok _ _ _ Hm). cbn [obind]. rewrite (proj2 (Z.eqb_neq c 0)), (proj2 (Z.ltb_lt _ _)) by lia. cbn [negb andb]. feq.
  - by rewrite (load_ok _ _ _ (cstr_end _ _ _ Hw)).
Qed.

Lemma string_at_spec m p w : cstr m p w -> string_at m p = Ret w.
Proof.
  intros Hw. pose proof Hw as (Hp & Hlt & _). unfold string_at.
  trace (fun i => (p + Z.of_nat i, take i w)) (length w); [feq| | |lia].
  - destruct (lookup_lt_is_Some_2 w i Hi) as [c Hc]. destruct (cstr_char _ _ _ _ _ Hw Hc) as [Hm Hch]. unfold is_char in Hch.
    rewrite (load_ok _ _ _ Hm). cbn [obind]. rewrite (proj2 (Z.eqb_neq c 0)) by lia. rewrite (take_S_r _ _ _ Hc). feq.
  - rewrite (load_ok _ _ _ (cstr_end _ _ _ Hw)). cbn [obind Z.eqb]. by rewrite firstn_all.
Qed.

Lemma strtok_exact m a sv p tok rest d dl :
  (if a =? NULL then sv else a) = p -> cstr m p (tok ++ rest) -> cstr m d dl -> tok <> [] ->
  Forall (fun c => mem_chr c dl = false) tok -> (forall x s', rest = x :: s' -> mem_chr x dl = true) ->
  strtok_r m a d (Some sv) =
    match rest with [] => Ret (p, p + len tok, m) | _ :: _ => Ret (p, p + len tok + 1, <[p + len tok := 0]> m) end.
Proof.
  intros Ha Hs Hd Hne Htok Hrest. pose proof Hs as (Hp & _). pose proof Hd as (Hdp & _).
  unfold strtok_r. rewrite (nonnull d Hdp). cbn [ASSERT obind]. rewrite Ha, (nonnull p Hp). cbn [ASSERT obind].
  rewrite (skip_delimiters_spec m p d dl [] (tok ++ rest)); [|done|done|constructor|].
  2: { intros x s' Hx. destruct tok as [|c tok]; [done|]. inversion Hx; subst. by inversion Htok. }
  destruct (tok ++ rest) eqn:E; [by destruct tok|]. rewrite <- E in *. clear E. cbn [obind length]. rewrite Z.add_0_r.
  rewrite (skip_token_spec m p d dl tok rest Hs Hd).
  2: { eapply Forall_impl; [exact Htok|]. by intros c ->. }
  2: { intros x s' Hx. by rewrite (Hrest x s' Hx). }
  cbn [obind]. destruct rest as [|y rest].
  - rewrite app_nil_r in Hs. by rewrite (load_ok _ _ _ (cstr_end _ _ _ Hs)).
  - destruct (cstr_char _ _ _ (length tok) y Hs) as [Hm Hc]; [by rewrite lookup_app_r, Nat.sub_diag by lia|].
    rewrite (load_ok _ _ _ Hm). cbn [obind]. unfold is_char in Hc. rewrite (proj2 (Z.eqb_neq y 0)) by lia. cbn [negb].
    by rewrite store_ok by (rewrite Hm; eauto).
Qed.

Lemma strtok_none m a sv p d dl :
  (if a =? NULL then sv else a) = p -> cstr m p [] -> cstr m d dl -> strtok_r m a d (Some sv) = Ret (NULL, p, m).
Proof.
  intros Ha Hs Hd. destruct (strtok_step m a sv p [] d dl Ha Hs Hd) as [[_ ->]|(pre & tok & rest & Heq & _ & Hne & _)]; [simpl; feq|].
  symmetry in Heq. apply app_eq_nil in Heq as [_ [-> _]%app_eq_nil]. done.
Qed.

(** ** Options *)

(** What can be written on the command line; a number is a sign and its
    digits. *)
Inductive opt : Type :=
| QuitOpt | RebootOpt | FormatOpt
| FilesysOpt (nm : option (list Z))
| ScratchOpt (nm : option (list Z))
| SeedOpt (neg : bool) (ds : list Z)
| MlfqsOpt
| PagesOpt (neg : bool) (ds : list Z).

Definition opt_name (o : opt) : string :=
  match o with
  | QuitOpt => "-q" | RebootOpt => "-r" | FormatOpt => "-f" | FilesysOpt _ => "-filesys" | ScratchOpt _ => "-scratch"
  | SeedOpt _ _ => "-rs" | MlfqsOpt => "-mlfqs" | PagesOpt _ _ => "-ul"
  end%string.

Definition numeral (neg : bool) (ds : list Z) : list Z := (if neg then [45] else []) ++ (digit base_d <$> ds).
Definition number (neg : bool) (ds : list Z) : Z := if neg then - value_of 10 ds else value_of 10 ds.

Definition opt_value (o : opt) : option (list Z) :=
  match o with
  | FilesysOpt nm | ScratchOpt nm => nm
  | SeedOpt neg ds | PagesOpt neg ds => Some (numeral neg ds)
  | _ => None
  end.

(** The word for an option. *)
Definition opt_word (o : opt) : list Z :=
  chars (opt_name o) ++ match opt_value o with Some v => 61 :: v | None => [] end.

Definition number_ok (neg : bool) (ds : list Z) : Prop :=
  (0 < length ds)%nat /\ Forall (fun d => 0 <= d < 10) ds /\ is_s32 (number neg ds).

Definition opt_ok (o : opt) : Prop :=
  match o with
  | FilesysOpt (Some nm) | ScratchOpt (Some nm) => nm <> [] /\ is_word nm
  | SeedOpt neg ds | PagesOpt neg ds => number_ok neg ds
  | _ => True
  end.

Record settings : Type := mkSettings {
  o_how : shutdown_type;
  o_format : bool;
  o_filesys : option (list Z);
  o_scratch : option (list Z);
  o_mlfqs : bool;
  o_pages : Z
}.

(** What an option sets; the seed is set again behind the options. *)
Definition apply_opt (g : settings) (o : opt) : settings :=
  match o with
  | QuitOpt => mkSettings SHUTDOWN_POWER_OFF (o_format g) (o_filesys g) (o_scratch g) (o_mlfqs g) (o_pages g)
  | RebootOpt => mkSettings SHUTDOWN_REBOOT (o_format g) (o_filesys g) (o_scratch g) (o_mlfqs g) (o_pages g)
  | FormatOpt => mkSettings (o_how g) true (o_filesys g) (o_scratch g) (o_mlfqs g) (o_pages g)
  | FilesysOpt nm => mkSettings (o_how g) (o_format g) nm (o_scratch g) (o_mlfqs g) (o_pages g)
  | ScratchOpt nm => mkSettings (o_how g) (o_format g) (o_filesys g) nm (o_mlfqs g) (o_pages g)
  | SeedOpt _ _ => g
  | MlfqsOpt => mkSettings (o_how g) (o_format g) (o_filesys g) (o_scratch g) true (o_pages g)
  | PagesOpt neg ds => mkSettings (o_how g) (o_format g) (o_filesys g) (o_scratch g) (o_mlfqs g) (u32 (number neg ds))
  end.

Definition literals : list string :=
  ["-h"; "-q"; "-r"; "-f"; "-filesys"; "-scratch"; "-rs"; "-mlfqs"; "-ul"; "="; EmptyString;
   "run"; "ls"; "cat"; "rm"; "extract"; "append"]%string.

(** The address of the arguments in the virtual memory of the kernel. *)
Definition ARGS_ADDR : Z := 3221257534.

#[local] Ltac in_literals := apply (bool_decide_unpack _); vm_compute; exact I.

Section command_laws.
Context {W : Type} `{Kernel W} (lit : string -> Z) (cmos : nat -> Z -> Z) (kbd_status : nat -> Z).
Implicit Types (s : kernel W) (m : mem).

Definition literals_ok m : Prop := forall l, l ∈ literals ->
  cstr m (lit l) (chars l) /\ disjoint_blocks (lit l) (len (chars l) + 1) ARGS_ADDR LOADER_ARGS_LEN.

(** A pointer to a name within the words up to [hi], NULL for none. *)
Definition named m (hi p : Z) (nm : option (list Z)) : Prop :=
  match nm with Some n => cstr m p n /\ p + len n < hi | None => p = NULL end.

Definition shows (hi : Z) s (g : settings) : Prop :=
  how s = o_how g /\ format_filesys s = o_format g /\ named (ram s) hi (filesys_bdev_name s) (o_filesys g) /\
  named (ram s) hi (scratch_bdev_name s) (o_scratch g) /\ thread_mlfqs s = o_mlfqs g /\ user_page_limit s = o_pages g.

(** What the options do not change. *)
Definition same_rest s s' : Prop :=
  argv s' = argv s /\ text s' = text s /\ hw s' = hw s /\ world s' = world s /\ clock_reads s' = clock_reads s /\ kbd_reads s' = kbd_reads s.

Lemma literals_frame m m' :
  literals_ok m -> (forall q, q < ARGS_ADDR \/ ARGS_ADDR + LOADER_ARGS_LEN <= q -> m' !! q = m !! q) -> literals_ok m'.
Proof.
  intros Hl Hm l Hin. destruct (Hl l Hin) as [Hc Hd]. split; [|done]. apply (cstr_frame m); [done|].
  intros q Hq. apply Hm. unfold disjoint_blocks in Hd. lia.
Qed.

Lemma named_frame m m' hi hi' p nm :
  named m hi p nm -> hi <= hi' -> (forall q, q < hi -> m' !! q = m !! q) -> named m' hi' p nm.
Proof.
  unfold named. destruct nm as [n|]; [|done]. intros [Hc Hlt] Hh Hm. split; [|lia].
  apply (cstr_frame m); [done|]. intros q Hq. apply Hm. lia.
Qed.

Lemma equals_spec s p w l :
  literals_ok (ram s) -> l ∈ literals -> cstr (ram s) p w -> equals lit p l s = Ret (bool_decide (w = chars l), s).
Proof.
  intros Hl Hin Hw. destruct (Hl l Hin) as [Hc _]. unfold equals. rewrite (strcmp_spec _ _ _ _ _ Hw Hc). cbn [obind].
  f_equal. f_equal. pose proof (lex_zero w (chars l)) as Hz. case_bool_decide as Hb.
  - by apply Z.eqb_eq, Hz.
  - apply Z.eqb_neq. by rewrite Hz.
Qed.

(** The two calls of [strtok_r] on a word with a name and perhaps a value. *)
Lemma split_option_spec s p name value :
  literals_ok (ram s) -> name <> [] -> Forall (fun c => mem_chr c [61] = false) name ->
  (forall v, value = Some v -> v <> []) ->
  cstr (ram s) p (name ++ match value with Some v => 61 :: v | None => [] end) ->
  ARGS_ADDR <= p -> p + len (name ++ match value with Some v => 61 :: v | None => [] end) < ARGS_ADDR + LOADER_ARGS_LEN ->
  exists m', split_option lit p s = Ret ((p, match value with Some _ => p + len name + 1 | None => NULL end), with_ram s m') /\
    cstr m' p name /\ (forall v, value = Some v -> cstr m' (p + len name + 1) v) /\ literals_ok m' /\
    forall q, q < p \/ p + len (name ++ match value with Some v => 61 :: v | None => [] end) <= q -> m' !! q = ram s !! q.
Proof.
  intros Hl Hne Hname Hv Hs Hlo Hhi. pose proof Hs as (Hp & Hlt & Hch & _).
  destruct (Hl "="%string) as [Hd1 Hdis]; [in_literals|]. unfold split_option, strtok.
  destruct value as [v|].
  - set (e := p + len name). set (m1 := <[e := 0]> (ram s)). rewrite length_app in Hhi, Hlt |- *. cbn [length] in *.
    assert (cstr m1 p name) as H1.
    { repeat split; [done|lia|by apply Forall_app in Hch as [? _]|]. intros i b [Hi|[Hi Hb]]%lookup_app_Some.
      - unfold m1. rewrite lookup_insert_ne by (apply lookup_lt_Some in Hi; unfold e; lia).
        eapply cstr_char; [exact Hs|]. by apply lookup_app_l_Some.
      - apply list_lookup_singleton_Some in Hb as [Hb <-]. replace (p + Z.of_nat i) with e by (unfold e; lia). apply lookup_insert_eq. }
    assert (cstr m1 (e + 1) v) as H2.
    { apply (cstr_frame (ram s)); [|intros q Hq; apply lookup_insert_ne; lia].
      replace (name ++ 61 :: v) with ((name ++ [61]) ++ v) in Hs by (by rewrite <- app_assoc). apply cstr_suffix in Hs.
      rewrite length_app in Hs. simpl in Hs. replace (e + 1) with (p + Z.of_nat (length name + 1)) by (unfold e; lia). done. }
    assert (literals_ok m1) as H3.
    { apply (literals_frame (ram s)); [done|]. intros q Hq. apply lookup_insert_ne. unfold LOADER_ARGS_LEN, e in *. lia. }
    exists m1. split; [|split; [done|]; split; [by intros v0 [= ->]|]; split; [done|]; intros q Hq; apply lookup_insert_ne; unfold e; lia].
    unfold sbind. rewrite (strtok_exact _ _ _ p name (61 :: v) _ [61]) by
      (done || (by rewrite (proj2 (Z.eqb_neq p NULL)) by (unfold NULL; lia)) || (intros x s' [= <- _]; by vm_compute)).
    cbn [obind fst snd with_ram ram]. fold e m1. destruct (H3 EmptyString) as [Hd2 _]; [in_literals|].
    rewrite (strtok_exact _ NULL (e + 1) (e + 1) v [] _ []); [done|done|by rewrite app_nil_r|done|by apply Hv| |done].
    destruct H2 as (_ & _ & Hcv & _). eapply Forall_impl; [exact Hcv|]. intros c Hc. unfold mem_chr, is_char in *.
    apply bool_decide_eq_false_2. intros H0%list_elem_of_singleton. lia.
  - exists (ram s). rewrite app_nil_r in *. split; [|done].
    unfold sbind. rewrite (strtok_exact _ _ _ p name [] _ [61]) by
      (done || (by rewrite app_nil_r) || (by rewrite (proj2 (Z.eqb_neq p NULL)) by (unfold NULL; lia))).
    cbn [obind fst snd with_ram ram]. destruct (Hl EmptyString) as [Hd2 _]; [in_literals|].
    assert (cstr (ram s) (p + len name) []) as He by (apply (cstr_suffix _ _ name []); by rewrite app_nil_r).
    rewrite (strtok_none _ NULL (p + len name) (p + len name) _ []) by done. done.
Qed.

(** [test p w] runs the next test of the name [w] at [p]. *)
#[local] Ltac test Hl Hc :=
  lazymatch goal with |- context [sbind (equals _ _ ?l) _ _] =>
    rewrite (sbind_run _ _ _ _ _ (equals_spec _ _ _ l Hl ltac:(in_literals) Hc)); cbv beta end;
  let Hb := fresh in
  case_bool_decide as Hb; [try discriminate Hb|try (exfalso; apply Hb; reflexivity)]; clear Hb.

Lemma read_number_spec s p neg ds :
  cstr (ram s) p (numeral neg ds) -> number_ok neg ds -> read_number p s = Ret (number neg ds, s).
Proof.
  intros Hc (Hne & Hd & Hr). pose proof Hc as (Hp & Hlt & _ & Hb). unfold read_number, number in *.
  rewrite (atoi_spec (ram s) p neg ds); [done|done| |done| |done|done].
  - unfold numeral in Hb. rewrite <- app_assoc in Hb. exact Hb.
  - unfold numeral in Hlt. rewrite length_app, length_fmap in Hlt. lia.
Qed.

Lemma init_random_spec s seed : exists g, random_init (u32 seed) = Ret g /\ init_random seed s = Ret (tt, with_rng s g).
Proof.
  destruct (random_init_spec (u32 seed)) as (g & Hg & _). exists g. split; [done|].
  unfold init_random, sbind, lift. by rewrite Hg.
Qed.

Lemma opt_value_ne o v : opt_ok o -> opt_value o = Some v -> v <> [].
Proof.
  destruct o as [| | |[n|]|[n|]|neg ds| |neg ds]; simpl; intros Hok [= <-]; try tauto.
  all: destruct Hok as (Hne & _); unfold numeral; destruct neg; [done|]; by destruct ds; [simpl in Hne; lia|].
Qed.

(** The chain of tests finds the option. *)
Lemma parse_option_spec s p o value hi g :
  literals_ok (ram s) -> opt_ok o -> cstr (ram s) p (chars (opt_name o)) ->
  match opt_value o with Some v => cstr (ram s) value v /\ value + len v < hi | None => value = NULL end ->
  shows hi s g ->
  exists s', parse_option lit p value s = Ret (true, s') /\ shows hi s' (apply_opt g o) /\ ram s' = ram s /\ same_rest s s'.
Proof.
  intros Hl Hok Hc Hv (Hs1 & Hs2 & Hs3 & Hs4 & Hs5 & Hs6). unfold parse_option.
  destruct o as [| | |nm|nm|neg ds| |neg ds]; cbn [opt_name opt_value opt_ok] in *; repeat test Hl Hc; unfold modify, shutdown_configure, sret.
  - eexists. split; [reflexivity|]. by repeat split.
  - eexists. split; [reflexivity|]. by repeat split.
  - eexists. split; [reflexivity|]. by repeat split.
  - eexists. split; [reflexivity|]. repeat split; try done; cbn; by destruct nm.
  - eexists. split; [reflexivity|]. repeat split; try done; cbn; by destruct nm.
  - destruct Hv as [Hv _]. sstep (read_number_spec s value neg ds Hv Hok).
    destruct (init_random_spec s (number neg ds)) as (r & _ & Hr). sstep Hr. eexists. split; [reflexivity|]. by repeat split.
  - eexists. split; [reflexivity|]. by repeat split.
  - destruct Hv as [Hv _]. sstep (read_number_spec s value neg ds Hv Hok). eexists. split; [reflexivity|]. by repeat split.
Qed.

Lemma opt_name_ok o :
  chars (opt_name o) <> [] /\ Forall (fun c => mem_chr c [61] = false) (chars (opt_name o)) /\ exists l, chars (opt_name o) = 45 :: l.
Proof. destruct o; (split; [done|]; split; [by repeat constructor|]; eexists; reflexivity). Qed.

Definition option_body (i : Z) : ST (kernel W) (Z + option Z) :=
  do! p := arg i in
  do! s := get in
  if p =? NULL then sret (inr (Some i)) else
  do! c := lift (load (ram s) p) in
  if negb (c =? 45) then sret (inr (Some i)) else
  do! nv := split_option lit p in
  do! go_on := parse_option lit (fst nv) (snd nv) in
  sret (if (go_on : bool) then inl (i + 1) else inr None).

Lemma arg_spec s (i : nat) p : argv s !! i = Some p -> arg (Z.of_nat i) s = Ret (p, s).
Proof. intros Hi. unfold arg. rewrite (proj2 (Z.leb_le 0 _)) by lia. by rewrite Nat2Z.id, Hi. Qed.

(** One option. *)
Lemma option_step s (i : nat) p o hi g :
  literals_ok (ram s) -> opt_ok o -> argv s !! i = Some p -> cstr (ram s) p (opt_word o) ->
  ARGS_ADDR <= p -> hi <= p -> p + len (opt_word o) < ARGS_ADDR + LOADER_ARGS_LEN -> shows hi s g ->
  exists s', option_body (Z.of_nat i) s = Ret (inl (Z.of_nat (S i)), s') /\ shows (p + len (opt_word o) + 1) s' (apply_opt g o) /\
    same_rest s s' /\ literals_ok (ram s') /\ forall q, q < p \/ p + len (opt_word o) <= q -> ram s' !! q = ram s !! q.
Proof.
  intros Hl Hok Ha Hc Hlo Hh Hhi Hsh. destruct (opt_name_ok o) as (Hn1 & Hn2 & l & Hn3). pose proof Hc as (Hp & _).
  unfold option_body. sstep (arg_spec s i p Ha). rewrite sbind_run with (s' := s) (a := s) by done.
  rewrite (proj2 (Z.eqb_neq p NULL)) by (unfold NULL; lia).
  assert (load (ram s) p = Ret 45) as Hload.
  { destruct (cstr_char _ _ _ 0 45 Hc) as [Hm _]; [unfold opt_word; by rewrite Hn3|]. rewrite Z.add_0_r in Hm. by apply load_ok. }
  rewrite sbind_run with (s' := s) (a := 45) by (unfold lift; by rewrite Hload). cbn [Z.eqb negb Pos.eqb].
  destruct (split_option_spec s p (chars (opt_name o)) (opt_value o)) as (m' & Hsp & H1 & H2 & H3 & H4);
    [done|done|done|intros v; by apply opt_value_ne|done|done|done|]. fold (opt_word o) in H4.
  sstep Hsp. cbn [fst snd].
  assert (shows (p + len (opt_word o) + 1) (with_ram s m') g) as Hsh'.
  { destruct Hsh as (Hs1 & Hs2 & Hs3 & Hs4 & Hs5 & Hs6).
    repeat split; try done; (eapply named_frame; [done|lia|]; intros q Hq; apply H4; lia). }
  destruct (parse_option_spec (with_ram s m') p o
    (match opt_value o with Some _ => p + len (chars (opt_name o)) + 1 | None => NULL end) (p + len (opt_word o) + 1) g)
    as (s' & Hpo & Hs' & Hr' & Hrest); [done|done|done| |done|].
  { destruct (opt_value o) as [v|] eqn:Ev; [|done]. split; [by apply H2|]. unfold opt_word. rewrite Ev, length_app. cbn [length]. lia. }
  sstep Hpo. exists s'. unfold sret. split; [do 3 f_equal; lia|]. split; [done|]. split; [done|]. rewrite Hr'. done.
Qed.

Definition argv_at s (i : nat) (l : list Z) : Prop := forall k q, l !! k = Some q -> argv s !! (i + k)%nat = Some q.

Lemma argv_at_cons s i q l : argv_at s i (q :: l) <-> argv s !! i = Some q /\ argv_at s (S i) l.
Proof.
  split.
  - intros Hl. split; [rewrite <- (Nat.add_0_r i); by apply Hl|]. intros k q' Hk. replace (S i + k)%nat with (i + S k)%nat by lia. by apply Hl.
  - intros [H0 Hl] [|k] q' Hk; [injection Hk as <-; by rewrite Nat.add_0_r|].
    replace (i + S k)%nat with (S i + k)%nat by lia. by apply Hl.
Qed.

Lemma argv_at_same s s' i l : argv s' = argv s -> argv_at s i l -> argv_at s' i l.
Proof. unfold argv_at. by intros ->. Qed.

(** The word behind the options, if there is one, is no option. *)
Definition ends_options (rest : list (list Z)) : Prop := forall w ws, rest = w :: ws -> head w <> Some 45.

Lemma same_rest_refl s : same_rest s s.
Proof. done. Qed.

Lemma same_rest_trans s1 s2 s3 : same_rest s1 s2 -> same_rest s2 s3 -> same_rest s1 s3.
Proof.
  intros (A1 & A2 & A3 & A4 & A5 & A6) (B1 & B2 & B3 & B4 & B5 & B6).
  repeat split; etransitivity; eassumption.
Qed.

Lemma options_end s (i : nat) p rest :
  argv_at s i (starts p rest ++ [NULL]) -> words_at (ram s) p rest -> ends_options rest ->
  option_body (Z.of_nat i) s = Ret (inr (Some (Z.of_nat i)), s).
Proof.
  intros Ha Hw He. unfold option_body. destruct rest as [|w rest]; cbn [starts app] in Ha; apply argv_at_cons in Ha as [Ha _];
    sstep (arg_spec s i _ Ha); rewrite sbind_run with (s' := s) (a := s) by done; [done|].
  destruct Hw as [Hw _]. pose proof Hw as (Hp & _). rewrite (proj2 (Z.eqb_neq p NULL)) by (unfold NULL; lia).
  assert (exists c, load (ram s) p = Ret c /\ c <> 45) as (c & Hc & Hne).
  { specialize (He w rest eq_refl). destruct w as [|c w].
    - exists 0. split; [|lia]. rewrite <- (Z.add_0_r p). by apply load_ok, (cstr_end _ _ []).
    - exists c. split; [|intros ->; by apply He]. destruct (cstr_char _ _ _ 0 c Hw) as [Hm _]; [done|]. rewrite Z.add_0_r in Hm. by apply load_ok. }
  rewrite sbind_run with (s' := s) (a := c) by (unfold lift; by rewrite Hc).
  by rewrite (proj2 (Z.eqb_neq c 45)).
Qed.

Lemma options_run os rest : forall s (i : nat) p hi g,
  literals_ok (ram s) -> Forall opt_ok os -> ends_options rest ->
  argv_at s i (starts p ((opt_word <$> os) ++ rest) ++ [NULL]) -> words_at (ram s) p ((opt_word <$> os) ++ rest) ->
  ARGS_ADDR <= p -> hi <= p -> words_end p ((opt_word <$> os) ++ rest) <= ARGS_ADDR + LOADER_ARGS_LEN -> shows hi s g ->
  exists s', sruns option_body (S (length os)) (Z.of_nat i) s (Some (Z.of_nat (i + length os))) s' /\
    shows (words_end p (opt_word <$> os)) s' (foldl apply_opt g os) /\ same_rest s s' /\ literals_ok (ram s') /\
    words_at (ram s') (words_end p (opt_word <$> os)) rest.
Proof.
  induction os as [|o os IH]; intros s i p hi g Hl Hok He Ha Hw Hlo Hh Hhi Hsh.
  - exists s. split; [left; rewrite Nat.add_0_r; by apply (options_end s i p rest)|]. cbn [fmap list_fmap words_end foldl app] in *.
    split; [|done]. destruct Hsh as (Hs1 & Hs2 & Hs3 & Hs4 & Hs5 & Hs6).
    repeat split; try done; (eapply named_frame; [done|lia|done]).
  - inversion_clear Hok as [|? ? Ho Hos]. cbn [fmap list_fmap app starts words_at words_end foldl length] in *.
    apply argv_at_cons in Ha as [Ha0 Ha]. destruct Hw as [Hw0 Hw].
    pose proof (words_end_ge (p + len (opt_word o) + 1) ((opt_word <$> os) ++ rest)).
    destruct (option_step s i p o hi g) as (s1 & Hr & Hs1 & Hsame & Hl1 & Hm1); [done..|lia|done|].
    destruct (IH s1 (S i) (p + len (opt_word o) + 1) (p + len (opt_word o) + 1) (apply_opt g o)) as (s' & Hruns & Hs' & Hsame' & Hl' & Hw');
      [done|done|done| | |lia|lia|done|done|].
    { eapply argv_at_same; [apply Hsame|done]. }
    { apply (words_at_frame (ram s)); [done|]. intros q Hq. apply Hm1. lia. }
    exists s'. split.
    { right. exists (Z.of_nat (S i)), s1. split; [done|]. replace (i + S (length os))%nat with (S i + length os)%nat by lia. exact Hruns. }
    split; [done|]. split; [by eapply same_rest_trans|]. done.
Qed.

(** The options are applied, and the generator gets its seed from the clock,
    whatever the options say. *)
Lemma parse_options_spec s (i : nat) p os rest hi g t n :
  literals_ok (ram s) -> Forall opt_ok os -> ends_options rest ->
  argv_at s i (starts p ((opt_word <$> os) ++ rest) ++ [NULL]) -> words_at (ram s) p ((opt_word <$> os) ++ rest) ->
  ARGS_ADDR <= p -> hi <= p -> words_end p ((opt_word <$> os) ++ rest) <= ARGS_ADDR + LOADER_ARGS_LEN -> shows hi s g ->
  rtc_get_time cmos (clock_reads s) = Ret (t, n) ->
  exists s', parse_options lit cmos (Z.of_nat i) s = Ret (Some (Z.of_nat (i + length os)), s') /\
    shows (words_end p (opt_word <$> os)) s' (foldl apply_opt g os) /\ random_init (u32 t) = Ret (rng s') /\
    literals_ok (ram s') /\ words_at (ram s') (words_end p (opt_word <$> os)) rest /\ clock_reads s' = n /\
    argv s' = argv s /\ text s' = text s /\ hw s' = hw s /\ world s' = world s.
Proof.
  intros Hl Hok He Ha Hw Hlo Hh Hhi Hsh Ht.
  destruct (options_run os rest s i p hi g) as (s1 & Hr & Hs1 & (R1 & R2 & R3 & R4 & R5 & R6) & Hl1 & Hw1); [done..|].
  unfold parse_options. fold option_body.
  assert (len os < two32 - 1) as Hn.
  { pose proof (words_end_ge p ((opt_word <$> os) ++ rest)) as Hge. rewrite length_app, length_fmap in Hge.
    unfold LOADER_ARGS_LEN, two32 in *. lia. }
  rewrite (sbind_run _ _ _ _ _ (sloop_runs _ _ _ _ _ _ Hr ltac:(lia))).
  rewrite <- R5 in Ht. assert (rtc_time cmos s1 = Ret (t, with_clock s1 n)) as Ht1 by (unfold rtc_time; by rewrite Ht).
  sstep Ht1. destruct (init_random_spec (with_clock s1 n) t) as (r & Hr0 & Hr1). sstep Hr1.
  eexists. split; [reflexivity|]. done.
Qed.

(** ** Words *)

Definition quoted (w : list Z) : list Z := if bool_decide (32 ∈ w) then 32 :: 39 :: w ++ [39] else 32 :: w.

Definition command_text (ws : list (list Z)) : list Z := chars "Kernel command line:" ++ concat (quoted <$> ws) ++ [10].

Definition find_body (argc end_ : Z) : Z * Z -> ST (kernel W) (Z * Z + unit) := fun '(i, p) =>
  if i <? argc then
    if end_ <=? p then stop Panicked else
    do! _ := set_arg i p in
    do! s := get in
    do! n := lift (strnlen (ram s) p (end_ - p)) in
    sret (inl (i + 1, p + n + 1))
  else sret (inr tt).

Lemma set_arg_spec s (i : nat) p : (i < length (argv s))%nat -> set_arg (Z.of_nat i) p s = Ret (tt, with_argv s (<[i := p]> (argv s))).
Proof. intros Hi. unfold set_arg. rewrite (proj2 (Z.leb_le 0 _)), (proj2 (Z.ltb_lt _ _)) by lia. by rewrite Nat2Z.id. Qed.

Lemma find_words_run m end_ ws : forall s (i : nat) p,
  ram s = m -> words_at m p ws -> words_end p ws <= end_ -> (i + length ws < length (argv s))%nat ->
  exists s', sruns (find_body (Z.of_nat (i + length ws)) end_) (S (length ws)) (Z.of_nat i, p) s tt s' /\
    exists v, s' = with_argv s v /\ length v = length (argv s) /\ take i v = take i (argv s) /\ argv_at s' i (starts p ws).
Proof.
  induction ws as [|w ws IH]; intros s i p Hm Hw He Hi.
  - exists s. split; [left; cbn [find_body length]; by rewrite Nat.add_0_r, Z.ltb_irrefl|]. exists (argv s).
    split; [by destruct s|]. by split.
  - cbn [words_at words_end length starts] in *. destruct Hw as [Hw0 Hw]. pose proof (words_end_ge (p + len w + 1) ws).
    set (s1 := with_argv s (<[i := p]> (argv s))).
    destruct (IH s1 (S i) (p + len w + 1)) as (s' & Hr & v & -> & Hlen & Htk & Hv); [done|done|done|cbn; rewrite length_insert; lia|].
    eexists. split.
    { right. exists (Z.of_nat (S i), p + len w + 1), s1. split; [|by replace (i + S (length ws))%nat with (S i + length ws)%nat by lia].
      cbn [find_body]. rewrite (proj2 (Z.ltb_lt _ _)), (proj2 (Z.leb_gt _ _)) by lia.
      sstep (set_arg_spec s i p ltac:(lia)). fold s1. rewrite sbind_run with (s' := s1) (a := s1) by done.
      rewrite sbind_run with (s' := s1) (a := len w). { unfold sret. do 3 f_equal. f_equal. lia. }
      unfold lift. cbn [ram s1 with_argv]. rewrite Hm. by rewrite (strnlen_spec m p w) by (done || lia). }
    exists v. cbn [s1 argv with_argv] in *. rewrite length_insert in Hlen. split; [done|]. split; [done|].
    assert (take i v = take i (take (S i) v)) as Htk' by (rewrite take_take; f_equal; lia). split.
    { rewrite Htk', Htk, take_take, Nat.min_l by lia. by apply take_insert_ge. }
    apply argv_at_cons. split; [|done]. cbn [argv].
    assert (take (S i) v !! i = Some p) as Hq by (rewrite Htk, lookup_take_lt, list_lookup_insert_eq by lia; done).
    by rewrite lookup_take_lt in Hq by lia.
Qed.

Lemma strchr_space m p w :
  cstr m p w -> exists q, strchr m p 32 = Ret q /\ (q =? NULL) = negb (bool_decide (32 ∈ w)).
Proof.
  intros Hw. pose proof Hw as (Hp & _). case_bool_decide as Hin.
  - apply list_elem_of_split_l in Hin as (l1 & l2 & -> & Hn). exists (p + len l1). split.
    + apply (strchr_found _ _ _ l1 32 (l2 ++ [0]) Hw); [lia|by rewrite <- app_assoc|done].
    + apply Z.eqb_neq. unfold NULL. lia.
  - exists NULL. split; [by apply strchr_none with w|done].
Qed.

Definition print_body (argc : Z) (i : Z) : ST (kernel W) (Z + unit) :=
  if i <? argc then
    do! p := arg i in
    do! s := get in
    do! q := lift (strchr (ram s) p 32) in
    do! w := read_string p in
    do! _ := print (if q =? NULL then 32 :: w else 32 :: 39 :: w ++ [39]) in
    sret (inl (i + 1))
  else sret (inr tt).

Lemma print_step s (i : nat) p w argc :
  Z.of_nat i < argc -> argv s !! i = Some p -> cstr (ram s) p w ->
  print_body argc (Z.of_nat i) s = Ret (inl (Z.of_nat (S i)), with_text s (text s ++ quoted w)).
Proof.
  intros Hi Ha Hw. unfold print_body. rewrite (proj2 (Z.ltb_lt _ _)) by lia. sstep (arg_spec s i p Ha).
  destruct (strchr_space _ _ _ Hw) as (q & Hq & Hz). pose proof (string_at_spec _ _ _ Hw) as Hstr.
  rewrite sbind_run with (s' := s) (a := s) by done.
  rewrite sbind_run with (s' := s) (a := q) by (unfold lift; rewrite Hq; reflexivity).
  rewrite sbind_run with (s' := s) (a := w) by (unfold read_string; rewrite Hstr; reflexivity).
  rewrite Hz. unfold quoted, sbind, print, modify, sret. replace (Z.of_nat i + 1) with (Z.of_nat (S i)) by lia. by case_bool_decide.
Qed.

Lemma print_words_run ws : forall s (i : nat) p,
  words_at (ram s) p ws -> argv_at s i (starts p ws) ->
  sruns (print_body (Z.of_nat (i + length ws))) (S (length ws)) (Z.of_nat i) s tt (with_text s (text s ++ concat (quoted <$> ws))).
Proof.
  induction ws as [|w ws IH]; intros s i p Hw Ha.
  - left. unfold print_body. cbn [length]. rewrite Nat.add_0_r, Z.ltb_irrefl. unfold sret. do 2 f_equal. simpl. rewrite app_nil_r. by destruct s.
  - cbn [words_at starts length] in *. destruct Hw as [Hw0 Hw]. apply argv_at_cons in Ha as [Ha0 Ha].
    right. exists (Z.of_nat (S i)), (with_text s (text s ++ quoted w)). split; [apply (print_step s i p w); [lia|done|done]|].
    replace (with_text s (text s ++ concat (quoted <$> w :: ws))) with
      (with_text (with_text s (text s ++ quoted w)) (text (with_text s (text s ++ quoted w)) ++ concat (quoted <$> ws)))
      by (cbn [text with_text fmap list_fmap concat]; by rewrite app_assoc).
    replace (i + S (length ws))%nat with (S i + length ws)%nat by lia. by apply (IH _ (S i) (p + len w + 1)).
Qed.

(** What the loader leaves: the number of words, the words, and the array. *)
Definition booted s (ws : list (list Z)) : Prop :=
  load_dword (ram s) (ARGS_ADDR - 4) = Ret (len ws) /\ words_at (ram s) ARGS_ADDR ws /\
  words_end ARGS_ADDR ws <= ARGS_ADDR + LOADER_ARGS_LEN /\ length (argv s) = 65%nat /\ (length ws <= 64)%nat.

Lemma read_command_line_spec s ws :
  booted s ws ->
  exists v, read_command_line s = Ret (0, with_text (with_argv s v) (text s ++ command_text ws)) /\
    length v = 65%nat /\ argv_at (with_argv s v) 0 (starts ARGS_ADDR ws ++ [NULL]).
Proof.
  intros (Hn & Hw & He & Hlen & H64). unfold read_command_line. rewrite sbind_run with (s' := s) (a := s) by done.
  rewrite sbind_run with (s' := s) (a := ARGS_ADDR - 4) by (vm_compute; reflexivity).
  rewrite sbind_run with (s' := s) (a := len ws) by (unfold lift; by rewrite Hn).
  rewrite s32_small by (unfold is_s32; lia).
  rewrite sbind_run with (s' := s) (a := ARGS_ADDR) by (vm_compute; reflexivity).
  destruct (find_words_run (ram s) (ARGS_ADDR + LOADER_ARGS_LEN) ws s 0 ARGS_ADDR) as (s1 & Hr & v & -> & Hlv & _ & Hv); [done|done|done|lia|].
  unfold find_words. fold (find_body (len ws) (ARGS_ADDR + LOADER_ARGS_LEN)).
  rewrite (sbind_run _ _ _ _ _ (sloop_runs _ _ _ _ _ _ Hr ltac:(unfold two32; lia))).
  rewrite (sbind_run _ _ _ _ _ (set_arg_spec (with_argv s v) (length ws) NULL ltac:(cbn; lia))).
  set (v' := <[length ws := NULL]> v). change (with_argv (with_argv s v) _) with (with_argv s v').
  assert (argv_at (with_argv s v') 0 (starts ARGS_ADDR ws ++ [NULL])) as Hv'.
  { intros k q [Hk|[Hk Hq]]%lookup_app_Some; cbn; unfold v'.
    - rewrite list_lookup_insert_ne; [by apply Hv|]. apply lookup_lt_Some in Hk. rewrite length_starts in Hk. lia.
    - rewrite length_starts in *. apply list_lookup_singleton_Some in Hq as [Hq <-]. replace k with (length ws) by lia.
      rewrite list_lookup_insert_eq by lia. done. }
  set (s2 := with_text (with_argv s v') (text s ++ chars "Kernel command line:")).
  rewrite sbind_run with (s' := s2) (a := tt) by done.
  assert (argv_at s2 0 (starts ARGS_ADDR ws)) as Ha2 by (intros k q Hk; apply Hv'; by apply lookup_app_l_Some).
  pose proof (print_words_run ws s2 0 ARGS_ADDR Hw Ha2) as Hp. unfold print_words. fold (print_body (len ws)).
  rewrite (sbind_run _ _ _ _ _ (sloop_runs _ _ _ _ _ _ Hp ltac:(unfold two32; lia))).
  exists v'. split; [|split; [unfold v'; rewrite length_insert; lia|done]].
  unfold command_text, sbind, print, modify, sret. cbn [text with_text s2]. by rewrite <- !app_assoc.
Qed.

Lemma words_at_bound m p ws : words_at m p ws -> (0 < length ws)%nat -> words_end p ws <= two32.
Proof.
  revert p. induction ws as [|w ws IH]; intros p; [simpl; lia|]. cbn [words_at words_end]. intros [(Hp & Hl & _) Hw] _.
  destruct ws as [|w1 ws]; [cbn [words_end]; lia|]. apply IH; [done|simpl; lia].
Qed.

(** ** Actions *)

(** What a list of words does, without pointers: the name of an action and
    its argument, in order; an unknown name or a missing argument stops the
    machine. *)
Definition task_effect (task : list Z) : ST (kernel W) unit :=
  do! _ := print (chars "Executing '" ++ task ++ chars "':" ++ [10]) in
  do! tid := in_world (process_execute task) in
  do! _ := in_world (process_wait tid) in
  print (chars "Execution of '" ++ task ++ chars "' complete." ++ [10]).

Inductive arity : Type :=
| NoArg (f : ST (kernel W) unit)
| OneArg (f : list Z -> ST (kernel W) unit).

Definition action_table : list (string * arity) :=
  [("run"%string, OneArg task_effect); ("ls"%string, NoArg (in_world fsutil_ls));
   ("cat"%string, OneArg (fun f => in_world (fsutil_cat f))); ("rm"%string, OneArg (fun f => in_world (fsutil_rm f)));
   ("extract"%string, NoArg (in_world fsutil_extract)); ("append"%string, OneArg (fun f => in_world (fsutil_append f)))].

Definition lookup_action (w : list Z) : option arity := snd <$> find (fun x => bool_decide (w = chars (fst x))) action_table.

Fixpoint perform (ws : list (list Z)) : ST (kernel W) unit :=
  match ws with
  | [] => sret tt
  | w :: ws =>
      match lookup_action w with
      | None => stop Panicked
      | Some (NoArg f) => do! _ := f in perform ws
      | Some (OneArg f) => match ws with [] => stop Panicked | x :: ws => do! _ := f x in perform ws end
      end
  end.

(** An action leaves the words and the array as they are. *)
Definition keeps (f : ST (kernel W) unit) : Prop := forall s s', f s = Ret (tt, s') -> ram s' = ram s /\ argv s' = argv s.

Lemma keeps_world (f : ST W unit) : keeps (in_world f).
Proof. intros s s'. unfold in_world. destruct (f (world s)) as [[[] w]|]; [|done]. by intros [= <-]. Qed.

Lemma keeps_task task : keeps (task_effect task).
Proof.
  intros s s'. unfold task_effect, sbind, in_world, print, modify. cbn.
  destruct (process_execute task (world s)) as [[tid w]|]; [|done]. cbn. destruct (process_wait tid w) as [[st w']|]; [|done]. by intros [= <-].
Qed.

Definition action_body (i : Z) : ST (kernel W) (Z + unit) :=
  do! p := arg i in
  if p =? NULL then sret (inr tt) else
  do! a := find_action lit p (actions) in
  do! _ := check_args i (fst a) in
  do! _ := snd a i in
  sret (inl (i + fst a)).

(** The function found in the table does what the specification says. *)
Definition implements s (i : nat) (ws : list (list Z)) (e : arity) (a : Z * (Z -> ST (kernel W) unit)) : Prop :=
  match e with
  | NoArg f => fst a = 1 /\ snd a (Z.of_nat i) s = f s /\ keeps f
  | OneArg f => fst a = 2 /\ (forall x ws', ws = x :: ws' -> snd a (Z.of_nat i) s = f x s) /\ forall x, keeps (f x)
  end.

Lemma find_action_spec s (i : nat) p w ws :
  literals_ok (ram s) -> argv_at s i (starts p (w :: ws) ++ [NULL]) -> words_at (ram s) p (w :: ws) ->
  match lookup_action w with
  | None => find_action lit p actions s = Err Panicked
  | Some e => exists a, find_action lit p actions s = Ret (a, s) /\ implements s i ws e a
  end.
Proof.
  intros Hl Ha [Hw Hws]. cbn [starts app] in Ha. apply argv_at_cons in Ha as [_ Ha].
  assert (forall x ws' (f : list Z -> ST (kernel W) unit), ws = x :: ws' ->
    (do! q := arg (Z.of_nat i + 1) in do! y := read_string q in f y) s = f x s) as Harg.
  { intros x ws' f ->. cbn [starts app words_at] in *. apply argv_at_cons in Ha as [Ha _].
    replace (Z.of_nat i + 1) with (Z.of_nat (S i)) by lia. sstep (arg_spec s (S i) _ Ha).
    destruct Hws as [Hx _]. pose proof (string_at_spec _ _ _ Hx) as Hstr.
    by rewrite sbind_run with (s' := s) (a := x) by (unfold read_string; rewrite Hstr; reflexivity). }
  unfold actions, lookup_action, action_table. cbn [find fst snd find_action].
  repeat (lazymatch goal with |- context [sbind (equals _ _ ?l) _ _] =>
      rewrite (sbind_run _ _ _ _ _ (equals_spec _ _ _ l Hl ltac:(in_literals) Hw)); cbv beta end;
    case_bool_decide; cbn [fmap option_fmap option_map snd];
    [eexists; split; [reflexivity|]; cbn [implements fst snd]; split; [reflexivity|]; split;
       [solve [done|intros x ws' Hx; by apply (Harg x ws')]|intros; first [apply keeps_world|apply keeps_task]]|]).
  done.
Qed.

Lemma check_args_spec s (i : nat) p w ws argc :
  argv_at s i (starts p (w :: ws) ++ [NULL]) -> words_at (ram s) p (w :: ws) -> argc = 1 \/ argc = 2 ->
  check_args (Z.of_nat i) argc s = if (argc =? 2) && (length ws =? 0)%nat then Err Panicked else Ret (tt, s).
Proof.
  intros Ha [_ Hw] Hc. cbn [starts app] in Ha. apply argv_at_cons in Ha as [_ Ha]. unfold check_args.
  destruct Hc as [->| ->].
  - apply (sloop_iter _ 1); [done|done].
  - destruct ws as [|x ws]; cbn [starts app length Z.eqb Pos.eqb Nat.eqb andb] in *; apply argv_at_cons in Ha as [Ha _];
      pose proof (arg_spec s (S i) _ Ha) as Harg; replace (Z.of_nat (S i)) with (Z.of_nat i + 1) in Harg by lia.
    + apply (sloop_iter _ 1); [|done]. cbn [siter]. unfold sbind. cbv beta. change (1 <? 2) with true. cbv iota beta. by rewrite Harg.
    + destruct Hw as [(Hp & _) _]. apply (sloop_iter _ 2); [|done]. cbn [siter]. unfold sbind. cbv beta. change (1 <? 2) with true. cbv iota beta. rewrite Harg.
      by rewrite (proj2 (Z.eqb_neq _ NULL)) by (unfold NULL; lia).
Qed.

Lemma actions_none k s (i : nat) p :
  argv_at s i (starts p [] ++ [NULL]) -> siter action_body (S k) (Z.of_nat i) s = Ret (inr tt, s).
Proof.
  intros Ha. cbn [starts app] in Ha. apply argv_at_cons in Ha as [Ha _]. cbn [siter]. unfold action_body.
  by rewrite (sbind_run _ _ _ _ _ (arg_spec s i _ Ha)).
Qed.

(** The loop of [run_actions] does what the words say. *)
Lemma actions_run k : forall ws s (i : nat) p, (length ws <= k)%nat ->
  literals_ok (ram s) -> argv_at s i (starts p ws ++ [NULL]) -> words_at (ram s) p ws ->
  siter action_body (S k) (Z.of_nat i) s = match perform ws s with Ret (r, s') => Ret (inr r, s') | Err e => Err e end.
Proof.
  induction k as [|k IH]; intros ws s i p Hk Hl Ha Hw.
  all: destruct ws as [|w ws]; [by apply (actions_none _ s i p)|].
  all: cbn [length] in Hk; try lia.
  pose proof (find_action_spec s i p w ws Hl Ha Hw) as Hf. pose proof (fun c => check_args_spec s i p w ws c Ha Hw) as Hc.
  cbn [starts app words_at] in Ha, Hw. destruct Hw as [Hw0 Hw]. pose proof Hw0 as (Hp & _).
  apply argv_at_cons in Ha as [Ha0 Ha].
  change (siter action_body (S (S k)) (Z.of_nat i) s) with
    (match action_body (Z.of_nat i) s with Ret (inl a1, s1) => siter action_body (S k) a1 s1 | Ret (inr r, s1) => Ret (inr r, s1) | Err e => Err e end).
  unfold action_body at 1. rewrite (sbind_run _ _ _ _ _ (arg_spec s i _ Ha0)).
  rewrite (proj2 (Z.eqb_neq p NULL)) by (unfold NULL; lia). cbn [perform].
  destruct (lookup_action w) as [[f|f]|].
  - destruct Hf as ([c fn] & Hf & Hc1 & Hfn & Hkeep). cbn [fst snd] in *. subst c. rewrite (sbind_run _ _ _ _ _ Hf). cbn [fst snd].
    rewrite (sbind_run _ _ _ _ _ (Hc 1 ltac:(by left))). unfold sbind. rewrite Hfn. destruct (f s) as [[[] s1]|] eqn:Ef; [|done].
    destruct (Hkeep _ _ Ef) as [Hr Hv]. unfold sret. replace (Z.of_nat i + 1) with (Z.of_nat (S i)) by lia.
    apply (IH ws s1 (S i) (p + len w + 1)); [lia|by rewrite Hr|by eapply argv_at_same|by rewrite Hr].
  - destruct Hf as ([c fn] & Hf & Hc1 & Hfn & Hkeep). cbn [fst snd] in *. subst c. rewrite (sbind_run _ _ _ _ _ Hf). cbn [fst snd].
    specialize (Hc 2 ltac:(by right)). destruct ws as [|x ws]; cbn [length Z.eqb Pos.eqb Nat.eqb andb] in Hc.
    { unfold sbind. by rewrite Hc. }
    rewrite (sbind_run _ _ _ _ _ Hc). unfold sbind. rewrite (Hfn x ws eq_refl). destruct (f x s) as [[[] s1]|] eqn:Ef; [|done].
    destruct (Hkeep _ _ _ Ef) as [Hr Hv]. unfold sret. replace (Z.of_nat i + 2) with (Z.of_nat (S (S i))) by lia.
    cbn [starts app words_at length] in *. apply argv_at_cons in Ha as [_ Ha]. destruct Hw as [_ Hw].
    apply (IH ws s1 (S (S i)) (p + len w + 1 + len x + 1)); [lia|by rewrite Hr|by eapply argv_at_same|by rewrite Hr].
  - unfold sbind. by rewrite Hf.
Qed.

(** C27: on a machine that the loader started with a command line of options
    and then actions, [read_command_line] followed by [parse_options] prints
    the line, and leaves every option applied, in order, the pointers to
    block device names at null-terminated strings, and an argument vector
    from the first action on that is the actions, each a string of its own,
    and NULL.  The random number generator has the seed of the clock, also
    when the line has an option [-rs]. *)
Theorem command_line_correct s os acts g t n :
  booted s ((opt_word <$> os) ++ acts) -> literals_ok (ram s) -> Forall opt_ok os -> ends_options acts ->
  shows ARGS_ADDR s g -> rtc_get_time cmos (clock_reads s) = Ret (t, n) ->
  exists s', (do! i := read_command_line in parse_options lit cmos i) s = Ret (Some (len os), s') /\
    shows (words_end ARGS_ADDR (opt_word <$> os)) s' (foldl apply_opt g os) /\ random_init (u32 t) = Ret (rng s') /\
    text s' = text s ++ command_text ((opt_word <$> os) ++ acts) /\ hw s' = hw s /\ world s' = world s /\
    argv_at s' (length os) (starts (words_end ARGS_ADDR (opt_word <$> os)) acts ++ [NULL]) /\
    words_at (ram s') (words_end ARGS_ADDR (opt_word <$> os)) acts /\ literals_ok (ram s').
Proof.
  intros Hb Hl Hok He Hsh Ht. destruct (read_command_line_spec s _ Hb) as (v & Hr & Hlen & Hv). destruct Hb as (_ & Hw & Hend & _).
  sstep Hr. set (s1 := with_text (with_argv s v) (text s ++ command_text ((opt_word <$> os) ++ acts))).
  destruct (parse_options_spec s1 0 ARGS_ADDR os acts ARGS_ADDR g t n) as (s' & Hp & H1 & H2 & H3 & H4 & H5 & H6 & H7 & H8 & H9); try done.
  exists s'. split; [exact Hp|]. split; [done|]. split; [done|]. split; [done|]. split; [done|]. split; [done|]. split; [|done].
  apply (argv_at_same s1); [done|]. intros k q Hk. specialize (Hv (length os + k)%nat q). rewrite starts_app, <- app_assoc in Hv.
  rewrite lookup_app_r in Hv by (rewrite length_starts, length_fmap; lia).
  rewrite length_starts, length_fmap in Hv. replace (length os + k - length os)%nat with k in Hv by lia. by apply Hv.
Qed.

(** C26: [run_actions] on any argument vector does what its words say: the
    actions in order, each with the string of its argument, until the words
    end, an action fails, or a word is no action or lacks its argument, at
    which the machine stops. *)
Theorem run_actions_correct s (i : nat) p ws :
  literals_ok (ram s) -> argv_at s i (starts p ws ++ [NULL]) -> words_at (ram s) p ws ->
  run_actions lit (Z.of_nat i) s = perform ws s.
Proof.
  intros Hl Ha Hw. apply (sloop_iter _ (S (length ws))).
  - by apply (actions_run (length ws) ws s i p).
  - pose proof (words_end_ge p ws). destruct ws as [|w ws]; [done|]. pose proof (words_at_bound _ _ _ Hw ltac:(simpl; lia)).
    destruct Hw as [(Hp & _) _]. unfold two32 in *. lia.
Qed.

(** ** Shutting down *)

(** What polling the controller does to the machine, first operation first. *)
Fixpoint polling (n : nat) (reads : nat) : list machine_op :=
  match n with
  | O => []
  | S n => InB CONTROL_REG (kbd_status reads) ::
      (if Z.land (kbd_status reads) 2 =? 0 then [] else Delay 2 :: polling n (S reads))
  end.

Lemma machine_eq o s : machine o s = Ret (tt, with_hw s (hw s ++ [o])).
Proof. done. Qed.

Lemma hw_with s x : hw (with_hw s x) = x.
Proof. done. Qed.

Lemma with_hw_with s x y : with_hw (with_hw s x) y = with_hw s y.
Proof. done. Qed.

Lemma reboot_poll n : forall i s, i + Z.of_nat n = 65536 -> 0 <= i ->
  exists k s', siter (fun i =>
    if i <? 65536 then
      do! v := inb kbd_status CONTROL_REG in
      if Z.land v 2 =? 0 then sret (inr tt)
      else do! _ := machine (Delay 2) in sret (inl (i + 1))
    else sret (inr tt)) (S n) i s = Ret (inr tt, s') /\
    s' = with_hw (with_kbd s k) (hw s ++ polling n (kbd_reads s)).
Proof.
  induction n as [|n IH]; intros i s Hi Hi0; cbn [siter].
  - rewrite (proj2 (Z.ltb_ge i 65536)) by lia. exists (kbd_reads s), s. split; [done|]. cbn [polling]. rewrite app_nil_r. by destruct s.
  - rewrite (proj2 (Z.ltb_lt i 65536)) by lia. unfold sbind at 1, inb at 1. cbv beta iota zeta. cbn [polling].
    destruct (Z.land (kbd_status (kbd_reads s)) 2 =? 0).
    + unfold sret. eexists _, _. by split.
    + rewrite (sbind_run _ _ _ _ _ (machine_eq _ _)). unfold sret.
      destruct (IH (i + 1) (with_hw (with_hw (with_kbd s (S (kbd_reads s))) (hw s ++ [InB CONTROL_REG (kbd_status (kbd_reads s))]))
        (hw (with_hw (with_kbd s (S (kbd_reads s))) (hw s ++ [InB CONTROL_REG (kbd_status (kbd_reads s))])) ++ [Delay 2])))
        as (k & s' & Hr & ->); [lia|lia|].
      eexists _, _. split; [exact Hr|]. cbn [hw with_hw with_kbd kbd_reads]. by rewrite <- !app_assoc.
Qed.

(** [shutdown] returns when nothing is configured; to power off it makes
    the file system and the serial port finish and then makes the writes that
    switch off each emulator, in order; to reboot it waits for the keyboard
    controller, at most 65,536 readings, and pulses the reset line, also when
    the controller never got ready. *)
Theorem shutdown_correct s w1 stats w2 w3 :
  filesys_done (world s) = Ret (tt, w1) -> print_stats w1 = Ret (stats, w2) -> serial_flush w2 = Ret (tt, w3) ->
  exists k, shutdown kbd_status s =
    match how s with
    | SHUTDOWN_NONE => Ret (true, s)
    | SHUTDOWN_POWER_OFF =>
        Ret (false, with_hw (with_text (with_world s w3) (text s ++ stats ++ chars "Powering off..." ++ [10]))
          (hw s ++ [OutW 45060 8192] ++ (OutB 35072 <$> chars "Shutdown") ++ [OutB 1281 49; Halt]))
    | SHUTDOWN_REBOOT =>
        Ret (false, with_hw (with_text (with_kbd s k) (text s ++ chars "Rebooting..." ++ [10]))
          (hw s ++ polling (Z.to_nat 65536) (kbd_reads s) ++ [Delay 50; OutB CONTROL_REG 254; Delay 50]))
    end.
Proof.
  intros H1 H2 H3. unfold shutdown. rewrite sbind_run with (s' := s) (a := s) by done. destruct (how s) eqn:E.
  - exists O. done.
  - exists O. unfold shutdown_power_off, in_world, sbind, print, modify, machine, sret. rewrite H1. cbn [world with_world]. rewrite H2.
    cbn [world with_world with_text]. rewrite H3. cbn [with_world with_text with_hw hw text world ram argv format_filesys filesys_bdev_name scratch_bdev_name
      thread_mlfqs user_page_limit rng how clock_reads kbd_reads]. unfold with_hw, with_text, with_world. cbn. by rewrite <- !app_assoc.
  - set (s1 := with_text s (text s ++ chars "Rebooting..." ++ [10])).
    remember (Z.to_nat 65536) as N eqn:EN. assert (Z.of_nat N = 65536) as HN by lia. clear EN.
    destruct (reboot_poll N 0 s1) as (k & s' & Hr & ->); [lia|lia|]. exists k.
    unfold shutdown_reboot, reboot_round, shutdown_configure. unfold sbind at 1 2. change (print _ s) with (Ret (tt, s1)). cbv beta iota.
    rewrite (sbind_run _ _ _ _ _ (sloop_iter _ (S N) 0 s1 (Ret (tt, _)) Hr ltac:(unfold two32; lia))).
    rewrite (sbind_run _ _ _ _ _ (machine_eq _ _)), (sbind_run _ _ _ _ _ (machine_eq _ _)), machine_eq.
    unfold sret. rewrite !hw_with, !with_hw_with. unfold s1. cbn [hw with_text kbd_reads]. by rewrite <- !app_assoc.
Qed.
End command_laws.

(** ** The choice of block devices *)

Section role_laws.
Context {D : Type}.
Implicit Types s : bstate D.

(** The first device of a type from position [i] on. *)
Definition first_device (role : block_type) (l : list block) (i : nat) : option nat :=
  (fun x => i + fst x)%nat <$> list_find (fun x => type x = role) (drop i l).

Lemma first_of_type_spec role s n : forall i, (length (all_blocks s) - i <= n)%nat ->
  first_of_type n role (list_elem_to_block s i) s = Ret (first_device role (all_blocks s) i, s).
Proof.
  induction n as [|n IH]; intros i Hn; unfold list_elem_to_block; case_bool_decide as Hi; try lia; cbn [first_of_type].
  1, 3: unfold first_device; by rewrite drop_ge by lia.
  destruct (lookup_lt_is_Some_2 _ _ Hi) as [x Hx].
  rewrite sbind_run with (s' := s) (a := x) by (unfold get_block; by rewrite Hx).
  unfold first_device. rewrite (drop_S _ _ _ Hx). cbn [list_find].
  case_bool_decide as Ht.
  - rewrite decide_True by done. unfold sret. simpl. do 3 f_equal. lia.
  - rewrite decide_False by done. rewrite sbind_run with (s' := s) (a := list_elem_to_block s (S i)) by done.
    rewrite IH by lia. unfold first_device. do 2 f_equal. destruct (list_find _ (drop (S i) (all_blocks s))) as [[k y]|]; [|done].
    simpl. f_equal. lia.
Qed.

(** The device for a role: that of the name, or else the first one of the
    type. *)
Definition device_for (role : block_type) (nm : option (list Z)) s : option nat :=
  match nm with Some nm => find_named nm (all_blocks s) 0 | None => first_device role (all_blocks s) 0 end.

Lemma find_named_lt nm l i k : find_named nm l i = Some k -> (i <= k < i + length l)%nat.
Proof.
  revert i. induction l as [|x l IH]; intros i; [done|]. cbn [find_named length]. case_bool_decide; [intros [= <-]; lia|].
  intros Hk%IH. lia.
Qed.

Lemma device_for_lt role nm s i : device_for role nm s = Some i -> is_Some (all_blocks s !! i).
Proof.
  intros Hd. apply lookup_lt_is_Some. unfold device_for in Hd. destruct nm as [nm|].
  - apply find_named_lt in Hd. lia.
  - unfold first_device in Hd. apply fmap_Some in Hd as ([k x] & Hf & ->). apply list_find_Some in Hf as (Hk & _).
    apply lookup_lt_Some in Hk. rewrite length_drop in Hk. simpl. lia.
Qed.

(** [locate_block_device] gives a role to the device with the given
    name, and stops the machine if there is none; without a name, to the
    first device of the type of the role, and to none if there is none. *)
Theorem locate_block_device_correct role nm s :
  (block_type_index role < BLOCK_ROLE_CNT)%nat ->
  match device_for role nm s with
  | Some i => exists t s', locate_block_device role nm s = Ret (t, s') /\
      all_blocks s' = all_blocks s /\ block_by_role s' = <[block_type_index role := Some i]> (block_by_role s) /\
      disks s' = disks s /\ exists x, all_blocks s !! i = Some x /\ t = chars (block_type_name role) ++ chars ": using " ++ name x ++ [10]
  | None => locate_block_device role nm s = match nm with Some _ => Err Panicked | None => Ret ([], s) end
  end.
Proof.
  intros Hrole. assert (forall b : option nat, device_for role nm s = b ->
    (match nm with
     | Some nm => do! b := block_get_by_name nm in match b with None => stop Panicked | Some i => sret (Some i) end
     | None => do! b := block_first in first_of_type (length (all_blocks s)) role b
     end) s = match nm, b with Some _, None => Err Panicked | _, _ => Ret (b, s) end) as Hb.
  { intros b <-. unfold device_for. destruct nm as [nm|].
    - rewrite sbind_run with (s' := s) (a := find_named nm (all_blocks s) 0) by done. by destruct (find_named _ _ _).
    - rewrite sbind_run with (s' := s) (a := list_elem_to_block s 0) by done. apply first_of_type_spec. lia. }
  unfold locate_block_device. rewrite sbind_run with (s' := s) (a := s) by done.
  destruct (device_for role nm s) as [i|] eqn:E; specialize (Hb _ eq_refl).
  - destruct (device_for_lt _ _ _ _ E) as [x Hx].
    assert (forall B (k : option nat -> ST (bstate D) B), sbind (match nm with
      | Some nm => do! b := block_get_by_name nm in match b with None => stop Panicked | Some i => sret (Some i) end
      | None => do! b := block_first in first_of_type (length (all_blocks s)) role b end) k s = k (Some i) s) as ->.
    { intros B k. unfold sbind at 1. rewrite Hb. by destruct nm. }
    unfold block_name. rewrite sbind_run with (s' := s) (a := name x) by (unfold sbind, get_block; by rewrite Hx).
    unfold block_set_role, sbind. rewrite (bool_decide_eq_true_2 _ Hrole). cbn.
    eexists _, _. split; [reflexivity|]. repeat split; [by destruct s..|]. eauto.
  - unfold sbind at 1. rewrite Hb. by destruct nm.
Qed.
End role_laws.

(** ** A start and a shutdown *)

(** A rest of the kernel that keeps what it is asked to do. *)
#[local] Instance log_kernel : Kernel (list (list Z)) := {
  process_execute task w := Ret (3, w ++ [task]);
  process_wait tid w := Ret (0, w ++ [[tid]]);
  fsutil_ls w := Ret (tt, w ++ [chars "ls"]);
  fsutil_cat f w := Ret (tt, w ++ [chars "cat"; f]);
  fsutil_rm f w := Ret (tt, w ++ [chars "rm"; f]);
  fsutil_extract w := Ret (tt, w ++ [chars "extract"]);
  fsutil_append f w := Ret (tt, w ++ [chars "append"; f]);
  filesys_done w := Ret (tt, w ++ [chars "done"]);
  print_stats w := Ret (chars "stats", w);
  serial_flush w := Ret (tt, w)
}.

(** The literals 16 bytes apart. *)
Definition demo_lit (l : string) : Z :=
  match list_find (fun x => x = l) literals with Some (i, _) => 4096 + 16 * Z.of_nat i | None => NULL end.

Definition demo_options : list opt := [QuitOpt; SeedOpt false [4; 2]; FilesysOpt (Some (chars "hdb1")); PagesOpt true [1]].
Definition demo_actions : list (list Z) := [chars "extract"; chars "run"; chars "echo x"].
Definition demo_words : list (list Z) := (opt_word <$> demo_options) ++ demo_actions.

Definition demo_ram : mem :=
  write_bytes (foldr (fun l m => write_bytes m (demo_lit l) (chars l ++ [0])) ∅ literals) (ARGS_ADDR - 4)
    ([7; 0; 0; 0] ++ concat ((fun w => w ++ [0]) <$> demo_words) ++ replicate 76 0).

Definition demo_settings : settings := mkSettings SHUTDOWN_NONE false None None false (two32 - 1).

Definition demo_kernel : kernel (list (list Z)) :=
  mkKernel demo_ram (replicate 65 NULL) false NULL NULL false (two32 - 1) (mkRc4 [] 0 0 false) SHUTDOWN_NONE 0 0 [] [] [].

Definition cstr_check (m : mem) (p : Z) (s : list Z) : bool :=
  (0 <? p) && (p + len s <? two32) && forallb (fun c => (0 <? c) && (c <? 256)) s &&
  bool_decide ((fun i => m !! (p + Z.of_nat i)) <$> seq 0 (length s + 1) = Some <$> s ++ [0]).

Lemma cstr_check_ok m p s : cstr_check m p s = true -> cstr m p s.
Proof.
  unfold cstr_check. intros [[[H1%Z.ltb_lt H2%Z.ltb_lt]%andb_true_iff H3]%andb_true_iff H4%bool_decide_eq_true]%andb_true_iff.
  repeat split; [done|done| |].
  - apply Forall_forall. intros c Hc%list_elem_of_In. rewrite forallb_forall in H3. specialize (H3 c Hc).
    apply andb_true_iff in H3 as [?%Z.ltb_lt ?%Z.ltb_lt]. done.
  - intros i b Hi. apply (f_equal (lookup i)) in H4. rewrite !list_lookup_fmap, Hi in H4.
    pose proof (lookup_lt_Some _ _ _ Hi) as Hlt. rewrite length_app in Hlt. simpl in Hlt.
    rewrite lookup_seq_lt in H4 by lia. simpl in H4. by injection H4.
Qed.

Fixpoint words_check (m : mem) (p : Z) (ws : list (list Z)) : bool :=
  match ws with [] => true | w :: ws => cstr_check m p w && words_check m (p + len w + 1) ws end.

Lemma words_check_ok m ws : forall p, words_check m p ws = true -> words_at m p ws.
Proof. induction ws as [|w ws IH]; intros p; [done|]. intros [H1%cstr_check_ok H2%IH]%andb_true_iff. done. Qed.

Definition literals_check (m : mem) : bool :=
  forallb (fun l => cstr_check m (demo_lit l) (chars l) && (demo_lit l + len (chars l) + 1 <=? ARGS_ADDR)) literals.

Lemma literals_check_ok m : literals_check m = true -> literals_ok demo_lit m.
Proof.
  intros Hc l Hl%list_elem_of_In. unfold literals_check in Hc. rewrite forallb_forall in Hc. specialize (Hc l Hl).
  apply andb_true_iff in Hc as [H1%cstr_check_ok H2%Z.leb_le]. split; [done|]. unfold disjoint_blocks. lia.
Qed.

Lemma demo_literals : literals_ok demo_lit demo_ram.
Proof. apply literals_check_ok. by vm_compute. Qed.

Lemma demo_booted : booted demo_kernel demo_words.
Proof.
  split; [by vm_compute|]. split; [apply words_check_ok; by vm_compute|]. split; [by vm_compute|]. split; [done|]. vm_compute. lia.
Qed.

Lemma command_line_correct_witness :
  exists s', (do! i := read_command_line in parse_options demo_lit demo_cmos i) demo_kernel = Ret (Some 4, s') /\
    shows (words_end ARGS_ADDR (opt_word <$> demo_options)) s'
      (mkSettings SHUTDOWN_POWER_OFF false (Some (chars "hdb1")) None false 4294967295) /\
    random_init (u32 1080736259) = Ret (rng s') /\
    text s' = [] ++ chars "Kernel command line: -q -rs=42 -filesys=hdb1 -ul=-1 extract run 'echo x'" ++ [10] /\ hw s' = [] /\ world s' = [] /\
    argv_at s' 4 (starts (words_end ARGS_ADDR (opt_word <$> demo_options)) demo_actions ++ [NULL]) /\
    words_at (ram s') (words_end ARGS_ADDR (opt_word <$> demo_options)) demo_actions /\ literals_ok demo_lit (ram s').
Proof.
  apply (command_line_correct demo_lit demo_cmos demo_kernel demo_options demo_actions demo_settings 1080736259 7).
  - exact demo_booted.
  - exact demo_literals.
  - repeat constructor; (done || (unfold is_char; lia)).
  - intros w ws [= <- _]. done.
  - by repeat split.
  - by vm_compute.
Defined.

(** The actions from the start of the arguments, as if there were no
    options. *)
Definition action_ram : mem :=
  write_bytes demo_ram ARGS_ADDR (concat ((fun w => w ++ [0]) <$> demo_actions)).

Definition action_kernel : kernel (list (list Z)) :=
  with_argv (with_ram demo_kernel action_ram) (starts ARGS_ADDR demo_actions ++ [NULL]).

Lemma run_actions_correct_witness :
  run_actions demo_lit 0 action_kernel = perform demo_actions action_kernel /\
  perform demo_actions action_kernel =
    Ret (tt, with_world (with_text action_kernel (chars "Executing 'echo x':" ++ [10] ++ chars "Execution of 'echo x' complete." ++ [10]))
      [chars "extract"; chars "echo x"; [3]]).
Proof.
  split; [|by vm_compute]. apply (run_actions_correct demo_lit action_kernel 0 ARGS_ADDR demo_actions).
  - apply literals_check_ok. by vm_compute.
  - intros k q Hk. exact Hk.
  - apply words_check_ok. by vm_compute.
Defined.

Lemma shutdown_correct_witness :
  exists k, shutdown (fun n => if (n <? 2)%nat then 2 else 0) (with_how demo_kernel SHUTDOWN_REBOOT) =
    Ret (false, with_hw (with_text (with_kbd (with_how demo_kernel SHUTDOWN_REBOOT) k) (chars "Rebooting..." ++ [10]))
      ([InB 100 2; Delay 2; InB 100 2; Delay 2; InB 100 0; Delay 50; OutB 100 254; Delay 50])).
Proof.
  by apply (shutdown_correct (fun n => if (n <? 2)%nat then 2 else 0) (with_how demo_kernel SHUTDOWN_REBOOT) [chars "done"] (chars "stats") [chars "done"] [chars "done"]).
Defined.

Definition demo_blocks : bstate unit :=
  mkBstate [mkBlock (chars "hda") BLOCK_RAW 100 (Disk 0) 0 0; mkBlock (chars "hda1") BLOCK_FILESYS 50 (Partition 0 1) 0 0]
    (replicate 4 None) [tt] 0 [].

Lemma locate_block_device_correct_witness :
  exists t s', locate_block_device BLOCK_FILESYS None demo_blocks = Ret (t, s') /\
    all_blocks s' = all_blocks demo_blocks /\ block_by_role s' = [None; Some 1%nat; None; None] /\
    disks s' = [tt] /\ exists x, all_blocks demo_blocks !! 1%nat = Some x /\ t = chars (block_type_name BLOCK_FILESYS) ++ chars ": using " ++ name x ++ [10].
Proof. apply (locate_block_device_correct BLOCK_FILESYS None demo_blocks). vm_compute. lia. Defined.

(** An array that is too short: 66 empty words fit into the boot sector, but
    not into [argv]. *)
Example argv_overflow :
  read_command_line (with_ram demo_kernel (write_bytes demo_ram (ARGS_ADDR - 4) ([66; 0; 0; 0] ++ replicate 128 0))) = Err BadAccess.
Proof. by vm_compute. Qed.
