(* ===== verification/Fsutil.v ===== *)
(** * File system utilities ([filesys/fsutil.c])

    The actions of the kernel command line on files.  They work on the file
    system of [Filesys], on the scratch device of [Partition] and on the
    memory of [Strings], in which their buffers and the archive headers of
    [Ustar] lie.  [heap n] is the address that the [n]-th allocation of a
    buffer returns, or NULL; [held] are the buffers that have not been given
    back. *)
From Stdlib Require Import ZArith Lia String.
From stdpp Require Import prelude list gmap.
From S2P Require Import Exec Prelude Bitmap Palloc Strings Sort Stdio Ustar Partition Filesys FsData FsDir FsMap FsOpen Command.
#[local] Open Scope Z_scope.

Record util (D : Type) : Type := mkUtil {
  fsys : fs;
  scratch : bstate D;
  memory : mem;
  buffers : nat;
  held : list Z;
  extract_sector : Z;
  append_sector : Z;
  console : list Z
}.
Arguments mkUtil {D} _ _ _ _ _ _ _ _.
Arguments fsys {D} _. Arguments scratch {D} _. Arguments memory {D} _. Arguments buffers {D} _. Arguments held {D} _.
Arguments extract_sector {D} _. Arguments append_sector {D} _. Arguments console {D} _.

Section fsutil.
Context {D : Type} `{RawDriver D} (malloc_ok : nat -> bool) (junk : list Z) (heap : nat -> Z) (lit : string -> Z).
Implicit Types s : util D.

Definition with_fsys s x : util D := mkUtil x (scratch s) (memory s) (buffers s) (held s) (extract_sector s) (append_sector s) (console s).
Definition with_scratch s (x : bstate D) := mkUtil (fsys s) x (memory s) (buffers s) (held s) (extract_sector s) (append_sector s) (console s).
Definition with_memory s x : util D := mkUtil (fsys s) (scratch s) x (buffers s) (held s) (extract_sector s) (append_sector s) (console s).
Definition with_buffers s x : util D := mkUtil (fsys s) (scratch s) (memory s) x (held s) (extract_sector s) (append_sector s) (console s).
Definition with_held s x : util D := mkUtil (fsys s) (scratch s) (memory s) (buffers s) x (extract_sector s) (append_sector s) (console s).
Definition with_extract s x : util D := mkUtil (fsys s) (scratch s) (memory s) (buffers s) (held s) x (append_sector s) (console s).
Definition with_append s x : util D := mkUtil (fsys s) (scratch s) (memory s) (buffers s) (held s) (extract_sector s) x (console s).
Definition with_console s x : util D := mkUtil (fsys s) (scratch s) (memory s) (buffers s) (held s) (extract_sector s) (append_sector s) x.

Definition in_fs {A} (m : ST fs A) : ST (util D) A := fun s =>
  match m (fsys s) with Ret (a, x) => Ret (a, with_fsys s x) | Err e => Err e end.
Definition in_scratch {A} (m : ST (bstate D) A) : ST (util D) A := fun s =>
  match m (scratch s) with Ret (a, x) => Ret (a, with_scratch s x) | Err e => Err e end.

Definition say (l : list Z) : ST (util D) unit := fun s => Ret (tt, with_console s (console s ++ l)).

(** [malloc], and [palloc_get_page] with PAL_ASSERT. *)
Definition get_buffer : ST (util D) Z := fun s =>
  let p := heap (buffers s) in
  Ret (p, with_held (with_buffers s (S (buffers s))) (if p =? NULL then held s else p :: held s)).
Definition get_page : ST (util D) Z :=
  do! p := get_buffer in if p =? NULL then stop Panicked else sret p.

(** [free] and [palloc_free_page], which ask for a buffer that is held. *)
Definition give_back (p : Z) : ST (util D) unit := fun s =>
  if p =? NULL then Ret (tt, s)
  else if bool_decide (p ∈ held s) then Ret (tt, with_held s (filter (fun x => x <> p) (held s)))
  else Err BadAccess.

Definition string_of (p : Z) : ST (util D) (list Z) := fun s => let! l := string_at (memory s) p in Ret (l, s).

(** The bytes of a buffer, as a device reads them, and a copy into one. *)
Fixpoint load_bytes (m : mem) (p : Z) (n : nat) : outcome (list Z) :=
  match n with
  | O => Ret []
  | S n => let! b := load m p in let! l := load_bytes m (p + 1) n in Ret (b :: l)
  end.

Fixpoint store_bytes (m : mem) (p : Z) (l : list Z) : outcome mem :=
  match l with
  | [] => Ret m
  | b :: l => let! m := store m p b in store_bytes m (p + 1) l
  end.

Definition copy_in (p : Z) (l : list Z) : ST (util D) unit := fun s =>
  let! m := store_bytes (memory s) p l in Ret (tt, with_memory s m).

Definition set_bytes (p value n : Z) : ST (util D) unit := fun s =>
  let! (_, m) := memset (memory s) p value n in Ret (tt, with_memory s m).

Definition write_sector (b : nat) (sector buffer : Z) : ST (util D) unit :=
  do! s := get in
  do! l := lift (load_bytes (memory s) buffer 512) in
  in_scratch (Partition.block_write b sector l).

Definition read_sector (b : nat) (sector buffer : Z) : ST (util D) unit :=
  do! l := in_scratch (Partition.block_read b sector) in
  copy_in buffer l.

(** [file_read] into a buffer, [file_write] from one. *)
Definition read_into (f buffer size : Z) : ST (util D) Z :=
  do! l := in_fs (file_read malloc_ok f size) in
  do! _ := copy_in buffer l in
  sret (len l).

Definition write_from (f buffer size : Z) : ST (util D) Z :=
  do! s := get in
  do! l := lift (load_bytes (memory s) buffer (Z.to_nat size)) in
  in_fs (file_write malloc_ok f l size).

Definition next_append : ST (util D) Z := fun s =>
  Ret (append_sector s, with_append s (u32 (append_sector s + 1))).
Definition next_extract : ST (util D) Z := fun s =>
  Ret (extract_sector s, with_extract s (u32 (extract_sector s + 1))).

(** ** The functions *)

Definition fsutil_ls : ST (util D) unit :=
  do! _ := say (chars "Files in the root directory:" ++ [10]) in
  do! dir := in_fs (dir_open_root malloc_ok) in
  if dir =? NULL then stop Panicked else
  do! _ := sloop (fun _ : unit =>
    do! name := in_fs (dir_readdir malloc_ok junk dir) in
    match name with
    | Some name => do! _ := say (cname name ++ [10]) in sret (inl tt)
    | None => sret (inr tt)
    end) tt in
  do! _ := in_fs (dir_close malloc_ok dir) in
  say (chars "End of listing." ++ [10]).

Definition fsutil_cat (file_name : Z) : ST (util D) unit :=
  do! name := string_of file_name in
  do! _ := say (chars "Printing '" ++ name ++ chars "' to the console..." ++ [10]) in
  do! file := in_fs (filesys_open malloc_ok junk name) in
  if file =? NULL then stop Panicked else
  do! buffer := get_page in
  do! _ := sloop (fun _ : unit =>
    do! pos := in_fs (file_tell file) in
    do! n := read_into file buffer PGSIZE in
    if n =? 0 then sret (inr tt) else
    do! s := get in
    do! out := lift (hex_dump (memory s) (u32 pos) buffer n true) in
    do! _ := say out in
    sret (inl tt)) tt in
  do! _ := give_back buffer in
  in_fs (file_close malloc_ok file).

Definition fsutil_rm (file_name : Z) : ST (util D) unit :=
  do! name := string_of file_name in
  do! _ := say (chars "Deleting '" ++ name ++ chars "'..." ++ [10]) in
  do! ok := in_fs (filesys_remove malloc_ok junk name) in
  if (ok : bool) then sret tt else stop Panicked.

(** The loop that copies a file of the archive. *)
Definition extract_copy (b : nat) (dst buffer size : Z) : ST (util D) unit :=
  sloop (fun size =>
    if 0 <? size then
      let chunk_size := if 512 <? size then 512 else size in
      do! sector := next_extract in
      do! _ := read_sector b sector buffer in
      do! n := write_from dst buffer chunk_size in
      if negb (n =? chunk_size) then stop Panicked else sret (inl (s32 (size - chunk_size)))
    else sret (inr tt)) size.

(** One member of the archive: [true] at its end. *)
Definition extract_member (b : nat) (header buffer : Z) : ST (util D) bool :=
  do! sector := next_extract in
  do! _ := read_sector b sector header in
  do! s := get in
  do! r := lift (ustar_parse_header lit (memory s) header) in
  match r with
  | inl error => stop Panicked
  | inr (file_name, type, size) =>
      if type =? USTAR_EOF then sret true
      else if type =? USTAR_DIRECTORY then
        do! name := string_of file_name in
        do! _ := say (chars "ignoring directory " ++ name ++ [10]) in
        sret false
      else if type =? USTAR_REGULAR then
        do! name := string_of file_name in
        do! _ := say (chars "Putting '" ++ name ++ chars "' into the file system..." ++ [10]) in
        do! ok := in_fs (filesys_create malloc_ok junk name size) in
        if negb ok then stop Panicked else
        do! dst := in_fs (filesys_open malloc_ok junk name) in
        if dst =? NULL then stop Panicked else
        do! _ := extract_copy b dst buffer size in
        do! _ := in_fs (file_close malloc_ok dst) in
        sret false
      else sret false
  end.

Definition fsutil_extract : ST (util D) unit :=
  do! header := get_buffer in
  do! buffer := get_buffer in
  if (header =? NULL) || (buffer =? NULL) then stop Panicked else
  do! src := in_scratch (block_get_role BLOCK_SCRATCH) in
  match src with
  | None => stop Panicked
  | Some src =>
      do! _ := say (chars "Extracting ustar archive from scratch device into file system..." ++ [10]) in
      do! _ := sloop (fun _ : unit =>
        do! eof := extract_member src header buffer in
        sret (if (eof : bool) then inr tt else inl tt)) tt in
      do! _ := say (chars "Erasing ustar archive..." ++ [10]) in
      do! _ := set_bytes header 0 512 in
      do! _ := write_sector src 0 header in
      do! _ := write_sector src 1 header in
      do! _ := give_back buffer in
      give_back header
  end.

(** The loop of [fsutil_append]. *)
Definition append_copy (b : nat) (src buffer size : Z) : ST (util D) unit :=
  sloop (fun size =>
    if 0 <? size then
      let chunk_size := if 512 <? size then 512 else size in
      do! s := get in
      do! cnt := in_scratch (Partition.block_size b) in
      if cnt <=? append_sector s then stop Panicked else
      do! n := read_into src buffer chunk_size in
      if negb (n =? chunk_size) then stop Panicked else
      do! _ := set_bytes (buffer + chunk_size) 0 (512 - chunk_size) in
      do! sector := next_append in
      do! _ := write_sector b sector buffer in
      sret (inl (s32 (size - chunk_size)))
    else sret (inr tt)) size.

Definition fsutil_append (file_name : Z) : ST (util D) unit :=
  do! name := string_of file_name in
  do! _ := say (chars "Appending '" ++ name ++ chars "' to ustar archive on scratch device..." ++ [10]) in
  do! buffer := get_buffer in
  if buffer =? NULL then stop Panicked else
  do! src := in_fs (filesys_open malloc_ok junk name) in
  if src =? NULL then stop Panicked else
  do! size := in_fs (file_length src) in
  do! dst := in_scratch (block_get_role BLOCK_SCRATCH) in
  match dst with
  | None => stop Panicked
  | Some dst =>
      do! s := get in
      do! r := lift (ustar_make_header lit (memory s) file_name USTAR_REGULAR size buffer) in
      let '(ok, out, m) := r in
      do! _ := put (with_memory s m) in
      do! _ := say out in
      if negb ok then stop Panicked else
      do! sector := next_append in
      do! _ := write_sector dst sector buffer in
      do! _ := append_copy dst src buffer size in
      do! _ := set_bytes buffer 0 512 in
      do! s := get in
      do! _ := write_sector dst (append_sector s) buffer in
      do! _ := write_sector dst (u32 (append_sector s + 1)) buffer in
      do! _ := in_fs (file_close malloc_ok src) in
      give_back buffer
  end.
End fsutil.

(** ** Bytes in memory and in sectors *)

Lemma load_bytes_spec m p l : bytes_at m p l -> load_bytes m p (length l) = Ret l.
Proof.
  revert p. induction l as [|b l IH]; intros p Hb; [done|]. cbn [length load_bytes].
  rewrite (load_ok m p b) by (rewrite <- (Z.add_0_r p); by apply (Hb 0%nat)). cbn [obind].
  rewrite IH; [done|]. intros i c Hi. replace (p + 1 + Z.of_nat i) with (p + Z.of_nat (S i)) by lia. by apply Hb.
Qed.

Lemma store_bytes_spec m p l : mapped m p (len l) -> store_bytes m p l = Ret (write_bytes m p l).
Proof.
  revert m p. induction l as [|b l IH]; intros m p Hm; [done|]. cbn [length store_bytes write_bytes] in *.
  rewrite store_ok by (apply Hm; lia). cbn [obind]. apply IH. intros q Hq. destruct (decide (q = p)) as [->|].
  - rewrite lookup_insert_eq. by eexists.
  - rewrite lookup_insert_ne by done. apply Hm. lia.
Qed.

Lemma block_bytes m p n : byte_block m p (Z.of_nat n) -> exists l, length l = n /\ bytes_at m p l.
Proof.
  revert p. induction n as [|n IH]; intros p Hb; [by exists []|].
  destruct (Hb p) as (b & Hp & _); [lia|]. destruct (IH (p + 1)) as (l & Hl & Hls); [intros q Hq; apply Hb; lia|].
  exists (b :: l). split; [simpl; lia|]. intros [|i] c Hi; simpl in Hi.
  - injection Hi as <-. by rewrite Z.add_0_r.
  - replace (p + Z.of_nat (S i)) with (p + 1 + Z.of_nat i) by lia. by apply Hls.
Qed.

Lemma filter_other (p : Z) (l : list Z) : p ∉ l -> filter (fun x => x <> p) l = l.
Proof.
  induction l as [|x l IH]; intros Hp; [done|]. rewrite filter_cons, decide_True, IH by set_solver. done.
Qed.

Section append.
Context {D : Type} `{DriverLaws D} (malloc_ok : nat -> bool)
  (junk : list Z) (Hjunk : length junk = 20%nat) (heap : nat -> Z) (lit : string -> Z).
Implicit Types (s : util D) (sc : bstate D).

(** No allocation of the file system fails. *)
#[local] Abbreviation enough := (forall j, malloc_ok j = true).

(** A device [b] of [N] sectors that can be written. *)
Record writable sc (b : nat) (N : Z) : Prop := mkWritable {
  wr_ok : blocks_ok sc;
  wr_dev : exists x, all_blocks sc !! b = Some x /\ size x = N /\ type x <> BLOCK_FOREIGN
}.

Lemma writable_after sc sc' b N : writable sc b N -> blocks_ok sc' -> after sc sc' -> writable sc' b N.
Proof.
  intros [_ (x & Hx & Hs & Ht)] Hok Ha. split; [done|]. destruct (shape_lookup sc sc' b x (af_blocks _ _ Ha) Hx) as (x' & Hx' & Esh).
  injection Esh as _ Et Es _. exists x'. split; [done|]. by rewrite Es, Et.
Qed.

Lemma run_write_sector s b N i buffer l :
  writable (scratch s) b N -> 0 <= i < N -> bytes_at (memory s) buffer l -> length l = 512%nat ->
  exists sc, write_sector b i buffer s = Ret (tt, with_scratch s sc) /\ writable sc b N /\ block_by_role sc = block_by_role (scratch s) /\
    forall j, contents sc b j = if j =? i then l else contents (scratch s) b j.
Proof.
  intros Hw Hi Hb Hl. pose proof Hw as [Hok (x & Hx & <- & Ht)]. destruct (write_contents (scratch s) b x i l) as (sc & Hr & Hok' & Ha & Hc & _); [done..|].
  exists sc. split; [|split; [by eapply writable_after|]; split; [apply Ha|done]].
  unfold write_sector. rewrite sbind_run with (s' := s) (a := s) by done.
  pose proof (load_bytes_spec (memory s) buffer l Hb) as Hload. rewrite Hl in Hload.
  rewrite sbind_run with (s' := s) (a := l) by (unfold lift; by rewrite Hload). unfold in_scratch. by rewrite Hr.
Qed.

Lemma run_copy_in s p l : mapped (memory s) p (len l) -> copy_in p l s = Ret (tt, with_memory s (write_bytes (memory s) p l)).
Proof. intros Hp. unfold copy_in. by rewrite store_bytes_spec. Qed.

Lemma run_set_bytes s p v (n : nat) :
  mapped (memory s) p (Z.of_nat n) -> 0 < p -> Z.of_nat n < two32 ->
  set_bytes p v (Z.of_nat n) s = Ret (tt, with_memory s (write_bytes (memory s) p (replicate n (u8 v)))).
Proof. intros Hp Hp0 Hn. unfold set_bytes. by rewrite memset_spec. Qed.

(** ** Reading the file *)

Lemma util_run_file_read x f a i p k size :
  inodes x !! a = Some i -> disk_ok (disk x) -> extent_ok (disk x) (data i) -> 0 <= p -> p + avail (data i) size p < 2147483648 ->
  exists n k', file_read malloc_ok f size (open_at x f a p k) = Ret (slice (disk x) (data i) p n, open_at x f a (p + n) k') /\
    0 <= n <= avail (data i) size p /\ (enough -> n = avail (data i) size p).
Proof.
  intros Hi Hd He Hp Hlt. unfold file_read.
  assert (forall p k, read_file f (open_at x f a p k) = Ret (mkFile a p false, open_at x f a p k)) as Hr
    by (intros; unfold read_file, open_at; cbn [files with_allocs with_files]; by rewrite lookup_insert_eq).
  sstep (Hr p k). cbn [finode pos].
  destruct (run_inode_read_at malloc_ok (open_at x f a p k) a i size p) as (n & k' & Hrd & Hn & Hf); [done..|].
  sstep Hrd. change (with_allocs (open_at x f a p k) k') with (open_at x f a p k').
  sstep (Hr p k'). cbn [finode pos deny_write]. exists n, k'. split; [|done]. unfold sbind, write_file, sret. cbn [files open_at with_allocs with_files].
  rewrite slice_length, Z2Nat.id by lia. rewrite s32_small by (unfold is_s32; lia).
  unfold open_at, with_files, with_allocs. cbn. by rewrite insert_insert_eq.
Qed.

(** The block of the archive for the bytes of the file from [p] on. *)
Definition padded (dk : list (list Z)) (d : inode_disk) (p : Z) : list Z :=
  slice dk d p (avail d 512 p) ++ replicate (Z.to_nat (512 - avail d 512 p)) 0.

Lemma padded_length dk d p : 0 <= p -> length (padded dk d p) = 512%nat.
Proof. intros Hp. unfold padded. assert (0 <= avail d 512 p <= 512) by (unfold avail; lia). rewrite length_app, slice_length, length_replicate by lia. lia. Qed.

(** ** The copying loop *)

Definition append_body (b : nat) (src buffer : Z) (size : Z) : ST (util D) (Z + unit) :=
  if 0 <? size then
    let chunk_size := if 512 <? size then 512 else size in
    do! s := get in
    do! cnt := in_scratch (Partition.block_size b) in
    if cnt <=? append_sector s then stop Panicked else
    do! n := read_into malloc_ok src buffer chunk_size in
    if negb (n =? chunk_size) then stop Panicked else
    do! _ := set_bytes (buffer + chunk_size) 0 (512 - chunk_size) in
    do! sector := next_append in
    do! _ := write_sector b sector buffer in
    sret (inl (s32 (size - chunk_size)))
  else sret (inr tt).

(** The state in which the file [f] has been read up to [p]. *)
Definition copying s (x : fs) (f a p : Z) (k : nat) sc m (q : Z) : util D :=
  mkUtil (open_at x f a p k) sc m (buffers s) (held s) (extract_sector s) q (console s).

Lemma run_size sc b N : writable sc b N -> Partition.block_size b sc = Ret (N, sc).
Proof.
  intros [_ (x & Hx & <- & _)]. unfold Partition.block_size. by rewrite sbind_run with (s' := sc) (a := x) by (unfold get_block; by rewrite Hx).
Qed.

Lemma append_step s x f a i p k sc m q b N buffer :
  inodes x !! a = Some i -> disk_ok (disk x) -> extent_ok (disk x) (data i) -> 0 <= p < dlength (data i) ->
  writable sc b N -> 0 <= q < N -> N < two32 -> 0 < buffer -> mapped m buffer 512 ->
  (~ enough /\ append_body b f buffer (dlength (data i) - p) (copying s x f a p k sc m q) = Err Panicked) \/
  exists k' sc' m', append_body b f buffer (dlength (data i) - p) (copying s x f a p k sc m q) =
      Ret (inl (dlength (data i) - p - avail (data i) 512 p), copying s x f a (p + avail (data i) 512 p) k' sc' m' (q + 1)) /\
    writable sc' b N /\ block_by_role sc' = block_by_role sc /\ mapped m' buffer 512 /\
    forall j, contents sc' b j = if j =? q then padded (disk x) (data i) p else contents sc b j.
Proof.
  intros Hi Hd He Hp Hw Hq HN Hb Hmap. pose proof He as (_ & Hl & _). set (c := avail (data i) 512 p).
  assert (0 < c <= 512 /\ c <= dlength (data i) - p) as [Hc Hcl] by (unfold c, avail; lia).
  assert ((if 512 <? dlength (data i) - p then 512 else dlength (data i) - p) = c) as Hchunk
    by (unfold c, avail; destruct (Z.ltb_spec 512 (dlength (data i) - p)); lia).
  assert (avail (data i) c p = c) as Hav by (unfold avail; lia).
  unfold append_body. rewrite (proj2 (Z.ltb_lt 0 _)) by lia. rewrite Hchunk. cbv zeta.
  set (s0 := copying s x f a p k sc m q). rewrite sbind_run with (s' := s0) (a := s0) by done.
  rewrite sbind_run with (s' := s0) (a := N) by (unfold in_scratch; cbn [scratch s0 copying]; by rewrite (run_size sc b N)).
  cbn [append_sector s0 copying]. rewrite (proj2 (Z.leb_gt N q)) by lia.
  destruct (util_run_file_read x f a i p k c Hi Hd He) as (n & k' & Hr & Hn & Hfull); [lia|rewrite Hav; lia|]. rewrite Hav in *.
  destruct (decide (n = c)) as [->|Hshort].
  2:{ left. split; [intros Hm; by apply Hshort, Hfull|]. set (l := slice (disk x) (data i) p n) in *.
      assert (len l = n) as Hlen by (unfold l; rewrite slice_length by lia; lia).
      assert (read_into malloc_ok f buffer c s0 = Ret (n, copying s x f a (p + n) k' sc (write_bytes m buffer l) q)) as Hread.
      { unfold read_into. rewrite sbind_run with (s' := copying s x f a (p + n) k' sc m q) (a := l) by (unfold in_fs; cbn [fsys s0 copying]; by rewrite Hr).
        rewrite sbind_run with (s' := copying s x f a (p + n) k' sc (write_bytes m buffer l) q) (a := tt); [unfold sret; by rewrite Hlen|].
        rewrite run_copy_in; [done|]. rewrite Hlen. intros r Hr'. apply Hmap. lia. }
      rewrite (sbind_run _ _ _ _ _ Hread). by rewrite (proj2 (Z.eqb_neq n c)). }
  right. set (l := slice (disk x) (data i) p c) in *. assert (len l = c) as Hlen by (unfold l; rewrite slice_length by lia; lia).
  set (m1 := write_bytes m buffer l). set (s1 := copying s x f a (p + c) k' sc m1 q).
  assert (read_into malloc_ok f buffer c s0 = Ret (c, s1)) as Hread.
  { unfold read_into. rewrite sbind_run with (s' := copying s x f a (p + c) k' sc m q) (a := l) by (unfold in_fs; cbn [fsys s0 copying]; by rewrite Hr).
    rewrite sbind_run with (s' := s1) (a := tt); [unfold sret; by rewrite Hlen|]. rewrite run_copy_in; [done|].
    rewrite Hlen. intros r Hr'. apply Hmap. lia. }
  rewrite (sbind_run _ _ _ _ _ Hread). rewrite Z.eqb_refl. cbn [negb].
  assert (mapped m1 buffer 512) as Hmap1 by (by apply mapped_write).
  set (m2 := write_bytes m1 (buffer + c) (replicate (Z.to_nat (512 - c)) 0)). set (s2 := copying s x f a (p + c) k' sc m2 q).
  assert (set_bytes (buffer + c) 0 (512 - c) s1 = Ret (tt, s2)) as Hset.
  { replace (512 - c) with (Z.of_nat (Z.to_nat (512 - c))) at 1 by lia. rewrite run_set_bytes; [done| |lia|unfold two32; lia].
    intros r Hr'. apply Hmap1. lia. }
  rewrite (sbind_run _ _ _ _ _ Hset).
  set (s3 := copying s x f a (p + c) k' sc m2 (q + 1)).
  rewrite sbind_run with (s' := s3) (a := q) by (unfold next_append, s2, s3, copying, with_append; cbn [append_sector];
    by rewrite u32_small by (unfold is_u32; lia)).
  assert (bytes_at m2 buffer (padded (disk x) (data i) p)) as Hbytes.
  { unfold padded. fold c l. apply bytes_at_app. rewrite Hlen. split; [|apply write_bytes_at].
    apply bytes_at_write_out; [unfold disjoint_blocks; lia|apply write_bytes_at]. }
  destruct (run_write_sector s3 b N q buffer (padded (disk x) (data i) p)) as (sc' & Hwr & Hw' & Hrole & Hcont); [done..|apply padded_length; lia|].
  rewrite (sbind_run _ _ _ _ _ Hwr). exists k', sc', m2. unfold sret. rewrite s32_small by (unfold is_s32; lia).
  split; [done|]. split; [done|]. split; [done|]. split; [by apply mapped_write|done].
Qed.

Lemma append_run b N f a i x buffer (n : nat) : forall s p k sc m q,
  inodes x !! a = Some i -> disk_ok (disk x) -> extent_ok (disk x) (data i) -> 0 <= p ->
  writable sc b N -> 0 <= q -> q + Z.of_nat n <= N -> N < two32 -> 0 < buffer -> mapped m buffer 512 ->
  p = dlength (data i) /\ n = O \/ p < dlength (data i) /\ (dlength (data i) - p + 511) / 512 = Z.of_nat n ->
  (~ enough /\ siter (append_body b f buffer) (S n) (dlength (data i) - p) (copying s x f a p k sc m q) = Err Panicked) \/
  exists k' sc' m', siter (append_body b f buffer) (S n) (dlength (data i) - p) (copying s x f a p k sc m q) =
      Ret (inr tt, copying s x f a (dlength (data i)) k' sc' m' (q + Z.of_nat n)) /\
    writable sc' b N /\ block_by_role sc' = block_by_role sc /\ mapped m' buffer 512 /\
    forall j, contents sc' b j = if (q <=? j) && (j <? q + Z.of_nat n) then padded (disk x) (data i) (p + 512 * (j - q)) else contents sc b j.
Proof.
  induction n as [|n IH]; intros s p k sc m q Hi Hd He Hp Hw Hq HN HNb Hb Hmap Hpn.
  - destruct Hpn as [[-> _]|[Hlt Hn]]; [|pose proof (Z.div_le_mono 512 (dlength (data i) - p + 511) 512 ltac:(lia) ltac:(lia)) as Hge;
      change (512 / 512) with 1 in Hge; lia].
    right. exists k, sc, m. rewrite Z.sub_diag, Z.add_0_r. split; [done|]. split_and!; [done|done|done|].
    intros j. destruct (Z.leb_spec q j), (Z.ltb_spec j q); cbn [andb]; (done || lia).
  - destruct Hpn as [[_ ?]|[Hlt Hn]]; [done|].
    destruct (append_step s x f a i p k sc m q b N buffer) as [[Hno Hs]|(k1 & sc1 & m1 & Hs & Hw1 & Hr1 & Hm1 & Hc1)]; [done..|lia|done|lia|done|done|done| |].
    { left. split; [done|]. remember (S n) as n1. cbn [siter]. by rewrite Hs. }
    set (c := avail (data i) 512 p) in *. assert (0 < c <= 512 /\ c <= dlength (data i) - p) as [Hc Hcl] by (unfold c, avail; lia).
    assert (c = 512 \/ c = dlength (data i) - p) as Hcc by (unfold c, avail; lia).
    destruct (IH s (p + c) k1 sc1 m1 (q + 1)) as [[Hno Hruns]|(k2 & sc2 & m2 & Hruns & Hw2 & Hr2 & Hm2 & Hc2)]; try done; try lia.
    { pose proof (Z.div_mod (dlength (data i) - p + 511) 512 ltac:(lia)). pose proof (Z.mod_pos_bound (dlength (data i) - p + 511) 512 ltac:(lia)).
      destruct (decide (p + c = dlength (data i))) as [|Hne]; [left; split; [done|lia]|right].
      assert (c = 512) as -> by lia. split; [lia|]. replace (dlength (data i) - (p + 512) + 511) with (dlength (data i) - p + 511 + (-1) * 512) by lia.
      rewrite Z.div_add by lia. lia. }
    { left. split; [done|]. remember (S n) as n1. cbn [siter]. rewrite Hs.
      replace (dlength (data i) - p - c) with (dlength (data i) - (p + c)) by lia. exact Hruns. }
    right. exists k2, sc2, m2. split.
    { replace (q + Z.of_nat (S n)) with (q + 1 + Z.of_nat n) by lia. remember (S n) as n1. cbn [siter]. rewrite Hs.
      replace (dlength (data i) - p - c) with (dlength (data i) - (p + c)) by lia. exact Hruns. }
    split; [done|]. split; [congruence|]. split; [done|]. intros j. rewrite Hc2, Hc1.
    destruct (Z.eqb_spec j q) as [->|Hne].
    + rewrite (proj2 (Z.leb_gt (q + 1) q)), (proj2 (Z.leb_le q q)) by lia. cbn [andb].
      rewrite (proj2 (Z.ltb_lt q (q + Z.of_nat (S n)))) by lia. f_equal. lia.
    + destruct (Z.leb_spec (q + 1) j), (Z.leb_spec q j), (Z.ltb_spec j (q + 1 + Z.of_nat n)), (Z.ltb_spec j (q + Z.of_nat (S n)));
        cbn [andb]; try lia; try done.
      assert (c = 512 \/ n = O) as [->| ->]; [|f_equal; lia|lia].
      destruct Hcc as [|Hcc]; [by left|right]. rewrite <- Hcc in Hn. pose proof (Z.div_lt_upper_bound (c + 511) 512 2 ltac:(lia) ltac:(lia)). lia.
Qed.

(** ** Appending a file *)

(** The file [name] is in the root directory, its inode in the sector [sec]
    with the data [d]; the scratch device is [b], and has room for the
    archive; the buffer is clear of the name and of the literals. *)
Record append_ready s (file_name : Z) (name : list Z) (rd : inode_disk) (sec : Z) (d : inode_disk) (b : nat) (N : Z) : Prop := mkAppendReady {
  ap_root : root_ok (fsys s) rd;
  ap_name : cstr (memory s) file_name name;
  ap_entry : find_name name (slots (disk (fsys s)) rd) = Some sec;
  ap_sector : sec <> ROOT_DIR_SECTOR /\ 0 <= sec < len (disk (fsys s));
  ap_data : inode_data (fsys s) sec d;
  ap_extent : extent_ok (disk (fsys s)) d;
  ap_buffer : header_ok lit (heap (buffers s)) (memory s);
  ap_apart : disjoint_blocks (heap (buffers s)) 512 file_name (len name + 1);
  ap_fresh : heap (buffers s) ∉ held s;
  ap_short : len (archive_name name) <= 99;
  ap_role : block_by_role (scratch s) !! 2%nat = Some (Some b);
  ap_device : writable (scratch s) b N;
  ap_room : 0 <= append_sector s /\ append_sector s + 3 + (dlength d + 511) / 512 <= N
}.

Definition append_text (name : list Z) : list Z :=
  chars "Appending '" ++ name ++ chars "' to ustar archive on scratch device..." ++ [10].

Lemma writable_size sc b N : writable sc b N -> N < two32.
Proof. intros [Hok (x & Hx & <- & _)]. by destruct (Hok b x Hx) as [[_ ?] _]. Qed.

Lemma run_role sc r : block_by_role sc !! 2%nat = Some r -> block_get_role BLOCK_SCRATCH sc = Ret (r, sc).
Proof.
  intros Hr. unfold block_get_role. sassert by done. rewrite sbind_run with (s' := sc) (a := sc) by done.
  unfold lift. cbn [block_type_index]. by rewrite Hr.
Qed.

(** The part of [fsutil_append] behind the header. *)
Lemma append_tail s b N f a i x p k sc m q (n : nat) buffer :
  inodes x !! a = Some i -> disk_ok (disk x) -> extent_ok (disk x) (data i) -> p = 0 ->
  writable sc b N -> 0 <= q -> q + Z.of_nat n + 2 <= N -> 0 < buffer -> mapped m buffer 512 ->
  (dlength (data i) + 511) / 512 = Z.of_nat n ->
  (forall p k', file_close malloc_ok f (open_at x f a p k') = Ret (tt, with_allocs (fsys s) k')) ->
  let run := (do! _ := append_copy malloc_ok b f buffer (dlength (data i)) in
      do! _ := set_bytes buffer 0 512 in
      do! s := get in
      do! _ := write_sector b (append_sector s) buffer in
      do! _ := write_sector b (u32 (append_sector s + 1)) buffer in
      do! _ := in_fs (file_close malloc_ok f) in
      give_back buffer) (copying s x f a p k sc m q) in
  forall others, held s = buffer :: others -> buffer ∉ others ->
  (~ enough /\ run = Err Panicked) \/
  exists k' sc' m', run =
    Ret (tt, mkUtil (with_allocs (fsys s) k') sc' m' (buffers s) others (extract_sector s) (q + Z.of_nat n) (console s)) /\
    writable sc' b N /\
    forall j, contents sc' b j = if (q <=? j) && (j <? q + Z.of_nat n) then padded (disk x) (data i) (512 * (j - q))
      else if (j =? q + Z.of_nat n) || (j =? q + Z.of_nat n + 1) then replicate 512 0 else contents sc b j.
Proof.
  intros Hi Hd He -> Hw Hq HN Hb Hmap Hn Hclose run others Hheld Hnot. pose proof (writable_size _ _ _ Hw) as HNb. pose proof He as (_ & Hl & _).
  unfold run, append_copy. fold (append_body b f buffer). clear run.
  destruct (append_run b N f a i x buffer n s 0 k sc m q) as [[Hno Hr]|(k1 & sc1 & m1 & Hr & Hw1 & _ & Hm1 & Hc1)]; try done; try lia.
  { destruct (decide (dlength (data i) = 0)) as [E|]; [left|right; split; [lia|by rewrite Z.sub_0_r]].
    rewrite E in Hn. change ((0 + 511) / 512) with 0 in Hn. split; [done|lia]. }
  all: rewrite Z.sub_0_r in Hr; assert (Z.of_nat (S n) <= two32) as Hn32 by lia.
  { left. split; [done|]. unfold sbind. by rewrite (sloop_iter _ _ _ _ (Err Panicked) Hr Hn32). }
  right. rewrite (sbind_run _ _ _ _ _ (sloop_iter _ _ _ _ (Ret (tt, _)) Hr Hn32)).
  set (s1 := copying s x f a (dlength (data i)) k1 sc1 m1 (q + Z.of_nat n)).
  set (m2 := write_bytes m1 buffer (replicate 512 0)). set (s2 := copying s x f a (dlength (data i)) k1 sc1 m2 (q + Z.of_nat n)).
  rewrite sbind_run with (s' := s2) (a := tt) by (by apply (run_set_bytes s1 buffer 0 512)).
  rewrite sbind_run with (s' := s2) (a := s2) by done. cbn [append_sector s2 copying].
  assert (bytes_at m2 buffer (replicate 512 0)) as Hz by apply write_bytes_at.
  destruct (run_write_sector s2 b N (q + Z.of_nat n) buffer (replicate 512 0)) as (sc2 & Hr2 & Hw2 & _ & Hc2); [done|lia|done|done|].
  rewrite (sbind_run _ _ _ _ _ Hr2). rewrite u32_small by (unfold is_u32; lia).
  destruct (run_write_sector (with_scratch s2 sc2) b N (q + Z.of_nat n + 1) buffer (replicate 512 0)) as (sc3 & Hr3 & Hw3 & _ & Hc3); [done|lia|done|done|].
  rewrite (sbind_run _ _ _ _ _ Hr3). set (s4 := mkUtil (with_allocs (fsys s) k1) sc3 m2 (buffers s) (held s) (extract_sector s) (q + Z.of_nat n) (console s)).
  rewrite sbind_run with (s' := s4) (a := tt) by (unfold in_fs; cbn [fsys with_scratch s2 copying]; by rewrite Hclose).
  exists k1, sc3, m2. split.
  { unfold give_back. rewrite (proj2 (Z.eqb_neq buffer NULL)) by (unfold NULL; lia). cbn [held s4]. rewrite Hheld, bool_decide_true by (by left).
    unfold with_held. cbn [fsys scratch memory buffers extract_sector append_sector console s4]. do 3 f_equal.
    rewrite filter_cons, decide_False by (by intros []). by apply filter_other. }
  split; [done|]. intros j. rewrite Hc3. cbn [scratch with_scratch]. rewrite Hc2. cbn [scratch s2 copying]. rewrite Hc1.
  rewrite Z.add_0_l.
  destruct (Z.eqb_spec j (q + Z.of_nat n)), (Z.eqb_spec j (q + Z.of_nat n + 1)), (Z.leb_spec q j), (Z.ltb_spec j (q + Z.of_nat n)); cbn [andb orb]; (done || lia).
Qed.

(** [fsutil_append] up to the header. *)
Lemma append_head s file_name name f a i x k b mh buffer :
  heap (buffers s) = buffer ->
  cstr (memory s) file_name name -> buffer <> NULL ->
  filesys_open malloc_ok junk name (fsys s) = Ret (f, open_at x f a 0 k) -> f <> NULL -> inodes x !! a = Some i ->
  block_by_role (scratch s) !! 2%nat = Some (Some b) ->
  ustar_make_header lit (memory s) file_name USTAR_REGULAR (dlength (data i)) buffer = Ret (true, [], mh) ->
  0 <= append_sector s -> append_sector s + 1 < two32 ->
  let s1 := mkUtil (fsys s) (scratch s) (memory s) (S (buffers s)) (buffer :: held s) (extract_sector s) (append_sector s) (console s ++ append_text name) in
  fsutil_append malloc_ok junk heap lit file_name s =
    (do! _ := write_sector b (append_sector s) buffer in
     do! _ := append_copy malloc_ok b f buffer (dlength (data i)) in
     do! _ := set_bytes buffer 0 512 in
     do! s := get in
     do! _ := write_sector b (append_sector s) buffer in
     do! _ := write_sector b (u32 (append_sector s + 1)) buffer in
     do! _ := in_fs (file_close malloc_ok f) in
     give_back buffer) (copying s1 x f a 0 k (scratch s) mh (append_sector s + 1)).
Proof.
  intros Hbuf Hname Hb0 Hop Hf Hi Hrole Hmk Hq HNb s1.
  unfold fsutil_append. rewrite sbind_run with (s' := s) (a := name) by (unfold string_of; by rewrite (string_at_spec _ _ _ Hname)).
  rewrite sbind_run with (s' := with_console s (console s ++ append_text name)) (a := tt) by done.
  rewrite sbind_run with (s' := s1) (a := buffer)
    by (unfold get_buffer; cbn [buffers with_console]; rewrite Hbuf; by rewrite (proj2 (Z.eqb_neq buffer NULL)) by done). rewrite (proj2 (Z.eqb_neq buffer NULL)) by done.
  set (s2 := copying s1 x f a 0 k (scratch s) (memory s) (append_sector s)).
  rewrite sbind_run with (s' := s2) (a := f) by (unfold in_fs; cbn [fsys s1]; by rewrite Hop).
  rewrite (proj2 (Z.eqb_neq f NULL)) by done. rewrite sbind_run with (s' := s2) (a := dlength (data i)).
  2: { unfold in_fs. cbn [fsys copying s2]. unfold file_length, sbind, assert_, lift, ASSERT. rewrite (proj2 (Z.eqb_neq f NULL)) by done. cbn [negb].
    unfold read_file, open_at. cbn [files with_allocs with_files]. rewrite lookup_insert_eq. unfold read_inode. cbn [inodes finode with_allocs with_files].
    by rewrite Hi. }
  rewrite sbind_run with (s' := s2) (a := Some b) by (unfold in_scratch; cbn [scratch copying s2]; by rewrite (run_role _ _ Hrole)).
  rewrite sbind_run with (s' := s2) (a := s2) by done.
  rewrite sbind_run with (s' := s2) (a := (true, [], mh)) by (cbn [memory copying s2]; unfold lift; by rewrite Hmk).
  cbv beta iota zeta. set (s3 := copying s1 x f a 0 k (scratch s) mh (append_sector s)).
  rewrite sbind_run with (s' := s3) (a := tt) by done.
  rewrite sbind_run with (s' := s3) (a := tt)
    by (unfold say, s3, copying, with_console; cbn [fsys scratch memory buffers held extract_sector append_sector console]; by rewrite app_nil_r).
  cbn [negb]. by rewrite sbind_run with (s' := copying s1 x f a 0 k (scratch s) mh (append_sector s + 1)) (a := append_sector s)
    by (unfold next_append, s3, copying, with_append; cbn [append_sector]; by rewrite u32_small by (unfold is_u32; lia)).
Qed.

(** The file cannot be opened. *)
Lemma append_open_fails s file_name name k :
  cstr (memory s) file_name name -> heap (buffers s) <> NULL -> filesys_open malloc_ok junk name (fsys s) = Ret (NULL, with_allocs (fsys s) k) ->
  fsutil_append malloc_ok junk heap lit file_name s = Err Panicked.
Proof.
  intros Hname Hb0 Hop. unfold fsutil_append. rewrite sbind_run with (s' := s) (a := name) by (unfold string_of; by rewrite (string_at_spec _ _ _ Hname)).
  rewrite sbind_run with (s' := with_console s (console s ++ append_text name)) (a := tt) by done.
  set (buffer := heap (buffers s)) in *.
  set (s1 := mkUtil (fsys s) (scratch s) (memory s) (S (buffers s)) (buffer :: held s) (extract_sector s) (append_sector s) (console s ++ append_text name)).
  rewrite sbind_run with (s' := s1) (a := buffer)
    by (unfold get_buffer; cbn [buffers with_console]; fold buffer; by rewrite (proj2 (Z.eqb_neq buffer NULL)) by done).
  rewrite (proj2 (Z.eqb_neq buffer NULL)) by done. unfold sbind, in_fs. cbn [fsys s1]. by rewrite Hop.
Qed.

(** C18: [fsutil_append] of a file in the root directory, when the scratch
    device has room for it and its stripped name fits into the header, writes
    an archive that holds it to the device, from the current position on: a
    header from which [ustar_parse_header] gives back the type, the size and
    the stripped name (without a leading "/" or "../"), the bytes of the file
    in blocks padded with zeros, and two blocks of zeros, after which the next
    file will overwrite these two.  Every other sector of the device, and the
    file system, are as before, and the buffer is given back.  The
    only other outcome is a panic, and only if not every allocation of the file
    system succeeds. *)
Theorem fsutil_append_correct s file_name name rd sec d b N :
  append_ready s file_name name rd sec d b N ->
  (fsutil_append malloc_ok junk heap lit file_name s = Err Panicked /\ ~ (forall j, malloc_ok j = true)) \/
  exists k sc m h mh, fsutil_append malloc_ok junk heap lit file_name s =
      Ret (tt, mkUtil (with_allocs (fsys s) k) sc m (S (buffers s)) (held s) (extract_sector s)
        (append_sector s + 1 + (dlength d + 511) / 512) (console s ++ append_text name)) /\
    writable sc b N /\
    (length h = 512%nat /\ bytes_at mh (heap (buffers s)) h /\
     ustar_parse_header lit mh (heap (buffers s)) = Ret (inr (heap (buffers s), USTAR_REGULAR, dlength d)) /\
     cstr mh (heap (buffers s)) (archive_name name)) /\
    forall j, contents sc b j =
      let i := j - append_sector s in let n := (dlength d + 511) / 512 in
      if i =? 0 then h
      else if (1 <=? i) && (i <? 1 + n) then padded (disk (fsys s)) d (512 * (i - 1))
      else if (i =? 1 + n) || (i =? 2 + n) then replicate 512 0
      else contents (scratch s) b j.
Proof.
  intros [Hroot Hname Hentry [Hsec Hsr] Hdata Hext Hbuf Hapart Hfresh Hshort Hrole Hdev [Hq Hroom]].
  pose proof Hname as (_ & _ & Hchars & _). pose proof Hbuf as (_ & _ & Hb0 & _ & _). pose proof Hext as (_ & Hl & _).
  assert (Hn0 : 0 <= (dlength d + 511) / 512) by (apply Z.div_pos; lia).
  set (n := Z.to_nat ((dlength d + 511) / 512)). assert (Hn : (dlength d + 511) / 512 = Z.of_nat n) by lia.
  assert (Hcs : c_string name) by (eapply Forall_impl; [exact Hchars|]; unfold is_char; intros; lia).
  destruct (run_filesys_open malloc_ok junk Hjunk (fsys s) rd name Hroot Hcs)
    as [(k & Hop & Hmiss)|(sec' & f & a & i & x & k & Efn & Hop & Hf & Hi & _ & Hda & Hdk & _ & _ & Hclose)].
  { rewrite Hentry. intros ? [= <-]. eauto. }
  { left. split; [|intros Hm; by rewrite (Hmiss Hm) in Hentry]. apply (append_open_fails s file_name name k); try done. unfold NULL. lia. }
  rewrite Hentry in Efn. injection Efn as <-.
  assert (data i = d) as Hd by (destruct Hda as [_ (b1 & Hb1 & <-)], Hdata as [_ (b2 & Hb2 & <-)]; congruence).
  destruct (compose_parse lit (memory s) file_name name USTAR_REGULAR (dlength d) (heap (buffers s)))
    as (mh & Hmk & _ & Hparse & Hcstr & _ & _ & _ & Hok'); [done..|by left|lia|].
  pose proof Hok' as (_ & Hblk & _). destruct (block_bytes mh (heap (buffers s)) 512 Hblk) as (h & Hlh & Hbh).
  set (s1 := mkUtil (fsys s) (scratch s) (memory s) (S (buffers s)) (heap (buffers s) :: held s) (extract_sector s) (append_sector s) (console s ++ append_text name)).
  pose proof (writable_size _ _ _ Hdev) as HNb.
  set (s2 := copying s1 x f a 0 k (scratch s) mh (append_sector s + 1)).
  destruct (run_write_sector s2 b N (append_sector s) (heap (buffers s)) h) as (sc1 & Hw1 & Hdev1 & _ & Hc1); [done|lia|done|done|].
  rewrite <- Hd in Hn, Hmk. rewrite (append_head s file_name name f a i x k b mh _ eq_refl) by (done || lia || (unfold NULL; lia)).
  fold s1 s2. rewrite (sbind_run _ _ _ _ _ Hw1).
  destruct (append_tail s1 b N f a i x 0 k sc1 mh (append_sector s + 1) n (heap (buffers s))) with (others := held s)
    as [[Hno Htail]|(k2 & sc2 & m2 & Htail & Hdev2 & Hc2)]; try done; try lia.
  { rewrite Hdk. by apply rt_disk in Hroot. }
  { by rewrite Hdk, Hd. }
  { by apply byte_block_mapped. }
  { left. split; [exact Htail|done]. }
  right. rewrite Hd in *. exists k2, sc2, m2, h, mh. split; [|split; [done|split; [done|]]].
  - rewrite <- Hn in Htail. exact Htail.
  - intros j. cbv zeta. rewrite Hc2, Hc1, Hdk, Hn. cbn [scratch s2 copying].
    destruct (Z.eqb_spec (j - append_sector s) 0), (Z.eqb_spec j (append_sector s)); try lia.
    + destruct (Z.leb_spec (append_sector s + 1) j), (Z.eqb_spec j (append_sector s + 1 + Z.of_nat n)),
        (Z.eqb_spec j (append_sector s + 1 + Z.of_nat n + 1)); cbn [andb orb]; (done || lia).
    + destruct (Z.leb_spec (append_sector s + 1) j), (Z.leb_spec 1 (j - append_sector s)),
        (Z.ltb_spec j (append_sector s + 1 + Z.of_nat n)), (Z.ltb_spec (j - append_sector s) (1 + Z.of_nat n)),
        (Z.eqb_spec j (append_sector s + 1 + Z.of_nat n)), (Z.eqb_spec (j - append_sector s) (1 + Z.of_nat n)),
        (Z.eqb_spec j (append_sector s + 1 + Z.of_nat n + 1)), (Z.eqb_spec (j - append_sector s) (2 + Z.of_nat n));
        cbn [andb orb]; first [lia|done|f_equal; lia].
Qed.
End append.

(** ** An archive *)

(** A scratch device of eight sectors; literals from address 5000 on, a file
    name at 9000, buffers of 512 bytes from 16384 on. *)
Definition demo_scratch : bstate (list (list Z)) :=
  mkBstate [mkBlock (chars "hdb") BLOCK_RAW 8 (Disk 0) 0 0] [None; None; Some 0%nat; None] [replicate 8 (replicate 512 9)] 0 [].

Definition demo_ram (name : list Z) : mem :=
  write_bytes (foldl (fun m s => write_bytes m (sample_lit s) (chars s ++ [0])) (write_bytes ∅ 9000 (name ++ [0])) Ustar.literals)
    16384 (replicate 2560 7).

Definition demo_heap (n : nat) : Z := 16384 + 512 * Z.of_nat n.
Definition demo_junk : list Z := replicate 20 204.

Definition demo_util : util (list (list Z)) := mkUtil demo_files demo_scratch (demo_ram (chars "a")) 0 [] 0 3 [].

Lemma demo_buffer name q : 16384 <= q < 16384 + 2560 -> demo_ram name !! q = Some 7.
Proof.
  intros Hq. unfold demo_ram. generalize (foldl (fun m s => write_bytes m (sample_lit s) (chars s ++ [0])) (write_bytes ∅ 9000 (name ++ [0])) Ustar.literals).
  intros m. pose proof (write_bytes_at m 16384 (replicate 2560 7)) as Hb. replace q with (16384 + Z.of_nat (Z.to_nat (q - 16384))) by lia.
  apply Hb. apply lookup_replicate. split; [reflexivity|lia].
Qed.

Lemma demo_header_ok : header_ok sample_lit (demo_heap 0) (demo_ram (chars "a")).
Proof.
  split; [repeat constructor; apply check_cstr; by vm_compute|]. split; [|split; [done|split; [done|]]].
  - intros q Hq. exists 7. split; [|lia]. apply demo_buffer. unfold demo_heap in Hq. lia.
  - repeat (apply Forall_cons_2; [right; by vm_compute|]). apply Forall_nil_2.
Qed.

Lemma demo_append_ready : append_ready demo_heap sample_lit demo_util 9000 (chars "a") demo_root 3 demo_exe 0 8.
Proof.
  split.
  - exact demo_root_ok.
  - by apply check_cstr; vm_compute.
  - by vm_compute.
  - split; [done|]. split; [lia|]. by vm_compute.
  - split; [intros *; cbn [fsys demo_util inodes demo_files]; by rewrite lookup_empty|]. by eexists.
  - by split_and!.
  - exact demo_header_ok.
  - right. by vm_compute.
  - set_solver.
  - by vm_compute.
  - done.
  - split; [|by eexists]. intros [|b] x; [intros [= <-]|done]. split; [done|]. by eexists.
  - split; [done|]. by vm_compute.
Qed.

(** The file is appended; without memory for its inode the kernel panics. *)
Lemma fsutil_append_correct_witness :
  (exists k sc m h mh, fsutil_append (fun _ => true) demo_junk demo_heap sample_lit 9000 demo_util =
      Ret (tt, mkUtil (with_allocs demo_files k) sc m 1 [] 0 5 (append_text (chars "a"))) /\
    writable sc 0 8 /\
    (length h = 512%nat /\ bytes_at mh 16384 h /\
     ustar_parse_header sample_lit mh 16384 = Ret (inr (16384, USTAR_REGULAR, 84)) /\ cstr mh 16384 (chars "a")) /\
    forall j, contents sc 0 j =
      let i := j - 3 in let n := (84 + 511) / 512 in
      if i =? 0 then h
      else if (1 <=? i) && (i <? 1 + n) then padded (disk demo_files) demo_exe (512 * (i - 1))
      else if (i =? 1 + n) || (i =? 2 + n) then replicate 512 0
      else contents demo_scratch 0 j) /\
  fsutil_append (fun _ => false) demo_junk demo_heap sample_lit 9000 demo_util = Err Panicked.
Proof.
  split.
  - destruct (fsutil_append_correct (fun _ => true) demo_junk eq_refl demo_heap sample_lit demo_util 9000 (chars "a")
      demo_root 3 demo_exe 0 8 demo_append_ready) as [[_ Hno]|H]; [by destruct Hno|exact H].
  - destruct (fsutil_append_correct (fun _ => false) demo_junk eq_refl demo_heap sample_lit demo_util 9000 (chars "a")
      demo_root 3 demo_exe 0 8 demo_append_ready) as [[H _]|(k & sc & m & h & mh & H & _)]; [exact H|].
    apply (f_equal (fun o => match o with Ret _ => true | Err _ => false end)) in H. vm_compute in H. discriminate H.
Defined.

(** There and back: a file of 700 bytes with a name outside of the root
    directory is put into an archive and extracted again, under its stripped
    name and with its contents; the archive is erased. *)
Definition there_and_back : ST (util (list (list Z))) (list Z) :=
  let ok := fun _ => true in
  do! _ := in_fs (filesys_init ok (fun n => replicate n 0) true) in
  do! _ := in_fs (filesys_create ok demo_junk (chars "../a") 700) in
  do! f := in_fs (filesys_open ok demo_junk (chars "../a")) in
  do! _ := in_fs (file_write ok f ((fun i => Z.of_nat i mod 251) <$> seq 0 700) 700) in
  do! _ := in_fs (file_close ok f) in
  do! _ := fsutil_append ok demo_junk demo_heap sample_lit 9000 in
  do! _ := fsutil_extract ok demo_junk demo_heap sample_lit in
  do! f := in_fs (filesys_open ok demo_junk (chars "a")) in
  in_fs (file_read ok f 1000).

Example archive_round_trip :
  match there_and_back (mkUtil blank_disk demo_scratch (demo_ram (chars "../a")) 0 [] 0 0 []) with
  | Ret (l, s) => l = (fun i => Z.of_nat i mod 251) <$> seq 0 700 /\
      take 2 (default [] (disks (scratch s) !! 0%nat)) = replicate 2 (replicate 512 0) /\ held s = []
  | Err _ => False
  end.
Proof. vm_compute. by split. Qed.
